(* ===== verification/_CoqProject ===== *)
-Q . S2P
Prelude.v
CLib.v
Crc.v
Queue.v
TemplateRecord.v
DataRecord.v
Message.v
Convert.v
PacketBuilder.v
TemplateManager.v
TemplateMapper.v
Preprocessor.v
Forwarding.v
Filter.v
FilterMessages.v
Anonymization.v
Bitset.v
Profiles.v
ProfileEvents.v
FastHash.v
FastHashCache.v
Unirec.v
UnirecRecords.v
