(* ===== verification/Prelude.v ===== *)
(** * IPFIXcol: verification library of the flow collector

    IPFIXcol receives IPFIX and NetFlow packets of exporters, keeps track of the
    templates that describe the records in them, and gives messages with their
    templates to intermediate and storage plugins.  This library models the core
    of the collector ([src/base/src]) and proves what its parts promise.

    ** The program and its parts

    An input plugin receives a packet, has it converted to IPFIX when it is
    NetFlow ([utils/conversion/convert.c]) and calls [preprocessor_parse_msg]
    ([preprocessor.c]).  The preprocessor makes a message of the packet
    ([ipfix_message.c]), gives its template sets to the template manager
    ([template_manager.c]) under the key of the source (the CRC-32 of its address,
    [crc.c], and its observation domain), couples data sets with their templates
    and writes the message into a ring buffer ([queues.c]) that the threads of the
    next stage read.  Plugins use the functions of [ipfix_message.c] and
    [template_manager.c] to find fields in records.  The forwarding plugin
    ([storage/forwarding/forwarding.c]) maps the template identifiers of several
    sources to common ones ([utils/template_mapper/template_mapper.c]) and puts the
    sets of a message into packets of its own ([storage/forwarding/packet.c]).  The
    anonymization plugin ([intermediate/anonymization]) replaces addresses in place; the
    filter plugin ([intermediate/filter]) makes of a message one with the records that fit
    for every profile of its source.
    Records are put into the channels of a tree of profiles ([utils/profiles]): the
    profiler matches a record ([profiles.cpp], [Profile.cpp], [Channel.cpp]), and
    plugins that store per channel follow the changes of the tree and get each record
    through [profile_events.c], which marks channels in sets of bits ([bitset.c]).  The
    UniRec plugin ([plugins/storage/unirec]) copies the fields of records into records
    of the NEMEA system; it finds the fields in a hash table of its own
    ([fast_hash_table.c], [hashes.h]).

    ** The files

    - [Prelude] (this file): results with faults ([res]), loops with fuel, packets
      as lists of octets with bounded reads and writes in network order ([rd16],
      [wr32], ...), machine integers ([u8] to [u64]), tactics and general lemmas.
    - [CLib]: [memmove], [memset], [atoi], [strtol] and decimal numbers; strings of C in
      memory and numbers in the order of a little-endian host.
    - [Crc]: [crc.c]; [crc32_is_reference].
    - [Queue]: [queues.c]; the class [MessageQueue] states what the preprocessor
      needs of a queue, and the ring buffer is an instance of it.
    - [TemplateRecord]: the template records of a packet and their host form
      ([struct ipfix_template]), [tm_template_length] to [tm_create_template].
    - [DataRecord]: fields of templates and of data records, walks over the records
      of data and template sets ([template_manager.c], [ipfix_message.c]).
    - [Message]: [struct ipfix_message]: construction, copies, disposal.
    - [Convert]: [convert.c]: NetFlow 5 and 9 packets become IPFIX in place.
    - [TemplateManager]: the records of the sources and the chains of templates as
      heap objects, with the counts of references.
    - [TemplateMapper]: maintainers, groups and sources of [template_mapper.c].
    - [PacketBuilder]: [packet.c]: packets made out of parts of received ones.
    - [Preprocessor]: [preprocessor.c] on top of messages, templates and the queue.
    - [Forwarding]: [forwarding.c] on top of the mapper and the packet builder.
    - [Filter]: [filter.c] and the actions of its parser: trees of conditions, the
      decision for a record, the message of a profile, the configuration; over any
      [regcomp], [regexec], [inet_pton], [mktime], XPath and [yyparse].
      [FilterMessages]: what is passed on for a message.
    - [Anonymization]: [anonymization_ip.c] and [panonymizer.c], over any cipher.
    - [Bitset]: [bitset.c] and [bitset.h].
    - [Profiles]: the tree of profiles and channels: construction from a document,
      the match of a record, the accessors.
    - [ProfileEvents]: [profile_events.c] on top of [Profiles] and [Bitset], over any
      callbacks of the plugin.
    - [FastHash]: [fast_hash_table.c], [fast_hash_table.h] and [hashes.h], on the flat
      arrays of the table; [FastHashCache]: the promise of the table, a cache of rows
      with a stash, and that every operation keeps it.
    - [Unirec]: the part of [unirec.c] that converts and sends records, and the
      look-up of fields; [UnirecRecords]: what it sends.

    The definitions have the names of the C functions; a suffix [_step] is the body
    of a loop of the function.

    ** What the theorems show

    - Round trips: encoded templates, messages and records are read back
      ([tm_create_template_parses], [message_create_from_mem_parses],
      [data_record_field_offset_finds], [data_record_set_field_updates],
      [data_set_process_records_each], [template_set_process_records_each]).
    - Conversion: [convert_packet_nf5] and [convert_packet_nf9] say which IPFIX message
      the buffer holds afterwards, octet for octet; [convert_packet_nf5_typed] says that the
      template put in front of the records of NetFlow 5 is parsed there and describes
      them.
    - Invariants of the state under every sequence of operations
      ([tm_reachable_safe], [tmapper_reachable_consistent],
      [ring_exactly_once_in_order]) and refinement of an abstract queue
      ([ring_refines_fifo]).
    - The forwarding plugin: [builder_refines_packets] gives the packets that come out of
      the builder octet for octet, and [fwd_parse_msg_forwards] that receivers always have
      the templates of the data sets they get.
    - The filter: [filter_fits_node_holds] gives the meaning of a tree of conditions on the
      values of a record, [process_message_filters] the messages that are passed on, octet
      for octet, with their couples, metadata and sources.
    - Anonymization: [intermediate_process_message_anonymizes] and
      [anonymize_keeps_prefixes].
    - Profiles: [process_profile_xml_builds] gives well-formed trees,
      [profile_match_data_reaches] the channels of a record;
      [pevents_process_reconfigures] and [pevents_process_once] say what plugins see.
    - The hash table is a cache of rows, least recently used first out, with a ring as
      stash ([fht_refines_cache]), and iterators come to every item and to an end
      ([fht_iter_visits_all]); [process_data_sets_sends] gives the UniRec records that
      are sent for a message, octet for octet, with the look-ups in the table.
    - Functional behaviour of the operations on templates ([tm_add_template_get],
      [tm_update_template_get], [tm_remove_template_get],
      [tm_remove_all_odid_templates_spec], the [tmapper_] group) and of the
      preprocessor ([preprocessor_parse_msg_data], [preprocessor_process_one_template_learns],
      [sequence_numbers_count_domain]).
    - What goes wrong: overflows, loops without end and dangling pointers that the
      code admits are theorems as well ([tm_create_template_heap_overflow],
      [tm_record_insert_template_wraps], [zero_length_records_diverge],
      [tm_remove_template_dangles], [tmapper_withdraw_ids_dangles],
      [options_scope_termination], [table_check_off_by_one], [pevents_process_loses_record],
      [fht_init_wraps], [ip_overflow]).

    ** Conventions

    A packet is a list of octets; an access outside of it, to a freed object or to an
    absent one is a [Fault].  Objects that several structures point to live in heaps
    ([gmap loc]).  Loops whose number of turns is not that of a list are [loop] with
    fuel; [OutOfFuel] is no behaviour of the code: the theorems prove a result for the
    fuel that the definitions choose (the number of octets that are left, of places in
    a chain, or of states), or that no fuel is enough.  Allocation succeeds.
    Messages of the log ([MSG_*]) are left out.  Calls of one component follow one
    another; [Queue] models the interleaving of its operations.  The clock is an
    argument of each call.  [Convert] and [Unirec] are for a little-endian host.  A spin
    lock ([FastHash]) gets one try: a lock that is held is never released by the same
    thread, so a second try would not help ([spin_lock_held]).

    ** Not modelled

    sFlow (compiled out by default); the threads and sockets of the input plugins, the
    data and output managers and the configurator (threads, files and XML); the sockets and
    the configuration of the forwarding plugin; the intermediate plugins that join flows,
    check times, set domains or add elements with other libraries (GeoIP, SQLite, RRD);
    reading and writing of IPFIX files; the plugins that store flow data in other formats
    (FastBit, nfdump, LNF, JSON, PostgreSQL), which are calls of other libraries; the
    tools.  The vendored pugixml and Rijndael are third-party code, the scanner and the
    grammar of the filter are generated.  The manifest lists these parts one by one.
*)

From stdpp Require Export base tactics numbers list option gmap sorting.
From Stdlib Require Export ZArith Lia.
#[global] Open Scope Z_scope.

(** ** Machine integers *)

(** Unsigned integers are [Z] with the wrap-around written out. *)
Definition u8 (x : Z) : Z := x mod 256.
Definition u16 (x : Z) : Z := x mod 65536.
Definition u32 (x : Z) : Z := x mod 4294967296.
Definition u64 (x : Z) : Z := x mod 18446744073709551616.

Lemma u16_small x : 0 ≤ x < 65536 → u16 x = x.
Proof. apply Z.mod_small. Qed.
Lemma u32_small x : 0 ≤ x < 4294967296 → u32 x = x.
Proof. apply Z.mod_small. Qed.
Lemma u16_range x : 0 ≤ u16 x < 65536.
Proof. by apply Z.mod_pos_bound. Qed.

Create HintDb ipfix.
Create Rewrite HintDb ipfix.

(** ** Results of C code *)

(** What can go wrong in a call: an access outside an allocated object, an
    access through a pointer whose object was freed, through [NULL], through a
    pointer cast to a layout the object does not have, a division by zero. *)
Inductive fault :=
  | OobRead
  | OobWrite
  | UseAfterFree
  | NullDeref
  | BadCast
  | DivByZero.

(** [OutOfFuel] is not a behaviour of the code: it marks a loop that was cut
    off, and every loop below is shown either never to return it or to do so
    for every amount of fuel (the loop does not terminate). *)
Inductive res (A : Type) :=
  | Ok (a : A)
  | Fault (f : fault)
  | OutOfFuel.
Arguments Ok {A} a.
Arguments Fault {A} f.
Arguments OutOfFuel {A}.

#[export] Instance fault_eq_dec : EqDecision fault.
Proof. solve_decision. Defined.
#[export] Instance res_eq_dec `{EqDecision A} : EqDecision (res A).
Proof. solve_decision. Defined.

#[export] Instance res_ret : MRet res := λ A a, Ok a.
#[export] Instance res_bind : MBind res := λ A B k m,
  match m with Ok a => k a | Fault f => Fault f | OutOfFuel => OutOfFuel end.
#[export] Instance res_fmap : FMap res := λ A B g m,
  match m with Ok a => Ok (g a) | Fault f => Fault f | OutOfFuel => OutOfFuel end.

(** A pointer dereference or bounded array access seen as a result. *)
Definition or_fault {A} (f : fault) (o : option A) : res A :=
  match o with Some a => Ok a | None => Fault f end.

Section res.
Context {A B : Type}.

Lemma res_bind_Ok (m : res A) (k : A → res B) b :
  m ≫= k = Ok b ↔ ∃ a, m = Ok a ∧ k a = Ok b.
Proof. destruct m; naive_solver. Qed.

Lemma res_bind_ret (a : A) (k : A → res B) : Ok a ≫= k = k a.
Proof. done. Qed.

Lemma res_fmap_Ok (g : A → B) (m : res A) b :
  g <$> m = Ok b ↔ ∃ a, m = Ok a ∧ b = g a.
Proof. destruct m; naive_solver. Qed.

Lemma or_fault_Ok f (o : option A) a : or_fault f o = Ok a ↔ o = Some a.
Proof. destruct o; naive_solver. Qed.
End res.
#[export] Hint Rewrite @res_bind_ret : ipfix.

(** Inversion of monadic equations in the hypotheses. *)
Ltac inv_res :=
  repeat match goal with
  | H : (_ ≫= _) = Ok _ |- _ => apply res_bind_Ok in H; destruct H as (?&?&H)
  | H : (_ <$> _) = Ok _ |- _ => apply res_fmap_Ok in H; destruct H as (?&H&?)
  | H : or_fault _ _ = Ok _ |- _ => apply or_fault_Ok in H
  | H : mret _ = Ok _ |- _ => injection H as H
  | H : Ok _ = Ok _ |- _ => injection H as H
  | H : Fault _ = Ok _ |- _ => discriminate H
  | H : OutOfFuel = Ok _ |- _ => discriminate H
  end; simplify_eq/=.

(** ** Loops *)

(** A loop over a list, with a body that may fault. *)
Definition fold_res {A X} (f : X → A → res X) (l : list A) (x : X) : res X := foldl (λ x a, y ← x; f y a) (Ok x) l.

Section fold_res.
Context {A X : Type} (f : X → A → res X).

Lemma fold_res_nil x : fold_res f [] x = Ok x.
Proof. done. Qed.

Lemma fold_res_cons a l x : fold_res f (a :: l) x = (y ← f x a; fold_res f l y).
Proof.
  unfold fold_res. cbn [foldl]. rewrite res_bind_ret. destruct (f x a) as [y|e|]; [done|..];
  (induction l as [|b l IH]; [done|exact IH]).
Qed.

Lemma fold_res_app l1 l2 x : fold_res f (l1 ++ l2) x = (y ← fold_res f l1 x; fold_res f l2 y).
Proof.
  revert x. induction l1 as [|a l1 IH]; intros x; [done|]. rewrite <-app_comm_cons, !fold_res_cons.
  destruct (f x a) as [y|e|]; [|done..]. by rewrite !res_bind_ret.
Qed.

Lemma fold_res_fmap {B} (g : B → A) l x : fold_res f (g <$> l) x = fold_res (λ x b, f x (g b)) l x.
Proof. unfold fold_res. revert x. cut (∀ r, foldl (λ x a, y ← x; f y a) r (g <$> l) = foldl (λ x b, y ← x; f y (g b)) r l); [auto|]. induction l as [|b l IH]; intros r; [done|]. apply IH. Qed.

(** An invariant over the elements that are done and those that are left. *)
Lemma fold_res_ind (I : list A → X → Prop) l x : I [] x →
  (∀ l1 a l2 y, l = l1 ++ a :: l2 → I l1 y → ∃ z, f y a = Ok z ∧ I (l1 ++ [a]) z) →
  ∃ z, fold_res f l x = Ok z ∧ I l z.
Proof.
  intros H0 Hs. assert (∀ l2 l1 y, l = l1 ++ l2 → I l1 y → ∃ z, fold_res f l2 y = Ok z ∧ I l z) as H;
    [|by apply (H l [])].
  induction l2 as [|a l2 IH]; intros l1 y E Hy.
  - rewrite app_nil_r in E. subst. by exists y.
  - destruct (Hs l1 a l2 y E Hy) as (z & Ez & Hz). rewrite fold_res_cons, Ez, res_bind_ret.
    apply (IH (l1 ++ [a])); [by rewrite <-app_assoc|done].
Qed.
End fold_res.

(** A loop whose body either continues with a new state ([inl]) or leaves it
    with a result ([inr]); [fuel] bounds the number of iterations. *)
Section loop.
Context {S R : Type} (body : S → res (S + R)).

Fixpoint loop (fuel : nat) (s : S) : res R :=
  match fuel with
  | O => OutOfFuel
  | Datatypes.S n =>
      match body s with
      | Ok (inl s') => loop n s'
      | Ok (inr r) => Ok r
      | Fault f => Fault f
      | OutOfFuel => OutOfFuel
      end
  end.

(** Total correctness: an invariant and a measure that every continuing
    iteration decreases. *)
Lemma loop_total (I : S → Prop) (μ : S → nat) (Q : res R → Prop) :
  (∀ s, I s → match body s with
              | Ok (inl s') => I s' ∧ (μ s' < μ s)%nat
              | Ok (inr r) => Q (Ok r)
              | Fault f => Q (Fault f)
              | OutOfFuel => False
              end) →
  ∀ fuel s, I s → (μ s < fuel)%nat → Q (loop fuel s).
Proof.
  intros Hb fuel. induction fuel as [|n IH]; intros s HI Hμ; [lia|].
  cbn [loop]. specialize (Hb s HI).
  destruct (body s) as [[s'|r]|f|]; [|done..|done].
  destruct Hb. apply IH; [done|lia].
Qed.

(** Partial correctness. *)
Lemma loop_Ok_inv (I : S → Prop) (Q : R → Prop) :
  (∀ s, I s → match body s with
              | Ok (inl s') => I s'
              | Ok (inr r) => Q r
              | _ => True
              end) →
  ∀ fuel s r, I s → loop fuel s = Ok r → Q r.
Proof.
  intros Hb fuel. induction fuel as [|n IH]; intros s r HI; cbn [loop]; [done|].
  specialize (Hb s HI). destruct (body s) as [[s'|r']|f|]; [|naive_solver..].
  eauto.
Qed.

(** A loop that always continues never ends. *)
Lemma loop_diverges (I : S → Prop) :
  (∀ s, I s → ∃ s', body s = Ok (inl s') ∧ I s') →
  ∀ fuel s, I s → loop fuel s = OutOfFuel.
Proof.
  intros Hb fuel. induction fuel as [|n IH]; intros s HI; cbn [loop]; [done|].
  destruct (Hb s HI) as (s'&->&?). auto.
Qed.

(** More fuel does not change a result. *)
Lemma loop_more_fuel n m s r :
  loop n s = r → r ≠ OutOfFuel → (n ≤ m)%nat → loop m s = r.
Proof.
  revert m s. induction n as [|n IH]; intros m s; cbn [loop]; [naive_solver|].
  intros Hl Hr Hle. destruct m as [|m]; [lia|]. cbn [loop].
  destruct (body s) as [[s'|r']|f|]; [|done..|done].
  apply IH; [done..|lia].
Qed.

(** A loop that goes over a list: [st l] is the state when the elements of [l]
    are done. *)
Lemma loop_over {X} (xs : list X) (st : list X → S) (out : res R) fuel :
  (∀ l x r, xs = l ++ x :: r → body (st l) = Ok (inl (st (l ++ [x])))) →
  (∀ n, loop (Datatypes.S n) (st xs) = out) →
  (length xs < fuel)%nat →
  loop fuel (st []) = out.
Proof.
  intros Hstep Hlast.
  assert (∀ r l n, xs = l ++ r → (length r < n)%nat → loop n (st l) = out) as H.
  { induction r as [|x r IH]; intros l [|n] E Hn; cbn [length] in Hn; try lia.
    - rewrite app_nil_r in E. subst. apply Hlast.
    - cbn [loop]. rewrite (Hstep _ _ _ E). apply IH; [by rewrite <-app_assoc|lia]. }
  by apply H.
Qed.

Lemma loop_exit s r : body s = Ok (inr r) → ∀ n, loop (Datatypes.S n) s = Ok r.
Proof. intros E n. cbn [loop]. by rewrite E. Qed.
End loop.

(** ** Loops over a range *)

(** The values [a], [a + 1], ... of a loop with [n] iterations ([seqZ], whose
    elements are computed from unary numbers, is too slow to evaluate). *)
Fixpoint range (a : Z) (n : nat) : list Z :=
  match n with O => [] | S n => a :: range (a + 1) n end.

Lemma range_seqZ a n : range a n = seqZ a (Z.of_nat n).
Proof.
  revert a. induction n as [|n IH]; intros a; [done|]. cbn [range].
  rewrite IH, (seqZ_cons a (Z.of_nat (S n))) by lia. f_equal. f_equal; lia.
Qed.

Lemma elem_of_range a n x : x ∈ range a n ↔ a ≤ x < a + Z.of_nat n.
Proof. rewrite range_seqZ. apply elem_of_seqZ. Qed.

Lemma NoDup_range a n : NoDup (range a n).
Proof. rewrite range_seqZ. apply NoDup_seqZ. Qed.

(** A [for] loop over the values [xs]: the body continues with a new state
    ([inl]) or leaves the loop ([inr]: [return], or [break] with the state). *)
Section for_each.
Context {X S R : Type} (body : X → S → res (S + R)).

Fixpoint for_each (xs : list X) (s : S) : res (S + R) :=
  match xs with
  | [] => Ok (inl s)
  | x :: xs =>
      r ← body x s;
      match r with inl s => for_each xs s | inr r => Ok (inr r) end
  end.

(** An invariant indexed by the values that are done. *)
Lemma for_each_total (I : list X → S → Prop) (Q : S + R → Prop) xs :
  (∀ l x r s, xs = l ++ x :: r → I l s →
     ∃ o, body x s = Ok o ∧ match o with inl s' => I (l ++ [x]) s' | inr o => Q (inr o) end) →
  (∀ s, I xs s → Q (inl s)) →
  ∀ s, I [] s → ∃ o, for_each xs s = Ok o ∧ Q o.
Proof.
  intros Hbody Hend s.
  assert (∀ r l s, xs = l ++ r → I l s → ∃ o, for_each r s = Ok o ∧ Q o) as H.
  { clear s. induction r as [|x r IH]; intros l s E HI; cbn [for_each].
    - rewrite app_nil_r in E. subst. eauto.
    - destruct (Hbody l x r s E HI) as ([s'|o] & -> & H); cbn; [|by eexists].
      apply (IH (l ++ [x])); [by rewrite <-app_assoc|done]. }
  by apply (H xs []).
Qed.
End for_each.

(** ** First element with a property *)

Section find_split.
Context {X : Type} (P : X → Prop) `{∀ x, Decision (P x)}.

(** The elements in front of the first one with the property, and that one. *)
Fixpoint find_split (xs : list X) : option (list X * X) :=
  match xs with
  | [] => None
  | x :: xs => if decide (P x) then Some ([], x)
               else prod_map (cons x) id <$> find_split xs
  end.

Lemma find_split_Some xs l x : find_split xs = Some (l, x) →
  ∃ r, xs = l ++ x :: r ∧ Forall (λ y, ¬ P y) l ∧ P x.
Proof.
  revert l. induction xs as [|y xs IH]; intros l; [done|]. cbn. case_decide as HP.
  - intros [= <- <-]. by exists xs.
  - intros ([l' x'] & E & [= -> ->])%fmap_Some.
    destruct (IH _ E) as (r & -> & ? & ?). exists r. split; [done|]. split; [by constructor|done].
Qed.

Lemma find_split_None xs : find_split xs = None → Forall (λ y, ¬ P y) xs.
Proof.
  induction xs as [|y xs IH]; [by constructor|]. cbn. case_decide; [done|].
  intros ?%fmap_None. constructor; auto.
Qed.
Lemma find_split_first l x r : Forall (λ y, ¬ P y) l → P x → find_split (l ++ x :: r) = Some (l, x).
Proof.
  intros Hl Hx. induction Hl as [|y l Hy _ IH]; cbn; [by rewrite decide_True|].
  rewrite decide_False by done. by rewrite IH.
Qed.

(** A loop that looks for the first element with the property: [st l] is the state when
    the elements of [l] are behind it, [hit] and [miss] are its results. *)
Lemma loop_find {S R} (body : S → res (S + R)) (xs : list X) (st : list X → S) (hit : list X → X → R) (miss : R) fuel :
  (∀ l x r, xs = l ++ x :: r → body (st l) = Ok (if decide (P x) then inr (hit l x) else inl (st (l ++ [x])))) →
  body (st xs) = Ok (inr miss) → (length xs < fuel)%nat →
  loop body fuel (st []) = Ok (match find_split xs with Some (l, x) => hit l x | None => miss end).
Proof.
  intros Hstep Hend Hf. destruct (find_split xs) as [ [l x]|] eqn:E.
  - destruct (find_split_Some _ _ _ E) as (r & Exs & Hno & Hyes). apply (loop_over _ l st).
    + intros l' x' r' El. rewrite El, <-app_assoc in Exs. rewrite (Hstep _ _ _ Exs).
      rewrite El in Hno. apply Forall_app in Hno as [_ [Hx _]%Forall_cons]. by rewrite decide_False.
    + apply loop_exit. rewrite (Hstep _ _ _ Exs). by rewrite decide_True.
    + rewrite Exs, length_app in Hf. lia.
  - apply find_split_None in E. apply (loop_over _ xs st); [|by apply loop_exit|done].
    intros l x r Exs. rewrite (Hstep _ _ _ Exs). rewrite Exs in E.
    apply Forall_app in E as [_ [Hx _]%Forall_cons]. by rewrite decide_False.
Qed.
End find_split.

(** Addresses of heap objects. *)
Abbreviation loc := positive.
Definition deref {A} (h : gmap loc A) (l : loc) : res A := or_fault UseAfterFree (h !! l).

Lemma Forall_elem {A} {P : A → Prop} {l} {x : A} : Forall P l → x ∈ l → P x.
Proof. rewrite Forall_forall. auto. Qed.

(** ** Linked lists in a heap *)

(** The objects reachable from [p] over the pointer [nxt] of each. *)
Section lchain.
Context {A : Type} {nxt : A → option loc}.
Implicit Types (h : gmap loc A) (p : option loc) (ls : list loc).

Fixpoint lchain h p ls : Prop :=
  match ls with
  | [] => p = None
  | l :: ls => p = Some l ∧ ∃ t, h !! l = Some t ∧ lchain h (nxt t) ls
  end.

Lemma lchain_det h p ls1 ls2 : lchain h p ls1 → lchain h p ls2 → ls1 = ls2.
Proof.
  revert p ls2. induction ls1 as [|l ls1 IH]; intros p [|l' ls2]; cbn.
  - done.
  - intros -> [? _]. done.
  - intros [-> _]. done.
  - intros (-> & t & Ht & H1) ([= <-] & t' & Ht' & H2). rewrite Ht in Ht'. simplify_eq.
    f_equal. by eapply IH.
Qed.

Lemma lchain_suffix h p a l b : lchain h p (a ++ l :: b) → lchain h (Some l) (l :: b).
Proof.
  revert p. induction a as [|x a IH]; intros p.
  - intros (-> & H). by split.
  - intros (_ & t & _ & H). by apply IH in H.
Qed.

Lemma lchain_NoDup h p ls : lchain h p ls → NoDup ls.
Proof.
  revert p. induction ls as [|l ls IH]; intros p H; [by constructor|].
  constructor; [|destruct H as (_ & t & _ & H); by apply IH in H].
  intros (a & b & ->)%list_elem_of_split.
  change (l :: a ++ l :: b) with ((l :: a) ++ l :: b) in H.
  pose proof (lchain_suffix _ _ _ _ _ H) as Hs. cbn [app] in H.
  destruct H as (-> & H). assert (lchain h (Some l) (l :: a ++ l :: b)) as H' by by split.
  pose proof (lchain_det _ _ _ _ Hs H') as E. apply (f_equal length) in E.
  cbn [length] in E. rewrite length_app in E. cbn [length] in E. lia.
Qed.

Lemma lchain_agree h h' p ls :
  (∀ l, l ∈ ls → h' !! l = h !! l) → lchain h p ls → lchain h' p ls.
Proof.
  revert p. induction ls as [|l ls IH]; intros p Hag; [done|].
  intros (-> & t & Ht & H). split; [done|]. exists t.
  split; [rewrite Hag by constructor; done|]. apply IH; [|done].
  intros l' Hl'. apply Hag. by constructor.
Qed.

Lemma lchain_allocated h p ls l : lchain h p ls → l ∈ ls → is_Some (h !! l).
Proof.
  revert p. induction ls as [|x ls IH]; intros p; [by intros _ ?%not_elem_of_nil|].
  intros (-> & t & Ht & H) [->|?]%elem_of_cons; [by eexists|by eapply IH].
Qed.

(** Changing the pointer of [e] to another continuation. *)
Lemma lchain_splice h h' p a e r' b c :
  lchain h p (a ++ e :: c) → (∀ x, x ∈ a → h' !! x = h !! x) →
  h' !! e = Some r' → lchain h' (nxt r') b → lchain h' p (a ++ e :: b).
Proof.
  revert p. induction a as [|x a IH]; intros p Hc Hag He Hb; cbn [app] in *.
  - destruct Hc as (-> & _). split; [done|]. by exists r'.
  - destruct Hc as (-> & t & Ht & Hc). split; [done|]. exists t.
    split; [rewrite Hag by constructor; done|]. apply IH; [done| |done|done].
    intros y Hy. apply Hag. by constructor.
Qed.

Lemma lchain_head h l c : lchain h (Some l) c → l ∈ c.
Proof. destruct c as [|x c]; [done|]. intros ([= ->] & _). constructor. Qed.
End lchain.
Arguments lchain {A} nxt h p ls : assert.

(** ** Memory *)

(** A contiguous allocated object: its bytes, each in [0, 256). *)
Abbreviation bytes := (list Z).

Definition is_byte (b : Z) : Prop := 0 ≤ b < 256.
Definition is_u16 (x : Z) : Prop := 0 ≤ x < 65536.
Definition is_u32 (x : Z) : Prop := 0 ≤ x < 4294967296.
Definition wf_bytes (m : bytes) : Prop := Forall is_byte m.

Definition blen (m : bytes) : Z := Z.of_nat (length m).

(** Reads at a byte offset. [rd16] and [rd32] are [ntohs] and [ntohl] of a
    load of the width: the big-endian value, whatever the host order. *)
Definition rd8 (m : bytes) (p : Z) : res Z :=
  if decide (0 ≤ p) then or_fault OobRead (m !! Z.to_nat p) else Fault OobRead.
Definition rd16 (m : bytes) (p : Z) : res Z :=
  a ← rd8 m p; b ← rd8 m (p + 1); Ok (a * 256 + b).
Definition rd32 (m : bytes) (p : Z) : res Z :=
  a ← rd16 m p; b ← rd16 m (p + 2); Ok (a * 65536 + b).

(** Writes, in place. *)
Definition wr8 (m : bytes) (p v : Z) : res bytes :=
  if decide (0 ≤ p < blen m) then Ok (<[Z.to_nat p := u8 v]> m) else Fault OobWrite.
Definition wr16 (m : bytes) (p v : Z) : res bytes :=
  m ← wr8 m p (v / 256); wr8 m (p + 1) v.
Definition wr32 (m : bytes) (p v : Z) : res bytes :=
  m ← wr16 m p (v / 65536); wr16 m (p + 2) v.

(** [memcpy]: read [n] bytes at [p]; write the bytes [v] at [p]. *)
Definition rdn (m : bytes) (p n : Z) : res bytes :=
  if decide (0 ≤ p ∧ 0 ≤ n ∧ p + n ≤ blen m)
  then Ok (take (Z.to_nat n) (drop (Z.to_nat p) m)) else Fault OobRead.
Definition wrn (m : bytes) (p : Z) (v : bytes) : res bytes :=
  if decide (0 ≤ p ∧ p + blen v ≤ blen m)
  then Ok (take (Z.to_nat p) m ++ v ++ drop (Z.to_nat (p + blen v)) m)
  else Fault OobWrite.

(** Big-endian encodings, for stating what a packet contains. *)
Definition enc16 (x : Z) : bytes := [u8 (x / 256); u8 x].
Definition enc32 (x : Z) : bytes := enc16 (x / 65536) ++ enc16 x.

(** *** Laws of the memory operations *)

Section memory.
Implicit Types (m l : bytes) (p n v x : Z).

Lemma blen_nonneg m : 0 ≤ blen m.
Proof. unfold blen. lia. Qed.

Lemma blen_nil : blen [] = 0.
Proof. done. Qed.

Lemma blen_cons x m : blen (x :: m) = 1 + blen m.
Proof. unfold blen. cbn [length]. lia. Qed.

Lemma blen_app l m : blen (l ++ m) = blen l + blen m.
Proof. unfold blen. rewrite length_app. lia. Qed.

Lemma blen_enc16 x : blen (enc16 x) = 2.
Proof. done. Qed.

Lemma blen_enc32 x : blen (enc32 x) = 4.
Proof. done. Qed.

Lemma rd8_Some m p v : rd8 m p = Ok v ↔ 0 ≤ p ∧ m !! Z.to_nat p = Some v.
Proof. unfold rd8. case_decide; rewrite ?or_fault_Ok; naive_solver. Qed.

Lemma rd8_in_bounds m p : 0 ≤ p < blen m → ∃ v, rd8 m p = Ok v.
Proof.
  intros [? Hp]. unfold rd8. rewrite decide_True by done.
  destruct (lookup_lt_is_Some_2 m (Z.to_nat p)) as [v ->]; [unfold blen in Hp; lia|].
  by exists v.
Qed.

Lemma rd8_bounds m p v : rd8 m p = Ok v → 0 ≤ p < blen m.
Proof.
  intros [? Hl%lookup_lt_Some]%rd8_Some. unfold blen. lia.
Qed.

Lemma rd8_oob m p : ¬ (0 ≤ p < blen m) → rd8 m p = Fault OobRead.
Proof.
  intros Hp. unfold rd8. case_decide; [|done].
  rewrite lookup_ge_None_2; [done|]. unfold blen in Hp. lia.
Qed.

Lemma rd8_range m p v : wf_bytes m → rd8 m p = Ok v → is_byte v.
Proof. intros Hm [_ Hl]%rd8_Some. by eapply Forall_lookup_1. Qed.

Lemma rd16_in_bounds m p : 0 ≤ p → p + 2 ≤ blen m → ∃ v, rd16 m p = Ok v.
Proof.
  intros ??. unfold rd16.
  destruct (rd8_in_bounds m p) as [a ->]; [lia|].
  destruct (rd8_in_bounds m (p + 1)) as [b ->]; [lia|]. by eexists.
Qed.

Lemma rd16_bounds m p v : rd16 m p = Ok v → 0 ≤ p ∧ p + 2 ≤ blen m.
Proof.
  unfold rd16. intros H. inv_res.
  repeat match goal with H : rd8 _ _ = Ok _ |- _ => apply rd8_bounds in H end. lia.
Qed.

Lemma rd16_range m p v : wf_bytes m → rd16 m p = Ok v → is_u16 v.
Proof.
  unfold rd16. intros Hm H. inv_res.
  repeat match goal with
  | H : rd8 _ _ = Ok _ |- _ => apply (rd8_range _ _ _ Hm) in H end.
  unfold is_byte, is_u16 in *. lia.
Qed.

Lemma rd32_range m p v : wf_bytes m → rd32 m p = Ok v → is_u32 v.
Proof.
  unfold rd32. intros Hm H. inv_res.
  repeat match goal with
  | H : rd16 _ _ = Ok _ |- _ => apply (rd16_range _ _ _ Hm) in H end.
  unfold is_u16, is_u32 in *. lia.
Qed.

Lemma rd32_in_bounds m p : 0 ≤ p → p + 4 ≤ blen m → ∃ v, rd32 m p = Ok v.
Proof.
  intros ??. unfold rd32.
  destruct (rd16_in_bounds m p) as [a ->]; [lia..|].
  destruct (rd16_in_bounds m (p + 2)) as [b ->]; [lia..|]. by eexists.
Qed.

(** Reads commute with concatenation. *)
Lemma rd8_app_r l m p : 0 ≤ p → rd8 (l ++ m) (blen l + p) = rd8 m p.
Proof.
  intros ?. pose proof (blen_nonneg l). unfold rd8. rewrite !decide_True by lia.
  rewrite lookup_app_r by (unfold blen; lia).
  f_equal. f_equal. unfold blen in *. lia.
Qed.

Lemma rd8_app_l l m p : p < blen l → rd8 (l ++ m) p = rd8 l p.
Proof.
  intros ?. unfold rd8. case_decide; [|done].
  rewrite lookup_app_l; [done|]. unfold blen in *. lia.
Qed.

Lemma rd16_app_r l m p : 0 ≤ p → rd16 (l ++ m) (blen l + p) = rd16 m p.
Proof.
  intros ?. unfold rd16. rewrite rd8_app_r by done.
  by rewrite <-Z.add_assoc, rd8_app_r by lia.
Qed.

Lemma rd16_app_l l m p : p + 1 < blen l → rd16 (l ++ m) p = rd16 l p.
Proof. intros ?. unfold rd16. by rewrite !rd8_app_l by lia. Qed.

Lemma rd32_app_r l m p : 0 ≤ p → rd32 (l ++ m) (blen l + p) = rd32 m p.
Proof.
  intros ?. unfold rd32. rewrite rd16_app_r by done.
  by rewrite <-Z.add_assoc, rd16_app_r by lia.
Qed.

Lemma rd32_app_l l m p : p + 3 < blen l → rd32 (l ++ m) p = rd32 l p.
Proof. intros ?. unfold rd32. by rewrite !rd16_app_l by lia. Qed.

Lemma u16_split x : is_u16 x → u8 (x / 256) * 256 + u8 x = x.
Proof. unfold is_u16, u8. intros. Z.to_euclidean_division_equations; lia. Qed.

Lemma rd8_here l x m : rd8 (l ++ x :: m) (blen l) = Ok x.
Proof.
  replace (blen l) with (blen l + 0) by lia. by rewrite rd8_app_r by lia.
Qed.

Lemma rd16_cons2 a b m : rd16 (a :: b :: m) 0 = Ok (a * 256 + b).
Proof. reflexivity. Qed.

Lemma rd16_here l x m : is_u16 x → rd16 (l ++ enc16 x ++ m) (blen l) = Ok x.
Proof.
  intros ?. replace (blen l) with (blen l + 0) by lia. rewrite rd16_app_r by lia.
  unfold enc16. cbn [app]. by rewrite rd16_cons2, u16_split.
Qed.

Lemma rd16_enc16 x m : is_u16 x → rd16 (enc16 x ++ m) 0 = Ok x.
Proof. apply (rd16_here []). Qed.

Lemma rd32_here l x m : is_u32 x → rd32 (l ++ enc32 x ++ m) (blen l) = Ok x.
Proof.
  intros Hx. replace (blen l) with (blen l + 0) by lia. rewrite rd32_app_r by lia.
  unfold rd32, enc32, is_u32 in *. rewrite <-app_assoc, rd16_enc16.
  2: { unfold is_u16. Z.to_euclidean_division_equations; lia. }
  change (0 + 2) with (blen (enc16 (x / 65536)) + 0). rewrite rd16_app_r by lia.
  unfold enc16. cbn [app]. rewrite rd16_cons2, !res_bind_ret. f_equal. unfold u8.
  Z.to_euclidean_division_equations; lia.
Qed.

Lemma wf_bytes_app l m : wf_bytes (l ++ m) ↔ wf_bytes l ∧ wf_bytes m.
Proof. apply Forall_app. Qed.

Lemma wf_enc16 x : wf_bytes (enc16 x).
Proof.
  repeat constructor; apply Z.mod_pos_bound; lia.
Qed.

Lemma wf_enc32 x : wf_bytes (enc32 x).
Proof. apply wf_bytes_app; split; apply wf_enc16. Qed.

(** Writes. *)
Lemma wr8_Ok m p v m' :
  wr8 m p v = Ok m' ↔ 0 ≤ p < blen m ∧ m' = <[Z.to_nat p := u8 v]> m.
Proof. unfold wr8. case_decide; naive_solver. Qed.

Lemma wr8_blen m p v m' : wr8 m p v = Ok m' → blen m' = blen m.
Proof. intros [_ ->]%wr8_Ok. unfold blen. by rewrite length_insert. Qed.

Lemma wr8_wf m p v m' : wf_bytes m → wr8 m p v = Ok m' → wf_bytes m'.
Proof.
  intros Hm [_ ->]%wr8_Ok. apply Forall_insert; [done|]. apply Z.mod_pos_bound; lia.
Qed.

Lemma rd8_wr8 m p v m' : wr8 m p v = Ok m' → rd8 m' p = Ok (u8 v).
Proof.
  intros [? ->]%wr8_Ok. apply rd8_Some. split; [lia|].
  apply list_lookup_insert_eq. unfold blen in *. lia.
Qed.

Lemma rd8_wr8_ne m p v m' q : wr8 m p v = Ok m' → q ≠ p → rd8 m' q = rd8 m q.
Proof.
  intros [? ->]%wr8_Ok ?. unfold rd8. case_decide; [|done].
  rewrite list_lookup_insert_ne; [done|]. lia.
Qed.

Lemma wr16_blen m p v m' : wr16 m p v = Ok m' → blen m' = blen m.
Proof.
  unfold wr16. intros H. inv_res.
  repeat match goal with H : wr8 _ _ _ = Ok _ |- _ => apply wr8_blen in H end. lia.
Qed.

Lemma wr16_wf m p v m' : wf_bytes m → wr16 m p v = Ok m' → wf_bytes m'.
Proof. unfold wr16. intros ? H. inv_res. eauto using wr8_wf. Qed.

Lemma wr32_blen m p v m' : wr32 m p v = Ok m' → blen m' = blen m.
Proof.
  unfold wr32. intros H. inv_res.
  repeat match goal with H : wr16 _ _ _ = Ok _ |- _ => apply wr16_blen in H end. lia.
Qed.

Lemma wr16_in_bounds m p v : 0 ≤ p → p + 2 ≤ blen m → ∃ m', wr16 m p v = Ok m'.
Proof.
  intros ??. unfold wr16, wr8. rewrite decide_True by lia. cbn.
  rewrite decide_True; [by eexists|]. unfold blen in *. rewrite length_insert. lia.
Qed.

Lemma rd16_wr16 m p v m' : is_u16 v → wr16 m p v = Ok m' → rd16 m' p = Ok v.
Proof.
  unfold wr16, rd16. intros Hv H. inv_res. rename select (wr8 m _ _ = _) into H1.
  rewrite (rd8_wr8 _ _ _ _ H), (rd8_wr8_ne _ _ _ _ _ H), (rd8_wr8 _ _ _ _ H1) by lia.
  rewrite !res_bind_ret. by rewrite u16_split.
Qed.

Lemma rd8_wr16_ne m p v m' q :
  wr16 m p v = Ok m' → q ≠ p → q ≠ p + 1 → rd8 m' q = rd8 m q.
Proof.
  unfold wr16. intros H ??. inv_res.
  erewrite rd8_wr8_ne by done. by eapply rd8_wr8_ne.
Qed.

Lemma rd16_wr16_ne m p v m' q :
  wr16 m p v = Ok m' → (q + 1 < p ∨ p + 1 < q) → rd16 m' q = rd16 m q.
Proof.
  intros H ?. unfold rd16. by rewrite !(rd8_wr16_ne m p v m') by (done || lia).
Qed.

Lemma wr32_in_bounds m p v : 0 ≤ p → p + 4 ≤ blen m → ∃ m', wr32 m p v = Ok m'.
Proof.
  intros ??. unfold wr32.
  destruct (wr16_in_bounds m p (v / 65536)) as [m1 Hm1]; [lia..|]. rewrite Hm1. cbn.
  apply wr16_in_bounds; [lia|]. apply wr16_blen in Hm1. lia.
Qed.

Lemma rd32_wr32 m p v m' : is_u32 v → wr32 m p v = Ok m' → rd32 m' p = Ok v.
Proof.
  unfold wr32, rd32. intros Hv H. inv_res. rename select (wr16 m _ _ = _) into H1.
  assert (is_u16 (v / 65536)).
  { unfold is_u16, is_u32 in *. Z.to_euclidean_division_equations; lia. }
  rewrite (rd16_wr16_ne _ _ _ _ p H), (rd16_wr16 _ _ _ _ ltac:(done) H1) by lia.
  unfold wr16 in H. inv_res. rename select (wr8 x _ _ = _) into H2.
  unfold rd16. rewrite (rd8_wr8 _ _ _ _ H), (rd8_wr8_ne _ _ _ _ _ H), (rd8_wr8 _ _ _ _ H2) by lia.
  rewrite !res_bind_ret.
  f_equal. unfold u8, is_u32 in *. Z.to_euclidean_division_equations; lia.
Qed.

Lemma rd8_wr32_ne m p v m' q :
  wr32 m p v = Ok m' → (q < p ∨ p + 4 ≤ q) → rd8 m' q = rd8 m q.
Proof.
  unfold wr32. intros H ?. inv_res.
  erewrite rd8_wr16_ne by (done || lia). by eapply rd8_wr16_ne; [done|lia..].
Qed.
End memory.

#[export] Hint Rewrite blen_nil blen_cons blen_app blen_enc16 blen_enc32 : ipfix.
#[export] Hint Resolve blen_nonneg wf_enc16 wf_enc32 : ipfix.

(** ** Labelled transition sequences *)

Section lstar.
Context {S L : Type} (R : S → L → S → Prop).

Inductive lstar : S → list L → S → Prop :=
  | lstar_refl s : lstar s [] s
  | lstar_step s l s' tr s'' : R s l s' → lstar s' tr s'' → lstar s (l :: tr) s''.

Lemma lstar_inv (I : S → Prop) :
  (∀ s l s', I s → R s l s' → I s') → ∀ s tr s', lstar s tr s' → I s → I s'.
Proof. induction 2; eauto. Qed.
End lstar.

(** Forward simulation of labelled systems under an invariant. *)
Lemma lstar_simulation {S1 S2 L} (R1 : S1 → L → S1 → Prop) (R2 : S2 → L → S2 → Prop)
    (I : S1 → Prop) (abs : S1 → S2) :
  (∀ s l s', I s → R1 s l s' → I s' ∧ R2 (abs s) l (abs s')) →
  ∀ s tr s', lstar R1 s tr s' → I s → I s' ∧ lstar R2 (abs s) tr (abs s').
Proof.
  intros Hsim. induction 1 as [s|s l s' tr s'' H1 _ IH]; intros HI; [by split; [|constructor]|].
  destruct (Hsim s l s' HI H1) as [HI' H2]. destruct (IH HI'). split; [done|]. by econstructor.
Qed.

(** ** Bits *)

Section bits.
Implicit Types (a n x : Z).

Lemma land_pow2 a n : 0 ≤ n → Z.land a (2 ^ n) ≠ 0 ↔ Z.testbit a n = true.
Proof.
  intros Hn. split; intros H.
  - destruct (Z.testbit a n) eqn:E; [done|]. exfalso. apply H.
    apply Z.bits_inj'. intros i Hi. rewrite Z.land_spec, Z.pow2_bits_eqb, Z.bits_0 by done.
    destruct (Z.eqb_spec n i); subst; rewrite ?E; [done|apply andb_false_r].
  - intros E. apply (f_equal (λ z, Z.testbit z n)) in E.
    by rewrite Z.land_spec, Z.pow2_bits_true, H, Z.bits_0 in E.
Qed.

Lemma testbit_top a n : 0 ≤ n → 0 ≤ a < 2 ^ (n + 1) → Z.testbit a n = true ↔ 2 ^ n ≤ a.
Proof.
  intros Hn Ha. rewrite Z.testbit_true by done.
  rewrite Z.pow_add_r in Ha by lia. change (2 ^ 1) with 2 in Ha.
  pose proof (Z.pow_pos_nonneg 2 n ltac:(lia) Hn) as Hp.
  destruct (decide (a < 2 ^ n)).
  - rewrite Z.div_small by lia. split; [done|lia].
  - rewrite <-(Z.div_unique a (2 ^ n) 1 (a - 2 ^ n)) by lia. split; [lia|done].
Qed.

(** The enterprise bit of a field identifier. *)
Lemma land_enterprise x : is_u16 x → Z.land x 0x8000 ≠ 0 ↔ 32768 ≤ x.
Proof.
  intros Hx. change 0x8000 with (2 ^ 15). rewrite land_pow2 by lia.
  apply (testbit_top x 15); [lia|]. exact Hx.
Qed.

(** The flag bit of a record length. *)
Lemma land_flag31 x : is_u32 x → Z.land x 0x80000000 ≠ 0 ↔ 2147483648 ≤ x.
Proof.
  intros Hx. change 0x80000000 with (2 ^ 31). rewrite land_pow2 by lia.
  apply (testbit_top x 31); [lia|]. exact Hx.
Qed.

Lemma lor_flag31 x : 0 ≤ x < 2147483648 → Z.lor x 0x80000000 = x + 2147483648.
Proof.
  intros Hx.
  assert (E : Z.land x 0x80000000 = 0).
  { destruct (decide (Z.land x 0x80000000 = 0)) as [|N]; [done|].
    apply land_flag31 in N; [lia|]. unfold is_u32. lia. }
  rewrite <-Z.lxor_lor by done. by rewrite <-Z.add_nocarry_lxor.
Qed.

Lemma lor_flag31_set x :
  0 ≤ x < 2147483648 → Z.lor (x + 2147483648) 0x80000000 = x + 2147483648.
Proof.
  intros Hx. rewrite <-lor_flag31 at 1 by done.
  by rewrite <-Z.lor_assoc, Z.lor_diag, lor_flag31.
Qed.
End bits.

(** ** Reading back encodings: what a successful read says of the memory *)

Section read_inv.
Implicit Types (l m : bytes) (v : Z).

Lemma enc16_of_bytes a b : is_byte a → is_byte b → enc16 (a * 256 + b) = [a; b].
Proof.
  unfold is_byte, enc16, u8. intros. repeat f_equal; Z.to_euclidean_division_equations; lia.
Qed.

Lemma rd16_inv l m v : wf_bytes m → rd16 (l ++ m) (blen l) = Ok v →
  ∃ m', m = enc16 v ++ m' ∧ wf_bytes m'.
Proof.
  intros Hm. replace (blen l) with (blen l + 0) by lia. rewrite rd16_app_r by lia.
  destruct m as [|a [|b m] ]; [done..|]. rewrite rd16_cons2. intros [= <-].
  apply Forall_cons in Hm as [Ha [Hb Hm]%Forall_cons].
  exists m. by rewrite enc16_of_bytes.
Qed.

Lemma enc32_of_u16 x y : is_u16 x → is_u16 y → enc32 (x * 65536 + y) = enc16 x ++ enc16 y.
Proof.
  unfold is_u16, enc32, enc16, u8. intros. cbn [app].
  repeat apply (f_equal2 cons); try done; Z.to_euclidean_division_equations; lia.
Qed.

Lemma rd32_inv l m v : wf_bytes m → rd32 (l ++ m) (blen l) = Ok v →
  ∃ m', m = enc32 v ++ m' ∧ wf_bytes m'.
Proof.
  unfold rd32. intros Hm H. inv_res. rename select (rd16 _ (blen l) = _) into Hr1.
  assert (is_u16 x).
  { replace (blen l) with (blen l + 0) in Hr1 by lia. rewrite rd16_app_r in Hr1 by lia.
    by eapply rd16_range. }
  apply rd16_inv in Hr1 as (m1 & -> & Hm1); [|done].
  rename select (rd16 _ _ = _) into Hr2.
  rewrite app_assoc in Hr2. replace (blen l + 2) with (blen (l ++ enc16 x)) in Hr2
    by (rewrite blen_app, blen_enc16; lia).
  assert (is_u16 x0).
  { replace (blen (l ++ enc16 x)) with (blen (l ++ enc16 x) + 0) in Hr2 by lia.
    rewrite rd16_app_r in Hr2 by lia. by eapply rd16_range. }
  apply rd16_inv in Hr2 as (m2 & -> & Hm2); [|done].
  exists m2. split; [|done].
  change (enc16 x ++ enc16 x0 ++ m2 = enc32 (x * 65536 + x0) ++ m2).
  by rewrite enc32_of_u16, <-app_assoc.
Qed.

Lemma mem_split m p : 0 ≤ p ≤ blen m → ∃ l r, m = l ++ r ∧ blen l = p.
Proof.
  intros Hp. exists (take (Z.to_nat p) m), (drop (Z.to_nat p) m).
  rewrite take_drop. split; [done|]. unfold blen in *. rewrite length_take. lia.
Qed.
End read_inv.
