(* ===== verification/CLib.v ===== *)
(** * Functions of the C library

    The functions of [string.h] and [stdlib.h] that several components call:
    moving and filling memory, and numbers as strings.  A range outside the
    object is a fault, as an access through a pointer is. *)

From S2P Require Import Prelude.
From Stdlib Require String Ascii.
Import String.StringSyntax.

(** ** Strings *)

(** [%u] of [snprintf]: decimal digits. *)
Fixpoint decimal (fuel : nat) (n : Z) : bytes :=
  match fuel with
  | O => []
  | S fuel => if decide (n < 10) then [48 + n] else decimal fuel (n / 10) ++ [48 + n mod 10]
  end.

(** [atoi]: white space, a sign, digits up to the first other character. *)
Fixpoint digits_value (acc : Z) (s : bytes) : Z :=
  match s with
  | c :: s => if decide (48 ≤ c ≤ 57) then digits_value (acc * 10 + (c - 48)) s else acc
  | [] => acc
  end.

Fixpoint atoi (s : bytes) : Z :=
  match s with
  | c :: s' =>
      if decide (c = 32 ∨ 9 ≤ c ≤ 13) then atoi s'
      else if decide (c = 45) then - digits_value 0 s'
      else if decide (c = 43) then digits_value 0 s'
      else digits_value 0 s
  | [] => 0
  end.

(** [strtol] with base 10: the same, clamped to the range of [long]. *)
Definition strtol (s : bytes) : Z := Z.max (- 2 ^ 63) (Z.min (2 ^ 63 - 1) (atoi s)).

(** [strtoul] with base 10: the value and the rest of the string, the string itself
    when it has no digits. A negative number is negated in 64 bits. *)
Fixpoint digits_rest (s : bytes) : bytes :=
  match s with
  | c :: s' => if decide (48 ≤ c ≤ 57) then digits_rest s' else s
  | [] => []
  end.

Fixpoint blanks_rest (s : bytes) : bytes :=
  match s with
  | c :: s' => if decide (c = 32 ∨ 9 ≤ c ≤ 13) then blanks_rest s' else s
  | [] => []
  end.

Definition strtoul (s : bytes) : Z * bytes :=
  let s1 := blanks_rest s in
  let '(minus, s2) :=
    match s1 with
    | c :: s' => if decide (c = 45) then (true, s') else if decide (c = 43) then (false, s') else (false, s1)
    | [] => (false, [])
    end in
  let rest := digits_rest s2 in
  if decide (length rest = length s2) then (0, s) else
  let v := digits_value 0 s2 in
  (if decide (v < 2 ^ 64) then (if minus : bool then u64 (- v) else v) else 2 ^ 64 - 1, rest).

(** [strtol] with base 16; the digits may follow [0x]. *)
Definition hex_digit (c : Z) : option Z :=
  if decide (48 ≤ c ≤ 57) then Some (c - 48)
  else if decide (97 ≤ c ≤ 102) then Some (c - 87)
  else if decide (65 ≤ c ≤ 70) then Some (c - 55)
  else None.

Fixpoint hex_value (acc : Z) (s : bytes) : Z :=
  match s with
  | c :: s => match hex_digit c with Some d => hex_value (acc * 16 + d) s | None => acc end
  | [] => acc
  end.

Definition hex_prefix (s : bytes) : bytes :=
  match s with
  | z :: x :: s' => if decide (z = 48 ∧ (x = 120 ∨ x = 88)) then s' else s
  | _ => s
  end.

Definition strtol16 (s : bytes) : Z :=
  let s := blanks_rest s in
  let v := match s with
           | c :: s' => if decide (c = 45) then - hex_value 0 (hex_prefix s')
                        else if decide (c = 43) then hex_value 0 (hex_prefix s')
                        else hex_value 0 (hex_prefix s)
           | [] => 0
           end in
  Z.max (- 2 ^ 63) (Z.min (2 ^ 63 - 1) v).

(** A string literal, without the final 0 as all strings here. *)
Definition str (s : String.string) : bytes :=
  (λ a, Z.of_N (Ascii.N_of_ascii a)) <$> String.list_ascii_of_string s.
Arguments str s%_string_scope.

(** The string at the start of some memory. *)
Fixpoint c_string (m : bytes) : bytes :=
  match m with [] => [] | c :: m => if decide (c = 0) then [] else c :: c_string m end.

(** [memcmp]: the difference of the first octets that differ. *)
Fixpoint memcmp (a b : bytes) : Z :=
  match a, b with
  | x :: a, y :: b => if decide (x = y) then memcmp a b else x - y
  | _, _ => 0
  end.

(** [strstr] on the string at [p]: the place of the first occurrence of [needle]. *)
Fixpoint strstr_from (needle h : bytes) (p : Z) : res (option Z) :=
  match h with
  | [] => Fault OobRead
  | c :: h' => if decide (needle `prefix_of` h) then Ok (Some p)
               else if decide (c = 0) then Ok None else strstr_from needle h' (p + 1)
  end.
Definition strstr (m : bytes) (p : Z) (needle : bytes) : res (option Z) :=
  strstr_from needle (drop (Z.to_nat p) m) p.

(** ** Memory *)

(** [memmove] inside one object: the source is read before the destination is
    written. *)
Definition memmove (m : bytes) (dst src n : Z) : res bytes := x ← rdn m src n; wrn m dst x.

Definition memset (m : bytes) (p c n : Z) : res bytes := wrn m p (replicate (Z.to_nat n) (u8 c)).

(** A store of a 64-bit number in network order. *)
Definition wr64 (m : bytes) (p v : Z) : res bytes :=
  m ← wr32 m p (v / 4294967296); wr32 m (p + 4) v.
Definition enc64 (x : Z) : bytes := enc32 (x / 4294967296) ++ enc32 x.

(** A number in the order of the little-endian host, and in network order. *)
Fixpoint enc_le (n : nat) (v : Z) : bytes :=
  match n with O => [] | S n => u8 v :: enc_le n (v / 256) end.
Definition dec_le (x : bytes) : Z := foldr (λ b acc, b + 256 * acc) 0 x.
Definition dec_be (v : bytes) : Z := dec_le (rev v).

(** *** Stores in front of a known rest *)

Lemma blen_enc64 x : blen (enc64 x) = 8.
Proof. done. Qed.
#[export] Hint Rewrite blen_enc64 : ipfix.

Lemma wr8_here pre a post v : wr8 (pre ++ a :: post) (blen pre) v = Ok (pre ++ u8 v :: post).
Proof.
  unfold wr8. pose proof (blen_nonneg pre). pose proof (blen_nonneg post).
  rewrite decide_True by (rewrite blen_app, blen_cons; lia). f_equal.
  unfold blen. rewrite Nat2Z.id. rewrite <-(Nat.add_0_r (length pre)) at 1. by rewrite insert_app_r.
Qed.

Lemma wr16_here pre a b post v : wr16 (pre ++ a :: b :: post) (blen pre) v = Ok (pre ++ enc16 v ++ post).
Proof.
  unfold wr16. rewrite wr8_here, res_bind_ret.
  replace (blen pre + 1) with (blen (pre ++ [u8 (v / 256)])) by (rewrite blen_app; done).
  replace (pre ++ u8 (v / 256) :: b :: post) with ((pre ++ [u8 (v / 256)]) ++ b :: post) by (by rewrite <-app_assoc).
  rewrite wr8_here. unfold enc16. by rewrite <-app_assoc.
Qed.

Lemma blen_2 x : blen x = 2 → ∃ a b, x = [a; b].
Proof. unfold blen. destruct x as [|a [|b [|c x] ] ]; cbn; try lia. by exists a, b. Qed.

Lemma wr16_over pre x post v : blen x = 2 → wr16 (pre ++ x ++ post) (blen pre) v = Ok (pre ++ enc16 v ++ post).
Proof. intros (a & b & ->)%blen_2. apply wr16_here. Qed.

Lemma wr16_front x post v : blen x = 2 → wr16 (x ++ post) 0 v = Ok (enc16 v ++ post).
Proof. apply (wr16_over []). Qed.

Lemma blen_split x n : 0 ≤ n ≤ blen x → ∃ l r, x = l ++ r ∧ blen l = n ∧ blen r = blen x - n.
Proof.
  intros Hn. destruct (mem_split x n Hn) as (l & r & -> & Hl). exists l, r.
  split; [done|]. split; [done|]. rewrite blen_app. lia.
Qed.

Lemma wr32_over pre x post v : blen x = 4 → wr32 (pre ++ x ++ post) (blen pre) v = Ok (pre ++ enc32 v ++ post).
Proof.
  intros Hx. destruct (blen_split x 2) as (a & b & -> & Ha & Hb); [lia|]. rewrite Hx in Hb.
  unfold wr32, enc32. rewrite <-!app_assoc, wr16_over, res_bind_ret by done.
  replace (blen pre + 2) with (blen (pre ++ enc16 (v / 65536))) by (rewrite blen_app; done).
  rewrite (app_assoc pre), wr16_over by (rewrite Hb; done). by rewrite <-!app_assoc.
Qed.

Lemma wr64_over pre x post v : blen x = 8 → wr64 (pre ++ x ++ post) (blen pre) v = Ok (pre ++ enc64 v ++ post).
Proof.
  intros Hx. destruct (blen_split x 4) as (a & b & -> & Ha & Hb); [lia|]. rewrite Hx in Hb.
  unfold wr64, enc64. rewrite <-!app_assoc, wr32_over, res_bind_ret by done.
  replace (blen pre + 4) with (blen (pre ++ enc32 (v / 4294967296))) by (rewrite blen_app; done).
  rewrite (app_assoc pre), wr32_over by (rewrite Hb; done). by rewrite <-!app_assoc.
Qed.

(** *** Strings in memory *)

Lemma c_string_le v : blen (c_string v) ≤ blen v.
Proof. induction v as [|b v IH]; [done|]. cbn [c_string]. case_decide; rewrite !blen_cons; [|lia]. change (blen []) with 0. pose proof (blen_nonneg v). lia. Qed.

Lemma c_string_prefix v : c_string v = take (length (c_string v)) v.
Proof. induction v as [|b v IH]; [done|]. cbn [c_string]. case_decide; [done|]. cbn [length take]. by rewrite <-IH. Qed.

(** *** Numbers in memory *)

Lemma length_enc_le n v : length (enc_le n v) = n.
Proof. revert v. induction n as [|n IH]; intros v; [done|]. cbn. by rewrite IH. Qed.

Lemma dec_enc_le n v : 0 ≤ v < 256 ^ Z.of_nat n → dec_le (enc_le n v) = v.
Proof.
  revert v. induction n as [|n IH]; intros v Hv; [cbn in *; lia|].
  cbn [enc_le dec_le foldr]. fold (dec_le (enc_le n (v / 256))). rewrite Nat2Z.inj_succ, Z.pow_succ_r in Hv by lia.
  rewrite IH; [unfold u8; pose proof (Z.div_mod v 256); lia|].
  split; [apply Z.div_pos; lia|]. apply Z.div_lt_upper_bound; lia.
Qed.

Lemma enc_le_inj n v w : 0 ≤ v < 256 ^ Z.of_nat n → 0 ≤ w < 256 ^ Z.of_nat n → enc_le n v = enc_le n w → v = w.
Proof. intros Hv Hw E. by rewrite <-(dec_enc_le n v), <-(dec_enc_le n w), E. Qed.

Lemma blen_rev v : blen (rev v) = blen v.
Proof. unfold blen. by rewrite length_rev. Qed.
Lemma blen_enc_le n v : blen (enc_le n v) = Z.of_nat n.
Proof. unfold blen. by rewrite length_enc_le. Qed.
Lemma blen_replicate n x : blen (replicate n x) = Z.of_nat n.
Proof. unfold blen. by rewrite length_replicate. Qed.

Lemma dec_le_app x y : dec_le (x ++ y) = dec_le x + 256 ^ blen x * dec_le y.
Proof.
  induction x as [|b x IH]; [change (256 ^ blen []) with 1; change (dec_le []) with 0; cbn [app]; lia|].
  cbn [app dec_le foldr]. fold (dec_le (x ++ y)) (dec_le x). rewrite IH, blen_cons, Z.pow_add_r by (pose proof (blen_nonneg x); lia).
  lia.
Qed.

Lemma dec_le_range v : wf_bytes v → 0 ≤ dec_le v < 256 ^ blen v.
Proof.
  induction 1 as [|b v Hb _ IH]; [done|]. cbn [dec_le foldr]. fold (dec_le v).
  rewrite blen_cons, Z.pow_add_r by (pose proof (blen_nonneg v); lia). unfold is_byte in Hb. lia.
Qed.

Lemma enc_dec_le v : wf_bytes v → enc_le (length v) (dec_le v) = v.
Proof.
  induction 1 as [|b v Hb _ IH]; [done|]. unfold is_byte in Hb. cbn [length enc_le dec_le foldr]. fold (dec_le v).
  unfold u8. rewrite (Z.mul_comm 256), Z_mod_plus_full, Z_div_plus_full, (Z.div_small b), Z.mod_small, Z.add_0_l by lia. by rewrite IH.
Qed.

(** Storing a number in host order is storing its octets in reverse. *)
Lemma enc_dec_be v n : wf_bytes v → blen v = Z.of_nat n → enc_le n (dec_be v) = rev v.
Proof.
  intros Hv Hn. unfold dec_be. replace n with (length (rev v)) by (rewrite length_rev; unfold blen in Hn; lia).
  apply enc_dec_le. by apply Forall_rev.
Qed.

(** ** Copies between known places *)

Lemma rdn_here pre x post : rdn (pre ++ x ++ post) (blen pre) (blen x) = Ok x.
Proof.
  unfold rdn. pose proof (blen_nonneg pre). pose proof (blen_nonneg x). pose proof (blen_nonneg post).
  rewrite decide_True by (rewrite !blen_app; lia). f_equal. unfold blen. rewrite !Nat2Z.id.
  rewrite drop_app_length. apply take_app_length.
Qed.

Lemma wrn_here pre x post v : blen v = blen x → wrn (pre ++ x ++ post) (blen pre) v = Ok (pre ++ v ++ post).
Proof.
  intros Hv. unfold wrn. pose proof (blen_nonneg pre). pose proof (blen_nonneg post).
  rewrite decide_True by (rewrite !blen_app; lia). f_equal. rewrite Hv. unfold blen.
  replace (Z.of_nat (length pre) + Z.of_nat (length x)) with (blen (pre ++ x)) by (rewrite blen_app; done).
  unfold blen. rewrite !Nat2Z.id. rewrite take_app_length. do 2 f_equal.
  rewrite app_assoc, drop_app_length. done.
Qed.

(** Making room for [k] octets in front of [x]: what was behind [x] is lost, and
    the room holds some octets. *)
Lemma memmove_up pre x post k : 0 ≤ k ≤ blen post →
  ∃ gap post', memmove (pre ++ x ++ post) (blen pre + k) (blen pre) (blen x) = Ok (pre ++ gap ++ x ++ post') ∧
    blen gap = k ∧ blen post' = blen post - k ∧ post' = drop (Z.to_nat k) post.
Proof.
  intros Hk. unfold memmove. rewrite rdn_here, res_bind_ret.
  destruct (blen_split post k Hk) as (p1 & p2 & -> & Hp1 & Hp2).
  destruct (blen_split (x ++ p1) k) as (gap & y & E & Hg & Hy);
    [rewrite blen_app; pose proof (blen_nonneg x); lia|].
  exists gap, p2. split.
  - replace (pre ++ x ++ p1 ++ p2) with ((pre ++ gap) ++ y ++ p2)
      by (rewrite (app_assoc x), E, <-!app_assoc; done).
    replace (blen pre + k) with (blen (pre ++ gap)) by (rewrite blen_app; lia).
    rewrite wrn_here; [by rewrite <-!app_assoc|]. rewrite blen_app in Hy. lia.
  - split; [done|]. split; [rewrite blen_app; lia|].
    unfold blen in Hp1. by rewrite <-Hp1, Nat2Z.id, drop_app_length.
Qed.

(** Closing the gap [k] in front of [x]. *)
Lemma memmove_down pre gap x post : 
  ∃ post', memmove (pre ++ gap ++ x ++ post) (blen pre) (blen pre + blen gap) (blen x) = Ok (pre ++ x ++ post') ∧
    blen post' = blen gap + blen post.
Proof.
  unfold memmove. replace (pre ++ gap ++ x ++ post) with ((pre ++ gap) ++ x ++ post) by (by rewrite <-!app_assoc).
  replace (blen pre + blen gap) with (blen (pre ++ gap)) by (by rewrite blen_app).
  rewrite rdn_here, res_bind_ret.
  destruct (blen_split (gap ++ x) (blen x)) as (y & z & E & Hy & Hz);
    [rewrite blen_app; pose proof (blen_nonneg gap); pose proof (blen_nonneg x); lia|].
  exists (z ++ post). replace ((pre ++ gap) ++ x ++ post) with (pre ++ y ++ (z ++ post))
    by (rewrite (app_assoc y), <-E, <-!app_assoc; done).
  rewrite wrn_here by lia. split; [done|]. rewrite blen_app in *. lia.
Qed.

(** Inserting [v] in front of [x]: the last octets behind [x] are lost. *)
Lemma memmove_insert pre x tail v : blen v ≤ blen tail →
  ∃ tail', (m ← memmove (pre ++ x ++ tail) (blen pre + blen v) (blen pre) (blen x + blen tail - blen v);
            wrn m (blen pre) v) = Ok (pre ++ v ++ x ++ tail') ∧ blen tail' = blen tail - blen v.
Proof.
  intros Hv. pose proof (blen_nonneg v).
  destruct (blen_split tail (blen tail - blen v)) as (t1 & t2 & -> & Ht1 & Ht2); [lia|].
  destruct (memmove_up pre (x ++ t1) t2 (blen v)) as (gap & post' & E & Hg & Hp' & _); [lia|].
  replace (blen x + blen (t1 ++ t2) - blen v) with (blen (x ++ t1)) by (rewrite blen_app; lia).
  rewrite <-app_assoc in E. rewrite E, res_bind_ret, wrn_here by done.
  exists (t1 ++ post'). split; [by rewrite <-app_assoc|]. rewrite !blen_app in *. lia.
Qed.

(** *** Concatenations *)

Lemma mjoin_cons {A} (x : list A) xs : mjoin (x :: xs) = x ++ mjoin xs.
Proof. done. Qed.

Lemma mjoin_snoc {A} (xs : list (list A)) x : mjoin (xs ++ [x]) = mjoin xs ++ x.
Proof. rewrite join_app. cbn. by rewrite app_nil_r. Qed.

(** Blocks of one length. *)
Lemma blen_blocks {A} (f : A → bytes) n xs : Forall (λ x, blen (f x) = n) xs →
  blen (mjoin (f <$> xs)) = n * Z.of_nat (length xs).
Proof.
  induction 1 as [|x xs Hx _ IH]; [by rewrite Z.mul_0_r|].
  rewrite fmap_cons, mjoin_cons, blen_app, Hx, IH. cbn [length]. lia.
Qed.

Lemma mjoin_fmap_snoc {A B} (f : A → list B) xs x : mjoin (f <$> xs ++ [x]) = mjoin (f <$> xs) ++ f x.
Proof. rewrite fmap_app. apply mjoin_snoc. Qed.

Lemma elem_of_mjoin {A B} (f : A → list B) l y a : y ∈ l → a ∈ f y → a ∈ mjoin (f <$> l).
Proof. intros Hy Ha. apply list_elem_of_join. exists (f y). split; [done|]. by apply list_elem_of_fmap_2. Qed.

(** One of the lists of a concatenation without duplicates. *)
Lemma NoDup_mjoin_split {A B} (f : A → list B) l1 y l2 : NoDup (mjoin (f <$> l1 ++ y :: l2)) →
  NoDup (f y) ∧ ∀ a, a ∈ f y → a ∉ mjoin (f <$> l1) ∧ a ∉ mjoin (f <$> l2).
Proof.
  rewrite fmap_app, join_app, fmap_cons, mjoin_cons, !NoDup_app. intros (_ & H1 & H2 & H3 & _). split; [done|].
  intros a Ha. split; [|auto]. intros Hin. apply (H1 a Hin), elem_of_app. by left.
Qed.

(** ** Searching *)

(** [bsearch]: the half of the array in which the key can be. *)
Section bsearch.
Context {A : Type} (compar : A → res Z) (base : list A).

Definition bsearch_step (s : Z * Z) : res ((Z * Z) + option A) :=
  let '(l, u) := s in
  if decide (l < u) then
    let i := (l + u) / 2 in
    x ← or_fault OobRead (base !! Z.to_nat i);
    comparison ← compar x;
    Ok (if decide (comparison < 0) then inl (l, i) else if decide (comparison > 0) then inl (i + 1, u) else inr (Some x))
  else Ok (inr None).

Definition bsearch : res (option A) := loop bsearch_step (S (length base)) (0, Z.of_nat (length base)).

(** The comparison has an order of the elements by [f] behind it. *)
Context (f : A → positive) (key : positive).
Context (Hcmp : ∀ x, x ∈ base → ∃ c, compar x = Ok c ∧
  (c < 0 ↔ (key < f x)%positive) ∧ (c > 0 ↔ (f x < key)%positive)).
Context (Hsorted : ∀ i j x y, (i < j)%nat → base !! i = Some x → base !! j = Some y → (f x < f y)%positive).

Lemma bsearch_spec : bsearch = Ok (snd <$> list_find (λ x, f x = key) base).
Proof.
  set (out := snd <$> list_find _ base).
  assert (∀ i x, base !! i = Some x → f x = key → out = Some x) as Hhit.
  { intros i x Hx Hk. subst out. rewrite (proj2 (list_find_Some _ _ i x)); [done|]. split_and!; [done..|].
    intros j y Hy Hj Hky. pose proof (Hsorted j i y x Hj Hy Hx). lia. }
  assert ((∀ i x, base !! i = Some x → f x ≠ key) → out = None) as Hmiss.
  { intros H. subst out. rewrite (proj2 (list_find_None _ _)); [done|]. apply Forall_lookup_2. exact H. }
  apply (loop_total _ (λ s, 0 ≤ s.1 ∧ s.2 ≤ Z.of_nat (length base) ∧
    ∀ i x, base !! i = Some x → f x = key → s.1 ≤ Z.of_nat i < s.2) (λ s, Z.to_nat (s.2 - s.1)) (λ r, r = Ok out)).
  - intros [l u] (Hl & Hu & Hin). cbn [fst snd] in *. unfold bsearch_step. destruct (decide (l < u)) as [Hlu|Hlu].
    2: { f_equal. symmetry. apply Hmiss. intros i x Hx Hk. specialize (Hin i x Hx Hk). lia. }
    set (m := (l + u) / 2). assert (l ≤ m < u) as Hm by (unfold m; Z.to_euclidean_division_equations; lia). clearbody m.
    destruct (lookup_lt_is_Some_2 base (Z.to_nat m)) as [x Hx]; [lia|]. rewrite Hx. cbn [or_fault]. rewrite res_bind_ret.
    destruct (Hcmp x) as (c & -> & Hlt & Hgt); [by eapply list_elem_of_lookup_2|]. rewrite res_bind_ret.
    assert (∀ i y, base !! i = Some y → f y = key → (Z.of_nat i < m → (f y < f x)%positive) ∧ (m < Z.of_nat i → (f x < f y)%positive)) as Hord.
    { intros i y Hy Hk. split; intros ?; [apply (Hsorted i (Z.to_nat m))|apply (Hsorted (Z.to_nat m) i)]; done || lia. }
    destruct (decide (c < 0)) as [H1|H1]; [|destruct (decide (c > 0)) as [H2|H2]]; cbn [fst snd].
    + apply Hlt in H1. split; [|lia]. split; [lia|]. split; [lia|]. intros i y Hy Hk. specialize (Hin i y Hy Hk). specialize (Hord i y Hy Hk).
      destruct (decide (Z.of_nat i = m)) as [Ei|]; [|lia].
      rewrite <-Ei, Nat2Z.id, Hy in Hx. injection Hx as ->. lia.
    + apply Hgt in H2. split; [|lia]. split; [lia|]. split; [lia|]. intros i y Hy Hk. specialize (Hin i y Hy Hk). specialize (Hord i y Hy Hk).
      destruct (decide (Z.of_nat i = m)) as [Ei|]; [|lia].
      rewrite <-Ei, Nat2Z.id, Hy in Hx. injection Hx as ->. lia.
    + f_equal. symmetry. apply (Hhit _ _ Hx). lia.
  - cbn [fst snd]. split; [lia|]. split; [lia|]. intros i x Hx%lookup_lt_Some _. lia.
  - cbn [fst snd]. lia.
Qed.
End bsearch.
