(* ===== verification/Crc.v ===== *)
(** * Crc: the source identifier checksum ([base/src/crc.c])

    The collector tells exporters apart by the CRC-32 of a textual source
    address.  The file models the table driven routine of [crc.c] and shows
    that it computes the reflected CRC-32 of the polynomial 0xEDB88320, and
    what that gives the key of a source. *)

From S2P Require Import Prelude.

(** [DWORD] is [unsigned long]: 64 bits on the LP64 hosts the collector is
    built for, so the final complement sets the upper 32 bits of the result. *)
Definition DWORD (x : Z) : Z := u64 x.
Definition BYTE (x : Z) : Z := u8 x.

Definition crc_32_tab : list Z := [
  0x00000000; 0x77073096; 0xee0e612c; 0x990951ba; 0x076dc419; 0x706af48f;
  0xe963a535; 0x9e6495a3; 0x0edb8832; 0x79dcb8a4; 0xe0d5e91e; 0x97d2d988;
  0x09b64c2b; 0x7eb17cbd; 0xe7b82d07; 0x90bf1d91; 0x1db71064; 0x6ab020f2;
  0xf3b97148; 0x84be41de; 0x1adad47d; 0x6ddde4eb; 0xf4d4b551; 0x83d385c7;
  0x136c9856; 0x646ba8c0; 0xfd62f97a; 0x8a65c9ec; 0x14015c4f; 0x63066cd9;
  0xfa0f3d63; 0x8d080df5; 0x3b6e20c8; 0x4c69105e; 0xd56041e4; 0xa2677172;
  0x3c03e4d1; 0x4b04d447; 0xd20d85fd; 0xa50ab56b; 0x35b5a8fa; 0x42b2986c;
  0xdbbbc9d6; 0xacbcf940; 0x32d86ce3; 0x45df5c75; 0xdcd60dcf; 0xabd13d59;
  0x26d930ac; 0x51de003a; 0xc8d75180; 0xbfd06116; 0x21b4f4b5; 0x56b3c423;
  0xcfba9599; 0xb8bda50f; 0x2802b89e; 0x5f058808; 0xc60cd9b2; 0xb10be924;
  0x2f6f7c87; 0x58684c11; 0xc1611dab; 0xb6662d3d; 0x76dc4190; 0x01db7106;
  0x98d220bc; 0xefd5102a; 0x71b18589; 0x06b6b51f; 0x9fbfe4a5; 0xe8b8d433;
  0x7807c9a2; 0x0f00f934; 0x9609a88e; 0xe10e9818; 0x7f6a0dbb; 0x086d3d2d;
  0x91646c97; 0xe6635c01; 0x6b6b51f4; 0x1c6c6162; 0x856530d8; 0xf262004e;
  0x6c0695ed; 0x1b01a57b; 0x8208f4c1; 0xf50fc457; 0x65b0d9c6; 0x12b7e950;
  0x8bbeb8ea; 0xfcb9887c; 0x62dd1ddf; 0x15da2d49; 0x8cd37cf3; 0xfbd44c65;
  0x4db26158; 0x3ab551ce; 0xa3bc0074; 0xd4bb30e2; 0x4adfa541; 0x3dd895d7;
  0xa4d1c46d; 0xd3d6f4fb; 0x4369e96a; 0x346ed9fc; 0xad678846; 0xda60b8d0;
  0x44042d73; 0x33031de5; 0xaa0a4c5f; 0xdd0d7cc9; 0x5005713c; 0x270241aa;
  0xbe0b1010; 0xc90c2086; 0x5768b525; 0x206f85b3; 0xb966d409; 0xce61e49f;
  0x5edef90e; 0x29d9c998; 0xb0d09822; 0xc7d7a8b4; 0x59b33d17; 0x2eb40d81;
  0xb7bd5c3b; 0xc0ba6cad; 0xedb88320; 0x9abfb3b6; 0x03b6e20c; 0x74b1d29a;
  0xead54739; 0x9dd277af; 0x04db2615; 0x73dc1683; 0xe3630b12; 0x94643b84;
  0x0d6d6a3e; 0x7a6a5aa8; 0xe40ecf0b; 0x9309ff9d; 0x0a00ae27; 0x7d079eb1;
  0xf00f9344; 0x8708a3d2; 0x1e01f268; 0x6906c2fe; 0xf762575d; 0x806567cb;
  0x196c3671; 0x6e6b06e7; 0xfed41b76; 0x89d32be0; 0x10da7a5a; 0x67dd4acc;
  0xf9b9df6f; 0x8ebeeff9; 0x17b7be43; 0x60b08ed5; 0xd6d6a3e8; 0xa1d1937e;
  0x38d8c2c4; 0x4fdff252; 0xd1bb67f1; 0xa6bc5767; 0x3fb506dd; 0x48b2364b;
  0xd80d2bda; 0xaf0a1b4c; 0x36034af6; 0x41047a60; 0xdf60efc3; 0xa867df55;
  0x316e8eef; 0x4669be79; 0xcb61b38c; 0xbc66831a; 0x256fd2a0; 0x5268e236;
  0xcc0c7795; 0xbb0b4703; 0x220216b9; 0x5505262f; 0xc5ba3bbe; 0xb2bd0b28;
  0x2bb45a92; 0x5cb36a04; 0xc2d7ffa7; 0xb5d0cf31; 0x2cd99e8b; 0x5bdeae1d;
  0x9b64c2b0; 0xec63f226; 0x756aa39c; 0x026d930a; 0x9c0906a9; 0xeb0e363f;
  0x72076785; 0x05005713; 0x95bf4a82; 0xe2b87a14; 0x7bb12bae; 0x0cb61b38;
  0x92d28e9b; 0xe5d5be0d; 0x7cdcefb7; 0x0bdbdf21; 0x86d3d2d4; 0xf1d4e242;
  0x68ddb3f8; 0x1fda836e; 0x81be16cd; 0xf6b9265b; 0x6fb077e1; 0x18b74777;
  0x88085ae6; 0xff0f6a70; 0x66063bca; 0x11010b5c; 0x8f659eff; 0xf862ae69;
  0x616bffd3; 0x166ccf45; 0xa00ae278; 0xd70dd2ee; 0x4e048354; 0x3903b3c2;
  0xa7672661; 0xd06016f7; 0x4969474d; 0x3e6e77db; 0xaed16a4a; 0xd9d65adc;
  0x40df0b66; 0x37d83bf0; 0xa9bcae53; 0xdebb9ec5; 0x47b2cf7f; 0x30b5ffe9;
  0xbdbdf21c; 0xcabac28a; 0x53b39330; 0x24b4a3a6; 0xbad03605; 0xcdd70693;
  0x54de5729; 0x23d967bf; 0xb3667a2e; 0xc4614ab8; 0x5d681b02; 0x2a6f2b94;
  0xb40bbe37; 0xc30c8ea1; 0x5a05df1b; 0x2d02ef8d
].

(** The macro of [crc.h]. *)
Definition UPDC32 (octet crc : Z) : Z :=
  Z.lxor (nth (Z.to_nat (Z.land (Z.lxor crc (BYTE octet)) 0xff)) crc_32_tab 0)
         (Z.shiftr crc 8).

Definition updateCRC32 (ch crc : Z) : Z := UPDC32 ch crc.

(** The loop of [crc32], before the complement. *)
Definition crc32_loop (buf : bytes) (oldcrc32 : Z) : Z :=
  fold_left (λ crc b, UPDC32 b crc) buf oldcrc32.

Definition crc32 (buf : bytes) : Z :=
  DWORD (Z.lnot (crc32_loop buf 0xFFFFFFFF)).

(** ** Reference: one bit at a time *)

Definition crc_poly : Z := 0xEDB88320.

Definition crc_bit (crc : Z) : Z :=
  if Z.odd crc then Z.lxor (Z.shiftr crc 1) crc_poly else Z.shiftr crc 1.

Definition crc_octet (octet crc : Z) : Z := Nat.iter 8 crc_bit (Z.lxor crc octet).

(** Low 32 bits of the complemented register. *)
Definition crc32_ref (buf : bytes) : Z :=
  Z.lxor 0xFFFFFFFF (fold_left (λ crc b, crc_octet b crc) buf 0xFFFFFFFF).

(** ** The register is a linear feedback shift register *)

Section crc_bit.
Implicit Types a b : Z.

(** Values of at most [n] bits. *)
Lemma lt_pow2_testbit n a :
  0 ≤ n → 0 ≤ a → (∀ i, n ≤ i → Z.testbit a i = false) → a < 2 ^ n.
Proof.
  intros Hn Ha Hi. destruct (decide (a < 2 ^ n)) as [|Hge]; [done|exfalso].
  assert (0 < a) by lia.
  assert (n ≤ Z.log2 a) by (apply Z.log2_le_pow2; lia).
  specialize (Hi (Z.log2 a) ltac:(done)). by rewrite Z.bit_log2 in Hi.
Qed.

Lemma testbit_lt_pow2 n a i : 0 ≤ a < 2 ^ n → n ≤ i → Z.testbit a i = false.
Proof.
  intros Ha Hi. destruct (decide (a = 0)) as [->|]; [apply Z.testbit_0_l|].
  apply Z.bits_above_log2; [lia|].
  apply Z.log2_lt_pow2; [lia|].
  assert (0 ≤ n). { destruct (decide (0 ≤ n)); [done|]. rewrite Z.pow_neg_r in Ha; lia. }
  pose proof (Z.pow_le_mono_r 2 n i). lia.
Qed.

Lemma lxor_lt_pow2 n a b :
  0 ≤ n → 0 ≤ a < 2 ^ n → 0 ≤ b < 2 ^ n → 0 ≤ Z.lxor a b < 2 ^ n.
Proof.
  intros Hn Ha Hb.
  assert (0 ≤ Z.lxor a b) by (apply Z.lxor_nonneg; lia). split; [done|].
  apply lt_pow2_testbit; [done..|]. intros i Hi.
  by rewrite Z.lxor_spec, (testbit_lt_pow2 n a), (testbit_lt_pow2 n b).
Qed.

Lemma crc_bit_lxor a b : crc_bit (Z.lxor a b) = Z.lxor (crc_bit a) (crc_bit b).
Proof.
  unfold crc_bit. rewrite <-!Z.bit0_odd, Z.lxor_spec, Z.shiftr_lxor.
  destruct (Z.testbit a 0), (Z.testbit b 0); cbn [xorb];
    apply Z.bits_inj; intros i; rewrite ?Z.lxor_spec;
    repeat destruct (Z.testbit _ i); done.
Qed.

Lemma crc_bits_lxor n a b :
  Nat.iter n crc_bit (Z.lxor a b) = Z.lxor (Nat.iter n crc_bit a) (Nat.iter n crc_bit b).
Proof. induction n as [|n IH]; [done|]. by rewrite !Nat.iter_succ, IH, crc_bit_lxor. Qed.

Lemma crc_bits_shiftl n a :
  0 ≤ a → Nat.iter n crc_bit (Z.shiftl a (Z.of_nat n)) = a.
Proof.
  intros Ha. induction n as [|n IH]; [apply Z.shiftl_0_r|].
  rewrite Nat.iter_succ_r. rewrite <-IH at 2. f_equal.
  unfold crc_bit. rewrite <-Z.bit0_odd, Z.shiftl_spec_low by lia.
  rewrite Z.shiftr_shiftl_l by lia. f_equal. lia.
Qed.

(** The low octet and the rest of the register. *)
Lemma octet_split a : 0 ≤ a →
  a = Z.lxor (Z.land a 0xff) (Z.shiftl (Z.shiftr a 8) 8).
Proof.
  intros Ha. apply Z.bits_inj'. intros i Hi.
  rewrite Z.lxor_spec, Z.land_spec, Z.shiftl_spec by done.
  change 0xff with (Z.ones 8).
  destruct (decide (i < 8)).
  - rewrite Z.ones_spec_low, (Z.testbit_neg_r _ (i - 8)) by lia.
    by destruct (Z.testbit a i).
  - rewrite Z.ones_spec_high, Z.shiftr_spec by lia.
    replace (i - 8 + 8) with i by lia. by destruct (Z.testbit a i).
Qed.

Lemma crc_bit_bound a : 0 ≤ a < 2 ^ 32 → 0 ≤ crc_bit a < 2 ^ 32.
Proof.
  intros Ha. unfold crc_bit.
  assert (0 ≤ Z.shiftr a 1 < 2 ^ 32).
  { rewrite Z.shiftr_div_pow2 by lia. Z.to_euclidean_division_equations; lia. }
  case_match; [|done]. apply lxor_lt_pow2; [lia..|]. unfold crc_poly. lia.
Qed.

(** No register but zero is shifted to zero: the step loses nothing. *)
Lemma crc_bit_zero a : 0 ≤ a < 2 ^ 32 → crc_bit a = 0 → a = 0.
Proof.
  intros Ha. unfold crc_bit. destruct (Z.odd a) eqn:Hodd.
  - intros E%Z.lxor_eq. exfalso. unfold crc_poly in E.
    rewrite Z.shiftr_div_pow2 in E by lia. Z.to_euclidean_division_equations; lia.
  - rewrite Z.shiftr_div_pow2 by lia. intros E. rewrite Zodd_mod in Hodd.
    apply Z.eqb_neq in Hodd. Z.to_euclidean_division_equations; lia.
Qed.

Lemma crc_bits_zero n a :
  0 ≤ a < 2 ^ 32 → Nat.iter n crc_bit a = 0 → a = 0.
Proof.
  revert a. induction n as [|n IH]; intros a Ha; [done|]. rewrite Nat.iter_succ_r.
  intros E%IH; [|by apply crc_bit_bound]. by apply crc_bit_zero.
Qed.

Lemma crc_bits_bound n a :
  0 ≤ a < 2 ^ 32 → 0 ≤ Nat.iter n crc_bit a < 2 ^ 32.
Proof.
  intros Ha. induction n as [|n IH]; [done|]. rewrite Nat.iter_succ. by apply crc_bit_bound.
Qed.
End crc_bit.

(** ** The table *)

Lemma crc_32_tab_entries :
  forallb (λ i, nth (Z.to_nat i) crc_32_tab 0 =? Nat.iter 8 crc_bit i) (seqZ 0 256) = true.
Proof. vm_compute. reflexivity. Qed.

Lemma crc_32_tab_spec i : 0 ≤ i < 256 →
  nth (Z.to_nat i) crc_32_tab 0 = Nat.iter 8 crc_bit i.
Proof.
  intros Hi. pose proof crc_32_tab_entries as H. rewrite forallb_forall in H.
  apply Z.eqb_eq, H, list_elem_of_In, elem_of_seqZ. lia.
Qed.

Lemma land_octet_range a : 0 ≤ Z.land a 0xff < 256.
Proof. change 0xff with (Z.ones 8). rewrite Z.land_ones by lia. apply Z.mod_pos_bound; lia. Qed.

Lemma UPDC32_crc_octet octet crc :
  is_byte octet → 0 ≤ crc → UPDC32 octet crc = crc_octet octet crc.
Proof.
  intros Ho Hc. unfold UPDC32, crc_octet, BYTE, u8.
  unfold is_byte in Ho. rewrite (Z.mod_small octet) by lia.
  set (a := Z.lxor crc octet).
  assert (0 ≤ a) by (apply Z.lxor_nonneg; lia).
  rewrite crc_32_tab_spec by apply land_octet_range.
  rewrite (octet_split a) at 2 by done. rewrite crc_bits_lxor.
  rewrite (crc_bits_shiftl 8) by (apply Z.shiftr_nonneg; done).
  f_equal. unfold a. rewrite Z.shiftr_lxor.
  rewrite (Z.shiftr_div_pow2 octet), (Z.div_small octet) by lia. by rewrite Z.lxor_0_r.
Qed.

Lemma crc_octet_bound octet crc :
  is_byte octet → 0 ≤ crc < 2 ^ 32 → 0 ≤ crc_octet octet crc < 2 ^ 32.
Proof.
  intros Ho Hc. apply crc_bits_bound, lxor_lt_pow2; unfold is_byte in *; lia.
Qed.

Lemma crc32_loop_ref buf crc :
  wf_bytes buf → 0 ≤ crc < 2 ^ 32 →
  crc32_loop buf crc = fold_left (λ c b, crc_octet b c) buf crc ∧
  0 ≤ crc32_loop buf crc < 2 ^ 32.
Proof.
  unfold crc32_loop. intros Hb. revert crc.
  induction Hb as [|b buf Hb Hbuf IH]; intros crc Hc; cbn; [done|].
  rewrite UPDC32_crc_octet by (done || lia).
  apply IH, crc_octet_bound; done.
Qed.

Lemma lnot_low32 x : 0 ≤ x < 2 ^ 32 → u32 (DWORD (Z.lnot x)) = Z.lxor 0xFFFFFFFF x.
Proof.
  intros Hx. unfold u32, DWORD, u64, Z.lnot.
  assert (E : Z.lxor 0xFFFFFFFF x = 0xFFFFFFFF - x).
  { change 0xFFFFFFFF with (Z.ones 32).
    assert (Hl : Z.ldiff x (Z.ones 32) = 0).
    { rewrite Z.ldiff_ones_r by lia. rewrite Z.shiftr_div_pow2, Z.div_small by lia. done. }
    rewrite Z.sub_nocarry_ldiff by done.
    apply Z.bits_inj'. intros i Hi. rewrite Z.lxor_spec, Z.ldiff_spec.
    destruct (decide (i < 32)).
    - rewrite Z.ones_spec_low by lia. by destruct (Z.testbit x i).
    - rewrite Z.ones_spec_high by lia. by rewrite (testbit_lt_pow2 32 x) by lia. }
  rewrite E. Z.to_euclidean_division_equations; lia.
Qed.

(** ** Properties *)

(** C32: for every buffer the table driven [crc32] of the code, truncated to the
    32 bits that [preprocessor_compute_crc] keeps, is the bit-by-bit reflected
    CRC-32 of the polynomial 0xEDB88320. *)
Theorem crc32_is_reference buf :
  wf_bytes buf → u32 (crc32 buf) = crc32_ref buf.
Proof.
  intros Hb. unfold crc32, crc32_ref.
  destruct (crc32_loop_ref buf 0xFFFFFFFF Hb ltac:(lia)) as [E Hr].
  rewrite lnot_low32 by done. by rewrite E.
Qed.

Lemma crc32_is_reference_witness :
  u32 (crc32 [49; 50; 51; 52; 53; 54; 55; 56; 57]) = 0xCBF43926.
Proof.
  rewrite (crc32_is_reference [49; 50; 51; 52; 53; 54; 55; 56; 57]);
    [vm_compute; reflexivity | repeat constructor; vm_compute; discriminate].
Defined.

Lemma crc32_loop_app l1 l2 crc :
  crc32_loop (l1 ++ l2) crc = crc32_loop l2 (crc32_loop l1 crc).
Proof. unfold crc32_loop. by rewrite fold_left_app. Qed.

(** Two registers that differ keep differing, whatever is fed to them. *)
Lemma crc_octet_inj octet c1 c2 :
  0 ≤ c1 < 2 ^ 32 → 0 ≤ c2 < 2 ^ 32 →
  crc_octet octet c1 = crc_octet octet c2 → c1 = c2.
Proof.
  unfold crc_octet. rewrite !crc_bits_lxor. intros H1 H2 E.
  assert (E' : Nat.iter 8 crc_bit (Z.lxor c1 c2) = 0).
  { rewrite crc_bits_lxor. apply Z.lxor_eq_0_iff.
    apply (f_equal (λ x, Z.lxor x (Nat.iter 8 crc_bit octet))) in E.
    by rewrite !Z.lxor_assoc, Z.lxor_nilpotent, !Z.lxor_0_r in E. }
  apply Z.lxor_eq. apply (crc_bits_zero 8); [|done]. by apply lxor_lt_pow2.
Qed.

Lemma crc32_loop_inj buf c1 c2 :
  wf_bytes buf → 0 ≤ c1 < 2 ^ 32 → 0 ≤ c2 < 2 ^ 32 →
  crc32_loop buf c1 = crc32_loop buf c2 → c1 = c2.
Proof.
  intros Hb. revert c1 c2. induction Hb as [|b buf Hb Hbuf IH]; intros c1 c2 H1 H2; [done|].
  unfold crc32_loop. cbn. rewrite !UPDC32_crc_octet by (done || lia).
  intros E%IH; [|by apply crc_octet_bound..]. by eapply crc_octet_inj.
Qed.

Lemma crc_octet_octet_inj crc b1 b2 :
  is_byte b1 → is_byte b2 → crc_octet b1 crc = crc_octet b2 crc → b1 = b2.
Proof.
  unfold crc_octet. rewrite (Z.lxor_comm _ b1), (Z.lxor_comm _ b2).
  intros H1 H2. apply crc_octet_inj; unfold is_byte in *; lia.
Qed.

Lemma crc32_ref_loop buf :
  wf_bytes buf → crc32_ref buf = Z.lxor 0xFFFFFFFF (crc32_loop buf 0xFFFFFFFF).
Proof.
  intros Hb. unfold crc32_ref.
  by destruct (crc32_loop_ref buf 0xFFFFFFFF Hb ltac:(lia)) as [-> _].
Qed.

(** Two source identifiers that differ in exactly one character never get
    the same 32-bit key: the checksum tells them apart. *)
Lemma crc32_one_octet_differs l b1 b2 r :
  wf_bytes (l ++ b1 :: r) → is_byte b2 → b1 ≠ b2 →
  u32 (crc32 (l ++ b1 :: r)) ≠ u32 (crc32 (l ++ b2 :: r)).
Proof.
  intros Hw Hb2 Hne E. pose proof Hw as Hw'.
  apply wf_bytes_app in Hw as [Hl Hr]. apply Forall_cons in Hr as [Hb1 Hr].
  assert (Hw2 : wf_bytes (l ++ b2 :: r)).
  { apply wf_bytes_app; split; [done|]. by constructor. }
  rewrite !crc32_is_reference, !crc32_ref_loop in E by done.
  apply (f_equal (Z.lxor 0xFFFFFFFF)) in E.
  rewrite <-!Z.lxor_assoc, Z.lxor_nilpotent, !Z.lxor_0_l in E.
  rewrite !crc32_loop_app in E.
  set (c := crc32_loop l 0xFFFFFFFF) in *.
  assert (Hc : 0 ≤ c < 2 ^ 32) by (apply crc32_loop_ref; [done|lia]).
  change (crc32_loop (b1 :: r) c) with (crc32_loop r (UPDC32 b1 c)) in E.
  change (crc32_loop (b2 :: r) c) with (crc32_loop r (UPDC32 b2 c)) in E.
  rewrite !UPDC32_crc_octet in E by (done || lia).
  apply crc32_loop_inj in E; [|done|by apply crc_octet_bound..].
  by apply crc_octet_octet_inj in E.
Qed.
