(* ===== verification/Queue.v ===== *)
(** * Queue: the ring buffer between threads ([base/src/queues.c])

    One writer and several readers share a ring of message pointers with a
    reference count per slot.  The file models the operations on the ring,
    the FIFO they implement, and the interleavings of the threads. *)

From S2P Require Import Prelude.

Definition EXIT_SUCCESS : Z := 0.
Definition EXIT_FAILURE : Z := 1.

(** Return codes of the pthread calls an operation makes (0 is success). *)
Record pthread_rets := {
  mutex_lock : Z;
  mutex_unlock : Z;
  cond_wait : Z;
  cond_signal : Z
}.

Definition pthread_ok : pthread_rets :=
  {| mutex_lock := 0; mutex_unlock := 0; cond_wait := 0; cond_signal := 0 |}.

(** An operation either returns or sleeps on a condition variable until
    another thread changes the ring; it is then tried again. *)
Inductive outcome (R : Type) :=
  | Return (r : R)
  | Wait.
Arguments Return {R} r.
Arguments Wait {R}.

(** A message pointer is [option A], [None] being [NULL]. *)
Record ring_buffer (A : Type) := {
  read_offset : Z;
  write_offset : Z;
  size : Z;
  count : Z;
  data : list (option A);
  data_references : list Z
}.
Arguments read_offset {A}.
Arguments write_offset {A}.
Arguments size {A}.
Arguments count {A}.
Arguments data {A}.
Arguments data_references {A}.

Section operations.
Context {A : Type}.
Implicit Types (rb : ring_buffer A) (p : pthread_rets).

(** [data] comes from [malloc]: its content is the arbitrary [uninit];
    [data_references] comes from [calloc]. *)
Definition rbuffer_init (uninit : option A) (sz : Z) : option (ring_buffer A) :=
  if decide (sz = 0) then None
  else Some {| read_offset := 0; write_offset := 0; size := sz; count := 0;
               data := replicate (Z.to_nat sz) uninit;
               data_references := replicate (Z.to_nat sz) 0 |}.

Definition rbuffer_write p (rbuffer : option (ring_buffer A)) (record : option A)
    (ref_count : Z) : res (outcome (Z * option (ring_buffer A))) :=
  match rbuffer with
  | None => Ok (Return (EXIT_FAILURE, rbuffer))
  | Some rb =>
    if decide (ref_count = 0) then Ok (Return (EXIT_FAILURE, rbuffer)) else
    if decide (mutex_lock p ≠ 0) then Ok (Return (EXIT_FAILURE, rbuffer)) else
    if decide (count rb + 1 >= size rb) then
      if decide (cond_wait p ≠ 0) then Ok (Return (EXIT_FAILURE, rbuffer)) else Ok Wait
    else
      let w := Z.to_nat (write_offset rb) in
      if decide (w < length (data rb) ∧ w < length (data_references rb))%nat then
        let rb' := {| read_offset := read_offset rb;
                      write_offset := u16 ((write_offset rb + 1) mod size rb);
                      size := size rb;
                      count := u16 (count rb + 1);
                      data := <[w := record]> (data rb);
                      data_references := <[w := ref_count]> (data_references rb) |} in
        let ret := if decide (cond_signal p ≠ 0) then EXIT_FAILURE else EXIT_SUCCESS in
        if decide (mutex_unlock p ≠ 0) then Ok (Return (EXIT_FAILURE, Some rb'))
        else Ok (Return (ret, Some rb'))
      else Fault OobWrite
  end.

(** [(unsigned int) -1] as index asks for the read offset.  The result is the
    pointer and the new value of [*index]. *)
Definition rbuffer_read p rb (index : Z) : res (outcome (option A * Z)) :=
  let index := if decide (index = 4294967295) then read_offset rb else index in
  if decide (mutex_lock p ≠ 0) then Ok (Return (None, index)) else
  if decide (write_offset rb = index) then
    if decide (cond_wait p ≠ 0) then Ok (Return (None, index)) else Ok Wait
  else
  if decide (mutex_unlock p ≠ 0) then Ok (Return (None, index)) else
  if decide (cond_signal p ≠ 0) then Ok (Return (None, index)) else
  d ← or_fault OobRead (data rb !! Z.to_nat index);
  Ok (Return (d, index)).

Definition set_refs rb (r : list Z) : ring_buffer A :=
  {| read_offset := read_offset rb; write_offset := write_offset rb; size := size rb;
     count := count rb; data := data rb; data_references := r |}.

(** [__sync_fetch_and_sub(&data_references[index], 1)] on an unsigned int. *)
Definition rbuffer_fetch_sub rb (index : Z) : res (Z * ring_buffer A) :=
  old ← or_fault OobRead (data_references rb !! Z.to_nat index);
  Ok (old, set_refs rb (<[Z.to_nat index := u32 (old - 1)]> (data_references rb))).

(** One round of the loop that moves [read_offset] over released slots.  The
    messages disposed of are collected in [freed]; what disposing does to a
    message is [message_dispose] of the preprocessor model. *)
Definition rbuffer_release_step p (do_free : bool) (s : ring_buffer A * list A) :
    res ((ring_buffer A * list A) + (Z * ring_buffer A * list A)) :=
  let '(rb, freed) := s in
  r ← or_fault OobRead (data_references rb !! Z.to_nat (read_offset rb));
  if decide (r = 0 ∧ count rb > 0) then
    d ← or_fault OobRead (data rb !! Z.to_nat (read_offset rb));
    let freed' := if do_free then
                    match d with Some m => freed ++ [m] | None => freed end
                  else freed in
    let rb' := {| read_offset := u16 ((read_offset rb + 1) mod size rb);
                  write_offset := write_offset rb; size := size rb;
                  count := u16 (count rb - 1);
                  data := data rb; data_references := data_references rb |} in
    if decide (count rb' = 0 ∧ cond_signal p ≠ 0)
    then Ok (inr (EXIT_FAILURE, rb', freed'))
    else Ok (inl (rb', freed'))
  else Ok (inr (EXIT_SUCCESS, rb, freed)).

(** The part of [rbuffer_remove_reference] under the mutex. *)
Definition rbuffer_release p (do_free : bool) rb : res (Z * ring_buffer A * list A) :=
  if decide (mutex_lock p ≠ 0) then Ok (EXIT_FAILURE, rb, []) else
  r ← or_fault OobRead (data_references rb !! Z.to_nat (read_offset rb));
  if decide (r <= 0) then
    x ← loop (rbuffer_release_step p do_free) (S (Z.to_nat (count rb))) (rb, []);
    let '(ret, rb', freed) := x in
    if decide (ret ≠ EXIT_SUCCESS) then Ok (ret, rb', freed) else
    if decide (mutex_unlock p ≠ 0) then Ok (EXIT_FAILURE, rb', freed) else
    if decide (cond_signal p ≠ 0) then Ok (EXIT_FAILURE, rb', freed)
    else Ok (EXIT_SUCCESS, rb', freed)
  else if decide (mutex_unlock p ≠ 0) then Ok (EXIT_FAILURE, rb, [])
  else Ok (EXIT_SUCCESS, rb, []).

Definition rbuffer_remove_reference p rb (index : Z) (do_free : bool) :
    res (Z * ring_buffer A * list A) :=
  x ← rbuffer_fetch_sub rb index;
  let '(old, rb) := x in
  if decide (old <= 0) then Ok (EXIT_FAILURE, rb, [])
  else rbuffer_release p do_free rb.

Definition rbuffer_wait_empty p rb : outcome Z :=
  if decide (mutex_lock p ≠ 0) then Return EXIT_FAILURE else
  if decide (count rb > 0) then
    if decide (cond_wait p ≠ 0) then Return EXIT_FAILURE else Wait
  else if decide (mutex_unlock p ≠ 0) then Return EXIT_FAILURE
  else Return EXIT_SUCCESS.

(** The arrays, the synchronisation objects and the ring itself are gone. *)
Definition rbuffer_free (rbuffer : option (ring_buffer A)) : Z * option (ring_buffer A) :=
  (EXIT_SUCCESS, None).
End operations.

(** ** Specification: a bounded FIFO of messages with outstanding references *)

Abbreviation fifo A := (list (option A * Z)).

Section fifo.
Context {A : Type}.
Implicit Types q : fifo A.

Definition fifo_write (q : fifo A) (m : option A) (n : Z) : fifo A := q ++ [(m, n)].

(** Drop one reference of the [k]-th element. *)
Definition fifo_unref (q : fifo A) (k : nat) : fifo A := alter (λ x, (x.1, x.2 - 1)) k q.

(** The released elements at the front, and what is left behind them. *)
Fixpoint fifo_released (q : fifo A) : list (option A) :=
  match q with
  | (m, r) :: q' => if decide (r = 0) then m :: fifo_released q' else []
  | [] => []
  end.
Fixpoint fifo_pending (q : fifo A) : fifo A :=
  match q with
  | (m, r) :: q' => if decide (r = 0) then fifo_pending q' else q
  | [] => []
  end.

Lemma fifo_split q : q.*1 = fifo_released q ++ (fifo_pending q).*1.
Proof.
  induction q as [|[m r] q IH]; [done|]. cbn. case_decide; [|done]. cbn. by rewrite IH.
Qed.

Lemma fifo_unref_messages q k : (fifo_unref q k).*1 = q.*1.
Proof.
  unfold fifo_unref. revert k. induction q as [|[m r] q IH]; intros [|k]; cbn; try done.
  f_equal. apply IH.
Qed.

Lemma fifo_released_none q m r : q !! 0%nat = Some (m, r) → r ≠ 0 →
  fifo_released q = [] ∧ fifo_pending q = q.
Proof. destruct q as [|[] ]; [done|]. cbn. intros [= -> ->] ?. by rewrite !decide_False. Qed.
End fifo.

(** ** The contents of a ring *)

Section contents.
Context {A : Type}.
Implicit Types (rb : ring_buffer A).

(** The slot of the [k]-th element behind the read offset. *)
Definition slot rb (k : Z) : Z := (read_offset rb + k) mod size rb.

Definition rb_at rb (i : Z) : option A * Z :=
  (default None (data rb !! Z.to_nat i), default 0 (data_references rb !! Z.to_nat i)).

Definition window rb : fifo A := (λ k, rb_at rb (slot rb k)) <$> seqZ 0 (count rb).

Record rb_wf rb : Prop := {
  wf_size : 0 < size rb < 65536;
  wf_data : length (data rb) = Z.to_nat (size rb);
  wf_refs_len : length (data_references rb) = Z.to_nat (size rb);
  wf_read : 0 ≤ read_offset rb < size rb;
  wf_count : 0 ≤ count rb < size rb;
  wf_write : write_offset rb = slot rb (count rb);
  wf_refs : Forall is_u32 (data_references rb);
  wf_unused : ∀ k, count rb ≤ k < size rb → (rb_at rb (slot rb k)).2 = 0
}.

Lemma slot_cases rb k : rb_wf rb → 0 ≤ k < size rb →
  slot rb k = read_offset rb + k ∧ read_offset rb + k < size rb ∨
  slot rb k = read_offset rb + k - size rb ∧ size rb ≤ read_offset rb + k.
Proof.
  intros [] ?. unfold slot.
  destruct (decide (read_offset rb + k < size rb)).
  - left. rewrite Z.mod_small by lia. lia.
  - right. rewrite <-(Z.mod_unique (read_offset rb + k) (size rb) 1 (read_offset rb + k - size rb)); lia.
Qed.

Lemma slot_range rb k : rb_wf rb → 0 ≤ k < size rb → 0 ≤ slot rb k < size rb.
Proof. intros Hwf ?. destruct (slot_cases rb k Hwf); [done|..]; destruct Hwf; lia. Qed.

Lemma slot_inj rb k1 k2 : rb_wf rb → 0 ≤ k1 < size rb → 0 ≤ k2 < size rb →
  slot rb k1 = slot rb k2 → k1 = k2.
Proof.
  intros Hwf ??. destruct (slot_cases rb k1 Hwf), (slot_cases rb k2 Hwf);
    destruct Hwf; lia.
Qed.

Lemma slot_succ rb k : rb_wf rb → ((slot rb k) + 1) mod size rb = slot rb (k + 1).
Proof.
  intros []. unfold slot. rewrite Zplus_mod_idemp_l. f_equal. lia.
Qed.

Lemma window_lookup rb k : rb_wf rb → 0 ≤ k < count rb →
  window rb !! Z.to_nat k = Some (rb_at rb (slot rb k)).
Proof.
  intros Hwf Hk. unfold window. rewrite list_lookup_fmap, lookup_seqZ_lt by lia.
  cbn. repeat f_equal. lia.
Qed.

Lemma length_window rb : rb_wf rb → length (window rb) = Z.to_nat (count rb).
Proof. intros []. unfold window. by rewrite length_fmap, length_seqZ. Qed.

Lemma data_lookup rb i : rb_wf rb → 0 ≤ i < size rb →
  data rb !! Z.to_nat i = Some (rb_at rb i).1.
Proof.
  intros [] ?. unfold rb_at. cbn.
  destruct (lookup_lt_is_Some_2 (data rb) (Z.to_nat i)) as [d ->]; [lia|done].
Qed.

Lemma refs_lookup rb i : rb_wf rb → 0 ≤ i < size rb →
  data_references rb !! Z.to_nat i = Some (rb_at rb i).2.
Proof.
  intros [] ?. unfold rb_at. cbn.
  destruct (lookup_lt_is_Some_2 (data_references rb) (Z.to_nat i)) as [d ->]; [lia|done].
Qed.

Lemma rb_at_u32 rb i : rb_wf rb → 0 ≤ i < size rb → is_u32 (rb_at rb i).2.
Proof.
  intros Hwf Hi. pose proof (refs_lookup rb i Hwf Hi) as Hl.
  eapply Forall_lookup_1 in Hl; [done|apply Hwf].
Qed.

Lemma rb_wf_init uninit sz rb :
  0 ≤ sz < 65536 → rbuffer_init uninit sz = Some rb → rb_wf rb ∧ window rb = [].
Proof.
  intros Hsz. unfold rbuffer_init. case_decide; [done|]. intros [= <-].
  split; [|done]. split; cbn; rewrite ?length_replicate; try done; try lia.
  - apply Forall_replicate. unfold is_u32. lia.
  - intros k Hk. unfold rb_at, slot. cbn.
    pose proof (Z.mod_pos_bound k sz ltac:(lia)).
    by rewrite Z.add_0_l, lookup_replicate_2 by lia.
Qed.
End contents.

#[export] Hint Resolve slot_range rb_at_u32 : ipfix.

(** Unfolds the well-formedness of a ring for [lia]. *)
Ltac rb_lia :=
  first [assumption |
    repeat match goal with H : rb_wf _ |- _ => destruct H end;
    unfold is_u32, is_u16 in *; cbn in *; lia].

(** ** What the operations do to the contents *)

Section correctness.
Context {A : Type}.
Implicit Types (rb : ring_buffer A).

Lemma rb_at_insert rb rb' i j m r :
  data rb' = <[Z.to_nat i := m]> (data rb) →
  data_references rb' = <[Z.to_nat i := r]> (data_references rb) →
  rb_wf rb → 0 ≤ i < size rb → 0 ≤ j < size rb →
  rb_at rb' j = if decide (i = j) then (m, r) else rb_at rb j.
Proof.
  intros Hd Hr Hwf Hi Hj. unfold rb_at. rewrite Hd, Hr. case_decide as E.
  - subst j. rewrite !list_lookup_insert_eq by rb_lia. done.
  - rewrite !list_lookup_insert_ne by rb_lia. done.
Qed.

Lemma count_mod rb : rb_wf rb → (write_offset rb + 1) mod size rb = slot rb (count rb + 1).
Proof. intros Hwf. rewrite (wf_write _ Hwf). by apply slot_succ. Qed.


Lemma rbuffer_write_room p rb m n :
  rb_wf rb → 0 < n < 65536 → p = pthread_ok → count rb + 1 < size rb →
  ∃ rb', rbuffer_write p (Some rb) m n = Ok (Return (EXIT_SUCCESS, Some rb')) ∧
         rb_wf rb' ∧ window rb' = fifo_write (window rb) m n ∧ size rb' = size rb.
Proof.
  intros Hwf Hn -> Hroom. unfold rbuffer_write.
  rewrite !decide_False by (cbn; lia).
  assert (Hw : write_offset rb = slot rb (count rb)) by apply Hwf.
  assert (Hs : 0 ≤ slot rb (count rb) < size rb) by (apply slot_range; rb_lia).
  rewrite decide_True by rb_lia. cbn [mutex_unlock pthread_ok cond_signal].
  rewrite !decide_False by lia.
  match goal with |- context [Some ?b] => set (rb' := b) end.
  assert (Hs' : ∀ k, slot rb' k = slot rb k) by done.
  assert (Hat : ∀ j, 0 ≤ j < size rb →
    rb_at rb' j = if decide (slot rb (count rb) = j) then (m, n) else rb_at rb j).
  { intros j Hj. rewrite <-Hw. apply rb_at_insert; [done..|rb_lia|done]. }
  exists rb'. split; [done|]. split; [|split; [|done]].
  - split; cbn -[rb_at slot].
    1: rb_lia. 1,2: rewrite length_insert; rb_lia. 1: rb_lia.
    1: rewrite u16_small; rb_lia.
    + rewrite count_mod by done. rewrite !u16_small; [done|rb_lia|].
      pose proof (slot_range rb (count rb + 1) Hwf). rb_lia.
    + apply Forall_insert; [apply Hwf|]. unfold is_u32. lia.
    + rewrite u16_small by rb_lia. intros k Hk. rewrite Hs'.
      rewrite Hat by (apply slot_range; rb_lia). rewrite decide_False.
      * apply Hwf. rb_lia.
      * intros E%slot_inj; rb_lia.
  - unfold window, fifo_write. change (count rb') with (u16 (count rb + 1)).
    rewrite u16_small by rb_lia.
    rewrite seqZ_app, fmap_app by rb_lia. f_equal.
    + apply list_fmap_ext. intros i k [-> Hk]%lookup_seqZ. rewrite Hs'.
      rewrite Hat by (apply slot_range; rb_lia). rewrite decide_False; [done|].
      intros E%slot_inj; rb_lia.
    + change ([rb_at rb' (slot rb (count rb))] = [(m, n)]).
      by rewrite Hat, decide_True.
Qed.

(** The slot kept free: a full ring makes the writer sleep. *)
Lemma rbuffer_write_full p rb m n :
  rb_wf rb → 0 < n < 65536 → p = pthread_ok → size rb ≤ count rb + 1 →
  rbuffer_write p (Some rb) m n = Ok Wait.
Proof.
  intros Hwf Hn -> ?. unfold rbuffer_write.
  rewrite decide_False, decide_False, decide_True, decide_False by (cbn; lia). done.
Qed.

Lemma rbuffer_read_window rb k :
  rb_wf rb → 0 ≤ k < count rb →
  ∃ x, window rb !! Z.to_nat k = Some x ∧
       rbuffer_read pthread_ok rb (slot rb k) = Ok (Return (x.1, slot rb k)).
Proof.
  intros Hwf Hk. exists (rb_at rb (slot rb k)). split; [by apply window_lookup|].
  pose proof (slot_range rb k Hwf ltac:(rb_lia)) as Hs.
  unfold rbuffer_read. rewrite (decide_False (P := slot rb k = _)) by rb_lia.
  rewrite (wf_write _ Hwf), !decide_False; try (cbn; lia).
  - by rewrite (data_lookup rb _ Hwf Hs).
  - intros E%slot_inj; rb_lia.
Qed.

Lemma rbuffer_read_end rb :
  rb_wf rb → rbuffer_read pthread_ok rb (slot rb (count rb)) = Ok Wait.
Proof.
  intros Hwf. pose proof (slot_range rb (count rb) Hwf ltac:(rb_lia)).
  unfold rbuffer_read. rewrite (decide_False (P := slot rb (count rb) = _)) by rb_lia.
  rewrite (wf_write _ Hwf), decide_False, decide_True, decide_False by (cbn; lia). done.
Qed.

Lemma rbuffer_fetch_sub_window rb k x :
  rb_wf rb → 0 ≤ k → window rb !! Z.to_nat k = Some x → 0 < x.2 →
  ∃ rb', rbuffer_fetch_sub rb (slot rb k) = Ok (x.2, rb') ∧ rb_wf rb' ∧
         window rb' = fifo_unref (window rb) (Z.to_nat k) ∧ size rb' = size rb ∧
         read_offset rb' = read_offset rb ∧ count rb' = count rb.
Proof.
  intros Hwf Hk0 Hx Hpos.
  assert (Hk : 0 ≤ k < count rb).
  { apply lookup_lt_Some in Hx. rewrite length_window in Hx by done. rb_lia. }
  rewrite window_lookup in Hx by done. injection Hx as <-.
  pose proof (slot_range rb k Hwf ltac:(rb_lia)) as Hs.
  unfold rbuffer_fetch_sub. rewrite (refs_lookup rb _ Hwf Hs). cbn -[rb_at slot u32].
  pose proof (rb_at_u32 rb _ Hwf Hs) as Hu.
  match goal with |- context [set_refs rb ?r] => set (rb' := set_refs rb r) end.
  assert (Hat : ∀ j, 0 ≤ j < size rb →
    rb_at rb' j = if decide (slot rb k = j) then ((rb_at rb j).1, (rb_at rb j).2 - 1) else rb_at rb j).
  { intros j Hj. case_decide as E.
    - subst j. unfold rb_at at 1. cbn [data data_references rb' set_refs].
      rewrite list_lookup_insert_eq by rb_lia. unfold rb_at in Hu, Hpos |- *; cbn in *.
      f_equal. apply Z.mod_small. unfold is_u32 in Hu. lia.
    - unfold rb_at. cbn [data data_references rb' set_refs].
      rewrite list_lookup_insert_ne by rb_lia. done. }
  exists rb'. split; [done|]. split; [|split; [|done]].
  - split; try apply Hwf.
    + cbn. rewrite length_insert. apply Hwf.
    + apply Forall_insert; [apply Hwf|]. unfold is_u32, u32. apply Z.mod_pos_bound. lia.
    + intros j Hj. change (slot rb' j) with (slot rb j).
      rewrite Hat by (apply slot_range; [done|rb_lia]). case_decide as E.
      * apply slot_inj in E; rb_lia.
      * by apply Hwf.
  - unfold window, fifo_unref. change (count rb') with (count rb).
    apply list_eq. intros i. rewrite list_lookup_alter, !list_lookup_fmap.
    case_decide as Ei; [subst i|];
      (destruct (seqZ 0 (count rb) !! _) as [j|] eqn:Hj; [|done]);
      apply lookup_seqZ in Hj as [-> Hj]; cbn -[rb_at slot];
      change (slot rb' ?x) with (slot rb x); rewrite Hat by (apply slot_range; rb_lia).
    + rewrite decide_True; [done|]. f_equal. lia.
    + rewrite decide_False; [done|]. intros E%slot_inj; rb_lia.
Qed.

(** The messages that disposing of released elements reaches. *)
Definition disposed (do_free : bool) (l : list (option A)) : list A :=
  if do_free then omap id l else [].

Lemma window_cons rb x q :
  rb_wf rb → window rb = x :: q → 0 < count rb ∧ x = rb_at rb (read_offset rb) ∧
  q = (λ k, rb_at rb (slot rb (k + 1))) <$> seqZ 0 (count rb - 1).
Proof.
  intros Hwf E.
  assert (Hc : 0 < count rb).
  { pose proof (length_window rb Hwf) as Hl. rewrite E in Hl. cbn in Hl. lia. }
  split; [done|]. unfold window in E. rewrite seqZ_cons in E by done.
  cbn -[rb_at slot seqZ] in E. injection E as Ex Eq. split.
  - rewrite <-Ex. f_equal. unfold slot. rewrite Z.add_0_r. apply Z.mod_small. rb_lia.
  - rewrite <-Eq. replace (seqZ (Z.succ 0) (Z.pred (count rb)))
      with (Z.add 1 <$> seqZ 0 (count rb - 1)) by (rewrite fmap_add_seqZ; f_equal; lia).
    rewrite <-list_fmap_compose. apply list_fmap_ext. intros i k _. cbn -[rb_at slot].
    by rewrite Z.add_comm.
Qed.

Lemma rbuffer_release_step_free do_free rb freed m q :
  rb_wf rb → window rb = (m, 0) :: q →
  ∃ rb', rbuffer_release_step pthread_ok do_free (rb, freed)
           = Ok (inl (rb', freed ++ disposed do_free [m])) ∧
         rb_wf rb' ∧ window rb' = q ∧ size rb' = size rb.
Proof.
  intros Hwf E. destruct (window_cons rb _ _ Hwf E) as (Hc & Hm & Hq).
  unfold rbuffer_release_step.
  rewrite refs_lookup, data_lookup by (done || rb_lia). rewrite <-Hm. cbn -[u16].
  rewrite decide_True by lia. rewrite (u16_small (count rb - 1)) by rb_lia.
  rewrite decide_False by lia.
  match goal with |- context [inl (?b, _)] => set (rb' := b) end.
  assert (Hro : u16 ((read_offset rb + 1) mod size rb) = slot rb 1).
  { apply u16_small. pose proof (slot_range rb 1). destruct Hwf.
    unfold slot in *. pose proof (Z.mod_pos_bound (read_offset rb + 1) (size rb)). lia. }
  assert (Hs : ∀ k, slot rb' k = slot rb (k + 1)).
  { intros k. unfold slot at 1. cbn -[slot u16]. rewrite Hro. unfold slot.
    rewrite Zplus_mod_idemp_l. f_equal. lia. }
  exists rb'. split; [|split; [|split; [|done] ] ].
  - do 4 f_equal. by destruct do_free, m; cbn; rewrite ?app_nil_r.
  - split; try apply Hwf; cbn [read_offset count write_offset size rb'].
    + rewrite Hro. destruct (decide (size rb = 1)); [rb_lia|].
      apply slot_range; rb_lia.
    + rb_lia.
    + rewrite Hs, (wf_write _ Hwf). f_equal. lia.
    + intros k Hk. rewrite Hs. change (rb_at rb' ?i) with (rb_at rb i).
      destruct (decide (k + 1 = size rb)) as [E'|].
      * replace (slot rb (k + 1)) with (read_offset rb); [by rewrite <-Hm|].
        unfold slot. rewrite E', Z.add_mod, Z.mod_same, Z.add_0_r, Zmod_mod by rb_lia.
        rewrite Z.mod_small; rb_lia.
      * apply Hwf. rb_lia.
  - subst q. unfold window. apply list_fmap_ext. intros i k _. by rewrite Hs.
Qed.

Lemma rbuffer_release_step_stop do_free rb freed :
  rb_wf rb → fifo_pending (window rb) = window rb →
  rbuffer_release_step pthread_ok do_free (rb, freed) = Ok (inr (EXIT_SUCCESS, rb, freed)).
Proof.
  intros Hwf E. unfold rbuffer_release_step.
  rewrite refs_lookup by (done || rb_lia). cbn -[rb_at].
  destruct (window rb) as [|[m r] q] eqn:Ew.
  - rewrite decide_False; [done|]. pose proof (length_window rb Hwf) as Hl.
    rewrite Ew in Hl. cbn in Hl. rb_lia.
  - destruct (window_cons rb _ _ Hwf Ew) as (_ & <- & _). cbn in E |- *.
    rewrite decide_False; [done|]. intros [-> _]. rewrite decide_True in E by done.
    apply (f_equal length) in E. cbn in E.
    assert (length (fifo_pending q) ≤ length q)%nat; [|lia].
    clear. induction q as [|[m r] q IH]; cbn; [done|]. case_decide; cbn; lia.
Qed.

Lemma rbuffer_release_loop do_free n q rb freed :
  rb_wf rb → window rb = q → (length q < n)%nat →
  ∃ rb', loop (rbuffer_release_step pthread_ok do_free) n (rb, freed)
           = Ok (EXIT_SUCCESS, rb', freed ++ disposed do_free (fifo_released q)) ∧
         rb_wf rb' ∧ window rb' = fifo_pending q ∧ size rb' = size rb.
Proof.
  revert n rb freed. induction q as [|[m r] q IH]; intros n rb freed Hwf Ew Hn;
    (destruct n as [|n]; [cbn in Hn; lia|]).
  - exists rb. cbn [loop]. rewrite rbuffer_release_step_stop by (done || by rewrite Ew).
    cbn. split; [|done]. by destruct do_free; cbn; rewrite app_nil_r.
  - cbn [fifo_released fifo_pending]. case_decide as Er.
    + subst r. destruct (rbuffer_release_step_free do_free rb freed m q Hwf Ew)
        as (rb1 & E1 & Hwf1 & Ew1 & Es1).
      cbn [loop]. rewrite E1.
      destruct (IH n rb1 (freed ++ disposed do_free [m]) Hwf1 Ew1) as (rb' & -> & Hwf' & Ew' & Es').
      { cbn in Hn. lia. }
      exists rb'. split; [|split; [done|split; [done|congruence] ] ]. do 2 f_equal.
      rewrite <-app_assoc. f_equal. by destruct do_free, m.
    + exists rb. cbn [loop]. rewrite rbuffer_release_step_stop; [|done|].
      * split; [|done]. by destruct do_free; cbn; rewrite app_nil_r.
      * rewrite Ew. cbn. by rewrite decide_False.
Qed.

Lemma rbuffer_release_window do_free rb :
  rb_wf rb →
  ∃ rb', rbuffer_release pthread_ok do_free rb
           = Ok (EXIT_SUCCESS, rb', disposed do_free (fifo_released (window rb))) ∧
         rb_wf rb' ∧ window rb' = fifo_pending (window rb) ∧ size rb' = size rb.
Proof.
  intros Hwf. unfold rbuffer_release. rewrite decide_False by (cbn; lia).
  rewrite refs_lookup by (done || rb_lia). cbn -[rb_at loop].
  case_decide as Hr.
  - destruct (rbuffer_release_loop do_free (S (Z.to_nat (count rb))) (window rb) rb [] Hwf)
      as (rb' & -> & Hwf' & Ew' & Es'); [done|by rewrite length_window; [lia|]|].
    exists rb'. done.
  - exists rb. destruct (window rb) as [|[m r] q] eqn:Ew.
    + by destruct do_free.
    + destruct (window_cons rb _ _ Hwf Ew) as (_ & Em & _). rewrite <-Em in Hr. cbn in Hr |- *.
      rewrite !decide_False by lia. by destruct do_free.
Qed.
End correctness.

(** ** Interleavings *)

(** The atomic steps the threads make on a shared ring: the writer's critical
    section, a reader's atomic decrement of a reference it holds, and the
    critical section in which a reader moves the read offset.  A reader's call
    of [rbuffer_remove_reference] is an [Unref] and a later [Release], between
    which any other step may happen. *)
Section interleaving.
Context {A : Type}.

Inductive event :=
  | EvWrite (m : option A)
  | EvUnref
  | EvRelease (freed : list A).

Inductive rb_step : ring_buffer A → event → ring_buffer A → Prop :=
  | rb_step_write rb m n rb' :
      0 < n < 65536 →
      rbuffer_write pthread_ok (Some rb) m n = Ok (Return (EXIT_SUCCESS, Some rb')) →
      rb_step rb (EvWrite m) rb'
  | rb_step_unref rb index old rb' :
      0 ≤ index < size rb →
      rbuffer_fetch_sub rb index = Ok (old, rb') → 0 < old →
      rb_step rb EvUnref rb'
  | rb_step_release rb rb' freed :
      rbuffer_release pthread_ok true rb = Ok (EXIT_SUCCESS, rb', freed) →
      rb_step rb (EvRelease freed) rb'.

Inductive fifo_step : fifo A → event → fifo A → Prop :=
  | fifo_step_write q m n : 0 < n → fifo_step q (EvWrite m) (fifo_write q m n)
  | fifo_step_unref q k x :
      q !! k = Some x → 0 < x.2 → fifo_step q EvUnref (fifo_unref q k)
  | fifo_step_release q :
      fifo_step q (EvRelease (disposed true (fifo_released q))) (fifo_pending q).

Definition written (tr : list event) : list A :=
  omap (λ e, match e with EvWrite m => m | _ => None end) tr.
Definition freed (tr : list event) : list A :=
  mjoin ((λ e, match e with EvRelease l => l | _ => [] end) <$> tr).
Definition messages (q : fifo A) : list A := omap id q.*1.

Lemma slot_surj (rb : ring_buffer A) i : rb_wf rb → 0 ≤ i < size rb →
  ∃ k, 0 ≤ k < size rb ∧ slot rb k = i.
Proof.
  intros Hwf Hi. exists ((i - read_offset rb) mod size rb).
  split; [apply Z.mod_pos_bound; rb_lia|]. unfold slot.
  rewrite Zplus_mod_idemp_r. replace (read_offset rb + (i - read_offset rb)) with i by lia.
  apply Z.mod_small. lia.
Qed.

Lemma rb_step_simulates rb e rb' :
  rb_wf rb → rb_step rb e rb' → rb_wf rb' ∧ fifo_step (window rb) e (window rb').
Proof.
  intros Hwf. destruct 1 as [rb m n rb' Hn E|rb i old rb' Hi E Hold|rb rb' fr E].
  - destruct (decide (count rb + 1 < size rb)).
    + destruct (rbuffer_write_room pthread_ok rb m n Hwf Hn) as (rb2&E2&Hwf2&Ew2&_); [done..|].
      rewrite E in E2. injection E2 as ->. split; [done|]. rewrite Ew2. constructor; lia.
    + rewrite (rbuffer_write_full pthread_ok) in E; [done..|lia].
  - destruct (slot_surj rb i Hwf Hi) as (k & Hk & <-).
    assert (k < count rb) as Hkc.
    { destruct (decide (k < count rb)); [done|]. exfalso.
      unfold rbuffer_fetch_sub in E. rewrite refs_lookup in E by done.
      cbn -[rb_at] in E. rewrite (wf_unused _ Hwf) in E by lia. inv_res. lia. }
    assert (Hl : window rb !! Z.to_nat k = Some (rb_at rb (slot rb k))).
    { apply window_lookup; [done|lia]. }
    assert (Hpos : 0 < (rb_at rb (slot rb k)).2).
    { unfold rbuffer_fetch_sub in E. rewrite refs_lookup in E by done.
      cbn -[rb_at] in E. inv_res. done. }
    destruct (rbuffer_fetch_sub_window rb k _ Hwf ltac:(lia) Hl Hpos) as (rb2&E2&Hwf2&Ew2&_).
    rewrite E in E2. injection E2 as _ ->. split; [done|]. rewrite Ew2. by econstructor.
  - destruct (rbuffer_release_window true rb Hwf) as (rb2&E2&Hwf2&Ew2&_).
    rewrite E in E2. injection E2 as -> ->. split; [done|]. rewrite Ew2. constructor.
Qed.

Lemma fifo_step_messages q e q' :
  fifo_step q e q' → messages q ++ written [e] = freed [e] ++ messages q'.
Proof.
  unfold messages, written, freed. destruct 1 as [q m n ?|q k x Hx ?|q]; cbn.
  - unfold fifo_write. rewrite fmap_app, omap_app. cbn. by destruct m.
  - by rewrite fifo_unref_messages, app_nil_r.
  - by rewrite !app_nil_r, <-omap_app, <-fifo_split.
Qed.

Lemma fifo_steps_messages q tr q' :
  lstar fifo_step q tr q' → messages q ++ written tr = freed tr ++ messages q'.
Proof.
  induction 1 as [q|q e q' tr q'' Hs _ IH]; [apply app_nil_r|].
  apply fifo_step_messages in Hs.
  assert (Hw : written (e :: tr) = written [e] ++ written tr).
  { unfold written. by rewrite <-omap_app. }
  assert (Hf : freed (e :: tr) = freed [e] ++ freed tr).
  { unfold freed. cbn. by rewrite app_nil_r. }
  by rewrite Hw, Hf, app_assoc, Hs, <-!app_assoc, IH.
Qed.
End interleaving.
Arguments event : clear implicits.

(** ** Properties *)


(** C30: from initialisation, whatever the interleaving, the messages written are
    exactly the messages freed so far followed by those still in the ring, in
    the order they were written: nothing is lost, freed twice or reordered. *)
Theorem ring_exactly_once_in_order {A} (uninit : option A) sz rb rb' tr :
  0 ≤ sz < 65536 → rbuffer_init uninit sz = Some rb → lstar rb_step rb tr rb' →
  written tr = freed tr ++ messages (window rb').
Proof.
  intros Hsz Hi Hs. destruct (rb_wf_init uninit sz rb Hsz Hi) as [Hwf Hw].
  destruct (lstar_simulation rb_step fifo_step rb_wf window rb_step_simulates rb tr rb' Hs Hwf)
    as [_ Hf].
  apply fifo_steps_messages in Hf. by rewrite Hw in Hf.
Qed.

(** With room for one more message a write succeeds and appends the message
    with its reference count; in a ring with one free slot left the writer is
    put to sleep, so a written slot is never overwritten before it is freed. *)
Lemma rbuffer_write_appends {A} (rb : ring_buffer A) m n :
  rb_wf rb → 0 < n < 65536 →
  (count rb + 1 < size rb →
   ∃ rb', rbuffer_write pthread_ok (Some rb) m n = Ok (Return (EXIT_SUCCESS, Some rb')) ∧
          rb_wf rb' ∧ window rb' = fifo_write (window rb) m n) ∧
  (size rb ≤ count rb + 1 → rbuffer_write pthread_ok (Some rb) m n = Ok Wait).
Proof.
  intros Hwf Hn. split; intros Hc.
  - destruct (rbuffer_write_room pthread_ok rb m n Hwf Hn) as (rb'&?&?&?&_); eauto.
  - by apply rbuffer_write_full.
Qed.

(** A reader that walks the ring from the read offset gets the elements of
    the FIFO in order, and sleeps exactly at the write offset, where no element
    is: the slot kept free makes the two cases distinguishable. *)
Lemma rbuffer_read_in_order {A} (rb : ring_buffer A) k :
  rb_wf rb → 0 ≤ k ≤ count rb →
  rbuffer_read pthread_ok rb (slot rb k) =
    Ok match window rb !! Z.to_nat k with
       | Some x => Return (x.1, slot rb k)
       | None => Wait
       end.
Proof.
  intros Hwf Hk. destruct (decide (k = count rb)) as [->|].
  - rewrite rbuffer_read_end by done. rewrite lookup_ge_None_2; [done|].
    rewrite length_window; done.
  - destruct (rbuffer_read_window rb k Hwf ltac:(lia)) as (x & -> & ->). done.
Qed.

(** Releasing a held reference of the [k]-th element succeeds, leaves the
    FIFO with one reference less there and without the fully released elements
    at its front, and disposes of exactly those, in order. *)
Lemma rbuffer_remove_reference_releases {A} (rb : ring_buffer A) k x do_free :
  rb_wf rb → 0 ≤ k → window rb !! Z.to_nat k = Some x → 0 < x.2 →
  ∃ rb', rbuffer_remove_reference pthread_ok rb (slot rb k) do_free =
           Ok (EXIT_SUCCESS, rb',
               disposed do_free (fifo_released (fifo_unref (window rb) (Z.to_nat k)))) ∧
         rb_wf rb' ∧ window rb' = fifo_pending (fifo_unref (window rb) (Z.to_nat k)).
Proof.
  intros Hwf Hk Hx Hpos.
  destruct (rbuffer_fetch_sub_window rb k x Hwf Hk Hx Hpos) as (rb1 & E1 & Hwf1 & Ew1 & _).
  destruct (rbuffer_release_window do_free rb1 Hwf1) as (rb2 & E2 & Hwf2 & Ew2 & _).
  unfold rbuffer_remove_reference. rewrite E1. cbn. rewrite decide_False by lia.
  rewrite E2, Ew1 in *. by exists rb2.
Qed.

(** Releasing a slot without references reports the failure but has already
    wrapped the counter of the slot to 2^32 - 1: a second release by the same
    reader of an element behind the front leaves a slot that no number of
    releases below 2^32 frees. *)
Lemma rbuffer_remove_reference_underflow {A} (rb : ring_buffer A) i do_free :
  rb_wf rb → 0 ≤ i < size rb → (rb_at rb i).2 = 0 →
  ∃ rb', rbuffer_remove_reference pthread_ok rb i do_free = Ok (EXIT_FAILURE, rb', []) ∧
         (rb_at rb' i).2 = 4294967295.
Proof.
  intros Hwf Hi E. unfold rbuffer_remove_reference, rbuffer_fetch_sub.
  rewrite refs_lookup by done. cbn -[rb_at set_refs]. rewrite E. cbn -[set_refs rb_at].
  eexists. split; [done|]. unfold rb_at. cbn.
  rewrite list_lookup_insert_eq by rb_lia. done.
Qed.

(** ** The properties at a concrete ring *)

(** Four slots, two messages: the first at the last slot with one reference
    left, the second wrapped around to slot 0 with two. *)
Definition ring_example : ring_buffer Z :=
  {| read_offset := 3; write_offset := 1; size := 4; count := 2;
     data := [Some 11; None; None; Some 10]; data_references := [2; 0; 0; 1] |}.

Lemma ring_example_wf : rb_wf ring_example.
Proof.
  split; cbn; try done; try lia.
  - repeat constructor; unfold is_u32; lia.
  - intros k Hk. assert (k = 2 ∨ k = 3) as [-> | ->] by lia; reflexivity.
Qed.




Definition ring_init_example : ring_buffer Z :=
  {| read_offset := 0; write_offset := 0; size := 4; count := 0;
     data := [None; None; None; None]; data_references := [0; 0; 0; 0] |}.

Definition ring_written_example : ring_buffer Z :=
  {| read_offset := 0; write_offset := 1; size := 4; count := 1;
     data := [Some 7; None; None; None]; data_references := [2; 0; 0; 0] |}.

Lemma ring_exactly_once_in_order_witness :
  written (A := Z) [EvWrite (Some 7)] = freed [EvWrite (Some 7)] ++ messages (window ring_written_example).
Proof.
  apply (ring_exactly_once_in_order None 4 ring_init_example); [lia|reflexivity|].
  apply lstar_step with ring_written_example; [|constructor].
  apply rb_step_write with 2; [lia|vm_compute; reflexivity].
Defined.

Lemma rbuffer_write_appends_witness :
  ∃ rb', rbuffer_write pthread_ok (Some ring_example) (Some 12) 1 = Ok (Return (EXIT_SUCCESS, Some rb')) ∧
         rb_wf rb' ∧ window rb' = [(Some 10, 1); (Some 11, 2); (Some 12, 1)].
Proof.
  apply (rbuffer_write_appends ring_example (Some 12) 1); [exact ring_example_wf|lia|cbn; lia].
Defined.

Lemma rbuffer_read_in_order_witness :
  rbuffer_read pthread_ok ring_example 0 = Ok (Return (Some 11, 0)).
Proof. apply (rbuffer_read_in_order ring_example 1); [exact ring_example_wf|cbn; lia]. Defined.

(** ** The interface of a queue to the stage that feeds it *)

(** What the writing side promises: a write either appends one message or
    sleeps, and it sleeps exactly when there is no room. *)
Class MessageQueue (Q A : Type) := {
  mq_write : Q → option A → res (outcome (Z * Q));
  mq_messages : Q → list (option A);
  mq_inv : Q → Prop;
  mq_room : Q → Prop;
  mq_write_room q m : mq_inv q → mq_room q →
    ∃ q', mq_write q m = Ok (Return (EXIT_SUCCESS, q')) ∧ mq_inv q' ∧
          mq_messages q' = mq_messages q ++ [m];
  mq_write_full q m : mq_inv q → ¬ mq_room q → mq_write q m = Ok Wait
}.

(** The ring written with one reader, as [preprocessor_parse_msg] does. *)
Section ring_message_queue.
Context {A : Type}.

Definition ring_mq_write (rb : ring_buffer A) (m : option A) :
    res (outcome (Z * ring_buffer A)) :=
  x ← rbuffer_write pthread_ok (Some rb) m 1;
  Ok match x with
     | Return (ret, Some rb') => Return (ret, rb')
     | Return (ret, None) => Return (ret, rb)
     | Wait => Wait
     end.

#[export] Program Instance ring_message_queue : MessageQueue (ring_buffer A) A := {|
  mq_write := ring_mq_write;
  mq_messages rb := (window rb).*1;
  mq_inv := rb_wf;
  mq_room rb := count rb + 1 < size rb
|}.
Next Obligation.
  intros rb m Hwf Hroom.
  destruct (rbuffer_write_room pthread_ok rb m 1 Hwf) as (rb' & E & ? & Ew & _); [lia|done..|].
  exists rb'. unfold ring_mq_write. rewrite E, Ew. unfold fifo_write. by rewrite fmap_app.
Qed.
Next Obligation.
  intros rb m Hwf Hfull. cbn in Hfull. unfold ring_mq_write.
  by rewrite (rbuffer_write_full pthread_ok rb m 1 Hwf ltac:(lia) eq_refl ltac:(lia)).
Qed.
End ring_message_queue.
