(* ===== verification/TemplateRecord.v ===== *)
(** * TemplateRecord: parsing (Options) Template Records

    [tm_template_length], [tm_template_record_length], [tm_copy_fields],
    [tm_fill_template], [tm_create_template] and the field look-ups of
    [base/src/template_manager.c], on the structures of
    [base/headers/ipfixcol/ipfix.h] and [templates.h]. *)

From S2P Require Import Prelude.

(** ** Constants *)

Definition TM_TEMPLATE : Z := 0.
Definition TM_OPTIONS_TEMPLATE : Z := 1.
Definition VAR_IE_LENGTH : Z := 65535.
Definition TEMPLATE_FIELD_LEN : Z := 4.
Definition TEMPLATE_ENT_NUM_LEN : Z := 4.
Definition IPFIX_TEMPLATE_FLOWSET_ID : Z := 2.
Definition IPFIX_OPTION_FLOWSET_ID : Z := 3.
Definition IPFIX_MIN_RECORD_FLOWSET_ID : Z := 256.
Definition OF_COUNT : nat := 9.

(** Sizes on an LP64 host.  [fields] is at offset 128 of [struct ipfix_template];
    the structure is padded to 136. *)
Definition sizeof_ipfix_template : Z := 136.
Definition offsetof_fields : Z := 128.
Definition sizeof_template_ie : Z := 4.
Definition sizeof_ipfix_template_record : Z := 8.
Definition sizeof_ipfix_options_template_record : Z := 10.

(** ** Data *)

(** A row of [fields]: the union [template_ie] as the 32-bit word it occupies on
    a little-endian host. *)
Definition ie_id (w : Z) : Z := w mod 65536.
Definition ie_length (w : Z) : Z := w / 65536.
Definition enterprise_number (w : Z) : Z := w.
Definition mk_ie (id len : Z) : Z := len * 65536 + id.

(** [struct ipfix_template].  Members that [tm_create_template] leaves as
    [malloc] returned them are [None] until they are written. *)
Record ipfix_template := {
  original_id : Z;
  references : Z;
  next : option loc;
  template_type : Z;
  first_transmission : Z;
  last_transmission : option Z;
  last_message : option Z;
  template_id : Z;
  field_count : Z;
  scope_field_count : Z;
  template_length : Z;
  data_length : Z;
  offsets : list (Z * option Z);
  fields : list Z
}.

#[export] Instance ipfix_template_eq_dec : EqDecision ipfix_template.
Proof. solve_decision. Defined.

(** ** Lengths *)

(** The loop over the field specifiers, on
    [(count, fields_length, data_record_length)]; the exit value is the pair of
    the returned length and the value stored through [data_length]. *)
Definition tm_template_length_step (mem : bytes) (flds cnt max_len : Z)
    (s : Z * Z * Z) : res ((Z * Z * Z) + (Z * option Z)) :=
  let '(count, fields_length, data_record_length) := s in
  if decide (count < cnt) then
    tmp_data_length ← rd16 mem (flds + fields_length + 2);
    let data_record_length :=
      if decide (tmp_data_length = 0xffff)
      then u32 (Z.lor data_record_length 0x80000000 + 1)
      else u32 (data_record_length + tmp_data_length) in
    id ← rd16 mem (flds + fields_length);
    let fields_length :=
      if decide (Z.land id 0x8000 ≠ 0)
      then u16 (fields_length + TEMPLATE_ENT_NUM_LEN) else fields_length in
    let fields_length := u16 (fields_length + TEMPLATE_FIELD_LEN) in
    if decide (fields_length > max_len) then Ok (inr (0, None))
    else Ok (inl (count + 1, fields_length, data_record_length))
  else
    Ok (inr (u16 (u16 (sizeof_ipfix_template - sizeof_template_ie) + fields_length),
             Some data_record_length)).

(** [template] is an offset in the packet [mem]; the specifiers start behind
    the header of the record, which an Options Template Record has longer. *)
Definition fields_ptr (template type : Z) : Z :=
  if decide (type = TM_TEMPLATE) then template + 4 else template + 6.

Definition tm_template_length (mem : bytes) (template max_len type : Z) :
    res (Z * option Z) :=
  cnt ← rd16 mem (template + 2);
  loop (tm_template_length_step mem (fields_ptr template type) cnt max_len)
       (S (Z.to_nat cnt)) (0, 0, 0).

Definition tm_template_record_length (mem : bytes) (template max_len type : Z) :
    res (Z * option Z) :=
  x ← tm_template_length mem template max_len type;
  let '(len, data_length) := x in
  if decide (len > 0) then
    if decide (type = TM_TEMPLATE)
    then Ok (u16 (len - sizeof_ipfix_template + sizeof_ipfix_template_record), data_length)
    else Ok (u16 (len - sizeof_ipfix_template + sizeof_ipfix_options_template_record), data_length)
  else Ok (len, data_length).

(** ** Filling the host representation *)

(** [tm_copy_fields] on [(offset, rows written)]; [cap] is the room behind
    [template->fields] in the allocated object. *)
Definition tm_copy_fields_step (cap : Z) (mem : bytes) (from length : Z)
    (s : Z * list Z) : res ((Z * list Z) + list Z) :=
  let '(offset, to) := s in
  if decide (offset < length) then
    id ← rd16 mem (from + offset);
    len ← rd16 mem (from + offset + 2);
    if decide (offset + TEMPLATE_FIELD_LEN > cap) then Fault OobWrite else
    let to := to ++ [mk_ie id len] in
    let offset := u16 (offset + TEMPLATE_FIELD_LEN) in
    if decide (Z.land id 0x8000 ≠ 0) then
      en ← rd32 mem (from + offset);
      if decide (offset + TEMPLATE_ENT_NUM_LEN > cap) then Fault OobWrite else
      Ok (inl (u16 (offset + TEMPLATE_ENT_NUM_LEN), to ++ [en]))
    else Ok (inl (offset, to))
  else Ok (inr to).

Definition tm_copy_fields (cap : Z) (mem : bytes) (from length : Z) : res (list Z) :=
  loop (tm_copy_fields_step cap mem from length) (S (Z.to_nat length)) (0, []).

(** [tm_fill_template] on the [tm_length] bytes that [malloc] returned; [None] is
    its error return. *)
Definition tm_fill_template (mem : bytes) (template_record tm_length data_len type now : Z) :
    res (option ipfix_template) :=
  count ← rd16 mem (template_record + 2);
  tid ← rd16 mem template_record;
  if decide (tm_length < offsetof_fields) then Fault OobWrite else
  let cap := tm_length - offsetof_fields in
  let copy_length := u16 (tm_length - sizeof_ipfix_template + sizeof_template_ie) in
  let filled scope rows :=
    {| original_id := tid; references := 0; next := None; template_type := u8 type;
       first_transmission := now; last_transmission := None; last_message := None;
       template_id := tid; field_count := count; scope_field_count := scope;
       template_length := tm_length; data_length := data_len;
       offsets := replicate OF_COUNT (-1, None); fields := rows |} in
  if decide (type = TM_TEMPLATE) then
    rows ← tm_copy_fields cap mem (template_record + 4) copy_length;
    Ok (Some (filled 0 rows))
  else
    scope ← rd16 mem (template_record + 4);
    if decide (scope = 0) then Ok None else
    rows ← tm_copy_fields cap mem (template_record + 6) copy_length;
    Ok (Some (filled scope rows)).

Definition tm_create_template (mem : bytes) (template max_len type now : Z) :
    res (option ipfix_template) :=
  x ← tm_template_length mem template max_len type;
  let '(tmpl_length, data_length) := x in
  if decide (tmpl_length = 0) then Ok None
  else tm_fill_template mem template tmpl_length (default 0 data_length) type now.

(** ** Specification: lists of field specifiers *)

(** A field specifier as RFC 7011, 3.2 describes it. *)
Record field_spec := {
  fs_id : Z;
  fs_length : Z;
  fs_enterprise : option Z
}.

Record field_wf (f : field_spec) : Prop := {
  fwf_id : 0 ≤ fs_id f < 32768;
  fwf_length : is_u16 (fs_length f);
  fwf_enterprise : match fs_enterprise f with Some e => is_u32 e | None => True end
}.

(** The identifier with the enterprise bit. *)
Definition wire_id (f : field_spec) : Z :=
  match fs_enterprise f with Some _ => fs_id f + 32768 | None => fs_id f end.

Definition enc_field (f : field_spec) : bytes :=
  enc16 (wire_id f) ++ enc16 (fs_length f) ++
  match fs_enterprise f with Some e => enc32 e | None => [] end.
Definition enc_fields (fs : list field_spec) : bytes := mjoin (enc_field <$> fs).

(** The rows of the host representation. *)
Definition field_rows (f : field_spec) : list Z :=
  mk_ie (wire_id f) (fs_length f) ::
  match fs_enterprise f with Some e => [e] | None => [] end.
Definition fields_rows (fs : list field_spec) : list Z := mjoin (field_rows <$> fs).

Definition field_size (f : field_spec) : Z :=
  match fs_enterprise f with Some _ => 8 | None => 4 end.

Definition fields_size (fs : list field_spec) : Z := foldr Z.add 0 (field_size <$> fs).

(** The shortest data record a template describes, and whether it has a field
    of variable length; [spec_data_length] is the value the code stores. *)
Definition min_length (f : field_spec) : Z :=
  if decide (fs_length f = VAR_IE_LENGTH) then 1 else fs_length f.
Definition spec_min_length (fs : list field_spec) : Z := foldr Z.add 0 (min_length <$> fs).
Definition has_variable (fs : list field_spec) : bool :=
  existsb (λ f, bool_decide (fs_length f = VAR_IE_LENGTH)) fs.
Definition spec_data_length (fs : list field_spec) : Z :=
  spec_min_length fs + (if has_variable fs then 0x80000000 else 0).

(** A template record and an options template record on the wire. *)
Definition enc_template (tid : Z) (fs : list field_spec) : bytes :=
  enc16 tid ++ enc16 (Z.of_nat (length fs)) ++ enc_fields fs.
Definition enc_options_template (tid scope : Z) (fs : list field_spec) : bytes :=
  enc16 tid ++ enc16 (Z.of_nat (length fs)) ++ enc16 scope ++ enc_fields fs.

Section field_lemmas.
Implicit Types (f : field_spec) (fs : list field_spec).

Lemma fields_size_app l1 l2 : fields_size (l1 ++ l2) = fields_size l1 + fields_size l2.
Proof.
  induction l1 as [|f l1 IH]; [done|].
  change (field_size f + fields_size (l1 ++ l2) = field_size f + fields_size l1 + fields_size l2).
  rewrite IH. lia.
Qed.

Lemma fields_size_cons f fs : fields_size (f :: fs) = field_size f + fields_size fs.
Proof. done. Qed.

Lemma field_size_range f : 4 ≤ field_size f ≤ 8.
Proof. unfold field_size. case_match; lia. Qed.

Lemma fields_size_length fs : 4 * Z.of_nat (length fs) ≤ fields_size fs.
Proof.
  induction fs as [|f fs IH]; [done|]. rewrite fields_size_cons.
  pose proof (field_size_range f). cbn [length]. lia.
Qed.

Lemma fields_size_nonneg fs : 0 ≤ fields_size fs.
Proof. pose proof (fields_size_length fs). lia. Qed.

Lemma blen_enc_field f : blen (enc_field f) = field_size f.
Proof. unfold enc_field, field_size. by destruct (fs_enterprise f). Qed.

Lemma blen_enc_fields fs : blen (enc_fields fs) = fields_size fs.
Proof.
  induction fs as [|f fs IH]; [done|]. change (enc_fields (f :: fs)) with (enc_field f ++ enc_fields fs).
  by rewrite blen_app, IH, blen_enc_field.
Qed.

Lemma enc_fields_app l1 l2 : enc_fields (l1 ++ l2) = enc_fields l1 ++ enc_fields l2.
Proof. unfold enc_fields. by rewrite fmap_app, join_app. Qed.

Lemma enc_fields_cons f fs : enc_fields (f :: fs) = enc_field f ++ enc_fields fs.
Proof. done. Qed.

Lemma fields_rows_app l1 l2 : fields_rows (l1 ++ l2) = fields_rows l1 ++ fields_rows l2.
Proof. unfold fields_rows. by rewrite fmap_app, join_app. Qed.

Lemma fields_rows_cons f fs : fields_rows (f :: fs) = field_rows f ++ fields_rows fs.
Proof. done. Qed.

Lemma wire_id_u16 f : field_wf f → is_u16 (wire_id f).
Proof. intros []. unfold wire_id, is_u16. case_match; lia. Qed.

Lemma wire_id_enterprise f : field_wf f →
  Z.land (wire_id f) 0x8000 ≠ 0 ↔ is_Some (fs_enterprise f).
Proof.
  intros Hf. rewrite land_enterprise by by apply wire_id_u16. destruct Hf.
  unfold wire_id. destruct (fs_enterprise f).
  - split; [by eexists|lia].
  - split; [lia|by intros [? [=]]].
Qed.

(** How the code advances over one specifier. *)
Lemma field_advance f fl : field_wf f → 0 ≤ fl → fl + field_size f < 65536 →
  u16 ((if decide (Z.land (wire_id f) 0x8000 ≠ 0) then u16 (fl + TEMPLATE_ENT_NUM_LEN) else fl)
       + TEMPLATE_FIELD_LEN) = fl + field_size f.
Proof.
  intros Hf Hfl Hs. pose proof (wire_id_enterprise f Hf) as He.
  unfold u16, TEMPLATE_ENT_NUM_LEN, TEMPLATE_FIELD_LEN, field_size in *.
  destruct (fs_enterprise f).
  - rewrite decide_True by (apply He; by eexists).
    rewrite (Z.mod_small (fl + 4)) by lia. rewrite Z.mod_small; lia.
  - rewrite decide_False by (intros H%He; by destruct H). rewrite Z.mod_small; lia.
Qed.

Lemma spec_min_length_app l1 l2 :
  spec_min_length (l1 ++ l2) = spec_min_length l1 + spec_min_length l2.
Proof.
  induction l1 as [|f l1 IH]; [done|].
  change (min_length f + spec_min_length (l1 ++ l2)
          = min_length f + spec_min_length l1 + spec_min_length l2).
  rewrite IH. lia.
Qed.

Lemma min_length_range f : field_wf f → 0 ≤ min_length f < 65536.
Proof. intros []. unfold min_length, is_u16 in *. case_decide; lia. Qed.

Lemma spec_min_length_range fs : Forall field_wf fs →
  0 ≤ spec_min_length fs ≤ 65535 * Z.of_nat (length fs).
Proof.
  induction 1 as [|f fs Hf _ IH]; [done|]. pose proof (min_length_range f Hf).
  change (spec_min_length (f :: fs)) with (min_length f + spec_min_length fs).
  cbn [length]. lia.
Qed.

Lemma has_variable_app l1 l2 : has_variable (l1 ++ l2) = has_variable l1 || has_variable l2.
Proof. apply existsb_app. Qed.

(** One step of the accumulated data record length. *)
Lemma spec_data_length_snoc l f :
  Forall field_wf (l ++ [f]) → spec_min_length (l ++ [f]) < 0x80000000 →
  (if decide (fs_length f = 0xffff)
   then u32 (Z.lor (spec_data_length l) 0x80000000 + 1)
   else u32 (spec_data_length l + fs_length f)) = spec_data_length (l ++ [f]).
Proof.
  intros [Hl [Hf _]%Forall_cons]%Forall_app Hmin.
  pose proof (spec_min_length_range l Hl). pose proof (min_length_range f Hf).
  unfold spec_data_length. rewrite has_variable_app. rewrite spec_min_length_app in *.
  change (spec_min_length [f]) with (min_length f + 0) in *.
  change (has_variable [f]) with (bool_decide (fs_length f = 65535) || false).
  unfold min_length in *. change VAR_IE_LENGTH with 65535 in *. unfold u32.
  rewrite orb_false_r. destruct (decide (fs_length f = 65535)) as [Hv|Hv].
  - rewrite bool_decide_true by done. rewrite orb_true_r.
    destruct (has_variable l).
    + rewrite lor_flag31_set by lia. rewrite Z.mod_small; lia.
    + rewrite Z.add_0_r, lor_flag31 by lia. rewrite Z.mod_small; lia.
  - rewrite bool_decide_false by done. rewrite orb_false_r.
    destruct (has_variable l); rewrite Z.mod_small; lia.
Qed.
End field_lemmas.

(** ** Reading specifiers from a packet *)

Section reading.
Implicit Types (f : field_spec) (fs : list field_spec) (pre post : bytes).

Lemma rd_field_id pre f post : field_wf f →
  rd16 (pre ++ enc_field f ++ post) (blen pre) = Ok (wire_id f).
Proof.
  intros Hf. unfold enc_field. rewrite <-app_assoc. apply rd16_here. by apply wire_id_u16.
Qed.

Lemma rd_field_length pre f post : field_wf f →
  rd16 (pre ++ enc_field f ++ post) (blen pre + 2) = Ok (fs_length f).
Proof.
  intros []. unfold enc_field. rewrite <-!app_assoc.
  rewrite (app_assoc pre). rewrite <-(blen_enc16 (wire_id f)), <-blen_app.
  by apply rd16_here.
Qed.

Lemma rd_field_enterprise pre f post e : field_wf f → fs_enterprise f = Some e →
  rd32 (pre ++ enc_field f ++ post) (blen pre + 4) = Ok e.
Proof.
  intros [_ _ He] E. rewrite E in He. unfold enc_field. rewrite E, <-!app_assoc.
  rewrite (app_assoc pre), (app_assoc (pre ++ _)).
  replace (blen pre + 4) with (blen ((pre ++ enc16 (wire_id f)) ++ enc16 (fs_length f)))
    by (rewrite !blen_app, !blen_enc16; lia).
  by apply rd32_here.
Qed.

Lemma tm_template_length_loop pre post cnt max_len todo : ∀ l fuel,
  Forall field_wf (l ++ todo) →
  cnt = Z.of_nat (length (l ++ todo)) →
  fields_size (l ++ todo) ≤ max_len → fields_size (l ++ todo) < 65536 →
  spec_min_length (l ++ todo) < 0x80000000 →
  (length todo < fuel)%nat →
  loop (tm_template_length_step (pre ++ enc_fields (l ++ todo) ++ post) (blen pre) cnt max_len)
       fuel (Z.of_nat (length l), fields_size l, spec_data_length l)
  = Ok (u16 (132 + fields_size (l ++ todo)), Some (spec_data_length (l ++ todo))).
Proof.
  induction todo as [|f todo IH]; intros l fuel Hwf Hcnt Hmax Hsz Hmin Hfuel;
    (destruct fuel as [|fuel]; [cbn in Hfuel; lia|]); cbn [loop].
  - rewrite app_nil_r in *. unfold tm_template_length_step.
    by rewrite decide_False by lia.
  - assert (Hf : field_wf f) by (apply Forall_app in Hwf as [_ [? _]%Forall_cons]; done).
    unfold tm_template_length_step at 1.
    rewrite decide_True by (rewrite Hcnt, length_app; cbn [length]; lia).
    rewrite enc_fields_app, enc_fields_cons, <-!app_assoc, (app_assoc pre).
    replace (blen pre + fields_size l) with (blen (pre ++ enc_fields l))
      by (rewrite blen_app, blen_enc_fields; lia).
    rewrite rd_field_length, rd_field_id, !res_bind_ret by done.
    rewrite <-(app_assoc pre), (app_assoc (enc_field f)).
    rewrite <-enc_fields_cons, (app_assoc (enc_fields l)), <-enc_fields_app.
    replace (l ++ f :: todo) with ((l ++ [f]) ++ todo) in * by by rewrite <-app_assoc.
    rewrite !fields_size_app in Hsz, Hmax. change (fields_size [f]) with (field_size f + 0) in *.
    pose proof (fields_size_nonneg l). pose proof (fields_size_nonneg todo).
    rewrite field_advance by (done || lia).
    rewrite decide_False by lia.
    rewrite spec_data_length_snoc.
    2: by apply Forall_app in Hwf as [? _].
    2: { rewrite spec_min_length_app in Hmin.
         apply Forall_app in Hwf as [_ Ht]. pose proof (spec_min_length_range todo Ht). lia. }
    specialize (IH (l ++ [f]) fuel). rewrite <-IH; try done.
    + repeat f_equal.
      * rewrite length_app. cbn [length]. lia.
      * rewrite fields_size_app. change (fields_size [f]) with (field_size f + 0). lia.
    + rewrite !fields_size_app. change (fields_size [f]) with (field_size f + 0). lia.
    + rewrite !fields_size_app. change (fields_size [f]) with (field_size f + 0). lia.
    + cbn in Hfuel. lia.
Qed.

Lemma tm_copy_fields_loop cap pre post len todo : ∀ l fuel,
  Forall field_wf (l ++ todo) → fields_size (l ++ todo) = len → len ≤ cap → len < 65536 →
  (length todo < fuel)%nat →
  loop (tm_copy_fields_step cap (pre ++ enc_fields (l ++ todo) ++ post) (blen pre) len)
       fuel (fields_size l, fields_rows l)
  = Ok (fields_rows (l ++ todo)).
Proof.
  induction todo as [|f todo IH]; intros l fuel Hwf Hlen Hcap Hsz Hfuel;
    (destruct fuel as [|fuel]; [cbn in Hfuel; lia|]); cbn [loop].
  - rewrite app_nil_r in *. unfold tm_copy_fields_step. by rewrite decide_False by lia.
  - assert (Hf : field_wf f) by (apply Forall_app in Hwf as [_ [? _]%Forall_cons]; done).
    pose proof (fields_size_nonneg l). pose proof (fields_size_nonneg todo).
    pose proof (field_size_range f) as Hfs.
    pose proof Hlen as Hlen'. rewrite fields_size_app, fields_size_cons in Hlen'.
    unfold tm_copy_fields_step at 1. rewrite decide_True by lia.
    rewrite enc_fields_app, enc_fields_cons, <-!app_assoc, (app_assoc pre).
    replace (blen pre + fields_size l) with (blen (pre ++ enc_fields l))
      by (rewrite blen_app, blen_enc_fields; lia).
    rewrite rd_field_length, rd_field_id, !res_bind_ret by done.
    unfold TEMPLATE_FIELD_LEN, TEMPLATE_ENT_NUM_LEN. rewrite decide_False by lia.
    replace (u16 (fields_size l + 4)) with (fields_size l + 4)
      by (unfold u16; rewrite Z.mod_small; lia).
    assert (Hnext : ∀ rows o, o = fields_size (l ++ [f]) → rows = fields_rows (l ++ [f]) →
      loop (tm_copy_fields_step cap
        ((pre ++ enc_fields l) ++ enc_field f ++ enc_fields todo ++ post) (blen pre) len)
        fuel (o, rows) = Ok (fields_rows (l ++ f :: todo))).
    { intros rows o -> ->.
      rewrite <-(app_assoc pre), (app_assoc (enc_field f)).
      rewrite <-enc_fields_cons, (app_assoc (enc_fields l)), <-enc_fields_app.
      replace (l ++ f :: todo) with ((l ++ [f]) ++ todo) in * by by rewrite <-app_assoc.
      apply IH; try done. cbn in Hfuel. lia. }
    pose proof (wire_id_enterprise f Hf) as He.
    destruct (fs_enterprise f) as [e|] eqn:Ef.
    + rewrite decide_True by (apply He; by eexists).
      replace (blen pre + (fields_size l + 4)) with (blen (pre ++ enc_fields l) + 4)
        by (rewrite blen_app, blen_enc_fields; lia).
      rewrite (rd_field_enterprise _ _ _ e), res_bind_ret by done.
      unfold field_size in *. rewrite Ef in *. rewrite decide_False by lia.
      apply Hnext.
      * rewrite fields_size_app, fields_size_cons. unfold field_size, u16. rewrite Ef.
        change (fields_size []) with 0. rewrite Z.mod_small; lia.
      * rewrite fields_rows_app, <-app_assoc. f_equal.
        unfold fields_rows. cbn [fmap list_fmap mjoin list_join].
        unfold field_rows. by rewrite Ef.
    + rewrite decide_False by (intros Hx%He; by destruct Hx). apply Hnext.
      * rewrite fields_size_app, fields_size_cons. unfold field_size. rewrite Ef.
        change (fields_size []) with 0. lia.
      * rewrite fields_rows_app. f_equal.
        unfold fields_rows. cbn [fmap list_fmap mjoin list_join].
        unfold field_rows. by rewrite Ef.
Qed.
End reading.

(** ** Records on the wire *)

Definition record_header_size (type : Z) : Z := if decide (type = TM_TEMPLATE) then 4 else 6.

Definition enc_record (type tid scope : Z) (fs : list field_spec) : bytes :=
  if decide (type = TM_TEMPLATE) then enc_template tid fs else enc_options_template tid scope fs.

(** What a parsed record is expected to be. *)
Definition spec_template (type tid scope : Z) (fs : list field_spec) (now : Z) : ipfix_template :=
  {| original_id := tid; references := 0; next := None; template_type := type;
     first_transmission := now; last_transmission := None; last_message := None;
     template_id := tid; field_count := Z.of_nat (length fs);
     scope_field_count := if decide (type = TM_TEMPLATE) then 0 else scope;
     template_length := 132 + fields_size fs; data_length := spec_data_length fs;
     offsets := replicate OF_COUNT (-1, None); fields := fields_rows fs |}.

Definition valid_type (type : Z) : Prop := type = TM_TEMPLATE ∨ type = TM_OPTIONS_TEMPLATE.

Section records.
Implicit Types (fs : list field_spec) (pre post : bytes).

Lemma blen_enc_record type tid scope fs :
  blen (enc_record type tid scope fs) = record_header_size type + fields_size fs.
Proof.
  unfold enc_record, record_header_size. case_decide;
    unfold enc_template, enc_options_template; rewrite !blen_app, !blen_enc16, blen_enc_fields; lia.
Qed.

(** The header of a record and the place of its specifiers. *)
Lemma enc_record_split type tid scope fs pre post :
  ∃ hdr, pre ++ enc_record type tid scope fs ++ post = (pre ++ hdr) ++ enc_fields fs ++ post ∧
         blen (pre ++ hdr) = fields_ptr (blen pre) type.
Proof.
  unfold enc_record, fields_ptr. case_decide.
  - exists (enc16 tid ++ enc16 (Z.of_nat (length fs))).
    unfold enc_template. rewrite !blen_app, !blen_enc16. split; [by rewrite <-!app_assoc|lia].
  - exists (enc16 tid ++ enc16 (Z.of_nat (length fs)) ++ enc16 scope).
    unfold enc_options_template. rewrite !blen_app, !blen_enc16.
    split; [by rewrite <-!app_assoc|lia].
Qed.

Lemma rd_record_id type tid scope fs pre post : is_u16 tid →
  rd16 (pre ++ enc_record type tid scope fs ++ post) (blen pre) = Ok tid.
Proof.
  intros ?. unfold enc_record, enc_template, enc_options_template.
  case_decide; rewrite <-!app_assoc; by apply rd16_here.
Qed.

Lemma rd_record_count type tid scope fs pre post : Z.of_nat (length fs) < 65536 →
  rd16 (pre ++ enc_record type tid scope fs ++ post) (blen pre + 2) = Ok (Z.of_nat (length fs)).
Proof.
  intros ?. unfold enc_record, enc_template, enc_options_template.
  replace (blen pre + 2) with (blen (pre ++ enc16 tid)) by (rewrite blen_app, blen_enc16; lia).
  case_decide; rewrite <-!app_assoc, app_assoc; apply rd16_here; unfold is_u16; lia.
Qed.

Lemma rd_record_scope type tid scope fs pre post : is_u16 scope → type ≠ TM_TEMPLATE →
  rd16 (pre ++ enc_record type tid scope fs ++ post) (blen pre + 4) = Ok scope.
Proof.
  intros ??. unfold enc_record, enc_options_template. rewrite decide_False by done.
  rewrite <-!app_assoc, (app_assoc pre), (app_assoc (pre ++ enc16 tid)).
  replace (blen pre + 4) with (blen ((pre ++ enc16 tid) ++ enc16 (Z.of_nat (length fs))))
    by (rewrite !blen_app, !blen_enc16; lia).
  by apply rd16_here.
Qed.

Lemma tm_template_length_record type tid scope fs pre post max_len :
  Forall field_wf fs → fields_size fs ≤ max_len → fields_size fs < 65536 →
  tm_template_length (pre ++ enc_record type tid scope fs ++ post) (blen pre) max_len type
  = Ok (u16 (132 + fields_size fs), Some (spec_data_length fs)).
Proof.
  intros Hwf Hmax Hsz. pose proof (fields_size_length fs).
  unfold tm_template_length. rewrite rd_record_count, res_bind_ret by lia.
  destruct (enc_record_split type tid scope fs pre post) as (hdr & -> & <-).
  pose proof (spec_min_length_range fs Hwf).
  apply (tm_template_length_loop (pre ++ hdr) post _ max_len fs []); try done; cbn [app]; lia.
Qed.

(** Reads never fault in a record followed by nothing but its own bytes, and
    the record is parsed to its host representation. *)
Lemma tm_create_template_record type tid scope fs pre post max_len now :
  valid_type type → is_u16 tid → is_u16 scope → Forall field_wf fs →
  fields_size fs ≤ max_len → fields_size fs < 65404 →
  tm_create_template (pre ++ enc_record type tid scope fs ++ post) (blen pre) max_len type now
  = Ok (if decide (type = TM_OPTIONS_TEMPLATE ∧ scope = 0) then None
        else Some (spec_template type tid scope fs now)).
Proof.
  intros Hty Htid Hscope Hwf Hmax Hsz. pose proof (fields_size_length fs).
  pose proof (fields_size_nonneg fs).
  unfold tm_create_template. rewrite tm_template_length_record by (done || lia).
  cbn -[u16 tm_fill_template]. unfold u16. rewrite Z.mod_small by lia.
  rewrite decide_False by lia. unfold tm_fill_template.
  rewrite rd_record_count, rd_record_id, !res_bind_ret by (done || lia).
  unfold offsetof_fields, sizeof_ipfix_template, sizeof_template_ie.
  rewrite decide_False by lia.
  replace (u16 _) with (fields_size fs) by (unfold u16; rewrite Z.mod_small; lia).
  assert (Hcopy : tm_copy_fields (132 + fields_size fs - 128)
      (pre ++ enc_record type tid scope fs ++ post) (fields_ptr (blen pre) type)
      (fields_size fs) = Ok (fields_rows fs)).
  { destruct (enc_record_split type tid scope fs pre post) as (hdr & -> & <-).
    unfold tm_copy_fields. apply (tm_copy_fields_loop _ (pre ++ hdr) post _ fs []); try done; cbn [app]; lia. }
  unfold fields_ptr in Hcopy. destruct Hty as [-> | ->].
  - rewrite decide_True in Hcopy by done. rewrite decide_True, Hcopy by done. done.
  - rewrite decide_False in Hcopy by done. rewrite decide_False by done.
    rewrite rd_record_scope, res_bind_ret by done. case_decide as Hs.
    + by rewrite decide_True.
    + rewrite Hcopy, decide_False by naive_solver. done.
Qed.
End records.

(** ** Properties *)

(** C28: parsing inverts encoding: at any place of a packet, a (Options) Template
    Record with well-formed field specifiers is parsed to the template with
    exactly those identifiers, lengths and enterprise numbers in host order, the
    right minimal data record length and variable-length flag; an Options
    Template Record without scope fields is refused. *)
Theorem tm_create_template_parses type tid scope fs pre post max_len now :
  valid_type type → is_u16 tid → is_u16 scope → Forall field_wf fs →
  fields_size fs ≤ max_len → fields_size fs < 65404 →
  tm_create_template (pre ++ enc_record type tid scope fs ++ post) (blen pre) max_len type now
  = Ok (if decide (type = TM_OPTIONS_TEMPLATE ∧ scope = 0) then None
        else Some (spec_template type tid scope fs now)).
Proof. apply tm_create_template_record. Qed.

Definition fields_example : list field_spec :=
  [ {| fs_id := 8; fs_length := 4; fs_enterprise := None |};
    {| fs_id := 33; fs_length := 65535; fs_enterprise := Some 8057 |};
    {| fs_id := 7; fs_length := 2; fs_enterprise := None |} ].

Lemma fields_example_wf : Forall field_wf fields_example.
Proof. repeat constructor; cbn; unfold is_u32; lia. Qed.

Lemma tm_create_template_parses_witness :
  tm_create_template ([2; 3] ++ enc_record TM_TEMPLATE 258 0 fields_example ++ [])
    2 16 TM_TEMPLATE 1000
  = Ok (Some (spec_template TM_TEMPLATE 258 0 fields_example 1000)) ∧
  data_length (spec_template TM_TEMPLATE 258 0 fields_example 1000) = 0x80000007.
Proof.
  split; [|reflexivity].
  apply (tm_create_template_parses TM_TEMPLATE 258 0 fields_example [2; 3] [] 16 1000);
    [by left|split; [vm_compute; discriminate|reflexivity]|split; [vm_compute; discriminate|reflexivity]
    |exact fields_example_wf|vm_compute; discriminate|reflexivity].
Defined.

(** A record is accepted although its last four octets (six for an Options
    Template Record) lie behind the end of the set: [max_len], the octets from
    the start of the record to the end of the set, bounds only the specifiers
    and not the header in front of them. *)
Lemma tm_template_length_ignores_header type tid scope fs pre post :
  valid_type type → Forall field_wf fs → fields_size fs < 65404 →
  tm_template_record_length (pre ++ enc_record type tid scope fs ++ post) (blen pre)
    (blen (enc_record type tid scope fs) - record_header_size type) type
  = Ok (blen (enc_record type tid scope fs), Some (spec_data_length fs)).
Proof.
  intros Hty Hwf Hsz. pose proof (fields_size_nonneg fs).
  unfold tm_template_record_length. rewrite tm_template_length_record; [|done| |lia].
  2: { rewrite blen_enc_record. lia. }
  cbn -[u16]. replace (u16 (132 + fields_size fs)) with (132 + fields_size fs)
    by (unfold u16; rewrite Z.mod_small; lia).
  rewrite decide_True by lia. rewrite blen_enc_record.
  unfold record_header_size, u16, sizeof_ipfix_template, sizeof_ipfix_template_record,
    sizeof_ipfix_options_template_record.
  destruct Hty as [-> | ->]; [rewrite !decide_True by done|rewrite !decide_False by done];
    rewrite Z.mod_small by lia; do 2 f_equal; lia.
Qed.

(** C40: a record whose specifiers take between 65408 and 65535 octets is not
    refused: the 16-bit length of the host structure wraps around, too little
    memory is allocated, and the copy writes outside of it. *)
Theorem tm_create_template_heap_overflow tid fs pre post max_len now :
  is_u16 tid → Forall field_wf fs → fields_size fs ≤ max_len → 65404 < fields_size fs < 65536 →
  tm_create_template (pre ++ enc_record TM_TEMPLATE tid 0 fs ++ post) (blen pre) max_len TM_TEMPLATE now
  = Fault OobWrite.
Proof.
  intros Htid Hwf Hmax Hsz. pose proof (fields_size_length fs).
  unfold tm_create_template. rewrite tm_template_length_record by (done || lia).
  cbn -[u16 tm_fill_template].
  assert (Hw : u16 (132 + fields_size fs) = fields_size fs - 65404).
  { unfold u16. symmetry. apply Z.mod_unique with 1; lia. }
  rewrite Hw, decide_False by lia. unfold tm_fill_template.
  rewrite rd_record_count, rd_record_id, !res_bind_ret by (done || lia).
  unfold offsetof_fields. case_decide as Hs; [done|].
  rewrite (decide_True (P := TM_TEMPLATE = TM_TEMPLATE)) by done.
  destruct fs as [|f fs]; [cbn in Hsz; lia|].
  apply Forall_cons in Hwf as [Hf _].
  destruct (enc_record_split TM_TEMPLATE tid 0 (f :: fs) pre post) as (hdr & -> & Hp).
  change (blen pre + 4) with (fields_ptr (blen pre) TM_TEMPLATE). rewrite <-Hp.
  unfold tm_copy_fields. cbn [loop]. unfold tm_copy_fields_step at 1.
  unfold sizeof_ipfix_template, sizeof_template_ie.
  rewrite decide_True by (unfold u16; Z.to_euclidean_division_equations; lia).
  rewrite enc_fields_cons, <-(app_assoc (enc_field f)), Z.add_0_r, rd_field_id, rd_field_length by done.
  rewrite !res_bind_ret, decide_True; [done|]. unfold TEMPLATE_FIELD_LEN. lia.
Qed.

Definition oversized_example : list field_spec :=
  replicate (Z.to_nat 16353) {| fs_id := 8; fs_length := 4; fs_enterprise := None |}.

Lemma oversized_example_wf : Forall field_wf oversized_example.
Proof. apply Forall_replicate. split; cbn; unfold is_u16; lia. Qed.

Lemma tm_create_template_heap_overflow_witness :
  tm_create_template ([] ++ enc_record TM_TEMPLATE 256 0 oversized_example ++ [])
    (blen []) 65416 TM_TEMPLATE 0 = Fault OobWrite.
Proof.
  apply (tm_create_template_heap_overflow 256 oversized_example [] [] 65416 0);
    [split; [vm_compute; discriminate|reflexivity]
    |exact oversized_example_wf
    |vm_compute; discriminate
    |split; reflexivity].
Defined.

(** *** Totality *)

Section totality.
Implicit Types (mem : bytes).

Lemma rd8_not_fuel mem p : rd8 mem p ≠ OutOfFuel.
Proof. unfold rd8. case_decide; [|done]. by destruct (mem !! _). Qed.

Lemma rd16_not_fuel mem p : rd16 mem p ≠ OutOfFuel.
Proof.
  unfold rd16. pose proof (rd8_not_fuel mem p). pose proof (rd8_not_fuel mem (p + 1)).
  by destruct (rd8 mem p), (rd8 mem (p + 1)).
Qed.

Lemma tm_template_length_loop_total mem flds cnt max_len :
  ∀ fuel s, (Z.to_nat (cnt - s.1.1) < fuel)%nat →
  loop (tm_template_length_step mem flds cnt max_len) fuel s ≠ OutOfFuel.
Proof.
  intros fuel s Hs.
  apply (loop_total (tm_template_length_step mem flds cnt max_len) (λ _, True)
           (λ s, Z.to_nat (cnt - s.1.1)) (λ r, r ≠ OutOfFuel)); [|done..].
  intros [ [c fl] dl] _. unfold tm_template_length_step. case_decide as Hc; [|done].
  pose proof (rd16_not_fuel mem (flds + fl + 2)).
  destruct (rd16 mem (flds + fl + 2)) as [l| |]; [|done..]. rewrite res_bind_ret.
  pose proof (rd16_not_fuel mem (flds + fl)).
  destruct (rd16 mem (flds + fl)) as [i| |]; [|done..]. rewrite res_bind_ret.
  case_decide; cbn; [done|]. split; [done|lia].
Qed.
End totality.

(** Measuring a record always comes back, whatever the packet holds: with
    a length, with 0 for a field count beyond the set, or by reading behind the
    end of the memory of the packet; and what is accepted is never longer than
    the record header plus [max_len]. *)
Lemma tm_template_record_length_total mem t max_len type :
  valid_type type → 0 ≤ max_len < 65404 →
  match tm_template_record_length mem t max_len type with
  | Ok (n, d) => n = 0 ∧ d = None ∨
                 record_header_size type ≤ n ≤ record_header_size type + max_len ∧ is_Some d
  | Fault f => f = OobRead
  | OutOfFuel => False
  end.
Proof.
  intros Hty Hmax. unfold tm_template_record_length, tm_template_length.
  pose proof (rd16_not_fuel mem (t + 2)) as Hfuel.
  assert (Hrd : ∀ p f, rd16 mem p = Fault f → f = OobRead).
  { intros p f. unfold rd16, rd8. repeat case_decide; cbn; try naive_solver;
      destruct (mem !! Z.to_nat p); cbn; try naive_solver;
      destruct (mem !! Z.to_nat (p + 1)); cbn; naive_solver. }
  destruct (rd16 mem (t + 2)) as [cnt|f|] eqn:Hcnt; [|by apply Hrd in Hcnt|done].
  rewrite res_bind_ret.
  pose proof (tm_template_length_loop_total mem (fields_ptr t type) cnt max_len
    (S (Z.to_nat cnt)) (0, 0, 0)) as Htot.
  assert (Hinv : ∀ fuel s, 0 ≤ s.1.2 ≤ max_len →
    match loop (tm_template_length_step mem (fields_ptr t type) cnt max_len) fuel s with
    | Ok (n, d) => n = 0 ∧ d = None ∨ 132 ≤ n ≤ 132 + max_len ∧ is_Some d
    | Fault f => f = OobRead
    | OutOfFuel => True
    end).
  { induction fuel as [|fuel IH]; intros [ [c fl] dl] Hfl; cbn in Hfl |- *; [done|].
    case_decide as Hc.
    2: { right. cbn -[u16]. unfold u16, sizeof_ipfix_template, sizeof_template_ie.
         rewrite Z.mod_small by (rewrite Z.mod_small; lia). rewrite Z.mod_small by lia.
         split; [lia|by eexists]. }
    destruct (rd16 mem (fields_ptr t type + fl + 2)) as [l|f|] eqn:El; [|by apply Hrd in El|done]. cbn -[u16 loop].
    destruct (rd16 mem (fields_ptr t type + fl)) as [i|f|] eqn:Ei; [|by apply Hrd in Ei|done]. cbn -[u16 loop].
    case_decide as Hle; [by left|]. apply IH. cbn -[u16]. split; [|lia].
    apply Z.mod_pos_bound. lia. }
  specialize (Hinv (S (Z.to_nat cnt)) (0, 0, 0) ltac:(cbn; lia)).
  destruct (loop _ _ _) as [ [n d]|f|]; cbn -[u16] in *; [|done|].
  2: { apply Htot; [lia|done]. }
  unfold record_header_size, sizeof_ipfix_template, sizeof_ipfix_template_record,
    sizeof_ipfix_options_template_record, u16.
  destruct Hinv as [ [-> ->]|[Hn Hd] ]; [by left|].
  rewrite decide_True by lia.
  destruct Hty as [-> | ->]; [rewrite !decide_True by done|rewrite !decide_False by done];
    right; rewrite Z.mod_small by lia; (split; [lia|done]).
Qed.

Lemma tm_template_record_length_total_witness :
  match tm_template_record_length [1; 0; 0; 9; 0; 8; 0; 4] 0 4 TM_TEMPLATE with
  | Ok (n, d) => n = 0 ∧ d = None ∨
                 record_header_size TM_TEMPLATE ≤ n ≤ record_header_size TM_TEMPLATE + 4 ∧ is_Some d
  | Fault f => f = OobRead
  | OutOfFuel => False
  end.
Proof. apply (tm_template_record_length_total [1; 0; 0; 9; 0; 8; 0; 4] 0 4 TM_TEMPLATE); [by left|lia]. Defined.
