(* ===== verification/DataRecord.v ===== *)
(** * DataRecord: fields of templates and of the data records they describe

    The template look-ups of [base/src/template_manager.c] and the walks over
    data records of [base/src/ipfix_message.c]. *)

From S2P Require Import Prelude CLib TemplateRecord.

Definition MSG_MAX_OTEMPL_SETS : Z := 1024.
Definition MSG_MAX_TEMPL_SETS : Z := 1024.
Definition MSG_MAX_DATA_COUPLES : Z := 1023.

(** ** Rows of template fields *)

(** [fields_get_field] walks rows either of a record in a packet ([netw]) or of
    a host template: the three members it reads of the row [i]. *)
Record row_reader := {
  row_id : Z → res Z;
  row_length : Z → res Z;
  row_enterprise : Z → res Z
}.

Definition rd_row (rows : list Z) (i : Z) : res Z :=
  if decide (0 ≤ i) then or_fault OobRead (rows !! Z.to_nat i) else Fault OobRead.

Definition host_rows (rows : list Z) : row_reader := {|
  row_id i := ie_id <$> rd_row rows i;
  row_length i := ie_length <$> rd_row rows i;
  row_enterprise i := enterprise_number <$> rd_row rows i
|}.

Definition net_rows (mem : bytes) (flds : Z) : row_reader := {|
  row_id i := rd16 mem (flds + 4 * i);
  row_length i := rd16 mem (flds + 4 * i + 2);
  row_enterprise i := rd32 mem (flds + 4 * i)
|}.

(** On [(i, row, *data_offset)]; the result is the row found, if any, and the
    final [*data_offset]. *)
Definition fields_get_field_step (rr : row_reader) (cnt enterprise id : Z)
    (s : Z * Z * Z) : res ((Z * Z * Z) + (option Z * Z)) :=
  let '(i, row, data_offset) := s in
  if decide (i < cnt) then
    rid ← row_id rr row;
    len ← row_length rr row;
    x ← (if decide (Z.shiftr rid 15 ≠ 0) then
           ren ← row_enterprise rr (row + 1); Ok (Z.land rid 0x7FFF, row + 1, ren)
         else Ok (rid, row, 0));
    let '(rid, row, ren) := x in
    if decide (rid = id ∧ ren = enterprise) then
      Ok (inr (Some (if decide (ren ≠ 0) then row - 1 else row), data_offset))
    else Ok (inl (i + 1, row + 1, data_offset + len))
  else Ok (inr (None, data_offset)).

Definition fields_get_field (rr : row_reader) (cnt enterprise id : Z) : res (option Z * Z) :=
  loop (fields_get_field_step rr cnt enterprise id) (S (Z.to_nat cnt)) (0, 0, 0).

(** The number of occurrences of a field in a record of a packet. *)
Definition template_record_count_field_occurences_step (rr : row_reader) (cnt enterprise id : Z)
    (s : Z * Z * Z) : res ((Z * Z * Z) + Z) :=
  let '(i, row, field_count) := s in
  if decide (i < cnt) then
    rid ← row_id rr row;
    x ← (if decide (Z.shiftr rid 15 ≠ 0) then
           ren ← row_enterprise rr (row + 1); Ok (Z.land rid 0x7FFF, row + 1, ren)
         else Ok (rid, row, 0));
    let '(rid, row, ren) := x in
    Ok (inl (i + 1, row + 1,
             if decide (rid = id ∧ ren = enterprise) then field_count + 1 else field_count))
  else Ok (inr field_count).

Definition template_record_count_field_occurences (mem : bytes) (rec enterprise id : Z) : res Z :=
  cnt ← rd16 mem (rec + 2);
  loop (template_record_count_field_occurences_step (net_rows mem (rec + 4)) cnt enterprise id)
       (S (Z.to_nat cnt)) (0, 0, 0).

Definition template_record_get_field (mem : bytes) (rec enterprise id : Z) : res (option Z * Z) :=
  cnt ← rd16 mem (rec + 2);
  fields_get_field (net_rows mem (rec + 4)) cnt enterprise id.

Definition template_get_field (templ : ipfix_template) (enterprise id : Z) : res (option Z * Z) :=
  fields_get_field (host_rows (fields templ)) (field_count templ) enterprise id.

(** ** Look-ups of the template manager *)

(** [template_contains_field] on [(fields, p, variable_length, total_length)].
    For an options template the code casts the host structure to a record of
    the wire: the pointer does not point to the rows. *)
Definition template_contains_field_step (rows : list Z) (cnt field : Z)
    (s : Z * Z * bool * Z) : res ((Z * Z * bool * Z) + Z) :=
  let '(n, p, variable_length, total_length) := s in
  if decide (n < cnt) then
    w ← rd_row rows p;
    if decide (ie_id w = field) then
      Ok (inr (if variable_length then 0 else total_length))
    else
      let variable_length' := if decide (ie_length w = VAR_IE_LENGTH) then true else variable_length in
      let total_length' := if decide (ie_length w = VAR_IE_LENGTH) then total_length
                           else u16 (total_length + ie_length w) in
      let p := p + 1 in
      let p := if decide (Z.land (ie_id w) 0x8000 ≠ 0) then p + 1 else p in
      Ok (inl (u16 (n + 1), p, variable_length', total_length'))
  else Ok (inr (-1)).

Definition template_contains_field (templ : option ipfix_template) (field : Z) : res Z :=
  match templ with
  | None => Ok (-1)
  | Some t =>
    if decide (template_type t = TM_OPTIONS_TEMPLATE) then Fault BadCast else
    loop (template_contains_field_step (fields t) (field_count t) field)
         (S (Z.to_nat (field_count t))) (0, 0, false, 0)
  end.

(** [template_get_field_offset]: the enterprise number of a row is skipped only
    when the row has the identifier asked for. *)
Definition template_get_field_offset_step (rows : list Z) (cnt eid fid : Z)
    (s : Z * Z * bool * Z) : res ((Z * Z * bool * Z) + Z) :=
  let '(n, p, variable_length, total_length) := s in
  if decide (n < cnt) then
    w ← rd_row rows p;
    if decide (ie_id w = fid ∧ eid = 0) then
      Ok (inr (if variable_length then 0 else total_length))
    else
      let variable_length := if decide (ie_length w = VAR_IE_LENGTH) then true else variable_length in
      let total_length := if decide (ie_length w = VAR_IE_LENGTH) then total_length
                          else u16 (total_length + ie_length w) in
      let p := p + 1 in
      if decide (eid > 0 ∧ ie_id w = fid) then
        e ← rd_row rows p;
        if decide (enterprise_number e = eid)
        then Ok (inr (if variable_length then 0 else total_length))
        else Ok (inl (u16 (n + 1), p + 1, variable_length, total_length))
      else Ok (inl (u16 (n + 1), p, variable_length, total_length))
  else Ok (inr (-1)).

Definition template_get_field_offset (templ : option ipfix_template) (eid fid : Z) : res Z :=
  match templ with
  | None => Ok (-1)
  | Some t =>
    if decide (template_type t = TM_OPTIONS_TEMPLATE) then Fault BadCast else
    loop (template_get_field_offset_step (fields t) (field_count t) eid fid)
         (S (Z.to_nat (field_count t))) (0, 0, false, 0)
  end.

(** [template_get_field_length] sets the enterprise bit of [fid] itself. *)
Definition template_get_field_length_step (rows : list Z) (cnt eid fid : Z)
    (s : Z * Z) : res ((Z * Z) + Z) :=
  let '(n, p) := s in
  if decide (n < cnt) then
    w ← rd_row rows p;
    if decide (ie_id w = fid ∧ eid = 0) then Ok (inr (ie_length w)) else
    let p := p + 1 in
    if decide (eid > 0 ∧ ie_id w = fid) then
      e ← rd_row rows p;
      if decide (enterprise_number e = eid) then Ok (inr (ie_length w))
      else Ok (inl (u16 (n + 1), p + 1))
    else Ok (inl (u16 (n + 1), p))
  else Ok (inr (-1)).

Definition template_get_field_length (templ : option ipfix_template) (eid fid : Z) : res Z :=
  match templ with
  | None => Ok (-1)
  | Some t =>
    let fid := if decide (eid > 0) then Z.lor fid 0x8000 else fid in
    if decide (template_type t = TM_OPTIONS_TEMPLATE) then Fault BadCast else
    loop (template_get_field_length_step (fields t) (field_count t) eid fid)
         (S (Z.to_nat (field_count t))) (0, 0)
  end.

(** [tm_compare_templates]: 0 means the same definition.  The loop moves [count]
    over the enterprise numbers, on [(i, count)]. *)
Definition tm_compare_templates_step (r1 r2 : list Z) (s : Z * Z) : res ((Z * Z) + Z) :=
  let '(i, count) := s in
  if decide (i < count) then
    w1 ← rd_row r1 i; w2 ← rd_row r2 i;
    if decide (ie_id w1 ≠ ie_id w2 ∨ ie_length w1 ≠ ie_length w2) then Ok (inr 1) else
    if decide (Z.shiftr (ie_id w1) 15 ≠ 0) then
      let i := u16 (i + 1) in let count := u16 (count + 1) in
      e1 ← rd_row r1 i; e2 ← rd_row r2 i;
      if decide (enterprise_number e1 ≠ enterprise_number e2) then Ok (inr 1)
      else Ok (inl (u16 (i + 1), count))
    else Ok (inl (u16 (i + 1), count))
  else Ok (inr 0).

Definition tm_compare_templates (first second : ipfix_template) : res Z :=
  if decide (data_length first ≠ data_length second ∨ field_count first ≠ field_count second)
  then Ok 1
  else loop (tm_compare_templates_step (fields first) (fields second))
            (S (length (fields first))) (0, field_count first).

(** [tm_compare_template_records] on two records in one memory ([None] is NULL):
    non-zero means equal.  Rows are stepped over one by one, so from the first
    enterprise number on the loop compares halves of numbers with identifiers. *)
Definition tm_compare_template_records_step (mem : bytes) (f1 f2 cnt i : Z) : res (Z + Z) :=
  if decide (i < cnt) then
    a ← rd16 mem (f1 + 4 * i); b ← rd16 mem (f2 + 4 * i);
    if decide (a ≠ b) then Ok (inr 0) else Ok (inl (u16 (i + 1)))
  else Ok (inr 1).

Definition tm_compare_template_records (mem : bytes) (first second : option Z) : res Z :=
  match first, second with
  | Some p1, Some p2 =>
    if decide (p1 = p2) then Ok 1 else
    c1 ← rd16 mem (p1 + 2); c2 ← rd16 mem (p2 + 2);
    if decide (c1 ≠ c2) then Ok 0 else
    loop (tm_compare_template_records_step mem (p1 + 4) (p2 + 4) c1) (S (Z.to_nat c1)) 0
  | _, _ => Ok 0
  end.

(** ** Walking a data record *)

(** The length of the field at [offset] of the record [rec]: as the template
    says, or from the one or three octets in front of a field of variable
    length.  The result is the offset of the content and its length. *)
Definition field_extent (mem : bytes) (rec offset length : Z) : res (Z * Z) :=
  if decide (length = VAR_IE_LENGTH) then
    l ← rd8 mem (rec + offset);
    if decide (l = 255) then
      l ← rd16 mem (rec + (offset + 1)); Ok (offset + 3, l)
    else Ok (offset + 1, l)
  else Ok (offset, length).

(** [data_record_field_next_offset]: the offset, or -1, and the value stored
    through [data_length]; the loop runs on [(count, index, offset)]. *)
Definition data_record_field_next_offset_step (mem : bytes) (rec : Z) (templ : ipfix_template)
    (enterprise id from_offset : Z) (s : Z * Z * Z) :
    res ((Z * Z * Z) + (Z * option Z)) :=
  let '(count, index, offset) := s in
  if decide (count < field_count templ) then
    w ← rd_row (fields templ) index;
    x ← (if decide (Z.shiftr (ie_id w) 15 ≠ 0) then
           e ← rd_row (fields templ) (index + 1);
           Ok (Z.land (ie_id w) 0x7FFF, index + 1, enterprise_number e)
         else Ok (ie_id w, index, 0));
    let '(ie_id, index, enterprise_id) := x in
    y ← (if decide (ie_length w = 1 ∨ ie_length w = 2 ∨ ie_length w = 4 ∨ ie_length w = 8)
         then Ok (offset, ie_length w)
         else field_extent mem rec offset (ie_length w));
    let '(prev_offset, length) := y in
    if decide (id = ie_id ∧ enterprise = enterprise_id ∧ prev_offset > from_offset)
    then Ok (inr (prev_offset, Some length))
    else Ok (inl (count + 1, index + 1, prev_offset + length))
  else Ok (inr (-1, None)).

Definition data_record_field_next_offset (mem : bytes) (rec : Z) (templ : ipfix_template)
    (enterprise id from_offset : Z) : res (Z * option Z) :=
  if decide (Z.land (data_length templ) 0x80000000 = 0) then
    x ← template_get_field templ enterprise id;
    match x with
    | (None, _) => Ok (-1, None)
    | (Some row, offset) =>
        w ← rd_row (fields templ) row; Ok (offset, Some (ie_length w))
    end
  else
    loop (data_record_field_next_offset_step mem rec templ enterprise id from_offset)
         (S (Z.to_nat (field_count templ))) (0, 0, 0).

Definition data_record_field_offset (mem : bytes) (rec : Z) (templ : ipfix_template)
    (enterprise id : Z) : res (Z * option Z) :=
  data_record_field_next_offset mem rec templ enterprise id (-1).

(** The identifiers of the table of cached fields ([offsets[].id]). *)
Definition offset_ids : list Z := [1; 2; 4; 7; 11; 8; 12; 27; 28].

(** The index of the first entry with the identifier, [OF_COUNT] if none has it. *)
Definition offset_index (id : Z) : nat :=
  match list_find (λ x, id = x) offset_ids with Some (i, _) => i | None => OF_COUNT end.

Definition set_offsets (t : ipfix_template) (o : list (Z * option Z)) : ipfix_template :=
  {| original_id := original_id t; references := references t; next := next t;
     template_type := template_type t; first_transmission := first_transmission t;
     last_transmission := last_transmission t; last_message := last_message t;
     template_id := template_id t; field_count := field_count t;
     scope_field_count := scope_field_count t; template_length := template_length t;
     data_length := data_length t; offsets := o; fields := fields t |}.

(** [data_record_get_field]: the pointer to the field ([None] is NULL), what is
    stored through [data_length] (when [want_length]: the pointer is given), and
    the template with its cache. *)
Definition data_record_get_field (mem : bytes) (rec : Z) (templ : ipfix_template)
    (enterprise id : Z) (want_length : bool) : res (option Z * option Z * ipfix_template) :=
  let offset_id := if decide (enterprise = 0) then offset_index id else OF_COUNT in
  let cached := if decide (enterprise = 0) then offsets templ !! offset_id else None in
  match cached with
  | Some (o, b) =>
      if decide (o > 0) then
        Ok (Some (rec + o), if want_length then b else None, templ)
      else
        x ← data_record_field_offset mem rec templ enterprise id;
        let '(offset, length) := x in
        if decide (offset < 0) then Ok (None, if want_length then length else None, templ) else
        let templ := if decide (offset_id ≠ OF_COUNT ∧ want_length = true ∧
                                Z.land (data_length templ) 0x80000000 = 0)
                     then set_offsets templ (<[offset_id := (offset, length)]> (offsets templ))
                     else templ in
        Ok (Some (rec + offset), if want_length then length else None, templ)
  | None =>
      x ← data_record_field_offset mem rec templ enterprise id;
      let '(offset, length) := x in
      if decide (offset < 0) then Ok (None, if want_length then length else None, templ)
      else Ok (Some (rec + offset), if want_length then length else None, templ)
  end.

(** [data_record_set_field]: copies as many octets of [value] as the field has. *)
Definition data_record_set_field (mem : bytes) (rec : Z) (templ : ipfix_template)
    (enterprise id : Z) (value : bytes) : res bytes :=
  x ← data_record_field_offset mem rec templ enterprise id;
  let '(offset, length) := x in
  if decide (offset >= 0) then
    v ← rdn value 0 (default 0 length); wrn mem (rec + offset) v
  else Ok mem.

(** [data_record_length], in 16-bit arithmetic, on [(count, index, offset)]. *)
Definition field_extent16 (mem : bytes) (rec offset length : Z) : res Z :=
  if decide (length = VAR_IE_LENGTH) then
    l ← rd8 mem (rec + offset);
    if decide (l = 255) then
      l ← rd16 mem (rec + u16 (offset + 1)); Ok (u16 (u16 (offset + 1 + 2) + l))
    else Ok (u16 (u16 (offset + 1) + l))
  else Ok (u16 (offset + length)).

Definition data_record_length_step (mem : bytes) (rec : Z) (templ : ipfix_template)
    (s : Z * Z * Z) : res ((Z * Z * Z) + Z) :=
  let '(count, index, offset) := s in
  if decide (count < field_count templ) then
    w ← rd_row (fields templ) index;
    let index := if decide (Z.shiftr (ie_id w) 15 ≠ 0) then u16 (index + 1) else index in
    offset ← (if decide (ie_length w = 1 ∨ ie_length w = 2 ∨ ie_length w = 4 ∨ ie_length w = 8)
              then Ok (u16 (offset + ie_length w))
              else field_extent16 mem rec offset (ie_length w));
    Ok (inl (u16 (count + 1), u16 (index + 1), offset))
  else Ok (inr offset).

Definition data_record_length (mem : bytes) (rec : Z) (templ : ipfix_template) : res Z :=
  if decide (Z.land (data_length templ) 0x80000000 = 0) then Ok (u16 (data_length templ))
  else loop (data_record_length_step mem rec templ) (S (Z.to_nat (field_count templ))) (0, 0, 0).

(** [get_next_data_record_offset]; [None] is a NULL template.  The loop leaves
    when [count] is the number of fields. *)
Definition get_next_data_record_offset_step (mem : bytes) (rec : Z) (templ : ipfix_template)
    (s : Z * Z * Z) : res ((Z * Z * Z) + Z) :=
  let '(count, index, offset) := s in
  if decide (count ≠ field_count templ) then
    w ← rd_row (fields templ) index;
    let index := if decide (Z.shiftr (ie_id w) 15 ≠ 0) then u16 (index + 1) else index in
    offset ← field_extent16 mem rec offset (ie_length w);
    Ok (inl (u16 (count + 1), u16 (index + 1), offset))
  else Ok (inr offset).

Definition get_next_data_record_offset (mem : bytes) (rec : Z) (templ : option ipfix_template) : res Z :=
  match templ with
  | None => Ok 0
  | Some t => loop (get_next_data_record_offset_step mem rec t) (S (Z.to_nat (field_count t))) (0, 0, 0)
  end.

(** ** Walking a data set *)

(** The loop of [data_set_process_records] on [(offset, count, state)]; the
    processor gets the record and its length and works on its own state [D]. *)
Section data_set.
Context {D : Type}.

Definition data_set_process_records_step (mem : bytes) (set set_len min_len : Z)
    (templ : ipfix_template) (processor : Z → Z → D → res D) (s : Z * Z * D) :
    res ((Z * Z * D) + (Z * D)) :=
  let '(offset, count, d) := s in
  if decide (set_len - offset - min_len >= 0) then
    rec_len ← data_record_length mem (set + offset) templ;
    d ← processor (set + offset) rec_len d;
    Ok (inl (u32 (offset + rec_len), u16 (count + 1), d))
  else Ok (inr (count, d)).

(** The minimal record length of a set: the stored length, or its low 15 bits
    when the flag of variable length is set. *)
Definition set_min_length (templ : ipfix_template) : Z :=
  if decide (Z.land (data_length templ) 0x80000000 ≠ 0)
  then Z.land (data_length templ) 0x7fff else data_length templ.

Definition data_set_process_records (fuel : nat) (mem : bytes) (set : Z)
    (templ : ipfix_template) (processor : Z → Z → D → res D) (d : D) : res (Z * D) :=
  set_len ← rd16 mem (set + 2);
  loop (data_set_process_records_step mem set set_len (set_min_length templ) templ processor)
       fuel (4, 0, d).
End data_set.

(** Iterations that are enough when every record has at least one octet. *)
Definition data_set_fuel : nat := Z.to_nat 65537.

Definition no_processor (rec rec_len : Z) (_ : unit) : res unit := Ok tt.

Definition data_set_records_count (mem : bytes) (set : Z) (templ : ipfix_template) : res Z :=
  if decide (Z.land (data_length templ) 0x80000000 ≠ 0) then
    fst <$> data_set_process_records data_set_fuel mem set templ no_processor tt
  else
    set_len ← rd16 mem (set + 2);
    if decide (data_length templ = 0) then Fault DivByZero
    else Ok (set_len / data_length templ).

(** [get_data_records] and [data_set_set_field] keep the minimal length in 16
    bits and test bit 15 of it. *)
Definition set_min_length16 (templ : ipfix_template) : Z :=
  let m := u16 (data_length templ) in
  if decide (Z.land m 0x8000 ≠ 0) then Z.land m 0x7fff else m.

(** On [(offset, records)]: the array of pointers has room for
    [MSG_MAX_DATA_COUPLES] of them. *)
Definition get_data_records_step (mem : bytes) (set set_len : Z) (templ : ipfix_template)
    (s : Z * list Z) : res ((Z * list Z) + list Z) :=
  let '(offset, records) := s in
  if decide (set_len - offset - set_min_length16 templ >= 0) then
    if decide (Z.of_nat (length records) >= MSG_MAX_DATA_COUPLES) then Fault OobWrite else
    n ← get_next_data_record_offset mem (set + offset) (Some templ);
    Ok (inl (u32 (offset + n), records ++ [set + offset]))
  else Ok (inr records).

Definition get_data_records (mem : bytes) (set : Z) (templ : ipfix_template) : res (list Z) :=
  set_len ← rd16 mem (set + 2);
  loop (get_data_records_step mem set set_len templ) data_set_fuel (4, []).

(** On [(offset, packet)]: every record gets the field overwritten, at the
    offset it has in the template. *)
Definition data_set_set_field_step (set set_len : Z) (templ : ipfix_template)
    (field_offset len : Z) (value : bytes) (s : Z * bytes) : res ((Z * bytes) + bytes) :=
  let '(offset, mem) := s in
  if decide (set_len - offset - set_min_length16 templ >= 0) then
    v ← rdn value 0 len;
    mem ← wrn mem (set + offset + field_offset) v;
    n ← data_record_length mem (set + offset) templ;
    Ok (inl (u32 (offset + n), mem))
  else Ok (inr mem).

Definition data_set_set_field (mem : bytes) (set : Z) (templ : ipfix_template)
    (enterprise id : Z) (value : bytes) : res bytes :=
  set_len ← rd16 mem (set + 2);
  x ← template_get_field templ enterprise id;
  match x with
  | (None, _) => Ok mem
  | (Some row, field_offset) =>
      w ← rd_row (fields templ) row;
      loop (data_set_set_field_step set set_len templ field_offset (ie_length w) value)
           data_set_fuel (4, mem)
  end.

(** ** Walking a template set *)

Section template_set.
Context {D : Type}.

(** On [(ptr, count, state)]; [set_end] is the address behind the set. *)
Definition template_set_process_records_step (mem : bytes) (set_end type min_len : Z)
    (processor : Z → Z → D → res D) (s : Z * Z * D) : res ((Z * Z * D) + (Z * D)) :=
  let '(ptr, count, d) := s in
  if decide (ptr < set_end) then
    x ← tm_template_record_length mem ptr (u16 (set_end - ptr)) type;
    let rec_len := x.1 in
    if decide (rec_len < min_len) then Ok (inr (count, d)) else
    d ← processor ptr rec_len d;
    Ok (inl (ptr + rec_len, u16 (count + 1), d))
  else Ok (inr (count, d)).

Definition template_set_process_records (mem : bytes) (tset type : Z)
    (processor : Z → Z → D → res D) (d : D) : res (Z * D) :=
  set_len ← rd16 mem (tset + 2);
  let ptr := tset + 4 in
  if decide (u16 (tset + set_len - ptr) < 4) then Ok (0, d) else
  cnt ← rd16 mem (ptr + 2);
  let run min_len :=
    loop (template_set_process_records_step mem (tset + set_len) type min_len processor)
         (S (Z.to_nat set_len)) (ptr, 0, d) in
  if decide (cnt ≠ 0) then
    if decide (type = TM_TEMPLATE) then run sizeof_ipfix_template_record
    else if decide (type = TM_OPTIONS_TEMPLATE) then run sizeof_ipfix_options_template_record
    else Ok (0, d)
  else run 4.
End template_set.

(** ** Specification: values of fields and data records *)

(** The value of a field in a data record.  A value of variable length is
    preceded by its length, in one octet or (when [dv_long]) in three. *)
Record dvalue := { dv_long : bool; dv_bytes : bytes }.

Abbreviation datum := (field_spec * dvalue)%type.

Definition datum_wf (x : datum) : Prop :=
  field_wf x.1 ∧
  if decide (fs_length x.1 = VAR_IE_LENGTH)
  then blen (dv_bytes x.2) < (if dv_long x.2 then 65536 else 255)
  else blen (dv_bytes x.2) = fs_length x.1.

Definition length_prefix (x : datum) : bytes :=
  if decide (fs_length x.1 = VAR_IE_LENGTH) then
    if dv_long x.2 then 255 :: enc16 (blen (dv_bytes x.2)) else [blen (dv_bytes x.2)]
  else [].
Definition enc_datum (x : datum) : bytes := length_prefix x ++ dv_bytes x.2.
Definition enc_data (d : list datum) : bytes := mjoin (enc_datum <$> d).

(** A field is asked for by enterprise number (0 for none) and identifier. *)
Definition field_is (enterprise id : Z) (f : field_spec) : Prop :=
  fs_id f = id ∧ default 0 (fs_enterprise f) = enterprise.
#[export] Instance field_is_dec enterprise id f : Decision (field_is enterprise id f).
Proof. unfold field_is. apply _. Defined.

(** The template is the one of the field specifiers [fs]. *)
Record template_of (t : ipfix_template) (fs : list field_spec) : Prop := {
  to_fields : fields t = fields_rows fs;
  to_count : field_count t = Z.of_nat (length fs);
  to_data_length : data_length t = spec_data_length fs;
  to_wf : Forall field_wf fs;
  to_enterprise : Forall (λ f, fs_enterprise f ≠ Some 0) fs;
  to_min : spec_min_length fs < 0x80000000;
  to_size : fields_size fs < 65536
}.

(** Where the value of the first field asked for is in the record, and its length. *)
Definition value_at (enterprise id : Z) (d : list datum) : Z * option Z :=
  match find_split (λ x, field_is enterprise id x.1) d with
  | Some (l, x) => (blen (enc_data l) + blen (length_prefix x), Some (blen (dv_bytes x.2)))
  | None => (-1, None)
  end.

(** ** Rows *)

Definition nrows (fs : list field_spec) : Z := Z.of_nat (length (fields_rows fs)).

(** What a reader of rows promises to the loops over them. *)
Class ReadsFields (rr : row_reader) (fs : list field_spec) := {
  reads_id l f r : fs = l ++ f :: r → row_id rr (nrows l) = Ok (wire_id f);
  reads_length l f r : fs = l ++ f :: r → row_length rr (nrows l) = Ok (fs_length f);
  reads_enterprise l f r e : fs = l ++ f :: r → fs_enterprise f = Some e →
    row_enterprise rr (nrows l + 1) = Ok e
}.

Section rows.
Implicit Types (f : field_spec) (fs l r : list field_spec).

Lemma nrows_nonneg fs : 0 ≤ nrows fs.
Proof. unfold nrows. lia. Qed.

Lemma nrows_snoc l f :
  nrows (l ++ [f]) = nrows l + match fs_enterprise f with Some _ => 2 | None => 1 end.
Proof.
  unfold nrows. rewrite fields_rows_app, length_app, fields_rows_cons, app_nil_r.
  unfold field_rows. destruct (fs_enterprise f); cbn [length]; lia.
Qed.

Lemma nrows_size fs : 4 * nrows fs = fields_size fs.
Proof.
  unfold nrows. induction fs as [|f fs IH]; [done|].
  rewrite fields_rows_cons, fields_size_cons, length_app.
  unfold field_rows, field_size. destruct (fs_enterprise f); cbn [length]; lia.
Qed.

Lemma ie_id_mk x y : is_u16 x → ie_id (mk_ie x y) = x.
Proof.
  unfold ie_id, mk_ie, is_u16. intros. rewrite Z.add_comm, Z_mod_plus_full. by apply Z.mod_small.
Qed.

Lemma ie_length_mk x y : is_u16 x → ie_length (mk_ie x y) = y.
Proof.
  unfold ie_length, mk_ie, is_u16. intros.
  rewrite Z.div_add_l by lia. rewrite Z.div_small by lia. lia.
Qed.

Lemma rd_row_field l f r :
  rd_row (fields_rows (l ++ f :: r)) (nrows l) = Ok (mk_ie (wire_id f) (fs_length f)).
Proof.
  unfold rd_row, nrows. rewrite decide_True by lia. rewrite Nat2Z.id, fields_rows_app.
  rewrite lookup_app_r, Nat.sub_diag by lia. done.
Qed.

Lemma rd_row_enterprise l f r e : fs_enterprise f = Some e →
  rd_row (fields_rows (l ++ f :: r)) (nrows l + 1) = Ok e.
Proof.
  intros E. unfold rd_row, nrows. rewrite decide_True by lia.
  rewrite fields_rows_app, lookup_app_r by lia.
  replace (Z.to_nat _ - _)%nat with 1%nat by lia.
  rewrite fields_rows_cons. unfold field_rows. by rewrite E.
Qed.

Lemma shiftr15 x : is_u16 x → Z.shiftr x 15 ≠ 0 ↔ 32768 ≤ x.
Proof.
  unfold is_u16. intros. rewrite Z.shiftr_div_pow2 by lia. change (2 ^ 15) with 32768.
  split; Z.to_euclidean_division_equations; lia.
Qed.

Lemma wire_id_shiftr f : field_wf f → Z.shiftr (wire_id f) 15 ≠ 0 ↔ is_Some (fs_enterprise f).
Proof.
  intros Hf. rewrite shiftr15 by by apply wire_id_u16.
  by rewrite <-land_enterprise, wire_id_enterprise by (done || by apply wire_id_u16).
Qed.

Lemma land_0x7fff x : Z.land x 0x7FFF = x mod 32768.
Proof. change 0x7FFF with (Z.ones 15). by rewrite Z.land_ones. Qed.

Lemma wire_id_low f : field_wf f → is_Some (fs_enterprise f) → Z.land (wire_id f) 0x7FFF = fs_id f.
Proof.
  intros [? _ _] [e E]. rewrite land_0x7fff. unfold wire_id. rewrite E.
  replace (fs_id f + 32768) with (fs_id f + 1 * 32768) by lia.
  rewrite Z_mod_plus_full. by apply Z.mod_small.
Qed.

#[export] Instance host_rows_reads fs : Forall field_wf fs →
  ReadsFields (host_rows (fields_rows fs)) fs.
Proof.
  intros Hwf. assert (∀ l f r, fs = l ++ f :: r → is_u16 (wire_id f)) as Hid.
  { intros l f r ->. apply Forall_app in Hwf as [_ [? _]%Forall_cons]. by apply wire_id_u16. }
  split; cbn.
  - intros l f r E. rewrite E, rd_row_field. cbn. by rewrite ie_id_mk by eauto.
  - intros l f r E. rewrite E, rd_row_field. cbn. by rewrite ie_length_mk by eauto.
  - intros l f r e E He. rewrite E. by rewrite (rd_row_enterprise _ _ _ _ He).
Qed.

#[export] Instance net_rows_reads fs pre post : Forall field_wf fs →
  ReadsFields (net_rows (pre ++ enc_fields fs ++ post) (blen pre)) fs.
Proof.
  intros Hwf.
  assert (∀ l f r, fs = l ++ f :: r → field_wf f ∧
    pre ++ enc_fields fs ++ post = (pre ++ enc_fields l) ++ enc_field f ++ (enc_fields r ++ post)
    ∧ blen pre + 4 * nrows l = blen (pre ++ enc_fields l)) as Hsp.
  { intros l f r ->. apply Forall_app in Hwf as [_ [? _]%Forall_cons]. split; [done|].
    rewrite blen_app, blen_enc_fields, nrows_size. split; [|done].
    by rewrite enc_fields_app, enc_fields_cons, <-!app_assoc. }
  split; cbn; intros l f r; [intros (Hf&->&->)%Hsp..|intros e (Hf&->&Ep)%Hsp He].
  - by apply rd_field_id.
  - by apply rd_field_length.
  - replace (blen pre + 4 * (nrows l + 1)) with (blen (pre ++ enc_fields l) + 4) by lia.
    by apply rd_field_enterprise.
Qed.
End rows.
#[export] Hint Rewrite nrows_snoc ie_id_mk ie_length_mk using (by apply wire_id_u16) : ipfix.

(** ** Looking a field up *)

Definition lengths (fs : list field_spec) : Z := foldr Z.add 0 (fs_length <$> fs).

(** The row of the first field asked for and the octets in front of it; without
    one, the octets of the whole record. *)
Definition field_at (enterprise id : Z) (fs : list field_spec) : option Z * Z :=
  match find_split (field_is enterprise id) fs with
  | Some (l, f) => (Some (nrows l), lengths l)
  | None => (None, lengths fs)
  end.

Section lookup.
Implicit Types (f : field_spec) (fs l r : list field_spec).

Lemma lengths_app l r : lengths (l ++ r) = lengths l + lengths r.
Proof.
  induction l as [|f l IH]; [done|].
  change (fs_length f + lengths (l ++ r) = fs_length f + lengths l + lengths r). lia.
Qed.

Lemma lengths_snoc l f : lengths (l ++ [f]) = lengths l + fs_length f.
Proof. rewrite lengths_app. cbn. lia. Qed.

(** What one iteration knows of the field at its row: identifier without the
    enterprise bit, last row, enterprise number. *)
Lemma row_decoded (rr : row_reader) fs `{!ReadsFields rr fs} l f r :
  fs = l ++ f :: r → field_wf f →
  (if decide (Z.shiftr (wire_id f) 15 ≠ 0) then
     ren ← row_enterprise rr (nrows l + 1);
     Ok (Z.land (wire_id f) 0x7FFF, nrows l + 1, ren)
   else Ok (wire_id f, nrows l, 0))
  = Ok (fs_id f, nrows (l ++ [f]) - 1, default 0 (fs_enterprise f)).
Proof.
  intros E Hf. pose proof (wire_id_shiftr f Hf) as Hs.
  rewrite nrows_snoc. destruct (fs_enterprise f) as [e|] eqn:He.
  - rewrite decide_True by (apply Hs; by eexists).
    rewrite (reads_enterprise l f r e E He), res_bind_ret.
    rewrite wire_id_low by (done || rewrite He; by eexists). cbn [default].
    do 2 f_equal. f_equal. lia.
  - rewrite decide_False by (intros Hx%Hs; by destruct Hx).
    unfold wire_id. rewrite He. cbn [default]. do 2 f_equal. f_equal. lia.
Qed.

Lemma fields_get_field_at (rr : row_reader) fs `{!ReadsFields rr fs} enterprise id :
  Forall field_wf fs → Forall (λ f, fs_enterprise f ≠ Some 0) fs →
  fields_get_field rr (Z.of_nat (length fs)) enterprise id = Ok (field_at enterprise id fs).
Proof.
  intros Hwf Hent. unfold fields_get_field, field_at. rewrite Nat2Z.id.
  set (st l := (Z.of_nat (length l), nrows l, lengths l)).
  (* one iteration, at the field [f] behind [l] *)
  assert (∀ l f r, fs = l ++ f :: r →
    fields_get_field_step rr (Z.of_nat (length fs)) enterprise id (st l) =
    Ok (if decide (field_is enterprise id f) then inr (Some (nrows l), lengths l)
        else inl (st (l ++ [f])))) as Hstep.
  { intros l f r E. rewrite E in Hwf, Hent.
    apply Forall_app in Hwf as [_ [Hf _]%Forall_cons].
    apply Forall_app in Hent as [_ [He _]%Forall_cons].
    unfold fields_get_field_step, st. rewrite decide_True by (rewrite E, length_app; cbn; lia).
    rewrite (reads_id l f r E), (reads_length l f r E), !res_bind_ret.
    rewrite (row_decoded rr fs l f r E Hf), res_bind_ret.
    destruct (decide (field_is enterprise id f)) as [Hi|Hi].
    - rewrite decide_True by exact Hi. destruct Hi as [_ Hd].
      rewrite nrows_snoc. destruct (fs_enterprise f) as [e|]; cbn in Hd |- *; subst.
      + rewrite decide_True by (intros ->; done). do 4 f_equal. lia.
      + rewrite decide_False by lia. do 4 f_equal. lia.
    - rewrite decide_False by exact Hi. rewrite lengths_snoc, length_app. cbn [length].
      repeat f_equal; lia. }
  refine (eq_trans (loop_find _ _ fs st (λ l _, (Some (nrows l), lengths l)) (None, lengths fs) _ Hstep _ _) _).
  - unfold fields_get_field_step, st. by rewrite decide_False by lia.
  - lia.
  - by destruct (find_split _ fs) as [ [l f]|].
Qed.
End lookup.

(** ** Data records *)

Section data.
Implicit Types (x : datum) (d l r : list datum) (pre post : bytes).

Lemma enc_data_app l r : enc_data (l ++ r) = enc_data l ++ enc_data r.
Proof. unfold enc_data. by rewrite fmap_app, join_app. Qed.

Lemma enc_data_cons x d : enc_data (x :: d) = enc_datum x ++ enc_data d.
Proof. done. Qed.

Lemma blen_enc_datum x : blen (enc_datum x) = blen (length_prefix x) + blen (dv_bytes x.2).
Proof. unfold enc_datum. by rewrite blen_app. Qed.

Lemma blen_enc_data_snoc l x : blen (enc_data (l ++ [x])) =
  blen (enc_data l) + blen (length_prefix x) + blen (dv_bytes x.2).
Proof.
  rewrite enc_data_app, blen_app, enc_data_cons, blen_app, blen_enc_datum.
  change (blen (enc_data [])) with 0. lia.
Qed.

(** The place of a value in a packet. *)
Lemma enc_data_split pre l x r post :
  pre ++ enc_data (l ++ x :: r) ++ post
  = (pre ++ enc_data l) ++ length_prefix x ++ dv_bytes x.2 ++ enc_data r ++ post.
Proof.
  rewrite enc_data_app, enc_data_cons. unfold enc_datum. by rewrite <-!app_assoc.
Qed.

Lemma field_extent_at pre l x r post : datum_wf x →
  field_extent (pre ++ enc_data (l ++ x :: r) ++ post) (blen pre) (blen (enc_data l))
    (fs_length x.1)
  = Ok (blen (enc_data l) + blen (length_prefix x), blen (dv_bytes x.2)).
Proof.
  intros [Hf Hv]. rewrite enc_data_split. unfold field_extent, length_prefix.
  rewrite <-blen_app. case_decide.
  - pose proof (blen_nonneg (dv_bytes x.2)).
    destruct (dv_long x.2).
    + rewrite <-app_comm_cons, rd8_here, res_bind_ret, decide_True by done.
      change (255 :: ?t) with ([255] ++ t). rewrite app_assoc.
      replace (blen pre + (blen (enc_data l) + 1)) with (blen ((pre ++ enc_data l) ++ [255]))
        by (rewrite !blen_app; change (blen [255]) with 1; lia).
      rewrite rd16_here by (unfold is_u16; lia). rewrite res_bind_ret. done.
    + cbn [app]. rewrite rd8_here, res_bind_ret, decide_False by lia. done.
  - rewrite Hv. change (blen []) with 0. do 2 f_equal. lia.
Qed.

Lemma has_variable_false fs : has_variable fs = false →
  Forall (λ f, fs_length f ≠ VAR_IE_LENGTH) fs.
Proof.
  induction fs as [|f fs IH]; [by constructor|].
  cbn. intros [H1 H2]%orb_false_iff. constructor; [by apply bool_decide_eq_false in H1|auto].
Qed.

(** A record without values of variable length. *)
Lemma fixed_record d : Forall datum_wf d → has_variable d.*1 = false →
  blen (enc_data d) = lengths d.*1 ∧ spec_min_length d.*1 = lengths d.*1 ∧
  Forall (λ x, length_prefix x = [] ∧ blen (dv_bytes x.2) = fs_length x.1) d.
Proof.
  intros Hwf Hv%has_variable_false. induction Hwf as [|x d [_ Hx] _ IH]; [done|].
  rewrite fmap_cons in *. apply Forall_cons in Hv as [Hxv Hv]. destruct (IH Hv) as (IH1&IH2&IH3).
  assert (length_prefix x = [] ∧ blen (dv_bytes x.2) = fs_length x.1) as [Hp Hb].
  { unfold length_prefix. by rewrite !decide_False in * by done. }
  rewrite enc_data_cons, blen_app, blen_enc_datum, Hp, Hb, IH1.
  change (spec_min_length (x.1 :: d.*1)) with (min_length x.1 + spec_min_length d.*1).
  change (lengths (x.1 :: d.*1)) with (fs_length x.1 + lengths d.*1).
  unfold min_length. rewrite decide_False, IH2 by done. rewrite blen_nil.
  split_and!; [lia..|by constructor].
Qed.

Lemma datum_wf_min x : datum_wf x → min_length x.1 ≤ blen (enc_datum x).
Proof.
  intros [_ Hx]. rewrite blen_enc_datum. unfold min_length, length_prefix.
  pose proof (blen_nonneg (dv_bytes x.2)).
  case_decide; [|rewrite blen_nil; lia]. destruct (dv_long _); autorewrite with ipfix; lia.
Qed.

Lemma enc_data_min d : Forall datum_wf d → spec_min_length d.*1 ≤ blen (enc_data d).
Proof.
  induction 1 as [|x d Hx _ IH]; [done|]. rewrite enc_data_cons, blen_app.
  pose proof (datum_wf_min x Hx).
  change (spec_min_length ((x :: d).*1)) with (min_length x.1 + spec_min_length d.*1). lia.
Qed.
End data.

(** The variable-length flag of a stored length. *)
Lemma spec_data_length_flag fs : Forall field_wf fs → spec_min_length fs < 0x80000000 →
  Z.land (spec_data_length fs) 0x80000000 = 0 ↔ has_variable fs = false.
Proof.
  intros Hwf Hmin. pose proof (spec_min_length_range fs Hwf).
  assert (is_u32 (spec_data_length fs)) as Hu.
  { unfold is_u32, spec_data_length. destruct (has_variable fs); lia. }
  pose proof (land_flag31 _ Hu) as Hl. unfold spec_data_length in *.
  destruct (has_variable fs); split; try done; intros; lia.
Qed.

Lemma find_split_fmap {A B} (g : A → B) (P : B → Prop) `{∀ y, Decision (P y)} (xs : list A) :
  find_split P (g <$> xs) = prod_map (fmap (M := list) g) g <$> find_split (λ x, P (g x)) xs.
Proof.
  induction xs as [|x xs IH]; [done|]. cbn. case_decide; [done|].
  change (list_fmap A B g xs) with (g <$> xs). rewrite IH.
  by destruct (find_split _ xs) as [ [l y]|].
Qed.

Section record_offsets.
Context (t : ipfix_template) (d : list datum) (pre post : bytes).
Context (Ht : template_of t d.*1) (Hd : Forall datum_wf d).
Let mem := pre ++ enc_data d ++ post.

(** The specifier at its row of the template, decoded. *)
Lemma template_row_decoded l x r : d = l ++ x :: r →
  rd_row (fields t) (nrows l.*1) = Ok (mk_ie (wire_id x.1) (fs_length x.1)) ∧
  (if decide (Z.shiftr (wire_id x.1) 15 ≠ 0) then
     e ← rd_row (fields t) (nrows l.*1 + 1);
     Ok (Z.land (wire_id x.1) 0x7FFF, nrows l.*1 + 1, enterprise_number e)
   else Ok (wire_id x.1, nrows l.*1, 0))
  = Ok (fs_id x.1, nrows (l ++ [x]).*1 - 1, default 0 (fs_enterprise x.1)) ∧
  datum_wf x.
Proof.
  intros E. destruct Ht as [Hf _ _ Hwf _ _ _]. rewrite Hf.
  assert (d.*1 = l.*1 ++ x.1 :: r.*1) as E' by by rewrite E, fmap_app, fmap_cons.
  pose proof Hd as Hd'. rewrite E in Hd'. apply Forall_app in Hd' as [_ [Hx _]%Forall_cons].
  split_and!; [by rewrite E', rd_row_field| |done].
  rewrite fmap_app. change ([x].*1) with [x.1].
  pose proof (host_rows_reads _ Hwf).
  rewrite <-(row_decoded (host_rows (fields_rows d.*1)) d.*1 l.*1 x.1 r.*1 E') by apply Hx.
  case_decide; [|done]. cbn. by destruct (rd_row _ _).
Qed.

Lemma template_get_field_at enterprise id :
  template_get_field t enterprise id = Ok (field_at enterprise id d.*1).
Proof.
  unfold template_get_field. destruct Ht. rewrite to_fields0, to_count0.
  pose proof (host_rows_reads _ to_wf0). by apply (fields_get_field_at (host_rows (fields_rows d.*1)) d.*1).
Qed.

(** One step of the search in a record with values of variable length. *)
Lemma next_offset_step enterprise id l x r : d = l ++ x :: r →
  data_record_field_next_offset_step mem (blen pre) t enterprise id (-1)
    (Z.of_nat (length l), nrows l.*1, blen (enc_data l))
  = Ok (if decide (field_is enterprise id x.1)
        then inr (blen (enc_data l) + blen (length_prefix x), Some (blen (dv_bytes x.2)))
        else inl (Z.of_nat (length (l ++ [x])), nrows (l ++ [x]).*1, blen (enc_data (l ++ [x])))).
Proof.
  intros E. destruct (template_row_decoded l x r E) as (Hr & Hdec & Hx).
  unfold data_record_field_next_offset_step. rewrite (to_count _ _ Ht), length_fmap.
  rewrite decide_True by (rewrite E, length_app; cbn; lia).
  rewrite Hr, res_bind_ret. rewrite ie_id_mk, ie_length_mk by (apply wire_id_u16, Hx).
  rewrite Hdec, res_bind_ret.
  assert ((if decide (fs_length x.1 = 1 ∨ fs_length x.1 = 2 ∨ fs_length x.1 = 4 ∨ fs_length x.1 = 8)
    then Ok (blen (enc_data l), fs_length x.1)
    else field_extent mem (blen pre) (blen (enc_data l)) (fs_length x.1))
    = Ok (blen (enc_data l) + blen (length_prefix x), blen (dv_bytes x.2))) as ->.
  { pose proof (field_extent_at pre l x r post Hx) as Hext. rewrite <-E in Hext. fold mem in Hext.
    clear Hdec. case_decide as Hc; [|exact Hext]. rewrite <-Hext. unfold field_extent.
    rewrite decide_False; [done|]. unfold VAR_IE_LENGTH. lia. }
  rewrite res_bind_ret. pose proof (blen_nonneg (enc_data l)). pose proof (blen_nonneg (length_prefix x)).
  rewrite blen_enc_data_snoc, length_app. cbn [length].
  destruct (decide (field_is enterprise id x.1)) as [ [Hi Hn]|Hn].
  - rewrite decide_True by (split_and!; [done..|lia]). done.
  - rewrite decide_False by (unfold field_is in Hn; naive_solver).
    do 4 f_equal; [lia|]. f_equal; lia.
Qed.

Lemma data_record_field_offset_at enterprise id :
  data_record_field_offset mem (blen pre) t enterprise id = Ok (value_at enterprise id d).
Proof.
  pose proof (to_wf _ _ Ht) as Hwf. pose proof (to_min _ _ Ht) as Hmin.
  unfold data_record_field_offset, data_record_field_next_offset.
  rewrite (to_data_length _ _ Ht). pose proof (spec_data_length_flag _ Hwf Hmin) as Hflag.
  case_decide as Hv; unfold value_at.
  - apply Hflag in Hv. rewrite template_get_field_at, res_bind_ret.
    destruct (fixed_record d Hd Hv) as (Hlen & _ & Hfix).
    unfold field_at. rewrite find_split_fmap.
    destruct (find_split (λ x : datum, field_is enterprise id x.1) d) as [ [l x]|] eqn:Ef; cbn [fmap option_fmap option_map prod_map fst snd]; [|done].
    destruct (find_split_Some _ _ _ _ Ef) as (r & E & _ & _).
    destruct (template_row_decoded l x r E) as (Hr & _ & Hx).
    cbn [prod_map fst snd]. rewrite Hr, res_bind_ret.
    rewrite ie_length_mk by (apply wire_id_u16, Hx).
    rewrite E in Hfix, Hd, Hv. apply Forall_app in Hfix as [_ [ [Hp Hb] _]%Forall_cons].
    rewrite Hp, Hb, blen_nil.
    apply Forall_app in Hd as [Hdl _].
    rewrite fmap_app, has_variable_app in Hv. apply orb_false_iff in Hv as [Hvl _].
    destruct (fixed_record l Hdl Hvl) as (-> & _). do 2 f_equal. lia.
  - rewrite (to_count _ _ Ht), Nat2Z.id, length_fmap.
    set (st l := (Z.of_nat (length l), nrows l.*1, blen (enc_data l))).
    destruct (find_split (λ x : datum, field_is enterprise id x.1) d) as [ [l x]|] eqn:Ef.
    + destruct (find_split_Some _ _ _ _ Ef) as (r & E & Hno & Hyes).
      apply (loop_over _ l st).
      * intros l' x' r' E'. pose proof E as E2. rewrite E', <-app_assoc in E2.
        unfold st. rewrite (next_offset_step enterprise id _ _ _ E2).
        rewrite E' in Hno. apply Forall_app in Hno as [_ [Hno _]%Forall_cons].
        by rewrite decide_False.
      * apply loop_exit. unfold st. rewrite (next_offset_step enterprise id _ _ _ E). by rewrite decide_True.
      * rewrite E, length_app. lia.
    + apply find_split_None in Ef. apply (loop_over _ d st).
      * intros l x r E. unfold st. rewrite (next_offset_step enterprise id _ _ _ E).
        rewrite E in Ef. apply Forall_app in Ef as [_ [Hno _]%Forall_cons]. by rewrite decide_False.
      * apply loop_exit. unfold st, data_record_field_next_offset_step.
        rewrite (to_count _ _ Ht), length_fmap. by rewrite decide_False by lia.
      * lia.
Qed.
End record_offsets.

Section record_length.
Context (t : ipfix_template) (d : list datum) (pre post : bytes).
Context (Ht : template_of t d.*1) (Hd : Forall datum_wf d) (Hlen : blen (enc_data d) < 65536).
Let mem := pre ++ enc_data d ++ post.
Let st (l : list datum) := (Z.of_nat (length l), nrows l.*1, blen (enc_data l)).

Lemma record_prefix l x r : d = l ++ x :: r →
  blen (enc_data (l ++ [x])) ≤ blen (enc_data d) ∧
  4 * nrows (l ++ [x]).*1 < 65536 ∧ Z.of_nat (length (l ++ [x])) ≤ nrows (l ++ [x]).*1.
Proof.
  intros E. replace (l ++ x :: r) with ((l ++ [x]) ++ r) in E by by rewrite <-app_assoc.
  pose proof (to_size _ _ Ht) as Hs. pose proof (fields_size_length (l ++ [x]).*1) as Hn.
  rewrite nrows_size. rewrite E, fmap_app, fields_size_app in Hs.
  pose proof (fields_size_nonneg r.*1). rewrite length_fmap in Hn.
  pose proof (nrows_size (l ++ [x]).*1).
  rewrite E, (enc_data_app _ r), (blen_app _ (enc_data r)).
  pose proof (blen_nonneg (enc_data r)). split_and!; lia.
Qed.

Lemma field_extent16_at l x r : d = l ++ x :: r →
  field_extent16 mem (blen pre) (blen (enc_data l)) (fs_length x.1)
  = Ok (blen (enc_data (l ++ [x]))).
Proof.
  intros E. destruct (template_row_decoded t d Ht Hd l x r E) as (_ & _ & Hx).
  destruct (record_prefix l x r E) as (Hb & _ & _).
  pose proof (field_extent_at pre l x r post Hx) as Hext. rewrite <-E in Hext. fold mem in Hext.
  rewrite blen_enc_data_snoc in *.
  pose proof (blen_nonneg (enc_data l)). pose proof (blen_nonneg (dv_bytes x.2)).
  pose proof (blen_nonneg (length_prefix x)).
  unfold field_extent in Hext. unfold field_extent16. case_decide.
  - destruct (rd8 mem _) as [b| |]; [|done..].
    rewrite res_bind_ret in Hext. rewrite res_bind_ret.
    destruct (decide (b = 255)).
    + destruct (rd16 mem (blen pre + (blen (enc_data l) + 1))) as [b16| |] eqn:E16; [|done..].
      rewrite res_bind_ret in Hext. simplify_eq.
      rewrite (u16_small (blen (enc_data l) + 1)), E16, res_bind_ret by lia.
      rewrite (u16_small (_ + 1 + 2)) by lia. rewrite u16_small by lia. f_equal. lia.
    + simplify_eq. rewrite (u16_small (_ + 1)) by lia. rewrite u16_small by lia. f_equal. lia.
  - simplify_eq. rewrite u16_small by lia. f_equal. lia.
Qed.

(** The steps over the row of the field at [l] and to the next field. *)
Lemma row_index_step l x r : d = l ++ x :: r →
  u16 (Z.of_nat (length l) + 1) = Z.of_nat (length (l ++ [x])) ∧
  u16 ((if decide (Z.shiftr (wire_id x.1) 15 ≠ 0) then u16 (nrows l.*1 + 1) else nrows l.*1) + 1)
  = nrows (l ++ [x]).*1.
Proof.
  intros E. destruct (template_row_decoded t d Ht Hd l x r E) as (_ & _ & [Hx _]).
  destruct (record_prefix l x r E) as (_ & Hs & Hn). pose proof (nrows_nonneg l.*1).
  pose proof (wire_id_shiftr _ Hx) as Hsh.
  rewrite fmap_app in *. change ([x].*1) with [x.1] in *. rewrite nrows_snoc in *.
  rewrite length_app in *. cbn [length] in *.
  split; [rewrite u16_small; lia|].
  destruct (fs_enterprise x.1) as [e|].
  - rewrite decide_True by (apply Hsh; by eexists). rewrite (u16_small (nrows _ + 1)) by lia.
    rewrite u16_small; lia.
  - rewrite decide_False by (intros Hh%Hsh; by destruct Hh). rewrite u16_small; lia.
Qed.

Lemma get_next_data_record_offset_at :
  get_next_data_record_offset mem (blen pre) (Some t) = Ok (blen (enc_data d)).
Proof.
  unfold get_next_data_record_offset. rewrite (to_count _ _ Ht), Nat2Z.id, length_fmap.
  apply (loop_over _ d st).
  - intros l x r E. destruct (row_index_step l x r E) as (Hc & Hi).
    destruct (template_row_decoded t d Ht Hd l x r E) as (Hr & _ & [Hx _]).
    unfold get_next_data_record_offset_step, st. rewrite (to_count _ _ Ht), length_fmap.
    rewrite decide_True by (rewrite E, length_app; cbn; lia).
    rewrite Hr, res_bind_ret, ie_id_mk, ie_length_mk by by apply wire_id_u16.
    by rewrite (field_extent16_at l x r E), res_bind_ret, Hi, Hc.
  - apply loop_exit. unfold get_next_data_record_offset_step, st.
    rewrite (to_count _ _ Ht), length_fmap. by rewrite decide_False by lia.
  - lia.
Qed.

Lemma data_record_length_at :
  data_record_length mem (blen pre) t = Ok (blen (enc_data d)).
Proof.
  pose proof (to_wf _ _ Ht) as Hwf. pose proof (to_min _ _ Ht) as Hmin.
  unfold data_record_length. rewrite (to_data_length _ _ Ht).
  pose proof (spec_data_length_flag _ Hwf Hmin) as Hflag. case_decide as Hv.
  - apply Hflag in Hv. destruct (fixed_record d Hd Hv) as (El & Em & _).
    unfold spec_data_length. rewrite Hv, Em, Z.add_0_r, <-El.
    rewrite u16_small; [done|]. pose proof (blen_nonneg (enc_data d)). lia.
  - rewrite (to_count _ _ Ht), Nat2Z.id, length_fmap. apply (loop_over _ d st).
    + intros l x r E. destruct (row_index_step l x r E) as (Hc & Hi).
      destruct (template_row_decoded t d Ht Hd l x r E) as (Hr & _ & [Hx _]).
      unfold data_record_length_step, st. rewrite (to_count _ _ Ht), length_fmap.
      rewrite decide_True by (rewrite E, length_app; cbn; lia).
      rewrite Hr, res_bind_ret, ie_id_mk, ie_length_mk by by apply wire_id_u16.
      rewrite Hi, Hc. clear Hi. pose proof (field_extent16_at l x r E) as Hext.
      case_decide as Hl; [|by rewrite Hext, res_bind_ret].
      unfold field_extent16 in Hext. rewrite decide_False in Hext by (unfold VAR_IE_LENGTH; lia).
      by rewrite Hext, res_bind_ret.
    + apply loop_exit. unfold data_record_length_step, st.
      rewrite (to_count _ _ Ht), length_fmap. by rewrite decide_False by lia.
    + lia.
Qed.
End record_length.

(** ** Data sets *)

(** The content of a data set and the set itself. *)
Definition enc_records (ds : list (list datum)) : bytes := mjoin (enc_data <$> ds).
Definition set_length (ds : list (list datum)) (padding : bytes) : Z :=
  4 + blen (enc_records ds) + blen padding.
Definition enc_data_set (sid : Z) (ds : list (list datum)) (padding : bytes) : bytes :=
  enc16 sid ++ enc16 (set_length ds padding) ++ enc_records ds ++ padding.

Record data_set_of (t : ipfix_template) (fs : list field_spec) (ds : list (list datum))
    (padding : bytes) : Prop := {
  so_template : template_of t fs;
  so_records : Forall (λ d, Forall datum_wf d ∧ d.*1 = fs) ds;
  so_padding : blen padding < spec_min_length fs;
  so_min : spec_min_length fs < 32768;
  so_length : set_length ds padding < 65536
}.

(** A callback run on every record of a set, in order; [size] is the length of a
    record. *)
Fixpoint process_all {X D} (size : X → Z) (processor : Z → Z → D → res D) (p : Z) (xs : list X)
    (st : D) : res D :=
  match xs with
  | [] => Ok st
  | x :: xs => st ← processor p (size x) st;
               process_all size processor (p + size x) xs st
  end.

(** The addresses of the records. *)
Fixpoint record_addresses (p : Z) (ds : list (list datum)) : list Z :=
  match ds with
  | [] => []
  | d :: ds => p :: record_addresses (p + blen (enc_data d)) ds
  end.

Section data_sets.
Context (t : ipfix_template) (fs : list field_spec) (sid : Z) (pre post : bytes).
Implicit Types (ds : list (list datum)).

Lemma enc_records_app ds1 ds2 : enc_records (ds1 ++ ds2) = enc_records ds1 ++ enc_records ds2.
Proof. unfold enc_records. by rewrite fmap_app, join_app. Qed.

Lemma enc_records_snoc ds d : blen (enc_records (ds ++ [d])) = blen (enc_records ds) + blen (enc_data d).
Proof.
  rewrite enc_records_app, blen_app. change (enc_records [d]) with (enc_data d ++ []).
  by rewrite app_nil_r.
Qed.

Lemma rd_set_length ds padding : data_set_of t fs ds padding →
  rd16 (pre ++ enc_data_set sid ds padding ++ post) (blen pre + 2) = Ok (set_length ds padding).
Proof.
  intros Hs. unfold enc_data_set. rewrite <-!app_assoc, (app_assoc pre).
  replace (blen pre + 2) with (blen (pre ++ enc16 sid)) by (rewrite blen_app, blen_enc16; lia).
  apply rd16_here. pose proof (so_length _ _ _ _ Hs). unfold is_u16. split; [|done].
  unfold set_length. pose proof (blen_nonneg (enc_records ds)). pose proof (blen_nonneg padding). lia.
Qed.

Lemma record_at l d r padding :
  data_set_of t fs (l ++ d :: r) padding →
  let ds := l ++ d :: r in
  let mem := pre ++ enc_data_set sid ds padding ++ post in
  let p := blen pre + (4 + blen (enc_records l)) in
  set_length ds padding - (4 + blen (enc_records l)) - spec_min_length fs >= 0 ∧
  0 < blen (enc_data d) ∧
  4 + blen (enc_records l) + blen (enc_data d) ≤ set_length ds padding ∧
  data_record_length mem p t = Ok (blen (enc_data d)) ∧
  get_next_data_record_offset mem p (Some t) = Ok (blen (enc_data d)).
Proof.
  intros [Ht Hrec Hpad Hmin Hlen] ds mem p.
  apply Forall_app in Hrec as [_ [ [Hd Hfs] Hr]%Forall_cons].
  pose proof (enc_data_min d Hd) as Hdm. rewrite Hfs in Hdm.
  assert (blen (enc_records ds) = blen (enc_records l) + blen (enc_data d) + blen (enc_records r)) as Hb.
  { subst ds. change (d :: r) with ([d] ++ r).
    rewrite app_assoc, (enc_records_app (l ++ [d])), (blen_app (enc_records (l ++ [d]))).
    by rewrite enc_records_snoc. }
  pose proof (blen_nonneg padding). pose proof (blen_nonneg (enc_records r)).
  pose proof (blen_nonneg (enc_records l)).
  change (set_length (l ++ d :: r) padding) with (set_length ds padding) in *.
  unfold set_length in *.
  assert (mem = ((pre ++ enc16 sid ++ enc16 (set_length ds padding)) ++ enc_records l) ++
                enc_data d ++ (enc_records r ++ padding ++ post) ∧
          p = blen ((pre ++ enc16 sid ++ enc16 (set_length ds padding)) ++ enc_records l)) as [-> ->].
  { split.
    - subst mem ds. unfold enc_data_set. rewrite (enc_records_app l).
      change (enc_records (d :: r)) with (enc_data d ++ enc_records r). by rewrite <-!app_assoc.
    - subst p. rewrite !blen_app, !blen_enc16. lia. }
  rewrite <-Hfs in Ht. split_and!; [lia..| |].
  - apply data_record_length_at; [done..|lia].
  - apply get_next_data_record_offset_at; [done..|lia].
Qed.

Lemma set_end ds padding : data_set_of t fs ds padding →
  ¬ set_length ds padding - (4 + blen (enc_records ds)) - spec_min_length fs >= 0.
Proof. intros [_ _ ? _ _]. unfold set_length. lia. Qed.

Lemma records_count_octets ds padding : data_set_of t fs ds padding →
  Z.of_nat (length ds) ≤ blen (enc_records ds).
Proof.
  intros [_ Hrec Hpad _ Hlen]. pose proof (blen_nonneg padding). clear Hlen.
  induction Hrec as [|d ds [Hd Hfs] _ IH]; [done|].
  change (enc_records (d :: ds)) with (enc_data d ++ enc_records ds). rewrite blen_app.
  pose proof (enc_data_min d Hd) as Hdm. rewrite Hfs in Hdm. cbn [length]. lia.
Qed.

Lemma records_count ds padding : data_set_of t fs ds padding → Z.of_nat (length ds) < 65532.
Proof.
  intros Hs. pose proof (records_count_octets ds padding Hs). pose proof (so_length _ _ _ _ Hs) as Hlen.
  unfold set_length in Hlen. pose proof (blen_nonneg padding). lia.
Qed.

Lemma records_fuel ds padding : data_set_of t fs ds padding → (length ds < data_set_fuel)%nat.
Proof. intros H%records_count. unfold data_set_fuel. lia. Qed.

Lemma set_min_length_spec ds padding : data_set_of t fs ds padding →
  set_min_length t = spec_min_length fs ∧ set_min_length16 t = spec_min_length fs.
Proof.
  intros [Ht _ _ Hmin _]. pose proof (to_wf _ _ Ht) as Hwf.
  pose proof (spec_min_length_range fs Hwf) as Hr.
  pose proof (spec_data_length_flag fs Hwf ltac:(lia)) as Hflag.
  unfold set_min_length, set_min_length16. rewrite (to_data_length _ _ Ht).
  assert (u16 (spec_data_length fs) = spec_min_length fs) as ->.
  { unfold spec_data_length, u16. destruct (has_variable fs).
    - change 0x80000000 with (32768 * 65536). rewrite Z_mod_plus_full. apply Z.mod_small. lia.
    - rewrite Z.add_0_r. apply Z.mod_small. lia. }
  split.
  - case_decide as Hv; unfold spec_data_length in *; destruct (has_variable fs).
    + rewrite land_0x7fff. change 0x80000000 with (65536 * 32768). rewrite Z_mod_plus_full.
      apply Z.mod_small. lia.
    + destruct Hv. by apply Hflag.
    + destruct (decide (Z.land (spec_min_length fs + 0x80000000) 0x80000000 = 0)) as [Hz|];
        [|done]. by apply Hflag in Hz.
    + lia.
  - rewrite decide_False; [done|]. rewrite land_enterprise by (unfold is_u16; lia). lia.
Qed.
End data_sets.

Section data_set_walks.
Context (t : ipfix_template) (fs : list field_spec) (sid : Z) (pre post : bytes).
Context (ds : list (list datum)) (padding : bytes) (Hs : data_set_of t fs ds padding).
Let mem := pre ++ enc_data_set sid ds padding ++ post.

Lemma process_records_loop {D} (processor : Z → Z → D → res D) : ∀ r l fuel st,
  ds = l ++ r → (length r < fuel)%nat →
  loop (data_set_process_records_step mem (blen pre) (set_length ds padding)
          (spec_min_length fs) t processor) fuel
       (4 + blen (enc_records l), Z.of_nat (length l), st)
  = (st ← process_all (λ d, blen (enc_data d)) processor (blen pre + (4 + blen (enc_records l))) r st;
     Ok (Z.of_nat (length ds), st)).
Proof.
  pose proof (blen_nonneg padding) as Hpos. pose proof (so_length _ _ _ _ Hs) as Hlen.
  induction r as [|d r IH]; intros l [|fuel] st E Hf; cbn [length] in Hf; try lia;
    cbn [loop process_all]; unfold data_set_process_records_step at 1.
  - rewrite app_nil_r in E. subst l. rewrite decide_False by exact (set_end t fs ds padding Hs). done.
  - pose proof Hs as Hs'. rewrite E in Hs'.
    pose proof (record_at t fs sid pre post l d r padding Hs') as Hat. cbv zeta in Hat.
    rewrite <-E in Hat, Hs'. fold mem in Hat. destruct Hat as (Hge & Hpos' & Hle & Hl & _).
    pose proof (blen_nonneg (enc_records l)).
    rewrite decide_True, Hl, res_bind_ret by done.
    destruct (processor _ _ _) as [st'| |]; [|done..]. rewrite !res_bind_ret.
    pose proof (records_count t fs _ padding Hs') as Hc.
    rewrite E, length_app in Hc. cbn [length] in Hc.
    rewrite u32_small, u16_small by lia.
    replace (4 + blen (enc_records l) + blen (enc_data d)) with (4 + blen (enc_records (l ++ [d])))
      by (rewrite enc_records_snoc; lia).
    replace (Z.of_nat (length l) + 1) with (Z.of_nat (length (l ++ [d])))
      by (rewrite length_app; cbn; lia).
    rewrite IH by (by rewrite <-?app_assoc || lia). do 2 f_equal.
    rewrite enc_records_snoc. lia.
Qed.
End data_set_walks.

(** *** Reading and writing a value *)

Section values.
Implicit Types (l r : list datum).

Lemma value_place pre l x r post :
  pre ++ enc_data (l ++ x :: r) ++ post
  = ((pre ++ enc_data l) ++ length_prefix x) ++ dv_bytes x.2 ++ enc_data r ++ post ∧
  blen pre + (blen (enc_data l) + blen (length_prefix x))
  = blen ((pre ++ enc_data l) ++ length_prefix x).
Proof.
  rewrite enc_data_split, !blen_app. split; [by rewrite <-!app_assoc|lia].
Qed.
End values.

(** The cached offsets are those a search would give, and there are none for a
    template with fields of variable length. *)
Definition cache_ok (t : ipfix_template) : Prop :=
  ∀ i o b, offsets t !! i = Some (o, b) → o > 0 →
    ∃ id, offset_ids !! i = Some id ∧ ∀ mem rec, data_record_field_offset mem rec t 0 id = Ok (o, b).

Section cache.
Implicit Types (t : ipfix_template).

Lemma data_record_field_offset_set_offsets mem rec t o e id :
  data_record_field_offset mem rec (set_offsets t o) e id = data_record_field_offset mem rec t e id.
Proof. done. Qed.

Lemma offset_index_lookup id i : offset_index id = i → i ≠ OF_COUNT → offset_ids !! i = Some id.
Proof.
  unfold offset_index. intros <-. destruct (list_find _ _) as [ [i x]|] eqn:E; [|done].
  apply list_find_Some in E as (E & -> & _). done.
Qed.

Lemma offset_ids_inj i j id : offset_ids !! i = Some id → offset_ids !! j = Some id → i = j.
Proof.
  assert (NoDup offset_ids) as Hnd by (apply (bool_decide_unpack (NoDup offset_ids)); by vm_compute).
  intros. by eapply NoDup_lookup.
Qed.

Lemma cache_ok_fixed_offset mem rec mem' rec' t e id :
  Z.land (data_length t) 0x80000000 = 0 →
  data_record_field_offset mem rec t e id = data_record_field_offset mem' rec' t e id.
Proof.
  intros E. unfold data_record_field_offset, data_record_field_next_offset. by rewrite !decide_True.
Qed.

Lemma cache_ok_store t i id o b :
  cache_ok t → offset_ids !! i = Some id →
  (∀ mem rec, data_record_field_offset mem rec t 0 id = Ok (o, b)) →
  cache_ok (set_offsets t (<[i := (o, b)]> (offsets t))).
Proof.
  intros Hc Hi Ho j o' b'. cbn [offsets set_offsets]. intros Hj Hpos.
  destruct (decide (j = i)) as [->|].
  - exists id. split; [done|]. intros. rewrite data_record_field_offset_set_offsets.
    destruct (decide (i < length (offsets t))%nat).
    + rewrite list_lookup_insert_eq in Hj by done. simplify_eq. apply Ho.
    + apply lookup_lt_Some in Hj. rewrite length_insert in Hj. lia.
  - rewrite list_lookup_insert_ne in Hj by done. destruct (Hc _ _ _ Hj Hpos) as (id' & ? & Hx).
    by exists id'.
Qed.
End cache.

Lemma cache_ok_empty t : offsets t = replicate OF_COUNT (-1, None) → cache_ok t.
Proof. intros E i o b. rewrite E. intros [? _]%lookup_replicate. simplify_eq. lia. Qed.

(** A parsed template is the template of its specifiers. *)
Lemma spec_template_of type tid scope fs now :
  Forall field_wf fs → Forall (λ f, fs_enterprise f ≠ Some 0) fs →
  spec_min_length fs < 0x80000000 → fields_size fs < 65536 →
  template_of (spec_template type tid scope fs now) fs.
Proof. by split. Qed.

(** An example: an address, a name of variable length, a port. *)
Definition template_example : ipfix_template :=
  spec_template TM_TEMPLATE 258 0 fields_example 1000.
Definition value (v : bytes) : dvalue := {| dv_long := false; dv_bytes := v |}.
Definition record_example (addr name port : bytes) : list datum :=
  zip fields_example [value addr; value name; value port].

Lemma template_example_of : template_of template_example fields_example.
Proof.
  apply spec_template_of; [exact fields_example_wf|by repeat constructor|done..].
Qed.

Lemma record_example_wf addr name port :
  blen addr = 4 → blen name < 255 → blen port = 2 →
  Forall datum_wf (record_example addr name port).
Proof.
  intros. repeat constructor; cbn; unfold is_u32; try lia; try done.
Qed.

(** C27: a field is found where it is: in a data record at any place of a packet,
    the search for (enterprise, id) gives the offset and the length of the value
    of the first such field, in records of fixed and of variable length (short and
    long form of the length), and -1 when the template has no such field. *)
Theorem data_record_field_offset_finds t d pre post enterprise id :
  template_of t d.*1 → Forall datum_wf d →
  let mem := pre ++ enc_data d ++ post in
  match find_split (λ x, field_is enterprise id x.1) d with
  | Some (l, x) =>
      ∃ o, data_record_field_offset mem (blen pre) t enterprise id = Ok (o, Some (blen (dv_bytes x.2))) ∧
           0 ≤ o ∧ rdn mem (blen pre + o) (blen (dv_bytes x.2)) = Ok (dv_bytes x.2)
  | None => data_record_field_offset mem (blen pre) t enterprise id = Ok (-1, None)
  end.
Proof.
  intros Ht Hd mem. pose proof (data_record_field_offset_at t d pre post Ht Hd enterprise id) as H.
  unfold value_at in H. destruct (find_split _ d) as [ [l x]|] eqn:E; [|done].
  destruct (find_split_Some _ _ _ _ E) as (r & -> & _ & _).
  eexists. split; [exact H|]. destruct (value_place pre l x r post) as [Em Ep].
  pose proof (blen_nonneg (enc_data l)). pose proof (blen_nonneg (length_prefix x)).
  split; [lia|]. unfold mem. rewrite Em, Ep. apply rdn_here.
Qed.

(** Writing a field replaces the value of the first such field and nothing
    else: the record afterwards is the record with that one value exchanged. *)
Lemma data_record_set_field_updates t l x r pre post enterprise id v rest :
  let d := l ++ x :: r in
  template_of t d.*1 → Forall datum_wf d →
  field_is enterprise id x.1 → Forall (λ y, ¬ field_is enterprise id y.1) l →
  blen v = blen (dv_bytes x.2) →
  data_record_set_field (pre ++ enc_data d ++ post) (blen pre) t enterprise id (v ++ rest)
  = Ok (pre ++ enc_data (l ++ (x.1, {| dv_long := dv_long x.2; dv_bytes := v |}) :: r) ++ post).
Proof.
  intros d Ht Hd Hx Hl Hv. unfold data_record_set_field.
  rewrite (data_record_field_offset_at t d pre post Ht Hd), res_bind_ret. unfold value_at.
  assert (find_split (λ y, field_is enterprise id y.1) d = Some (l, x)) as ->
    by (by apply (find_split_first (λ y : datum, field_is enterprise id y.1))).
  destruct (value_place pre l x r post) as [Em Ep]. subst d. rewrite Em, Ep.
  pose proof (blen_nonneg (enc_data l)). pose proof (blen_nonneg (length_prefix x)).
  rewrite decide_True by lia. cbn [default Datatypes.id]. rewrite <-Hv.
  pose proof (rdn_here [] v rest) as Hr. cbn [app] in Hr. change (blen []) with 0 in Hr.
  rewrite Hr, res_bind_ret, wrn_here by done.
  f_equal. set (x' := (x.1, _)).
  destruct (value_place pre l x' r post) as [-> _].
  replace (length_prefix x') with (length_prefix x); [done|].
  unfold length_prefix. cbn [fst snd x' dv_long dv_bytes]. by rewrite Hv.
Qed.

(** The cache of offsets in a template is transparent: with a sound cache a
    look-up returns what a search of the record returns, and leaves a template
    that differs in its cache only, which is sound again. *)
Lemma data_record_get_field_cache mem rec t enterprise id want_length :
  cache_ok t →
  fst <$> data_record_get_field mem rec t enterprise id want_length
  = (λ '(o, len), (if decide (o < 0) then None else Some (rec + o),
                   if want_length then len else None))
    <$> data_record_field_offset mem rec t enterprise id ∧
  ∀ x t', data_record_get_field mem rec t enterprise id want_length = Ok (x, t') →
    cache_ok t' ∧ t' = set_offsets t (offsets t').
Proof.
  intros Hc. unfold data_record_get_field.
  assert (t = set_offsets t (offsets t)) as Ht by by destruct t.
  destruct (data_record_field_offset mem rec t enterprise id) as [ [o len]|f|] eqn:Eo;
    cbn [fmap res_fmap].
  all: destruct (if decide (enterprise = 0) then offsets t !! _ else None) as [ [o' b']|] eqn:Ec;
    [destruct (decide (o' > 0)) as [Hpos|Hpos];
      [destruct (decide (enterprise = 0)) as [->|]; [|done];
       destruct (Hc _ _ _ Ec Hpos) as (id' & Hid & Hfo)|]|].
  1,4,7: rewrite (offset_index_lookup id _ eq_refl) in Hid by
      (intros Ei; rewrite Ei in Hid; done); simplify_eq; rewrite Hfo in Eo; simplify_eq.
  - rewrite decide_False by lia. split; [done|]. intros x t' [= <- <-]. done.
  - rewrite res_bind_ret. destruct (decide (o < 0)).
    + split; [done|]. intros x t' [= <- <-]. done.
    + destruct (decide (enterprise = 0)) as [->|]; [|done].
      case_decide as Hst; (split; [done|]); intros x t' Heq; simplify_eq; [|done].
      destruct Hst as (Hi & -> & Hfix). split; [|done].
      apply (cache_ok_store t _ id); [done|by apply offset_index_lookup|].
      intros. rewrite <-Eo. by apply cache_ok_fixed_offset.
  - rewrite res_bind_ret. destruct (decide (o < 0)); (split; [done|]); intros x t' [= <- <-]; done.
  - done.
  - done.
  - done.
  - done.
Qed.

Lemma data_record_field_offset_finds_witness :
  let d := record_example [10; 0; 0; 1] [97; 98] [0; 80] in
  let mem := [7] ++ enc_data d ++ [9] in
  (∃ o, data_record_field_offset mem 1 template_example 8057 33 = Ok (o, Some 2) ∧
        0 ≤ o ∧ rdn mem (1 + o) 2 = Ok [97; 98]) ∧
  data_record_field_offset mem 1 template_example 0 33 = Ok (-1, None).
Proof.
  split.
  - apply (data_record_field_offset_finds template_example
      (record_example [10; 0; 0; 1] [97; 98] [0; 80]) [7] [9] 8057 33);
      [exact template_example_of|by apply record_example_wf].
  - apply (data_record_field_offset_finds template_example
      (record_example [10; 0; 0; 1] [97; 98] [0; 80]) [7] [9] 0 33);
      [exact template_example_of|by apply record_example_wf].
Defined.

(** *** Walking a data set *)

Lemma data_set_records_all {D} t fs sid pre post ds padding
    (processor : Z → Z → D → res D) (st : D) :
  data_set_of t fs ds padding →
  data_set_process_records data_set_fuel (pre ++ enc_data_set sid ds padding ++ post) (blen pre)
    t processor st
  = (st ← process_all (λ d, blen (enc_data d)) processor (blen pre + 4) ds st; Ok (Z.of_nat (length ds), st)).
Proof.
  intros Hs. unfold data_set_process_records.
  rewrite (rd_set_length t fs), res_bind_ret by done.
  destruct (set_min_length_spec t fs ds padding Hs) as [-> _].
  exact (process_records_loop t fs sid pre post ds padding Hs processor ds [] data_set_fuel st
    eq_refl (records_fuel t fs ds padding Hs)).
Qed.

(** C33: [data_set_process_records] runs the callback on every record of the set
    exactly once, in order, with the address and the length of the record, stops
    in front of the padding, and returns the number of records. *)
Theorem data_set_process_records_each {D} t fs sid pre post ds padding
    (processor : Z → Z → D → res D) (st : D) :
  data_set_of t fs ds padding →
  data_set_process_records data_set_fuel (pre ++ enc_data_set sid ds padding ++ post) (blen pre)
    t processor st
  = (st ← process_all (λ d, blen (enc_data d)) processor (blen pre + 4) ds st; Ok (Z.of_nat (length ds), st)).
Proof. apply data_set_records_all. Qed.

Lemma process_all_no_processor p ds : process_all (λ d, blen (enc_data d)) no_processor p ds () = Ok ().
Proof. revert p. induction ds as [|d ds IH]; intros p; [done|]. apply IH. Qed.

Lemma no_processor_count t fs sid pre post ds padding :
  data_set_of t fs ds padding →
  data_set_process_records data_set_fuel (pre ++ enc_data_set sid ds padding ++ post) (blen pre)
    t no_processor () = Ok (Z.of_nat (length ds), ()).
Proof. intros Hs. rewrite (data_set_records_all t fs) by done. by rewrite process_all_no_processor. Qed.

(** The records of a fixed-length template have all the same length. *)
Lemma fixed_records_length t fs ds padding : data_set_of t fs ds padding →
  has_variable fs = false → blen (enc_records ds) = spec_min_length fs * Z.of_nat (length ds).
Proof.
  intros [_ Hrec _ _ _] Hv. induction Hrec as [|d ds [Hd Hfs] _ IH]; [rewrite Z.mul_0_r; done|].
  change (enc_records (d :: ds)) with (enc_data d ++ enc_records ds). rewrite blen_app, IH.
  rewrite <-Hfs in Hv. destruct (fixed_record d Hd Hv) as (-> & Hm & _). rewrite Hfs in *.
  rewrite <-Hm. cbn [length]. lia.
Qed.

(** The number of records that [data_set_records_count] gives is right for
    templates with a field of variable length; for the others it divides the
    length of the whole set, header and padding included, so it is too large by
    [(4 + padding) / record length]: a set of records of at most four octets, or
    with padding, is over-counted. *)
Lemma data_set_records_count_spec t fs sid pre post ds padding :
  data_set_of t fs ds padding →
  data_set_records_count (pre ++ enc_data_set sid ds padding ++ post) (blen pre) t
  = Ok (Z.of_nat (length ds) +
        if has_variable fs then 0 else (4 + blen padding) / spec_min_length fs).
Proof.
  intros Hs. unfold data_set_records_count. pose proof Hs as [Ht Hrec Hpad Hmin Hlen].
  pose proof (to_wf _ _ Ht) as Hwf. pose proof (blen_nonneg padding).
  pose proof (spec_data_length_flag fs Hwf ltac:(lia)) as Hflag.
  rewrite (to_data_length _ _ Ht). destruct (has_variable fs) eqn:Hv.
  - rewrite decide_True by (intros Hz; by apply Hflag in Hz).
    rewrite (no_processor_count t fs) by done. cbn. by rewrite Z.add_0_r.
  - rewrite decide_False by (intros Hz; apply Hz; by apply Hflag).
    rewrite (rd_set_length t fs), res_bind_ret by done.
    unfold spec_data_length. rewrite Hv, Z.add_0_r, decide_False by lia. f_equal.
    unfold set_length. rewrite (fixed_records_length t fs ds padding Hs Hv).
    replace (4 + _ + _) with (Z.of_nat (length ds) * spec_min_length fs + (4 + blen padding)) by lia.
    by rewrite Z.div_add_l by lia.
Qed.

(** A template whose records have no octets (all its fields have length
    zero) makes the walk over any data set endless, whatever the fuel, and the
    count of records divide by zero. *)
Lemma zero_length_records_diverge t mem set set_len :
  data_length t = 0 → rd16 mem (set + 2) = Ok set_len → 4 ≤ set_len →
  (∀ fuel, data_set_process_records fuel mem set t no_processor () = OutOfFuel) ∧
  data_set_records_count mem set t = Fault DivByZero.
Proof.
  intros E Hr Hl. split.
  - intros fuel. unfold data_set_process_records. rewrite Hr, res_bind_ret.
    apply (loop_diverges _ (λ s : Z * Z * (), s.1.1 = 4)); [|done].
    intros [ [o c] d]; cbn [fst]. intros ->. unfold data_set_process_records_step, set_min_length.
    rewrite E. change (Z.land 0 0x80000000) with 0. rewrite (decide_False (P := 0 ≠ 0)) by lia.
    rewrite decide_True by lia. unfold data_record_length. rewrite E.
    change (Z.land 0 0x80000000) with 0. rewrite decide_True by done.
    rewrite !res_bind_ret. by eexists.
  - unfold data_set_records_count. rewrite E, Hr. done.
Qed.

Section get_records.
Context (t : ipfix_template) (fs : list field_spec) (sid : Z) (pre post : bytes).
Context (ds : list (list datum)) (padding : bytes) (Hs : data_set_of t fs ds padding).
Let mem := pre ++ enc_data_set sid ds padding ++ post.

Lemma get_records_loop : ∀ r l addrs fuel,
  ds = l ++ r → (length r < fuel)%nat → length addrs = length l →
  (Z.of_nat (length l) ≤ MSG_MAX_DATA_COUPLES) →
  loop (get_data_records_step mem (blen pre) (set_length ds padding) t) fuel
       (4 + blen (enc_records l), addrs)
  = if decide (Z.of_nat (length ds) ≤ MSG_MAX_DATA_COUPLES)
    then Ok (addrs ++ record_addresses (blen pre + (4 + blen (enc_records l))) r)
    else Fault OobWrite.
Proof.
  destruct (set_min_length_spec t fs ds padding Hs) as [_ Hm].
  pose proof (blen_nonneg padding) as Hpos. pose proof (so_length _ _ _ _ Hs) as Hlen.
  induction r as [|d r IH]; intros l addrs [|fuel] E Hf Ha Hle; cbn [length] in Hf; try lia;
    cbn [loop record_addresses]; unfold get_data_records_step at 1; rewrite Hm.
  - rewrite app_nil_r in *. subst l. rewrite decide_False by exact (set_end t fs ds padding Hs).
    by rewrite decide_True.
  - pose proof Hs as Hs'. rewrite E in Hs'.
    pose proof (record_at t fs sid pre post l d r padding Hs') as Hat. cbv zeta in Hat.
    rewrite <-E in Hat, Hs'. fold mem in Hat. destruct Hat as (Hge & Hpos' & Hle' & _ & Hl).
    pose proof (blen_nonneg (enc_records l)).
    rewrite decide_True by done. pose proof (f_equal length E) as El.
    rewrite length_app in El. cbn [length] in El. destruct (decide (Z.of_nat (length addrs) >= _)).
    + by rewrite decide_False by lia.
    + rewrite Hl, res_bind_ret, u32_small by lia.
      replace (4 + blen (enc_records l) + blen (enc_data d)) with (4 + blen (enc_records (l ++ [d])))
        by (rewrite enc_records_snoc; lia).
      rewrite IH; [|by rewrite <-app_assoc|lia|rewrite !length_app; cbn; lia|rewrite length_app; cbn; lia].
      case_decide; [|done]. f_equal. rewrite <-app_assoc. cbn [app]. do 3 f_equal.
      rewrite enc_records_snoc. lia.
Qed.

(** [get_data_records] returns the addresses of all records of a set of at
    most 1023 records; a longer set makes it write behind its array. *)
Lemma get_data_records_at :
  get_data_records mem (blen pre) t
  = if decide (Z.of_nat (length ds) ≤ MSG_MAX_DATA_COUPLES)
    then Ok (record_addresses (blen pre + 4) ds) else Fault OobWrite.
Proof using Hs.
  unfold get_data_records, mem. rewrite (rd_set_length t fs), res_bind_ret by done.
  apply (get_records_loop ds [] [] data_set_fuel eq_refl
    (records_fuel t fs ds padding Hs) eq_refl). unfold MSG_MAX_DATA_COUPLES. cbn. lia.
Qed.
End get_records.

(** The port and the address of a flow, both of fixed length, twice. *)
Definition fixed_fields_example : list field_spec :=
  [ {| fs_id := 7; fs_length := 2; fs_enterprise := None |} ].
Definition fixed_template_example : ipfix_template :=
  spec_template TM_TEMPLATE 259 0 fixed_fields_example 1000.
Definition fixed_records_example : list (list datum) :=
  [zip fixed_fields_example [value [0; 80] ]; zip fixed_fields_example [value [1; 187] ] ].
Definition records_example : list (list datum) :=
  [record_example [10; 0; 0; 1] [97; 98] [0; 80]; record_example [10; 0; 0; 2] [] [0; 81] ].

Lemma records_example_of : data_set_of template_example fields_example records_example [0; 0].
Proof.
  split; [exact template_example_of| |reflexivity..].
  repeat constructor; cbn; unfold is_u32; try lia; done.
Qed.

Lemma fixed_records_example_of :
  data_set_of fixed_template_example fixed_fields_example fixed_records_example [].
Proof.
  split; [|repeat constructor; cbn; unfold is_u32; try lia; done|reflexivity..].
  apply spec_template_of; [|by repeat constructor|done..].
  repeat constructor; cbn; lia.
Qed.

Lemma data_set_process_records_each_witness :
  data_set_process_records data_set_fuel
    ([7] ++ enc_data_set 258 records_example [0; 0] ++ [9]) 1 template_example
    (λ rec len acc, Ok (acc ++ [(rec, len)])) []
  = Ok (2, [(5, 9); (14, 7)]).
Proof.
  refine (eq_trans (data_set_process_records_each template_example fields_example 258 [7] [9]
    records_example [0; 0] (λ rec len acc, Ok (acc ++ [(rec, len)])) [] records_example_of) _).
  reflexivity.
Defined.

(** *** Comparing templates *)

#[export] Instance field_spec_eq_dec : EqDecision field_spec.
Proof. solve_decision. Defined.

Section compare.
Context (fs1 fs2 : list field_spec).
Context (Hwf1 : Forall field_wf fs1) (Hwf2 : Forall field_wf fs2).
Context (Hlen : length fs1 = length fs2) (Hsize : fields_size fs1 < 65404).

Lemma compare_rows f1 f2 : field_wf f1 → field_wf f2 →
  wire_id f1 = wire_id f2 → fs_length f1 = fs_length f2 → fs_enterprise f1 = fs_enterprise f2 →
  f1 = f2.
Proof.
  destruct f1 as [i1 l1 e1], f2 as [i2 l2 e2]. unfold wire_id. cbn.
  intros _ _ Hi -> ->. destruct e2; f_equal; lia.
Qed.

Lemma tm_compare_templates_loop : ∀ r1 r2 l fuel,
  fs1 = l ++ r1 → fs2 = l ++ r2 → (length r1 < fuel)%nat →
  loop (tm_compare_templates_step (fields_rows fs1) (fields_rows fs2)) fuel
       (nrows l, Z.of_nat (length fs1) + (nrows l - Z.of_nat (length l)))
  = Ok (if decide (r1 = r2) then 0 else 1).
Proof.
  pose proof (nrows_size fs1) as Hn. pose proof (fields_size_length fs1) as Hfl.
  induction r1 as [|f1 r1 IH]; intros r2 l [|fuel] E1 E2 Hf; cbn [length] in Hf; try lia;
    cbn [loop]; unfold tm_compare_templates_step at 1.
  - rewrite decide_False by (rewrite E1, app_nil_r; lia).
    destruct r2 as [|f2 r2]; [by rewrite decide_True|].
    rewrite E1, E2, !length_app in Hlen. cbn in Hlen. lia.
  - destruct r2 as [|f2 r2].
    { rewrite E1, E2, !length_app in Hlen. cbn in Hlen. lia. }
    pose proof Hwf1 as W1. pose proof Hwf2 as W2.
    rewrite E1 in W1. rewrite E2 in W2.
    apply Forall_app in W1 as [_ [W1 _]%Forall_cons].
    apply Forall_app in W2 as [_ [W2 _]%Forall_cons].
    pose proof (wire_id_shiftr f1 W1) as Hsh.
    rewrite decide_True by (rewrite E1, length_app; cbn; lia).
    assert (rd_row (fields_rows fs1) (nrows l) = Ok (mk_ie (wire_id f1) (fs_length f1)) ∧
            rd_row (fields_rows fs2) (nrows l) = Ok (mk_ie (wire_id f2) (fs_length f2)))
      as [-> ->] by (rewrite E1, E2; split; apply rd_row_field).
    rewrite !res_bind_ret.
    rewrite !ie_id_mk, !ie_length_mk by by apply wire_id_u16.
    destruct (decide (wire_id f1 ≠ wire_id f2 ∨ fs_length f1 ≠ fs_length f2)) as [Hne|Heq].
    { rewrite decide_False; [done|]. intros [= -> ->]. destruct Hne; done. }
    assert (wire_id f1 = wire_id f2) as Hid by lia.
    assert (fs_length f1 = fs_length f2) as Hle by lia.
    assert (nrows (l ++ [f1]) ≤ nrows fs1 ∧ 0 ≤ nrows l ∧
            Z.of_nat (length l) + 1 ≤ Z.of_nat (length fs1)) as (Hb & Hb0 & Hbl).
    { rewrite E1. replace (l ++ f1 :: r1) with ((l ++ [f1]) ++ r1) by by rewrite <-app_assoc.
      unfold nrows at 2. rewrite fields_rows_app, !length_app. unfold nrows. cbn [length]. lia. }
    rewrite nrows_snoc in Hb.
    assert (fs_enterprise f1 = fs_enterprise f2 → nrows (l ++ [f1]) = nrows (l ++ [f2])) as Hnn
      by by rewrite !nrows_snoc; intros ->.
    pose proof (wire_id_shiftr f2 W2) as Hsh2. rewrite <-Hid in Hsh2.
    assert (∀ b, b = nrows (l ++ [f1]) → f1 = f2 →
      loop (tm_compare_templates_step (fields_rows fs1) (fields_rows fs2)) fuel
        (b, Z.of_nat (length fs1) + (nrows (l ++ [f1]) - Z.of_nat (length (l ++ [f1]))))
      = Ok (if decide (f1 :: r1 = f2 :: r2) then 0 else 1)) as Hnext.
    { intros b -> ->. rewrite (IH r2 (l ++ [f2])).
      - f_equal. repeat case_decide; naive_solver.
      - by rewrite <-app_assoc.
      - by rewrite <-app_assoc.
      - lia. }
    rewrite nrows_snoc, length_app in Hnext. cbn [length] in Hnext.
    destruct (fs_enterprise f1) as [e1|] eqn:He1.
    + rewrite decide_True by (apply Hsh; by eexists).
      destruct (fs_enterprise f2) as [e2|] eqn:He2.
      2: { assert (is_Some None) as [? ?] by (apply Hsh2, Hsh; by eexists). done. }
      rewrite (u16_small (nrows l + 1)) by lia.
      assert (rd_row (fields_rows fs1) (nrows l + 1) = Ok e1 ∧
              rd_row (fields_rows fs2) (nrows l + 1) = Ok e2)
        as [-> ->] by (rewrite E1, E2; split; by apply rd_row_enterprise).
      rewrite !res_bind_ret. unfold enterprise_number. destruct (decide (e1 ≠ e2)) as [Hen|Hen].
      * rewrite decide_False; [done|]. intros [= -> ->]. congruence.
      * assert (e1 = e2) as <- by lia.
        rewrite !u16_small by lia. rewrite <-(Hnext (nrows l + 1 + 1)); [|lia|apply compare_rows; congruence].
        do 2 f_equal. lia.
    + rewrite decide_False by (intros Hx%Hsh; by destruct Hx).
      destruct (fs_enterprise f2) as [e2|] eqn:He2.
      { assert (is_Some (None : option Z)) as [? ?] by (apply Hsh, Hsh2; by eexists). done. }
      rewrite !u16_small by lia. rewrite <-(Hnext (nrows l + 1)); [|lia|apply compare_rows; congruence].
      do 2 f_equal. lia.
Qed.
End compare.

(** A template as parsed from the specifiers [fs], whatever its identifiers,
    references and times. *)
Record parsed_as (t : ipfix_template) (fs : list field_spec) : Prop := {
  pa_fields : fields t = fields_rows fs;
  pa_count : field_count t = Z.of_nat (length fs);
  pa_data_length : data_length t = spec_data_length fs;
  pa_length : template_length t = 132 + fields_size fs;
  pa_wf : Forall field_wf fs;
  pa_size : fields_size fs < 65404
}.

Lemma spec_template_parsed type tid scope fs now : Forall field_wf fs → fields_size fs < 65404 →
  parsed_as (spec_template type tid scope fs now) fs.
Proof. by constructor. Qed.

Lemma tm_compare_templates_parsed t1 t2 fs1 fs2 : parsed_as t1 fs1 → parsed_as t2 fs2 →
  tm_compare_templates t1 t2 = Ok (if decide (fs1 = fs2) then 0 else 1).
Proof.
  intros [Hf1 Hc1 Hd1 _ Hwf1 Hs1] [Hf2 Hc2 Hd2 _ Hwf2 Hs2]. unfold tm_compare_templates.
  rewrite Hf1, Hf2, Hc1, Hc2, Hd1, Hd2. case_decide as Hc.
  - rewrite decide_False; [done|]. intros ->. by destruct Hc.
  - assert (length fs1 = length fs2) as Hl by lia.
    pose proof (fields_size_length fs1). pose proof (nrows_size fs1) as Hn.
    pose proof (tm_compare_templates_loop fs1 fs2 Hwf1 Hwf2 Hl Hs1 fs1 fs2 []
      (S (length (fields_rows fs1))) eq_refl eq_refl) as H'.
    change (nrows []) with 0 in H'. rewrite Z.sub_0_r, Z.add_0_r in H'. apply H'.
    unfold nrows in Hn. assert (length fs1 ≤ length (fields_rows fs1))%nat; [|lia].
    clear. induction fs1 as [|f fs IH]; [done|].
    rewrite fields_rows_cons, length_app. unfold field_rows. cbn [length]. lia.
Qed.

(** [tm_compare_templates] decides equality of the field specifiers of two
    parsed records, enterprise numbers included, with 0 for equal ones; but not of
    the kind of the templates: a Template and an Options Template with the same
    specifiers, or two Options Templates with different scopes, compare equal. *)
Lemma tm_compare_templates_spec ty1 ty2 tid1 tid2 scope1 scope2 fs1 fs2 now1 now2 :
  Forall field_wf fs1 → Forall field_wf fs2 →
  fields_size fs1 < 65404 → fields_size fs2 < 65404 →
  tm_compare_templates (spec_template ty1 tid1 scope1 fs1 now1)
    (spec_template ty2 tid2 scope2 fs2 now2)
  = Ok (if decide (fs1 = fs2) then 0 else 1).
Proof. intros. apply tm_compare_templates_parsed; by apply spec_template_parsed. Qed.

(** *** Walking a template set *)

(** A record of a template set: identifier, scope count, specifiers. *)
Record trecord := { tr_id : Z; tr_scope : Z; tr_fields : list field_spec }.

Definition enc_trecord (type : Z) (r : trecord) : bytes :=
  enc_record type (tr_id r) (tr_scope r) (tr_fields r).
Definition enc_trecords (type : Z) (rs : list trecord) : bytes := mjoin (enc_trecord type <$> rs).
Definition template_set_length (type : Z) (rs : list trecord) (padding : bytes) : Z :=
  4 + blen (enc_trecords type rs) + blen padding.
Definition enc_template_set (type : Z) (rs : list trecord) (padding : bytes) : bytes :=
  enc16 (type + 2) ++ enc16 (template_set_length type rs padding) ++
  enc_trecords type rs ++ padding.

(** A set of definitions: no record is a withdrawal, the padding is shorter than
    a record header, and what follows the padding can be read. *)
Record template_set_of (type : Z) (rs : list trecord) (padding post : bytes) : Prop := {
  ts_type : valid_type type;
  ts_records : Forall (λ r, Forall field_wf (tr_fields r) ∧ tr_fields r ≠ []) rs;
  ts_nonempty : rs ≠ [];
  ts_padding : blen padding < 4;
  ts_post : padding = [] ∨ 10 ≤ blen post;
  ts_length : template_set_length type rs padding < 65400
}.

Section template_sets.
Context (type : Z) (pre post : bytes).
Implicit Types (rs : list trecord) (r : trecord).

Lemma enc_trecords_app rs1 rs2 :
  enc_trecords type (rs1 ++ rs2) = enc_trecords type rs1 ++ enc_trecords type rs2.
Proof. unfold enc_trecords. by rewrite fmap_app, join_app. Qed.

(** The length of one record of the set, with the room behind it as [max_len]. *)
Lemma trecord_length_at r pre' post' max_len :
  valid_type type → Forall field_wf (tr_fields r) →
  fields_size (tr_fields r) ≤ max_len → fields_size (tr_fields r) < 65400 →
  ∃ dl, tm_template_record_length (pre' ++ enc_trecord type r ++ post') (blen pre') max_len type
  = Ok (blen (enc_trecord type r), dl).
Proof.
  intros Hty Hwf Hmax Hsz. pose proof (fields_size_nonneg (tr_fields r)).
  unfold tm_template_record_length, enc_trecord.
  rewrite tm_template_length_record by (done || lia). rewrite res_bind_ret.
  rewrite (u16_small (132 + _)) by lia. rewrite decide_True by lia.
  rewrite blen_enc_record. unfold record_header_size, sizeof_ipfix_template,
    sizeof_ipfix_template_record, sizeof_ipfix_options_template_record.
  destruct Hty as [-> | ->]; [rewrite !decide_True by done|rewrite !decide_False by done];
    rewrite u16_small by lia; eexists; do 2 f_equal; lia.
Qed.

(** Padding of less than four octets is not taken for a record. *)
Lemma padding_length mem p max_len min_len :
  valid_type type → 0 ≤ p → p + 10 ≤ blen mem → max_len < 4 →
  8 ≤ min_len →
  ∃ n dl, tm_template_record_length mem p max_len type = Ok (n, dl) ∧ n < min_len.
Proof.
  intros Hty Hp Hmem Hmax Hmin. unfold tm_template_record_length, tm_template_length.
  destruct (rd16_in_bounds mem (p + 2)) as [cnt ->]; [lia..|]. rewrite res_bind_ret.
  cbn [loop]. unfold tm_template_length_step at 1.
  assert (4 ≤ fields_ptr p type - p ≤ 6) as Hfp.
  { unfold fields_ptr. case_decide; lia. }
  destruct (decide (0 < cnt)) as [Hc|Hc].
  - destruct (rd16_in_bounds mem (fields_ptr p type + 0 + 2)) as [l ->]; [lia..|].
    destruct (rd16_in_bounds mem (fields_ptr p type + 0)) as [i ->]; [lia..|].
    rewrite !res_bind_ret. rewrite (decide_True (P := _ > max_len)).
    + cbv beta iota. rewrite res_bind_ret, decide_False by lia. exists 0, None. split; [done|lia].
    + unfold TEMPLATE_FIELD_LEN, TEMPLATE_ENT_NUM_LEN. case_decide;
        [rewrite (u16_small (0 + 4)) by lia|]; rewrite u16_small; lia.
  - cbv beta iota. rewrite res_bind_ret. unfold sizeof_ipfix_template, sizeof_template_ie.
    rewrite (u16_small (136 - 4)), u16_small, decide_True by lia.
    unfold sizeof_ipfix_template_record, sizeof_ipfix_options_template_record.
    destruct Hty as [-> | ->]; [rewrite !decide_True by done|rewrite !decide_False by done];
      (eexists _, _; split; [done|]); rewrite u16_small; lia.
Qed.
End template_sets.

Section template_set_walk.
Context (type : Z) (pre post : bytes) (rs : list trecord) (padding : bytes).
Context (Hs : template_set_of type rs padding post).
Context {D : Type} (processor : Z → Z → D → res D) (min_len : Z).
Context (Hmin : 8 ≤ min_len ≤ record_header_size type + 4).
Let len := template_set_length type rs padding.
Let mem := pre ++ enc_template_set type rs padding ++ post.

Lemma template_set_split l r : rs = l ++ r →
  mem = (pre ++ enc16 (type + 2) ++ enc16 len ++ enc_trecords type l) ++
        enc_trecords type r ++ padding ++ post ∧
  blen pre + (4 + blen (enc_trecords type l))
  = blen (pre ++ enc16 (type + 2) ++ enc16 len ++ enc_trecords type l).
Proof.
  intros E. split.
  - subst mem len. unfold enc_template_set. rewrite E at 2. rewrite enc_trecords_app.
    by rewrite <-!app_assoc.
  - rewrite !blen_app, !blen_enc16. lia.
Qed.

Lemma template_set_loop : ∀ r l fuel st,
  rs = l ++ r → (length r < fuel)%nat → Z.of_nat (length l) + 4 ≤ 4 + blen (enc_trecords type l) →
  loop (template_set_process_records_step mem (blen pre + len) type min_len processor) fuel
       (blen pre + (4 + blen (enc_trecords type l)), Z.of_nat (length l), st)
  = (st ← process_all (λ r, blen (enc_trecord type r)) processor
            (blen pre + (4 + blen (enc_trecords type l))) r st;
     Ok (Z.of_nat (length rs), st)).
Proof.
  pose proof Hs as [Hty Hrec _ Hpad Hpost Hlen]. pose proof (blen_nonneg padding) as Hpp.
  fold len in Hlen.
  induction r as [|x r IH]; intros l [|fuel] st E Hf Hl; cbn [length] in Hf; try lia;
    cbn [loop process_all]; unfold template_set_process_records_step at 1;
    destruct (template_set_split l _ E) as [Em Ep].
  - rewrite app_nil_r in E. subst l.
    assert (len = 4 + blen (enc_trecords type rs) + blen padding) as Elen by done.
    destruct Hpost as [Hpn|Hpost].
    + rewrite decide_False; [done|]. rewrite Hpn in Elen. change (blen []) with 0 in Elen. lia.
    + case_decide; [|done].
      destruct (padding_length type mem (blen pre + (4 + blen (enc_trecords type rs)))
        (u16 (blen pre + len - (blen pre + (4 + blen (enc_trecords type rs))))) min_len)
        as (n & dl & -> & Hn); [done|pose proof (blen_nonneg pre); lia| | |lia|].
      * rewrite Em, Ep, !(blen_app _ (_ ++ _ ++ _)), !blen_app.
        change (blen (enc_trecords type [])) with 0. lia.
      * rewrite u16_small; lia.
      * rewrite res_bind_ret. cbn [fst]. by rewrite decide_True by lia.
  - pose proof Hrec as Hr. rewrite E in Hr. apply Forall_app in Hr as [_ [ [Hx Hne] _]%Forall_cons].
    change (x :: r) with ([x] ++ r) in Em. rewrite enc_trecords_app in Em.
    change (enc_trecords type [x]) with (enc_trecord type x ++ []) in Em.
    rewrite app_nil_r, <-(app_assoc (enc_trecord type x)) in Em.
    assert (len = 4 + blen (enc_trecords type l) + blen (enc_trecord type x) +
                  blen (enc_trecords type r) + blen padding) as Elen.
    { unfold len, template_set_length. rewrite E, enc_trecords_app, blen_app.
      change (enc_trecords type (x :: r)) with (enc_trecord type x ++ enc_trecords type r).
      rewrite blen_app. lia. }
    assert (blen (enc_trecord type x) = record_header_size type + fields_size (tr_fields x)) as Ex
      by apply blen_enc_record.
    pose proof (blen_nonneg (enc_trecords type r)). pose proof (blen_nonneg (enc_trecords type l)).
    pose proof (fields_size_length (tr_fields x)) as Hfl.
    assert (1 ≤ Z.of_nat (length (tr_fields x))) by (destruct (tr_fields x); [done|cbn; lia]).
    assert (4 ≤ record_header_size type ≤ 6) by (unfold record_header_size; case_decide; lia).
    rewrite decide_True by lia. rewrite Em, Ep at 1.
    destruct (trecord_length_at type x (pre ++ enc16 (type + 2) ++ enc16 len ++ enc_trecords type l)
      (enc_trecords type r ++ padding ++ post)
      (u16 (blen pre + len - (blen pre + (4 + blen (enc_trecords type l)))))) as [dl ->];
      [done|done|rewrite u16_small; lia|lia|].
    rewrite res_bind_ret. cbn [fst]. rewrite decide_False by lia.
    destruct (processor _ _ _) as [st'| |]; [|done..]. rewrite !res_bind_ret.
    assert (blen (enc_trecords type (l ++ [x])) =
            blen (enc_trecords type l) + blen (enc_trecord type x)) as Esnoc.
    { rewrite enc_trecords_app, blen_app. change (enc_trecords type [x]) with (enc_trecord type x ++ []).
      by rewrite app_nil_r. }
    rewrite u16_small by lia.
    replace (Z.of_nat (length l) + 1) with (Z.of_nat (length (l ++ [x])))
      by (rewrite length_app; cbn; lia).
    replace (blen pre + (4 + blen (enc_trecords type l)) + blen (enc_trecord type x))
      with (blen pre + (4 + blen (enc_trecords type (l ++ [x])))) by lia.
    apply IH; [by rewrite <-app_assoc|lia|rewrite length_app; cbn [length]; lia].
Qed.
End template_set_walk.

Lemma template_set_records {D} type pre post rs padding
    (processor : Z → Z → D → res D) (st : D) :
  template_set_of type rs padding post →
  template_set_process_records (pre ++ enc_template_set type rs padding ++ post) (blen pre) type
    processor st
  = (st ← process_all (λ r, blen (enc_trecord type r)) processor (blen pre + 4) rs st;
     Ok (Z.of_nat (length rs), st)).
Proof.
  intros Hs. pose proof Hs as [Hty Hrec Hne Hpad Hpost Hlen].
  pose proof (blen_nonneg padding). pose proof (blen_nonneg (enc_trecords type rs)).
  unfold template_set_process_records.
  assert (rd16 (pre ++ enc_template_set type rs padding ++ post) (blen pre + 2)
          = Ok (template_set_length type rs padding)) as ->.
  { unfold enc_template_set. rewrite <-!app_assoc, (app_assoc pre).
    replace (blen pre + 2) with (blen (pre ++ enc16 (type + 2))) by (rewrite blen_app, blen_enc16; lia).
    apply rd16_here. unfold is_u16, template_set_length in *. lia. }
  destruct rs as [|r rs']; [done|]. apply Forall_cons in Hrec as [ [Hr Hrne] _].
  pose proof (fields_size_length (tr_fields r)).
  assert (1 ≤ Z.of_nat (length (tr_fields r))) by (destruct (tr_fields r); [done|cbn; lia]).
  assert (blen (enc_trecords type (r :: rs')) = record_header_size type + fields_size (tr_fields r) +
          blen (enc_trecords type rs')) as Eb.
  { change (enc_trecords type (r :: rs')) with (enc_trecord type r ++ enc_trecords type rs').
    rewrite blen_app. unfold enc_trecord. by rewrite blen_enc_record. }
  pose proof (blen_nonneg (enc_trecords type rs')).
  assert (4 ≤ record_header_size type ≤ 6) by (unfold record_header_size; case_decide; lia).
  rewrite res_bind_ret. unfold template_set_length in Hlen |- *.
  rewrite decide_False by (rewrite u16_small; lia).
  destruct (template_set_split type pre post (r :: rs') padding [] (r :: rs') eq_refl) as [Em Ep].
  change (enc_trecords type (r :: rs')) with (enc_trecord type r ++ enc_trecords type rs') in Em.
  rewrite <-(app_assoc (enc_trecord type r)) in Em.
  change (4 + blen (enc_trecords type [])) with 4 in Ep.
  rewrite Em at 1. rewrite Ep at 1. unfold enc_trecord at 1. rewrite rd_record_count by lia.
  rewrite res_bind_ret, decide_True by lia.
  assert (∀ min_len, 8 ≤ min_len ≤ record_header_size type + 4 →
    loop (template_set_process_records_step (pre ++ enc_template_set type (r :: rs') padding ++ post)
      (blen pre + template_set_length type (r :: rs') padding) type min_len processor)
      (S (Z.to_nat (template_set_length type (r :: rs') padding))) (blen pre + 4, 0, st)
    = (st ← process_all (λ r, blen (enc_trecord type r)) processor (blen pre + 4) (r :: rs') st;
       Ok (Z.of_nat (length (r :: rs')), st))) as Hloop.
  { intros min_len Hmin.
    apply (template_set_loop type pre post (r :: rs') padding Hs processor min_len Hmin
      (r :: rs') [] _ st eq_refl); [|by vm_compute].
    assert (Z.of_nat (length (r :: rs')) ≤ blen (enc_trecords type (r :: rs'))); [|unfold template_set_length; lia].
    clear. induction (r :: rs') as [|x l IH]; [done|].
    change (enc_trecords type (x :: l)) with (enc_trecord type x ++ enc_trecords type l).
    rewrite blen_app. unfold enc_trecord. rewrite blen_enc_record.
    pose proof (fields_size_nonneg (tr_fields x)). unfold record_header_size. cbn [length].
    case_decide; lia. }
  unfold template_set_length in Hloop.
  unfold sizeof_ipfix_template_record, sizeof_ipfix_options_template_record.
  destruct Hty as [-> | ->].
  - rewrite decide_True by done. apply (Hloop 8). by vm_compute.
  - rewrite decide_False, decide_True by done. apply (Hloop 10). by vm_compute.
Qed.

(** ** Walking a set of withdrawals *)

Definition enc_withdrawal (id : Z) : bytes := enc16 id ++ enc16 0.
Definition enc_withdrawals (ids : list Z) : bytes := mjoin (enc_withdrawal <$> ids).

Lemma blen_withdrawals ids : blen (enc_withdrawals ids) = 4 * Z.of_nat (length ids).
Proof.
  induction ids as [|id ids IH]; [done|]. change (enc_withdrawals (id :: ids)) with (enc_withdrawal id ++ enc_withdrawals ids).
  rewrite blen_app, IH. cbn [length]. change (blen (enc_withdrawal id)) with 4. lia.
Qed.

Lemma withdrawal_length_at id pre post max_len :
  tm_template_record_length (pre ++ enc_withdrawal id ++ post) (blen pre) max_len TM_TEMPLATE = Ok (4, Some 0).
Proof.
  unfold tm_template_record_length, tm_template_length, enc_withdrawal.
  replace (blen pre + 2) with (blen (pre ++ enc16 id)) by (rewrite blen_app, blen_enc16; lia).
  rewrite <-app_assoc, app_assoc, rd16_here by done. rewrite res_bind_ret. done.
Qed.

Lemma template_set_withdrawals {D} pre post ids (processor : Z → Z → D → res D) (st : D) :
  ids ≠ [] → 4 + 4 * Z.of_nat (length ids) < 65536 →
  template_set_process_records
    (pre ++ enc16 2 ++ enc16 (4 + 4 * Z.of_nat (length ids)) ++ enc_withdrawals ids ++ post) (blen pre) TM_TEMPLATE
    processor st
  = (st ← process_all (λ id, blen (enc_withdrawal id)) processor (blen pre + 4) ids st;
     Ok (Z.of_nat (length ids), st)).
Proof.
  intros Hne Hlen. set (len := 4 + 4 * Z.of_nat (length ids)) in *.
  set (mem := pre ++ enc16 2 ++ enc16 len ++ enc_withdrawals ids ++ post).
  assert (∀ l r, ids = l ++ r → mem = (pre ++ enc16 2 ++ enc16 len ++ enc_withdrawals l) ++ enc_withdrawals r ++ post ∧
    blen (pre ++ enc16 2 ++ enc16 len ++ enc_withdrawals l) = blen pre + 4 + 4 * Z.of_nat (length l)) as Hsplit.
  { intros l r E. split.
    - unfold mem. rewrite E. unfold enc_withdrawals. rewrite fmap_app, join_app, <-!app_assoc. done.
    - rewrite !blen_app, !blen_enc16, blen_withdrawals. lia. }
  assert (1 ≤ Z.of_nat (length ids)) as Hn by (destruct ids; [done|cbn; lia]).
  unfold template_set_process_records. fold mem.
  assert (rd16 mem (blen pre + 2) = Ok len) as ->.
  { unfold mem. rewrite (app_assoc pre). replace (blen pre + 2) with (blen (pre ++ enc16 2)) by (rewrite blen_app, blen_enc16; lia).
    apply rd16_here. unfold is_u16. lia. }
  rewrite res_bind_ret, decide_False by (rewrite u16_small; lia).
  assert (rd16 mem (blen pre + 4 + 2) = Ok 0) as ->.
  { destruct ids as [|id ids]; [done|]. destruct (Hsplit [] (id :: ids) eq_refl) as [-> El].
    change (enc_withdrawals (id :: ids)) with (enc_withdrawal id ++ enc_withdrawals ids). unfold enc_withdrawal.
    rewrite <-!(app_assoc (enc16 id)), (app_assoc _ (enc16 id)), <-(app_assoc (enc16 0)).
    replace (blen pre + 4 + 2) with (blen ((pre ++ enc16 2 ++ enc16 len ++ enc_withdrawals []) ++ enc16 id))
      by (rewrite blen_app, El, blen_enc16; cbn; lia). by apply rd16_here. }
  rewrite res_bind_ret, decide_False by (intros H; by apply H).
  assert (∀ r l fuel st, ids = l ++ r → (length r < fuel)%nat →
    loop (template_set_process_records_step mem (blen pre + len) TM_TEMPLATE 4 processor) fuel
      (blen pre + 4 + 4 * Z.of_nat (length l), Z.of_nat (length l), st)
    = (st ← process_all (λ id, blen (enc_withdrawal id)) processor (blen pre + 4 + 4 * Z.of_nat (length l)) r st;
       Ok (Z.of_nat (length ids), st))) as Hloop.
  { induction r as [|id r IH]; intros l [|fuel] st' E Hf; cbn [length] in Hf; try lia;
      cbn [loop process_all]; unfold template_set_process_records_step at 1; destruct (Hsplit _ _ E) as [Em El].
    - rewrite app_nil_r in E. subst l. by rewrite decide_False by lia.
    - assert (length ids = (length l + S (length r))%nat) as Hl by (rewrite E, length_app; done).
      rewrite decide_True by lia. rewrite Em, <-El at 1.
      change (enc_withdrawals (id :: r)) with (enc_withdrawal id ++ enc_withdrawals r).
      rewrite <-(app_assoc (enc_withdrawal id)).
      rewrite withdrawal_length_at, res_bind_ret. cbn [fst]. rewrite decide_False by lia.
      change (blen (enc_withdrawal id)) with 4.
      destruct (processor _ _ _) as [st2| |]; [|done..]. rewrite !res_bind_ret.
      specialize (IH (l ++ [id]) fuel st2 ltac:(by rewrite <-app_assoc) ltac:(lia)).
      rewrite length_app in IH. cbn [length] in IH. rewrite u16_small by lia.
      replace (Z.of_nat (length l) + 1) with (Z.of_nat (length l + 1)) by lia.
      replace (blen pre + 4 + 4 * Z.of_nat (length l) + 4) with (blen pre + 4 + 4 * Z.of_nat (length l + 1)) by lia.
      exact IH. }
  pose proof (Hloop ids [] (S (Z.to_nat len)) st eq_refl ltac:(lia)) as H. cbn [length] in H.
  change (4 * Z.of_nat 0) with 0 in H. rewrite Z.add_0_r in H. exact H.
Qed.

Lemma template_set_empty {D} type pre post padding (processor : Z → Z → D → res D) (st : D) : blen padding < 4 →
  template_set_process_records (pre ++ enc16 (type + 2) ++ enc16 (4 + blen padding) ++ padding ++ post) (blen pre) type
    processor st = Ok (0, st).
Proof.
  intros Hp. pose proof (blen_nonneg padding). unfold template_set_process_records.
  rewrite (app_assoc pre). replace (blen pre + 2) with (blen (pre ++ enc16 (type + 2))) by (rewrite blen_app, blen_enc16; lia).
  rewrite rd16_here by (unfold is_u16; lia). rewrite res_bind_ret, decide_True; [done|]. rewrite u16_small; lia.
Qed.

(** C34: [template_set_process_records] runs the callback on every record of a set exactly
    once, in order, with its address and length, takes a padding of less than four octets
    for no record, and returns the number of records: for a set of (Options) Template
    Records that all have a field, for a set of withdrawals of templates, and for a set
    without records. (A set of withdrawals of options templates is not walked like this:
    each is measured as six octets, see [options_withdrawal_length].) *)
Theorem template_set_process_records_each {D} type pre post (processor : Z → Z → D → res D) (st : D) :
  (∀ rs padding, template_set_of type rs padding post →
   template_set_process_records (pre ++ enc_template_set type rs padding ++ post) (blen pre) type processor st
   = (st ← process_all (λ r, blen (enc_trecord type r)) processor (blen pre + 4) rs st;
      Ok (Z.of_nat (length rs), st))) ∧
  (∀ ids, ids ≠ [] → 4 + 4 * Z.of_nat (length ids) < 65536 →
   template_set_process_records
     (pre ++ enc16 2 ++ enc16 (4 + 4 * Z.of_nat (length ids)) ++ enc_withdrawals ids ++ post) (blen pre) TM_TEMPLATE processor st
   = (st ← process_all (λ id, blen (enc_withdrawal id)) processor (blen pre + 4) ids st;
      Ok (Z.of_nat (length ids), st))) ∧
  (∀ padding, blen padding < 4 →
   template_set_process_records (pre ++ enc16 (type + 2) ++ enc16 (4 + blen padding) ++ padding ++ post) (blen pre) type
     processor st = Ok (0, st)).
Proof.
  split_and!.
  - intros rs padding Hs. exact (template_set_records type pre post rs padding processor st Hs).
  - intros ids Hne Hlen. exact (template_set_withdrawals pre post ids processor st Hne Hlen).
  - intros padding. exact (template_set_empty type pre post padding processor st).
Qed.

Definition trecords_example : list trecord :=
  [ {| tr_id := 258; tr_scope := 1; tr_fields := fields_example |};
    {| tr_id := 259; tr_scope := 1; tr_fields := fixed_fields_example |} ].

Lemma trecords_example_of :
  template_set_of TM_OPTIONS_TEMPLATE trecords_example [0; 0] (replicate 10 0).
Proof.
  split; [by right| |done|reflexivity|right; vm_compute; discriminate|reflexivity].
  repeat constructor; cbn; unfold is_u32; try lia; done.
Qed.

Lemma template_set_process_records_each_witness :
  template_set_process_records
    ([1] ++ enc_template_set TM_OPTIONS_TEMPLATE trecords_example [0; 0] ++ replicate 10 0) 1
    TM_OPTIONS_TEMPLATE (λ rec len acc, Ok (acc ++ [(rec, len)])) [] = Ok (2, [(5, 22); (27, 10)]) ∧
  template_set_process_records ([1] ++ [0; 2; 0; 12; 1; 2; 0; 0; 1; 3; 0; 0]) 1
    TM_TEMPLATE (λ rec len acc, Ok (acc ++ [(rec, len)])) [] = Ok (2, [(5, 4); (9, 4)]).
Proof.
  set (p := λ rec len (acc : list (Z * Z)), Ok (acc ++ [(rec, len)])). split.
  - refine (eq_trans (proj1 (template_set_process_records_each TM_OPTIONS_TEMPLATE [1] (replicate 10 0) p [])
      trecords_example [0; 0] trecords_example_of) _). reflexivity.
  - refine (eq_trans (proj1 (proj2 (template_set_process_records_each TM_TEMPLATE [1] [] p [])) [258; 259] _ _) _);
      [done|cbn; lia|reflexivity].
Defined.

(** A withdrawal of an options template has four octets, but is measured as six,
    the length of a record header with a scope count. *)
Example options_withdrawal_length :
  tm_template_record_length ([1; 3; 0; 0] ++ [1; 4; 0; 0]) 0 8 TM_OPTIONS_TEMPLATE = Ok (6, Some 0).
Proof. reflexivity. Qed.

(** [template_get_field_offset] takes the enterprise number of a specifier it
    does not look for as the next specifier: the port behind the enterprise
    field of [template_example] is not found. *)
Example template_get_field_offset_enterprise :
  template_get_field_offset (Some (spec_template TM_TEMPLATE 256 0
    [ {| fs_id := 33; fs_length := 4; fs_enterprise := Some 8057 |};
      {| fs_id := 7; fs_length := 2; fs_enterprise := None |} ] 0)) 0 7 = Ok (-1) ∧
  template_get_field_length (Some (spec_template TM_TEMPLATE 256 0
    [ {| fs_id := 33; fs_length := 4; fs_enterprise := Some 8057 |};
      {| fs_id := 7; fs_length := 2; fs_enterprise := None |} ] 0)) 0 7 = Ok (-1).
Proof. split; reflexivity. Qed.

(** [tm_compare_template_records] compares the identifiers only: records that
    differ in a field length are equal for it. *)
Example tm_compare_template_records_lengths :
  tm_compare_template_records
    (enc_template 256 [ {| fs_id := 8; fs_length := 4; fs_enterprise := None |} ] ++
     enc_template 257 [ {| fs_id := 8; fs_length := 16; fs_enterprise := None |} ])
    (Some 0) (Some 8) = Ok 1.
Proof. reflexivity. Qed.
