(* ===== verification/Message.v ===== *)
(** * Message: IPFIX messages as pointers into their packet

    [message_create_from_mem] and the other constructors, destructors and copies
    of [base/src/ipfix_message.c], on [struct ipfix_message] of
    [base/headers/ipfixcol/storage.h].  A set is represented by its offset in
    the packet. *)

From S2P Require Import Prelude TemplateRecord DataRecord.

Definition IPFIX_VERSION : Z := 10.
Definition IPFIX_HEADER_LENGTH : Z := 16.

(** ** Data *)

Inductive SOURCE_STATUS :=
  | SOURCE_STATUS_NEW
  | SOURCE_STATUS_OPENED
  | SOURCE_STATUS_CLOSED.
#[export] Instance SOURCE_STATUS_eq_dec : EqDecision SOURCE_STATUS.
Proof. solve_decision. Defined.

Inductive PLUGIN_STATUS :=
  | PLUGIN_DATA
  | PLUGIN_START
  | PLUGIN_STOP.
#[export] Instance PLUGIN_STATUS_eq_dec : EqDecision PLUGIN_STATUS.
Proof. solve_decision. Defined.

(** [struct ipfix_record]: [record] is an address in the packet. *)
Record ipfix_record := {
  record : Z;
  length_ : Z;
  templ : option loc
}.

(** [struct metadata]; [channels] is the address of an array of channels. *)
Record metadata := {
  md_record : ipfix_record;
  srcCountry : Z;
  dstCountry : Z;
  srcAS : Z;
  dstAS : Z;
  channels : option loc;
  srcName : bytes;
  dstName : bytes
}.

(** [struct ipfix_message].  [pkt_header] is the packet itself, which the message
    owns ([None] is NULL); the arrays of sets hold offsets in it and end with the
    first NULL; a data couple is a data set and the address of its template. *)
Record ipfix_message := {
  pkt_header : option bytes;
  input_info : option loc;
  source_status : SOURCE_STATUS;
  plugin_status : PLUGIN_STATUS;
  plugin_id : Z;
  data_records_count : Z;
  templ_records_count : Z;
  opt_templ_records_count : Z;
  templ_set : list Z;
  opt_templ_set : list Z;
  data_couple : list (Z * option loc);
  live_profile : option loc;
  msg_metadata : list metadata
}.

(** The zero-filled structure with the members the constructor sets at once. *)
Definition new_message (pkt : option bytes) (info : option loc) (status : SOURCE_STATUS) : ipfix_message :=
  {| pkt_header := pkt; input_info := info; source_status := status;
     plugin_status := PLUGIN_DATA; plugin_id := 0;
     data_records_count := 0; templ_records_count := 0; opt_templ_records_count := 0;
     templ_set := []; opt_templ_set := []; data_couple := [];
     live_profile := None; msg_metadata := [] |}.

Definition set_sets (m : ipfix_message) (ts os : list Z) (dc : list (Z * option loc)) : ipfix_message :=
  {| pkt_header := pkt_header m; input_info := input_info m; source_status := source_status m;
     plugin_status := plugin_status m; plugin_id := plugin_id m;
     data_records_count := data_records_count m; templ_records_count := templ_records_count m;
     opt_templ_records_count := opt_templ_records_count m;
     templ_set := ts; opt_templ_set := os; data_couple := dc;
     live_profile := live_profile m; msg_metadata := msg_metadata m |}.

(** ** Parsing the sets of a message *)

(** Storing a pointer in an array of [max] entries, the next free one. *)
Definition store_set {A} (max : Z) (l : list A) (x : A) : res (list A) :=
  if decide (Z.of_nat (length l) < max) then Ok (l ++ [x]) else Fault OobWrite.

(** The template sets, options template sets and data sets found so far. *)
Definition sets : Type := list Z * list Z * list Z.

(** The loop over the sets, on [(p, sets)]; leaving with [None] is the error
    return. *)
Definition message_sets_step (mem : bytes) (pktlen : Z) (s : Z * sets) :
    res ((Z * sets) + option sets) :=
  let '(p, (ts, os, ds)) := s in
  if decide (p < pktlen) then
    set_len ← rd16 mem (p + 2);
    if decide (p + set_len > pktlen) then Ok (inr None) else
    id ← rd16 mem p;
    found ← (if decide (id = IPFIX_TEMPLATE_FLOWSET_ID) then
               ts ← store_set MSG_MAX_TEMPL_SETS ts p; Ok (ts, os, ds)
             else if decide (id = IPFIX_OPTION_FLOWSET_ID) then
               os ← store_set MSG_MAX_OTEMPL_SETS os p; Ok (ts, os, ds)
             else if decide (id < IPFIX_MIN_RECORD_FLOWSET_ID) then Ok (ts, os, ds)
             else ds ← store_set MSG_MAX_DATA_COUPLES ds p; Ok (ts, os, ds));
    if decide (set_len = 0) then Ok (inr (Some found))
    else Ok (inl (p + set_len, found))
  else Ok (inr (Some (ts, os, ds))).

Definition message_create_from_mem (mem : bytes) (len : Z) (info : option loc) (status : SOURCE_STATUS) :
    res (option ipfix_message) :=
  odid ← rd32 mem 12;
  version ← rd16 mem 0;
  if decide (version ≠ IPFIX_VERSION) then Ok None else
  pktlen ← rd16 mem 2;
  if decide (u16 len < pktlen) then Ok None else
  found ← loop (message_sets_step mem pktlen) (S (Z.to_nat pktlen)) (IPFIX_HEADER_LENGTH, ([], [], []));
  match found with
  | None => Ok None
  | Some (ts, os, ds) =>
      Ok (Some (set_sets (new_message (Some mem) info status) ts os ((λ p, (p, None)) <$> ds)))
  end.

(** ** Other constructors, and destructors *)

(** A 16-bit load without [ntohs]: the two octets in host (little-endian) order. *)
Definition rd16_host (mem : bytes) (p : Z) : res Z :=
  a ← rd8 mem p; b ← rd8 mem (p + 1); Ok (b * 256 + a).

(** [message_create_clone] allocates a zero-filled packet of the length of the
    original, and parses it. *)
Definition message_create_clone (msg : option ipfix_message) : res (option ipfix_message) :=
  match msg with
  | None => Ok None
  | Some m =>
      match pkt_header m with
      | None => Fault OobRead
      | Some pkt =>
          pktlen ← rd16 pkt 2;
          rawlen ← rd16_host pkt 2;
          message_create_from_mem (replicate (Z.to_nat pktlen) 0) rawlen (input_info m) (source_status m)
      end
  end.

Definition message_create_empty : ipfix_message :=
  new_message (Some (replicate (Z.to_nat IPFIX_HEADER_LENGTH) 0)) None SOURCE_STATUS_NEW.

(** [message_free] ends the life of the message and of the packet it owns. *)
Definition message_free (msg : option ipfix_message) : Z :=
  match msg with None => -1 | Some _ => 0 end.

(** [message_get_data] returns a copy, [message_set_data] overwrites. *)
Definition message_get_data (mem : bytes) (source len : Z) : res bytes := rdn mem source len.
Definition message_set_data (mem : bytes) (dest : Z) (source : bytes) (len : Z) : res bytes :=
  v ← rdn source 0 len; wrn mem dest v.

(** *** Metadata *)

(** The arrays of channels live in a heap of their own. *)
Abbreviation channel_heap := (gmap loc (list loc)).

Definition free_channels (h : channel_heap) (l : loc) : res channel_heap :=
  match h !! l with Some _ => Ok (delete l h) | None => Fault UseAfterFree end.

Fixpoint free_metadata_records (h : channel_heap) (n : nat) (ms : list metadata) : res channel_heap :=
  match n with
  | O => Ok h
  | S n =>
      match ms with
      | [] => Fault OobRead
      | m :: ms =>
          h ← match channels m with Some l => free_channels h l | None => Ok h end;
          free_metadata_records h n ms
      end
  end.

(** The channels of [data_records_count] records are freed. *)
Definition message_free_metadata (h : channel_heap) (msg : ipfix_message) : res channel_heap :=
  free_metadata_records h (Z.to_nat (data_records_count msg)) (msg_metadata msg).

Definition copy_channels (h : channel_heap) (c : option loc) : res (channel_heap * option loc) :=
  match c with
  | None => Ok (h, None)
  | Some l =>
      match h !! l with
      | None => Fault UseAfterFree
      | Some chs => let l' := fresh (dom h) in Ok (<[l' := chs]> h, Some l')
      end
  end.

Definition set_channels (m : metadata) (c : option loc) : metadata :=
  {| md_record := md_record m; srcCountry := srcCountry m; dstCountry := dstCountry m;
     srcAS := srcAS m; dstAS := dstAS m; channels := c; srcName := srcName m; dstName := dstName m |}.

Fixpoint copy_metadata_records (h : channel_heap) (n : nat) (ms : list metadata) :
    res (channel_heap * list metadata) :=
  match n with
  | O => Ok (h, [])
  | S n =>
      match ms with
      | [] => Fault OobRead
      | m :: ms =>
          x ← copy_channels h (channels m);
          y ← copy_metadata_records x.1 n ms;
          Ok (y.1, set_channels m x.2 :: y.2)
      end
  end.

Definition message_copy_metadata (h : channel_heap) (src : ipfix_message) :
    res (channel_heap * list metadata) :=
  copy_metadata_records h (Z.to_nat (data_records_count src)) (msg_metadata src).

(** ** Specification: sets on the wire *)

(** A set: its identifier and its content. *)
Abbreviation wire_set := (Z * bytes)%type.

Definition enc_set (s : wire_set) : bytes := enc16 s.1 ++ enc16 (4 + blen s.2) ++ s.2.
Definition enc_sets (ss : list wire_set) : bytes := mjoin (enc_set <$> ss).
Definition enc_header (pktlen export_time sequence odid : Z) : bytes :=
  enc16 IPFIX_VERSION ++ enc16 pktlen ++ enc32 export_time ++ enc32 sequence ++ enc32 odid.
Definition enc_message (export_time sequence odid : Z) (ss : list wire_set) : bytes :=
  enc_header (IPFIX_HEADER_LENGTH + blen (enc_sets ss)) export_time sequence odid ++ enc_sets ss.

(** The identifiers and offsets of sets one behind the other from [p] on. *)
Fixpoint places (p : Z) (ss : list wire_set) : list (Z * Z) :=
  match ss with
  | [] => []
  | s :: ss => (s.1, p) :: places (p + blen (enc_set s)) ss
  end.

Definition is_template_set (id : Z) : Prop := id = IPFIX_TEMPLATE_FLOWSET_ID.
Definition is_options_set (id : Z) : Prop := id = IPFIX_OPTION_FLOWSET_ID.
Definition is_data_set (id : Z) : Prop := IPFIX_MIN_RECORD_FLOWSET_ID ≤ id.

(** The offsets of the sets of one kind. *)
Definition offsets_of (P : Z → Prop) `{∀ id, Decision (P id)} (ss : list wire_set) : list Z :=
  (filter (λ x, P x.1) (places IPFIX_HEADER_LENGTH ss)).*2.

(** The arrays of a message have room for the sets. *)
Definition sets_fit (ss : list wire_set) : Prop :=
  Z.of_nat (length (filter is_template_set ss.*1)) ≤ MSG_MAX_TEMPL_SETS ∧
  Z.of_nat (length (filter is_options_set ss.*1)) ≤ MSG_MAX_OTEMPL_SETS ∧
  Z.of_nat (length (filter is_data_set ss.*1)) ≤ MSG_MAX_DATA_COUPLES.

Section sets.
Implicit Types (s : wire_set) (l r ss : list wire_set).

Lemma enc_sets_app l r : enc_sets (l ++ r) = enc_sets l ++ enc_sets r.
Proof. unfold enc_sets. by rewrite fmap_app, join_app. Qed.

Lemma enc_sets_cons s l : enc_sets (s :: l) = enc_set s ++ enc_sets l.
Proof. done. Qed.

Lemma blen_enc_set s : blen (enc_set s) = 4 + blen s.2.
Proof. unfold enc_set. rewrite !blen_app, !blen_enc16. lia. Qed.

Lemma blen_enc_header n t q o : blen (enc_header n t q o) = 16.
Proof. done. Qed.

Lemma places_app p l r : places p (l ++ r) = places p l ++ places (p + blen (enc_sets l)) r.
Proof.
  revert p. induction l as [|s l IH]; intros p; cbn [app places].
  - by rewrite Z.add_0_r.
  - rewrite IH, enc_sets_cons, blen_app. by rewrite Z.add_assoc.
Qed.

Lemma places_ids p ss : (places p ss).*1 = ss.*1.
Proof. revert p. induction ss as [|s ss IH]; intros p; [done|]. cbn. f_equal. apply IH. Qed.

Section kind.
Context (P : Z → Prop) `{∀ id, Decision (P id)}.

Lemma offsets_of_snoc l s : offsets_of P (l ++ [s]) =
  offsets_of P l ++ (if decide (P s.1) then [IPFIX_HEADER_LENGTH + blen (enc_sets l)] else []).
Proof.
  unfold offsets_of. rewrite places_app, filter_app, fmap_app. f_equal.
  cbn [places]. rewrite filter_cons, filter_nil. cbn [fst]. by case_decide.
Qed.

Lemma length_offsets_of ss : length (offsets_of P ss) = length (filter P ss.*1).
Proof.
  unfold offsets_of. rewrite length_fmap. rewrite <-(places_ids IPFIX_HEADER_LENGTH ss).
  induction (places _ ss) as [|x xs IH]; [done|].
  rewrite fmap_cons, !filter_cons. case_decide; cbn [length]; by rewrite IH.
Qed.

Lemma filter_prefix l r : (length (filter P l.*1) ≤ length (filter P (l ++ r).*1))%nat.
Proof. rewrite fmap_app, filter_app, length_app. lia. Qed.
End kind.

Lemma store_set_spec {A} max (l : list A) x :
  store_set max l x = if decide (Z.of_nat (length l) < max) then Ok (l ++ [x]) else Fault OobWrite.
Proof. done. Qed.
End sets.

Section parse.
Context (pre post : bytes) (ss : list wire_set) (pktlen : Z).
Context (Hpre : blen pre = IPFIX_HEADER_LENGTH).
Context (Hlen : pktlen = IPFIX_HEADER_LENGTH + blen (enc_sets ss)) (Hmax : pktlen < 65536).
Context (Hid : Forall (λ s : wire_set, is_u16 s.1) ss).
Let mem := pre ++ enc_sets ss ++ post.
Let found (l : list wire_set) : sets :=
  (offsets_of is_template_set l, offsets_of is_options_set l, offsets_of is_data_set l).

Lemma rd_set_header l s r : ss = l ++ s :: r →
  rd16 mem (IPFIX_HEADER_LENGTH + blen (enc_sets l)) = Ok s.1 ∧
  rd16 mem (IPFIX_HEADER_LENGTH + blen (enc_sets l) + 2) = Ok (4 + blen s.2) ∧
  IPFIX_HEADER_LENGTH + blen (enc_sets l) + (4 + blen s.2) ≤ pktlen.
Proof.
  intros E. rewrite <-Hpre, <-blen_app.
  assert (blen (enc_sets ss) = blen (enc_sets l) + (4 + blen s.2) + blen (enc_sets r)) as Eb.
  { rewrite E, enc_sets_app, blen_app, enc_sets_cons, blen_app, blen_enc_set. lia. }
  pose proof (blen_nonneg (enc_sets l)). pose proof (blen_nonneg (enc_sets r)).
  pose proof (blen_nonneg s.2). unfold IPFIX_HEADER_LENGTH in *.
  assert (mem = (pre ++ enc_sets l) ++ enc16 s.1 ++ enc16 (4 + blen s.2) ++ s.2 ++ enc_sets r ++ post) as ->.
  { subst mem. rewrite E, enc_sets_app, enc_sets_cons. unfold enc_set. by rewrite <-!app_assoc. }
  split_and!.
  - apply rd16_here. rewrite E in Hid. by apply Forall_app in Hid as [_ [? _]%Forall_cons].
  - rewrite (app_assoc (pre ++ enc_sets l)).
    replace (blen (pre ++ enc_sets l) + 2) with (blen ((pre ++ enc_sets l) ++ enc16 s.1))
      by (rewrite (blen_app _ (enc16 _)), blen_enc16; lia).
    apply rd16_here. unfold is_u16. lia.
  - rewrite blen_app. lia.
Qed.

(** Sorting one set into its array. *)
Lemma found_step l s : sets_fit l →
  (let p := IPFIX_HEADER_LENGTH + blen (enc_sets l) in
   let '(ts, os, ds) := found l in
   if decide (s.1 = IPFIX_TEMPLATE_FLOWSET_ID) then
     ts ← store_set MSG_MAX_TEMPL_SETS ts p; Ok (ts, os, ds)
   else if decide (s.1 = IPFIX_OPTION_FLOWSET_ID) then
     os ← store_set MSG_MAX_OTEMPL_SETS os p; Ok (ts, os, ds)
   else if decide (s.1 < IPFIX_MIN_RECORD_FLOWSET_ID) then Ok (ts, os, ds)
   else ds ← store_set MSG_MAX_DATA_COUPLES ds p; Ok (ts, os, ds))
  = if decide (sets_fit (l ++ [s])) then Ok (found (l ++ [s])) else Fault OobWrite.
Proof.
  intros (H1 & H2 & H3). cbv zeta. unfold found. rewrite !offsets_of_snoc, !store_set_spec.
  rewrite !length_offsets_of. unfold sets_fit. rewrite fmap_app, !filter_app, !length_app.
  change ([s].*1) with [s.1]. rewrite !filter_cons, !filter_nil.
  unfold is_template_set, is_options_set, is_data_set, IPFIX_TEMPLATE_FLOWSET_ID,
    IPFIX_OPTION_FLOWSET_ID, IPFIX_MIN_RECORD_FLOWSET_ID in *.
  repeat (case_decide; cbn [length] in *; rewrite ?app_nil_r); try lia; try done.
  all: exfalso; lia.
Qed.

Lemma message_sets_loop : ∀ r l fuel,
  ss = l ++ r → (length r < fuel)%nat → sets_fit l →
  loop (message_sets_step mem pktlen) fuel (IPFIX_HEADER_LENGTH + blen (enc_sets l), found l)
  = if decide (sets_fit ss) then Ok (Some (found ss)) else Fault OobWrite.
Proof.
  induction r as [|s r IH]; intros l [|fuel] E Hf Hfit; cbn [length] in Hf; try lia; cbn [loop];
    unfold message_sets_step at 1.
  - rewrite app_nil_r in E. subst l. unfold found at 1.
    rewrite (decide_False (P := _ < pktlen)) by lia. by rewrite decide_True.
  - destruct (rd_set_header l s r E) as (Hr1 & Hr2 & Hle). pose proof (blen_nonneg s.2).
    pose proof (found_step l s Hfit) as Hfs. cbv zeta in Hfs.
    unfold found at 1. unfold found at 1 in Hfs.
    rewrite (decide_True (P := _ < pktlen)) by lia.
    rewrite Hr2, res_bind_ret. rewrite (decide_False (P := _ > pktlen)) by lia.
    rewrite Hr1, res_bind_ret, Hfs.
    replace (l ++ s :: r) with ((l ++ [s]) ++ r) in E by by rewrite <-app_assoc.
    destruct (decide (sets_fit (l ++ [s]))) as [Hfit'|Hnfit].
    + rewrite res_bind_ret, decide_False by lia.
      replace (IPFIX_HEADER_LENGTH + blen (enc_sets l) + (4 + blen s.2))
        with (IPFIX_HEADER_LENGTH + blen (enc_sets (l ++ [s]))).
      2: { rewrite enc_sets_app, blen_app. change (enc_sets [s]) with (enc_set s ++ []).
           rewrite app_nil_r, blen_enc_set. lia. }
      apply IH; [done|lia|done].
    + cbn. rewrite decide_False; [done|]. intros (F1 & F2 & F3). apply Hnfit.
      rewrite E in F1, F2, F3.
      pose proof (filter_prefix is_template_set (l ++ [s]) r).
      pose proof (filter_prefix is_options_set (l ++ [s]) r).
      pose proof (filter_prefix is_data_set (l ++ [s]) r). unfold sets_fit. lia.
Qed.
End parse.

(** ** Properties *)

Section header.
Context (t q o n : Z) (ss : list wire_set) (tail : bytes).
Let mem := enc_header n t q o ++ tail.

Lemma rd_header : is_u16 n → is_u32 o →
  rd16 mem 0 = Ok IPFIX_VERSION ∧ rd16 mem 2 = Ok n ∧ rd32 mem 12 = Ok o.
Proof.
  intros Hn Ho. unfold mem, enc_header. rewrite <-!app_assoc.
  split_and!.
  - by apply rd16_enc16.
  - by apply (rd16_here (enc16 IPFIX_VERSION)).
  - rewrite (app_assoc (enc16 IPFIX_VERSION)), (app_assoc (_ ++ _)), (app_assoc (_ ++ _)).
    by apply (rd32_here (((enc16 IPFIX_VERSION ++ enc16 n) ++ enc32 t) ++ enc32 q)).
Qed.
End header.

Lemma message_create_from_mem_enc t q o ss tail len info status :
  Forall (λ s : wire_set, is_u16 s.1) ss → is_u32 o →
  16 + blen (enc_sets ss) < 65536 → 16 + blen (enc_sets ss) ≤ len < 65536 →
  message_create_from_mem (enc_message t q o ss ++ tail) len info status
  = if decide (sets_fit ss) then
      Ok (Some (set_sets (new_message (Some (enc_message t q o ss ++ tail)) info status)
        (offsets_of is_template_set ss) (offsets_of is_options_set ss)
        ((λ p, (p, None)) <$> offsets_of is_data_set ss)))
    else Fault OobWrite.
Proof.
  intros Hid Ho Hlen Hl. unfold message_create_from_mem, enc_message.
  pose proof (blen_nonneg (enc_sets ss)). rewrite <-app_assoc.
  set (n := IPFIX_HEADER_LENGTH + blen (enc_sets ss)).
  destruct (rd_header t q o n (enc_sets ss ++ tail)) as (Hv & Hn & Hodid).
  { unfold is_u16, n, IPFIX_HEADER_LENGTH. lia. } { done. }
  rewrite Hodid, Hv, Hn, !res_bind_ret. rewrite decide_False by auto.
  rewrite decide_False by (rewrite u16_small; unfold n, IPFIX_HEADER_LENGTH; lia).
  assert (Z.of_nat (length ss) ≤ blen (enc_sets ss)).
  { clear. induction ss as [|s l IH]; [done|]. rewrite enc_sets_cons, blen_app, blen_enc_set.
    pose proof (blen_nonneg s.2). cbn [length]. lia. }
  pose proof (message_sets_loop (enc_header n t q o) tail ss n (blen_enc_header n t q o) eq_refl
    ltac:(unfold n, IPFIX_HEADER_LENGTH; lia) Hid ss [] (S (Z.to_nat n)) eq_refl
    ltac:(unfold n, IPFIX_HEADER_LENGTH; lia)
    ltac:(unfold sets_fit, MSG_MAX_TEMPL_SETS, MSG_MAX_OTEMPL_SETS, MSG_MAX_DATA_COUPLES; cbn; lia)) as H1.
  match type of H1 with _ = ?r => change (loop (message_sets_step (enc_header n t q o ++ enc_sets ss ++ tail) n)
    (S (Z.to_nat n)) (IPFIX_HEADER_LENGTH, ([], [], [])) = r) in H1 end.
  rewrite H1. by case_decide.
Qed.

(** C26: a well-formed message is taken apart into its sets: the Template Sets,
    the Options Template Sets and the Data Sets of the packet, each kind in the
    order of the packet and complete, and sets of other identifiers in none of
    the arrays; the packet may be longer than the message.  A message with more
    sets of a kind than its array has entries makes the code write behind it. *)
Theorem message_create_from_mem_parses t q o ss tail len info status :
  Forall (λ s : wire_set, is_u16 s.1) ss → is_u32 o →
  16 + blen (enc_sets ss) < 65536 → 16 + blen (enc_sets ss) ≤ len < 65536 →
  message_create_from_mem (enc_message t q o ss ++ tail) len info status
  = if decide (sets_fit ss) then
      Ok (Some (set_sets (new_message (Some (enc_message t q o ss ++ tail)) info status)
        (offsets_of is_template_set ss) (offsets_of is_options_set ss)
        ((λ p, (p, None)) <$> offsets_of is_data_set ss)))
    else Fault OobWrite.
Proof. apply message_create_from_mem_enc. Qed.

Definition message_example : list wire_set :=
  [ (2, [1; 2; 0; 1; 0; 8; 0; 4]); (258, [10; 0; 0; 1]); (5, []); (258, [10; 0; 0; 2]);
    (3, [1; 3; 0; 1; 0; 1; 0; 8; 0; 4]) ].

Lemma message_create_from_mem_parses_witness :
  match message_create_from_mem (enc_message 1000 7 42 message_example ++ [0]) 64 None SOURCE_STATUS_OPENED with
  | Ok (Some m) => templ_set m = [16] ∧ opt_templ_set m = [48] ∧ data_couple m = [(28, None); (40, None)]
  | _ => False
  end.
Proof.
  rewrite (message_create_from_mem_parses 1000 7 42 message_example [0] 64 None SOURCE_STATUS_OPENED);
    [by vm_compute|by repeat constructor|by split; vm_compute|by vm_compute|by split; vm_compute].
Defined.

(** A packet of another version, or shorter than its header says, is refused. *)
Lemma message_create_from_mem_rejects mem len info status version pktlen :
  IPFIX_HEADER_LENGTH ≤ blen mem →
  rd16 mem 0 = Ok version → rd16 mem 2 = Ok pktlen →
  version ≠ IPFIX_VERSION ∨ u16 len < pktlen →
  message_create_from_mem mem len info status = Ok None.
Proof.
  unfold IPFIX_HEADER_LENGTH. intros Hb Hv Hp Hor. unfold message_create_from_mem.
  destruct (rd32_in_bounds mem 12) as [o ->]; [lia..|]. rewrite Hv, Hp, !res_bind_ret.
  case_decide; [done|]. by rewrite decide_True by tauto.
Qed.

(** Every recorded set is inside the message and has an identifier of its kind. *)
Definition set_in (mem : bytes) (pktlen : Z) (P : Z → Prop) (p : Z) : Prop :=
  ∃ id n, rd16 mem p = Ok id ∧ rd16 mem (p + 2) = Ok n ∧ P id ∧
          IPFIX_HEADER_LENGTH ≤ p < pktlen ∧ p + n ≤ pktlen.
Definition sets_in (mem : bytes) (pktlen : Z) (f : sets) : Prop :=
  Forall (set_in mem pktlen is_template_set) f.1.1 ∧
  Forall (set_in mem pktlen is_options_set) f.1.2 ∧
  Forall (set_in mem pktlen is_data_set) f.2 ∧
  Z.of_nat (length f.1.1) ≤ MSG_MAX_TEMPL_SETS ∧ Z.of_nat (length f.1.2) ≤ MSG_MAX_OTEMPL_SETS ∧
  Z.of_nat (length f.2) ≤ MSG_MAX_DATA_COUPLES.

Lemma store_set_in mem pktlen P max l p l' :
  store_set max l p = Ok l' → Forall (set_in mem pktlen P) l → set_in mem pktlen P p →
  Forall (set_in mem pktlen P) l' ∧ Z.of_nat (length l') ≤ max.
Proof.
  rewrite store_set_spec. case_decide; [|done]. intros [= <-] Hl Hp. split.
  - apply Forall_app. by split; [|constructor].
  - rewrite length_app. cbn. lia.
Qed.

Lemma message_sets_step_in mem pktlen p f :
  wf_bytes mem → IPFIX_HEADER_LENGTH ≤ p → sets_in mem pktlen f →
  match message_sets_step mem pktlen (p, f) with
  | Ok (inl (p', f')) => p < p' ≤ pktlen ∧ sets_in mem pktlen f'
  | Ok (inr (Some f')) => sets_in mem pktlen f'
  | Ok (inr None) => True
  | Fault e => e = OobWrite ∨ e = OobRead ∧ blen mem < pktlen + 3
  | OutOfFuel => False
  end.
Proof.
  intros Hwf Hp Hin. destruct f as [ [ts os] ds]. unfold message_sets_step.
  case_decide as Hlt; [|done]. unfold IPFIX_HEADER_LENGTH in *.
  destruct (decide (p + 4 ≤ blen mem)) as [Hb|Hb].
  2: { assert (∀ a, rd16 mem (p + 2) ≠ Ok a) as Hno.
       { intros a Ha. apply rd16_bounds in Ha. lia. }
       destruct (rd16 mem (p + 2)) as [a|e|] eqn:E; [by edestruct Hno| |].
       - cbn. right. split; [|lia]. unfold rd16, rd8 in E.
         repeat case_decide; try lia.
         destruct (mem !! Z.to_nat (p + 2)); [|cbn in E; congruence].
         destruct (mem !! Z.to_nat (p + 2 + 1)); cbn in E; congruence.
       - by apply rd16_not_fuel in E. }
  destruct (rd16_in_bounds mem (p + 2)) as [n Hn]; [lia..|].
  destruct (rd16_in_bounds mem p) as [id Hid]; [lia..|].
  pose proof (rd16_range _ _ _ Hwf Hn) as Hnr. unfold is_u16 in Hnr.
  rewrite Hn, Hid, !res_bind_ret. case_decide as Hle; [done|].
  destruct Hin as (I1 & I2 & I3 & I4 & I5 & I6). cbn [fst snd] in *.
  assert (∀ P : Z → Prop, P id → set_in mem pktlen P p) as Hset.
  { intros P HP. exists id, n. unfold IPFIX_HEADER_LENGTH. repeat (split; [done || lia|]). lia. }
  assert (∀ f', sets_in mem pktlen f' →
    match (if decide (n = 0) then Ok (inr (Some f')) else Ok (inl (p + n, f'))) with
    | Ok (inl (p', f')) => p < p' ≤ pktlen ∧ sets_in mem pktlen f'
    | Ok (inr (Some f')) => sets_in mem pktlen f'
    | Ok (inr None) => True
    | Fault e => e = OobWrite ∨ e = OobRead ∧ blen mem < pktlen + 3
    | OutOfFuel => False
    end) as Hend.
  { intros f' Hf'. case_decide; [done|]. split; [lia|done]. }
  assert (∀ A (l : list A) x max, store_set max l x = Ok (l ++ [x]) ∨ store_set max l x = Fault OobWrite)
    as Hstore by (clear; intros A l x max; rewrite store_set_spec; case_decide; auto).
  destruct (decide (id = IPFIX_TEMPLATE_FLOWSET_ID)) as [E1|E1];
    [|destruct (decide (id = IPFIX_OPTION_FLOWSET_ID)) as [E2|E2];
      [|destruct (decide (id < IPFIX_MIN_RECORD_FLOWSET_ID)) as [E3|E3] ] ].
  - destruct (Hstore _ ts p MSG_MAX_TEMPL_SETS) as [E|E]; rewrite E; [|by left].
    rewrite !res_bind_ret. apply Hend.
    destruct (store_set_in mem pktlen is_template_set _ _ _ _ E I1 (Hset _ E1)). done.
  - destruct (Hstore _ os p MSG_MAX_OTEMPL_SETS) as [E|E]; rewrite E; [|by left].
    rewrite !res_bind_ret. apply Hend.
    destruct (store_set_in mem pktlen is_options_set _ _ _ _ E I2 (Hset _ E2)). done.
  - rewrite res_bind_ret. by apply Hend.
  - destruct (Hstore _ ds p MSG_MAX_DATA_COUPLES) as [E|E]; rewrite E; [|by left].
    rewrite !res_bind_ret. apply Hend.
    assert (is_data_set id) as Hd by (unfold is_data_set; lia).
    destruct (store_set_in mem pktlen is_data_set _ _ _ _ E I3 (Hset _ Hd)). done.
Qed.

(** C35: whatever is in the packet, the code comes back; every set it records
    lies inside the message, has an identifier of its kind, and is in an entry of
    its array; it reads out of bounds only in a packet whose buffer ends less than
    three octets behind the message (a set header cut off by the end), and writes
    out of bounds only for want of entries in the arrays. *)
Theorem message_create_from_mem_safe mem len info status pktlen :
  wf_bytes mem → IPFIX_HEADER_LENGTH ≤ blen mem → rd16 mem 2 = Ok pktlen →
  match message_create_from_mem mem len info status with
  | Ok (Some m) => pkt_header m = Some mem ∧
                   sets_in mem pktlen (templ_set m, opt_templ_set m, (data_couple m).*1)
  | Ok None => True
  | Fault e => e = OobWrite ∨ e = OobRead ∧ blen mem < pktlen + 3
  | OutOfFuel => False
  end.
Proof.
  unfold IPFIX_HEADER_LENGTH. intros Hwf Hb Hp. unfold message_create_from_mem.
  destruct (rd32_in_bounds mem 12) as [o ->]; [lia..|].
  destruct (rd16_in_bounds mem 0) as [v ->]; [lia..|]. rewrite Hp, !res_bind_ret.
  pose proof (rd16_range _ _ _ Hwf Hp) as Hpr. unfold is_u16 in Hpr.
  destruct (decide (v ≠ IPFIX_VERSION)); [done|]. destruct (decide (u16 len < pktlen)); [done|].
  assert (match loop (message_sets_step mem pktlen) (S (Z.to_nat pktlen))
            (IPFIX_HEADER_LENGTH, ([], [], [])) with
          | Ok (Some f) => sets_in mem pktlen f
          | Ok None => True
          | Fault e => e = OobWrite ∨ e = OobRead ∧ blen mem < pktlen + 3
          | OutOfFuel => False
          end) as Hloop.
  { apply (loop_total (message_sets_step mem pktlen)
      (λ s, IPFIX_HEADER_LENGTH ≤ s.1 ∧ sets_in mem pktlen s.2) (λ s, Z.to_nat (pktlen - s.1))
      (λ r, match r with
            | Ok (Some f) => sets_in mem pktlen f
            | Ok None => True
            | Fault e => e = OobWrite ∨ e = OobRead ∧ blen mem < pktlen + 3
            | OutOfFuel => False
            end)).
    - intros [p f] [Hp1 Hf]. pose proof (message_sets_step_in mem pktlen p f Hwf Hp1 Hf) as Hst.
      destruct (message_sets_step mem pktlen (p, f)) as [ [ [p' f']|f']|e|]; [|done..].
      cbn [fst snd] in *. destruct Hst as [? ?]. split; [split; [lia|done]|lia].
    - split; [done|]. unfold sets_in, MSG_MAX_TEMPL_SETS, MSG_MAX_OTEMPL_SETS, MSG_MAX_DATA_COUPLES.
      cbn. repeat split; try constructor; lia.
    - unfold IPFIX_HEADER_LENGTH. cbn [fst]. lia. }
  destruct (loop _ _ _) as [ [ [ [ts os] ds]|]|e|]; [|done..]. rewrite res_bind_ret. split; [done|].
  cbn. rewrite <-list_fmap_compose. unfold compose. cbn. by rewrite list_fmap_id.
Qed.

Lemma message_create_from_mem_safe_witness :
  let mem := enc_header 18 0 0 0 ++ [1; 2] in
  match message_create_from_mem mem 18 None SOURCE_STATUS_NEW with
  | Ok (Some m) => pkt_header m = Some mem ∧
                   sets_in mem 18 (templ_set m, opt_templ_set m, (data_couple m).*1)
  | Ok None => True
  | Fault e => e = OobWrite ∨ e = OobRead ∧ blen mem < 18 + 3
  | OutOfFuel => False
  end.
Proof.
  intros mem. apply (message_create_from_mem_safe mem 18 None SOURCE_STATUS_NEW 18);
    [repeat (constructor; [split; vm_compute; (reflexivity || discriminate)|]); constructor
    |vm_compute; discriminate|reflexivity].
Defined.

(** [message_create_clone] never makes a copy: the packet it parses has the
    length of the original and only zeros, which is no IPFIX version. *)
Lemma message_create_clone_fails msg pkt pktlen :
  pkt_header msg = Some pkt → rd16 pkt 2 = Ok pktlen → IPFIX_HEADER_LENGTH ≤ pktlen →
  message_create_clone (Some msg) = Ok None.
Proof.
  unfold IPFIX_HEADER_LENGTH. intros Hpkt Hlen Hmin. unfold message_create_clone.
  rewrite Hpkt, Hlen, res_bind_ret.
  assert (∃ raw, rd16_host pkt 2 = Ok raw) as [raw ->].
  { unfold rd16 in Hlen. unfold rd16_host. inv_res.
    repeat match goal with H : rd8 _ _ = Ok _ |- _ => rewrite H end. by eexists. }
  rewrite res_bind_ret. unfold message_create_from_mem.
  assert (∀ p, 0 ≤ p < 15 → rd16 (replicate (Z.to_nat pktlen) 0) p = Ok 0) as H16.
  { intros p Hp. unfold rd16, rd8. rewrite !decide_True by lia.
    rewrite !lookup_replicate_2 by lia. done. }
  unfold rd32. rewrite !H16 by lia. done.
Qed.

Lemma message_create_clone_fails_witness :
  message_create_clone (Some (new_message (Some (enc_header 16 1 2 3)) None SOURCE_STATUS_OPENED)) = Ok None.
Proof.
  apply (message_create_clone_fails (new_message (Some (enc_header 16 1 2 3)) None SOURCE_STATUS_OPENED)
    (enc_header 16 1 2 3) 16); [reflexivity|reflexivity|vm_compute; discriminate].
Defined.

(** *** Copies of metadata *)

(** [m'] is [m] with its own copy of the channels. *)
Definition metadata_copy (h h' : channel_heap) (m m' : metadata) : Prop :=
  m' = set_channels m (channels m') ∧
  match channels m, channels m' with
  | None, None => True
  | Some l, Some l' => h !! l = h' !! l' ∧ is_Some (h' !! l') ∧ h !! l' = None
  | _, _ => False
  end.

Lemma copy_metadata_records_spec : ∀ ms h0 h,
  h0 ⊆ h → Forall (λ m, ∀ l, channels m = Some l → is_Some (h0 !! l)) ms →
  ∃ h' ms', copy_metadata_records h (length ms) ms = Ok (h', ms') ∧ h ⊆ h' ∧
            Forall2 (metadata_copy h0 h') ms ms' ∧
            NoDup (omap channels ms') ∧
            Forall (λ l, h !! l = None) (omap channels ms').
Proof.
  induction ms as [|m ms IH]; intros h0 h Hsub Hch; cbn [length copy_metadata_records].
  { exists h, []. repeat split; try done; constructor. }
  apply Forall_cons in Hch as [Hm Hms].
  destruct (channels m) as [l|] eqn:Em; cbn [copy_channels].
  - destruct (Hm l eq_refl) as [chs Hl]. pose proof (lookup_weaken _ _ _ _ Hl Hsub) as Hlh.
    rewrite Hlh, res_bind_ret. cbn [fst snd]. set (l' := fresh (dom h)).
    assert (h !! l' = None) as Hfresh by (apply not_elem_of_dom, is_fresh).
    assert (h ⊆ <[l' := chs]> h) as Hsub1 by by apply insert_subseteq.
    destruct (IH h0 (<[l' := chs]> h)) as (h' & ms' & -> & Hh & Hcopy & Hnd & Hnew); [by etrans|done|].
    rewrite res_bind_ret. cbn [fst snd]. exists h', (set_channels m (Some l') :: ms').
    split; [done|]. split; [by etrans|].
    assert (h' !! l' = Some chs) as Hl'.
    { eapply lookup_weaken; [apply lookup_insert_eq|done]. }
    split; [|cbn; split].
    + constructor; [|done]. split; [done|]. rewrite Em. cbn. rewrite Hl, Hl'. split; [done|].
      split; [by eexists|]. destruct (h0 !! l') eqn:E; [|done].
      eapply lookup_weaken in E; [|exact Hsub]. congruence.
    + constructor; [|done]. intros Hin. rewrite Forall_forall in Hnew. specialize (Hnew _ Hin).
      by rewrite lookup_insert_eq in Hnew.
    + constructor; [done|]. eapply Forall_impl; [exact Hnew|]. cbn. intros x Hx.
      by apply lookup_insert_None in Hx as [? _].
  - rewrite res_bind_ret. cbn [fst snd].
    destruct (IH h0 h) as (h' & ms' & -> & Hh & Hcopy & Hnd & Hnew); [done..|].
    rewrite res_bind_ret. cbn [fst snd]. exists h', (set_channels m None :: ms').
    split; [done|]. split; [done|]. split; [|done].
    constructor; [|done]. split; [done|]. by rewrite Em.
Qed.

(** [message_copy_metadata] returns the metadata of all data records with
    the same contents and with arrays of channels of their own: each is new, no
    two are the same, and the originals are untouched, so that freeing the
    metadata of one message does not touch the other. *)
Lemma message_copy_metadata_copies h src :
  data_records_count src = Z.of_nat (length (msg_metadata src)) →
  Forall (λ m, ∀ l, channels m = Some l → is_Some (h !! l)) (msg_metadata src) →
  ∃ h' ms', message_copy_metadata h src = Ok (h', ms') ∧ h ⊆ h' ∧
            Forall2 (metadata_copy h h') (msg_metadata src) ms' ∧
            NoDup (omap channels ms') ∧ Forall (λ l, h !! l = None) (omap channels ms').
Proof.
  intros Hn Hch. unfold message_copy_metadata. rewrite Hn, Nat2Z.id.
  by apply copy_metadata_records_spec.
Qed.

Definition metadata_example (c : option loc) : metadata :=
  {| md_record := {| record := 20; length_ := 8; templ := None |}; srcCountry := 0; dstCountry := 0;
     srcAS := 0; dstAS := 0; channels := c; srcName := []; dstName := [] |}.
Definition message_metadata_example : ipfix_message :=
  {| pkt_header := None; input_info := None; source_status := SOURCE_STATUS_OPENED;
     plugin_status := PLUGIN_DATA; plugin_id := 0; data_records_count := 2;
     templ_records_count := 0; opt_templ_records_count := 0; templ_set := []; opt_templ_set := [];
     data_couple := []; live_profile := None;
     msg_metadata := [metadata_example (Some 5%positive); metadata_example None] |}.
