(* ===== verification/Convert.v ===== *)
(** * Conversion of NetFlow (src/base/src/utils/conversion/convert.c)

    The input plugins give every packet to [convert_packet], which turns NetFlow
    version 5 and version 9 into IPFIX inside the buffer of the packet: octets are
    moved to make room, 32-bit uptimes become 64-bit times, and a NetFlow 5 packet
    gets the template set that its format lacks.  The state is what the file keeps
    in static variables.  The host is little endian, and sFlow is compiled out, as
    it is by default. *)

From S2P Require Import Prelude CLib TemplateRecord DataRecord Message.

(** ** Constants *)

Definition NETFLOW_V5_VERSION : Z := 5.
Definition NETFLOW_V9_VERSION : Z := 9.
Definition NETFLOW_V5_TEMPLATE_LEN : Z := 76.
Definition NETFLOW_V5_DATA_SET_LEN : Z := 52.
Definition NETFLOW_V5_NUM_OF_FIELDS : Z := 17.
Definition NETFLOW_V5_MAX_RECORD_COUNT : Z := 30.
Definition NETFLOW_V9_TEMPLATE_SET_ID : Z := 0.
Definition NETFLOW_V9_OPT_TEMPLATE_SET_ID : Z := 1.
Definition NETFLOW_V9_END_ELEM : Z := 21.
Definition NETFLOW_V9_START_ELEM : Z := 22.
Definition FIRST_OFFSET : Z := 24.
Definition LAST_OFFSET : Z := 28.
Definition FLOW_START : Z := 152.
Definition FLOW_END : Z := 153.
Definition DEFAULT_ENTERPRISE_NUMBER : Z := 0xFFFFFFFF.
Definition ENTERPRISE_BIT : Z := 0x8000.
Definition TEMPLATE_ROW_SIZE : Z := 4.
Definition CONVERSION_ERROR : Z := -1.
Definition sizeof_ipfix_set_header : Z := 4.
Definition sizeof_template_ie : Z := 4.

(** The template of NetFlow 5 records: identifiers and lengths of the elements,
    behind the headers of the set and of the record. *)
Definition netflow_v5_elements : list (Z * Z) :=
  [ (8, 4); (12, 4); (15, 4); (10, 2); (14, 2); (2, 4); (1, 4); (FLOW_START, 8); (FLOW_END, 8);
    (7, 2); (11, 2); (210, 1); (6, 1); (4, 1); (5, 1); (16, 2); (17, 2) ].

Definition netflow_v5_template : list Z :=
  [IPFIX_TEMPLATE_FLOWSET_ID; NETFLOW_V5_TEMPLATE_LEN; IPFIX_MIN_RECORD_FLOWSET_ID; NETFLOW_V5_NUM_OF_FIELDS] ++
  mjoin ((λ e, [e.1; e.2]) <$> netflow_v5_elements).

(** ** State *)

Inductive input_plugin := UDP_PLUGIN | TCP_PLUGIN | SCTP_PLUGIN.
#[export] Instance input_plugin_eq_dec : EqDecision input_plugin.
Proof. solve_decision. Defined.

(** [templates], the arrays to be copied into packets (16-bit numbers of the
    host), the sequence numbers and the other static variables. *)
Record convert_state := {
  templates_max : Z;
  templates_cols : Z;
  templates_templ : list Z;
  nf5_template : list Z;
  nf5_data_header : Z * Z;
  nf5_seq_no : Z;
  nf9_seq_no : Z;
  inserted : Z;
  plugin : input_plugin;
  buff_len : Z
}.

(** The members of [struct input_info_list] that the conversion uses. *)
Record input_info_list := {
  li_template_life_packet : option bytes;
  li_template_life_time : option bytes;
  li_last_sent : Z;
  li_packets_sent : Z
}.

Definition set_templates (st : convert_state) (max : Z) (templ : list Z) : convert_state :=
  {| templates_max := max; templates_cols := templates_cols st; templates_templ := templ;
     nf5_template := nf5_template st; nf5_data_header := nf5_data_header st; nf5_seq_no := nf5_seq_no st;
     nf9_seq_no := nf9_seq_no st; inserted := inserted st; plugin := plugin st; buff_len := buff_len st |}.
Definition set_inserted (st : convert_state) : convert_state :=
  {| templates_max := templates_max st; templates_cols := templates_cols st; templates_templ := templates_templ st;
     nf5_template := nf5_template st; nf5_data_header := nf5_data_header st; nf5_seq_no := nf5_seq_no st;
     nf9_seq_no := nf9_seq_no st; inserted := 1; plugin := plugin st; buff_len := buff_len st |}.
Definition set_seq (st : convert_state) (nf5 nf9 : Z) : convert_state :=
  {| templates_max := templates_max st; templates_cols := templates_cols st; templates_templ := templates_templ st;
     nf5_template := nf5_template st; nf5_data_header := nf5_data_header st; nf5_seq_no := nf5;
     nf9_seq_no := nf9; inserted := inserted st; plugin := plugin st; buff_len := buff_len st |}.
Definition set_data_header (st : convert_state) (h : Z * Z) : convert_state :=
  {| templates_max := templates_max st; templates_cols := templates_cols st; templates_templ := templates_templ st;
     nf5_template := nf5_template st; nf5_data_header := h; nf5_seq_no := nf5_seq_no st;
     nf9_seq_no := nf9_seq_no st; inserted := inserted st; plugin := plugin st; buff_len := buff_len st |}.

(** [htons] on a little-endian host, and a 16-bit number as it is in memory. *)
Definition htons (x : Z) : Z := u8 x * 256 + u8 (x / 256).
Definition le16 (x : Z) : bytes := [u8 x; u8 (x / 256)].

Definition modify (st : convert_state) : convert_state :=
  let st := {| templates_max := templates_max st; templates_cols := templates_cols st;
               templates_templ := templates_templ st; nf5_template := htons <$> nf5_template st;
               nf5_data_header := nf5_data_header st; nf5_seq_no := nf5_seq_no st; nf9_seq_no := nf9_seq_no st;
               inserted := inserted st; plugin := plugin st; buff_len := buff_len st |} in
  set_data_header st (htons (nf5_data_header st).1, htons (nf5_data_header st).2).

(** The static variables when the process starts. *)
Definition convert_static : convert_state :=
  {| templates_max := 0; templates_cols := 0; templates_templ := [];
     nf5_template := netflow_v5_template;
     nf5_data_header := (IPFIX_MIN_RECORD_FLOWSET_ID, NETFLOW_V5_DATA_SET_LEN + sizeof_ipfix_set_header);
     nf5_seq_no := 0; nf9_seq_no := 0; inserted := 0; plugin := UDP_PLUGIN; buff_len := 0 |}.

Definition convert_init (st : convert_state) (in_plugin : input_plugin) (len : Z) : convert_state :=
  modify {| templates_max := 30; templates_cols := 2; templates_templ := replicate (30 * 2) 0;
            nf5_template := nf5_template st; nf5_data_header := nf5_data_header st; nf5_seq_no := nf5_seq_no st;
            nf9_seq_no := nf9_seq_no st; inserted := inserted st; plugin := in_plugin; buff_len := u32 len |}.

Definition templates_realloc (st : convert_state) : convert_state :=
  set_templates st (u32 (templates_max st + 20))
    (templates_templ st ++ replicate (Z.to_nat (20 * templates_cols st)) 0).

(** ** NetFlow 5 *)

(** Removal of the last four octets of each record but the last, from the back. *)
Fixpoint remove_paddings (mem : bytes) (count : Z) (i : nat) : res bytes :=
  match i with
  | O => Ok mem
  | S i' =>
      let pos := IPFIX_HEADER_LENGTH + Z.of_nat i * (NETFLOW_V5_DATA_SET_LEN + 4) in
      mem ← memmove mem (pos - 4) pos ((count - Z.of_nat i) * NETFLOW_V5_DATA_SET_LEN);
      remove_paddings mem count i'
  end.

(** The set of the template goes behind the header of the message. *)
Definition insert_nf5_template (st : convert_state) (mem : bytes) : res bytes :=
  mem ← memmove mem (IPFIX_HEADER_LENGTH + NETFLOW_V5_TEMPLATE_LEN) IPFIX_HEADER_LENGTH
          (u32 (buff_len st - NETFLOW_V5_TEMPLATE_LEN - IPFIX_HEADER_LENGTH));
  wrn mem IPFIX_HEADER_LENGTH (mjoin (le16 <$> nf5_template st)).

Definition insert_nf5_data_header (st : convert_state) (mem : bytes) (count : Z) : res (convert_state * bytes) :=
  let st := set_data_header st ((nf5_data_header st).1,
              htons (u16 (NETFLOW_V5_DATA_SET_LEN * count + sizeof_ipfix_set_header))) in
  mem ← memmove mem (IPFIX_HEADER_LENGTH + 4) IPFIX_HEADER_LENGTH (u32 (buff_len st - IPFIX_HEADER_LENGTH - 4));
  mem ← wrn mem IPFIX_HEADER_LENGTH (le16 (nf5_data_header st).1 ++ le16 (nf5_data_header st).2);
  Ok (st, mem).

(** Whether the template goes into the packet, and the states afterwards;
    [export_time] is the one of the header. *)
Definition template_due (st : convert_state) (info_list : option input_info_list) (count export_time : Z) :
    bool * convert_state * option input_info_list :=
  let once := if decide (inserted st = 0) then (true, set_inserted st, info_list) else (false, st, info_list) in
  if decide (plugin st = UDP_PLUGIN) then
    match info_list with
    | None => once
    | Some i =>
        match li_template_life_packet i, li_template_life_time i with
        | None, None => once
        | life_packet, life_time =>
            let last := match life_packet with
                        | Some s => if decide (li_packets_sent i = strtol s) then export_time else 0
                        | None => 0
                        end in
            let '(last, sent) :=
              match life_time with
              | Some s => if decide (last = 0)
                          then (u32 (li_last_sent i + strtol s),
                                if decide (count > 0) then u16 (li_packets_sent i + 1) else li_packets_sent i)
                          else (last, li_packets_sent i)
              | None => (last, li_packets_sent i)
              end in
            if decide (last ≤ export_time)
            then (true, st, Some {| li_template_life_packet := life_packet; li_template_life_time := life_time;
                                    li_last_sent := export_time; li_packets_sent := 1 |})
            else (false, st, Some {| li_template_life_packet := life_packet; li_template_life_time := life_time;
                                     li_last_sent := li_last_sent i; li_packets_sent := sent |})
        end
    end
  else once.

(** The result is the length for the header, in host order. *)
Definition insert_template_set (st : convert_state) (info_list : option input_info_list) (mem : bytes)
    (count len : Z) : res (convert_state * option input_info_list * bytes * Z * Z) :=
  mem ← remove_paddings mem count (Z.to_nat (count - 1));
  let len := len - count * 4 in
  x ← (if decide (count > 0) then
         y ← insert_nf5_data_header st mem count; Ok (y.1, y.2, len + sizeof_ipfix_set_header)
       else Ok (st, mem, IPFIX_HEADER_LENGTH));
  let '(st, mem, len) := x in
  export_time ← rd32 mem 4;
  let '(due, st, info_list) := template_due st info_list count export_time in
  let sets := sizeof_ipfix_set_header + NETFLOW_V5_DATA_SET_LEN * count in
  if due then
    mem ← insert_nf5_template st mem;
    Ok (st, info_list, mem, len + NETFLOW_V5_TEMPLATE_LEN,
        u16 (IPFIX_HEADER_LENGTH + NETFLOW_V5_TEMPLATE_LEN + sets))
  else Ok (st, info_list, mem, len, u16 (IPFIX_HEADER_LENGTH + sets)).

(** The two times of a record become 64-bit milliseconds, from the last record to
    the first. *)
Fixpoint resize_timestamps (mem : bytes) (time_header sys_uptime shifted : Z) (k : nat) : res bytes :=
  match k with
  | O => Ok mem
  | S i =>
      let pkt := IPFIX_HEADER_LENGTH + Z.of_nat i * (NETFLOW_V5_DATA_SET_LEN - 4) in
      first ← rd32 mem (pkt + FIRST_OFFSET);
      last ← rd32 mem (pkt + LAST_OFFSET);
      mem ← memmove mem (pkt + LAST_OFFSET + 8) (pkt + LAST_OFFSET)
              (shifted * (NETFLOW_V5_DATA_SET_LEN + 4) + (NETFLOW_V5_DATA_SET_LEN - LAST_OFFSET));
      mem ← wr64 mem (pkt + FIRST_OFFSET) (u64 (time_header - u64 (sys_uptime - first)));
      mem ← wr64 mem (pkt + LAST_OFFSET + 4) (u64 (time_header - u64 (sys_uptime - last)));
      resize_timestamps mem time_header sys_uptime (shifted + 1) i
  end.

(** The header of a NetFlow 5 packet made one of IPFIX: the export time goes to the
    place of the uptime and eight octets are closed; of the engine number four bits
    are kept as the domain. *)
Definition nf5_header (st : convert_state) (mem : bytes) : res bytes :=
  x ← rdn mem 8 4;
  mem ← wrn mem 4 x;
  mem ← memmove mem 8 IPFIX_HEADER_LENGTH (u32 (buff_len st - IPFIX_HEADER_LENGTH));
  mem ← memmove mem 12 (12 + 1) 1;
  engine ← rd8 mem 13;
  wrn mem 12 [0; Z.land engine 0xF0; 0; 0].

Definition convert_nf5 (st : convert_state) (info_list : option input_info_list) (mem : bytes) (len : Z) :
    res (convert_state * option input_info_list * bytes * Z) :=
  sys_uptime ← rd32 mem 4;
  unix_secs ← rd32 mem 8;
  unix_nsecs ← rd32 mem 12;
  let time_header := u64 (unix_secs * 1000 + unix_nsecs / 1000000) in
  n ← rd16 mem 2;
  let count := Z.min n NETFLOW_V5_MAX_RECORD_COUNT in
  mem ← nf5_header st mem;
  let len := len - 8 in
  mem ← resize_timestamps mem time_header sys_uptime 0 (Z.to_nat count);
  let len := len + count * 8 in
  x ← insert_template_set st info_list mem count len;
  let '(st, info_list, mem, len, length) := x in
  mem ← wr16 mem 2 length;
  mem ← wr32 mem 8 (nf5_seq_no st);
  let st := if decide (len >= length) then set_seq st (u32 (nf5_seq_no st + count)) (nf9_seq_no st) else st in
  Ok (st, info_list, mem, len).

(** ** NetFlow 9 *)

(** The element at [p] of a template: uptimes become 64-bit times, and [len] and
    [pos] are the length of a record and the offset of its first time so far. *)
Definition timestamp_field (mem : bytes) (p len pos : Z) : res (bytes * Z * Z) :=
  id ← rd16 mem p;
  let time flow :=
    mem ← wr16 mem p flow; mem ← wr16 mem (p + 2) 8;
    Ok (mem, len + 4, if decide (pos = -1) then len else pos) in
  if decide (id = NETFLOW_V9_END_ELEM) then time FLOW_END
  else if decide (id = NETFLOW_V9_START_ELEM) then time FLOW_START
  else count ← rd16 mem (p + 2); Ok (mem, len + count, pos).

Fixpoint timestamp_fields (num : nat) (mem : bytes) (p len pos : Z) : res (bytes * Z * Z) :=
  match num with
  | O => Ok (mem, len, pos)
  | S num =>
      x ← timestamp_field mem p len pos;
      let '(mem, len, pos) := x in timestamp_fields num mem (p + 4) len pos
  end.

(** One record at [tmp], whose header has [hdr] octets and [num] elements; [false]
    is the error for an identifier out of range.  Both entries of the table are
    written before the elements are read and at each of them. *)
Definition timestamp_record (st : convert_state) (mem : bytes) (tmp hdr num : Z) :
    res (bool * convert_state * bytes * Z) :=
  tid ← rd16 mem tmp;
  let id := u16 (tid - IPFIX_MIN_RECORD_FLOWSET_ID) in
  let st := if decide (id >= templates_max st) then templates_realloc st else st in
  let len_i := u32 (templates_cols st * id) in
  let pos_i := u32 (len_i + 1) in
  if decide (len_i > u32 (templates_max st * templates_cols st)) then Ok (false, st, mem, tmp) else
  if decide (Z.of_nat (length (templates_templ st)) ≤ Z.max len_i pos_i) then Fault OobWrite else
  x ← timestamp_fields (Z.to_nat num) mem (tmp + hdr) 0 (-1);
  let '(mem, len, pos) := x in
  Ok (true, set_templates st (templates_max st)
              (<[Z.to_nat pos_i := pos]> (<[Z.to_nat len_i := len]> (templates_templ st))), mem, tmp + hdr + 4 * num).

(** The records of the set at [set]; [len] is the length of the set without the
    header of a record. The state of the loop is at [tmp]. *)
Definition timestamp_template_step (set len : Z) (hdr : Z) (num : bytes → Z → res Z)
    (s : convert_state * bytes * Z) : res ((convert_state * bytes * Z) + (bool * convert_state * bytes)) :=
  let '(st, mem, tmp) := s in
  if decide (tmp ≤ set + len) then
    n ← num mem tmp;
    x ← timestamp_record st mem tmp hdr n;
    let '(ok, st, mem, tmp) := x in
    Ok (if (ok : bool) then inl (st, mem, tmp) else inr (false, st, mem))
  else Ok (inr (true, st, mem)).

(** Every turn goes at least four octets on, so this many turns reach the end. *)
Definition set_fuel : nat := Z.to_nat 65536.

Definition template_count (mem : bytes) (tmp : Z) : res Z := rd16 mem (tmp + 2).
Definition otemplate_count (mem : bytes) (tmp : Z) : res Z :=
  a ← rd16 mem (tmp + 2); b ← rd16 mem (tmp + 4); Ok (u16 ((a + b) / 4)).

Definition insert_timestamp_template (st : convert_state) (mem : bytes) (set : Z) :
    res (bool * convert_state * bytes) :=
  n ← rd16 mem (set + 2);
  loop (timestamp_template_step set (u16 (n - sizeof_ipfix_template_record)) 4 template_count) set_fuel
    (st, mem, set + sizeof_ipfix_set_header).

Definition insert_timestamp_otemplate (st : convert_state) (mem : bytes) (set : Z) :
    res (bool * convert_state * bytes) :=
  n ← rd16 mem (set + 2);
  loop (timestamp_template_step set (u16 (n - sizeof_ipfix_options_template_record)) 6 otemplate_count) set_fuel
    (st, mem, set + sizeof_ipfix_set_header).

(** The records of a data set, from record [k - 1] to the first: [rec_len] is the
    length of a record, [first_offset] the place of the times in it. *)
Fixpoint timestamp_records (mem : bytes) (set rec_len first_offset time_header remaining len shifted : Z)
    (k : nat) : res (bytes * Z) :=
  match k with
  | O => Ok (mem, shifted)
  | S i =>
      let pkt := set + 4 + Z.of_nat i * rec_len in
      let last_offset := first_offset + 4 in
      first ← rd32 mem (pkt + first_offset);
      last ← rd32 mem (pkt + last_offset);
      mem ← memmove mem (pkt + last_offset + 8) (pkt + last_offset)
              (u32 (shifted * (rec_len + 8) + (rec_len + 4 - last_offset) + u32 (remaining - len)));
      mem ← wr64 mem (pkt + first_offset) (u64 (time_header + first));
      mem ← wr64 mem (pkt + last_offset + 4) (u64 (time_header + last));
      timestamp_records mem set rec_len first_offset time_header remaining len (u16 (shifted + 1)) i
  end.

(** The result is the number of records that were made longer. *)
Definition insert_timestamp_data (st : convert_state) (mem : bytes) (set time_header remaining : Z) :
    res (convert_state * bytes * Z) :=
  sid ← rd16 mem set;
  n ← rd16 mem (set + 2);
  let id := u16 (sid - IPFIX_MIN_RECORD_FLOWSET_ID) in
  let len := u16 (n - 4) in
  let len_i := u32 (templates_cols st * id) in
  let pos_i := u32 (len_i + 1) in
  if decide (len_i > u32 (templates_max st * templates_cols st)) then Ok (st, mem, 0) else
  rec_len ← or_fault OobRead (templates_templ st !! Z.to_nat len_i);
  if decide (rec_len ≤ 0) then Ok (st, mem, 0) else
  let num := u16 (len / rec_len) in
  if decide (num = 0) then Ok (st, mem, 0) else
  let st := set_seq st (nf5_seq_no st) (u32 (nf9_seq_no st + num)) in
  first_offset ← or_fault OobRead (templates_templ st !! Z.to_nat pos_i);
  if decide (first_offset = -1) then Ok (st, mem, 0) else
  x ← timestamp_records mem set rec_len first_offset time_header remaining len 0 (Z.to_nat num);
  let '(mem, shifted) := x in
  mem ← wr16 mem (set + 2) (u16 (len + 4 + shifted * 8));
  Ok (st, mem, shifted).

(** *** Enterprise numbers *)

(** The elements of a record from row [row] on, on the packet, [row], [remaining],
    [set_len] and the number of rows added. *)
Fixpoint unpack_fields (num : nat) (mem : bytes) (row remaining set_len added : Z) :
    res (bytes * Z * Z * Z * Z) :=
  match num with
  | O => Ok (mem, row, remaining, set_len, added)
  | S num =>
      let row := row + 4 in
      let remaining := u32 (remaining - TEMPLATE_ROW_SIZE) in
      field_id ← rd16 mem row;
      if decide (Z.land field_id ENTERPRISE_BIT = 0) then unpack_fields num mem row remaining set_len added
      else
        let row := row + 4 in
        mem ← memmove mem (row + TEMPLATE_ROW_SIZE) row remaining;
        mem ← wr32 mem row DEFAULT_ENTERPRISE_NUMBER;
        unpack_fields num mem row remaining (u16 (set_len + TEMPLATE_ROW_SIZE)) (u16 (added + 1))
  end.

(** The loop over the records: [skip] is what the header of a record has behind its
    first row, [num] the number of its elements. *)
Definition unpack_step (set skip : Z) (num : bytes → Z → res Z) (s : bytes * Z * Z * Z * Z) :
    res ((bytes * Z * Z * Z * Z) + (bytes * Z)) :=
  let '(mem, row, remaining, set_len, added) := s in
  let row := row + 4 in
  if decide (row < set + set_len) then
    let remaining := u32 (remaining - TEMPLATE_ROW_SIZE) in
    n ← num mem row;
    x ← unpack_fields (Z.to_nat n) mem (row + skip) remaining set_len added; Ok (inl x)
  else Ok (inr (mem, added)).

Definition unpack_set (mem : bytes) (set remaining skip : Z) (num : bytes → Z → res Z) : res (bytes * Z) :=
  n ← rd16 mem (set + 2);
  x ← loop (unpack_step set skip num) set_fuel (mem, set, remaining, u16 (n - sizeof_ipfix_set_header), 0);
  let '(mem, added) := x in
  n ← rd16 mem (set + 2);
  mem ← wr16 mem (set + 2) (u16 (n + added * TEMPLATE_ROW_SIZE));
  Ok (mem, added * TEMPLATE_ROW_SIZE).

Definition unpack_enterprise_elements (mem : bytes) (set remaining : Z) : res (bytes * Z) :=
  unpack_set mem set remaining 0 template_count.
Definition unpack_ot_enterprise_elements (mem : bytes) (set remaining : Z) : res (bytes * Z) :=
  unpack_set mem set remaining 2 otemplate_count.

(** *** Options templates *)

(** The fields of the record at [rec] are counted in 8-bit variables: the offset of
    a field, its index and the number of scope fields. *)
Definition options_scope_step (mem : bytes) (rec option_scope_len option_len : Z) (s : Z * Z * Z) :
    res ((Z * Z * Z) + (Z * Z)) :=
  let '(field_offset, field_index, scope_field_count) := s in
  if decide (field_offset < option_scope_len + option_len) then
    let scope_field_count := if decide (field_offset < option_scope_len)
                             then u8 (scope_field_count + 1) else scope_field_count in
    id ← rd16 mem (rec + 6 + 4 * field_index);
    let '(field_offset, field_index) :=
      if decide (Z.land id 0x8000 = 0) then (field_offset, field_index)
      else (u8 (field_offset + sizeof_template_ie), u8 (field_index + 1)) in
    Ok (inl (u8 (field_offset + sizeof_template_ie), u8 (field_index + 1), scope_field_count))
  else Ok (inr (field_index, scope_field_count)).

(** The loop has at most 64 * 256 states: one that is longer never ends. *)
Definition options_scope_fuel : nat := Z.to_nat 16385.

Definition options_record_step (set set_len : Z) (s : bytes * Z) : res ((bytes * Z) + bytes) :=
  let '(mem, rec) := s in
  if decide (rec - set < set_len - (sizeof_ipfix_options_template_record - sizeof_template_ie)) then
    option_scope_len ← rd16 mem (rec + 2);
    option_len ← rd16 mem (rec + 4);
    let rec_len := u16 (option_scope_len + option_len + sizeof_ipfix_options_template_record - sizeof_template_ie) in
    x ← loop (options_scope_step mem rec option_scope_len option_len) options_scope_fuel (0, 0, 0);
    let '(field_index, scope_field_count) := x in
    mem ← wr16 mem (rec + 2) field_index;
    mem ← wr16 mem (rec + 4) scope_field_count;
    Ok (inl (mem, rec + rec_len))
  else Ok (inr mem).

(** *** The sets of a packet *)

(** The results of the three kinds of sets are the packet with its length behind
    whether it was converted; otherwise the caller leaves with [CONVERSION_ERROR].
    [remaining] is what the header does not count yet. *)
Definition nf9_template_set (st : convert_state) (mem : bytes) (p len remaining : Z) :
    res (bool * convert_state * bytes * Z) :=
  mem ← wr16 mem p IPFIX_TEMPLATE_FLOWSET_ID;
  n ← rd16 mem (p + 2);
  if decide (n > 0) then
    x ← insert_timestamp_template st mem p;
    let '(ok, st, mem) := x in
    if (ok : bool) then
      y ← unpack_enterprise_elements mem p remaining; Ok (true, st, y.1, len + y.2)
    else Ok (false, st, mem, len)
  else Ok (true, st, mem, len).

Definition nf9_options_set (st : convert_state) (mem : bytes) (p len remaining : Z) :
    res (bool * convert_state * bytes * Z) :=
  mem ← wr16 mem p IPFIX_OPTION_FLOWSET_ID;
  set_len ← rd16 mem (p + 2);
  x ← (if decide (set_len > 0) then
         x ← insert_timestamp_otemplate st mem p;
         let '(ok, st, mem) := x in
         if (ok : bool) then
           y ← unpack_ot_enterprise_elements mem p remaining; Ok (true, st, y.1, len + y.2)
         else Ok (false, st, mem, len)
       else Ok (true, st, mem, len));
  let '(ok, st, mem, len) := x in
  if (ok : bool) then
    mem ← loop (options_record_step p set_len) set_fuel (mem, p + sizeof_ipfix_set_header);
    Ok (true, st, mem, len)
  else Ok (false, st, mem, len).

(** A set whose length is no multiple of four gets padding behind it. *)
Definition nf9_pad_set (mem : bytes) (p len offset max_len : Z) : res (bool * bytes * Z) :=
  set_len ← rd16 mem (p + 2);
  if decide (set_len > len) then Ok (false, mem, len) else
  if decide (set_len mod 4 ≠ 0) then
    let padding_len := 4 - set_len mod 4 in
    if decide (len + padding_len > max_len) then Ok (false, mem, len) else
    mem ← memmove mem (p + set_len + padding_len) (p + set_len) (len - offset + set_len);
    mem ← memset mem (p + set_len) 0 padding_len;
    mem ← wr16 mem (p + 2) (u16 (set_len + padding_len));
    Ok (true, mem, len + padding_len)
  else Ok (true, mem, len).

Definition nf9_data_set (st : convert_state) (mem : bytes) (p len remaining offset max_len time_header : Z) :
    res (bool * convert_state * bytes * Z) :=
  n ← rd16 mem (p + 2);
  if decide (n > 0) then
    x ← insert_timestamp_data st mem p time_header remaining;
    let '(st, mem, shifted) := x in
    y ← nf9_pad_set mem p (len + shifted * 8) offset max_len;
    let '(ok, mem, len) := y in Ok (ok, st, mem, len)
  else Ok (true, st, mem, len).

(** The loop over the sets, at [p], which is [offset] modulo 2^16. *)
Definition nf9_step (max_len time_header : Z) (s : convert_state * bytes * Z * Z * Z) :
    res ((convert_state * bytes * Z * Z * Z) + (bool * convert_state * bytes * Z)) :=
  let '(st, mem, len, p, offset) := s in
  if decide (p < len) then
    id ← rd16 mem p;
    length ← rd16 mem 2;
    let remaining := u32 (len - length) in
    x ← (if decide (id = NETFLOW_V9_TEMPLATE_SET_ID) then nf9_template_set st mem p len remaining
         else if decide (id = NETFLOW_V9_OPT_TEMPLATE_SET_ID) then nf9_options_set st mem p len remaining
         else nf9_data_set st mem p len remaining offset max_len time_header);
    let '(ok, st, mem, len) := x in
    if negb ok then Ok (inr (false, st, mem, len)) else
    length ← rd16 mem 2;
    set_len ← rd16 mem (p + 2);
    mem ← wr16 mem 2 (u16 (length + set_len));
    length ← rd16 mem 2;
    if decide (length > len) then Ok (inr (false, st, mem, len)) else
    set_len ← rd16 mem (p + 2);
    if decide (set_len = 0) then Ok (inr (true, st, mem, len))
    else Ok (inl (st, mem, len, p + set_len, u16 (offset + set_len)))
  else Ok (inr (true, st, mem, len)).

Definition nf9_header (st : convert_state) (mem : bytes) : res bytes :=
  mem ← memmove mem 4 8 (u32 (buff_len st - 8));
  mem ← memset mem (u32 (buff_len st - 8)) 0 4;
  mem ← wr16 mem 2 IPFIX_HEADER_LENGTH;
  wr32 mem 8 (nf9_seq_no st).

Definition convert_nf9 (st : convert_state) (mem : bytes) (len max_len : Z) :
    res (bool * convert_state * bytes * Z) :=
  sys_uptime ← rd32 mem 4;
  unix_secs ← rd32 mem 8;
  let time_header := u64 (unix_secs * 1000 - sys_uptime) in
  mem ← nf9_header st mem;
  loop (nf9_step max_len time_header) (S (length mem))
    (st, mem, len - 4, IPFIX_HEADER_LENGTH, IPFIX_HEADER_LENGTH).

(** ** Packets *)

(** The return value, 0 or [CONVERSION_ERROR], behind the state and the packet. *)
Definition convert_packet (st : convert_state) (mem : bytes) (len max_len : Z)
    (info_list : option input_info_list) :
    res (convert_state * option input_info_list * bytes * Z * Z) :=
  version ← rd16 mem 0;
  if decide (version = NETFLOW_V9_VERSION) then
    x ← convert_nf9 st mem len max_len;
    let '(ok, st, mem, len) := x in
    if (ok : bool) then mem ← wr16 mem 0 IPFIX_VERSION; Ok (st, info_list, mem, len, 0)
    else Ok (st, info_list, mem, len, CONVERSION_ERROR)
  else if decide (version = NETFLOW_V5_VERSION) then
    x ← convert_nf5 st info_list mem len;
    let '(st, info_list, mem, len) := x in
    mem ← wr16 mem 0 IPFIX_VERSION; Ok (st, info_list, mem, len, 0)
  else Ok (st, info_list, mem, len, CONVERSION_ERROR).

(** ** NetFlow 5 packets *)

(** A record of a NetFlow 5 packet: what is in front of the times, the two times,
    the ports to the autonomous systems, the masks and padding. *)
Record nf5_record := {
  r5_head : bytes;
  r5_first : Z;
  r5_last : Z;
  r5_middle : bytes;
  r5_padding : bytes
}.

Record nf5_wf (r : nf5_record) : Prop := {
  r5_head_len : blen (r5_head r) = 24;
  r5_first_range : is_u32 (r5_first r);
  r5_last_range : is_u32 (r5_last r);
  r5_middle_len : blen (r5_middle r) = 12;
  r5_padding_len : blen (r5_padding r) = 4
}.

Definition enc_nf5_record (r : nf5_record) : bytes :=
  r5_head r ++ enc32 (r5_first r) ++ enc32 (r5_last r) ++ r5_middle r ++ r5_padding r.
Definition enc_nf5_header (count uptime secs nsecs seq engine_type engine_id sampling : Z) : bytes :=
  enc16 NETFLOW_V5_VERSION ++ enc16 count ++ enc32 uptime ++ enc32 secs ++ enc32 nsecs ++ enc32 seq ++
  [engine_type; engine_id] ++ enc16 sampling.

(** The time of day of an uptime, in milliseconds. *)
Definition nf5_time (secs nsecs uptime t : Z) : Z :=
  u64 (u64 (secs * 1000 + nsecs / 1000000) - u64 (uptime - t)).

(** The record as IPFIX has it. *)
Definition enc_ipfix_record (secs nsecs uptime : Z) (r : nf5_record) : bytes :=
  r5_head r ++ enc64 (nf5_time secs nsecs uptime (r5_first r)) ++ enc64 (nf5_time secs nsecs uptime (r5_last r)) ++
  r5_middle r.

Section nf5.
Context (secs nsecs uptime : Z).
Let small := enc_ipfix_record secs nsecs uptime.
Let big (r : nf5_record) : bytes := small r ++ r5_padding r.

Lemma blen_nf5_record r : nf5_wf r →
  blen (enc_nf5_record r) = 48 ∧ blen (small r) = 52 ∧ blen (big r) = 56.
Proof.
  intros [? ? ? ? ?]. unfold big, small, enc_nf5_record, enc_ipfix_record.
  rewrite !blen_app, !blen_enc32, !blen_enc64. lia.
Qed.

Lemma blen_nf5_records rs : Forall nf5_wf rs →
  blen (mjoin (enc_nf5_record <$> rs)) = 48 * Z.of_nat (length rs) ∧
  blen (mjoin (small <$> rs)) = 52 * Z.of_nat (length rs) ∧
  blen (mjoin (big <$> rs)) = 56 * Z.of_nat (length rs).
Proof.
  intros Hwf. split_and!; apply blen_blocks; eapply Forall_impl; try exact Hwf; intros r; apply blen_nf5_record.
Qed.

Lemma resize_timestamps_spec pre : blen pre = 16 → ∀ rs E tail shifted,
  Forall nf5_wf rs → blen E = 56 * shifted → 4 + 8 * Z.of_nat (length rs) ≤ blen tail →
  ∃ tail',
    resize_timestamps (pre ++ mjoin (enc_nf5_record <$> rs) ++ E ++ tail) (u64 (secs * 1000 + nsecs / 1000000)) uptime
      shifted (length rs) = Ok (pre ++ mjoin (big <$> rs) ++ E ++ tail') ∧
    blen tail' = blen tail - 8 * Z.of_nat (length rs).
Proof.
  intros Hpre rs. induction rs as [|r rs IH] using rev_ind; intros E tail shifted Hwf HE Htail.
  - exists tail. cbn. split; [done|lia].
  - apply Forall_app in Hwf as [Hrs [Hr _]%Forall_cons]. rewrite length_app, Nat.add_1_r in *. cbn [resize_timestamps].
    rewrite !mjoin_fmap_snoc.
    destruct Hr as [Hh Hf Hl Hm Hp].
    set (P := pre ++ mjoin (enc_nf5_record <$> rs)).
    assert (blen P = 16 + Z.of_nat (length rs) * 48) as HP by (unfold P; rewrite blen_app, (proj1 (blen_nf5_records rs Hrs)); lia).
    destruct (blen_split tail 4) as (t4 & tl & -> & Ht4 & Htl); [lia|].
    unfold IPFIX_HEADER_LENGTH, NETFLOW_V5_DATA_SET_LEN, FIRST_OFFSET, LAST_OFFSET.
    change (52 - 4) with 48. rewrite <-HP.
    set (x := enc32 (r5_last r) ++ r5_middle r ++ r5_padding r ++ E ++ t4).
    assert (pre ++ (mjoin (enc_nf5_record <$> rs) ++ enc_nf5_record r) ++ E ++ t4 ++ tl =
      (P ++ r5_head r ++ enc32 (r5_first r)) ++ x ++ tl) as ->
      by (unfold P, x, enc_nf5_record; rewrite <-!app_assoc; done).
    assert (blen x = shifted * 56 + 24) as Hx
      by (unfold x; rewrite !blen_app, blen_enc32; lia).
    assert (rd32 ((P ++ r5_head r ++ enc32 (r5_first r)) ++ x ++ tl) (blen P + 24) = Ok (r5_first r)) as ->.
    { replace (blen P + 24) with (blen (P ++ r5_head r)) by (rewrite blen_app; lia).
      rewrite (app_assoc P), <-(app_assoc (P ++ r5_head r)). by apply rd32_here. }
    assert (rd32 ((P ++ r5_head r ++ enc32 (r5_first r)) ++ x ++ tl) (blen P + 28) = Ok (r5_last r)) as ->.
    { replace (blen P + 28) with (blen (P ++ r5_head r ++ enc32 (r5_first r))) by (rewrite !blen_app, blen_enc32; lia).
      unfold x. rewrite <-(app_assoc (enc32 (r5_last r))). by apply rd32_here. }
    rewrite !res_bind_ret.
    destruct (memmove_up (P ++ r5_head r ++ enc32 (r5_first r)) x tl 8) as (gap & tl' & Emv & Hg & Htl' & _); [lia|].
    rewrite !blen_app, blen_enc32, Hx in Emv.
    replace (blen P + 28 + 8) with (blen P + (blen (r5_head r) + 4) + 8) by lia.
    replace (blen P + 28) with (blen P + (blen (r5_head r) + 4)) by lia.
    change (52 + 4) with 56. change (52 - 28) with 24. rewrite Emv, res_bind_ret.
    destruct (blen_split gap 4) as (g1 & g2 & -> & Hg1 & Hg2); [lia|].
    fold (nf5_time secs nsecs uptime (r5_first r)). fold (nf5_time secs nsecs uptime (r5_last r)).
    set (v1 := nf5_time secs nsecs uptime (r5_first r)). set (v2 := nf5_time secs nsecs uptime (r5_last r)).
    set (z := r5_middle r ++ r5_padding r ++ E ++ t4 ++ tl').
    replace ((P ++ r5_head r ++ enc32 (r5_first r)) ++ (g1 ++ g2) ++ x ++ tl')
      with ((P ++ r5_head r) ++ (enc32 (r5_first r) ++ g1) ++ (g2 ++ enc32 (r5_last r)) ++ z)
      by (unfold x, z; rewrite <-!app_assoc; done).
    replace (blen P + 24) with (blen (P ++ r5_head r)) by (rewrite blen_app; lia).
    rewrite wr64_over by (rewrite blen_app, blen_enc32; lia). rewrite res_bind_ret.
    replace (blen P + (blen (r5_head r) + 4) + 4) with (blen ((P ++ r5_head r) ++ enc64 v1))
      by (rewrite !blen_app, blen_enc64; lia).
    rewrite (app_assoc (P ++ r5_head r)), wr64_over by (rewrite blen_app, blen_enc32; lia). rewrite res_bind_ret.
    destruct (IH (big r ++ E) (t4 ++ tl') (shifted + 1) Hrs) as (tail' & Eih & Ht').
    { rewrite blen_app, (proj2 (proj2 (blen_nf5_record r ltac:(done)))). lia. }
    { rewrite blen_app. lia. }
    exists tail'. split.
    + etrans; [|etrans; [exact Eih|] ]; [f_equal|f_equal; by rewrite <-!app_assoc].
      unfold P, z, big, small, enc_ipfix_record. rewrite <-!app_assoc. done.
    + rewrite blen_app in *. rewrite Ht'. lia.
Qed.

Lemma remove_paddings_spec pre count : blen pre = 16 → ∀ rs C tail,
  Forall nf5_wf rs → blen C = 52 * (count - Z.of_nat (length rs)) →
  ∃ tail',
    remove_paddings (pre ++ mjoin (big <$> rs) ++ C ++ tail) count (length rs) =
    Ok (pre ++ mjoin (small <$> rs) ++ C ++ tail') ∧ blen tail' = blen tail + 4 * Z.of_nat (length rs).
Proof.
  intros Hpre rs. induction rs as [|r rs IH] using rev_ind; intros C tail Hwf HC.
  - exists tail. cbn. split; [done|lia].
  - apply Forall_app in Hwf as [Hrs [Hr _]%Forall_cons]. rewrite length_app, Nat.add_1_r in *.
    rewrite !mjoin_fmap_snoc. cbn [remove_paddings].
    destruct (blen_nf5_record r Hr) as (_ & Hsm & _). destruct (blen_nf5_records rs Hrs) as (_ & _ & Hbig).
    pose proof (r5_padding_len r Hr) as Hpad. set (P := pre ++ mjoin (big <$> rs) ++ small r).
    assert (blen P + 4 = 16 + Z.of_nat (S (length rs)) * 56) as HP
      by (unfold P; rewrite !blen_app, Hbig, Hsm; lia).
    destruct (memmove_down P (r5_padding r) C tail) as (tl & E & Htl). rewrite Hpad, HC in E.
    unfold IPFIX_HEADER_LENGTH, NETFLOW_V5_DATA_SET_LEN. change (52 + 4) with 56. rewrite <-HP.
    replace (blen P + 4 - 4) with (blen P) by lia.
    replace ((count - Z.of_nat (S (length rs))) * 52) with (52 * (count - Z.of_nat (S (length rs)))) by lia.
    assert (pre ++ (mjoin (big <$> rs) ++ big r) ++ C ++ tail = P ++ r5_padding r ++ C ++ tail) as ->
      by (unfold P, big; rewrite <-!app_assoc; done).
    rewrite E, res_bind_ret. destruct (IH (small r ++ C) tl Hrs) as (tail' & Eih & Ht').
    { rewrite blen_app, Hsm, HC. lia. }
    exists tail'. split; [|rewrite Ht', Htl; lia].
    etrans; [|etrans; [exact Eih|] ]; [f_equal; unfold P; by rewrite <-!app_assoc|f_equal; by rewrite <-!app_assoc].
Qed.
End nf5.

(** The static variables after [convert_init]. *)
Record nf5_ready (st : convert_state) : Prop := {
  nr_template : nf5_template st = htons <$> netflow_v5_template;
  nr_header : (nf5_data_header st).1 = htons IPFIX_MIN_RECORD_FLOWSET_ID
}.

Lemma convert_init_ready in_plugin len : nf5_ready (convert_init convert_static in_plugin len).
Proof. done. Qed.

Definition nf5_fields : list field_spec :=
  (λ e, {| fs_id := e.1; fs_length := e.2; fs_enterprise := None |}) <$> netflow_v5_elements.
Definition nf5_template_set : wire_set := (IPFIX_TEMPLATE_FLOWSET_ID, enc_template IPFIX_MIN_RECORD_FLOWSET_ID nf5_fields).

Lemma nf5_template_octets : mjoin (le16 <$> (htons <$> netflow_v5_template)) = enc_set nf5_template_set.
Proof. by vm_compute. Qed.

Lemma le16_htons x : is_u16 x → le16 (htons x) = enc16 x.
Proof.
  unfold is_u16, le16, htons, enc16, u8. intros Hx.
  repeat apply (f_equal2 cons); try done; Z.to_euclidean_division_equations; lia.
Qed.

(** The header of the message in the making: the version is still that of the
    packet, length and number are not set. *)
Lemma nf5_header_spec st a b secs nsecs seq engine_type engine_id sampling body :
  blen a = 4 → blen b = 4 → blen body = buff_len st - 24 → 24 ≤ buff_len st < 4294967296 → 
  ∃ tail, nf5_header st (a ++ b ++ enc32 secs ++ enc32 nsecs ++ enc32 seq ++ [engine_type; engine_id] ++ enc16 sampling ++ body)
          = Ok (a ++ enc32 secs ++ enc32 seq ++ [0; Z.land engine_id 0xF0; 0; 0] ++ body ++ tail) ∧ blen tail = 8.
Proof.
  intros Ha Hb Hbody Hlen. unfold nf5_header.
  set (z := enc32 seq ++ [engine_type; engine_id] ++ enc16 sampling ++ body).
  assert (rdn (a ++ b ++ enc32 secs ++ enc32 nsecs ++ z) 8 4 = Ok (enc32 secs)) as ->.
  { replace (a ++ b ++ enc32 secs ++ enc32 nsecs ++ z) with ((a ++ b) ++ enc32 secs ++ enc32 nsecs ++ z)
      by (by rewrite <-!app_assoc).
    replace 8 with (blen (a ++ b)) by (rewrite blen_app; lia). apply (rdn_here (a ++ b) (enc32 secs)). }
  rewrite res_bind_ret. replace 4 with (blen a) by lia. rewrite wrn_here by (rewrite Hb; done). rewrite res_bind_ret.
  destruct (memmove_down (a ++ enc32 secs) (enc32 secs ++ enc32 nsecs) z []) as (tail & E & Htail).
  rewrite !blen_app, !blen_enc32, Ha in E. rewrite !blen_app, !blen_enc32 in Htail.
  rewrite app_nil_r, <-!app_assoc in E.
  assert (u32 (buff_len st - IPFIX_HEADER_LENGTH) = blen z) as ->.
  { unfold z, IPFIX_HEADER_LENGTH. rewrite u32_small by lia.
    rewrite !blen_app, blen_enc32, blen_enc16, Hbody. change (blen [engine_type; engine_id]) with 2. lia. }
  change IPFIX_HEADER_LENGTH with (4 + 4 + (4 + 4)). change 8 with (4 + 4) at 1. rewrite E, res_bind_ret.
  exists tail. split; [|exact Htail]. unfold z.
  destruct (blen_2 (enc16 sampling) eq_refl) as (s1 & s2 & ->).
  replace (a ++ enc32 secs ++ (enc32 seq ++ [engine_type; engine_id] ++ [s1; s2] ++ body) ++ tail)
    with ((a ++ enc32 secs ++ enc32 seq) ++ [engine_type] ++ [engine_id] ++ ([s1; s2] ++ body ++ tail))
    by (rewrite <-!app_assoc; done).
  assert (blen (a ++ enc32 secs ++ enc32 seq) = 12) as H12 by (rewrite !blen_app, !blen_enc32; lia).
  set (X := a ++ enc32 secs ++ enc32 seq) in *. set (w := body ++ tail).
  assert (memmove (X ++ [engine_type] ++ [engine_id] ++ [s1; s2] ++ w) 12 (12 + 1) 1 =
    Ok (X ++ [engine_id; engine_id; s1; s2] ++ w)) as ->.
  { unfold memmove. replace (X ++ [engine_type] ++ [engine_id] ++ [s1; s2] ++ w)
      with ((X ++ [engine_type]) ++ [engine_id] ++ [s1; s2] ++ w) by (by rewrite <-!app_assoc).
    replace (12 + 1) with (blen (X ++ [engine_type])) by (rewrite blen_app, H12; done).
    rewrite (rdn_here _ [engine_id]), res_bind_ret. rewrite <-H12, <-app_assoc.
    by rewrite (wrn_here X [engine_type] _ [engine_id]). }
  rewrite res_bind_ret.
  assert (rd8 (X ++ [engine_id; engine_id; s1; s2] ++ w) 13 = Ok engine_id) as ->.
  { replace 13 with (blen (X ++ [engine_id])) by (rewrite blen_app, H12; done).
    change (X ++ [engine_id; engine_id; s1; s2] ++ w) with (X ++ [engine_id] ++ engine_id :: s1 :: s2 :: w).
    rewrite app_assoc. apply rd8_here. }
  rewrite res_bind_ret, <-H12, wrn_here by done. unfold X, w. by rewrite <-!app_assoc.
Qed.

Lemma insert_nf5_template_spec st pre x tail :
  nf5_ready st → blen pre = IPFIX_HEADER_LENGTH → buff_len st = 16 + blen x + blen tail →
  buff_len st < 4294967296 → 76 ≤ blen tail →
  ∃ tail', insert_nf5_template st (pre ++ x ++ tail) = Ok (pre ++ enc_set nf5_template_set ++ x ++ tail') ∧
           blen tail' = blen tail - 76.
Proof.
  intros [Hr _] Hpre Hb Hbuf Ht. pose proof (blen_nonneg x). unfold insert_nf5_template.
  rewrite Hr, nf5_template_octets.
  destruct (memmove_insert pre x tail (enc_set nf5_template_set)) as (tail' & E & Ht'); [exact Ht|].
  exists tail'. split; [|exact Ht']. change (blen (enc_set nf5_template_set)) with 76 in E.
  unfold NETFLOW_V5_TEMPLATE_LEN. rewrite u32_small by (unfold IPFIX_HEADER_LENGTH; lia).
  rewrite Hpre in E. rewrite <-E. unfold IPFIX_HEADER_LENGTH in *. do 2 f_equal. lia.
Qed.

Lemma insert_nf5_data_header_spec st pre x tail count :
  nf5_ready st → blen pre = IPFIX_HEADER_LENGTH → buff_len st = 16 + blen x + blen tail →
  buff_len st < 4294967296 → 4 ≤ blen tail → 0 ≤ count ≤ 30 →
  ∃ tail', insert_nf5_data_header st (pre ++ x ++ tail) count =
    Ok (set_data_header st (htons IPFIX_MIN_RECORD_FLOWSET_ID, htons (4 + 52 * count)),
        pre ++ (enc16 IPFIX_MIN_RECORD_FLOWSET_ID ++ enc16 (4 + 52 * count)) ++ x ++ tail') ∧
    blen tail' = blen tail - 4.
Proof.
  intros [_ Hr] Hpre Hb Hbuf Ht Hc. pose proof (blen_nonneg x). unfold insert_nf5_data_header.
  cbn [nf5_data_header set_data_header fst snd buff_len]. rewrite Hr.
  unfold NETFLOW_V5_DATA_SET_LEN, sizeof_ipfix_set_header. rewrite (Z.add_comm (52 * count)).
  rewrite u16_small by lia. rewrite !le16_htons by (unfold is_u16, IPFIX_MIN_RECORD_FLOWSET_ID; lia).
  destruct (memmove_insert pre x tail (enc16 IPFIX_MIN_RECORD_FLOWSET_ID ++ enc16 (4 + 52 * count)))
    as (tail' & E & Ht'); [exact Ht|]. exists tail'. split; [|exact Ht'].
  change (blen (enc16 _ ++ enc16 _)) with 4 in E. rewrite u32_small by (unfold IPFIX_HEADER_LENGTH; lia).
  rewrite Hpre in E. unfold IPFIX_HEADER_LENGTH in *.
  replace (buff_len st - 16 - 4) with (blen x + blen tail - 4) by lia.
  apply res_bind_Ok in E as (m & -> & Ew). rewrite res_bind_ret.
  by rewrite Ew.
Qed.

(** Whether the template is due does not depend on the headers of data sets, and
    at most [inserted] changes. *)
Lemma template_due_header st h info count t :
  template_due (set_data_header st h) info count t =
  let '(due, st1, info1) := template_due st info count t in (due, set_data_header st1 h, info1).
Proof.
  unfold template_due. cbn [inserted plugin set_data_header]. repeat case_match; simplify_eq; try done.
Qed.

Lemma template_due_state st info count t due st1 info1 :
  template_due st info count t = (due, st1, info1) → st1 = st ∨ st1 = set_inserted st.
Proof. unfold template_due. repeat case_match; naive_solver. Qed.

Section nf5_sets.
Context (secs nsecs uptime : Z).
Let small := enc_ipfix_record secs nsecs uptime.
Let big (r : nf5_record) : bytes := small r ++ r5_padding r.

(** The sets of the message for the records of a packet. *)
Definition nf5_sets (due : bool) (rs : list nf5_record) : list wire_set :=
  (if due then [nf5_template_set] else []) ++ [(IPFIX_MIN_RECORD_FLOWSET_ID, mjoin (small <$> rs))].

Lemma blen_nf5_sets due rs : Forall nf5_wf rs →
  blen (enc_sets (nf5_sets due rs)) = (if due then 76 else 0) + 4 + 52 * Z.of_nat (length rs).
Proof.
  intros Hrs. unfold nf5_sets, small. rewrite enc_sets_app, blen_app, enc_sets_cons, blen_app, blen_enc_set. cbn [snd].
  destruct (blen_nf5_records secs nsecs uptime rs Hrs) as (_ & -> & _). change (blen (enc_sets [])) with 0.
  destruct due; [change (blen (enc_sets [nf5_template_set])) with 76|change (blen (enc_sets [])) with 0]; lia.
Qed.

Lemma insert_template_set_spec st info pre rs tail len due st1 info1 :
  let count := Z.of_nat (length rs) in
  nf5_ready st → blen pre = 16 → rd32 pre 4 = Ok secs → Forall nf5_wf rs → 1 ≤ count ≤ 30 →
  buff_len st = 16 + 56 * count + blen tail → 96 + 56 * count ≤ buff_len st < 4294967296 →
  template_due st info count secs = (due, st1, info1) →
  ∃ h tail',
    insert_template_set st info (pre ++ mjoin (big <$> rs) ++ tail) count len =
    Ok (set_data_header st1 (htons IPFIX_MIN_RECORD_FLOWSET_ID, h), info1,
        pre ++ enc_sets (nf5_sets due rs) ++ tail',
        len - count * 4 + 4 + (if due then 76 else 0), 16 + blen (enc_sets (nf5_sets due rs))) ∧
    blen tail' = buff_len st - 16 - blen (enc_sets (nf5_sets due rs)).
Proof.
  intros count Hready Hpre Hsecs Hrs Hcount Hbuf Hroom Hdue. unfold count in *.
  rewrite (blen_nf5_sets due rs Hrs). destruct rs as [|r rs _] using rev_ind; [cbn in Hcount; lia|].
  rewrite length_app, Nat.add_1_r in *. set (n := S (length rs)) in *.
  pose proof Hrs as Hall. apply Forall_app in Hrs as [Hrs [Hr _]%Forall_cons].
  destruct (blen_nf5_record secs nsecs uptime r Hr) as (_ & Hsm & _).
  unfold insert_template_set. replace (Z.to_nat (Z.of_nat n - 1)) with (length rs) by lia.
  rewrite mjoin_fmap_snoc.
  destruct (remove_paddings_spec secs nsecs uptime pre (Z.of_nat n) Hpre rs (small r) (r5_padding r ++ tail) Hrs)
    as (t1 & E1 & Ht1). { unfold small, n. rewrite Hsm. lia. }
  assert (remove_paddings (pre ++ (mjoin (big <$> rs) ++ big r) ++ tail) (Z.of_nat n) (length rs) =
    Ok (pre ++ mjoin (small <$> rs ++ [r]) ++ t1)) as ->.
  { etrans; [|etrans; [exact E1|] ]; [f_equal; unfold big; by rewrite <-!app_assoc|].
    f_equal. rewrite mjoin_fmap_snoc. by rewrite <-!app_assoc. }
  rewrite res_bind_ret. set (D := mjoin (small <$> rs ++ [r])).
  assert (blen D = 52 * Z.of_nat n) as HD.
  { unfold D, small. rewrite (proj1 (proj2 (blen_nf5_records secs nsecs uptime _ Hall))), length_app, Nat.add_1_r. done. }
  rewrite blen_app, (r5_padding_len r Hr) in Ht1. rewrite decide_True by lia.
  destruct (insert_nf5_data_header_spec st pre D t1 (Z.of_nat n) Hready Hpre) as (t2 & -> & Ht2); [lia..|].
  rewrite !res_bind_ret. cbn [fst snd].
  assert (∀ y, rd32 (pre ++ y) 4 = Ok secs) as Hexp by (intros y; rewrite rd32_app_l; [done|lia]).
  rewrite Hexp, res_bind_ret, template_due_header, Hdue. cbv beta iota.
  set (h := (htons _, htons _)).
  assert (pre ++ (enc16 IPFIX_MIN_RECORD_FLOWSET_ID ++ enc16 (4 + 52 * Z.of_nat n)) ++ D ++ t2 =
          pre ++ enc_set (IPFIX_MIN_RECORD_FLOWSET_ID, D) ++ t2) as ->
    by (unfold enc_set; cbn [fst snd]; rewrite HD, <-!app_assoc; done).
  assert (blen (enc_set (IPFIX_MIN_RECORD_FLOWSET_ID, D)) = 4 + 52 * Z.of_nat n) as Hset
    by (rewrite blen_enc_set; cbn [snd]; lia).
  unfold IPFIX_HEADER_LENGTH, NETFLOW_V5_TEMPLATE_LEN, NETFLOW_V5_DATA_SET_LEN, sizeof_ipfix_set_header in *.
  eexists (htons (4 + 52 * Z.of_nat n)). destruct due.
  - destruct (insert_nf5_template_spec (set_data_header st1 h) pre (enc_set (IPFIX_MIN_RECORD_FLOWSET_ID, D)) t2)
      as (t3 & -> & Ht3).
    { destruct (template_due_state _ _ _ _ _ _ _ Hdue) as [-> | ->]; destruct Hready; by split. }
    { exact Hpre. }
    { assert (buff_len (set_data_header st1 h) = buff_len st) as ->
        by (by destruct (template_due_state _ _ _ _ _ _ _ Hdue) as [-> | ->]). lia. }
    { assert (buff_len (set_data_header st1 h) = buff_len st) as ->
        by (by destruct (template_due_state _ _ _ _ _ _ _ Hdue) as [-> | ->]). lia. }
    { lia. }
    exists t3. rewrite res_bind_ret. split.
    + unfold nf5_sets. rewrite enc_sets_app, !enc_sets_cons. fold D.
      change (enc_sets []) with ([] : bytes). rewrite !app_nil_r, <-!app_assoc.
      rewrite u16_small by lia. do 2 f_equal. lia.
    + lia.
  - exists t2. split.
    + unfold nf5_sets. cbn [app]. rewrite enc_sets_cons. fold D. change (enc_sets []) with ([] : bytes).
      rewrite app_nil_r. rewrite u16_small by lia. do 2 f_equal. by rewrite Z.add_0_r.
    + lia.
Qed.
End nf5_sets.

(** The numbers of a NetFlow 5 header. *)
Lemma nf5_numbers count uptime secs nsecs seq engine_type engine_id sampling body :
  is_u16 count → is_u32 uptime → is_u32 secs → is_u32 nsecs →
  let mem := enc_nf5_header count uptime secs nsecs seq engine_type engine_id sampling ++ body in
  rd16 mem 0 = Ok NETFLOW_V5_VERSION ∧ rd16 mem 2 = Ok count ∧
  rd32 mem 4 = Ok uptime ∧ rd32 mem 8 = Ok secs ∧ rd32 mem 12 = Ok nsecs.
Proof.
  intros Hc Hu Hs Hn mem. subst mem. unfold enc_nf5_header. rewrite <-!app_assoc. set (v := enc16 NETFLOW_V5_VERSION).
  set (c := enc16 count). set (u := enc32 uptime). set (s := enc32 secs). split_and!.
  - by apply rd16_enc16.
  - by apply (rd16_here v).
  - rewrite (app_assoc v). by apply (rd32_here (v ++ c)).
  - rewrite (app_assoc v), (app_assoc (v ++ c)). by apply (rd32_here ((v ++ c) ++ u)).
  - rewrite (app_assoc v), (app_assoc (v ++ c)), (app_assoc ((v ++ c) ++ u)). by apply (rd32_here (((v ++ c) ++ u) ++ s)).
Qed.

Lemma engine_range x : is_byte x → 0 ≤ Z.land x 0xF0 < 256.
Proof.
  intros [H1 H2]. split; [by apply Z.land_nonneg; left|].
  destruct (decide (Z.land x 0xF0 = 0)) as [->|]; [done|].
  apply Z.log2_lt_cancel. eapply Z.le_lt_trans; [apply Z.log2_land; lia|]. cbn. lia.
Qed.

(** The last stores into the header. *)
Lemma message_header_stores v n secs seq x n' seq' y :
  0 ≤ x < 256 →
  (mem ← wr16 (enc16 v ++ enc16 n ++ enc32 secs ++ enc32 seq ++ [0; x; 0; 0] ++ y) 2 n'; wr32 mem 8 seq') =
  Ok (enc16 v ++ enc16 n' ++ enc32 secs ++ enc32 seq' ++ enc32 (x * 65536) ++ y).
Proof.
  intros Hx. change 2 with (blen (enc16 v)). rewrite wr16_over by done. rewrite res_bind_ret.
  change 8 with (blen (enc16 v ++ enc16 n' ++ enc32 secs)).
  replace (enc16 v ++ enc16 n' ++ enc32 secs ++ enc32 seq ++ [0; x; 0; 0] ++ y)
    with ((enc16 v ++ enc16 n' ++ enc32 secs) ++ enc32 seq ++ [0; x; 0; 0] ++ y) by (by rewrite <-!app_assoc).
  rewrite wr32_over by done. rewrite <-!app_assoc. do 5 f_equal.
  unfold enc32, enc16, u8. cbn [app]. repeat apply (f_equal2 cons); try done; Z.to_euclidean_division_equations; lia.
Qed.

Section nf5_packet.
Context (st : convert_state) (info : option input_info_list) (rs : list nf5_record).
Context (uptime secs nsecs seq engine_type engine_id sampling : Z) (rest : bytes).
Let count := Z.of_nat (length rs).
Let packet := enc_nf5_header count uptime secs nsecs seq engine_type engine_id sampling ++
              mjoin (enc_nf5_record <$> rs).

(** The conversion of the packet up to the version number. *)
Lemma convert_nf5_spec due st1 info1 :
  nf5_ready st → Forall nf5_wf rs → 1 ≤ count ≤ 30 → is_u32 uptime → is_u32 secs → is_u32 nsecs → is_byte engine_id →
  buff_len st = blen (packet ++ rest) → 96 + 56 * count ≤ buff_len st < 4294967296 →
  template_due st info count secs = (due, st1, info1) →
  let sets := enc_sets (nf5_sets secs nsecs uptime due rs) in
  ∃ h tail,
    convert_nf5 st info (packet ++ rest) (blen packet) =
    Ok (set_seq (set_data_header st1 (htons IPFIX_MIN_RECORD_FLOWSET_ID, h)) (u32 (nf5_seq_no st + count)) (nf9_seq_no st),
        info1, enc16 NETFLOW_V5_VERSION ++ enc16 (16 + blen sets) ++ enc32 secs ++ enc32 (nf5_seq_no st) ++
               enc32 (Z.land engine_id 0xF0 * 65536) ++ sets ++ tail, 16 + blen sets) ∧
    16 + blen sets + blen tail = buff_len st.
Proof.
  intros Hready Hrs Hcount Hup Hsecs Hnsecs Hid Hbuf Hroom Hdue sets.
  destruct (blen_nf5_records secs nsecs uptime rs Hrs) as (Hrecs & _ & _). fold count in Hrecs.
  set (recs := mjoin (enc_nf5_record <$> rs)) in *.
  assert (blen packet = 24 + 48 * count) as Hpkt by (unfold packet; rewrite blen_app, Hrecs; done).
  rewrite Hpkt. rewrite blen_app, Hpkt in Hbuf. unfold packet. fold recs. rewrite <-app_assoc.
  set (body := recs ++ rest). assert (blen body = buff_len st - 24) as Hbody by (unfold body; rewrite blen_app; lia).
  destruct (nf5_numbers count uptime secs nsecs seq engine_type engine_id sampling body) as (_ & Hr2 & Hr4 & Hr8 & Hr12);
    [unfold is_u16; lia|done..|].
  unfold convert_nf5. rewrite Hr4, Hr8, Hr12, Hr2, !res_bind_ret. clear Hr2 Hr4 Hr8 Hr12.
  unfold NETFLOW_V5_MAX_RECORD_COUNT. rewrite Z.min_l by lia.
  destruct (nf5_header_spec st (enc16 NETFLOW_V5_VERSION ++ enc16 count) (enc32 uptime) secs nsecs seq engine_type
    engine_id sampling body eq_refl eq_refl Hbody ltac:(lia)) as (t1 & Eh & Ht1).
  unfold enc_nf5_header. rewrite <-!app_assoc. rewrite <-!app_assoc in Eh. rewrite Eh, res_bind_ret. clear Eh.
  set (odid := [0; Z.land engine_id 240; 0; 0]).
  set (pre := enc16 NETFLOW_V5_VERSION ++ enc16 count ++ enc32 secs ++ enc32 seq ++ odid).
  assert (blen pre = 16) as Hpre by done.
  replace (Z.to_nat count) with (length rs) by (unfold count; lia).
  destruct (resize_timestamps_spec secs nsecs uptime pre Hpre rs [] (rest ++ t1) 0 Hrs eq_refl) as (t2 & Er & Ht2);
    [rewrite blen_app; fold count; lia|].
  cbn [app] in Er. fold recs in Er. unfold pre at 1 in Er. rewrite <-!app_assoc in Er.
  unfold body. rewrite <-!app_assoc, Er, res_bind_ret. clear Er. rewrite blen_app in Ht2.
  destruct (insert_template_set_spec secs nsecs uptime st info pre rs t2 (24 + 48 * count - 8 + count * 8) due st1 info1
    Hready Hpre) as (h & tail & Ei & Htail); [|done|done|fold count; lia|fold count; lia|done|].
  { unfold pre. rewrite (app_assoc (enc16 NETFLOW_V5_VERSION)). by apply (rd32_here (enc16 NETFLOW_V5_VERSION ++ enc16 count)). }
  fold count in Ei. rewrite Ei, res_bind_ret. cbv beta iota. clear Ei.
  fold sets in Htail |- *. exists h, tail. split; [|lia].
  set (st2 := set_data_header st1 _).
  assert (nf5_seq_no st2 = nf5_seq_no st ∧ nf9_seq_no st2 = nf9_seq_no st) as [-> Hs9]
    by (by destruct (template_due_state _ _ _ _ _ _ _ Hdue) as [-> | ->]).
  pose proof (message_header_stores NETFLOW_V5_VERSION count secs seq (Z.land engine_id 0xF0) (16 + blen sets)
    (nf5_seq_no st) (sets ++ tail) (engine_range _ Hid)) as Hst.
  apply res_bind_Ok in Hst as (m & Hm1 & Hm2). unfold pre, odid. rewrite <-!app_assoc.
  rewrite Hm1, res_bind_ret, Hm2, res_bind_ret. rewrite Hs9.
  assert (24 + 48 * count - 8 + count * 8 - count * 4 + 4 + (if due then 76 else 0) = 16 + blen sets) as ->
    by (unfold sets; rewrite (blen_nf5_sets secs nsecs uptime due rs Hrs); fold count; lia).
  by rewrite decide_True by lia.
Qed.

Lemma convert_packet_nf5_message max_len :
  nf5_ready st → Forall nf5_wf rs → 1 ≤ count ≤ NETFLOW_V5_MAX_RECORD_COUNT →
  is_u32 uptime → is_u32 secs → is_u32 nsecs → is_byte engine_id →
  buff_len st = blen (packet ++ rest) → 96 + 56 * count ≤ buff_len st < 4294967296 →
  let '(due, st1, info1) := template_due st info count secs in
  let message := enc_message secs (nf5_seq_no st) (Z.land engine_id 0xF0 * 65536)
                   (nf5_sets secs nsecs uptime due rs) in
  ∃ st' tail,
    convert_packet st (packet ++ rest) (blen packet) max_len info = Ok (st', info1, message ++ tail, blen message, 0) ∧
    blen (message ++ tail) = buff_len st ∧
    nf5_ready st' ∧ buff_len st' = buff_len st ∧ inserted st' = inserted st1 ∧
    nf5_seq_no st' = u32 (nf5_seq_no st + count).
Proof.
  intros Hready Hrs Hcount Hup Hsecs Hnsecs Hid Hbuf Hroom.
  destruct (template_due st info count secs) as [ [due st1] info1] eqn:Hdue. intros message.
  destruct (convert_nf5_spec due st1 info1 Hready Hrs Hcount Hup Hsecs Hnsecs Hid Hbuf Hroom Hdue) as (h & tail & E & Hlen).
  assert (rd16 (packet ++ rest) 0 = Ok NETFLOW_V5_VERSION) as Hr0.
  { unfold packet, enc_nf5_header. rewrite <-!app_assoc. by apply rd16_enc16. }
  assert (blen message = 16 + blen (enc_sets (nf5_sets secs nsecs uptime due rs))) as Hm
    by (unfold message, enc_message; rewrite blen_app; done).
  unfold convert_packet. rewrite Hr0, res_bind_ret. rewrite decide_False, decide_True by done.
  rewrite E, res_bind_ret. cbv beta iota. rewrite wr16_front by done. rewrite res_bind_ret.
  eexists _, tail. split.
  - rewrite Hm. unfold message, enc_message, enc_header. rewrite <-!app_assoc. done.
  - rewrite blen_app, Hm. split; [exact Hlen|].
    destruct (template_due_state _ _ _ _ _ _ _ Hdue) as [-> | ->]; destruct Hready; by repeat split.
Qed.

(** C14: a NetFlow 5 packet of 1 to 30 records becomes the IPFIX message with the
    same records and every uptime as a time of day in milliseconds, behind the
    template of the records when that is due; the export time is the one of the
    packet, the number is the running count of records, the domain is the upper half
    of the engine number.  The buffer keeps its size and the length is that of the
    message. *)
Theorem convert_packet_nf5 max_len :
  nf5_ready st → Forall nf5_wf rs → 1 ≤ count ≤ NETFLOW_V5_MAX_RECORD_COUNT →
  is_u32 uptime → is_u32 secs → is_u32 nsecs → is_byte engine_id →
  buff_len st = blen (packet ++ rest) → 96 + 56 * count ≤ buff_len st < 4294967296 →
  let '(due, st1, info1) := template_due st info count secs in
  let message := enc_message secs (nf5_seq_no st) (Z.land engine_id 0xF0 * 65536)
                   (nf5_sets secs nsecs uptime due rs) in
  ∃ st' tail,
    convert_packet st (packet ++ rest) (blen packet) max_len info = Ok (st', info1, message ++ tail, blen message, 0) ∧
    blen (message ++ tail) = buff_len st ∧
    nf5_ready st' ∧ buff_len st' = buff_len st ∧ inserted st' = inserted st1 ∧
    nf5_seq_no st' = u32 (nf5_seq_no st + count).
Proof. apply convert_packet_nf5_message. Qed.
End nf5_packet.

(** *** What the records mean *)

(** Octets cut at the lengths of the elements. *)
Fixpoint cut (fs : list field_spec) (b : bytes) : list datum :=
  match fs with
  | [] => []
  | f :: fs => (f, {| dv_long := false; dv_bytes := take (Z.to_nat (fs_length f)) b |}) ::
               cut fs (drop (Z.to_nat (fs_length f)) b)
  end.

Lemma cut_spec fs : Forall field_wf fs → has_variable fs = false → ∀ b, blen b = lengths fs →
  (cut fs b).*1 = fs ∧ Forall datum_wf (cut fs b) ∧ enc_data (cut fs b) = b.
Proof.
  intros Hwf Hv. induction Hwf as [|f fs Hf Hwf IH]; intros b Hb.
  - destruct b; [done|]. rewrite blen_cons in Hb. pose proof (blen_nonneg b). cbn in Hb. lia.
  - change (lengths (f :: fs)) with (fs_length f + lengths fs) in Hb. cbn [has_variable existsb] in Hv.
    apply orb_false_elim in Hv as [Hvf Hv]. apply bool_decide_eq_false in Hvf. specialize (IH Hv).
    pose proof (fwf_length f Hf) as Hl. unfold is_u16 in Hl.
    assert (0 ≤ lengths fs) as Hpos.
    { clear -Hwf. induction Hwf as [|g gs Hg _ IH]; [done|]. change (lengths (g :: gs)) with (fs_length g + lengths gs).
      pose proof (fwf_length g Hg). unfold is_u16 in *. lia. }
    destruct (blen_split b (fs_length f)) as (l & r & -> & Hbl & Hbr); [lia|].
    assert (Z.to_nat (fs_length f) = length l) as Hn by (unfold blen in Hbl; lia). cbn [cut]. rewrite Hn.
    rewrite take_app_length, drop_app_length. destruct (IH r) as (E1 & E2 & E3); [lia|]. split_and!.
    + rewrite fmap_cons. by rewrite E1.
    + constructor; [|done]. split; [done|]. cbn [fst snd dv_bytes]. by rewrite decide_False.
    + rewrite enc_data_cons, E3. unfold enc_datum, length_prefix. cbn [fst snd dv_bytes]. by rewrite decide_False.
Qed.

Lemma nf5_fields_wf : Forall field_wf nf5_fields.
Proof.
  apply Forall_fmap, (Forall_impl (λ e : Z * Z, 0 ≤ e.1 < 32768 ∧ 0 ≤ e.2 < 65536)).
  - unfold netflow_v5_elements. rewrite !Forall_cons. cbn. unfold FLOW_START, FLOW_END. repeat split; done || lia.
  - intros e [? ?]. by split.
Qed.

(** A converted record as values of the elements of the template. *)
Definition nf5_datums (secs nsecs uptime : Z) (r : nf5_record) : list datum :=
  cut nf5_fields (enc_ipfix_record secs nsecs uptime r).

(** The value of the element [id] in a record. *)
Definition value_of (id : Z) (d : list datum) : option bytes :=
  match find_split (λ x, field_is 0 id x.1) d with Some (_, x) => Some (dv_bytes x.2) | None => None end.

Lemma nf5_datums_spec secs nsecs uptime r : nf5_wf r →
  (nf5_datums secs nsecs uptime r).*1 = nf5_fields ∧ Forall datum_wf (nf5_datums secs nsecs uptime r) ∧
  enc_data (nf5_datums secs nsecs uptime r) = enc_ipfix_record secs nsecs uptime r.
Proof.
  intros Hr. apply cut_spec; [exact nf5_fields_wf|done|].
  by rewrite (proj1 (proj2 (blen_nf5_record secs nsecs uptime r Hr))).
Qed.

Lemma cut_skip l r fs pre b : blen pre = lengths l → Forall field_wf l → 
  cut (l ++ r :: fs) (pre ++ b) = cut l pre ++ cut (r :: fs) b.
Proof.
  intros Hb Hwf. revert pre Hb. induction Hwf as [|f l Hf Hwf IH]; intros pre Hb.
  - destruct pre; [done|]. rewrite blen_cons in Hb. pose proof (blen_nonneg pre). cbn in Hb. lia.
  - change (lengths (f :: l)) with (fs_length f + lengths l) in Hb.
    assert (0 ≤ lengths l) as Hpos.
    { clear -Hwf. induction Hwf as [|g gs Hg _ IH]; [done|]. change (lengths (g :: gs)) with (fs_length g + lengths gs).
      pose proof (fwf_length g Hg). unfold is_u16 in *. lia. }
    pose proof (fwf_length f Hf) as Hl. unfold is_u16 in Hl.
    destruct (blen_split pre (fs_length f)) as (x & y & -> & Hx & Hy); [lia|].
    assert (Z.to_nat (fs_length f) = length x) as Hn by (unfold blen in Hx; lia). cbn [app cut]. rewrite Hn.
    rewrite <-!app_assoc, !take_app_length, !drop_app_length. f_equal. apply IH. lia.
Qed.

Lemma value_of_skip id l x r : Forall (λ f, ¬ field_is 0 id f) l.*1 → field_is 0 id x.1 →
  value_of id (l ++ x :: r) = Some (dv_bytes x.2).
Proof.
  intros Hl Hx. unfold value_of. rewrite (find_split_first (λ y : datum, field_is 0 id y.1)); [done| |done].
  exact (proj1 (Forall_fmap _ _ _) Hl).
Qed.

Lemma nf5_times secs nsecs uptime r : nf5_wf r →
  value_of FLOW_START (nf5_datums secs nsecs uptime r) = Some (enc64 (nf5_time secs nsecs uptime (r5_first r))) ∧
  value_of FLOW_END (nf5_datums secs nsecs uptime r) = Some (enc64 (nf5_time secs nsecs uptime (r5_last r))).
Proof.
  intros Hr. set (l := take 7 nf5_fields).
  set (f1 := {| fs_id := FLOW_START; fs_length := 8; fs_enterprise := None |}).
  set (f2 := {| fs_id := FLOW_END; fs_length := 8; fs_enterprise := None |}).
  assert (nf5_fields = l ++ f1 :: f2 :: drop 9 nf5_fields) as E by by vm_compute.
  assert (Forall field_wf l) as Hl by apply Forall_take, nf5_fields_wf.
  assert (blen (r5_head r) = lengths l) as Hb by apply (r5_head_len r Hr).
  destruct (cut_spec l Hl eq_refl (r5_head r) Hb) as (Hids & _ & _).
  unfold nf5_datums, enc_ipfix_record. rewrite E, cut_skip by done. cbn [cut fs_length f1 f2].
  rewrite !take_app_le, !drop_app_le by done. rewrite (drop_ge (enc64 _)), (take_ge (enc64 _)) by done.
  cbn [app]. split.
  - rewrite value_of_skip; [done| |done]. rewrite Hids. by apply (bool_decide_unpack _).
  - rewrite cons_middle, app_assoc. rewrite value_of_skip; [done| |done].
    rewrite fmap_app, Hids. by apply (bool_decide_unpack _).
Qed.

(** The data set is one of records of the template. *)
Lemma nf5_data_set secs nsecs uptime rs now : Forall nf5_wf rs → Z.of_nat (length rs) ≤ NETFLOW_V5_MAX_RECORD_COUNT →
  data_set_of (spec_template TM_TEMPLATE IPFIX_MIN_RECORD_FLOWSET_ID 0 nf5_fields now) nf5_fields (nf5_datums secs nsecs uptime <$> rs) [] ∧
  enc_sets (nf5_sets secs nsecs uptime false rs) =
    enc_data_set IPFIX_MIN_RECORD_FLOWSET_ID (nf5_datums secs nsecs uptime <$> rs) [].
Proof.
  intros Hrs Hn. unfold NETFLOW_V5_MAX_RECORD_COUNT in Hn. set (ds := nf5_datums secs nsecs uptime <$> rs).
  assert (enc_records ds = mjoin (enc_ipfix_record secs nsecs uptime <$> rs)) as Hds.
  { unfold ds, enc_records. rewrite <-list_fmap_compose. f_equal. apply list_fmap_ext. intros i r Hr.
    apply (nf5_datums_spec secs nsecs uptime r). by eapply Forall_lookup_1. }
  destruct (blen_nf5_records secs nsecs uptime rs Hrs) as (_ & Hlen & _). rewrite <-Hds in Hlen. split.
  - constructor; [|apply Forall_fmap; eapply Forall_impl; [exact Hrs|]; intros r Hr|done|done|].
    + apply spec_template_of; [exact nf5_fields_wf|by apply Forall_fmap, Forall_true|by vm_compute|by vm_compute].
    + destruct (nf5_datums_spec secs nsecs uptime r Hr) as (? & ? & _). by split.
    + unfold set_length. rewrite Hlen. change (blen []) with 0. lia.
  - unfold nf5_sets. cbn [app]. rewrite enc_sets_cons. change (enc_sets []) with ([] : bytes). rewrite app_nil_r.
    unfold enc_set, enc_data_set, set_length. cbn [fst snd]. rewrite Hds.
    change (blen []) with 0. by rewrite Z.add_0_r, app_nil_r.
Qed.

(** The inserted template set is parsed where it stands in the message. *)
Lemma nf5_template_parsed header now : blen header = 16 →
  rd16 (header ++ enc_set nf5_template_set) 16 = Ok IPFIX_TEMPLATE_FLOWSET_ID ∧
  rd16 (header ++ enc_set nf5_template_set) 18 = Ok (NETFLOW_V5_TEMPLATE_LEN) ∧
  tm_create_template (header ++ enc_set nf5_template_set) 20 72 TM_TEMPLATE now =
    Ok (Some (spec_template TM_TEMPLATE IPFIX_MIN_RECORD_FLOWSET_ID 0 nf5_fields now)).
Proof.
  intros Hh. unfold enc_set. cbn [nf5_template_set fst snd].
  split; [rewrite <-Hh; by apply rd16_here|]. split.
  - rewrite app_assoc. replace 18 with (blen (header ++ enc16 IPFIX_TEMPLATE_FLOWSET_ID)) by (rewrite blen_app, blen_enc16; lia).
    by apply rd16_here.
  - pose proof (tm_create_template_record TM_TEMPLATE IPFIX_MIN_RECORD_FLOWSET_ID 0 nf5_fields
      (header ++ enc16 IPFIX_TEMPLATE_FLOWSET_ID ++ enc16 (4 + blen (enc_template IPFIX_MIN_RECORD_FLOWSET_ID nf5_fields))) [] 72 now) as H.
    rewrite !blen_app, !blen_enc16, Hh, app_nil_r, <-!app_assoc in H. rewrite decide_False in H by (by intros [? _]).
    apply H; [by left|by split|by split|exact nf5_fields_wf|by vm_compute|by vm_compute].
Qed.

(** C16: [convert_packet] makes typed records of a NetFlow 5 packet. Its result is a
    header, the template set when that is due, and one data set. The template set is
    found and parsed in these octets to a template of 17 elements; the data set consists
    of records of this template, one for each record of the packet, whose elements
    flowStartMilliseconds and flowEndMilliseconds are the times of day. *)
Theorem convert_packet_nf5_typed st info rs uptime secs nsecs seq engine_type engine_id sampling rest max_len now :
  let count := Z.of_nat (length rs) in
  let packet := enc_nf5_header count uptime secs nsecs seq engine_type engine_id sampling ++ mjoin (enc_nf5_record <$> rs) in
  let t := spec_template TM_TEMPLATE IPFIX_MIN_RECORD_FLOWSET_ID 0 nf5_fields now in
  let ds := nf5_datums secs nsecs uptime <$> rs in
  nf5_ready st → Forall nf5_wf rs → 1 ≤ count ≤ NETFLOW_V5_MAX_RECORD_COUNT →
  is_u32 uptime → is_u32 secs → is_u32 nsecs → is_byte engine_id →
  buff_len st = blen (packet ++ rest) → 96 + 56 * count ≤ buff_len st < 4294967296 →
  let due := (template_due st info count secs).1.1 in
  ∃ st' info1 head tail,
    convert_packet st (packet ++ rest) (blen packet) max_len info =
      Ok (st', info1, head ++ enc_data_set IPFIX_MIN_RECORD_FLOWSET_ID ds [] ++ tail,
          blen head + blen (enc_data_set IPFIX_MIN_RECORD_FLOWSET_ID ds []), 0) ∧
    blen head = 16 + (if due then NETFLOW_V5_TEMPLATE_LEN else 0) ∧
    (due = true →
     rd16 head 16 = Ok IPFIX_TEMPLATE_FLOWSET_ID ∧ rd16 head 18 = Ok NETFLOW_V5_TEMPLATE_LEN ∧
     tm_create_template head 20 (NETFLOW_V5_TEMPLATE_LEN - 4) TM_TEMPLATE now = Ok (Some t)) ∧
    data_set_of t nf5_fields ds [] ∧ length ds = length rs ∧
    Forall (λ r, value_of FLOW_START (nf5_datums secs nsecs uptime r) = Some (enc64 (nf5_time secs nsecs uptime (r5_first r))) ∧
                 value_of FLOW_END (nf5_datums secs nsecs uptime r) = Some (enc64 (nf5_time secs nsecs uptime (r5_last r)))) rs.
Proof.
  intros count packet t ds Hst Hrs Hcount Hup Hsecs Hnsecs Hid Hbuf Hroom.
  pose proof (convert_packet_nf5_message st info rs uptime secs nsecs seq engine_type engine_id sampling rest max_len
    Hst Hrs Hcount Hup Hsecs Hnsecs Hid Hbuf Hroom) as H. fold count packet in H.
  destruct (template_due st info count secs) as [ [due st1] info1]. cbn [fst snd]. destruct H as (st' & tail & E & _).
  destruct (nf5_data_set secs nsecs uptime rs now Hrs (proj2 Hcount)) as [Hds Eds]. fold ds t in Hds, Eds.
  set (sets := nf5_sets secs nsecs uptime due rs) in *. set (hdr := enc_header (IPFIX_HEADER_LENGTH + blen (enc_sets sets)) secs
    (nf5_seq_no st) (Z.land engine_id 0xF0 * 65536)).
  set (head := hdr ++ (if due then enc_set nf5_template_set else [])).
  assert (enc_message secs (nf5_seq_no st) (Z.land engine_id 0xF0 * 65536) sets = head ++ enc_data_set IPFIX_MIN_RECORD_FLOWSET_ID ds []) as Em.
  { unfold enc_message. fold hdr. unfold head, sets, nf5_sets. rewrite enc_sets_app. fold sets.
    change (enc_sets [(IPFIX_MIN_RECORD_FLOWSET_ID, mjoin (enc_ipfix_record secs nsecs uptime <$> rs))])
      with (enc_sets (nf5_sets secs nsecs uptime false rs)). rewrite Eds, <-app_assoc.
    destruct due; [|done]. rewrite enc_sets_cons. change (enc_sets []) with ([] : bytes). by rewrite app_nil_r. }
  exists st', info1, head, tail. rewrite Em, <-app_assoc, blen_app in E. split; [exact E|].
  assert (blen hdr = 16) as Hh by apply blen_enc_header. split.
  { unfold head. rewrite blen_app, Hh. by destruct due. }
  split; [intros ->; by apply nf5_template_parsed|]. split; [done|]. split; [apply length_fmap|].
  eapply Forall_impl; [exact Hrs|]. intros r Hr. by apply nf5_times.
Qed.

(** ** NetFlow 9 packets *)

(** A template of NetFlow 9: its identifier and its elements, identifier and
    length. *)
Abbreviation nf9_field := (Z * Z)%type.
Record nf9_template := { n9_id : Z; n9_fields : list nf9_field }.

Definition enc_row (f : nf9_field) : bytes := enc16 f.1 ++ enc16 f.2.
Definition enc_rows (fs : list nf9_field) : bytes := mjoin (enc_row <$> fs).
Definition enc_nf9_template (t : nf9_template) : bytes :=
  enc16 (n9_id t) ++ enc16 (Z.of_nat (length (n9_fields t))) ++ enc_rows (n9_fields t).
Definition row_wf (f : nf9_field) : Prop := is_u16 f.1 ∧ is_u16 f.2.

(** An uptime becomes a time of day, everything else stays. *)
Definition convert_field (f : nf9_field) : nf9_field :=
  if decide (f.1 = NETFLOW_V9_END_ELEM) then (FLOW_END, 8)
  else if decide (f.1 = NETFLOW_V9_START_ELEM) then (FLOW_START, 8) else f.

(** The length of a record and the offset of its first uptime, [-1] for none. *)
Definition layout_step (s : Z * Z) (f : nf9_field) : Z * Z :=
  let '(len, pos) := s in
  if decide (f.1 = NETFLOW_V9_END_ELEM ∨ f.1 = NETFLOW_V9_START_ELEM)
  then (len + 4, if decide (pos = -1) then len else pos) else (len + f.2, pos).
Definition layout (fs : list nf9_field) : Z * Z := foldl layout_step (0, -1) fs.

Lemma blen_enc_row f : blen (enc_row f) = 4.
Proof. done. Qed.

Lemma blen_enc_rows fs : blen (enc_rows fs) = 4 * Z.of_nat (length fs).
Proof. apply blen_blocks, Forall_true. intros. apply blen_enc_row. Qed.

Lemma blen_enc_nf9_template t : blen (enc_nf9_template t) = 4 + 4 * Z.of_nat (length (n9_fields t)).
Proof. unfold enc_nf9_template. rewrite !blen_app, blen_enc_rows, !blen_enc16. lia. Qed.

Lemma timestamp_field_spec pre f post len pos : row_wf f →
  timestamp_field (pre ++ enc_row f ++ post) (blen pre) len pos =
  let '(len', pos') := layout_step (len, pos) f in Ok (pre ++ enc_row (convert_field f) ++ post, len', pos').
Proof.
  intros [Hid Hlen]. unfold timestamp_field, enc_row, layout_step, convert_field. rewrite <-!app_assoc.
  rewrite rd16_here, res_bind_ret by done.
  assert (∀ x, wr16 (pre ++ enc16 x ++ enc16 f.2 ++ post) (blen pre + 2) 8 = Ok (pre ++ enc16 x ++ enc16 8 ++ post)) as Hw.
  { intros x. replace (blen pre + 2) with (blen (pre ++ enc16 x)) by (by rewrite blen_app).
    by rewrite !(app_assoc pre), wr16_over by done. }
  destruct (decide (f.1 = NETFLOW_V9_END_ELEM)) as [E|E]; [|destruct (decide (f.1 = NETFLOW_V9_START_ELEM)) as [E'|E'] ].
  - rewrite wr16_over, res_bind_ret, Hw, res_bind_ret by done. by rewrite (decide_True (P := _ ∨ _)) by auto.
  - rewrite wr16_over, res_bind_ret, Hw, res_bind_ret by done. by rewrite (decide_True (P := _ ∨ _)) by auto.
  - replace (blen pre + 2) with (blen (pre ++ enc16 f.1)) by (by rewrite blen_app).
    rewrite (app_assoc pre), rd16_here, res_bind_ret by done.
    rewrite (decide_False (P := _ ∨ _)) by tauto. by rewrite <-app_assoc.
Qed.

Lemma timestamp_fields_spec fs : Forall row_wf fs → ∀ pre post len pos,
  timestamp_fields (length fs) (pre ++ enc_rows fs ++ post) (blen pre) len pos =
  let '(len', pos') := foldl layout_step (len, pos) fs in
  Ok (pre ++ enc_rows (convert_field <$> fs) ++ post, len', pos').
Proof.
  induction 1 as [|f fs Hf _ IH]; intros pre post len pos; [done|].
  unfold enc_rows. rewrite !fmap_cons, !mjoin_cons. cbn [length timestamp_fields foldl]. rewrite <-!app_assoc.
  rewrite timestamp_field_spec by done. destruct (layout_step (len, pos) f) as [len1 pos1].
  rewrite res_bind_ret. replace (blen pre + 4) with (blen (pre ++ enc_row (convert_field f))) by (by rewrite blen_app).
  rewrite (app_assoc pre). etrans; [apply IH|]. destruct (foldl _ _ fs). by rewrite <-app_assoc.
Qed.

(** *** The table of templates *)

Record table_ok (st : convert_state) : Prop := {
  tb_cols : templates_cols st = 2;
  tb_length : Z.of_nat (length (templates_templ st)) = 2 * templates_max st;
  tb_max : 0 ≤ templates_max st < 65536
}.

(** The entries of a template are known from the definition [fs]. *)
Definition learn (st : convert_state) (t : nf9_template) : convert_state :=
  let id := n9_id t - IPFIX_MIN_RECORD_FLOWSET_ID in
  let st := if decide (id >= templates_max st) then templates_realloc st else st in
  let '(len, pos) := layout (n9_fields t) in
  set_templates st (templates_max st)
    (<[Z.to_nat (2 * id + 1) := pos]> (<[Z.to_nat (2 * id) := len]> (templates_templ st))).

(** The identifier has a place in the table, after one extension at most. *)
Definition in_table (st : convert_state) (t : nf9_template) : Prop :=
  IPFIX_MIN_RECORD_FLOWSET_ID ≤ n9_id t < 65536 ∧ n9_id t - IPFIX_MIN_RECORD_FLOWSET_ID < templates_max st + 20.

Lemma learn_ok st t : table_ok st → in_table st t → table_ok (learn st t).
Proof.
  unfold IPFIX_MIN_RECORD_FLOWSET_ID. intros [Hc Hl Hm] [Hid Hin]. unfold learn, in_table in *.
  unfold IPFIX_MIN_RECORD_FLOWSET_ID in *. destruct (layout (n9_fields t)) as [len pos].
  case_decide as Hge; constructor; cbn [templates_cols templates_templ templates_max set_templates templates_realloc];
    rewrite ?length_insert, ?length_app, ?length_replicate, ?Hc, ?u32_small by lia; lia.
Qed.

(** A record whose header is [h] behind the identifier. *)
Lemma timestamp_record_at st t h pre post : table_ok st → in_table st t → Forall row_wf (n9_fields t) →
  timestamp_record st (pre ++ (enc16 (n9_id t) ++ h ++ enc_rows (n9_fields t)) ++ post) (blen pre) (2 + blen h)
    (Z.of_nat (length (n9_fields t))) =
  Ok (true, learn st t, pre ++ (enc16 (n9_id t) ++ h ++ enc_rows (convert_field <$> n9_fields t)) ++ post,
      blen pre + (2 + blen h + 4 * Z.of_nat (length (n9_fields t)))).
Proof.
  intros Hst Hin Hwf. pose proof Hst as [Hc Hl Hm]. destruct Hin as [Hid Hin].
  unfold timestamp_record.
  rewrite <-!app_assoc, rd16_here, res_bind_ret by (unfold is_u16, IPFIX_MIN_RECORD_FLOWSET_ID in *; lia).
  set (id := n9_id t - IPFIX_MIN_RECORD_FLOWSET_ID) in *.
  assert (u16 id = id) as Hu by (apply u16_small; unfold id, IPFIX_MIN_RECORD_FLOWSET_ID in *; lia). rewrite Hu.
  unfold learn. fold id. set (st1 := if decide (id >= templates_max st) then templates_realloc st else st).
  assert (templates_cols st1 = 2 ∧ Z.of_nat (length (templates_templ st1)) = 2 * templates_max st1 ∧
    id < templates_max st1 ∧ 0 ≤ templates_max st1 < 65600) as (Hc1 & Hl1 & Hid1 & Hm1).
  { unfold st1. case_decide; cbn [templates_cols templates_templ templates_max set_templates templates_realloc];
      rewrite ?length_app, ?length_replicate, ?Hc, ?u32_small by lia; lia. }
  assert (0 ≤ id) by (unfold id, IPFIX_MIN_RECORD_FLOWSET_ID in *; lia).
  rewrite Hc1, !u32_small by (rewrite ?u32_small; lia).
  rewrite decide_False by lia. rewrite decide_False by lia. rewrite Nat2Z.id.
  replace (blen pre + (2 + blen h)) with (blen (pre ++ enc16 (n9_id t) ++ h))
    by (rewrite !blen_app, blen_enc16; lia).
  replace (pre ++ enc16 (n9_id t) ++ h ++ enc_rows (n9_fields t) ++ post)
    with ((pre ++ enc16 (n9_id t) ++ h) ++ enc_rows (n9_fields t) ++ post) by (by rewrite <-!app_assoc).
  rewrite timestamp_fields_spec by done. unfold layout. destruct (foldl _ _ _) as [len pos].
  rewrite res_bind_ret, <-!app_assoc. do 2 f_equal. rewrite !blen_app, !blen_enc16. lia.
Qed.

Lemma timestamp_record_spec st t pre post : table_ok st → in_table st t → Forall row_wf (n9_fields t) →
  timestamp_record st (pre ++ enc_nf9_template t ++ post) (blen pre) 4 (Z.of_nat (length (n9_fields t))) =
  Ok (true, learn st t, pre ++ enc_nf9_template {| n9_id := n9_id t; n9_fields := convert_field <$> n9_fields t |} ++ post,
      blen pre + blen (enc_nf9_template t)).
Proof.
  intros Hst Hin Hwf. rewrite blen_enc_nf9_template. unfold enc_nf9_template. cbn [n9_id n9_fields]. rewrite length_fmap.
  exact (timestamp_record_at st t (enc16 (Z.of_nat (length (n9_fields t)))) pre post Hst Hin Hwf).
Qed.

(** *** Template sets *)

Definition enc_nf9_templates (ts : list nf9_template) : bytes := mjoin (enc_nf9_template <$> ts).
Definition convert_times (t : nf9_template) : nf9_template :=
  {| n9_id := n9_id t; n9_fields := convert_field <$> n9_fields t |}.

Definition nf9_template_wf (t : nf9_template) : Prop :=
  is_u16 (n9_id t) ∧ Forall row_wf (n9_fields t) ∧ n9_fields t ≠ [].

Fixpoint learnable (st : convert_state) (ts : list nf9_template) : Prop :=
  match ts with [] => True | t :: ts => in_table st t ∧ learnable (learn st t) ts end.
Definition learn_all : convert_state → list nf9_template → convert_state := foldl learn.

Lemma enc_nf9_templates_cons t ts : enc_nf9_templates (t :: ts) = enc_nf9_template t ++ enc_nf9_templates ts.
Proof. done. Qed.

Lemma template_size t : nf9_template_wf t → 8 ≤ blen (enc_nf9_template t).
Proof. intros (_ & _ & Hne). rewrite blen_enc_nf9_template. destruct (n9_fields t); [done|]. cbn [length]. lia. Qed.

Lemma templates_count ts : Forall nf9_template_wf ts → 8 * Z.of_nat (length ts) ≤ blen (enc_nf9_templates ts).
Proof.
  induction 1 as [|t ts Ht _ IH]; [done|]. rewrite enc_nf9_templates_cons, blen_app.
  pose proof (template_size t Ht). cbn [length]. lia.
Qed.

Lemma template_count_here pre t post : blen (enc_nf9_template t) < 65536 →
  template_count (pre ++ enc_nf9_template t ++ post) (blen pre) = Ok (Z.of_nat (length (n9_fields t))).
Proof.
  rewrite blen_enc_nf9_template. intros Hl. unfold template_count, enc_nf9_template.
  replace (blen pre + 2) with (blen (pre ++ enc16 (n9_id t))) by (by rewrite blen_app).
  rewrite <-!app_assoc, app_assoc. apply rd16_here. unfold is_u16. lia.
Qed.

Lemma blen_convert_times t : blen (enc_nf9_template (convert_times t)) = blen (enc_nf9_template t).
Proof. rewrite !blen_enc_nf9_template. cbn [convert_times n9_fields]. by rewrite length_fmap. Qed.

Section template_set.
Context (set R padding : Z) (Hpad : 0 ≤ padding ≤ 3) (Hlen : 4 + R + padding < 65536).

Lemma timestamp_templates_loop ts : Forall nf9_template_wf ts → ∀ st pre post fuel,
  table_ok st → learnable st ts → (length ts < fuel)%nat →
  blen pre + blen (enc_nf9_templates ts) = set + 4 + R → set + 4 ≤ blen pre →
  loop (timestamp_template_step set (R + padding - 4) 4 template_count) fuel
    (st, pre ++ enc_nf9_templates ts ++ post, blen pre) =
  Ok (true, learn_all st ts, pre ++ enc_nf9_templates (convert_times <$> ts) ++ post).
Proof.
  induction 1 as [|t ts Ht _ IH]; intros st pre post [|fuel] Hst Hlearn Hf Hp Hset; cbn [length] in Hf; try lia;
    cbn [loop]; unfold timestamp_template_step at 1.
  - change (blen (enc_nf9_templates [])) with 0 in Hp. by rewrite decide_False by lia.
  - destruct Hlearn as [Hin Hlearn]. rewrite enc_nf9_templates_cons, blen_app in Hp.
    pose proof (template_size t Ht). pose proof (blen_nonneg (enc_nf9_templates ts)).
    rewrite decide_True by lia. rewrite enc_nf9_templates_cons, <-!app_assoc.
    rewrite template_count_here, res_bind_ret by lia.
    rewrite timestamp_record_spec by (done || apply Ht). rewrite res_bind_ret.
    change (enc_nf9_template {| n9_id := _; n9_fields := _ |}) with (enc_nf9_template (convert_times t)).
    replace (blen pre + blen (enc_nf9_template t)) with (blen (pre ++ enc_nf9_template (convert_times t)))
      by (by rewrite blen_app, blen_convert_times).
    rewrite (app_assoc pre). rewrite IH; [|by apply learn_ok|done|lia| |].
    + cbn [learn_all foldl]. by rewrite fmap_cons, enc_nf9_templates_cons, <-!app_assoc.
    + rewrite blen_app, blen_convert_times. lia.
    + rewrite blen_app. pose proof (blen_nonneg (enc_nf9_template (convert_times t))). lia.
Qed.
End template_set.

(** An element as IPFIX has it: a number of a vendor gets the enterprise number
    that stands for none. *)
Definition field_of (f : nf9_field) : field_spec :=
  if decide (32768 ≤ f.1)
  then {| fs_id := f.1 - 32768; fs_length := f.2; fs_enterprise := Some DEFAULT_ENTERPRISE_NUMBER |}
  else {| fs_id := f.1; fs_length := f.2; fs_enterprise := None |}.

Definition vendor_fields (fs : list nf9_field) : Z := Z.of_nat (length (filter (λ f, 32768 ≤ f.1) fs)).

Lemma enc_field_of f : enc_field (field_of f) =
  enc_row f ++ (if decide (32768 ≤ f.1) then enc32 DEFAULT_ENTERPRISE_NUMBER else []).
Proof.
  unfold field_of, enc_field, enc_row, wire_id. case_decide; cbn [fs_id fs_length fs_enterprise]; rewrite <-app_assoc; [|done].
  by replace (f.1 - 32768 + 32768) with f.1 by lia.
Qed.

Lemma vendor_fields_cons f fs :
  vendor_fields (f :: fs) = (if decide (32768 ≤ f.1) then 1 else 0) + vendor_fields fs.
Proof. unfold vendor_fields. rewrite filter_cons. case_decide; cbn [length]; lia. Qed.

Lemma unpack_fields_spec fs : Forall row_wf fs → ∀ pre post tail set_len added,
  4 * vendor_fields fs + 4 ≤ blen tail → blen (enc_rows fs) + blen post + 8 < 4294967296 →
  0 ≤ set_len → set_len + 4 * vendor_fields fs < 65536 → 0 ≤ added → added + vendor_fields fs < 65536 →
  ∃ tail',
    unpack_fields (length fs) (pre ++ enc_rows fs ++ post ++ tail) (blen pre - 4)
      (blen (enc_rows fs) + blen post + 4) set_len added =
    Ok (pre ++ enc_fields (field_of <$> fs) ++ post ++ tail', blen (pre ++ enc_fields (field_of <$> fs)) - 4,
        blen post + 4, set_len + 4 * vendor_fields fs, added + vendor_fields fs) ∧
    blen tail' = blen tail - 4 * vendor_fields fs.
Proof.
  induction 1 as [|f fs Hf _ IH]; intros pre post tail set_len added Ht Hr Hs Hs' Ha Ha'.
  - exists tail. unfold vendor_fields. cbn [filter list_filter length]. change (enc_rows []) with ([] : bytes).
    change (enc_fields _) with ([] : bytes). rewrite app_nil_r. cbn [app].
    split; [|lia]. cbn [unpack_fields]. repeat f_equal; rewrite ?blen_nil; lia.
  - rewrite vendor_fields_cons in *. pose proof (blen_nonneg (enc_rows fs)). pose proof (blen_nonneg post).
    assert (enc_rows (f :: fs) = enc_row f ++ enc_rows fs) as Er by done. rewrite Er, blen_app, blen_enc_row in *.
    assert (0 ≤ vendor_fields fs) by (unfold vendor_fields; lia).
    cbn [length unpack_fields]. replace (blen pre - 4 + 4) with (blen pre) by lia. unfold TEMPLATE_ROW_SIZE.
    replace (u32 (4 + blen (enc_rows fs) + blen post + 4 - 4)) with (blen (enc_rows fs) + blen post + 4)
      by (rewrite u32_small; lia).
    assert (rd16 (pre ++ (enc_row f ++ enc_rows fs) ++ post ++ tail) (blen pre) = Ok f.1) as ->
      by (unfold enc_row; rewrite <-!app_assoc; apply rd16_here, Hf).
    rewrite res_bind_ret. assert (enc_fields (field_of <$> f :: fs) = enc_field (field_of f) ++ enc_fields (field_of <$> fs))
      as -> by done. rewrite enc_field_of.
    pose proof (land_enterprise f.1 (proj1 Hf)) as Hland. unfold ENTERPRISE_BIT.
    destruct (decide (32768 ≤ f.1)) as [Hv|Hv].
    + rewrite decide_False by tauto.
      destruct (blen_split tail 4) as (t4 & t' & -> & Ht4 & Ht'); [lia|].
      set (x := enc_rows fs ++ post ++ t4).
      destruct (memmove_up (pre ++ enc_row f) x t' 4) as (gap & t2 & E & Hg & Ht2 & _); [lia|].
      assert (blen x = blen (enc_rows fs) + blen post + 4) as Hx by (unfold x; rewrite !blen_app; lia).
      rewrite Hx, blen_app, blen_enc_row in E.
      replace (pre ++ (enc_row f ++ enc_rows fs) ++ post ++ t4 ++ t') with ((pre ++ enc_row f) ++ x ++ t')
        by (unfold x; rewrite <-!app_assoc; done).
      rewrite E, res_bind_ret.
      replace (blen pre + 4) with (blen (pre ++ enc_row f)) by (by rewrite blen_app).
      rewrite wr32_over, res_bind_ret by done. rewrite !u16_small by lia.
      set (P := (pre ++ enc_row f) ++ enc32 DEFAULT_ENTERPRISE_NUMBER).
      destruct (IH P post (t4 ++ t2) (set_len + 4) (added + 1)) as (tail' & Eih & Hlen');
        [rewrite blen_app; lia|lia|lia|lia|lia|lia|].
      exists tail'. split; [|rewrite blen_app; rewrite blen_app in Hlen'; lia].
      assert (blen P - 4 = blen (pre ++ enc_row f)) as HP by (unfold P; rewrite (blen_app (pre ++ enc_row f)), blen_enc32; lia).
      rewrite HP in Eih. etrans; [|etrans; [exact Eih|] ].
      * f_equal. unfold P, x. rewrite <-!app_assoc. done.
      * unfold P. rewrite <-!app_assoc, <-(Z.add_assoc added). do 3 f_equal. lia.
    + rewrite decide_True by (destruct (decide (Z.land f.1 0x8000 = 0)); tauto).
      rewrite app_nil_r, !Z.add_0_l in *.
      destruct (IH (pre ++ enc_row f) post tail set_len added) as (tail' & Eih & Hlen'); [lia..|].
      exists tail'. split; [|exact Hlen'].
      assert (blen (pre ++ enc_row f) - 4 = blen pre) as HP by (rewrite blen_app, blen_enc_row; lia).
      rewrite HP in Eih. etrans; [|etrans; [exact Eih|] ]; [f_equal|]; by rewrite <-!app_assoc.
Qed.

Definition ipfix_template_of (t : nf9_template) : bytes :=
  enc_template (n9_id t) (field_of <$> n9_fields t).
Definition ipfix_templates_of (ts : list nf9_template) : bytes := mjoin (ipfix_template_of <$> ts).
Definition vendors (ts : list nf9_template) : Z := foldr (λ t n, vendor_fields (n9_fields t) + n) 0 ts.

Lemma vendor_fields_nonneg fs : 0 ≤ vendor_fields fs.
Proof. unfold vendor_fields. lia. Qed.
Lemma vendors_nonneg ts : 0 ≤ vendors ts.
Proof.
  induction ts as [|t ts IH]; [done|]. cbn [vendors foldr]. fold (vendors ts).
  pose proof (vendor_fields_nonneg (n9_fields t)). lia.
Qed.

Lemma blen_fields_of fs : blen (enc_fields (field_of <$> fs)) = blen (enc_rows fs) + 4 * vendor_fields fs.
Proof.
  induction fs as [|f fs IH]; [done|]. rewrite vendor_fields_cons.
  change (enc_fields _) with (enc_field (field_of f) ++ enc_fields (field_of <$> fs)).
  change (enc_rows (f :: fs)) with (enc_row f ++ enc_rows fs). rewrite !blen_app, IH, enc_field_of, blen_app.
  case_decide; [change (blen (enc32 _)) with 4|change (blen []) with 0]; lia.
Qed.

Lemma ipfix_template_of_head t : ipfix_template_of t =
  (enc16 (n9_id t) ++ enc16 (Z.of_nat (length (n9_fields t)))) ++ enc_fields (field_of <$> n9_fields t).
Proof. unfold ipfix_template_of, enc_template. by rewrite length_fmap, <-app_assoc. Qed.

Lemma blen_ipfix_template_of t :
  blen (ipfix_template_of t) = blen (enc_nf9_template t) + 4 * vendor_fields (n9_fields t).
Proof.
  rewrite ipfix_template_of_head, blen_app, blen_fields_of, blen_enc_nf9_template, blen_enc_rows.
  rewrite blen_app, !blen_enc16. lia.
Qed.

Lemma blen_ipfix_templates_of ts :
  blen (ipfix_templates_of ts) = blen (enc_nf9_templates ts) + 4 * vendors ts.
Proof.
  induction ts as [|t ts IH]; [done|].
  change (ipfix_templates_of (t :: ts)) with (ipfix_template_of t ++ ipfix_templates_of ts).
  rewrite enc_nf9_templates_cons, !blen_app, IH, blen_ipfix_template_of. cbn [vendors foldr].
  fold (vendors ts). lia.
Qed.

Section unpack.
Context (set R padding : Z) (post : bytes).
Context (Hpad : 0 ≤ padding ≤ 3) (Hpost : padding ≤ blen post) (Hroom : R + blen post + 16 < 4294967296).

Lemma unpack_loop ts : Forall nf9_template_wf ts → ∀ pre tail added fuel,
  (length ts < fuel)%nat → 4 * vendors ts + 4 ≤ blen tail → 0 ≤ added →
  blen pre + blen (enc_nf9_templates ts) = set + 4 + R + 4 * added →
  blen (enc_nf9_templates ts) ≤ R → R + padding + 4 * (added + vendors ts) < 65536 →
  ∃ tail',
    loop (unpack_step set 0 template_count) fuel
      (pre ++ enc_nf9_templates ts ++ post ++ tail, blen pre - 4, blen (enc_nf9_templates ts) + blen post + 4,
       R + padding + 4 * added, added) =
    Ok (pre ++ ipfix_templates_of ts ++ post ++ tail', added + vendors ts) ∧
    blen tail' = blen tail - 4 * vendors ts.
Proof.
  induction 1 as [|t ts Ht _ IH]; intros pre tail added [|fuel] Hf Htail Ha Hp HE Hmax; cbn [length] in Hf; try lia;
    cbn [loop]; unfold unpack_step at 1; replace (blen pre - 4 + 4) with (blen pre) by lia.
  - change (blen (enc_nf9_templates [])) with 0 in Hp. rewrite decide_False by lia.
    exists tail. cbn [vendors foldr]. rewrite Z.add_0_r. split; [done|lia].
  - cbn [vendors foldr] in *. fold (vendors ts) in *. pose proof (template_size t Ht) as Hsz.
    pose proof (vendor_fields_nonneg (n9_fields t)). pose proof (vendors_nonneg ts).
    rewrite enc_nf9_templates_cons, blen_app in *. pose proof (blen_nonneg (enc_nf9_templates ts)).
    rewrite decide_True by lia. rewrite <-!app_assoc, template_count_here, res_bind_ret by lia. rewrite Nat2Z.id.
    pose proof Ht as (_ & Hwf & _). rewrite Z.add_0_r. unfold TEMPLATE_ROW_SIZE. rewrite u32_small by lia.
    set (hdr := enc16 (n9_id t) ++ enc16 (Z.of_nat (length (n9_fields t)))).
    rewrite blen_enc_nf9_template in *. pose proof (blen_enc_rows (n9_fields t)) as Hrows.
    destruct (unpack_fields_spec (n9_fields t) Hwf (pre ++ hdr) (enc_nf9_templates ts ++ post) tail
      (R + padding + 4 * added) added) as (t1 & E & Ht1); [lia|rewrite blen_app; lia|lia|lia|lia|lia|].
    rewrite !blen_app in E. change (blen hdr) with 4 in E.
    replace (blen pre + 4 - 4) with (blen pre) in E by lia.
    replace (4 + 4 * Z.of_nat (length (n9_fields t)) + blen (enc_nf9_templates ts) + blen post + 4 - 4)
      with (blen (enc_rows (n9_fields t)) + (blen (enc_nf9_templates ts) + blen post) + 4) by lia.
    replace (pre ++ enc_nf9_template t ++ enc_nf9_templates ts ++ post ++ tail)
      with ((pre ++ hdr) ++ enc_rows (n9_fields t) ++ (enc_nf9_templates ts ++ post) ++ tail)
      by (unfold enc_nf9_template, hdr; rewrite <-!app_assoc; done).
    rewrite E, res_bind_ret. set (P := pre ++ ipfix_template_of t).
    assert ((pre ++ hdr) ++ enc_fields (field_of <$> n9_fields t) = P) as EP
      by (unfold P; rewrite ipfix_template_of_head; fold hdr; by rewrite <-!app_assoc).
    assert (blen P = blen pre + (4 + blen (enc_fields (field_of <$> n9_fields t)))) as HP
      by (rewrite <-EP, !blen_app; change (blen hdr) with 4; lia).
    pose proof (blen_fields_of (n9_fields t)) as Hfo.
    destruct (IH P t1 (added + vendor_fields (n9_fields t)) fuel) as (tail' & Eih & Hlen'); [lia..|].
    exists tail'. split; [|lia].
    etrans; [|etrans; [exact Eih|] ].
    + f_equal. rewrite HP. repeat apply (f_equal2 pair); [by rewrite <-EP, <-!app_assoc|lia..].
    + unfold P. change (ipfix_templates_of (t :: ts)) with (ipfix_template_of t ++ ipfix_templates_of ts).
      rewrite <-!app_assoc. do 2 f_equal. lia.
Qed.
End unpack.

Lemma convert_times_wf t : nf9_template_wf t → nf9_template_wf (convert_times t).
Proof.
  intros (Hid & Hwf & Hne). split; [done|]. cbn [convert_times n9_fields]. split.
  - apply Forall_fmap. eapply Forall_impl; [exact Hwf|]. intros f [? ?]. cbn. unfold convert_field.
    repeat case_decide; by split.
  - by destruct (n9_fields t).
Qed.

Lemma convert_times_size ts : blen (enc_nf9_templates (convert_times <$> ts)) = blen (enc_nf9_templates ts).
Proof.
  induction ts as [|t ts IH]; [done|]. rewrite fmap_cons, !enc_nf9_templates_cons, !blen_app, IH.
  by rewrite blen_convert_times.
Qed.

(** What a template set becomes: the templates of IPFIX with 64-bit times. *)
Definition converted_templates (ts : list nf9_template) : bytes := ipfix_templates_of (convert_times <$> ts).

Lemma nf9_template_set_spec st pre ts padding behind tail len :
  let V := vendors (convert_times <$> ts) in
  table_ok st → learnable st ts → Forall nf9_template_wf ts → ts ≠ [] → blen padding ≤ 3 →
  4 + blen (converted_templates ts) + blen padding < 65536 → blen behind < 65536 → 4 * V + 4 ≤ blen tail →
  ∃ tail',
    nf9_template_set st
      (pre ++ enc_set (NETFLOW_V9_TEMPLATE_SET_ID, enc_nf9_templates ts ++ padding) ++ behind ++ tail) (blen pre) len
      (blen (enc_set (NETFLOW_V9_TEMPLATE_SET_ID, enc_nf9_templates ts ++ padding)) + blen behind) =
    Ok (true, learn_all st ts,
        pre ++ enc_set (IPFIX_TEMPLATE_FLOWSET_ID, converted_templates ts ++ padding) ++ behind ++ tail', len + 4 * V) ∧
    blen tail' = blen tail - 4 * V.
Proof.
  intros V Hst Hlearn Hwf Hne Hpad Hmax Hbehind Htail. unfold nf9_template_set.
  pose proof (vendors_nonneg (convert_times <$> ts)) as HV. pose proof (blen_nonneg padding). pose proof (blen_nonneg behind).
  unfold converted_templates in *. rewrite blen_ipfix_templates_of in Hmax.
  rewrite convert_times_size in Hmax. fold V in Hmax, HV.
  assert (8 ≤ blen (enc_nf9_templates ts)) as HR.
  { destruct ts as [|t ts]; [done|]. apply Forall_cons in Hwf as [Ht _]. rewrite enc_nf9_templates_cons, blen_app.
    pose proof (template_size t Ht). pose proof (blen_nonneg (enc_nf9_templates ts)). lia. }
  assert (length ts < set_fuel)%nat as Hfuel by (pose proof (templates_count ts Hwf); unfold set_fuel; lia).
  set (R := blen (enc_nf9_templates ts)) in *.
  rewrite blen_enc_set. unfold enc_set. cbn [fst snd]. rewrite blen_app. fold R.
  set (n := 4 + (R + blen padding)).
  rewrite <-!app_assoc, wr16_over, res_bind_ret by done.
  set (hdr := enc16 IPFIX_TEMPLATE_FLOWSET_ID).
  assert (∀ y, rd16 (pre ++ hdr ++ enc16 n ++ y) (blen pre + 2) = Ok n) as Hn.
  { intros y. replace (blen pre + 2) with (blen (pre ++ hdr)) by (by rewrite blen_app).
    rewrite app_assoc. apply rd16_here. unfold is_u16, n. lia. }
  rewrite Hn, res_bind_ret. rewrite decide_True by (unfold n; lia).
  unfold insert_timestamp_template. rewrite Hn, res_bind_ret.
  unfold sizeof_ipfix_template_record, sizeof_ipfix_set_header. rewrite u16_small by (unfold n; lia).
  set (P := pre ++ hdr ++ enc16 n). assert (blen P = blen pre + 4) as HP by (unfold P; by rewrite !blen_app).
  replace (pre ++ hdr ++ enc16 n ++ enc_nf9_templates ts ++ padding ++ behind ++ tail)
    with (P ++ enc_nf9_templates ts ++ padding ++ behind ++ tail) by (unfold P; rewrite <-!app_assoc; done).
  pose proof (timestamp_templates_loop (blen pre) R (blen padding) ltac:(lia) ltac:(lia) ts Hwf st P (padding ++ behind ++ tail)
    set_fuel Hst Hlearn Hfuel ltac:(fold R; lia) ltac:(lia)) as E1.
  rewrite HP in E1. replace (n - 8) with (R + blen padding - 4) by (unfold n; lia). rewrite E1, res_bind_ret. cbv beta iota.
  unfold unpack_enterprise_elements, unpack_set.
  assert (∀ y, rd16 (P ++ y) (blen pre + 2) = Ok n) as HnP
    by (intros y; unfold P; rewrite <-!app_assoc; apply Hn).
  set (cs := convert_times <$> ts) in *. rewrite HnP, res_bind_ret.
  unfold sizeof_ipfix_set_header. rewrite u16_small by (unfold n; lia).
  destruct (unpack_loop (blen pre) R (blen padding) (padding ++ behind) ltac:(lia) ltac:(rewrite blen_app; lia)
    ltac:(rewrite blen_app; lia) cs) with (pre := P) (tail := tail) (added := 0) (fuel := set_fuel)
    as (tail' & E2 & Ht'); [| |lia|lia| | |lia|].
  { apply Forall_fmap. eapply Forall_impl; [exact Hwf|]. intros t. apply convert_times_wf. }
  { unfold cs. rewrite length_fmap. done. }
  { unfold cs. rewrite convert_times_size. fold R. lia. }
  { unfold cs. rewrite convert_times_size. fold R. lia. }
  unfold cs in E2 at 2. rewrite convert_times_size in E2. fold R in E2. rewrite HP, blen_app in E2.
  rewrite Z.mul_0_r, !Z.add_0_r, Z.add_0_l in E2. fold V in E2.
  replace (blen pre + 4 - 4) with (blen pre) in E2 by lia.
  replace (R + (blen padding + blen behind) + 4) with (n + blen behind) in E2 by (unfold n; lia).
  replace (n - 4) with (R + blen padding) by (unfold n; lia).
  exists tail'. split; [|exact Ht'].
  rewrite <-!(app_assoc padding) in E2. rewrite E2, res_bind_ret, HnP, res_bind_ret. unfold TEMPLATE_ROW_SIZE.
  unfold P. rewrite <-!app_assoc.
  rewrite u16_small by (unfold n; lia).
  replace (blen pre + 2) with (blen (pre ++ hdr)) by (by rewrite blen_app).
  rewrite (app_assoc pre), wr16_over, res_bind_ret by done. cbn [fst snd].
  rewrite !blen_app, blen_ipfix_templates_of. unfold cs at 2. rewrite convert_times_size. fold R V. rewrite <-!app_assoc.
  replace (4 + (R + 4 * V + blen padding)) with (n + V * 4) by (unfold n; lia). by rewrite (Z.mul_comm 4).
Qed.

(** *** Options template sets *)

(** An options template of NetFlow 9: its header has the octets of the scope fields and of
    the other fields. *)
Record nf9_otemplate := { o9_id : Z; o9_scope : list nf9_field; o9_options : list nf9_field }.

Definition o9_fields (t : nf9_otemplate) : list nf9_field := o9_scope t ++ o9_options t.
Definition o9_template (t : nf9_otemplate) : nf9_template := {| n9_id := o9_id t; n9_fields := o9_fields t |}.
Definition octets_of (fs : list nf9_field) : Z := 4 * Z.of_nat (length fs).

Definition enc_nf9_otemplate (t : nf9_otemplate) : bytes :=
  enc16 (o9_id t) ++ (enc16 (octets_of (o9_scope t)) ++ enc16 (octets_of (o9_options t))) ++ enc_rows (o9_fields t).
Definition enc_nf9_otemplates (ts : list nf9_otemplate) : bytes := mjoin (enc_nf9_otemplate <$> ts).

Definition convert_otimes (t : nf9_otemplate) : nf9_otemplate :=
  {| o9_id := o9_id t; o9_scope := convert_field <$> o9_scope t; o9_options := convert_field <$> o9_options t |}.

(** What it becomes: the options template of IPFIX, which counts fields. *)
Definition ipfix_otemplate_of (t : nf9_otemplate) : bytes :=
  enc_options_template (o9_id t) (Z.of_nat (length (o9_scope t))) (field_of <$> o9_fields t).
Definition converted_otemplates (ts : list nf9_otemplate) : bytes := mjoin (ipfix_otemplate_of <$> (convert_otimes <$> ts)).

(** No elements of vendors, and so many fields that their octets are counted in 8 bits. *)
Definition standard (f : nf9_field) : Prop := f.1 < 32768.
Record nf9_otemplate_wf (t : nf9_otemplate) : Prop := {
  ot_id : is_u16 (o9_id t);
  ot_rows : Forall row_wf (o9_fields t);
  ot_standard : Forall standard (o9_fields t);
  ot_nonempty : o9_fields t ≠ [];
  ot_size : octets_of (o9_fields t) ≤ 248
}.

Lemma octets_fields t : octets_of (o9_fields t) = octets_of (o9_scope t) + octets_of (o9_options t).
Proof. unfold octets_of, o9_fields. rewrite length_app. lia. Qed.

Lemma octets_nonneg fs : 0 ≤ octets_of fs.
Proof. unfold octets_of. lia. Qed.

Lemma blen_enc_nf9_otemplate t : blen (enc_nf9_otemplate t) = 6 + octets_of (o9_fields t).
Proof. unfold enc_nf9_otemplate, octets_of. rewrite !blen_app, blen_enc_rows, !blen_enc16. lia. Qed.

Lemma enc_fields_standard fs : Forall standard fs → enc_fields (field_of <$> fs) = enc_rows fs.
Proof.
  induction 1 as [|f fs Hf _ IH]; [done|]. change (enc_rows (f :: fs)) with (enc_row f ++ enc_rows fs).
  change (enc_fields (field_of <$> f :: fs)) with (enc_field (field_of f) ++ enc_fields (field_of <$> fs)).
  rewrite IH, enc_field_of, decide_False by (unfold standard in Hf; lia). by rewrite app_nil_r.
Qed.

Lemma ipfix_otemplate_of_rows t : Forall standard (o9_fields t) →
  ipfix_otemplate_of t =
  enc16 (o9_id t) ++ (enc16 (Z.of_nat (length (o9_fields t))) ++ enc16 (Z.of_nat (length (o9_scope t)))) ++ enc_rows (o9_fields t).
Proof.
  intros Hs. unfold ipfix_otemplate_of, enc_options_template. by rewrite length_fmap, enc_fields_standard, <-!app_assoc.
Qed.

Lemma convert_otimes_fields t : o9_fields (convert_otimes t) = convert_field <$> o9_fields t.
Proof. unfold o9_fields. cbn [convert_otimes o9_scope o9_options]. by rewrite fmap_app. Qed.

Lemma convert_otimes_octets t : octets_of (o9_scope (convert_otimes t)) = octets_of (o9_scope t) ∧
  octets_of (o9_options (convert_otimes t)) = octets_of (o9_options t).
Proof. unfold octets_of. cbn [convert_otimes o9_scope o9_options]. by rewrite !length_fmap. Qed.

Lemma convert_otimes_wf t : nf9_otemplate_wf t → nf9_otemplate_wf (convert_otimes t).
Proof.
  intros [Hid Hrows Hstd Hne Hsz]. constructor; rewrite ?convert_otimes_fields; [done| | |by destruct (o9_fields t)|].
  - apply Forall_fmap. eapply Forall_impl; [exact Hrows|]. intros f [? ?]. cbn. unfold convert_field. repeat case_decide; by split.
  - apply Forall_fmap. eapply Forall_impl; [exact Hstd|]. intros f Hf. cbn. unfold standard, convert_field in *. by repeat case_decide.
  - unfold octets_of in *. by rewrite length_fmap.
Qed.

Lemma otemplate_size t : nf9_otemplate_wf t → 10 ≤ blen (enc_nf9_otemplate t) < 65536.
Proof.
  intros [_ _ _ Hne Hsz]. rewrite blen_enc_nf9_otemplate. unfold octets_of in *. destruct (o9_fields t); [done|]. cbn [length] in *. lia.
Qed.

Lemma otemplates_count ts : Forall nf9_otemplate_wf ts → 10 * Z.of_nat (length ts) ≤ blen (enc_nf9_otemplates ts).
Proof.
  induction 1 as [|t ts Ht _ IH]; [done|]. change (enc_nf9_otemplates (t :: ts)) with (enc_nf9_otemplate t ++ enc_nf9_otemplates ts).
  rewrite blen_app. pose proof (otemplate_size t Ht). cbn [length]. lia.
Qed.

(** The two lengths in the header, and the number of fields they give. *)
Lemma otemplate_lengths_here pre t post : nf9_otemplate_wf t →
  rd16 (pre ++ enc_nf9_otemplate t ++ post) (blen pre + 2) = Ok (octets_of (o9_scope t)) ∧
  rd16 (pre ++ enc_nf9_otemplate t ++ post) (blen pre + 4) = Ok (octets_of (o9_options t)).
Proof.
  intros [_ _ _ _ Hsz]. rewrite octets_fields in Hsz.
  pose proof (octets_nonneg (o9_scope t)). pose proof (octets_nonneg (o9_options t)).
  unfold enc_nf9_otemplate. rewrite <-!app_assoc. split.
  - rewrite (app_assoc pre). replace (blen pre + 2) with (blen (pre ++ enc16 (o9_id t))) by (by rewrite blen_app).
    apply rd16_here. unfold is_u16. lia.
  - rewrite (app_assoc pre), (app_assoc (pre ++ _)).
    replace (blen pre + 4) with (blen ((pre ++ enc16 (o9_id t)) ++ enc16 (octets_of (o9_scope t))))
      by (rewrite !blen_app, !blen_enc16; lia).
    apply rd16_here. unfold is_u16. lia.
Qed.

Lemma otemplate_count_here pre t post : nf9_otemplate_wf t →
  otemplate_count (pre ++ enc_nf9_otemplate t ++ post) (blen pre) = Ok (Z.of_nat (length (o9_fields t))).
Proof.
  intros Ht. unfold otemplate_count. destruct (otemplate_lengths_here pre t post Ht) as [-> ->]. rewrite !res_bind_ret.
  rewrite <-octets_fields. pose proof (ot_size t Ht) as Hsz. unfold octets_of in *. rewrite Z.mul_comm, Z.div_mul by done.
  by rewrite u16_small by lia.
Qed.

Section options_set.
Context (set R padding : Z) (Hpad : 0 ≤ padding ≤ 3).

Lemma timestamp_otemplates_loop ts : Forall nf9_otemplate_wf ts → ∀ st pre post fuel,
  table_ok st → learnable st (o9_template <$> ts) → (length ts < fuel)%nat →
  blen pre + blen (enc_nf9_otemplates ts) = set + 4 + R → set + 4 ≤ blen pre →
  loop (timestamp_template_step set (R + padding - 6) 6 otemplate_count) fuel
    (st, pre ++ enc_nf9_otemplates ts ++ post, blen pre) =
  Ok (true, learn_all st (o9_template <$> ts), pre ++ enc_nf9_otemplates (convert_otimes <$> ts) ++ post).
Proof.
  induction 1 as [|t ts Ht _ IH]; intros st pre post [|fuel] Hst Hlearn Hf Hp Hset; cbn [length] in Hf; try lia;
    cbn [loop]; unfold timestamp_template_step at 1.
  - change (blen (enc_nf9_otemplates [])) with 0 in Hp. by rewrite decide_False by lia.
  - destruct Hlearn as [Hin Hlearn]. rewrite !fmap_cons.
    change (enc_nf9_otemplates (t :: ts)) with (enc_nf9_otemplate t ++ enc_nf9_otemplates ts) in *.
    change (enc_nf9_otemplates (convert_otimes t :: (convert_otimes <$> ts)))
      with (enc_nf9_otemplate (convert_otimes t) ++ enc_nf9_otemplates (convert_otimes <$> ts)).
    rewrite blen_app in Hp. pose proof (otemplate_size t Ht). pose proof (blen_nonneg (enc_nf9_otemplates ts)).
    rewrite decide_True by lia. rewrite <-!app_assoc, otemplate_count_here, res_bind_ret by done.
    pose proof (timestamp_record_at st (o9_template t) (enc16 (octets_of (o9_scope t)) ++ enc16 (octets_of (o9_options t))) pre
      (enc_nf9_otemplates ts ++ post) Hst Hin (ot_rows t Ht)) as E.
    cbn [o9_template n9_id n9_fields] in E. rewrite <-convert_otimes_fields in E.
    destruct (convert_otimes_octets t) as [Es Eo]. assert (enc16 (o9_id t) ++ (enc16 (octets_of (o9_scope t)) ++ enc16 (octets_of (o9_options t))) ++
      enc_rows (o9_fields (convert_otimes t)) = enc_nf9_otemplate (convert_otimes t)) as Ec
      by (unfold enc_nf9_otemplate; by rewrite Es, Eo).
    rewrite Ec in E. clear Ec.
    change (2 + blen (_ ++ _)) with 6 in E. unfold enc_nf9_otemplate at 1. rewrite E, res_bind_ret.
    assert (blen pre + (6 + 4 * Z.of_nat (length (o9_fields t))) = blen (pre ++ enc_nf9_otemplate (convert_otimes t))) as ->.
    { rewrite blen_app, blen_enc_nf9_otemplate, convert_otimes_fields. unfold octets_of. by rewrite length_fmap. }
    rewrite (app_assoc pre). rewrite IH; [|by apply learn_ok|done|lia| |].
    + by rewrite <-!app_assoc.
    + rewrite blen_app. rewrite blen_enc_nf9_otemplate in *. rewrite convert_otimes_fields. unfold octets_of in *. rewrite length_fmap. lia.
    + rewrite blen_app. pose proof (blen_nonneg (enc_nf9_otemplate (convert_otimes t))). lia.
Qed.

(** Without elements of vendors no enterprise numbers are put in. *)
Lemma unpack_fields_standard fs : Forall row_wf fs → Forall standard fs → ∀ pre post remaining set_len added,
  ∃ remaining', unpack_fields (length fs) (pre ++ enc_rows fs ++ post) (blen pre - 4) remaining set_len added =
    Ok (pre ++ enc_rows fs ++ post, blen (pre ++ enc_rows fs) - 4, remaining', set_len, added).
Proof.
  induction 1 as [|f fs Hf _ IH]; intros Hstd pre post remaining set_len added; [exists remaining; by rewrite app_nil_r|].
  apply Forall_cons in Hstd as [Hs Hstd]. cbn [length unpack_fields]. replace (blen pre - 4 + 4) with (blen pre) by lia.
  change (enc_rows (f :: fs)) with (enc_row f ++ enc_rows fs).
  assert (rd16 (pre ++ (enc_row f ++ enc_rows fs) ++ post) (blen pre) = Ok f.1) as ->
    by (unfold enc_row; rewrite <-!app_assoc; apply rd16_here, Hf).
  rewrite res_bind_ret. unfold ENTERPRISE_BIT. pose proof (land_enterprise f.1 (proj1 Hf)) as Hland. unfold standard in Hs.
  rewrite decide_True by (destruct (decide (Z.land f.1 0x8000 = 0)) as [E|E]; [exact E|apply Hland in E; lia]).
  destruct (IH Hstd (pre ++ enc_row f) post (u32 (remaining - TEMPLATE_ROW_SIZE)) set_len added) as [r E].
  exists r. rewrite blen_app in E. change (blen (enc_row f)) with 4 in E. replace (blen pre + 4 - 4) with (blen pre) in E by lia.
  rewrite <-!app_assoc in E |- *. rewrite E, <-app_assoc. done.
Qed.

Lemma unpack_otemplates_loop ts : Forall nf9_otemplate_wf ts → ∀ pre post remaining fuel,
  (length ts < fuel)%nat → blen pre + blen (enc_nf9_otemplates ts) = set + 4 + R →
  loop (unpack_step set 2 otemplate_count) fuel
    (pre ++ enc_nf9_otemplates ts ++ post, blen pre - 4, remaining, R + padding, 0) =
  Ok (pre ++ enc_nf9_otemplates ts ++ post, 0).
Proof.
  induction 1 as [|t ts Ht _ IH]; intros pre post remaining [|fuel] Hf Hp; cbn [length] in Hf; try lia;
    cbn [loop]; unfold unpack_step at 1; replace (blen pre - 4 + 4) with (blen pre) by lia.
  - change (blen (enc_nf9_otemplates [])) with 0 in Hp. by rewrite decide_False by lia.
  - change (enc_nf9_otemplates (t :: ts)) with (enc_nf9_otemplate t ++ enc_nf9_otemplates ts) in *. rewrite blen_app in Hp.
    pose proof (otemplate_size t Ht). pose proof (blen_nonneg (enc_nf9_otemplates ts)). rewrite decide_True by lia.
    rewrite <-!app_assoc, otemplate_count_here, res_bind_ret, Nat2Z.id by done.
    set (hdr := enc16 (o9_id t) ++ enc16 (octets_of (o9_scope t)) ++ enc16 (octets_of (o9_options t))).
    destruct (unpack_fields_standard (o9_fields t) (ot_rows t Ht) (ot_standard t Ht) (pre ++ hdr) (enc_nf9_otemplates ts ++ post)
      (u32 (remaining - TEMPLATE_ROW_SIZE)) (R + padding) 0) as [r E].
    assert (pre ++ enc_nf9_otemplate t = (pre ++ hdr) ++ enc_rows (o9_fields t)) as Et
      by (unfold enc_nf9_otemplate, hdr; by rewrite <-!app_assoc).
    rewrite (app_assoc (pre ++ hdr)), <-Et, blen_app in E. change (blen hdr) with 6 in E.
    replace (blen pre + 6 - 4) with (blen pre + 2) in E by lia.
    rewrite (app_assoc pre), E, res_bind_ret. apply IH; [lia|]. rewrite blen_app. lia.
Qed.

Lemma enc_rows_split fs k f : fs !! k = Some f → enc_rows fs = enc_rows (take k fs) ++ enc_row f ++ enc_rows (drop (S k) fs).
Proof.
  intros Hk. rewrite <-(take_drop_middle fs k f Hk) at 1. unfold enc_rows. by rewrite fmap_app, join_app.
Qed.

(** The count of the fields of a record, and of its scope fields. *)
Lemma options_scope_count t pre post : nf9_otemplate_wf t →
  loop (options_scope_step (pre ++ enc_nf9_otemplate t ++ post) (blen pre) (octets_of (o9_scope t)) (octets_of (o9_options t)))
    options_scope_fuel (0, 0, 0) = Ok (Z.of_nat (length (o9_fields t)), Z.of_nat (length (o9_scope t))).
Proof.
  intros [_ Hrows Hstd _ Hsz]. set (s := length (o9_scope t)). set (n := length (o9_fields t)).
  assert (s ≤ n)%nat as Hsn by (unfold s, n, o9_fields; rewrite length_app; lia).
  assert (4 * Z.of_nat n ≤ 248) as Hn by exact Hsz. clear Hsz.
  assert (octets_of (o9_scope t) + octets_of (o9_options t) = 4 * Z.of_nat n) as Hsum by (by rewrite <-octets_fields).
  assert (∀ k fuel, (k ≤ n)%nat → (n - k < fuel)%nat →
    loop (options_scope_step (pre ++ enc_nf9_otemplate t ++ post) (blen pre) (octets_of (o9_scope t)) (octets_of (o9_options t)))
      fuel (4 * Z.of_nat k, Z.of_nat k, Z.of_nat (k `min` s)) = Ok (Z.of_nat n, Z.of_nat s)) as H.
  2: { apply (H 0%nat); unfold options_scope_fuel; lia. }
  intros k fuel. revert k. induction fuel as [|fuel IH]; intros k Hk Hf; [lia|]. cbn [loop]. unfold options_scope_step at 1. rewrite Hsum.
  destruct (decide (k = n)) as [->|Hne]; [rewrite decide_False by lia; by rewrite Nat.min_r by lia|]. rewrite decide_True by lia.
  destruct (lookup_lt_is_Some_2 (o9_fields t) k) as [f Hk']; [fold n; lia|].
  assert (rd16 (pre ++ enc_nf9_otemplate t ++ post) (blen pre + 6 + 4 * Z.of_nat k) = Ok f.1 ∧ 0 ≤ f.1 < 32768) as [-> Hf1].
  { pose proof (Forall_lookup_1 _ _ _ _ Hrows Hk') as [Hid _]. pose proof (Forall_lookup_1 _ _ _ _ Hstd Hk') as Hs. unfold standard, is_u16 in *.
    split; [|lia]. set (h := enc16 (o9_id t) ++ enc16 (octets_of (o9_scope t)) ++ enc16 (octets_of (o9_options t))).
    assert (pre ++ enc_nf9_otemplate t ++ post = (pre ++ h ++ enc_rows (take k (o9_fields t))) ++
      enc16 f.1 ++ (enc16 f.2 ++ enc_rows (drop (S k) (o9_fields t)) ++ post)) as ->.
    { unfold enc_nf9_otemplate, h. rewrite (enc_rows_split _ _ _ Hk') at 1. unfold enc_row. by rewrite <-!app_assoc. }
    replace (blen pre + 6 + 4 * Z.of_nat k) with (blen (pre ++ h ++ enc_rows (take k (o9_fields t)))).
    - by apply rd16_here.
    - rewrite !blen_app, blen_enc_rows, length_take. change (blen h) with 6. fold n. lia. }
  rewrite res_bind_ret. assert (Z.land f.1 0x8000 = 0) as ->.
  { pose proof (land_enterprise f.1 ltac:(unfold is_u16; lia)) as Hland.
    destruct (decide (Z.land f.1 0x8000 = 0)) as [E|E]; [exact E|apply Hland in E; lia]. }
  rewrite (decide_True (P := 0 = 0)) by done. unfold sizeof_template_ie, u8. rewrite !Z.mod_small by lia.
  assert ((if decide (4 * Z.of_nat k < octets_of (o9_scope t)) then Z.of_nat (k `min` s) + 1 else Z.of_nat (k `min` s)) =
    Z.of_nat (S k `min` s)) as -> by (unfold octets_of; fold s; case_decide; lia).
  replace (4 * Z.of_nat k + 4) with (4 * Z.of_nat (S k)) by lia. replace (Z.of_nat k + 1) with (Z.of_nat (S k)) by lia.
  apply IH; lia.
Qed.

Lemma blen_ipfix_otemplate t : nf9_otemplate_wf t → blen (ipfix_otemplate_of t) = blen (enc_nf9_otemplate t).
Proof.
  intros Ht. rewrite ipfix_otemplate_of_rows by apply Ht. unfold enc_nf9_otemplate. by rewrite !blen_app, !blen_enc16.
Qed.

(** The record becomes that of IPFIX when the two lengths become counts. *)
Lemma options_counts_written t pre post : nf9_otemplate_wf t →
  (mem ← wr16 (pre ++ enc_nf9_otemplate t ++ post) (blen pre + 2) (Z.of_nat (length (o9_fields t)));
   wr16 mem (blen pre + 4) (Z.of_nat (length (o9_scope t)))) = Ok (pre ++ ipfix_otemplate_of t ++ post).
Proof.
  intros Ht. rewrite ipfix_otemplate_of_rows by apply Ht. unfold enc_nf9_otemplate. rewrite <-!app_assoc, !(app_assoc pre (enc16 (o9_id t))).
  replace (blen pre + 2) with (blen (pre ++ enc16 (o9_id t))) by (by rewrite blen_app). rewrite wr16_over, res_bind_ret by done.
  rewrite !(app_assoc (pre ++ _)). set (x := enc16 (Z.of_nat (length (o9_fields t)))).
  replace (blen pre + 4) with (blen ((pre ++ enc16 (o9_id t)) ++ x)) by (unfold x; rewrite !blen_app, !blen_enc16; lia).
  by rewrite wr16_over by done.
Qed.

Lemma options_records_loop ts : Forall nf9_otemplate_wf ts → ∀ pre post fuel,
  (length ts < fuel)%nat → blen pre + blen (enc_nf9_otemplates ts) = set + 4 + R →
  loop (options_record_step set (4 + R + padding)) fuel (pre ++ enc_nf9_otemplates ts ++ post, blen pre) =
  Ok (pre ++ mjoin (ipfix_otemplate_of <$> ts) ++ post).
Proof.
  induction 1 as [|t ts Ht _ IH]; intros pre post [|fuel] Hf Hp; cbn [length] in Hf; try lia;
    cbn [loop]; unfold options_record_step at 1; unfold sizeof_ipfix_options_template_record, sizeof_template_ie.
  - change (blen (enc_nf9_otemplates [])) with 0 in Hp. by rewrite decide_False by lia.
  - change (enc_nf9_otemplates (t :: ts)) with (enc_nf9_otemplate t ++ enc_nf9_otemplates ts) in *. rewrite blen_app in Hp.
    pose proof (otemplate_size t Ht). pose proof (blen_nonneg (enc_nf9_otemplates ts)). rewrite decide_True by lia. rewrite <-!app_assoc.
    destruct (otemplate_lengths_here pre t (enc_nf9_otemplates ts ++ post) Ht) as [-> ->]. rewrite !res_bind_ret.
    rewrite options_scope_count, res_bind_ret by done. cbv beta iota.
    pose proof (options_counts_written t pre (enc_nf9_otemplates ts ++ post) Ht) as Ew.
    apply res_bind_Ok in Ew as (m & -> & Ew). rewrite res_bind_ret, Ew, res_bind_ret.
    assert (blen pre + u16 (octets_of (o9_scope t) + octets_of (o9_options t) + 10 - 4) = blen (pre ++ ipfix_otemplate_of t)) as ->.
    { rewrite blen_app, blen_ipfix_otemplate, blen_enc_nf9_otemplate, octets_fields by done.
      rewrite blen_enc_nf9_otemplate, octets_fields in *. rewrite u16_small by lia. lia. }
    rewrite (app_assoc pre). rewrite IH; [by rewrite fmap_cons, mjoin_cons, <-!app_assoc|lia|].
    rewrite blen_app, blen_ipfix_otemplate by done. lia.
Qed.
End options_set.

Lemma convert_otimes_size ts : blen (enc_nf9_otemplates (convert_otimes <$> ts)) = blen (enc_nf9_otemplates ts).
Proof.
  induction ts as [|t ts IH]; [done|]. rewrite fmap_cons.
  change (enc_nf9_otemplates (?x :: ?l)) with (enc_nf9_otemplate x ++ enc_nf9_otemplates l).
  rewrite !blen_app, IH, !blen_enc_nf9_otemplate, convert_otimes_fields. unfold octets_of. by rewrite length_fmap.
Qed.

Lemma converted_otemplates_size ts : Forall nf9_otemplate_wf ts → blen (converted_otemplates ts) = blen (enc_nf9_otemplates ts).
Proof.
  unfold converted_otemplates. induction 1 as [|t ts Ht _ IH]; [done|]. rewrite !fmap_cons, mjoin_cons, blen_app, IH.
  change (enc_nf9_otemplates (t :: ts)) with (enc_nf9_otemplate t ++ enc_nf9_otemplates ts).
  rewrite blen_app, blen_ipfix_otemplate by (by apply convert_otimes_wf).
  rewrite !blen_enc_nf9_otemplate, convert_otimes_fields. unfold octets_of. by rewrite length_fmap.
Qed.

Lemma nf9_options_set_spec st pre ts padding post len remaining :
  table_ok st → learnable st (o9_template <$> ts) → Forall nf9_otemplate_wf ts → ts ≠ [] → blen padding ≤ 3 →
  4 + blen (enc_nf9_otemplates ts) + blen padding < 65536 →
  nf9_options_set st
    (pre ++ enc_set (NETFLOW_V9_OPT_TEMPLATE_SET_ID, enc_nf9_otemplates ts ++ padding) ++ post) (blen pre) len remaining =
  Ok (true, learn_all st (o9_template <$> ts),
      pre ++ enc_set (IPFIX_OPTION_FLOWSET_ID, converted_otemplates ts ++ padding) ++ post, len).
Proof.
  intros Hst Hlearn Hwf Hne Hpad Hmax. unfold nf9_options_set. pose proof (blen_nonneg padding).
  pose proof (otemplates_count ts Hwf) as Hcnt. assert (1 ≤ Z.of_nat (length ts)) by (destruct ts; [done|cbn; lia]).
  assert (length ts < set_fuel)%nat as Hfuel by (unfold set_fuel; lia).
  set (R := blen (enc_nf9_otemplates ts)) in *. unfold enc_set. cbn [fst snd].
  assert (blen (converted_otemplates ts ++ padding) = R + blen padding) as ->
    by (by rewrite blen_app, converted_otemplates_size).
  rewrite blen_app. fold R. replace (4 + (R + blen padding)) with (4 + R + blen padding) by lia. set (n := 4 + R + blen padding) in *.
  rewrite <-!app_assoc, wr16_over, res_bind_ret by done. set (hdr := enc16 IPFIX_OPTION_FLOWSET_ID).
  set (P := pre ++ hdr ++ enc16 n). assert (blen P = blen pre + 4) as HP by (unfold P; by rewrite !blen_app).
  assert (∀ y, rd16 (P ++ y) (blen pre + 2) = Ok n) as Hn.
  { intros y. unfold P. rewrite <-!app_assoc, (app_assoc pre). replace (blen pre + 2) with (blen (pre ++ hdr)) by (by rewrite blen_app).
    apply rd16_here. unfold is_u16. lia. }
  assert (∀ y, pre ++ hdr ++ enc16 n ++ y = P ++ y) as EP by (intros y; unfold P; by rewrite <-!app_assoc).
  rewrite EP, Hn, res_bind_ret. rewrite decide_True by lia.
  unfold insert_timestamp_otemplate. rewrite Hn, res_bind_ret.
  unfold sizeof_ipfix_options_template_record, sizeof_ipfix_set_header. rewrite u16_small by (unfold n; lia).
  pose proof (timestamp_otemplates_loop (blen pre) R (blen padding) ltac:(lia) ts Hwf st P (padding ++ post)
    set_fuel Hst Hlearn Hfuel ltac:(fold R; lia) ltac:(lia)) as E1.
  rewrite HP in E1. replace (n - 10) with (R + blen padding - 6) by (unfold n; lia). rewrite E1, !res_bind_ret. cbv beta iota.
  assert (Forall nf9_otemplate_wf (convert_otimes <$> ts)) as Hcwf
    by (apply Forall_fmap; eapply Forall_impl; [exact Hwf|]; intros t; apply convert_otimes_wf).
  pose proof (convert_otimes_size ts) as Hcs. fold R in Hcs.
  unfold unpack_ot_enterprise_elements, unpack_set. rewrite Hn, res_bind_ret. unfold sizeof_ipfix_set_header. rewrite u16_small by lia.
  pose proof (unpack_otemplates_loop (blen pre) R (blen padding) ltac:(lia) (convert_otimes <$> ts) Hcwf P (padding ++ post)
    remaining set_fuel ltac:(by rewrite length_fmap) ltac:(lia)) as E2.
  rewrite HP in E2. replace (blen pre + 4 - 4) with (blen pre) in E2 by lia. replace (n - 4) with (R + blen padding) by lia.
  rewrite E2, res_bind_ret. cbv beta iota. rewrite Hn, res_bind_ret. rewrite Z.mul_0_l, !Z.add_0_r.
  assert (∀ y, wr16 (P ++ y) (blen pre + 2) (u16 n) = Ok (P ++ y)) as Hw.
  { intros y. unfold P. rewrite <-!app_assoc, !(app_assoc pre hdr). replace (blen pre + 2) with (blen (pre ++ hdr)) by (by rewrite blen_app).
    rewrite wr16_over by done. by rewrite u16_small by lia. }
  rewrite Hw, !res_bind_ret. cbn [fst snd]. rewrite Z.add_0_r.
  pose proof (options_records_loop (blen pre) R (blen padding) ltac:(lia) (convert_otimes <$> ts) Hcwf P (padding ++ post)
    set_fuel ltac:(by rewrite length_fmap) ltac:(lia)) as E3.
  rewrite HP in E3. fold n in E3. rewrite E3, res_bind_ret. by rewrite <-EP.
Qed.

(** *** Data sets *)

(** A record with two uptimes one behind the other. *)
Record nf9_record := { r9_head : bytes; r9_first : Z; r9_last : Z; r9_rest : bytes }.

Definition enc_nf9_record (r : nf9_record) : bytes := r9_head r ++ enc32 (r9_first r) ++ enc32 (r9_last r) ++ r9_rest r.
Definition converted_record (time_header : Z) (r : nf9_record) : bytes :=
  r9_head r ++ enc64 (u64 (time_header + r9_first r)) ++ enc64 (u64 (time_header + r9_last r)) ++ r9_rest r.

(** The record has the length [rec_len] and its uptimes at [pos]. *)
Record nf9_record_wf (rec_len pos : Z) (r : nf9_record) : Prop := {
  r9_head_len : blen (r9_head r) = pos;
  r9_first_range : is_u32 (r9_first r);
  r9_last_range : is_u32 (r9_last r);
  r9_rest_len : blen (r9_rest r) = rec_len - pos - 8
}.

Section nf9_data.
Context (rec_len pos time_header : Z) (padding behind : bytes) (Hpad : blen padding ≤ 8).
Let raw := enc_nf9_record.
Let big := converted_record time_header.

Lemma blen_nf9_record r : nf9_record_wf rec_len pos r → blen (raw r) = rec_len ∧ blen (big r) = rec_len + 8.
Proof.
  intros [? ? ? ?]. unfold big, raw, enc_nf9_record, converted_record.
  rewrite !blen_app, !blen_enc32, !blen_enc64. lia.
Qed.

Lemma blen_nf9_records rs : Forall (nf9_record_wf rec_len pos) rs →
  blen (mjoin (raw <$> rs)) = rec_len * Z.of_nat (length rs) ∧
  blen (mjoin (big <$> rs)) = (rec_len + 8) * Z.of_nat (length rs).
Proof.
  intros Hwf. split; apply blen_blocks; eapply Forall_impl; try exact Hwf; intros r; apply blen_nf9_record.
Qed.

Lemma timestamp_records_spec Q set len remaining : blen Q = set + 4 → u32 (remaining - len) = blen behind + 4 →
  ∀ rs E tail shifted,
  Forall (nf9_record_wf rec_len pos) rs → blen E = (rec_len + 8) * shifted → 0 ≤ shifted →
  shifted + Z.of_nat (length rs) < 65536 → 8 + 8 * Z.of_nat (length rs) ≤ blen tail →
  (rec_len + 8) * (shifted + Z.of_nat (length rs)) + blen behind + 8 < 4294967296 →
  ∃ tail',
    timestamp_records (Q ++ mjoin (raw <$> rs) ++ E ++ padding ++ behind ++ tail) set rec_len pos time_header remaining
      len shifted (length rs) =
    Ok (Q ++ mjoin (big <$> rs) ++ E ++ padding ++ behind ++ tail', shifted + Z.of_nat (length rs)) ∧
    blen tail' = blen tail - 8 * Z.of_nat (length rs).
Proof.
  intros HQ Hrem rs. induction rs as [|r rs IH] using rev_ind; intros E tail shifted Hwf HE Hsh Hn Htail Hbig.
  - exists tail. cbn [length timestamp_records]. change (mjoin (raw <$> [])) with ([] : bytes).
    change (mjoin (big <$> [])) with ([] : bytes). rewrite Z.add_0_r. split; [done|lia].
  - apply Forall_app in Hwf as [Hrs [Hr _]%Forall_cons]. rewrite length_app, Nat.add_1_r in *.
    cbn [timestamp_records]. rewrite !mjoin_fmap_snoc.
    pose proof Hr as [Hh Hf Hl Hre]. pose proof (blen_nonneg (r9_rest r)). pose proof (blen_nonneg (r9_head r)).
    pose proof (blen_nonneg padding). pose proof (blen_nonneg behind).
    set (P := Q ++ mjoin (raw <$> rs)).
    assert (blen P = set + 4 + Z.of_nat (length rs) * rec_len) as HP
      by (unfold P; rewrite blen_app, (proj1 (blen_nf9_records rs Hrs)); lia).
    destruct (blen_split tail (8 - blen padding)) as (t4 & tl & -> & Ht4 & Htl); [lia|].
    rewrite Hrem, <-HP. set (x := enc32 (r9_last r) ++ r9_rest r ++ E ++ padding ++ behind ++ t4).
    replace (Q ++ (mjoin (raw <$> rs) ++ raw r) ++ E ++ padding ++ behind ++ t4 ++ tl)
      with ((P ++ r9_head r ++ enc32 (r9_first r)) ++ x ++ tl)
      by (unfold P, x, raw, enc_nf9_record; rewrite <-!app_assoc; done).
    assert (blen x = rec_len - pos + 4 + (rec_len + 8) * shifted + blen behind) as Hx
      by (unfold x; rewrite !blen_app, blen_enc32; lia).
    assert (rd32 ((P ++ r9_head r ++ enc32 (r9_first r)) ++ x ++ tl) (blen P + pos) = Ok (r9_first r)) as ->.
    { replace (blen P + pos) with (blen (P ++ r9_head r)) by (rewrite blen_app; lia).
      rewrite (app_assoc P), <-(app_assoc (P ++ r9_head r)). by apply rd32_here. }
    assert (rd32 ((P ++ r9_head r ++ enc32 (r9_first r)) ++ x ++ tl) (blen P + (pos + 4)) = Ok (r9_last r)) as ->.
    { replace (blen P + (pos + 4)) with (blen (P ++ r9_head r ++ enc32 (r9_first r))) by (rewrite !blen_app, blen_enc32; lia).
      unfold x. rewrite <-(app_assoc (enc32 (r9_last r))). by apply rd32_here. }
    rewrite !res_bind_ret.
    destruct (memmove_up (P ++ r9_head r ++ enc32 (r9_first r)) x tl 8) as (gap & tl' & Emv & Hg & Htl' & _); [lia|].
    rewrite !blen_app, blen_enc32, Hx, Hh in Emv.
    rewrite u32_small by nia.
    replace (shifted * (rec_len + 8) + (rec_len + 4 - (pos + 4)) + (blen behind + 4))
      with (rec_len - pos + 4 + (rec_len + 8) * shifted + blen behind) by lia.
    rewrite Emv, res_bind_ret.
    destruct (blen_split gap 4) as (g1 & g2 & -> & Hg1 & Hg2); [lia|].
    set (v1 := u64 (time_header + r9_first r)). set (v2 := u64 (time_header + r9_last r)).
    set (z := r9_rest r ++ E ++ padding ++ behind ++ t4 ++ tl').
    replace ((P ++ r9_head r ++ enc32 (r9_first r)) ++ (g1 ++ g2) ++ x ++ tl')
      with ((P ++ r9_head r) ++ (enc32 (r9_first r) ++ g1) ++ (g2 ++ enc32 (r9_last r)) ++ z)
      by (unfold x, z; rewrite <-!app_assoc; done).
    replace (blen P + pos) with (blen (P ++ r9_head r)) by (rewrite blen_app; lia).
    rewrite wr64_over by (rewrite blen_app, blen_enc32; lia). rewrite res_bind_ret.
    replace (blen P + (pos + 4) + 4) with (blen ((P ++ r9_head r) ++ enc64 v1)) by (rewrite !blen_app, blen_enc64; lia).
    rewrite (app_assoc (P ++ r9_head r)), wr64_over by (rewrite blen_app, blen_enc32; lia). rewrite res_bind_ret.
    rewrite u16_small by lia.
    destruct (IH (big r ++ E) (t4 ++ tl') (shifted + 1) Hrs) as (tail' & Eih & Ht').
    { rewrite blen_app, (proj2 (blen_nf9_record r Hr)). lia. }
    { lia. } { lia. } { rewrite blen_app. lia. }
    { replace (shifted + 1 + Z.of_nat (length rs)) with (shifted + Z.of_nat (S (length rs))) by lia. exact Hbig. }
    exists tail'. split.
    + etrans; [|etrans; [exact Eih|] ].
      * f_equal. unfold P, z, big, converted_record. rewrite <-!app_assoc. done.
      * rewrite <-!app_assoc. do 2 f_equal. lia.
    + rewrite blen_app in *. rewrite Ht'. lia.
Qed.
End nf9_data.

(** What the table says of a template: the length of a record and the offset of the
    times in it, -1 when there are none. *)
Definition layout_of (st : convert_state) (sid : Z) : option (Z * Z) :=
  let id := sid - IPFIX_MIN_RECORD_FLOWSET_ID in
  rec_len ← templates_templ st !! Z.to_nat (2 * id);
  pos ← templates_templ st !! Z.to_nat (2 * id + 1);
  Some (rec_len, pos).

Definition count_records (st : convert_state) (num : Z) : convert_state :=
  set_seq st (nf5_seq_no st) (u32 (nf9_seq_no st + num)).

Lemma count_records_0 st : is_u32 (nf9_seq_no st) → count_records st 0 = st.
Proof. intros. destruct st. unfold count_records, set_seq. cbn in *. by rewrite Z.add_0_r, u32_small. Qed.

(** The start of [insert_timestamp_data], on a set with the identifier [sid] and the
    octets [n]. *)
Section data_set_start.
Context (st : convert_state) (pre : bytes) (sid n : Z) (y : bytes) (time_header remaining : Z).
Context (Hst : table_ok st) (Hsid : IPFIX_MIN_RECORD_FLOWSET_ID ≤ sid < 65536) (Hn : 4 ≤ n < 65536).
Let mem := pre ++ enc16 sid ++ enc16 n ++ y.

Lemma set_header_here : rd16 mem (blen pre) = Ok sid ∧ rd16 mem (blen pre + 2) = Ok n.
Proof.
  unfold mem, IPFIX_MIN_RECORD_FLOWSET_ID in *. split; [apply rd16_here; unfold is_u16; lia|].
  replace (blen pre + 2) with (blen (pre ++ enc16 sid)) by (by rewrite blen_app).
  rewrite app_assoc. apply rd16_here. unfold is_u16. lia.
Qed.

Lemma insert_timestamp_data_start rec_len pos : layout_of st sid = Some (rec_len, pos) →
  sid - IPFIX_MIN_RECORD_FLOWSET_ID ≤ templates_max st →
  insert_timestamp_data st mem (blen pre) time_header remaining =
  if decide (rec_len ≤ 0) then Ok (st, mem, 0) else
  let num := u16 ((n - 4) / rec_len) in
  if decide (num = 0) then Ok (st, mem, 0) else
  if decide (pos = -1) then Ok (count_records st num, mem, 0) else
  x ← timestamp_records mem (blen pre) rec_len pos time_header remaining (n - 4) 0 (Z.to_nat num);
  let '(mem, shifted) := x in
  mem ← wr16 mem (blen pre + 2) (u16 (n + shifted * 8));
  Ok (count_records st num, mem, shifted).
Proof.
  intros Hlay Hmax. destruct Hst as [Hc Hl Hm], set_header_here as [H1 H2].
  unfold layout_of in Hlay. unfold insert_timestamp_data. rewrite H1, H2, !res_bind_ret.
  unfold IPFIX_MIN_RECORD_FLOWSET_ID in *. rewrite Hc, !u16_small, !u32_small by (rewrite ?u32_small; lia).
  rewrite decide_False by lia.
  destruct (templates_templ st !! Z.to_nat (2 * (sid - 256))) as [a|] eqn:Ea; [|done].
  destruct (templates_templ st !! Z.to_nat (2 * (sid - 256) + 1)) as [b|] eqn:Eb; [|done].
  injection Hlay as -> ->. cbn [or_fault]. rewrite res_bind_ret.
  repeat (destruct (decide _); [done|]). cbn [set_seq templates_templ]. rewrite Eb. cbn [or_fault].
  rewrite res_bind_ret. destruct (decide _); [done|]. by replace (n - 4 + 4) with n by lia.
Qed.
End data_set_start.

(** A set that stays as it is: its template is not known, there are no times in it,
    or it is too short for a record.  The records are counted. *)
Definition records_in (st : convert_state) (sid len : Z) : Z :=
  match layout_of st sid with Some (rec_len, _) => if decide (rec_len ≤ 0) then 0 else len / rec_len | None => 0 end.
Definition left_alone (st : convert_state) (sid len : Z) : Prop :=
  match layout_of st sid with
  | Some (_, pos) => records_in st sid len = 0 ∨ pos = -1
  | None => templates_max st < sid - IPFIX_MIN_RECORD_FLOWSET_ID
  end.

Lemma layout_of_bound st sid l : table_ok st → IPFIX_MIN_RECORD_FLOWSET_ID ≤ sid → layout_of st sid = Some l →
  sid - IPFIX_MIN_RECORD_FLOWSET_ID < templates_max st.
Proof.
  unfold layout_of. intros [_ Hl _] Hsid (a & E & _)%bind_Some. apply lookup_lt_Some in E. lia.
Qed.

Lemma insert_timestamp_data_left_alone st pre sid n y time_header remaining :
  table_ok st → is_u32 (nf9_seq_no st) → IPFIX_MIN_RECORD_FLOWSET_ID ≤ sid < 65536 → 4 ≤ n < 65536 →
  left_alone st sid (n - 4) →
  insert_timestamp_data st (pre ++ enc16 sid ++ enc16 n ++ y) (blen pre) time_header remaining =
  Ok (count_records st (records_in st sid (n - 4)), pre ++ enc16 sid ++ enc16 n ++ y, 0).
Proof.
  intros Hst Hseq Hsid Hn. unfold left_alone, records_in. destruct (layout_of st sid) as [ [rec_len pos]|] eqn:Hlay.
  - intros Hleft. pose proof (layout_of_bound _ _ _ Hst (proj1 Hsid) Hlay).
    rewrite (insert_timestamp_data_start st pre sid n y time_header remaining Hst Hsid Hn rec_len pos Hlay) by lia.
    case_decide as Hr; [by rewrite count_records_0|]. cbv zeta.
    assert (0 ≤ (n - 4) / rec_len ≤ n - 4) by (split; [apply Z.div_pos; lia|apply Z.div_le_upper_bound; nia]).
    rewrite u16_small by lia. case_decide as Hnum; [by rewrite Hnum, count_records_0|].
    by rewrite decide_True by naive_solver.
  - intros Hleft. rewrite count_records_0 by done.
    destruct (set_header_here pre sid n y Hsid Hn) as [H1 H2], Hst as [Hc Hl Hm].
    unfold insert_timestamp_data. rewrite H1, H2, !res_bind_ret. unfold IPFIX_MIN_RECORD_FLOWSET_ID in *.
    by rewrite Hc, (u16_small (sid - 256)), !u32_small, decide_True by (rewrite ?u32_small; lia).
Qed.

(** A set of records with times, and what it becomes. *)
Lemma insert_timestamp_data_records st pre sid rs padding behind tail time_header rec_len pos :
  let raw := mjoin (enc_nf9_record <$> rs) ++ padding in
  let big := mjoin (converted_record time_header <$> rs) ++ padding in
  table_ok st → IPFIX_MIN_RECORD_FLOWSET_ID ≤ sid < 65536 → layout_of st sid = Some (rec_len, pos) →
  pos ≠ -1 → rs ≠ [] → Forall (nf9_record_wf rec_len pos) rs → blen padding < Z.min rec_len 9 →
  4 + blen big + blen behind < 65536 → 8 + 8 * Z.of_nat (length rs) ≤ blen tail →
  ∃ tail',
    insert_timestamp_data st (pre ++ enc_set (sid, raw) ++ behind ++ tail) (blen pre) time_header
      (blen (enc_set (sid, raw)) + blen behind) =
    Ok (count_records st (Z.of_nat (length rs)), pre ++ enc_set (sid, big) ++ behind ++ tail', Z.of_nat (length rs)) ∧
    blen tail' = blen tail - 8 * Z.of_nat (length rs).
Proof.
  intros raw big Hst Hsid Hlay Hpos Hne Hwf Hpad Hlen Htail.
  destruct (blen_nf9_records rec_len pos time_header rs Hwf) as [Hraw Hbig].
  pose proof (blen_nonneg padding). pose proof (blen_nonneg behind).
  assert (1 ≤ Z.of_nat (length rs)) by (destruct rs; [done|cbn [length]; lia]).
  pose proof (layout_of_bound _ _ _ Hst (proj1 Hsid) Hlay).
  unfold big in Hlen. rewrite blen_app, Hbig in Hlen.
  assert (blen raw = rec_len * Z.of_nat (length rs) + blen padding) as Hr by (unfold raw; rewrite blen_app; lia).
  rewrite blen_enc_set. unfold enc_set. cbn [fst snd]. rewrite Hr, <-!app_assoc. set (n := 4 + _).
  assert (4 ≤ n < 65536) as Hn by (unfold n; nia).
  rewrite (insert_timestamp_data_start st pre sid n _ time_header _ Hst Hsid Hn rec_len pos Hlay) by lia.
  rewrite decide_False by lia. cbv zeta.
  assert ((n - 4) / rec_len = Z.of_nat (length rs)) as -> by
    (symmetry; apply (Z.div_unique _ _ _ (blen padding)); unfold n; lia).
  rewrite u16_small by nia. rewrite !decide_False by lia. rewrite Nat2Z.id.
  destruct (timestamp_records_spec rec_len pos time_header padding behind ltac:(lia) (pre ++ enc16 sid ++ enc16 n) (blen pre)
    (n - 4) (n + blen behind)) with (rs := rs) (E := [] : bytes) (tail := tail) (shifted := 0) as (tail' & E & Ht').
  { by rewrite !blen_app. } { rewrite u32_small; lia. } { done. } { change (blen []) with 0. lia. }
  { lia. } { nia. } { lia. } { nia. }
  exists tail'. split; [|exact Ht'].
  rewrite !app_nil_l, <-!app_assoc in E. unfold raw. rewrite <-!app_assoc, E, res_bind_ret, Z.add_0_l.
  replace (blen pre + 2) with (blen (pre ++ enc16 sid)) by (by rewrite blen_app).
  rewrite (app_assoc pre), wr16_over, res_bind_ret by done. rewrite u16_small by (unfold n; nia).
  unfold big. rewrite blen_app, Hbig, <-!app_assoc. do 7 f_equal. unfold n. lia.
Qed.

(** Padding: zeros up to a multiple of four. *)
Definition zeros (n : Z) : bytes := replicate (Z.to_nat (- n mod 4)) 0.
Definition pad_set (w : wire_set) : wire_set := (w.1, w.2 ++ zeros (blen w.2)).

Lemma blen_zeros n : blen (zeros n) = - n mod 4.
Proof. unfold blen, zeros. rewrite length_replicate. pose proof (Z.mod_pos_bound (- n) 4). lia. Qed.

Lemma nf9_pad_set_spec pre w behind tail max_len :
  let F := blen pre + blen (enc_set (pad_set w)) + blen behind in
  is_u16 w.1 → blen (enc_set (pad_set w)) < 65536 → F ≤ max_len → 3 + 2 * blen (enc_set w) ≤ blen tail →
  ∃ tail',
    nf9_pad_set (pre ++ enc_set w ++ behind ++ tail) (blen pre) (blen pre + blen (enc_set w) + blen behind) (blen pre) max_len =
    Ok (true, pre ++ enc_set (pad_set w) ++ behind ++ tail', F) ∧
    blen tail' = blen tail - blen (zeros (blen w.2)).
Proof.
  destruct w as [sid body]. unfold pad_set. cbn [fst snd]. rewrite !blen_enc_set. unfold enc_set. cbn [fst snd].
  rewrite blen_app, blen_zeros. set (n := 4 + blen body). set (k := - blen body mod 4).
  intros Hsid Hsize HF Htail. pose proof (blen_nonneg pre). pose proof (blen_nonneg behind). pose proof (blen_nonneg body).
  assert (0 ≤ k < 4) as Hk by (apply Z.mod_pos_bound; lia).
  assert (n mod 4 = (- k) mod 4) as Hnk.
  { unfold n, k. Z.to_euclidean_division_equations. lia. }
  rewrite <-!app_assoc. unfold nf9_pad_set.
  assert (∀ y, rd16 (pre ++ enc16 sid ++ enc16 n ++ y) (blen pre + 2) = Ok n) as Hrd.
  { intros y. replace (blen pre + 2) with (blen (pre ++ enc16 sid)) by (by rewrite blen_app).
    rewrite app_assoc. apply rd16_here. unfold is_u16. lia. }
  rewrite Hrd, res_bind_ret. rewrite decide_False by lia.
  case_decide as Hmod.
  - assert (k = 4 - n mod 4) as Hkn by (Z.to_euclidean_division_equations; lia). rewrite <-Hkn.
    rewrite decide_False by lia.
    destruct (blen_split tail (2 * n)) as (t1 & t2 & -> & Ht1 & Ht2); [lia|].
    set (P := pre ++ enc16 sid ++ enc16 n ++ body).
    assert (blen P = blen pre + n) as HP by (unfold P; rewrite !blen_app, !blen_enc16; lia).
    destruct (memmove_up P (behind ++ t1) t2 k) as (gap & post & E & Hg & Hpost & _); [lia|].
    rewrite HP, blen_app, Ht1 in E. unfold P in E. rewrite <-!app_assoc in E.
    replace (blen pre + n + blen behind - blen pre + n) with (blen behind + 2 * n) by lia.
    rewrite E, res_bind_ret. clear E.
    replace (pre ++ enc16 sid ++ enc16 n ++ body ++ gap ++ behind ++ t1 ++ post) with (P ++ gap ++ behind ++ t1 ++ post)
      by (unfold P; by rewrite <-!app_assoc).
    assert (replicate (Z.to_nat k) (u8 0) = zeros (blen body)) as Hz by done.
    unfold memset. rewrite Hz, <-HP, wrn_here, res_bind_ret by (rewrite blen_zeros; lia).
    rewrite HP. unfold P. rewrite <-!app_assoc.
    replace (blen pre + 2) with (blen (pre ++ enc16 sid)) by (by rewrite blen_app).
    rewrite (app_assoc pre), wr16_over, res_bind_ret by done. rewrite u16_small by lia.
    exists (t1 ++ post). split; [|rewrite !blen_app in *; lia].
    rewrite <-!app_assoc. replace (4 + (blen body + k)) with (n + k) by lia. do 2 f_equal. lia.
  - assert (k = 0) as Hk0 by (Z.to_euclidean_division_equations; lia).
    exists tail. unfold zeros. fold k. rewrite Hk0. split; [|lia]. cbn [Z.to_nat replicate].
    rewrite app_nil_r, <-!app_assoc. replace (4 + (blen body + 0)) with n by lia. done.
Qed.

(** *** The sets of a packet *)

Inductive nf9_set :=
  | n9_templates (ts : list nf9_template) (padding : bytes)
  | n9_options (ts : list nf9_otemplate) (padding : bytes)
  | n9_records (id : Z) (rs : list nf9_record) (padding : bytes)
  | n9_other (id : Z) (body : bytes).

Definition raw_set (s : nf9_set) : wire_set :=
  match s with
  | n9_templates ts padding => (NETFLOW_V9_TEMPLATE_SET_ID, enc_nf9_templates ts ++ padding)
  | n9_options ts padding => (NETFLOW_V9_OPT_TEMPLATE_SET_ID, enc_nf9_otemplates ts ++ padding)
  | n9_records id rs padding => (id, mjoin (enc_nf9_record <$> rs) ++ padding)
  | n9_other id body => (id, body)
  end.

(** The set of IPFIX it becomes, and the state behind it. *)
Definition converted_set (time_header : Z) (s : nf9_set) : wire_set :=
  match s with
  | n9_templates ts padding => (IPFIX_TEMPLATE_FLOWSET_ID, converted_templates ts ++ padding)
  | n9_options ts padding => (IPFIX_OPTION_FLOWSET_ID, converted_otemplates ts ++ padding)
  | n9_records id rs padding => pad_set (id, mjoin (converted_record time_header <$> rs) ++ padding)
  | n9_other id body => pad_set (id, body)
  end.
Definition after_set (st : convert_state) (s : nf9_set) : convert_state :=
  match s with
  | n9_templates ts _ => learn_all st ts
  | n9_options ts _ => learn_all st (o9_template <$> ts)
  | n9_records _ rs _ => count_records st (Z.of_nat (length rs))
  | n9_other id body => count_records st (records_in st id (blen body))
  end.

(** Templates with a place in the table, options templates also without elements of
    vendors; records of a template that is known to have
    times; or a set of another template. *)
Definition set_ok (st : convert_state) (s : nf9_set) : Prop :=
  match s with
  | n9_templates ts padding =>
      learnable st ts ∧ Forall nf9_template_wf ts ∧ ts ≠ [] ∧ blen padding ≤ 3
  | n9_options ts padding =>
      learnable st (o9_template <$> ts) ∧ Forall nf9_otemplate_wf ts ∧ ts ≠ [] ∧ blen padding ≤ 3
  | n9_records id rs padding =>
      IPFIX_MIN_RECORD_FLOWSET_ID ≤ id < 65536 ∧ rs ≠ [] ∧
      match layout_of st id with
      | Some (rec_len, pos) => pos ≠ -1 ∧ Forall (nf9_record_wf rec_len pos) rs ∧ blen padding < Z.min rec_len 9
      | None => False
      end
  | n9_other id body => IPFIX_MIN_RECORD_FLOWSET_ID ≤ id < 65536 ∧ left_alone st id (blen body)
  end.

Record nf9_ready (st : convert_state) : Prop := {
  n9r_table : table_ok st;
  n9r_seq : is_u32 (nf9_seq_no st)
}.

Lemma learn_seq st t : nf9_seq_no (learn st t) = nf9_seq_no st.
Proof. unfold learn. destruct (layout _) as [len pos]. by case_decide. Qed.

Lemma learn_all_ready ts : ∀ st, nf9_ready st → learnable st ts → nf9_ready (learn_all st ts).
Proof.
  induction ts as [|t ts IH]; intros st Hst; [done|]. intros [Hin Hl]. apply IH; [|exact Hl].
  destruct Hst as [Hst Hseq]. constructor; [by apply learn_ok|by rewrite learn_seq].
Qed.

Lemma after_set_ready st s : nf9_ready st → set_ok st s → nf9_ready (after_set st s).
Proof.
  destruct s as [ts padding|ts padding|id rs padding|id body]; intros Hst Hok.
  - apply learn_all_ready; [done|apply Hok].
  - apply learn_all_ready; [done|apply Hok].
  - destruct Hst as [ [? ? ?] ?]. constructor; [done|apply Z.mod_pos_bound; lia].
  - destruct Hst as [ [? ? ?] ?]. constructor; [done|apply Z.mod_pos_bound; lia].
Qed.

Lemma converted_set_grows st time_header s : set_ok st s →
  blen (enc_set (raw_set s)) ≤ blen (enc_set (converted_set time_header s)).
Proof.
  intros Hok. rewrite !blen_enc_set. destruct s as [ts padding|ts padding|id rs padding|id body]; cbn [raw_set converted_set pad_set snd fst].
  - unfold converted_templates. rewrite !blen_app, blen_ipfix_templates_of, convert_times_size.
    pose proof (vendors_nonneg (convert_times <$> ts)). lia.
  - destruct Hok as (_ & Hwf & _). rewrite !blen_app, converted_otemplates_size by done. lia.
  - destruct Hok as (_ & _ & Hok). destruct (layout_of st id) as [ [rec_len pos]|]; [|done]. destruct Hok as (_ & Hwf & _).
    destruct (blen_nf9_records rec_len pos time_header rs Hwf) as [Hraw Hbig]. rewrite !blen_app, Hraw, Hbig.
    pose proof (blen_nonneg (zeros ((rec_len + 8) * Z.of_nat (length rs) + blen padding))). lia.
  - rewrite blen_app. pose proof (blen_nonneg (zeros (blen body))). lia.
Qed.

Section data_sets.
Context (st : convert_state) (pre behind tail : bytes) (max_len time_header : Z) (Hst : nf9_ready st).

(** The part of [nf9_data_set] that the two kinds of data sets share: what
    [insert_timestamp_data] leaves is padded. *)
Lemma nf9_data_set_spec raw w st1 n t1 :
  is_u16 raw.1 → w.1 = raw.1 → blen (enc_set raw) < 65536 → 0 ≤ n → blen (enc_set w) = blen (enc_set raw) + n * 8 →
  blen t1 = blen tail - n * 8 →
  insert_timestamp_data st (pre ++ enc_set raw ++ behind ++ tail) (blen pre) time_header
    (blen (enc_set raw) + blen behind) = Ok (st1, pre ++ enc_set w ++ behind ++ t1, n) →
  let F := blen pre + blen (enc_set (pad_set w)) + blen behind in
  F < 65536 → F ≤ max_len → 3 + 2 * blen (enc_set w) ≤ blen t1 →
  ∃ tail',
    nf9_data_set st (pre ++ enc_set raw ++ behind ++ tail) (blen pre) (blen pre + blen (enc_set raw) + blen behind)
      (blen (enc_set raw) + blen behind) (blen pre) max_len time_header =
    Ok (true, st1, pre ++ enc_set (pad_set w) ++ behind ++ tail', F) ∧
    F + blen tail' = blen pre + blen (enc_set raw) + blen behind + blen tail.
Proof.
  intros Hid Hw Hraw Hn Hlen Ht1 E F HF Hmax Htail. unfold nf9_data_set.
  assert (rd16 (pre ++ enc_set raw ++ behind ++ tail) (blen pre + 2) = Ok (blen (enc_set raw))) as ->.
  { rewrite blen_enc_set in *. unfold enc_set. rewrite <-!app_assoc.
    replace (blen pre + 2) with (blen (pre ++ enc16 raw.1)) by (by rewrite blen_app).
    rewrite app_assoc. apply rd16_here. unfold is_u16. pose proof (blen_nonneg raw.2). lia. }
  rewrite res_bind_ret. rewrite decide_True by (rewrite blen_enc_set; pose proof (blen_nonneg raw.2); lia).
  rewrite E, res_bind_ret. cbv beta iota. pose proof (blen_nonneg pre). pose proof (blen_nonneg behind).
  destruct (nf9_pad_set_spec pre w behind t1 max_len) as (tail' & Ep & Ht'); [by rewrite Hw|lia|done|done|].
  replace (blen pre + blen (enc_set raw) + blen behind + n * 8) with (blen pre + blen (enc_set w) + blen behind) by lia.
  rewrite Ep, res_bind_ret. exists tail'. split; [done|].
  unfold F, pad_set. rewrite !blen_enc_set in *. cbn [snd]. rewrite blen_app. lia.
Qed.

(** A set of any kind: it is converted in place, and what is behind it moves. *)
Lemma nf9_set_spec s :
  let w := converted_set time_header s in
  let F := blen pre + blen (enc_set w) + blen behind in
  let len := blen pre + blen (enc_set (raw_set s)) + blen behind in
  let remaining := blen (enc_set (raw_set s)) + blen behind in
  set_ok st s → F < 65536 → F ≤ max_len → 3 * F + 16 ≤ len + blen tail →
  ∃ tail',
    (if decide ((raw_set s).1 = NETFLOW_V9_TEMPLATE_SET_ID)
     then nf9_template_set st (pre ++ enc_set (raw_set s) ++ behind ++ tail) (blen pre) len remaining
     else if decide ((raw_set s).1 = NETFLOW_V9_OPT_TEMPLATE_SET_ID)
     then nf9_options_set st (pre ++ enc_set (raw_set s) ++ behind ++ tail) (blen pre) len remaining
     else nf9_data_set st (pre ++ enc_set (raw_set s) ++ behind ++ tail) (blen pre) len remaining (blen pre) max_len
            time_header) =
    Ok (true, after_set st s, pre ++ enc_set w ++ behind ++ tail', F) ∧ F + blen tail' = len + blen tail.
Proof.
  pose proof Hst as [Htab Hseq]. pose proof (blen_nonneg pre). pose proof (blen_nonneg behind).
  destruct s as [ts padding|ts padding|id rs padding|id body]; intros w F len remaining Hok HF Hmax Hroom; subst w F len remaining;
    cbn [raw_set converted_set after_set fst] in *.
  - rewrite decide_True by done. destruct Hok as (Hl & Hwf & Hne & Hpad).
    pose proof (vendors_nonneg (convert_times <$> ts)) as HV.
    assert (blen (converted_templates ts ++ padding) =
            blen (enc_nf9_templates ts ++ padding) + 4 * vendors (convert_times <$> ts)) as Hw
      by (unfold converted_templates; rewrite !blen_app, blen_ipfix_templates_of, convert_times_size; lia).
    pose proof (blen_nonneg (enc_nf9_templates ts ++ padding)).
    rewrite !blen_enc_set in *. cbn [snd] in *.
    edestruct (nf9_template_set_spec st pre ts padding behind tail) as (tail' & E & Ht'); try done;
      [rewrite blen_app in HF; lia|lia..|].
    rewrite !blen_enc_set in E. cbn [snd] in E. exists tail'. rewrite E. split; [|lia]. do 2 f_equal. lia.
  - rewrite decide_False, decide_True by done. destruct Hok as (Hl & Hwf & Hne & Hpad).
    pose proof (converted_otemplates_size ts Hwf) as Hsz. rewrite !blen_enc_set in *. cbn [snd] in *. rewrite !blen_app in *.
    rewrite nf9_options_set_spec; try done; [|pose proof (blen_nonneg behind); lia].
    exists tail. rewrite Hsz. split; [done|lia].
  - destruct Hok as (Hid & Hne & Hok). destruct (layout_of st id) as [ [rec_len pos]|] eqn:Hlay; [|done].
    destruct Hok as (Hpos & Hwf & Hpad). assert (is_u16 id) as Hid16
      by (unfold is_u16, IPFIX_MIN_RECORD_FLOWSET_ID in *; lia).
    rewrite !decide_False by (unfold IPFIX_MIN_RECORD_FLOWSET_ID, NETFLOW_V9_TEMPLATE_SET_ID, NETFLOW_V9_OPT_TEMPLATE_SET_ID in *; lia).
    destruct (blen_nf9_records rec_len pos time_header rs Hwf) as [Hraw Hbig].
    set (big := mjoin (converted_record time_header <$> rs) ++ padding) in *.
    set (raw := mjoin (enc_nf9_record <$> rs) ++ padding) in *.
    assert (blen (enc_set (id, big)) = blen (enc_set (id, raw)) + Z.of_nat (length rs) * 8) as Hgrow
      by (rewrite !blen_enc_set; unfold big, raw; cbn [snd]; rewrite !blen_app; lia).
    assert (blen (enc_set (pad_set (id, big))) = blen (enc_set (id, big)) + blen (zeros (blen big))) as Hw
      by (unfold pad_set; rewrite !blen_enc_set; cbn [snd]; rewrite blen_app; lia).
    pose proof (blen_nonneg (zeros (blen big))). pose proof (blen_nonneg raw). pose proof (blen_enc_set (id, raw)) as Hr.
    pose proof (blen_enc_set (id, big)) as Hb. cbn [snd] in Hr, Hb.
    destruct (insert_timestamp_data_records st pre id rs padding behind tail time_header rec_len pos Htab Hid Hlay Hpos Hne Hwf
      ltac:(lia)) as (t1 & E & Ht1); [fold big; lia|lia|].
    fold raw big in E.
    apply (nf9_data_set_spec (id, raw) (id, big) _ (Z.of_nat (length rs)) t1); try done; lia.
  - destruct Hok as (Hid & Hleft). assert (is_u16 id) as Hid16
      by (unfold is_u16, IPFIX_MIN_RECORD_FLOWSET_ID in *; lia).
    rewrite !decide_False by (unfold IPFIX_MIN_RECORD_FLOWSET_ID, NETFLOW_V9_TEMPLATE_SET_ID, NETFLOW_V9_OPT_TEMPLATE_SET_ID in *; lia).
    assert (blen (enc_set (pad_set (id, body))) = blen (enc_set (id, body)) + blen (zeros (blen body))) as Hw
      by (unfold pad_set; rewrite !blen_enc_set; cbn [snd]; rewrite blen_app; lia).
    pose proof (blen_nonneg (zeros (blen body))). pose proof (blen_nonneg body). pose proof (blen_enc_set (id, body)) as Hb.
    cbn [snd] in Hb.
    apply (nf9_data_set_spec (id, body) (id, body) _ 0 tail); try done; try lia.
    replace (blen body) with (4 + blen body - 4) in Hleft |- * by lia. unfold enc_set at 1. cbn [fst snd].
    rewrite <-!app_assoc, insert_timestamp_data_left_alone by (done || lia).
    unfold enc_set. cbn [fst snd]. by rewrite <-!app_assoc.
Qed.
End data_sets.

(** The sets of a packet one behind the other. *)
Definition after_sets : convert_state → list nf9_set → convert_state := foldl after_set.
Fixpoint sets_ok (st : convert_state) (ss : list nf9_set) : Prop :=
  match ss with [] => True | s :: ss => set_ok st s ∧ sets_ok (after_set st s) ss end.

Lemma converted_sets_grow time_header ss : ∀ st, sets_ok st ss →
  blen (enc_sets (raw_set <$> ss)) ≤ blen (enc_sets (converted_set time_header <$> ss)).
Proof.
  induction ss as [|s ss IH]; intros st; [done|]. intros [Hs Hok]. rewrite !fmap_cons, !enc_sets_cons, !blen_app.
  pose proof (converted_set_grows st time_header s Hs). pose proof (IH _ Hok). lia.
Qed.

Lemma set_header_read pre w y : is_u16 w.1 → blen (enc_set w) < 65536 →
  rd16 (pre ++ enc_set w ++ y) (blen pre) = Ok w.1 ∧ rd16 (pre ++ enc_set w ++ y) (blen pre + 2) = Ok (blen (enc_set w)).
Proof.
  intros Hid Hlen. rewrite blen_enc_set in *. unfold enc_set. rewrite <-!app_assoc. split; [by apply rd16_here|].
  replace (blen pre + 2) with (blen (pre ++ enc16 w.1)) by (by rewrite blen_app).
  rewrite app_assoc. apply rd16_here. unfold is_u16. pose proof (blen_nonneg w.2). lia.
Qed.

Section nf9_packet.
Context (max_len time_header : Z) (version middle : bytes) (Hversion : blen version = 2) (Hmiddle : blen middle = 12).

(** The packet when the sets [front] are converted and counted in its header. *)
Let image (front : bytes) (y : bytes) : bytes := version ++ enc16 (16 + blen front) ++ middle ++ front ++ y.

Lemma nf9_step_spec st front s behind tail :
  let w := converted_set time_header s in
  let F := 16 + blen front + blen (enc_set w) + blen behind in
  let len := 16 + blen front + blen (enc_set (raw_set s)) + blen behind in
  nf9_ready st → set_ok st s → F < 65536 → F ≤ max_len → 3 * F + 16 ≤ len + blen tail →
  ∃ tail',
    nf9_step max_len time_header
      (st, image front (enc_set (raw_set s) ++ behind ++ tail), len, 16 + blen front, 16 + blen front) =
    Ok (inl (after_set st s, image (front ++ enc_set w) (behind ++ tail'), F,
             16 + blen (front ++ enc_set w), 16 + blen (front ++ enc_set w))) ∧
    F + blen tail' = len + blen tail.
Proof.
  intros w F len Hst Hok HF Hmax Hroom. unfold nf9_step. pose proof (blen_nonneg front). pose proof (blen_nonneg behind).
  pose proof (blen_enc_set (raw_set s)) as Hr. pose proof (blen_nonneg (raw_set s).2).
  pose proof (blen_enc_set w) as Hw. pose proof (blen_nonneg w.2).
  rewrite decide_True by (unfold len; lia).
  set (pre := version ++ enc16 (16 + blen front) ++ middle ++ front).
  assert (blen pre = 16 + blen front) as Hpre by (unfold pre; rewrite !blen_app, blen_enc16; lia).
  replace (image front (enc_set (raw_set s) ++ behind ++ tail)) with (pre ++ enc_set (raw_set s) ++ behind ++ tail)
    by (unfold image, pre; by rewrite <-!app_assoc).
  assert (∀ y, rd16 (pre ++ y) 2 = Ok (16 + blen front)) as Hlen.
  { intros y. unfold pre. rewrite <-!app_assoc, <-Hversion. apply rd16_here. unfold is_u16, F in *. lia. }
  assert (is_u16 (raw_set s).1 ∧ is_u16 w.1) as [Hid Hwid].
  { unfold w. destruct s; cbn; [done|done|destruct Hok as [Hid _]..]; unfold is_u16, IPFIX_MIN_RECORD_FLOWSET_ID in *; lia. }
  pose proof (converted_set_grows st time_header s Hok) as Hgrow. fold w in Hgrow.
  destruct (set_header_read pre (raw_set s) (behind ++ tail) Hid) as [E1 _]; [unfold F in *; lia|].
  rewrite Hlen, <-Hpre, E1, !res_bind_ret. clear E1.
  destruct (nf9_set_spec st pre behind tail max_len time_header Hst s Hok) as (tail' & E & Ht'); fold w;
    [unfold F in *; lia..|unfold F, len in *; lia|].
  rewrite u32_small by (unfold len; lia).
  replace (len - blen pre) with (blen (enc_set (raw_set s)) + blen behind) by (unfold len; lia).
  replace len with (blen pre + blen (enc_set (raw_set s)) + blen behind) by (unfold len; lia).
  fold w in E, Ht'. rewrite E, res_bind_ret. cbn [negb].
  destruct (set_header_read pre w (behind ++ tail') Hwid) as [_ E2]; [unfold F in *; lia|].
  rewrite Hlen, E2, !res_bind_ret.
  assert (pre ++ enc_set w ++ behind ++ tail' =
    version ++ enc16 (16 + blen front) ++ middle ++ front ++ enc_set w ++ behind ++ tail') as ->
    by (unfold pre; by rewrite <-!app_assoc).
  assert (∀ a b y, wr16 (version ++ enc16 a ++ y) 2 b = Ok (version ++ enc16 b ++ y)) as Hstore
    by (intros; rewrite <-Hversion; by apply wr16_over).
  rewrite Hstore, res_bind_ret.
  rewrite u16_small by (unfold F in *; lia). set (n := 16 + blen front + blen (enc_set w)).
  set (pre2 := version ++ enc16 n ++ middle ++ front).
  assert (blen pre2 = blen pre) as Hpre2 by (unfold pre, pre2; by rewrite !blen_app, !blen_enc16).
  replace (version ++ enc16 n ++ middle ++ front ++ enc_set w ++ behind ++ tail') with (pre2 ++ enc_set w ++ behind ++ tail')
    by (unfold pre2; by rewrite <-!app_assoc).
  assert (rd16 (pre2 ++ enc_set w ++ behind ++ tail') 2 = Ok n) as ->.
  { unfold pre2. rewrite <-!app_assoc, <-Hversion. apply rd16_here. unfold is_u16, n, F in *. lia. }
  destruct (set_header_read pre2 w (behind ++ tail') Hwid) as [_ E3]; [unfold F in *; lia|].
  rewrite <-Hpre2, E3, !res_bind_ret. rewrite !decide_False by (unfold n; lia). rewrite u16_small by (unfold F in *; lia).
  exists tail'. split; [|unfold F, len in *; lia]. rewrite blen_app. unfold image. rewrite blen_app.
  replace (16 + (blen front + blen (enc_set w))) with n by (unfold n; lia). rewrite Hpre2, Hpre. unfold pre2. rewrite <-!app_assoc.
  done.
Qed.

Lemma nf9_loop ss : ∀ st front tail fuel,
  let F := 16 + blen front + blen (enc_sets (converted_set time_header <$> ss)) in
  let len := 16 + blen front + blen (enc_sets (raw_set <$> ss)) in
  nf9_ready st → sets_ok st ss → (length ss < fuel)%nat → F < 65536 → F ≤ max_len → 3 * F + 16 ≤ len + blen tail →
  ∃ tail',
    loop (nf9_step max_len time_header) fuel
      (st, image front (enc_sets (raw_set <$> ss) ++ tail), len, 16 + blen front, 16 + blen front) =
    Ok (true, after_sets st ss, image (front ++ enc_sets (converted_set time_header <$> ss)) tail', F) ∧
    F + blen tail' = len + blen tail ∧ nf9_ready (after_sets st ss).
Proof.
  induction ss as [|s ss IH]; intros st front tail [|fuel] F len Hst Hok Hfuel HF Hmax Hroom;
    cbn [length] in Hfuel; try lia; cbn [loop].
  - unfold nf9_step. subst F len. change (blen (enc_sets (_ <$> []))) with 0 in *. rewrite decide_False by lia.
    exists tail. change (enc_sets (_ <$> [])) with ([] : bytes). rewrite app_nil_r. by rewrite Z.add_0_r.
  - destruct Hok as [Hs Hok]. subst F len. rewrite !fmap_cons, !enc_sets_cons, !blen_app in *.
    pose proof (converted_sets_grow time_header ss (after_set st s) Hok) as Hgrow.
    set (behind := enc_sets (raw_set <$> ss)) in *.
    destruct (nf9_step_spec st front s behind tail Hst Hs) as (t1 & E & Ht1); [lia..|].
    rewrite <-app_assoc, Z.add_assoc, E. clear E.
    destruct (IH (after_set st s) (front ++ enc_set (converted_set time_header s)) t1 fuel) as (tail' & E & Ht' & Hready);
      rewrite ?blen_app; fold behind; [by apply after_set_ready|done|lia..|].
    exists tail'. rewrite blen_app in E, Ht'. fold behind in E, Ht'.
    split; [|split; [lia|exact Hready] ]. etrans; [|etrans; [exact E|] ].
    + f_equal. repeat apply (f_equal2 pair); try done; lia.
    + rewrite <-app_assoc. do 2 f_equal. lia.
Qed.
End nf9_packet.

Definition enc_nf9_header (count uptime secs seq source : Z) : bytes :=
  enc16 NETFLOW_V9_VERSION ++ enc16 count ++ enc32 uptime ++ enc32 secs ++ enc32 seq ++ enc32 source.

(** The header without the uptime: the last octets of the buffer are lost, four
    octets in front of them are cleared. *)
Lemma nf9_header_spec st count uptime secs seq source body rest :
  buff_len st = 20 + blen body + blen rest → 4 ≤ blen rest → buff_len st < 4294967296 →
  ∃ rest',
    nf9_header st (enc_nf9_header count uptime secs seq source ++ body ++ rest) =
    Ok (enc16 NETFLOW_V9_VERSION ++ enc16 IPFIX_HEADER_LENGTH ++ enc32 secs ++ enc32 (nf9_seq_no st) ++ enc32 source ++
        body ++ rest') ∧
    blen rest' = blen rest + 4.
Proof.
  intros Hlen Hrest Hmax. pose proof (blen_nonneg body). unfold nf9_header. rewrite !u32_small by lia.
  set (v := enc16 NETFLOW_V9_VERSION). set (c := enc16 count).
  destruct (blen_split rest (blen rest - 4)) as (r1 & r2 & -> & Hr1 & Hr2); [lia|].
  set (x := enc32 secs ++ enc32 seq ++ enc32 source ++ body ++ r1 ++ r2).
  destruct (memmove_down (v ++ c) (enc32 uptime) x []) as (t & E & Ht).
  assert (blen x = buff_len st - 8) as Hx by (unfold x; rewrite !blen_app, !blen_enc32 in *; lia).
  rewrite Hx, app_nil_r in E. change (blen (v ++ c)) with 4 in E. change (4 + blen (enc32 uptime)) with 8 in E.
  unfold enc_nf9_header. fold v c. rewrite <-!app_assoc in E. rewrite <-!app_assoc. fold x. rewrite E, res_bind_ret. clear E.
  set (P := v ++ c ++ enc32 secs ++ enc32 seq ++ enc32 source ++ body ++ r1).
  assert (blen P = buff_len st - 8) as HP.
  { unfold P. rewrite !blen_app, !blen_enc32 in *. change (blen v) with 2. change (blen c) with 2. lia. }
  replace (v ++ c ++ x ++ t) with (P ++ r2 ++ t) by (unfold P, x; rewrite <-!app_assoc; done).
  unfold memset. rewrite <-HP, wrn_here, res_bind_ret by (change (blen (replicate _ _)) with 4; lia).
  set (z := replicate _ _). unfold P. rewrite <-!app_assoc.
  change 2 with (blen v). rewrite (wr16_over v c), res_bind_ret by done. set (h := enc16 IPFIX_HEADER_LENGTH).
  replace (v ++ h ++ enc32 secs ++ enc32 seq ++ enc32 source ++ body ++ r1 ++ z ++ t)
    with ((v ++ h ++ enc32 secs) ++ enc32 seq ++ enc32 source ++ body ++ r1 ++ z ++ t) by (by rewrite <-!app_assoc).
  change 8 with (blen (v ++ h ++ enc32 secs)). rewrite wr32_over by done.
  exists (r1 ++ z ++ t). split; [by rewrite <-!app_assoc|].
  rewrite !blen_app in *. change (blen z) with 4. change (blen (enc32 uptime)) with 4 in Ht. change (blen []) with 0 in Ht. lia.
Qed.

Lemma sets_count ws : Z.of_nat (length ws) ≤ blen (enc_sets ws).
Proof.
  induction ws as [|w ws IH]; [done|]. rewrite enc_sets_cons, blen_app, blen_enc_set. cbn [length].
  pose proof (blen_nonneg w.2). lia.
Qed.

Section nf9_message.
Context (st : convert_state) (info : option input_info_list) (ss : list nf9_set).
Context (count uptime secs seq source : Z) (rest : bytes).
Let packet := enc_nf9_header count uptime secs seq source ++ enc_sets (raw_set <$> ss).
Let time_header := u64 (secs * 1000 - uptime).

(** C15: a NetFlow 9 packet of template sets, options template sets without elements of
    vendors and data sets becomes the IPFIX message with the same sets. Templates have
    64-bit times and the enterprise numbers of vendor elements; options templates count
    their fields instead of octets, and their scope fields. A record of a template with
    an uptime has two 64-bit times of day in place of the eight octets from the first
    uptime on: the second time is taken to stand right behind the first, and what stands
    there is converted also when it is another element. Data sets are padded to a
    multiple of four; the export time and the domain are those of the packet and the
    number is the running count of records.  The table of templates and the count are
    those behind the last set.  A buffer of three times the message is enough. *)
Theorem convert_packet_nf9 max_len :
  let message := enc_message secs (nf9_seq_no st) source (converted_set time_header <$> ss) in
  nf9_ready st → sets_ok st ss → is_u32 uptime → is_u32 secs →
  buff_len st = blen (packet ++ rest) → buff_len st < 4294967296 →
  blen message < 65536 → blen message ≤ max_len → 3 * blen message + 16 ≤ buff_len st →
  ∃ tail,
    convert_packet st (packet ++ rest) (blen packet) max_len info =
    Ok (after_sets st ss, info, message ++ tail, blen message, 0) ∧
    blen (message ++ tail) = buff_len st ∧ nf9_ready (after_sets st ss).
Proof.
  intros message Hst Hok Hup Hsecs Hbuf Hmax HF HFmax Hroom.
  set (raw := enc_sets (raw_set <$> ss)) in *.
  pose proof (converted_sets_grow time_header ss st Hok) as Hgrow. fold raw in Hgrow.
  set (conv := enc_sets (converted_set time_header <$> ss)) in *.
  assert (blen message = 16 + blen conv) as Hm by (unfold message, enc_message; rewrite blen_app; done).
  rewrite Hm in *. pose proof (blen_nonneg raw).
  assert (blen packet = 20 + blen raw) as Hp by (unfold packet; rewrite blen_app; done).
  rewrite blen_app, Hp in Hbuf. rewrite Hp. unfold packet. fold raw. rewrite <-app_assoc.
  set (mem := enc_nf9_header count uptime secs seq source ++ raw ++ rest).
  assert (rd16 mem 0 = Ok NETFLOW_V9_VERSION ∧ rd32 mem 4 = Ok uptime ∧ rd32 mem 8 = Ok secs) as (E0 & E4 & E8).
  { unfold mem, enc_nf9_header. rewrite <-!app_assoc. set (v := enc16 NETFLOW_V9_VERSION). set (c := enc16 count).
    split_and!; [by apply rd16_enc16| |].
    - rewrite (app_assoc v). by apply (rd32_here (v ++ c)).
    - rewrite (app_assoc v), (app_assoc (v ++ c)). by apply (rd32_here ((v ++ c) ++ enc32 uptime)). }
  unfold convert_packet, convert_nf9. rewrite E0, E4, E8, !res_bind_ret. rewrite decide_True by done. fold time_header.
  destruct (nf9_header_spec st count uptime secs seq source raw rest) as (rest' & Eh & Hr'); [lia..|].
  fold mem in Eh. rewrite Eh, res_bind_ret.
  set (middle := enc32 secs ++ enc32 (nf9_seq_no st) ++ enc32 source).
  set (m := enc16 NETFLOW_V9_VERSION ++ enc16 IPFIX_HEADER_LENGTH ++ middle ++ raw ++ rest').
  replace (enc16 NETFLOW_V9_VERSION ++ enc16 IPFIX_HEADER_LENGTH ++ enc32 secs ++ enc32 (nf9_seq_no st) ++ enc32 source ++
           raw ++ rest') with m by (unfold m, middle; by rewrite <-!app_assoc).
  pose proof (sets_count (raw_set <$> ss)) as Hn. fold raw in Hn. rewrite length_fmap in Hn.
  destruct (nf9_loop max_len time_header (enc16 NETFLOW_V9_VERSION) middle eq_refl eq_refl ss st [] rest' (S (length m)))
    as (tail & E & Ht & Hready); fold raw conv; change (blen []) with 0; [done|done| |lia..|].
  { unfold m. rewrite !length_app. unfold blen in Hn. lia. }
  fold raw conv in E, Ht. change (blen []) with 0 in E, Ht. cbn [app] in E. rewrite !Z.add_0_r in E.
  change 16 with IPFIX_HEADER_LENGTH in E at 1 3 4. fold m in E.
  replace (20 + blen raw - 4) with (16 + blen raw) by lia. rewrite E, res_bind_ret.
  rewrite wr16_front, res_bind_ret by done. exists tail. split.
  - unfold message, enc_message, enc_header, middle. fold conv. rewrite <-!app_assoc. done.
  - rewrite blen_app, Hm. split; [lia|done].
Qed.
End nf9_message.

(** ** Limits of the conversion *)

(** C39: the loop over the fields of an options template counts octets in 8 bits.  It
    ends when the lengths of scope and options are at most 248 together; when they are
    more than 252 it never ends, whatever the fields are. *)
Theorem options_scope_termination mem rec option_scope_len option_len :
  0 ≤ rec → rec + 1028 ≤ blen mem →
  (option_scope_len + option_len ≤ 248 →
   ∃ r, loop (options_scope_step mem rec option_scope_len option_len) options_scope_fuel (0, 0, 0) = Ok r) ∧
  (252 < option_scope_len + option_len →
   ∀ fuel, loop (options_scope_step mem rec option_scope_len option_len) fuel (0, 0, 0) = OutOfFuel).
Proof.
  intros Hrec Hmem.
  assert (∀ i, 0 ≤ i < 256 → ∃ id, rd16 mem (rec + 6 + 4 * i) = Ok id) as Hrd by (intros i Hi; apply rd16_in_bounds; lia).
  split.
  - intros Hlen. apply (loop_total (options_scope_step mem rec option_scope_len option_len)
      (λ '(o, i, _), 0 ≤ o ∧ o < 256 ∧ o mod 4 = 0 ∧ 0 ≤ i < 256) (λ '(o, _, _), Z.to_nat (256 - o)) (λ r, ∃ x, r = Ok x));
      [|by repeat split|unfold options_scope_fuel; lia].
    intros [ [o i] c] (Ho & Ho' & Hm & Hi). unfold options_scope_step. case_decide as Hlt; [|by eexists].
    destruct (Hrd i Hi) as [id ->]. rewrite res_bind_ret. unfold sizeof_template_ie.
    assert (o + 8 < 256) by (Z.to_euclidean_division_equations; lia).
    case_decide; unfold u8; Z.to_euclidean_division_equations; lia.
  - intros Hlen fuel. apply (loop_diverges (options_scope_step mem rec option_scope_len option_len) (λ '(o, i, _), 0 ≤ o ∧ o < 256 ∧ o mod 4 = 0 ∧ 0 ≤ i < 256)); [|by repeat split].
    intros [ [o i] c] (Ho & Ho' & Hm & Hi). unfold options_scope_step.
    rewrite decide_True by (Z.to_euclidean_division_equations; lia).
    destruct (Hrd i Hi) as [id ->]. rewrite res_bind_ret. unfold sizeof_template_ie.
    case_decide; eexists _; (split; [done|]); unfold u8; Z.to_euclidean_division_equations; lia.
Qed.

(** The identifier behind the last of the table passes the check of its size: a
    data set with it reads behind the table, and a template with the first one behind
    the extended table is written there. *)
Lemma table_check_off_by_one st pre n y time_header remaining hdr num :
  table_ok st → 4 ≤ n < 65536 → templates_max st + 276 < 65536 →
  let next := IPFIX_MIN_RECORD_FLOWSET_ID + templates_max st in
  insert_timestamp_data st (pre ++ enc16 next ++ enc16 n ++ y) (blen pre) time_header remaining = Fault OobRead ∧
  timestamp_record st (pre ++ enc16 (next + 20) ++ y) (blen pre) hdr num = Fault OobWrite.
Proof.
  intros [Hc Hl Hm] Hn Hmax next. unfold next, IPFIX_MIN_RECORD_FLOWSET_ID in *. split.
  - destruct (set_header_here pre (256 + templates_max st) n y) as [E1 E2];
      [unfold IPFIX_MIN_RECORD_FLOWSET_ID; lia|done|].
    unfold insert_timestamp_data. rewrite E1, E2, !res_bind_ret. unfold IPFIX_MIN_RECORD_FLOWSET_ID.
    replace (256 + templates_max st - 256) with (templates_max st) by lia.
    rewrite Hc, (u16_small (templates_max st)), !u32_small by (rewrite ?u32_small; lia).
    rewrite decide_False by lia. by rewrite lookup_ge_None_2 by lia.
  - unfold timestamp_record. rewrite rd16_here, res_bind_ret by (unfold is_u16; lia). unfold IPFIX_MIN_RECORD_FLOWSET_ID.
    replace (256 + templates_max st + 20 - 256) with (templates_max st + 20) by lia. rewrite u16_small by lia.
    rewrite (decide_True (P := templates_max st + 20 >= templates_max st)) by lia.
    cbn [templates_realloc set_templates templates_cols templates_max templates_templ].
    rewrite Hc, !u32_small by (rewrite ?u32_small; lia). rewrite decide_False by lia.
    rewrite length_app, length_replicate. by rewrite decide_True by lia.
Qed.

(** *** Witnesses *)

Lemma options_scope_termination_witness :
  let mem := replicate 2000 0 in
  (∃ r, loop (options_scope_step mem 4 8 12) options_scope_fuel (0, 0, 0) = Ok r) ∧
  (∀ fuel, loop (options_scope_step mem 4 8 260) fuel (0, 0, 0) = OutOfFuel).
Proof.
  split.
  - apply (options_scope_termination (replicate 2000 0) 4 8 12); [lia|by vm_compute|lia].
  - apply (options_scope_termination (replicate 2000 0) 4 8 260); [lia|by vm_compute|lia].
Defined.

Definition sample_nf5 : nf5_record :=
  {| r5_head := replicate 24 1; r5_first := 500; r5_last := 900; r5_middle := replicate 12 2; r5_padding := [0; 0; 0; 0] |}.

Lemma sample_nf5_wf : Forall nf5_wf [sample_nf5; sample_nf5].
Proof. repeat constructor; by vm_compute. Qed.

(** Two records, for a collector that was just started. *)
Lemma convert_packet_nf5_witness :
  let st := convert_init convert_static UDP_PLUGIN 240 in
  let packet := enc_nf5_header 2 1000 1700000000 0 7 0 0x35 0 ++ mjoin (enc_nf5_record <$> [sample_nf5; sample_nf5]) in
  let message := enc_message 1700000000 0 (0x30 * 65536) (nf5_sets 1700000000 0 1000 true [sample_nf5; sample_nf5]) in
  ∃ st' tail, convert_packet st (packet ++ replicate 120 0) (blen packet) 240 None = Ok (st', None, message ++ tail, 200, 0).
Proof.
  intros st packet message.
  destruct (convert_packet_nf5 st None [sample_nf5; sample_nf5] 1000 1700000000 0 7 0 0x35 0 (replicate 120 0) 240)
    as (st' & tail & E & _); [by apply convert_init_ready|exact sample_nf5_wf|by vm_compute..|].
  exists st', tail. exact E.
Defined.

Lemma convert_packet_nf5_typed_witness :
  let st := convert_init convert_static UDP_PLUGIN 240 in
  let packet := enc_nf5_header 2 1000 1700000000 0 7 0 0x35 0 ++ mjoin (enc_nf5_record <$> [sample_nf5; sample_nf5]) in
  let ds := nf5_datums 1700000000 0 1000 <$> [sample_nf5; sample_nf5] in
  ∃ st' info1 head tail,
    convert_packet st (packet ++ replicate 120 0) (blen packet) 240 None =
      Ok (st', info1, head ++ enc_data_set IPFIX_MIN_RECORD_FLOWSET_ID ds [] ++ tail, blen head + 108, 0) ∧
    blen head = 92 ∧
    tm_create_template head 20 72 TM_TEMPLATE 0 = Ok (Some (spec_template TM_TEMPLATE IPFIX_MIN_RECORD_FLOWSET_ID 0 nf5_fields 0)).
Proof.
  intros st packet ds.
  destruct (convert_packet_nf5_typed st None [sample_nf5; sample_nf5] 1000 1700000000 0 7 0 0x35 0 (replicate 120 0) 240 0)
    as (st' & info1 & head & tail & E & Hh & Ht & _); [by apply convert_init_ready|exact sample_nf5_wf|by vm_compute..|].
  exists st', info1, head, tail. split; [exact E|]. split; [exact Hh|]. apply Ht. reflexivity.
Defined.

(** A template with an element of a vendor and times, two records of it in the same
    packet, an options template, and a set of a template that is not known. *)
Definition sample_nf9 : list nf9_set :=
  [n9_templates [ {| n9_id := 260; n9_fields := [(8, 4); (22, 4); (21, 4); (33000, 2)] |} ] [];
   n9_records 260 [ {| r9_head := [10; 0; 0; 1]; r9_first := 500; r9_last := 900; r9_rest := [1; 2] |};
                    {| r9_head := [10; 0; 0; 2]; r9_first := 600; r9_last := 600; r9_rest := [3; 4] |} ] [];
   n9_options [ {| o9_id := 261; o9_scope := [(1, 4)]; o9_options := [(41, 8); (22, 4)] |} ] [0; 0];
   n9_other 300 [1; 2; 3] ].

Lemma sample_nf9_ok : sets_ok (convert_init convert_static UDP_PLUGIN 480) sample_nf9.
Proof.
  cbn [sets_ok sample_nf9]. split_and!; [| | | |done].
  - cbn [set_ok]. split_and!; [|repeat constructor; by vm_compute|done|by vm_compute].
    cbn [learnable]. split; [|done]. split; [|by vm_compute]. by apply (bool_decide_unpack _).
  - cbn [set_ok]. split; [by vm_compute|]. split; [done|].
    change (layout_of _ 260) with (Some (14, 4)). split_and!; [done| |by vm_compute].
    repeat constructor; by vm_compute.
  - cbn [set_ok]. split_and!; [|repeat constructor; by vm_compute|done|by vm_compute].
    cbn [learnable fmap list_fmap]. split; [|done]. split; [|by vm_compute]. by apply (bool_decide_unpack _).
  - cbn [set_ok]. split; [by vm_compute|]. unfold left_alone.
    change (layout_of _ 300) with (@None (Z * Z)). by vm_compute.
Qed.

Lemma convert_packet_nf9_witness :
  let st := convert_init convert_static UDP_PLUGIN 480 in
  let packet := enc_nf9_header 5 1000 1700000000 7 1 ++ enc_sets (raw_set <$> sample_nf9) in
  let message := enc_message 1700000000 0 1 (converted_set 1699999999000 <$> sample_nf9) in
  ∃ tail, convert_packet st (packet ++ replicate 373 0) (blen packet) 480 None =
    Ok (after_sets st sample_nf9, None, message ++ tail, 124, 0).
Proof.
  intros st packet message.
  destruct (convert_packet_nf9 st None sample_nf9 5 1000 1700000000 7 1 (replicate 373 0) 480) as (tail & E & _).
  - constructor; [constructor|]; by vm_compute.
  - exact sample_nf9_ok.
  - by vm_compute.
  - by vm_compute.
  - by vm_compute.
  - by vm_compute.
  - by vm_compute.
  - by vm_compute.
  - by vm_compute.
  - exists tail. exact E.
Defined.
