(* ===== verification/PacketBuilder.v ===== *)
(** * Packet builder (src/base/src/storage/forwarding/packet.c)

    The forwarding plugin makes packets out of parts of received ones without a
    copy: the builder keeps an array of [struct iovec] that point to the sets of the
    received packet, to templates in it and to headers of its own.  When a packet is
    complete the parts are broken into packets of a maximal size; each of them is a
    range of the array, and the element in front of the range, which is the last part
    of the packet before, is lent to the header of the packet. *)

From S2P Require Import Prelude CLib TemplateRecord DataRecord Message.

(** ** Constants *)

Definition AUX_ARR_DEF_SIZE : nat := 16.
Definition PARTS_DEF_SIZE : nat := 16.
Definition HEADER_SIZE : Z := 4.
Definition PACKET_MIN_SIZE : Z := 256.
Definition PACKET_MAX_NUM : nat := 8.
Definition TMPLT_SET_MAX_LEN : Z := 512.

(** ** Data *)

Inductive FLOW_SET_TYPE :=
  | FST_NONE
  | FST_DATA
  | FST_TMPLT
  | FST_TMPLT_WITHDRAW
  | FST_OPT_TMPLT
  | FST_OPT_TMPLT_WITHDRAW.
#[export] Instance FLOW_SET_TYPE_eq_dec : EqDecision FLOW_SET_TYPE.
Proof. solve_decision. Defined.

(** What [iov_base] points to: nothing, the header of the builder, an element of its
    array of headers, or memory of the caller, which is given from the pointer on and
    is not changed by the builder. *)
Inductive iov_pointer :=
  | IovNull
  | IovPacketHeader
  | IovHeader (i : nat)
  | IovData (m : bytes).
Record iovec := { iov_base : iov_pointer; iov_len : Z }.

Definition set_iov (base : iov_pointer) (len : Z) : iovec := {| iov_base := base; iov_len := len |}.

(** [arr_data] holds pointers to blocks of [elem_size] octets, [None] is [NULL]; the
    length of the list is [arr_max]. *)
Record aux_array := {
  elem_size : Z;
  arr_data : list (option bytes);
  arr_size : nat
}.

(** The range starts at the index [pr_start] of the parts. *)
Record packet_range := {
  pr_start : nat;
  pr_size : nat;
  pr_backup : iovec;
  pr_rec_cnt : Z
}.

(** [rec_flds], [rec_cnt] and [rec_set_start] always have the same size: they are one
    array of triples.  The lengths of the lists are [rec_max] and [pkt_max]. *)
Record part := { p_fld : iovec; p_cnt : Z; p_set_start : bool }.
Definition part_null : part := {| p_fld := set_iov IovNull 0; p_cnt := 0; p_set_start := false |}.

(** [last_set_header] is the index of an element of the array of headers. *)
Record packet_parts := {
  insert_lock : bool;
  rec : list part;
  rec_size : nat;
  pkt_arr : list (option packet_range);
  pkt_size : nat;
  last_set_type : FLOW_SET_TYPE;
  last_set_header : option nat
}.

(** The fields of the packet header are kept as numbers of the host. *)
Record packet_header := {
  h_version : Z;
  h_length : Z;
  h_export_time : Z;
  h_sequence_number : Z;
  h_odid : Z
}.
Definition header_octets (h : packet_header) : bytes :=
  enc16 (h_version h) ++ enc16 (h_length h) ++ enc32 (h_export_time h) ++ enc32 (h_sequence_number h) ++
  enc32 (h_odid h).

Record fwd_bldr := {
  part_all : packet_parts;
  headers : aux_array;
  bldr_header : packet_header;
  is_complete : bool
}.

(** *** Updates *)

Definition set_parts (b : fwd_bldr) (p : packet_parts) : fwd_bldr :=
  {| part_all := p; headers := headers b; bldr_header := bldr_header b; is_complete := is_complete b |}.
Definition set_headers (b : fwd_bldr) (a : aux_array) : fwd_bldr :=
  {| part_all := part_all b; headers := a; bldr_header := bldr_header b; is_complete := is_complete b |}.
Definition set_rec (p : packet_parts) (r : list part) (n : nat) : packet_parts :=
  {| insert_lock := insert_lock p; rec := r; rec_size := n; pkt_arr := pkt_arr p; pkt_size := pkt_size p;
     last_set_type := last_set_type p; last_set_header := last_set_header p |}.
Definition set_pkt_arr (p : packet_parts) (a : list (option packet_range)) (n : nat) : packet_parts :=
  {| insert_lock := insert_lock p; rec := rec p; rec_size := rec_size p; pkt_arr := a; pkt_size := n;
     last_set_type := last_set_type p; last_set_header := last_set_header p |}.
Definition set_last_set (p : packet_parts) (t : FLOW_SET_TYPE) (h : option nat) : packet_parts :=
  {| insert_lock := insert_lock p; rec := rec p; rec_size := rec_size p; pkt_arr := pkt_arr p; pkt_size := pkt_size p;
     last_set_type := t; last_set_header := h |}.
Definition set_insert_lock (p : packet_parts) : packet_parts :=
  {| insert_lock := true; rec := rec p; rec_size := rec_size p; pkt_arr := pkt_arr p; pkt_size := pkt_size p;
     last_set_type := last_set_type p; last_set_header := last_set_header p |}.

(** ** The array of headers *)

Definition arr_create (elem_size : Z) : aux_array :=
  {| elem_size := elem_size; arr_data := replicate AUX_ARR_DEF_SIZE None; arr_size := 0 |}.

Definition arr_clear (arr : aux_array) : aux_array :=
  {| elem_size := elem_size arr; arr_data := arr_data arr; arr_size := 0 |}.

(** The array doubles when it is full; a block that was used before keeps its
    content. *)
Definition arr_new (arr : aux_array) : res (aux_array * nat) :=
  let data := if decide (arr_size arr = length (arr_data arr))
              then arr_data arr ++ replicate (length (arr_data arr)) None else arr_data arr in
  elem ← or_fault OobRead (data !! arr_size arr);
  let block := default (replicate (Z.to_nat (elem_size arr)) 0) elem in
  Ok ({| elem_size := elem_size arr; arr_data := <[arr_size arr := Some block]> data; arr_size := S (arr_size arr) |},
      arr_size arr).

(** Access to a block. *)
Definition arr_get (arr : aux_array) (i : nat) : res bytes :=
  elem ← or_fault OobRead (arr_data arr !! i); or_fault NullDeref elem.
Definition arr_set (arr : aux_array) (i : nat) (v : bytes) : aux_array :=
  {| elem_size := elem_size arr; arr_data := <[i := Some v]> (arr_data arr); arr_size := arr_size arr |}.

(** ** The array of parts *)

Definition parts_clear (prt : packet_parts) : packet_parts :=
  {| insert_lock := false; rec := rec prt; rec_size := 1; pkt_arr := pkt_arr prt; pkt_size := 0;
     last_set_type := FST_NONE; last_set_header := None |}.

Definition parts_create : packet_parts :=
  parts_clear {| insert_lock := false; rec := replicate PARTS_DEF_SIZE part_null; rec_size := 0;
                 pkt_arr := replicate PACKET_MAX_NUM None; pkt_size := 0;
                 last_set_type := FST_NONE; last_set_header := None |}.

(** The elements that [realloc] adds are not initialised; none is read before it is
    written. *)
Definition parts_check_size (prt : packet_parts) : packet_parts :=
  if decide (rec_size prt < length (rec prt))%nat then prt
  else set_rec prt (rec prt ++ replicate (length (rec prt)) part_null) (rec_size prt).

Definition parts_insert (prt : packet_parts) (data : iov_pointer) (len : Z) (set_start : bool) (data_rec : Z) :
    res (Z * packet_parts) :=
  if insert_lock prt then Ok (1, prt) else
  let prt := parts_check_size prt in
  if decide (length (rec prt) ≤ rec_size prt)%nat then Fault OobWrite else
  let p := {| p_fld := set_iov data len; p_cnt := data_rec; p_set_start := set_start |} in
  Ok (0, set_rec prt (<[rec_size prt := p]> (rec prt)) (S (rec_size prt))).

(** The parts in use from the index [i] on. *)
Definition parts_from (prt : packet_parts) (i : nat) : list part := drop i (take (rec_size prt) (rec prt)).

(** The loop of [parts_aux_set_parts] behind the header of the set. *)
Fixpoint parts_of_set (ps : list part) (parts : Z) : Z :=
  match ps with
  | [] => parts
  | p :: ps => if p_set_start p then parts else parts_of_set ps (parts + 1)
  end.

Definition parts_aux_set_parts (prt : packet_parts) (set_idx : nat) : Z :=
  match parts_from prt set_idx with
  | [] => 0
  | p :: ps => if p_set_start p then parts_of_set ps 1 else -1
  end.

Definition parts_aux_set_len (prt : packet_parts) (set_idx : nat) : Z :=
  let parts := parts_aux_set_parts prt set_idx in
  if decide (parts ≤ 0) then parts
  else foldr (λ p n, iov_len (p_fld p) + n) 0 (take (Z.to_nat parts) (parts_from prt set_idx)).

Definition parts_packets_check_size (prt : packet_parts) : packet_parts :=
  if decide (pkt_size prt < length (pkt_arr prt))%nat then prt
  else set_pkt_arr prt (pkt_arr prt ++ replicate (length (pkt_arr prt)) None) (pkt_size prt).

Definition parts_packet_new (prt : packet_parts) (start_index parts : nat) : res (Z * packet_parts) :=
  if decide (parts = 0%nat) then Ok (1, prt) else
  let prt := parts_packets_check_size prt in
  if decide (length (pkt_arr prt) ≤ pkt_size prt)%nat then Fault OobWrite else
  last ← or_fault OobRead (rec prt !! (start_index + parts - 1)%nat);
  let cnt := foldl (λ n p, u32 (n + p_cnt p)) 0 (take parts (drop start_index (rec prt))) in
  let range := {| pr_start := start_index - 1; pr_size := parts + 1; pr_backup := p_fld last; pr_rec_cnt := cnt |} in
  Ok (0, set_pkt_arr prt (<[pkt_size prt := Some range]> (pkt_arr prt)) (S (pkt_size prt))).

(** The variables of the loop of [parts_packets_prepare]. *)
Record prepare_state := {
  ps_prt : packet_parts;
  ps_i : nat;
  ps_packet_start : bool;
  ps_start_index : nat;
  ps_cur_len : Z;
  ps_parts_cnt : nat;
  ps_packets_cnt : Z
}.

(** A turn; the result is that of an early return or the variables behind the loop. *)
Definition parts_packets_prepare_step (max_size : Z) (s : prepare_state) :
    res (prepare_state + (Z * packet_parts + prepare_state)) :=
  let prt := ps_prt s in let i := ps_i s in
  if decide (i < rec_size prt)%nat then
    let s := if ps_packet_start s
             then {| ps_prt := prt; ps_i := i; ps_packet_start := false; ps_start_index := i;
                     ps_cur_len := IPFIX_HEADER_LENGTH; ps_parts_cnt := 0; ps_packets_cnt := ps_packets_cnt s + 1 |}
             else s in
    let next_len := parts_aux_set_len prt i in
    if decide (next_len ≤ 0) then Ok (inr (inl (1, prt))) else
    let next_parts := parts_aux_set_parts prt i in
    if decide (next_parts ≤ 0) then Ok (inr (inl (1, prt))) else
    if decide (ps_cur_len s + next_len ≤ max_size ∨ ps_parts_cnt s = 0%nat) then
      Ok (inl {| ps_prt := prt; ps_i := i + Z.to_nat next_parts; ps_packet_start := ps_packet_start s;
                 ps_start_index := ps_start_index s; ps_cur_len := ps_cur_len s + next_len;
                 ps_parts_cnt := ps_parts_cnt s + Z.to_nat next_parts; ps_packets_cnt := ps_packets_cnt s |})
    else
      x ← parts_packet_new prt (ps_start_index s) (ps_parts_cnt s);
      let '(ret, prt) := x in
      if decide (ret ≠ 0) then Ok (inr (inl (1, prt)))
      else Ok (inl {| ps_prt := prt; ps_i := i; ps_packet_start := true; ps_start_index := ps_start_index s;
                      ps_cur_len := ps_cur_len s; ps_parts_cnt := ps_parts_cnt s; ps_packets_cnt := ps_packets_cnt s |})
  else Ok (inr (inr s)).

(** A set is visited at most twice: when it does not fit and when it is added. *)
Definition parts_packets_prepare (prt : packet_parts) (size : Z) : res (Z * packet_parts) :=
  let prt := set_insert_lock prt in
  if decide (rec_size prt = 1%nat) then Ok (0, prt) else
  let max_size := if decide (size < PACKET_MIN_SIZE) then PACKET_MIN_SIZE else size in
  x ← loop (parts_packets_prepare_step max_size) (2 * rec_size prt + 1)
        {| ps_prt := prt; ps_i := 1; ps_packet_start := true; ps_start_index := 1; ps_cur_len := 0; ps_parts_cnt := 0;
           ps_packets_cnt := 0 |};
  match x with
  | inl r => Ok r
  | inr s =>
      if decide (ps_i s ≠ rec_size (ps_prt s)) then Ok (1, ps_prt s) else
      if decide (ps_packets_cnt s > 0) then
        x ← parts_packet_new (ps_prt s) (ps_start_index s) (ps_parts_cnt s);
        let '(ret, prt) := x in Ok (if decide (ret ≠ 0) then 1 else 0, prt)
      else Ok (0, ps_prt s)
  end.

(** ** The builder *)

Definition bldr_create : fwd_bldr :=
  {| part_all := parts_create; headers := arr_create HEADER_SIZE;
     bldr_header := {| h_version := IPFIX_VERSION; h_length := 0; h_export_time := 0; h_sequence_number := 0; h_odid := 0 |};
     is_complete := false |}.

Definition bldr_start (pkt : fwd_bldr) (odid exp_time : Z) : fwd_bldr :=
  let h := bldr_header pkt in
  {| part_all := parts_clear (part_all pkt); headers := arr_clear (headers pkt);
     bldr_header := {| h_version := h_version h; h_length := h_length h; h_export_time := exp_time;
                       h_sequence_number := h_sequence_number h; h_odid := odid |};
     is_complete := false |}.

Definition bldr_end (pkt : fwd_bldr) (len : Z) : res (Z * fwd_bldr) :=
  x ← parts_packets_prepare (part_all pkt) len;
  let '(ret, parts) := x in
  Ok (if decide (ret ≠ 0) then -1 else 0,
      {| part_all := parts; headers := headers pkt; bldr_header := bldr_header pkt; is_complete := true |}).

Definition bldr_pkts_cnt (pkt : fwd_bldr) : Z :=
  if is_complete pkt then Z.of_nat (pkt_size (part_all pkt)) else -1.

Definition bldr_pkts_get_odid (pkt : fwd_bldr) : Z := h_odid (bldr_header pkt).

(** A part is replaced in the array: [range->start[i] = v]. *)
Definition set_fld (prt : packet_parts) (i : nat) (v : iovec) : res packet_parts :=
  p ← or_fault OobWrite (rec prt !! i);
  Ok (set_rec prt (<[i := {| p_fld := v; p_cnt := p_cnt p; p_set_start := p_set_start p |}]> (rec prt)) (rec_size prt)).

(** The results are the range and the length of the packet; [None] stands for the
    return value 1. *)
Definition bldr_pkts_get (pkt : fwd_bldr) (seq_num : Z) (idx : nat) :
    res (fwd_bldr * option (packet_range * Z)) :=
  if negb (is_complete pkt) then Ok (pkt, None) else
  let parts := part_all pkt in
  if decide (pkt_size parts ≤ idx)%nat then Ok (pkt, None) else
  elem ← or_fault OobRead (pkt_arr parts !! idx);
  range ← or_fault NullDeref elem;
  parts ← set_fld parts (pr_start range + pr_size range - 1) (pr_backup range);
  let total_len := foldl (λ n p, n + iov_len (p_fld p)) IPFIX_HEADER_LENGTH
                     (take (pr_size range - 1) (drop (pr_start range + 1) (rec parts))) in
  parts ← set_fld parts (pr_start range) (set_iov IovPacketHeader IPFIX_HEADER_LENGTH);
  let h := bldr_header pkt in
  let header := {| h_version := h_version h; h_length := u16 total_len; h_export_time := h_export_time h;
                   h_sequence_number := seq_num; h_odid := h_odid h |} in
  Ok ({| part_all := parts; headers := headers pkt; bldr_header := header; is_complete := is_complete pkt |},
      Some (range, total_len)).

(** The octets from [off] on that a part points to: [len] of them. *)
Definition iov_octets (pkt : fwd_bldr) (v : iovec) (off len : Z) : res bytes :=
  match iov_base v with
  | IovNull => if decide (len = 0) then Ok [] else Fault NullDeref
  | IovPacketHeader => rdn (header_octets (bldr_header pkt)) off len
  | IovHeader i => block ← arr_get (headers pkt) i; rdn block off len
  | IovData m => rdn m off len
  end.

(** The copy of the parts [ps] into [packet]; the two positions are
    [unsigned int]. *)
Fixpoint copy_parts (pkt : fwd_bldr) (packet : bytes) (offset pos_total pos_copy : Z) (ps : list part) : res bytes :=
  match ps with
  | [] => Ok packet
  | p :: ps =>
      let len := iov_len (p_fld p) in
      if decide (pos_total < offset ∧ u64 (pos_total + len) <= offset) then
        copy_parts pkt packet offset (u32 (pos_total + len)) pos_copy ps
      else
        let diff := if decide (pos_total < offset) then u32 (offset - pos_total) else 0 in
        x ← iov_octets pkt (p_fld p) diff (u64 (len - diff));
        packet ← wrn packet pos_copy x;
        copy_parts pkt packet offset (u32 (u32 (pos_total + diff) + u64 (len - diff))) (u32 (pos_copy + u64 (len - diff))) ps
  end.

(** [None] stands for the return value 1; the new packet is a block of [malloc] whose
    content [uninit] is overwritten. *)
Definition bldr_pkts_raw (pkt : fwd_bldr) (seq_num : Z) (idx : nat) (offset uninit : Z) :
    res (fwd_bldr * option (bytes * Z * Z)) :=
  x ← bldr_pkts_get pkt seq_num idx;
  let '(pkt, r) := x in
  match r with
  | None => Ok (pkt, None)
  | Some (range, packet_len) =>
      if decide (packet_len ≤ offset) then Ok (pkt, None) else
      let packet_len := packet_len - offset in
      packet ← copy_parts pkt (replicate (Z.to_nat packet_len) uninit) offset 0 0
                 (take (pr_size range) (drop (pr_start range) (rec (part_all pkt))));
      Ok (pkt, Some (packet, packet_len, pr_rec_cnt range))
  end.

(** The array of parts of a packet, for [sendmsg]. *)
Definition bldr_pkts_iovec (pkt : fwd_bldr) (seq_num : Z) (idx : nat) : res (fwd_bldr * option (list iovec * nat * Z)) :=
  x ← bldr_pkts_get pkt seq_num idx;
  let '(pkt, r) := x in
  match r with
  | None => Ok (pkt, None)
  | Some (range, _) =>
      Ok (pkt, Some (p_fld <$> take (pr_size range) (drop (pr_start range) (rec (part_all pkt))), pr_size range,
                     pr_rec_cnt range))
  end.

(** ** Adding parts *)

(** [parts_insert] into the parts of a builder; the continuation is left out when the
    insertion fails. *)
Definition bldr_insert (pkt : fwd_bldr) (data : iov_pointer) (len : Z) (set_start : bool) (data_rec : Z)
    (k : fwd_bldr → res (Z * fwd_bldr)) : res (Z * fwd_bldr) :=
  x ← parts_insert (part_all pkt) data len set_start data_rec;
  let '(ret, parts) := x in
  if decide (ret ≠ 0) then Ok (1, set_parts pkt parts) else k (set_parts pkt parts).

Definition bldr_add_dataset (pkt : fwd_bldr) (data : bytes) (new_id rec : Z) : res (Z * fwd_bldr) :=
  let pkt := set_parts pkt (set_last_set (part_all pkt) FST_DATA None) in
  flowset_id ← rd16 data 0;
  length ← rd16 data 2;
  if decide (flowset_id ≠ new_id) then
    x ← arr_new (headers pkt);
    let '(arr, new_header) := x in
    let pkt := set_headers pkt (arr_set arr new_header (enc16 new_id ++ enc16 length)) in
    bldr_insert pkt (IovHeader new_header) HEADER_SIZE true 0 (λ pkt,
    bldr_insert pkt (IovData (drop 4 data)) (u16 (length - HEADER_SIZE)) false rec (λ pkt, Ok (0, pkt)))
  else bldr_insert pkt (IovData data) length true rec (λ pkt, Ok (0, pkt)).

(** The header of a set of templates: its identifier and the type of the set. *)
Definition set_id_of (type : Z) : Z :=
  if decide (type = TM_TEMPLATE) then IPFIX_TEMPLATE_FLOWSET_ID else IPFIX_OPTION_FLOWSET_ID.
Definition set_type_of (type : Z) (is_withdrawal : bool) : FLOW_SET_TYPE :=
  if is_withdrawal then if decide (type = TM_TEMPLATE) then FST_TMPLT_WITHDRAW else FST_OPT_TMPLT_WITHDRAW
  else if decide (type = TM_TEMPLATE) then FST_TMPLT else FST_OPT_TMPLT.

Definition is_template_type (type : Z) : bool := bool_decide (type = TM_TEMPLATE ∨ type = TM_OPTIONS_TEMPLATE).

Definition bldr_aux_insert_set_header (pkt : fwd_bldr) (type : Z) (is_withdrawal : bool) : res (Z * fwd_bldr) :=
  if negb (is_template_type type) then Ok (1, pkt) else
  x ← arr_new (headers pkt);
  let '(arr, new_header) := x in
  let pkt := set_headers pkt (arr_set arr new_header (enc16 (set_id_of type) ++ enc16 HEADER_SIZE)) in
  bldr_insert pkt (IovHeader new_header) HEADER_SIZE true 0 (λ pkt,
  Ok (0, set_parts pkt (set_last_set (part_all pkt) (set_type_of type is_withdrawal) (Some new_header)))).

(** The length in the header of the last set. *)
Definition last_set_length (pkt : fwd_bldr) : res Z :=
  i ← or_fault NullDeref (last_set_header (part_all pkt));
  block ← arr_get (headers pkt) i; rd16 block 2.
Definition set_last_set_length (pkt : fwd_bldr) (add : Z) : res fwd_bldr :=
  i ← or_fault NullDeref (last_set_header (part_all pkt));
  block ← arr_get (headers pkt) i;
  n ← rd16 block 2; block ← wr16 block 2 (u16 (n + add));
  Ok (set_headers pkt (arr_set (headers pkt) i block)).

(** A record of [size] octets goes into the last set when that is of the same type and
    does not get too long, and into a new one otherwise. *)
Definition bldr_open_set (pkt : fwd_bldr) (size type : Z) (is_withdrawal : bool) : res (Z * fwd_bldr) :=
  if decide (last_set_type (part_all pkt) = set_type_of type is_withdrawal) then
    set_size ← last_set_length pkt;
    if decide (set_size + size > TMPLT_SET_MAX_LEN) then bldr_aux_insert_set_header pkt type is_withdrawal
    else Ok (0, pkt)
  else bldr_aux_insert_set_header pkt type is_withdrawal.

Definition bldr_add_template (pkt : fwd_bldr) (data : bytes) (size new_id type : Z) : res (Z * fwd_bldr) :=
  if negb (is_template_type type) then Ok (1, pkt) else
  x ← bldr_open_set pkt size type false;
  let '(ret, pkt) := x in
  if decide (ret ≠ 0) then Ok (1, pkt) else
  template_id ← rd16 data 0;
  if decide (template_id ≠ new_id) then
    x ← arr_new (headers pkt);
    let '(arr, new_header) := x in
    count ← rdn data 2 2;
    let pkt := set_headers pkt (arr_set arr new_header (enc16 new_id ++ count)) in
    bldr_insert pkt (IovHeader new_header) HEADER_SIZE false 0 (λ pkt,
    bldr_insert pkt (IovData (drop 4 data)) (u64 (size - HEADER_SIZE)) false 0 (λ pkt,
    pkt ← set_last_set_length pkt size; Ok (0, pkt)))
  else bldr_insert pkt (IovData data) size false 0 (λ pkt, pkt ← set_last_set_length pkt size; Ok (0, pkt)).

Definition bldr_add_template_withdrawal (pkt : fwd_bldr) (id type : Z) : res (Z * fwd_bldr) :=
  if negb (is_template_type type) then Ok (1, pkt) else
  x ← bldr_open_set pkt HEADER_SIZE type true;
  let '(ret, pkt) := x in
  if decide (ret ≠ 0) then Ok (1, pkt) else
  x ← arr_new (headers pkt);
  let '(arr, new_record) := x in
  let pkt := set_headers pkt (arr_set arr new_record (enc16 id ++ enc16 0)) in
  bldr_insert pkt (IovHeader new_record) HEADER_SIZE false 0 (λ pkt,
  pkt ← set_last_set_length pkt HEADER_SIZE; Ok (0, pkt)).

(** ** Specification: the sets of the packets to be *)

(** A set with the number of its data records and its kind. *)
Record out_set := { os_set : wire_set; os_recs : Z; os_kind : FLOW_SET_TYPE }.

(** What is added: a data set of the caller's memory, a template record without its
    identifier, or a withdrawal; [rest] is what is behind it in memory. *)
Inductive bldr_op :=
  | AddDataset (sid : Z) (body rest : bytes) (new_id recs : Z)
  | AddTemplate (tid : Z) (fields rest : bytes) (new_id type : Z)
  | AddWithdrawal (id type : Z).

Definition run_op (b : fwd_bldr) (op : bldr_op) : res (Z * fwd_bldr) :=
  match op with
  | AddDataset sid body rest new_id recs => bldr_add_dataset b (enc_set (sid, body) ++ rest) new_id recs
  | AddTemplate tid fields rest new_id type =>
      bldr_add_template b (enc16 tid ++ fields ++ rest) (2 + blen fields) new_id type
  | AddWithdrawal id type => bldr_add_template_withdrawal b id type
  end.

Definition op_ok (op : bldr_op) : Prop :=
  match op with
  | AddDataset sid body rest new_id recs => is_u16 sid ∧ is_u16 new_id ∧ 4 + blen body < 65536 ∧ 0 ≤ recs
  | AddTemplate tid fields rest new_id type =>
      is_u16 tid ∧ is_u16 new_id ∧ 2 ≤ blen fields ∧ 6 + blen fields < 65536 ∧ is_template_type type
  | AddWithdrawal id type => is_u16 id ∧ is_template_type type
  end.

(** A record goes into the last set or into a new one. *)
Definition extend_set (s : out_set) (r : bytes) : out_set :=
  {| os_set := ((os_set s).1, (os_set s).2 ++ r); os_recs := os_recs s; os_kind := os_kind s |}.
Definition new_set (type : Z) (w : bool) : out_set :=
  {| os_set := (set_id_of type, []); os_recs := 0; os_kind := set_type_of type w |}.
Definition has_room (s : out_set) (n : Z) (type : Z) (w : bool) : Prop :=
  os_kind s = set_type_of type w ∧ 4 + blen (os_set s).2 + n ≤ TMPLT_SET_MAX_LEN.
#[export] Instance has_room_dec s n type w : Decision (has_room s n type w).
Proof. unfold has_room. apply _. Defined.

Definition spec_record (ss : list out_set) (r : bytes) (type : Z) (w : bool) : list out_set :=
  match last ss with
  | Some s => if decide (has_room s (blen r) type w) then removelast ss ++ [extend_set s r]
              else ss ++ [extend_set (new_set type w) r]
  | None => [extend_set (new_set type w) r]
  end.

Definition spec_op (ss : list out_set) (op : bldr_op) : list out_set :=
  match op with
  | AddDataset sid body rest new_id recs => ss ++ [ {| os_set := (new_id, body); os_recs := recs; os_kind := FST_DATA |} ]
  | AddTemplate tid fields rest new_id type => spec_record ss (enc16 new_id ++ fields) type false
  | AddWithdrawal id type => spec_record ss (enc16 id ++ enc16 0) type true
  end.

(** Sets of the length [size] are put into packets in their order; a packet is closed
    when the next set would make it longer than [max]. *)
Section pack.
Context {A : Type} (size : A → Z) (max : Z).

Fixpoint pack (cur : list A) (len : Z) (ss : list A) : list (list A) :=
  match ss with
  | [] => [cur]
  | s :: ss =>
      if decide (len + size s ≤ max ∨ length cur = 0%nat) then pack (cur ++ [s]) (len + size s) ss
      else cur :: pack [s] (IPFIX_HEADER_LENGTH + size s) ss
  end.

Lemma pack_join ss : ∀ cur len, mjoin (pack cur len ss) = cur ++ ss.
Proof.
  induction ss as [|s ss IH]; intros cur len; cbn [pack]; [done|].
  case_decide; [by rewrite IH, <-app_assoc|]. by rewrite mjoin_cons, IH.
Qed.

(** A packet is at most [max] octets long or has only one set, and none is empty. *)
Definition sizes (ss : list A) : Z := foldr (λ s n, size s + n) 0 ss.
Definition packet_fits (ss : list A) : Prop := IPFIX_HEADER_LENGTH + sizes ss ≤ max ∨ length ss = 1%nat.

Lemma sizes_app l r : sizes (l ++ r) = sizes l + sizes r.
Proof. induction l as [|s l IH]; [done|]. cbn [sizes foldr app] in *. unfold sizes in *. lia. Qed.

Lemma pack_fits ss : ∀ cur, cur ≠ [] → packet_fits cur →
  Forall packet_fits (pack cur (IPFIX_HEADER_LENGTH + sizes cur) ss) ∧
  Forall (λ p, p ≠ []) (pack cur (IPFIX_HEADER_LENGTH + sizes cur) ss).
Proof.
  induction ss as [|s ss IH]; intros cur Hne Hfit; cbn [pack]; [by split; (constructor; [done|constructor])|].
  assert (sizes [s] = size s) as Hs by (cbn; lia).
  assert (length cur ≠ 0%nat) by (by destruct cur).
  case_decide as Hd.
  - rewrite <-Z.add_assoc. rewrite <-Hs at 1 2. rewrite <-sizes_app. apply IH; [by destruct cur|]. left. rewrite sizes_app. lia.
  - rewrite <-Hs. destruct (IH [s]) as [H1 H2]; [done|by right|]. by split; constructor.
Qed.

Definition packets (ss : list A) : list (list A) :=
  match ss with [] => [] | s :: ss => pack [s] (IPFIX_HEADER_LENGTH + size s) ss end.

Lemma packets_join ss : mjoin (packets ss) = ss.
Proof. destruct ss as [|s ss]; [done|]. apply pack_join. Qed.

Lemma packets_fit ss : Forall packet_fits (packets ss) ∧ Forall (λ p, p ≠ []) (packets ss).
Proof.
  destruct ss as [|s ss]; [by split|]. cbn [packets].
  replace (size s) with (sizes [s]) by (cbn; lia). apply pack_fits; [done|by right].
Qed.
End pack.

(** Packing depends on the lengths only. *)
Lemma pack_related {A B} (R : A → B → Prop) sa sb max ss ts :
  (∀ a b, R a b → sa a = sb b) → Forall2 R ss ts → ∀ cur cur' len, Forall2 R cur cur' →
  Forall2 (Forall2 R) (pack sa max cur len ss) (pack sb max cur' len ts).
Proof.
  intros HR H. induction H as [|a b ss ts Hab Hss IH]; intros cur cur' len Hcur; cbn [pack]; [by constructor|].
  rewrite (HR a b Hab), (Forall2_length _ _ _ Hcur). case_decide.
  - apply IH. apply Forall2_app; [done|by constructor].
  - constructor; [done|]. apply IH. by constructor.
Qed.

Lemma packets_related {A B} (R : A → B → Prop) sa sb max ss ts :
  (∀ a b, R a b → sa a = sb b) → Forall2 R ss ts → Forall2 (Forall2 R) (packets sa max ss) (packets sb max ts).
Proof.
  intros HR [|a b ss' ts' Hab Hss]; cbn [packets]; [constructor|]. rewrite (HR a b Hab).
  apply pack_related; [done..|]. by constructor.
Qed.

Definition set_size (s : out_set) : Z := blen (enc_set (os_set s)).

(** ** Refinement *)

(** *** The arrays *)

Record arr_ok (arr : aux_array) : Prop := {
  ao_elem : elem_size arr = HEADER_SIZE;
  ao_size : (arr_size arr ≤ length (arr_data arr))%nat;
  ao_pos : (0 < length (arr_data arr))%nat
}.

(** A new element with the content [v]: the elements in use are unchanged. *)
Lemma new_header_spec arr v : arr_ok arr →
  ∃ arr1, arr_new arr = Ok (arr1, arr_size arr) ∧
    let arr2 := arr_set arr1 (arr_size arr) v in
    arr_ok arr2 ∧ arr_size arr2 = S (arr_size arr) ∧ arr_data arr2 !! arr_size arr = Some (Some v) ∧
    (∀ i, (i < arr_size arr)%nat → arr_data arr2 !! i = arr_data arr !! i).
Proof.
  intros [He Hs Hp]. unfold arr_new.
  set (data := if decide _ then _ else _).
  assert (arr_size arr < length data)%nat as Hlt.
  { unfold data. case_decide; rewrite ?length_app, ?length_replicate; lia. }
  assert (∀ i, (i < arr_size arr)%nat → data !! i = arr_data arr !! i) as Hag.
  { intros i Hi. unfold data. case_decide; [|done]. by rewrite lookup_app_l by lia. }
  destruct (lookup_lt_is_Some_2 data (arr_size arr) Hlt) as [elem ->]. cbn [or_fault]. rewrite res_bind_ret.
  eexists. split; [done|]. unfold arr_set. cbn [elem_size arr_data arr_size]. rewrite list_insert_insert_eq. split; [|split; [|split] ].
  - constructor; cbn [elem_size arr_data arr_size]; rewrite ?length_insert; [done|lia|lia].
  - done.
  - by apply list_lookup_insert_eq.
  - intros i Hi. rewrite list_lookup_insert_ne by lia. by apply Hag.
Qed.

Definition parts_used (prt : packet_parts) : list part := take (rec_size prt) (rec prt).
Record parts_ok (prt : packet_parts) : Prop := {
  po_lock : insert_lock prt = false;
  po_size : (1 ≤ rec_size prt ≤ length (rec prt))%nat
}.

Definition new_part (data : iov_pointer) (len : Z) (start : bool) (recs : Z) : part :=
  {| p_fld := set_iov data len; p_cnt := recs; p_set_start := start |}.

Lemma parts_insert_spec prt data len start recs : parts_ok prt →
  ∃ r n, parts_insert prt data len start recs = Ok (0, set_rec prt r n) ∧ parts_ok (set_rec prt r n) ∧
    parts_used (set_rec prt r n) = parts_used prt ++ [new_part data len start recs].
Proof.
  intros [Hl Hs]. unfold parts_insert. rewrite Hl.
  set (prt1 := parts_check_size prt).
  assert (rec_size prt1 = rec_size prt ∧ (rec_size prt < length (rec prt1))%nat ∧
          take (rec_size prt) (rec prt1) = parts_used prt) as (E1 & E2 & E3).
  { unfold prt1, parts_check_size, parts_used. case_decide; cbn [set_rec rec rec_size]; [done|].
    rewrite length_app, length_replicate. split; [done|]. split; [lia|]. by rewrite take_app_le by lia. }
  rewrite decide_False by lia. rewrite E1.
  exists (<[rec_size prt := new_part data len start recs]> (rec prt1)), (S (rec_size prt)). split; [|split].
  - do 2 f_equal. unfold prt1, parts_check_size. by case_decide.
  - constructor; cbn [set_rec rec rec_size insert_lock]; [done|]. rewrite length_insert. lia.
  - unfold parts_used at 1. cbn [set_rec rec rec_size]. rewrite <-E3.
    erewrite take_S_r by (apply list_lookup_insert_eq; lia). by rewrite take_insert_ge by lia.
Qed.

(** *** The octets of parts *)

Definition part_reads (arr : aux_array) (p : part) (x : bytes) : Prop :=
  blen x = iov_len (p_fld p) ∧
  match iov_base (p_fld p) with
  | IovHeader i => arr_data arr !! i = Some (Some x)
  | IovData m => ∃ rest, m = x ++ rest
  | _ => False
  end.

(** The elements of the array of headers that parts point to. *)
Definition header_of (p : part) : option nat :=
  match iov_base (p_fld p) with IovHeader i => Some i | _ => None end.
Definition headers_of (ps : list part) : list nat := omap header_of ps.

Lemma headers_of_app l r : headers_of (l ++ r) = headers_of l ++ headers_of r.
Proof. apply omap_app. Qed.
Lemma headers_of_cons p ps : headers_of (p :: ps) = headers_of [p] ++ headers_of ps.
Proof. apply (headers_of_app [p] ps). Qed.

(** The arrays agree on the elements in [js]. *)
Definition same_headers (arr arr' : aux_array) (js : list nat) : Prop :=
  ∀ i, i ∈ js → arr_data arr' !! i = arr_data arr !! i.

Lemma part_reads_same arr arr' p x : same_headers arr arr' (headers_of [p]) → part_reads arr p x → part_reads arr' p x.
Proof.
  unfold part_reads, headers_of. cbn [omap list_omap]. unfold header_of. intros Hs [Hl Hr]. split; [done|].
  destruct (iov_base (p_fld p)) as [| |i|m]; try done. by rewrite Hs by constructor.
Qed.

Lemma parts_read_same arr arr' ps xs : same_headers arr arr' (headers_of ps) →
  Forall2 (part_reads arr) ps xs → Forall2 (part_reads arr') ps xs.
Proof.
  intros Hs H. induction H as [|p x ps xs Hp Hps IH]; [constructor|].
  rewrite headers_of_cons in Hs. constructor.
  - eapply part_reads_same; [|exact Hp]. intros i Hi. apply Hs. apply elem_of_app. by left.
  - apply IH. intros i Hi. apply Hs. apply elem_of_app. by right.
Qed.

Definition recs_of (ps : list part) : Z := foldr (λ p n, p_cnt p + n) 0 ps.
Definition lens_of (ps : list part) : Z := foldr (λ p n, iov_len (p_fld p) + n) 0 ps.

Lemma recs_of_app l r : recs_of (l ++ r) = recs_of l + recs_of r.
Proof. induction l as [|p l IH]; [done|]. cbn [recs_of foldr app] in *. unfold recs_of in *. lia. Qed.
Lemma lens_of_app l r : lens_of (l ++ r) = lens_of l + lens_of r.
Proof. induction l as [|p l IH]; [done|]. cbn [lens_of foldr app] in *. unfold lens_of in *. lia. Qed.

Lemma lens_of_read arr ps xs : Forall2 (part_reads arr) ps xs → lens_of ps = blen (mjoin xs).
Proof.
  induction 1 as [|p x ps xs [Hp _] _ IH]; [done|]. cbn [lens_of foldr]. fold (lens_of ps).
  rewrite mjoin_cons, blen_app. lia.
Qed.

(** The parts [g] are the set [s]. *)
Record group (arr : aux_array) (g : list part) (s : out_set) : Prop := {
  gr_head : ∃ p ps, g = p :: ps ∧ p_set_start p = true ∧ Forall (λ p, p_set_start p = false) ps;
  gr_octets : ∃ xs, Forall2 (part_reads arr) g xs ∧ mjoin xs = enc_set (os_set s);
  gr_recs : recs_of g = os_recs s
}.

Lemma group_same arr arr' g s : same_headers arr arr' (headers_of g) → group arr g s → group arr' g s.
Proof.
  intros Hs [Hh (xs & Hx & Ex) Hr]. constructor; [done| |done]. exists xs. split; [|done]. by eapply parts_read_same.
Qed.

Lemma groups_same arr arr' gs ss : same_headers arr arr' (headers_of (mjoin gs)) →
  Forall2 (group arr) gs ss → Forall2 (group arr') gs ss.
Proof.
  intros Hs H. induction H as [|g s gs ss Hg Hgs IH]; [constructor|].
  rewrite mjoin_cons, headers_of_app in Hs. constructor.
  - eapply group_same; [|exact Hg]. intros i Hi. apply Hs. apply elem_of_app. by left.
  - apply IH. intros i Hi. apply Hs. apply elem_of_app. by right.
Qed.

(** *** The builder while parts are added *)

(** The header of the last set of templates is the first of its parts. *)
Definition last_header_is (h : option nat) (g : list part) : Prop :=
  ∃ i p ps, g = p :: ps ∧ p_fld p = set_iov (IovHeader i) HEADER_SIZE ∧ h = Some i.

Section adding.
Context (hdr : packet_header).

Record bldr_rep (b : fwd_bldr) (gs : list (list part)) (ss : list out_set) : Prop := {
  br_parts : parts_ok (part_all b);
  br_arr : arr_ok (headers b);
  br_used : ∃ p0, parts_used (part_all b) = p0 :: mjoin gs;
  br_groups : Forall2 (group (headers b)) gs ss;
  br_nodup : NoDup (headers_of (mjoin gs));
  br_bound : Forall (λ i, (i < arr_size (headers b))%nat) (headers_of (mjoin gs));
  br_type : last_set_type (part_all b) = match last ss with Some s => os_kind s | None => FST_NONE end;
  br_header : ∀ s g, last ss = Some s → last gs = Some g → os_kind s ≠ FST_DATA →
    last_header_is (last_set_header (part_all b)) g;
  br_pkts : pkt_size (part_all b) = 0%nat ∧ (0 < length (pkt_arr (part_all b)))%nat;
  br_bheader : bldr_header b = hdr
}.

(** *** One more set *)

(** The array of headers grew: elements in use are as they were. *)
Definition grown (arr arr' : aux_array) : Prop :=
  arr_ok arr' ∧ (arr_size arr ≤ arr_size arr')%nat ∧ ∀ i, (i < arr_size arr)%nat → arr_data arr' !! i = arr_data arr !! i.

Lemma grown_refl arr : arr_ok arr → grown arr arr.
Proof. by repeat split; try apply H. Qed.

Lemma grown_trans a b c : grown a b → grown b c → grown a c.
Proof.
  intros (H1 & H2 & H3) (H4 & H5 & H6). split; [done|]. split; [lia|].
  intros i Hi. rewrite H6 by lia. by apply H3.
Qed.

(** The parts in front keep their sets; the last ones are the set [s']. *)
Lemma rep_change b b' gs0 gs ss0 ss g' s' :
  bldr_rep b (gs0 ++ gs) (ss0 ++ ss) → length gs0 = length ss0 →
  parts_ok (part_all b') → arr_ok (headers b') →
  (∃ p0, parts_used (part_all b') = p0 :: mjoin gs0 ++ g') →
  same_headers (headers b) (headers b') (headers_of (mjoin gs0)) → (arr_size (headers b) ≤ arr_size (headers b'))%nat →
  group (headers b') g' s' → NoDup (headers_of (mjoin gs0 ++ g')) →
  Forall (λ i, (i < arr_size (headers b'))%nat) (headers_of g') →
  last_set_type (part_all b') = os_kind s' →
  (os_kind s' ≠ FST_DATA → last_header_is (last_set_header (part_all b')) g') →
  pkt_size (part_all b') = 0%nat ∧ (0 < length (pkt_arr (part_all b')))%nat →
  bldr_header b' = hdr →
  bldr_rep b' (gs0 ++ [g']) (ss0 ++ [s']).
Proof.
  intros Hrep Hlen Hp Ha [p0 Hu] Hs Hsz Hg Hnd Hb Ht Hh Hk Hv.
  constructor; rewrite ?mjoin_snoc; try done.
  - by exists p0.
  - apply Forall2_app; [|by constructor]. eapply groups_same; [exact Hs|].
    pose proof (br_groups _ _ _ Hrep) as Hall. by apply (Forall2_app_inv _ _ _ _ _ Hlen) in Hall as [? _].
  - rewrite headers_of_app. apply Forall_app. split; [|done].
    pose proof (br_bound _ _ _ Hrep) as Hall. rewrite join_app, headers_of_app in Hall. apply Forall_app in Hall as [Hall _].
    eapply Forall_impl; [exact Hall|]. cbn. lia.
  - by rewrite last_snoc.
  - intros s g. rewrite !last_snoc. intros [= <-] [= <-]. done.
Qed.

Lemma bldr_insert_spec b data len start recs k : parts_ok (part_all b) →
  ∃ r n, let p1 := set_rec (part_all b) r n in
    bldr_insert b data len start recs k = k (set_parts b p1) ∧ parts_ok p1 ∧
    parts_used p1 = parts_used (part_all b) ++ [new_part data len start recs].
Proof.
  intros Hok. unfold bldr_insert. destruct (parts_insert_spec _ data len start recs Hok) as (r & n & E & H1 & H2).
  exists r, n. rewrite E, res_bind_ret. by rewrite decide_False by (intros ?; done).
Qed.

Lemma same_headers_grown arr arr' js : grown arr arr' → Forall (λ i, (i < arr_size arr)%nat) js → same_headers arr arr' js.
Proof. intros (_ & _ & H) Hjs i Hi. apply H. by eapply Forall_forall in Hjs. Qed.

(** A group behind the others that uses new headers only. *)
Lemma rep_snoc b b' gs ss g s :
  bldr_rep b gs ss → parts_ok (part_all b') → grown (headers b) (headers b') →
  parts_used (part_all b') = parts_used (part_all b) ++ g → group (headers b') g s →
  NoDup (headers_of g) → Forall (λ i, (arr_size (headers b) ≤ i < arr_size (headers b'))%nat) (headers_of g) →
  last_set_type (part_all b') = os_kind s →
  (os_kind s ≠ FST_DATA → last_header_is (last_set_header (part_all b')) g) →
  pkt_size (part_all b') = pkt_size (part_all b) → pkt_arr (part_all b') = pkt_arr (part_all b) →
  bldr_header b' = bldr_header b →
  bldr_rep b' (gs ++ [g]) (ss ++ [s]).
Proof.
  intros Hrep Hp Hgr Hu Hg Hnd Hb Ht Hh Hk1 Hk2 Hv. pose proof Hrep as [_ _ [p0 Hu0] Hgs Hnd0 Hb0 _ _ Hk Hv0].
  apply (rep_change b b' gs [] ss [] g s); rewrite ?app_nil_r; try done.
  - by eapply Forall2_length.
  - apply Hgr.
  - exists p0. by rewrite Hu, Hu0.
  - by apply same_headers_grown.
  - apply Hgr.
  - rewrite headers_of_app. apply NoDup_app. split_and!; [done| |done].
    intros i Hi Hi'. eapply Forall_forall in Hb0; [|exact Hi]. eapply Forall_forall in Hb; [|exact Hi']. cbn in *. lia.
  - eapply Forall_impl; [exact Hb|]. cbn. lia.
  - by rewrite Hk1, Hk2.
  - by rewrite Hv.
Qed.

Lemma rd16_set_header (w : wire_set) rest : is_u16 w.1 → 4 + blen w.2 < 65536 →
  rd16 (enc_set w ++ rest) 0 = Ok w.1 ∧ rd16 (enc_set w ++ rest) 2 = Ok (4 + blen w.2).
Proof.
  intros Hid Hlen. unfold enc_set. rewrite <-!app_assoc. split; [by apply rd16_enc16|].
  change 2 with (blen (enc16 w.1)). apply rd16_here. unfold is_u16. pose proof (blen_nonneg w.2). lia.
Qed.

Lemma bldr_add_dataset_spec b gs ss sid body rest new_id recs :
  bldr_rep b gs ss → op_ok (AddDataset sid body rest new_id recs) →
  ∃ b' g, bldr_add_dataset b (enc_set (sid, body) ++ rest) new_id recs = Ok (0, b') ∧
    bldr_rep b' (gs ++ [g]) (spec_op ss (AddDataset sid body rest new_id recs)).
Proof.
  intros Hrep (Hsid & Hnew & Hlen & Hrecs). pose proof Hrep as [Hp Ha _ _ _ _ _ _ _ _]. pose proof (blen_nonneg body).
  unfold bldr_add_dataset. destruct (rd16_set_header (sid, body) rest Hsid Hlen) as [-> ->]. rewrite !res_bind_ret. cbn [fst snd].
  set (b0 := set_parts b (set_last_set (part_all b) FST_DATA None)).
  assert (parts_ok (part_all b0)) as Hp0 by (destruct Hp; by constructor).
  case_decide as Hid.
  - destruct (new_header_spec (headers b0) (enc16 new_id ++ enc16 (4 + blen body)) Ha) as (arr1 & E & Ha2 & Hsz & Hnew' & Hold).
    rewrite E, res_bind_ret. cbv beta iota.
    match goal with |- context [ set_headers b0 ?a ] => set (arr2 := a) in *; set (b1 := set_headers b0 a) end.
    edestruct (bldr_insert_spec b1 (IovHeader (arr_size (headers b0))) HEADER_SIZE true 0) as (r1 & n1 & -> & Hp1 & Hu1); [exact Hp0|].
    match goal with |- context [ bldr_insert ?b2 _ _ _ _ _ ] => set (b2' := b2) end.
    edestruct (bldr_insert_spec b2' (IovData (drop 4 (enc_set (sid, body) ++ rest))) (u16 (4 + blen body - HEADER_SIZE)) false recs)
      as (r2 & n2 & -> & Hp2 & Hu2); [exact Hp1|].
    eexists _, [_; _]. split; [done|].
    apply (rep_snoc b); try done.
    + split; [exact Ha2|]. split; [change (arr_size (headers b0) ≤ arr_size arr2)%nat; lia|exact Hold].
    + cbn [part_all set_parts]. rewrite Hu2. cbn [b2' part_all set_parts]. rewrite Hu1, <-app_assoc. done.
    + cbn [headers set_parts set_headers]. unfold HEADER_SIZE. rewrite u16_small by lia.
      replace (4 + blen body - 4) with (blen body) by lia. constructor.
      * eexists _, _. split; [done|]. split; [done|]. by repeat constructor.
      * exists [enc16 new_id ++ enc16 (4 + blen body); body]. split.
        -- constructor; [split; [done|exact Hnew']|]. constructor; [|constructor]. split; [done|].
           exists rest. unfold enc_set. cbn [fst snd]. by rewrite <-!app_assoc.
        -- unfold enc_set. cbn [os_set fst snd mjoin list_join]. by rewrite app_nil_r, <-app_assoc.
      * cbn. lia.
    + apply NoDup_singleton.
    + constructor; [|constructor]. change (arr_size (headers b0) ≤ arr_size (headers b0) < arr_size arr2)%nat. lia.
  - subst new_id.
    edestruct (bldr_insert_spec b0 (IovData (enc_set (sid, body) ++ rest)) (4 + blen body) true recs) as (r1 & n1 & -> & Hp1 & Hu1);
      [exact Hp0|].
    eexists _, [_]. split; [done|].
    apply (rep_snoc b); try done.
    + constructor.
      * eexists _, _. split; [done|]. split; [done|]. constructor.
      * exists [enc_set (sid, body)]. split; [|by cbn; rewrite app_nil_r]. constructor; [|constructor]. split.
        -- by rewrite blen_enc_set.
        -- by exists rest.
      * cbn. lia.
    + constructor.
Qed.

(** *** Sets of templates *)

Lemma set_type_of_template type w : set_type_of type w ≠ FST_DATA ∧ set_type_of type w ≠ FST_NONE.
Proof. unfold set_type_of. by destruct w; case_decide. Qed.

(** The last set, when it is one of templates: its header and its records. *)
Lemma last_set_spec b gs ss s : bldr_rep b gs (ss ++ [s]) → os_kind s ≠ FST_DATA → is_u16 (os_set s).1 →
  ∃ gs0 p ps i xs, gs = gs0 ++ [p :: ps] ∧ p_set_start p = true ∧ Forall (λ p, p_set_start p = false) ps ∧
    p_fld p = set_iov (IovHeader i) HEADER_SIZE ∧ last_set_header (part_all b) = Some i ∧
    arr_data (headers b) !! i = Some (Some (enc16 (os_set s).1 ++ enc16 (4 + blen (os_set s).2))) ∧
    Forall2 (part_reads (headers b)) ps xs ∧ mjoin xs = (os_set s).2 ∧ recs_of (p :: ps) = os_recs s.
Proof.
  intros Hrep Hk Hid. pose proof Hrep as [_ _ _ Hgs _ _ _ Hh _ _].
  apply Forall2_app_inv_r in Hgs as (gs0 & g1 & _ & Hg & ->). apply Forall2_cons_inv_r in Hg as (g & g2 & Hg & Hnil & ->).
  apply Forall2_nil_inv_r in Hnil as ->.
  destruct (Hh s g) as (i & p & ps & -> & Hp & Hi); [by rewrite last_snoc..|done|].
  destruct Hg as [(p' & ps' & [= <- <-] & Hs & Hps) (xs & Hx & Ex) Hr].
  apply Forall2_cons_inv_l in Hx as (x & xs' & [Hl Hx] & Hxs & ->). rewrite Hp in Hl, Hx. cbn in Hl, Hx.
  rewrite mjoin_cons in Ex. unfold enc_set in Ex. rewrite app_assoc in Ex.
  apply app_inj_1 in Ex as [-> Exs]; [|apply Nat2Z.inj; exact Hl].
  by exists gs0, p, ps, i, xs'.
Qed.

Lemma arr_get_Some arr i x : arr_data arr !! i = Some (Some x) → arr_get arr i = Ok x.
Proof. intros E. unfold arr_get. by rewrite E. Qed.

Lemma bldr_aux_insert_set_header_spec b gs ss type w : bldr_rep b gs ss → is_template_type type →
  ∃ b' g, bldr_aux_insert_set_header b type w = Ok (0, b') ∧ bldr_rep b' (gs ++ [g]) (ss ++ [new_set type w]).
Proof.
  intros Hrep Htype. pose proof Hrep as [Hp Ha _ _ _ _ _ _ _ _]. unfold bldr_aux_insert_set_header.
  rewrite (Is_true_true_1 _ Htype). cbn [negb].
  destruct (new_header_spec (headers b) (enc16 (set_id_of type) ++ enc16 HEADER_SIZE) Ha) as (arr1 & E & Ha2 & Hsz & Hnew & Hold).
  rewrite E, res_bind_ret. cbv beta iota.
  match goal with |- context [ set_headers b ?a ] => set (arr2 := a) in *; set (b1 := set_headers b a) end.
  edestruct (bldr_insert_spec b1 (IovHeader (arr_size (headers b))) HEADER_SIZE true 0) as (r1 & n1 & -> & Hp1 & Hu1); [exact Hp|].
  eexists _, [_]. split; [done|].
  apply (rep_snoc b); try done.
  - by destruct Hp1.
  - split; [exact Ha2|]. split; [change (arr_size (headers b) ≤ arr_size arr2)%nat; lia|exact Hold].
  - constructor.
    + eexists _, _. split; [done|]. split; [done|]. constructor.
    + exists [enc16 (set_id_of type) ++ enc16 HEADER_SIZE]. split; [|done]. constructor; [|constructor]. by split.
    + done.
  - apply NoDup_singleton.
  - constructor; [|constructor]. change (arr_size (headers b) ≤ arr_size (headers b) < arr_size arr2)%nat. lia.
  - intros _. by eexists _, _, _.
Qed.

(** The sets are short enough for the length in their headers. *)
Definition set_fits (s : out_set) : Prop := is_u16 (os_set s).1 ∧ 4 + blen (os_set s).2 < 65536.

Lemma bldr_open_set_spec b gs ss size type w :
  bldr_rep b gs ss → Forall set_fits ss → is_template_type type →
  ∃ b' gs' ss0 s, bldr_open_set b size type w = Ok (0, b') ∧ bldr_rep b' gs' (ss0 ++ [s]) ∧
    ((ss = ss0 ++ [s] ∧ has_room s size type w) ∨
     (ss = ss0 ∧ s = new_set type w ∧ ∀ s', last ss = Some s' → ¬ has_room s' size type w)).
Proof.
  intros Hrep Hfit Htype. destruct (bldr_aux_insert_set_header_spec b gs ss type w Hrep Htype) as (b' & g & Enew & Hnew).
  unfold bldr_open_set. pose proof Hrep as [_ _ _ _ _ _ Ht _ _ _]. rewrite Ht.
  destruct (last ss) as [s|] eqn:Hlast.
  - apply last_Some in Hlast as [ss0 ->]. apply Forall_app in Hfit as [_ [ [Hid Hlen] _]%Forall_cons].
    pose proof (blen_nonneg (os_set s).2).
    case_decide as Hk.
    + destruct (last_set_spec b gs ss0 s Hrep) as (gs0 & p & ps & i & xs & _ & _ & _ & _ & Hi & Hblock & _);
        [rewrite Hk; apply set_type_of_template|done|].
      unfold last_set_length. rewrite Hi. cbn [or_fault]. rewrite res_bind_ret, (arr_get_Some _ _ _ Hblock), res_bind_ret.
      assert (rd16 (enc16 (os_set s).1 ++ enc16 (4 + blen (os_set s).2)) 2 = Ok (4 + blen (os_set s).2)) as ->.
      { change 2 with (blen (enc16 (os_set s).1)). rewrite <-(app_nil_r (enc16 (4 + _))). apply rd16_here. unfold is_u16. lia. }
      rewrite res_bind_ret. case_decide as Hroom.
      * rewrite Enew. exists b', (gs ++ [g]), (ss0 ++ [s]), (new_set type w). split; [done|]. split; [done|]. right.
        split; [done|]. split; [done|]. intros s' [= <-] [_ Hr]. lia.
      * exists b, gs, ss0, s. split; [done|]. split; [done|]. left. split; [done|]. split; [done|lia].
    + rewrite Enew. exists b', (gs ++ [g]), (ss0 ++ [s]), (new_set type w). split; [done|]. split; [done|]. right.
      split; [done|]. split; [done|]. by intros s' [= <-] [Hk' _].
  - rewrite decide_False by (destruct (set_type_of_template type w); congruence).
    rewrite Enew. exists b', (gs ++ [g]), ss, (new_set type w). split; [done|]. split; [done|]. by right.
Qed.

Lemma part_reads_grown arr arr' ps xs : grown arr arr' → Forall (λ i, (i < arr_size arr)%nat) (headers_of ps) →
  Forall2 (part_reads arr) ps xs → Forall2 (part_reads arr') ps xs.
Proof. intros Hg Hb. apply parts_read_same. by apply same_headers_grown. Qed.

(** The parts of a record are behind the last set, whose header gets its length. *)
Lemma close_record b b2 gs ss0 s ps xs :
  bldr_rep b gs (ss0 ++ [s]) → os_kind s ≠ FST_DATA → is_u16 (os_set s).1 →
  4 + blen (os_set s).2 + blen (mjoin xs) < 65536 →
  parts_ok (part_all b2) → grown (headers b) (headers b2) → parts_used (part_all b2) = parts_used (part_all b) ++ ps →
  Forall (λ p, p_set_start p = false) ps → Forall2 (part_reads (headers b2)) ps xs → recs_of ps = 0 →
  NoDup (headers_of ps) → Forall (λ i, (arr_size (headers b) ≤ i < arr_size (headers b2))%nat) (headers_of ps) →
  last_set_type (part_all b2) = last_set_type (part_all b) → last_set_header (part_all b2) = last_set_header (part_all b) →
  pkt_size (part_all b2) = pkt_size (part_all b) → pkt_arr (part_all b2) = pkt_arr (part_all b) →
  bldr_header b2 = bldr_header b →
  ∃ b3 gs', set_last_set_length b2 (blen (mjoin xs)) = Ok b3 ∧ bldr_rep b3 gs' (ss0 ++ [extend_set s (mjoin xs)]).
Proof.
  intros Hrep Hk Hid Hlen Hp2 Hgr Hu2 Hstart Hreads Hrecs Hnd Hnew Ht2 Hh2 Hk2 Ha2 Hv2.
  pose proof (blen_nonneg (os_set s).2). pose proof (blen_nonneg (mjoin xs)).
  destruct (last_set_spec b gs ss0 s Hrep Hk Hid) as (gs0 & p & ps0 & i & xs0 & -> & Hsp & Hs0 & Hfld & Hi & Hblock & Hx0 & Ex0 & Hr).
  pose proof Hrep as [_ _ [p0 Hu] Hgs Hnd0 Hb0 Ht _ Hpk Hv].
  rewrite mjoin_snoc in Hu, Hnd0, Hb0. rewrite headers_of_app, headers_of_cons in Hnd0, Hb0.
  assert (headers_of [p] = [i]) as Ehi by (unfold headers_of; cbn; unfold header_of; by rewrite Hfld).
  rewrite Ehi in Hnd0, Hb0. apply Forall_app in Hb0 as [Hbgs [Hbi Hbps]%Forall_app]. apply Forall_cons in Hbi as [Hbi _].
  set (arr3 := arr_set (headers b2) i (enc16 (os_set s).1 ++ enc16 (4 + blen (os_set s).2 + blen (mjoin xs)))).
  assert (set_last_set_length b2 (blen (mjoin xs)) = Ok (set_headers b2 arr3)) as E.
  { unfold set_last_set_length. rewrite Hh2, Hi. cbn [or_fault]. rewrite res_bind_ret.
    pose proof (proj2 (proj2 Hgr) i Hbi) as Hsame. rewrite Hblock in Hsame. rewrite (arr_get_Some _ _ _ Hsame), res_bind_ret.
    change 2 with (blen (enc16 (os_set s).1)) at 1 2. rewrite <-(app_nil_r (enc16 (4 + _))) at 1.
    rewrite rd16_here, res_bind_ret by (unfold is_u16; lia). rewrite <-(app_nil_r (enc16 (4 + _))) at 1.
    rewrite wr16_over, res_bind_ret by done. rewrite app_nil_r, u16_small by lia. done. }
  assert (∀ js, i ∉ js → same_headers (headers b2) arr3 js) as Hother.
  { intros js Hjs j Hj. unfold arr3, arr_set. cbn [arr_data]. apply list_lookup_insert_ne. intros ->. done. }
  apply NoDup_app in Hnd0 as (Hndgs & Hdis & [Hip Hndps]%NoDup_cons).
  assert (Forall (λ j, (j < arr_size (headers b))%nat) (headers_of (mjoin gs0))) as Hbgs' by exact Hbgs.
  exists (set_headers b2 arr3), (gs0 ++ [p :: ps0 ++ ps]). split; [exact E|].
  assert (i ∉ headers_of ps) as Hips.
  { intros Hin. eapply Forall_forall in Hnew; [|exact Hin]. cbn in Hnew. lia. }
  apply (rep_change b (set_headers b2 arr3) gs0 [p :: ps0] ss0 [s] (p :: ps0 ++ ps) (extend_set s (mjoin xs))); try done.
  - apply Forall2_length in Hgs. rewrite !length_app in Hgs. cbn in Hgs. lia.
  - destruct Hgr as ([? ? ?] & _). constructor; cbn; rewrite ?length_insert; done.
  - exists p0. cbn [part_all set_headers]. rewrite Hu2, Hu. cbn [app]. by rewrite <-app_assoc.
  - intros j Hj. cbn [headers set_headers]. rewrite Hother with (js := headers_of (mjoin gs0)); [|set_solver|done].
    apply Hgr. by eapply Forall_forall in Hbgs'.
  - apply Hgr.
  - constructor.
    + exists p, (ps0 ++ ps). split; [done|]. split; [done|]. by apply Forall_app.
    + exists ((enc16 (os_set s).1 ++ enc16 (4 + blen (os_set s).2 + blen (mjoin xs))) :: xs0 ++ xs). split.
      * constructor; [|apply Forall2_app].
        -- split; rewrite Hfld; [done|]. cbn [iov_base set_iov headers set_headers]. unfold arr3, arr_set. cbn [arr_data].
           apply list_lookup_insert_eq. destruct Hgr as ([_ ? _] & ? & _). lia.
        -- cbn [headers set_headers]. eapply parts_read_same; [by apply Hother|].
           by eapply part_reads_grown; [exact Hgr|exact Hbps|].
        -- cbn [headers set_headers]. by eapply parts_read_same; [by apply Hother|].
      * unfold enc_set. cbn [extend_set os_set fst snd]. rewrite mjoin_cons, join_app, Ex0, blen_app, <-!app_assoc.
        do 3 f_equal. lia.
    + change (p :: ps0 ++ ps) with ((p :: ps0) ++ ps). rewrite recs_of_app, Hrecs, Hr. cbn. lia.
  - rewrite headers_of_app. cbn [app]. rewrite headers_of_cons, headers_of_app, Ehi.
    apply NoDup_app. split_and!; [done| |].
    + intros j Hj [Hj'|Hj']%elem_of_app; [set_solver|]. apply elem_of_app in Hj' as [Hj'|Hj']; [set_solver|].
      eapply Forall_forall in Hbgs'; [|exact Hj]. eapply Forall_forall in Hnew; [|exact Hj']. cbn in *. lia.
    + constructor; [by rewrite not_elem_of_app|]. apply NoDup_app. split_and!; [done| |done].
      intros j Hj Hj'. eapply Forall_forall in Hbps; [|exact Hj]. eapply Forall_forall in Hnew; [|exact Hj']. cbn in *. lia.
  - cbn [app]. rewrite headers_of_cons, headers_of_app, Ehi. change (arr_size (headers (set_headers b2 arr3))) with (arr_size (headers b2)).
    destruct Hgr as (_ & Hsz & _). apply Forall_app. split; [by constructor; [lia|constructor]|]. apply Forall_app. split.
    + eapply Forall_impl; [exact Hbps|]. cbn. lia.
    + eapply Forall_impl; [exact Hnew|]. cbn. lia.
  - cbn [part_all set_headers]. rewrite Ht2, Ht, last_snoc. done.
  - intros _. exists i, p, (ps0 ++ ps). cbn [part_all set_headers]. by rewrite Hh2.
  - cbn [part_all set_headers]. by rewrite Hk2, Ha2.
  - cbn [bldr_header set_headers]. by rewrite Hv2.
Qed.

(** What [spec_record] does with the set that [bldr_open_set] finds. *)
Lemma spec_record_open ss ss0 s r type w :
  (ss = ss0 ++ [s] ∧ has_room s (blen r) type w) ∨
  (ss = ss0 ∧ s = new_set type w ∧ ∀ s', last ss = Some s' → ¬ has_room s' (blen r) type w) →
  spec_record ss r type w = ss0 ++ [extend_set s r].
Proof.
  unfold spec_record. intros [ [-> Hroom]|(-> & -> & Hno)].
  - rewrite last_snoc, decide_True by done. by rewrite removelast_last.
  - destruct (last ss0) as [s'|] eqn:E; [by rewrite decide_False by (by apply Hno)|].
    by apply last_None in E as ->.
Qed.

(** The open set has the type of the record and room for it. *)
Lemma open_set_fits ss ss0 s n type w : Forall set_fits ss → is_template_type type → 0 ≤ n → 4 + n < 65536 →
  (ss = ss0 ++ [s] ∧ has_room s n type w) ∨
  (ss = ss0 ∧ s = new_set type w ∧ ∀ s', last ss = Some s' → ¬ has_room s' n type w) →
  Forall set_fits ss0 ∧ os_kind s ≠ FST_DATA ∧ is_u16 (os_set s).1 ∧ 4 + blen (os_set s).2 + n < 65536.
Proof.
  intros Hfit Htype Hn Hlen [ [-> [Hk Hroom] ]|(-> & -> & _)].
  - apply Forall_app in Hfit as [Hfit [ [Hid _] _]%Forall_cons]. split; [done|]. rewrite Hk.
    split; [apply set_type_of_template|]. split; [done|]. unfold TMPLT_SET_MAX_LEN in Hroom. lia.
  - split; [done|]. split; [apply set_type_of_template|]. cbn [new_set os_set fst snd]. unfold set_id_of.
    split; [by case_decide|]. change (blen []) with 0. lia.
Qed.

Section add.
Context (b : fwd_bldr) (gs : list (list part)) (ss : list out_set).
Context (Hrep : bldr_rep b gs ss) (Hfit : Forall set_fits ss).

Lemma bldr_add_template_withdrawal_spec id type : op_ok (AddWithdrawal id type) →
  ∃ b' gs', bldr_add_template_withdrawal b id type = Ok (0, b') ∧ bldr_rep b' gs' (spec_op ss (AddWithdrawal id type)) ∧
    Forall set_fits (spec_op ss (AddWithdrawal id type)).
Proof.
  intros [Hid Htype]. unfold bldr_add_template_withdrawal. rewrite (Is_true_true_1 _ Htype). cbn [negb spec_op].
  destruct (bldr_open_set_spec b gs ss HEADER_SIZE type true Hrep Hfit Htype) as (b1 & gs1 & ss0 & s & -> & Hrep1 & Hcase).
  rewrite res_bind_ret. rewrite decide_False by (intros ?; done).
  destruct (open_set_fits ss ss0 s HEADER_SIZE type true Hfit Htype) as (Hfit0 & Hk & Hsid & Hlen); [done..|].
  set (r := enc16 id ++ enc16 0).
  rewrite (spec_record_open ss ss0 s r type true Hcase).
  pose proof Hrep1 as [Hp1 Ha1 _ _ _ _ _ _ _ _].
  destruct (new_header_spec (headers b1) r Ha1) as (arr1 & E & Ha2 & Hsz & Hnew & Hold).
  rewrite E, res_bind_ret. cbv beta iota. fold r.
  match goal with |- context [ set_headers b1 ?a ] => set (arr2 := a) in *; set (b2 := set_headers b1 a) end.
  edestruct (bldr_insert_spec b2 (IovHeader (arr_size (headers b1))) HEADER_SIZE false 0) as (r2 & n2 & -> & Hp2 & Hu2); [exact Hp1|].
  set (b3 := set_parts b2 _).
  destruct (close_record b1 b3 gs1 ss0 s [new_part (IovHeader (arr_size (headers b1))) HEADER_SIZE false 0] [r])
    as (b4 & gs' & E4 & Hrep4); try done.
  - split; [exact Ha2|]. split; [change (arr_size (headers b1) ≤ arr_size arr2)%nat; lia|exact Hold].
  - by repeat constructor.
  - constructor; [|constructor]. by split.
  - apply NoDup_singleton.
  - constructor; [|constructor]. change (arr_size (headers b1) ≤ arr_size (headers b1) < arr_size arr2)%nat. lia.
  - change (blen (mjoin [r])) with HEADER_SIZE in E4. change (mjoin [r]) with r in Hrep4.
    rewrite E4, res_bind_ret. exists b4, gs'. split; [done|]. split; [done|].
    apply Forall_app. split; [done|]. repeat constructor; cbn [extend_set os_set fst snd]; [apply Hsid..|].
    rewrite blen_app. change (blen r) with HEADER_SIZE. lia.
Qed.

Lemma bldr_add_template_spec tid fields rest new_id type : op_ok (AddTemplate tid fields rest new_id type) →
  ∃ b' gs', bldr_add_template b (enc16 tid ++ fields ++ rest) (2 + blen fields) new_id type = Ok (0, b') ∧
    bldr_rep b' gs' (spec_op ss (AddTemplate tid fields rest new_id type)) ∧
    Forall set_fits (spec_op ss (AddTemplate tid fields rest new_id type)).
Proof.
  intros (Htid & Hnew & Hf2 & Hflen & Htype). unfold bldr_add_template. rewrite (Is_true_true_1 _ Htype). cbn [negb spec_op].
  set (size := 2 + blen fields) in *.
  destruct (bldr_open_set_spec b gs ss size type false Hrep Hfit Htype) as (b1 & gs1 & ss0 & s & -> & Hrep1 & Hcase).
  rewrite res_bind_ret. rewrite decide_False by (intros ?; done).
  destruct (open_set_fits ss ss0 s size type false Hfit Htype) as (Hfit0 & Hk & Hsid & Hlen); [unfold size; lia..|done|].
  set (r := enc16 new_id ++ fields). assert (blen r = size) as Hr by (unfold r; rewrite blen_app; done).
  assert (spec_record ss r type false = ss0 ++ [extend_set s r]) as -> by (apply spec_record_open; by rewrite Hr).
  assert (Forall set_fits (ss0 ++ [extend_set s r])) as Hfit'.
  { apply Forall_app. split; [done|]. repeat constructor; cbn [extend_set os_set fst snd]; [apply Hsid..|].
    rewrite blen_app. lia. }
  rewrite rd16_enc16, res_bind_ret by done. pose proof Hrep1 as [Hp1 Ha1 _ _ _ _ _ _ _ _].
  case_decide as Hid.
  - destruct (blen_split fields 2) as (count & body & -> & Hcount & Hbody); [lia|].
    destruct (new_header_spec (headers b1) (enc16 new_id ++ count) Ha1) as (arr1 & E & Ha2 & Hsz & Hnewh & Hold).
    rewrite E, res_bind_ret. cbv beta iota.
    assert (rdn (enc16 tid ++ (count ++ body) ++ rest) 2 2 = Ok count) as ->.
    { rewrite <-Hcount at 2. change 2 with (blen (enc16 tid)). rewrite <-(app_assoc count). apply rdn_here. }
    rewrite res_bind_ret.
    match goal with |- context [ set_headers b1 ?a ] => set (arr2 := a) in *; set (b2 := set_headers b1 a) end.
    edestruct (bldr_insert_spec b2 (IovHeader (arr_size (headers b1))) HEADER_SIZE false 0) as (r2 & n2 & -> & Hp2 & Hu2); [exact Hp1|].
    match goal with |- context [ bldr_insert ?x _ _ _ _ _ ] => set (b3 := x) end.
    edestruct (bldr_insert_spec b3 (IovData (drop 4 (enc16 tid ++ (count ++ body) ++ rest))) (u64 (size - HEADER_SIZE)) false 0)
      as (r3 & n3 & -> & Hp3 & Hu3); [exact Hp2|].
    set (b4 := set_parts b3 _).
    pose proof (blen_nonneg body). assert (size = 4 + blen body) as Hsz' by (unfold size; rewrite blen_app; lia).
    assert (u64 (size - HEADER_SIZE) = blen body) as Hsize by (rewrite Hsz'; unfold HEADER_SIZE, u64; rewrite Z.mod_small; lia).
    destruct (blen_2 count Hcount) as (c1 & c2 & ->).
    destruct (close_record b1 b4 gs1 ss0 s [new_part (IovHeader (arr_size (headers b1))) HEADER_SIZE false 0;
        new_part (IovData (drop 4 (enc16 tid ++ ([c1; c2] ++ body) ++ rest))) (u64 (size - HEADER_SIZE)) false 0]
        [enc16 new_id ++ [c1; c2]; body]) as (b5 & gs' & E5 & Hrep5); try done.
    + cbn [mjoin list_join]. rewrite app_nil_r, !blen_app. change (blen (enc16 new_id)) with 2. lia.
    + split; [exact Ha2|]. split; [change (arr_size (headers b1) ≤ arr_size arr2)%nat; lia|exact Hold].
    + cbn [b4 part_all set_parts]. etrans; [exact Hu3|]. cbn [b3 part_all set_parts]. by rewrite Hu2, <-app_assoc.
    + by repeat constructor.
    + constructor; [by split|]. constructor; [|constructor]. split; [by rewrite <-Hsize|]. by exists rest.
    + apply NoDup_singleton.
    + constructor; [|constructor]. change (arr_size (headers b1) ≤ arr_size (headers b1) < arr_size arr2)%nat. lia.
    + assert (mjoin [enc16 new_id ++ [c1; c2]; body] = r) as Er by (unfold r; cbn [mjoin list_join]; by rewrite app_nil_r, <-!app_assoc).
      rewrite Er, Hr in E5. rewrite Er in Hrep5.
      rewrite E5, res_bind_ret. exists b5, gs'. split; [done|]. by split.
  - subst new_id.
    edestruct (bldr_insert_spec b1 (IovData (enc16 tid ++ fields ++ rest)) size false 0) as (r2 & n2 & -> & Hp2 & Hu2); [exact Hp1|].
    set (b2 := set_parts b1 _).
    destruct (close_record b1 b2 gs1 ss0 s [new_part (IovData (enc16 tid ++ fields ++ rest)) size false 0] [r])
      as (b3 & gs' & E3 & Hrep3); try done.
    + rewrite mjoin_cons. change (mjoin []) with ([] : bytes). rewrite app_nil_r. lia.
    + by repeat constructor.
    + constructor; [|constructor]. split; [done|]. exists rest. unfold r. by rewrite <-app_assoc.
    + constructor.
    + assert (mjoin [r] = r) as Er by (rewrite mjoin_cons; apply app_nil_r). rewrite Er, Hr in E3. rewrite Er in Hrep3.
      rewrite E3, res_bind_ret. exists b3, gs'. split; [done|]. by split.
Qed.
End add.

Lemma run_op_spec b gs ss op : bldr_rep b gs ss → Forall set_fits ss → op_ok op →
  ∃ b' gs', run_op b op = Ok (0, b') ∧ bldr_rep b' gs' (spec_op ss op) ∧ Forall set_fits (spec_op ss op).
Proof.
  intros Hrep Hfit. destruct op as [sid body rest new_id recs|tid fields rest new_id type|id type]; intros Hok.
  - destruct (bldr_add_dataset_spec b gs ss sid body rest new_id recs Hrep Hok) as (b' & g & E & H).
    exists b', (gs ++ [g]). split; [done|]. split; [done|]. apply Forall_app. split; [done|].
    destruct Hok as (_ & ? & ? & _). constructor; [by split|constructor].
  - by apply (bldr_add_template_spec b gs ss).
  - by apply (bldr_add_template_withdrawal_spec b gs ss).
Qed.

Fixpoint run_ops (b : fwd_bldr) (ops : list bldr_op) : res (Z * fwd_bldr) :=
  match ops with
  | [] => Ok (0, b)
  | op :: ops => x ← run_op b op; let '(ret, b) := x in if decide (ret ≠ 0) then Ok (ret, b) else run_ops b ops
  end.

Lemma run_ops_spec ops : ∀ b gs ss, bldr_rep b gs ss → Forall set_fits ss → Forall op_ok ops →
  ∃ b' gs', run_ops b ops = Ok (0, b') ∧ bldr_rep b' gs' (foldl spec_op ss ops) ∧ Forall set_fits (foldl spec_op ss ops).
Proof.
  induction ops as [|op ops IH]; intros b gs ss Hrep Hfit Hops; [by exists b, gs|].
  apply Forall_cons in Hops as [Hop Hops]. destruct (run_op_spec b gs ss op Hrep Hfit Hop) as (b1 & gs1 & E & Hrep1 & Hfit1).
  cbn [run_ops foldl]. rewrite E, res_bind_ret. rewrite decide_False by (intros ?; done). by eapply IH.
Qed.
End adding.

(** ** Breaking the parts into packets *)

(** A group of parts starts with the header of a set and is not empty. *)
Definition starts (g : list part) : Prop :=
  ∃ p ps, g = p :: ps ∧ p_set_start p = true ∧ Forall (λ p, p_set_start p = false) ps.
Definition good_group (g : list part) : Prop := starts g ∧ 0 < lens_of g.

Lemma parts_of_set_spec ps gs n : Forall (λ p, p_set_start p = false) ps → Forall starts gs →
  parts_of_set (ps ++ mjoin gs) n = n + Z.of_nat (length ps).
Proof.
  intros Hps Hgs. revert n. induction Hps as [|p ps Hp _ IH]; intros n; cbn [app parts_of_set].
  - destruct Hgs as [|g gs (p & ps & -> & Hp & _) _]; cbn; rewrite ?Hp; lia.
  - rewrite Hp, IH. cbn [length]. lia.
Qed.

(** The set at an index of the array. *)
Lemma set_at prt l g gs : parts_used prt = l ++ g ++ mjoin gs → starts g → Forall starts gs →
  parts_aux_set_parts prt (length l) = Z.of_nat (length g) ∧ parts_aux_set_len prt (length l) = lens_of g.
Proof.
  intros Hu Hg Hgs.
  assert (parts_from prt (length l) = g ++ mjoin gs) as Hfrom
    by (unfold parts_from; change (take _ _) with (parts_used prt); by rewrite Hu, drop_app_length).
  assert (parts_aux_set_parts prt (length l) = Z.of_nat (length g)) as E.
  { unfold parts_aux_set_parts. rewrite Hfrom. destruct Hg as (p & ps & -> & Hp & Hps). cbn [app]. rewrite Hp.
    rewrite parts_of_set_spec by done. cbn [length]. lia. }
  split; [done|]. unfold parts_aux_set_len. rewrite E, Hfrom.
  destruct Hg as (p & ps & -> & _). rewrite decide_False by (cbn [length]; lia).
  by rewrite Nat2Z.id, take_app_length.
Qed.

Lemma count_records_u32 ps : ∀ n, foldl (λ n p, u32 (n + p_cnt p)) (u32 n) ps = u32 (n + recs_of ps).
Proof.
  induction ps as [|p ps IH]; intros n; cbn [foldl recs_of foldr]; [by rewrite Z.add_0_r|].
  assert (u32 (u32 n + p_cnt p) = u32 (n + p_cnt p)) as -> by (unfold u32; apply Zplus_mod_idemp_l).
  rewrite IH. f_equal. fold (recs_of ps). lia.
Qed.

(** The ranges of packets one behind the other from the index [start] on. *)
Definition range_of (start : nat) (ps : list part) : packet_range :=
  {| pr_start := start - 1; pr_size := length ps + 1;
     pr_backup := default (set_iov IovNull 0) (p_fld <$> last ps); pr_rec_cnt := u32 (recs_of ps) |}.
Fixpoint ranges (start : nat) (pks : list (list (list part))) : list packet_range :=
  match pks with
  | [] => []
  | pk :: pks => range_of start (mjoin pk) :: ranges (start + length (mjoin pk)) pks
  end.

(** The packets that are stored. *)
Record has_pkts (prt : packet_parts) (rs : list packet_range) : Prop := {
  hp_arr : take (pkt_size prt) (pkt_arr prt) = Some <$> rs;
  hp_size : (pkt_size prt ≤ length (pkt_arr prt))%nat;
  hp_pos : (0 < length (pkt_arr prt))%nat
}.

Lemma parts_packet_new_spec prt rs l ps r : has_pkts prt rs → parts_used prt = l ++ ps ++ r → l ≠ [] → ps ≠ [] →
  ∃ a n, parts_packet_new prt (length l) (length ps) = Ok (0, set_pkt_arr prt a n) ∧
    has_pkts (set_pkt_arr prt a n) (rs ++ [range_of (length l) ps]).
Proof.
  intros [Ha Hs Hpos] Hu Hl Hps. unfold parts_packet_new. rewrite decide_False by (by destruct ps).
  set (prt1 := parts_packets_check_size prt).
  assert (pkt_size prt1 = pkt_size prt ∧ (pkt_size prt < length (pkt_arr prt1))%nat ∧ rec prt1 = rec prt ∧
    take (pkt_size prt) (pkt_arr prt1) = Some <$> rs) as (E1 & E2 & E3 & E4).
  { unfold prt1, parts_packets_check_size. case_decide; cbn [set_pkt_arr pkt_arr pkt_size rec]; [done|].
    rewrite length_app, length_replicate. split; [done|]. split; [lia|]. split; [done|]. by rewrite take_app_le by lia. }
  rewrite decide_False by lia. rewrite E1, E3.
  assert (rec prt = l ++ ps ++ r ++ drop (rec_size prt) (rec prt)) as Hrec.
  { rewrite <-(take_drop (rec_size prt) (rec prt)) at 1. unfold parts_used in Hu. by rewrite Hu, <-!app_assoc. }
  destruct (exists_last Hps) as (q & p & ->). rewrite length_app. cbn [length].
  assert (rec prt !! (length l + (length q + 1) - 1)%nat = Some p) as ->.
  { rewrite Hrec. rewrite lookup_app_r by lia. rewrite <-app_assoc.
    replace (length l + (length q + 1) - 1 - length l)%nat with (length q) by lia. rewrite lookup_app_r by lia.
    by rewrite Nat.sub_diag. }
  cbn [or_fault]. rewrite res_bind_ret.
  assert (take (length q + 1) (drop (length l) (rec prt)) = q ++ [p]) as ->.
  { rewrite Hrec, drop_app_length. replace (length q + 1)%nat with (length (q ++ [p])) by (by rewrite length_app).
    by rewrite take_app_length. }
  pose proof (count_records_u32 (q ++ [p]) 0) as Hcnt. change (u32 0) with 0 in Hcnt. rewrite Hcnt, Z.add_0_l.
  eexists _, _. split.
  - do 2 f_equal. unfold prt1, parts_packets_check_size. by case_decide.
  - constructor; cbn [set_pkt_arr pkt_arr pkt_size]; rewrite ?length_insert; [|lia..].
    erewrite take_S_r by (apply list_lookup_insert_eq; lia). rewrite take_insert_ge by lia. rewrite E4, fmap_app. cbn [fmap list_fmap].
    unfold range_of. rewrite last_snoc, length_app. cbn [length fmap option_fmap option_map default]. do 4 f_equal.
Qed.

(** The loop when the parts [front] are behind it and the sets [cur] are in the packet
    in the making. *)
Definition in_packet (prt : packet_parts) (front : list part) (cur : list (list part)) (cnt : Z) : prepare_state :=
  {| ps_prt := prt; ps_i := length (front ++ mjoin cur); ps_packet_start := false; ps_start_index := length front;
     ps_cur_len := IPFIX_HEADER_LENGTH + sizes lens_of cur; ps_parts_cnt := length (mjoin cur); ps_packets_cnt := cnt |}.

Lemma good_group_length g : good_group g → (0 < length g)%nat.
Proof. intros [ (p & ps & -> & _) _]. cbn. lia. Qed.

Lemma sizes_lens gs : sizes lens_of gs = lens_of (mjoin gs).
Proof. induction gs as [|g gs IH]; [done|]. cbn [sizes foldr]. fold (sizes lens_of gs). rewrite mjoin_cons, lens_of_app. lia. Qed.

(** A turn of the loop at a set: [s] is in the packet, or the packet is at its start
    and [s] is the first of it. *)
Lemma prepare_step_add max prt front cur g gs st :
  parts_used prt = front ++ mjoin cur ++ g ++ mjoin gs → good_group g → Forall starts gs →
  st = in_packet prt front cur (ps_packets_cnt st) ∧ (IPFIX_HEADER_LENGTH + sizes lens_of cur + lens_of g ≤ max ∨ cur = []) ∨
  (cur = [] ∧ ps_packet_start st = true ∧ ps_prt st = prt ∧ ps_i st = length front) →
  ∃ cnt, parts_packets_prepare_step max st = Ok (inl (in_packet prt front (cur ++ [g]) cnt)) ∧
    (0 ≤ ps_packets_cnt st → ps_packets_cnt st ≤ cnt ∧ (ps_packet_start st = true → 0 < cnt)).
Proof.
  intros Hu Hg Hgs Hst. pose proof (good_group_length g Hg) as Hlen. destruct Hg as [Hstart Hpos].
  rewrite (app_assoc front) in Hu. pose proof (set_at prt _ g gs Hu Hstart Hgs) as [En El].
  assert (length (front ++ mjoin cur) < rec_size prt)%nat as Hlt.
  { assert (length (parts_used prt) ≤ rec_size prt)%nat by (unfold parts_used; rewrite length_take; lia).
    rewrite Hu, !length_app in *. lia. }
  assert (∀ c : list (list part), length (front ++ mjoin (c ++ [g])) = (length (front ++ mjoin c) + length g)%nat) as Hi
    by (intros c; rewrite mjoin_snoc, !length_app; lia).
  unfold parts_packets_prepare_step. destruct Hst as [ [-> Hfit]|(-> & Hps & Hprt & Hidx)].
  - cbn [in_packet ps_prt ps_i ps_packet_start ps_start_index ps_cur_len ps_parts_cnt ps_packets_cnt].
    rewrite decide_True by done. rewrite En, El. rewrite !decide_False by lia.
    rewrite decide_True by (destruct Hfit as [?| ->]; [by left|by right]).
    eexists. split; [|by intros ?; split].
    do 3 f_equal. unfold in_packet. rewrite Nat2Z.id, Hi, sizes_app, mjoin_snoc. cbn [sizes foldr].
    f_equal; rewrite ?length_app; lia.
  - change (mjoin []) with ([] : list part) in *. rewrite app_nil_r in *. rewrite Hprt, Hidx, Hps.
    cbn [ps_cur_len ps_parts_cnt]. rewrite decide_True by done. rewrite En, El. rewrite !decide_False by lia.
    rewrite decide_True by (by right). cbn [ps_packet_start ps_start_index ps_packets_cnt].
    exists (ps_packets_cnt st + 1). split; [|intros ?; split; intros; lia].
    do 3 f_equal. unfold in_packet. rewrite Nat2Z.id. specialize (Hi []). cbn [app] in *.
    change (mjoin []) with ([] : list part) in Hi. rewrite app_nil_r in Hi. rewrite Hi. cbn [sizes foldr mjoin list_join].
    rewrite app_nil_r. f_equal; lia.
Qed.

(** A turn that closes the packet. *)
Lemma prepare_step_close max prt front cur g gs cnt rs :
  parts_used prt = front ++ mjoin cur ++ g ++ mjoin gs → good_group g → Forall starts gs → has_pkts prt rs →
  front ≠ [] → mjoin cur ≠ [] → max < IPFIX_HEADER_LENGTH + sizes lens_of cur + lens_of g →
  ∃ a n st, parts_packets_prepare_step max (in_packet prt front cur cnt) = Ok (inl st) ∧
    has_pkts (set_pkt_arr prt a n) (rs ++ [range_of (length front) (mjoin cur)]) ∧
    ps_prt st = set_pkt_arr prt a n ∧ ps_packet_start st = true ∧ ps_i st = length (front ++ mjoin cur) ∧ ps_packets_cnt st = cnt.
Proof.
  intros Hu Hg Hgs Hp Hf Hc Hmax. pose proof (good_group_length g Hg) as Hlen. destruct Hg as [Hstart Hpos].
  destruct (parts_packet_new_spec prt rs front (mjoin cur) (g ++ mjoin gs) Hp Hu Hf Hc) as (a & n & Enew & Hp').
  rewrite (app_assoc front) in Hu. pose proof (set_at prt _ g gs Hu Hstart Hgs) as [En El].
  assert (length (front ++ mjoin cur) < rec_size prt)%nat as Hlt.
  { assert (length (parts_used prt) ≤ rec_size prt)%nat by (unfold parts_used; rewrite length_take; lia).
    rewrite Hu, !length_app in *. lia. }
  unfold parts_packets_prepare_step.
  cbn [in_packet ps_prt ps_i ps_packet_start ps_start_index ps_cur_len ps_parts_cnt ps_packets_cnt].
  rewrite decide_True by done. rewrite En, El. rewrite !decide_False by lia.
  rewrite decide_False by (intros [?|?]; [lia|by destruct (mjoin cur)]).
  rewrite Enew, res_bind_ret. cbv beta iota. rewrite decide_False by (intros ?; done).
  exists a, n. eexists. split; [done|]. by split.
Qed.

Lemma mjoin_good cur : cur ≠ [] → Forall good_group cur → mjoin cur ≠ [].
Proof.
  intros Hc Hgc. destruct cur as [|c cur]; [done|]. apply Forall_cons in Hgc as [Hg _]. apply good_group_length in Hg.
  rewrite mjoin_cons. by destruct c; cbn in *; [lia|].
Qed.

Lemma prepare_loop max gs : ∀ prt front cur cnt rs fuel,
  parts_used prt = front ++ mjoin cur ++ mjoin gs → (rec_size prt ≤ length (rec prt))%nat → has_pkts prt rs →
  front ≠ [] → cur ≠ [] → Forall good_group cur → Forall good_group gs → (2 * length gs < fuel)%nat → 0 < cnt →
  ∃ prt' front' cur' rs' cnt',
    loop (parts_packets_prepare_step max) fuel (in_packet prt front cur cnt) =
      Ok (inr (in_packet prt' front' cur' cnt')) ∧
    parts_used prt' = front' ++ mjoin cur' ∧ has_pkts prt' rs' ∧ front' ≠ [] ∧ mjoin cur' ≠ [] ∧ 0 < cnt' ∧
    rs' ++ [range_of (length front') (mjoin cur')] =
      rs ++ ranges (length front) (pack lens_of max cur (IPFIX_HEADER_LENGTH + sizes lens_of cur) gs) ∧
    rec_size prt' = length (front' ++ mjoin cur') ∧ (∃ a n, prt' = set_pkt_arr prt a n).
Proof.
  induction gs as [|g gs IH]; intros prt front cur cnt rs fuel Hu Hsz Hp Hf Hc Hgc Hgs Hfuel Hcnt.
  - destruct fuel as [|fuel]; [lia|]. change (mjoin []) with ([] : list part) in Hu. rewrite app_nil_r in Hu.
    assert (length (parts_used prt) = rec_size prt) as Hlen by (unfold parts_used; rewrite length_take; lia).
    cbn [loop]. unfold parts_packets_prepare_step. cbn [in_packet ps_prt ps_i].
    rewrite decide_False by (rewrite <-Hu; lia).
    exists prt, front, cur, rs, cnt. split; [done|]. split; [done|]. split; [done|]. split; [done|]. split; [by apply mjoin_good|].
    split; [done|]. split; [done|]. split; [by rewrite <-Hu, Hlen|].
    exists (pkt_arr prt), (pkt_size prt). by destruct prt.
  - apply Forall_cons in Hgs as [Hg Hgs]. cbn [length] in Hfuel. cbn [pack]. rewrite mjoin_cons in Hu.
    assert (Forall starts gs) as Hst by (eapply Forall_impl; [exact Hgs|]; by intros ? [? _]).
    assert (Forall good_group (cur ++ [g])) as Hgc' by (apply Forall_app; split; [done|by constructor]).
    destruct fuel as [|fuel]; [lia|].
    case_decide as Hd.
    + destruct (prepare_step_add max prt front cur g gs (in_packet prt front cur cnt)) as (cnt' & E & Hc'); [done..| |].
      { left. split; [done|]. destruct Hd as [?|Hd]; [by left|]. by destruct cur. }
      cbn [loop]. rewrite E. destruct Hc' as [Hc' _]; [cbn; lia|]. cbn in Hc'.
      replace (IPFIX_HEADER_LENGTH + sizes lens_of cur + lens_of g) with (IPFIX_HEADER_LENGTH + sizes lens_of (cur ++ [g]))
        by (rewrite sizes_app; cbn; lia).
      apply IH; try done; [by rewrite mjoin_snoc, <-!app_assoc|by destruct cur|lia|lia].
    + assert (mjoin cur ≠ []) as Hne by (by apply mjoin_good).
      destruct (prepare_step_close max prt front cur g gs cnt rs) as (a & n & st & E & Hp' & Hst1 & Hst2 & Hst3 & Hst4);
        [done..|lia|].
      destruct (prepare_step_add max (set_pkt_arr prt a n) (front ++ mjoin cur) [] g gs st) as (cnt' & E' & Hc');
        [by rewrite <-app_assoc|done..|by right|].
      destruct fuel as [|fuel]; [lia|]. cbn [loop]. rewrite E, E'. cbn [app].
      destruct Hc' as [Hc' _]; [lia|].
      destruct (IH (set_pkt_arr prt a n) (front ++ mjoin cur) [g] cnt' (rs ++ [range_of (length front) (mjoin cur)]) fuel)
        as (prt' & front' & cur' & rs' & cnt2 & El & Hu' & Hp2 & Hf' & Hc2 & Hcnt' & Hrs & Hsz' & a' & n' & Hprt);
        [|done|done|by destruct front|done|by constructor|done|lia|lia|].
      { change (mjoin [g]) with (g ++ []). rewrite app_nil_r, <-app_assoc. exact Hu. }
      exists prt', front', cur', rs', cnt2. split; [exact El|]. split; [done|]. split; [done|]. split; [done|]. split; [done|].
      split; [done|]. split; [|split; [done|] ].
      * rewrite Hrs. cbn [ranges sizes foldr]. rewrite length_app, Z.add_0_r, <-app_assoc. done.
      * by exists a', n'; rewrite Hprt.
Qed.

Lemma good_groups_length gs : Forall good_group gs → (length gs ≤ length (mjoin gs))%nat.
Proof.
  induction 1 as [|g gs Hg _ IH]; [done|]. rewrite mjoin_cons, length_app. apply good_group_length in Hg. cbn [length]. lia.
Qed.

Lemma parts_packets_prepare_spec prt p0 gs size : parts_ok prt → parts_used prt = p0 :: mjoin gs → Forall good_group gs →
  pkt_size prt = 0%nat → (0 < length (pkt_arr prt))%nat →
  ∃ a n, let prt' := set_pkt_arr (set_insert_lock prt) a n in
    parts_packets_prepare prt size = Ok (0, prt') ∧
    has_pkts prt' (ranges 1 (packets lens_of (Z.max size PACKET_MIN_SIZE) gs)).
Proof.
  intros [_ Hsz] Hu Hgs Hpk Hpa. unfold parts_packets_prepare. set (prt0 := set_insert_lock prt).
  assert (has_pkts prt0 []) as Hp0 by (constructor; cbn; rewrite ?Hpk; [done|lia|done]).
  assert (parts_used prt0 = [p0] ++ mjoin gs) as Hu0 by exact Hu.
  assert (length (parts_used prt0) = rec_size prt0) as Hlen by (unfold parts_used; rewrite length_take; cbn; lia).
  destruct gs as [|g gs].
  - rewrite Hu0 in Hlen. cbn in Hlen. change (rec_size prt0) with (rec_size prt). rewrite decide_True by done.
    exists (pkt_arr prt), (pkt_size prt). by destruct prt.
  - apply Forall_cons in Hgs as [Hg Hgs]. pose proof (good_group_length g Hg) as Hgl. pose proof (good_groups_length gs Hgs).
    rewrite Hu0, mjoin_cons, !length_app in Hlen. cbn [length] in Hlen. change (rec_size prt0) with (rec_size prt) in Hlen |- *.
    rewrite decide_False by lia. set (max := if decide _ then _ else _).
    assert (max = Z.max size PACKET_MIN_SIZE) as <- by (unfold max; case_decide; lia).
    set (st0 := {| ps_prt := prt0 |}).
    assert (Forall starts gs) as Hst by (eapply Forall_impl; [exact Hgs|]; by intros ? [? _]).
    destruct (prepare_step_add max prt0 [p0] [] g gs st0) as (cnt & E & Hc); [by rewrite Hu0, mjoin_cons|done..|by right|].
    destruct Hc as [_ Hc]; [done|]. specialize (Hc eq_refl).
    destruct (prepare_loop max gs prt0 [p0] [g] cnt [] (2 * rec_size prt)) as
      (prt' & front' & cur' & rs' & cnt' & El & Hu' & Hp' & Hf' & Hc' & Hcnt' & Hrs & Hsz' & a & n & ->);
      [by rewrite Hu0, !mjoin_cons, app_nil_r|cbn; lia|done|done|done|by constructor|done|lia|done|].
    replace (2 * rec_size prt + 1)%nat with (S (2 * rec_size prt)) by lia. cbn [loop].
    rewrite E. cbn [app]. rewrite El, res_bind_ret. cbn [in_packet ps_i ps_prt ps_packets_cnt ps_start_index ps_parts_cnt].
    rewrite decide_False by (intros Hne; apply Hne; by rewrite Hsz').
    rewrite decide_True by lia.
    destruct (parts_packet_new_spec _ rs' front' (mjoin cur') [] Hp') as (a' & n' & Enew & Hfin); [by rewrite app_nil_r|done..|].
    rewrite Enew, res_bind_ret. cbv beta iota. rewrite decide_False by (intros ?; done).
    exists a', n'. split; [done|]. rewrite Hrs in Hfin. cbn [app length packets] in *. replace (sizes lens_of [g]) with (lens_of g) in Hfin by (cbn; lia).
    exact Hfin.
Qed.

(** ** Complete packets *)

(** The parts of a packet in the array: the last may be lent to the header of the
    next packet. *)
Definition lent (ps ps' : list part) : Prop := ∃ l q q', ps = l ++ [q] ∧ ps' = l ++ [q'].

Lemma lent_length ps ps' : lent ps ps' → length ps' = length ps.
Proof. intros (l & q & q' & -> & ->). by rewrite !length_app. Qed.

Lemma lent_join_length pss pss' : Forall2 lent pss pss' → length (mjoin pss') = length (mjoin pss).
Proof.
  induction 1 as [|ps ps' pss pss' Hp _ IH]; [done|]. rewrite !mjoin_cons, !length_app, IH. by rewrite (lent_length _ _ Hp).
Qed.

(** Whatever is put in the place of the last part in front of a packet, that is the
    reserved one or one that is lent. *)
Lemma lend_last p0 pss pss' pre x x' : Forall2 lent pss pss' → p0 :: mjoin pss' = pre ++ [x] →
  ∃ p0' pss2, pre ++ [x'] = p0' :: mjoin pss2 ∧ Forall2 lent pss pss2.
Proof.
  intros H E. destruct pss' as [|ps' pss' _] using rev_ind.
  - destruct pre as [|? [|]]; simplify_eq/=. by exists x', [].
  - apply Forall2_app_inv_r in H as (pss1 & pss3 & H1 & H2 & ->).
    apply Forall2_cons_inv_r in H2 as (ps & ? & (l & q & q' & -> & ->) & ->%Forall2_nil_inv_r & ->).
    rewrite mjoin_snoc, app_assoc, app_comm_cons in E. change (p0 :: mjoin pss' ++ l) with ((p0 :: mjoin pss') ++ l) in E.
    rewrite <-?app_assoc in E. rewrite app_assoc in E. apply app_inj_2 in E as [<- _]; [|done].
    exists p0, (pss' ++ [l ++ [x'] ]). split; [by rewrite mjoin_snoc, <-!app_assoc|].
    apply Forall2_app; [done|]. constructor; [|constructor]. by exists l, q, x'.
Qed.

(** The parts of the packets. *)
Abbreviation joined pks := ((λ pk : list (list part), mjoin pk) <$> pks).

Lemma ranges_lookup A pk B : ∀ start, ranges start (A ++ pk :: B) !! length A =
  Some (range_of (start + length (mjoin (joined A))) (mjoin pk)).
Proof.
  induction A as [|a A IH]; intros start; cbn [app ranges length lookup list_lookup]; [by rewrite Nat.add_0_r|].
  rewrite IH. rewrite fmap_cons, mjoin_cons, length_app. by rewrite Nat.add_assoc.
Qed.

Lemma set_fld_spec prt l p r v : parts_used prt = l ++ p :: r →
  ∃ rec', set_fld prt (length l) v = Ok (set_rec prt rec' (rec_size prt)) ∧
    parts_used (set_rec prt rec' (rec_size prt)) = l ++ {| p_fld := v; p_cnt := p_cnt p; p_set_start := p_set_start p |} :: r.
Proof.
  intros Hu. unfold set_fld.
  assert (length l < rec_size prt)%nat as Hlt.
  { assert (length (parts_used prt) ≤ rec_size prt)%nat by (unfold parts_used; rewrite length_take; lia).
    rewrite Hu, length_app in *. cbn [length] in *. lia. }
  assert (rec prt !! length l = Some p) as ->.
  { rewrite <-(lookup_take_lt _ (rec_size prt)) by done. fold (parts_used prt). by rewrite Hu, list_lookup_middle. }
  cbn [or_fault]. rewrite res_bind_ret. eexists. split; [done|].
  unfold parts_used. cbn [set_rec rec rec_size]. rewrite take_insert_lt by done. fold (parts_used prt). rewrite Hu.
  by rewrite insert_app_r_alt, Nat.sub_diag by lia.
Qed.

Lemma used_slice prt i n : (i + n ≤ rec_size prt)%nat → take n (drop i (rec prt)) = take n (drop i (parts_used prt)).
Proof.
  intros H. unfold parts_used. rewrite skipn_firstn_comm, take_take. by rewrite Nat.min_l by lia.
Qed.

Section complete.
Context (export_time odid : Z).

Record pkts_rep (b : fwd_bldr) (gpks : list (list (list part))) (spks : list (list out_set)) : Prop := {
  kr_complete : is_complete b = true;
  kr_arr : arr_ok (headers b);
  kr_parts : ∃ p0 pss, parts_used (part_all b) = p0 :: mjoin pss ∧ Forall2 lent (joined gpks) pss;
  kr_ranges : has_pkts (part_all b) (ranges 1 gpks);
  kr_groups : Forall2 (Forall2 (group (headers b))) gpks spks;
  kr_version : h_version (bldr_header b) = IPFIX_VERSION;
  kr_export : h_export_time (bldr_header b) = export_time;
  kr_odid : h_odid (bldr_header b) = odid
}.

Lemma bldr_pkts_get_spec b A pk B spks seq : pkts_rep b (A ++ pk :: B) spks →
  ∃ b' r ps, bldr_pkts_get b seq (length A) = Ok (b', Some (r, IPFIX_HEADER_LENGTH + lens_of (mjoin pk))) ∧
    pkts_rep b' (A ++ pk :: B) spks ∧ headers b' = headers b ∧ 
    h_length (bldr_header b') = u16 (IPFIX_HEADER_LENGTH + lens_of (mjoin pk)) ∧ h_sequence_number (bldr_header b') = seq ∧
    take (pr_size r) (drop (pr_start r) (rec (part_all b'))) = ps ∧ pr_size r = length ps ∧ pr_rec_cnt r = u32 (recs_of (mjoin pk)) ∧
    p_fld <$> ps = set_iov IovPacketHeader IPFIX_HEADER_LENGTH :: (p_fld <$> mjoin pk).
Proof.
  intros [Hc Ha (p0 & pss & Hu & Hpss) Hr Hg Hv He Ho]. unfold bldr_pkts_get. rewrite Hc. cbn [negb].
  pose proof Hr as [Harr Hsz Hpos].
  rewrite fmap_app, fmap_cons in Hpss. apply Forall2_app_inv_l in Hpss as (pA & pB & HA & HB & ->).
  apply Forall2_cons_inv_l in HB as (pp & pB' & Hpk & HB & ->). pose proof Hpk as (l & q & q' & Epk & ->).
  set (start := (1 + length (mjoin (joined A)))%nat).
  assert (pkt_arr (part_all b) !! length A = Some (Some (range_of start (mjoin pk))) ∧ (length A < pkt_size (part_all b))%nat)
    as [Hrange Hlt].
  { assert (take (pkt_size (part_all b)) (pkt_arr (part_all b)) !! length A = Some (Some (range_of start (mjoin pk)))) as E
      by (rewrite Harr, list_lookup_fmap, ranges_lookup; done).
    pose proof (lookup_lt_Some _ _ _ E) as Hl. rewrite length_take in Hl. split; [|lia].
    by rewrite lookup_take_lt in E by lia. }
  rewrite decide_False by lia. rewrite Hrange. cbn [or_fault]. rewrite res_bind_ret. cbn [or_fault]. rewrite res_bind_ret.
  assert (length (mjoin pA) = length (mjoin (joined A))) as HlA by (by apply lent_join_length).
  destruct (exists_last (l := p0 :: mjoin pA)) as (pre & x & Epre); [done|].
  assert (length pre = start - 1)%nat as Hpre.
  { assert (length (p0 :: mjoin pA) = length (pre ++ [x])) as E by (by rewrite Epre). rewrite length_app in E. cbn in E. unfold start. lia. }
  assert (parts_used (part_all b) = (pre ++ [x] ++ l) ++ q' :: mjoin pB') as Hu1.
  { rewrite Hu. rewrite join_app, mjoin_cons, app_comm_cons, Epre. by rewrite <-!app_assoc. }
  assert (length (mjoin pk) = S (length l)) as Hlpk by (rewrite Epk, length_app; cbn; lia).
  set (r := range_of start (mjoin pk)).
  assert (pr_start r = length pre ∧ pr_size r = length (mjoin pk) + 1 ∧ pr_backup r = p_fld q)%nat as (Er1 & Er2 & Er3)
    by (unfold r, range_of; cbn [pr_start pr_size pr_backup]; split_and!; [done|done|]; rewrite Epk; by rewrite last_snoc).
  rewrite Er1, Er2, Er3.
  replace (length pre + (length (mjoin pk) + 1) - 1)%nat with (length (pre ++ [x] ++ l)) by (rewrite !length_app; cbn; lia).
  destruct (set_fld_spec _ _ _ _ (p_fld q) Hu1) as (rec1 & -> & Hu2). rewrite res_bind_ret.
  set (prt1 := set_rec (part_all b) rec1 _) in *. set (q2 := {| p_fld := p_fld q |}) in *.
  rewrite <-!app_assoc in Hu2. cbn [app] in Hu2.
  destruct (set_fld_spec _ _ _ _ (set_iov IovPacketHeader IPFIX_HEADER_LENGTH) Hu2) as (rec2 & E2 & Hu3).
  rewrite E2, res_bind_ret. clear E2.
  set (prt2 := set_rec prt1 rec2 _) in *. set (x2 := {| p_fld := set_iov IovPacketHeader IPFIX_HEADER_LENGTH |}) in *.
  assert (length (parts_used prt1) ≤ rec_size prt1)%nat as Hs1 by (unfold parts_used; rewrite length_take; lia).
  assert (length (parts_used prt2) ≤ rec_size prt2)%nat as Hs2 by (unfold parts_used; rewrite length_take; lia).
  rewrite Hu2, !length_app in Hs1. rewrite Hu3, !length_app in Hs2. cbn [length] in Hs1, Hs2. rewrite length_app in Hs1, Hs2. cbn [length] in Hs1, Hs2.
  assert (foldl (λ n p, n + iov_len (p_fld p)) IPFIX_HEADER_LENGTH
            (take (length (mjoin pk) + 1 - 1) (drop (length pre + 1) (rec prt1))) =
          IPFIX_HEADER_LENGTH + lens_of (mjoin pk)) as ->.
  { rewrite used_slice by lia. rewrite Hu2, cons_middle, app_assoc.
    replace (length pre + 1)%nat with (length (pre ++ [x])) by (rewrite length_app; done). rewrite drop_app_length.
    replace (length (mjoin pk) + 1 - 1)%nat with (length (l ++ [q2])) by (rewrite length_app; cbn; lia).
    replace (l ++ q2 :: mjoin pB') with ((l ++ [q2]) ++ mjoin pB') by (by rewrite <-app_assoc).
    rewrite take_app_length, Epk. rewrite foldl_snoc, lens_of_app.
    assert (∀ n ps, foldl (λ n p, n + iov_len (p_fld p)) n ps = n + lens_of ps) as Hfold.
    { intros n ps. revert n. induction ps as [|p ps IHp]; intros n; cbn [foldl lens_of foldr]; [lia|]. rewrite IHp. fold (lens_of ps). lia. }
    rewrite Hfold. cbn. lia. }
  eexists _, _, (x2 :: l ++ [q2]). split; [done|]. split; [|split; [done|split; [done|split; [done|] ] ] ].
  - constructor; cbn [is_complete headers part_all bldr_header h_version h_export_time h_odid]; try done.
    destruct (lend_last p0 (joined A) pA pre x x2 HA Epre) as (p0' & pA2 & E3 & HA2).
    exists p0', (pA2 ++ (l ++ [q2]) :: pB'). split.
    + etrans; [exact Hu3|]. rewrite cons_middle, app_assoc, E3, join_app, mjoin_cons. cbn [app]. by rewrite <-!app_assoc.
    + rewrite fmap_app, fmap_cons. apply Forall2_app; [done|]. constructor; [|done]. by exists l, q, q2.
  - cbn [part_all]. rewrite Er1, Er2. split; [|split; [|split; [done|] ] ].
    + rewrite used_slice by lia. etrans; [apply (f_equal (λ u, take _ (drop (length pre) u))), Hu3|].
      rewrite drop_app_length. replace (length (mjoin pk) + 1)%nat with (length (x2 :: l ++ [q2]))
        by (cbn [length]; rewrite length_app; cbn; lia).
      change (x2 :: l ++ q2 :: mjoin pB') with ((x2 :: l) ++ [q2] ++ mjoin pB'). rewrite app_assoc. apply take_app_length.
    + cbn [length]. rewrite length_app. cbn. lia.
    + cbn [fmap list_fmap]. f_equal. rewrite Epk, !fmap_app. done.
Qed.
End complete.

(** *** The end of a message *)

Lemma group_good arr g s : group arr g s → good_group g ∧ lens_of g = set_size s.
Proof.
  intros [Hh (xs & Hx & Ex) _]. rewrite (lens_of_read _ _ _ Hx), Ex. fold (set_size s).
  split; [|done]. split; [exact Hh|]. rewrite (lens_of_read _ _ _ Hx), Ex, blen_enc_set. pose proof (blen_nonneg (os_set s).2). lia.
Qed.

Lemma groups_good arr gs ss : Forall2 (group arr) gs ss → Forall good_group gs.
Proof. induction 1 as [|g s gs ss Hg _ IH]; constructor; [by eapply group_good|done]. Qed.

Lemma joined_join pks : mjoin (joined pks) = mjoin (mjoin pks).
Proof. induction pks as [|pk pks IH]; [done|]. by rewrite fmap_cons, !mjoin_cons, join_app, IH. Qed.

Lemma lent_refl pks : Forall (λ pk, pk ≠ []) pks → Forall good_group (mjoin pks) → Forall2 lent (joined pks) (joined pks).
Proof.
  intros Hne. induction Hne as [|pk pks Hpk _ IH]; [constructor|]. rewrite mjoin_cons. intros [Hg Hgs]%Forall_app.
  rewrite fmap_cons. constructor; [|by apply IH].
  destruct (exists_last (mjoin_good pk Hpk Hg)) as (l & q & ->). by exists l, q, q.
Qed.

Lemma bldr_end_spec hdr b gs ss size : bldr_rep hdr b gs ss → h_version hdr = IPFIX_VERSION →
  let max := Z.max size PACKET_MIN_SIZE in
  ∃ b', bldr_end b size = Ok (0, b') ∧
    pkts_rep (h_export_time hdr) (h_odid hdr) b' (packets lens_of max gs) (packets set_size max ss).
Proof.
  intros [Hp Ha [p0 Hu] Hgs _ _ _ _ [Hk Hka] Hh] Hv max.
  destruct (parts_packets_prepare_spec (part_all b) p0 gs size Hp Hu (groups_good _ _ _ Hgs) Hk Hka) as (a & n & E & Hpk).
  unfold bldr_end. rewrite E, res_bind_ret. eexists. split; [done|].
  constructor; cbn [is_complete headers part_all bldr_header]; rewrite ?Hh; try done.
  - exists p0, (joined (packets lens_of max gs)). split; [by rewrite joined_join, packets_join|].
    apply lent_refl; [apply packets_fit|]. rewrite packets_join. by eapply groups_good.
  - apply packets_related; [|done]. intros g s Hg. by eapply group_good.
Qed.

(** *** Reading packets *)

Definition fld_reads (b : fwd_bldr) (v : iovec) (x : bytes) : Prop :=
  blen x = iov_len v ∧
  ∀ off, 0 ≤ off ≤ blen x → iov_octets b v off (blen x - off) = Ok (drop (Z.to_nat off) x).

Lemma rdn_drop x rest off : 0 ≤ off ≤ blen x → rdn (x ++ rest) off (blen x - off) = Ok (drop (Z.to_nat off) x).
Proof.
  intros Hoff. destruct (blen_split x off Hoff) as (l & r & -> & Hl & Hr). rewrite <-Hl. rewrite blen_app.
  replace (blen l + blen r - blen l) with (blen r) by lia. rewrite <-app_assoc, rdn_here.
  unfold blen. by rewrite Nat2Z.id, drop_app_length.
Qed.

Lemma part_fld_reads b p x : part_reads (headers b) p x → fld_reads b (p_fld p) x.
Proof.
  intros [Hl Hx]. split; [done|]. intros off Hoff. unfold iov_octets. destruct (iov_base (p_fld p)) as [| |i|m]; try done.
  - rewrite (arr_get_Some _ _ _ Hx), res_bind_ret. rewrite <-(app_nil_r x) at 1. by apply rdn_drop.
  - destruct Hx as [rest ->]. by apply rdn_drop.
Qed.

Lemma copy_parts_spec b offset ps xs : Forall2 (fld_reads b) (p_fld <$> ps) xs → 0 ≤ offset →
  ∀ before out room, 0 ≤ before → before + blen (mjoin xs) < 4294967296 → offset < 4294967296 →
  blen out = Z.max 0 (before - offset) → blen out + blen room = Z.max 0 (before + blen (mjoin xs) - offset) →
  copy_parts b (out ++ room) offset before (blen out) ps = Ok (out ++ drop (Z.to_nat (offset - before)) (mjoin xs)).
Proof.
  intros H Hoff. remember (p_fld <$> ps) as vs eqn:Evs. revert ps Evs.
  induction H as [|v x vs xs [Hl Hx] Hxs IH]; intros [|p ps] Evs before out room Hbefore Hmax Homax Hout Hroom; try discriminate Evs; cbn [copy_parts].
  - change (mjoin []) with ([] : bytes) in *. change (blen []) with 0 in *. rewrite drop_nil, app_nil_r.
    assert (room = []) as -> by (apply length_zero_iff_nil; unfold blen in *; lia). by rewrite app_nil_r.
  - injection Evs as -> ->. rewrite mjoin_cons, blen_app in *.
    pose proof (blen_nonneg x). pose proof (blen_nonneg (mjoin xs)). pose proof (blen_nonneg room).
    rewrite <-Hl. unfold u64. rewrite (Z.mod_small (before + blen x)) by lia. fold (u64 (blen x)).
    case_decide as Hskip.
    + rewrite u32_small by lia. rewrite (IH ps eq_refl (before + blen x) out room); [|lia..].
      rewrite drop_app_ge by (unfold blen in *; lia). do 3 f_equal. unfold blen in *. lia.
    + set (diff := if decide (before < offset) then _ else 0).
      assert (diff = Z.max 0 (offset - before)) as Hd.
      { unfold diff. case_decide; [rewrite u32_small by lia|]; lia. }
      assert (diff ≤ blen x) as Hdx by (destruct (decide (before < offset)); lia).
      rewrite (Z.mod_small (blen x - diff)) by lia. rewrite Hx, res_bind_ret by lia.
      set (y := drop (Z.to_nat diff) x). assert (blen y = blen x - diff) as Hy by (unfold y, blen in *; rewrite length_drop; lia).
      destruct (blen_split room (blen y)) as (r1 & r2 & -> & Hr1 & Hr2); [lia|].
      rewrite wrn_here by lia. rewrite res_bind_ret.
      rewrite !u32_small by (rewrite ?u32_small; lia).
      replace (blen out + (blen x - diff)) with (blen (out ++ y)) by (rewrite blen_app; lia).
      replace (before + diff + (blen x - diff)) with (before + blen x) by lia.
      rewrite (app_assoc out).
      rewrite (IH ps eq_refl (before + blen x) (out ++ y) r2); [|rewrite ?blen_app in *; lia..].
      rewrite <-app_assoc. f_equal. f_equal. unfold y.
      replace (Z.to_nat (offset - before)) with (Z.to_nat diff) by (rewrite Hd; lia).
      rewrite drop_app_le by (unfold blen in *; lia). f_equal.
      replace (Z.to_nat (offset - (before + blen x))) with 0%nat by lia. done.
Qed.

(** The octets and the records of a packet of sets. *)
Definition packet_octets (export_time odid seq : Z) (pk : list out_set) : bytes :=
  enc_message export_time seq odid (os_set <$> pk).
Definition packet_recs (pk : list out_set) : Z := foldr (λ s n, os_recs s + n) 0 pk.

Lemma groups_read arr gs ss : Forall2 (group arr) gs ss →
  (∃ xs, Forall2 (part_reads arr) (mjoin gs) xs ∧ mjoin xs = enc_sets (os_set <$> ss)) ∧
  lens_of (mjoin gs) = sizes set_size ss ∧ recs_of (mjoin gs) = packet_recs ss ∧ blen (enc_sets (os_set <$> ss)) = sizes set_size ss.
Proof.
  induction 1 as [|g s gs ss Hg _ ( (xs & Hxs & Exs) & Hl & Hr & Hb)]; [by split; [exists []|] |].
  pose proof (proj2 (group_good _ _ _ Hg)) as Hgl. destruct Hg as [_ (ys & Hys & Eys) Hgr].
  rewrite mjoin_cons, fmap_cons, enc_sets_cons, lens_of_app, recs_of_app, blen_app.
  change (packet_recs (s :: ss)) with (os_recs s + packet_recs ss).
  change (sizes set_size (s :: ss)) with (set_size s + sizes set_size ss).
  change (blen (enc_set (os_set s))) with (set_size s). split; [|split_and!; lia].
  exists (ys ++ xs). split; [by apply Forall2_app|]. by rewrite join_app, Eys, Exs.
Qed.

Section complete.
Context (export_time odid : Z).

Lemma bldr_pkts_raw_spec b gpks spks seq idx pk offset uninit :
  pkts_rep export_time odid b gpks spks → spks !! idx = Some pk →
  IPFIX_HEADER_LENGTH + sizes set_size pk < 65536 → 0 ≤ offset < IPFIX_HEADER_LENGTH + sizes set_size pk →
  ∃ b', bldr_pkts_raw b seq idx offset uninit =
    Ok (b', Some (drop (Z.to_nat offset) (packet_octets export_time odid seq pk),
                  IPFIX_HEADER_LENGTH + sizes set_size pk - offset, u32 (packet_recs pk))) ∧
    pkts_rep export_time odid b' gpks spks.
Proof.
  intros Hrep Hidx Hmax Hoff. pose proof (kr_groups _ _ _ _ _ Hrep) as Hg.
  destruct (Forall2_lookup_r _ _ _ _ _ Hg Hidx) as (gpk & Hgidx & Hgpk).
  apply list_elem_of_split_length in Hgidx as (A & B & -> & ->).
  destruct (bldr_pkts_get_spec export_time odid b A gpk B spks seq Hrep) as
    (b' & r & ps & E & Hrep' & Hh & Hlen & Hseq & Hps & Hsz & Hcnt & Hfld).
  unfold bldr_pkts_raw. rewrite E, res_bind_ret. cbv beta iota.
  pose proof Hrep' as [_ _ _ _ _ Hv He Ho].
  destruct (groups_read _ _ _ Hgpk) as ((xs & Hxs & Exs) & Hl & Hr & Hb). rewrite Hl in *.
  rewrite decide_False by lia. rewrite Hps, Hcnt, Hr.
  set (total := IPFIX_HEADER_LENGTH + sizes set_size pk) in *.
  assert (header_octets (bldr_header b') = enc_header total export_time seq odid) as Hoct.
  { unfold header_octets, enc_header. rewrite Hv, He, Ho, Hlen, Hseq, u16_small by (unfold IPFIX_HEADER_LENGTH in *; lia). done. }
  assert (Forall2 (fld_reads b') (p_fld <$> ps) (enc_header total export_time seq odid :: xs)) as Hreads.
  { rewrite Hfld. constructor.
    - split; [done|]. intros off Hoff'. unfold iov_octets. cbn [iov_base set_iov]. rewrite Hoct.
      rewrite <-(app_nil_r (enc_header _ _ _ _)) at 1. by apply rdn_drop.
    - apply Forall2_fmap_l. eapply Forall2_impl; [exact Hxs|]. intros p x Hpx. apply part_fld_reads. by rewrite Hh. }
  pose proof (copy_parts_spec b' offset ps _ Hreads ltac:(lia) 0 [] (replicate (Z.to_nat (total - offset)) uninit)) as Hcopy.
  rewrite mjoin_cons, Exs, blen_app, blen_enc_header, Hb in Hcopy. cbn [app] in Hcopy. change (blen []) with 0 in Hcopy.
  rewrite Hcopy; [|unfold IPFIX_HEADER_LENGTH in *; lia..|unfold blen; rewrite length_replicate; unfold total, IPFIX_HEADER_LENGTH in *; lia].
  rewrite res_bind_ret, Z.sub_0_r. exists b'. split; [|done].
  unfold packet_octets, enc_message. by rewrite Hb.
Qed.

(** Packets that are asked for one after the other, in any order. *)
Record request := { rq_seq : Z; rq_idx : nat; rq_offset : Z }.
Fixpoint run_requests (b : fwd_bldr) (rqs : list request) : res (list (option (bytes * Z * Z))) :=
  match rqs with
  | [] => Ok []
  | rq :: rqs =>
      x ← bldr_pkts_raw b (rq_seq rq) (rq_idx rq) (rq_offset rq) 0;
      y ← run_requests x.1 rqs; Ok (x.2 :: y)
  end.

Definition answer (spks : list (list out_set)) (rq : request) : option (bytes * Z * Z) :=
  pk ← spks !! rq_idx rq;
  Some (drop (Z.to_nat (rq_offset rq)) (packet_octets export_time odid (rq_seq rq) pk),
        IPFIX_HEADER_LENGTH + sizes set_size pk - rq_offset rq, u32 (packet_recs pk)).
Definition request_ok (spks : list (list out_set)) (rq : request) : Prop :=
  ∃ pk, spks !! rq_idx rq = Some pk ∧ 0 ≤ rq_offset rq < IPFIX_HEADER_LENGTH + sizes set_size pk.

Lemma run_requests_spec gpks spks rqs :
  Forall (λ pk, IPFIX_HEADER_LENGTH + sizes set_size pk < 65536) spks → Forall (request_ok spks) rqs →
  ∀ b, pkts_rep export_time odid b gpks spks → run_requests b rqs = Ok (answer spks <$> rqs).
Proof.
  intros Hsz. induction 1 as [|rq rqs (pk & Hpk & Hoff) _ IH]; intros b Hrep; [done|]. cbn [run_requests].
  destruct (bldr_pkts_raw_spec b gpks spks (rq_seq rq) (rq_idx rq) pk (rq_offset rq) 0 Hrep Hpk) as (b' & E & Hrep');
    [by eapply Forall_lookup_1 in Hsz|done|].
  rewrite E, res_bind_ret. cbn [fst snd]. rewrite (IH b' Hrep'), res_bind_ret. rewrite fmap_cons.
  do 2 f_equal. unfold answer. by rewrite Hpk.
Qed.
End complete.

(** A builder between messages. *)
Record bldr_ok (b : fwd_bldr) : Prop := {
  bo_rec : (1 ≤ length (rec (part_all b)))%nat;
  bo_pkts : (0 < length (pkt_arr (part_all b)))%nat;
  bo_arr : arr_ok (headers b);
  bo_version : h_version (bldr_header b) = IPFIX_VERSION
}.

Lemma pkts_rep_ok export_time odid b gpks spks : pkts_rep export_time odid b gpks spks → bldr_ok b.
Proof.
  intros [_ Ha (p0 & pss & Hu & _) [_ _ Hpos] _ Hv _ _]. constructor; try done.
  unfold parts_used in Hu. destruct (rec (part_all b)); [by rewrite take_nil in Hu|cbn; lia].
Qed.

Lemma bldr_create_ok : bldr_ok bldr_create.
Proof. by repeat constructor; cbn; try lia. Qed.

Lemma bldr_start_rep b odid export_time : bldr_ok b →
  bldr_rep (bldr_header (bldr_start b odid export_time)) (bldr_start b odid export_time) [] [].
Proof.
  intros [Hr Hp [? ? ?] Hv]. constructor; try done.
  - constructor; cbn; [done|lia|done].
  - unfold parts_used. cbn. destruct (rec (part_all b)) as [|p0 l]; [cbn in Hr; lia|]. by exists p0.
  - constructor.
Qed.

(** What a complete builder gives: the packets of [ss], however they are asked for. *)
Definition delivers (b : fwd_bldr) (odid export_time size : Z) (ss : list out_set) : Prop :=
  let pks := packets set_size (Z.max size PACKET_MIN_SIZE) ss in
  bldr_pkts_cnt b = Z.of_nat (length pks) ∧ bldr_pkts_get_odid b = odid ∧
  (∀ rqs, Forall (request_ok pks) rqs → run_requests b rqs = Ok (answer export_time odid pks <$> rqs)) ∧
  mjoin pks = ss ∧ Forall (packet_fits set_size (Z.max size PACKET_MIN_SIZE)) pks ∧ bldr_ok b.

Lemma length_ranges n pks : length (ranges n pks) = length pks.
Proof. revert n. induction pks; intros n; cbn; auto. Qed.

Lemma bldr_end_delivers b odid export_time b1 gs ss size :
  bldr_ok b → bldr_rep (bldr_header (bldr_start b odid export_time)) b1 gs ss → is_u16 size →
  Forall (λ s, IPFIX_HEADER_LENGTH + set_size s < 65536) ss →
  ∃ b2, bldr_end b1 size = Ok (0, b2) ∧ delivers b2 odid export_time size ss.
Proof.
  intros Hb Hrep [Hs0 Hs] Hss.
  destruct (bldr_end_spec _ b1 gs ss size Hrep (bo_version _ Hb)) as (b2 & E2 & Hpk). exists b2. split; [done|].
  unfold delivers. cbv zeta. set (pks := packets set_size _ ss) in *.
  pose proof (packets_fit set_size (Z.max size PACKET_MIN_SIZE) ss) as [Hfit _]. fold pks in Hfit.
  assert (mjoin pks = ss) as Hjoin by apply packets_join.
  pose proof (pkts_rep_ok _ _ _ _ _ Hpk) as Hok. split_and!; [| | |done..].
  - unfold bldr_pkts_cnt. rewrite (kr_complete _ _ _ _ _ Hpk). f_equal.
    destruct (kr_ranges _ _ _ _ _ Hpk) as [Harr Hsz _]. apply (f_equal length) in Harr.
    rewrite length_take, Nat.min_l, length_fmap in Harr by lia.
    by rewrite Harr, length_ranges, (Forall2_length _ _ _ (kr_groups _ _ _ _ _ Hpk)).
  - exact (kr_odid _ _ _ _ _ Hpk).
  - intros rqs Hrqs. eapply run_requests_spec; [|done|exact Hpk].
    apply Forall_forall. intros pk Hin. eapply Forall_forall in Hfit; [|exact Hin].
    destruct Hfit as [Hfit|Hone]; [unfold PACKET_MIN_SIZE in *; lia|].
    destruct pk as [|s [|? ?] ]; [done| |done]. cbn [sizes foldr]. rewrite Z.add_0_r.
    rewrite Forall_forall in Hss. apply Hss. rewrite <-Hjoin. apply list_elem_of_join. exists [s]. split; [constructor|done].
Qed.

Lemma run_ops_start b odid export_time ops : bldr_ok b → Forall op_ok ops →
  ∃ b1 gs, run_ops (bldr_start b odid export_time) ops = Ok (0, b1) ∧
    bldr_rep (bldr_header (bldr_start b odid export_time)) b1 gs (foldl spec_op [] ops).
Proof.
  intros Hb Hops. pose proof (bldr_start_rep b odid export_time Hb) as Hrep.
  destruct (run_ops_spec _ ops _ [] [] Hrep (Forall_nil_2 _) Hops) as (b1 & gs & E1 & Hrep1 & _). by exists b1, gs.
Qed.

(** ** Properties *)

(** C20: the packet builder refines the specification on lists of sets.  After
    [bldr_start], any valid additions succeed, and after [bldr_end] there are the packets
    that the specification has: together they hold all sets that were added, in their
    order, each is at most as long as asked for (256 octets at least) or has one set
    only, and whatever packets are asked for, in any order and as often as one likes,
    each is the IPFIX message of its sets without the first [offset] octets, with the
    number of its data records. *)
Theorem builder_refines_packets b odid export_time ops size rqs :
  bldr_ok b → Forall op_ok ops → is_u16 size →
  let ss := foldl spec_op [] ops in
  let pks := packets set_size (Z.max size PACKET_MIN_SIZE) ss in
  Forall (λ s, IPFIX_HEADER_LENGTH + set_size s < 65536) ss → Forall (request_ok pks) rqs →
  ∃ b1 b2, run_ops (bldr_start b odid export_time) ops = Ok (0, b1) ∧ bldr_end b1 size = Ok (0, b2) ∧
    bldr_pkts_cnt b2 = Z.of_nat (length pks) ∧ bldr_pkts_get_odid b2 = odid ∧
    run_requests b2 rqs = Ok (answer export_time odid pks <$> rqs) ∧
    mjoin pks = ss ∧ Forall (packet_fits set_size (Z.max size PACKET_MIN_SIZE)) pks ∧ bldr_ok b2.
Proof.
  intros Hb Hops Hs ss pks Hss Hrqs.
  destruct (run_ops_start b odid export_time ops Hb Hops) as (b1 & gs & E1 & Hrep).
  destruct (bldr_end_delivers b odid export_time b1 gs ss size Hb Hrep Hs Hss) as (b2 & E2 & Hc & Ho & Hr & Hj & Hf & Hb2).
  exists b1, b2. do 4 (split; [done|]). split; [by apply Hr|done].
Qed.

(** Two data sets, one of them under a new identifier, a template and withdrawals: two
    packets, asked for twice. *)
Lemma builder_refines_packets_witness :
  let ops := [AddTemplate 256 [0; 1; 0; 8; 0; 4] [9] 300 TM_TEMPLATE; AddWithdrawal 301 TM_TEMPLATE;
              AddDataset 256 (replicate 100 7) [1] 300 25; AddDataset 300 (replicate 150 8) [] 300 10] in
  ∃ b1 b2, run_ops (bldr_start bldr_create 5 1700000000) ops = Ok (0, b1) ∧ bldr_end b1 200 = Ok (0, b2) ∧
    bldr_pkts_cnt b2 = 2 ∧
    ∃ l, run_requests b2 [ {| rq_seq := 1; rq_idx := 1; rq_offset := 0 |}; {| rq_seq := 1; rq_idx := 0; rq_offset := 16 |} ] = Ok l.
Proof.
  intros ops.
  destruct (builder_refines_packets bldr_create 5 1700000000 ops 200
    [ {| rq_seq := 1; rq_idx := 1; rq_offset := 0 |}; {| rq_seq := 1; rq_idx := 0; rq_offset := 16 |} ])
    as (b1 & b2 & E1 & E2 & E3 & _ & E4 & _).
  - exact bldr_create_ok.
  - repeat (constructor; [by vm_compute|]). constructor.
  - done.
  - by apply (bool_decide_unpack _).
  - constructor; [|constructor; [|constructor] ]; eexists; (split; [by vm_compute|by vm_compute]).
  - exists b1, b2. split; [exact E1|]. split; [exact E2|]. split; [exact E3|]. eexists. exact E4.
Defined.
