(* ===== verification/TemplateManager.v ===== *)
(** * TemplateManager: the templates of all sources

    The template manager of [base/src/template_manager.c] on the structures of
    [base/headers/ipfixcol/templates.h].  Templates and the records of sources
    are heap objects: the arrays and the chains of older templates hold their
    addresses, and a freed object is gone from its heap. *)

From S2P Require Import Prelude TemplateRecord DataRecord.

(** ** Data *)

(** [struct ipfix_template_mgr_record].  [templates] is the allocated array;
    [max_length] is what the code takes its length to be. *)
Record tm_record := {
  templates : list (option loc);
  max_length : Z;
  counter : Z;
  rec_key : Z;
  registrations : Z;
  rec_next : option loc
}.

(** [struct ipfix_template_key]. *)
Record ipfix_template_key := { odid : Z; crc : Z; tid : Z }.

(** [struct ipfix_template_mgr] with the two heaps it points into. *)
Abbreviation template_heap := (gmap loc ipfix_template).
Record template_mgr := {
  theap : template_heap;
  rheap : gmap loc tm_record;
  first : option loc;
  last : option loc
}.

Definition tm_key_create (odid_ crc_ tid_ : Z) : ipfix_template_key :=
  {| odid := odid_; crc := crc_; tid := tid_ |}.
Definition tm_key_change_template_id (key : ipfix_template_key) (tid_ : Z) : ipfix_template_key :=
  {| odid := odid key; crc := crc key; tid := tid_ |}.

Definition table_key (key : ipfix_template_key) : Z := Z.lor (Z.shiftl (odid key) 32) (crc key).

(** *** Accesses through pointers *)

Definition rd_slot (r : tm_record) (i : Z) : res (option loc) :=
  if decide (0 ≤ i) then or_fault OobRead (templates r !! Z.to_nat i) else Fault OobRead.

Definition set_templates (r : tm_record) (ts : list (option loc)) (cnt : Z) : tm_record :=
  {| templates := ts; max_length := max_length r; counter := cnt; rec_key := rec_key r;
     registrations := registrations r; rec_next := rec_next r |}.
Definition wr_slot (r : tm_record) (i : Z) (p : option loc) (cnt : Z) : tm_record :=
  set_templates r (<[Z.to_nat i := p]> (templates r)) cnt.

Definition set_next (t : ipfix_template) (n : option loc) : ipfix_template :=
  {| original_id := original_id t; references := references t; next := n;
     template_type := template_type t; first_transmission := first_transmission t;
     last_transmission := last_transmission t; last_message := last_message t;
     template_id := template_id t; field_count := field_count t;
     scope_field_count := scope_field_count t; template_length := template_length t;
     data_length := data_length t; offsets := offsets t; fields := fields t |}.
Definition set_template_id (t : ipfix_template) (i : Z) : ipfix_template :=
  {| original_id := original_id t; references := references t; next := next t;
     template_type := template_type t; first_transmission := first_transmission t;
     last_transmission := last_transmission t; last_message := last_message t;
     template_id := i; field_count := field_count t;
     scope_field_count := scope_field_count t; template_length := template_length t;
     data_length := data_length t; offsets := offsets t; fields := fields t |}.
Definition set_references (t : ipfix_template) (n : Z) : ipfix_template :=
  {| original_id := original_id t; references := n; next := next t;
     template_type := template_type t; first_transmission := first_transmission t;
     last_transmission := last_transmission t; last_message := last_message t;
     template_id := template_id t; field_count := field_count t;
     scope_field_count := scope_field_count t; template_length := template_length t;
     data_length := data_length t; offsets := offsets t; fields := fields t |}.

(** ** The record of one source *)

Definition tm_record_create : tm_record :=
  {| templates := replicate 32 None; max_length := 32; counter := 0; rec_key := 0;
     registrations := 0; rec_next := None |}.

(** The array is doubled when it is full ([max_length] has 16 bits), and the
    template goes to the first free entry. *)
Definition tm_record_grow (r : tm_record) : tm_record :=
  if decide (counter r = max_length r) then
    {| templates := take (Z.to_nat (max_length r)) (templates r) ++
                    replicate (Z.to_nat (max_length r)) None;
       max_length := u16 (max_length r * 2); counter := counter r; rec_key := rec_key r;
       registrations := registrations r; rec_next := rec_next r |}
  else r.

Definition tm_record_insert_template_step (new_tmpl : loc) (r : tm_record) (i : Z) :
    res (Z + tm_record) :=
  if decide (i < max_length r) then
    p ← rd_slot r i;
    match p with
    | None => Ok (inr (wr_slot r i (Some new_tmpl) (u16 (counter r + 1))))
    | Some _ => Ok (inl (i + 1))
    end
  else Ok (inr r).

Definition tm_record_insert_template (r : tm_record) (new_tmpl : loc) : res tm_record :=
  let r := tm_record_grow r in
  loop (tm_record_insert_template_step new_tmpl r) (S (Z.to_nat (max_length r))) 0.

(** The result also has the pointer returned, [None] for NULL. *)
Definition tm_record_add_template (h : template_heap) (r : tm_record) (mem : bytes)
    (template max_len type now : Z) : res (template_heap * tm_record * option loc) :=
  t ← tm_create_template mem template max_len type now;
  match t with
  | None => Ok (h, r, None)
  | Some t =>
      let l := fresh (dom h) in
      r ← tm_record_insert_template r l;
      Ok (<[l := t]> h, r, Some l)
  end.

(** Freeing a template and the older ones behind it. *)
Definition free_chain_step (s : template_heap * loc) : res ((template_heap * loc) + template_heap) :=
  let '(h, l) := s in
  t ← deref h l;
  match next t with
  | Some n => Ok (inl (delete l h, n))
  | None => Ok (inr (delete l h))
  end.
Definition free_chain (h : template_heap) (l : loc) : res template_heap :=
  loop free_chain_step (S (size h)) (h, l).

Definition tm_record_remove_template_step (h : template_heap) (r : tm_record) (template_id : Z)
    (i : Z) : res (Z + (template_heap * tm_record * Z)) :=
  if decide (i < max_length r) then
    p ← rd_slot r i;
    match p with
    | None => Ok (inl (i + 1))
    | Some l =>
        t ← deref h l;
        if decide (original_id t = template_id) then
          h ← free_chain h l;
          Ok (inr (h, wr_slot r i None (u16 (counter r - 1)), 0))
        else Ok (inl (i + 1))
    end
  else Ok (inr (h, r, 1)).

Definition tm_record_remove_template (h : template_heap) (r : tm_record) (template_id : Z) :
    res (template_heap * tm_record * Z) :=
  loop (tm_record_remove_template_step h r template_id) (S (Z.to_nat (max_length r))) 0.

(** The search for an identifier stops when as many templates were seen as the
    counter says; [Some (i, l)] is the entry and the template in it. *)
Definition tm_record_search_step (h : template_heap) (r : tm_record) (id : Z) (s : Z * Z) :
    res ((Z * Z) + option (Z * loc)) :=
  let '(i, count) := s in
  if decide (i < max_length r ∧ count < counter r) then
    p ← rd_slot r i;
    match p with
    | None => Ok (inl (i + 1, count))
    | Some l =>
        t ← deref h l;
        if decide (original_id t = id) then Ok (inr (Some (i, l))) else Ok (inl (i + 1, count + 1))
    end
  else Ok (inr None).

Definition tm_record_search (h : template_heap) (r : tm_record) (id : Z) : res (option (Z * loc)) :=
  loop (tm_record_search_step h r id) (S (Z.to_nat (max_length r))) (0, 0).

Definition tm_record_template_index (h : template_heap) (r : tm_record) (id : Z) : res Z :=
  x ← tm_record_search h r id; Ok (match x with Some (i, _) => i | None => -1 end).

Definition tm_record_get_template (h : template_heap) (r : tm_record) (template_id : Z) :
    res (option loc) :=
  x ← tm_record_search h r template_id; Ok (match x with Some (_, l) => Some l | None => None end).

Definition tm_record_update_template (h : template_heap) (r : tm_record) (mem : bytes)
    (template max_len type now : Z) : res (template_heap * tm_record * option loc) :=
  id ← rd16 mem template;
  i ← tm_record_template_index h r id;
  if decide (i < 0) then tm_record_add_template h r mem template max_len type now else
  p ← rd_slot r i;
  match p with
  | None => Fault UseAfterFree
  | Some l =>
    old ← deref h l;
    let templ_id := template_id old in
    t ← tm_create_template mem template max_len type now;
    match t with
    | None => Ok (h, r, None)
    | Some new =>
      c ← tm_compare_templates new old;
      if decide (c = 0) then Ok (h, r, Some l) else
      let new_tmpl := fresh (dom h) in
      let new := set_template_id new templ_id in
      if decide (references old = 0) then
        match next old with
        | None =>
            let h := <[new_tmpl := new]> h in
            x ← tm_record_remove_template h r id;
            let '(h, r, _) := x in
            r ← tm_record_insert_template r new_tmpl;
            Ok (h, r, Some new_tmpl)
        | Some older =>
            Ok (<[new_tmpl := set_next new (Some older)]> (delete l h),
                wr_slot r i (Some new_tmpl) (counter r), Some new_tmpl)
        end
      else
        Ok (<[new_tmpl := set_next new (Some l)]> h,
            wr_slot r i (Some new_tmpl) (counter r), Some new_tmpl)
    end
  end.

(** Templates of one type are freed; the counter stays (the record is freed next). *)
Definition tm_record_remove_all_templates_step (max_len type : Z)
    (s : template_heap * tm_record * Z) :
    res ((template_heap * tm_record * Z) + (template_heap * tm_record)) :=
  let '(h, r, i) := s in
  if decide (i < max_len) then
    p ← rd_slot r i;
    match p with
    | None => Ok (inl (h, r, i + 1))
    | Some l =>
        t ← deref h l;
        if decide (template_type t = type) then
          h ← free_chain h l;
          Ok (inl (h, wr_slot r i None (counter r), i + 1))
        else Ok (inl (h, r, i + 1))
    end
  else Ok (inr (h, r)).

Definition tm_record_remove_all_templates (h : template_heap) (r : tm_record) (type : Z) :
    res (template_heap * tm_record) :=
  loop (tm_record_remove_all_templates_step (max_length r) type) (S (Z.to_nat (max_length r))) (h, r, 0).

(** Both types, then the record itself (freed by the caller's heap). *)
Definition tm_record_destroy (h : template_heap) (r : tm_record) : res template_heap :=
  x ← tm_record_remove_all_templates h r TM_TEMPLATE;
  y ← tm_record_remove_all_templates x.1 x.2 TM_OPTIONS_TEMPLATE;
  Ok y.1.

(** ** The manager *)

Definition set_registrations (r : tm_record) (n : Z) : tm_record :=
  {| templates := templates r; max_length := max_length r; counter := counter r;
     rec_key := rec_key r; registrations := n; rec_next := rec_next r |}.
Definition set_rec_next (r : tm_record) (n : option loc) : tm_record :=
  {| templates := templates r; max_length := max_length r; counter := counter r;
     rec_key := rec_key r; registrations := registrations r; rec_next := n |}.
Definition set_rec_key (r : tm_record) (k : Z) : tm_record :=
  {| templates := templates r; max_length := max_length r; counter := counter r;
     rec_key := k; registrations := registrations r; rec_next := rec_next r |}.

(** Writing the state of one record back, and the heap of templates. *)
Definition put_record (tm : template_mgr) (h : template_heap) (p : loc) (r : tm_record) : template_mgr :=
  {| theap := h; rheap := <[p := r]> (rheap tm); first := first tm; last := last tm |}.

Definition tm_create : template_mgr :=
  {| theap := ∅; rheap := ∅; first := None; last := None |}.

Definition tm_record_lookup_step (tm : template_mgr) (k : Z) (p : option loc) :
    res (option loc + option loc) :=
  match p with
  | None => Ok (inr None)
  | Some l =>
      r ← deref (rheap tm) l;
      if decide (rec_key r = k) then Ok (inr (Some l)) else Ok (inl (rec_next r))
  end.

Definition tm_record_lookup (tm : template_mgr) (key : ipfix_template_key) : res (option loc) :=
  loop (tm_record_lookup_step tm (table_key key)) (S (S (size (rheap tm)))) (first tm).

(** A new record is appended at the end of the list. *)
Definition tm_record_lookup_insert (tm : template_mgr) (key : ipfix_template_key) :
    res (template_mgr * loc) :=
  x ← tm_record_lookup tm key;
  match x with
  | Some l => Ok (tm, l)
  | None =>
      let l := fresh (dom (rheap tm)) in
      let rec := set_rec_next (set_rec_key tm_record_create (table_key key)) None in
      match first tm with
      | None =>
          Ok ({| theap := theap tm; rheap := <[l := rec]> (rheap tm); first := Some l; last := Some l |}, l)
      | Some _ =>
          e ← or_fault UseAfterFree (last tm);
          r ← deref (rheap tm) e;
          Ok ({| theap := theap tm;
                 rheap := <[l := rec]> (<[e := set_rec_next r (Some l)]> (rheap tm));
                 first := first tm; last := Some l |}, l)
      end
  end.

(** The two critical sections of [tm_source_register]; 0 is success. *)
Definition tm_source_register (tm : template_mgr) (odid_ crc_ : Z) : res (template_mgr * Z) :=
  let key := {| odid := odid_; crc := crc_; tid := 0 |} in
  x ← tm_record_lookup_insert tm key;
  let tm := x.1 in
  p ← tm_record_lookup tm key;
  match p with
  | None => Ok (tm, 1)
  | Some l =>
      r ← deref (rheap tm) l;
      Ok (put_record tm (theap tm) l (set_registrations r (u16 (registrations r + 1))), 0)
  end.

Definition tm_source_unregister (tm : template_mgr) (odid_ crc_ : Z) : res (template_mgr * Z) :=
  p ← tm_record_lookup tm {| odid := odid_; crc := crc_; tid := 0 |};
  match p with
  | None => Ok (tm, 1)
  | Some l =>
      r ← deref (rheap tm) l;
      if decide (registrations r > 0)
      then Ok (put_record tm (theap tm) l (set_registrations r (u16 (registrations r - 1))), 0)
      else Ok (tm, 0)
  end.

(** An operation on the record of a key; the record is made if there is none. *)
Definition with_record {A} (tm : template_mgr) (key : ipfix_template_key)
    (op : template_heap → tm_record → res (template_heap * tm_record * A)) : res (template_mgr * A) :=
  x ← tm_record_lookup_insert tm key;
  let '(tm, l) := x in
  r ← deref (rheap tm) l;
  y ← op (theap tm) r;
  let '(h, r, a) := y in
  Ok (put_record tm h l r, a).

Definition tm_add_template (tm : template_mgr) (mem : bytes) (template max_len type now : Z)
    (key : ipfix_template_key) : res (template_mgr * option loc) :=
  with_record tm key (λ h r, tm_record_add_template h r mem template max_len type now).

Definition tm_update_template (tm : template_mgr) (mem : bytes) (template max_len type now : Z)
    (key : ipfix_template_key) : res (template_mgr * option loc) :=
  with_record tm key (λ h r, tm_record_update_template h r mem template max_len type now).

(** [tm_insert_template]: the template is an object of the heap already. *)
Definition tm_insert_template (tm : template_mgr) (tmpl : loc) (key : ipfix_template_key) :
    res (template_mgr * option loc) :=
  with_record tm key (λ h r, r ← tm_record_insert_template r tmpl; Ok (h, r, Some tmpl)).

Definition tm_remove_template (tm : template_mgr) (key : ipfix_template_key) : res (template_mgr * Z) :=
  p ← tm_record_lookup tm key;
  match p with
  | None => Ok (tm, 1)
  | Some l =>
      r ← deref (rheap tm) l;
      y ← tm_record_remove_template (theap tm) r (u16 (tid key));
      let '(h, r, ret) := y in
      Ok (put_record tm h l r, ret)
  end.

Definition tm_get_template (tm : template_mgr) (key : ipfix_template_key) : res (option loc) :=
  p ← tm_record_lookup tm key;
  match p with
  | None => Ok None
  | Some l => r ← deref (rheap tm) l; tm_record_get_template (theap tm) r (u16 (tid key))
  end.

Definition tm_template_reference_inc (h : template_heap) (l : loc) : res template_heap :=
  t ← deref h l; Ok (<[l := set_references t (u32 (references t + 1))]> h).
Definition tm_template_reference_dec (h : template_heap) (l : loc) : res template_heap :=
  t ← deref h l;
  if decide (references t > 0) then Ok (<[l := set_references t (u32 (references t - 1))]> h) else Ok h.

(** Unlinking the record [aux] behind [prev] and destroying it; the result has
    the new [prev] and [aux]. *)
Definition tm_unlink (tm : template_mgr) (prev : option loc) (aux : loc) :
    res (template_mgr * option loc * option loc) :=
  r ← deref (rheap tm) aux;
  if decide (first tm = Some aux) then
    let lst := if decide (last tm = Some aux) then None else last tm in
    h ← tm_record_destroy (theap tm) r;
    let tm := {| theap := h; rheap := delete aux (rheap tm); first := rec_next r; last := lst |} in
    Ok (tm, first tm, first tm)
  else
    let lst := if decide (last tm = Some aux) then prev else last tm in
    p ← or_fault UseAfterFree prev;
    pr ← deref (rheap tm) p;
    let rh := <[p := set_rec_next pr (rec_next r)]> (rheap tm) in
    h ← tm_record_destroy (theap tm) r;
    let tm := {| theap := h; rheap := delete aux rh; first := first tm; last := lst |} in
    pr ← deref (rheap tm) p;
    Ok (tm, prev, rec_next pr).

(** The loop both removals share: records that [keep] says so or that have
    registrations stay. *)
Definition tm_remove_records_step (keep : Z → bool) (s : template_mgr * option loc * option loc) :
    res ((template_mgr * option loc * option loc) + template_mgr) :=
  let '(tm, prev, aux) := s in
  match aux with
  | None => Ok (inr tm)
  | Some l =>
      r ← deref (rheap tm) l;
      if decide (keep (rec_key r) = true ∨ registrations r ≠ 0)
      then Ok (inl (tm, Some l, rec_next r))
      else s' ← tm_unlink tm prev l; Ok (inl s')
  end.

Definition tm_remove_all_templates (tm : template_mgr) : res template_mgr :=
  loop (tm_remove_records_step (λ _, false)) (S (S (size (rheap tm)))) (tm, first tm, first tm).

Definition tm_remove_all_odid_templates (tm : template_mgr) (odid_ : Z) : res template_mgr :=
  loop (tm_remove_records_step (λ k, bool_decide (Z.shiftr k 32 ≠ odid_)))
       (S (S (size (rheap tm)))) (tm, first tm, first tm).

(** [tm_destroy] destroys the records from the first to the last. *)
Definition tm_destroy_step (tm : template_mgr) : res (template_mgr + unit) :=
  match first tm with
  | None => Ok (inr tt)
  | Some l =>
      r ← deref (rheap tm) l;
      h ← tm_record_destroy (theap tm) r;
      Ok (inl {| theap := h; rheap := delete l (rheap tm); first := rec_next r; last := last tm |})
  end.
Definition tm_destroy (tm : option template_mgr) : res unit :=
  match tm with
  | None => Ok tt
  | Some tm => loop tm_destroy_step (S (S (size (rheap tm)))) tm
  end.

(** ** Representation *)

(** The templates reachable from [p] over [next], newest first. *)
Abbreviation tchain := (lchain next).

Definition occupied (ts : list (option loc)) : nat := length (filter is_Some ts).

(** The entry holds a template with the identifier. *)
Definition has_id (h : template_heap) (id : Z) (p : option loc) : Prop :=
  match p with
  | Some l => match h !! l with Some t => original_id t = id | None => False end
  | None => False
  end.
#[export] Instance has_id_dec h id p : Decision (has_id h id p).
Proof. unfold has_id. repeat case_match; apply _. Defined.

(** The record is well formed, and [cs] are the chains of its entries. *)
Record rec_ok (h : template_heap) (r : tm_record) (cs : list (list loc)) : Prop := {
  ro_length : Z.of_nat (length (templates r)) = max_length r;
  ro_max : 0 < max_length r < 65536;
  ro_counter : counter r = Z.of_nat (occupied (templates r));
  ro_chains : Forall2 (tchain h) (templates r) cs;
  ro_disjoint i j ci cj l :
    cs !! i = Some ci → cs !! j = Some cj → l ∈ ci → l ∈ cj → i = j;
  ro_ids i j p q id : templates r !! i = Some p → templates r !! j = Some q →
    has_id h id p → has_id h id q → i = j
}.

(** The template of an identifier, as a specification of the search. *)
Definition template_of_id (h : template_heap) (r : tm_record) (id : Z) : option (nat * loc) :=
  match find_split (has_id h id) (templates r) with
  | Some (l, Some p) => Some (length l, p)
  | _ => None
  end.

(** What an operation on one record may change: the record stays that of its
    source, templates of others are untouched, and its templates afterwards are
    old ones of its own or new ones. *)
Record rec_step (h : template_heap) (r : tm_record) (cs : list (list loc))
    (h' : template_heap) (r' : tm_record) (cs' : list (list loc)) : Prop := {
  rs_ok : rec_ok h' r' cs';
  rs_key : rec_key r' = rec_key r;
  rs_next : rec_next r' = rec_next r;
  rs_frame l : is_Some (h !! l) → l ∉ mjoin cs → h' !! l = h !! l;
  rs_footprint l : l ∈ mjoin cs' → l ∈ mjoin cs ∨ h !! l = None
}.

Section chains.
Implicit Types (h : template_heap) (p : option loc) (ls : list loc).

(** Freeing a chain removes exactly its templates. *)
Lemma free_chain_loop ls : ∀ h l fuel,
  tchain h (Some l) (l :: ls) → (length ls < fuel)%nat →
  ∃ h', loop free_chain_step fuel (h, l) = Ok h' ∧
        ∀ k, h' !! k = if decide (k ∈ l :: ls) then None else h !! k.
Proof.
  induction ls as [|l2 ls IH]; intros h l [|fuel] Hc Hf; cbn [length] in Hf; try lia.
  - destruct Hc as (_ & t & Ht & Hn). cbn in Hn. cbn [loop]. unfold free_chain_step, deref.
    rewrite Ht. cbn [or_fault]. rewrite res_bind_ret, Hn. eexists. split; [done|].
    intros k. rewrite lookup_delete. case_decide as E; case_decide as E'; try done.
    + destruct E'. subst. constructor.
    + apply elem_of_cons in E' as [->|[]%not_elem_of_nil]. done.
  - pose proof (lchain_NoDup _ _ _ Hc) as Hnd.
    destruct Hc as (_ & t & Ht & Hn). pose proof Hn as (En & t2 & Ht2 & Hn2).
    cbn [loop]. unfold free_chain_step at 1, deref.
    rewrite Ht. cbn [or_fault]. rewrite res_bind_ret, En.
    destruct (IH (delete l h) l2 fuel) as (h' & -> & Hh'); [|lia|].
    + split; [done|]. inversion Hnd as [|? ? Hnl Hnd']. subst.
      assert (∀ k, k ∈ l2 :: ls → delete l h !! k = h !! k) as Hag.
      { intros k Hk. rewrite lookup_delete_ne; [done|]. intros ->. done. }
      exists t2. split; [rewrite Hag by constructor; done|].
      eapply lchain_agree; [|exact Hn2]. intros k Hk. apply Hag. by constructor.
    + exists h'. split; [done|]. intros k. rewrite Hh', lookup_delete.
      destruct (decide (k ∈ l2 :: ls)) as [H1|H1], (decide (l = k)) as [H2|H2],
        (decide (k ∈ l :: l2 :: ls)) as [H3|H3]; try done; exfalso; set_solver.
Qed.

Lemma free_chain_spec h l ls : tchain h (Some l) (l :: ls) →
  ∃ h', free_chain h l = Ok h' ∧
        ∀ k, h' !! k = if decide (k ∈ l :: ls) then None else h !! k.
Proof.
  intros Hc. apply (free_chain_loop ls); [done|].
  pose proof (lchain_NoDup _ _ _ Hc) as Hnd.
  assert (list_to_set (l :: ls) ⊆ dom h) as Hsub.
  { intros k [?|Hk]%elem_of_list_to_set%elem_of_cons; apply elem_of_dom.
    - subst. eapply lchain_allocated; [exact Hc|constructor].
    - eapply lchain_allocated; [exact Hc|by constructor]. }
  apply subseteq_size in Hsub. rewrite size_list_to_set in Hsub by done.
  rewrite size_dom in Hsub. cbn [length] in Hsub. lia.
Qed.
End chains.

Section slots.
Implicit Types (h : template_heap) (r : tm_record) (cs : list (list loc)) (ts : list (option loc)).

Definition occ1 (p : option loc) : nat := match p with Some _ => 1 | None => 0 end.

Lemma occupied_app ts1 ts2 : occupied (ts1 ++ ts2) = (occupied ts1 + occupied ts2)%nat.
Proof. unfold occupied. by rewrite filter_app, length_app. Qed.

Lemma occupied_cons p ts : occupied (p :: ts) = (occ1 p + occupied ts)%nat.
Proof.
  unfold occupied. rewrite filter_cons.
  destruct p; [rewrite decide_True by by eexists|rewrite decide_False by apply is_Some_None]; done.
Qed.

Lemma occupied_le ts : (occupied ts ≤ length ts)%nat.
Proof. apply length_filter. Qed.

Lemma occupied_insert ts i p q : ts !! i = Some p →
  (occupied (<[i := q]> ts) + occ1 p = occupied ts + occ1 q)%nat.
Proof.
  intros Hi. pose proof (lookup_lt_Some _ _ _ Hi) as Hlt.
  rewrite insert_take_drop by done. rewrite <-(take_drop_middle ts i p Hi) at 3.
  rewrite !occupied_app, !occupied_cons. lia.
Qed.

Lemma rec_ok_lookup h r cs i p : rec_ok h r cs → templates r !! i = Some p →
  ∃ c, cs !! i = Some c ∧ tchain h p c.
Proof. intros [_ _ _ Hc _ _] Hp. by apply (Forall2_lookup_l _ _ _ _ _ Hc). Qed.

Lemma rec_ok_allocated h r cs l : rec_ok h r cs → l ∈ mjoin cs → is_Some (h !! l).
Proof.
  intros [_ _ _ Hc _ _] (c & Hl & Hin)%list_elem_of_join.
  apply list_elem_of_lookup in Hin as [i Hi].
  destruct (Forall2_lookup_r _ _ _ _ _ Hc Hi) as (p & _ & Hp). by eapply lchain_allocated.
Qed.

Lemma has_id_agree h h' p id :
  (∀ l, p = Some l → h' !! l = h !! l) → has_id h' id p ↔ has_id h id p.
Proof. destruct p as [l|]; cbn; [|done]. intros Hag. by rewrite (Hag l eq_refl). Qed.

(** Changing one entry and its chain. *)
Lemma slot_update h r cs i p0 c0 h' p' c' cnt :
  rec_ok h r cs → templates r !! i = Some p0 → cs !! i = Some c0 →
  tchain h' p' c' →
  (∀ l, is_Some (h !! l) → l ∉ c0 → h' !! l = h !! l) →
  (∀ l, l ∈ c' → l ∈ c0 ∨ h !! l = None) →
  (∀ id j q, has_id h' id p' → j ≠ i → templates r !! j = Some q → ¬ has_id h id q) →
  cnt = Z.of_nat (occupied (<[i := p']> (templates r))) →
  rec_step h r cs h' (wr_slot r (Z.of_nat i) p' cnt) (<[i := c']> cs).
Proof.
  intros Hok Hp0 Hc0 Hp' Hframe Hfoot Hids ->.
  pose proof Hok as [Hlen Hmax Hcnt Hch Hdis Huniq].
  assert (∀ j q c, j ≠ i → templates r !! j = Some q → cs !! j = Some c →
    tchain h q c ∧ ∀ l, l ∈ c → h' !! l = h !! l) as Hother.
  { intros j q c Hj Hq Hc. destruct (rec_ok_lookup _ _ _ _ _ Hok Hq) as (c2 & Hc2 & Ht).
    rewrite Hc in Hc2. simplify_eq. split; [done|]. intros l Hl. apply Hframe.
    - by eapply lchain_allocated.
    - intros Hl0. apply Hj. by eapply Hdis. }
  assert (∀ j q id, j ≠ i → templates r !! j = Some q → has_id h' id q ↔ has_id h id q) as Hhas.
  { intros j q id Hj Hq. destruct (rec_ok_lookup _ _ _ _ _ Hok Hq) as (c & Hc & Ht).
    apply has_id_agree. intros l ->. destruct (Hother j (Some l) c Hj Hq Hc) as [_ Hag].
    apply Hag. by eapply lchain_head. }
  unfold wr_slot. rewrite Nat2Z.id. split; try done; cbn [templates set_templates].
  - split; cbn [templates max_length counter set_templates].
    + by rewrite length_insert.
    + done.
    + done.
    + apply Forall2_same_length_lookup_2.
      { rewrite !length_insert. by eapply Forall2_length. }
      intros j q c Hq Hc. destruct (decide (j = i)) as [->|Hj].
      * rewrite list_lookup_insert_eq in Hq by by eapply lookup_lt_Some.
        rewrite list_lookup_insert_eq in Hc by by eapply lookup_lt_Some. by simplify_eq.
      * rewrite list_lookup_insert_ne in Hq by done. rewrite list_lookup_insert_ne in Hc by done.
        destruct (Hother j q c Hj Hq Hc) as [Ht Hag]. by eapply lchain_agree.
    + intros j1 j2 c1 c2 l H1 H2 Hl1 Hl2.
      assert (∀ j c, j ≠ i → cs !! j = Some c → l ∈ c → l ∉ c') as Hno.
      { intros j c Hj Hc Hl Hl'. destruct (Hfoot l Hl') as [Hl0|Hl0].
        - apply Hj. by eapply Hdis.
        - destruct (rec_ok_allocated h r cs l Hok) as [? ?]; [|congruence].
          apply list_elem_of_join. exists c. split; [done|]. by eapply list_elem_of_lookup_2. }
      assert (∀ j c, <[i := c']> cs !! j = Some c → j = i ∧ c = c' ∨ j ≠ i ∧ cs !! j = Some c) as Hcase.
      { intros j c Hc. destruct (decide (j = i)) as [->|Hj].
        - rewrite list_lookup_insert_eq in Hc by by eapply lookup_lt_Some. simplify_eq. by left.
        - rewrite list_lookup_insert_ne in Hc by done. by right. }
      destruct (Hcase _ _ H1) as [ [-> ->]|[? ?] ], (Hcase _ _ H2) as [ [-> ->]|[? ?] ].
      * done.
      * exfalso. by eapply Hno.
      * exfalso. by eapply Hno.
      * by eapply Hdis.
    + intros j1 j2 q1 q2 id H1 H2 Hi1 Hi2.
      destruct (decide (j1 = i)) as [->|Hj1], (decide (j2 = i)) as [->|Hj2]; [done| | |].
      * rewrite list_lookup_insert_eq in H1 by by eapply lookup_lt_Some. simplify_eq.
        rewrite list_lookup_insert_ne in H2 by done.
        exfalso. eapply Hids; [done|exact Hj2|done|]. by apply (Hhas j2).
      * rewrite list_lookup_insert_eq in H2 by by eapply lookup_lt_Some. simplify_eq.
        rewrite list_lookup_insert_ne in H1 by done.
        exfalso. eapply Hids; [done|exact Hj1|done|]. by apply (Hhas j1).
      * rewrite list_lookup_insert_ne in H1 by done. rewrite list_lookup_insert_ne in H2 by done.
        eapply Huniq; [exact H1|exact H2| |]; [by apply (Hhas j1)|by apply (Hhas j2)].
  - intros l Hl Hnin. apply Hframe; [done|]. intros Hl0. apply Hnin.
    apply list_elem_of_join. exists c0. split; [done|]. by eapply list_elem_of_lookup_2.
  - intros l (c & Hl & [j Hj]%list_elem_of_lookup)%list_elem_of_join.
    destruct (decide (j = i)) as [->|Hji].
    + rewrite list_lookup_insert_eq in Hj by by eapply lookup_lt_Some. simplify_eq.
      destruct (Hfoot l Hl) as [Hl0|]; [left|by right].
      apply list_elem_of_join. exists c0. split; [done|]. by eapply list_elem_of_lookup_2.
    + rewrite list_lookup_insert_ne in Hj by done. left.
      apply list_elem_of_join. exists c. split; [done|]. by eapply list_elem_of_lookup_2.
Qed.
End slots.

(** ** Searching *)

Section search.
Context (h : template_heap) (r : tm_record) (cs : list (list loc)) (Hok : rec_ok h r cs).

Lemma slot_allocated i l : templates r !! i = Some (Some l) → is_Some (h !! l).
Proof.
  intros Hi. destruct (rec_ok_lookup _ _ _ _ _ Hok Hi) as (c & _ & Hc).
  eapply lchain_allocated; [exact Hc|]. by eapply lchain_head.
Qed.

Lemma rd_slot_lookup i p : templates r !! i = Some p → rd_slot r (Z.of_nat i) = Ok p.
Proof. intros Hi. unfold rd_slot. rewrite decide_True by lia. by rewrite Nat2Z.id, Hi. Qed.

Lemma search_loop id : ∀ rest pre fuel,
  templates r = pre ++ rest → (length rest < fuel)%nat →
  loop (tm_record_search_step h r id) fuel (Z.of_nat (length pre), Z.of_nat (occupied pre))
  = Ok (match find_split (has_id h id) rest with
        | Some (a, Some l) => Some (Z.of_nat (length pre + length a), l)
        | _ => None
        end).
Proof.
  pose proof Hok as [Hlen Hmax Hcnt _ _ _].
  induction rest as [|p rest IH]; intros pre [|fuel] E Hf; cbn [length] in Hf; try lia;
    cbn [loop find_split]; unfold tm_record_search_step at 1.
  - rewrite app_nil_r in E. by rewrite decide_False by (rewrite <-Hlen, E; lia).
  - assert (templates r !! length pre = Some p) as Hp by (rewrite E; by apply list_lookup_middle).
    assert (length (templates r) = length pre + S (length rest))%nat as El
      by (rewrite E, length_app; done).
    assert (occupied (templates r) = occupied pre + (occ1 p + occupied rest))%nat as Eo
      by by rewrite E, occupied_app, occupied_cons.
    assert (∀ q, templates r = (pre ++ [q]) ++ rest → q = p →
      loop (tm_record_search_step h r id) fuel
        (Z.of_nat (length pre) + 1, Z.of_nat (occupied pre) + Z.of_nat (occ1 q))
      = Ok (match prod_map (cons q) Datatypes.id <$> find_split (has_id h id) rest with
            | Some (a, Some l) => Some (Z.of_nat (length pre + length a), l)
            | _ => None
            end)) as Hnext.
    { intros q Eq ->. specialize (IH (pre ++ [p]) fuel Eq ltac:(lia)).
      rewrite length_app, occupied_app, occupied_cons in IH. cbn [length] in IH.
      replace (Z.of_nat (length pre) + 1) with (Z.of_nat (length pre + 1)) by lia.
      replace (Z.of_nat (occupied pre) + Z.of_nat (occ1 p))
        with (Z.of_nat (occupied pre + (occ1 p + occupied []))) by (change (occupied []) with 0%nat; lia).
      rewrite IH. destruct (find_split (has_id h id) rest) as [ [a [l|] ]|]; [|done..].
      cbn. do 3 f_equal. lia. }
    assert (templates r = (pre ++ [p]) ++ rest) as E' by by rewrite E, <-app_assoc.
    specialize (Hnext p E' eq_refl).
    destruct (decide (Z.of_nat (occupied pre) < counter r)) as [Hc|Hc].
    2: { (* all templates were seen: the rest is empty *)
      rewrite decide_False by lia.
      assert (find_split (has_id h id) (p :: rest) = None) as Hnone.
      { destruct (find_split (has_id h id) (p :: rest)) as [ [a x]|] eqn:Ef; [|done].
        destruct (find_split_Some _ _ _ _ Ef) as (b & Eb & _ & Hx).
        destruct x as [x|]; [|done]. rewrite <-occupied_cons in Eo.
        rewrite Eb, occupied_app, occupied_cons in Eo. cbn [occ1] in Eo. lia. }
      cbn [find_split] in Hnone. by rewrite Hnone. }
    rewrite decide_True by lia.
    rewrite (rd_slot_lookup _ _ Hp), res_bind_ret. destruct p as [l|].
    + destruct (slot_allocated _ _ Hp) as [t Ht]. unfold deref. rewrite Ht.
      cbn [or_fault]. rewrite res_bind_ret.
      destruct (decide (has_id h id (Some l))) as [Hid|Hid].
      * rewrite decide_True by (cbn in Hid; by rewrite Ht in Hid). cbn [length].
        by rewrite Nat.add_0_r.
      * rewrite decide_False by (cbn in Hid; by rewrite Ht in Hid). exact Hnext.
    + rewrite (decide_False (P := has_id h id None)) by exact (λ x : False, x). cbn [occ1] in Hnext.
      by rewrite Z.add_0_r in Hnext.
Qed.

Lemma tm_record_search_spec id : tm_record_search h r id =
  Ok (match template_of_id h r id with Some (i, l) => Some (Z.of_nat i, l) | None => None end).
Proof.
  unfold tm_record_search, template_of_id.
  refine (eq_trans (search_loop id (templates r) [] (S (Z.to_nat (max_length r))) eq_refl _) _).
  - rewrite <-(ro_length _ _ _ Hok). lia.
  - destruct (find_split _ (templates r)) as [ [a [l|] ]|]; done.
Qed.

Lemma template_of_id_Some id i l : template_of_id h r id = Some (i, l) →
  templates r !! i = Some (Some l) ∧ has_id h id (Some l).
Proof.
  unfold template_of_id. destruct (find_split _ (templates r)) as [ [a [x|] ]|] eqn:E; [|done..].
  intros [= <- ->]. destruct (find_split_Some _ _ _ _ E) as (b & -> & _ & ?).
  split; [by apply list_lookup_middle|done].
Qed.

Lemma template_of_id_None id j q : template_of_id h r id = None →
  templates r !! j = Some q → ¬ has_id h id q.
Proof.
  unfold template_of_id. destruct (find_split _ (templates r)) as [ [a [x|] ]|] eqn:E; [done| |].
  - destruct (find_split_Some _ _ _ _ E) as (b & _ & _ & []).
  - intros _ Hq. apply find_split_None in E. by eapply Forall_lookup_1 in E.
Qed.

(** The search finds the one template with the identifier. *)
Lemma template_of_id_iff id i l :
  template_of_id h r id = Some (i, l) ↔ templates r !! i = Some (Some l) ∧ has_id h id (Some l).
Proof.
  split; [apply template_of_id_Some|]. intros [Hi Hid].
  destruct (template_of_id h r id) as [ [j l']|] eqn:E.
  - apply template_of_id_Some in E as [Hj Hid'].
    assert (i = j) as <- by (eapply (ro_ids _ _ _ Hok); [exact Hi|exact Hj|done|done]).
    congruence.
  - by eapply template_of_id_None in E.
Qed.
End search.

(** ** Operations on one record *)

Section record_ops.
Implicit Types (h : template_heap) (r : tm_record) (cs : list (list loc)) (t : ipfix_template).

Lemma rec_step_refl h r cs : rec_ok h r cs → rec_step h r cs h r cs.
Proof. intros Hok. split; naive_solver. Qed.

Lemma rec_step_trans h r cs h1 r1 cs1 h2 r2 cs2 :
  rec_step h r cs h1 r1 cs1 → rec_step h1 r1 cs1 h2 r2 cs2 → rec_step h r cs h2 r2 cs2.
Proof.
  intros [Hok1 K1 N1 F1 P1] [Hok2 K2 N2 F2 P2].
  split; [done|congruence|congruence| |].
  - intros l Hl Hn. rewrite <-(F1 l Hl Hn). apply F2; [by rewrite F1|].
    intros Hl1. destruct (P1 l Hl1) as [?|E]; [done|]. rewrite E in Hl. by destruct Hl.
  - intros l Hl. destruct (P2 l Hl) as [Hl1|E1]; [by apply P1|].
    destruct (decide (l ∈ mjoin cs)) as [|Hn]; [by left|right].
    destruct (h !! l) as [t|] eqn:E; [|done]. rewrite F1 in E1; [congruence|by eexists|done].
Qed.

(** The record does not care for a new object in the heap. *)
Lemma rec_ok_extend h r cs l t : rec_ok h r cs → h !! l = None → rec_ok (<[l := t]> h) r cs.
Proof.
  intros Hok Hl. assert (∀ k, is_Some (h !! k) → <[l := t]> h !! k = h !! k) as Hag.
  { intros k [? Hk]. rewrite lookup_insert_ne; [done|]. intros ->. congruence. }
  pose proof Hok as [H1 H2 H3 H4 H5 H6]. split; try done.
  - eapply Forall2_impl; [exact H4|]. intros p c Hc. eapply lchain_agree; [|exact Hc].
    intros k Hk. apply Hag. by eapply lchain_allocated.
  - intros i j p q id Hp Hq Hip Hiq.
    assert (∀ i p, templates r !! i = Some p → has_id (<[l := t]> h) id p → has_id h id p) as Hh.
    { intros i' p' Hp'. apply (has_id_agree h (<[l := t]> h)). intros k ->. apply Hag.
      by apply (slot_allocated h r cs Hok i'). }
    eapply H6; [exact Hp|exact Hq|by eapply Hh|by eapply Hh].
Qed.

(** Withdrawal: the whole chain of the identifier is freed, whatever refers to it. *)
Lemma tm_record_remove_template_spec h r cs id : rec_ok h r cs →
  match template_of_id h r id with
  | None => tm_record_remove_template h r id = Ok (h, r, 1)
  | Some (i, l) =>
      ∃ h' ls, cs !! i = Some (l :: ls) ∧
        tm_record_remove_template h r id
        = Ok (h', wr_slot r (Z.of_nat i) None (counter r - 1), 0) ∧
        (∀ k, h' !! k = if decide (k ∈ l :: ls) then None else h !! k) ∧
        rec_step h r cs h' (wr_slot r (Z.of_nat i) None (counter r - 1)) (<[i := []]> cs)
  end.
Proof.
  intros Hok. pose proof Hok as [Hlen Hmax Hcnt _ _ _].
  assert (∀ j q, templates r !! j = Some q → ¬ has_id h id q →
    tm_record_remove_template_step h r id (Z.of_nat j) = Ok (inl (Z.of_nat (S j)))) as Hskip.
  { intros j q Hq Hno. pose proof (lookup_lt_Some _ _ _ Hq). unfold tm_record_remove_template_step.
    rewrite decide_True by lia. rewrite (rd_slot_lookup r j q Hq), res_bind_ret.
    replace (Z.of_nat (S j)) with (Z.of_nat j + 1) by lia. destruct q as [l|]; [|done].
    destruct (slot_allocated _ _ _ Hok _ _ Hq) as [t Ht]. unfold deref. rewrite Ht.
    cbn [or_fault]. rewrite res_bind_ret. cbn in Hno. rewrite Ht in Hno. by rewrite decide_False. }
  assert (∀ a, (∀ j q, a !! j = Some q → templates r !! j = Some q ∧ ¬ has_id h id q) →
    ∀ l x rest, a = l ++ x :: rest →
    tm_record_remove_template_step h r id (Z.of_nat (length l)) = Ok (inl (Z.of_nat (length (l ++ [x]))))) as Hpre.
  { intros a Ha l x rest ->. rewrite length_app, Nat.add_1_r.
    destruct (Ha (length l) x) as [Hq Hno]; [by apply list_lookup_middle|]. by apply (Hskip _ x). }
  destruct (template_of_id h r id) as [ [i l]|] eqn:E.
  - destruct (template_of_id_Some _ _ _ _ _ E) as [Hi Hid].
    destruct (rec_ok_lookup _ _ _ _ _ Hok Hi) as (c & Hc & Hch).
    destruct c as [|l' ls]; [done|]. pose proof Hch as ([= <-] & t & Ht & _).
    destruct (free_chain_spec _ _ _ Hch) as (h' & Hfree & Hh').
    assert (1 ≤ occupied (templates r))%nat as Hocc.
    { rewrite <-(take_drop_middle _ _ _ Hi), occupied_app, occupied_cons. cbn [occ1]. lia. }
    pose proof (occupied_le (templates r)).
    exists h', ls. split; [done|]. split_and!.
    + unfold tm_record_remove_template.
      apply (loop_over _ (take i (templates r)) (λ a, Z.of_nat (length a))).
      * apply Hpre. intros j q [Hq Hj]%lookup_take_Some. split; [done|].
        intros Hq'. assert (j = i); [|lia].
        eapply (ro_ids _ _ _ Hok); [exact Hq|exact Hi|done|done].
      * apply loop_exit. pose proof (lookup_lt_Some _ _ _ Hi).
        rewrite length_take_le by lia. unfold tm_record_remove_template_step.
        rewrite decide_True by lia. rewrite (rd_slot_lookup r i _ Hi), res_bind_ret.
        unfold deref. rewrite Ht. cbn [or_fault]. rewrite res_bind_ret.
        rewrite decide_True by (cbn in Hid; by rewrite Ht in Hid).
        rewrite Hfree, res_bind_ret. by rewrite u16_small by lia.
      * pose proof (lookup_lt_Some _ _ _ Hi). rewrite length_take. lia.
    + done.
    + eapply slot_update; try done.
      * intros k _ Hk. by rewrite Hh', decide_False.
      * by intros ? ?%not_elem_of_nil.
      * pose proof (occupied_insert _ _ _ None Hi) as Ho. cbn [occ1] in Ho. lia.
  - unfold tm_record_remove_template.
    apply (loop_over _ (templates r) (λ a, Z.of_nat (length a))).
    + apply Hpre. intros j q Hq. split; [done|]. by eapply template_of_id_None.
    + apply loop_exit. unfold tm_record_remove_template_step. by rewrite decide_False by lia.
    + lia.
Qed.

(** There is room for another template: the array is not full, or can be
    doubled without its length wrapping around. *)
Definition room (r : tm_record) : Prop := counter r < max_length r ∨ max_length r < 32768.
#[export] Instance room_dec r : Decision (room r) := decide (counter r < max_length r ∨ max_length r < 32768).

Lemma tm_record_grow_spec h r cs : rec_ok h r cs → room r →
  ∃ n, rec_step h r cs h (tm_record_grow r) (cs ++ replicate n []) ∧
       counter (tm_record_grow r) = counter r ∧
       counter r < max_length (tm_record_grow r) ∧
       ∃ e, templates (tm_record_grow r) = templates r ++ replicate e None.
Proof.
  intros Hok Hroom. pose proof Hok as [Hlen Hmax Hcnt Hch Hdis Hids].
  pose proof (occupied_le (templates r)). unfold tm_record_grow, room in *.
  case_decide as Hfull.
  2: { exists 0%nat. rewrite app_nil_r. split_and!; [by apply rec_step_refl|done|lia|].
       exists 0%nat. by rewrite app_nil_r. }
  rewrite u16_small by lia. set (m := Z.to_nat (max_length r)).
  assert (take m (templates r) = templates r) as -> by (apply take_ge; lia).
  assert (length cs = length (templates r)) as Hlcs by (symmetry; by eapply Forall2_length).
  assert (occupied (replicate m None) = 0%nat) as Hz.
  { clear. induction m as [|m IH]; [done|]. cbn [replicate]. by rewrite occupied_cons. }
  exists m. split; [|split; [done|split; [cbn; lia|by exists m] ] ].
  split; try done.
  - split; cbn [templates max_length counter].
    + rewrite length_app, length_replicate. lia.
    + lia.
    + by rewrite occupied_app, Hz, Nat.add_0_r.
    + apply Forall2_app; [done|]. apply Forall2_replicate. done.
    + intros i j ci cj l Hi Hj Hli Hlj.
      assert (∀ i c, (cs ++ replicate m []) !! i = Some c → l ∈ c → cs !! i = Some c) as Hold.
      { intros i' c [?|[? [? _]%lookup_replicate] ]%lookup_app_Some Hl; [done|]. subst.
        by apply not_elem_of_nil in Hl. }
      eapply Hdis; [by apply Hold|by apply Hold|done|done].
    + intros i j p q id Hi Hj Hp Hq.
      assert (∀ i p, (templates r ++ replicate m None) !! i = Some p → has_id h id p →
        templates r !! i = Some p) as Hold.
      { intros i' p' [?|[? [? _]%lookup_replicate] ]%lookup_app_Some Hl; [done|]. by subst. }
      eapply Hids; [by apply Hold|by apply Hold|done|done].
  - intros l. rewrite join_app, elem_of_app.
    assert (mjoin (replicate m ([] : list loc)) = []) as ->.
    { clear. induction m as [|m IH]; [done|]. cbn. exact IH. }
    rewrite elem_of_nil. naive_solver.
Qed.

(** The template goes to the first free entry. *)
Lemma tm_record_insert_template_pure h r cs l : rec_ok h r cs → room r →
  ∃ j, templates (tm_record_grow r) !! j = Some None ∧
       tm_record_insert_template r l
       = Ok (wr_slot (tm_record_grow r) (Z.of_nat j) (Some l) (counter r + 1)) ∧
       counter r + 1 = Z.of_nat (occupied (<[j := Some l]> (templates (tm_record_grow r)))).
Proof.
  intros Hok Hroom. destruct (tm_record_grow_spec h r cs Hok Hroom) as (n & Hst & Hc & Hlt & _).
  unfold tm_record_insert_template. set (g := tm_record_grow r) in *.
  destruct (rs_ok _ _ _ _ _ _ Hst) as [Hlen Hmax Hcnt _ _ _].
  destruct (find_split (λ p, p = None) (templates g)) as [ [a p]|] eqn:E.
  2: { apply find_split_None in E. exfalso.
       assert (occupied (templates g) = length (templates g)); [|lia].
       revert E. generalize (templates g). clear. induction l as [|p l IH]; [done|].
       intros [Hp Hl]%Forall_cons. rewrite occupied_cons, IH by done. by destruct p. }
  destruct (find_split_Some _ _ _ _ E) as (b & Et & Ha & ->).
  assert (templates g !! length a = Some None) as Hj by (rewrite Et; by apply list_lookup_middle).
  exists (length a). split; [done|]. split.
  - apply (loop_over _ a (λ a, Z.of_nat (length a))).
    + intros l' x rest Ea. rewrite length_app, Nat2Z.inj_add.
      assert (templates g !! length l' = Some x) as Hx.
      { rewrite Et, Ea, <-app_assoc. by apply list_lookup_middle. }
      pose proof (lookup_lt_Some _ _ _ Hx). unfold tm_record_insert_template_step.
      rewrite decide_True by lia. rewrite (rd_slot_lookup g _ _ Hx), res_bind_ret.
      rewrite Ea in Ha. apply Forall_app in Ha as [_ [Hxn _]%Forall_cons]. by destruct x.
    + apply loop_exit. pose proof (lookup_lt_Some _ _ _ Hj).
      unfold tm_record_insert_template_step. rewrite decide_True by lia.
      rewrite (rd_slot_lookup g _ _ Hj), res_bind_ret, Hc. pose proof (occupied_le (templates r)).
      pose proof (ro_counter _ _ _ Hok). by rewrite u16_small by lia.
    + apply (f_equal length) in Et. rewrite length_app in Et. cbn [length] in Et. lia.
  - pose proof (occupied_insert _ _ _ (Some l) Hj) as Ho. cbn [occ1] in Ho. lia.
Qed.
End record_ops.

(** ** Adding and updating *)

(** The template an identifier stands for. *)
Definition lookup_id (h : template_heap) (r : tm_record) (id : Z) : option loc :=
  snd <$> template_of_id h r id.

Section lookups.
Implicit Types (h : template_heap) (r : tm_record) (cs : list (list loc)).

Lemma lookup_id_iff h r cs id l : rec_ok h r cs →
  lookup_id h r id = Some l ↔ ∃ i, templates r !! i = Some (Some l) ∧ has_id h id (Some l).
Proof.
  intros Hok. unfold lookup_id. split.
  - intros ([i l'] & E & [= ->])%fmap_Some. exists i. by apply (template_of_id_iff h r cs Hok).
  - intros (i & E). apply (template_of_id_iff h r cs Hok) in E. by rewrite E.
Qed.

Lemma tm_record_get_template_spec h r cs id : rec_ok h r cs →
  tm_record_get_template h r id = Ok (lookup_id h r id).
Proof.
  intros Hok. unfold tm_record_get_template, lookup_id.
  rewrite (tm_record_search_spec h r cs Hok), res_bind_ret.
  by destruct (template_of_id h r id) as [ [i l]|].
Qed.

Lemma option_ext {A} (x y : option A) : (∀ a, x = Some a ↔ y = Some a) → x = y.
Proof. intros H. apply option_eq. exact H. Qed.

Lemma lookup_id_grow h r cs n id : rec_ok h r cs → room r →
  rec_step h r cs h (tm_record_grow r) (cs ++ replicate n []) →
  lookup_id h (tm_record_grow r) id = lookup_id h r id.
Proof.
  intros Hok Hroom Hst. destruct (tm_record_grow_spec h r cs Hok Hroom) as (_ & _ & _ & _ & e & Et).
  apply option_ext. intros l.
  rewrite (lookup_id_iff _ _ _ _ _ (rs_ok _ _ _ _ _ _ Hst)), (lookup_id_iff _ _ _ _ _ Hok), Et.
  split; intros (i & Hi & ?); exists i; (split; [|done]).
  - apply lookup_app_Some in Hi as [?|[? [? _]%lookup_replicate] ]; done.
  - by apply lookup_app_l_Some.
Qed.

(** How changing entry [i] from [p] to [p'] changes the look-ups. *)
Lemma lookup_id_update h r cs h' r' cs' i p p' c0 id :
  rec_ok h r cs → rec_ok h' r' cs' →
  templates r !! i = Some p → cs !! i = Some c0 → templates r' = <[i := p']> (templates r) →
  (∀ l, is_Some (h !! l) → l ∉ c0 → h' !! l = h !! l) →
  lookup_id h' r' id =
    if decide (has_id h' id p') then p' else if decide (has_id h id p) then None
    else lookup_id h r id.
Proof.
  intros Hok Hok' Hp Hc Et Hframe.
  assert (∀ j l, j ≠ i → templates r !! j = Some (Some l) → h' !! l = h !! l) as Hag.
  { intros j l Hj Hl. apply Hframe; [by eapply slot_allocated|]. intros Hin. apply Hj.
    destruct (rec_ok_lookup _ _ _ _ _ Hok Hl) as (c & Hcj & Ht).
    eapply (ro_disjoint _ _ _ Hok); [exact Hcj|exact Hc|by eapply lchain_head|done]. }
  pose proof (lookup_lt_Some _ _ _ Hp) as Hlt.
  apply option_ext. intros l. rewrite (lookup_id_iff _ _ _ _ _ Hok'), Et.
  assert (∀ j, j ≠ i → templates r !! j = Some (Some l) →
    has_id h' id (Some l) ↔ has_id h id (Some l)) as Hhas.
  { intros j Hj Hl. apply (has_id_agree h h'). intros k [= <-]. by eapply Hag. }
  case_decide as H1; [|case_decide as H2].
  - split.
    + intros (j & Hj & Hid).
      assert (j = i) as ->.
      { eapply (ro_ids _ _ _ Hok' j i); rewrite ?Et; [exact Hj|by apply list_lookup_insert_eq|done|done]. }
      rewrite list_lookup_insert_eq in Hj by done. congruence.
    + intros ->. exists i. split; [by apply list_lookup_insert_eq|done].
  - split; [|done]. intros (j & Hj & Hid). destruct (decide (j = i)) as [->|Hji].
    + rewrite list_lookup_insert_eq in Hj by done. simplify_eq. done.
    + rewrite list_lookup_insert_ne in Hj by done. apply (Hhas j) in Hid; [|done..].
      exfalso. apply Hji. by eapply (ro_ids _ _ _ Hok).
  - rewrite (lookup_id_iff _ _ _ _ _ Hok). split; intros (j & Hj & Hid); exists j.
    + destruct (decide (j = i)) as [->|Hji].
      * rewrite list_lookup_insert_eq in Hj by done. simplify_eq. done.
      * rewrite list_lookup_insert_ne in Hj by done. split; [done|]. by apply (Hhas j).
    + destruct (decide (j = i)) as [->|Hji]; [by simplify_eq|].
      rewrite list_lookup_insert_ne by done. split; [done|]. by apply (Hhas j).
Qed.
End lookups.

(** What a parsed template starts with. *)
Lemma tm_create_template_shape mem p max_len type now t :
  tm_create_template mem p max_len type now = Ok (Some t) →
  rd16 mem p = Ok (original_id t) ∧ next t = None ∧ references t = 0.
Proof.
  unfold tm_create_template, tm_fill_template. intros H. inv_res.
  destruct x as [tmpl_length dl]. case_decide; [done|].
  destruct (rd16 mem (p + 2)) as [cnt| |]; [|done..].
  destruct (rd16 mem p) as [id| |]; [|done..]. rewrite !res_bind_ret in H.
  case_decide; [done|]. case_decide.
  - inv_res. done.
  - inv_res. case_decide; [done|]. inv_res. done.
Qed.

Section add_update.
Implicit Types (h : template_heap) (r : tm_record) (cs : list (list loc)) (t : ipfix_template).

(** Putting a new template in a free entry. *)
Lemma insert_new h r cs l t : rec_ok h r cs → room r → h !! l = None → next t = None →
  lookup_id h r (original_id t) = None →
  ∃ r' cs', tm_record_insert_template r l = Ok r' ∧
    rec_step h r cs (<[l := t]> h) r' cs' ∧
    ∀ id, lookup_id (<[l := t]> h) r' id =
          if decide (id = original_id t) then Some l else lookup_id h r id.
Proof.
  intros Hok Hroom Hl Hn Hid.
  destruct (tm_record_grow_spec h r cs Hok Hroom) as (n & Hg & Hc & _ & _).
  destruct (tm_record_insert_template_pure h r cs l Hok Hroom) as (j & Hj & Hins & Hocc).
  set (g := tm_record_grow r) in *. pose proof (rs_ok _ _ _ _ _ _ Hg) as Hgok.
  destruct (rec_ok_lookup _ _ _ _ _ Hgok Hj) as (c0 & Hc0 & Hch).
  assert (c0 = []) as -> by by destruct c0 as [|? ?]; [|destruct Hch].
  assert (∀ k, is_Some (h !! k) → k ∉ [] → <[l := t]> h !! k = h !! k) as Hframe.
  { intros k [? Hk] _. rewrite lookup_insert_ne; [done|]. intros ->. congruence. }
  assert (has_id (<[l := t]> h) (original_id t) (Some l)) as Hhas by (cbn; by rewrite lookup_insert_eq).
  assert (rec_step h g (cs ++ replicate n []) (<[l := t]> h)
    (wr_slot g (Z.of_nat j) (Some l) (counter r + 1)) (<[j := [l]]> (cs ++ replicate n []))) as Hst.
  { eapply slot_update; try done.
    - split; [done|]. exists t. rewrite lookup_insert_eq, Hn. done.
    - intros k ->%list_elem_of_singleton. by right.
    - intros id j' q Hid' Hj' Hq Hqid. cbn in Hid'. rewrite lookup_insert_eq in Hid'.
      destruct q as [q|]; [|done]. subst id.
      pose proof (lookup_id_grow h r cs n (original_id t) Hok Hroom Hg) as Elk.
      rewrite Hid in Elk. fold g in Elk.
      assert (lookup_id h g (original_id t) = Some q); [|congruence].
      apply (lookup_id_iff _ _ _ _ _ Hgok). by exists j'. }
  eexists _, _. split; [exact Hins|]. split; [by eapply rec_step_trans|].
  intros id. rewrite (lookup_id_update h g _ _ _ _ j None (Some l) [] id Hgok (rs_ok _ _ _ _ _ _ Hst));
    [|done|done|by cbn; rewrite Nat2Z.id|done].
  destruct (decide (id = original_id t)) as [->|Hne]; [by rewrite (decide_True (P := has_id _ _ _))|].
  rewrite (decide_False (P := has_id _ _ (Some l))) by (cbn; rewrite lookup_insert_eq; congruence).
  rewrite (decide_False (P := has_id _ _ None)) by (cbn; tauto). by apply (lookup_id_grow h r cs n).
Qed.

Lemma tm_record_add_template_spec h r cs mem p max_len type now t : rec_ok h r cs → room r →
  tm_create_template mem p max_len type now = Ok (Some t) →
  lookup_id h r (original_id t) = None →
  let l := fresh (dom h) in
  ∃ r' cs', tm_record_add_template h r mem p max_len type now = Ok (<[l := t]> h, r', Some l) ∧
    rec_step h r cs (<[l := t]> h) r' cs' ∧
    ∀ id, lookup_id (<[l := t]> h) r' id =
          if decide (id = original_id t) then Some l else lookup_id h r id.
Proof.
  intros Hok Hroom Ht Hid l. destruct (tm_create_template_shape _ _ _ _ _ _ Ht) as (_ & Hn & _).
  assert (h !! l = None) as Hl by (apply not_elem_of_dom, is_fresh).
  destruct (insert_new h r cs l t Hok Hroom Hl Hn Hid) as (r' & cs' & Hins & Hst & Hlk).
  exists r', cs'. unfold tm_record_add_template. rewrite Ht, res_bind_ret. fold l.
  by rewrite Hins, res_bind_ret.
Qed.
End add_update.

Section update.
Implicit Types (h : template_heap) (r : tm_record) (cs : list (list loc)) (t : ipfix_template).

(** What a replacing update leaves behind: the new template is found under the
    identifier, under the collector's identifier of the old one; templates with
    references and the look-ups of other identifiers are as they were. *)
Record updated h r cs id (old new : ipfix_template) (l : loc) h' r' cs' : Prop := {
  up_step : rec_step h r cs h' r' cs';
  up_new : ∃ n, h' !! l = Some (set_next (set_template_id new (template_id old)) n);
  up_referenced k t : h !! k = Some t → references t > 0 → h' !! k = Some t;
  up_lookup id' : lookup_id h' r' id' = if decide (id' = id) then Some l else lookup_id h r id'
}.

Context (h : template_heap) (r : tm_record) (cs : list (list loc)) (Hok : rec_ok h r cs).
Context (id : Z) (i : nat) (l : loc) (old new : ipfix_template).
Context (Hi : template_of_id h r id = Some (i, l)) (Hold : h !! l = Some old).
Context (Hnew : original_id new = id) (Hnn : next new = None).
Let l' := fresh (dom h).

Lemma fresh_new : h !! l' = None.
Proof. apply not_elem_of_dom, is_fresh. Qed.

(** The new template in front of a chain of old ones, which are those of the
    entry, or those without a head that nobody refers to. *)
Lemma update_in_place h' n ls : 
  (∀ k, h' !! k = if decide (k = l') then Some (set_next (set_template_id new (template_id old)) n)
                  else if decide (k = l ∧ n = next old) then None else h !! k) →
  (n = Some l ∨ n = next old ∧ references old = 0 ∧ n ≠ Some l) → tchain h n ls →
  (∀ k, k ∈ ls → ∃ c, cs !! i = Some c ∧ k ∈ c) → (n = next old → l ∉ ls) →
  ∃ cs', updated h r cs id old new l' h' (wr_slot r (Z.of_nat i) (Some l') (counter r)) cs'.
Proof.
  intros Hh' Hcase Hch Hin Hln. pose proof fresh_new as Hfr.
  destruct (template_of_id_Some _ _ _ _ _ Hi) as [Hsl Hid].
  destruct (rec_ok_lookup _ _ _ _ _ Hok Hsl) as (c0 & Hc0 & Hch0).
  assert (l ∈ c0) as Hlc by by eapply lchain_head.
  assert (∀ k, is_Some (h !! k) → k ≠ l → h' !! k = h !! k) as Hag.
  { intros k [? Hk] Hkl. rewrite Hh', decide_False by congruence. by rewrite decide_False by tauto. }
  assert (h' !! l' = Some (set_next (set_template_id new (template_id old)) n)) as Hl'
    by by rewrite Hh', decide_True.
  assert (∀ k, is_Some (h !! k) → k ∉ c0 → h' !! k = h !! k) as Hframe.
  { intros k Hk Hkc. apply Hag; [done|]. congruence. }
  assert (has_id h' id (Some l')) as Hhas by by cbn; rewrite Hl'.
  assert (∀ k, k ∈ ls → h' !! k = h !! k) as Hls.
  { intros k Hk. pose proof (lchain_allocated _ _ _ _ Hch Hk) as Hal.
    destruct (decide (k = l)) as [->|]; [|by apply Hag].
    rewrite Hh', decide_False by (intros ->; destruct Hal; congruence).
    rewrite decide_False; [done|]. intros [_ E]. by destruct (Hln E). }
  assert (rec_step h r cs h' (wr_slot r (Z.of_nat i) (Some l') (counter r)) (<[i := l' :: ls]> cs)) as Hst.
  { eapply slot_update; try done.
    - split; [done|]. eexists. split; [exact Hl'|]. eapply lchain_agree; [|exact Hch]. exact Hls.
    - intros k [->|Hk]%elem_of_cons; [by right|]. destruct (Hin k Hk) as (c & Hc & Hkc).
      left. by simplify_eq.
    - intros id' j q Hid' Hj Hq Hqid. cbn in Hid'. rewrite Hl' in Hid'. cbn in Hid'.
      apply Hj. eapply (ro_ids _ _ _ Hok); [exact Hq|exact Hsl|exact Hqid|].
      by rewrite <-Hid', Hnew.
    - pose proof (occupied_insert _ _ _ (Some l') Hsl) as Ho. cbn [occ1] in Ho.
      pose proof (ro_counter _ _ _ Hok). lia. }
  eexists. split; [exact Hst|by eexists| |].
  - intros k t Hk Ht. destruct (decide (k = l)) as [->|]; [|by rewrite (Hag k); [|by eexists|] ].
    rewrite Hold in Hk. simplify_eq. rewrite Hh', decide_False by (intros E; rewrite <-E in Hfr; congruence).
    rewrite decide_False; [done|]. intros [_ E]. destruct Hcase as [->|(_ & ? & _)]; [|lia].
    (* the head is its own successor *)
    destruct c0 as [|x c0]; [done|]. pose proof (lchain_NoDup _ _ _ Hch0) as Hnd.
    destruct Hch0 as ([= <-] & t' & Ht' & Hc). rewrite Hold in Ht'. simplify_eq. rewrite <-E in Hc.
    inversion Hnd. subst. by apply lchain_head in Hc.
  - intros id'. rewrite (lookup_id_update h r cs _ _ _ i (Some l) (Some l') c0 id' Hok
      (rs_ok _ _ _ _ _ _ Hst)); [|done|done|by cbn; rewrite Nat2Z.id|done].
    destruct (decide (id' = id)) as [->|Hne].
    + by rewrite decide_True.
    + rewrite !decide_False; [done| |].
      * cbn. rewrite Hold. cbn in Hid. rewrite Hold in Hid. congruence.
      * cbn. rewrite Hl'. cbn. congruence.
Qed.

(** Replacing a template without older ones and references: it is removed, and
    the new one goes to a free entry. *)
Lemma update_replace : next old = None → references old = 0 →
  let new' := set_template_id new (template_id old) in
  ∃ h1 r1 ret r' cs',
    tm_record_remove_template (<[l' := new']> h) r id = Ok (h1, r1, ret) ∧
    tm_record_insert_template r1 l' = Ok r' ∧ updated h r cs id old new l' h1 r' cs'.
Proof.
  intros Hno Href new'. pose proof fresh_new as Hfr.
  destruct (template_of_id_Some _ _ _ _ _ Hi) as [Hsl Hid].
  pose proof (rec_ok_extend h r cs l' new' Hok Hfr) as Hok1.
  assert (l ≠ l') as Hll by congruence.
  assert (template_of_id (<[l' := new']> h) r id = Some (i, l)) as Hi1.
  { apply (template_of_id_iff _ _ _ Hok1). split; [done|]. cbn. rewrite lookup_insert_ne by done.
    exact Hid. }
  pose proof (tm_record_remove_template_spec _ _ _ id Hok1) as Hrm. rewrite Hi1 in Hrm.
  destruct Hrm as (h1 & ls & Hc0 & Hrm & Hh1 & _).
  pose proof (tm_record_remove_template_spec _ _ _ id Hok) as Hrm0. rewrite Hi in Hrm0.
  destruct Hrm0 as (h0 & ls0 & Hc00 & Hrm0 & Hh0 & Hst0). rewrite Hc0 in Hc00. injection Hc00 as <-.
  destruct (rec_ok_lookup _ _ _ _ _ Hok Hsl) as (c & Hc & Hch). rewrite Hc0 in Hc. injection Hc as <-.
  assert (ls = []) as ->.
  { destruct Hch as (_ & t & Ht & Hls). rewrite Hold in Ht. injection Ht as <-. rewrite Hno in Hls.
    by destruct ls as [|? ?]; [|destruct Hls]. }
  assert (h1 = <[l' := new']> h0) as ->.
  { apply map_eq. intros k. rewrite Hh1. destruct (decide (k = l')) as [->|Hk].
    - rewrite !lookup_insert_eq, decide_False; [done|]. by intros ?%list_elem_of_singleton.
    - rewrite !lookup_insert_ne by done. by rewrite Hh0. }
  set (r1 := wr_slot r (Z.of_nat i) None (counter r - 1)) in *.
  pose proof (rs_ok _ _ _ _ _ _ Hst0) as Hok0.
  assert (h0 !! l' = None) as Hfr0 by (rewrite Hh0; by case_decide).
  assert (∀ id', lookup_id h0 r1 id' = if decide (id' = id) then None else lookup_id h r id') as Hlk0.
  { intros id'. rewrite (lookup_id_update h r cs h0 r1 _ i (Some l) None [l] id' Hok Hok0);
      [|done|done|by cbn; rewrite Nat2Z.id|by intros k _ Hk; rewrite Hh0, decide_False].
    rewrite decide_False by (cbn; tauto).
    destruct (decide (id' = id)) as [->|]; [by rewrite decide_True|].
    rewrite decide_False; [done|]. cbn. rewrite Hold. cbn in Hid. rewrite Hold in Hid. congruence. }
  destruct (insert_new h0 r1 (<[i := []]> cs) l' new' Hok0) as (r' & cs' & Hins & Hst & Hlk).
  { left. pose proof (occupied_le (templates r)). pose proof (ro_counter _ _ _ Hok).
    pose proof (ro_length _ _ _ Hok). cbn. lia. }
  { done. } { done. }
  { rewrite Hlk0. by rewrite decide_True. }
  exists (<[l' := new']> h0), r1, 0, r', cs'. split; [exact Hrm|]. split; [exact Hins|].
  split.
  - by eapply rec_step_trans.
  - exists None. rewrite lookup_insert_eq. unfold new'. destruct new. cbn in *. by subst.
  - intros k t Hk Ht. rewrite lookup_insert_ne by congruence. rewrite Hh0, decide_False; [done|].
    intros ->%list_elem_of_singleton. rewrite Hold in Hk. injection Hk as <-. lia.
  - intros id'. rewrite Hlk. cbn [original_id set_template_id new']. rewrite Hnew.
    destruct (decide (id' = id)); [done|]. rewrite Hlk0. by rewrite decide_False.
Qed.
End update.

(** ** The whole manager *)

(** [ls] are the records from [first] to [last], [f] the chains of each. *)
Record tm_inv (tm : template_mgr) (ls : list loc) (f : loc → list (list loc)) : Prop := {
  ti_list : lchain rec_next (rheap tm) (first tm) ls;
  ti_last : last tm = list.last ls;
  ti_records l r : l ∈ ls → rheap tm !! l = Some r → rec_ok (theap tm) r (f l);
  ti_keys l1 l2 r1 r2 : l1 ∈ ls → l2 ∈ ls → rheap tm !! l1 = Some r1 → rheap tm !! l2 = Some r2 →
    rec_key r1 = rec_key r2 → l1 = l2;
  ti_disjoint l1 l2 k : l1 ∈ ls → l2 ∈ ls → k ∈ mjoin (f l1) → k ∈ mjoin (f l2) → l1 = l2
}.

Definition tm_wf (tm : template_mgr) : Prop := ∃ ls f, tm_inv tm ls f.

(** The record of a key. *)
Definition record_of (tm : template_mgr) (ls : list loc) (k : Z) (l : loc) : Prop :=
  l ∈ ls ∧ ∃ r, rheap tm !! l = Some r ∧ rec_key r = k.

(** A record only looks at its own templates. *)
Lemma rec_ok_agree h h' r cs : rec_ok h r cs →
  (∀ k, k ∈ mjoin cs → h' !! k = h !! k) → rec_ok h' r cs.
Proof.
  intros Hok Hag. pose proof Hok as [H1 H2 H3 H4 H5 H6].
  assert (∀ i p c, templates r !! i = Some p → cs !! i = Some c → tchain h p c ∧
    ∀ k, k ∈ c → h' !! k = h !! k) as Hc.
  { intros i p c Hp Hc. destruct (rec_ok_lookup _ _ _ _ _ Hok Hp) as (c' & Hc' & Ht).
    rewrite Hc in Hc'. injection Hc' as <-. split; [done|]. intros k Hk. apply Hag.
    apply list_elem_of_join. exists c. split; [done|]. by eapply list_elem_of_lookup_2. }
  split; try done.
  - apply Forall2_same_length_lookup_2; [by eapply Forall2_length|].
    intros i p c Hp Hci. destruct (Hc i p c Hp Hci). by eapply lchain_agree.
  - assert (∀ i p id, templates r !! i = Some p → has_id h' id p ↔ has_id h id p) as Hh.
    { intros i p id Hp. apply has_id_agree. intros k ->.
      destruct (rec_ok_lookup _ _ _ _ _ Hok Hp) as (c & Hci & Ht).
      apply (Hc i _ c Hp Hci). by eapply lchain_head. }
    intros i j p q id Hi Hj Hp Hq. eapply H6; [exact Hi|exact Hj|by apply (Hh i)|by apply (Hh j)].
Qed.

Section manager.
Implicit Types (tm : template_mgr) (ls : list loc) (f : loc → list (list loc)).

Lemma ti_record tm ls f l : tm_inv tm ls f → l ∈ ls → ∃ r, rheap tm !! l = Some r.
Proof. intros Hinv Hl. by eapply lchain_allocated; [apply (ti_list _ _ _ Hinv)|]. Qed.

Lemma ti_size tm ls f : tm_inv tm ls f → (length ls ≤ size (rheap tm))%nat.
Proof.
  intros Hinv. pose proof (lchain_NoDup _ _ _ (ti_list _ _ _ Hinv)) as Hnd.
  assert (list_to_set ls ⊆ dom (rheap tm)) as Hsub.
  { intros k Hk%elem_of_list_to_set. apply elem_of_dom. by eapply ti_record. }
  apply subseteq_size in Hsub. rewrite size_list_to_set in Hsub by done. by rewrite size_dom in Hsub.
Qed.

Lemma lookup_loop tm k : ∀ ls p fuel,
  lchain rec_next (rheap tm) p ls → (length ls < fuel)%nat →
  ∃ o, loop (tm_record_lookup_step tm k) fuel p = Ok o ∧
  match o with
  | Some l => record_of tm ls k l
  | None => ∀ l, ¬ record_of tm ls k l
  end.
Proof.
  induction ls as [|l ls IH]; intros p [|fuel] Hc Hf; cbn [length] in Hf; try lia; cbn [loop].
  - cbn in Hc. subst p. eexists. split; [done|]. intros l [Hl _]. by apply not_elem_of_nil in Hl.
  - destruct Hc as (-> & r & Hr & Hc). unfold tm_record_lookup_step at 1, deref. rewrite Hr.
    cbn [or_fault]. rewrite res_bind_ret. destruct (decide (rec_key r = k)) as [Hk|Hk].
    + eexists. split; [done|]. split; [constructor|by eauto].
    + destruct (IH (rec_next r) fuel Hc ltac:(lia)) as (o & Ho & Hsp). exists o. split; [done|].
      destruct o as [l'|].
      * destruct Hsp as [Hl' ?]. split; [by constructor|done].
      * intros l' [ [->|Hl']%elem_of_cons (r' & Hr' & Hk')]; [congruence|].
        eapply Hsp. split; [exact Hl'|by eauto].
Qed.

Lemma tm_record_lookup_spec tm ls f key : tm_inv tm ls f →
  ∃ o, tm_record_lookup tm key = Ok o ∧
  match o with
  | Some l => record_of tm ls (table_key key) l
  | None => ∀ l, ¬ record_of tm ls (table_key key) l
  end.
Proof.
  intros Hinv. apply lookup_loop; [apply (ti_list _ _ _ Hinv)|].
  pose proof (ti_size tm ls f Hinv). lia.
Qed.

Lemma record_of_unique tm ls f k l1 l2 : tm_inv tm ls f →
  record_of tm ls k l1 → record_of tm ls k l2 → l1 = l2.
Proof.
  intros Hinv (H1 & r1 & Hr1 & <-) (H2 & r2 & Hr2 & E). by eapply (ti_keys _ _ _ Hinv).
Qed.

Lemma tm_record_lookup_iff tm ls f key l : tm_inv tm ls f →
  tm_record_lookup tm key = Ok (Some l) ↔ record_of tm ls (table_key key) l.
Proof.
  intros Hinv. destruct (tm_record_lookup_spec tm ls f key Hinv) as (o & -> & Ho).
  split; [by intros [= ->]|]. intros Hl. destruct o as [l'|]; [|by destruct (Ho l)].
  do 2 f_equal. by eapply record_of_unique.
Qed.

(** Writing a record back after a well-behaved operation on it. *)
Lemma tm_inv_put tm ls f l r h' r' cs' : tm_inv tm ls f → l ∈ ls → rheap tm !! l = Some r →
  rec_step (theap tm) r (f l) h' r' cs' →
  tm_inv (put_record tm h' l r') ls (λ x, if decide (x = l) then cs' else f x).
Proof.
  intros Hinv Hl Hr [Hok Hk Hn Hframe Hfoot]. pose proof Hinv as [Hlist Hlast Hrecs Hkeys Hdis].
  assert (∀ x, x ∈ ls → x ≠ l → ∀ k, k ∈ mjoin (f x) → h' !! k = theap tm !! k) as Hag.
  { intros x Hx Hxl k Hkx. destruct (ti_record _ _ _ _ Hinv Hx) as [rx Hrx].
    apply Hframe; [by eapply rec_ok_allocated; [eapply Hrecs|]|].
    intros Hkl. apply Hxl. by eapply Hdis. }
  split; cbn [rheap theap first last put_record].
  - assert (∀ p ls', lchain rec_next (rheap tm) p ls' → lchain rec_next (<[l := r']> (rheap tm)) p ls') as Hc.
    { intros p ls'. revert p. induction ls' as [|x ls' IH]; intros p; [done|].
      intros (-> & rx & Hrx & Hc). split; [done|]. destruct (decide (x = l)) as [->|Hx].
      - exists r'. split; [by rewrite lookup_insert_eq|]. rewrite Hr in Hrx. simplify_eq.
        rewrite Hn. by apply IH.
      - exists rx. split; [by rewrite lookup_insert_ne|]. by apply IH. }
    by apply Hc.
  - done.
  - intros x rx Hx. destruct (decide (x = l)) as [->|Hxl].
    + rewrite lookup_insert_eq. intros [= <-]. done.
    + rewrite lookup_insert_ne by done. intros Hrx.
      apply (rec_ok_agree (theap tm)); [by apply Hrecs|]. by apply (Hag x).
  - assert (∀ x rx, <[l := r']> (rheap tm) !! x = Some rx → ∃ rx', rheap tm !! x = Some rx' ∧ rec_key rx = rec_key rx') as Hx.
    { intros x rx. destruct (decide (x = l)) as [->|Hxl].
      - rewrite lookup_insert_eq. intros [= <-]. by eauto.
      - rewrite lookup_insert_ne by done. by eauto. }
    intros l1 l2 r1 r2 H1 H2 (r1' & Hr1 & ->)%Hx (r2' & Hr2 & ->)%Hx. by eapply Hkeys.
  - intros l1 l2 k H1 H2 Hk1 Hk2.
    assert (∀ x, x ∈ ls → x ≠ l → k ∈ mjoin (f x) → k ∉ mjoin cs') as Hno.
    { intros x Hx Hxl Hkx Hkc. destruct (Hfoot k Hkc) as [Hkl|Hnone].
      - apply Hxl. by eapply Hdis.
      - destruct (ti_record _ _ _ _ Hinv Hx) as [rx Hrx].
        destruct (rec_ok_allocated _ _ _ _ (Hrecs _ _ Hx Hrx) Hkx). congruence. }
    destruct (decide (l1 = l)) as [->|N1], (decide (l2 = l)) as [->|N2]; [done| | |by eapply Hdis].
    + by destruct (Hno l2 H2 N2 Hk2).
    + by destruct (Hno l1 H1 N1 Hk1).
Qed.
End manager.

Section manager_ops.
Implicit Types (tm : template_mgr) (ls : list loc) (f : loc → list (list loc)) (key : ipfix_template_key).

Lemma tm_get_template_found tm ls f key l r : tm_inv tm ls f →
  record_of tm ls (table_key key) l → rheap tm !! l = Some r →
  tm_get_template tm key = Ok (lookup_id (theap tm) r (u16 (tid key))).
Proof.
  intros Hinv Hl Hr. unfold tm_get_template.
  rewrite (proj2 (tm_record_lookup_iff tm ls f key l Hinv) Hl), res_bind_ret.
  unfold deref. rewrite Hr. cbn [or_fault]. rewrite res_bind_ret.
  eapply tm_record_get_template_spec. by eapply (ti_records _ _ _ Hinv); [apply Hl|].
Qed.

Lemma tm_get_template_none tm ls f key : tm_inv tm ls f →
  (∀ l, ¬ record_of tm ls (table_key key) l) → tm_get_template tm key = Ok None.
Proof.
  intros Hinv Hno. unfold tm_get_template.
  destruct (tm_record_lookup_spec tm ls f key Hinv) as (o & -> & Ho).
  destruct o as [l|]; [by destruct (Hno l)|done].
Qed.

(** A look-up depends only on the records with the key and on what their
    templates are. *)
Lemma tm_get_template_agree tm ls f tm' ls' f' key : tm_inv tm ls f → tm_inv tm' ls' f' →
  (∀ l, record_of tm ls (table_key key) l → record_of tm' ls' (table_key key) l) →
  (∀ l r', record_of tm' ls' (table_key key) l → rheap tm' !! l = Some r' →
     (∃ r, record_of tm ls (table_key key) l ∧ rheap tm !! l = Some r ∧
           lookup_id (theap tm') r' (u16 (tid key)) = lookup_id (theap tm) r (u16 (tid key))) ∨
     (∀ x, ¬ record_of tm ls (table_key key) x) ∧
       lookup_id (theap tm') r' (u16 (tid key)) = None) →
  tm_get_template tm' key = tm_get_template tm key.
Proof.
  intros Hinv Hinv' Hsub Hlk.
  destruct (tm_record_lookup_spec tm' ls' f' key Hinv') as (o & _ & Ho). destruct o as [l|].
  - pose proof Ho as (_ & r' & Hr' & _).
    rewrite (tm_get_template_found tm' ls' f' key l r') by done.
    destruct (Hlk l r' Ho Hr') as [(r & Hl & Hr & ->)|(Hno & ->)].
    + symmetry. by eapply tm_get_template_found.
    + symmetry. by eapply tm_get_template_none.
  - rewrite (tm_get_template_none tm' ls' f') by done. symmetry.
    eapply tm_get_template_none; [done|]. intros l Hl. by apply (Ho l), Hsub.
Qed.

Definition new_record (k : Z) : tm_record := set_rec_next (set_rec_key tm_record_create k) None.

Lemma new_record_ok h k n :
  rec_ok h (set_rec_next (new_record k) n) (replicate 32 []).
Proof.
  split.
  - done.
  - done.
  - done.
  - change (Forall2 (tchain h) (replicate 32 None) (replicate 32 [])).
    by apply Forall2_replicate.
  - intros i j ci cj l [-> _]%lookup_replicate _ Hl. by apply not_elem_of_nil in Hl.
  - intros i j p q id Hi _ Hp _.
    change (replicate 32 (None : option loc) !! i = Some p) in Hi.
    apply lookup_replicate in Hi as [-> _]. done.
Qed.

Lemma mjoin_replicate_nil n (l : loc) : l ∉ mjoin (replicate n ([] : list loc)).
Proof.
  intros (c & Hl & Hc)%list_elem_of_join. apply elem_of_replicate in Hc as [-> _].
  by apply not_elem_of_nil in Hl.
Qed.

Lemma lookup_id_new_record h k id : lookup_id h (new_record k) id = None.
Proof.
  destruct (lookup_id h (new_record k) id) as [l|] eqn:E; [|done].
  apply (lookup_id_iff h (new_record k) (replicate 32 []) id l (new_record_ok h k None)) in E
    as (i & Hi & _).
  change (replicate 32 (None : option loc) !! i = Some (Some l)) in Hi.
  by apply lookup_replicate in Hi as [? _].
Qed.

Lemma rec_ok_set_rec_next h r cs n : rec_ok h r cs → rec_ok h (set_rec_next r n) cs.
Proof. intros []. by split. Qed.

Lemma tm_record_lookup_insert_spec tm ls f key : tm_inv tm ls f →
  ∃ tm1 l ls1 f1 r, tm_record_lookup_insert tm key = Ok (tm1, l) ∧ tm_inv tm1 ls1 f1 ∧
    record_of tm1 ls1 (table_key key) l ∧ rheap tm1 !! l = Some r ∧ theap tm1 = theap tm ∧
    (rheap tm !! l = Some r ∧ tm1 = tm ∨ r = new_record (table_key key)) ∧
    ∀ key', tm_get_template tm1 key' = tm_get_template tm key'.
Proof.
  intros Hinv. unfold tm_record_lookup_insert.
  destruct (tm_record_lookup_spec tm ls f key Hinv) as (o & -> & Ho). rewrite res_bind_ret.
  destruct o as [l|].
  { pose proof Ho as (_ & r & Hr & _). exists tm, l, ls, f, r. split_and!; try done. by left. }
  set (l := fresh (dom (rheap tm))). set (k := table_key key) in *.
  assert (rheap tm !! l = None) as Hfr by (apply not_elem_of_dom, is_fresh).
  assert (∀ x, x ∈ ls → x ≠ l) as Hne.
  { intros x Hx ->. destruct (ti_record _ _ _ _ Hinv Hx). congruence. }
  pose proof Hinv as [Hlist Hlast Hrecs Hkeys Hdis].
  set (f1 := λ x, if decide (x = l) then replicate 32 ([] : list loc) else f x).
  (* the manager with the record linked in *)
  assert (∀ rh p e, (∀ x, x ∈ ls → ∃ r n, rheap tm !! x = Some r ∧ rh !! x = Some (set_rec_next r n)) →
    rh !! l = Some (new_record k) → lchain rec_next rh p (ls ++ [l]) → e = Some l →
    ∃ tm1 l0 ls1 f1 r, Ok ({| theap := theap tm; rheap := rh; first := p; last := e |}, l) = Ok (tm1, l0) ∧
      tm_inv tm1 ls1 f1 ∧ record_of tm1 ls1 k l0 ∧ rheap tm1 !! l0 = Some r ∧ theap tm1 = theap tm ∧
      (rheap tm !! l0 = Some r ∧ tm1 = tm ∨ r = new_record k) ∧
      ∀ key', tm_get_template tm1 key' = tm_get_template tm key') as Hmain.
  { intros rh p e Hrh Hl Hch ->.
    set (tm1 := {| theap := theap tm; rheap := rh; first := p; last := Some l |}).
    assert (∀ x r', x ∈ ls → rh !! x = Some r' → ∃ r, rheap tm !! x = Some r ∧ rec_key r' = rec_key r) as Hold.
    { intros x r' Hx Hr'. destruct (Hrh x Hx) as (r & n & Hr & Hr''). exists r. split; [done|]. by simplify_eq. }
    assert (tm_inv tm1 (ls ++ [l]) f1) as Hinv1.
    { split; cbn [rheap theap first last tm1].
      - done.
      - by rewrite last_snoc.
      - intros x r [Hx| ->%list_elem_of_singleton]%elem_of_app Hr; unfold f1.
        + rewrite decide_False by by apply Hne. destruct (Hrh x Hx) as (r0 & n & Hr0 & Hrx).
          simplify_eq. apply rec_ok_set_rec_next. by apply Hrecs.
        + rewrite decide_True by done. rewrite Hl in Hr. simplify_eq. apply (new_record_ok _ _ None).
      - intros l1 l2 r1 r2 [H1| ->%list_elem_of_singleton]%elem_of_app
          [H2| ->%list_elem_of_singleton]%elem_of_app Hr1 Hr2 E; [| | |done].
        + destruct (Hold _ _ H1 Hr1) as (? & ? & ?), (Hold _ _ H2 Hr2) as (? & ? & ?).
          eapply Hkeys; [done..|congruence].
        + destruct (Hold _ _ H1 Hr1) as (r1' & ? & ?). rewrite Hl in Hr2. simplify_eq.
          destruct (Ho l1). split; [done|]. exists r1'. split; [done|]. cbn in E. congruence.
        + destruct (Hold _ _ H2 Hr2) as (r2' & ? & ?). rewrite Hl in Hr1. simplify_eq.
          destruct (Ho l2). split; [done|]. exists r2'. split; [done|]. cbn in E. congruence.
      - unfold f1. intros l1 l2 x [H1| ->%list_elem_of_singleton]%elem_of_app
          [H2| ->%list_elem_of_singleton]%elem_of_app Hk1 Hk2; [| | |done].
        + rewrite decide_False in Hk1 by by apply Hne. rewrite decide_False in Hk2 by by apply Hne.
          by eapply Hdis.
        + rewrite decide_True in Hk2 by done. by apply mjoin_replicate_nil in Hk2.
        + rewrite decide_True in Hk1 by done. by apply mjoin_replicate_nil in Hk1. }
    exists tm1, l, (ls ++ [l]), f1, (new_record k). split; [done|]. split; [done|].
    split; [split; [apply elem_of_app; right; constructor|by exists (new_record k)]|].
    split; [done|]. split; [done|]. split; [by right|]. intros key'.
    eapply (tm_get_template_agree tm ls f tm1 (ls ++ [l]) f1); [done|done| |].
    - intros x (Hx & r & Hr & Hk). split; [by apply elem_of_app; left|].
      destruct (Hrh x Hx) as (r0 & n & Hr0 & Hrx). exists (set_rec_next r0 n). split; [done|].
      simplify_eq. done.
    - intros x r' ([Hx| ->%list_elem_of_singleton]%elem_of_app & rx & Hrx & Hkx) Hr'.
      + left. destruct (Hrh x Hx) as (r0 & n & Hr0 & Hr1). exists r0.
        assert (r' = set_rec_next r0 n) as -> by (cbn in Hr'; congruence).
        split; [|split; [done|done] ]. split; [done|]. exists r0. split; [done|].
        cbn in Hrx. rewrite Hr1 in Hrx. by simplify_eq.
      + right. cbn in Hrx, Hr'. rewrite Hl in Hrx, Hr'. simplify_eq. cbn in Hkx. fold k in Ho.
        split; [by rewrite <-Hkx|]. apply lookup_id_new_record. }
  destruct (first tm) as [p|] eqn:Ef.
  - destruct ls as [|x ls0]; [cbn in Hlist; congruence|].
    destruct (exists_last (l := x :: ls0)) as (a & e & Ea); [done|].
    rewrite Ea in *. rewrite last_snoc in Hlast. rewrite Hlast. cbn [or_fault]. rewrite res_bind_ret.
    destruct (ti_record _ _ _ e Hinv) as [r Hr]; [apply elem_of_app; right; constructor|].
    unfold deref. rewrite Hr. cbn [or_fault]. rewrite res_bind_ret.
    pose proof (lchain_NoDup _ _ _ Hlist) as Hnd.
    assert (e ≠ l) as Hel by (apply Hne, elem_of_app; right; constructor).
    assert (∀ y, y ∈ a → y ≠ e) as Hae.
    { intros y Hy ->. apply NoDup_app in Hnd as (_ & Hd & _). apply (Hd e Hy). constructor. }
    apply (Hmain (<[l := new_record k]> (<[e := set_rec_next r (Some l)]> (rheap tm))) (Some p) (Some l));
      [|by rewrite lookup_insert_eq| |done].
    + intros y Hy. rewrite lookup_insert_ne by (intros <-; by eapply Hne).
      destruct (decide (y = e)) as [->|Hye].
      * exists r, (Some l). by rewrite lookup_insert_eq.
      * rewrite lookup_insert_ne by done. destruct (ti_record _ _ _ y Hinv Hy) as [ry Hry].
        exists ry, (rec_next ry). split; [done|]. rewrite Hry. by destruct ry.
    + rewrite <-app_assoc. cbn [app]. eapply (lchain_splice (rheap tm)); [exact Hlist| |
        rewrite lookup_insert_ne by done; apply lookup_insert_eq|].
      * intros y Hy. rewrite lookup_insert_ne by (intros <-; eapply Hne; [|done]; by apply elem_of_app; left).
        by rewrite lookup_insert_ne by (intros <-; by eapply Hae).
      * split; [done|]. eexists. split; [apply lookup_insert_eq|done].
  - destruct ls as [|x ls0]; [|by destruct Hlist].
    apply (Hmain (<[l := new_record k]> (rheap tm)) (Some l) (Some l)); [|apply lookup_insert_eq| |done].
    + by intros ? ?%not_elem_of_nil.
    + split; [done|]. eexists. split; [apply lookup_insert_eq|done].
Qed.
End manager_ops.

Section manager_effects.
Implicit Types (tm : template_mgr) (ls : list loc) (f : loc → list (list loc)) (key : ipfix_template_key).

Lemma lookup_id_agree h h' r cs id : rec_ok h r cs →
  (∀ k, k ∈ mjoin cs → h' !! k = h !! k) → lookup_id h' r id = lookup_id h r id.
Proof.
  intros Hok Hag. pose proof (rec_ok_agree h h' r cs Hok Hag) as Hok'. apply option_ext. intros l.
  rewrite (lookup_id_iff _ _ _ _ _ Hok), (lookup_id_iff _ _ _ _ _ Hok').
  assert (∀ i, templates r !! i = Some (Some l) → has_id h' id (Some l) ↔ has_id h id (Some l)) as Hh.
  { intros i Hi. apply (has_id_agree h h'). intros k [= <-].
    destruct (rec_ok_lookup _ _ _ _ _ Hok Hi) as (c & Hc & Ht). apply Hag. apply list_elem_of_join.
    exists c. split; [by eapply lchain_head|by eapply list_elem_of_lookup_2]. }
  split; intros (i & Hi & Hid); exists i; (split; [done|]); by apply (Hh i).
Qed.

(** An operation on the record of a key, seen by look-ups. *)
Lemma tm_put_effect tm ls f l r h' r' cs' key : tm_inv tm ls f →
  record_of tm ls (table_key key) l → rheap tm !! l = Some r →
  rec_step (theap tm) r (f l) h' r' cs' →
  tm_wf (put_record tm h' l r') ∧
  ∀ key', tm_get_template (put_record tm h' l r') key' =
    if decide (table_key key' = table_key key) then Ok (lookup_id h' r' (u16 (tid key')))
    else tm_get_template tm key'.
Proof.
  intros Hinv Hl Hr Hst. pose proof Hl as (Hin & r0 & Hr0 & Hk).
  rewrite Hr in Hr0. injection Hr0 as <-.
  pose proof (tm_inv_put tm ls f l r h' r' cs' Hinv Hin Hr Hst) as Hinv'.
  split; [by exists ls; eexists|]. intros key'.
  assert (∀ x, x ∈ ls → x ≠ l → ∀ k, k ∈ mjoin (f x) → h' !! k = theap tm !! k) as Hag.
  { intros x Hx Hxl k Hkx. destruct (ti_record _ _ _ _ Hinv Hx) as [rx Hrx].
    apply (rs_frame _ _ _ _ _ _ Hst); [by eapply rec_ok_allocated; [eapply (ti_records _ _ _ Hinv)|]|].
    intros Hkl. apply Hxl. by eapply (ti_disjoint _ _ _ Hinv). }
  case_decide as Hkk.
  - eapply tm_get_template_found; [exact Hinv'| |by apply lookup_insert_eq].
    split; [done|]. exists r'. split; [by apply lookup_insert_eq|].
    rewrite (rs_key _ _ _ _ _ _ Hst). congruence.
  - eapply (tm_get_template_agree tm ls f); [done|exact Hinv'| |].
    + intros x (Hx & rx & Hrx & Hkx). split; [done|]. exists rx. split; [|done].
      cbn. rewrite lookup_insert_ne; [done|]. intros ->. congruence.
    + intros x rx' (Hx & rx & Hrx & Hkx) Hrx'. left. exists rx. cbn in Hrx, Hrx'.
      destruct (decide (x = l)) as [->|Hxl].
      { rewrite lookup_insert_eq in Hrx. simplify_eq. rewrite (rs_key _ _ _ _ _ _ Hst) in Hkx. congruence. }
      rewrite lookup_insert_ne in Hrx, Hrx' by done. simplify_eq.
      split; [by split; [|eexists]|]. split; [done|]. cbn.
      eapply lookup_id_agree; [by eapply (ti_records _ _ _ Hinv)|]. by apply Hag.
Qed.
End manager_effects.

(** ** Properties *)

(** Two keys stand for the same template of the same source. *)
Definition same_template (k1 k2 : ipfix_template_key) : Prop :=
  table_key k1 = table_key k2 ∧ u16 (tid k1) = u16 (tid k2).
#[export] Instance same_template_dec k1 k2 : Decision (same_template k1 k2).
Proof. unfold same_template. apply _. Defined.

Definition rooms (tm : template_mgr) : Prop := map_Forall (λ _ r, room r) (rheap tm).

Lemma tm_create_wf : tm_wf tm_create.
Proof.
  exists [], (λ _, []). split; cbn; try done; intros; exfalso; by eapply not_elem_of_nil.
Qed.

Lemma new_record_room k : room (new_record k).
Proof. right. cbn. lia. Qed.

(** What a look-up in a well-formed manager has found. *)
Lemma tm_get_template_Some tm ls f key l : tm_inv tm ls f → tm_get_template tm key = Ok (Some l) →
  ∃ p r, record_of tm ls (table_key key) p ∧ rheap tm !! p = Some r ∧
         lookup_id (theap tm) r (u16 (tid key)) = Some l.
Proof.
  intros Hinv Hget. destruct (tm_record_lookup_spec tm ls f key Hinv) as (o & _ & Ho).
  destruct o as [p|].
  - pose proof Ho as (_ & r & Hr & _). exists p, r. split; [done|]. split; [done|].
    rewrite (tm_get_template_found tm ls f key p r) in Hget by done. by injection Hget.
  - by rewrite (tm_get_template_none tm ls f key) in Hget.
Qed.

(** A look-up comes back with a live template of the identifier, or none. *)
Lemma tm_get_template_live tm key : tm_wf tm →
  ∃ o, tm_get_template tm key = Ok o ∧
  match o with
  | Some l => ∃ t, theap tm !! l = Some t ∧ original_id t = u16 (tid key)
  | None => True
  end.
Proof.
  intros (ls & f & Hinv).
  destruct (tm_record_lookup_spec tm ls f key Hinv) as (o & _ & Ho). destruct o as [l|].
  - pose proof Ho as (Hl & r & Hr & _). eexists. split; [by eapply tm_get_template_found|].
    destruct (lookup_id _ _ _) as [k|] eqn:E; [|done].
    eapply lookup_id_iff in E as (i & Hi & Hid); [|by eapply (ti_records _ _ _ Hinv)].
    cbn in Hid. destruct (theap tm !! k) as [t|]; [by exists t|done].
  - exists None. split; [by eapply tm_get_template_none|done].
Qed.

Lemma tm_add_template_effect tm mem p max_len type now key t :
  tm_wf tm → rooms tm →
  tm_create_template mem p max_len type now = Ok (Some t) → u16 (tid key) = original_id t →
  tm_get_template tm key = Ok None →
  ∃ tm' l, tm_add_template tm mem p max_len type now key = Ok (tm', Some l) ∧ tm_wf tm' ∧
    theap tm' = <[l := t]> (theap tm) ∧ theap tm !! l = None ∧
    ∀ key', tm_get_template tm' key' =
            if decide (same_template key' key) then Ok (Some l) else tm_get_template tm key'.
Proof.
  intros (ls & f & Hinv) Hrooms Ht Hid Hget.
  destruct (tm_record_lookup_insert_spec tm ls f key Hinv)
    as (tm1 & p1 & ls1 & f1 & r & Hli & Hinv1 & Hp1 & Hr & Hth & Hcase & Hgets).
  assert (room r) as Hroom.
  { destruct Hcase as [ [Hr0 _]| ->]; [by eapply Hrooms|apply new_record_room]. }
  pose proof (ti_records _ _ _ Hinv1 p1 r (proj1 Hp1) Hr) as Hok.
  assert (lookup_id (theap tm1) r (original_id t) = None) as Hnone.
  { pose proof (tm_get_template_found tm1 ls1 f1 key p1 r Hinv1 Hp1 Hr) as Hg.
    rewrite Hgets, Hget, Hid in Hg. congruence. }
  destruct (tm_record_add_template_spec _ _ _ mem p max_len type now t Hok Hroom Ht Hnone)
    as (r' & cs' & Hadd & Hst & Hlk).
  destruct (tm_put_effect tm1 ls1 f1 p1 r _ r' cs' key Hinv1 Hp1 Hr Hst) as [Hwf Heff].
  eexists _, (fresh (dom (theap tm1))). unfold tm_add_template, with_record.
  rewrite Hli, res_bind_ret. unfold deref. rewrite Hr. cbn [or_fault].
  rewrite res_bind_ret, Hadd, res_bind_ret. split; [done|]. split; [done|].
  split; [by rewrite <-Hth|]. split; [rewrite <-Hth; apply not_elem_of_dom, is_fresh|].
  intros key'. rewrite Heff. unfold same_template.
  destruct (decide (table_key key' = table_key key)) as [Hk|Hk].
  - rewrite Hlk. destruct (decide (u16 (tid key') = original_id t)) as [Hi|Hi].
    + by rewrite decide_True by by rewrite Hid.
    + rewrite decide_False by (rewrite Hid; tauto).
      rewrite <-Hgets. symmetry. eapply tm_get_template_found; [done| |done]. by rewrite Hk.
  - rewrite decide_False by tauto. apply Hgets.
Qed.

(** The three ways of an update: the same definition; in front of the chain of
    the entry; in place of a template nobody refers to. *)
Lemma tm_record_update_template_spec h r cs mem p max_len type now t i l old c :
  rec_ok h r cs → tm_create_template mem p max_len type now = Ok (Some t) →
  template_of_id h r (original_id t) = Some (i, l) → h !! l = Some old →
  tm_compare_templates t old = Ok c →
  tm_record_update_template h r mem p max_len type now = Ok (h, r, Some l) ∧ c = 0 ∨
  c ≠ 0 ∧ ∃ h' r' cs', tm_record_update_template h r mem p max_len type now
    = Ok (h', r', Some (fresh (dom h))) ∧
    updated h r cs (original_id t) old t (fresh (dom h)) h' r' cs'.
Proof.
  intros Hok Ht Hi Hold Hcmp. destruct (tm_create_template_shape _ _ _ _ _ _ Ht) as (Hrd & Hnn & _).
  unfold tm_record_update_template, tm_record_template_index.
  rewrite Hrd, res_bind_ret, (tm_record_search_spec _ _ _ Hok), Hi, !res_bind_ret.
  rewrite decide_False by lia. destruct (template_of_id_Some _ _ _ _ _ Hi) as [Hsl _].
  rewrite (rd_slot_lookup _ _ _ Hsl), res_bind_ret. unfold deref. rewrite Hold. cbn [or_fault].
  rewrite res_bind_ret, Ht, res_bind_ret, Hcmp, res_bind_ret.
  destruct (decide (c = 0)) as [->|Hc]; [by left|right]. split; [done|].
  destruct (rec_ok_lookup _ _ _ _ _ Hok Hsl) as (c0 & Hc0 & Hch).
  destruct c0 as [|x c0]; [done|]. pose proof (lchain_NoDup _ _ _ Hch) as Hnd.
  inversion Hnd as [|? ? Hnl _]; subst. pose proof Hch as ([= <-] & told & Htold & Hch').
  rewrite Hold in Htold. injection Htold as <-.
  pose proof (fresh_new h) as Hfr.
  destruct (decide (references old = 0)) as [Href|Href].
  - destruct (next old) as [older|] eqn:En.
    + destruct (update_in_place h r cs Hok (original_id t) i l old t Hi Hold eq_refl
        (<[fresh (dom h) := set_next (set_template_id t (template_id old)) (Some older)]>
           (delete l h)) (Some older) c0) as (cs' & Hu).
      * intros k. destruct (decide (k = fresh _)) as [->|Hk]; [by rewrite lookup_insert_eq|].
        rewrite lookup_insert_ne by done. destruct (decide (k = l)) as [->|Hkl].
        -- by rewrite lookup_delete_eq, decide_True.
        -- rewrite lookup_delete_ne by done. by rewrite decide_False by tauto.
      * right. split; [done|]. split; [done|]. intros [= ->]. by apply lchain_head in Hch'.
      * done.
      * intros k Hk. exists (l :: c0). split; [done|by constructor].
      * done.
      * by eexists _, _, cs'.
    + destruct (update_replace h r cs Hok (original_id t) i l old t Hi Hold eq_refl Hnn En Href)
        as (h1 & r1 & ret & r' & cs' & -> & Hins & Hu).
      rewrite res_bind_ret. cbn beta iota. rewrite Hins, res_bind_ret. by eexists _, _, cs'.
  - destruct (update_in_place h r cs Hok (original_id t) i l old t Hi Hold eq_refl
      (<[fresh (dom h) := set_next (set_template_id t (template_id old)) (Some l)]> h)
      (Some l) (l :: c0)) as (cs' & Hu).
    + intros k. destruct (decide (k = fresh _)) as [->|Hk]; [by rewrite lookup_insert_eq|].
      rewrite lookup_insert_ne by done. rewrite decide_False; [done|].
      intros [_ E]. rewrite <-E in Hch'. by apply lchain_head in Hch'.
    + by left.
    + done.
    + intros k Hk. by exists (l :: c0).
    + intros E. rewrite <-E in Hch'. by apply lchain_head in Hch'.
    + by eexists _, _, cs'.
Qed.

Lemma tm_update_template_effect tm mem p max_len type now key t l old c :
  tm_wf tm →
  tm_create_template mem p max_len type now = Ok (Some t) → u16 (tid key) = original_id t →
  tm_get_template tm key = Ok (Some l) → theap tm !! l = Some old →
  tm_compare_templates t old = Ok c →
  ∃ tm' l', tm_update_template tm mem p max_len type now key = Ok (tm', Some l') ∧ tm_wf tm' ∧
    (if decide (c = 0) then l' = l ∧ theap tm' = theap tm
     else theap tm !! l' = None ∧
          ∃ n, theap tm' !! l' = Some (set_next (set_template_id t (template_id old)) n)) ∧
    (∀ k t0, theap tm !! k = Some t0 → references t0 > 0 → theap tm' !! k = Some t0) ∧
    ∀ key', tm_get_template tm' key' =
            if decide (same_template key' key) then Ok (Some l') else tm_get_template tm key'.
Proof.
  intros (ls & f & Hinv) Ht Hid Hget Hold Hcmp.
  destruct (tm_get_template_Some tm ls f key l Hinv Hget) as (p1 & r & Hp1 & Hr & Hlk).
  pose proof (ti_records _ _ _ Hinv p1 r (proj1 Hp1) Hr) as Hok.
  unfold tm_update_template, with_record, tm_record_lookup_insert.
  rewrite (proj2 (tm_record_lookup_iff tm ls f key p1 Hinv) Hp1), !res_bind_ret.
  unfold deref at 1. rewrite Hr. cbn [or_fault]. rewrite res_bind_ret.
  rewrite Hid in Hlk. unfold lookup_id in Hlk. apply fmap_Some in Hlk as ([i l0] & Hi & [= <-]).
  destruct (tm_record_update_template_spec (theap tm) r (f p1) mem p max_len type now t i l old c Hok Ht Hi Hold Hcmp)
    as [ [-> ->]|(Hc & h' & r' & cs' & -> & Hu)]; rewrite res_bind_ret;
    (eexists _, _; split; [done|]).
  - destruct (tm_put_effect tm ls f p1 r _ r (f p1) key Hinv Hp1 Hr (rec_step_refl _ _ _ Hok)) as [Hwf Heff].
    split; [done|]. split; [done|]. split; [done|]. intros key'. rewrite Heff. unfold same_template.
    destruct (decide (table_key key' = table_key key)) as [Hk|Hk]; [|by rewrite decide_False by tauto].
    pose proof (tm_get_template_found tm ls f key' p1 r Hinv ltac:(by rewrite Hk) Hr) as Hg.
    case_decide as Hs; [|done]. rewrite (proj2 Hs), Hid. unfold lookup_id. by rewrite Hi.
  - destruct Hu as [Hst Hn Href Hl].
    destruct (tm_put_effect tm ls f p1 r h' r' cs' key Hinv Hp1 Hr Hst) as [Hwf Heff].
    split; [done|]. rewrite decide_False by done. split; [|split; [done|] ].
    { split; [apply fresh_new|done]. }
    intros key'. rewrite Heff. unfold same_template.
    destruct (decide (table_key key' = table_key key)) as [Hk|Hk]; [|by rewrite decide_False by tauto].
    rewrite Hl. destruct (decide (u16 (tid key') = original_id t)) as [Hi'|Hi'].
    + by rewrite decide_True by by rewrite Hid.
    + rewrite decide_False by (rewrite Hid; tauto). symmetry.
      apply (tm_get_template_found tm ls f key' p1 r Hinv); [by rewrite Hk|done].
Qed.

(** ** Removing records *)

(** What is left of a record while it is destroyed: the counter is out of date. *)
Record chains_ok (h : template_heap) (r : tm_record) (cs : list (list loc)) : Prop := {
  co_length : Z.of_nat (length (templates r)) = max_length r;
  co_chains : Forall2 (tchain h) (templates r) cs;
  co_disjoint i j ci cj l :
    cs !! i = Some ci → cs !! j = Some cj → l ∈ ci → l ∈ cj → i = j
}.

Section destroy.
Implicit Types (h : template_heap) (r : tm_record) (cs : list (list loc)).

Lemma rec_ok_chains h r cs : rec_ok h r cs → chains_ok h r cs.
Proof. intros []. by split. Qed.

(** [h', r', cs'] are what is left after freeing some chains of [cs]. *)
Definition freed h cs h' r' cs' : Prop :=
  chains_ok h' r' cs' ∧ (∀ k, k ∉ mjoin cs → h' !! k = h !! k) ∧ (∀ k, k ∈ mjoin cs' → k ∈ mjoin cs).

Lemma free_slot h r cs i l : chains_ok h r cs → templates r !! i = Some (Some l) →
  ∃ h', free_chain h l = Ok h' ∧
    freed h cs h' (wr_slot r (Z.of_nat i) None (counter r)) (<[i := []]> cs).
Proof.
  intros [Hlen Hch Hdis] Hi. destruct (Forall2_lookup_l _ _ _ _ _ Hch Hi) as (c & Hc & Ht).
  destruct c as [|x c]; [done|]. pose proof Ht as ([= <-] & _).
  destruct (free_chain_spec _ _ _ Ht) as (h' & Hfree & Hh').
  exists h'. split; [done|]. unfold wr_slot. rewrite Nat2Z.id.
  assert (∀ j cj k, j ≠ i → cs !! j = Some cj → k ∈ cj → k ∉ l :: c) as Hno.
  { intros j cj k Hj Hcj Hk Hk'. apply Hj. by eapply Hdis. }
  split; [|split].
  - split; cbn [templates max_length set_templates].
    + by rewrite length_insert.
    + apply Forall2_same_length_lookup_2.
      { rewrite !length_insert. by eapply Forall2_length. }
      intros j p cj Hp Hcj. destruct (decide (j = i)) as [->|Hj].
      * rewrite list_lookup_insert_eq in Hp by by eapply lookup_lt_Some.
        rewrite list_lookup_insert_eq in Hcj by by eapply lookup_lt_Some. by simplify_eq.
      * rewrite list_lookup_insert_ne in Hp by done. rewrite list_lookup_insert_ne in Hcj by done.
        eapply lchain_agree; [|exact (Forall2_lookup_lr _ _ _ _ _ _ Hch Hp Hcj)].
        intros k Hk. rewrite Hh', decide_False by by eapply Hno. done.
    + intros j1 j2 c1 c2 k H1 H2 Hk1 Hk2.
      assert (∀ j cj, <[i := []]> cs !! j = Some cj → k ∈ cj → cs !! j = Some cj) as Hold.
      { intros j cj Hj Hk. destruct (decide (j = i)) as [->|].
        - rewrite list_lookup_insert_eq in Hj by by eapply lookup_lt_Some. simplify_eq.
          by apply not_elem_of_nil in Hk.
        - by rewrite list_lookup_insert_ne in Hj. }
      eapply Hdis; [by apply Hold|by apply Hold|done|done].
  - intros k Hk. rewrite Hh', decide_False; [done|]. intros Hin. apply Hk.
    apply list_elem_of_join. exists (l :: c). split; [done|]. by eapply list_elem_of_lookup_2.
  - intros k (cj & Hk & [j Hj]%list_elem_of_lookup)%list_elem_of_join.
    destruct (decide (j = i)) as [->|].
    + rewrite list_lookup_insert_eq in Hj by by eapply lookup_lt_Some. simplify_eq.
      by apply not_elem_of_nil in Hk.
    + rewrite list_lookup_insert_ne in Hj by done. apply list_elem_of_join. exists cj.
      split; [done|]. by eapply list_elem_of_lookup_2.
Qed.

Lemma freed_trans h cs h1 r1 cs1 h2 r2 cs2 :
  freed h cs h1 r1 cs1 → freed h1 cs1 h2 r2 cs2 → freed h cs h2 r2 cs2.
Proof.
  intros (_ & F1 & P1) (O2 & F2 & P2). split; [done|]. split; [|by auto].
  intros k Hk. rewrite F2, F1; [done|done|]. intros Hk1. by apply Hk, P1.
Qed.

Lemma tm_record_remove_all_templates_spec h r cs type : chains_ok h r cs →
  ∃ h' r' cs', tm_record_remove_all_templates h r type = Ok (h', r') ∧ freed h cs h' r' cs'.
Proof.
  intros Hok. set (Q := λ x : res (template_heap * tm_record), ∃ h' r' cs', x = Ok (h', r') ∧ freed h cs h' r' cs').
  apply (loop_total (tm_record_remove_all_templates_step (max_length r) type)
    (λ s, 0 ≤ s.2 ∧ max_length s.1.2 = max_length r ∧ ∃ cs', freed h cs s.1.1 s.1.2 cs')
    (λ s, Z.to_nat (max_length r - s.2)) Q).
  - intros [ [h1 r1] i] (Hi & Hm & cs1 & Hfr). cbn [fst snd] in *.
    unfold tm_record_remove_all_templates_step.
    destruct (decide (i < max_length r)) as [Hlt|Hge]; [|by eexists _, _, _].
    pose proof Hfr as (Hok1 & _). pose proof (co_length _ _ _ Hok1) as Hlen.
    destruct (lookup_lt_is_Some_2 (templates r1) (Z.to_nat i)) as [p Hp]; [lia|].
    pose proof (rd_slot_lookup r1 _ _ Hp) as Hrd. rewrite Z2Nat.id in Hrd by lia.
    rewrite Hrd, res_bind_ret. destruct p as [l|].
    2: { cbn [fst snd]. split; [|lia]. split; [lia|]. split; [done|]. by exists cs1. }
    destruct (Forall2_lookup_l _ _ _ _ _ (co_chains _ _ _ Hok1) Hp) as (c & _ & Hc).
    destruct (lchain_allocated _ _ _ _ Hc (lchain_head _ _ _ Hc)) as [t Ht].
    unfold deref. rewrite Ht. cbn [or_fault]. rewrite res_bind_ret. case_decide.
    + destruct (free_slot h1 r1 cs1 _ l Hok1 Hp) as (h2 & -> & Hfr2). rewrite res_bind_ret.
      rewrite Z2Nat.id in Hfr2 by lia. split; [|cbn [snd]; lia]. cbn [fst snd].
      split; [lia|]. split; [done|]. eexists. by eapply freed_trans.
    + cbn [fst snd]. split; [|lia]. split; [lia|]. split; [done|]. by exists cs1.
  - cbn [fst snd]. split; [lia|]. split; [done|]. exists cs. by split_and!.
  - cbn [snd]. lia.
Qed.

(** Destroying a record touches no other one. *)
Lemma tm_record_destroy_spec h r cs : rec_ok h r cs →
  ∃ h', tm_record_destroy h r = Ok h' ∧ ∀ k, k ∉ mjoin cs → h' !! k = h !! k.
Proof.
  intros Hok%rec_ok_chains. unfold tm_record_destroy.
  destruct (tm_record_remove_all_templates_spec h r cs TM_TEMPLATE Hok) as (h1 & r1 & cs1 & -> & Hf1).
  rewrite res_bind_ret. cbn [fst snd].
  destruct (tm_record_remove_all_templates_spec h1 r1 cs1 TM_OPTIONS_TEMPLATE (proj1 Hf1))
    as (h2 & r2 & cs2 & -> & Hf2).
  rewrite res_bind_ret. exists h2. split; [done|]. by destruct (freed_trans _ _ _ _ _ _ _ _ Hf1 Hf2) as (_ & ? & _).
Qed.
End destroy.

Section remove_records.
Context (keep : Z → bool).
Implicit Types (tm : template_mgr) (ls : list loc) (f : loc → list (list loc)).

Definition kept tm l : Prop :=
  ∃ r, rheap tm !! l = Some r ∧ (keep (rec_key r) = true ∨ registrations r ≠ 0).

(** [tm'] is [tm] with the records [ls] only, and their templates untouched. *)
Definition restricted tm tm' ls f : Prop :=
  tm_inv tm' ls f ∧
  (∀ l, l ∈ ls → ∃ r n, rheap tm !! l = Some r ∧ rheap tm' !! l = Some (set_rec_next r n)) ∧
  ∀ l, l ∈ ls → ∀ k, k ∈ mjoin (f l) → theap tm' !! k = theap tm !! k.

Definition prev_of (a rest : list loc) : option loc :=
  match a with [] => head rest | _ => list.last a end.

Lemma restricted_trans tm1 tm2 tm3 ls2 ls3 f :
  restricted tm1 tm2 ls2 f → restricted tm2 tm3 ls3 f → (∀ l, l ∈ ls3 → l ∈ ls2) →
  restricted tm1 tm3 ls3 f.
Proof.
  intros (_ & R1 & H1) (I2 & R2 & H2) Hsub. split; [done|]. split.
  - intros l Hl. destruct (R2 l Hl) as (r & n & Hr & Hr3), (R1 l (Hsub l Hl)) as (r0 & n0 & Hr0 & Hr2).
    rewrite Hr in Hr2. simplify_eq. by exists r0, n.
  - intros l Hl k Hk. rewrite (H2 l Hl k Hk). by apply (H1 l (Hsub l Hl)).
Qed.

(** Removing one record of the manager's list. *)
Lemma remove_one tm a l rest f h rh p e : tm_inv tm (a ++ l :: rest) f →
  (∀ k, k ∉ mjoin (f l) → h !! k = theap tm !! k) →
  (∀ x, x ∈ a ++ rest → ∃ r n, rheap tm !! x = Some r ∧ rh !! x = Some (set_rec_next r n)) →
  lchain rec_next rh p (a ++ rest) → e = list.last (a ++ rest) →
  restricted tm {| theap := h; rheap := rh; first := p; last := e |} (a ++ rest) f.
Proof.
  intros Hinv Hh Hrh Hch ->. pose proof Hinv as [Hlist Hlast Hrecs Hkeys Hdis].
  pose proof (lchain_NoDup _ _ _ Hlist) as Hnd.
  assert (∀ x, x ∈ a ++ rest → x ∈ a ++ l :: rest ∧ x ≠ l) as Hsub.
  { intros x Hx. split; [set_solver|]. intros ->.
    apply NoDup_app in Hnd as (_ & Hd & Hnd). apply NoDup_cons in Hnd as [Hn _].
    apply elem_of_app in Hx as [Hx|Hx]; [|done]. apply (Hd l Hx). constructor. }
  assert (∀ x, x ∈ a ++ rest → ∀ k, k ∈ mjoin (f x) → h !! k = theap tm !! k) as Hag.
  { intros x Hx k Hk. apply Hh. intros Hk'. destruct (Hsub x Hx) as [Hx' Hne]. apply Hne.
    eapply Hdis; [done| |done|done]. apply elem_of_app. right. constructor. }
  split; [|by split]. split; cbn [rheap theap first last]; [done|done| | |].
  - intros x r Hx Hr. destruct (Hrh x Hx) as (r0 & n & Hr0 & Hr'). rewrite Hr in Hr'. simplify_eq.
    apply rec_ok_set_rec_next. eapply rec_ok_agree; [|by apply Hag].
    apply Hrecs; [by apply Hsub|done].
  - intros l1 l2 r1 r2 H1 H2 Hr1 Hr2 E.
    destruct (Hrh l1 H1) as (r1' & n1 & Hr1' & E1), (Hrh l2 H2) as (r2' & n2 & Hr2' & E2).
    rewrite Hr1 in E1. rewrite Hr2 in E2. simplify_eq. cbn in E.
    eapply Hkeys; [by apply Hsub|by apply Hsub|done|done|done].
  - intros l1 l2 k H1 H2 Hk1 Hk2. eapply Hdis; [by apply Hsub|by apply Hsub|done|done].
Qed.

Lemma tm_unlink_spec tm a l rest f : tm_inv tm (a ++ l :: rest) f →
  ∃ tm', tm_unlink tm (prev_of a (l :: rest)) l = Ok (tm', prev_of a rest, head rest) ∧
         restricted tm tm' (a ++ rest) f.
Proof.
  intros Hinv. pose proof Hinv as [Hlist Hlast _ _ _].
  pose proof (lchain_NoDup _ _ _ Hlist) as Hnd.
  destruct (ti_record _ _ _ l Hinv) as [r Hr]; [apply elem_of_app; right; constructor|].
  destruct (tm_record_destroy_spec (theap tm) r (f l)) as (h & Hd & Hh).
  { eapply (ti_records _ _ _ Hinv); [|done]. apply elem_of_app; right; constructor. }
  unfold tm_unlink, deref. rewrite Hr. cbn [or_fault]. rewrite res_bind_ret.
  pose proof (lchain_suffix _ _ _ _ _ Hlist) as (_ & r0 & Hr0 & Hrest).
  rewrite Hr in Hr0. injection Hr0 as <-.
  assert (∀ p ls, lchain rec_next (rheap tm) p ls → match ls with [] => p = None | x :: _ => p = Some x end) as Hhd.
  { intros p [|x ls]; [done|]. by intros [-> _]. }
  destruct a as [|x a0].
  - (* the first record *)
    cbn [app prev_of] in *. pose proof (Hhd _ _ Hlist) as Hf. cbn in Hf. rewrite Hf, decide_True by done.
    rewrite Hd, res_bind_ret. cbn [first].
    assert (rec_next r = head rest) as Hn.
    { pose proof (Hhd _ _ Hrest) as H'. by destruct rest. }
    eexists. split; [by rewrite Hn|].
    apply NoDup_cons in Hnd as [Hln Hnd].
    assert (∀ y, y ∈ rest → delete l (rheap tm) !! y = rheap tm !! y) as Hdel.
    { intros y Hy. rewrite lookup_delete_ne; [done|]. by intros ->. }
    apply (remove_one tm [] l rest f); [done|done| | |].
    + intros y Hy. destruct (ti_record _ _ _ y Hinv) as [ry Hry]; [by constructor|].
      exists ry, (rec_next ry). split; [done|]. rewrite (Hdel y Hy), Hry. by destruct ry.
    + rewrite <-Hn. by eapply lchain_agree.
    + rewrite Hlast. destruct rest as [|y rest0]; [by rewrite decide_True|].
      cbn [list.last app]. rewrite decide_False; [done|]. intros E.
      apply Hln. apply last_Some_elem_of. exact E.
  - (* behind [e] *)
    destruct (exists_last (l := x :: a0)) as (b & e & Eb); [done|].
    assert (prev_of (x :: a0) (l :: rest) = Some e ∧ prev_of (x :: a0) rest = Some e) as [-> ->].
    { unfold prev_of. rewrite Eb. by rewrite last_snoc. }
    assert (first tm ≠ Some l) as Hf.
    { pose proof (Hhd _ _ Hlist) as Hf. cbn in Hf. rewrite Hf. intros [= ->].
      apply NoDup_cons in Hnd as [Hnd _]. apply Hnd. apply elem_of_app. right. constructor. }
    rewrite decide_False by done. cbn [or_fault]. rewrite res_bind_ret.
    destruct (ti_record _ _ _ e Hinv) as [re Hre]; [rewrite Eb; set_solver|].
    rewrite Hre. cbn [or_fault]. rewrite res_bind_ret, Hd, res_bind_ret. cbn [rheap].
    rewrite Eb in Hnd, Hlist, Hlast.
    assert (e ≠ l ∧ (∀ y, y ∈ b → y ≠ e ∧ y ≠ l) ∧ ∀ y, y ∈ rest → y ≠ e ∧ y ≠ l) as (Hel & Hb & Hrs).
    { apply NoDup_app in Hnd as (Hnd1 & Hd1 & Hnd2). apply NoDup_app in Hnd1 as (_ & Hd0 & _).
      apply NoDup_cons in Hnd2 as [Hl2 _].
      assert (e ∈ b ++ [e]) as He by (apply elem_of_app; right; constructor).
      repeat split; intros ->; set_solver. }
    rewrite lookup_delete_ne, lookup_insert_eq by done. cbn [or_fault]. rewrite res_bind_ret.
    cbn [rec_next set_rec_next].
    assert (rec_next r = head rest) as -> by (pose proof (Hhd _ _ Hrest); by destruct rest).
    eexists. split; [done|]. rewrite Eb. apply (remove_one tm (b ++ [e]) l rest f); [by rewrite <-Eb|done| | |].
    + intros y Hy. assert (y ≠ l) as Hyl by (intros ->; apply elem_of_app in Hy; set_solver).
      rewrite lookup_delete_ne by done. destruct (decide (y = e)) as [->|Hye].
      * exists re, (head rest). by rewrite lookup_insert_eq.
      * rewrite lookup_insert_ne by done.
        destruct (ti_record _ _ _ y Hinv) as [ry Hry]; [rewrite Eb; set_solver|].
        exists ry, (rec_next ry). split; [done|]. rewrite Hry. by destruct ry.
    + rewrite <-app_assoc in *. cbn [app] in *.
      eapply (lchain_splice (rheap tm)); [exact Hlist| | |].
      * intros y Hy. destruct (Hb y Hy). by rewrite lookup_delete_ne, lookup_insert_ne.
      * rewrite lookup_delete_ne by done. apply lookup_insert_eq.
      * cbn [rec_next set_rec_next].
        assert (head rest = rec_next r) as -> by (pose proof (Hhd _ _ Hrest); by destruct rest).
        eapply lchain_agree; [|exact Hrest]. intros y Hy. destruct (Hrs y Hy).
        by rewrite lookup_delete_ne, lookup_insert_ne.
    + rewrite Hlast, last_app. destruct rest as [|y rest0].
      * cbn. rewrite decide_True by done. by rewrite app_nil_r, last_snoc.
      * rewrite (last_app (b ++ [e]) (y :: rest0)). change (list.last (l :: y :: rest0)) with (list.last (y :: rest0)).
        destruct (list.last (y :: rest0)) as [z|] eqn:Ez; [|by apply last_None in Ez].
        rewrite decide_False; [done|]. intros [= ->].
        assert (l ∈ y :: rest0) as Hin by by apply last_Some_elem_of.
        by destruct (Hrs l Hin).
Qed.

Lemma remove_records_loop : ∀ rest a tm f fuel,
  tm_inv tm (a ++ rest) f → (length rest < fuel)%nat → (∀ l, l ∈ a → kept tm l) →
  ∃ tm' ls', loop (tm_remove_records_step keep) fuel (tm, prev_of a rest, head rest) = Ok tm' ∧
    restricted tm tm' ls' f ∧ (∀ l, l ∈ ls' ↔ l ∈ a ++ rest ∧ kept tm l).
Proof.
  induction rest as [|l rest IH]; intros a tm f [|fuel] Hinv Hf Ha; cbn [length] in Hf; try lia;
    cbn [loop head]; unfold tm_remove_records_step at 1.
  - exists tm, (a ++ []). split; [done|]. split.
    + split; [done|]. split; [|done]. intros x Hx. destruct (ti_record _ _ _ x Hinv Hx) as [r Hr].
      exists r, (rec_next r). split; [done|]. rewrite Hr. by destruct r.
    + intros x. rewrite app_nil_r. naive_solver.
  - destruct (ti_record _ _ _ l Hinv) as [r Hr]; [apply elem_of_app; right; constructor|].
    unfold deref. rewrite Hr. cbn [or_fault]. rewrite res_bind_ret.
    pose proof (ti_list _ _ _ Hinv) as Hlist. pose proof (lchain_NoDup _ _ _ Hlist) as Hnd.
    pose proof (lchain_suffix _ _ _ _ _ Hlist) as (_ & r0 & Hr0 & Hrest).
    rewrite Hr in Hr0. injection Hr0 as <-.
    destruct (decide (keep (rec_key r) = true ∨ registrations r ≠ 0)) as [Hk|Hk].
    + assert (rec_next r = head rest) as -> by (destruct rest; [done|by destruct Hrest]).
      replace (a ++ l :: rest) with ((a ++ [l]) ++ rest) in * by by rewrite <-app_assoc.
      destruct (IH (a ++ [l]) tm f fuel Hinv ltac:(lia)) as (tm' & ls' & Hloop & Hres & Hls).
      { intros x [Hx| ->%list_elem_of_singleton]%elem_of_app; [by apply Ha|]. by exists r. }
      exists tm', ls'. split; [|done]. rewrite <-Hloop. do 2 f_equal. f_equal.
      unfold prev_of. destruct (a ++ [l]) as [|y b] eqn:E; [by destruct a|]. rewrite <-E. by rewrite last_snoc.
    + destruct (tm_unlink_spec tm a l rest f Hinv) as (tm1 & -> & Hres1). rewrite res_bind_ret.
      assert (∀ x, x ∈ a ++ rest → kept tm1 x ↔ kept tm x) as Hkept.
      { intros x Hx. destruct Hres1 as (_ & R & _). destruct (R x Hx) as (rx & n & Hrx & Hrx1).
        unfold kept. rewrite Hrx, Hrx1. split; intros (y & [= <-] & Hy); eexists; split; done. }
      destruct (IH a tm1 f fuel (proj1 Hres1) ltac:(lia)) as (tm' & ls' & Hloop & Hres & Hls).
      { intros x Hx. apply Hkept; [by apply elem_of_app; left|by apply Ha]. }
      exists tm', ls'. split; [done|]. split.
      * eapply restricted_trans; [done|done|]. intros x Hx. by apply Hls.
      * intros x. rewrite Hls. split.
        -- intros [Hx Hkx]. split; [set_solver|]. by apply Hkept.
        -- intros [Hx Hkx]. assert (x ≠ l) as Hxl.
           { intros ->. destruct Hkx as (rx & Hrx & Hrk). rewrite Hr in Hrx. by simplify_eq. }
           assert (x ∈ a ++ rest) as Hx' by set_solver. split; [done|]. by apply Hkept.
Qed.

(** Removing records, seen by look-ups. *)
Lemma tm_remove_records_spec tm ls f : tm_inv tm ls f →
  ∃ tm', loop (tm_remove_records_step keep) (S (S (size (rheap tm)))) (tm, first tm, first tm) = Ok tm' ∧
    tm_wf tm' ∧
    ∀ key, (∀ l, record_of tm ls (table_key key) l → kept tm l → tm_get_template tm' key = tm_get_template tm key) ∧
           ((∀ l, record_of tm ls (table_key key) l → ¬ kept tm l) → tm_get_template tm' key = Ok None).
Proof.
  intros Hinv. pose proof (ti_size tm ls f Hinv).
  destruct (remove_records_loop ls [] tm f (S (S (size (rheap tm)))) Hinv ltac:(lia))
    as (tm' & ls' & Hloop & (Hinv' & Hrec & Hag) & Hls); [by intros ? ?%not_elem_of_nil|].
  assert (first tm = head ls) as Hf.
  { pose proof (ti_list _ _ _ Hinv) as Hlist. destruct ls; [done|by destruct Hlist]. }
  exists tm'. rewrite Hf. split; [exact Hloop|]. split; [by exists ls', f|]. intros key. split.
  - intros l Hl Hk. pose proof Hl as (Hin & r & Hr & Hkey).
    assert (l ∈ ls') as Hl' by by apply Hls.
    destruct (Hrec l Hl') as (r0 & n & Hr0 & Hr'). rewrite Hr in Hr0. injection Hr0 as <-.
    rewrite (tm_get_template_found tm ls f key l r Hinv Hl Hr).
    rewrite (tm_get_template_found tm' ls' f key l (set_rec_next r n) Hinv'); [|by split; [|eexists]|done].
    f_equal. change (lookup_id (theap tm') (set_rec_next r n)) with (lookup_id (theap tm') r).
    eapply lookup_id_agree; [by eapply (ti_records _ _ _ Hinv)|]. by apply Hag.
  - intros Hno. apply (tm_get_template_none tm' ls' f key Hinv'). intros l (Hl & r' & Hr' & Hk).
    destruct (Hrec l Hl) as (r & n & Hr & Hr2). rewrite Hr' in Hr2. injection Hr2 as ->.
    apply Hls in Hl as [Hl Hkept]. apply (Hno l); [|done]. split; [done|]. by exists r.
Qed.
End remove_records.

(** The source of a key has a record, without registrations. *)
Definition unregistered (tm : template_mgr) (key : ipfix_template_key) : Prop :=
  ∃ l r, tm_record_lookup tm key = Ok (Some l) ∧ rheap tm !! l = Some r ∧ registrations r = 0.

(** C36: [tm_remove_all_odid_templates] always comes back, with a well-formed
    manager in which the unregistered sources of the domain have no templates any
    more and every other source has those it had. *)
Theorem tm_remove_all_odid_templates_spec tm odid_ :
  tm_wf tm →
  ∃ tm', tm_remove_all_odid_templates tm odid_ = Ok tm' ∧ tm_wf tm' ∧
    ∀ key,
      (Z.shiftr (table_key key) 32 = odid_ ∧ unregistered tm key → tm_get_template tm' key = Ok None) ∧
      (¬ (Z.shiftr (table_key key) 32 = odid_ ∧ unregistered tm key) →
       tm_get_template tm' key = tm_get_template tm key).
Proof.
  intros (ls & f & Hinv).
  destruct (tm_remove_records_spec (λ k, bool_decide (Z.shiftr k 32 ≠ odid_)) tm ls f Hinv)
    as (tm' & Hloop & Hwf & Hget).
  exists tm'. split; [exact Hloop|]. split; [done|]. intros key. destruct (Hget key) as [Hkeep Hrm].
  assert (∀ l r, record_of tm ls (table_key key) l → rheap tm !! l = Some r →
    kept (λ k, bool_decide (Z.shiftr k 32 ≠ odid_)) tm l ↔
    ¬ (Z.shiftr (table_key key) 32 = odid_ ∧ registrations r = 0)) as Hiff.
  { intros l r (_ & r0 & Hr0 & <-) Hr. rewrite Hr in Hr0. injection Hr0 as <-.
    unfold kept. rewrite Hr. split.
    - intros (r0 & [= <-] & Hor) [H1 H2]. destruct Hor as [Hb|]; [|done]. by apply bool_decide_eq_true in Hb.
    - intros Hn. exists r. split; [done|]. rewrite bool_decide_eq_true.
      destruct (decide (registrations r = 0)); [left|by right]. tauto. }
  split.
  - intros [Ho (l & r & Hlk & Hr & Hreg)]. apply Hrm. intros l' Hl'.
    apply (tm_record_lookup_iff tm ls f key l Hinv) in Hlk.
    assert (l' = l) as -> by by eapply record_of_unique. rewrite (Hiff l r) by done. tauto.
  - intros Hn. destruct (tm_record_lookup_spec tm ls f key Hinv) as (o & Hlk & Ho). destruct o as [l|].
    + pose proof Ho as (_ & r & Hr & _). apply (Hkeep l Ho). apply (Hiff l r); [done..|].
      intros [H1 H2]. apply Hn. split; [done|]. by exists l, r.
    + rewrite Hrm by (intros l Hl; by destruct (Ho l)). symmetry. by eapply tm_get_template_none.
Qed.

(** ** The remaining operations *)

Section other_ops.
Implicit Types (tm : template_mgr) (h : template_heap) (key : ipfix_template_key).

Lemma tm_remove_template_effect tm key l : tm_wf tm → tm_get_template tm key = Ok (Some l) →
  ∃ tm', tm_remove_template tm key = Ok (tm', 0) ∧ tm_wf tm' ∧ theap tm' !! l = None ∧
    ∀ key', tm_get_template tm' key' =
            if decide (same_template key' key) then Ok None else tm_get_template tm key'.
Proof.
  intros (ls & f & Hinv) Hget.
  destruct (tm_get_template_Some tm ls f key l Hinv Hget) as (p & r & Hp & Hr & Hlk).
  pose proof (ti_records _ _ _ Hinv p r (proj1 Hp) Hr) as Hok.
  unfold lookup_id in Hlk. apply fmap_Some in Hlk as ([i l0] & Hi & [= <-]).
  pose proof (tm_record_remove_template_spec _ _ _ (u16 (tid key)) Hok) as Hrm. rewrite Hi in Hrm.
  destruct Hrm as (h' & c & Hc & Hrm & Hh' & Hst).
  destruct (tm_put_effect tm ls f p r _ _ _ key Hinv Hp Hr Hst) as [Hwf Heff].
  eexists. unfold tm_remove_template.
  rewrite (proj2 (tm_record_lookup_iff tm ls f key p Hinv) Hp), res_bind_ret.
  unfold deref. rewrite Hr. cbn [or_fault]. rewrite res_bind_ret, Hrm, res_bind_ret.
  split; [done|]. split; [done|]. split; [cbn; rewrite Hh', decide_True by constructor; done|].
  intros key'. rewrite Heff. unfold same_template.
  destruct (decide (table_key key' = table_key key)) as [Hk|Hk]; [|by rewrite decide_False by tauto].
  destruct (template_of_id_Some _ _ _ _ _ Hi) as [Hsl Hid].
  rewrite (lookup_id_update (theap tm) r (f p) _ _ _ i (Some l) None (l :: c) _ Hok (rs_ok _ _ _ _ _ _ Hst));
    [|done|done|by cbn; rewrite Nat2Z.id|by intros k _ Hk'; rewrite Hh', decide_False].
  rewrite (decide_False (P := has_id _ _ None)) by (cbn; tauto).
  pose proof (tm_get_template_found tm ls f key' p r Hinv ltac:(by rewrite Hk) Hr) as Hg.
  destruct (decide (u16 (tid key') = u16 (tid key))) as [Ht|Ht].
  - rewrite (decide_True (P := _ ∧ _)) by done. by rewrite decide_True by by rewrite Ht.
  - rewrite (decide_False (P := _ ∧ _)) by tauto. rewrite decide_False; [done|].
    destruct (slot_allocated _ _ _ Hok _ _ Hsl) as [t Hl]. cbn in Hid |- *. rewrite Hl in *. congruence.
Qed.

Lemma put_record_id tm l r : rheap tm !! l = Some r → put_record tm (theap tm) l r = tm.
Proof. intros Hr. destruct tm. unfold put_record. cbn in *. by rewrite insert_id. Qed.

Lemma tm_remove_template_unknown tm key : tm_wf tm → tm_get_template tm key = Ok None →
  tm_remove_template tm key = Ok (tm, 1).
Proof.
  intros (ls & f & Hinv) Hget. unfold tm_remove_template.
  destruct (tm_record_lookup_spec tm ls f key Hinv) as ([p|] & -> & Ho); rewrite res_bind_ret; [|done].
  pose proof Ho as (Hin & r & Hr & _). unfold deref. rewrite Hr. cbn [or_fault]. rewrite res_bind_ret.
  rewrite (tm_get_template_found tm ls f key p r Hinv Ho Hr) in Hget. injection Hget as Hg.
  pose proof (tm_record_remove_template_spec _ _ _ (u16 (tid key)) (ti_records _ _ _ Hinv p r Hin Hr)) as Hrm.
  unfold lookup_id in Hg. apply fmap_None in Hg. rewrite Hg in Hrm. rewrite Hrm, res_bind_ret.
  by rewrite put_record_id.
Qed.

Lemma tm_remove_template_wf tm key tm' ret : tm_wf tm →
  tm_remove_template tm key = Ok (tm', ret) → tm_wf tm'.
Proof.
  intros Hwf Hrm. destruct (tm_get_template_live tm key Hwf) as ([l|] & Hget & _).
  - destruct (tm_remove_template_effect tm key l Hwf Hget) as (tm2 & Hrm2 & ? & _). congruence.
  - rewrite (tm_remove_template_unknown tm key Hwf Hget) in Hrm. congruence.
Qed.

(** Changing anything but [next] and [original_id] of templates. *)
Definition same_shape h h' : Prop :=
  ∀ k, (λ t, (next t, original_id t)) <$> h' !! k = (λ t, (next t, original_id t)) <$> h !! k.

Lemma same_shape_lookup h h' k t : same_shape h h' → h !! k = Some t →
  ∃ t', h' !! k = Some t' ∧ next t' = next t ∧ original_id t' = original_id t.
Proof.
  intros Hs Hk. specialize (Hs k). rewrite Hk in Hs. apply fmap_Some in Hs as (t' & ? & [= -> ->]). by exists t'.
Qed.

Lemma same_shape_insert h l t t' : h !! l = Some t → next t' = next t → original_id t' = original_id t →
  same_shape h (<[l := t']> h).
Proof.
  intros Hl Hn Hi k. destruct (decide (k = l)) as [->|].
  - rewrite lookup_insert_eq, Hl. cbn. by rewrite Hn, Hi.
  - by rewrite lookup_insert_ne.
Qed.

Lemma rec_ok_shape h h' r cs : same_shape h h' → rec_ok h r cs → rec_ok h' r cs.
Proof.
  intros Hs [H1 H2 H3 H4 H5 H6]. split; try done.
  - eapply Forall2_impl; [exact H4|]. intros p c. revert p.
    induction c as [|l c IH]; intros p; [done|]. intros (-> & t & Ht & Hc). split; [done|].
    destruct (same_shape_lookup _ _ _ _ Hs Ht) as (t' & Ht' & En & _). exists t'.
    split; [done|]. rewrite En. by apply IH.
  - assert (∀ id p, has_id h' id p → has_id h id p) as Hh.
    { intros id [l|]; [|done]. cbn. specialize (Hs l).
      destruct (h !! l), (h' !! l); cbn in Hs; try done. by injection Hs as _ <-. }
    intros i j p q id Hi Hj Hp Hq. eapply H6; [exact Hi|exact Hj|by apply Hh|by apply Hh].
Qed.

Definition with_heap tm h : template_mgr :=
  {| theap := h; rheap := rheap tm; first := first tm; last := last tm |}.

Lemma tm_wf_shape tm h : same_shape (theap tm) h → tm_wf tm → tm_wf (with_heap tm h).
Proof.
  intros Hs (ls & f & [H1 H2 H3 H4 H5]). exists ls, f. split; try done.
  intros l r Hl Hr. eapply rec_ok_shape; [exact Hs|]. by apply H3.
Qed.

Lemma tm_template_reference_inc_shape h l h' : tm_template_reference_inc h l = Ok h' → same_shape h h'.
Proof.
  unfold tm_template_reference_inc, deref. intros H. inv_res. by eapply same_shape_insert.
Qed.
Lemma tm_template_reference_dec_shape h l h' : tm_template_reference_dec h l = Ok h' → same_shape h h'.
Proof.
  unfold tm_template_reference_dec, deref. intros H. inv_res. case_decide; simplify_eq.
  - by eapply same_shape_insert.
  - by intros k.
Qed.

(** Registrations do not touch the templates. *)
Lemma tm_registrations_wf tm ls f l r n : tm_inv tm ls f → l ∈ ls → rheap tm !! l = Some r →
  tm_wf (put_record tm (theap tm) l (set_registrations r n)).
Proof.
  intros Hinv Hl Hr. exists ls. eexists. eapply (tm_inv_put tm ls f l r); [done..|].
  pose proof (ti_records _ _ _ Hinv l r Hl Hr) as [].
  split; [by split|done|done|done|by left].
Qed.

Lemma tm_source_register_wf tm o c tm' ret : tm_wf tm → tm_source_register tm o c = Ok (tm', ret) → tm_wf tm'.
Proof.
  intros (ls & f & Hinv). unfold tm_source_register.
  destruct (tm_record_lookup_insert_spec tm ls f {| odid := o; crc := c; tid := 0 |} Hinv)
    as (tm1 & l & ls1 & f1 & r & -> & Hinv1 & Hl & Hr & _). rewrite res_bind_ret. cbn [fst].
  rewrite (proj2 (tm_record_lookup_iff tm1 ls1 f1 _ l Hinv1) Hl), res_bind_ret.
  unfold deref. rewrite Hr. cbn [or_fault]. rewrite res_bind_ret. intros [= <- <-].
  eapply tm_registrations_wf; [done|apply Hl|done].
Qed.

Lemma tm_source_unregister_wf tm o c tm' ret : tm_wf tm → tm_source_unregister tm o c = Ok (tm', ret) → tm_wf tm'.
Proof.
  intros Hwf. pose proof Hwf as (ls & f & Hinv). unfold tm_source_unregister.
  destruct (tm_record_lookup_spec tm ls f {| odid := o; crc := c; tid := 0 |} Hinv) as (p & -> & Hp).
  rewrite res_bind_ret. destruct p as [l|]; [|by intros [= <- <-] ].
  pose proof Hp as (Hl & r & Hr & _). unfold deref. rewrite Hr. cbn [or_fault]. rewrite res_bind_ret.
  case_decide; intros [= <- <-]; [|done]. by eapply tm_registrations_wf.
Qed.

(** Adding and updating, whatever comes of parsing the record. *)
Lemma tm_add_template_wf tm mem p max_len type now key tm' o :
  tm_wf tm → rooms tm → rd16 mem p = Ok (u16 (tid key)) → tm_get_template tm key = Ok None →
  tm_add_template tm mem p max_len type now key = Ok (tm', o) → tm_wf tm'.
Proof.
  intros Hwf Hrooms Hrd Hget Hadd.
  destruct (tm_create_template mem p max_len type now) as [ [t|]|e|] eqn:Ht.
  - destruct (tm_create_template_shape _ _ _ _ _ _ Ht) as (Hrd' & _ & _).
    rewrite Hrd in Hrd'. injection Hrd' as Hid.
    destruct (tm_add_template_effect tm mem p max_len type now key t Hwf Hrooms Ht Hid Hget)
      as (tm2 & l & Hadd2 & ? & _). congruence.
  - destruct Hwf as (ls & f & Hinv). unfold tm_add_template, with_record in Hadd.
    destruct (tm_record_lookup_insert_spec tm ls f key Hinv)
      as (tm1 & l & ls1 & f1 & r & Hli & Hinv1 & Hl & Hr & _).
    rewrite Hli, res_bind_ret in Hadd. unfold deref in Hadd. rewrite Hr in Hadd. cbn [or_fault] in Hadd.
    rewrite res_bind_ret in Hadd. unfold tm_record_add_template in Hadd.
    rewrite Ht, !res_bind_ret in Hadd. injection Hadd as <- <-.
    eapply (tm_put_effect tm1 ls1 f1 l r _ r (f1 l) key); [done..|]. apply rec_step_refl.
    by eapply (ti_records _ _ _ Hinv1); [apply Hl|].
  - exfalso. unfold tm_add_template, with_record, tm_record_add_template in Hadd. inv_res.
    destruct x. inv_res. rewrite Ht in *. done.
  - exfalso. unfold tm_add_template, with_record, tm_record_add_template in Hadd. inv_res.
    destruct x. inv_res. rewrite Ht in *. done.
Qed.
End other_ops.

Lemma tm_update_template_wf tm mem p max_len type now key l tm' o :
  tm_wf tm → rd16 mem p = Ok (u16 (tid key)) → tm_get_template tm key = Ok (Some l) →
  tm_update_template tm mem p max_len type now key = Ok (tm', o) → tm_wf tm'.
Proof.
  intros Hwf Hrd Hget Hupd. pose proof Hwf as (ls & f & Hinv).
  destruct (tm_get_template_Some tm ls f key l Hinv Hget) as (q & r & Hq & Hr & Hlk).
  pose proof (ti_records _ _ _ Hinv q r (proj1 Hq) Hr) as Hok.
  unfold lookup_id in Hlk. apply fmap_Some in Hlk as ([i l0] & Hi & [= <-]).
  destruct (template_of_id_Some _ _ _ _ _ Hi) as [Hsl _].
  destruct (slot_allocated _ _ _ Hok _ _ Hsl) as [old Hold].
  (* parsing and comparing succeeded, since the update did *)
  assert (tm_create_template mem p max_len type now = Ok None ∧ tm' = put_record tm (theap tm) q r ∨
    ∃ t c, tm_create_template mem p max_len type now = Ok (Some t) ∧ tm_compare_templates t old = Ok c) as Hcase.
  { unfold tm_update_template, with_record, tm_record_lookup_insert in Hupd.
    rewrite (proj2 (tm_record_lookup_iff tm ls f key q Hinv) Hq), !res_bind_ret in Hupd.
    unfold deref at 1 in Hupd. rewrite Hr in Hupd. cbn [or_fault] in Hupd. rewrite res_bind_ret in Hupd.
    unfold tm_record_update_template, tm_record_template_index in Hupd.
    rewrite Hrd, res_bind_ret, (tm_record_search_spec _ _ _ Hok), Hi, !res_bind_ret in Hupd.
    rewrite decide_False, (rd_slot_lookup _ _ _ Hsl), res_bind_ret in Hupd by lia.
    unfold deref in Hupd. rewrite Hold in Hupd. cbn [or_fault] in Hupd. rewrite res_bind_ret in Hupd.
    destruct (tm_create_template mem p max_len type now) as [ [t|]|e|]; [| |done..].
    - rewrite res_bind_ret in Hupd. destruct (tm_compare_templates t old) as [c|e|] eqn:Ec; [|done..].
      right. by exists t, c.
    - rewrite !res_bind_ret in Hupd. injection Hupd as <- _. by left. }
  destruct Hcase as [ [_ ->]|(t & c & Ht & Hc)].
  - by apply (tm_put_effect tm ls f q r _ r (f q) key Hinv Hq Hr (rec_step_refl _ _ _ Hok)).
  - destruct (tm_create_template_shape _ _ _ _ _ _ Ht) as (Hrd' & _ & _).
    rewrite Hrd in Hrd'. injection Hrd' as Hid.
    destruct (tm_update_template_effect tm mem p max_len type now key t l old c Hwf Ht Hid Hget Hold Hc)
      as (tm2 & l' & Hupd2 & ? & _). congruence.
Qed.

(** ** The life of a manager *)

(** Calls to the manager, as its clients make them: a definition is added when the
    identifier is unknown and updates it otherwise. *)
Inductive tm_event :=
  | TmDefine (key : ipfix_template_key) (mem : bytes) (template max_len type now : Z)
  | TmRemove (key : ipfix_template_key)
  | TmRegister (odid_ crc_ : Z)
  | TmUnregister (odid_ crc_ : Z)
  | TmRemoveOdid (odid_ : Z)
  | TmRemoveAll
  | TmReference (l : loc)
  | TmDereference (l : loc).

Inductive tm_step : template_mgr → tm_event → template_mgr → Prop :=
  | step_add tm key mem p max_len type now tm' o :
      rooms tm → rd16 mem p = Ok (u16 (tid key)) → tm_get_template tm key = Ok None →
      tm_add_template tm mem p max_len type now key = Ok (tm', o) →
      tm_step tm (TmDefine key mem p max_len type now) tm'
  | step_update tm key mem p max_len type now l tm' o :
      rd16 mem p = Ok (u16 (tid key)) → tm_get_template tm key = Ok (Some l) →
      tm_update_template tm mem p max_len type now key = Ok (tm', o) →
      tm_step tm (TmDefine key mem p max_len type now) tm'
  | step_remove tm key tm' ret :
      tm_remove_template tm key = Ok (tm', ret) → tm_step tm (TmRemove key) tm'
  | step_register tm o c tm' ret :
      tm_source_register tm o c = Ok (tm', ret) → tm_step tm (TmRegister o c) tm'
  | step_unregister tm o c tm' ret :
      tm_source_unregister tm o c = Ok (tm', ret) → tm_step tm (TmUnregister o c) tm'
  | step_remove_odid tm o tm' :
      tm_remove_all_odid_templates tm o = Ok tm' → tm_step tm (TmRemoveOdid o) tm'
  | step_remove_all tm tm' :
      tm_remove_all_templates tm = Ok tm' → tm_step tm TmRemoveAll tm'
  | step_reference tm l h :
      tm_template_reference_inc (theap tm) l = Ok h → tm_step tm (TmReference l) (with_heap tm h)
  | step_dereference tm l h :
      tm_template_reference_dec (theap tm) l = Ok h → tm_step tm (TmDereference l) (with_heap tm h).

Lemma tm_step_wf tm e tm' : tm_wf tm → tm_step tm e tm' → tm_wf tm'.
Proof.
  intros Hwf Hst. inversion Hst; subst; clear Hst.
  - by eapply tm_add_template_wf.
  - by eapply tm_update_template_wf.
  - by eapply tm_remove_template_wf.
  - by eapply tm_source_register_wf.
  - by eapply tm_source_unregister_wf.
  - destruct Hwf as (ls & f & Hinv).
    destruct (tm_remove_records_spec (λ k, bool_decide (Z.shiftr k 32 ≠ o)) tm ls f Hinv)
      as (tm2 & Hloop & Hwf & _). unfold tm_remove_all_odid_templates in *. congruence.
  - destruct Hwf as (ls & f & Hinv).
    destruct (tm_remove_records_spec (λ _, false) tm ls f Hinv) as (tm2 & Hloop & Hwf & _).
    unfold tm_remove_all_templates in *. congruence.
  - eapply tm_wf_shape; [|done]. by eapply tm_template_reference_inc_shape.
  - eapply tm_wf_shape; [|done]. by eapply tm_template_reference_dec_shape.
Qed.

(** C21: a manager reached from the empty one by any calls its clients make is
    well formed: the list of records is linked from [first] to [last], no two
    records have the same key, the counter of each is the number of its
    templates, and its chains of templates are disjoint and allocated.  So a
    look-up always comes back without touching freed memory, with a live template
    of the identifier asked for or with none. *)
Theorem tm_reachable_safe tr tm key :
  lstar tm_step tm_create tr tm →
  tm_wf tm ∧
  ∃ o, tm_get_template tm key = Ok o ∧
  match o with
  | Some l => ∃ t, theap tm !! l = Some t ∧ original_id t = u16 (tid key)
  | None => True
  end.
Proof.
  intros Hst. assert (tm_wf tm) as Hwf.
  { eapply (lstar_inv tm_step tm_wf); [apply tm_step_wf|exact Hst|apply tm_create_wf]. }
  split; [done|]. by apply tm_get_template_live.
Qed.

(** C23: adding a template under an unused identifier: the template is stored and
    from then on found under its key, every other look-up is as before, and the
    manager stays well formed. *)
Theorem tm_add_template_get tm mem p max_len type now key t :
  tm_wf tm → rooms tm →
  tm_create_template mem p max_len type now = Ok (Some t) → u16 (tid key) = original_id t →
  tm_get_template tm key = Ok None →
  ∃ tm' l, tm_add_template tm mem p max_len type now key = Ok (tm', Some l) ∧ tm_wf tm' ∧
    theap tm' = <[l := t]> (theap tm) ∧ theap tm !! l = None ∧
    ∀ key', tm_get_template tm' key' =
            if decide (same_template key' key) then Ok (Some l) else tm_get_template tm key'.
Proof. apply tm_add_template_effect. Qed.

(** C22: receiving a definition for an identifier in use.  An identical definition
    leaves everything as it is.  A different one is found under the key from then
    on, with the identifier the collector gave to the old one; no template that a
    message refers to is changed or freed; every other look-up is as before. *)
Theorem tm_update_template_get tm mem p max_len type now key t l old c :
  tm_wf tm →
  tm_create_template mem p max_len type now = Ok (Some t) → u16 (tid key) = original_id t →
  tm_get_template tm key = Ok (Some l) → theap tm !! l = Some old →
  tm_compare_templates t old = Ok c →
  ∃ tm' l', tm_update_template tm mem p max_len type now key = Ok (tm', Some l') ∧ tm_wf tm' ∧
    (if decide (c = 0) then l' = l ∧ theap tm' = theap tm
     else theap tm !! l' = None ∧
          ∃ n, theap tm' !! l' = Some (set_next (set_template_id t (template_id old)) n)) ∧
    (∀ k t0, theap tm !! k = Some t0 → references t0 > 0 → theap tm' !! k = Some t0) ∧
    ∀ key', tm_get_template tm' key' =
            if decide (same_template key' key) then Ok (Some l') else tm_get_template tm key'.
Proof. apply tm_update_template_effect. Qed.

(** Withdrawing a template: it is found no more, every other look-up is as
    before, and the manager stays well formed. *)
Lemma tm_remove_template_get tm key l :
  tm_wf tm → tm_get_template tm key = Ok (Some l) →
  ∃ tm', tm_remove_template tm key = Ok (tm', 0) ∧ tm_wf tm' ∧
    ∀ key', tm_get_template tm' key' =
            if decide (same_template key' key) then Ok None else tm_get_template tm key'.
Proof.
  intros Hwf Hget. destruct (tm_remove_template_effect tm key l Hwf Hget) as (tm' & ? & ? & _ & ?). by exists tm'.
Qed.

(** Unlike an update, a withdrawal frees the template although messages refer
    to it: when the last queue releases such a message, the reference is dropped
    through a pointer to freed memory. *)
Lemma tm_remove_template_dangles tm key l t :
  tm_wf tm → tm_get_template tm key = Ok (Some l) → theap tm !! l = Some t → references t > 0 →
  ∃ tm', tm_remove_template tm key = Ok (tm', 0) ∧
         tm_template_reference_dec (theap tm') l = Fault UseAfterFree.
Proof.
  intros Hwf Hget _ _. destruct (tm_remove_template_effect tm key l Hwf Hget) as (tm' & ? & _ & Hl & _).
  exists tm'. split; [done|]. unfold tm_template_reference_dec, deref. by rewrite Hl.
Qed.

(** The array of a source that is full with 32768 templates is doubled to
    65536 entries, whose number the 16-bit [max_length] cannot hold: it becomes 0,
    the new template is not stored, and none of the source's templates is found
    any more. *)
Lemma tm_record_insert_template_wraps r l :
  max_length r = 32768 → counter r = 32768 → length (templates r) = Z.to_nat 32768 →
  ∃ r', tm_record_insert_template r l = Ok r' ∧ length (templates r') = Z.to_nat 65536 ∧
        Some l ∉ drop (Z.to_nat 32768) (templates r') ∧
        ∀ h id, tm_record_get_template h r' id = Ok None.
Proof.
  intros Hm Hc Hl. unfold tm_record_insert_template. set (g := tm_record_grow r).
  assert (max_length g = 0 ∧ templates g = templates r ++ replicate (Z.to_nat 32768) None) as [Hg Ht].
  { unfold g, tm_record_grow. rewrite Hm, Hc, decide_True by done. cbn [max_length templates].
    split; [done|]. by rewrite take_ge by lia. }
  exists g. split_and!.
  - rewrite Hg. cbn [loop Z.to_nat]. unfold tm_record_insert_template_step. by rewrite Hg, decide_False by lia.
  - rewrite Ht, length_app, length_replicate, Hl. lia.
  - rewrite Ht, <-Hl, drop_app_length. by intros [? _]%elem_of_replicate.
  - intros h id. unfold tm_record_get_template, tm_record_search. rewrite Hg. cbn [loop Z.to_nat].
    unfold tm_record_search_step. by rewrite Hg, decide_False by lia.
Qed.

(** *** A manager with one template *)

Definition key_example : ipfix_template_key := tm_key_create 42 1000 258.
Definition packet_example : bytes := enc_record TM_TEMPLATE 258 0 fields_example ++ [].
Definition packet_update_example : bytes := enc_record TM_TEMPLATE 258 0 fixed_fields_example ++ [].
Definition tm_example : template_mgr :=
  match tm_add_template tm_create packet_example 0 16 TM_TEMPLATE 1000 key_example with
  | Ok (tm, _) => tm
  | _ => tm_create
  end.
Definition tm_example_used : template_mgr :=
  match tm_template_reference_inc (theap tm_example) 1 with
  | Ok h => with_heap tm_example h
  | _ => tm_example
  end.

Lemma tm_example_add :
  tm_add_template tm_create packet_example 0 16 TM_TEMPLATE 1000 key_example
  = Ok (tm_example, Some 1%positive).
Proof. by vm_compute. Qed.

Lemma rooms_create : rooms tm_create.
Proof. apply map_Forall_empty. Qed.

Lemma tm_example_wf : tm_wf tm_example.
Proof.
  apply (tm_add_template_wf tm_create packet_example 0 16 TM_TEMPLATE 1000 key_example tm_example (Some 1%positive));
    [apply tm_create_wf|apply rooms_create|by vm_compute|by vm_compute|apply tm_example_add].
Qed.

Lemma tm_example_used_wf : tm_wf tm_example_used.
Proof.
  unfold tm_example_used.
  destruct (tm_template_reference_inc (theap tm_example) 1) as [h| |] eqn:E; [|apply tm_example_wf..].
  eapply tm_wf_shape; [|apply tm_example_wf]. by eapply tm_template_reference_inc_shape.
Qed.

Lemma tm_reachable_safe_witness :
  tm_wf tm_example ∧
  ∃ o, tm_get_template tm_example key_example = Ok o ∧
  match o with
  | Some l => ∃ t, theap tm_example !! l = Some t ∧ original_id t = u16 (tid key_example)
  | None => True
  end.
Proof.
  apply (tm_reachable_safe [TmDefine key_example packet_example 0 16 TM_TEMPLATE 1000]).
  apply (lstar_step tm_step tm_create _ tm_example); [|apply lstar_refl].
  apply (step_add tm_create key_example packet_example 0 16 TM_TEMPLATE 1000 tm_example (Some 1%positive));
    [apply rooms_create|by vm_compute|by vm_compute|apply tm_example_add].
Defined.

Lemma tm_add_template_get_witness :
  ∃ tm' l, tm_add_template tm_create packet_example 0 16 TM_TEMPLATE 1000 key_example = Ok (tm', Some l) ∧
    tm_wf tm' ∧
    theap tm' = <[l := spec_template TM_TEMPLATE 258 0 fields_example 1000]> (theap tm_create) ∧
    theap tm_create !! l = None ∧
    ∀ key', tm_get_template tm' key' =
            if decide (same_template key' key_example) then Ok (Some l) else tm_get_template tm_create key'.
Proof.
  apply (tm_add_template_get tm_create packet_example 0 16 TM_TEMPLATE 1000 key_example
    (spec_template TM_TEMPLATE 258 0 fields_example 1000));
    [apply tm_create_wf|apply rooms_create|by vm_compute|by vm_compute|by vm_compute].
Defined.

Lemma tm_update_template_get_witness :
  ∃ tm' l', tm_update_template tm_example_used packet_update_example 0 4 TM_TEMPLATE 2000 key_example
      = Ok (tm', Some l') ∧ tm_wf tm' ∧
    (if decide (1 = 0) then l' = 1%positive ∧ theap tm' = theap tm_example_used
     else theap tm_example_used !! l' = None ∧
          ∃ n, theap tm' !! l' = Some (set_next (set_template_id
            (spec_template TM_TEMPLATE 258 0 fixed_fields_example 2000) 258) n)) ∧
    (∀ k t0, theap tm_example_used !! k = Some t0 → references t0 > 0 → theap tm' !! k = Some t0) ∧
    ∀ key', tm_get_template tm' key' =
            if decide (same_template key' key_example) then Ok (Some l')
            else tm_get_template tm_example_used key'.
Proof.
  apply (tm_update_template_get tm_example_used packet_update_example 0 4 TM_TEMPLATE 2000 key_example
    (spec_template TM_TEMPLATE 258 0 fixed_fields_example 2000) 1
    (set_references (spec_template TM_TEMPLATE 258 0 fields_example 1000) 1) 1);
    [apply tm_example_used_wf|by vm_compute|by vm_compute|by vm_compute|by vm_compute|by vm_compute].
Defined.

Lemma tm_remove_all_odid_templates_spec_witness :
  ∃ tm', tm_remove_all_odid_templates tm_example 42 = Ok tm' ∧ tm_wf tm' ∧
    ∀ key,
      (Z.shiftr (table_key key) 32 = 42 ∧ unregistered tm_example key → tm_get_template tm' key = Ok None) ∧
      (¬ (Z.shiftr (table_key key) 32 = 42 ∧ unregistered tm_example key) →
       tm_get_template tm' key = tm_get_template tm_example key).
Proof. apply (tm_remove_all_odid_templates_spec tm_example 42). apply tm_example_wf. Defined.
