(* ===== verification/TemplateMapper.v ===== *)
(** * Template mapper (src/base/src/utils/template_mapper/template_mapper.c)

    Several flow sources of one Observation Domain ID (ODID) share a space of
    template identifiers. A maintainer ([fwd_odid]) owns the shared templates
    of an ODID; a flow source ([fwd_source]) maps its private identifiers to
    shared ones. Maintainers are pointed to by the mapper and by every source of
    the ODID, so they are objects of a heap; the address of a freed maintainer
    stays in the heap with [None] and is not given out again. Templates are
    owned by their maintainer and sources by the mapper: they are values.
    Allocations succeed. *)

From S2P Require Import Prelude TemplateRecord.

(** ** Data *)

(** Number of IDs in a group, number of groups, default size of the arrays. *)
Definition GROUP_SIZE : Z := 256.
Definition GROUP_CNT : Z := 256.
Definition ARRAY_DEF_SIZE : Z := 8.
Definition FWD_MAX_RECORD_FLOWSET_ID : Z := 65535.

(** A sparse array of 256 groups with 256 entries each. *)
Abbreviation sparse A := (gmap Z (gmap Z A)).

Section sparse.
Context {A : Type}.
Implicit Types (s : sparse A).

(** The entry, if the group exists and the entry is set. *)
Definition sparse_get s (id : Z) : option A :=
  group ← s !! (id / GROUP_SIZE); group !! (id mod GROUP_SIZE).

(** Set the entry, in a new group when there is none. *)
Definition sparse_set s (id : Z) (v : A) : sparse A :=
  let group := default ∅ (s !! (id / GROUP_SIZE)) in
  <[id / GROUP_SIZE := <[id mod GROUP_SIZE := v]> group]> s.

(** Clear an entry of an existing group. *)
Definition sparse_clear s (id : Z) : sparse A :=
  alter (delete (id mod GROUP_SIZE)) (id / GROUP_SIZE) s.
End sparse.

Record tmapper_tmplt := {
  tmplt_id : Z;
  tmplt_type : Z;
  tmplt_rec : bytes;
  tmplt_length : Z;
  ref_cnt : Z;
}.

Record fwd_odid := {
  odid : Z;
  templates_options : Z;
  templates_normal : Z;
  to_remove : Z;
  tmplts : sparse tmapper_tmplt;
}.

Record fwd_source := {
  src_odid : Z;
  src_id : loc;
  maintainer : loc;
  map : sparse Z;
}.

(** The sizes of the arrays are the lengths of the lists. *)
Record tmapper := {
  odid_arr : list loc;
  odid_arr_max : Z;
  src_arr : list fwd_source;
  src_arr_max : Z;
}.

Inductive TMPLT_DEF_TYPE :=
  | TYPE_INVALID
  | TYPE_NEW
  | TYPE_WITHDRAWAL
  | TYPE_WITHDRAWAL_ALL.

Inductive TMAPPER_ACTION :=
  | TMAPPER_ACT_INVALID
  | TMAPPER_ACT_PASS
  | TMAPPER_ACT_DROP.

#[export] Instance TMPLT_DEF_TYPE_eq_dec : EqDecision TMPLT_DEF_TYPE.
Proof. solve_decision. Defined.
#[export] Instance TMAPPER_ACTION_eq_dec : EqDecision TMAPPER_ACTION.
Proof. solve_decision. Defined.
#[export] Instance tmapper_tmplt_eq_dec : EqDecision tmapper_tmplt.
Proof. solve_decision. Defined.

(** The heap of maintainers; [None] marks a freed one. *)
Abbreviation odid_heap := (gmap loc (option fwd_odid)).

Definition live (h : odid_heap) (l : loc) : res fwd_odid :=
  match h !! l with Some (Some o) => Ok o | _ => Fault UseAfterFree end.

(** The template identifiers, 256 to 65535. *)
Definition template_ids : list Z := range IPFIX_MIN_RECORD_FLOWSET_ID (Z.to_nat 65280).
(** The range the loops with [id < max] visit, 256 to 65534. *)
Definition template_ids_but_last : list Z := range IPFIX_MIN_RECORD_FLOWSET_ID (Z.to_nat 65279).
Arguments template_ids : simpl never.
Arguments template_ids_but_last : simpl never.

(** ** Type of a template record *)

Definition tmplts_aux_def_type (rec : bytes) (length type : Z) : res TMPLT_DEF_TYPE :=
  if decide (length < 4) then Ok TYPE_INVALID else
  id ← rd16 rec 0;
  count ← rd16 rec 2;
  if decide (count = 0) then
    if decide (length ≠ 4) then Ok TYPE_INVALID else
    if decide (type = TM_TEMPLATE ∧ id = IPFIX_TEMPLATE_FLOWSET_ID) then Ok TYPE_WITHDRAWAL_ALL else
    if decide (type = TM_OPTIONS_TEMPLATE ∧ id = IPFIX_OPTION_FLOWSET_ID) then Ok TYPE_WITHDRAWAL_ALL else
    if decide (id < IPFIX_MIN_RECORD_FLOWSET_ID) then Ok TYPE_INVALID else
    Ok TYPE_WITHDRAWAL
  else
    if decide (id < IPFIX_MIN_RECORD_FLOWSET_ID) then Ok TYPE_INVALID else Ok TYPE_NEW.

(** ** Shared templates *)

Definition set_ref_cnt (t : tmapper_tmplt) (n : Z) : tmapper_tmplt :=
  {| tmplt_id := tmplt_id t; tmplt_type := tmplt_type t; tmplt_rec := tmplt_rec t;
     tmplt_length := tmplt_length t; ref_cnt := n |}.

Definition fwd_tmplt_create (rec : bytes) (length type new_id : Z) : res tmapper_tmplt :=
  copy ← rdn rec 0 length;
  copy ← wr16 copy 0 new_id;
  Ok {| tmplt_id := new_id; tmplt_type := type; tmplt_rec := copy;
        tmplt_length := length; ref_cnt := 0 |}.

(** 0 for equal records; the sign of [memcmp] is not used by any caller. *)
Definition fwd_tmplt_cmp (rec : bytes) (rec_len rec_type : Z) (tmplt : tmapper_tmplt) : res Z :=
  if decide (tmplt_type tmplt ≠ rec_type) then Ok 1 else
  if decide (tmplt_length tmplt ≠ rec_len) then Ok 1 else
  let id_size := 2 in
  rec1 ← rdn rec id_size (u64 (rec_len - id_size));
  rec2 ← rdn (tmplt_rec tmplt) id_size (u64 (rec_len - id_size));
  if decide (rec1 = rec2) then Ok 0 else Ok 1.

Definition fwd_odid_create (odid : Z) : fwd_odid :=
  {| odid := odid; templates_options := 0; templates_normal := 0; to_remove := 0; tmplts := ∅ |}.

Definition fwd_odid_destroy (h : odid_heap) (l : loc) : res odid_heap :=
  _ ← live h l; Ok (<[l := None]> h).

Definition fwd_odid_template_get (o : fwd_odid) (id : Z) : option tmapper_tmplt :=
  sparse_get (tmplts o) id.

Definition fwd_odid_template_unused_id (o : fwd_odid) (hint : Z) : Z :=
  if decide (hint >= IPFIX_MIN_RECORD_FLOWSET_ID ∧ fwd_odid_template_get o hint = None) then hint
  else match list_find (λ new_id, fwd_odid_template_get o new_id = None) template_ids with
       | Some (_, new_id) => new_id
       | None => 0
       end.

Definition fwd_odid_template_insert (o : fwd_odid) (rec : bytes) (rec_len rec_type : Z) :
    res (fwd_odid * Z) :=
  old_id ← rd16 rec 0;
  let new_id := fwd_odid_template_unused_id o old_id in
  if decide (new_id = 0) then Ok (o, 0) else
  if decide (rec_type ≠ TM_TEMPLATE ∧ rec_type ≠ TM_OPTIONS_TEMPLATE) then Ok (o, 0) else
  tmplt ← fwd_tmplt_create rec rec_len rec_type new_id;
  Ok ({| odid := odid o;
         templates_options := if decide (rec_type = TM_TEMPLATE) then templates_options o
                              else u32 (templates_options o + 1);
         templates_normal := if decide (rec_type = TM_TEMPLATE) then u32 (templates_normal o + 1)
                             else templates_normal o;
         to_remove := u32 (to_remove o + 1);
         tmplts := sparse_set (tmplts o) new_id tmplt |}, new_id).

Definition fwd_odid_template_remove (o : fwd_odid) (id : Z) : fwd_odid :=
  match fwd_odid_template_get o id with
  | None => o
  | Some rec =>
      {| odid := odid o;
         templates_options := if decide (tmplt_type rec = TM_OPTIONS_TEMPLATE)
                              then u32 (templates_options o - 1) else templates_options o;
         templates_normal := if decide (tmplt_type rec = TM_TEMPLATE)
                             then u32 (templates_normal o - 1) else templates_normal o;
         to_remove := to_remove o;
         tmplts := sparse_clear (tmplts o) id |}
  end.

(** The loops over the groups and over the entries of a group, left at the
    first equal template. *)
Definition find_in_group (group : gmap Z tmapper_tmplt) (i : Z) (rec : bytes)
    (rec_length rec_type : Z) : res (() + Z) :=
  for_each (λ j _,
    match group !! j with
    | None => Ok (inl ())
    | Some tmplt =>
        c ← fwd_tmplt_cmp rec rec_length rec_type tmplt;
        if decide (c = 0) then Ok (inr (i * GROUP_SIZE + j)) else Ok (inl ())
    end) (range 0 256) ().

Definition fwd_odid_template_find (o : fwd_odid) (rec : bytes) (rec_length rec_type : Z) : res Z :=
  r ← for_each (λ i _,
        match tmplts o !! i with
        | None => Ok (inl ())
        | Some group => find_in_group group i rec rec_length rec_type
        end) (range 0 256) ();
  match r with inl _ => Ok 0 | inr id => Ok id end.

Definition set_template (o : fwd_odid) (id : Z) (t : tmapper_tmplt) (remove : Z) : fwd_odid :=
  {| odid := odid o; templates_options := templates_options o;
     templates_normal := templates_normal o; to_remove := remove;
     tmplts := sparse_set (tmplts o) id t |}.

Definition fwd_odid_template_increment (o : fwd_odid) (shared_id : Z) : fwd_odid * Z :=
  match fwd_odid_template_get o shared_id with
  | None => (o, 1)
  | Some tmplt =>
      (set_template o shared_id (set_ref_cnt tmplt (u32 (ref_cnt tmplt + 1)))
         (if decide (ref_cnt tmplt = 0) then u32 (to_remove o - 1) else to_remove o), 0)
  end.

Definition fwd_odid_template_decrement (o : fwd_odid) (shared_id : Z) : fwd_odid * Z :=
  match fwd_odid_template_get o shared_id with
  | None => (o, 1)
  | Some tmplt =>
      if decide (ref_cnt tmplt = 0) then (o, 1) else
      let n := u32 (ref_cnt tmplt - 1) in
      (set_template o shared_id (set_ref_cnt tmplt n)
         (if decide (n = 0) then u32 (to_remove o + 1) else to_remove o), 0)
  end.

(** ** Flow sources *)

Definition set_map (src : fwd_source) (m : sparse Z) : fwd_source :=
  {| src_odid := src_odid src; src_id := src_id src; maintainer := maintainer src; map := m |}.

(** A flow source is identified by the address of its [input_info]. *)
Definition fwd_src_create (h : odid_heap) (src : loc) (odid_of_src : Z) (maint : loc) :
    res (option fwd_source) :=
  o ← live h maint;
  if decide (odid o ≠ odid_of_src) then Ok None else
  Ok (Some {| src_odid := odid o; src_id := src; maintainer := maint; map := ∅ |}).

Definition fwd_src_mapping_get (src : fwd_source) (old_id : Z) : Z :=
  default 0 (sparse_get (map src) old_id).

Definition fwd_src_mapping_set (h : odid_heap) (src : fwd_source) (old_id new_id : Z) :
    res (odid_heap * fwd_source) :=
  o ← live h (maintainer src);
  let (o, _) := fwd_odid_template_increment o new_id in
  Ok (<[maintainer src := Some o]> h, set_map src (sparse_set (map src) old_id new_id)).

Definition fwd_src_mapping_remove (h : odid_heap) (src : fwd_source) (old_id : Z) :
    res (odid_heap * fwd_source) :=
  let shared_id := fwd_src_mapping_get src old_id in
  if decide (shared_id = 0) then Ok (h, src) else
  o ← live h (maintainer src);
  let (o, _) := fwd_odid_template_decrement o shared_id in
  Ok (<[maintainer src := Some o]> h, set_map src (sparse_set (map src) old_id 0)).

(** The part of [fwd_src_add_tmplt] behind the check of an existing mapping:
    share an equal template or store a new one. The result is the action and
    the value of the output [new_id]. *)
Definition fwd_src_add_unmapped (h : odid_heap) (src : fwd_source) (rec : bytes)
    (rec_len rec_type private_id new_id : Z) : res (odid_heap * fwd_source * TMAPPER_ACTION * Z) :=
  o ← live h (maintainer src);
  shared_id ← fwd_odid_template_find o rec rec_len rec_type;
  if decide (shared_id > 0) then
    x ← fwd_src_mapping_set h src private_id shared_id;
    let '(h, src) := x in Ok (h, src, TMAPPER_ACT_DROP, new_id)
  else
    x ← fwd_odid_template_insert o rec rec_len rec_type;
    let '(o, shared_id) := x in
    let h := <[maintainer src := Some o]> h in
    if decide (shared_id = 0) then Ok (h, src, TMAPPER_ACT_DROP, new_id) else
    x ← fwd_src_mapping_set h src private_id shared_id;
    let '(h, src) := x in Ok (h, src, TMAPPER_ACT_PASS, shared_id).

Definition fwd_src_add_tmplt (h : odid_heap) (src : fwd_source) (rec : bytes)
    (rec_len rec_type new_id : Z) : res (odid_heap * fwd_source * TMAPPER_ACTION * Z) :=
  private_id ← rd16 rec 0;
  let shared_id := fwd_src_mapping_get src private_id in
  if decide (shared_id > 0) then
    o ← live h (maintainer src);
    match fwd_odid_template_get o shared_id with
    | None => Ok (h, src, TMAPPER_ACT_INVALID, new_id)
    | Some tmplt =>
        c ← fwd_tmplt_cmp rec rec_len rec_type tmplt;
        if decide (c = 0) then Ok (h, src, TMAPPER_ACT_DROP, new_id) else
        x ← fwd_src_mapping_remove h src private_id;
        let '(h, src) := x in
        fwd_src_add_unmapped h src rec rec_len rec_type private_id new_id
    end
  else fwd_src_add_unmapped h src rec rec_len rec_type private_id new_id.

Definition fwd_src_withdraw_type_step (type private_id : Z) (s : odid_heap * fwd_source) :
    res ((odid_heap * fwd_source) + Empty_set) :=
  let '(h, src) := s in
  let shared_id := fwd_src_mapping_get src private_id in
  if decide (shared_id = 0) then Ok (inl (h, src)) else
  o ← live h (maintainer src);
  match fwd_odid_template_get o shared_id with
  | None => Ok (inl (h, src))
  | Some tmplt =>
      if decide (tmplt_type tmplt ≠ type) then Ok (inl (h, src)) else
      x ← fwd_src_mapping_remove h src private_id; Ok (inl x)
  end.

Definition fwd_src_withdraw_type (h : odid_heap) (src : fwd_source) (type : Z) :
    res (odid_heap * fwd_source) :=
  if decide (type ≠ TM_TEMPLATE ∧ type ≠ TM_OPTIONS_TEMPLATE) then Ok (h, src) else
  r ← for_each (fwd_src_withdraw_type_step type) template_ids (h, src);
  match r with inl s => Ok s | inr e => match (e : Empty_set) with end end.

(** A withdrawal of the other kind of template is carried out, with a warning. *)
Definition fwd_src_withdraw_id (h : odid_heap) (src : fwd_source) (id : Z) :
    res (odid_heap * fwd_source) :=
  let share_id := fwd_src_mapping_get src id in
  if decide (share_id = 0) then Ok (h, src) else
  o ← live h (maintainer src);
  match fwd_odid_template_get o share_id with
  | None => Ok (h, src)
  | Some _ => fwd_src_mapping_remove h src id
  end.

(** ** The mapper *)

(** Appending to an array of pointers that is doubled when it is full. *)
Definition push {A} (arr : list A) (max : Z) (x : A) : res (list A * Z) :=
  let size := Z.of_nat (length arr) in
  let max := if decide (size = max) then u64 (2 * max) else max in
  if decide (size < max) then Ok (arr ++ [x], max) else Fault OobWrite.

Definition set_odid_arr (mgr : tmapper) (arr : list loc) (max : Z) : tmapper :=
  {| odid_arr := arr; odid_arr_max := max; src_arr := src_arr mgr; src_arr_max := src_arr_max mgr |}.
Definition set_src_arr (mgr : tmapper) (arr : list fwd_source) (max : Z) : tmapper :=
  {| odid_arr := odid_arr mgr; odid_arr_max := odid_arr_max mgr; src_arr := arr; src_arr_max := max |}.

Definition tmplts_odid_add (h : odid_heap) (mgr : tmapper) (odid : Z) :
    res (odid_heap * tmapper * loc) :=
  let l := fresh (dom h) in
  x ← push (odid_arr mgr) (odid_arr_max mgr) l;
  let '(arr, max) := x in
  Ok (<[l := Some (fwd_odid_create odid)]> h, set_odid_arr mgr arr max, l).

(** The position of the first maintainer of the ODID in the array. *)
Fixpoint odid_position (h : odid_heap) (arr : list loc) (id : Z) : res (option nat) :=
  match arr with
  | [] => Ok None
  | l :: arr =>
      o ← live h l;
      if decide (odid o = id) then Ok (Some O) else
      p ← odid_position h arr id; Ok (option_map S p)
  end.

(** The entries behind the removed one are shifted to the left. *)
Definition tmplts_odid_remove (h : odid_heap) (mgr : tmapper) (odid : Z) :
    res (odid_heap * tmapper) :=
  p ← odid_position h (odid_arr mgr) odid;
  match p with
  | None => Ok (h, mgr)
  | Some pos =>
      l ← or_fault OobRead (odid_arr mgr !! pos);
      h ← fwd_odid_destroy h l;
      Ok (h, set_odid_arr mgr (delete pos (odid_arr mgr)) (odid_arr_max mgr))
  end.

Definition tmplts_odid_find (h : odid_heap) (mgr : tmapper) (odid : Z) : res (option loc) :=
  p ← odid_position h (odid_arr mgr) odid;
  Ok (pos ← p; odid_arr mgr !! pos).

Definition tmplts_odid_get (h : odid_heap) (mgr : tmapper) (odid : Z) :
    res (odid_heap * tmapper * loc) :=
  r ← tmplts_odid_find h mgr odid;
  match r with
  | Some l => Ok (h, mgr, l)
  | None => tmplts_odid_add h mgr odid
  end.

(** Sources are found by position: the position stands for the pointer. *)
Definition tmplts_src_find (mgr : tmapper) (src : loc) : option nat :=
  fst <$> list_find (λ s, src_id s = src) (src_arr mgr).

Definition tmplts_src_add (h : odid_heap) (mgr : tmapper) (src : loc) (odid_of_src : Z) :
    res (odid_heap * tmapper * option nat) :=
  x ← tmplts_odid_get h mgr odid_of_src;
  let '(h, mgr, maint) := x in
  s ← fwd_src_create h src odid_of_src maint;
  match s with
  | None => Ok (h, mgr, None)
  | Some flow_src =>
      x ← push (src_arr mgr) (src_arr_max mgr) flow_src;
      let '(arr, max) := x in
      Ok (h, set_src_arr mgr arr max, Some (length (src_arr mgr)))
  end.

Definition tmplts_src_get (h : odid_heap) (mgr : tmapper) (src : loc) (odid_of_src : Z) :
    res (odid_heap * tmapper * option nat) :=
  match tmplts_src_find mgr src with
  | Some pos => Ok (h, mgr, Some pos)
  | None => tmplts_src_add h mgr src odid_of_src
  end.

Definition tmplts_src_remove (mgr : tmapper) (src : loc) : tmapper :=
  match tmplts_src_find mgr src with
  | None => mgr
  | Some pos => set_src_arr mgr (delete pos (src_arr mgr)) (src_arr_max mgr)
  end.

(** ** Interface *)

Definition tmapper_create : odid_heap * tmapper :=
  (∅, {| odid_arr := []; odid_arr_max := ARRAY_DEF_SIZE; src_arr := []; src_arr_max := ARRAY_DEF_SIZE |}).

(** Every maintainer of the array is freed. *)
Fixpoint destroy_odids (h : odid_heap) (arr : list loc) : res odid_heap :=
  match arr with
  | [] => Ok h
  | l :: arr => h ← fwd_odid_destroy h l; destroy_odids h arr
  end.

(** The sources are freed with the mapper; [None] is the null pointer. *)
Definition tmapper_destroy (h : odid_heap) (mgr : option tmapper) : res odid_heap :=
  match mgr with None => Ok h | Some mgr => destroy_odids h (odid_arr mgr) end.

Definition tmapper_process_template (h : odid_heap) (mgr : tmapper) (src : loc) (odid_of_src : Z)
    (rec : bytes) (type length new_id : Z) : res (odid_heap * tmapper * TMAPPER_ACTION * Z) :=
  x ← tmplts_src_get h mgr src odid_of_src;
  let '(h, mgr, p) := x in
  match p with
  | None => Ok (h, mgr, TMAPPER_ACT_DROP, new_id)
  | Some pos =>
      flow_src ← or_fault OobRead (src_arr mgr !! pos);
      let store s := set_src_arr mgr (<[pos := s]> (src_arr mgr)) (src_arr_max mgr) in
      def_type ← tmplts_aux_def_type rec length type;
      match def_type with
      | TYPE_NEW =>
          x ← fwd_src_add_tmplt h flow_src rec length type new_id;
          let '(h, s, action, new_id) := x in Ok (h, store s, action, new_id)
      | TYPE_WITHDRAWAL =>
          id ← rd16 rec 0;
          x ← fwd_src_withdraw_id h flow_src id;
          let '(h, s) := x in Ok (h, store s, TMAPPER_ACT_DROP, new_id)
      | TYPE_WITHDRAWAL_ALL =>
          x ← fwd_src_withdraw_type h flow_src type;
          let '(h, s) := x in Ok (h, store s, TMAPPER_ACT_DROP, new_id)
      | TYPE_INVALID => Ok (h, mgr, TMAPPER_ACT_INVALID, new_id)
      end
  end.

(** [private_id] is the identifier in the header of the Data Set. *)
Definition tmapper_remap_data_set (mgr : tmapper) (src : loc) (private_id : Z) : Z :=
  match pos ← tmplts_src_find mgr src; src_arr mgr !! pos with
  | None => 0
  | Some flow_src => fwd_src_mapping_get flow_src private_id
  end.

Definition tmapper_remove_source (h : odid_heap) (mgr : tmapper) (src : loc) :
    res (odid_heap * tmapper * Z) :=
  match tmplts_src_find mgr src with
  | None => Ok (h, mgr, 1)
  | Some pos =>
      flow_src ← or_fault OobRead (src_arr mgr !! pos);
      x ← fwd_src_withdraw_type h flow_src TM_TEMPLATE;
      let '(h, flow_src) := x in
      x ← fwd_src_withdraw_type h flow_src TM_OPTIONS_TEMPLATE;
      let '(h, flow_src) := x in
      let mgr := set_src_arr mgr (<[pos := flow_src]> (src_arr mgr)) (src_arr_max mgr) in
      Ok (h, tmplts_src_remove mgr src, 0)
  end.

Definition withdraw_ids_step (type rec_cnt id : Z) (s : fwd_odid * list Z) :
    res ((fwd_odid * list Z) + (fwd_odid * list Z)) :=
  let '(o, result) := s in
  match fwd_odid_template_get o id with
  | None => Ok (inl (o, result))
  | Some tmplt =>
      if decide (tmplt_type tmplt ≠ type) then Ok (inl (o, result)) else
      if decide (ref_cnt tmplt ≠ 0) then Ok (inl (o, result)) else
      if decide (Z.of_nat (length result) < rec_cnt + 1) then
        let o := fwd_odid_template_remove o id in
        let o := {| odid := odid o; templates_options := templates_options o;
                    templates_normal := templates_normal o;
                    to_remove := u32 (to_remove o - 1); tmplts := tmplts o |} in
        if decide (to_remove o = 0) then Ok (inr (o, result ++ [id]))
        else Ok (inl (o, result ++ [id]))
      else Fault OobWrite
  end.

(** The array of [rec_cnt + 1] entries, ended with 0, and the count. *)
Definition tmapper_withdraw_ids (h : odid_heap) (mgr : tmapper) (odid type : Z) :
    res (odid_heap * tmapper * option (list Z * Z)) :=
  p ← tmplts_odid_find h mgr odid;
  match p with
  | None => Ok (h, mgr, None)
  | Some l =>
      o ← live h l;
      let rec_cnt := u16 (to_remove o) in
      if decide (rec_cnt = 0) then Ok (h, mgr, Some ([0], 0)) else
      r ← for_each (withdraw_ids_step type rec_cnt) template_ids_but_last (o, []);
      let '(o, result) := match r with inl s => s | inr s => s end in
      let h := <[l := Some o]> h in
      x ← (if decide (templates_normal o = 0 ∧ templates_options o = 0)
           then tmplts_odid_remove h mgr odid else Ok (h, mgr));
      let '(h, mgr) := x in
      if decide (Z.of_nat (length result) < rec_cnt + 1)
      then Ok (h, mgr, Some (result ++ [0], u16 (Z.of_nat (length result))))
      else Fault OobWrite
  end.

Definition get_templates_step (o : fwd_odid) (type rec_cnt id : Z) (result : list tmapper_tmplt) :
    res (list tmapper_tmplt + list tmapper_tmplt) :=
  match fwd_odid_template_get o id with
  | None => Ok (inl result)
  | Some tmplt =>
      if decide (tmplt_type tmplt ≠ type) then Ok (inl result) else
      if decide (Z.of_nat (length result) < rec_cnt + 1) then
        if decide (Z.of_nat (length result) + 1 = rec_cnt) then Ok (inr (result ++ [tmplt]))
        else Ok (inl (result ++ [tmplt]))
      else Fault OobWrite
  end.

(** The array of pointers, given by the templates pointed to, and the count. *)
Definition tmapper_get_templates (h : odid_heap) (mgr : tmapper) (odid type : Z) :
    res (option (list tmapper_tmplt * Z)) :=
  p ← tmplts_odid_find h mgr odid;
  match p with
  | None => Ok None
  | Some l =>
      if decide (type ≠ TM_TEMPLATE ∧ type ≠ TM_OPTIONS_TEMPLATE) then Ok None else
      o ← live h l;
      let rec_cnt := if decide (type = TM_TEMPLATE) then templates_normal o else templates_options o in
      r ← (if decide (rec_cnt > 0)
           then for_each (get_templates_step o type rec_cnt) template_ids_but_last []
           else Ok (inl []));
      let result := match r with inl s => s | inr s => s end in
      if decide (Z.of_nat (length result) < rec_cnt + 1)
      then Ok (Some (result, u16 (Z.of_nat (length result)))) else Fault OobWrite
  end.

Fixpoint get_odids (h : odid_heap) (arr : list loc) : res (list Z) :=
  match arr with
  | [] => Ok []
  | l :: arr => o ← live h l; ids ← get_odids h arr; Ok (odid o :: ids)
  end.

Definition tmapper_get_odids (h : odid_heap) (mgr : tmapper) : res (list Z * Z) :=
  ids ← get_odids h (odid_arr mgr); Ok (ids, u32 (Z.of_nat (length (odid_arr mgr)))).

(** ** Theory: sparse arrays and counting *)

Section sparse_laws.
Context {A : Type}.
Implicit Types (s : sparse A).

Lemma group_split i j : i / GROUP_SIZE = j / GROUP_SIZE → i mod GROUP_SIZE = j mod GROUP_SIZE → i = j.
Proof. unfold GROUP_SIZE. Z.to_euclidean_division_equations; lia. Qed.

Lemma sparse_get_set s i j v : sparse_get (sparse_set s i v) j = if decide (i = j) then Some v else sparse_get s j.
Proof.
  unfold sparse_get, sparse_set. case_decide as E.
  - subst. rewrite lookup_insert_eq. cbn. apply lookup_insert_eq.
  - destruct (decide (i / GROUP_SIZE = j / GROUP_SIZE)) as [Eg|Eg].
    + rewrite Eg, lookup_insert_eq. cbn. rewrite lookup_insert_ne.
      * by destruct (s !! (j / GROUP_SIZE)).
      * intros Em. apply E. by apply group_split.
    + by rewrite lookup_insert_ne.
Qed.

Lemma sparse_get_clear s i j : sparse_get (sparse_clear s i) j = if decide (i = j) then None else sparse_get s j.
Proof.
  unfold sparse_get, sparse_clear. case_decide as E.
  - subst. rewrite lookup_alter_eq. destruct (s !! _); [|done]. cbn. apply lookup_delete_eq.
  - destruct (decide (i / GROUP_SIZE = j / GROUP_SIZE)) as [Eg|Eg].
    + rewrite Eg, lookup_alter_eq. destruct (s !! (j / GROUP_SIZE)); [|done]. cbn.
      rewrite lookup_delete_ne; [done|]. intros Em. apply E. by apply group_split.
    + by rewrite lookup_alter_ne.
Qed.

Lemma sparse_get_empty i : sparse_get (∅ : sparse A) i = None.
Proof. done. Qed.
End sparse_laws.

(** All 16-bit identifiers, and how many of them satisfy a test. *)
Definition all_ids : list Z := range 0 (Z.to_nat 65536).
Arguments all_ids : simpl never.

Definition countl (f : Z → bool) (xs : list Z) : Z := Z.of_nat (length (filter (λ x, f x = true) xs)).
Definition count (f : Z → bool) : Z := countl f all_ids.

Lemma countl_ext f g xs : (∀ x, x ∈ xs → f x = g x) → countl f xs = countl g xs.
Proof.
  intros H. unfold countl. f_equal. f_equal.
  induction xs as [|x xs IH]; [done|].
  rewrite !filter_cons, IH by (intros; apply H; by constructor).
  by rewrite (H x) by constructor.
Qed.

Lemma countl_cons f x xs : countl f (x :: xs) = (if f x then 1 else 0) + countl f xs.
Proof. unfold countl. rewrite filter_cons. destruct (f x); case_decide; try done; cbn [length]; lia. Qed.

Lemma countl_change f g k xs : NoDup xs → k ∈ xs → (∀ x, x ≠ k → g x = f x) →
  countl g xs = countl f xs - (if f k then 1 else 0) + (if g k then 1 else 0).
Proof.
  intros Hnd Hk H. induction xs as [|x xs IH]; [by apply elem_of_nil in Hk|].
  apply NoDup_cons in Hnd as [Hx Hnd]. rewrite !countl_cons.
  apply elem_of_cons in Hk as [->|Hk].
  - rewrite (countl_ext g f xs); [lia|]. intros y Hy. apply H. by intros ->.
  - rewrite IH, (H x) by (done || intros ->; done). lia.
Qed.

Lemma elem_of_all_ids k : k ∈ all_ids ↔ 0 ≤ k < 65536.
Proof. unfold all_ids. rewrite elem_of_range. lia. Qed.

Lemma count_change f g k : 0 ≤ k < 65536 → (∀ x, x ≠ k → g x = f x) →
  count g = count f - (if f k then 1 else 0) + (if g k then 1 else 0).
Proof. intros ? ?. apply countl_change; [apply NoDup_range|by apply elem_of_all_ids|done]. Qed.

Lemma count_range f : 0 ≤ count f ≤ 65536.
Proof.
  unfold count, countl. split; [lia|].
  pose proof (length_filter (λ x, f x = true) all_ids) as H.
  assert (length all_ids = Z.to_nat 65536) as E
    by (unfold all_ids; rewrite range_seqZ, length_seqZ; lia).
  rewrite E in H. lia.
Qed.

Lemma count_positive f k : 0 ≤ k < 65536 → f k = true → 1 ≤ count f.
Proof.
  intros Hk Hf. pose proof (count_range (λ x, f x && negb (bool_decide (x = k)))) as Hr.
  rewrite (count_change f _ k Hk) in Hr.
  - rewrite Hf, bool_decide_true in Hr by done. cbn [andb negb] in Hr. lia.
  - intros x Hx. rewrite bool_decide_false by done. cbn. apply andb_true_r.
Qed.

Lemma count_zero f k : count f = 0 → 0 ≤ k < 65536 → f k = false.
Proof. intros H0 Hk. destruct (f k) eqn:E; [|done]. pose proof (count_positive f k Hk E). lia. Qed.

Lemma count_witness f : count f ≠ 0 → ∃ k, 0 ≤ k < 65536 ∧ f k = true.
Proof.
  unfold count, countl. destruct (filter _ all_ids) as [|k xs] eqn:E; [done|].
  intros _. exists k. assert (k ∈ filter (λ x, f x = true) all_ids) as H by (rewrite E; constructor).
  apply list_elem_of_filter in H as [? H%elem_of_all_ids]. done.
Qed.

(** ** Consistency of a maintainer *)

(** What sources share: the kind and the octets behind the Template ID. *)
Definition definition_of (t : tmapper_tmplt) : Z * bytes := (tmplt_type t, drop 2 (tmplt_rec t)).

Definition has (o : fwd_odid) (f : tmapper_tmplt → bool) (id : Z) : bool :=
  match fwd_odid_template_get o id with Some t => f t | None => false end.
Definition is_type (type : Z) (t : tmapper_tmplt) : bool := bool_decide (tmplt_type t = type).
Definition unreferenced (t : tmapper_tmplt) : bool := bool_decide (ref_cnt t = 0).

(** A template stored under [id] with [n] references. *)
Record template_ok (id n : Z) (t : tmapper_tmplt) : Prop := {
  to_range : IPFIX_MIN_RECORD_FLOWSET_ID ≤ id < 65536;
  to_id : tmplt_id t = id;
  to_type : tmplt_type t = TM_TEMPLATE ∨ tmplt_type t = TM_OPTIONS_TEMPLATE;
  to_blen : blen (tmplt_rec t) = tmplt_length t;
  to_length : 4 ≤ tmplt_length t < 18446744073709551616;
  to_wire_id : rd16 (tmplt_rec t) 0 = Ok id;
  to_refs : ref_cnt t = n;
}.

(** [R id] is the number of mappings to the shared [id]. *)
Record odid_ok (R : Z → Z) (o : fwd_odid) : Prop := {
  oo_template : ∀ id t, fwd_odid_template_get o id = Some t → template_ok id (R id) t;
  oo_referenced : ∀ id, id ≠ 0 → R id ≠ 0 → is_Some (fwd_odid_template_get o id);
  oo_refs : ∀ id, 0 ≤ R id;
  oo_normal : templates_normal o = count (has o (is_type TM_TEMPLATE));
  oo_options : templates_options o = count (has o (is_type TM_OPTIONS_TEMPLATE));
  oo_remove : to_remove o = count (has o unreferenced);
  oo_distinct : ∀ i j t u, fwd_odid_template_get o i = Some t → fwd_odid_template_get o j = Some u →
    definition_of t = definition_of u → i = j;
}.

(** [R] with [n] more mappings to [id]. *)
Definition bump (R : Z → Z) (id n : Z) (j : Z) : Z := if decide (j = id) then R j + n else R j.

Lemma is_type_set_ref_cnt type t n : is_type type (set_ref_cnt t n) = is_type type t.
Proof. done. Qed.

Lemma template_get_set o id t r j :
  fwd_odid_template_get (set_template o id t r) j =
  if decide (id = j) then Some t else fwd_odid_template_get o j.
Proof. apply sparse_get_set. Qed.

Lemma has_unchanged o o' f id : (∀ j, j ≠ id → fwd_odid_template_get o' j = fwd_odid_template_get o j) →
  ∀ j, j ≠ id → has o' f j = has o f j.
Proof. intros H j Hj. unfold has. by rewrite H. Qed.

Section maintainer.
Context (R : Z → Z) (o : fwd_odid) (Ho : odid_ok R o).

Lemma template_in_range id t : fwd_odid_template_get o id = Some t → 256 ≤ id < 65536.
Proof. intros [? _ _ _ _ _ _]%(oo_template _ _ Ho). done. Qed.

(** The count of a test after the template [t] under [id] became [t']. *)
Lemma count_set f id t t' r : fwd_odid_template_get o id = Some t →
  count (has (set_template o id t' r) f) =
  count (has o f) - (if f t then 1 else 0) + (if f t' then 1 else 0).
Proof.
  intros Ht. rewrite (count_change (has o f) _ id).
  - unfold has at 2 3. by rewrite template_get_set, decide_True, Ht.
  - pose proof (template_in_range _ _ Ht). lia.
  - apply has_unchanged. intros j Hj. by rewrite template_get_set, decide_False by congruence.
Qed.

(** Only the number of references of a template changes. *)
Lemma set_refs_ok id t n : fwd_odid_template_get o id = Some t → 0 ≤ R id + n →
  odid_ok (bump R id n)
    (set_template o id (set_ref_cnt t (R id + n))
       (to_remove o - (if unreferenced t then 1 else 0) + (if decide (R id + n = 0) then 1 else 0))).
Proof.
  intros Ht Hn. pose proof (oo_template _ _ Ho id t Ht) as Hok.
  constructor; cbn [templates_normal templates_options to_remove set_template].
  - intros j u. rewrite template_get_set. unfold bump. destruct (decide (id = j)) as [<-|Hj].
    + intros [= <-]. destruct Hok. rewrite decide_True by done. by constructor.
    + intros Hu. rewrite decide_False by congruence. by apply (oo_template _ _ Ho).
  - intros j Hj0 Hj. rewrite template_get_set. unfold bump in Hj. destruct (decide (id = j)) as [<-|Hne]; [done|].
    rewrite decide_False in Hj by congruence. by apply (oo_referenced _ _ Ho).
  - intros j. unfold bump. pose proof (oo_refs _ _ Ho j). case_decide; subst; lia.
  - rewrite (count_set _ id t) by done.
    rewrite is_type_set_ref_cnt, (oo_normal _ _ Ho). lia.
  - rewrite (count_set _ id t) by done.
    rewrite is_type_set_ref_cnt, (oo_options _ _ Ho). lia.
  - rewrite (count_set _ id t) by done. rewrite (oo_remove _ _ Ho).
    replace (unreferenced (set_ref_cnt t (R id + n))) with (bool_decide (R id + n = 0)) by done.
    case_bool_decide; case_decide; done || lia.
  - intros i j u v. rewrite !template_get_set.
    destruct (decide (id = i)) as [<-|], (decide (id = j)) as [<-|]; [done|..].
    + intros [= <-] Hv Hd. by apply (oo_distinct _ _ Ho _ _ _ _ Ht Hv).
    + intros Hu [= <-] Hd. by apply (oo_distinct _ _ Ho _ _ _ _ Hu Ht).
    + apply (oo_distinct _ _ Ho).
Qed.
End maintainer.

(** The templates and their definitions are the same. *)
Definition same_defs (o o' : fwd_odid) : Prop :=
  odid o' = odid o ∧
  ∀ j, definition_of <$> fwd_odid_template_get o' j = definition_of <$> fwd_odid_template_get o j.

Lemma set_refs_same_defs o id t n r : fwd_odid_template_get o id = Some t →
  same_defs o (set_template o id (set_ref_cnt t n) r).
Proof.
  intros Ht. split; [done|]. intros j. rewrite template_get_set. case_decide; [|done].
  subst. by rewrite Ht.
Qed.

Section references.
Context (R : Z → Z) (o : fwd_odid) (Ho : odid_ok R o).

Lemma to_remove_positive id t : fwd_odid_template_get o id = Some t → ref_cnt t = 0 → 1 ≤ to_remove o.
Proof.
  intros Ht Hn. rewrite (oo_remove _ _ Ho). apply (count_positive _ id).
  - pose proof (template_in_range _ _ Ho _ _ Ht). lia.
  - unfold has. rewrite Ht. by apply bool_decide_true.
Qed.

Lemma to_remove_range : 0 ≤ to_remove o ≤ 65536.
Proof. rewrite (oo_remove _ _ Ho). apply count_range. Qed.

Lemma increment_spec id t : fwd_odid_template_get o id = Some t → R id + 1 < 4294967296 →
  ∃ o', fwd_odid_template_increment o id = (o', 0) ∧ odid_ok (bump R id 1) o' ∧ same_defs o o'.
Proof.
  intros Ht Hb. pose proof (oo_template _ _ Ho _ _ Ht) as Hok. pose proof (oo_refs _ _ Ho id) as H0.
  unfold fwd_odid_template_increment. rewrite Ht, (to_refs _ _ _ Hok), u32_small by lia.
  eexists. split; [done|]. split; [|by apply set_refs_same_defs].
  pose proof (set_refs_ok R o Ho id t 1 Ht ltac:(lia)) as H.
  rewrite (decide_False (P := R id + 1 = 0)) in H by lia.
  unfold unreferenced in H. rewrite (to_refs _ _ _ Hok) in H.
  destruct (decide (R id = 0)) as [E|E].
  - rewrite u32_small; [|pose proof (to_remove_positive id t Ht ltac:(by rewrite (to_refs _ _ _ Hok)));
                         pose proof to_remove_range; lia].
    rewrite bool_decide_true in H by done. by rewrite Z.add_0_r in H.
  - rewrite bool_decide_false in H by done. by rewrite Z.add_0_r, Z.sub_0_r in H.
Qed.

Lemma decrement_spec id : id ≠ 0 → 0 < R id < 4294967296 →
  ∃ o', fwd_odid_template_decrement o id = (o', 0) ∧ odid_ok (bump R id (-1)) o' ∧ same_defs o o'.
Proof.
  intros Hid Hb. destruct (oo_referenced _ _ Ho id Hid ltac:(lia)) as [t Ht].
  pose proof (oo_template _ _ Ho _ _ Ht) as Hok.
  unfold fwd_odid_template_decrement. rewrite Ht, (to_refs _ _ _ Hok), decide_False by lia.
  rewrite (u32_small (R id - 1)) by lia.
  eexists. split; [done|]. split; [|by apply set_refs_same_defs].
  pose proof (set_refs_ok R o Ho id t (-1) Ht ltac:(lia)) as H.
  unfold unreferenced in H. rewrite (to_refs _ _ _ Hok), bool_decide_false, Z.sub_0_r in H by lia.
  change (R id + -1) with (R id - 1) in H.
  destruct (decide (R id - 1 = 0)) as [E|E].
  - rewrite u32_small by (pose proof to_remove_range; lia). done.
  - by rewrite Z.add_0_r in H.
Qed.
End references.

(** ** Records of new templates *)

(** [rec] is the packet from the record on, [length] octets of it are the
    record. *)
Record record_ok (rec : bytes) (length type private_id : Z) : Prop := {
  ro_bytes : wf_bytes rec;
  ro_length : 4 ≤ length ≤ blen rec;
  ro_size : length < 18446744073709551616;
  ro_type : type = TM_TEMPLATE ∨ type = TM_OPTIONS_TEMPLATE;
  ro_id : rd16 rec 0 = Ok private_id;
  ro_range : IPFIX_MIN_RECORD_FLOWSET_ID ≤ private_id < 65536;
}.

(** The definition in a record. *)
Definition record_definition (rec : bytes) (length type : Z) : Z * bytes :=
  (type, drop 2 (take (Z.to_nat length) rec)).

Lemma wr16_drop m v m' : wr16 m 0 v = Ok m' → drop 2 m' = drop 2 m.
Proof.
  unfold wr16, wr8. intros H. inv_res.
  repeat match goal with H : (if decide ?P then _ else _) = Ok _ |- _ =>
    destruct (decide P); [injection H as <-|discriminate H] end.
  by destruct m as [|? [|? ?]].
Qed.

Lemma rdn_Ok m p n : 0 ≤ p → 0 ≤ n → p + n ≤ blen m →
  rdn m p n = Ok (take (Z.to_nat n) (drop (Z.to_nat p) m)).
Proof. intros. unfold rdn. by rewrite decide_True by lia. Qed.

Lemma blen_take n m : 0 ≤ n ≤ blen m → blen (take (Z.to_nat n) m) = n.
Proof. unfold blen. intros ?. rewrite length_take. lia. Qed.

Lemma sparse_get_at {A} (s : sparse A) i j : 0 ≤ j < GROUP_SIZE →
  sparse_get s (i * GROUP_SIZE + j) = (group ← s !! i; group !! j).
Proof.
  unfold sparse_get, GROUP_SIZE. intros Hj.
  replace ((i * 256 + j) / 256) with i by (Z.to_euclidean_division_equations; lia).
  by replace ((i * 256 + j) mod 256) with j by (Z.to_euclidean_division_equations; lia).
Qed.

Section record.
Context (rec : bytes) (length type private_id : Z) (Hr : record_ok rec length type private_id).

Lemma record_body : rdn rec 2 (u64 (length - 2)) = Ok (drop 2 (take (Z.to_nat length) rec)).
Proof.
  pose proof (ro_length _ _ _ _ Hr). pose proof (ro_size _ _ _ _ Hr).
  unfold u64. rewrite Z.mod_small, rdn_Ok by lia. f_equal.
  rewrite take_drop_commute. do 2 f_equal. lia.
Qed.

Lemma template_body id n t : template_ok id n t →
  rdn (tmplt_rec t) 2 (u64 (tmplt_length t - 2)) = Ok (drop 2 (tmplt_rec t)).
Proof.
  intros H. pose proof (to_length _ _ _ H). pose proof (to_blen _ _ _ H) as Hb.
  unfold u64. rewrite Z.mod_small, rdn_Ok by lia. f_equal. apply take_ge.
  rewrite length_drop. unfold blen in Hb. lia.
Qed.

Lemma fwd_tmplt_cmp_spec id n t : template_ok id n t →
  ∃ c, fwd_tmplt_cmp rec length type t = Ok c ∧
       (c = 0 ↔ definition_of t = record_definition rec length type).
Proof.
  intros Ht. unfold fwd_tmplt_cmp, definition_of, record_definition.
  destruct (decide (tmplt_type t = type)) as [E|E].
  2: { rewrite decide_True by done. exists 1. split; [done|]. split; [done|]. by intros [= ? ?]. }
  rewrite decide_False by (by intros H).
  destruct (decide (tmplt_length t = length)) as [El|El].
  - rewrite decide_False by (by intros H). cbv zeta.
    rewrite record_body, res_bind_ret, <-El, (template_body _ _ _ Ht), res_bind_ret.
    case_decide as Hd; (eexists; split; [done|]); split; [|done|done|].
    + intros _. by rewrite E, Hd.
    + intros [= ? Hd']. by rewrite Hd' in Hd.
  - rewrite decide_True by done. exists 1. split; [done|]. split; [done|].
    intros [= _ Hd]. apply (f_equal List.length) in Hd. rewrite !length_drop in Hd.
    pose proof (blen_take length rec ltac:(pose proof (ro_length _ _ _ _ Hr); lia)) as Hb.
    pose proof (to_length _ _ _ Ht). pose proof (to_blen _ _ _ Ht). pose proof (ro_length _ _ _ _ Hr).
    unfold blen in *. lia.
Qed.

Lemma fwd_tmplt_create_spec new_id : IPFIX_MIN_RECORD_FLOWSET_ID ≤ new_id < 65536 →
  ∃ t, fwd_tmplt_create rec length type new_id = Ok t ∧ template_ok new_id 0 t ∧
       definition_of t = record_definition rec length type.
Proof.
  intros Hn. destruct Hr as [Hwf Hl Hs Hty Hid Hrange].
  unfold fwd_tmplt_create. rewrite rdn_Ok by lia. rewrite res_bind_ret, drop_0.
  pose proof (blen_take length rec ltac:(lia)) as Hb.
  destruct (wr16_in_bounds (take (Z.to_nat length) rec) 0 new_id) as [m Hm]; [lia..|].
  rewrite Hm, res_bind_ret. eexists. split; [done|]. split.
  - constructor; cbn; try done; try lia.
    + by rewrite (wr16_blen _ _ _ _ Hm).
    + eapply rd16_wr16; [|done]. unfold is_u16, IPFIX_MIN_RECORD_FLOWSET_ID in *. lia.
  - unfold definition_of, record_definition. cbn. by rewrite (wr16_drop _ _ _ Hm).
Qed.

Context (R : Z → Z) (o : fwd_odid) (Ho : odid_ok R o).

(** The search in one group. *)
Lemma find_in_group_spec i group : tmplts o !! i = Some group →
  ∃ r, find_in_group group i rec length type = Ok r ∧
    match r with
    | inl _ => ∀ j t, 0 ≤ j < GROUP_SIZE → group !! j = Some t →
                 definition_of t ≠ record_definition rec length type
    | inr id => ∃ t, fwd_odid_template_get o id = Some t ∧
                  definition_of t = record_definition rec length type
    end.
Proof.
  intros Hg. unfold find_in_group.
  eapply (for_each_total _ (λ done _, ∀ j t, j ∈ done → group !! j = Some t →
                              definition_of t ≠ record_definition rec length type)).
  - intros l j r [] E IH. destruct (group !! j) as [t|] eqn:Hj.
    + assert (fwd_odid_template_get o (i * GROUP_SIZE + j) = Some t) as Ht.
      { unfold fwd_odid_template_get. rewrite sparse_get_at, Hg; [done|].
        assert (j ∈ range 0 256) as Hin by (rewrite E; apply elem_of_app; right; left).
        apply elem_of_range in Hin. unfold GROUP_SIZE. lia. }
      destruct (fwd_tmplt_cmp_spec _ _ _ (oo_template _ _ Ho _ _ Ht)) as (c & -> & Hc).
      rewrite res_bind_ret. case_decide as H0; (eexists; split; [done|]); cbn.
      * exists t. split; [done|]. by apply Hc.
      * intros k u [?| ->%list_elem_of_singleton]%elem_of_app Hu; [by eapply IH|].
        simplify_eq. by rewrite <-Hc.
    + eexists. split; [done|]. cbn. intros k u [?| ->%list_elem_of_singleton]%elem_of_app Hu; [by eapply IH|].
      simplify_eq.
  - intros [] H j t Hj. apply H. apply elem_of_range. unfold GROUP_SIZE in Hj. lia.
  - by intros j t ?%elem_of_nil.
Qed.

(** The search returns 0 exactly when no template has the definition. *)
Lemma fwd_odid_template_find_spec :
  ∃ id, fwd_odid_template_find o rec length type = Ok id ∧
    ((id = 0 ∧ ∀ j t, fwd_odid_template_get o j = Some t →
                 definition_of t ≠ record_definition rec length type) ∨
     (0 < id ∧ ∃ t, fwd_odid_template_get o id = Some t ∧
                 definition_of t = record_definition rec length type)).
Proof.
  unfold fwd_odid_template_find.
  edestruct (for_each_total
    (λ i _, match tmplts o !! i with
            | None => Ok (inl ())
            | Some group => find_in_group group i rec length type
            end)
    (λ done _, ∀ i j group t, i ∈ done → tmplts o !! i = Some group → 0 ≤ j < GROUP_SIZE →
       group !! j = Some t → definition_of t ≠ record_definition rec length type)
    (λ r, match r with
          | inl _ => ∀ j t, fwd_odid_template_get o j = Some t →
                       definition_of t ≠ record_definition rec length type
          | inr id => ∃ t, fwd_odid_template_get o id = Some t ∧
                        definition_of t = record_definition rec length type
          end) (range 0 256)) as (r & -> & Hq).
  - intros l i r [] E IH. destruct (tmplts o !! i) as [group|] eqn:Hg.
    + destruct (find_in_group_spec i group Hg) as ([[]|id] & -> & Hf);
        (eexists; split; [done|]); [|done].
      intros k j g t [?| ->%list_elem_of_singleton]%elem_of_app Hk; [by eapply IH|].
      simplify_eq. apply Hf.
    + eexists. split; [done|]. intros k j g t [?| ->%list_elem_of_singleton]%elem_of_app Hk; [by eapply IH|].
      simplify_eq.
  - intros [] H j t Ht. pose proof (template_in_range _ _ Ho _ _ Ht) as Hj.
    unfold fwd_odid_template_get, sparse_get in Ht.
    destruct (tmplts o !! (j / GROUP_SIZE)) as [g|] eqn:Hg; [|done]. cbn in Ht.
    apply (H (j / GROUP_SIZE) (j mod GROUP_SIZE) g t); [|done| |done].
    + apply elem_of_range. unfold GROUP_SIZE. Z.to_euclidean_division_equations; lia.
    + unfold GROUP_SIZE. Z.to_euclidean_division_equations; lia.
  - by intros i j g t ?%elem_of_nil.
  - rewrite res_bind_ret. destruct r as [_|id]; (eexists; split; [done|]); [by left|right].
    destruct Hq as (t & Ht & Hd). split; [|by exists t].
    pose proof (template_in_range _ _ Ho _ _ Ht). lia.
Qed.
End record.

(** ** Adding and removing shared templates *)

Lemma elem_of_template_ids id : id ∈ template_ids ↔ IPFIX_MIN_RECORD_FLOWSET_ID ≤ id < 65536.
Proof. unfold template_ids, IPFIX_MIN_RECORD_FLOWSET_ID. rewrite elem_of_range. lia. Qed.

(** Every template identifier is in use. *)
Definition all_used (o : fwd_odid) : Prop :=
  ∀ id, IPFIX_MIN_RECORD_FLOWSET_ID ≤ id < 65536 → is_Some (fwd_odid_template_get o id).

Lemma unused_id_spec o hint : hint < 65536 →
  let id := fwd_odid_template_unused_id o hint in
  (id = 0 ∧ all_used o) ∨
  (IPFIX_MIN_RECORD_FLOWSET_ID ≤ id < 65536 ∧ fwd_odid_template_get o id = None).
Proof.
  intros Hh. unfold fwd_odid_template_unused_id. cbv zeta. case_decide as Hhint.
  - right. split; [lia|tauto].
  - destruct (list_find _ _) as [[k id]|] eqn:E.
    + right. apply list_find_Some in E as (Hk & Hn & _). split; [|done].
      apply elem_of_template_ids. by eapply list_elem_of_lookup_2.
    + left. split; [done|]. intros id Hid%elem_of_template_ids. apply list_find_None in E.
      rewrite Forall_forall in E. specialize (E id Hid). by destruct (fwd_odid_template_get o id).
Qed.

Section add_remove.
Context (R : Z → Z) (o : fwd_odid) (Ho : odid_ok R o).

Lemma unreferenced_id id : id ≠ 0 → fwd_odid_template_get o id = None → R id = 0.
Proof.
  intros Hid Hn. destruct (decide (R id = 0)) as [|H]; [done|].
  destruct (oo_referenced _ _ Ho id Hid H). congruence.
Qed.

(** A template is stored under an unused identifier. *)
Lemma insert_ok id t : fwd_odid_template_get o id = None → template_ok id 0 t →
  (∀ j u, fwd_odid_template_get o j = Some u → definition_of u ≠ definition_of t) →
  odid_ok R {| odid := odid o;
    templates_options := if decide (tmplt_type t = TM_TEMPLATE) then templates_options o
                         else u32 (templates_options o + 1);
    templates_normal := if decide (tmplt_type t = TM_TEMPLATE) then u32 (templates_normal o + 1)
                        else templates_normal o;
    to_remove := u32 (to_remove o + 1);
    tmplts := sparse_set (tmplts o) id t |}.
Proof.
  intros Hn Ht Hd. set (o' := {| odid := _ |}).
  assert (∀ j, fwd_odid_template_get o' j = if decide (id = j) then Some t else fwd_odid_template_get o j)
    as Hget by (intros j; apply sparse_get_set).
  assert (∀ f, count (has o' f) = count (has o f) + (if f t then 1 else 0)) as Hcount.
  { intros f. rewrite (count_change (has o f) _ id).
    - unfold has at 2 3. rewrite Hn, Hget, decide_True by done. lia.
    - pose proof (to_range _ _ _ Ht). unfold IPFIX_MIN_RECORD_FLOWSET_ID in *. lia.
    - apply has_unchanged. intros j Hj. by rewrite Hget, decide_False by congruence. }
  pose proof (unreferenced_id id ltac:(pose proof (to_range _ _ _ Ht); unfold IPFIX_MIN_RECORD_FLOWSET_ID in *; lia) Hn) as HR.
  assert (∀ f, u32 (count (has o f) + 1) = count (has o f) + 1) as H32
    by (intros f; pose proof (count_range (has o f)); apply u32_small; lia).
  constructor.
  - intros j u. rewrite Hget. case_decide as E; [|apply (oo_template _ _ Ho)].
    subst. intros [= <-]. by rewrite HR.
  - intros j ? ?. rewrite Hget. case_decide; [done|]. by apply (oo_referenced _ _ Ho).
  - apply (oo_refs _ _ Ho).
  - rewrite Hcount. cbn. unfold is_type at 2. rewrite (oo_normal _ _ Ho).
    case_decide; case_bool_decide; try done; rewrite ?H32; lia.
  - rewrite Hcount. cbn. unfold is_type at 2. rewrite (oo_options _ _ Ho).
    destruct (to_type _ _ _ Ht) as [E|E]; rewrite E.
    + rewrite decide_True, bool_decide_false by done. lia.
    + by rewrite decide_False, bool_decide_true, H32 by done.
  - rewrite Hcount. cbn. unfold unreferenced at 2. rewrite (oo_remove _ _ Ho), H32.
    by rewrite bool_decide_true by (by apply (to_refs _ _ _ Ht)).
  - intros i j u v. rewrite !Hget.
    destruct (decide (id = i)) as [<-|], (decide (id = j)) as [<-|]; [done|..].
    + intros [= <-] Hv E. by destruct (Hd _ _ Hv).
    + intros Hu [= <-] E. by destruct (Hd _ _ Hu).
    + apply (oo_distinct _ _ Ho).
Qed.

Lemma fwd_odid_template_insert_spec rec length type private_id :
  record_ok rec length type private_id →
  (∀ j u, fwd_odid_template_get o j = Some u →
     definition_of u ≠ record_definition rec length type) →
  ∃ o' id, fwd_odid_template_insert o rec length type = Ok (o', id) ∧
    ((id = 0 ∧ o' = o ∧ all_used o) ∨
     (id ≠ 0 ∧ odid_ok R o' ∧ odid o' = odid o ∧ fwd_odid_template_get o id = None ∧
      ∀ j, definition_of <$> fwd_odid_template_get o' j =
           if decide (id = j) then Some (record_definition rec length type)
           else definition_of <$> fwd_odid_template_get o j)).
Proof.
  intros Hr Hd. unfold fwd_odid_template_insert. rewrite (ro_id _ _ _ _ Hr), res_bind_ret. cbv zeta.
  destruct (unused_id_spec o private_id) as [[E Hall]|[Hid Hn]].
  - apply (ro_range _ _ _ _ Hr).
  - rewrite E, decide_True by done. exists o, 0. split; [done|]. by left.
  - set (id := fwd_odid_template_unused_id _ _) in *.
    assert (id ≠ 0) as Hnz by (unfold IPFIX_MIN_RECORD_FLOWSET_ID in *; lia).
    rewrite decide_False, decide_False by (done || destruct (ro_type _ _ _ _ Hr); tauto).
    destruct (fwd_tmplt_create_spec _ _ _ _ Hr id Hid) as (t & -> & Ht & Hdef).
    rewrite res_bind_ret. eexists _, id. split; [done|]. right. split; [done|].
    assert (tmplt_type t = type) as Hty by (unfold definition_of, record_definition in Hdef; congruence).
    split; [|split; [done|split; [done|]]].
    + rewrite <-Hty. apply insert_ok; [done..|]. by rewrite Hdef.
    + intros j. unfold fwd_odid_template_get. cbn [tmplts]. rewrite sparse_get_set.
      case_decide; [by rewrite <-Hdef|done].
Qed.

(** An unreferenced template is removed and no longer counted. *)
Lemma withdraw_ok id t : fwd_odid_template_get o id = Some t → ref_cnt t = 0 →
  let o1 := fwd_odid_template_remove o id in
  let o' := {| odid := odid o1; templates_options := templates_options o1;
               templates_normal := templates_normal o1; to_remove := u32 (to_remove o1 - 1);
               tmplts := tmplts o1 |} in
  odid_ok R o' ∧ odid o' = odid o ∧
  ∀ j, fwd_odid_template_get o' j = if decide (id = j) then None else fwd_odid_template_get o j.
Proof.
  intros Ht H0. unfold fwd_odid_template_remove. rewrite Ht.
  cbv zeta. cbn [odid templates_options templates_normal to_remove tmplts]. set (o' := {| odid := _ |}).
  pose proof (oo_template _ _ Ho _ _ Ht) as Hok.
  assert (∀ j, fwd_odid_template_get o' j = if decide (id = j) then None else fwd_odid_template_get o j)
    as Hget by (intros j; apply sparse_get_clear).
  assert (0 ≤ id < 65536) as Hid by (pose proof (template_in_range _ _ Ho _ _ Ht); lia).
  assert (∀ f, count (has o' f) = count (has o f) - (if f t then 1 else 0)) as Hcount.
  { intros f. rewrite (count_change (has o f) _ id Hid).
    - unfold has at 2 3. rewrite Ht, Hget, decide_True by done. lia.
    - apply has_unchanged. intros j Hj. by rewrite Hget, decide_False by congruence. }
  assert (∀ f, f t = true → u32 (count (has o f) - 1) = count (has o f) - 1) as H32.
  { intros f Hf. pose proof (count_range (has o f)). apply u32_small.
    pose proof (count_positive (has o f) id Hid ltac:(unfold has; by rewrite Ht)). lia. }
  split; [|done]. constructor.
  - intros j u. rewrite Hget. case_decide; [done|]. apply (oo_template _ _ Ho).
  - intros j Hj0 Hj. rewrite Hget. case_decide as E; [|by apply (oo_referenced _ _ Ho)].
    subst. by rewrite <-(to_refs _ _ _ Hok), H0 in Hj.
  - apply (oo_refs _ _ Ho).
  - rewrite Hcount. cbn [o' templates_normal]. rewrite (oo_normal _ _ Ho). case_decide as E.
    + by rewrite H32, (bool_decide_eq_true_2 _ E : is_type _ t = true) by (by apply bool_decide_true).
    + rewrite (bool_decide_eq_false_2 _ E : is_type _ t = false). lia.
  - rewrite Hcount. cbn [o' templates_options]. rewrite (oo_options _ _ Ho). case_decide as E.
    + by rewrite H32, (bool_decide_eq_true_2 _ E : is_type _ t = true) by (by apply bool_decide_true).
    + rewrite (bool_decide_eq_false_2 _ E : is_type _ t = false). lia.
  - rewrite Hcount. cbn [o' to_remove]. rewrite (oo_remove _ _ Ho).
    by rewrite H32, (bool_decide_eq_true_2 _ H0 : unreferenced t = true) by (by apply bool_decide_true).
  - intros i j u v. rewrite !Hget. repeat case_decide; try done. apply (oo_distinct _ _ Ho).
Qed.
End add_remove.

(** ** Consistency of the mapper *)

(** The number of private identifiers of [s] that are mapped to the shared
    [id] of the maintainer at [l]. *)
Definition refs_of (l : loc) (id : Z) (s : fwd_source) : Z :=
  if decide (maintainer s = l) then count (λ p, bool_decide (fwd_src_mapping_get s p = id)) else 0.

Fixpoint refs (arr : list fwd_source) (l : loc) (id : Z) : Z :=
  match arr with [] => 0 | s :: arr => refs_of l id s + refs arr l id end.

(** A source maps template identifiers only; while it maps any its maintainer
    is live and one of its own ODID. *)
Record source_ok (h : odid_heap) (s : fwd_source) : Prop := {
  so_range : ∀ p, fwd_src_mapping_get s p ≠ 0 → IPFIX_MIN_RECORD_FLOWSET_ID ≤ p < 65536;
  so_maintainer : match h !! maintainer s with
                  | Some (Some o) => odid o = src_odid s
                  | Some None => ∀ p, fwd_src_mapping_get s p = 0
                  | None => False
                  end;
}.

Definition array_ok (size max limit : Z) : Prop := size ≤ max ∧ 1 ≤ max ≤ limit.

Record mapper_wf (h : odid_heap) (mgr : tmapper) : Prop := {
  mw_live : ∀ l, l ∈ odid_arr mgr → ∃ o, h !! l = Some (Some o) ∧
              odid_ok (refs (src_arr mgr) l) o ∧ is_u32 (odid o);
  mw_owned : ∀ l o, h !! l = Some (Some o) → l ∈ odid_arr mgr;
  mw_nodup : NoDup (odid_arr mgr);
  mw_distinct : ∀ l l' o o', h !! l = Some (Some o) → h !! l' = Some (Some o') →
                  odid o = odid o' → l = l';
  mw_source : ∀ s, s ∈ src_arr mgr → source_ok h s;
  mw_src_nodup : NoDup (src_id <$> src_arr mgr);
  mw_odid_max : array_ok (Z.of_nat (length (odid_arr mgr))) (odid_arr_max mgr) 8589934592;
  mw_src_max : array_ok (Z.of_nat (length (src_arr mgr))) (src_arr_max mgr) 8589934592;
  mw_sources : Z.of_nat (length (src_arr mgr)) ≤ 65535;
}.

Lemma refs_of_nonneg l id s : 0 ≤ refs_of l id s ≤ 65536.
Proof. unfold refs_of. case_decide; [apply count_range|lia]. Qed.

Lemma refs_range arr l id : 0 ≤ refs arr l id ≤ 65536 * Z.of_nat (length arr).
Proof.
  induction arr as [|s arr IH]; [done|]. cbn [refs length].
  pose proof (refs_of_nonneg l id s). lia.
Qed.

Lemma refs_insert arr pos s s' l id : arr !! pos = Some s →
  refs (<[pos := s']> arr) l id = refs arr l id - refs_of l id s + refs_of l id s'.
Proof.
  revert pos. induction arr as [|x arr IH]; intros [|pos] H; try done.
  - injection H as ->. cbn. lia.
  - change (<[S pos := s']> (x :: arr)) with (x :: <[pos := s']> arr). cbn [refs].
    rewrite (IH _ H). lia.
Qed.

Lemma refs_app arr arr' l id : refs (arr ++ arr') l id = refs arr l id + refs arr' l id.
Proof. induction arr as [|s arr IH]; [done|]. cbn. lia. Qed.

Lemma refs_delete arr pos s l id : arr !! pos = Some s →
  refs (delete pos arr) l id = refs arr l id - refs_of l id s.
Proof.
  revert pos. induction arr as [|x arr IH]; intros [|pos] H; try done.
  - injection H as ->. cbn. lia.
  - change (delete (S pos) (x :: arr)) with (x :: delete pos arr). cbn [refs].
    rewrite (IH _ H). lia.
Qed.

Lemma refs_positive arr pos s p : arr !! pos = Some s → 0 ≤ p < 65536 →
  1 ≤ refs arr (maintainer s) (fwd_src_mapping_get s p).
Proof.
  intros Hs Hp. pose proof (refs_delete arr pos s (maintainer s) (fwd_src_mapping_get s p) Hs) as H.
  pose proof (refs_range (delete pos arr) (maintainer s) (fwd_src_mapping_get s p)).
  unfold refs_of in H. rewrite decide_True in H by done.
  pose proof (count_positive (λ q, bool_decide (fwd_src_mapping_get s q = fwd_src_mapping_get s p)) p Hp
    ltac:(by apply bool_decide_true)). lia.
Qed.

Lemma odid_ok_ext R R' o : (∀ id, id ≠ 0 → R' id = R id) → 0 ≤ R' 0 → odid_ok R o → odid_ok R' o.
Proof.
  intros HR H0 Ho. constructor; try apply Ho.
  - intros id t Ht. pose proof (template_in_range _ _ Ho _ _ Ht).
    rewrite HR by lia. by apply Ho.
  - intros id Hid. rewrite HR by done. by apply Ho.
  - intros id. destruct (decide (id = 0)) as [->|]; [done|]. rewrite HR by done. apply Ho.
Qed.

(** *** What the operations keep *)

(** The definition under [id] of the live maintainer at [l]. *)
Definition shared_def (h : odid_heap) (l : loc) (id : Z) : option (Z * bytes) :=
  match h !! l with
  | Some (Some o) => definition_of <$> fwd_odid_template_get o id
  | _ => None
  end.

(** Whether an address is in use, freed, or of which ODID. *)
Definition status (h : odid_heap) (l : loc) : option (option Z) := option_map (option_map odid) (h !! l).

Record keeps (h h' : odid_heap) : Prop := {
  keeps_status : ∀ l st, status h l = Some st → status h' l = Some st;
  keeps_def : ∀ l id d, shared_def h l id = Some d → shared_def h' l id = Some d;
}.

(** The same definitions everywhere. *)
Definition same_shared (h h' : odid_heap) : Prop := ∀ l id, shared_def h' l id = shared_def h l id.

Lemma keeps_same h h' : keeps h h' → keeps h' h → same_shared h h'.
Proof.
  intros [_ K] [_ K'] l id. destruct (shared_def h l id) as [d|] eqn:E; [by apply K|].
  destruct (shared_def h' l id) as [d|] eqn:E'; [|done]. apply K' in E'. congruence.
Qed.

#[export] Instance keeps_preorder : PreOrder keeps.
Proof.
  split.
  - by intros h.
  - intros h1 h2 h3 [H1 H1'] [H2 H2']. split; auto.
Qed.

(** The same maintainers with the same definitions: only counts of references differ. *)
Definition same_defs_heap (h h' : odid_heap) : Prop := keeps h h' ∧ keeps h' h.

#[export] Instance same_defs_heap_preorder : PreOrder same_defs_heap.
Proof.
  split; [by split|]. intros h1 h2 h3 [H1 H2] [H3 H4]. split; by etrans.
Qed.

Lemma same_defs_heap_shared h h' : same_defs_heap h h' → same_shared h h'.
Proof. intros [? ?]. by apply keeps_same. Qed.

Lemma keeps_insert h l o o' : h !! l = Some (Some o) → odid o' = odid o →
  (∀ j d, definition_of <$> fwd_odid_template_get o j = Some d →
          definition_of <$> fwd_odid_template_get o' j = Some d) →
  keeps h (<[l := Some o']> h).
Proof.
  intros Hl Hid Hd. split.
  - intros k st. unfold status. destruct (decide (l = k)) as [<-|].
    + rewrite lookup_insert_eq, Hl. cbn. by rewrite Hid.
    + by rewrite lookup_insert_ne.
  - intros k id d. unfold shared_def. destruct (decide (l = k)) as [<-|].
    + rewrite lookup_insert_eq, Hl. apply Hd.
    + by rewrite lookup_insert_ne.
Qed.

Lemma status_live h l o : h !! l = Some (Some o) → status h l = Some (Some (odid o)).
Proof. unfold status. by intros ->. Qed.

Lemma live_status h l z : status h l = Some (Some z) → ∃ o, h !! l = Some (Some o) ∧ odid o = z.
Proof. unfold status. destruct (h !! l) as [[o|]|]; cbn; intros; simplify_eq. by eexists. Qed.

Lemma live_Ok h l o : h !! l = Some (Some o) → live h l = Ok o.
Proof. unfold live. by intros ->. Qed.

Lemma mapping_get_set s p v j :
  fwd_src_mapping_get (set_map s (sparse_set (map s) p v)) j =
  if decide (p = j) then v else fwd_src_mapping_get s j.
Proof. unfold fwd_src_mapping_get. cbn [map set_map]. rewrite sparse_get_set. by case_decide. Qed.

(** *** Operations on the source at position [pos] *)

Definition put (mgr : tmapper) (pos : nat) (s : fwd_source) : tmapper :=
  set_src_arr mgr (<[pos := s]> (src_arr mgr)) (src_arr_max mgr).

Lemma put_put mgr pos s s' : put (put mgr pos s) pos s' = put mgr pos s'.
Proof. unfold put, set_src_arr. cbn. by rewrite list_insert_insert_eq. Qed.

(** The same source with other mappings. *)
Definition same_source (s s' : fwd_source) : Prop :=
  src_id s' = src_id s ∧ src_odid s' = src_odid s ∧ maintainer s' = maintainer s.

Lemma mapper_update h mgr pos s s' o o' :
  mapper_wf h mgr → src_arr mgr !! pos = Some s → same_source s s' →
  h !! maintainer s = Some (Some o) → odid o' = odid o →
  odid_ok (refs (<[pos := s']> (src_arr mgr)) (maintainer s)) o' →
  (∀ p, fwd_src_mapping_get s' p ≠ 0 → IPFIX_MIN_RECORD_FLOWSET_ID ≤ p < 65536) →
  mapper_wf (<[maintainer s := Some o']> h) (put mgr pos s').
Proof.
  intros W Hs (Eid & Eod & Em) Ho Eo Hok Hrange. set (h' := <[_ := _]> h).
  assert (∀ l, h' !! l = if decide (maintainer s = l) then Some (Some o') else h !! l) as Hh'.
  { intros l. unfold h'. case_decide; [subst; apply lookup_insert_eq|by apply lookup_insert_ne]. }
  constructor; cbn [odid_arr odid_arr_max src_arr src_arr_max put set_src_arr];
    rewrite ?length_insert; try apply W.
  - intros l Hl. rewrite Hh'. case_decide as E.
    + subst l. exists o'. split; [done|]. split; [done|].
      destruct (mw_live _ _ W _ Hl) as (o1 & Ho1 & _ & H32). simplify_eq. by rewrite Eo.
    + destruct (mw_live _ _ W _ Hl) as (o1 & Ho1 & Hok1 & H32). exists o1. split; [done|]. split; [|done].
      eapply odid_ok_ext; [|apply refs_range|exact Hok1]. intros id _.
      rewrite (refs_insert _ _ _ _ _ _ Hs). unfold refs_of. rewrite Em, !decide_False by done. lia.
  - intros l o1. rewrite Hh'. case_decide as E; [subst l; intros _; by apply (mw_owned _ _ W _ o)|].
    apply (mw_owned _ _ W).
  - assert (∀ l o1, h' !! l = Some (Some o1) → ∃ o2, h !! l = Some (Some o2) ∧ odid o2 = odid o1) as H.
    { intros l o1. rewrite Hh'. case_decide; [|by exists o1]. intros [= <-]. subst. by exists o. }
    intros l l' o1 o2 (o3 & ? & <-)%H (o4 & ? & <-)%H. by apply (mw_distinct _ _ W).
  - intros x (k & Hk)%list_elem_of_lookup.
    assert (source_ok h' s') as Hs'.
    { constructor; [done|]. rewrite Em, Hh', decide_True, Eod, Eo by done.
      pose proof (so_maintainer _ _ (mw_source _ _ W s ltac:(by eapply list_elem_of_lookup_2))) as H.
      by rewrite Ho in H. }
    destruct (decide (k = pos)) as [->|Hne].
    + rewrite list_lookup_insert_eq in Hk by (by eapply lookup_lt_Some). by injection Hk as <-.
    + rewrite list_lookup_insert_ne in Hk by done.
      destruct (mw_source _ _ W x ltac:(by eapply list_elem_of_lookup_2)) as [Hr Hm].
      constructor; [done|]. rewrite Hh'. case_decide as E; [|done].
      rewrite <-E, Ho in Hm. by rewrite Eo.
  - rewrite list_fmap_insert, list_insert_id; [apply W|]. by rewrite list_lookup_fmap, Hs, Eid.
Qed.

Lemma refs_remap arr pos s s' p v j : arr !! pos = Some s → maintainer s' = maintainer s →
  0 ≤ p < 65536 → (∀ q, fwd_src_mapping_get s' q = if decide (p = q) then v else fwd_src_mapping_get s q) →
  refs (<[pos := s']> arr) (maintainer s) j =
  refs arr (maintainer s) j - (if decide (fwd_src_mapping_get s p = j) then 1 else 0)
                            + (if decide (v = j) then 1 else 0).
Proof.
  intros Hs Em Hp Hmap. rewrite (refs_insert _ _ _ _ _ _ Hs). unfold refs_of.
  rewrite Em, !decide_True by done.
  rewrite (count_change (λ q, bool_decide (fwd_src_mapping_get s q = j))
    (λ q, bool_decide (fwd_src_mapping_get s' q = j)) p Hp).
  - cbv beta. rewrite Hmap, decide_True by done.
    do 2 case_bool_decide; do 2 case_decide; done || lia.
  - intros q Hq. cbv beta. by rewrite Hmap, decide_False by congruence.
Qed.

Section source_ops.
Context (mgr : tmapper) (pos : nat) (Hpos : (pos < length (src_arr mgr))%nat).

(** The state while the source at [pos], now [s], is worked on. *)
Let ok (h : odid_heap) (s : fwd_source) : Prop := mapper_wf h (put mgr pos s).

Lemma put_lookup s : src_arr (put mgr pos s) !! pos = Some s.
Proof. by apply list_lookup_insert_eq. Qed.

Lemma ok_source h s : ok h s → source_ok h s.
Proof. intros W. apply (mw_source _ _ W). eapply list_elem_of_lookup_2, put_lookup. Qed.

Lemma ok_maintainer h s o : ok h s → h !! maintainer s = Some (Some o) →
  odid_ok (refs (src_arr (put mgr pos s)) (maintainer s)) o.
Proof.
  intros W Ho. destruct (mw_live _ _ W (maintainer s)) as (o' & Ho' & H & _); [by eapply mw_owned|].
  by simplify_eq.
Qed.

Lemma ok_mapped h s p : ok h s → fwd_src_mapping_get s p ≠ 0 →
  ∃ o t, h !! maintainer s = Some (Some o) ∧
         fwd_odid_template_get o (fwd_src_mapping_get s p) = Some t.
Proof.
  intros W Hp. destruct (ok_source _ _ W) as [Hr Hm].
  destruct (h !! maintainer s) as [[o|]|] eqn:Ho; [|by rewrite Hm in Hp|done].
  pose proof (oo_referenced _ _ (ok_maintainer _ _ _ W Ho) _ Hp) as Href.
  specialize (Hr _ Hp). unfold IPFIX_MIN_RECORD_FLOWSET_ID in Hr.
  pose proof (refs_positive _ pos s p (put_lookup s) ltac:(lia)).
  destruct Href as [t Ht]; [lia|]. by exists o, t.
Qed.

Lemma refs_bound h s l id : ok h s → refs (src_arr (put mgr pos s)) l id + 1 < 4294967296.
Proof.
  intros W. pose proof (refs_range (src_arr (put mgr pos s)) l id). pose proof (mw_sources _ _ W). lia.
Qed.

(** A change of one mapping with the matching change of the maintainer. *)
Lemma remap_ok h s o o' p v : ok h s → h !! maintainer s = Some (Some o) →
  (v ≠ 0 → IPFIX_MIN_RECORD_FLOWSET_ID ≤ p < 65536) → 0 ≤ p < 65536 → same_defs o o' →
  odid_ok (λ j, refs (src_arr (put mgr pos s)) (maintainer s) j
                - (if decide (fwd_src_mapping_get s p = j) then 1 else 0)
                + (if decide (v = j) then 1 else 0)) o' →
  ok (<[maintainer s := Some o']> h) (set_map s (sparse_set (map s) p v)) ∧
  keeps h (<[maintainer s := Some o']> h) ∧ keeps (<[maintainer s := Some o']> h) h.
Proof.
  intros W Ho Hv Hp [Eo Hd] Hok. split; [|split].
  - unfold ok. rewrite <-(put_put mgr pos s). eapply mapper_update; [exact W|apply put_lookup|done|exact Ho|done| |].
    + eapply odid_ok_ext; [|apply refs_range|exact Hok]. intros j _. apply refs_remap; [|done|done|].
      * apply put_lookup.
      * intros q. apply mapping_get_set.
    + intros q. rewrite mapping_get_set. destruct (decide (p = q)) as [<-|]; [done|].
      apply (ok_source _ _ W).
  - eapply keeps_insert; [done..|]. intros j d. by rewrite Hd.
  - rewrite <-(insert_id h (maintainer s) (Some o) Ho) at 2.
    rewrite <-(insert_insert_eq h (maintainer s) (Some o) (Some o')).
    eapply keeps_insert; [apply lookup_insert_eq|done|]. intros j d. by rewrite Hd.
Qed.

Lemma fwd_src_mapping_set_spec h s o p id : ok h s → h !! maintainer s = Some (Some o) →
  is_Some (fwd_odid_template_get o id) → IPFIX_MIN_RECORD_FLOWSET_ID ≤ p < 65536 →
  fwd_src_mapping_get s p = 0 →
  ∃ h' s', fwd_src_mapping_set h s p id = Ok (h', s') ∧ ok h' s' ∧ same_defs_heap h h' ∧ same_source s s' ∧
    ∀ j, fwd_src_mapping_get s' j = if decide (p = j) then id else fwd_src_mapping_get s j.
Proof.
  intros W Ho [t Ht] Hp H0. pose proof (ok_maintainer _ _ _ W Ho) as Hok.
  destruct (increment_spec _ _ Hok id t Ht) as (o' & E & Hok' & Hsame);
    [by eapply refs_bound|].
  unfold fwd_src_mapping_set. rewrite (live_Ok _ _ _ Ho), res_bind_ret, E.
  pose proof (template_in_range _ _ Hok _ _ Ht).
  destruct (remap_ok h s o o' p id W Ho) as (W' & Hk & Hk'); [done| |done| |].
  - unfold IPFIX_MIN_RECORD_FLOWSET_ID in Hp. lia.
  - eapply odid_ok_ext; [| |exact Hok'].
    + intros j Hj. cbv beta. unfold bump. rewrite H0.
      destruct (decide (0 = j)); [lia|]. destruct (decide (id = j)), (decide (j = id)); subst; done || lia.
    + cbv beta. rewrite H0, decide_True, decide_False by (done || lia).
      pose proof (refs_positive _ pos s p (put_lookup s)) as Hp1. rewrite H0 in Hp1.
      unfold IPFIX_MIN_RECORD_FLOWSET_ID in Hp. specialize (Hp1 ltac:(lia)). lia.
  - eexists _, _. split; [done|]. split; [exact W'|]. split; [by split|]. split; [done|].
    intros j. apply mapping_get_set.
Qed.

Lemma fwd_src_mapping_remove_spec h s p : ok h s →
  ∃ h' s', fwd_src_mapping_remove h s p = Ok (h', s') ∧ ok h' s' ∧ same_defs_heap h h' ∧
    same_source s s' ∧
    ∀ j, fwd_src_mapping_get s' j = if decide (p = j) then 0 else fwd_src_mapping_get s j.
Proof.
  intros W. unfold fwd_src_mapping_remove. cbv zeta. case_decide as H0.
  - exists h, s. do 4 (split; [done|]).
    intros j. case_decide; congruence.
  - destruct (ok_mapped _ _ _ W H0) as (o & t & Ho & Ht). pose proof (ok_maintainer _ _ _ W Ho) as Hok.
    pose proof (so_range _ _ (ok_source _ _ W) p H0) as Hp. unfold IPFIX_MIN_RECORD_FLOWSET_ID in Hp.
    pose proof (refs_positive _ pos s p (put_lookup s) ltac:(lia)) as H1.
    destruct (decrement_spec _ _ Hok (fwd_src_mapping_get s p) H0) as (o' & E & Hok' & Hsame).
    { pose proof (refs_bound _ s (maintainer s) (fwd_src_mapping_get s p) W). lia. }
    rewrite (live_Ok _ _ _ Ho), res_bind_ret, E.
    destruct (remap_ok h s o o' p 0 W Ho) as (W' & Hk & Hk'); [done|lia|done| |].
    + eapply odid_ok_ext; [| |exact Hok'].
      * intros j Hj. cbv beta. unfold bump. rewrite (decide_False (P := 0 = j)) by congruence.
        destruct (decide (fwd_src_mapping_get s p = j)), (decide (j = fwd_src_mapping_get s p)); congruence || lia.
      * cbv beta. rewrite decide_False, decide_True by done.
        pose proof (refs_range (src_arr (put mgr pos s)) (maintainer s) 0). lia.
    + eexists _, _. split; [done|]. split; [exact W'|]. split; [by split|]. split; [done|].
      intros j. apply mapping_get_set.
Qed.

Lemma fwd_src_withdraw_id_spec h s p : ok h s →
  ∃ h' s', fwd_src_withdraw_id h s p = Ok (h', s') ∧ ok h' s' ∧ same_defs_heap h h' ∧ same_source s s' ∧
    ∀ j, fwd_src_mapping_get s' j = if decide (p = j) then 0 else fwd_src_mapping_get s j.
Proof.
  intros W. unfold fwd_src_withdraw_id. cbv zeta. case_decide as H0.
  - exists h, s. do 4 (split; [done|]). intros j. case_decide; congruence.
  - destruct (ok_mapped _ _ _ W H0) as (o & t & Ho & Ht).
    rewrite (live_Ok _ _ _ Ho), res_bind_ret, Ht.
    destruct (fwd_src_mapping_remove_spec h s p W) as (h' & s' & -> & ? & ? & H). by exists h', s'.
Qed.

(** What a withdrawal of all templates of a kind leaves of a mapping. *)
Definition without_type (h : odid_heap) (s : fwd_source) (type p : Z) : Z :=
  match shared_def h (maintainer s) (fwd_src_mapping_get s p) with
  | Some d => if decide (d.1 = type) then 0 else fwd_src_mapping_get s p
  | None => fwd_src_mapping_get s p
  end.

Lemma without_type_zero h s type p : fwd_src_mapping_get s p = 0 → without_type h s type p = 0.
Proof. intros E. unfold without_type. rewrite E. destruct (shared_def _ _ _); [|done]. by case_decide. Qed.

Lemma ok_mapped_def h s p : ok h s → fwd_src_mapping_get s p ≠ 0 →
  is_Some (shared_def h (maintainer s) (fwd_src_mapping_get s p)).
Proof.
  intros W Hp. destruct (ok_mapped _ _ _ W Hp) as (o & t & Ho & Ht).
  unfold shared_def. by rewrite Ho, Ht.
Qed.

(** One identifier of the loop. *)
Lemma fwd_src_withdraw_type_step_spec h s type p : ok h s →
  ∃ h' s', fwd_src_withdraw_type_step type p (h, s) = Ok (inl (h', s')) ∧ ok h' s' ∧ same_defs_heap h h' ∧
    same_source s s' ∧
    ∀ j, fwd_src_mapping_get s' j = if decide (p = j) then without_type h s type p
                                    else fwd_src_mapping_get s j.
Proof.
  intros W. unfold fwd_src_withdraw_type_step. cbv zeta. case_decide as H0.
  - exists h, s. do 4 (split; [done|]). intros j. case_decide; [subst|done].
    by rewrite without_type_zero.
  - destruct (ok_mapped _ _ _ W H0) as (o & t & Ho & Ht).
    rewrite (live_Ok _ _ _ Ho), res_bind_ret, Ht.
    assert (without_type h s type p = if decide (tmplt_type t = type) then 0 else fwd_src_mapping_get s p)
      as -> by (unfold without_type, shared_def; by rewrite Ho, Ht).
    destruct (decide (tmplt_type t = type)) as [E|E].
    + rewrite decide_False by (by intros H). destruct (fwd_src_mapping_remove_spec h s p W)
        as (h' & s' & -> & ? & ? & H). by exists h', s'.
    + rewrite decide_True by done. exists h, s. do 4 (split; [done|]).
      intros j. case_decide; congruence.
Qed.

Lemma same_source_trans s1 s2 s3 : same_source s1 s2 → same_source s2 s3 → same_source s1 s3.
Proof. intros (?&?&?) (?&?&?). by split_and!; etrans. Qed.

Lemma fwd_src_withdraw_type_spec h s type : ok h s → type = TM_TEMPLATE ∨ type = TM_OPTIONS_TEMPLATE →
  ∃ h' s', fwd_src_withdraw_type h s type = Ok (h', s') ∧ ok h' s' ∧ same_defs_heap h h' ∧ same_source s s' ∧
    ∀ j, fwd_src_mapping_get s' j = without_type h s type j.
Proof.
  intros W Hty. unfold fwd_src_withdraw_type. rewrite decide_False by tauto.
  edestruct (for_each_total (fwd_src_withdraw_type_step type)
    (λ l '(h', s'), ok h' s' ∧ same_defs_heap h h' ∧ same_source s s' ∧
       ∀ j, fwd_src_mapping_get s' j = if decide (j ∈ l) then without_type h s type j
                                       else fwd_src_mapping_get s j)
    (λ r, ∃ h' s', r = inl (h', s') ∧ ok h' s' ∧ same_defs_heap h h' ∧ same_source s s' ∧
       ∀ j, fwd_src_mapping_get s' j = without_type h s type j) template_ids)
    as (r & -> & h' & s' & -> & H); [| | |by exists h', s'].
  - intros l p r [h1 s1] E (W1 & Hk & Hs & Hmap).
    destruct (fwd_src_withdraw_type_step_spec h1 s1 type p W1) as (h2 & s2 & -> & W2 & Hk2 & Hs2 & Hmap2).
    eexists. split; [done|]. split; [done|]. split; [by etrans|].
    split; [by eapply same_source_trans|]. intros j. rewrite Hmap2.
    assert (p ∉ l) as Hp.
    { pose proof (NoDup_range 256 (Z.to_nat 65280)) as Hnd.
      change (range 256 _) with template_ids in Hnd. rewrite E in Hnd.
      apply NoDup_app in Hnd as (_ & Hnd & _). intros Hin. by apply (Hnd _ Hin); left. }
    destruct (decide (p = j)) as [<-|Hne].
    + rewrite decide_True by set_solver. pose proof (Hmap p) as Ep. rewrite decide_False in Ep by done.
      destruct (decide (fwd_src_mapping_get s p = 0)) as [Z0|NZ].
      * rewrite !without_type_zero; congruence.
      * unfold without_type. destruct (ok_mapped_def h s p W NZ) as [d Hd].
        destruct Hs as (_ & _ & Em). rewrite Em, Ep, Hd.
        by rewrite (keeps_def _ _ (proj1 Hk) _ _ _ Hd).
    + rewrite Hmap. destruct (decide (j ∈ l)).
      * by rewrite decide_True by set_solver.
      * by rewrite decide_False by set_solver.
  - intros [h1 s1] (W1 & Hk & Hs & Hmap). exists h1, s1. do 4 (split; [done|]). intros j. rewrite Hmap.
    case_decide as Hj; [done|]. rewrite elem_of_template_ids in Hj.
    assert (fwd_src_mapping_get s j = 0) as E.
    { destruct (decide (fwd_src_mapping_get s j = 0)) as [|H0]; [done|].
      by destruct Hj; apply (so_range _ _ (ok_source _ _ W)). }
    by rewrite E, without_type_zero.
  - split; [done|]. split; [done|]. split; [done|]. intros j. by rewrite decide_False by apply not_elem_of_nil.
Qed.

Context (rec : bytes) (length type private_id : Z) (Hr : record_ok rec length type private_id).

(** The three outcomes for a new template of the source: it is stored under an
    unused identifier, an equal one is shared, or no identifier is left. *)
Definition added (h h' : odid_heap) (l : loc) (sid new_id : Z) (a : TMAPPER_ACTION) (n : Z) : Prop :=
  (a = TMAPPER_ACT_PASS ∧ sid ≠ 0 ∧ n = sid ∧ shared_def h l sid = None ∧
   (∀ id, shared_def h l id ≠ Some (record_definition rec length type)) ∧
   (∀ k j, shared_def h' k j = if decide (k = l ∧ j = sid) then Some (record_definition rec length type)
                               else shared_def h k j)) ∨
  (a = TMAPPER_ACT_DROP ∧ sid ≠ 0 ∧ n = new_id ∧
   shared_def h l sid = Some (record_definition rec length type) ∧ same_shared h h') ∨
  (a = TMAPPER_ACT_DROP ∧ sid = 0 ∧ n = new_id ∧ same_shared h h' ∧
   (∀ id, shared_def h l id ≠ Some (record_definition rec length type)) ∧
   ∀ id, IPFIX_MIN_RECORD_FLOWSET_ID ≤ id < 65536 → is_Some (shared_def h l id)).

Lemma shared_def_Some h l o id d : h !! l = Some (Some o) →
  shared_def h l id = Some d ↔ ∃ t, fwd_odid_template_get o id = Some t ∧ definition_of t = d.
Proof.
  intros Ho. unfold shared_def. rewrite Ho. destruct (fwd_odid_template_get o id); naive_solver.
Qed.

(** A stored template leaves the rest of the heap and all mappings alone. *)
Lemma store_template_ok h s o o' : ok h s → h !! maintainer s = Some (Some o) → odid o' = odid o →
  odid_ok (refs (src_arr (put mgr pos s)) (maintainer s)) o' →
  (∀ j d, definition_of <$> fwd_odid_template_get o j = Some d →
          definition_of <$> fwd_odid_template_get o' j = Some d) →
  ok (<[maintainer s := Some o']> h) s ∧ keeps h (<[maintainer s := Some o']> h).
Proof.
  intros W Ho Eo Hok Hd. split; [|by eapply keeps_insert].
  unfold ok. rewrite <-(put_put mgr pos s s).
  eapply mapper_update; [exact W|apply put_lookup|done|exact Ho|done| |apply (ok_source _ _ W)].
  rewrite list_insert_id; [done|apply put_lookup].
Qed.

(** One definition more in one maintainer. *)
Lemma shared_def_stored h l o o' id d : h !! l = Some (Some o) →
  (∀ j, definition_of <$> fwd_odid_template_get o' j =
        if decide (id = j) then Some d else definition_of <$> fwd_odid_template_get o j) →
  ∀ k j, shared_def (<[l := Some o']> h) k j = if decide (k = l ∧ j = id) then Some d else shared_def h k j.
Proof.
  intros Ho Hget k j. unfold shared_def. destruct (decide (k = l)) as [->|Hk].
  - rewrite lookup_insert_eq, Ho, Hget. destruct (decide (id = j)) as [->|]; [by rewrite decide_True|].
    rewrite decide_False; [done|]. by intros [_ ->].
  - rewrite lookup_insert_ne by done. by rewrite decide_False by tauto.
Qed.

Lemma fwd_src_add_unmapped_spec h s o new_id : ok h s → h !! maintainer s = Some (Some o) →
  fwd_src_mapping_get s private_id = 0 →
  ∃ h' s' a n, fwd_src_add_unmapped h s rec length type private_id new_id = Ok (h', s', a, n) ∧
    ok h' s' ∧ keeps h h' ∧ same_source s s' ∧
    (∀ j, j ≠ private_id → fwd_src_mapping_get s' j = fwd_src_mapping_get s j) ∧
    added h h' (maintainer s) (fwd_src_mapping_get s' private_id) new_id a n.
Proof.
  intros W Ho H0. pose proof (ok_maintainer _ _ _ W Ho) as Hok. pose proof (ro_range _ _ _ _ Hr) as Hp.
  unfold fwd_src_add_unmapped. rewrite (live_Ok _ _ _ Ho), res_bind_ret.
  destruct (fwd_odid_template_find_spec _ _ _ _ Hr _ _ Hok) as (id & -> & [[-> Hnone]|[Hid (t & Ht & Hd)]]);
    rewrite res_bind_ret.
  - rewrite decide_False by lia.
    assert (∀ id, shared_def h (maintainer s) id ≠ Some (record_definition rec length type)) as Hno.
    { intros id (t & Ht & E)%(shared_def_Some _ _ _ _ _ Ho). by apply (Hnone _ _ Ht). }
    destruct (fwd_odid_template_insert_spec _ _ Hok _ _ _ _ Hr Hnone)
      as (o' & id & -> & [(-> & -> & Hall)|(Hid & Hok' & Eo & Hn & Hget)]); rewrite res_bind_ret.
    + rewrite decide_True, insert_id by done. exists h, s, TMAPPER_ACT_DROP, new_id.
      do 5 (split; [done|]). right. right. do 5 (split; [done|]).
      intros id Hid. destruct (Hall id Hid) as [t Ht]. exists (definition_of t).
      apply (shared_def_Some _ _ _ _ _ Ho). by exists t.
    + rewrite decide_False by done.
      assert (∀ d, definition_of <$> fwd_odid_template_get o id ≠ Some d) as Hnid by (by rewrite Hn).
      destruct (store_template_ok h s o o' W Ho Eo Hok') as [W1 K1].
      { intros j d Hj. rewrite Hget. case_decide; [subst; by destruct (Hnid d)|done]. }
      pose proof (shared_def_stored h _ o o' id _ Ho Hget) as Hdefs.
      specialize (Hget id). rewrite decide_True in Hget by done.
      destruct (fwd_src_mapping_set_spec _ s o' private_id id W1 (lookup_insert_eq _ _ _))
        as (h' & s' & -> & W' & K' & Hs & Hmap); [|done|done|].
      { destruct (fwd_odid_template_get o' id); [done|discriminate Hget]. }
      rewrite res_bind_ret. exists h', s', TMAPPER_ACT_PASS, id. do 2 (split; [done|]).
      split; [etrans; [exact K1|apply K']|]. split; [done|].
      split; [intros j Hj; by rewrite Hmap, decide_False by congruence|].
      rewrite Hmap, decide_True by done. left. do 3 (split; [done|]).
      split; [unfold shared_def; by rewrite Ho, Hn|]. split; [done|].
      intros k j. by rewrite (same_defs_heap_shared _ _ K'), Hdefs.
  - rewrite decide_True by lia.
    destruct (fwd_src_mapping_set_spec _ s o private_id id W Ho)
      as (h' & s' & -> & W' & K' & Hs & Hmap); [by eexists|done|done|].
    rewrite res_bind_ret. exists h', s', TMAPPER_ACT_DROP, new_id. do 2 (split; [done|]). split; [apply K'|].
    split; [done|]. split; [intros j Hj; by rewrite Hmap, decide_False by congruence|].
    rewrite Hmap, decide_True by done. right. left.
    assert (shared_def h (maintainer s) id = Some (record_definition rec length type)) as E
      by (apply (shared_def_Some _ _ _ _ _ Ho); by exists t).
    do 2 (split; [done || lia|]). do 2 (split; [done|]). by apply same_defs_heap_shared.
Qed.

Lemma added_same h h1 h' l sid new_id a n : same_shared h h1 →
  added h1 h' l sid new_id a n → added h h' l sid new_id a n.
Proof.
  intros E [(? & ? & ? & Hn & Hno & Hd)|[(? & ? & ? & Hd & Hs)|(? & ? & ? & Hs & Hno & Hall)] ].
  - left. do 3 (split; [done|]). rewrite <-E. split; [done|].
    split; [intros id; by rewrite <-E|]. intros k j. by rewrite Hd, E.
  - right. left. do 3 (split; [done|]). rewrite <-E. split; [done|]. intros k j. by rewrite Hs, E.
  - right. right. do 3 (split; [done|]). split; [intros k j; by rewrite Hs, E|].
    split; intros id; rewrite <-E; [done|by apply Hall].
Qed.

(** A record that the source has announced before under the same identifier
    is dropped; any other one takes the place of what was there. *)
Lemma fwd_src_add_tmplt_spec h s o new_id : ok h s → h !! maintainer s = Some (Some o) →
  ∃ h' s' a n, fwd_src_add_tmplt h s rec length type new_id = Ok (h', s', a, n) ∧
    ok h' s' ∧ keeps h h' ∧ same_source s s' ∧
    (∀ j, j ≠ private_id → fwd_src_mapping_get s' j = fwd_src_mapping_get s j) ∧
    added h h' (maintainer s) (fwd_src_mapping_get s' private_id) new_id a n.
Proof.
  intros W Ho. pose proof (ok_maintainer _ _ _ W Ho) as Hok.
  unfold fwd_src_add_tmplt. rewrite (ro_id _ _ _ _ Hr), res_bind_ret. cbv zeta.
  destruct (decide (fwd_src_mapping_get s private_id = 0)) as [H0|H0].
  { rewrite decide_False by lia. by apply (fwd_src_add_unmapped_spec _ _ o). }
  destruct (ok_mapped _ _ _ W H0) as (o1 & t & Ho1 & Ht). simplify_eq.
  pose proof (template_in_range _ _ Hok _ _ Ht). rewrite decide_True by lia.
  rewrite (live_Ok _ _ _ Ho), res_bind_ret, Ht.
  destruct (fwd_tmplt_cmp_spec _ _ _ _ Hr _ _ _ (oo_template _ _ Hok _ _ Ht)) as (c & -> & Hc).
  rewrite res_bind_ret. case_decide as E.
  - exists h, s, TMAPPER_ACT_DROP, new_id. do 5 (split; [done|]). right. left.
    assert (shared_def h (maintainer s) (fwd_src_mapping_get s private_id) =
            Some (record_definition rec length type)) as Hd.
    { apply (shared_def_Some _ _ _ _ _ Ho). exists t. split; [done|]. by apply Hc. }
    by do 4 (split; [done|]).
  - destruct (fwd_src_mapping_remove_spec h s private_id W) as (h1 & s1 & -> & W1 & [K1 K1'] & Hs1 & Hmap1).
    rewrite res_bind_ret. destruct Hs1 as (E1 & E2 & Em).
    assert (∃ o1, h1 !! maintainer s1 = Some (Some o1)) as [o1 Ho1].
    { destruct (live_status h1 (maintainer s) (odid o)) as (o1 & ? & _).
      - by apply (keeps_status _ _ K1), status_live.
      - exists o1. by rewrite Em. }
    destruct (fwd_src_add_unmapped_spec h1 s1 o1 new_id W1 Ho1) as (h' & s' & a & n & -> & W' & K' & Hs' & Hmap' & Ha).
    { by rewrite Hmap1, decide_True. }
    exists h', s', a, n. do 2 (split; [done|]). split; [by etrans|].
    split; [by eapply same_source_trans|].
    split; [intros j Hj; by rewrite Hmap', Hmap1, decide_False by congruence|].
    rewrite Em in Ha. by eapply added_same; [apply keeps_same|].
Qed.
End source_ops.

(** ** Maintainers and sources of the mapper *)

Lemma odid_position_spec h arr id : (∀ l, l ∈ arr → ∃ o, h !! l = Some (Some o)) →
  ∃ p, odid_position h arr id = Ok p ∧
    match p with
    | Some k => ∃ l o, arr !! k = Some l ∧ h !! l = Some (Some o) ∧ odid o = id
    | None => ∀ l o, l ∈ arr → h !! l = Some (Some o) → odid o ≠ id
    end.
Proof.
  induction arr as [|l arr IH]; intros Hlive; cbn [odid_position].
  { exists None. split; [done|]. by intros l o ?%elem_of_nil. }
  destruct (Hlive l) as [o Ho]; [by left|]. rewrite (live_Ok _ _ _ Ho), res_bind_ret.
  case_decide as E; [exists (Some O); split; [done|]; by exists l, o|].
  destruct IH as (p & -> & Hp); [intros; apply Hlive; by right|]. rewrite res_bind_ret.
  eexists. split; [done|]. destruct p as [k|]; [done|].
  intros l' o' [->|Hl]%elem_of_cons Ho'; [by simplify_eq|by eapply Hp].
Qed.

Lemma push_spec {A} (arr : list A) max x limit : array_ok (Z.of_nat (length arr)) max limit →
  2 * Z.of_nat (length arr) ≤ limit → limit < 18446744073709551616 →
  ∃ max', push arr max x = Ok (arr ++ [x], max') ∧ array_ok (Z.of_nat (length (arr ++ [x]))) max' limit.
Proof.
  intros [Hs Hm] Hl Hb. unfold push. cbv zeta. rewrite length_app. cbn [length].
  destruct (decide (Z.of_nat (length arr) = max)) as [E|E].
  - unfold u64. rewrite Z.mod_small by lia. rewrite decide_True by lia.
    eexists. split; [done|]. unfold array_ok. lia.
  - rewrite decide_True by lia. eexists. split; [done|]. unfold array_ok. lia.
Qed.

Lemma refs_zero arr l id : (∀ s, s ∈ arr → maintainer s ≠ l) → refs arr l id = 0.
Proof.
  induction arr as [|s arr IH]; intros H; [done|]. cbn [refs].
  rewrite IH by (intros; apply H; by right). unfold refs_of.
  rewrite decide_False by (apply H; by left). done.
Qed.

Lemma count_false f : (∀ k, 0 ≤ k < 65536 → f k = false) → count f = 0.
Proof.
  intros H. destruct (decide (count f = 0)) as [|Hc]; [done|].
  apply count_witness in Hc as (k & Hk & E). rewrite H in E; done.
Qed.

Lemma empty_odid_ok R id : (∀ j, j ≠ 0 → R j = 0) → 0 ≤ R 0 → odid_ok R (fwd_odid_create id).
Proof.
  intros HR H0. assert (∀ j, fwd_odid_template_get (fwd_odid_create id) j = None) as Hn by done.
  constructor; [done| | |symmetry; by apply count_false..|done].
  - intros j Hj Hne. by rewrite HR in Hne.
  - intros j. destruct (decide (j = 0)) as [->|Hj]; [done|by rewrite HR].
Qed.

Section mapper.
Context (h : odid_heap) (mgr : tmapper) (W : mapper_wf h mgr).

Lemma odid_arr_live l : l ∈ odid_arr mgr → ∃ o, h !! l = Some (Some o).
Proof. intros (o & ? & _)%(mw_live _ _ W). by exists o. Qed.

(** The identifiers are distinct 32-bit numbers. *)
Lemma odid_arr_bound : Z.of_nat (length (odid_arr mgr)) ≤ 4294967296.
Proof.
  pose (f l := match h !! l with Some (Some o) => odid o | _ => 0 end).
  assert (f <$> odid_arr mgr ⊆+ seqZ 0 4294967296) as Hsub.
  { apply NoDup_submseteq.
    - apply NoDup_fmap_2_strong; [|apply W].
      intros l l' (o & Ho & _)%(mw_live _ _ W) (o' & Ho' & _)%(mw_live _ _ W).
      unfold f. rewrite Ho, Ho'. by apply (mw_distinct _ _ W).
    - intros x (l & -> & (o & Ho & _ & H32)%(mw_live _ _ W))%list_elem_of_fmap.
      unfold f. rewrite Ho. apply elem_of_seqZ. unfold is_u32 in H32. lia. }
  apply submseteq_length in Hsub. rewrite length_fmap, length_seqZ in Hsub. lia.
Qed.

Lemma tmplts_odid_find_spec id :
  ∃ p, tmplts_odid_find h mgr id = Ok p ∧
    match p with
    | Some l => l ∈ odid_arr mgr ∧ ∃ o, h !! l = Some (Some o) ∧ odid o = id
    | None => ∀ l o, h !! l = Some (Some o) → odid o ≠ id
    end.
Proof.
  unfold tmplts_odid_find. destruct (odid_position_spec h (odid_arr mgr) id odid_arr_live) as (p & -> & Hp).
  rewrite res_bind_ret. eexists. split; [done|]. destruct p as [k|]; cbn.
  - destruct Hp as (l & o & -> & Ho & E). split; [by eapply mw_owned|by exists o].
  - intros l o Ho. apply (Hp l); [by eapply mw_owned|done].
Qed.

(** An address never used is no maintainer of a source. *)
Lemma fresh_maintainer s : s ∈ src_arr mgr → maintainer s ≠ fresh (dom h).
Proof.
  intros Hs E. pose proof (so_maintainer _ _ (mw_source _ _ W s Hs)) as Hm.
  rewrite E, (not_elem_of_dom_1 h (fresh (dom h)) (is_fresh _)) in Hm. done.
Qed.

Lemma keeps_alloc l id : h !! l = None →
  keeps h (<[l := Some (fwd_odid_create id)]> h) ∧ same_shared h (<[l := Some (fwd_odid_create id)]> h).
Proof.
  intros Hl. assert (same_shared h (<[l := Some (fwd_odid_create id)]> h)) as Hs.
  { intros k j. unfold shared_def. destruct (decide (l = k)) as [<-|].
    - by rewrite lookup_insert_eq, Hl.
    - by rewrite lookup_insert_ne. }
  split; [|done]. split; [|intros k j d; by rewrite Hs].
  intros k st. unfold status. destruct (decide (l = k)) as [<-|]; [by rewrite Hl|by rewrite lookup_insert_ne].
Qed.

Lemma tmplts_odid_add_spec id : is_u32 id → (∀ l o, h !! l = Some (Some o) → odid o ≠ id) →
  ∃ h' arr max l, tmplts_odid_add h mgr id = Ok (h', set_odid_arr mgr arr max, l) ∧
    mapper_wf h' (set_odid_arr mgr arr max) ∧ (keeps h h' ∧ same_shared h h') ∧ h' !! l = Some (Some (fwd_odid_create id)).
Proof.
  intros Hid Hnew. unfold tmplts_odid_add. cbv zeta. set (l := fresh (dom h)).
  assert (h !! l = None) as Hl by (apply not_elem_of_dom_1, is_fresh).
  destruct (push_spec (odid_arr mgr) (odid_arr_max mgr) l 8589934592) as (max & -> & Hmax);
    [apply W|pose proof odid_arr_bound; lia|done|].
  rewrite res_bind_ret. eexists _, _, _, l. split; [done|].
  assert (∀ k o, <[l:=Some (fwd_odid_create id)]> h !! k = Some (Some o) →
    (k = l ∧ o = fwd_odid_create id) ∨ (k ≠ l ∧ h !! k = Some (Some o))) as Hinv.
  { intros k o. destruct (decide (k = l)) as [->|Hk].
    - rewrite lookup_insert_eq. intros [= <-]. by left.
    - rewrite lookup_insert_ne by done. by right. }
  split; [|split; [by apply keeps_alloc|apply lookup_insert_eq]].
  constructor; cbn [odid_arr odid_arr_max src_arr src_arr_max set_odid_arr]; try apply W; try done.
  - intros k [Hk| ->%list_elem_of_singleton]%elem_of_app.
    + destruct (mw_live _ _ W k Hk) as (o & Ho & H). exists o. split; [|done].
      rewrite lookup_insert_ne; [done|]. intros <-. congruence.
    + eexists. split; [apply lookup_insert_eq|]. split; [|done]. apply empty_odid_ok.
      * intros j _. apply refs_zero, fresh_maintainer.
      * apply refs_range.
  - intros k o [[-> _]|[_ Hk]]%Hinv; [by set_solver|].
    apply elem_of_app. left. by eapply mw_owned.
  - apply NoDup_app. split; [apply W|]. split; [|apply NoDup_singleton].
    intros k Hk ->%list_elem_of_singleton. destruct (odid_arr_live l Hk) as [o Ho]. congruence.
  - intros k k' o o' [[-> ->]|[_ Hk]]%Hinv [[-> ->]|[_ Hk']]%Hinv E; cbn in E; [done|..].
    + by destruct (Hnew _ _ Hk').
    + by destruct (Hnew _ _ Hk).
    + by eapply mw_distinct.
  - intros s Hs. destruct (mw_source _ _ W s Hs) as [Hr Hm]. constructor; [done|].
    rewrite lookup_insert_ne; [done|]. symmetry. by apply fresh_maintainer.
Qed.

Lemma tmplts_odid_get_spec id : is_u32 id →
  ∃ h' arr max l o, tmplts_odid_get h mgr id = Ok (h', set_odid_arr mgr arr max, l) ∧
    mapper_wf h' (set_odid_arr mgr arr max) ∧ (keeps h h' ∧ same_shared h h') ∧ h' !! l = Some (Some o) ∧ odid o = id.
Proof.
  intros Hid. unfold tmplts_odid_get.
  destruct (tmplts_odid_find_spec id) as ([l|] & -> & Hp); rewrite res_bind_ret.
  - destruct Hp as (_ & o & Ho & E). exists h, (odid_arr mgr), (odid_arr_max mgr), l, o.
    split; [by destruct mgr|]. by destruct mgr.
  - destruct (tmplts_odid_add_spec id Hid Hp) as (h' & arr & max & l & ? & ? & ? & ?).
    by eexists _, _, _, _, _.
Qed.
End mapper.

(** *** Sources *)

Lemma src_find_Some mgr src pos : tmplts_src_find mgr src = Some pos →
  ∃ s, src_arr mgr !! pos = Some s ∧ src_id s = src.
Proof.
  unfold tmplts_src_find. intros ([k s] & E & [= ->])%fmap_Some.
  apply list_find_Some in E as (? & ? & _). by exists s.
Qed.

Lemma src_find_None mgr src : tmplts_src_find mgr src = None →
  ∀ s, s ∈ src_arr mgr → src_id s ≠ src.
Proof.
  unfold tmplts_src_find. intros E%fmap_None s Hs. apply list_find_None in E.
  rewrite Forall_forall in E. by apply E.
Qed.

(** With distinct sources the search finds the one at a position. *)
Lemma src_find_at mgr pos s : NoDup (src_id <$> src_arr mgr) → src_arr mgr !! pos = Some s →
  tmplts_src_find mgr (src_id s) = Some pos.
Proof.
  intros Hnd Hs. destruct (tmplts_src_find mgr (src_id s)) as [k|] eqn:E.
  - apply src_find_Some in E as (s' & Hs' & E). f_equal.
    apply (NoDup_lookup _ _ _ (src_id s) Hnd); rewrite list_lookup_fmap; [by rewrite Hs'; cbn; rewrite E|by rewrite Hs].
  - by destruct (src_find_None _ _ E s ltac:(by eapply list_elem_of_lookup_2)).
Qed.

Lemma remap_at mgr pos s p : NoDup (src_id <$> src_arr mgr) → src_arr mgr !! pos = Some s →
  tmapper_remap_data_set mgr (src_id s) p = fwd_src_mapping_get s p.
Proof. intros Hnd Hs. unfold tmapper_remap_data_set. rewrite (src_find_at _ pos s Hnd Hs). cbn. by rewrite Hs. Qed.

Lemma remap_unknown mgr src p : (∀ s, s ∈ src_arr mgr → src_id s ≠ src) →
  tmapper_remap_data_set mgr src p = 0.
Proof.
  intros H. unfold tmapper_remap_data_set. destruct (tmplts_src_find mgr src) as [k|] eqn:E; [|done].
  apply src_find_Some in E as (s & ?%list_elem_of_lookup_2 & E). by destruct (H s).
Qed.

(** Replacing a source by one with the same identity changes its mappings only. *)
Lemma remap_put mgr pos s s' src p : NoDup (src_id <$> src_arr mgr) →
  src_arr mgr !! pos = Some s → src_id s' = src_id s →
  tmapper_remap_data_set (put mgr pos s') src p =
  if decide (src = src_id s) then fwd_src_mapping_get s' p else tmapper_remap_data_set mgr src p.
Proof.
  intros Hnd Hs E. pose proof (lookup_lt_Some _ _ _ Hs) as Hpos.
  assert (NoDup (src_id <$> src_arr (put mgr pos s'))) as Hnd'.
  { cbn. rewrite list_fmap_insert, list_insert_id; [done|]. by rewrite list_lookup_fmap, Hs, E. }
  case_decide as Es.
  - subst src. rewrite <-E. apply (remap_at _ pos); [done|by apply put_lookup].
  - destruct (tmplts_src_find mgr src) as [k|] eqn:Ek.
    + apply src_find_Some in Ek as (x & Hx & <-). rewrite (remap_at mgr k x) by done.
      apply (remap_at _ k); [done|]. cbn. rewrite list_lookup_insert_ne; [done|].
      intros <-. congruence.
    + pose proof (src_find_None _ _ Ek) as Hn. rewrite !remap_unknown; [done|done|].
      intros x (k & Hk)%list_elem_of_lookup. cbn in Hk. destruct (decide (k = pos)) as [->|].
      * rewrite list_lookup_insert_eq in Hk by done. injection Hk as <-. congruence.
      * rewrite list_lookup_insert_ne in Hk by done. apply Hn. by eapply list_elem_of_lookup_2.
Qed.

Definition new_source (src : loc) (id : Z) (l : loc) : fwd_source :=
  {| src_odid := id; src_id := src; maintainer := l; map := ∅ |}.

Lemma mapper_add_source h mgr src l o max : mapper_wf h mgr → h !! l = Some (Some o) →
  (∀ s, s ∈ src_arr mgr → src_id s ≠ src) → Z.of_nat (length (src_arr mgr)) < 65535 →
  array_ok (Z.of_nat (length (src_arr mgr ++ [new_source src (odid o) l]))) max 8589934592 →
  mapper_wf h (set_src_arr mgr (src_arr mgr ++ [new_source src (odid o) l]) max).
Proof.
  intros W Ho Hnew Hroom Hmax.
  constructor; cbn [odid_arr odid_arr_max src_arr src_arr_max set_src_arr]; try apply W; try done.
  - intros k Hk. destruct (mw_live _ _ W k Hk) as (o' & Ho' & Hok & H32). exists o'.
    split; [done|]. split; [|done]. eapply odid_ok_ext; [|apply refs_range|exact Hok].
    intros j Hj. rewrite refs_app. cbn [refs]. unfold refs_of. case_decide; [|lia].
    rewrite count_false; [lia|]. intros p _. apply bool_decide_false. by intros <-.
  - intros s [Hs| ->%list_elem_of_singleton]%elem_of_app; [by apply W|].
    constructor; [done|]. cbn. by rewrite Ho.
  - rewrite fmap_app. apply NoDup_app. split; [apply W|]. split; [|apply NoDup_singleton].
    intros x (s & -> & Hs)%list_elem_of_fmap E%list_elem_of_singleton. by apply (Hnew s Hs).
  - rewrite length_app. cbn [length]. lia.
Qed.

Lemma mapper_array_max h mgr : mapper_wf h mgr → 2 * Z.of_nat (length (src_arr mgr)) ≤ 8589934592.
Proof. intros W. pose proof (mw_sources _ _ W). lia. Qed.

(** A source known before is found; a new one is added with a maintainer of
    its ODID and no mapping. *)
Lemma tmplts_src_get_spec h mgr src id : mapper_wf h mgr → is_u32 id →
  (tmplts_src_find mgr src = None → Z.of_nat (length (src_arr mgr)) < 65535) →
  ∃ h' mgr' pos s, tmplts_src_get h mgr src id = Ok (h', mgr', Some pos) ∧ mapper_wf h' mgr' ∧
    (keeps h h' ∧ same_shared h h') ∧ src_arr mgr' !! pos = Some s ∧ src_id s = src ∧
    (∀ src' p, tmapper_remap_data_set mgr' src' p = tmapper_remap_data_set mgr src' p) ∧
    match tmplts_src_find mgr src with
    | Some _ => h' = h ∧ mgr' = mgr
    | None => src_odid s = id ∧ ∃ o, h' !! maintainer s = Some (Some o)
    end.
Proof.
  intros W Hid Hroom. unfold tmplts_src_get. destruct (tmplts_src_find mgr src) as [pos|] eqn:E.
  { apply src_find_Some in E as (s & Hs & E). by exists h, mgr, pos, s. }
  pose proof (src_find_None _ _ E) as Hnew. unfold tmplts_src_add.
  destruct (tmplts_odid_get_spec h mgr W id Hid) as (h' & arr & max & l & o & -> & W' & K & Ho & <-).
  rewrite res_bind_ret. unfold fwd_src_create. rewrite (live_Ok _ _ _ Ho), res_bind_ret.
  rewrite decide_False by (by intros H). rewrite res_bind_ret.
  change {| src_odid := odid o; src_id := src; maintainer := l; map := ∅ |} with (new_source src (odid o) l).
  set (s := new_source src (odid o) l).
  destruct (push_spec (src_arr (set_odid_arr mgr arr max)) (src_arr_max (set_odid_arr mgr arr max)) s 8589934592)
    as (smax & -> & Hsmax); [apply W'|by eapply mapper_array_max|done|].
  rewrite res_bind_ret. eexists h', _, _, s. split; [done|].
  assert (mapper_wf h' (set_src_arr (set_odid_arr mgr arr max) (src_arr mgr ++ [s]) smax)) as W2.
  { apply (mapper_add_source h' (set_odid_arr mgr arr max) src l o smax W' Ho Hnew); [by apply Hroom|exact Hsmax]. }
  split; [exact W2|]. split; [done|].
  assert (src_arr (set_src_arr (set_odid_arr mgr arr max) (src_arr mgr ++ [s]) smax)
          !! length (src_arr mgr) = Some s) as Hlast by (by apply list_lookup_middle).
  split; [exact Hlast|]. split; [done|]. split; [|by split; [|exists o] ].
  intros src' p. destruct (decide (src' = src)) as [->|Hne].
  - rewrite (remap_unknown mgr) by done. change src with (src_id s).
    by rewrite (remap_at _ _ _ _ (mw_src_nodup _ _ W2) Hlast).
  - unfold tmapper_remap_data_set, tmplts_src_find. cbn [src_arr set_src_arr].
    destruct (list_find (λ s, src_id s = src') (src_arr mgr)) as [[k x]|] eqn:Ef.
    + rewrite (list_find_app_l _ _ _ _ _ Ef). cbn.
      apply list_find_Some in Ef as (Hk & _). by rewrite (lookup_app_l_Some _ _ _ _ Hk), Hk.
    + rewrite (list_find_app_r _ _ _ Ef). cbn [list_find].
      rewrite decide_False by (by intros H). done.
Qed.

(** ** Processing a template *)

(** The source is not known or its maintainer was not freed. *)
Definition not_dangling (h : odid_heap) (mgr : tmapper) (src : loc) : Prop :=
  ∀ pos s, tmplts_src_find mgr src = Some pos → src_arr mgr !! pos = Some s →
    ∃ o, h !! maintainer s = Some (Some o).

(** There is a place for the source. *)
Definition source_room (mgr : tmapper) (src : loc) : Prop :=
  tmplts_src_find mgr src = None → Z.of_nat (length (src_arr mgr)) < 65535.

(** The maintainer that a source uses. *)
Definition maintainer_of (mgr : tmapper) (src : loc) : option loc :=
  maintainer <$> (pos ← tmplts_src_find mgr src; src_arr mgr !! pos).

Lemma maintainer_of_at mgr pos s : NoDup (src_id <$> src_arr mgr) → src_arr mgr !! pos = Some s →
  maintainer_of mgr (src_id s) = Some (maintainer s).
Proof. intros Hnd Hs. unfold maintainer_of. rewrite (src_find_at _ pos s Hnd Hs). cbn. by rewrite Hs. Qed.

(** The source belongs to the ODID. *)
Definition source_has_odid (mgr : tmapper) (src : loc) (id : Z) : Prop :=
  ∀ s, s ∈ src_arr mgr → src_id s = src → src_odid s = id.

(** The source is known and has a live maintainer of its ODID. *)
Definition source_live (h : odid_heap) (mgr : tmapper) (src : loc) (id : Z) : Prop :=
  ∃ l o, maintainer_of mgr src = Some l ∧ h !! l = Some (Some o) ∧ odid o = id ∧ source_has_odid mgr src id.

Lemma source_live_room h mgr src id : source_live h mgr src id →
  source_room mgr src ∧ not_dangling h mgr src ∧ source_has_odid mgr src id.
Proof.
  intros (l & o & Hm & Ho & _ & Hs). unfold maintainer_of in Hm.
  destruct (tmplts_src_find mgr src) as [pos|] eqn:E; [|done]. split; [|split; [|done] ].
  - unfold source_room. by rewrite E.
  - intros pos' s E' Hpos. rewrite E in E'. injection E' as <-. cbn in Hm. rewrite Hpos in Hm. cbn in Hm.
    injection Hm as <-. by exists o.
Qed.

Lemma source_live_put h mgr src id h1 mgr1 pos s h' s' :
  mapper_wf h1 mgr1 → src_arr mgr1 !! pos = Some s → src_id s = src →
  match tmplts_src_find mgr src with
  | Some _ => h1 = h ∧ mgr1 = mgr
  | None => src_odid s = id ∧ ∃ o, h1 !! maintainer s = Some (Some o)
  end →
  mapper_wf h' (put mgr1 pos s') → same_source s s' → keeps h1 h' →
  not_dangling h mgr src → source_has_odid mgr src id → source_live h' (put mgr1 pos s') src id.
Proof.
  intros W1 Hs Esrc Hget W' (E1 & E2 & E3) K Hlive Hodid.
  assert (src_odid s = id ∧ ∃ o, h1 !! maintainer s = Some (Some o)) as [Es [o Ho] ].
  { destruct (tmplts_src_find mgr src) as [k|] eqn:E; [|done]. destruct Hget as [-> ->].
    split; [apply Hodid; [by eapply list_elem_of_lookup_2|done]|].
    rewrite <-Esrc, (src_find_at _ pos s (mw_src_nodup _ _ W1) Hs) in E. injection E as <-.
    apply (Hlive pos); [|done]. by rewrite <-Esrc, (src_find_at _ pos s (mw_src_nodup _ _ W1) Hs). }
  pose proof (so_maintainer _ _ (mw_source _ _ W1 s ltac:(by eapply list_elem_of_lookup_2))) as Hm.
  rewrite Ho in Hm. destruct (live_status h' (maintainer s) (odid o)) as (o' & Ho' & Eo').
  { by apply (keeps_status _ _ K), status_live. }
  pose proof (lookup_lt_Some _ _ _ Hs) as Hpos. pose proof (put_lookup mgr1 pos Hpos s') as Hs'.
  exists (maintainer s), o'. split; [|split; [done|split; [congruence|] ] ].
  - rewrite <-Esrc, <-E1, <-E3. apply (maintainer_of_at _ pos); [apply W'|done].
  - intros x (k & Hk)%list_elem_of_lookup Ex. pose proof (mw_src_nodup _ _ W') as Hnd.
    assert (k = pos) as ->.
    { apply (NoDup_lookup _ _ _ src Hnd); rewrite list_lookup_fmap; [by rewrite Hk; cbn; rewrite Ex|].
      rewrite Hs'. cbn. congruence. }
    congruence.
Qed.

Lemma def_type_new rec length type private_id count : record_ok rec length type private_id →
  rd16 rec 2 = Ok count → count ≠ 0 → tmplts_aux_def_type rec length type = Ok TYPE_NEW.
Proof.
  intros Hr Hc Hn. unfold tmplts_aux_def_type.
  pose proof (ro_length _ _ _ _ Hr). pose proof (ro_range _ _ _ _ Hr).
  rewrite decide_False by lia. rewrite (ro_id _ _ _ _ Hr), Hc, !res_bind_ret.
  by rewrite decide_False, decide_False by (done || lia).
Qed.

Lemma process_new_spec h mgr src id rec length type private_id count new_id :
  mapper_wf h mgr → is_u32 id → source_room mgr src → not_dangling h mgr src →
  record_ok rec length type private_id → rd16 rec 2 = Ok count → count ≠ 0 →
  ∃ h' mgr' action n l,
    tmapper_process_template h mgr src id rec type length new_id = Ok (h', mgr', action, n) ∧
    mapper_wf h' mgr' ∧ keeps h h' ∧ maintainer_of mgr' src = Some l ∧
    (∀ src' p, (src', p) ≠ (src, private_id) →
       tmapper_remap_data_set mgr' src' p = tmapper_remap_data_set mgr src' p) ∧
    added rec length type h h' l (tmapper_remap_data_set mgr' src private_id) new_id action n ∧
    (source_has_odid mgr src id → source_live h' mgr' src id).
Proof.
  intros W Hid Hroom Hlive Hr Hc Hn. unfold tmapper_process_template.
  destruct (tmplts_src_get_spec h mgr src id W Hid Hroom)
    as (h1 & mgr1 & pos & s & -> & W1 & (K1 & S1) & Hs & Esrc & Hremap & Hfound).
  rewrite res_bind_ret, Hs. cbn [or_fault]. rewrite res_bind_ret, (def_type_new _ _ _ _ _ Hr Hc Hn), res_bind_ret.
  assert (∃ o, h1 !! maintainer s = Some (Some o)) as [o Ho].
  { destruct (tmplts_src_find mgr src) as [k|] eqn:E; [|by destruct Hfound]. destruct Hfound as [-> ->].
    rewrite <-Esrc, (src_find_at _ pos s (mw_src_nodup _ _ W) Hs) in E. injection E as <-.
    apply (Hlive pos); [|done]. by rewrite <-Esrc, (src_find_at _ pos s (mw_src_nodup _ _ W) Hs). }
  assert (mapper_wf h1 (put mgr1 pos s)) as Wp.
  { unfold put. by rewrite list_insert_id by done; destruct mgr1. }
  pose proof (lookup_lt_Some _ _ _ Hs) as Hpos.
  destruct (fwd_src_add_tmplt_spec mgr1 pos Hpos _ _ _ _ Hr h1 s o new_id Wp Ho)
    as (h' & s' & a & n & -> & W' & K' & (E1 & E2 & Em) & Hmap & Ha).
  rewrite res_bind_ret. change (set_src_arr mgr1 _ _) with (put mgr1 pos s').
  exists h', (put mgr1 pos s'), a, n, (maintainer s). split; [done|]. split; [done|]. split; [by etrans|].
  assert (∀ q, tmapper_remap_data_set (put mgr1 pos s') src q = fwd_src_mapping_get s' q) as Hq.
  { intros q. rewrite (remap_put _ _ _ _ _ _ (mw_src_nodup _ _ W1) Hs E1). by rewrite decide_True by done. }
  split; [|split; [|split] ].
  - rewrite <-Esrc, <-E1, <-Em. apply (maintainer_of_at _ pos); [apply W'|by apply put_lookup].
  - intros src' q Hne. rewrite <-Hremap, (remap_put _ _ _ _ _ _ (mw_src_nodup _ _ W1) Hs E1).
    case_decide as Es; [|done]. subst src'. rewrite (remap_at _ _ _ _ (mw_src_nodup _ _ W1) Hs).
    apply Hmap. congruence.
  - rewrite Hq. by eapply added_same.
  - intros Hodid. by eapply (source_live_put h mgr src id h1 mgr1 pos s).
Qed.

Lemma keeps_same_trans h h1 h' : keeps h h1 → same_shared h h1 → same_defs_heap h1 h' →
  keeps h h' ∧ same_shared h h'.
Proof.
  intros K1 S1 K'. split; [etrans; [exact K1|apply K']|].
  intros l id. by rewrite (same_defs_heap_shared _ _ K'), S1.
Qed.

(** A record without a new definition: the mapper stays consistent, and no shared
    template changes. *)
Lemma process_other_spec h mgr src id rec length type new_id d :
  mapper_wf h mgr → is_u32 id → source_room mgr src → wf_bytes rec →
  0 ≤ length ≤ blen rec → type = TM_TEMPLATE ∨ type = TM_OPTIONS_TEMPLATE →
  tmplts_aux_def_type rec length type = Ok d → d ≠ TYPE_NEW →
  ∃ h' mgr' action, tmapper_process_template h mgr src id rec type length new_id = Ok (h', mgr', action, new_id) ∧
    action ≠ TMAPPER_ACT_PASS ∧ mapper_wf h' mgr' ∧ (keeps h h' ∧ same_shared h h') ∧
    (not_dangling h mgr src → source_has_odid mgr src id → source_live h' mgr' src id).
Proof.
  intros W Hid Hroom Hwf Hl Hty Hd Hn. unfold tmapper_process_template.
  destruct (tmplts_src_get_spec h mgr src id W Hid Hroom)
    as (h1 & mgr1 & pos & s & -> & W1 & (K1 & S1) & Hs & Esrc & _ & Hfound).
  rewrite res_bind_ret, Hs. cbn [or_fault]. rewrite res_bind_ret, Hd, res_bind_ret.
  assert (mapper_wf h1 (put mgr1 pos s)) as Wp.
  { unfold put. by rewrite list_insert_id by done; destruct mgr1. }
  pose proof (lookup_lt_Some _ _ _ Hs) as Hpos.
  assert (put mgr1 pos s = mgr1) as Eput by (unfold put; rewrite list_insert_id by done; by destruct mgr1).
  destruct d; [exists h1, mgr1, TMAPPER_ACT_INVALID|done| |].
  - do 4 (split; [done|]). rewrite <-Eput.
    by apply (source_live_put h mgr src id h1 mgr1 pos s).
  - assert (4 ≤ length) as H4.
    { unfold tmplts_aux_def_type in Hd. destruct (decide (length < 4)); [done|lia]. }
    destruct (rd16_in_bounds rec 0) as [p ->]; [lia..|]. rewrite res_bind_ret.
    destruct (fwd_src_withdraw_id_spec mgr1 pos Hpos h1 s p Wp) as (h' & s' & -> & W' & K' & Hs' & _).
    rewrite res_bind_ret. exists h', (put mgr1 pos s'), TMAPPER_ACT_DROP.
    do 2 (split; [done|]). split; [exact W'|]. split; [by eapply keeps_same_trans|].
    eapply (source_live_put h mgr src id h1 mgr1 pos s); try done. apply K'.
  - destruct (fwd_src_withdraw_type_spec mgr1 pos Hpos h1 s type Wp Hty) as (h' & s' & -> & W' & K' & Hs' & _).
    rewrite res_bind_ret. exists h', (put mgr1 pos s'), TMAPPER_ACT_DROP.
    do 2 (split; [done|]). split; [exact W'|]. split; [by eapply keeps_same_trans|].
    eapply (source_live_put h mgr src id h1 mgr1 pos s); try done. apply K'.
Qed.

(** The maintainer of the source was freed. *)
Definition dangling (h : odid_heap) (mgr : tmapper) (src : loc) : Prop :=
  ∃ pos s, tmplts_src_find mgr src = Some pos ∧ src_arr mgr !! pos = Some s ∧
           h !! maintainer s = Some None.

Lemma dangling_cases h mgr src : mapper_wf h mgr → not_dangling h mgr src ∨ dangling h mgr src.
Proof.
  intros W. destruct (tmplts_src_find mgr src) as [pos|] eqn:E.
  2: { left. intros pos s H. congruence. }
  pose proof E as (s & Hs & _)%src_find_Some.
  pose proof (so_maintainer _ _ (mw_source _ _ W s ltac:(by eapply list_elem_of_lookup_2))) as Hm.
  destruct (h !! maintainer s) as [[o|]|] eqn:Ho; [|right; by exists pos, s|done].
  left. intros k x Hk Hx. simplify_eq. by exists o.
Qed.

Lemma process_dangling h mgr src id rec length type private_id count new_id :
  mapper_wf h mgr → dangling h mgr src → record_ok rec length type private_id →
  rd16 rec 2 = Ok count → count ≠ 0 →
  tmapper_process_template h mgr src id rec type length new_id = Fault UseAfterFree.
Proof.
  intros W (pos & s & E & Hs & Hm) Hr Hc Hn. unfold tmapper_process_template, tmplts_src_get.
  rewrite E, res_bind_ret, Hs. cbn [or_fault].
  rewrite res_bind_ret, (def_type_new _ _ _ _ _ Hr Hc Hn), res_bind_ret.
  pose proof (so_maintainer _ _ (mw_source _ _ W s ltac:(by eapply list_elem_of_lookup_2))) as Hz.
  rewrite Hm in Hz. unfold fwd_src_add_tmplt. rewrite (ro_id _ _ _ _ Hr), res_bind_ret. cbv zeta.
  rewrite Hz, decide_False by done. unfold fwd_src_add_unmapped, live. by rewrite Hm.
Qed.

(** ** Withdrawals *)

(** The templates of a kind that no source maps to. *)
Definition withdrawable (o : fwd_odid) (type : Z) : Z → bool :=
  has o (λ t, is_type type t && unreferenced t).

Lemma count_lt_all f : f 0 = false → count f ≤ 65535.
Proof.
  intros H0. pose proof (count_range (λ x, if decide (x = 0) then true else f x)) as Hr.
  rewrite (count_change f _ 0) in Hr; [|lia|].
  - rewrite H0, decide_True in Hr by done. lia.
  - intros x Hx. by rewrite decide_False.
Qed.

Section withdraw.
Context (R : Z → Z) (o : fwd_odid) (Ho : odid_ok R o) (type : Z).

Lemma to_remove_u16 : 0 ≤ to_remove o ≤ 65535.
Proof.
  rewrite (oo_remove _ _ Ho). split; [apply count_range|]. apply count_lt_all.
  unfold has. destruct (fwd_odid_template_get o 0) as [t|] eqn:Ht; [|done].
  pose proof (template_in_range _ _ Ho _ _ Ht). lia.
Qed.

(** The state of the loop when the identifiers [l] are done. *)
Record withdrawing (l : list Z) (o' : fwd_odid) (result : list Z) : Prop := {
  wi_ok : odid_ok R o';
  wi_odid : odid o' = odid o;
  wi_get : ∀ j, fwd_odid_template_get o' j =
             if decide (j ∈ result) then None else fwd_odid_template_get o j;
  wi_result : result = filter (λ id, withdrawable o type id = true) l;
  wi_remove : to_remove o' = to_remove o - Z.of_nat (length result);
}.

Lemma withdraw_ids_step_spec l id o' result : id ∉ l → withdrawing l o' result →
  ∃ r, withdraw_ids_step type (to_remove o) id (o', result) = Ok r ∧
    match r with
    | inl (o'', result') => withdrawing (l ++ [id]) o'' result'
    | inr (o'', result') => withdrawing (l ++ [id]) o'' result' ∧ to_remove o'' = 0
    end.
Proof.
  intros Hid [Hok Eo Hget Hres Hrem]. unfold withdraw_ids_step.
  assert (id ∉ result) as Hnr by (rewrite Hres; intros [_ ?]%list_elem_of_filter; done).
  assert (fwd_odid_template_get o' id = fwd_odid_template_get o id) as E by (by rewrite Hget, decide_False).
  assert (withdrawable o type id = false → withdrawing (l ++ [id]) o' result) as Hskip.
  { intros Hw. constructor; [done..| |done]. rewrite filter_app, filter_cons, decide_False, filter_nil, app_nil_r; [done|].
    by rewrite Hw. }
  unfold withdrawable, has in Hskip. rewrite E.
  destruct (fwd_odid_template_get o id) as [t|] eqn:Ht; [|eexists; split; [done|by apply Hskip]].
  destruct (decide (tmplt_type t = type)) as [Ety|Nty].
  2: { rewrite decide_True by done. eexists. split; [done|]. apply Hskip. unfold is_type. by rewrite bool_decide_false. }
  rewrite decide_False by (by intros H).
  destruct (decide (ref_cnt t = 0)) as [E0|N0].
  2: { rewrite decide_True by done. eexists. split; [done|]. apply Hskip. unfold unreferenced.
       by rewrite (bool_decide_false (ref_cnt t = 0)), andb_false_r. }
  rewrite decide_False by (by intros H).
  pose proof (to_remove_positive R o' Hok id t E E0) as Hpos. pose proof (to_remove_u16) as H16.
  rewrite decide_True by lia. cbv zeta.
  destruct (withdraw_ok R o' Hok id t E E0) as (Hok' & Eo' & Hget').
  set (o'' := {| odid := _ |}) in *.
  assert (withdrawing (l ++ [id]) o'' (result ++ [id])) as Hw.
  { constructor; [done|by rewrite Eo'| | |].
    - intros j. rewrite Hget', Hget. destruct (decide (id = j)) as [<-|].
      + by rewrite decide_True by set_solver.
      + destruct (decide (j ∈ result)); [by rewrite decide_True by set_solver|by rewrite decide_False by set_solver].
    - rewrite filter_app, filter_cons, decide_True, filter_nil, Hres; [done|].
      unfold withdrawable, has. rewrite Ht. unfold is_type, unreferenced. by rewrite !bool_decide_true.
    - cbn [o'' to_remove]. unfold fwd_odid_template_remove. rewrite E. cbn [to_remove].
      rewrite u32_small by lia. rewrite length_app. cbn [length]. lia. }
  case_decide as Ez; (eexists; split; [done|]); done.
Qed.

Lemma filter_none (P : Z → Prop) `{∀ x, Decision (P x)} xs : (∀ x, x ∈ xs → ¬ P x) → filter P xs = [].
Proof.
  induction xs as [|x xs IH]; intros Hx; [done|]. rewrite filter_cons, decide_False by (apply Hx; by left).
  apply IH. intros y Hy. apply Hx. by right.
Qed.

(** Nothing is left to withdraw behind the identifiers done. *)
Lemma withdrawing_done l r o' result : NoDup (l ++ r) → withdrawing l o' result → to_remove o' = 0 →
  result = filter (λ id, withdrawable o type id = true) (l ++ r).
Proof.
  intros Hnd [Hok Eo Hget Hres Hrem] H0.
  rewrite filter_app, (filter_none _ r); [by rewrite app_nil_r|].
  intros id Hid Hw. unfold withdrawable, has in Hw.
  destruct (fwd_odid_template_get o id) as [t|] eqn:Ht; [|done].
  apply andb_true_iff in Hw as [_ Hw]. unfold unreferenced in Hw. apply bool_decide_eq_true_1 in Hw.
  assert (fwd_odid_template_get o' id = Some t) as Ht'.
  { rewrite Hget, decide_False; [done|]. rewrite Hres. intros [_ Hl]%list_elem_of_filter.
    apply NoDup_app in Hnd as (_ & Hnd & _). by apply (Hnd id). }
  pose proof (to_remove_positive R o' Hok id t Ht' Hw). lia.
Qed.

Definition withdrawn : list Z := filter (λ id, withdrawable o type id = true) template_ids_but_last.

Lemma withdraw_loop : ∃ r, for_each (withdraw_ids_step type (to_remove o)) template_ids_but_last (o, []) = Ok r ∧
  ∃ o', match r with inl s => s | inr s => s end = (o', withdrawn) ∧ odid_ok R o' ∧ odid o' = odid o ∧
    ∀ j, fwd_odid_template_get o' j = if decide (j ∈ withdrawn) then None else fwd_odid_template_get o j.
Proof.
  assert (NoDup template_ids_but_last) as Hnd by apply NoDup_range.
  eapply (for_each_total _ (λ l '(o', result), withdrawing l o' result)
    (λ r, ∃ o', match r with inl s => s | inr s => s end = (o', withdrawn) ∧ odid_ok R o' ∧ odid o' = odid o ∧
       ∀ j, fwd_odid_template_get o' j = if decide (j ∈ withdrawn) then None else fwd_odid_template_get o j)).
  - intros l id r [o' result] E Hw.
    assert (id ∉ l) as Hid.
    { rewrite E in Hnd. apply NoDup_app in Hnd as (_ & Hnd & _). intros Hin. by apply (Hnd _ Hin); left. }
    destruct (withdraw_ids_step_spec l id o' result Hid Hw) as ([[o'' result']|[o'' result']] & -> & H);
      (eexists; split; [done|]); [done|].
    destruct H as [H H0]. exists o''. rewrite E, cons_middle, app_assoc in Hnd.
    assert (result' = withdrawn) as <-.
    { unfold withdrawn. rewrite E, cons_middle, app_assoc. by eapply withdrawing_done. }
    split; [done|]. by destruct H.
  - intros [o' result] [Hok Eo Hget Hres _]. exists o'. unfold withdrawn. rewrite <-Hres. done.
  - constructor; [done|done| |done|cbn [length]; lia]. intros j. by rewrite decide_False by apply not_elem_of_nil.
Qed.

Lemma withdrawn_length : Z.of_nat (length withdrawn) ≤ to_remove o.
Proof.
  rewrite (oo_remove _ _ Ho). unfold count, countl, withdrawn. apply inj_le, submseteq_length, NoDup_submseteq.
  - apply NoDup_filter, NoDup_range.
  - intros id [Hw _]%list_elem_of_filter. unfold withdrawable, has in Hw.
    destruct (fwd_odid_template_get o id) as [t|] eqn:Ht; [|done].
    apply andb_true_iff in Hw as [_ Hw]. apply list_elem_of_filter. split; [unfold has; by rewrite Ht|].
    apply elem_of_all_ids. pose proof (template_in_range _ _ Ho _ _ Ht). lia.
Qed.

Lemma withdrawn_none : to_remove o = 0 → withdrawn = [].
Proof. intros E. pose proof withdrawn_length. apply nil_length_inv. lia. Qed.
End withdraw.

Lemma mapper_set_odid h mgr l o o' : mapper_wf h mgr → h !! l = Some (Some o) → odid o' = odid o →
  odid_ok (refs (src_arr mgr) l) o' → mapper_wf (<[l := Some o']> h) mgr.
Proof.
  intros W Ho Eo Hok.
  assert (∀ k, <[l := Some o']> h !! k = if decide (l = k) then Some (Some o') else h !! k) as Hh'.
  { intros k. case_decide; [subst; apply lookup_insert_eq|by apply lookup_insert_ne]. }
  constructor; try apply W.
  - intros k Hk. rewrite Hh'. case_decide as E; [|by apply (mw_live _ _ W)]. subst k. exists o'.
    split; [done|]. split; [done|].
    destruct (mw_live _ _ W _ Hk) as (o1 & Ho1 & _ & H32). simplify_eq. by rewrite Eo.
  - intros k o1. rewrite Hh'. case_decide as E; [subst k; intros _; by eapply mw_owned|by eapply mw_owned].
  - assert (∀ k o1, <[l := Some o']> h !! k = Some (Some o1) → ∃ o2, h !! k = Some (Some o2) ∧ odid o2 = odid o1) as H.
    { intros k o1. rewrite Hh'. case_decide; [|by exists o1]. intros [= <-]. subst. by exists o. }
    intros k k' o1 o2 (o3 & ? & <-)%H (o4 & ? & <-)%H. by apply (mw_distinct _ _ W).
  - intros s Hs. destruct (mw_source _ _ W s Hs) as [Hr Hm]. constructor; [done|].
    rewrite Hh'. case_decide as E; [|done]. subst l. rewrite Ho in Hm. by rewrite Eo.
Qed.

(** A source at a maintainer without templates has no mapping. *)
Lemma no_templates_no_mapping h mgr s o : mapper_wf h mgr → s ∈ src_arr mgr →
  h !! maintainer s = Some (Some o) → (∀ j, fwd_odid_template_get o j = None) →
  ∀ p, fwd_src_mapping_get s p = 0.
Proof.
  intros W (pos & Hs)%list_elem_of_lookup Ho Hn p.
  destruct (decide (fwd_src_mapping_get s p = 0)) as [|Hp]; [done|].
  destruct (ok_mapped mgr pos ltac:(by eapply lookup_lt_Some) h s p) as (o1 & t & Ho1 & Ht); [|done|].
  - unfold put. rewrite list_insert_id by done. by destruct mgr.
  - simplify_eq. congruence.
Qed.

Lemma mapper_free h mgr l o pos : mapper_wf h mgr → h !! l = Some (Some o) →
  (∀ j, fwd_odid_template_get o j = None) → odid_arr mgr !! pos = Some l →
  mapper_wf (<[l := None]> h) (set_odid_arr mgr (delete pos (odid_arr mgr)) (odid_arr_max mgr)).
Proof.
  intros W Ho Hn Hpos.
  assert (∀ k o1, <[l := None]> h !! k = Some (Some o1) ↔ k ≠ l ∧ h !! k = Some (Some o1)) as Hh'.
  { intros k o1. destruct (decide (k = l)) as [->|Hk]; [rewrite lookup_insert_eq; naive_solver|].
    rewrite lookup_insert_ne by done. naive_solver. }
  assert (odid_arr mgr ≡ₚ l :: delete pos (odid_arr mgr)) as Hperm by (by apply delete_Permutation).
  pose proof (mw_nodup _ _ W) as Hnd. rewrite Hperm in Hnd. apply NoDup_cons in Hnd as [Hl Hnd].
  constructor; cbn [odid_arr odid_arr_max src_arr src_arr_max set_odid_arr]; try apply W; try done.
  - intros k Hk. destruct (mw_live _ _ W k) as (o1 & Ho1 & H); [rewrite Hperm; by right|].
    exists o1. split; [|done]. apply Hh'. split; [|done]. by intros ->.
  - intros k o1 [Hk Ho1%(mw_owned _ _ W)]%Hh'. rewrite Hperm in Ho1.
    by apply elem_of_cons in Ho1 as [?|?].
  - intros k k' o1 o2 [_ H1]%Hh' [_ H2]%Hh'. by apply (mw_distinct _ _ W k k' o1 o2).
  - intros s Hs. destruct (mw_source _ _ W s Hs) as [Hr Hm]. constructor; [done|].
    destruct (decide (maintainer s = l)) as [<-|Hne].
    + rewrite lookup_insert_eq. by eapply no_templates_no_mapping.
    + by rewrite lookup_insert_ne.
  - destruct (mw_odid_max _ _ W) as [? ?]. split; [|done].
    pose proof (f_equal Z.of_nat (Permutation_length Hperm)) as Hlen. cbn [length] in Hlen. lia.
Qed.

Lemma no_counts_no_templates R o : odid_ok R o → templates_normal o = 0 → templates_options o = 0 →
  ∀ j, fwd_odid_template_get o j = None.
Proof.
  intros Ho Hn Hop j. destruct (fwd_odid_template_get o j) as [t|] eqn:Ht; [|done].
  pose proof (template_in_range _ _ Ho _ _ Ht) as Hj. rewrite (oo_normal _ _ Ho) in Hn.
  rewrite (oo_options _ _ Ho) in Hop. apply count_zero with (k := j) in Hn, Hop; [|lia..].
  unfold has in Hn, Hop. rewrite Ht in Hn, Hop. unfold is_type in Hn, Hop.
  apply bool_decide_eq_false_1 in Hn, Hop. by destruct (to_type _ _ _ (oo_template _ _ Ho _ _ Ht)).
Qed.

(** Removing the maintainer of [id], which has no templates. *)
Lemma tmplts_odid_remove_spec h mgr l o : mapper_wf h mgr → h !! l = Some (Some o) →
  (∀ j, fwd_odid_template_get o j = None) →
  ∃ mgr', tmplts_odid_remove h mgr (odid o) = Ok (<[l := None]> h, mgr') ∧
    mapper_wf (<[l := None]> h) mgr' ∧ src_arr mgr' = src_arr mgr.
Proof.
  intros W Ho Hn. unfold tmplts_odid_remove.
  destruct (odid_position_spec h (odid_arr mgr) (odid o) (odid_arr_live h mgr W)) as ([k|] & -> & Hp);
    rewrite res_bind_ret.
  2: { by destruct (Hp l o (mw_owned _ _ W _ _ Ho) Ho). }
  destruct Hp as (l' & o' & Hk & Ho' & E). pose proof (mw_distinct _ _ W _ _ _ _ Ho' Ho E) as ->.
  rewrite Hk. cbn [or_fault]. rewrite res_bind_ret. unfold fwd_odid_destroy.
  rewrite (live_Ok _ _ _ Ho), !res_bind_ret. eexists. split; [done|]. split; [|done].
  by apply (mapper_free h mgr l o k).
Qed.

Lemma shared_def_withdrawn h l o o' (ids : list Z) : h !! l = Some (Some o) →
  (∀ j, fwd_odid_template_get o' j = if decide (j ∈ ids) then None else fwd_odid_template_get o j) →
  ∀ k j, shared_def (<[l := Some o']> h) k j =
         if decide (k = l ∧ j ∈ ids) then None else shared_def h k j.
Proof.
  intros Ho Hget k j. unfold shared_def. destruct (decide (k = l)) as [->|Hk].
  - rewrite lookup_insert_eq, Ho, Hget.
    destruct (decide (j ∈ ids)); [by rewrite decide_True|by rewrite decide_False by tauto].
  - rewrite lookup_insert_ne by done. by rewrite decide_False by tauto.
Qed.

Lemma withdraw_ids_spec h mgr id type : mapper_wf h mgr →
  ∃ h' mgr' r, tmapper_withdraw_ids h mgr id type = Ok (h', mgr', r) ∧ mapper_wf h' mgr' ∧
    src_arr mgr' = src_arr mgr ∧
    match r with
    | None => h' = h ∧ ∀ l o, h !! l = Some (Some o) → odid o ≠ id
    | Some (result, cnt) => ∃ l o, h !! l = Some (Some o) ∧ odid o = id ∧
        result = withdrawn o type ++ [0] ∧ cnt = Z.of_nat (length (withdrawn o type)) ∧
        (∀ k j, shared_def h' k j = if decide (k = l ∧ j ∈ withdrawn o type) then None else shared_def h k j) ∧
        (∀ k, k ≠ l → h' !! k = h !! k) ∧
        (h' !! l = Some None ∨ ∃ o', h' !! l = Some (Some o') ∧ odid o' = id) ∧
        (to_remove o ≠ 0 → (∀ j, is_Some (fwd_odid_template_get o j) → j ∈ withdrawn o type) →
         h' !! l = Some None)
    end.
Proof.
  intros W. unfold tmapper_withdraw_ids.
  destruct (tmplts_odid_find_spec h mgr W id) as ([l|] & -> & Hp); rewrite res_bind_ret.
  2: { exists h, mgr, None. done. }
  destruct Hp as (Hl & o & Ho & <-). rewrite (live_Ok _ _ _ Ho), res_bind_ret. cbv zeta.
  destruct (mw_live _ _ W l Hl) as (o1 & Ho1 & Hok & _). assert (o1 = o) as -> by congruence. clear Ho1.
  pose proof (to_remove_u16 _ _ Hok) as H16. pose proof (withdrawn_length _ _ Hok type) as Hlen.
  rewrite u16_small by lia. case_decide as E0.
  - exists h, mgr, (Some ([0], 0)). do 3 (split; [done|]). exists l, o.
    rewrite (withdrawn_none _ _ Hok type E0). do 4 (split; [done|]).
    split; [|split; [done|split; [by right; exists o|done] ] ]. intros k j.
    rewrite decide_False; [done|]. by intros [_ ?%not_elem_of_nil].
  - destruct (withdraw_loop _ _ Hok type) as (r & -> & o' & Er & Hok' & Eo & Hget). rewrite res_bind_ret, Er.
    pose proof (mapper_set_odid h mgr l o o' W Ho Eo Hok') as W'.
    pose proof (shared_def_withdrawn h l o o' _ Ho Hget) as Hdef.
    destruct (decide (templates_normal o' = 0 ∧ templates_options o' = 0)) as [Ecount|Hcount].
    + pose proof (no_counts_no_templates _ _ Hok' (proj1 Ecount) (proj2 Ecount)) as Hn.
      destruct (tmplts_odid_remove_spec _ _ l o' W' (lookup_insert_eq _ _ _) Hn) as (mgr' & E & W2 & Es).
      rewrite <-Eo, E, res_bind_ret, decide_True, u16_small by lia.
      eexists _, mgr', _. split; [done|]. split; [exact W2|]. split; [done|].
      exists l, o. do 4 (split; [done|]).
      split; [|split; [intros k Hk; by rewrite !lookup_insert_ne|split; [left|]; by rewrite lookup_insert_eq] ].
      intros k j. rewrite <-Hdef. unfold shared_def.
      destruct (decide (l = k)) as [<-|]; [by rewrite !lookup_insert_eq, Hn|by rewrite !lookup_insert_ne].
    + rewrite res_bind_ret, decide_True, u16_small by lia.
      eexists _, mgr, _. split; [done|]. split; [done|]. split; [done|].
      exists l, o. do 5 (split; [done|]). split; [intros k Hk; by rewrite lookup_insert_ne|].
      split; [right; exists o'; by rewrite lookup_insert_eq|]. intros _ Hall. destruct Hcount.
      rewrite (oo_normal _ _ Hok'), (oo_options _ _ Hok').
      split; apply count_false; intros j _; unfold has; rewrite Hget; case_decide as Hj; try done;
        destruct (fwd_odid_template_get o j) as [t|] eqn:Ht; try done; destruct Hj; apply Hall; by eexists.
Qed.

(** ** Removing a source *)

Lemma mapper_delete_source h mgr pos s : mapper_wf h mgr → src_arr mgr !! pos = Some s →
  (∀ p, fwd_src_mapping_get s p = 0) →
  mapper_wf h (set_src_arr mgr (delete pos (src_arr mgr)) (src_arr_max mgr)).
Proof.
  intros W Hs Hz. assert (src_arr mgr ≡ₚ s :: delete pos (src_arr mgr)) as Hperm by (by apply delete_Permutation).
  pose proof (f_equal Z.of_nat (Permutation_length Hperm)) as Hlen. cbn [length] in Hlen.
  constructor; cbn [odid_arr odid_arr_max src_arr src_arr_max set_src_arr]; try apply W.
  - intros l Hl. destruct (mw_live _ _ W l Hl) as (o & Ho & Hok & H32). exists o. split; [done|].
    split; [|done]. eapply odid_ok_ext; [|apply refs_range|exact Hok].
    intros j Hj. rewrite (refs_delete _ _ _ _ _ Hs). unfold refs_of. case_decide; [|lia].
    rewrite count_false; [lia|]. intros p _. apply bool_decide_false. rewrite Hz. congruence.
  - intros x Hx. apply (mw_source _ _ W). rewrite Hperm. by right.
  - pose proof (mw_src_nodup _ _ W) as Hnd. rewrite Hperm in Hnd. by apply NoDup_cons in Hnd as [_ Hnd].
  - destruct (mw_src_max _ _ W) as [? ?]. split; lia.
  - pose proof (mw_sources _ _ W). lia.
Qed.

Lemma remap_delete mgr pos s src p : NoDup (src_id <$> src_arr mgr) → src_arr mgr !! pos = Some s →
  tmapper_remap_data_set (set_src_arr mgr (delete pos (src_arr mgr)) (src_arr_max mgr)) src p =
  if decide (src = src_id s) then 0 else tmapper_remap_data_set mgr src p.
Proof.
  intros Hnd Hs. set (mgr' := set_src_arr _ _ _).
  assert (src_arr mgr ≡ₚ s :: src_arr mgr') as Hperm by (by apply delete_Permutation).
  assert (NoDup (src_id <$> src_arr mgr') ∧ ∀ x, x ∈ src_arr mgr' → src_id x ≠ src_id s) as [Hnd' Hne].
  { rewrite Hperm in Hnd. apply NoDup_cons in Hnd as [Hn Hnd']. split; [done|].
    intros x Hx E. apply Hn. rewrite <-E. by apply list_elem_of_fmap_2. }
  case_decide as Es; [subst; by apply remap_unknown|].
  destruct (tmplts_src_find mgr src) as [k|] eqn:Ek.
  - apply src_find_Some in Ek as (x & Hx & <-). rewrite (remap_at mgr k x) by done.
    assert (x ∈ src_arr mgr) as Hin by (by eapply list_elem_of_lookup_2).
    rewrite Hperm in Hin. apply elem_of_cons in Hin as [->|Hin]; [done|].
    apply list_elem_of_lookup in Hin as [j Hj]. by apply (remap_at _ j).
  - pose proof (src_find_None _ _ Ek) as Hn. rewrite !remap_unknown; [done|done|].
    intros x Hx. apply Hn. rewrite Hperm. by right.
Qed.

Lemma both_types_zero mgr pos h s h1 s1 p : (pos < length (src_arr mgr))%nat → mapper_wf h (put mgr pos s) →
  keeps h h1 → same_source s s1 → fwd_src_mapping_get s1 p = without_type h s TM_TEMPLATE p →
  without_type h1 s1 TM_OPTIONS_TEMPLATE p = 0.
Proof.
  intros Hpos W K (_ & _ & Em) Hp.
  destruct (decide (fwd_src_mapping_get s p = 0)) as [E|E].
  { apply without_type_zero. by rewrite Hp, without_type_zero. }
  destruct (ok_mapped mgr pos Hpos h s p W E) as (o & t & Ho & Ht).
  assert (shared_def h (maintainer s) (fwd_src_mapping_get s p) = Some (definition_of t)) as Hd
    by (unfold shared_def; by rewrite Ho, Ht).
  unfold without_type in Hp |- *. rewrite Hd in Hp. cbn [fst definition_of] in Hp.
  destruct (to_type _ _ _ (oo_template _ _ (ok_maintainer mgr pos h s o W Ho) _ _ Ht)) as [Ety|Ety].
  - rewrite decide_True in Hp by done. rewrite Hp.
    by repeat case_match.
  - rewrite decide_False in Hp by (by rewrite Ety). rewrite Em, Hp, (keeps_def _ _ K _ _ _ Hd).
    cbn. by rewrite decide_True.
Qed.

Lemma remove_source_spec h mgr src : mapper_wf h mgr →
  match tmplts_src_find mgr src with
  | None => tmapper_remove_source h mgr src = Ok (h, mgr, 1)
  | Some _ =>
      ∃ h' mgr', tmapper_remove_source h mgr src = Ok (h', mgr', 0) ∧ mapper_wf h' mgr' ∧ same_defs_heap h h' ∧
        ∀ src' p, tmapper_remap_data_set mgr' src' p =
                  if decide (src' = src) then 0 else tmapper_remap_data_set mgr src' p
  end.
Proof.
  intros W. destruct (tmplts_src_find mgr src) as [pos|] eqn:E;
    [|unfold tmapper_remove_source; by rewrite E].
  unfold tmapper_remove_source. rewrite E. pose proof E as (s & Hs & <-)%src_find_Some.
  rewrite Hs. cbn [or_fault]. rewrite res_bind_ret. pose proof (lookup_lt_Some _ _ _ Hs) as Hpos.
  assert (mapper_wf h (put mgr pos s)) as Wp by (unfold put; by rewrite list_insert_id by done; destruct mgr).
  destruct (fwd_src_withdraw_type_spec mgr pos Hpos h s TM_TEMPLATE Wp ltac:(by left))
    as (h1 & s1 & -> & W1 & K1 & Hs1 & Hm1). rewrite res_bind_ret.
  destruct (fwd_src_withdraw_type_spec mgr pos Hpos h1 s1 TM_OPTIONS_TEMPLATE W1 ltac:(by right))
    as (h2 & s2 & -> & W2 & K2 & Hs2 & Hm2). rewrite res_bind_ret.
  change (set_src_arr mgr (<[pos:=s2]> (src_arr mgr)) (src_arr_max mgr)) with (put mgr pos s2).
  assert (src_id s2 = src_id s) as Eid by (by destruct Hs1 as [<- _], Hs2 as [<- _]).
  assert (∀ p, fwd_src_mapping_get s2 p = 0) as Hz.
  { intros p. rewrite Hm2. apply (both_types_zero mgr pos h s); try done. apply K1. }
  pose proof (put_lookup mgr pos Hpos s2) as Hs2'.
  unfold tmplts_src_remove. rewrite <-Eid, (src_find_at _ pos s2 (mw_src_nodup _ _ W2) Hs2'), Eid.
  eexists h2, _. split; [done|]. split; [by eapply mapper_delete_source|]. split; [by etrans|].
  intros src' p. rewrite (remap_delete _ _ _ _ _ (mw_src_nodup _ _ W2) Hs2'), Eid.
  case_decide; [done|]. rewrite (remap_put _ _ _ _ _ _ (mw_src_nodup _ _ W) Hs Eid). by rewrite decide_False.
Qed.

(** ** Calls of the mapper *)

Inductive mapper_event :=
  | ProcessTemplate (src : loc) (id : Z) (rec : bytes) (type length : Z)
  | RemoveSource (src : loc)
  | WithdrawIds (id type : Z).

Abbreviation mapper_state := (odid_heap * tmapper)%type.

Definition mapper_run (st : mapper_state) (ev : mapper_event) : res mapper_state :=
  match ev with
  | ProcessTemplate src id rec type length =>
      x ← tmapper_process_template st.1 st.2 src id rec type length 0; Ok (x.1.1)
  | RemoveSource src => x ← tmapper_remove_source st.1 st.2 src; Ok (x.1)
  | WithdrawIds id type => x ← tmapper_withdraw_ids st.1 st.2 id type; Ok (x.1)
  end.

(** A record is inside its packet and of one of the two kinds; there are at
    most 65535 sources. *)
Definition event_ok (st : mapper_state) (ev : mapper_event) : Prop :=
  match ev with
  | ProcessTemplate src id rec type length =>
      is_u32 id ∧ wf_bytes rec ∧ 0 ≤ length ≤ blen rec ∧ blen rec < 18446744073709551616 ∧
      (type = TM_TEMPLATE ∨ type = TM_OPTIONS_TEMPLATE) ∧ source_room st.2 src
  | _ => True
  end.

Inductive mapper_reachable : mapper_state → Prop :=
  | mapper_start : mapper_reachable tmapper_create
  | mapper_call st ev st' : mapper_reachable st → event_ok st ev → mapper_run st ev = Ok st' →
      mapper_reachable st'.

(** The record is a new definition. *)
Definition new_definition (ev : mapper_event) (src : loc) : Prop :=
  match ev with
  | ProcessTemplate src' _ rec type length =>
      src' = src ∧ tmplts_aux_def_type rec length type = Ok TYPE_NEW
  | _ => False
  end.

Lemma tmapper_create_wf : mapper_wf tmapper_create.1 tmapper_create.2.
Proof.
  constructor; try (by apply NoDup_nil_2); try done.
  - by intros l ?%elem_of_nil.
  - by intros s ?%elem_of_nil.
Qed.

(** A record that is a new definition satisfies the assumptions on records. *)
Lemma def_type_new_inv rec length type : wf_bytes rec → 0 ≤ length ≤ blen rec →
  blen rec < 18446744073709551616 → type = TM_TEMPLATE ∨ type = TM_OPTIONS_TEMPLATE →
  ∃ d, tmplts_aux_def_type rec length type = Ok d ∧
    (d = TYPE_NEW → ∃ private_id count, record_ok rec length type private_id ∧
       rd16 rec 2 = Ok count ∧ count ≠ 0).
Proof.
  intros Hwf Hl Hb Hty. unfold tmplts_aux_def_type. case_decide as H4; [by eexists|].
  destruct (rd16_in_bounds rec 0) as [id Hid]; [lia..|].
  destruct (rd16_in_bounds rec 2) as [count Hc]; [lia..|].
  rewrite Hid, Hc, !res_bind_ret. destruct (decide (count = 0)) as [E|E].
  { repeat case_decide; by eexists. }
  case_decide; [by eexists|]. eexists. split; [done|]. intros _. exists id, count.
  split; [|done]. pose proof (rd16_range _ _ _ Hwf Hid) as H16. unfold is_u16 in H16.
  constructor; try done; lia.
Qed.

Lemma mapper_run_spec st ev : mapper_wf st.1 st.2 → event_ok st ev →
  (∃ st', mapper_run st ev = Ok st' ∧ mapper_wf st'.1 st'.2) ∨
  (∃ src, new_definition ev src ∧ dangling st.1 st.2 src ∧ mapper_run st ev = Fault UseAfterFree).
Proof.
  destruct st as [h mgr]. destruct ev as [src id rec type length|src|id type]; cbn [fst snd event_ok mapper_run].
  - intros W (Hid & Hwf & Hl & Hb & Hty & Hroom).
    destruct (def_type_new_inv rec length type Hwf Hl Hb Hty) as (d & Hd & Hnew).
    destruct (decide (d = TYPE_NEW)) as [->|Hn].
    + destruct (Hnew eq_refl) as (pid & count & Hr & Hc & Hc0).
      destruct (dangling_cases h mgr src W) as [Hlive|Hdangle].
      * destruct (process_new_spec h mgr src id rec length type pid count 0 W Hid Hroom Hlive Hr Hc Hc0)
          as (h' & mgr' & a & n & l & -> & W' & _). left. by exists (h', mgr').
      * right. exists src. split; [done|]. split; [done|].
        by rewrite (process_dangling h mgr src id _ _ _ pid count).
    + destruct (process_other_spec h mgr src id rec length type 0 d) as (h' & mgr' & a & -> & _ & W' & _); [done..|].
      left. by exists (h', mgr').
  - intros W _. left. pose proof (remove_source_spec h mgr src W) as H.
    destruct (tmplts_src_find mgr src) as [pos|]; [|by rewrite H; exists (h, mgr)].
    destruct H as (h' & mgr' & -> & W' & _). by exists (h', mgr').
  - intros W _. left. destruct (withdraw_ids_spec h mgr id type W) as (h' & mgr' & r & -> & W' & _).
    by exists (h', mgr').
Qed.

Lemma mapper_reachable_wf st : mapper_reachable st → mapper_wf st.1 st.2.
Proof.
  induction 1 as [|st ev st' _ W Hev Hrun]; [apply tmapper_create_wf|].
  destruct (mapper_run_spec st ev W Hev) as [(st2 & E & W2)|(src & _ & _ & E)]; congruence.
Qed.

(** ** Properties *)

(** C25: In every state that calls of the mapper lead to, an identifier that a
    Data Set is mapped to is one of a template of the maintainer of its source,
    which has the source's ODID; no two identifiers of an ODID have templates
    with the same kind and content; the reference count of a shared template
    is the number of mappings to it. Every further call returns and leads to
    such a state, except that a new template of a source whose maintainer was
    freed is a use of freed memory. *)
Theorem tmapper_reachable_consistent st : mapper_reachable st →
  (∀ src p, tmapper_remap_data_set st.2 src p ≠ 0 →
     ∃ s o t, s ∈ src_arr st.2 ∧ src_id s = src ∧ st.1 !! maintainer s = Some (Some o) ∧
       odid o = src_odid s ∧ fwd_odid_template_get o (tmapper_remap_data_set st.2 src p) = Some t) ∧
  (∀ l i j d, shared_def st.1 l i = Some d → shared_def st.1 l j = Some d → i = j) ∧
  (∀ l o i t, st.1 !! l = Some (Some o) → fwd_odid_template_get o i = Some t →
     ref_cnt t = refs (src_arr st.2) l i) ∧
  (∀ ev, event_ok st ev →
     (∃ st', mapper_run st ev = Ok st' ∧ mapper_reachable st') ∨
     (∃ src, new_definition ev src ∧ dangling st.1 st.2 src ∧ mapper_run st ev = Fault UseAfterFree)).
Proof.
  intros Hst. pose proof (mapper_reachable_wf st Hst) as W.
  split; [|split; [|split]].
  - intros src p Hp. unfold tmapper_remap_data_set in *.
    destruct (tmplts_src_find st.2 src) as [pos|] eqn:E; [|done].
    apply src_find_Some in E as (s & Hs & <-). cbn in Hp |- *. rewrite Hs in Hp |- *. cbn in Hp |- *.
    assert (mapper_wf st.1 (put st.2 pos s)) as Wp by (unfold put; by rewrite list_insert_id by done; destruct st.2).
    pose proof (lookup_lt_Some _ _ _ Hs) as Hpos.
    destruct (ok_mapped st.2 pos Hpos st.1 s p Wp Hp) as (o & t & Ho & Ht).
    pose proof (so_maintainer _ _ (ok_source st.2 pos Hpos st.1 s Wp)) as Hm. rewrite Ho in Hm.
    exists s, o, t. split; [by eapply list_elem_of_lookup_2|done].
  - intros l i j d. unfold shared_def. destruct (st.1 !! l) as [[o|]|] eqn:Ho; [|done..].
    destruct (mw_live _ _ W l) as (o' & Ho' & Hok & _); [by eapply mw_owned|].
    rewrite Ho in Ho'. injection Ho' as <-.
    intros (t & Ht & ->)%fmap_Some (u & Hu & E)%fmap_Some. by apply (oo_distinct _ _ Hok _ _ _ _ Ht Hu).
  - intros l o i t Ho Ht. destruct (mw_live _ _ W l) as (o' & Ho' & Hok & _); [by eapply mw_owned|].
    rewrite Ho in Ho'. injection Ho' as <-. by apply (oo_template _ _ Hok).
  - intros ev Hev. destruct (mapper_run_spec st ev W Hev) as [(st' & E & W')|H]; [left|by right].
    exists st'. split; [done|]. by eapply mapper_call.
Qed.

(** C24: Processing a record with a new template (not a withdrawal) of a source
    whose maintainer lives: the Data Sets of the source with that identifier
    are mapped afterwards to an identifier whose shared template has the kind
    and the octets of the record. The answer is PASS with the identifier as
    output when the template was stored under an identifier unused before (no
    template of the ODID being equal), and DROP when an equal one was shared or
    when no identifier of the ODID was left, the one case without a mapping.
    All other mappings and all other shared templates stay as they are. *)
Theorem tmapper_process_template_maps h mgr src id rec length type private_id count new_id :
  mapper_wf h mgr → is_u32 id → source_room mgr src → not_dangling h mgr src →
  record_ok rec length type private_id → rd16 rec 2 = Ok count → count ≠ 0 →
  ∃ h' mgr' action n l,
    tmapper_process_template h mgr src id rec type length new_id = Ok (h', mgr', action, n) ∧
    mapper_wf h' mgr' ∧ maintainer_of mgr' src = Some l ∧
    added rec length type h h' l (tmapper_remap_data_set mgr' src private_id) new_id action n ∧
    (∀ src' p, (src', p) ≠ (src, private_id) →
       tmapper_remap_data_set mgr' src' p = tmapper_remap_data_set mgr src' p).
Proof.
  intros W Hid Hroom Hlive Hr Hc Hn.
  destruct (process_new_spec h mgr src id rec length type private_id count new_id W Hid Hroom Hlive Hr Hc Hn)
    as (h' & mgr' & a & n & l & E & W' & _ & Hm & Hmap & Ha & _).
  exists h', mgr', a, n, l. by do 4 (split; [done|]).
Qed.

(** C37: Withdrawing the identifiers of a kind of an ODID always returns; the
    answer lists in ascending order exactly the identifiers below 65535 of
    that kind that no source maps to, followed by 0. These templates and no
    others are removed, and no mapping changes. *)
Theorem tmapper_withdraw_ids_spec h mgr id type l o :
  mapper_wf h mgr → h !! l = Some (Some o) → odid o = id →
  ∃ h' mgr', tmapper_withdraw_ids h mgr id type =
      Ok (h', mgr', Some (withdrawn o type ++ [0], Z.of_nat (length (withdrawn o type)))) ∧
    mapper_wf h' mgr' ∧
    (∀ j, j ∈ withdrawn o type ↔ j ≠ 65535 ∧ refs (src_arr mgr) l j = 0 ∧
            ∃ t, fwd_odid_template_get o j = Some t ∧ tmplt_type t = type) ∧
    (∀ k j, shared_def h' k j = if decide (k = l ∧ j ∈ withdrawn o type) then None else shared_def h k j) ∧
    (∀ src p, tmapper_remap_data_set mgr' src p = tmapper_remap_data_set mgr src p).
Proof.
  intros W Ho Eid. destruct (withdraw_ids_spec h mgr id type W) as (h' & mgr' & r & -> & W' & Es & Hr).
  destruct r as [[result cnt]|]; [|by destruct Hr as [_ Hr]; destruct (Hr l o Ho)].
  destruct Hr as (l' & o' & Ho' & E' & -> & -> & Hdef & _).
  pose proof (mw_distinct _ _ W l' l o' o Ho' Ho ltac:(congruence)) as ->.
  rewrite Ho in Ho'. injection Ho' as <-. exists h', mgr'. do 2 (split; [done|]). split; [|split; [done|]].
  - destruct (mw_live _ _ W l) as (o' & Ho' & Hok & _); [by eapply mw_owned|].
    rewrite Ho in Ho'. injection Ho' as <-. intros j. unfold withdrawn.
    rewrite list_elem_of_filter. unfold template_ids_but_last. rewrite elem_of_range.
    unfold withdrawable, has. destruct (fwd_odid_template_get o j) as [t|] eqn:Ht; [|naive_solver].
    pose proof (template_in_range _ _ Hok _ _ Ht) as Hj. pose proof (to_refs _ _ _ (oo_template _ _ Hok _ _ Ht)) as Hn.
    rewrite andb_true_iff. unfold is_type, unreferenced. rewrite !bool_decide_eq_true, Hn.
    unfold IPFIX_MIN_RECORD_FLOWSET_ID. split.
    + intros ((? & ?) & ?). split; [lia|]. split; [done|]. by exists t.
    + intros (? & ? & u & ? & ?). simplify_eq. split; [done|lia].
  - intros src p. unfold tmapper_remap_data_set, tmplts_src_find. by rewrite Es.
Qed.

(** C38: Removing a source returns 0 for a known one and 1 otherwise; the
    mappings of that source and no others are gone, and the shared templates stay as
    they are until they are withdrawn. *)
Theorem tmapper_remove_source_spec h mgr src : mapper_wf h mgr →
  ∃ h' mgr' r, tmapper_remove_source h mgr src = Ok (h', mgr', r) ∧ mapper_wf h' mgr' ∧
    (r = 0 ↔ is_Some (tmplts_src_find mgr src)) ∧
    (∀ src' p, tmapper_remap_data_set mgr' src' p =
               if decide (src' = src) then 0 else tmapper_remap_data_set mgr src' p) ∧
    same_shared h h'.
Proof.
  intros W. pose proof (remove_source_spec h mgr src W) as H.
  destruct (tmplts_src_find mgr src) as [pos|] eqn:E.
  - destruct H as (h' & mgr' & -> & W' & K%same_defs_heap_shared & Hmap). exists h', mgr', 0.
    by do 4 (split; [done|]).
  - rewrite H. exists h, mgr, 1. do 2 (split; [done|]). split; [by split; [|intros []]|]. split; [|done].
    intros src' p. case_decide; [|done]. subst. apply remap_unknown. by apply src_find_None.
Qed.

(** A withdrawal that takes the last templates of an ODID frees the
    maintainer although sources still point to it: the next new template of
    such a source is a use of freed memory. *)
Lemma tmapper_withdraw_ids_dangles h mgr pos s o type rec length rtype private_id count id new_id :
  mapper_wf h mgr → src_arr mgr !! pos = Some s → h !! maintainer s = Some (Some o) →
  to_remove o ≠ 0 →
  (∀ j t, fwd_odid_template_get o j = Some t →
     j ≠ 65535 ∧ tmplt_type t = type ∧ refs (src_arr mgr) (maintainer s) j = 0) →
  record_ok rec length rtype private_id → rd16 rec 2 = Ok count → count ≠ 0 →
  ∃ h' mgr' r, tmapper_withdraw_ids h mgr (odid o) type = Ok (h', mgr', r) ∧
    tmapper_process_template h' mgr' (src_id s) id rec rtype length new_id = Fault UseAfterFree.
Proof.
  intros W Hs Ho Hrem Hall Hr Hc Hn.
  destruct (withdraw_ids_spec h mgr (odid o) type W) as (h' & mgr' & r & -> & W' & Es & Hspec).
  exists h', mgr', r. split; [done|].
  destruct r as [[result cnt]|]; [|by destruct Hspec as [_ Hspec]; destruct (Hspec _ _ Ho)].
  destruct Hspec as (l & o' & Ho' & E & _ & _ & _ & Hfree).
  pose proof (mw_distinct _ _ W _ _ _ _ Ho' Ho E) as ->. rewrite Ho in Ho'. injection Ho' as <-.
  apply (process_dangling h' mgr' (src_id s) id _ _ _ private_id count); try done.
  exists pos, s. split; [by apply src_find_at; [apply W'|by rewrite Es]|]. split; [by rewrite Es|].
  apply Hfree; [done|]. intros j [t Ht]. destruct (Hall j t Ht) as (Hj & Hty & Href).
  destruct (mw_live _ _ W (maintainer s)) as (o1 & Ho1 & Hok & _); [by eapply mw_owned|].
  rewrite Ho in Ho1. injection Ho1 as <-. pose proof (template_in_range _ _ Hok _ _ Ht).
  apply list_elem_of_filter. split; [|unfold template_ids_but_last; apply elem_of_range;
                                      unfold IPFIX_MIN_RECORD_FLOWSET_ID; lia].
  unfold withdrawable, has, is_type, unreferenced. rewrite Ht, (to_refs _ _ _ (oo_template _ _ Hok _ _ Ht)).
  by rewrite !bool_decide_true.
Qed.

(** ** Witnesses *)

(** Template 300 with one field of four octets, in the ODID 7. *)
Definition mapper_record : bytes := enc16 300 ++ enc16 1 ++ enc16 8 ++ enc16 4.
Definition mapper_withdrawal : bytes := enc16 300 ++ enc16 0.

Fixpoint run_all (st : mapper_state) (evs : list mapper_event) : res mapper_state :=
  match evs with [] => Ok st | ev :: evs => st ← mapper_run st ev; run_all st evs end.

Definition after (evs : list mapper_event) : mapper_state :=
  match run_all tmapper_create evs with Ok st => st | _ => tmapper_create end.

(** Two sources announce the template; one withdraws it again. *)
Definition announce (src : loc) : mapper_event := ProcessTemplate src 7 mapper_record TM_TEMPLATE 8.
Definition withdraw (src : loc) : mapper_event := ProcessTemplate src 7 mapper_withdrawal TM_TEMPLATE 4.

Lemma mapper_record_wf : wf_bytes mapper_record.
Proof. unfold mapper_record. rewrite !wf_bytes_app. eauto using wf_enc16. Qed.

Lemma mapper_withdrawal_wf : wf_bytes mapper_withdrawal.
Proof. unfold mapper_withdrawal. rewrite !wf_bytes_app. eauto using wf_enc16. Qed.

Lemma announce_ok st src : source_room st.2 src → event_ok st (announce src).
Proof.
  intros Hr. cbn [event_ok announce]. split; [done|]. split; [apply mapper_record_wf|].
  split; [by vm_compute|]. split; [by vm_compute|]. split; [by left|done].
Qed.

Lemma withdraw_ok_event st src : source_room st.2 src → event_ok st (withdraw src).
Proof.
  intros Hr. cbn [event_ok withdraw]. split; [done|]. split; [apply mapper_withdrawal_wf|].
  split; [by vm_compute|]. split; [by vm_compute|]. split; [by left|done].
Qed.

Lemma mapper_example_reachable : mapper_reachable (after [announce 1; announce 2]).
Proof.
  apply (mapper_call (after [announce 1]) (announce 2)); [|by apply announce_ok|by vm_compute].
  apply (mapper_call tmapper_create (announce 1)); [constructor|by apply announce_ok|by vm_compute].
Qed.

Lemma mapper_withdrawn_reachable : mapper_reachable (after [announce 1; withdraw 1]).
Proof.
  apply (mapper_call (after [announce 1]) (withdraw 1)); [|by apply withdraw_ok_event|by vm_compute].
  apply (mapper_call tmapper_create (announce 1)); [constructor|by apply announce_ok|by vm_compute].
Qed.

Lemma mapper_record_ok : record_ok mapper_record 8 TM_TEMPLATE 300.
Proof. constructor; [apply mapper_record_wf|by vm_compute|done|by left|done|done]. Qed.

Lemma tmapper_reachable_consistent_witness :
  mapper_reachable (after [announce 1; announce 2]) ∧
  tmapper_remap_data_set (after [announce 1; announce 2]).2 2 300 ≠ 0 ∧
  ∃ s o t, s ∈ src_arr (after [announce 1; announce 2]).2 ∧ src_id s = 2%positive ∧
    (after [announce 1; announce 2]).1 !! maintainer s = Some (Some o) ∧ odid o = src_odid s ∧
    fwd_odid_template_get o (tmapper_remap_data_set (after [announce 1; announce 2]).2 2 300) = Some t.
Proof.
  split; [exact mapper_example_reachable|]. split; [by vm_compute|].
  apply (proj1 (tmapper_reachable_consistent _ mapper_example_reachable)). by vm_compute.
Defined.

(** Source 2 is not known to the mapper yet; it shares the template of source 1. *)
Lemma tmapper_process_template_maps_witness :
  ∃ h' mgr' action n l,
    tmapper_process_template (after [announce 1]).1 (after [announce 1]).2 2 7 mapper_record TM_TEMPLATE 8 0 =
      Ok (h', mgr', action, n) ∧
    mapper_wf h' mgr' ∧ maintainer_of mgr' 2 = Some l ∧
    added mapper_record 8 TM_TEMPLATE (after [announce 1]).1 h' l (tmapper_remap_data_set mgr' 2 300) 0 action n ∧
    (∀ src' p, (src', p) ≠ (2%positive, 300) →
       tmapper_remap_data_set mgr' src' p = tmapper_remap_data_set (after [announce 1]).2 src' p).
Proof.
  apply (tmapper_process_template_maps _ _ 2 7 mapper_record 8 TM_TEMPLATE 300 1 0).
  - apply mapper_reachable_wf. apply (mapper_call tmapper_create (announce 1));
      [constructor|by apply announce_ok|by vm_compute].
  - done.
  - done.
  - intros pos s H. by vm_compute in H.
  - apply mapper_record_ok.
  - done.
  - done.
Defined.

Lemma tmapper_withdraw_ids_spec_witness :
  ∃ o h' mgr', (after [announce 1; withdraw 1]).1 !! 1%positive = Some (Some o) ∧ withdrawn o TM_TEMPLATE = [300] ∧
    tmapper_withdraw_ids (after [announce 1; withdraw 1]).1 (after [announce 1; withdraw 1]).2 7 TM_TEMPLATE =
      Ok (h', mgr', Some (withdrawn o TM_TEMPLATE ++ [0], Z.of_nat (length (withdrawn o TM_TEMPLATE)))).
Proof.
  destruct (tmapper_withdraw_ids_spec (after [announce 1; withdraw 1]).1 (after [announce 1; withdraw 1]).2 7 TM_TEMPLATE 1
    (match (after [announce 1; withdraw 1]).1 !! 1%positive with Some (Some o) => o | _ => fwd_odid_create 0 end))
    as (h' & mgr' & E & _).
  - apply mapper_reachable_wf, mapper_withdrawn_reachable.
  - by vm_compute.
  - by vm_compute.
  - eexists _, h', mgr'. split; [|split; [|exact E]]; by vm_compute.
Defined.

Lemma tmapper_remove_source_spec_witness :
  ∃ h' mgr' r, tmapper_remove_source (after [announce 1; announce 2]).1 (after [announce 1; announce 2]).2 2 =
      Ok (h', mgr', r) ∧
    (r = 0 ↔ is_Some (tmplts_src_find (after [announce 1; announce 2]).2 2)).
Proof.
  destruct (tmapper_remove_source_spec (after [announce 1; announce 2]).1 (after [announce 1; announce 2]).2 2)
    as (h' & mgr' & r & E & _ & Hr & _).
  - apply mapper_reachable_wf, mapper_example_reachable.
  - exists h', mgr', r. exact (conj E Hr).
Defined.
