(* ===== verification/Preprocessor.v ===== *)
(** * Preprocessor (src/base/src/preprocessor.c)

    Every packet of the input plugins goes through [preprocessor_parse_msg]: it
    makes a message of the packet, keeps the template manager up to date, couples
    data sets with their templates, lists the data records as metadata, replaces
    the sequence number by the one of the Observation Domain and writes the
    message to the queue of the next stage. The state is the template manager,
    the list of data sources, the [input_info] objects (which the input plugins
    and the messages share, so they are objects of a heap) and the queue, any
    instance of [MessageQueue]. *)

From S2P Require Import Prelude CLib Crc Queue TemplateRecord DataRecord Message TemplateManager.

(** ** Inputs *)

Inductive SOURCE_TYPE :=
  | SOURCE_TYPE_UDP
  | SOURCE_TYPE_TCP
  | SOURCE_TYPE_TCPTLS
  | SOURCE_TYPE_SCTP
  | SOURCE_TYPE_NF5
  | SOURCE_TYPE_NF9
  | SOURCE_TYPE_IPFIX_FILE.
#[export] Instance SOURCE_TYPE_eq_dec : EqDecision SOURCE_TYPE.
Proof. solve_decision. Defined.

(** The members of [input_info_network] and [input_info_file] that the
    preprocessor reads, behind those that both have; strings are given without
    the final 0. *)
Record network_info := {
  src_addr : bytes;
  l3_proto : Z;
  src_port : Z;
  template_life_time : option bytes;
  options_template_life_time : option bytes;
  template_life_packet : option bytes;
  options_template_life_packet : option bytes
}.

Inductive input_details :=
  | input_info_network (n : network_info)
  | input_info_file (name : bytes).

Record input_info := {
  ii_type : SOURCE_TYPE;
  ii_sequence_number : Z;
  ii_odid : Z;
  ii_packets : Z;
  ii_data_records : Z;
  ii_details : input_details
}.

(** Casts of [struct input_info] to the two structures. *)
Definition as_network (i : input_info) : res network_info :=
  match ii_details i with input_info_network n => Ok n | _ => Fault BadCast end.
Definition as_file (i : input_info) : res bytes :=
  match ii_details i with input_info_file name => Ok name | _ => Fault BadCast end.

(** ** Data sources *)

(** [struct data_source_info], a list in a heap. *)
Record data_source := {
  exporter_ip_addr : Z;
  ds_odid : Z;
  ds_sequence_number : Z;
  free_tid : Z;
  ds_next : option loc
}.

Record data_sources := {
  source_heap : gmap loc data_source;
  data_source_info : option loc
}.

Definition set_ds_next (s : data_source) (n : option loc) : data_source :=
  {| exporter_ip_addr := exporter_ip_addr s; ds_odid := ds_odid s;
     ds_sequence_number := ds_sequence_number s; free_tid := free_tid s; ds_next := n |}.
Definition set_ds_sequence_number (s : data_source) (n : Z) : data_source :=
  {| exporter_ip_addr := exporter_ip_addr s; ds_odid := ds_odid s;
     ds_sequence_number := n; free_tid := free_tid s; ds_next := ds_next s |}.

Definition data_source_info_get_step (ds : data_sources) (exporter odid : Z) (aux : option loc) :
    res (option loc + option loc) :=
  match aux with
  | None => Ok (inr None)
  | Some l =>
      s ← deref (source_heap ds) l;
      if decide (exporter_ip_addr s = exporter ∧ ds_odid s = odid) then Ok (inr (Some l))
      else Ok (inl (ds_next s))
  end.

Definition data_source_info_get (ds : data_sources) (exporter odid : Z) : res (option loc) :=
  loop (data_source_info_get_step ds exporter odid) (S (S (base.size (source_heap ds)))) (data_source_info ds).

(** A new source becomes the head of an empty list, and the second element of
    any other. *)
Definition data_source_info_add (ds : data_sources) (exporter odid : Z) : res (data_sources * loc) :=
  let l := fresh (dom (source_heap ds)) in
  let s next := {| exporter_ip_addr := exporter; ds_odid := odid; ds_sequence_number := 0;
                   free_tid := 256; ds_next := next |} in
  match data_source_info ds with
  | None => Ok ({| source_heap := <[l := s None]> (source_heap ds); data_source_info := Some l |}, l)
  | Some head =>
      h ← deref (source_heap ds) head;
      Ok ({| source_heap := <[head := set_ds_next h (Some l)]> (<[l := s (ds_next h)]> (source_heap ds));
             data_source_info := Some head |}, l)
  end.

Definition data_source_info_add_source (ds : data_sources) (exporter odid : Z) :
    res (data_sources * option loc) :=
  p ← data_source_info_get ds exporter odid;
  match p with
  | None => x ← data_source_info_add ds exporter odid; Ok (x.1, Some x.2)
  | Some _ => Ok (ds, None)
  end.

(** The source is looked for and nothing is removed. *)
Definition data_source_info_remove_source (ds : data_sources) (exporter odid : Z) : res data_sources :=
  _ ← data_source_info_get ds exporter odid; Ok ds.

Definition data_source_info_get_or_add (ds : data_sources) (exporter odid : Z) :
    res (data_sources * loc) :=
  p ← data_source_info_get ds exporter odid;
  match p with
  | None => data_source_info_add ds exporter odid
  | Some l => Ok (ds, l)
  end.

(** The pointer to the counter is given by the source that holds it. *)
Definition data_source_info_get_sequence_number (ds : data_sources) (exporter odid : Z) :
    res (data_sources * loc) := data_source_info_get_or_add ds exporter odid.

Definition data_source_info_destroy_step (ds : data_sources) : res (data_sources + data_sources) :=
  match data_source_info ds with
  | None => Ok (inr ds)
  | Some l =>
      s ← deref (source_heap ds) l;
      Ok (inl {| source_heap := delete l (source_heap ds); data_source_info := ds_next s |})
  end.

Definition data_source_info_destroy (ds : data_sources) : res data_sources :=
  loop data_source_info_destroy_step (S (S (base.size (source_heap ds)))) ds.

(** ** Identification of exporters *)

Definition INET6_ADDRSTRLEN : Z := 46.

(** [inet_ntop family address] is the address as a string; the clock and the
    current profiles of the configurator are parameters as well. *)
Section preprocessor.
Context (inet_ntop : Z → bytes → bytes) (now : Z) (profiles : option loc).

(** The address and the port, one behind the other, in a buffer of
    [INET6_ADDRSTRLEN + 6] characters. *)
Definition preprocessor_compute_crc (info : input_info) : res Z :=
  if decide (ii_type info = SOURCE_TYPE_IPFIX_FILE) then
    name ← as_file info; Ok (u32 (crc32 name))
  else
    input ← as_network info;
    let buff := inet_ntop (if decide (l3_proto input = 6) then 6 else 4) (src_addr input) in
    let buff := buff ++ take 5 (decimal 10 (src_port input)) in
    if decide (blen buff + 1 > INET6_ADDRSTRLEN + 6) then Fault OobWrite else Ok (u32 (crc32 buff)).

(** ** UDP *)

Definition TM_UDP_TIMEOUT : Z := 1800.
Definition TM_TEMPLATE_WITHDRAW_LEN : Z := 4.

Record udp_conf := {
  uc_template_life_time : Z;
  uc_template_life_packet : Z;
  uc_options_template_life_time : Z;
  uc_options_template_life_packet : Z
}.

Definition life_value (s : option bytes) (default : Z) : Z :=
  match s with Some s => u16 (atoi s) | None => default end.

Definition preprocessor_udp_init (info : input_info) : res udp_conf :=
  if decide (ii_type info = SOURCE_TYPE_UDP) then
    n ← as_network info;
    Ok {| uc_template_life_time := life_value (template_life_time n) TM_UDP_TIMEOUT;
          uc_template_life_packet := life_value (template_life_packet n) 0;
          uc_options_template_life_time := life_value (options_template_life_time n) TM_UDP_TIMEOUT;
          uc_options_template_life_packet := life_value (options_template_life_packet n) 0 |}
  else Ok {| uc_template_life_time := 0; uc_template_life_packet := 0;
             uc_options_template_life_time := 0; uc_options_template_life_packet := 0 |}.

(** The test behind the warning about an expired template; a time that was never
    written is taken as 0. *)
Definition data_template_expired (info : input_info) (conf : udp_conf) (msg_counter : Z)
    (t : ipfix_template) : bool :=
  bool_decide (ii_type info = SOURCE_TYPE_UDP) &&
  (bool_decide (now - default 0 (last_transmission t) > uc_template_life_time conf) ||
   (bool_decide (uc_template_life_packet conf > 0) &&
    bool_decide (u32 (msg_counter - default 0 (last_message t)) > uc_template_life_packet conf))).

(** ** Templates *)

Definition set_last (t : ipfix_template) (transmission message : Z) : ipfix_template :=
  {| original_id := original_id t; references := references t; next := next t;
     template_type := template_type t; first_transmission := first_transmission t;
     last_transmission := Some transmission; last_message := Some message;
     template_id := template_id t; field_count := field_count t;
     scope_field_count := scope_field_count t; template_length := template_length t;
     data_length := data_length t; offsets := offsets t; fields := fields t |}.

(** The length of the record for the caller to go on behind it, 0 for an
    error. *)
Definition record_return (type : Z) (t : ipfix_template) : Z :=
  template_length t - sizeof_ipfix_template +
  (if decide (type = TM_TEMPLATE) then sizeof_ipfix_template_record
   else sizeof_ipfix_options_template_record).

Definition preprocessor_process_one_template (tm : template_mgr) (mem : bytes)
    (tmpl max_len type msg_counter : Z) (info : input_info) (key : ipfix_template_key) :
    res (template_mgr * ipfix_template_key * Z) :=
  template_id ← rd16 mem tmpl;
  count ← rd16 mem (tmpl + 2);
  let key := tm_key_change_template_id key template_id in
  if decide (ii_type info = SOURCE_TYPE_UDP ∧ count = 0) then Ok (tm, key, TM_TEMPLATE_WITHDRAW_LEN)
  else if decide ((template_id = IPFIX_TEMPLATE_FLOWSET_ID ∨ template_id = IPFIX_OPTION_FLOWSET_ID) ∧
                  count = 0) then Ok (tm, key, TM_TEMPLATE_WITHDRAW_LEN)
  else if decide (count = 0) then
    x ← tm_remove_template tm key; Ok (x.1, key, TM_TEMPLATE_WITHDRAW_LEN)
  else
    known ← tm_get_template tm key;
    x ← (match known with
         | None => if decide (template_id < 256) then Ok (tm, None)
                   else tm_add_template tm mem tmpl max_len type now key
         | Some _ => tm_update_template tm mem tmpl max_len type now key
         end);
    let '(tm, template) := x in
    match template with
    | None => Ok (tm, key, 0)
    | Some l =>
        t ← deref (theap tm) l;
        let tm := if decide (ii_type info = SOURCE_TYPE_UDP)
                  then with_heap tm (<[l := set_last t now msg_counter]> (theap tm)) else tm in
        Ok (tm, key, record_return type t)
    end.

(** The loop over the records of one set; [max_len] is the length passed for the
    record at an address, [records] counts in 16 bits. *)
Definition process_set_step (mem : bytes) (set_end : Z) (max_len : Z → Z) (type msg_counter : Z)
    (info : input_info) (s : template_mgr * ipfix_template_key * Z * Z) :
    res ((template_mgr * ipfix_template_key * Z * Z) + (template_mgr * ipfix_template_key * Z)) :=
  let '(tm, key, ptr, records) := s in
  if decide (ptr < set_end) then
    if decide (set_end - ptr < 4) then Ok (inr (tm, key, records)) else
    x ← preprocessor_process_one_template tm mem ptr (max_len ptr) type msg_counter info key;
    let '(tm, key, ret) := x in
    if decide (ret = 0) then Ok (inr (tm, key, records))
    else Ok (inl (tm, key, ptr + ret, u16 (records + 1)))
  else Ok (inr (tm, key, records)).

(** The length to the end of the set is computed for each record of a template
    set, and once for an options template set. *)
Definition process_template_set (mem : bytes) (type msg_counter : Z) (info : input_info) (set : Z)
    (s : template_mgr * ipfix_template_key * Z) : res (template_mgr * ipfix_template_key * Z) :=
  let '(tm, key, records) := s in
  set_len ← rd16 mem (set + 2);
  let max_len ptr := u16 (set + set_len - (if decide (type = TM_TEMPLATE) then ptr else set + 4)) in
  loop (process_set_step mem (set + set_len) max_len type msg_counter info)
    (S (Z.to_nat set_len)) (tm, key, set + 4, records).

Fixpoint process_template_sets (mem : bytes) (type msg_counter : Z) (info : input_info) (sets : list Z)
    (s : template_mgr * ipfix_template_key * Z) : res (template_mgr * ipfix_template_key * Z) :=
  match sets with
  | [] => Ok s
  | set :: sets =>
      s ← process_template_set mem type msg_counter info set s;
      process_template_sets mem type msg_counter info sets s
  end.

(** ** Metadata *)

Definition empty_metadata : metadata :=
  {| md_record := {| record := 0; length_ := 0; templ := None |}; srcCountry := 0; dstCountry := 0;
     srcAS := 0; dstAS := 0; channels := None; srcName := replicate 32 0; dstName := replicate 32 0 |}.

Definition set_md_record (m : metadata) (r : ipfix_record) : metadata :=
  {| md_record := r; srcCountry := srcCountry m; dstCountry := dstCountry m; srcAS := srcAS m;
     dstAS := dstAS m; channels := channels m; srcName := srcName m; dstName := dstName m |}.

(** The members the preprocessor changes. *)
Definition set_message (m : ipfix_message) (pkt : option bytes) (dc : list (Z * option loc))
    (records trecords orecords : Z) (profile : option loc) (md : list metadata) : ipfix_message :=
  {| pkt_header := pkt; Message.input_info := Message.input_info m; source_status := source_status m;
     plugin_status := plugin_status m; plugin_id := plugin_id m; data_records_count := records;
     templ_records_count := trecords; opt_templ_records_count := orecords; templ_set := templ_set m;
     opt_templ_set := opt_templ_set m; data_couple := dc; live_profile := profile; msg_metadata := md |}.

(** [fill_metadata], on the static [mdata_max] and the message: [msg_metadata]
    is the whole array of [mdata_max] entries. *)
Definition fill_metadata (templ : loc) (rec rec_len : Z) (s : Z * ipfix_message) :
    res (Z * ipfix_message) :=
  let '(mdata_max, msg) := s in
  let '(mdata_max, md) := if decide (mdata_max = 0) then (75, replicate 75 empty_metadata)
                          else (mdata_max, msg_metadata msg) in
  let '(mdata_max, md) := if decide (data_records_count msg = mdata_max)
                          then (mdata_max * 2, md ++ replicate (Z.to_nat mdata_max) empty_metadata)
                          else (mdata_max, md) in
  let n := Z.to_nat (data_records_count msg) in
  m ← or_fault OobWrite (md !! n);
  let r := {| record := rec; length_ := rec_len; templ := Some templ |} in
  Ok (mdata_max, set_message msg (pkt_header msg) (data_couple msg) (u16 (data_records_count msg + 1))
    (templ_records_count msg) (opt_templ_records_count msg) profiles (<[n := set_md_record m r]> md)).

(** ** Coupling data sets with templates *)

Record couple_state := {
  cs_heap : template_heap;
  cs_mem : bytes;
  cs_max : Z;
  cs_msg : ipfix_message;
  cs_expired : list Z
}.

(** One entry of [data_couple]: the result has its template, and the state the
    identifiers of expired templates, for which a warning is printed. *)
Definition process_couple (tm : template_mgr) (key : ipfix_template_key) (info : input_info)
    (conf : udp_conf) (msg_counter set : Z) (s : couple_state) : res (option loc * couple_state) :=
  sid ← rd16 (cs_mem s) set;
  template ← tm_get_template (with_heap tm (cs_heap s)) (tm_key_change_template_id key sid);
  match template with
  | None => Ok (None, s)
  | Some l =>
      h ← tm_template_reference_inc (cs_heap s) l;
      t ← deref h l;
      mem ← wr16 (cs_mem s) set (template_id t);
      x ← data_set_process_records data_set_fuel mem set t (fill_metadata l) (cs_max s, cs_msg s);
      Ok (Some l, {| cs_heap := h; cs_mem := mem; cs_max := x.2.1; cs_msg := x.2.2;
                     cs_expired := cs_expired s ++
                       (if data_template_expired info conf msg_counter t then [template_id t] else []) |})
  end.

Fixpoint process_couples (tm : template_mgr) (key : ipfix_template_key) (info : input_info)
    (conf : udp_conf) (msg_counter : Z) (sets : list Z) (s : couple_state) :
    res (list (option loc) * couple_state) :=
  match sets with
  | [] => Ok ([], s)
  | set :: sets =>
      x ← process_couple tm key info conf msg_counter set s;
      y ← process_couples tm key info conf msg_counter sets x.2;
      Ok (x.1 :: y.1, y.2)
  end.

(** The message afterwards and the expired templates. [msg_counter] is a local
    variable that stays 0. *)
Definition preprocessor_process_templates (tm : template_mgr) (info : input_info) (msg : ipfix_message) :
    res (template_mgr * ipfix_message * list Z) :=
  mem ← or_fault OobRead (pkt_header msg);
  let msg_counter := 0 in
  odid ← rd32 mem 12;
  crc ← preprocessor_compute_crc info;
  let key := {| odid := odid; crc := crc; tid := 0 |} in
  conf ← preprocessor_udp_init info;
  x ← process_template_sets mem TM_TEMPLATE msg_counter info (templ_set msg) (tm, key, 0);
  let '(tm, key, trecords) := x in
  x ← process_template_sets mem TM_OPTIONS_TEMPLATE msg_counter info (opt_templ_set msg) (tm, key, 0);
  let '(tm, key, orecords) := x in
  let msg0 := set_message msg (Some mem) (data_couple msg) 0 trecords orecords (live_profile msg)
                (msg_metadata msg) in
  y ← process_couples tm key info conf msg_counter (data_couple msg).*1
        {| cs_heap := theap tm; cs_mem := mem; cs_max := 0; cs_msg := msg0; cs_expired := [] |};
  let '(templates, s) := y in
  let msg := cs_msg s in
  Ok (with_heap tm (cs_heap s),
      set_message msg (Some (cs_mem s)) (zip (data_couple msg).*1 templates) (data_records_count msg)
        trecords orecords (live_profile msg) (msg_metadata msg), cs_expired s).

(** ** Messages *)

Section parse_msg.
Context {Q : Type} `{MessageQueue Q ipfix_message}.

Record preprocessor_state := {
  template_manager : template_mgr;
  sources : data_sources;
  inputs : gmap loc input_info;
  preprocessor_out_queue : Q
}.

Definition set_input (i : input_info) (seq packets records : Z) : input_info :=
  {| ii_type := ii_type i; ii_sequence_number := seq; ii_odid := ii_odid i; ii_packets := packets;
     ii_data_records := records; ii_details := ii_details i |}.

(** A failed write frees the message. *)
Definition write_message (st : preprocessor_state) (msg : ipfix_message) : res (outcome preprocessor_state) :=
  r ← mq_write (preprocessor_out_queue st) (Some msg);
  Ok match r with
     | Wait => Wait
     | Return (_, q) =>
         Return {| template_manager := template_manager st; sources := sources st; inputs := inputs st;
                   preprocessor_out_queue := q |}
     end.

(** Registration of a source with its first packet. *)
Definition register_source (st : preprocessor_state) (exporter header_odid input_odid : Z) :
    res preprocessor_state :=
  x ← data_source_info_add_source (sources st) exporter header_odid;
  y ← tm_source_register (template_manager st) input_odid exporter;
  Ok {| template_manager := y.1; sources := x.1; inputs := inputs st;
        preprocessor_out_queue := preprocessor_out_queue st |}.

(** The sequence numbers of the Observation Domain and of the source after a
    packet with [records] records, and the number the packet gets. *)
Definition sequence_numbers (seqn source_seqn packet_seqn records : Z) : Z * Z * Z :=
  let '(seqn, source_seqn) :=
    if decide (source_seqn ≠ packet_seqn)
    then (u32 (seqn + u32 (packet_seqn - source_seqn)), packet_seqn) else (seqn, source_seqn) in
  (u32 (seqn + records), u32 (source_seqn + records), seqn).

Definition preprocessor_parse_msg (st : preprocessor_state) (packet : option bytes) (len : Z)
    (input : option loc) (status : SOURCE_STATUS) : res (outcome preprocessor_state) :=
  match input with
  | None => Ok (Return st)
  | Some il =>
    info ← deref (inputs st) il;
    exporter ← preprocessor_compute_crc info;
    if decide (status = SOURCE_STATUS_CLOSED) then
      ds ← data_source_info_remove_source (sources st) exporter (ii_odid info);
      write_message {| template_manager := template_manager st; sources := ds; inputs := inputs st;
                       preprocessor_out_queue := preprocessor_out_queue st |}
        (new_message None (Some il) status)
    else
      match packet with
      | None => Ok (Return st)
      | Some mem =>
        m ← message_create_from_mem mem len (Some il) status;
        match m with
        | None => Ok (Return st)
        | Some msg =>
          header_odid ← rd32 mem 12;
          st ← (if decide (status = SOURCE_STATUS_NEW)
                then register_source st exporter header_odid (ii_odid info) else Ok st);
          x ← preprocessor_process_templates (template_manager st) info msg;
          let '(tm, msg, _) := x in
          y ← data_source_info_get_sequence_number (sources st) exporter header_odid;
          let '(ds, sl) := y in
          s ← deref (source_heap ds) sl;
          mem ← or_fault OobRead (pkt_header msg);
          packet_seqn ← rd32 mem 8;
          let records := data_records_count msg in
          let '(seqn, source_seqn, new_seqn) :=
            sequence_numbers (ds_sequence_number s) (ii_sequence_number info) packet_seqn records in
          mem ← wr32 mem 8 new_seqn;
          let msg := set_message msg (Some mem) (data_couple msg) records (templ_records_count msg)
                       (opt_templ_records_count msg) (live_profile msg) (msg_metadata msg) in
          let info := set_input info source_seqn (u64 (ii_packets info + 1))
                        (u64 (ii_data_records info + records)) in
          write_message
            {| template_manager := tm;
               sources := {| source_heap := <[sl := set_ds_sequence_number s seqn]> (source_heap ds);
                             data_source_info := data_source_info ds |};
               inputs := <[il := info]> (inputs st);
               preprocessor_out_queue := preprocessor_out_queue st |} msg
        end
      end
  end.
End parse_msg.
End preprocessor.

(** ** Theory: references *)

(** Heaps of templates that differ in reference counts only. *)
Definition same_but_refs (h h' : template_heap) : Prop :=
  ∀ k, (λ t, set_references t 0) <$> h' !! k = (λ t, set_references t 0) <$> h !! k.

Lemma same_but_refs_lookup h h' k t : same_but_refs h h' → h !! k = Some t →
  ∃ n, h' !! k = Some (set_references t n).
Proof.
  intros Hs Hk. specialize (Hs k). rewrite Hk in Hs. apply fmap_Some in Hs as (t' & -> & E).
  exists (references t'). f_equal. destruct t, t'. unfold set_references in *. cbn in E |- *. congruence.
Qed.

Lemma same_but_refs_shape h h' : same_but_refs h h' → same_shape h h'.
Proof.
  intros Hs k. specialize (Hs k). destruct (h !! k) as [t|], (h' !! k) as [t'|]; try done.
  unfold set_references in Hs. cbn in Hs |- *. congruence.
Qed.

Lemma lookup_id_shape h h' r cs id : same_shape h h' → rec_ok h r cs → lookup_id h' r id = lookup_id h r id.
Proof.
  intros Hs Hok. pose proof (rec_ok_shape _ _ _ _ Hs Hok) as Hok'.
  assert (∀ p, has_id h' id p ↔ has_id h id p) as Hh.
  { intros [l|]; [|done]. cbn. specialize (Hs l).
    destruct (h !! l), (h' !! l); cbn in Hs; try done. by injection Hs as _ <-. }
  apply option_eq. intros l. rewrite (lookup_id_iff h' r cs id l Hok'), (lookup_id_iff h r cs id l Hok).
  by setoid_rewrite Hh.
Qed.

(** Look-ups do not depend on reference counts. *)
Lemma tm_get_template_shape tm h key : tm_wf tm → same_shape (theap tm) h →
  tm_get_template (with_heap tm h) key = tm_get_template tm key.
Proof.
  intros (ls & f & Hinv) Hs.
  destruct (tm_record_lookup_spec tm ls f key Hinv) as (o & Hl & Ho).
  assert (tm_record_lookup (with_heap tm h) key = Ok o) as Hl' by exact Hl.
  unfold tm_get_template. rewrite Hl, Hl', !res_bind_ret. destruct o as [l|]; [|done].
  destruct Ho as (Hin & r & Hr & _). unfold deref. cbn [rheap theap with_heap]. rewrite Hr. cbn [or_fault].
  rewrite !res_bind_ret. pose proof (ti_records _ _ _ Hinv l r Hin Hr) as Hok.
  rewrite (tm_record_get_template_spec _ _ _ _ Hok).
  rewrite (tm_record_get_template_spec _ _ _ _ (rec_ok_shape _ _ _ _ Hs Hok)).
  f_equal. by eapply lookup_id_shape.
Qed.

(** One more reference to each of the templates. *)
Definition add_reference (h : template_heap) (l : loc) : template_heap :=
  alter (λ t, set_references t (u32 (references t + 1))) l h.
Definition add_references (h : template_heap) (ls : list loc) : template_heap := foldl add_reference h ls.

Lemma add_reference_same h h' l : same_but_refs h h' → same_but_refs h (add_reference h' l).
Proof.
  intros Hs k. unfold add_reference. destruct (decide (l = k)) as [<-|].
  - rewrite lookup_alter_eq. rewrite <-Hs. by destruct (h' !! l).
  - by rewrite lookup_alter_ne.
Qed.

Lemma tm_template_reference_inc_spec h l t : h !! l = Some t →
  tm_template_reference_inc h l = Ok (add_reference h l) ∧
  add_reference h l !! l = Some (set_references t (u32 (references t + 1))).
Proof.
  intros Hl. assert (add_reference h l !! l = Some (set_references t (u32 (references t + 1)))) as E
    by (unfold add_reference; by rewrite lookup_alter_eq, Hl).
  split; [|done]. unfold tm_template_reference_inc, deref. rewrite Hl. cbn [or_fault].
  rewrite res_bind_ret. f_equal. apply map_eq. intros k. destruct (decide (l = k)) as [<-|].
  - by rewrite lookup_insert_eq, E.
  - unfold add_reference. by rewrite lookup_insert_ne, lookup_alter_ne.
Qed.

Lemma template_of_references t fs n : template_of t fs → template_of (set_references t n) fs.
Proof. intros [? ? ? ? ? ? ?]. by constructor. Qed.

Lemma data_set_of_references t fs ds padding n :
  data_set_of t fs ds padding → data_set_of (set_references t n) fs ds padding.
Proof. intros [? ? ? ? ?]. constructor; [by apply template_of_references|done..]. Qed.

(** ** Theory: metadata and couples *)

(** The first entries of the array are the records [rs]; it has [max] entries. *)
Record md_ok (max : Z) (msg : ipfix_message) (rs : list ipfix_record) : Prop := {
  mo_count : data_records_count msg = Z.of_nat (length rs);
  mo_array : (max = 0 ∧ rs = []) ∨
             (0 < max ∧ Z.of_nat (length (msg_metadata msg)) = max ∧ Z.of_nat (length rs) ≤ max);
  mo_records : max ≠ 0 → md_record <$> take (length rs) (msg_metadata msg) = rs;
}.

(** What filling in metadata leaves alone. *)
Definition frame (m : ipfix_message) :=
  (Message.input_info m, source_status m, plugin_status m, plugin_id m, templ_set m, opt_templ_set m, data_couple m).

(** The addresses of records that stand one behind the other from [p] on. *)
Fixpoint record_list (l : loc) (p : Z) (ds : list (list datum)) : list ipfix_record :=
  match ds with
  | [] => []
  | d :: ds => {| record := p; length_ := blen (enc_data d); templ := Some l |} ::
               record_list l (p + blen (enc_data d)) ds
  end.

Lemma length_record_list l p ds : length (record_list l p ds) = length ds.
Proof. revert p. induction ds as [|d ds IH]; intros p; [done|]. cbn. f_equal. apply IH. Qed.

Lemma take_S_insert {A} (xs : list A) n x : (n < length xs)%nat → take (S n) (<[n := x]> xs) = take n xs ++ [x].
Proof.
  intros Hn. rewrite (take_S_r _ _ x) by (by apply list_lookup_insert_eq).
  by rewrite take_insert_ge by lia.
Qed.

Section couples.
Context (now : Z) (profiles : option loc).

(** Writing one entry of an array that has room for it. *)
Lemma md_ok_write max msg rs md r n : (n = length rs)%nat → 0 < max → Z.of_nat (length md) = max →
  Z.of_nat (length rs) < max → md_record <$> take (length rs) md = rs → Z.of_nat (length rs) < 65535 →
  data_records_count msg = Z.of_nat (length rs) →
  ∃ m, md !! n = Some m ∧
    md_ok max (set_message msg (pkt_header msg) (data_couple msg) (u16 (data_records_count msg + 1))
                 (templ_records_count msg) (opt_templ_records_count msg) profiles (<[n := set_md_record m r]> md))
      (rs ++ [r]).
Proof.
  intros -> Hmax Hlen Hroom Hrs H16 Hc. destruct (lookup_lt_is_Some_2 md (length rs)) as [m Hm]; [lia|].
  exists m. split; [done|]. constructor; cbn [data_records_count set_message msg_metadata].
  - rewrite Hc, u16_small, length_app by lia. cbn [length]. lia.
  - right. rewrite length_insert, length_app. cbn [length]. lia.
  - intros _. rewrite length_app. cbn [length]. rewrite Nat.add_1_r, take_S_insert by lia.
    by rewrite fmap_app, Hrs.
Qed.

Lemma fill_metadata_spec l rec len max msg rs : md_ok max msg rs → Z.of_nat (length rs) < 65535 →
  ∃ max' msg', fill_metadata profiles l rec len (max, msg) = Ok (max', msg') ∧
    md_ok max' msg' (rs ++ [ {| record := rec; length_ := len; templ := Some l |} ]) ∧ frame msg' = frame msg.
Proof.
  intros [Hc Ha Hrs] Hn. unfold fill_metadata.
  destruct (decide (max = 0)) as [->|Hmax].
  - destruct Ha as [[_ ->]|[? _]]; [|lia]. cbn [length] in Hc. rewrite decide_False by lia.
    destruct (md_ok_write 75 msg [] (replicate 75 empty_metadata)
      {| record := rec; length_ := len; templ := Some l |} (Z.to_nat (data_records_count msg)))
      as (m & -> & Hok); [by rewrite Hc|done..|].
    cbn [or_fault]. rewrite res_bind_ret. eexists _, _. split; [done|]. split; [exact Hok|done].
  - destruct Ha as [[? _]|(Hpos & Hlen & Hle)]; [done|]. specialize (Hrs Hmax).
    destruct (decide (data_records_count msg = max)) as [E|E].
    + destruct (md_ok_write (max * 2) msg rs (msg_metadata msg ++ replicate (Z.to_nat max) empty_metadata)
        {| record := rec; length_ := len; templ := Some l |} (Z.to_nat (data_records_count msg)))
        as (m & -> & Hok); [lia|lia| |lia| |done..|].
      * rewrite length_app, length_replicate. lia.
      * rewrite take_app_le by lia. done.
      * cbn [or_fault]. rewrite res_bind_ret. eexists _, _. split; [done|]. split; [exact Hok|done].
    + destruct (md_ok_write max msg rs (msg_metadata msg)
        {| record := rec; length_ := len; templ := Some l |} (Z.to_nat (data_records_count msg)))
        as (m & -> & Hok); [lia|done|done|lia|done..|].
      cbn [or_fault]. rewrite res_bind_ret. eexists _, _. split; [done|]. split; [exact Hok|done].
Qed.

Lemma process_all_fill l ds : ∀ p max msg rs, md_ok max msg rs →
  Z.of_nat (length rs + length ds) < 65536 →
  ∃ max' msg', process_all (λ d, blen (enc_data d)) (fill_metadata profiles l) p ds (max, msg) = Ok (max', msg') ∧
    md_ok max' msg' (rs ++ record_list l p ds) ∧ frame msg' = frame msg.
Proof.
  induction ds as [|d ds IH]; intros p max msg rs Hok Hn; cbn [process_all record_list length] in *.
  - exists max, msg. by rewrite app_nil_r.
  - destruct (fill_metadata_spec l p (blen (enc_data d)) max msg rs Hok) as (max1 & msg1 & -> & Hok1 & Hf1); [lia|].
    rewrite res_bind_ret. destruct (IH (p + blen (enc_data d)) max1 msg1 _ Hok1) as (max2 & msg2 & -> & Hok2 & Hf2).
    { rewrite length_app. cbn [length]. lia. }
    exists max2, msg2. split; [done|]. split; [by rewrite <-app_assoc in Hok2|by rewrite Hf2].
Qed.

(** A data set of the packet with the template it is coupled with. *)
Record coupled := {
  cp_sid : Z;
  cp_template : loc;
  cp_def : ipfix_template;
  cp_fields : list field_spec;
  cp_records : list (list datum);
  cp_padding : bytes
}.

(** The template manager knows the template of the set, and the set consists of
    records of that template. *)
Record couple_ok (tm : template_mgr) (key : ipfix_template_key) (c : coupled) : Prop := {
  co_sid : IPFIX_MIN_RECORD_FLOWSET_ID ≤ cp_sid c < 65536;
  co_get : tm_get_template tm (tm_key_change_template_id key (cp_sid c)) = Ok (Some (cp_template c));
  co_def : theap tm !! cp_template c = Some (cp_def c);
  co_id : template_id (cp_def c) = cp_sid c;
  co_set : data_set_of (cp_def c) (cp_fields c) (cp_records c) (cp_padding c);
}.

Definition cp_wire (c : coupled) : wire_set := (cp_sid c, enc_records (cp_records c) ++ cp_padding c).

Lemma cp_wire_enc c : enc_set (cp_wire c) = enc_data_set (cp_sid c) (cp_records c) (cp_padding c).
Proof.
  unfold enc_set, enc_data_set, set_length, cp_wire. cbn [fst snd]. rewrite blen_app.
  by rewrite Z.add_assoc.
Qed.

(** The offsets of the sets from [p] on, and all their records. *)
Fixpoint couple_offsets (p : Z) (cs : list coupled) : list Z :=
  match cs with [] => [] | c :: cs => p :: couple_offsets (p + blen (enc_set (cp_wire c))) cs end.

Fixpoint couple_records (p : Z) (cs : list coupled) : list ipfix_record :=
  match cs with
  | [] => []
  | c :: cs => record_list (cp_template c) (p + 4) (cp_records c) ++
               couple_records (p + blen (enc_set (cp_wire c))) cs
  end.

Context (tm : template_mgr) (Htm : tm_wf tm) (key : ipfix_template_key) (info : input_info) (conf : udp_conf)
  (msg_counter : Z).

Lemma process_couple_spec pre post c h max msg expired rs :
  same_but_refs (theap tm) h → couple_ok tm key c → md_ok max msg rs →
  Z.of_nat (length rs + length (cp_records c)) < 65536 →
  let mem := pre ++ enc_set (cp_wire c) ++ post in
  ∃ max' msg' e,
    process_couple now profiles tm key info conf msg_counter (blen pre)
      {| cs_heap := h; cs_mem := mem; cs_max := max; cs_msg := msg; cs_expired := expired |} =
    Ok (Some (cp_template c), {| cs_heap := add_reference h (cp_template c); cs_mem := mem; cs_max := max';
                                 cs_msg := msg'; cs_expired := e |}) ∧
    md_ok max' msg' (rs ++ record_list (cp_template c) (blen pre + 4) (cp_records c)) ∧ frame msg' = frame msg.
Proof.
  intros Hh [Hsid Hget Hdef Hid Hset] Hmd Hn mem. subst mem. rewrite cp_wire_enc.
  set (l := cp_template c) in *. unfold process_couple. cbn [cs_mem cs_heap cs_max cs_msg cs_expired].
  set (mem := pre ++ _ ++ post).
  assert (mem = pre ++ enc16 (cp_sid c) ++ (enc16 (set_length (cp_records c) (cp_padding c)) ++
          enc_records (cp_records c) ++ cp_padding c) ++ post) as Hmem
    by (unfold mem, enc_data_set; by rewrite <-!app_assoc).
  assert (rd16 mem (blen pre) = Ok (cp_sid c)) as ->
    by (rewrite Hmem; apply rd16_here; unfold is_u16, IPFIX_MIN_RECORD_FLOWSET_ID in *; lia).
  rewrite res_bind_ret.
  rewrite (tm_get_template_shape tm h _ Htm (same_but_refs_shape _ _ Hh)), Hget, res_bind_ret.
  destruct (same_but_refs_lookup _ _ _ _ Hh Hdef) as [n Hl].
  destruct (tm_template_reference_inc_spec h l _ Hl) as [-> Hl'].
  rewrite res_bind_ret. unfold deref. rewrite Hl'. cbn [or_fault]. rewrite res_bind_ret.
  set (t := set_references (set_references (cp_def c) n) _).
  change (template_id t) with (template_id (cp_def c)). rewrite Hid.
  assert (wr16 mem (blen pre) (cp_sid c) = Ok mem) as -> by (rewrite Hmem; by apply wr16_over).
  rewrite res_bind_ret.
  assert (data_set_of t (cp_fields c) (cp_records c) (cp_padding c)) as Ht
    by (by do 2 apply data_set_of_references).
  clear Hmem. unfold mem.
  destruct (process_all_fill l (cp_records c) (blen pre + 4) max msg rs Hmd Hn) as (max' & msg' & Hp & Hmd' & Hf).
  rewrite (data_set_records_all t (cp_fields c)), Hp, !res_bind_ret by done.
  eexists max', msg', _. split; [done|]. by split.
Qed.

Lemma process_couples_spec cs : ∀ pre post h max msg expired rs,
  same_but_refs (theap tm) h → Forall (couple_ok tm key) cs → md_ok max msg rs →
  Z.of_nat (length rs + length (couple_records (blen pre) cs)) < 65536 →
  let mem := pre ++ enc_sets (cp_wire <$> cs) ++ post in
  ∃ max' msg' e,
    process_couples now profiles tm key info conf msg_counter (couple_offsets (blen pre) cs)
      {| cs_heap := h; cs_mem := mem; cs_max := max; cs_msg := msg; cs_expired := expired |} =
    Ok ((λ c, Some (cp_template c)) <$> cs,
        {| cs_heap := add_references h (cp_template <$> cs); cs_mem := mem; cs_max := max';
           cs_msg := msg'; cs_expired := e |}) ∧
    md_ok max' msg' (rs ++ couple_records (blen pre) cs) ∧ frame msg' = frame msg.
Proof.
  induction cs as [|c cs IH]; intros pre post h max msg expired rs Hh Hcs Hmd Hn mem.
  - exists max, msg, expired. cbn [couple_records]. by rewrite app_nil_r.
  - apply Forall_cons in Hcs as [Hc Hcs]. cbn [process_couples couple_offsets couple_records] in *.
    rewrite length_app, length_record_list in Hn.
    destruct (process_couple_spec pre (enc_sets (cp_wire <$> cs) ++ post) c h max msg expired rs Hh Hc Hmd)
      as (max1 & msg1 & e1 & E1 & Hmd1 & Hf1); [lia|].
    assert (mem = pre ++ enc_set (cp_wire c) ++ enc_sets (cp_wire <$> cs) ++ post) as Em
      by (subst mem; rewrite fmap_cons, enc_sets_cons; by rewrite <-!app_assoc).
    rewrite <-Em in E1. rewrite E1, res_bind_ret. cbn [fst snd].
    destruct (IH (pre ++ enc_set (cp_wire c)) post (add_reference h (cp_template c)) max1 msg1 e1
      (rs ++ record_list (cp_template c) (blen pre + 4) (cp_records c))
      (add_reference_same _ _ _ Hh) Hcs Hmd1) as (max2 & msg2 & e2 & E2 & Hmd2 & Hf2).
    { rewrite length_app, length_record_list, blen_app. lia. }
    rewrite blen_app in E2, Hmd2. rewrite <-!app_assoc in E2. rewrite Em, E2, res_bind_ret. cbn [fst snd].
    exists max2, msg2, e2. split; [done|]. split; [by rewrite <-app_assoc in Hmd2|by rewrite Hf2].
Qed.
End couples.

(** ** Theory: data sources *)

Abbreviation schain := (lchain ds_next).

Definition sources_wf (ds : data_sources) : Prop :=
  ∃ ls, schain (source_heap ds) (data_source_info ds) ls.

Definition has_key (h : gmap loc data_source) (e o : Z) (l : loc) : Prop :=
  match h !! l with Some s => exporter_ip_addr s = e ∧ ds_odid s = o | None => False end.
#[export] Instance has_key_dec h e o l : Decision (has_key h e o l).
Proof. unfold has_key. destruct (h !! l); apply _. Defined.

Lemma lchain_length {A} (nxt : A → option loc) h p ls : lchain nxt h p ls → (length ls ≤ base.size h)%nat.
Proof.
  intros Hc. pose proof (lchain_NoDup _ _ _ Hc) as Hnd.
  rewrite <-(size_list_to_set (C := gset loc) ls Hnd), <-size_dom.
  apply subseteq_size. intros l Hl%elem_of_list_to_set. apply elem_of_dom. by eapply lchain_allocated.
Qed.

Lemma source_get_loop ds e o ls : ∀ p fuel, schain (source_heap ds) p ls → (length ls < fuel)%nat →
  loop (data_source_info_get_step ds e o) fuel p =
  Ok (snd <$> find_split (has_key (source_heap ds) e o) ls).
Proof.
  induction ls as [|l ls IH]; intros p [|fuel] Hc Hf; cbn [length] in Hf; try lia; cbn [loop find_split].
  - cbn in Hc. subst. done.
  - destruct Hc as (-> & s & Hs & Hc). unfold data_source_info_get_step at 1, deref. rewrite Hs. cbn [or_fault].
    rewrite res_bind_ret.
    assert (has_key (source_heap ds) e o l ↔ exporter_ip_addr s = e ∧ ds_odid s = o) as Hiff
      by (unfold has_key; by rewrite Hs).
    destruct (decide (exporter_ip_addr s = e ∧ ds_odid s = o)) as [Hk|Hk].
    + by rewrite (decide_True (P := has_key _ _ _ _)) by tauto.
    + rewrite (decide_False (P := has_key _ _ _ _)) by tauto.
      rewrite (IH (ds_next s) fuel Hc) by lia. by destruct (find_split _ ls) as [[? ?]|].
Qed.

Lemma data_source_info_get_spec ds e o ls : schain (source_heap ds) (data_source_info ds) ls →
  data_source_info_get ds e o = Ok (snd <$> find_split (has_key (source_heap ds) e o) ls).
Proof.
  intros Hc. unfold data_source_info_get. apply source_get_loop; [done|].
  pose proof (lchain_length _ _ _ _ Hc). lia.
Qed.

(** The sequence number of a source in a domain, 0 for an unknown one. *)
Definition sequence_of (ds : data_sources) (e o : Z) : Z :=
  match data_source_info_get ds e o with
  | Ok (Some l) => match source_heap ds !! l with Some s => ds_sequence_number s | None => 0 end
  | _ => 0
  end.

(** The same by recursion over the list. *)
Fixpoint seq_in (h : gmap loc data_source) (ls : list loc) (e o : Z) : Z :=
  match ls with
  | [] => 0
  | l :: ls => if decide (has_key h e o l)
               then match h !! l with Some s => ds_sequence_number s | None => 0 end
               else seq_in h ls e o
  end.

Lemma sequence_of_chain ds e o ls : schain (source_heap ds) (data_source_info ds) ls →
  sequence_of ds e o = seq_in (source_heap ds) ls e o.
Proof.
  intros Hc. unfold sequence_of. rewrite (data_source_info_get_spec ds e o ls Hc). clear Hc.
  induction ls as [|l ls IH]; [done|]. cbn [find_split seq_in].
  destruct (decide (has_key (source_heap ds) e o l)); [done|].
  rewrite <-IH. by destruct (find_split _ ls) as [[? ?]|].
Qed.

(** Members other than the pointer. *)
Definition content (s : data_source) : Z * Z * Z := (exporter_ip_addr s, ds_odid s, ds_sequence_number s).

Lemma seq_in_agree h h' ls e o : (∀ l, l ∈ ls → content <$> h' !! l = content <$> h !! l) →
  seq_in h' ls e o = seq_in h ls e o.
Proof.
  induction ls as [|l ls IH]; intros Hag; [done|]. cbn [seq_in].
  rewrite IH by (intros; apply Hag; by right). specialize (Hag l ltac:(by left)).
  assert (has_key h' e o l ↔ has_key h e o l) as Hk.
  { unfold has_key. destruct (h !! l), (h' !! l); cbn in Hag; unfold content in Hag; simplify_eq; naive_solver congruence. }
  destruct (decide (has_key h e o l)) as [Hd|Hd].
  - rewrite decide_True by tauto. destruct (h !! l), (h' !! l); cbn in Hag; unfold content in Hag; congruence.
  - by rewrite decide_False by tauto.
Qed.

Lemma seq_in_none h ls e o : Forall (λ l, ¬ has_key h e o l) ls → seq_in h ls e o = 0.
Proof. induction 1 as [|l ls Hl _ IH]; [done|]. cbn. by rewrite decide_False. Qed.

Lemma get_None ds e o ls : schain (source_heap ds) (data_source_info ds) ls →
  data_source_info_get ds e o = Ok None ↔ Forall (λ l, ¬ has_key (source_heap ds) e o l) ls.
Proof.
  intros Hc. rewrite (data_source_info_get_spec ds e o ls Hc). split.
  - intros [= E]. apply fmap_None in E. exact (find_split_None _ _ E).
  - intros Hn. destruct (find_split _ ls) as [[a l]|] eqn:E; [|done].
    apply find_split_Some in E as (r & -> & _ & Hk). by apply Forall_app in Hn as [_ [? _]%Forall_cons].
Qed.

Lemma get_Some ds e o ls l : schain (source_heap ds) (data_source_info ds) ls →
  data_source_info_get ds e o = Ok (Some l) →
  ∃ a r s, ls = a ++ l :: r ∧ Forall (λ x, ¬ has_key (source_heap ds) e o x) a ∧
           source_heap ds !! l = Some s ∧ exporter_ip_addr s = e ∧ ds_odid s = o.
Proof.
  intros Hc. rewrite (data_source_info_get_spec ds e o ls Hc). intros [= Hf].
  apply fmap_Some in Hf as ([a x] & E & Ex). cbn in Ex. subst x. rename l into x.
  apply find_split_Some in E as (r & -> & Ha & Hk). unfold has_key in Hk at 1.
  destruct (source_heap ds !! x) as [s|] eqn:Hs; [|done]. by exists a, r, s.
Qed.

(** A new source behind the head leaves the numbers of all others alone. *)
Lemma data_source_info_add_spec ds e o : sources_wf ds → data_source_info_get ds e o = Ok None →
  ∃ ds' l s, data_source_info_add ds e o = Ok (ds', l) ∧ sources_wf ds' ∧ source_heap ds' !! l = Some s ∧
    data_source_info_get ds' e o = Ok (Some l) ∧ ds_sequence_number s = 0 ∧
    ∀ e' o', sequence_of ds' e' o' = sequence_of ds e' o'.
Proof.
  intros [ls Hc] Hget. apply (get_None ds e o ls Hc) in Hget as Hn. unfold data_source_info_add. cbv zeta.
  set (l := fresh (dom (source_heap ds))).
  assert (source_heap ds !! l = None) as Hl by (apply not_elem_of_dom_1, is_fresh).
  assert (∀ x, x ∈ ls → x ≠ l) as Hne.
  { intros x Hx ->. destruct (lchain_allocated _ _ _ _ Hc Hx). congruence. }
  destruct ls as [|hd ls].
  - cbn in Hc. rewrite Hc. set (s := {| exporter_ip_addr := e |}). set (ds' := {| source_heap := _ |}).
    assert (schain (source_heap ds') (data_source_info ds') [l]) as Hc'
      by (split; [done|]; exists s; split; [apply lookup_insert_eq|done]).
    exists ds', l, s. split; [done|]. split; [by exists [l]|]. split; [apply lookup_insert_eq|].
    assert (has_key (source_heap ds') e o l) as Hk by (unfold has_key; cbn; by rewrite lookup_insert_eq).
    split; [|split; [done|]].
    + rewrite (data_source_info_get_spec _ _ _ _ Hc'). cbn [find_split]. by rewrite decide_True.
    + intros e' o'. rewrite (sequence_of_chain _ _ _ _ Hc'), (sequence_of_chain ds e' o' []) by (by cbn).
      cbn. rewrite lookup_insert_eq. by case_decide.
  - destruct Hc as (Ehd & h0 & Hh0 & Hc). rewrite Ehd. unfold deref. rewrite Hh0. cbn [or_fault].
    rewrite res_bind_ret. set (s := {| exporter_ip_addr := e |}). set (ds' := {| source_heap := _ |}).
    assert (hd ≠ l) as Hhl by (apply Hne; by left).
    assert (hd ∉ ls) as Hhd.
    { assert (schain (source_heap ds) (Some hd) (hd :: ls)) as H by (split; [done|]; by exists h0).
      apply lchain_NoDup in H. by apply NoDup_cons in H as [? _]. }
    assert (source_heap ds' !! l = Some s) as Hl'
      by (cbn; rewrite lookup_insert_ne by done; apply lookup_insert_eq).
    assert (∀ x, x ∈ ls → source_heap ds' !! x = source_heap ds !! x) as Hag.
    { intros x Hx. cbn. rewrite lookup_insert_ne by (by intros ->).
      rewrite lookup_insert_ne; [done|]. intros <-. apply (Hne l); [by right|done]. }
    assert (source_heap ds' !! hd = Some (set_ds_next h0 (Some l))) as Hhd' by apply lookup_insert_eq.
    assert (schain (source_heap ds') (data_source_info ds') (hd :: l :: ls)) as Hc'.
    { split; [done|]. eexists. split; [exact Hhd'|]. split; [done|]. exists s. split; [exact Hl'|].
      by eapply lchain_agree. }
    assert (has_key (source_heap ds') e o l) as Hk by (unfold has_key; by rewrite Hl').
    assert (∀ e' o', has_key (source_heap ds') e' o' hd ↔ has_key (source_heap ds) e' o' hd) as Hkhd
      by (intros e' o'; unfold has_key; by rewrite Hhd', Hh0).
    apply Forall_cons in Hn as [Hnhd Hn].
    exists ds', l, s. split; [done|]. split; [by eexists|]. split; [exact Hl'|]. split; [|split; [done|]].
    + rewrite (data_source_info_get_spec _ _ _ _ Hc'). cbn [find_split].
      rewrite decide_False by (by rewrite Hkhd). by rewrite decide_True.
    + intros e' o'. rewrite (sequence_of_chain _ _ _ _ Hc').
      rewrite (sequence_of_chain ds e' o' (hd :: ls)) by (split; [done|]; by exists h0).
      cbn [seq_in]. destruct (decide (has_key (source_heap ds) e' o' hd)) as [Hd|Hd].
      * rewrite decide_True by (by rewrite Hkhd). by rewrite Hhd', Hh0.
      * rewrite decide_False by (by rewrite Hkhd). rewrite Hl'.
        rewrite (seq_in_agree (source_heap ds)) by (intros; by rewrite Hag).
        destruct (decide (has_key (source_heap ds') e' o' l)) as [Hd2|]; [|done].
        unfold has_key in Hd2. rewrite Hl' in Hd2. cbn in Hd2. destruct Hd2 as [<- <-].
        by rewrite seq_in_none.
Qed.

Lemma data_source_info_get_or_add_spec ds e o : sources_wf ds →
  ∃ ds' l s, data_source_info_get_or_add ds e o = Ok (ds', l) ∧ sources_wf ds' ∧ source_heap ds' !! l = Some s ∧
    data_source_info_get ds' e o = Ok (Some l) ∧ ds_sequence_number s = sequence_of ds e o ∧
    ∀ e' o', sequence_of ds' e' o' = sequence_of ds e' o'.
Proof.
  intros Hwf. pose proof Hwf as [ls Hc]. unfold data_source_info_get_or_add.
  destruct (data_source_info_get ds e o) as [[l|]| |] eqn:E;
    try (rewrite (data_source_info_get_spec ds e o ls Hc) in E; discriminate E); rewrite res_bind_ret.
  - destruct (get_Some ds e o ls l Hc E) as (a & r & s & _ & _ & Hs & _). exists ds, l, s.
    do 4 (split; [done|]). split; [|done]. unfold sequence_of. by rewrite E, Hs.
  - destruct (data_source_info_add_spec ds e o Hwf E) as (ds' & l & s & -> & ? & ? & ? & E0 & Hseq).
    exists ds', l, s. do 4 (split; [done|]). split; [|done].
    rewrite E0. unfold sequence_of. by rewrite E.
Qed.

(** Setting the number of one source. *)
Lemma set_sequence_spec ds e o l s n : sources_wf ds → data_source_info_get ds e o = Ok (Some l) →
  source_heap ds !! l = Some s →
  let ds' := {| source_heap := <[l := set_ds_sequence_number s n]> (source_heap ds);
                data_source_info := data_source_info ds |} in
  sources_wf ds' ∧ ∀ e' o', sequence_of ds' e' o' = if decide ((e', o') = (e, o)) then n else sequence_of ds e' o'.
Proof.
  intros [ls Hc] Hget Hs ds'. destruct (get_Some ds e o ls l Hc Hget) as (a & r & s' & -> & Ha & Hs' & He & Ho).
  rewrite Hs in Hs'. injection Hs' as <-.
  assert (schain (source_heap ds') (data_source_info ds') (a ++ l :: r)) as Hc'.
  { clear Ha Hget. cbn [source_heap data_source_info ds'].
    assert (∀ p, schain (source_heap ds) p (a ++ l :: r) →
      schain (<[l:=set_ds_sequence_number s n]> (source_heap ds)) p (a ++ l :: r)) as H; [|by apply H].
    generalize (a ++ l :: r). intros ls. induction ls as [|x ls IH]; intros p; [done|].
    intros (-> & t & Ht & Hc1). split; [done|]. destruct (decide (l = x)) as [<-|].
    - exists (set_ds_sequence_number s n). rewrite lookup_insert_eq. split; [done|]. simplify_eq. by apply IH.
    - exists t. rewrite lookup_insert_ne by done. split; [done|]. by apply IH. }
  split; [by eexists|]. intros e' o'.
  rewrite (sequence_of_chain _ _ _ _ Hc'), (sequence_of_chain _ _ _ _ Hc).
  assert (∀ x e1 o1, has_key (source_heap ds') e1 o1 x ↔ has_key (source_heap ds) e1 o1 x) as Hk.
  { intros x e1 o1. unfold has_key. cbn. destruct (decide (l = x)) as [<-|].
    - by rewrite lookup_insert_eq, Hs.
    - by rewrite lookup_insert_ne. }
  case_decide as E.
  - injection E as -> ->. clear Hc Hc' Hget. induction a as [|x a IH]; cbn [app seq_in].
    + rewrite decide_True; [cbn; by rewrite lookup_insert_eq|]. apply Hk. unfold has_key. by rewrite Hs.
    + apply Forall_cons in Ha as [Hx Ha]. rewrite decide_False by (by rewrite Hk). by apply IH.
  - clear Hc Hc' Hget Ha. induction (a ++ l :: r) as [|x xs IH]; [done|]. cbn [seq_in]. rewrite IH.
    destruct (decide (has_key (source_heap ds) e' o' x)) as [Hx|Hx].
    + rewrite decide_True by (by apply Hk). cbn. rewrite lookup_insert_ne; [done|].
      intros <-. apply E. unfold has_key in Hx. rewrite Hs in Hx. destruct Hx as [<- <-]. by rewrite He, Ho.
    + by rewrite decide_False by (by rewrite Hk).
Qed.

(** ** Theory: whole messages *)

(** The offsets that [message_create_from_mem] records for data sets only. *)
Lemma couple_places (cs : list coupled) : Forall (λ c, IPFIX_MIN_RECORD_FLOWSET_ID ≤ cp_sid c) cs → ∀ p,
  filter (λ x, is_data_set x.1) (places p (cp_wire <$> cs)) = zip (cp_sid <$> cs) (couple_offsets p cs) ∧
  filter (λ x, is_template_set x.1) (places p (cp_wire <$> cs)) = [] ∧
  filter (λ x, is_options_set x.1) (places p (cp_wire <$> cs)) = [].
Proof.
  induction 1 as [|c cs Hc _ IH]; intros p; [done|]. rewrite !fmap_cons. cbn [places couple_offsets].
  destruct (IH (p + blen (enc_set (cp_wire c)))) as (E1 & E2 & E3). rewrite !filter_cons. cbn [fst cp_wire].
  unfold is_data_set, is_template_set, is_options_set, IPFIX_MIN_RECORD_FLOWSET_ID,
    IPFIX_TEMPLATE_FLOWSET_ID, IPFIX_OPTION_FLOWSET_ID in *.
  rewrite decide_True, !decide_False by lia. rewrite E1, E2, E3. done.
Qed.

Lemma length_couple_offsets p cs : length (couple_offsets p cs) = length cs.
Proof. revert p. induction cs as [|c cs IH]; intros p; [done|]. cbn. f_equal. apply IH. Qed.

Lemma couple_sets (cs : list coupled) : Forall (λ c, IPFIX_MIN_RECORD_FLOWSET_ID ≤ cp_sid c) cs →
  offsets_of is_data_set (cp_wire <$> cs) = couple_offsets IPFIX_HEADER_LENGTH cs ∧
  offsets_of is_template_set (cp_wire <$> cs) = [] ∧ offsets_of is_options_set (cp_wire <$> cs) = [] ∧
  (Z.of_nat (length cs) ≤ MSG_MAX_DATA_COUPLES → sets_fit (cp_wire <$> cs)).
Proof.
  intros Hcs. destruct (couple_places cs Hcs IPFIX_HEADER_LENGTH) as (E1 & E2 & E3).
  assert (offsets_of is_data_set (cp_wire <$> cs) = couple_offsets IPFIX_HEADER_LENGTH cs) as H1.
  { unfold offsets_of. rewrite E1. apply snd_zip. by rewrite length_fmap, length_couple_offsets. }
  assert (offsets_of is_template_set (cp_wire <$> cs) = []) as H2 by (unfold offsets_of; by rewrite E2).
  assert (offsets_of is_options_set (cp_wire <$> cs) = []) as H3 by (unfold offsets_of; by rewrite E3).
  do 3 (split; [done|]). intros Hn. unfold sets_fit.
  rewrite <-!length_offsets_of, H1, H2, H3, length_couple_offsets. by split_and!.
Qed.

Section couples_room.
Context (tm : template_mgr) (key : ipfix_template_key).

Lemma couple_records_octets (cs : list coupled) : Forall (couple_ok tm key) cs → ∀ p,
  Z.of_nat (length (couple_records p cs)) ≤ blen (enc_sets (cp_wire <$> cs)).
Proof.
  induction 1 as [|c cs Hc _ IH]; intros p; [done|].
  rewrite fmap_cons, enc_sets_cons, blen_app, blen_enc_set. cbn [couple_records cp_wire snd].
  rewrite length_app, length_record_list, blen_app. specialize (IH (p + blen (enc_set (cp_wire c)))).
  pose proof (records_count_octets _ _ _ _ (co_set _ _ _ Hc)). pose proof (blen_nonneg (cp_padding c)). lia.
Qed.

Lemma couple_sids (cs : list coupled) : Forall (couple_ok tm key) cs →
  Forall (λ c, IPFIX_MIN_RECORD_FLOWSET_ID ≤ cp_sid c) cs ∧ Forall (λ s : wire_set, is_u16 s.1) (cp_wire <$> cs).
Proof.
  intros Hcs. split.
  - eapply Forall_impl; [exact Hcs|]. intros c Hc. apply (co_sid _ _ _ Hc).
  - apply Forall_fmap. eapply Forall_impl; [exact Hcs|]. intros c Hc. pose proof (co_sid _ _ _ Hc) as H.
    unfold IPFIX_MIN_RECORD_FLOWSET_ID in H. cbn. unfold is_u16. lia.
Qed.
End couples_room.

(** The header of a message and its sequence number. *)
Lemma enc_message_sequence t q o ss tail : is_u32 q →
  rd32 (enc_message t q o ss ++ tail) 8 = Ok q ∧
  ∀ v, wr32 (enc_message t q o ss ++ tail) 8 v = Ok (enc_message t v o ss ++ tail).
Proof.
  intros Hq. set (n := IPFIX_HEADER_LENGTH + blen (enc_sets ss)).
  assert (∀ v, enc_message t v o ss ++ tail =
    (enc16 IPFIX_VERSION ++ enc16 n ++ enc32 t) ++ enc32 v ++ (enc32 o ++ enc_sets ss ++ tail)) as E
    by (intros v; unfold enc_message, enc_header; rewrite <-!app_assoc; done).
  rewrite E. split.
  - by apply (rd32_here (enc16 IPFIX_VERSION ++ enc16 n ++ enc32 t)).
  - intros v. rewrite E. by apply (wr32_over (enc16 IPFIX_VERSION ++ enc16 n ++ enc32 t)).
Qed.

Lemma preprocessor_udp_init_ok inet_ntop info e : preprocessor_compute_crc inet_ntop info = Ok e →
  ∃ conf, preprocessor_udp_init info = Ok conf.
Proof.
  unfold preprocessor_compute_crc, preprocessor_udp_init, as_network, as_file.
  destruct (decide (ii_type info = SOURCE_TYPE_UDP)) as [->|]; [|by eexists].
  rewrite decide_False by done. destruct (ii_details info); [|done]. by eexists.
Qed.

Section process.
Context (inet_ntop : Z → bytes → bytes) (now : Z) (profiles : option loc).

(** A message of data sets goes through [preprocessor_process_templates]. *)
Lemma process_templates_data tm info e t q o cs tail il status :
  preprocessor_compute_crc inet_ntop info = Ok e → tm_wf tm → is_u32 o →
  Forall (couple_ok tm {| odid := o; crc := e; tid := 0 |}) cs →
  IPFIX_HEADER_LENGTH + blen (enc_sets (cp_wire <$> cs)) < 65536 →
  let mem := enc_message t q o (cp_wire <$> cs) ++ tail in
  ∃ msg warnings,
    preprocessor_process_templates inet_ntop now profiles tm info
      (set_sets (new_message (Some mem) il status) [] [] ((λ p, (p, None)) <$> couple_offsets IPFIX_HEADER_LENGTH cs))
    = Ok (with_heap tm (add_references (theap tm) (cp_template <$> cs)), msg, warnings) ∧
    pkt_header msg = Some mem ∧
    data_couple msg = zip (couple_offsets IPFIX_HEADER_LENGTH cs) ((λ c, Some (cp_template c)) <$> cs) ∧
    data_records_count msg = Z.of_nat (length (couple_records IPFIX_HEADER_LENGTH cs)) ∧
    md_record <$> take (length (couple_records IPFIX_HEADER_LENGTH cs)) (msg_metadata msg) =
      couple_records IPFIX_HEADER_LENGTH cs ∧
    templ_set msg = [] ∧ opt_templ_set msg = [] ∧ Message.input_info msg = il ∧ source_status msg = status.
Proof.
  intros Hcrc Htm Ho Hcs Hlen mem. destruct (preprocessor_udp_init_ok _ _ _ Hcrc) as [conf Hconf].
  unfold preprocessor_process_templates. cbn [set_sets new_message pkt_header or_fault templ_set opt_templ_set data_couple].
  rewrite res_bind_ret.
  destruct (rd_header t q o (IPFIX_HEADER_LENGTH + blen (enc_sets (cp_wire <$> cs))) (enc_sets (cp_wire <$> cs) ++ tail))
    as (_ & _ & Hodid); [|done|].
  { pose proof (blen_nonneg (enc_sets (cp_wire <$> cs))). unfold is_u16, IPFIX_HEADER_LENGTH in *. lia. }
  rewrite app_assoc in Hodid. fold (enc_message t q o (cp_wire <$> cs)) in Hodid. fold mem in Hodid.
  rewrite Hodid, Hcrc, Hconf, !res_bind_ret. cbn [process_template_sets]. rewrite !res_bind_ret.
  match goal with |- context [set_message ?m ?a ?b ?c ?d ?f ?g ?h] => set (msg0 := set_message m a b c d f g h) end.
  assert (((λ p : Z, (p, @None loc)) <$> couple_offsets IPFIX_HEADER_LENGTH cs).*1 = couple_offsets IPFIX_HEADER_LENGTH cs) as ->
    by (rewrite <-list_fmap_compose; apply list_fmap_id).
  pose proof (couple_records_octets tm _ cs Hcs IPFIX_HEADER_LENGTH) as Hn.
  assert (Z.of_nat (length (couple_records IPFIX_HEADER_LENGTH cs)) < 65536) as Hn' by (unfold IPFIX_HEADER_LENGTH in *; lia).
  destruct (process_couples_spec now profiles tm Htm {| odid := o; crc := e; tid := 0 |} info conf 0 cs
    (enc_header (IPFIX_HEADER_LENGTH + blen (enc_sets (cp_wire <$> cs))) t q o) tail (theap tm) 0 msg0 [] [])
    as (mx & msg1 & w & E & [Hc Ha Hr] & Hf).
  - done.
  - exact Hcs.
  - constructor; [done|by left|done].
  - exact Hn'.
  - rewrite blen_enc_header, app_assoc in E. fold (enc_message t q o (cp_wire <$> cs)) in E. fold mem in E.
    change 16 with IPFIX_HEADER_LENGTH in E. rewrite E. rewrite res_bind_ret.
    rewrite blen_enc_header in Hc, Ha, Hr. cbn [app] in Hc, Ha, Hr. unfold frame in Hf. injection Hf as ? ? ? ? ? ? Hdc.
    cbn [cs_msg cs_mem cs_heap fst snd]. rewrite Hdc. cbn [msg0 data_couple set_message set_sets].
    rewrite <-list_fmap_compose.
    change (fst ∘ (λ p : Z, (p, @None loc)) <$> couple_offsets IPFIX_HEADER_LENGTH cs)
      with (id <$> couple_offsets IPFIX_HEADER_LENGTH cs). rewrite list_fmap_id.
    eexists _, _. split; [reflexivity|].
    do 2 (split; [done|]). split; [exact Hc|]. split; [|done].
    destruct Ha as [[-> E0]|[Hp _]]; [|apply Hr; lia].
    change 16 with IPFIX_HEADER_LENGTH in E0. rewrite E0. done.
Qed.
End process.

(** ** Theory: template records *)

Lemma record_return_parsed type t tid scope fs : valid_type type → parsed_as t fs →
  record_return type t = blen (enc_record type tid scope fs).
Proof.
  intros Hty Ht. unfold record_return. rewrite (pa_length _ _ Ht), blen_enc_record.
  unfold record_header_size, sizeof_ipfix_template, sizeof_ipfix_template_record, sizeof_ipfix_options_template_record.
  destruct Hty as [-> | ->]; [rewrite !decide_True by done|rewrite !decide_False by done]; lia.
Qed.

(** All of a template but its times. *)
Definition but_times (t : ipfix_template) : ipfix_template := set_last t 0 0.

Section define.
Context (tm : template_mgr) (type tid scope : Z) (fs : list field_spec) (pre post : bytes) (max_len now : Z).
Context (key : ipfix_template_key).
Context (Htm : tm_wf tm) (Hty : valid_type type) (Hscope : is_u16 scope)
  (Hopt : type = TM_OPTIONS_TEMPLATE → scope ≠ 0) (Htid : is_u16 tid)
  (Hwf : Forall field_wf fs) (Hmax : fields_size fs ≤ max_len) (Hsz : fields_size fs < 65404).
Context (Hkey : TemplateManager.tid key = tid).
Let mem := pre ++ enc_record type tid scope fs ++ post.

Lemma define_create : tm_create_template mem (blen pre) max_len type now = Ok (Some (spec_template type tid scope fs now)).
Proof. unfold mem. rewrite tm_create_template_record by done. rewrite decide_False by tauto. done. Qed.

(** Adding the record or updating what is there, as the code does. *)
Lemma define_effect : rooms tm →
  (∀ l old, tm_get_template tm key = Ok (Some l) → theap tm !! l = Some old → ∃ fs0, parsed_as old fs0) →
  ∃ o tm' l t, tm_get_template tm key = Ok o ∧
    match o with
    | None => tm_add_template tm mem (blen pre) max_len type now key
    | Some _ => tm_update_template tm mem (blen pre) max_len type now key
    end = Ok (tm', Some l) ∧
    tm_wf tm' ∧ theap tm' !! l = Some t ∧ parsed_as t fs ∧
    (∀ k t0, theap tm !! k = Some t0 → references t0 > 0 → theap tm' !! k = Some t0) ∧
    ∀ key', tm_get_template tm' key' = if decide (same_template key' key) then Ok (Some l) else tm_get_template tm key'.
Proof.
  intros Hrooms Hold. pose proof (spec_template_parsed type tid scope fs now Hwf Hsz) as Hp.
  assert (u16 (TemplateManager.tid key) = original_id (spec_template type tid scope fs now)) as Hid
    by (rewrite Hkey; apply u16_small, Htid).
  destruct (tm_get_template_live tm key Htm) as ([l|] & Hget & Ho).
  - destruct Ho as (old & Hl & _). destruct (Hold l old Hget Hl) as [fs0 Hp0].
    destruct (tm_update_template_effect tm mem (blen pre) max_len type now key _ l old
      (if decide (fs = fs0) then 0 else 1) Htm define_create Hid Hget Hl) as (tm' & l' & Hupd & Hwf' & Hc & Hrefs & Hgets).
    { by apply tm_compare_templates_parsed. }
    exists (Some l), tm', l'. destruct (decide (fs = fs0)) as [<-|Hne].
    + rewrite decide_True in Hc by done. destruct Hc as [-> Hth]. exists old.
      do 3 (split; [done|]). split; [by rewrite Hth|]. by split_and!.
    + rewrite decide_False in Hc by done. destruct Hc as (_ & n & Ht). eexists.
      do 3 (split; [done|]). split; [exact Ht|]. split; [|by split_and!]. by destruct Hp.
  - destruct (tm_add_template_effect tm mem (blen pre) max_len type now key _ Htm Hrooms define_create Hid Hget)
      as (tm' & l & Hadd & Hwf' & Hth & Hl & Hgets).
    exists None, tm', l, (spec_template type tid scope fs now).
    do 3 (split; [done|]). split; [rewrite Hth; apply lookup_insert_eq|]. split; [done|]. split; [|done].
    intros k t0 Hk _. rewrite Hth, lookup_insert_ne; [done|]. intros ->. congruence.
Qed.
End define.

(** ** Properties *)

Section messages.
Context {Q : Type} `{MessageQueue Q ipfix_message}.
Context (inet_ntop : Z → bytes → bytes) (now : Z) (profiles : option loc).

Lemma write_message_room (st : preprocessor_state) msg :
  mq_inv (preprocessor_out_queue st) → mq_room (preprocessor_out_queue st) →
  ∃ st', write_message st msg = Ok (Return st') ∧
    template_manager st' = template_manager st ∧ sources st' = sources st ∧ inputs st' = inputs st ∧
    mq_inv (preprocessor_out_queue st') ∧
    mq_messages (preprocessor_out_queue st') = mq_messages (preprocessor_out_queue st) ++ [Some msg].
Proof.
  intros Hi Hr. unfold write_message. destruct (mq_write_room _ (Some msg) Hi Hr) as (q' & -> & Hi' & Hm).
  rewrite res_bind_ret. eexists. by do 5 (split; [done|]).
Qed.

(** C10: a message of data sets whose templates are known is passed on complete:
    the queue gets one message, of the octets of the packet with the sequence
    number of the domain in its header, each data set coupled with its template
    and every data record listed with its address, length and template; the
    templates count one reference more for each set, the counters of the source
    and of its domain advance by the number of records and those of all other
    domains stay. *)
Theorem preprocessor_parse_msg_data (st : preprocessor_state) il info e t q o cs tail len :
  inputs st !! il = Some info → preprocessor_compute_crc inet_ntop info = Ok e →
  tm_wf (template_manager st) → sources_wf (sources st) →
  mq_inv (preprocessor_out_queue st) → mq_room (preprocessor_out_queue st) →
  Forall (couple_ok (template_manager st) {| odid := o; crc := e; tid := 0 |}) cs →
  Z.of_nat (length cs) ≤ MSG_MAX_DATA_COUPLES → is_u32 q → is_u32 o →
  16 + blen (enc_sets (cp_wire <$> cs)) < 65536 → 16 + blen (enc_sets (cp_wire <$> cs)) ≤ len < 65536 →
  let records := couple_records IPFIX_HEADER_LENGTH cs in
  let '(seqn, source_seqn, new_seqn) :=
    sequence_numbers (sequence_of (sources st) e o) (ii_sequence_number info) q (Z.of_nat (length records)) in
  ∃ st' msg,
    preprocessor_parse_msg inet_ntop now profiles st (Some (enc_message t q o (cp_wire <$> cs) ++ tail)) len
      (Some il) SOURCE_STATUS_OPENED = Ok (Return st') ∧
    mq_messages (preprocessor_out_queue st') = mq_messages (preprocessor_out_queue st) ++ [Some msg] ∧
    pkt_header msg = Some (enc_message t new_seqn o (cp_wire <$> cs) ++ tail) ∧
    data_couple msg = zip (couple_offsets IPFIX_HEADER_LENGTH cs) ((λ c, Some (cp_template c)) <$> cs) ∧
    data_records_count msg = Z.of_nat (length records) ∧
    md_record <$> take (length records) (msg_metadata msg) = records ∧
    template_manager st' = with_heap (template_manager st)
      (add_references (theap (template_manager st)) (cp_template <$> cs)) ∧
    (∀ e' o', sequence_of (sources st') e' o' =
       if decide ((e', o') = (e, o)) then seqn else sequence_of (sources st) e' o') ∧
    inputs st' = <[il := set_input info source_seqn (u64 (ii_packets info + 1))
                           (u64 (ii_data_records info + Z.of_nat (length records)))]> (inputs st).
Proof.
  intros Hil Hcrc Htm Hds Hq Hroom Hcs Hn Hqu Hou Hl1 Hl2 records.
  destruct (sequence_numbers _ _ q (Z.of_nat (length records))) as [[seqn source_seqn] new_seqn] eqn:Eseq.
  destruct (couple_sids _ _ cs Hcs) as [Hsid Hids]. destruct (couple_sets cs Hsid) as (E1 & E2 & E3 & Hfit).
  unfold preprocessor_parse_msg, deref. rewrite Hil. cbn [or_fault]. rewrite res_bind_ret, Hcrc, res_bind_ret.
  rewrite decide_False by done.
  rewrite (message_create_from_mem_enc t q o (cp_wire <$> cs) tail len (Some il) SOURCE_STATUS_OPENED Hids Hou Hl1 Hl2).
  rewrite decide_True by auto. rewrite res_bind_ret, E1, E2, E3.
  destruct (rd_header t q o (IPFIX_HEADER_LENGTH + blen (enc_sets (cp_wire <$> cs))) (enc_sets (cp_wire <$> cs) ++ tail))
    as (_ & _ & Hodid); [|done|].
  { pose proof (blen_nonneg (enc_sets (cp_wire <$> cs))). unfold is_u16, IPFIX_HEADER_LENGTH in *. lia. }
  rewrite app_assoc in Hodid. fold (enc_message t q o (cp_wire <$> cs)) in Hodid.
  rewrite Hodid, res_bind_ret. rewrite decide_False by done. rewrite res_bind_ret.
  destruct (process_templates_data inet_ntop now profiles (template_manager st) info e t q o cs tail (Some il)
    SOURCE_STATUS_OPENED Hcrc Htm Hou Hcs Hl1) as (msg & w & -> & Hpkt & Hdc & Hrc & Hmd & _).
  rewrite res_bind_ret. cbv beta iota.
  destruct (data_source_info_get_or_add_spec (sources st) e o Hds) as (ds & l & s & E & Hds' & Hs & Hget & Eq0 & Hsame).
  unfold data_source_info_get_sequence_number. rewrite E, res_bind_ret, Hs. cbn [or_fault].
  rewrite res_bind_ret, Hpkt. cbn [or_fault]. rewrite res_bind_ret.
  destruct (enc_message_sequence t q o (cp_wire <$> cs) tail Hqu) as [-> Hwr]. rewrite res_bind_ret.
  rewrite Hrc, Eq0. fold records. rewrite Eseq, Hwr, res_bind_ret.
  match goal with |- context [write_message ?a ?b] =>
    destruct (write_message_room a b Hq Hroom) as (st' & Ew & Et & Es & Ei & _ & Em) end.
  exists st'. eexists. split; [exact Ew|]. split; [exact Em|]. do 4 (split; [done|]). split; [by rewrite Et|].
  split; [|by rewrite Ei]. intros e' o'. rewrite Es. cbn [sources].
  destruct (set_sequence_spec ds e o l s seqn Hds' Hget Hs) as [_ ->]. by rewrite Hsame.
Qed.
End messages.

(** C11: a template record with an identifier of at least 256 is learned, in a
    template set or an options template set, whether its key is new or known: from
    then on its key is found with the definition of the record, other look-ups are
    as before, templates that messages refer to keep everything but their times,
    and the caller goes on right behind the record.  Over UDP the time of the
    template is the time of the packet. *)
Theorem preprocessor_process_one_template_learns now tm info key msg_counter type tid scope fs pre post max_len :
  valid_type type → IPFIX_MIN_RECORD_FLOWSET_ID ≤ tid < 65536 → is_u16 scope →
  (type = TM_OPTIONS_TEMPLATE → scope ≠ 0) → Forall field_wf fs → fs ≠ [] →
  fields_size fs ≤ max_len → fields_size fs < 65404 → tm_wf tm → rooms tm →
  let key' := tm_key_change_template_id key tid in
  (∀ l old, tm_get_template tm key' = Ok (Some l) → theap tm !! l = Some old → ∃ fs0, parsed_as old fs0) →
  ∃ tm' l t,
    preprocessor_process_one_template now tm (pre ++ enc_record type tid scope fs ++ post) (blen pre) max_len type
      msg_counter info key = Ok (tm', key', blen (enc_record type tid scope fs)) ∧
    tm_wf tm' ∧ theap tm' !! l = Some t ∧ parsed_as t fs ∧
    (ii_type info = SOURCE_TYPE_UDP → last_transmission t = Some now) ∧
    (∀ k t0, theap tm !! k = Some t0 → references t0 > 0 → but_times <$> theap tm' !! k = Some (but_times t0)) ∧
    ∀ key2, tm_get_template tm' key2 =
            if decide (same_template key2 key') then Ok (Some l) else tm_get_template tm key2.
Proof.
  intros Hty Htid Hscope Hopt Hwf Hne Hmax Hsz Htm Hrooms key' Hold. unfold IPFIX_MIN_RECORD_FLOWSET_ID in Htid.
  pose proof (fields_size_length fs) as Hfl. assert (0 < Z.of_nat (length fs)) by (destruct fs; [done|cbn; lia]).
  assert (is_u16 tid) as Htid' by (unfold is_u16; lia).
  destruct (define_effect tm type tid scope fs pre post max_len now key' Htm Hty Hscope Hopt Htid' Hwf Hmax Hsz
    eq_refl Hrooms Hold) as (o & tm' & l & t & Hget & Hdef & Hwf' & Ht & Hp & Hrefs & Hgets).
  unfold preprocessor_process_one_template. rewrite rd_record_id, rd_record_count, !res_bind_ret by (done || lia).
  fold key'. do 3 (rewrite decide_False by lia). rewrite Hget, res_bind_ret.
  rewrite (decide_False (P := tid < 256)) by lia.
  assert ((match o with
    | Some _ => tm_update_template tm (pre ++ enc_record type tid scope fs ++ post) (blen pre) max_len type now key'
    | None => tm_add_template tm (pre ++ enc_record type tid scope fs ++ post) (blen pre) max_len type now key'
    end) = Ok (tm', Some l)) as -> by (by destruct o).
  rewrite res_bind_ret. cbv beta iota. unfold deref. rewrite Ht. cbn [or_fault]. rewrite res_bind_ret.
  rewrite (record_return_parsed type t tid scope fs Hty Hp).
  destruct (decide (ii_type info = SOURCE_TYPE_UDP)) as [Hudp|Hudp].
  - assert (same_shape (theap tm') (<[l := set_last t now msg_counter]> (theap tm'))) as Hs
      by by apply (same_shape_insert _ l t).
    eexists _, l, _. split; [done|]. split; [by apply tm_wf_shape|]. cbn [theap with_heap].
    split; [apply lookup_insert_eq|]. split; [by destruct Hp|]. split; [done|]. split.
    + intros k t0 Hk Hr. specialize (Hrefs k t0 Hk Hr). destruct (decide (l = k)) as [<-|].
      * rewrite lookup_insert_eq. cbn. f_equal. rewrite Ht in Hrefs. by injection Hrefs as ->.
      * by rewrite lookup_insert_ne, Hrefs.
    + intros key2. by rewrite tm_get_template_shape.
  - exists tm', l, t. split; [done|]. do 3 (split; [done|]). split; [done|]. split; [|done].
    intros k t0 Hk Hr. by rewrite (Hrefs k t0 Hk Hr).
Qed.

(** C13: a record without fields is a withdrawal.  It is ignored over UDP and for
    the identifiers of template sets, which stand for all templates; otherwise the
    template is found no more and all others are, and nothing changes when it was
    unknown.  The caller goes on four octets behind it. *)
Theorem preprocessor_process_one_template_withdraws now tm info key msg_counter type tid pre post max_len :
  is_u16 tid → tm_wf tm →
  let key' := tm_key_change_template_id key tid in
  ∃ tm',
    preprocessor_process_one_template now tm (pre ++ (enc16 tid ++ enc16 0) ++ post) (blen pre) max_len type
      msg_counter info key = Ok (tm', key', 4) ∧ tm_wf tm' ∧
    if decide (ii_type info = SOURCE_TYPE_UDP ∨ tid = IPFIX_TEMPLATE_FLOWSET_ID ∨ tid = IPFIX_OPTION_FLOWSET_ID ∨
               tm_get_template tm key' = Ok None)
    then tm' = tm
    else ∀ key2, tm_get_template tm' key2 =
                 if decide (same_template key2 key') then Ok None else tm_get_template tm key2.
Proof.
  intros Htid Htm key'. unfold preprocessor_process_one_template.
  assert (rd16 (pre ++ (enc16 tid ++ enc16 0) ++ post) (blen pre) = Ok tid) as ->
    by (rewrite <-app_assoc; by apply rd16_here).
  assert (rd16 (pre ++ (enc16 tid ++ enc16 0) ++ post) (blen pre + 2) = Ok 0) as ->.
  { replace (blen pre + 2) with (blen (pre ++ enc16 tid)) by (rewrite blen_app; done).
    rewrite <-app_assoc, app_assoc. by apply rd16_here. }
  rewrite !res_bind_ret. fold key'.
  destruct (decide (ii_type info = SOURCE_TYPE_UDP ∧ 0 = 0)) as [ [Hudp _]|Hudp].
  { exists tm. rewrite decide_True by auto. done. }
  destruct (decide ((tid = IPFIX_TEMPLATE_FLOWSET_ID ∨ tid = IPFIX_OPTION_FLOWSET_ID) ∧ 0 = 0)) as [ [Hall _]|Hall].
  { exists tm. rewrite decide_True by tauto. done. }
  rewrite decide_True by done. destruct (tm_get_template_live tm key' Htm) as ([l|] & Hget & _).
  - destruct (tm_remove_template_effect tm key' l Htm Hget) as (tm' & -> & Hwf' & _ & Hgets).
    rewrite res_bind_ret. exists tm'. split; [done|]. split; [done|].
    rewrite decide_False; [done|]. rewrite Hget. naive_solver.
  - rewrite (tm_remove_template_unknown tm key' Htm Hget), res_bind_ret. exists tm.
    rewrite (decide_True (P := _ ∨ _)) by auto. done.
Qed.






(** ** The properties at concrete inputs *)

(** A file as input, with a known template and a data set of two records. *)
Definition input_info_example : input_info :=
  {| ii_type := SOURCE_TYPE_IPFIX_FILE; ii_sequence_number := 0; ii_odid := 0; ii_packets := 0;
     ii_data_records := 0; ii_details := input_info_file [102; 108; 111; 119] |}.
Definition exporter_example : Z := u32 (crc32 [102; 108; 111; 119]).
Definition domain_example : ipfix_template_key := {| odid := 42; crc := exporter_example; tid := 258 |}.

Definition manager_example : template_mgr :=
  match tm_add_template tm_create packet_example 0 16 TM_TEMPLATE 1000 domain_example with
  | Ok (tm, _) => tm
  | _ => tm_create
  end.

Lemma manager_example_wf : tm_wf manager_example.
Proof.
  apply (tm_add_template_wf tm_create packet_example 0 16 TM_TEMPLATE 1000 domain_example manager_example (Some 1%positive));
    [apply tm_create_wf|apply rooms_create|by vm_compute..].
Qed.

Lemma manager_example_rooms : rooms manager_example.
Proof.
  unfold rooms. apply (bool_decide_unpack _). by vm_compute.
Qed.

Definition queue_example : ring_buffer ipfix_message :=
  {| read_offset := 0; write_offset := 0; size := 4; count := 0;
     data := replicate 4 None; data_references := replicate 4 0 |}.

Lemma queue_example_wf : rb_wf queue_example.
Proof. by apply (rb_wf_init None 4 queue_example). Qed.

Definition state_example : preprocessor_state (Q := ring_buffer ipfix_message) :=
  {| template_manager := manager_example;
     sources := {| source_heap := ∅; data_source_info := None |};
     inputs := {[ 7%positive := input_info_example ]};
     preprocessor_out_queue := queue_example |}.

Definition coupled_example : coupled :=
  {| cp_sid := 258; cp_template := 1%positive; cp_def := template_example; cp_fields := fields_example;
     cp_records := records_example; cp_padding := [0; 0] |}.

Lemma coupled_example_ok : couple_ok manager_example {| odid := 42; crc := exporter_example; tid := 0 |} coupled_example.
Proof.
  constructor; [by split|by vm_compute|by vm_compute|done|exact records_example_of].
Qed.

Lemma preprocessor_parse_msg_data_witness :
  ∃ st' msg,
    preprocessor_parse_msg (λ _ _, []) 2000 None state_example
      (Some (enc_message 1000 5 42 (cp_wire <$> [coupled_example]) ++ [])) 100 (Some 7%positive) SOURCE_STATUS_OPENED
    = Ok (Return st') ∧
    mq_messages (preprocessor_out_queue st') = [Some msg] ∧
    pkt_header msg = Some (enc_message 1000 5 42 (cp_wire <$> [coupled_example]) ++ []) ∧
    data_couple msg = [(16, Some 1%positive)] ∧ data_records_count msg = 2 ∧
    sequence_of (sources st') exporter_example 42 = 7.
Proof.
  destruct (preprocessor_parse_msg_data (λ _ _, []) 2000 None state_example 7%positive input_info_example
    exporter_example 1000 5 42 [coupled_example] [] 100)
    as (st' & msg & E & Em & Ep & Ed & Er & _ & _ & Es & _);
    [done|done|exact manager_example_wf|by exists []|exact queue_example_wf|done
    |by apply Forall_singleton, coupled_example_ok|done|done|done|by vm_compute|by split; vm_compute|].
  exists st', msg. split; [exact E|]. split; [exact Em|]. split; [exact Ep|]. split; [exact Ed|].
  split; [exact Er|]. rewrite Es. by vm_compute.
Defined.

Lemma preprocessor_process_one_template_learns_witness :
  ∃ tm' l t,
    preprocessor_process_one_template 2000 manager_example ([2; 3] ++ enc_record TM_TEMPLATE 258 0 fixed_fields_example ++ [])
      2 16 TM_TEMPLATE 0 input_info_example domain_example
    = Ok (tm', tm_key_change_template_id domain_example 258, 8) ∧
    theap tm' !! l = Some t ∧ fields t = fields_rows fixed_fields_example ∧
    tm_get_template tm' domain_example = Ok (Some l).
Proof.
  destruct (preprocessor_process_one_template_learns 2000 manager_example input_info_example domain_example 0
    TM_TEMPLATE 258 0 fixed_fields_example [2; 3] [] 16) as (tm' & l & t & E & _ & Ht & Hp & _ & _ & Hg);
    [by left|by split|by split|done|by repeat constructor|done|by vm_compute|by vm_compute
    |exact manager_example_wf|exact manager_example_rooms| |].
  - intros l old Hl Hold. exists fields_example.
    assert (l = 1%positive) as -> by (vm_compute in Hl; congruence).
    vm_compute in Hold. injection Hold as <-. apply (spec_template_parsed TM_TEMPLATE 258 0 fields_example 1000);
      [exact fields_example_wf|by vm_compute].
  - exists tm', l, t. split; [exact E|]. split; [exact Ht|]. split; [apply Hp|]. rewrite Hg.
    by rewrite decide_True.
Defined.

Lemma preprocessor_process_one_template_withdraws_witness :
  ∃ tm', preprocessor_process_one_template 2000 manager_example ([] ++ (enc16 258 ++ enc16 0) ++ []) 0 4 TM_TEMPLATE 0
      input_info_example domain_example = Ok (tm', domain_example, 4) ∧
    tm_get_template tm' domain_example = Ok None.
Proof.
  destruct (preprocessor_process_one_template_withdraws 2000 manager_example input_info_example domain_example 0
    TM_TEMPLATE 258 [] [] 4) as (tm' & E & _ & Hg); [by split|exact manager_example_wf|].
  exists tm'. split; [exact E|]. rewrite decide_False in Hg by (by vm_compute; intuition).
  rewrite Hg. by rewrite decide_True.
Defined.

