(* ===== verification/Forwarding.v ===== *)
(** * Forwarding of messages (src/base/src/storage/forwarding/forwarding.c)

    The storage plugin that sends the flows of all sources on to other collectors.
    [fwd_parse_msg] walks over the sets of a message: templates are registered with the
    template mapper, which gives all sources of an Observation Domain one space of
    identifiers, and go out when they are new there; data sets go out under the
    identifier their template is mapped to; templates that no source uses any more are
    withdrawn at the end.  Everything goes to the builder of complete packets, templates
    and withdrawals to a second one, from which destinations that connect later are
    brought up to date.

    Connecting and sending (destination.c, sender.c) are not modelled. *)

From S2P Require Import Prelude CLib TemplateRecord DataRecord Message PacketBuilder TemplateManager TemplateMapper Preprocessor.

(** ** State *)

(** The members of [struct plugin_config] that messages change. *)
Record plugin_config := {
  tmplt_mgr : mapper_state;
  builder_all : fwd_bldr;
  builder_tmplt : fwd_bldr;
  packet_size : Z
}.

Definition set_tmplt_mgr (cfg : plugin_config) (st : mapper_state) : plugin_config :=
  {| tmplt_mgr := st; builder_all := builder_all cfg; builder_tmplt := builder_tmplt cfg;
     packet_size := packet_size cfg |}.
Definition set_builder_all (cfg : plugin_config) (b : fwd_bldr) : plugin_config :=
  {| tmplt_mgr := tmplt_mgr cfg; builder_all := b; builder_tmplt := builder_tmplt cfg;
     packet_size := packet_size cfg |}.
Definition set_builders (cfg : plugin_config) (b t : fwd_bldr) : plugin_config :=
  {| tmplt_mgr := tmplt_mgr cfg; builder_all := b; builder_tmplt := t; packet_size := packet_size cfg |}.

Section forwarding.
(** The templates and the [input_info] objects that the message refers to. *)
Context (theap : template_heap) (inputs : gmap loc input_info) (msg : ipfix_message).

(** ** Data sets *)

(** The address of a set is its offset in the packet [mem]. *)
Definition fwd_rec_cnt (mem : bytes) (header : Z) : res Z :=
  match list_find (λ c : Z * option loc, c.1 = header) (take (Z.to_nat MSG_MAX_DATA_COUPLES) (data_couple msg)) with
  | Some (_, (data_set, Some tmplt)) => t ← deref theap tmplt; data_set_records_count mem data_set t
  | _ => Ok (-1)
  end.

(** [msg->input_info->odid], read in warnings and by the mapper. *)
Definition source_of : res (loc * Z) :=
  src ← or_fault NullDeref (Message.input_info msg);
  info ← deref inputs src; Ok (src, ii_odid info).

Definition fwd_process_data_set (cfg : plugin_config) (mem : bytes) (header : Z) : res (Z * plugin_config) :=
  flowset_id ← rd16 mem header;
  if decide (flowset_id < IPFIX_MIN_RECORD_FLOWSET_ID) then Ok (0, cfg) else
  rec_cnt ← fwd_rec_cnt mem header;
  source ← source_of;
  if decide (rec_cnt = 0) then Ok (0, cfg) else
  if decide (rec_cnt = -1) then Ok (0, cfg) else
  let new_id := tmapper_remap_data_set (tmplt_mgr cfg).2 source.1 flowset_id in
  if decide (new_id = 0) then Ok (0, cfg) else
  x ← bldr_add_dataset (builder_all cfg) (drop (Z.to_nat header) mem) new_id rec_cnt;
  let '(ret, b) := x in
  Ok (if decide (ret ≠ 0) then 1 else 0, set_builder_all cfg b).

(** ** Template sets *)

(** [struct template_ctx] without its constant members. *)
Record template_ctx := { ctx_cfg : plugin_config; ctx_fail : bool }.

(** The callback on a record at the address [rec]; [new_id] is the content of the local
    variable before the mapper sets it. *)
Definition fwd_process_template_func (mem : bytes) (type new_id : Z) (rec rec_len : Z) (ctx : template_ctx) :
    res template_ctx :=
  if ctx_fail ctx then Ok ctx else
  let cfg := ctx_cfg ctx in
  source ← source_of;
  let data := drop (Z.to_nat rec) mem in
  x ← tmapper_process_template (tmplt_mgr cfg).1 (tmplt_mgr cfg).2 source.1 source.2 data type rec_len new_id;
  let '(h, mgr, action, new_id) := x in
  let cfg := set_tmplt_mgr cfg (h, mgr) in
  match action with
  | TMAPPER_ACT_DROP | TMAPPER_ACT_INVALID => Ok {| ctx_cfg := cfg; ctx_fail := false |}
  | TMAPPER_ACT_PASS =>
      x ← bldr_add_template (builder_all cfg) data rec_len new_id type;
      y ← bldr_add_template (builder_tmplt cfg) data rec_len new_id type;
      Ok {| ctx_cfg := set_builders cfg x.2 y.2; ctx_fail := bool_decide (x.1 ≠ 0 ∨ y.1 ≠ 0) |}
  end.

Definition fwd_process_template_set (cfg : plugin_config) (mem : bytes) (header : Z) : res (Z * plugin_config) :=
  flowset_id ← rd16 mem header;
  let process type :=
    x ← template_set_process_records mem header type (fwd_process_template_func mem type 0)
          {| ctx_cfg := cfg; ctx_fail := false |};
    Ok (if ctx_fail x.2 then 1 else 0, ctx_cfg x.2) in
  if decide (flowset_id = IPFIX_TEMPLATE_FLOWSET_ID) then process TM_TEMPLATE
  else if decide (flowset_id = IPFIX_OPTION_FLOWSET_ID) then process TM_OPTIONS_TEMPLATE
  else Ok (1, cfg).

(** ** Withdrawals *)

Fixpoint add_withdrawals (ids : list Z) (type : Z) (cfg : plugin_config) : res (Z * plugin_config) :=
  match ids with
  | [] => Ok (0, cfg)
  | id :: ids =>
      x ← bldr_add_template_withdrawal (builder_all cfg) id type;
      y ← bldr_add_template_withdrawal (builder_tmplt cfg) id type;
      let cfg := set_builders cfg x.2 y.2 in
      if decide (x.1 ≠ 0 ∨ y.1 ≠ 0) then Ok (1, cfg) else add_withdrawals ids type cfg
  end.

Definition fwd_process_withdrawals (cfg : plugin_config) (odid type : Z) : res (Z * plugin_config) :=
  x ← tmapper_withdraw_ids (tmplt_mgr cfg).1 (tmplt_mgr cfg).2 odid type;
  let '(h, mgr, ids) := x in
  let cfg := set_tmplt_mgr cfg (h, mgr) in
  match ids with
  | None => Ok (1, cfg)
  | Some (ids_data, ids_cnt) => add_withdrawals (take (Z.to_nat ids_cnt) ids_data) type cfg
  end.

(** ** Messages *)

(** The loop over the sets, on the offset, the configuration and [any_templates]; the
    result is that of an early return or the variables behind the loop. *)
Definition fwd_sets_step (mem : bytes) (pkt_len : Z) (s : Z * plugin_config * bool) :
    res ((Z * plugin_config * bool) + ((Z * plugin_config) + (plugin_config * bool))) :=
  let '(pos, cfg, any_templates) := s in
  if decide (pos < pkt_len) then
    set_len ← rd16 mem (pos + 2);
    if decide (pos + set_len > pkt_len) then Ok (inr (inl (1, cfg))) else
    flowset_id ← rd16 mem pos;
    let is_template := bool_decide (flowset_id = IPFIX_TEMPLATE_FLOWSET_ID ∨ flowset_id = IPFIX_OPTION_FLOWSET_ID) in
    x ← (if is_template then fwd_process_template_set cfg mem pos else fwd_process_data_set cfg mem pos);
    let '(ret, cfg) := x in
    let any_templates := is_template || any_templates in
    if decide (ret ≠ 0) then Ok (inr (inl (1, cfg))) else
    if decide (set_len = 0) then Ok (inr (inr (cfg, any_templates)))
    else Ok (inl (pos + set_len, cfg, any_templates))
  else Ok (inr (inr (cfg, any_templates))).

(** The two calls of [fwd_process_withdrawals] for the kinds of templates. *)
Definition fwd_process_all_withdrawals (cfg : plugin_config) (odid : Z) : res (Z * plugin_config) :=
  x ← fwd_process_withdrawals cfg odid TM_TEMPLATE;
  let '(ret, cfg) := x in
  if decide (ret ≠ 0) then Ok (1, cfg) else
  x ← fwd_process_withdrawals cfg odid TM_OPTIONS_TEMPLATE;
  let '(ret, cfg) := x in
  Ok (if decide (ret ≠ 0) then 1 else 0, cfg).

(** The packets of both builders. *)
Definition fwd_end (cfg : plugin_config) : res (Z * plugin_config) :=
  x ← bldr_end (builder_all cfg) (packet_size cfg);
  let '(ret, b) := x in
  let cfg := set_builder_all cfg b in
  if decide (ret ≠ 0) then Ok (1, cfg) else
  x ← bldr_end (builder_tmplt cfg) (packet_size cfg);
  let '(ret, t) := x in
  Ok (if decide (ret ≠ 0) then 1 else 0, set_builders cfg (builder_all cfg) t).

Definition fwd_parse_msg (cfg : plugin_config) : res (Z * plugin_config) :=
  match pkt_header msg with
  | None => Ok (1, cfg)
  | Some mem =>
      pkt_odid ← rd32 mem 12;
      pkt_exp_time ← rd32 mem 4;
      let cfg := set_builders cfg (bldr_start (builder_all cfg) pkt_odid pkt_exp_time)
                   (bldr_start (builder_tmplt cfg) pkt_odid pkt_exp_time) in
      pkt_len ← rd16 mem 2;
      x ← loop (fwd_sets_step mem pkt_len) (S (Z.to_nat pkt_len)) (IPFIX_HEADER_LENGTH, cfg, false);
      match x with
      | inl r => Ok r
      | inr (cfg, any_templates) =>
          x ← (if any_templates : bool then fwd_process_all_withdrawals cfg pkt_odid else Ok (0, cfg));
          let '(ret, cfg) := x in
          if decide (ret ≠ 0) then Ok (1, cfg) else fwd_end cfg
      end
  end.
End forwarding.

(** ** Specification *)

(** The sets of a message: definitions of templates, withdrawals of templates (not of
    options templates, whose withdrawals are measured wrongly), and data sets with the
    number that [fwd_rec_cnt] gives for them. *)
Inductive in_set :=
  | InTemplates (type : Z) (rs : list trecord) (padding : bytes)
  | InWithdrawals (ids : list Z)
  | InData (sid : Z) (body : bytes) (recs : Z).

Definition in_wire (s : in_set) : wire_set :=
  match s with
  | InTemplates type rs padding => (type + 2, enc_trecords type rs ++ padding)
  | InWithdrawals ids => (2, enc_withdrawals ids)
  | InData sid body _ => (sid, body)
  end.
Definition is_templates (s : in_set) : bool := match s with InData _ _ _ => false | _ => true end.

(** A record is its identifier and what follows it. *)
Definition enc_rec (r : Z * bytes) : bytes := enc16 r.1 ++ r.2.
Definition of_trecord (type : Z) (r : trecord) : Z * bytes := (tr_id r, drop 2 (enc_trecord type r)).
Definition of_withdrawal (id : Z) : Z * bytes := (id, enc16 0).

(** What a message makes of the mapper and adds to the packets; [rest] is what follows
    in memory. *)
Section spec.
Context (src : loc) (odid : Z).

Definition spec_one_template (type : Z) (r : Z * bytes) (rest : bytes) (st : mapper_state) :
    res (mapper_state * list bldr_op) :=
  x ← tmapper_process_template st.1 st.2 src odid (enc_rec r ++ rest) type (blen (enc_rec r)) 0;
  let '(h, mgr, action, new_id) := x in
  Ok ((h, mgr), if decide (action = TMAPPER_ACT_PASS) then [AddTemplate r.1 r.2 rest new_id type] else []).

Fixpoint spec_templates (type : Z) (rs : list (Z * bytes)) (rest : bytes) (st : mapper_state) :
    res (mapper_state * list bldr_op) :=
  match rs with
  | [] => Ok (st, [])
  | r :: rs => x ← spec_one_template type r (mjoin (enc_rec <$> rs) ++ rest) st;
               y ← spec_templates type rs rest x.1; Ok (y.1, x.2 ++ y.2)
  end.

Definition spec_data (sid : Z) (body : bytes) (recs : Z) (rest : bytes) (st : mapper_state) : list bldr_op :=
  let new_id := tmapper_remap_data_set st.2 src sid in
  if decide (sid < IPFIX_MIN_RECORD_FLOWSET_ID ∨ recs ≤ 0 ∨ new_id = 0) then []
  else [AddDataset sid body rest new_id recs].

Definition spec_set (s : in_set) (rest : bytes) (st : mapper_state) : res (mapper_state * list bldr_op) :=
  match s with
  | InTemplates type rs padding => spec_templates type (of_trecord type <$> rs) (padding ++ rest) st
  | InWithdrawals ids => spec_templates TM_TEMPLATE (of_withdrawal <$> ids) rest st
  | InData sid body recs => Ok (st, spec_data sid body recs rest st)
  end.

Fixpoint spec_sets (ss : list in_set) (rest : bytes) (st : mapper_state) : res (mapper_state * list bldr_op) :=
  match ss with
  | [] => Ok (st, [])
  | s :: ss => x ← spec_set s (enc_sets (in_wire <$> ss) ++ rest) st;
               y ← spec_sets ss rest x.1; Ok (y.1, x.2 ++ y.2)
  end.
End spec.

Definition is_template_op (op : bldr_op) : bool := match op with AddDataset _ _ _ _ _ => false | _ => true end.
Definition template_ops (ops : list bldr_op) : list bldr_op := filter (λ op, is_template_op op = true) ops.

(** ** The handlers follow the specification *)

Lemma run_ops_app o1 o2 b b' : run_ops b (o1 ++ o2) = Ok (0, b') ↔
  ∃ b1, run_ops b o1 = Ok (0, b1) ∧ run_ops b1 o2 = Ok (0, b').
Proof.
  revert b. induction o1 as [|op o1 IH]; intros b; cbn [app run_ops].
  - split; [intros E; by exists b|by intros (b1 & [= <-] & E)].
  - destruct (run_op b op) as [ [ret b2]| |]; [|by split; [|intros (? & ? & _)]..].
    rewrite !res_bind_ret. case_decide as E; [|by rewrite IH].
    split; [intros [= -> <-]; done|intros (b1 & [= -> <-] & _); done].
Qed.

Lemma run_op_one b op b' : run_ops b [op] = Ok (0, b') → run_op b op = Ok (0, b').
Proof.
  cbn [run_ops]. destruct (run_op b op) as [ [ret b1]| |]; [|done..]. rewrite res_bind_ret.
  case_decide as E; [by intros [= -> <-]|]. intros [= <-]. do 2 f_equal. lia.
Qed.

Lemma template_ops_app o1 o2 : template_ops (o1 ++ o2) = template_ops o1 ++ template_ops o2.
Proof. apply filter_app. Qed.

Lemma of_trecord_enc type r : enc_rec (of_trecord type r) = enc_trecord type r.
Proof.
  unfold enc_rec, of_trecord, enc_trecord, enc_record, enc_template, enc_options_template. cbn [fst snd]. by case_decide.
Qed.

Lemma enc_of_trecords type (rs : list trecord) : enc_rec <$> (of_trecord type <$> rs) = enc_trecord type <$> rs.
Proof. rewrite <-list_fmap_compose. apply list_fmap_ext. intros _ r _. apply of_trecord_enc. Qed.

Lemma enc_of_withdrawals (ids : list Z) : enc_rec <$> (of_withdrawal <$> ids) = enc_withdrawal <$> ids.
Proof. rewrite <-list_fmap_compose. by apply list_fmap_ext. Qed.

Lemma mem_drop pre x : drop (Z.to_nat (blen pre)) (pre ++ x) = x.
Proof. apply drop_app_length'. unfold blen. lia. Qed.

Section handlers.
Context (theap : template_heap) (inputs : gmap loc input_info) (msg : ipfix_message).
Context (src : loc) (odid : Z) (Hsrc : source_of inputs msg = Ok (src, odid)).
Context (size : Z).

Definition cfg_of (st : mapper_state) (b t : fwd_bldr) : plugin_config :=
  {| tmplt_mgr := st; builder_all := b; builder_tmplt := t; packet_size := size |}.

(** The operations of [ops] are carried out on both builders. *)
Definition built (b t : fwd_bldr) (ops : list bldr_op) (b' t' : fwd_bldr) : Prop :=
  run_ops b ops = Ok (0, b') ∧ run_ops t (template_ops ops) = Ok (0, t').

Lemma built_app b t o1 o2 b' t' : built b t (o1 ++ o2) b' t' ↔
  ∃ b1 t1, built b t o1 b1 t1 ∧ built b1 t1 o2 b' t'.
Proof.
  unfold built. rewrite template_ops_app, !run_ops_app. naive_solver.
Qed.

Lemma process_template_func_spec type r pre rest st b t st' ops b' t' :
  spec_one_template src odid type r rest st = Ok (st', ops) → built b t ops b' t' →
  fwd_process_template_func inputs msg (pre ++ enc_rec r ++ rest) type 0 (blen pre) (blen (enc_rec r))
    {| ctx_cfg := cfg_of st b t; ctx_fail := false |} = Ok {| ctx_cfg := cfg_of st' b' t'; ctx_fail := false |}.
Proof.
  unfold spec_one_template, fwd_process_template_func. cbn [ctx_fail ctx_cfg tmplt_mgr cfg_of].
  rewrite Hsrc, res_bind_ret, mem_drop. cbn [fst snd].
  destruct (tmapper_process_template _ _ _ _ _ _ _ _) as [ [ [ [h mgr] a] n]| |]; [|done..].
  rewrite !res_bind_ret. intros [= <- <-] [Hb Ht].
  destruct a; try (rewrite decide_False in Hb, Ht by done; injection Hb as <-; injection Ht as <-; done).
  rewrite decide_True in Hb, Ht by done.
  change (template_ops [AddTemplate r.1 r.2 rest n type]) with [AddTemplate r.1 r.2 rest n type] in Ht.
  apply run_op_one in Hb, Ht. cbn [run_op] in Hb, Ht. cbn [builder_all builder_tmplt set_tmplt_mgr cfg_of].
  replace (enc_rec r ++ rest) with (enc16 r.1 ++ r.2 ++ rest) by (unfold enc_rec; by rewrite <-app_assoc).
  replace (blen (enc_rec r)) with (2 + blen r.2) by (unfold enc_rec; by rewrite blen_app).
  by rewrite Hb, res_bind_ret, Ht, res_bind_ret.
Qed.

Lemma process_templates_spec {X} (size_of : X → Z) (rec_of : X → Z * bytes) type rest xs :
  (∀ x, size_of x = blen (enc_rec (rec_of x))) →
  ∀ pre st b t st' ops b' t',
  spec_templates src odid type (rec_of <$> xs) rest st = Ok (st', ops) → built b t ops b' t' →
  process_all size_of
    (fwd_process_template_func inputs msg (pre ++ mjoin (enc_rec <$> (rec_of <$> xs)) ++ rest) type 0) (blen pre) xs
    {| ctx_cfg := cfg_of st b t; ctx_fail := false |} = Ok {| ctx_cfg := cfg_of st' b' t'; ctx_fail := false |}.
Proof.
  intros Hsize. induction xs as [|x xs IH]; intros pre st b t st' ops b' t'; cbn [fmap list_fmap spec_templates process_all].
  - by intros [= <- <-] [ [= <-] [= <-] ].
  - destruct (spec_one_template _ _ _ _ _ _) as [ [st1 o1]| |] eqn:E1; [|done..]. rewrite !res_bind_ret. cbn [fst].
    destruct (spec_templates _ _ _ _ _ _) as [ [st2 o2]| |] eqn:E2; [|done..]. rewrite !res_bind_ret.
    intros [= <- <-] (b1 & t1 & H1 & H2)%built_app. cbn [fst snd] in *. rewrite mjoin_cons.
    rewrite <-(app_assoc (enc_rec _)). rewrite Hsize.
    rewrite (process_template_func_spec _ _ _ _ _ _ _ _ _ _ _ E1 H1), res_bind_ret.
    specialize (IH (pre ++ enc_rec (rec_of x)) _ _ _ _ _ _ _ E2 H2).
    rewrite blen_app, <-app_assoc in IH. exact IH.
Qed.

(** *** Sets *)

(** A set at the offset [pos] of the packet [mem], with [rest] behind it. *)
Definition in_set_ok (mem : bytes) (pos : Z) (s : in_set) (rest : bytes) : Prop :=
  match s with
  | InTemplates type rs padding =>
      template_set_of type rs padding rest ∧ Forall (λ r, IPFIX_MIN_RECORD_FLOWSET_ID ≤ tr_id r < 65536) rs
  | InWithdrawals ids => ids ≠ [] ∧ 4 + 4 * Z.of_nat (length ids) < 65536 ∧ Forall is_u16 ids
  | InData sid body recs =>
      is_u16 sid ∧ sid ≠ IPFIX_TEMPLATE_FLOWSET_ID ∧ sid ≠ IPFIX_OPTION_FLOWSET_ID ∧ 4 + blen body < 65536 ∧
      -1 ≤ recs ∧ (IPFIX_MIN_RECORD_FLOWSET_ID ≤ sid → fwd_rec_cnt theap msg mem pos = Ok recs)
  end.

Fixpoint in_sets_ok (mem : bytes) (pos : Z) (ss : list in_set) (rest : bytes) : Prop :=
  match ss with
  | [] => True
  | s :: ss => in_set_ok mem pos s (enc_sets (in_wire <$> ss) ++ rest) ∧
               in_sets_ok mem (pos + blen (enc_set (in_wire s))) ss rest
  end.

Lemma wire_header pre w rest : is_u16 w.1 → 4 + blen w.2 < 65536 →
  rd16 (pre ++ enc_set w ++ rest) (blen pre) = Ok w.1 ∧
  rd16 (pre ++ enc_set w ++ rest) (blen pre + 2) = Ok (4 + blen w.2).
Proof.
  intros H1 H2. pose proof (blen_nonneg w.2). unfold enc_set. rewrite <-!app_assoc. split; [by apply rd16_here|].
  replace (blen pre + 2) with (blen (pre ++ enc16 w.1)) by (rewrite blen_app, blen_enc16; lia).
  rewrite app_assoc. apply rd16_here. unfold is_u16. lia.
Qed.

Lemma in_wire_ok mem pos s rest : in_set_ok mem pos s rest → is_u16 (in_wire s).1 ∧ 4 + blen (in_wire s).2 < 65536 ∧
  (is_templates s ↔ (in_wire s).1 = IPFIX_TEMPLATE_FLOWSET_ID ∨ (in_wire s).1 = IPFIX_OPTION_FLOWSET_ID).
Proof.
  unfold IPFIX_TEMPLATE_FLOWSET_ID, IPFIX_OPTION_FLOWSET_ID.
  destruct s as [type rs padding|ids|sid body recs]; cbn [in_set_ok in_wire fst snd is_templates].
  - intros [ [Hty _ _ _ _ Hlen] _]. unfold template_set_length in Hlen. rewrite blen_app. unfold is_u16.
    destruct Hty as [-> | ->]; (split; [by vm_compute|split; [lia|] ]); split; try done; intros _; [by left|by right].
  - intros (_ & Hlen & _). rewrite blen_withdrawals. split; [by vm_compute|]. split; [lia|]. split; [by left|done].
  - intros (Hs & H2 & H3 & Hlen & _). split; [done|]. split; [done|]. split; [done|]. by intros [?|?].
Qed.

(** The callback runs over all records of a template set. *)
Lemma process_template_set_spec pre s rest st b t st' ops b' t' :
  let mem := pre ++ enc_set (in_wire s) ++ rest in
  in_set_ok mem (blen pre) s rest → is_templates s → spec_set src odid s rest st = Ok (st', ops) → built b t ops b' t' →
  fwd_process_template_set inputs msg (cfg_of st b t) mem (blen pre) = Ok (0, cfg_of st' b' t').
Proof.
  intros mem Hok Ht Hspec Hb. pose proof (in_wire_ok _ _ _ _ Hok) as (Hid & Hlen & Hiff).
  unfold fwd_process_template_set. destruct (wire_header pre (in_wire s) rest Hid Hlen) as [Er _]. fold mem in Er.
  rewrite Er, res_bind_ret. destruct s as [type rs padding|ids|]; [| |done]; cbn [in_wire fst spec_set] in *.
  - destruct Hok as [Hset Hids]. pose proof (process_templates_spec (λ r, blen (enc_trecord type r)) (of_trecord type)
      type (padding ++ rest) rs) as Hall.
    specialize (Hall ltac:(intros r; by rewrite of_trecord_enc)
      (pre ++ enc16 (type + 2) ++ enc16 (template_set_length type rs padding)) _ _ _ _ _ _ _ Hspec Hb).
    rewrite enc_of_trecords in Hall.
    assert (mem = pre ++ enc_template_set type rs padding ++ rest) as Em.
    { unfold mem, enc_set, enc_template_set, template_set_length. cbn [in_wire fst snd]. by rewrite blen_app, Z.add_assoc. }
    pose proof (template_set_records type pre rest rs padding (fwd_process_template_func inputs msg mem type 0)
      {| ctx_cfg := cfg_of st b t; ctx_fail := false |} Hset) as Hrun.
    assert ((pre ++ enc16 (type + 2) ++ enc16 (template_set_length type rs padding)) ++
            mjoin (enc_trecord type <$> rs) ++ padding ++ rest = mem) as Em2
      by (rewrite Em; unfold enc_template_set, enc_trecords; by rewrite <-!app_assoc).
    rewrite Em2, !blen_app, !blen_enc16 in Hall.
    replace (blen pre + (2 + 2)) with (blen pre + 4) in Hall by lia. rewrite Hall, res_bind_ret, <-Em in Hrun.
    destruct (ts_type _ _ _ _ Hset) as [-> | ->].
    + rewrite decide_True by done. by rewrite Hrun, res_bind_ret.
    + rewrite decide_False, decide_True by done. by rewrite Hrun, res_bind_ret.
  - destruct Hok as (Hne & Hl & Hids). rewrite decide_True by done.
    pose proof (process_templates_spec (λ id, blen (enc_withdrawal id)) of_withdrawal TM_TEMPLATE rest ids
      ltac:(done) (pre ++ enc16 2 ++ enc16 (4 + 4 * Z.of_nat (length ids))) _ _ _ _ _ _ _ Hspec Hb) as Hall.
    rewrite enc_of_withdrawals in Hall.
    pose proof (template_set_withdrawals pre rest ids (fwd_process_template_func inputs msg mem TM_TEMPLATE 0)
      {| ctx_cfg := cfg_of st b t; ctx_fail := false |} Hne Hl) as Hrun.
    assert (mem = pre ++ enc16 2 ++ enc16 (4 + 4 * Z.of_nat (length ids)) ++ enc_withdrawals ids ++ rest) as Em.
    { unfold mem, enc_set. cbn [in_wire fst snd]. by rewrite blen_withdrawals, <-!app_assoc. }
    assert ((pre ++ enc16 2 ++ enc16 (4 + 4 * Z.of_nat (length ids))) ++ mjoin (enc_withdrawal <$> ids) ++ rest = mem) as Em2
      by (rewrite Em; unfold enc_withdrawals; by rewrite <-!app_assoc).
    rewrite Em2, !blen_app, !blen_enc16 in Hall.
    replace (blen pre + (2 + 2)) with (blen pre + 4) in Hall by lia. rewrite Hall, res_bind_ret, <-Em in Hrun.
    by rewrite Hrun, res_bind_ret.
Qed.

Lemma process_data_set_spec pre sid body recs rest st b t b' t' :
  let mem := pre ++ enc_set (sid, body) ++ rest in
  in_set_ok mem (blen pre) (InData sid body recs) rest → built b t (spec_data src sid body recs rest st) b' t' →
  fwd_process_data_set theap inputs msg (cfg_of st b t) mem (blen pre) = Ok (0, cfg_of st b' t').
Proof.
  intros mem Hok [Hb Ht]. pose proof (in_wire_ok _ _ _ _ Hok) as (Hid & Hlen & _). cbn [in_wire fst snd] in *.
  destruct Hok as (_ & _ & _ & _ & Hrecs & Hcnt). unfold fwd_process_data_set.
  destruct (wire_header pre (sid, body) rest Hid Hlen) as [Er _]. fold mem in Er. rewrite Er, res_bind_ret.
  cbn [fst snd] in *. unfold spec_data in Hb, Ht.
  case_decide as Hskip.
  - injection Hb as <-. injection Ht as <-. case_decide as Hs; [done|].
    rewrite Hcnt, res_bind_ret, Hsrc, res_bind_ret by lia. cbn [fst tmplt_mgr cfg_of].
    case_decide as H0; [done|]. case_decide as H1; [done|]. rewrite decide_True by (destruct Hskip as [?|[?|?] ]; done || lia).
    done.
  - change (template_ops [_]) with (@nil bldr_op) in Ht. injection Ht as <-. apply run_op_one in Hb. cbn [run_op] in Hb.
    rewrite decide_False by tauto. rewrite Hcnt, res_bind_ret, Hsrc, res_bind_ret by lia. cbn [fst snd tmplt_mgr cfg_of].
    rewrite decide_False, decide_False, decide_False by (tauto || lia).
    unfold mem. rewrite mem_drop. cbn [builder_all cfg_of]. by rewrite Hb, res_bind_ret.
Qed.

Lemma process_sets_spec ss : ∀ pre rest fuel any st b t st' ops b' t',
  let mem := pre ++ enc_sets (in_wire <$> ss) ++ rest in
  in_sets_ok mem (blen pre) ss rest → spec_sets src odid ss rest st = Ok (st', ops) → built b t ops b' t' →
  (length ss < fuel)%nat →
  loop (fwd_sets_step theap inputs msg mem (blen pre + blen (enc_sets (in_wire <$> ss)))) fuel
    (blen pre, cfg_of st b t, any) = Ok (inr (cfg_of st' b' t', existsb is_templates ss || any)).
Proof.
  induction ss as [|s ss IH]; intros pre rest [|fuel] any st b t st' ops b' t' mem Hok; cbn [length]; try lia.
  - cbn [spec_sets]. intros [= <- <-] [ [= <-] [= <-] ] _. cbn [loop]. unfold fwd_sets_step at 1.
    change (blen (enc_sets (in_wire <$> []))) with 0. by rewrite decide_False by lia.
  - destruct Hok as [Hs Hss]. cbn [spec_sets]. destruct (spec_set _ _ _ _ _) as [ [st1 o1]| |] eqn:E1; [|done..].
    rewrite res_bind_ret. cbn [fst]. destruct (spec_sets _ _ _ _ _) as [ [st2 o2]| |] eqn:E2; [|done..].
    rewrite res_bind_ret. cbn [fst snd]. intros [= <- <-] (b1 & t1 & H1 & H2)%built_app Hf.
    pose proof (in_wire_ok _ _ _ _ Hs) as (Hid & Hlen & Htmpl). pose proof (blen_nonneg (in_wire s).2).
    assert (mem = pre ++ enc_set (in_wire s) ++ enc_sets (in_wire <$> ss) ++ rest) as Em
      by (unfold mem; by rewrite fmap_cons, enc_sets_cons, <-!app_assoc).
    destruct (wire_header pre (in_wire s) (enc_sets (in_wire <$> ss) ++ rest) Hid Hlen) as [R1 R2]. rewrite <-Em in R1, R2.
    rewrite fmap_cons, enc_sets_cons, blen_app, blen_enc_set. pose proof (blen_nonneg (enc_sets (in_wire <$> ss))).
    cbn [loop]. unfold fwd_sets_step at 1. rewrite decide_True by lia. rewrite R2, res_bind_ret.
    rewrite decide_False by lia. rewrite R1, res_bind_ret.
    assert (bool_decide ((in_wire s).1 = IPFIX_TEMPLATE_FLOWSET_ID ∨ (in_wire s).1 = IPFIX_OPTION_FLOWSET_ID) = is_templates s) as ->.
    { destruct (is_templates s); [by apply bool_decide_true, Htmpl|].
      apply bool_decide_false. intros H'. by apply Htmpl in H'. }
    assert ((if is_templates s then fwd_process_template_set inputs msg (cfg_of st b t) mem (blen pre)
             else fwd_process_data_set theap inputs msg (cfg_of st b t) mem (blen pre)) = Ok (0, cfg_of st1 b1 t1)) as ->.
    { rewrite Em in Hs |- *. destruct (is_templates s) eqn:Es.
      - by eapply process_template_set_spec; [|rewrite Es| |].
      - destruct s as [| |sid body recs]; [done..|]. cbn [spec_set] in E1. injection E1 as <- <-.
        by eapply process_data_set_spec. }
    rewrite res_bind_ret. rewrite (decide_False (P := 0 ≠ 0)) by (intros H'; by apply H').
    rewrite (decide_False (P := _ = 0)) by lia.
    specialize (IH (pre ++ enc_set (in_wire s)) rest fuel (is_templates s || any) st1 b1 t1 st2 o2 b' t').
    cbv zeta in IH. rewrite <-app_assoc, <-Em, blen_app, blen_enc_set in IH.
    rewrite blen_enc_set in Hss. specialize (IH Hss E2 H2 ltac:(lia)).
    rewrite <-Z.add_assoc in IH. rewrite IH. cbn [existsb].
    by rewrite orb_assoc, (orb_comm (existsb _ _)).
Qed.

(** ** Withdrawals *)

Lemma add_withdrawals_spec type ids : ∀ st b t b' t',
  built b t ((λ id, AddWithdrawal id type) <$> ids) b' t' →
  add_withdrawals ids type (cfg_of st b t) = Ok (0, cfg_of st b' t').
Proof.
  induction ids as [|id ids IH]; intros st b t b' t'; cbn [fmap list_fmap add_withdrawals].
  - by intros [ [= <-] [= <-] ].
  - rewrite (app_assoc [] [_] _ : _ :: _ = [AddWithdrawal id type] ++ _). intros (b1 & t1 & [H1 H1'] & H2)%built_app.
    change (template_ops [AddWithdrawal id type]) with [AddWithdrawal id type] in H1'.
    apply run_op_one in H1, H1'. cbn [run_op] in H1, H1'. cbn [builder_all builder_tmplt cfg_of].
    rewrite H1, res_bind_ret, H1', res_bind_ret. cbn [fst snd].
    rewrite decide_False by (intros [H'|H']; by apply H'). by apply IH.
Qed.

End handlers.

(** ** Receivers *)

(** The definitions under the shared identifiers of an ODID. *)
Definition odid_def (st : mapper_state) (id j : Z) : option (Z * bytes) :=
  match tmplts_odid_find st.1 st.2 id with Ok (Some l) => shared_def st.1 l j | _ => None end.

(** A receiver keeps the kind and the definition of each template.  It fails on a data
    set without a template and on a withdrawal of a template that it does not have. *)
Abbreviation collector := (gmap Z (Z * bytes)).

Definition collect_op (k : collector) (op : bldr_op) : option collector :=
  match op with
  | AddDataset _ _ _ new_id _ => if decide (is_Some (k !! new_id)) then Some k else None
  | AddTemplate _ fields _ new_id type => Some (<[new_id := (type, fields)]> k)
  | AddWithdrawal id type => if decide (fst <$> k !! id = Some type) then Some (delete id k) else None
  end.
Fixpoint collect (k : collector) (ops : list bldr_op) : option collector :=
  match ops with [] => Some k | op :: ops => k ← collect_op k op; collect k ops end.

(** The receiver has the shared templates of the mapper. *)
Definition agrees (k : collector) (st : mapper_state) (id : Z) : Prop := ∀ j, k !! j = odid_def st id j.

Lemma collect_app k o1 o2 : collect k (o1 ++ o2) = (k1 ← collect k o1; collect k1 o2).
Proof.
  revert k. induction o1 as [|op o1 IH]; intros k; cbn [app collect]; [done|].
  destruct (collect_op k op) as [k1|]; [|done]. cbn. apply IH.
Qed.

(** *** Shared templates of an ODID *)

Lemma odid_def_at st id l o j : mapper_wf st.1 st.2 → st.1 !! l = Some (Some o) → odid o = id →
  odid_def st id j = shared_def st.1 l j.
Proof.
  intros W Ho E. unfold odid_def. destruct (tmplts_odid_find_spec _ _ W id) as ([l'|] & -> & Hp).
  - destruct Hp as (_ & o' & Ho' & E'). by rewrite (mw_distinct _ _ W l' l o' o Ho' Ho) by congruence.
  - by destruct (Hp l o Ho).
Qed.

Lemma odid_def_none st id j : mapper_wf st.1 st.2 → (∀ l o, st.1 !! l = Some (Some o) → odid o ≠ id) →
  odid_def st id j = None.
Proof.
  intros W Hn. unfold odid_def. destruct (tmplts_odid_find_spec _ _ W id) as ([l|] & -> & Hp); [|done].
  destruct Hp as (_ & o & Ho & E). by destruct (Hn l o Ho).
Qed.

(** The maintainer of the source was the one of the ODID before, or there was none. *)
Lemma odid_def_before st h' id l o j : mapper_wf st.1 st.2 → keeps st.1 h' → h' !! l = Some (Some o) → odid o = id →
  (∀ l' o', h' !! l' = Some (Some o') → odid o' = id → l' = l) →
  odid_def st id j = shared_def st.1 l j.
Proof.
  intros W K Ho E Huniq. unfold odid_def. destruct (tmplts_odid_find_spec _ _ W id) as ([l'|] & -> & Hp).
  - destruct Hp as (_ & o' & Ho' & E'). destruct (live_status h' l' id) as (o2 & Ho2 & E2).
    { apply (keeps_status _ _ K). rewrite <-E'. by apply status_live. }
    by rewrite (Huniq l' o2 Ho2 E2).
  - unfold shared_def. destruct (st.1 !! l) as [ [o'|]|] eqn:Ho'; [|done..].
    pose proof (keeps_status _ _ K _ _ (status_live _ _ _ Ho')) as Hst. unfold status in Hst. rewrite Ho in Hst.
    cbn in Hst. injection Hst as Hst. destruct (Hp l o' Ho'). congruence.
Qed.

Lemma shared_def_range h mgr l j d : mapper_wf h mgr → shared_def h l j = Some d → 256 ≤ j < 65536 ∧ valid_type d.1.
Proof.
  intros W Hd. unfold shared_def in Hd. destruct (h !! l) as [ [o|]|] eqn:Ho; [|done..].
  apply fmap_Some in Hd as (t & Ht & ->). destruct (mw_live _ _ W l (mw_owned _ _ W _ _ Ho)) as (o' & Ho' & Hok & _).
  assert (o' = o) as -> by congruence. split; [by eapply template_in_range|].
  exact (to_type _ _ _ (oo_template _ _ Hok _ _ Ht)).
Qed.

(** A mapped identifier is one of a shared template of the ODID. *)
Lemma remap_defined h mgr src id p : mapper_wf h mgr → source_has_odid mgr src id →
  tmapper_remap_data_set mgr src p ≠ 0 → is_Some (odid_def (h, mgr) id (tmapper_remap_data_set mgr src p)).
Proof.
  intros W Hodid Hne. destruct (tmplts_src_find mgr src) as [pos|] eqn:E.
  2: { pose proof (src_find_None _ _ E) as Hn. by rewrite (remap_unknown mgr src p Hn) in Hne. }
  apply src_find_Some in E as (s & Hs & <-). rewrite (remap_at mgr pos s p (mw_src_nodup _ _ W) Hs) in Hne |- *.
  pose proof (lookup_lt_Some _ _ _ Hs) as Hpos.
  assert (put mgr pos s = mgr) as Eput by (unfold put; rewrite list_insert_id by done; by destruct mgr).
  assert (mapper_wf h (put mgr pos s)) as Wp by by rewrite Eput.
  destruct (ok_mapped mgr pos Hpos h s p Wp Hne) as (o & t & Ho & Ht).
  pose proof (so_maintainer _ _ (mw_source _ _ W s ltac:(by eapply list_elem_of_lookup_2))) as Hm. rewrite Ho in Hm.
  rewrite (odid_def_at (h, mgr) id (maintainer s) o); [|done..|].
  - unfold shared_def. cbn [fst]. by rewrite Ho, Ht.
  - rewrite Hm. apply Hodid; [by eapply list_elem_of_lookup_2|done].
Qed.

(** Sets with one record or data set fit into a packet. *)
Definition op_good (op : bldr_op) : Prop :=
  op_ok op ∧ match op with
             | AddDataset _ body _ _ _ => 20 + blen body < 65536
             | AddTemplate _ fields _ _ _ => 22 + blen fields < 65536
             | AddWithdrawal _ _ => True
             end.

Lemma spec_op_fits ss op : op_good op → Forall (λ s, IPFIX_HEADER_LENGTH + set_size s < 65536) ss →
  Forall (λ s, IPFIX_HEADER_LENGTH + set_size s < 65536) (spec_op ss op).
Proof.
  intros [_ Hop] Hss. assert (∀ s, set_size s = 4 + blen (os_set s).2) as Hsize by (intros s; apply blen_enc_set).
  unfold IPFIX_HEADER_LENGTH in *.
  assert (∀ r type w, 20 + blen r < 65536 → Forall (λ s, 16 + set_size s < 65536) (spec_record ss r type w)) as Hrec.
  { intros r type w Hr. unfold spec_record. destruct (list.last ss) as [s|] eqn:El.
    - case_decide as Hroom.
      + apply Forall_app. split.
        { apply last_Some in El as (l & ->). rewrite removelast_last. by apply Forall_app in Hss as [? _]. }
        constructor; [|constructor]. rewrite Hsize. cbn [extend_set os_set snd]. rewrite blen_app.
        destruct Hroom as [_ Hroom]. unfold TMPLT_SET_MAX_LEN in Hroom. lia.
      + apply Forall_app. split; [done|]. constructor; [|constructor]. rewrite Hsize. cbn. lia.
    - constructor; [|constructor]. rewrite Hsize. cbn. lia. }
  destruct op as [sid body rest new_id recs|tid fields rest new_id type|id type]; cbn [spec_op].
  - apply Forall_app. split; [done|]. constructor; [|constructor]. rewrite Hsize. cbn. lia.
  - apply Hrec. rewrite blen_app, blen_enc16. lia.
  - by apply Hrec.
Qed.

Lemma spec_ops_fit ops : Forall op_good ops → ∀ ss, Forall (λ s, IPFIX_HEADER_LENGTH + set_size s < 65536) ss →
  Forall (λ s, IPFIX_HEADER_LENGTH + set_size s < 65536) (foldl spec_op ss ops).
Proof. induction 1 as [|op ops Hop _ IH]; intros ss Hss; [done|]. apply IH. by apply spec_op_fits. Qed.

(** *** Templates of a message *)

Section mapper_side.
Context (src : loc) (odid_ : Z) (Hodid : is_u32 odid_).

(** What holds between the sets of a message: [live] says that the source is known and
    has its maintainer. *)
Record between (st : mapper_state) (k : collector) (live : bool) : Prop := {
  bt_wf : mapper_wf st.1 st.2;
  bt_room : source_room st.2 src;
  bt_dangling : not_dangling st.1 st.2 src;
  bt_odid : source_has_odid st.2 src odid_;
  bt_agrees : agrees k st odid_;
  bt_live : live = true → source_live st.1 st.2 src odid_
}.

Lemma between_live st k : mapper_wf st.1 st.2 → source_live st.1 st.2 src odid_ → agrees k st odid_ →
  between st k true.
Proof. intros W L A. pose proof (source_live_room _ _ _ _ L) as (? & ? & ?). by constructor. Qed.

Definition rec_ok (type : Z) (r : Z * bytes) (rest : bytes) : Prop :=
  valid_type type ∧ wf_bytes (enc_rec r ++ rest) ∧ blen (enc_rec r ++ rest) < 18446744073709551616 ∧
  is_u16 r.1 ∧ 2 ≤ blen r.2 ∧ 22 + blen r.2 < 65536.

Lemma record_definition_enc type r rest :
  record_definition (enc_rec r ++ rest) (blen (enc_rec r)) type = (type, r.2).
Proof.
  unfold record_definition. f_equal. rewrite take_app_length' by (unfold blen; lia). done.
Qed.

(** The definitions of the ODID before and after a step of its source. *)
Lemma odid_def_step st st' j : mapper_wf st.1 st.2 → mapper_wf st'.1 st'.2 → keeps st.1 st'.1 →
  source_live st'.1 st'.2 src odid_ →
  ∃ l, maintainer_of st'.2 src = Some l ∧ odid_def st odid_ j = shared_def st.1 l j ∧
       odid_def st' odid_ j = shared_def st'.1 l j.
Proof.
  intros W W' K (l & o & Hm & Ho & Eo & _). exists l. split; [done|]. split.
  - apply (odid_def_before st st'.1 odid_ l o j W K Ho Eo). intros l' o' Ho' E'.
    by apply (mw_distinct _ _ W' l' l o' o); [..|congruence].
  - by apply (odid_def_at st' odid_ l o).
Qed.

Lemma spec_one_template_ok type r rest st k b : between st k b → rec_ok type r rest →
  ∃ st' ops k', spec_one_template src odid_ type r rest st = Ok (st', ops) ∧ between st' k' true ∧
    collect k ops = Some k' ∧ Forall op_good ops.
Proof.
  intros [W Hroom Hlive Hso Hag _] (Hty & Hwf & Hb & Hid & Hr2 & Hr6). destruct st as [h mgr]. cbn [fst snd] in *.
  assert (blen (enc_rec r) = 2 + blen r.2) as El by (unfold enc_rec; by rewrite blen_app).
  pose proof (blen_nonneg rest) as Hrest. pose proof (blen_app (enc_rec r) rest) as Eapp.
  destruct (def_type_new_inv (enc_rec r ++ rest) (blen (enc_rec r)) type Hwf ltac:(lia) Hb Hty) as (d & Hd & Hnew).
  unfold spec_one_template. cbn [fst snd]. destruct (decide (d = TYPE_NEW)) as [->|Hn].
  - destruct (Hnew eq_refl) as (pid & count & Hrec & Hc & Hc0).
    destruct (process_new_spec h mgr src odid_ _ _ type pid count 0 W Hodid Hroom Hlive Hrec Hc Hc0)
      as (h' & mgr' & a & n & l & -> & W' & K & Hm & _ & Ha & Hl). rewrite res_bind_ret.
    specialize (Hl Hso). unfold added in Ha. rewrite (record_definition_enc type r rest) in Ha.
    assert (∀ j, odid_def (h, mgr) odid_ j = shared_def h l j ∧ odid_def (h', mgr') odid_ j = shared_def h' l j) as Hdefs.
    { intros j. destruct (odid_def_step (h, mgr) (h', mgr') j W W' K Hl) as (l' & Hm' & E1 & E2). cbn [fst snd] in *.
      rewrite Hm in Hm'. injection Hm' as <-. by split. }
    destruct Ha as [(-> & Hs & -> & _ & _ & Hdef)|[(-> & Hs & -> & _ & Hsame)|(-> & Hs & -> & Hsame & _)] ].
    + rewrite decide_True by done. set (sid := tmapper_remap_data_set mgr' src pid) in *.
      pose proof (Hdef l sid) as E. rewrite decide_True in E by done.
      destruct (shared_def_range _ _ _ _ _ W' E) as [Hrange _].
      eexists _, _, _. split; [done|]. split; [|split; [done|] ].
      * apply between_live; [done..|]. intros j. rewrite (proj2 (Hdefs j)), Hdef.
        destruct (decide (j = sid)) as [->|Hj].
        -- by rewrite lookup_insert_eq, decide_True.
        -- rewrite lookup_insert_ne, decide_False by (done || tauto). by rewrite Hag, (proj1 (Hdefs j)).
      * constructor; [|constructor]. unfold op_good. cbn [op_ok]. unfold is_u16 in *. split_and!; try lia.
        unfold is_template_type. by apply bool_decide_pack.
    + rewrite decide_False by done. eexists _, _, k. split; [done|]. split; [|split; [done|constructor] ].
      apply between_live; [done..|]. intros j. by rewrite (proj2 (Hdefs j)), Hsame, Hag, (proj1 (Hdefs j)).
    + rewrite decide_False by done. eexists _, _, k. split; [done|]. split; [|split; [done|constructor] ].
      apply between_live; [done..|]. intros j. by rewrite (proj2 (Hdefs j)), Hsame, Hag, (proj1 (Hdefs j)).
  - destruct (process_other_spec h mgr src odid_ (enc_rec r ++ rest) (blen (enc_rec r)) type 0 d W Hodid Hroom Hwf
      ltac:(lia) Hty Hd Hn) as (h' & mgr' & a & -> & Ha & W' & [K Hsame] & Hl). rewrite res_bind_ret, decide_False by done.
    specialize (Hl Hlive Hso). eexists _, _, k. split; [done|]. split; [|split; [done|constructor] ].
    apply between_live; [done..|]. intros j.
    destruct (odid_def_step (h, mgr) (h', mgr') j W W' K Hl) as (l' & _ & E1 & E2). cbn [fst snd] in *.
    by rewrite E2, Hsame, Hag, E1.
Qed.
Lemma spec_templates_ok type rs rest : valid_type type →
  Forall (λ r : Z * bytes, is_u16 r.1 ∧ 2 ≤ blen r.2 ∧ 22 + blen r.2 < 65536) rs →
  wf_bytes (mjoin (enc_rec <$> rs) ++ rest) → blen (mjoin (enc_rec <$> rs) ++ rest) < 18446744073709551616 →
  ∀ st k b, between st k b →
  ∃ st' ops k', spec_templates src odid_ type rs rest st = Ok (st', ops) ∧
    between st' k' (b || negb (bool_decide (rs = []))) ∧ collect k ops = Some k' ∧ Forall op_good ops.
Proof.
  intros Hty. induction 1 as [|r rs Hr Hrs IH]; intros Hwf Hb st k b Hbt; cbn [spec_templates].
  - exists st, [], k. rewrite bool_decide_true, orb_false_r by done. done.
  - rewrite fmap_cons, mjoin_cons, <-app_assoc in Hwf, Hb.
    destruct (spec_one_template_ok type r (mjoin (enc_rec <$> rs) ++ rest) st k b Hbt) as (st1 & o1 & k1 & -> & Hbt1 & Hk1 & Ho1).
    { by destruct Hr as (? & ? & ?). }
    rewrite res_bind_ret. cbn [fst]. apply wf_bytes_app in Hwf as [_ Hwf].
    rewrite blen_app in Hb. pose proof (blen_nonneg (enc_rec r)).
    destruct (IH Hwf ltac:(lia) st1 k1 true Hbt1) as (st2 & o2 & k2 & -> & Hbt2 & Hk2 & Ho2). rewrite res_bind_ret.
    exists st2, (o1 ++ o2), k2. split; [done|]. split; [|split].
    + by rewrite bool_decide_false, orb_true_r by done.
    + by rewrite collect_app, Hk1.
    + by apply Forall_app.
Qed.

Lemma spec_data_ok sid body recs rest st k b : between st k b → is_u16 sid → 20 + blen body < 65536 →
  collect k (spec_data src sid body recs rest st) = Some k ∧ Forall op_good (spec_data src sid body recs rest st).
Proof.
  intros [W _ _ Hso Hag _] Hs Hlen. unfold spec_data. cbv zeta. case_decide as Hskip; [by split|].
  set (n := tmapper_remap_data_set st.2 src sid) in *.
  assert (is_Some (odid_def st odid_ n)) as [d Hd].
  { destruct st as [h mgr]. apply (remap_defined h mgr src odid_ sid W Hso). tauto. }
  assert (256 ≤ n < 65536) as Hn.
  { unfold odid_def in Hd. destruct (tmplts_odid_find _ _ _) as [ [l|]| |]; [|done..].
    by destruct (shared_def_range _ _ _ _ _ W Hd). }
  split.
  - cbn. rewrite decide_True; [done|]. rewrite Hag. by exists d.
  - constructor; [|constructor]. unfold op_good. cbn [op_ok]. unfold is_u16 in *. split_and!; lia.
Qed.
(** *** Sets of a message *)

Context (theap : template_heap) (msg : ipfix_message).

Lemma enc_trecords_le type r rs : r ∈ rs → blen (enc_trecord type r) ≤ blen (enc_trecords type rs).
Proof.
  assert (∀ x l, blen (enc_trecords type (x :: l)) = blen (enc_trecord type x) + blen (enc_trecords type l)) as E.
  { intros x l. unfold enc_trecords. by rewrite fmap_cons, mjoin_cons, blen_app. }
  induction 1 as [r rs|r r' rs _ IH]; rewrite E.
  - pose proof (blen_nonneg (enc_trecords type rs)). lia.
  - pose proof (blen_nonneg (enc_trecord type r')). lia.
Qed.

Lemma trecord_size type r : 4 ≤ blen (enc_trecord type r).
Proof.
  unfold enc_trecord. rewrite blen_enc_record. pose proof (fields_size_nonneg (tr_fields r)).
  unfold record_header_size. case_decide; lia.
Qed.

Lemma spec_set_ok mem pos s rest st k b : in_set_ok theap msg mem pos s rest →
  wf_bytes (enc_set (in_wire s) ++ rest) → blen (enc_set (in_wire s) ++ rest) < 18446744073709551616 →
  16 + blen (enc_set (in_wire s)) < 65536 → between st k b →
  ∃ st' ops k', spec_set src odid_ s rest st = Ok (st', ops) ∧ between st' k' (b || is_templates s) ∧
    collect k ops = Some k' ∧ Forall op_good ops.
Proof.
  intros Hok Hwf Hb Hmax Hbt. rewrite blen_enc_set in Hmax. unfold enc_set in Hwf, Hb. rewrite <-!app_assoc in Hwf, Hb.
  apply wf_bytes_app in Hwf as [_ [_ Hwf]%wf_bytes_app]. rewrite !blen_app, !blen_enc16 in Hb.
  destruct s as [type rs padding|ids|sid body recs]; cbn [in_set_ok in_wire fst snd spec_set is_templates] in *.
  - destruct Hok as [Hset Hids]. pose proof (ts_length _ _ _ _ Hset) as Hlen. unfold template_set_length in Hlen.
    pose proof (blen_nonneg padding). rewrite blen_app in Hmax.
    destruct (spec_templates_ok type (of_trecord type <$> rs) (padding ++ rest) (ts_type _ _ _ _ Hset))
      with (st := st) (k := k) (b := b) as (st' & ops & k' & E & Hbt' & Hk' & Ho'); try done.
    + apply Forall_fmap, Forall_forall. intros r Hr. cbn [of_trecord compose fst snd].
      pose proof (trecord_size type r). pose proof (enc_trecords_le type r rs Hr).
      assert (blen (drop 2 (enc_trecord type r)) = blen (enc_trecord type r) - 2) as -> by (unfold blen in *; rewrite length_drop; lia).
      rewrite Forall_forall in Hids. specialize (Hids r Hr). unfold is_u16, IPFIX_MIN_RECORD_FLOWSET_ID in *. lia.
    + rewrite enc_of_trecords. fold (enc_trecords type rs). by rewrite app_assoc.
    + rewrite enc_of_trecords. fold (enc_trecords type rs). rewrite !blen_app. rewrite blen_app in Hb. lia.
    + exists st', ops, k'. split; [done|]. split; [|done]. rewrite bool_decide_false in Hbt'; [done|].
      pose proof (ts_nonempty _ _ _ _ Hset). by destruct rs.
  - destruct Hok as (Hne & Hl & Hids).
    destruct (spec_templates_ok TM_TEMPLATE (of_withdrawal <$> ids) rest ltac:(by left))
      with (st := st) (k := k) (b := b) as (st' & ops & k' & E & Hbt' & Hk' & Ho'); try done.
    + apply Forall_fmap. eapply Forall_impl; [exact Hids|]. intros id Hid. by split.
    + by rewrite enc_of_withdrawals.
    + rewrite enc_of_withdrawals, blen_app. fold (enc_withdrawals ids). lia.
    + exists st', ops, k'. split; [done|]. split; [|done]. rewrite bool_decide_false in Hbt'; [done|]. by destruct ids.
  - destruct Hok as (Hs & _). destruct (spec_data_ok sid body recs rest st k b Hbt Hs ltac:(lia)) as [Hk Ho].
    exists st, (spec_data src sid body recs rest st), k. rewrite orb_false_r. by do 3 (split; [done|]).
Qed.

Lemma spec_sets_ok ss : ∀ mem pos rest st k b, in_sets_ok theap msg mem pos ss rest →
  wf_bytes (enc_sets (in_wire <$> ss) ++ rest) → blen (enc_sets (in_wire <$> ss) ++ rest) < 18446744073709551616 →
  16 + blen (enc_sets (in_wire <$> ss)) < 65536 → between st k b →
  ∃ st' ops k', spec_sets src odid_ ss rest st = Ok (st', ops) ∧ between st' k' (b || existsb is_templates ss) ∧
    collect k ops = Some k' ∧ Forall op_good ops.
Proof.
  induction ss as [|s ss IH]; intros mem pos rest st k b Hok Hwf Hb Hmax Hbt; cbn [spec_sets existsb].
  - exists st, [], k. by rewrite orb_false_r.
  - destruct Hok as [Hs Hss]. rewrite fmap_cons, enc_sets_cons, <-app_assoc in Hwf, Hb.
    rewrite fmap_cons, enc_sets_cons, blen_app in Hmax. pose proof (blen_nonneg (enc_set (in_wire s))).
    pose proof (blen_nonneg (enc_sets (in_wire <$> ss))).
    destruct (spec_set_ok mem pos s _ st k b Hs Hwf Hb ltac:(lia) Hbt) as (st1 & o1 & k1 & -> & Hbt1 & Hk1 & Ho1).
    rewrite res_bind_ret. cbn [fst]. apply wf_bytes_app in Hwf as [_ Hwf].
    rewrite blen_app in Hb.
    destruct (IH mem _ rest st1 k1 _ Hss Hwf ltac:(lia) ltac:(lia) Hbt1) as (st2 & o2 & k2 & -> & Hbt2 & Hk2 & Ho2). rewrite res_bind_ret.
    exists st2, (o1 ++ o2), k2. split; [done|]. split; [by rewrite orb_assoc|].
    split; [by rewrite collect_app, Hk1|by apply Forall_app].
Qed.
End mapper_side.

(** *** Withdrawals at the end of a message *)

Definition withdrawals (ids : list Z) (type : Z) : list bldr_op := (λ id, AddWithdrawal id type) <$> ids.

Lemma collect_withdrawals type ids : NoDup ids → ∀ k, (∀ j, j ∈ ids → fst <$> k !! j = Some type) →
  ∃ k', collect k (withdrawals ids type) = Some k' ∧ ∀ j, k' !! j = if decide (j ∈ ids) then None else k !! j.
Proof.
  induction 1 as [|id ids Hid _ IH]; intros k Hk.
  - exists k. split; [done|]. intros j. by rewrite decide_False by apply not_elem_of_nil.
  - unfold withdrawals. rewrite fmap_cons. cbn [collect collect_op]. rewrite decide_True by (apply Hk; left). cbn.
    destruct (IH (delete id k)) as (k' & E & Hk').
    + intros j Hj. rewrite lookup_delete_ne by (by intros ->). apply Hk. by right.
    + exists k'. split; [exact E|]. intros j. rewrite Hk'. destruct (decide (j ∈ ids)) as [Hj|Hj].
      * by rewrite decide_True by by right.
      * destruct (decide (j = id)) as [->|Hne]; [by rewrite lookup_delete_eq, decide_True by left|].
        rewrite lookup_delete_ne by done. by rewrite decide_False by set_solver.
Qed.

Definition odid_live (st : mapper_state) (id : Z) : Prop := ∃ l o, st.1 !! l = Some (Some o) ∧ odid o = id.

Lemma withdraw_answers st k id type : mapper_wf st.1 st.2 → agrees k st id → odid_live st id →
  type = TM_TEMPLATE ∨ type = TM_OPTIONS_TEMPLATE →
  ∃ st' ids k', tmapper_withdraw_ids st.1 st.2 id type = Ok (st', Some (ids ++ [0], Z.of_nat (length ids))) ∧
    mapper_wf st'.1 st'.2 ∧ src_arr st'.2 = src_arr st.2 ∧ agrees k' st' id ∧
    collect k (withdrawals ids type) = Some k' ∧ Forall op_good (withdrawals ids type) ∧ 
    (odid_live st' id ∨ (∀ l o, st'.1 !! l = Some (Some o) → odid o ≠ id)).
Proof.
  intros W Hag (l0 & o0 & Ho0 & E0) Hty. destruct (withdraw_ids_spec st.1 st.2 id type W) as (h' & mgr' & r & -> & W' & Es & Hr).
  destruct r as [ [result cnt]|]; [|by destruct Hr as [_ Hr]; destruct (Hr l0 o0)].
  destruct Hr as (l & o & Ho & Eo & -> & -> & Hdef & Hother & Hl & _).
  assert (l0 = l) as -> by (apply (mw_distinct _ _ W l0 l o0 o); congruence).
  assert (o0 = o) as -> by congruence. clear Ho0 E0.
  destruct (mw_live _ _ W l (mw_owned _ _ W _ _ Ho)) as (o' & Ho' & Hok & _).
  assert (o' = o) as -> by congruence. clear Ho'.
  assert (∀ j, j ∈ withdrawn o type → 256 ≤ j < 65536 ∧ fst <$> shared_def st.1 l j = Some type) as Hin.
  { intros j Hj. unfold withdrawn in Hj. apply list_elem_of_filter in Hj as [Hw _].
    unfold withdrawable, has in Hw. destruct (fwd_odid_template_get o j) as [t|] eqn:Ht; [|done].
    apply andb_true_iff in Hw as [Hw _]. unfold is_type in Hw. apply bool_decide_eq_true in Hw.
    split; [by eapply template_in_range|]. unfold shared_def. rewrite Ho, Ht. cbn. by rewrite Hw. }
  destruct (collect_withdrawals type (withdrawn o type)) with (k := k) as (k' & Ek & Hk').
  { apply NoDup_filter, NoDup_range. }
  { intros j Hj. rewrite Hag, (odid_def_at st id l o j W Ho Eo). by apply Hin. }
  assert (∀ l' o', h' !! l' = Some (Some o') → odid o' = id → l' = l) as Huniq.
  { intros l' o' Ho' E'. destruct (decide (l' = l)) as [|Hne]; [done|]. rewrite Hother in Ho' by done.
    apply (mw_distinct _ _ W l' l o' o); congruence. }
  exists (h', mgr'), (withdrawn o type), k'. do 3 (split; [done|]). split; [|split; [done|split] ].
  - intros j. rewrite Hk', Hag, (odid_def_at st id l o j W Ho Eo).
    destruct Hl as [Hfree|(o' & Ho' & E')].
    + rewrite (odid_def_none (h', mgr') id j W'); cbn [fst].
      * case_decide as Hj; [done|]. rewrite <-(decide_False (P := l = l ∧ j ∈ withdrawn o type)  None (shared_def st.1 l j)) by tauto.
        rewrite <-Hdef. unfold shared_def. by rewrite Hfree.
      * intros l' o' Ho' E'. pose proof (Huniq l' o' Ho' E') as ->. congruence.
    + rewrite (odid_def_at (h', mgr') id l o' j W' Ho' E'). cbn [fst]. rewrite Hdef.
      destruct (decide (j ∈ withdrawn o type)); [by rewrite decide_True|by rewrite decide_False by tauto].
  - apply Forall_fmap, Forall_forall. intros j Hj. destruct (Hin j Hj) as [Hr _].
    split; [|done]. split; [unfold is_u16; lia|]. unfold is_template_type. by apply bool_decide_pack.
  - destruct Hl as [Hfree|(o' & Ho' & E')]; [right|left; by exists l, o'].
    intros l' o' Ho' E'. pose proof (Huniq l' o' Ho' E') as ->. cbn in Ho'. congruence.
Qed.

(** *** A whole message *)

Lemma built_start b t odid export_time ops : bldr_ok b → bldr_ok t → Forall op_good ops →
  ∃ b' t' gs gt, built (bldr_start b odid export_time) (bldr_start t odid export_time) ops b' t' ∧
    bldr_rep (bldr_header (bldr_start b odid export_time)) b' gs (foldl spec_op [] ops) ∧
    bldr_rep (bldr_header (bldr_start t odid export_time)) t' gt (foldl spec_op [] (template_ops ops)).
Proof.
  intros Hb Ht Hops. assert (Forall op_ok ops) as Hok by (eapply Forall_impl; [exact Hops|by intros op [? _] ]).
  destruct (run_ops_start b odid export_time ops Hb Hok) as (b' & gs & E1 & R1).
  assert (Forall op_ok (template_ops ops)) as Hokt.
  { apply Forall_forall. intros op [_ Hin]%list_elem_of_filter. by eapply Forall_forall in Hok. }
  destruct (run_ops_start t odid export_time (template_ops ops) Ht Hokt) as (t' & gt & E2 & R2).
  by exists b', t', gs, gt.
Qed.

Lemma process_withdrawals_ok size st st' ids b t b' t' odid type :
  tmapper_withdraw_ids st.1 st.2 odid type = Ok (st', Some (ids ++ [0], Z.of_nat (length ids))) →
  built b t (withdrawals ids type) b' t' →
  fwd_process_withdrawals (cfg_of size st b t) odid type = Ok (0, cfg_of size st' b' t').
Proof.
  intros E Hb. unfold fwd_process_withdrawals. cbn [tmplt_mgr cfg_of]. rewrite E, res_bind_ret.
  destruct st' as [h mgr]. rewrite Nat2Z.id, take_app_length. by apply add_withdrawals_spec.
Qed.

Lemma process_withdrawals_unknown size st b t odid type : mapper_wf st.1 st.2 →
  (∀ l o, st.1 !! l = Some (Some o) → TemplateMapper.odid o ≠ odid) →
  fwd_process_withdrawals (cfg_of size st b t) odid type = Ok (1, cfg_of size st b t).
Proof.
  intros W Hn. unfold fwd_process_withdrawals, tmapper_withdraw_ids. cbn [tmplt_mgr cfg_of].
  destruct (tmplts_odid_find_spec _ _ W odid) as ([l|] & -> & Hp).
  - destruct Hp as (_ & o & Ho & E). by destruct (Hn l o Ho).
  - rewrite !res_bind_ret. by destruct st.
Qed.

Lemma template_ops_good ops : Forall op_good ops → Forall op_good (template_ops ops).
Proof. intros Ho. apply Forall_forall. intros op [_ Hin]%list_elem_of_filter. by eapply Forall_forall in Ho. Qed.

Lemma fwd_end_ok size st b0 t0 b t gs gt ops odid export_time :
  bldr_ok b0 → bldr_ok t0 → is_u16 size → Forall op_good ops →
  bldr_rep (bldr_header (bldr_start b0 odid export_time)) b gs (foldl spec_op [] ops) →
  bldr_rep (bldr_header (bldr_start t0 odid export_time)) t gt (foldl spec_op [] (template_ops ops)) →
  ∃ b' t', fwd_end (cfg_of size st b t) = Ok (0, cfg_of size st b' t') ∧
    delivers b' odid export_time size (foldl spec_op [] ops) ∧
    delivers t' odid export_time size (foldl spec_op [] (template_ops ops)).
Proof.
  intros Hb Ht Hs Hops Rb Rt.
  destruct (bldr_end_delivers b0 odid export_time b gs _ size Hb Rb Hs) as (b' & E1 & D1); [by apply spec_ops_fit|].
  destruct (bldr_end_delivers t0 odid export_time t gt _ size Ht Rt Hs) as (t' & E2 & D2).
  { apply spec_ops_fit; [by apply template_ops_good|constructor]. }
  exists b', t'. split; [|done]. unfold fwd_end. cbn [builder_all packet_size cfg_of]. rewrite E1, res_bind_ret.
  rewrite decide_False by (intros H; by apply H). cbn [builder_tmplt builder_all packet_size set_builder_all cfg_of].
  rewrite E2, res_bind_ret. by rewrite decide_False by (intros H; by apply H).
Qed.

(** What a source and a receiver of its ODID start with. *)
Definition ready (src : loc) (odid : Z) (cfg : plugin_config) (k : collector) : Prop :=
  between src odid (tmplt_mgr cfg) k false ∧ bldr_ok (builder_all cfg) ∧ bldr_ok (builder_tmplt cfg) ∧
  is_u16 (packet_size cfg).

(** The loop over the sets of a message, with both builders. *)
Lemma fwd_sets_loop theap inputs msg src odid size st b t st1 ops b1 t1 export_time sequence ss rest :
  source_of inputs msg = Ok (src, odid) →
  let message := enc_message export_time sequence odid (in_wire <$> ss) in
  let mem := message ++ rest in
  in_sets_ok theap msg mem 16 ss rest → blen message < 65536 →
  spec_sets src odid ss rest st = Ok (st1, ops) → built b t ops b1 t1 →
  loop (fwd_sets_step theap inputs msg mem (blen message)) (S (Z.to_nat (blen message)))
    (IPFIX_HEADER_LENGTH, cfg_of size st b t, false) =
  Ok (inr (cfg_of size st1 b1 t1, existsb is_templates ss)).
Proof.
  intros Hsrc message mem Hss Hlen Hspec Hb. unfold enc_message in message.
  set (len := 16 + blen (enc_sets (in_wire <$> ss))) in message.
  set (hdr := enc_header len export_time sequence odid) in message.
  assert (blen hdr = 16) as Hh by (unfold hdr; apply blen_enc_header).
  assert (mem = hdr ++ enc_sets (in_wire <$> ss) ++ rest) as Em by (unfold mem, message; by rewrite <-app_assoc).
  assert (blen message = blen hdr + blen (enc_sets (in_wire <$> ss))) as El by (unfold message; by rewrite blen_app).
  assert (Z.of_nat (length ss) ≤ blen (enc_sets (in_wire <$> ss))) as Hn.
  { clear. induction ss as [|s ss IH]; [done|]. rewrite fmap_cons, enc_sets_cons, blen_app, blen_enc_set.
    pose proof (blen_nonneg (in_wire s).2). cbn [length]. lia. }
  pose proof (process_sets_spec theap inputs msg src odid Hsrc size ss hdr rest (S (Z.to_nat (blen message))) false
    st b t st1 ops b1 t1) as Hloop. cbv zeta in Hloop.
  rewrite <-Em, Hh in Hloop. rewrite orb_false_r in Hloop. rewrite El, Hh in Hloop |- *.
  apply Hloop; [done..|lia].
Qed.

Lemma header_fields export_time sequence odid ss rest : is_u32 export_time → is_u32 odid →
  blen (enc_message export_time sequence odid ss) < 65536 →
  let mem := enc_message export_time sequence odid ss ++ rest in
  rd32 mem 12 = Ok odid ∧ rd32 mem 4 = Ok export_time ∧
  rd16 mem 2 = Ok (blen (enc_message export_time sequence odid ss)).
Proof.
  intros Ht Ho Hlen mem. unfold enc_message in *. rewrite blen_app, blen_enc_header in Hlen.
  pose proof (blen_nonneg (enc_sets ss)). subst mem. set (len := IPFIX_HEADER_LENGTH + blen (enc_sets ss)).
  unfold enc_header. rewrite <-!app_assoc. split_and!.
  - pose proof (rd32_here (enc16 IPFIX_VERSION ++ enc16 len ++ enc32 export_time ++ enc32 sequence) odid
      (enc_sets ss ++ rest) Ho) as E. rewrite <-!app_assoc in E. exact E.
  - pose proof (rd32_here (enc16 IPFIX_VERSION ++ enc16 len) export_time
      (enc32 sequence ++ enc32 odid ++ enc_sets ss ++ rest) Ht) as E. rewrite <-!app_assoc in E. exact E.
  - pose proof (rd16_here (enc16 IPFIX_VERSION) len (enc32 export_time ++ enc32 sequence ++ enc32 odid ++ enc_sets ss ++ rest))
      as E. change (blen (enc16 IPFIX_VERSION)) with 2 in E. rewrite E; [|unfold is_u16, len, IPFIX_HEADER_LENGTH in *; lia].
    f_equal. rewrite !blen_app, !blen_enc16, !blen_enc32. unfold len, IPFIX_HEADER_LENGTH. lia.
Qed.

(** The handler up to the end of the loop. *)
Lemma fwd_parse_msg_sets theap inputs msg src odid export_time sequence ss rest cfg st1 ops b1 t1 :
  let message := enc_message export_time sequence odid (in_wire <$> ss) in
  let mem := message ++ rest in
  pkt_header msg = Some mem → source_of inputs msg = Ok (src, odid) → is_u32 odid → is_u32 export_time →
  blen message < 65536 → in_sets_ok theap msg mem 16 ss rest →
  spec_sets src odid ss rest (tmplt_mgr cfg) = Ok (st1, ops) →
  built (bldr_start (builder_all cfg) odid export_time) (bldr_start (builder_tmplt cfg) odid export_time) ops b1 t1 →
  let cfg1 := cfg_of (packet_size cfg) st1 b1 t1 in
  fwd_parse_msg theap inputs msg cfg =
    (x ← (if existsb is_templates ss then fwd_process_all_withdrawals cfg1 odid else Ok (0, cfg1));
     let '(ret, cfg) := x in if decide (ret ≠ 0) then Ok (1, cfg) else fwd_end cfg).
Proof.
  intros message mem Hpkt Hsrc Ho Ht Hlen Hss Hspec Hb cfg1. unfold fwd_parse_msg. rewrite Hpkt.
  destruct (header_fields export_time sequence odid (in_wire <$> ss) rest Ht Ho Hlen) as (E1 & E2 & E3).
  fold message in E1, E2, E3. fold mem in E1, E2, E3. rewrite E1, res_bind_ret, E2, res_bind_ret, E3, res_bind_ret.
  pose proof (fwd_sets_loop theap inputs msg src odid (packet_size cfg) (tmplt_mgr cfg) _ _ st1 ops b1 t1 export_time
    sequence ss rest Hsrc Hss Hlen Hspec Hb) as Hloop.
  fold message in Hloop. fold mem in Hloop.
  change (set_builders cfg _ _) with (cfg_of (packet_size cfg) (tmplt_mgr cfg)
    (bldr_start (builder_all cfg) odid export_time) (bldr_start (builder_tmplt cfg) odid export_time)).
  by rewrite Hloop, res_bind_ret.
Qed.

(** The withdrawals of both kinds, or the maintainer is gone after the first. *)
Lemma all_withdrawals size src odid st k : between src odid st k true →
  ∃ st', mapper_wf st'.1 st'.2 ∧
    ((∃ w1 w2 k', let ops := withdrawals w1 TM_TEMPLATE ++ withdrawals w2 TM_OPTIONS_TEMPLATE in
        Forall op_good ops ∧ collect k ops = Some k' ∧ agrees k' st' odid ∧
        ∀ b t b' t', built b t ops b' t' →
          fwd_process_all_withdrawals (cfg_of size st b t) odid = Ok (0, cfg_of size st' b' t')) ∨
     (∃ w, Forall op_good (withdrawals w TM_TEMPLATE) ∧ (∀ j, odid_def st' odid j = None) ∧
        ∀ b t b' t', built b t (withdrawals w TM_TEMPLATE) b' t' →
          fwd_process_all_withdrawals (cfg_of size st b t) odid = Ok (1, cfg_of size st' b' t'))).
Proof.
  intros Hbt. pose proof (bt_live _ _ _ _ _ Hbt eq_refl) as (l & o & _ & Ho & Eo & _). pose proof Hbt as [W1 _ _ _ Ha1 _].
  destruct (withdraw_answers st k odid TM_TEMPLATE W1 Ha1 ltac:(by exists l, o) ltac:(by left))
    as (st2 & w1 & k2 & E2 & W2 & _ & Ha2 & Hk2 & Hw1 & [Hlive|Hdead]).
  - destruct (withdraw_answers st2 k2 odid TM_OPTIONS_TEMPLATE W2 Ha2 Hlive ltac:(by right))
      as (st3 & w2 & k3 & E3 & W3 & _ & Ha3 & Hk3 & Hw2 & _).
    exists st3. split; [done|]. left. exists w1, w2, k3. split; [by apply Forall_app|].
    split; [by rewrite collect_app, Hk2|]. split; [done|]. intros b t b' t' (b2 & t2 & B2 & B3)%built_app.
    unfold fwd_process_all_withdrawals.
    rewrite (process_withdrawals_ok _ _ st2 w1 _ _ b2 t2 _ _ E2 B2), res_bind_ret, decide_False by (intros H; by apply H).
    rewrite (process_withdrawals_ok _ _ st3 w2 _ _ b' t' _ _ E3 B3), !res_bind_ret.
    by rewrite (decide_False (P := 0 ≠ 0)) by (intros H; by apply H).
  - exists st2. split; [done|]. right. exists w1. split; [done|]. split; [intros j; by apply odid_def_none|].
    intros b t b' t' B2. unfold fwd_process_all_withdrawals.
    rewrite (process_withdrawals_ok _ _ st2 w1 _ _ b' t' _ _ E2 B2), res_bind_ret, decide_False by (intros H; by apply H).
    by rewrite process_withdrawals_unknown, !res_bind_ret.
Qed.

(** ** Properties *)

(** C17: a message with sets of definitions and withdrawals of templates and data sets
    is forwarded consistently, whatever its sets are.  Either everything goes out: the
    packets of the first builder carry what the sets come to in the mapper, followed by
    the withdrawals of both kinds, those of the second its templates and withdrawals; and
    a receiver that had the shared templates of the ODID never meets a data set without
    its template or a withdrawal of an unknown one, and has the shared templates again.
    Or the first withdrawals took the last template of the ODID: then the second search
    fails, the message is given up and nothing of it, its withdrawals included, is sent. *)
Theorem fwd_parse_msg_forwards theap inputs msg src info export_time sequence ss rest cfg k :
  let odid := ii_odid info in
  let message := enc_message export_time sequence odid (in_wire <$> ss) in
  let mem := message ++ rest in
  pkt_header msg = Some mem → Message.input_info msg = Some src → inputs !! src = Some info →
  is_u32 odid → is_u32 export_time → wf_bytes mem → blen message < 65536 → blen mem < 18446744073709551616 →
  in_sets_ok theap msg mem 16 ss rest → ready src odid cfg k →
  ∃ st1 ops ret cfg', spec_sets src odid ss rest (tmplt_mgr cfg) = Ok (st1, ops) ∧
    fwd_parse_msg theap inputs msg cfg = Ok (ret, cfg') ∧ mapper_wf (tmplt_mgr cfg').1 (tmplt_mgr cfg').2 ∧
    ((ret = 0 ∧ ∃ w1 w2 k', let ops := ops ++ withdrawals w1 TM_TEMPLATE ++ withdrawals w2 TM_OPTIONS_TEMPLATE in
        delivers (builder_all cfg') odid export_time (packet_size cfg) (foldl spec_op [] ops) ∧
        delivers (builder_tmplt cfg') odid export_time (packet_size cfg) (foldl spec_op [] (template_ops ops)) ∧
        collect k ops = Some k' ∧ agrees k' (tmplt_mgr cfg') odid) ∨
     (ret = 1 ∧ existsb is_templates ss ∧ ∀ j, odid_def (tmplt_mgr cfg') odid j = None)).
Proof.
  intros odid message mem Hpkt Hinput Hinfo Hodid Het Hwf Hlen Hmem Hss (Hbt & Hball & Hbt0 & Hsize).
  assert (source_of inputs msg = Ok (src, odid)) as Hsrc.
  { unfold source_of, deref. rewrite Hinput. cbn [or_fault]. rewrite res_bind_ret, Hinfo. done. }
  assert (blen message = 16 + blen (enc_sets (in_wire <$> ss))) as Em
    by (unfold message, enc_message; by rewrite blen_app, blen_enc_header).
  destruct (spec_sets_ok src odid Hodid theap msg ss mem 16 rest (tmplt_mgr cfg) k false Hss)
    as (st1 & ops & k1 & Hspec & Hbt1 & Hk1 & Hops); [| |lia|done|].
  { unfold mem, message, enc_message in Hwf. rewrite <-app_assoc in Hwf. by apply wf_bytes_app in Hwf as [_ Hwf]. }
  { unfold mem in Hmem. rewrite blen_app in Hmem |- *. lia. }
  exists st1, ops. pose proof (fwd_parse_msg_sets theap inputs msg src odid export_time sequence ss rest cfg st1 ops) as Hparse.
  cbv zeta in Hparse. fold message in Hparse. fold mem in Hparse.
  rewrite orb_false_l in Hbt1. destruct (existsb is_templates ss) eqn:Eany.
  - destruct (all_withdrawals (packet_size cfg) src odid st1 k1 Hbt1)
      as (st' & W' & [(w1 & w2 & k' & Hw & Hk' & Ha' & Hrun)|(w & Hw & Hnone & Hrun)]).
    + set (T := ops ++ withdrawals w1 TM_TEMPLATE ++ withdrawals w2 TM_OPTIONS_TEMPLATE).
      assert (Forall op_good T) as HT by (by apply Forall_app).
      destruct (built_start (builder_all cfg) (builder_tmplt cfg) odid export_time T Hball Hbt0 HT)
        as (b2 & t2 & gs & gt & Hbuilt & Rb & Rt). apply built_app in Hbuilt as (b1 & t1 & B1 & B2).
      destruct (fwd_end_ok (packet_size cfg) st' (builder_all cfg) (builder_tmplt cfg) b2 t2 gs gt T odid export_time)
        as (b' & t' & E & D1 & D2); [done..|].
      exists 0, (cfg_of (packet_size cfg) st' b' t'). split; [done|]. split; [|split; [done|left; split; [done|] ] ].
      * by rewrite (Hparse b1 t1), (Hrun _ _ _ _ B2), res_bind_ret, decide_False by (done || intros H; by apply H).
      * exists w1, w2, k'. do 2 (split; [done|]). split; [by rewrite collect_app, Hk1|done].
    + destruct (built_start (builder_all cfg) (builder_tmplt cfg) odid export_time (ops ++ withdrawals w TM_TEMPLATE)
        Hball Hbt0 ltac:(by apply Forall_app)) as (b2 & t2 & gs & gt & Hbuilt & _ & _).
      apply built_app in Hbuilt as (b1 & t1 & B1 & B2).
      exists 1, (cfg_of (packet_size cfg) st' b2 t2). split; [done|]. split; [|split; [done|by right] ].
      by rewrite (Hparse b1 t1), (Hrun _ _ _ _ B2), res_bind_ret by done.
  - destruct (built_start (builder_all cfg) (builder_tmplt cfg) odid export_time ops Hball Hbt0 Hops)
      as (b1 & t1 & gs & gt & Hbuilt & Rb & Rt). pose proof Hbt1 as [W1 _ _ _ Ha1 _].
    destruct (fwd_end_ok (packet_size cfg) st1 (builder_all cfg) (builder_tmplt cfg) b1 t1 gs gt ops odid export_time)
      as (b' & t' & E & D1 & D2); [done..|].
    exists 0, (cfg_of (packet_size cfg) st1 b' t'). split; [done|]. split; [|split; [done|left; split; [done|] ] ].
    + by rewrite (Hparse b1 t1), res_bind_ret, decide_False by (done || intros H; by apply H).
    + exists [], [], k1. cbn [withdrawals fmap list_fmap app]. rewrite app_nil_r. done.
Qed.

(** Source 1 of ODID 7 announces template 300, with one field of four octets. *)
Definition forwarding_input : input_info :=
  {| ii_type := SOURCE_TYPE_TCP; ii_sequence_number := 0; ii_odid := 7; ii_packets := 0; ii_data_records := 0;
     ii_details := input_info_file [] |}.
Definition forwarding_fields : list field_spec := [ {| fs_id := 8; fs_length := 4; fs_enterprise := None |} ].
Definition forwarding_templates : in_set :=
  InTemplates TM_TEMPLATE [ {| tr_id := 300; tr_scope := 0; tr_fields := forwarding_fields |} ] [].
Definition forwarding_heap : template_heap := {[ 1%positive := spec_template TM_TEMPLATE 300 0 forwarding_fields 0 ]}.
Definition forwarding_config : plugin_config :=
  {| tmplt_mgr := tmapper_create; builder_all := bldr_create; builder_tmplt := bldr_create; packet_size := 1400 |}.

(** A message of source 1 with its couples. *)
Definition forwarding_message (ss : list in_set) (couples : list (Z * option loc)) : ipfix_message :=
  let m := new_message (Some (enc_message 1700000000 0 7 (in_wire <$> ss))) (Some 1%positive) SOURCE_STATUS_OPENED in
  set_sets m [] [] couples.

(** A template, a data set with it and one of an unknown template: the data set goes out
    under the shared identifier, the unknown one does not. *)
Lemma fwd_parse_msg_forwards_witness :
  let ss := [forwarding_templates; InData 300 (repeat 1 8) 3; InData 400 (repeat 2 8) (-1)] in
  ∃ st1 rest1 rest2 ret cfg',
    spec_sets 1 7 ss [] tmapper_create = Ok (st1, [AddTemplate 300 (drop 2 (enc_template 300 forwarding_fields)) rest1 300 TM_TEMPLATE;
                                                 AddDataset 300 (repeat 1 8) rest2 300 3]) ∧
    fwd_parse_msg forwarding_heap {[ 1%positive := forwarding_input ]}
      (forwarding_message ss [(28, Some 1%positive); (40, None)]) forwarding_config = Ok (ret, cfg') ∧
    mapper_wf (tmplt_mgr cfg').1 (tmplt_mgr cfg').2.
Proof.
  intros ss.
  destruct (fwd_parse_msg_forwards forwarding_heap {[ 1%positive := forwarding_input ]}
    (forwarding_message ss [(28, Some 1%positive); (40, None)]) 1 forwarding_input 1700000000 0 ss [] forwarding_config ∅)
    as (st1 & ops & ret & cfg' & Hspec & Hrun & W & _).
  - by rewrite app_nil_r.
  - done.
  - done.
  - done.
  - done.
  - by apply (bool_decide_unpack _).
  - by vm_compute.
  - by vm_compute.
  - split; [|split; [|split; [|done] ] ].
    + split; [|by apply (bool_decide_unpack _)]. split; [by left| |done|done|by left|by vm_compute].
      constructor; [|constructor]. split; [|done]. constructor; [|constructor]. by vm_compute.
    + cbn [in_set_ok]. do 5 (split; [by vm_compute|]). intros _. by vm_compute.
    + cbn [in_set_ok]. do 5 (split; [by vm_compute|]). intros _. by vm_compute.
  - split; [|by split; [apply bldr_create_ok|split; [apply bldr_create_ok|] ] ].
    constructor; [apply tmapper_create_wf|done|done|by intros s ?%elem_of_nil|by intros j|done].
  - exists st1. vm_compute in Hspec. injection Hspec as <- <-. eexists _, _, ret, cfg'. split; [by vm_compute|]. by split.
Defined.

(** Messages one after the other: the return values and the configuration. *)
Fixpoint forward_all (cfg : plugin_config) (msgs : list ipfix_message) : res (list Z * plugin_config) :=
  match msgs with
  | [] => Ok ([], cfg)
  | m :: msgs =>
      x ← fwd_parse_msg forwarding_heap {[ 1%positive := forwarding_input ]} m cfg;
      y ← forward_all x.2 msgs; Ok (x.1 :: y.1, y.2)
  end.

(** The source withdraws its only template: the message fails and its withdrawal is not
    sent; the mapper has freed the maintainer of the ODID, and the next template of the
    source uses it. *)
Example last_withdrawal_is_lost :
  (x ← forward_all forwarding_config [forwarding_message [forwarding_templates] []; forwarding_message [InWithdrawals [300] ] [] ];
   Ok (x.1, bldr_pkts_cnt (builder_all x.2))) = Ok ([0; 1], -1) ∧
  forward_all forwarding_config [forwarding_message [forwarding_templates] []; forwarding_message [InWithdrawals [300] ] [];
                                 forwarding_message [forwarding_templates] [] ] = Fault UseAfterFree.
Proof. split; by vm_compute. Qed.
