(* ===== verification/Filter.v ===== *)
(** * The filter plugin

    [base/src/intermediate/filter/filter.c] and [filter.h]: profiles, each with a
    filter (a tree of conditions on fields of data records), a list of sources and the
    Observation Domain ID of what it lets pass. Every message is copied for each
    profile of its source, with the template sets and the data records that fit, and
    passed on under the new identifier ([filter_apply_profile],
    [intermediate_process_message]).

    The templates, the [input_info] objects and the arrays of channels are heap objects,
    as in the preprocessor. The grammar of filters is generated code and a parameter;
    its actions, the [filter_parse_*] and [filter_new_*] functions, are below. Memory
    is never exhausted. *)

From S2P Require Import Prelude CLib TemplateRecord DataRecord Message TemplateManager Preprocessor.
From Stdlib Require String.
Import String.StringSyntax.

(** ** Data *)

Inductive operators :=
  | OP_EQUAL
  | OP_LESS
  | OP_LESS_EQUAL
  | OP_GREATER
  | OP_GREATER_EQUAL
  | OP_NOT_EQUAL
  | OP_NONE.
#[export] Instance operators_eq_dec : EqDecision operators.
Proof. solve_decision. Defined.

(** A value by its [valtype]: octets and their number, or a compiled regular expression,
    which stands here as its source and has no length. *)
Inductive filter_value :=
  | VT_NUMBER (value : bytes) (length : Z)
  | VT_STRING (value : bytes) (length : Z)
  | VT_REGEX (regex : bytes).

Record filter_field := { ff_enterprise : Z; ff_id : Z }.

(** A node by its [nodetype], with the members that type has. *)
Inductive filter_treenode :=
  | NODE_LEAF (negate : bool) (op : operators) (field : filter_field) (value : filter_value)
  | NODE_AND (negate : bool) (left right : filter_treenode)
  | NODE_OR (negate : bool) (left right : filter_treenode)
  | NODE_EXISTS (negate : bool) (field : filter_field).

(** [sources] is the list of identifiers. *)
Record filter_profile := {
  fp_input_info : option loc;
  new_odid : Z;
  root : option filter_treenode;
  fp_sources : list Z
}.

Record filter_config := {
  remove_original : bool;
  fc_profiles : list filter_profile;
  default_profile : option filter_profile
}.

Definition set_fp_input_info (p : filter_profile) (l : option loc) : filter_profile :=
  {| fp_input_info := l; new_odid := new_odid p; root := root p; fp_sources := fp_sources p |}.
Definition set_fp_root (p : filter_profile) (n : option filter_treenode) : filter_profile :=
  {| fp_input_info := fp_input_info p; new_odid := new_odid p; root := n; fp_sources := fp_sources p |}.

(** ** Matching a data record *)

(** [regexec] tells whether the compiled expression matches a string. *)
Section filter.
Context (regexec : bytes → bytes → bool).

Section fits.
Context (mem : bytes) (rec : Z).

Definition op_holds (op : operators) (cmpres : Z) : bool :=
  match op with
  | OP_EQUAL => bool_decide (cmpres = 0)
  | OP_NOT_EQUAL => bool_decide (cmpres ≠ 0)
  | OP_LESS_EQUAL => bool_decide (cmpres ≤ 0)
  | OP_LESS => bool_decide (cmpres < 0)
  | OP_GREATER_EQUAL => bool_decide (cmpres >= 0)
  | OP_GREATER => bool_decide (cmpres > 0)
  | OP_NONE => false
  end.

(** The results have the template, in which a look-up may store an offset. *)
Definition filter_fits_value (op : operators) (field : filter_field) (value : bytes) (length : Z)
    (templ : ipfix_template) : res (bool * ipfix_template) :=
  x ← data_record_get_field mem rec templ (ff_enterprise field) (ff_id field) true;
  let '(recdata, datalen, templ) := x in
  match recdata with
  | None => Ok (bool_decide (op = OP_NOT_EQUAL), templ)
  | Some p =>
      let datalen := default 0 datalen in
      if decide (datalen > length) then Ok (bool_decide (op = OP_NOT_EQUAL), templ) else
      a ← rdn mem p datalen;
      b ← rdn value (length - datalen) datalen;
      Ok (op_holds op (memcmp a b), templ)
  end.

(** The loop to the last occurrence, on [(pos, prevpos)]. *)
Definition find_last_step (data value : bytes) (s : option Z * option Z) :
    res ((option Z * option Z) + option Z) :=
  match s.1 with
  | None => Ok (inr s.2)
  | Some p => pos ← strstr data (p + 1) value; Ok (inl (pos, Some p))
  end.

Definition filter_fits_string (op : operators) (field : filter_field) (value : bytes) (vallen : Z)
    (templ : ipfix_template) : res (bool * ipfix_template) :=
  x ← data_record_get_field mem rec templ (ff_enterprise field) (ff_id field) true;
  let '(recdata, datalen, templ) := x in
  match recdata with
  | None => Ok (bool_decide (op = OP_NOT_EQUAL), templ)
  | Some p =>
      let datalen := default 0 datalen in
      data ← rdn mem p datalen;
      let data := data ++ [0] in
      pos ← strstr data 0 value;
      result ← match op with
        | OP_NONE => Ok (bool_decide (is_Some pos))
        | OP_EQUAL => Ok (bool_decide (is_Some pos ∧ datalen = vallen))
        | OP_NOT_EQUAL => Ok (negb (bool_decide (is_Some pos ∧ datalen = vallen)))
        | OP_LESS =>
            pos ← loop (find_last_step data value) (S (S (length data))) (pos, None);
            Ok (bool_decide (pos = Some (datalen - vallen)))
        | OP_GREATER => Ok (bool_decide (pos = Some 0))
        | _ => Ok false
        end;
      Ok (result, templ)
  end.

Definition filter_fits_regex (op : operators) (field : filter_field) (regex : bytes)
    (templ : ipfix_template) : res (bool * ipfix_template) :=
  x ← data_record_get_field mem rec templ (ff_enterprise field) (ff_id field) true;
  let '(recdata, datalen, templ) := x in
  match recdata with
  | None => Ok (bool_decide (op = OP_NOT_EQUAL), templ)
  | Some p =>
      data ← rdn mem p (default 0 datalen);
      Ok (xorb (bool_decide (op = OP_NOT_EQUAL)) (regexec regex (c_string (data ++ [0]))), templ)
  end.

Definition filter_fits_exists (field : filter_field) (templ : ipfix_template) : res (bool * ipfix_template) :=
  x ← data_record_get_field mem rec templ (ff_enterprise field) (ff_id field) false;
  Ok (bool_decide (is_Some x.1.1), x.2).

(** The right subtree is looked at only when the left one does not decide. *)
Fixpoint filter_fits_node (node : filter_treenode) (templ : ipfix_template) : res (bool * ipfix_template) :=
  match node with
  | NODE_AND negate l r =>
      x ← filter_fits_node l templ;
      x ← (if x.1 : bool then filter_fits_node r x.2 else Ok x);
      Ok (xorb negate x.1, x.2)
  | NODE_OR negate l r =>
      x ← filter_fits_node l templ;
      x ← (if x.1 : bool then Ok x else filter_fits_node r x.2);
      Ok (xorb negate x.1, x.2)
  | NODE_EXISTS negate field =>
      x ← filter_fits_exists field templ; Ok (xorb negate x.1, x.2)
  | NODE_LEAF negate op field value =>
      x ← match value with
          | VT_STRING value length => filter_fits_string op field value length templ
          | VT_REGEX regex => filter_fits_regex op field regex templ
          | VT_NUMBER value length => filter_fits_value op field value length templ
          end;
      Ok (xorb negate x.1, x.2)
  end.
End fits.

(** ** The new packet *)

(** The packet of [size] octets that is written, and the heap of templates. *)
Record filter_process := {
  ptr : bytes;
  fp_offset : Z;
  records : Z;
  fp_metadata : list metadata;
  fp_templates : template_heap
}.

Definition put (c : filter_process) (v : bytes) : res filter_process :=
  p ← wrn (ptr c) (fp_offset c) v;
  Ok {| ptr := p; fp_offset := fp_offset c + blen v; records := records c;
        fp_metadata := fp_metadata c; fp_templates := fp_templates c |}.

(** Copying the sets at the offsets [sets] of the original packet. *)
Definition copy_set (mem : bytes) (c : filter_process) (set : Z) : res filter_process :=
  length ← rd16 mem (set + 2);
  v ← rdn mem set length; put c v.

Definition filter_add_template_sets (mem : bytes) (msg : ipfix_message) (c : filter_process) : res filter_process :=
  c ← fold_res (copy_set mem) (templ_set msg) c;
  fold_res (copy_set mem) (opt_templ_set msg) c.

Definition filter_process_data_record (mem : bytes) (profile : filter_profile) (templ : loc)
    (rec rec_len : Z) (c : filter_process) : res filter_process :=
  t ← deref (fp_templates c) templ;
  node ← or_fault NullDeref (root profile);
  x ← filter_fits_node mem rec node t;
  let h : template_heap := <[templ := x.2]> (fp_templates c) in
  if x.1 : bool then
    v ← rdn mem rec rec_len;
    p ← wrn (ptr c) (fp_offset c) v;
    m ← or_fault OobWrite (fp_metadata c !! Z.to_nat (records c));
    let r := {| record := fp_offset c; length_ := rec_len; Message.templ := Some templ |} in
    Ok {| ptr := p; fp_offset := fp_offset c + rec_len; records := records c + 1;
          fp_metadata := <[Z.to_nat (records c) := set_md_record m r]> (fp_metadata c);
          fp_templates := h |}
  else Ok {| ptr := ptr c; fp_offset := fp_offset c; records := records c;
             fp_metadata := fp_metadata c; fp_templates := h |}.

(** One entry of [data_couple]. *)
Definition filter_couple (mem : bytes) (profile : filter_profile) (c : filter_process)
    (x : Z * option loc) : res filter_process :=
  match x.2 with
  | None => Ok c
  | Some l =>
      let oldoffset := fp_offset c in
      header ← rdn mem x.1 4;
      c ← put c header;
      t ← deref (fp_templates c) l;
      r ← data_set_process_records data_set_fuel mem x.1 t (filter_process_data_record mem profile l) c;
      let c := r.2 in
      if decide (fp_offset c = oldoffset + 4) then
        Ok {| ptr := ptr c; fp_offset := oldoffset; records := records c;
              fp_metadata := fp_metadata c; fp_templates := fp_templates c |}
      else
        p ← wr16 (ptr c) (oldoffset + 2) (fp_offset c - oldoffset);
        Ok {| ptr := p; fp_offset := fp_offset c; records := records c;
              fp_metadata := fp_metadata c; fp_templates := fp_templates c |}
  end.

(** ** Messages *)

(** The heap objects of the collector the plugin works on. *)
Record filter_state := {
  fs_templates : template_heap;
  fs_channels : channel_heap;
  fs_infos : gmap loc input_info
}.

Definition set_seq_odid (i : input_info) (seq odid : Z) : input_info :=
  {| ii_type := ii_type i; ii_sequence_number := seq; ii_odid := odid; ii_packets := ii_packets i;
     ii_data_records := ii_data_records i; ii_details := ii_details i |}.

(** The copy has the size of the structure its type stands for. *)
Definition copy_input_info (i : input_info) : res input_info :=
  if decide (ii_type i = SOURCE_TYPE_IPFIX_FILE) then _ ← as_file i; Ok i
  else _ ← as_network i; Ok i.

(** The old sequence number, the profile and the objects. *)
Definition filter_profile_update_input_info (profile : filter_profile) (infos : gmap loc input_info)
    (input : loc) (n : Z) : res (Z * filter_profile * gmap loc input_info) :=
  x ← match fp_input_info profile with
      | Some l => Ok (l, infos)
      | None =>
          i ← deref infos input;
          i ← copy_input_info i;
          let l := fresh (dom infos) in
          Ok (l, <[l := set_seq_odid i 0 (new_odid profile)]> infos)
      end;
  let '(l, infos) := x in
  i ← deref infos l;
  let sn := ii_sequence_number i in
  Ok (sn, set_fp_input_info profile (Some l), <[l := set_seq_odid i (u32 (sn + n)) (ii_odid i)]> infos).

Definition filter_copy_metainfo (src dst : ipfix_message) (md : list metadata) (n : Z)
    (dc : list (Z * option loc)) : ipfix_message :=
  {| pkt_header := pkt_header dst; Message.input_info := Message.input_info dst;
     source_status := source_status src; plugin_status := plugin_status src;
     plugin_id := plugin_id src; data_records_count := n;
     templ_records_count := templ_records_count src; opt_templ_records_count := opt_templ_records_count src;
     templ_set := templ_set dst; opt_templ_set := opt_templ_set dst; data_couple := dc;
     live_profile := live_profile src; msg_metadata := md |}.

(** The template of the first data couple of the original with the same identifier. *)
Definition match_couple (mem new : bytes) (couples : list (Z * option loc)) (set : Z) : res (option loc) :=
  id ← rd16 new set;
  r ← for_each (λ x _, id' ← rd16 mem x.1; Ok (if decide (id = id') then inr x.2 else inl tt)) couples tt;
  Ok (match r with inr l => l | inl _ => None end).

Fixpoint match_couples (mem new : bytes) (couples : list (Z * option loc)) (sets : list Z)
    (h : template_heap) : res (list (Z * option loc) * template_heap) :=
  match sets with
  | [] => Ok ([], h)
  | set :: sets =>
      o ← match_couple mem new couples set;
      l ← or_fault NullDeref o;
      h ← tm_template_reference_inc h l;
      x ← match_couples mem new couples sets h;
      Ok ((set, Some l) :: x.1, x.2)
  end.

Definition filter_apply_profile (msg : ipfix_message) (profile : filter_profile) (st : filter_state) :
    res (filter_state * filter_profile * option ipfix_message) :=
  input ← or_fault NullDeref (Message.input_info msg);
  if decide (source_status msg = SOURCE_STATUS_CLOSED) then
    x ← filter_profile_update_input_info profile (fs_infos st) input (data_records_count msg);
    let '(_, profile, infos) := x in
    Ok ({| fs_templates := fs_templates st; fs_channels := fs_channels st; fs_infos := infos |}, profile,
        Some (new_message None (fp_input_info profile) (source_status msg)))
  else
    mem ← or_fault NullDeref (pkt_header msg);
    pktlen ← rd16 mem 2;
    md ← message_copy_metadata (fs_channels st) msg;
    let '(channels, md) := md in
    header ← rdn mem 0 IPFIX_HEADER_LENGTH;
    c ← put {| ptr := replicate (Z.to_nat pktlen) 0; fp_offset := 0; records := 0; fp_metadata := md;
               fp_templates := fs_templates st |} header;
    c ← filter_add_template_sets mem msg c;
    c ← fold_res (filter_couple mem profile) (data_couple msg) c;
    let offset := fp_offset c in
    if decide (offset = IPFIX_HEADER_LENGTH) then
      Ok ({| fs_templates := fp_templates c; fs_channels := channels; fs_infos := fs_infos st |}, profile, None)
    else
      x ← filter_profile_update_input_info profile (fs_infos st) input (records c);
      let '(sn, profile, infos) := x in
      p ← wr32 (ptr c) 8 sn;
      p ← wr16 p 2 offset;
      p ← wr32 p 12 (new_odid profile);
      m ← message_create_from_mem p offset (fp_input_info profile) (source_status msg);
      new_msg ← or_fault NullDeref m;
      new ← or_fault NullDeref (pkt_header new_msg);
      y ← match_couples mem new (data_couple msg) (data_couple new_msg).*1 (fp_templates c);
      Ok ({| fs_templates := y.2; fs_channels := channels; fs_infos := infos |}, profile,
          Some (filter_copy_metainfo msg new_msg (fp_metadata c) (u16 (records c)) y.1)).

(** What is passed to the next plugin and what is dropped. *)
Inductive filter_event :=
  | pass_message (msg : ipfix_message)
  | drop_message (msg : ipfix_message).

Definition passed (m : option ipfix_message) : list filter_event :=
  match m with Some m => [pass_message m] | None => [] end.

(** The profiles of the source [odid] one after the other; the number of them. *)
Fixpoint apply_profiles (msg : ipfix_message) (odid : Z) (ps : list filter_profile) (st : filter_state) :
    res (filter_state * list filter_profile * list filter_event * Z) :=
  match ps with
  | [] => Ok (st, [], [], 0)
  | p :: ps =>
      if decide (odid ∈ fp_sources p) then
        x ← filter_apply_profile msg p st;
        let '(st, p, m) := x in
        y ← apply_profiles msg odid ps st;
        let '(st, ps, es, n) := y in
        Ok (st, p :: ps, passed m ++ es, 1 + n)
      else
        y ← apply_profiles msg odid ps st;
        let '(st, ps, es, n) := y in
        Ok (st, p :: ps, es, n)
  end.

Definition intermediate_process_message (conf : filter_config) (msg : ipfix_message) (st : filter_state) :
    res (filter_state * filter_config * list filter_event) :=
  input ← or_fault NullDeref (Message.input_info msg);
  i ← deref (fs_infos st) input;
  x ← apply_profiles msg (ii_odid i) (fc_profiles conf) st;
  let '(st, ps, es, n) := x in
  let config d := {| remove_original := remove_original conf; fc_profiles := ps; default_profile := d |} in
  let original := if remove_original conf then drop_message msg else pass_message msg in
  if decide (n = 0) then
    match default_profile conf with
    | Some d =>
        x ← filter_apply_profile msg d st;
        let '(st, d, m) := x in
        Ok (st, config (Some d), es ++ passed m ++ [original])
    | None => Ok (st, config None, es ++ [pass_message msg])
    end
  else Ok (st, config (default_profile conf), es ++ [original]).
End filter.

(** ** Values and nodes *)

Definition filter_num_to_ptr (data : bytes) (length : Z) : res bytes := x ← rdn data 0 length; Ok (rev x).

Definition multiplier (suffix : Z) : Z :=
  if decide (suffix ∈ str "kK") then 1000
  else if decide (suffix ∈ str "mM") then 1000000
  else if decide (suffix ∈ str "gG") then 1000000000
  else if decide (suffix ∈ str "tT") then 1000000000000
  else 1.

(** The product is unsigned. *)
Definition filter_parse_number (number : bytes) : res filter_value :=
  suffix ← or_fault OobRead (head (rev number));
  value ← filter_num_to_ptr (enc_le 8 (u64 (strtol number * multiplier suffix))) 8;
  Ok (VT_NUMBER value 8).

Definition filter_parse_hexnum (hexnum : bytes) : res filter_value :=
  value ← filter_num_to_ptr (enc_le 8 (u64 (strtol16 hexnum))) 8; Ok (VT_NUMBER value 8).

Definition filter_parse_string (string : bytes) : filter_value := VT_STRING string (blen string).

Definition filter_decode_operator (op : bytes) : operators :=
  if decide (op = str "=" ∨ op = str "==") then OP_EQUAL
  else if decide (op = str "!=") then OP_NOT_EQUAL
  else if decide (op = str "<") then OP_LESS
  else if decide (op = str "<=" ∨ op = str "=<") then OP_LESS_EQUAL
  else if decide (op = str ">") then OP_GREATER
  else if decide (op = str ">=" ∨ op = str "=>") then OP_GREATER_EQUAL
  else OP_EQUAL.

Definition filter_new_leaf_node (field : filter_field) (op : bytes) (value : filter_value) : filter_treenode :=
  NODE_LEAF false (filter_decode_operator op) field value.

Definition filter_new_leaf_node_opless (field : filter_field) (value : filter_value) : filter_treenode :=
  match value with
  | VT_STRING _ _ => NODE_LEAF false OP_NONE field value
  | _ => filter_new_leaf_node field (str "=") value
  end.

(** The type of a parent node is its constructor. *)
Definition filter_decode_type (type : bytes) : bool → filter_treenode → filter_treenode → filter_treenode :=
  if decide (type = str "and" ∨ type = str "AND" ∨ type = str "&&") then NODE_AND else NODE_OR.

Definition filter_new_parent_node (l : filter_treenode) (type : bytes) (r : filter_treenode) : filter_treenode :=
  filter_decode_type type false l r.

Definition filter_new_exists_node (field : filter_field) : filter_treenode := NODE_EXISTS false field.

Definition filter_node_set_negated (node : option filter_treenode) : option filter_treenode :=
  match node with
  | Some (NODE_LEAF _ op field value) => Some (NODE_LEAF true op field value)
  | Some (NODE_AND _ l r) => Some (NODE_AND true l r)
  | Some (NODE_OR _ l r) => Some (NODE_OR true l r)
  | Some (NODE_EXISTS _ field) => Some (NODE_EXISTS true field)
  | None => None
  end.

Definition filter_set_root (profile : filter_profile) (node : option filter_treenode) : filter_profile :=
  match node with Some n => set_fp_root profile (Some n) | None => profile end.

Definition filter_parse_rawfield (rawfield : bytes) : res filter_field :=
  let '(enterprise, idptr) := strtoul (drop 1 rawfield) in
  if decide (blen idptr < 2) then Fault OobRead
  else Ok {| ff_enterprise := u32 enterprise; ff_id := u16 (strtoul (drop 2 idptr)).1 |}.

(** The library: whether a regular expression compiles, addresses as octets, the seconds
    of a time, and the elements of the description of elements with a name, each as the
    names and texts of its children. *)
Section parameters.
Context (regcomp : bytes → bool) (inet_pton : Z → bytes → option bytes) (mktime : bytes → option Z).
Context (find_element : bytes → option (list (bytes * option bytes))).

Definition filter_parse_regex (regexstr : bytes) : option filter_value :=
  if regcomp regexstr then Some (VT_REGEX regexstr) else None.

Definition filter_parse_ipv4 (addr : bytes) : option filter_value :=
  value ← inet_pton 4 addr; Some (VT_NUMBER value 4).
Definition filter_parse_ipv6 (addr : bytes) : option filter_value :=
  value ← inet_pton 6 addr; Some (VT_NUMBER value 16).

Definition filter_parse_timestamp (tstamp : bytes) : res (option filter_value) :=
  match mktime tstamp with
  | None => Ok None
  | Some t =>
      suffix ← or_fault OobRead (head (rev tstamp));
      let mult := if decide (suffix ∈ str "m") then 1000
                  else if decide (suffix ∈ str "u") then 1000000
                  else if decide (suffix ∈ str "n") then 1000000000 else 1 in
      value ← filter_num_to_ptr (enc_le 8 (u64 (u64 t * mult))) 8;
      Ok (Some (VT_NUMBER value 8))
  end.

(** The expression for the name is written into 100 characters. *)
Definition xpath_size : Z := 100.
Definition xpath (name : bytes) : bytes := str "/ipfix-elements/element[name='" ++ name ++ str "']".

Definition parse_info (field : filter_field) (info : bytes * option bytes) : res filter_field :=
  if decide (info.1 = str "enterprise") then
    tmp ← or_fault NullDeref info.2;
    Ok {| ff_enterprise := u32 (strtoul tmp).1; ff_id := ff_id field |}
  else if decide (info.1 = str "id") then
    tmp ← or_fault NullDeref info.2;
    Ok {| ff_enterprise := ff_enterprise field; ff_id := u16 (strtoul tmp).1 |}
  else Ok field.

Definition filter_parse_field (name : bytes) : res (option filter_field) :=
  if decide (blen (xpath name) + 1 > xpath_size) then Fault OobWrite else
  match find_element (xpath name) with
  | None => Ok None
  | Some infos => field ← fold_res parse_info infos {| ff_enterprise := 0; ff_id := 0 |}; Ok (Some field)
  end.
End parameters.

(** ** Configuration *)

(** An element under the root of the configuration: its name, its text, its attribute
    [to], and the names and texts of its child elements. *)
Record xml_element := {
  xe_name : bytes;
  xe_text : option bytes;
  xe_to : option bytes;
  xe_children : list (bytes * option bytes)
}.

Definition lower (c : Z) : Z := if decide (65 ≤ c ≤ 90) then c + 32 else c.
Definition xmlStrcasecmp_equal (a : option bytes) (b : bytes) : bool :=
  match a with Some a => bool_decide (lower <$> a = lower <$> b) | None => false end.

(** [yyparse] on a filter: its tree, or [None] for an error. *)
Section init.
Context (yyparse : bytes → option filter_treenode).

(** The sources and the filter of a profile; a source becomes the first of the list. *)
Definition init_child (s : list Z * option bytes) (child : bytes * option bytes) : res (list Z * option bytes) :=
  if decide (child.1 = str "from") then
    text ← or_fault NullDeref child.2; Ok (u32 (atoi text) :: s.1, s.2)
  else if decide (child.1 = str "filterString") then Ok (s.1, child.2)
  else Ok s.

Definition init_profile (conf : filter_config) (profile : xml_element) : res filter_config :=
  if decide (xe_name profile = str "removeOriginal") then
    Ok (if xmlStrcasecmp_equal (xe_text profile) (str "true")
        then {| remove_original := true; fc_profiles := fc_profiles conf; default_profile := default_profile conf |}
        else conf)
  else
    to ← or_fault NullDeref (xe_to profile);
    s ← fold_res init_child (xe_children profile) ([], None);
    let '(sources, text) := s in
    match text with
    | None => Ok conf
    | Some text =>
        match yyparse text with
        | None => Ok conf
        | Some node =>
            let p := filter_set_root {| fp_input_info := None; new_odid := u32 (atoi to); root := None;
                                        fp_sources := sources |} (Some node) in
            if xmlStrcasecmp_equal (Some (xe_name profile)) (str "default") then
              Ok match default_profile conf with
                 | Some _ => conf
                 | None => {| remove_original := remove_original conf; fc_profiles := fc_profiles conf;
                              default_profile := Some p |}
                 end
            else Ok {| remove_original := remove_original conf; fc_profiles := p :: fc_profiles conf;
                       default_profile := default_profile conf |}
        end
    end.

(** [None] for a configuration without a document or without a root. *)
Definition intermediate_init (doc : option (list xml_element)) : res (option filter_config) :=
  match doc with
  | None => Ok None
  | Some profiles =>
      conf ← fold_res init_profile profiles
               {| remove_original := false; fc_profiles := []; default_profile := None |};
      Ok (Some conf)
  end.
End init.

(** ** Specification: what a filter means *)

(** [s] stands somewhere in [u]; the first place. *)
Definition occurs (s u : bytes) : Prop := ∃ l r, u = l ++ s ++ r.

Fixpoint find_sub (s u : bytes) : option nat :=
  if decide (s `prefix_of` u) then Some O
  else match u with [] => None | _ :: u => S <$> find_sub s u end.

Lemma find_sub_occurs s u : is_Some (find_sub s u) ↔ occurs s u.
Proof.
  induction u as [|c u IH]; cbn [find_sub]; case_decide as Hp.
  - split; [|by eexists]. destruct Hp as [r E]. intros _. by exists [], r.
  - split; [by intros [? ?]|]. intros ([|] & r & E); [|done]. destruct Hp. by exists r.
  - split; [|by eexists]. destruct Hp as [r E]. intros _. by exists [], r.
  - rewrite fmap_is_Some, IH. split.
    + intros (l & r & ->). by exists (c :: l), r.
    + intros ([|c' l] & r & E); [destruct Hp; by exists r|]. injection E as _ E. by exists l, r.
Qed.

#[export] Instance occurs_dec s u : Decision (occurs s u).
Proof. refine (cast_if (decide (is_Some (find_sub s u)))); by rewrite <-find_sub_occurs. Defined.

Section semantics.
Context (regexec : bytes → bytes → bool).

(** The value of the first such field of a record. *)
Definition record_value (f : filter_field) (d : list datum) : option bytes :=
  (λ y, dv_bytes y.2.2) <$> find_split (λ x : datum, field_is (ff_enterprise f) (ff_id f) x.1) d.

Definition compares (op : operators) (x y : Z) : bool :=
  match op with
  | OP_EQUAL => bool_decide (x = y)
  | OP_NOT_EQUAL => bool_decide (x ≠ y)
  | OP_LESS_EQUAL => bool_decide (x ≤ y)
  | OP_LESS => bool_decide (x < y)
  | OP_GREATER_EQUAL => bool_decide (y ≤ x)
  | OP_GREATER => bool_decide (y < x)
  | OP_NONE => false
  end.

(** Numbers are compared at the width of the field. For strings [<] is "ends with" and
    [>] is "begins with"; a string without operator is looked for, up to the first 0. *)
Definition leaf_holds (op : operators) (value : filter_value) (v : bytes) : bool :=
  match value with
  | VT_NUMBER w n =>
      if decide (n < blen v) then bool_decide (op = OP_NOT_EQUAL)
      else compares op (dec_be v) (dec_be w mod 256 ^ blen v)
  | VT_STRING s _ =>
      match op with
      | OP_NONE => bool_decide (occurs s (c_string v))
      | OP_EQUAL => bool_decide (v = s)
      | OP_NOT_EQUAL => bool_decide (v ≠ s)
      | OP_LESS => bool_decide (s `suffix_of` v ∧ 0 ∉ v)
      | OP_GREATER => bool_decide (s `prefix_of` v)
      | _ => false
      end
  | VT_REGEX regex => xorb (bool_decide (op = OP_NOT_EQUAL)) (regexec regex (c_string v))
  end.

Fixpoint node_holds (d : list datum) (node : filter_treenode) : bool :=
  match node with
  | NODE_LEAF negate op field value =>
      xorb negate match record_value field d with
                  | Some v => leaf_holds op value v
                  | None => bool_decide (op = OP_NOT_EQUAL)
                  end
  | NODE_AND negate l r => xorb negate (node_holds d l && node_holds d r)
  | NODE_OR negate l r => xorb negate (node_holds d l || node_holds d r)
  | NODE_EXISTS negate field => xorb negate (bool_decide (is_Some (record_value field d)))
  end.

(** The values as the parser makes them; no test for the end "" (see
    [empty_suffix_faults]). *)
Definition value_ok (op : operators) (value : filter_value) : Prop :=
  match value with
  | VT_NUMBER w n => blen w = n ∧ wf_bytes w
  | VT_STRING s n => blen s = n ∧ 0 ∉ s ∧ (op = OP_LESS → s ≠ [])
  | VT_REGEX _ => True
  end.

Fixpoint node_ok (node : filter_treenode) : Prop :=
  match node with
  | NODE_LEAF _ op _ value => value_ok op value
  | NODE_AND _ l r | NODE_OR _ l r => node_ok l ∧ node_ok r
  | NODE_EXISTS _ _ => True
  end.
End semantics.

(** ** Theory: numbers *)

Lemma dec_be_cons x a : dec_be (x :: a) = x * 256 ^ blen a + dec_be a.
Proof. unfold dec_be. cbn [rev]. rewrite dec_le_app, blen_rev. change (dec_le [x]) with (x + 256 * 0). lia. Qed.

Lemma dec_be_range v : wf_bytes v → 0 ≤ dec_be v < 256 ^ blen v.
Proof. intros Hv. unfold dec_be. rewrite <-blen_rev. apply dec_le_range. by apply Forall_rev. Qed.

Lemma dec_be_app a b : dec_be (a ++ b) = dec_be a * 256 ^ blen b + dec_be b.
Proof. unfold dec_be. rewrite rev_app_distr, dec_le_app, blen_rev. lia. Qed.

(** The low octets of a number. *)
Lemma dec_be_low a b : wf_bytes b → dec_be (a ++ b) mod 256 ^ blen b = dec_be b.
Proof. intros Hb%dec_be_range. by rewrite dec_be_app, Z.add_comm, Z_mod_plus_full, Z.mod_small. Qed.

(** Comparing octets in network order is comparing numbers. *)
Lemma memcmp_spec a : ∀ b, length a = length b → wf_bytes a → wf_bytes b →
  (memcmp a b = 0 ↔ dec_be a = dec_be b) ∧ (memcmp a b < 0 ↔ dec_be a < dec_be b).
Proof.
  induction a as [|x a IH]; intros [|y b] Hl Ha Hb; try done; cbn [memcmp].
  apply Forall_cons in Ha as [Hx Ha]. apply Forall_cons in Hb as [Hy Hb]. injection Hl as Hl.
  rewrite !dec_be_cons. assert (blen a = blen b) as -> by (unfold blen; by rewrite Hl).
  pose proof (dec_be_range a Ha) as Ra. pose proof (dec_be_range b Hb) as Rb.
  assert (blen a = blen b) as E by (unfold blen; by rewrite Hl). rewrite E in Ra.
  set (m := 256 ^ blen b) in *. destruct (decide (x = y)) as [->|Hxy].
  - destruct (IH b Hl Ha Hb) as [-> ->]. lia.
  - split; [split; [lia|]|]; (destruct (decide (x < y)); [assert (x * m + m ≤ y * m) by nia|assert (y * m + m ≤ x * m) by nia]); lia.
Qed.

Lemma op_holds_compares op a b : length a = length b → wf_bytes a → wf_bytes b →
  op_holds op (memcmp a b) = compares op (dec_be a) (dec_be b).
Proof.
  intros Hl Ha Hb. destruct (memcmp_spec a b Hl Ha Hb) as [H1 H2].
  destruct op; cbn [op_holds compares]; try done; apply bool_decide_ext; lia.
Qed.

(** ** Theory: strings *)

Section strings.
Implicit Types (s v u : bytes).

Lemma c_string_front v : ∃ r, v = c_string v ++ r.
Proof.
  exists (drop (length (c_string v)) v). pose proof (take_drop (length (c_string v)) v) as H.
  by rewrite <-c_string_prefix in H.
Qed.

Lemma c_string_nonzero v : 0 ∉ c_string v.
Proof. induction v as [|c v IH]; cbn [c_string]; [set_solver|]. case_decide; set_solver. Qed.

Lemma c_string_id v : 0 ∉ v → c_string v = v.
Proof. induction v as [|c v IH]; [done|]. intros H. cbn [c_string]. rewrite decide_False, IH by set_solver. done. Qed.

Lemma c_string_full v : length (c_string v) = length v ↔ 0 ∉ v.
Proof.
  split; [|by intros ->%c_string_id]. intros Hl. destruct (c_string_front v) as [r Hr].
  assert (r = []) as ->. { apply (f_equal length) in Hr. rewrite length_app in Hr. destruct r; [done|cbn in Hr; lia]. }
  rewrite app_nil_r in Hr. rewrite Hr. apply c_string_nonzero.
Qed.

Lemma c_string_drop v i : (i ≤ length (c_string v))%nat → c_string (drop i v) = drop i (c_string v).
Proof.
  revert v. induction i as [|i IH]; intros v; [done|]. destruct v as [|c v]; [done|]. cbn [c_string].
  case_decide; cbn [length drop c_string]; intros Hi; [lia|]. apply IH. lia.
Qed.

(** A string without 0 stands in front of some memory if it does in front of the string there. *)
Lemma prefix_c_string s v r : 0 ∉ s → s `prefix_of` v ++ 0 :: r ↔ s `prefix_of` c_string v.
Proof.
  revert v. induction s as [|x s IH]; intros v Hs; [split; intros _; apply prefix_nil|].
  apply not_elem_of_cons in Hs as [Hx Hs]. destruct v as [|c v]; cbn [app c_string].
  - split; intros H; [by apply prefix_cons_inv_1 in H as ->|by apply prefix_nil_not in H].
  - case_decide as Hc; [subst; split; intros H; [by apply prefix_cons_inv_1 in H as ->|by apply prefix_nil_not in H]|].
    split; intros H; pose proof (prefix_cons_inv_1 _ _ _ _ H) as ->; apply prefix_cons_inv_2 in H;
      apply prefix_cons; by apply (IH v Hs).
Qed.

Lemma prefix_c_string' s v : 0 ∉ s → s `prefix_of` v ↔ s `prefix_of` c_string v.
Proof.
  intros Hs. split.
  - intros [r ->]. apply (prefix_c_string s (s ++ r) [] Hs). exists (r ++ [0]). by rewrite <-app_assoc.
  - intros H. destruct (c_string_front v) as [r ->]. by apply prefix_app_r.
Qed.

Lemma strstr_from_spec s v p : 0 ∉ s →
  strstr_from s (v ++ [0]) p = Ok ((λ i, p + Z.of_nat i) <$> find_sub s (c_string v)).
Proof.
  intros Hs. revert p. induction v as [|c v IH]; intros p.
  - cbn [app strstr_from c_string find_sub]. pose proof (prefix_c_string s [] [] Hs) as H. cbn [app c_string] in H.
    rewrite (decide_ext _ (s `prefix_of` []) _ _ H). case_decide; cbn; [by rewrite Z.add_0_r|done].
  - change ((c :: v) ++ [0]) with (c :: (v ++ [0])). cbn [strstr_from].
    pose proof (prefix_c_string s (c :: v) [] Hs) as H. change ((c :: v) ++ [0]) with (c :: (v ++ [0])) in H.
    rewrite (decide_ext _ _ _ _ H). unfold find_sub. cbn [c_string]. destruct (decide (c = 0)) as [Hc|Hc].
    + case_decide; cbn; [by rewrite Z.add_0_r|done].
    + fold find_sub. case_decide; [cbn; by rewrite Z.add_0_r|]. rewrite IH. f_equal.
      destruct (find_sub s (c_string v)); cbn; [f_equal; lia|done].
Qed.

(** [s] stands at the place [i] of [u]. *)
Definition occurs_at s u (i : Z) : Prop := 0 ≤ i ∧ s `prefix_of` drop (Z.to_nat i) u.

Lemma occurs_at_room s u i : s ≠ [] → occurs_at s u i → i + blen s ≤ blen u.
Proof.
  intros Hs [Hi [r E] ]. apply (f_equal length) in E. rewrite length_drop, length_app in E.
  destruct s; [done|]. unfold blen. cbn [length] in *. lia.
Qed.

Lemma find_sub_first s u :
  match find_sub s u with
  | Some i => occurs_at s u (Z.of_nat i) ∧ ∀ j, occurs_at s u j → Z.of_nat i ≤ j
  | None => ∀ j, ¬ occurs_at s u j
  end.
Proof.
  induction u as [|c u IH]; cbn [find_sub]; case_decide as Hp.
  - split; [split; [lia|done]|]. by intros j [? _].
  - intros j [_ Hj]. by rewrite drop_nil in Hj.
  - split; [split; [lia|done]|]. by intros j [? _].
  - assert (∀ j, occurs_at s (c :: u) j → 1 ≤ j ∧ occurs_at s u (j - 1)) as Hj.
    { intros j [Hj Hpj]. destruct (decide (j = 0)) as [->|]; [done|]. split; [lia|]. split; [lia|].
      replace (Z.to_nat j) with (S (Z.to_nat (j - 1))) in Hpj by lia. exact Hpj. }
    destruct (find_sub s u) as [i|]; cbn [fmap option_fmap option_map].
    + destruct IH as ([_ Hi] & Hfirst). split.
      * split; [lia|]. rewrite Nat2Z.id in *. exact Hi.
      * intros j [? Ho]%Hj. apply Hfirst in Ho. lia.
    + intros j [_ Ho]%Hj. by eapply IH.
Qed.

(** The last place. *)
Definition is_last s u (o : option Z) : Prop :=
  (∀ i, occurs_at s u i → ∃ q, o = Some q ∧ i ≤ q) ∧ (∀ q, o = Some q → occurs_at s u q).

Lemma find_last_spec s v : 0 ∉ s → s ≠ [] →
  ∃ o, loop (find_last_step (v ++ [0]) s) (S (S (length (v ++ [0]))))
         (Z.of_nat <$> find_sub s (c_string v), None) = Ok o ∧ is_last s (c_string v) o.
Proof.
  intros Hs Hne. set (u := c_string v).
  apply (loop_total _ (λ st : option Z * option Z,
    (∀ q, st.1 = Some q → occurs_at s u q) ∧ (∀ q, st.2 = Some q → occurs_at s u q) ∧
    (∀ q p, st.2 = Some q → st.1 = Some p → q < p) ∧
    ∀ i, occurs_at s u i → (∃ q, st.2 = Some q ∧ i ≤ q) ∨ ∃ p, st.1 = Some p ∧ p ≤ i)
    (λ st, match st.1 with Some p => S (Z.to_nat (blen u - p)) | None => O end)
    (λ r, ∃ o, r = Ok o ∧ is_last s u o)).
  - intros [pos prev] (Hpos & Hprev & Hlt & Hall). cbn [fst snd] in *. unfold find_last_step. cbn [fst snd].
    destruct pos as [p|].
    2: { exists prev. split; [done|]. split; [|done]. intros i Hi. destruct (Hall i Hi) as [?|(p & ? & _)]; done. }
    pose proof (Hpos p eq_refl) as Hp. pose proof (occurs_at_room s u p Hne Hp) as Hroom. destruct Hp as [Hp0 Hpp].
    assert (0 < blen s) as Hpos0 by (destruct s; [done|rewrite blen_cons; pose proof (blen_nonneg s); lia]).
    destruct (c_string_front v) as [r Hr]. fold u in Hr. pose proof (blen_nonneg r).
    assert (Z.to_nat (p + 1) ≤ length u)%nat as Hle by (unfold blen in *; lia).
    unfold strstr. rewrite drop_app_le by (rewrite Hr, length_app; lia).
    rewrite (strstr_from_spec s _ _ Hs), (c_string_drop v _ Hle), res_bind_ret. fold u.
    pose proof (find_sub_first s (drop (Z.to_nat (p + 1)) u)) as Hf.
    assert (∀ j, 0 ≤ j → occurs_at s u (p + 1 + j) ↔ occurs_at s (drop (Z.to_nat (p + 1)) u) j) as Hshift.
    { intros j Hj. unfold occurs_at. rewrite drop_drop, <-Z2Nat.inj_add by lia. split; intros [? ?]; (split; [lia|done]). }
    destruct (find_sub s _) as [i|]; cbn [fmap option_fmap option_map fst snd].
    + destruct Hf as [Hi Hfirst]. apply Hshift in Hi; [|lia]. split; [|destruct Hi as [_ Hi']; pose proof (occurs_at_room s u _ Hne ltac:(split; [|exact Hi']; lia)); lia].
      split; [by intros q [= <-]|]. split; [by intros q [= <-]|]. split; [intros q p' [= <-] [= <-]; lia|].
      intros j Hj. destruct (decide (j ≤ p)); [left; by exists p|]. right. eexists. split; [done|].
      replace j with (p + 1 + (j - (p + 1))) in Hj |- * by lia. apply Hshift in Hj; [|lia]. apply Hfirst in Hj. lia.
    + split; [|lia]. split; [done|]. split; [by intros q [= <-]|]. split; [done|].
      intros j Hj. destruct (decide (j ≤ p)); [left; by exists p|]. exfalso.
      replace j with (p + 1 + (j - (p + 1))) in Hj by lia. apply Hshift in Hj; [|lia]. by eapply Hf.
  - cbn [fst snd]. pose proof (find_sub_first s u) as Hf. destruct (find_sub s u) as [i|]; cbn [fmap option_fmap option_map].
    + destruct Hf as [Hi Hfirst]. split; [by intros q [= <-]|]. split; [done|]. split; [done|]. intros j Hj. right. eauto.
    + split; [done|]. split; [done|]. split; [done|]. intros j Hj. by apply Hf in Hj.
  - cbn [fst]. destruct (c_string_front v) as [r Hr]. fold u in Hr. rewrite Hr, !length_app.
    destruct (find_sub s u); cbn; [unfold blen|]; lia.
Qed.
End strings.

(** ** Theory: the conditions *)

Section holds.
Context (regexec : bytes → bytes → bool).

Lemma occurs_length s u : occurs s u → blen s ≤ blen u ∧ (blen s = blen u → s = u).
Proof.
  intros (l & r & ->). rewrite !blen_app. pose proof (blen_nonneg l). pose proof (blen_nonneg r). split; [lia|].
  intros H1. assert (blen l = 0 ∧ blen r = 0) as [Hl Hr] by lia.
  destruct l; [|rewrite blen_cons in Hl; pose proof (blen_nonneg l); lia].
  destruct r; [by rewrite app_nil_r|rewrite blen_cons in Hr; pose proof (blen_nonneg r); lia].
Qed.

(** Equality: the string stands in the value, which has its length. *)
Lemma equal_string s v : 0 ∉ s → occurs s (c_string v) ∧ blen v = blen s ↔ v = s.
Proof.
  intros Hs. split.
  - intros [Ho Hl]. pose proof (c_string_le v). destruct (occurs_length _ _ Ho) as [Hle Heq].
    assert (0 ∉ v) as Hv. { apply c_string_full. unfold blen in *. lia. }
    rewrite (c_string_id v Hv) in Heq. symmetry. apply Heq. lia.
  - intros ->. rewrite c_string_id by done. split; [|done]. exists [], []. by rewrite app_nil_r.
Qed.

(** The first place is the start. *)
Lemma begins_with s v : 0 ∉ s → Z.of_nat <$> find_sub s (c_string v) = Some 0 ↔ s `prefix_of` v.
Proof.
  intros Hs. rewrite (prefix_c_string' s v Hs). pose proof (find_sub_first s (c_string v)) as Hf. split.
  - destruct (find_sub s (c_string v)) as [i|]; [|done]. cbn. intros [= E]. destruct Hf as [ [_ Hi] _].
    rewrite E in Hi. exact Hi.
  - intros Hp. assert (occurs_at s (c_string v) 0) as H0 by (split; [lia|done]).
    destruct (find_sub s (c_string v)) as [i|]; [|by apply Hf in H0]. cbn. apply Hf in H0. f_equal. lia.
Qed.

(** The last place is where the string would stand at the end. *)
Lemma ends_with s v o : 0 ∉ s → s ≠ [] → is_last s (c_string v) o →
  o = Some (blen v - blen s) ↔ s `suffix_of` v ∧ 0 ∉ v.
Proof.
  intros Hs Hne [Hlast Hocc]. pose proof (c_string_le v). split.
  - intros ->. specialize (Hocc _ eq_refl). pose proof (occurs_at_room _ _ _ Hne Hocc) as Hroom.
    assert (0 ∉ v) as Hv by (apply c_string_full; unfold blen in *; lia). split; [|done].
    rewrite (c_string_id v Hv) in Hocc. destruct Hocc as [Hi [r Hr] ].
    exists (take (Z.to_nat (blen v - blen s)) v). rewrite <-(take_drop (Z.to_nat (blen v - blen s)) v) at 1.
    rewrite Hr. apply (f_equal length) in Hr. rewrite length_drop, length_app in Hr.
    destruct r; [by rewrite app_nil_r|]. unfold blen in *. cbn [length] in Hr. lia.
  - intros [ [l ->] Hv]. rewrite (c_string_id _ Hv) in *. destruct (Hlast (blen l)) as (q & -> & Hq).
    { split; [apply blen_nonneg|]. unfold blen. rewrite Nat2Z.id, drop_app_length. done. }
    pose proof (occurs_at_room _ _ _ Hne (Hocc _ eq_refl)) as Hroom. rewrite blen_app in *. f_equal. lia.
Qed.

(** A value and the memory around it. *)
Section value.
Context (mem : bytes) (rec : Z) (t t' : ipfix_template) (f : filter_field) (v : bytes) (p : Z).
Context (Hget : data_record_get_field mem rec t (ff_enterprise f) (ff_id f) true = Ok (Some p, Some (blen v), t')).
Context (Hp : rdn mem p (blen v) = Ok v).

Lemma fits_value_found op w n : blen w = n → wf_bytes w → wf_bytes v →
  filter_fits_value mem rec op f w n t = Ok (leaf_holds regexec op (VT_NUMBER w n) v, t').
Proof using Hget Hp.
  intros Hn Hw Hv. unfold filter_fits_value. rewrite Hget, res_bind_ret. cbn [default Datatypes.id leaf_holds].
  destruct (decide (n < blen v)); [by rewrite decide_True by lia|]. rewrite decide_False by lia.
  rewrite Hp, res_bind_ret. pose proof (blen_nonneg v).
  destruct (blen_split w (n - blen v)) as (a & b & -> & Ha & Hb); [lia|].
  apply Forall_app in Hw as [_ Hw]. rewrite Hn in Hb.
  pose proof (rdn_here a b []) as Hr. rewrite app_nil_r in Hr.
  replace (n - blen v) with (blen a) by lia. replace (blen v) with (blen b) by lia. rewrite Hr, res_bind_ret.
  rewrite (dec_be_low a b Hw). do 2 f_equal. apply op_holds_compares; [|done..]. unfold blen in *. lia.
Qed.

Lemma fits_string_found op s n : blen s = n → 0 ∉ s → (op = OP_LESS → s ≠ []) →
  filter_fits_string mem rec op f s n t = Ok (leaf_holds regexec op (VT_STRING s n) v, t').
Proof using Hget Hp.
  intros <- Hs Hne. unfold filter_fits_string. rewrite Hget, res_bind_ret. cbn [default Datatypes.id].
  rewrite Hp, res_bind_ret. unfold strstr. change (drop (Z.to_nat 0) (v ++ [0])) with (v ++ [0]). rewrite (strstr_from_spec s v 0 Hs), res_bind_ret.
  replace ((λ i, 0 + Z.of_nat i) <$> find_sub s (c_string v)) with (Z.of_nat <$> find_sub s (c_string v))
    by (by destruct (find_sub s (c_string v))).
  destruct op; cbn [leaf_holds]; rewrite ?res_bind_ret.
  - do 2 f_equal. apply bool_decide_ext. rewrite fmap_is_Some, find_sub_occurs. by apply equal_string.
  - destruct (find_last_spec s v Hs (Hne eq_refl)) as (o & -> & Ho). rewrite !res_bind_ret. do 2 f_equal.
    apply bool_decide_ext. by apply ends_with; [|apply Hne|].
  - done.
  - do 2 f_equal. apply bool_decide_ext. by apply begins_with.
  - done.
  - do 2 f_equal. rewrite <-bool_decide_not. apply bool_decide_ext.
    rewrite fmap_is_Some, find_sub_occurs. by rewrite equal_string.
  - do 2 f_equal. apply bool_decide_ext. by rewrite fmap_is_Some, find_sub_occurs.
Qed.

Lemma fits_regex_found op r :
  filter_fits_regex regexec mem rec op f r t = Ok (leaf_holds regexec op (VT_REGEX r) v, t').
Proof using Hget Hp.
  unfold filter_fits_regex. rewrite Hget, res_bind_ret. cbn [default Datatypes.id]. rewrite Hp, res_bind_ret.
  cbn [leaf_holds]. do 4 f_equal. clear. induction v as [|c u IH]; [done|]. cbn [app c_string]. by rewrite IH.
Qed.
End value.
End holds.

Section node.
Context (regexec : bytes → bytes → bool).

(** Templates that differ in the cache of offsets. *)
Definition same_but_cache (t t' : ipfix_template) : Prop := t' = set_offsets t (offsets t').

Lemma same_but_cache_refl t : same_but_cache t t.
Proof. by destruct t. Qed.
Lemma same_but_cache_trans t1 t2 t3 : same_but_cache t1 t2 → same_but_cache t2 t3 → same_but_cache t1 t3.
Proof. unfold same_but_cache. intros E1 E2. rewrite E2, E1. done. Qed.

Lemma template_of_cache t t' fs : same_but_cache t t' → template_of t fs → template_of t' fs.
Proof. unfold same_but_cache. intros -> [? ? ? ? ? ? ?]. by constructor. Qed.

Lemma data_set_of_cache t t' fs ds padding : same_but_cache t t' →
  data_set_of t fs ds padding → data_set_of t' fs ds padding.
Proof. intros Hc [? ? ? ? ?]. constructor; [by eapply template_of_cache|done..]. Qed.

(** A record that is well formed and consists of octets. *)
Definition record_ok (d : list datum) : Prop :=
  Forall datum_wf d ∧ Forall (λ x : datum, wf_bytes (dv_bytes x.2)) d.

Section record.
Context (d : list datum) (pre post : bytes) (Hd : record_ok d).
Let mem := pre ++ enc_data d ++ post.

(** Look-up of a field. *)
Lemma get_field_value t f want : template_of t d.*1 → cache_ok t →
  ∃ t', cache_ok t' ∧ same_but_cache t t' ∧
  match record_value f d with
  | None => ∃ len, data_record_get_field mem (blen pre) t (ff_enterprise f) (ff_id f) want = Ok (None, len, t')
  | Some v => ∃ p, data_record_get_field mem (blen pre) t (ff_enterprise f) (ff_id f) want =
                Ok (Some p, if want then Some (blen v) else None, t') ∧ rdn mem p (blen v) = Ok v ∧ wf_bytes v
  end.
Proof using Hd.
  intros Ht Hc. destruct Hd as [Hwf Hb].
  destruct (data_record_get_field_cache mem (blen pre) t (ff_enterprise f) (ff_id f) want Hc) as [E Hsame].
  pose proof (data_record_field_offset_at t d pre post Ht Hwf (ff_enterprise f) (ff_id f)) as Ho. fold mem in Ho.
  rewrite Ho in E. unfold value_at in E. unfold record_value.
  destruct (data_record_get_field _ _ _ _ _ _) as [ [x t']| |]; [|destruct (find_split _ d) as [ [l y]|]; done..].
  destruct (Hsame x t' eq_refl) as [Hc' Hs]. exists t'. split; [done|]. split; [done|].
  destruct (find_split _ d) as [ [l y]|] eqn:Ef; cbn [fmap res_fmap fst option_fmap option_map snd] in *.
  - destruct (find_split_Some _ _ _ _ Ef) as (r & -> & _ & _).
    rewrite decide_False in E by (pose proof (blen_nonneg (enc_data l)); pose proof (blen_nonneg (length_prefix y)); lia).
    injection E as ->. eexists. split; [done|]. destruct (value_place pre l y r post) as [Em Ep].
    split; [|by apply Forall_app in Hb as [_ [? _]%Forall_cons] ]. unfold mem. rewrite Em, Ep. apply rdn_here.
  - rewrite decide_True in E by lia. injection E as ->. by eexists.
Qed.

Lemma filter_fits_node_spec node : node_ok node → ∀ t, template_of t d.*1 → cache_ok t →
  ∃ t', filter_fits_node regexec mem (blen pre) node t = Ok (node_holds regexec d node, t') ∧
        cache_ok t' ∧ same_but_cache t t'.
Proof using Hd.
  induction node as [negate op f value|negate l IHl r IHr|negate l IHl r IHr|negate f]; intros Hok t Ht Hc;
    cbn [filter_fits_node node_holds node_ok] in *.
  - destruct (get_field_value t f true Ht Hc) as (t' & Hc' & Hs & Hv). exists t'. split; [|done].
    destruct (record_value f d) as [v|].
    + destruct Hv as (p & Hget & Hp & Hb). destruct value as [w n|s n|r]; cbn [value_ok] in Hok.
      * destruct Hok. by rewrite (fits_value_found regexec _ _ _ _ _ _ _ Hget Hp), res_bind_ret.
      * destruct Hok as (? & ? & ?). by rewrite (fits_string_found regexec _ _ _ _ _ _ _ Hget Hp), res_bind_ret.
      * by rewrite (fits_regex_found regexec _ _ _ _ _ _ _ Hget Hp), res_bind_ret.
    + destruct Hv as (len & Hget).
      destruct value; unfold filter_fits_value, filter_fits_string, filter_fits_regex; by rewrite Hget, !res_bind_ret.
  - destruct Hok as [Hl Hr]. destruct (IHl Hl t Ht Hc) as (t1 & -> & Hc1 & Hs1). rewrite res_bind_ret. cbn [fst snd].
    destruct (node_holds regexec d l); cbn [andb].
    + destruct (IHr Hr t1 (template_of_cache _ _ _ Hs1 Ht) Hc1) as (t2 & -> & Hc2 & Hs2). rewrite res_bind_ret.
      exists t2. split; [done|]. split; [done|]. by eapply same_but_cache_trans.
    + rewrite res_bind_ret. by exists t1.
  - destruct Hok as [Hl Hr]. destruct (IHl Hl t Ht Hc) as (t1 & -> & Hc1 & Hs1). rewrite res_bind_ret. cbn [fst snd].
    destruct (node_holds regexec d l); cbn [orb].
    + rewrite res_bind_ret. by exists t1.
    + destruct (IHr Hr t1 (template_of_cache _ _ _ Hs1 Ht) Hc1) as (t2 & -> & Hc2 & Hs2). rewrite res_bind_ret.
      exists t2. split; [done|]. split; [done|]. by eapply same_but_cache_trans.
  - destruct (get_field_value t f false Ht Hc) as (t' & Hc' & Hs & Hv). exists t'. split; [|done].
    unfold filter_fits_exists. destruct (record_value f d) as [v|].
    + destruct Hv as (p & -> & _). by rewrite !res_bind_ret.
    + destruct Hv as (len & ->). by rewrite !res_bind_ret.
Qed.
End record.
End node.

(** ** Theory: values *)

(** A number is stored in 8 octets in network order. *)
Lemma num_to_ptr_value v : ∃ w, filter_num_to_ptr (enc_le 8 (u64 v)) 8 = Ok w ∧ blen w = 8 ∧ wf_bytes w ∧ dec_be w = u64 v.
Proof.
  exists (rev (enc_le 8 (u64 v))). assert (0 ≤ u64 v < 256 ^ Z.of_nat 8) as Hr by (apply Z.mod_pos_bound; lia).
  split.
  { unfold filter_num_to_ptr. pose proof (rdn_here [] (enc_le 8 (u64 v)) []) as H. rewrite app_nil_r, blen_enc_le in H.
    change (Z.of_nat 8) with 8 in H. change (rdn (enc_le 8 (u64 v)) 0 8 = Ok (enc_le 8 (u64 v))) in H. by rewrite H. }
  split; [by rewrite blen_rev, blen_enc_le|]. split.
  - apply Forall_rev. clear Hr. generalize (u64 v). generalize 8%nat. induction n as [|n IH]; intros x; [by constructor|].
    constructor; [apply Z.mod_pos_bound; lia|apply IH].
  - unfold dec_be. rewrite rev_involutive. by apply dec_enc_le.
Qed.

(** Numbers with a suffix: the value modulo [2 ^ 64]. *)
Lemma filter_parse_number_value number : number ≠ [] →
  ∃ suffix w, head (rev number) = Some suffix ∧ filter_parse_number number = Ok (VT_NUMBER w 8) ∧
    dec_be w = u64 (strtol number * multiplier suffix) ∧ ∀ op, value_ok op (VT_NUMBER w 8).
Proof.
  intros Hne. unfold filter_parse_number. destruct (rev number) as [|c r] eqn:Er.
  { apply (f_equal (@rev Z)) in Er. by rewrite rev_involutive in Er. }
  destruct (num_to_ptr_value (strtol number * multiplier c)) as (w & E & Hl & Hw & Hv).
  exists c, w. split; [done|]. cbn [head or_fault]. rewrite res_bind_ret, E. split; [done|]. split; [done|]. intros op. by split.
Qed.

Lemma filter_parse_hexnum_value hexnum :
  ∃ w, filter_parse_hexnum hexnum = Ok (VT_NUMBER w 8) ∧ dec_be w = u64 (strtol16 hexnum) ∧ ∀ op, value_ok op (VT_NUMBER w 8).
Proof.
  destruct (num_to_ptr_value (strtol16 hexnum)) as (w & E & Hl & Hw & Hv). exists w.
  unfold filter_parse_hexnum. rewrite E. split; [done|]. split; [done|]. intros op. by split.
Qed.

Lemma filter_parse_string_value op s : 0 ∉ s → (op = OP_LESS → s ≠ []) → value_ok op (filter_parse_string s).
Proof. intros H1 H2. split; [done|by split]. Qed.

(** [10k], [0x1F] and [8M]. *)
Example parse_numbers :
  filter_parse_number (str "10k") = Ok (VT_NUMBER [0; 0; 0; 0; 0; 0; 39; 16] 8) ∧
  filter_parse_hexnum (str "0x1F") = Ok (VT_NUMBER [0; 0; 0; 0; 0; 0; 0; 31] 8) ∧
  filter_parse_number (str "8M") = Ok (VT_NUMBER [0; 0; 0; 0; 0; 122; 18; 0] 8) ∧
  filter_parse_rawfield (str "e8057id33") = Ok {| ff_enterprise := 8057; ff_id := 33 |}.
Proof. by vm_compute. Qed.

(** A name of more than 67 characters is written behind the buffer of the expression. *)
Lemma long_name_overflows find_element name : 67 < blen name → filter_parse_field find_element name = Fault OobWrite.
Proof.
  intros Hn. unfold filter_parse_field, xpath, xpath_size. rewrite !blen_app, decide_True; [done|].
  change (blen (str "/ipfix-elements/element[name='")) with 30. change (blen (str "']")) with 2. lia.
Qed.

(** Looking for the empty string at the end of a value does not end inside the copy of
    the value. *)
Lemma empty_suffix_faults mem rec t t' f v p : data_record_get_field mem rec t (ff_enterprise f) (ff_id f) true = Ok (Some p, Some (blen v), t') →
  rdn mem p (blen v) = Ok v → filter_fits_string mem rec OP_LESS f [] 0 t = Fault OobRead.
Proof.
  intros Hget Hp. unfold filter_fits_string. rewrite Hget, res_bind_ret. cbn [default Datatypes.id]. rewrite Hp, res_bind_ret.
  set (data := v ++ [0]).
  assert (∀ i, 0 ≤ i < blen data → strstr data i [] = Ok (Some i)) as Hin.
  { intros i Hi. unfold strstr. destruct (drop (Z.to_nat i) data) as [|c h] eqn:Ed.
    - apply (f_equal length) in Ed. rewrite length_drop in Ed. unfold blen in Hi. cbn in Ed. lia.
    - cbn [strstr_from]. by rewrite decide_True by apply prefix_nil. }
  assert (0 < blen data) as Hpos by (unfold data; rewrite blen_app; pose proof (blen_nonneg v); change (blen [0]) with 1; lia).
  rewrite Hin, res_bind_ret by lia.
  assert (∀ n i prev, (0 ≤ i < blen data) → (Z.to_nat (blen data - i) < n)%nat →
    loop (find_last_step data []) n (Some i, prev) = Fault OobRead) as Hloop.
  { induction n as [|n IH]; intros i prev Hi Hn; [lia|]. cbn [loop]. unfold find_last_step at 1. cbn [fst snd].
    destruct (decide (i + 1 < blen data)).
    - rewrite Hin, res_bind_ret by lia. apply IH; lia.
    - unfold strstr. rewrite drop_ge by (unfold blen in *; lia). done. }
  rewrite Hloop; [done|lia|]. unfold blen. lia.
Qed.

(** ** Property *)

(** C31: a filter decides what its conditions mean on the values of a data record,
    wherever the record is in the packet and whether its fields have fixed or variable
    length: numbers are compared as numbers, at the width of the field; strings for
    equality, as prefix, as suffix or as substring; a field the record does not have
    fits [!=] only; AND, OR and NOT are those of logic, although the right operand is
    looked at only when the left one does not decide. Only the cache of offsets of the
    template changes, and it stays sound. *)
Theorem filter_fits_node_holds regexec node d t pre post :
  node_ok node → template_of t d.*1 → cache_ok t → record_ok d →
  ∃ t', filter_fits_node regexec (pre ++ enc_data d ++ post) (blen pre) node t = Ok (node_holds regexec d node, t') ∧
        cache_ok t' ∧ same_but_cache t t'.
Proof. intros Hnode Ht Hc Hd. by apply filter_fits_node_spec. Qed.

(** Port 80 of a source address from 10.0.0.0 on, or a name that ends in "cz". *)
Definition filter_example : filter_treenode :=
  NODE_OR false
    (NODE_AND false
      (NODE_LEAF false OP_EQUAL {| ff_enterprise := 0; ff_id := 7 |} (VT_NUMBER [0; 0; 0; 0; 0; 0; 0; 80] 8))
      (NODE_LEAF true OP_LESS {| ff_enterprise := 0; ff_id := 8 |} (VT_NUMBER [10; 0; 0; 0] 4)))
    (NODE_LEAF false OP_LESS {| ff_enterprise := 8057; ff_id := 33 |} (VT_STRING (str "cz") 2)).

Lemma filter_example_ok : node_ok filter_example.
Proof. split_and!; try done; [by repeat constructor..|]. by vm_compute; set_solver. Qed.

Lemma cache_ok_template_example : cache_ok template_example.
Proof. by apply cache_ok_empty. Qed.

Lemma filter_fits_node_holds_witness :
  let fits name port := fst <$> filter_fits_node (λ _ _, false) ([7] ++ enc_data (record_example [10; 0; 0; 1] name port) ++ [9])
    1 filter_example template_example in
  fits [97; 98] [0; 80] = Ok true ∧ fits [97; 98] [0; 81] = Ok false ∧ fits (str "cesnet.cz") [0; 81] = Ok true.
Proof.
  split_and!.
  - destruct (filter_fits_node_holds (λ _ _, false) filter_example (record_example [10; 0; 0; 1] [97; 98] [0; 80]) template_example [7] [9])
      as (t' & E & _); [exact filter_example_ok|exact template_example_of|exact cache_ok_template_example| |].
    + split; [by apply record_example_wf|]. by repeat constructor.
    + change (blen [7]) with 1 in E. rewrite E. by vm_compute.
  - destruct (filter_fits_node_holds (λ _ _, false) filter_example (record_example [10; 0; 0; 1] [97; 98] [0; 81]) template_example [7] [9])
      as (t' & E & _); [exact filter_example_ok|exact template_example_of|exact cache_ok_template_example| |].
    + split; [by apply record_example_wf|]. by repeat constructor.
    + change (blen [7]) with 1 in E. rewrite E. by vm_compute.
  - destruct (filter_fits_node_holds (λ _ _, false) filter_example (record_example [10; 0; 0; 1] (str "cesnet.cz") [0; 81]) template_example [7] [9])
      as (t' & E & _); [exact filter_example_ok|exact template_example_of|exact cache_ok_template_example| |].
    + split; [by apply record_example_wf|]. by repeat constructor.
    + change (blen [7]) with 1 in E. rewrite E. by vm_compute.
Defined.
