(* ===== verification/FilterMessages.v ===== *)
(** * What the filter plugin does with a message

    The packet [filter_apply_profile] writes, against the sets of the original: the
    template sets, the options template sets and, for each data set with a template, the
    records that fit. *)

From S2P Require Import Prelude CLib TemplateRecord DataRecord Message TemplateManager Preprocessor Filter.

(** ** Specification *)

(** A set of the original message: a data set, with or without a template, or another. *)
Inductive set_spec :=
  | OtherSet (s : wire_set)
  | DataSet (c : coupled) (known : bool).

Definition set_wire (x : set_spec) : wire_set :=
  match x with OtherSet s => s | DataSet c _ => cp_wire c end.

Definition set_spec_ok (h : template_heap) (x : set_spec) : Prop :=
  match x with
  | OtherSet s => is_u16 s.1 ∧ ¬ is_data_set s.1
  | DataSet c known =>
      IPFIX_MIN_RECORD_FLOWSET_ID ≤ cp_sid c < 65536 ∧
      (known = true → ∃ t, h !! cp_template c = Some t ∧
        data_set_of t (cp_fields c) (cp_records c) (cp_padding c) ∧ Forall record_ok (cp_records c))
  end.

Definition set_pointer (c : coupled) (known : bool) : option loc := if known then Some (cp_template c) else None.

Fixpoint set_couples (p : Z) (xs : list set_spec) : list (Z * option loc) :=
  match xs with
  | [] => []
  | x :: xs =>
      match x with DataSet c known => [(p, set_pointer c known)] | OtherSet _ => [] end ++
      set_couples (p + blen (enc_set (set_wire x))) xs
  end.

(** The data set that is left of a set. *)
Section kept.
Context (regexec : bytes → bytes → bool) (node : filter_treenode).

Definition fitting (ds : list (list datum)) : list (list datum) := filter (λ d, node_holds regexec d node) ds.

Definition with_records (c : coupled) (ds : list (list datum)) : coupled :=
  {| cp_sid := cp_sid c; cp_template := cp_template c; cp_def := cp_def c; cp_fields := cp_fields c;
     cp_records := ds; cp_padding := [] |}.

Definition kept_set (x : set_spec) : option coupled :=
  match x with
  | DataSet c true => match fitting (cp_records c) with [] => None | ds => Some (with_records c ds) end
  | _ => None
  end.

Definition kept_sets (xs : list set_spec) : list coupled := omap kept_set xs.
End kept.

(** The sets of one kind. *)
Definition of_kind (P : Z → Prop) `{∀ id, Decision (P id)} (ss : list wire_set) : list wire_set :=
  filter (λ s : wire_set, P s.1) ss.
Definition sets_of (P : Z → Prop) `{∀ id, Decision (P id)} (xs : list set_spec) : list wire_set :=
  of_kind P (set_wire <$> xs).

Lemma of_kind_cons (P : Z → Prop) `{∀ id, Decision (P id)} s ss :
  of_kind P (s :: ss) = if decide (P s.1) then s :: of_kind P ss else of_kind P ss.
Proof. done. Qed.
Lemma of_kind_app (P : Z → Prop) `{∀ id, Decision (P id)} ss1 ss2 : of_kind P (ss1 ++ ss2) = of_kind P ss1 ++ of_kind P ss2.
Proof. apply filter_app. Qed.
Lemma elem_of_kind (P : Z → Prop) `{∀ id, Decision (P id)} s ss : s ∈ of_kind P ss ↔ P s.1 ∧ s ∈ ss.
Proof. unfold of_kind. by rewrite list_elem_of_filter. Qed.

Definition template_sets (xs : list set_spec) : list wire_set := sets_of is_template_set xs ++ sets_of is_options_set xs.

(** The first entries of [md] with the records [rs]. *)
Fixpoint overlay (rs : list ipfix_record) (md : list metadata) : list metadata :=
  match rs, md with r :: rs, m :: md => set_md_record m r :: overlay rs md | _, _ => md end.

(** Heaps of templates that differ in caches of offsets. *)
Definition templates_like (h h' : template_heap) : Prop :=
  ∀ k, option_Forall2 (λ t t', same_but_cache t t' ∧ cache_ok t') (h !! k) (h' !! k).

(** ** Theory: writing the packet *)

Lemma overlay_length rs md : length (overlay rs md) = length md.
Proof. revert md. induction rs as [|r rs IH]; intros [|m md]; [done..|]. cbn. by rewrite IH. Qed.

Lemma overlay_snoc rs md r m : overlay rs md !! length rs = Some m →
  <[length rs := set_md_record m r]> (overlay rs md) = overlay (rs ++ [r]) md.
Proof.
  revert md. induction rs as [|r' rs IH]; intros [|m' md]; [done|by intros [= ->]|done|].
  cbn. intros Hm. by rewrite IH.
Qed.

(** The state after [w] is written and the records [rs] are listed; [rest] is the rest of
    the packet. *)
Definition written (w rest : bytes) (rs : list ipfix_record) (md : list metadata) (h : template_heap) : filter_process :=
  {| ptr := w ++ rest; fp_offset := blen w; records := Z.of_nat (length rs); fp_metadata := overlay rs md; fp_templates := h |}.

Section write.
Context (md : list metadata).
Implicit Types (w rest pre post : bytes) (rs : list ipfix_record).

Lemma put_written w rest rs h v : blen v ≤ blen rest →
  ∃ rest', put (written w rest rs md h) v = Ok (written (w ++ v) rest' rs md h) ∧ blen rest' = blen rest - blen v.
Proof.
  intros Hv. destruct (blen_split rest (blen v)) as (a & b & -> & Ha & Hb); [pose proof (blen_nonneg v); lia|].
  exists b. split; [|done]. unfold put, written. cbn [ptr fp_offset].
  rewrite wrn_here by done. rewrite res_bind_ret. cbn [records fp_metadata fp_templates].
  by rewrite blen_app, app_assoc.
Qed.

Lemma copy_set_written pre s post w rest rs h : 4 + blen s.2 < 65536 → blen (enc_set s) ≤ blen rest →
  ∃ rest', copy_set (pre ++ enc_set s ++ post) (written w rest rs md h) (blen pre) =
             Ok (written (w ++ enc_set s) rest' rs md h) ∧ blen rest' = blen rest - blen (enc_set s).
Proof.
  intros Hs Hr. unfold copy_set.
  assert (rd16 (pre ++ enc_set s ++ post) (blen pre + 2) = Ok (4 + blen s.2)) as ->.
  { unfold enc_set. rewrite <-!app_assoc, (app_assoc pre).
    replace (blen pre + 2) with (blen (pre ++ enc16 s.1)) by (rewrite blen_app, blen_enc16; lia).
    apply rd16_here. pose proof (blen_nonneg s.2). unfold is_u16. lia. }
  rewrite res_bind_ret, <-blen_enc_set, rdn_here, res_bind_ret. by apply put_written.
Qed.

(** The sets of one kind, in their order. *)
Lemma copy_sets_written (P : Z → Prop) `{∀ id, Decision (P id)} ss : ∀ pre post w rest rs h,
  Forall (λ s : wire_set, 4 + blen s.2 < 65536) ss →
  blen (enc_sets (of_kind P ss)) ≤ blen rest →
  ∃ rest', fold_res (copy_set (pre ++ enc_sets ss ++ post)) (filter (λ x : Z * Z, P x.1) (places (blen pre) ss)).*2
             (written w rest rs md h) =
           Ok (written (w ++ enc_sets (of_kind P ss)) rest' rs md h) ∧
           blen rest' = blen rest - blen (enc_sets (of_kind P ss)).
Proof.
  induction ss as [|s ss IH]; intros pre post w rest rs h Hss Hr.
  { exists rest. split; [cbn; by rewrite app_nil_r|]. change (blen rest = blen rest - 0). lia. }
  apply Forall_cons in Hss as [Hs Hss]. rewrite enc_sets_cons, <-!app_assoc. cbn [places].
  specialize (IH (pre ++ enc_set s) post). rewrite <-!app_assoc, blen_app in IH. rewrite of_kind_cons in *. rewrite filter_cons. cbn [fst].
  destruct (decide (P s.1)) as [Hp|Hp]; [|by apply IH].
  rewrite fmap_cons, fold_res_cons. cbn [snd]. rewrite enc_sets_cons, blen_app in Hr. pose proof (blen_nonneg (enc_sets (of_kind P ss))).
  destruct (copy_set_written pre s (enc_sets ss ++ post) w rest rs h Hs) as (rest1 & -> & H1); [lia|].
  rewrite res_bind_ret. destruct (IH (w ++ enc_set s) rest1 rs h Hss) as (rest2 & -> & H2); [lia|].
  exists rest2. rewrite enc_sets_cons, <-app_assoc, blen_app. split; [done|lia].
Qed.
End write.

(** ** Theory: filtering records *)

Section records.
Context (regexec : bytes → bytes → bool) (node : filter_treenode) (profile : filter_profile).
Context (Hroot : root profile = Some node) (Hnode : node_ok node) (md : list metadata).
Implicit Types (w rest pre post : bytes) (rs : list ipfix_record) (h : template_heap) (ds : list (list datum)).

(** A record of the template [t]. *)
Definition record_of (t : ipfix_template) (d : list datum) : Prop := template_of t d.*1 ∧ record_ok d.

Lemma record_of_cache t t' d : same_but_cache t t' → record_of t d → record_of t' d.
Proof. intros Hc [Ht Hd]. split; [by eapply template_of_cache|done]. Qed.

Lemma process_record_written l d pre post w rest rs h t :
  h !! l = Some t → cache_ok t → record_of t d → blen (enc_data d) ≤ blen rest → (length rs < length md)%nat →
  ∃ rest' t', filter_process_data_record regexec (pre ++ enc_data d ++ post) profile l (blen pre) (blen (enc_data d))
      (written w rest rs md h) =
    Ok (if node_holds regexec d node
        then written (w ++ enc_data d) rest' (rs ++ [ {| record := blen w; length_ := blen (enc_data d); templ := Some l |} ])
               md (<[l := t']> h)
        else written w rest' rs md (<[l := t']> h)) ∧
    blen rest' = blen rest - (if node_holds regexec d node then blen (enc_data d) else 0) ∧
    cache_ok t' ∧ same_but_cache t t'.
Proof using Hroot Hnode.
  intros Hl Hc [Ht Hd] Hr Hmd. unfold filter_process_data_record. cbn [fp_templates written].
  unfold deref. rewrite Hl, Hroot. cbn [or_fault]. rewrite !res_bind_ret.
  destruct (filter_fits_node_spec regexec d pre post Hd node Hnode t Ht Hc) as (t' & -> & Hc' & Hs).
  rewrite res_bind_ret. cbn [fst snd]. destruct (node_holds regexec d node).
  - rewrite rdn_here, res_bind_ret.
    destruct (blen_split rest (blen (enc_data d))) as (a & b & -> & Ha & Hb); [pose proof (blen_nonneg (enc_data d)); lia|].
    exists b, t'. split; [|split_and!; done || lia]. cbn [ptr fp_offset records fp_metadata written].
    rewrite wrn_here, res_bind_ret by done. rewrite Nat2Z.id.
    destruct (lookup_lt_is_Some_2 (overlay rs md) (length rs)) as [m Hm]; [by rewrite overlay_length|].
    rewrite Hm. cbn [or_fault]. rewrite res_bind_ret, (overlay_snoc _ _ _ _ Hm). unfold written.
    rewrite blen_app, length_app, <-app_assoc. cbn [length]. do 2 f_equal. lia.
  - exists rest, t'. split_and!; done || lia.
Qed.

Lemma process_records_written l ds : ∀ pre post w rest rs h t,
  h !! l = Some t → cache_ok t → Forall (record_of t) ds → blen (enc_records ds) ≤ blen rest →
  (length rs + length ds ≤ length md)%nat →
  ∃ rest' t', process_all (λ d, blen (enc_data d))
      (filter_process_data_record regexec (pre ++ enc_records ds ++ post) profile l) (blen pre) ds (written w rest rs md h) =
    Ok (written (w ++ enc_records (fitting regexec node ds)) rest'
          (rs ++ record_list l (blen w) (fitting regexec node ds)) md (<[l := t']> h)) ∧
    blen rest' = blen rest - blen (enc_records (fitting regexec node ds)) ∧ cache_ok t' ∧ same_but_cache t t'.
Proof using Hroot Hnode.
  induction ds as [|d ds IH]; intros pre post w rest rs h t Hl Hc Hds Hr Hmd; cbn [process_all].
  { exists rest, t. rewrite insert_id by done. cbn. rewrite !app_nil_r. split_and!; [done| |done|apply same_but_cache_refl].
    change (blen rest = blen rest - 0). lia. }
  apply Forall_cons in Hds as [Hd Hds]. cbn [length] in Hmd.
  change (enc_records (d :: ds)) with (enc_data d ++ enc_records ds) in *. rewrite blen_app in Hr.
  pose proof (blen_nonneg (enc_records ds)). pose proof (blen_nonneg (enc_data d)).
  destruct (process_record_written l d pre (enc_records ds ++ post) w rest rs h t Hl Hc Hd) as (rest1 & t1 & E & H1 & Hc1 & Hs1);
    [lia|lia|].
  rewrite <-app_assoc, E, res_bind_ret.
  assert (Forall (record_of t1) ds) as Hds1 by (eapply Forall_impl; [exact Hds|]; intros x; by apply record_of_cache).
  specialize (IH (pre ++ enc_data d) post). rewrite <-app_assoc, blen_app in IH.
  unfold fitting. rewrite filter_cons. destruct (node_holds regexec d node) eqn:En.
  - rewrite decide_True by done. fold (fitting regexec node ds).
    destruct (IH (w ++ enc_data d) rest1 (rs ++ [ {| record := blen w; length_ := blen (enc_data d); templ := Some l |} ])
      (<[l := t1]> h) t1 (lookup_insert_eq _ _ _) Hc1 Hds1) as (rest2 & t2 & -> & H2 & Hc2 & Hs2).
    { lia. } { rewrite length_app. cbn [length]. lia. }
    exists rest2, t2. rewrite insert_insert_eq, <-!app_assoc, blen_app.
    change (enc_records (d :: fitting regexec node ds)) with (enc_data d ++ enc_records (fitting regexec node ds)).
    rewrite blen_app. split_and!; [done|lia|done|by eapply same_but_cache_trans].
  - cbv match in H1. rewrite decide_False by (by intros []). fold (fitting regexec node ds).
    destruct (IH w rest1 rs (<[l := t1]> h) t1 (lookup_insert_eq _ _ _) Hc1 Hds1) as (rest2 & t2 & -> & H2 & Hc2 & Hs2);
      [lia|lia|].
    exists rest2, t2. rewrite insert_insert_eq. split_and!; [done|lia|done|by eapply same_but_cache_trans].
Qed.
End records.

(** ** Theory: data sets *)

Lemma templates_like_lookup h h' k t : templates_like h h' → h !! k = Some t →
  ∃ t', h' !! k = Some t' ∧ same_but_cache t t' ∧ cache_ok t'.
Proof. intros Hl Hk. specialize (Hl k). rewrite Hk in Hl. inversion Hl as [? t' []|]; subst. by exists t'. Qed.

Lemma templates_like_insert h h' k t t' : templates_like h h' → h !! k = Some t → same_but_cache t t' → cache_ok t' →
  templates_like h (<[k := t']> h').
Proof.
  intros Hl Hk Hs Hc j. destruct (decide (k = j)) as [<-|].
  - rewrite lookup_insert_eq, Hk. by constructor.
  - rewrite lookup_insert_ne by done. apply Hl.
Qed.

Lemma templates_like_refl h : (∀ k t, h !! k = Some t → cache_ok t) → templates_like h h.
Proof. intros Hc k. destruct (h !! k) as [t|] eqn:E; constructor. split; [apply same_but_cache_refl|by eapply Hc]. Qed.

(** The records of the sets with a template. *)
Definition known_records (xs : list set_spec) : list (list datum) :=
  xs ≫= λ x, match x with DataSet c true => cp_records c | _ => [] end.

Definition data_sets (xs : list set_spec) : list wire_set := sets_of is_data_set xs.

(** Every record has an octet. *)
Lemma enc_data_pos t fs ds padding d : data_set_of t fs ds padding → d ∈ ds → 0 < blen (enc_data d).
Proof.
  intros [_ Hrec Hpad _ _] Hd. destruct (Forall_elem Hrec Hd) as [Hwf Hfs].
  pose proof (enc_data_min d Hwf) as Hm. rewrite Hfs in Hm. pose proof (blen_nonneg padding). lia.
Qed.

Lemma enc_records_empty t fs ds ds' padding : data_set_of t fs ds padding → ds' ⊆ ds →
  blen (enc_records ds') = 0 ↔ ds' = [].
Proof.
  intros Hs Hsub. split; [|by intros ->]. destruct ds' as [|d ds']; [done|].
  change (enc_records (d :: ds')) with (enc_data d ++ enc_records ds'). rewrite blen_app.
  pose proof (enc_data_pos _ _ _ _ d Hs ltac:(apply Hsub; by left)). pose proof (blen_nonneg (enc_records ds')). lia.
Qed.

Section couples.
Context (regexec : bytes → bytes → bool) (node : filter_treenode) (profile : filter_profile).
Context (Hroot : root profile = Some node) (Hnode : node_ok node) (md : list metadata) (h0 : template_heap).
Implicit Types (w rest pre post : bytes) (rs : list ipfix_record) (h : template_heap).

Lemma filter_fitting_octets ds : blen (enc_records (fitting regexec node ds)) ≤ blen (enc_records ds).
Proof.
  induction ds as [|d ds IH]; [done|]. unfold fitting in *. rewrite filter_cons.
  change (enc_records (d :: ds)) with (enc_data d ++ enc_records ds). pose proof (blen_nonneg (enc_data d)).
  case_decide; rewrite ?blen_app; [|lia].
  change (enc_records (d :: filter (λ d, node_holds regexec d node) ds)) with (enc_data d ++ enc_records (filter (λ d, node_holds regexec d node) ds)).
  rewrite blen_app. lia.
Qed.

Lemma kept_sets_cons x xs : kept_sets regexec node (x :: xs) = kept_sets regexec node [x] ++ kept_sets regexec node xs.
Proof. unfold kept_sets. cbn [omap list_omap]. by destruct (kept_set regexec node x). Qed.

Lemma kept_octets c known : blen (enc_sets (cp_wire <$> kept_sets regexec node [DataSet c known])) ≤ blen (enc_set (cp_wire c)).
Proof.
  rewrite blen_enc_set. cbn [cp_wire snd]. rewrite blen_app. pose proof (blen_nonneg (enc_records (cp_records c))).
  pose proof (blen_nonneg (cp_padding c)). cbn [kept_sets omap list_omap kept_set].
  destruct known; [|change (0 ≤ 4 + (blen (enc_records (cp_records c)) + blen (cp_padding c))); lia].
  pose proof (filter_fitting_octets (cp_records c)) as Hoct. destruct (fitting _ _ _) as [|d ds'];
    [change (0 ≤ 4 + (blen (enc_records (cp_records c)) + blen (cp_padding c))); lia|].
  rewrite fmap_cons, enc_sets_cons. change (enc_sets (cp_wire <$> [])) with (@nil Z). rewrite app_nil_r, blen_enc_set.
  cbn [cp_wire snd cp_records cp_padding with_records]. rewrite app_nil_r. lia.
Qed.

Lemma kept_count c known p :
  (length (couple_records p (kept_sets regexec node [DataSet c known])) ≤ length (known_records [DataSet c known]))%nat.
Proof.
  cbn [kept_sets omap list_omap kept_set]. destruct known; [|cbn; lia]. unfold known_records. cbn [mbind list_bind]. rewrite app_nil_r.
  pose proof (length_filter (λ d, node_holds regexec d node) (cp_records c)) as Hf. fold (fitting regexec node (cp_records c)) in Hf.
  destruct (fitting _ _ _) as [|d ds']; [cbn; lia|]. cbn [couple_records]. rewrite app_nil_r, length_record_list. exact Hf.
Qed.

Lemma couple_records_app p cs1 cs2 :
  couple_records p (cs1 ++ cs2) = couple_records p cs1 ++ couple_records (p + blen (enc_sets (cp_wire <$> cs1))) cs2.
Proof.
  revert p. induction cs1 as [|c cs1 IH]; intros p; [cbn [app couple_records]; f_equal; change (blen (enc_sets (cp_wire <$> []))) with 0; lia|].
  cbn [app couple_records]. rewrite IH, fmap_cons, enc_sets_cons, blen_app, <-app_assoc. do 3 f_equal. lia.
Qed.

Lemma filter_couple_written c known pre post w rest rs h :
  set_spec_ok h0 (DataSet c known) → templates_like h0 h → blen (enc_set (cp_wire c)) ≤ blen rest →
  (length rs + length (known_records [DataSet c known]) ≤ length md)%nat →
  ∃ rest' h', filter_couple regexec (pre ++ enc_set (cp_wire c) ++ post) profile (written w rest rs md h)
      (blen pre, set_pointer c known) =
    Ok (written (w ++ enc_sets (cp_wire <$> kept_sets regexec node [DataSet c known])) rest'
          (rs ++ couple_records (blen w) (kept_sets regexec node [DataSet c known])) md h') ∧
    blen rest' = blen rest - blen (enc_sets (cp_wire <$> kept_sets regexec node [DataSet c known])) ∧
    templates_like h0 h'.
Proof using Hroot Hnode.
  intros [Hsid Hk] Hlike Hr Hmd. unfold filter_couple. cbn [fst snd].
  destruct known; cbn [set_pointer].
  2: { exists rest, h. cbn. rewrite !app_nil_r. split_and!; [done|change (blen rest = blen rest - 0); lia|done]. }
  destruct (Hk eq_refl) as (t0 & Hl & Hset & Hrec). cbn [known_records mbind list_bind] in Hmd. rewrite app_nil_r in Hmd.
  destruct (templates_like_lookup _ _ _ _ Hlike Hl) as (t & Ht & Hs & Hc).
  set (l := cp_template c) in *. set (ds := cp_records c) in *.
  rewrite cp_wire_enc in *. fold ds in Hr |- *. set (header := enc16 (cp_sid c) ++ enc16 (set_length ds (cp_padding c))).
  assert (enc_data_set (cp_sid c) ds (cp_padding c) = header ++ enc_records ds ++ cp_padding c) as Eset
    by (unfold enc_data_set, header; by rewrite <-app_assoc).
  assert (rdn (pre ++ enc_data_set (cp_sid c) ds (cp_padding c) ++ post) (blen pre) 4 = Ok header) as ->
    by (rewrite Eset, <-!app_assoc; exact (rdn_here pre header _)).
  rewrite res_bind_ret. assert (blen header = 4) as Hh by done.
  rewrite Eset, !blen_app in Hr. pose proof (blen_nonneg (enc_records ds)). pose proof (blen_nonneg (cp_padding c)).
  destruct (put_written md w rest rs h header) as (rest1 & -> & H1); [lia|]. rewrite res_bind_ret.
  cbn [fp_templates written]. unfold deref. rewrite Ht. cbn [or_fault]. rewrite res_bind_ret.
  rewrite (data_set_records_all t (cp_fields c)) by (by eapply data_set_of_cache).
  assert (Forall (record_of t) ds) as Hds.
  { apply Forall_forall. intros d Hd. split; [|by apply (Forall_elem Hrec)]. destruct Hset as [Hto Hall _ _ _].
    destruct (Forall_elem Hall Hd) as [_ ->]. by eapply template_of_cache. }
  destruct (process_records_written regexec node profile Hroot Hnode md l ds (pre ++ header) (cp_padding c ++ post)
    (w ++ header) rest1 rs h t Ht Hc Hds) as (rest2 & t2 & E2 & H2 & Hc2 & Hs2); [lia|done|].
  assert ((pre ++ header) ++ enc_records ds ++ cp_padding c ++ post =
    pre ++ enc_data_set (cp_sid c) ds (cp_padding c) ++ post) as Em by (rewrite Eset, <-!app_assoc; done).
  rewrite Em, blen_app in E2. change (blen header) with 4 in E2.
  rewrite E2, !res_bind_ret. cbn [snd fp_offset written ptr records fp_metadata fp_templates].
  assert (templates_like h0 (<[l := t2]> h)) as Hlike2.
  { eapply templates_like_insert; [done|done|by eapply same_but_cache_trans|done]. }
  pose proof (enc_records_empty _ _ _ (fitting regexec node ds) _ Hset) as Hempty. fold ds in Hempty.
  assert (fitting regexec node ds ⊆ ds) as Hsub by (intros d; unfold fitting; rewrite list_elem_of_filter; tauto).
  specialize (Hempty Hsub). pose proof (filter_fitting_octets ds) as Hoct.
  cbn [kept_sets omap list_omap kept_set]. fold ds.
  destruct (fitting regexec node ds) as [|d ds'] eqn:Ef.
  - rewrite decide_True by (rewrite !blen_app; change (blen (enc_records [])) with 0; lia).
    exists (header ++ rest2), (<[l := t2]> h). cbn [record_list couple_records fmap list_fmap]. rewrite !app_nil_r.
    change (enc_records []) with (@nil Z) in *. change (enc_sets []) with (@nil Z). rewrite !app_nil_r in *.
    split_and!; [|rewrite blen_app; change (blen []) with 0 in *; lia|done].
    unfold written. by rewrite <-app_assoc.
  - assert (blen (enc_records (d :: ds')) ≠ 0) as Hne by (intros E; by apply Hempty in E).
    rewrite decide_False by (rewrite !blen_app; lia). set (n := _ - blen w).
    assert (n = 4 + blen (enc_records (d :: ds'))) as -> by (unfold n; rewrite !blen_app; lia).
    assert (((w ++ header) ++ enc_records (d :: ds')) ++ rest2 =
      (w ++ enc16 (cp_sid c)) ++ enc16 (set_length ds (cp_padding c)) ++ enc_records (d :: ds') ++ rest2) as ->
      by (unfold header; rewrite <-!app_assoc; done).
    replace (blen w + 2) with (blen (w ++ enc16 (cp_sid c))) by (rewrite blen_app; done).
    rewrite wr16_over, res_bind_ret by done. exists rest2, (<[l := t2]> h).
    cbn [fmap list_fmap couple_records]. rewrite enc_sets_cons. change (enc_sets []) with (@nil Z). rewrite !app_nil_r.
    assert (enc_set (cp_wire (with_records c (d :: ds'))) =
      enc16 (cp_sid c) ++ enc16 (4 + blen (enc_records (d :: ds'))) ++ enc_records (d :: ds')) as ->.
    { unfold enc_set, cp_wire. cbn [fst snd cp_sid cp_records cp_padding with_records]. by rewrite app_nil_r. }
    split_and!; [|rewrite !blen_app, !blen_enc16; lia|done].
    cbn [cp_template cp_records with_records]. rewrite blen_app. change (blen header) with 4. unfold written.
    rewrite !blen_app, !blen_enc16, <-!app_assoc. do 2 f_equal. lia.
Qed.

Lemma filter_couples_written xs : ∀ pre post w rest rs h, Forall (set_spec_ok h0) xs → templates_like h0 h →
  blen (enc_sets (data_sets xs)) ≤ blen rest → (length rs + length (known_records xs) ≤ length md)%nat →
  ∃ rest' h', fold_res (filter_couple regexec (pre ++ enc_sets (set_wire <$> xs) ++ post) profile)
      (set_couples (blen pre) xs) (written w rest rs md h) =
    Ok (written (w ++ enc_sets (cp_wire <$> kept_sets regexec node xs)) rest'
          (rs ++ couple_records (blen w) (kept_sets regexec node xs)) md h') ∧
    blen rest' = blen rest - blen (enc_sets (cp_wire <$> kept_sets regexec node xs)) ∧ templates_like h0 h'.
Proof using Hroot Hnode.
  induction xs as [|x xs IH]; intros pre post w rest rs h Hxs Hlike Hr Hmd.
  { exists rest, h. cbn. rewrite !app_nil_r. split_and!; [done|change (blen rest = blen rest - 0); lia|done]. }
  apply Forall_cons in Hxs as [Hx Hxs]. rewrite fmap_cons, enc_sets_cons, <-!app_assoc. cbn [set_couples].
  specialize (IH (pre ++ enc_set (set_wire x)) post). rewrite <-!app_assoc, blen_app in IH.
  destruct x as [s|c known]; cbn [set_wire] in *.
  - cbn [app]. destruct Hx as [_ Hs]. unfold data_sets, sets_of in Hr. rewrite fmap_cons, of_kind_cons in Hr. cbn [set_wire] in Hr.
    rewrite decide_False in Hr by done. by apply IH.
  - cbn [app]. rewrite fold_res_cons. pose proof Hx as [Hsid _]. unfold data_sets, sets_of in Hr. rewrite fmap_cons, of_kind_cons in Hr. cbn [set_wire] in Hr.
    rewrite decide_True in Hr by (unfold is_data_set; cbn [fst cp_wire]; lia). rewrite enc_sets_cons, blen_app in Hr.
    fold (sets_of is_data_set xs) in Hr. fold (data_sets xs) in Hr. pose proof (blen_nonneg (enc_sets (data_sets xs))).
    assert (known_records (DataSet c known :: xs) = known_records [DataSet c known] ++ known_records xs) as Ekr
      by (unfold known_records; cbn; by rewrite app_nil_r).
    rewrite Ekr, length_app in Hmd.
    destruct (filter_couple_written c known pre (enc_sets (set_wire <$> xs) ++ post) w rest rs h Hx Hlike)
      as (rest1 & h1 & -> & H1 & Hlike1); [lia|lia|]. rewrite res_bind_ret.
    set (k := kept_sets regexec node [DataSet c known]) in *.
    rewrite kept_sets_cons. fold k.
    destruct (IH (w ++ enc_sets (cp_wire <$> k)) rest1 (rs ++ couple_records (blen w) k) h1 Hxs Hlike1)
      as (rest2 & h2 & E2 & H2 & Hlike2).
    { pose proof (kept_octets c known) as Hko. fold k in Hko. lia. }
    { rewrite length_app. pose proof (kept_count c known (blen w)) as Hkc. fold k in Hkc. lia. }
    rewrite E2. exists rest2, h2. rewrite fmap_app, enc_sets_app, <-!app_assoc, couple_records_app.
    split_and!; [by rewrite blen_app|rewrite blen_app; lia|done].
Qed.
Lemma kept_records_count xs p : (length (couple_records p (kept_sets regexec node xs)) ≤ length (known_records xs))%nat.
Proof using.
  revert p. induction xs as [|x xs IH]; intros p; [done|]. rewrite kept_sets_cons, couple_records_app, length_app.
  specialize (IH (p + blen (enc_sets (cp_wire <$> kept_sets regexec node [x])))).
  assert (known_records (x :: xs) = known_records [x] ++ known_records xs) as -> by (unfold known_records; cbn; by rewrite app_nil_r).
  rewrite length_app. destruct x as [s|c known];
    [change (couple_records p (kept_sets regexec node [OtherSet s])) with (@nil ipfix_record); cbn [length]; lia|].
  pose proof (kept_count c known p). lia.
Qed.

(** Every record that is kept has an octet in the original. *)
Lemma listed_octets xs : Forall (set_spec_ok h0) xs → ∀ p,
  Z.of_nat (length (couple_records p (kept_sets regexec node xs))) ≤ blen (enc_sets (set_wire <$> xs)).
Proof using.
  intros Hxs p. pose proof (kept_records_count xs p) as Hc.
  cut (Z.of_nat (length (known_records xs)) ≤ blen (enc_sets (set_wire <$> xs))); [lia|]. clear p Hc.
  induction Hxs as [|x xs Hx _ IH]; [done|].
  assert (known_records (x :: xs) = known_records [x] ++ known_records xs) as -> by (unfold known_records; cbn; by rewrite app_nil_r).
  rewrite fmap_cons, enc_sets_cons, length_app, blen_app, blen_enc_set. pose proof (blen_nonneg (set_wire x).2).
  cut (Z.of_nat (length (known_records [x])) ≤ blen (set_wire x).2); [lia|].
  destruct x as [s|c [] ]; unfold known_records; cbn [mbind list_bind length set_wire]; [done| |done].
  rewrite app_nil_r. destruct Hx as [_ Hk]. destruct (Hk eq_refl) as (t & _ & Hset & _). cbn [cp_wire snd]. rewrite blen_app.
  pose proof (records_count_octets _ _ _ _ Hset). pose proof (blen_nonneg (cp_padding c)). lia.
Qed.
End couples.

(** ** Theory: the new message *)

Lemma filter_all {A} (P : A → Prop) `{∀ x, Decision (P x)} l : Forall P l → filter P l = l.
Proof. induction 1 as [|x l Hx _ IH]; [done|]. by rewrite filter_cons, decide_True, IH. Qed.

Lemma rd_set_id pre s post : is_u16 s.1 → rd16 (pre ++ enc_set s ++ post) (blen pre) = Ok s.1.
Proof. intros Hs. unfold enc_set. rewrite <-!app_assoc. by apply rd16_here. Qed.

Section couple_again.
Context (h0 : template_heap).

(** The couples of one identifier have one template. *)
Lemma find_couple xs id o : ∀ pre post,
  Forall (set_spec_ok h0) xs → (∃ c known, DataSet c known ∈ xs ∧ cp_sid c = id) →
  (∀ c known, DataSet c known ∈ xs → cp_sid c = id → set_pointer c known = o) →
  for_each (λ (x : Z * option loc) _, id' ← rd16 (pre ++ enc_sets (set_wire <$> xs) ++ post) x.1;
                    Ok (if decide (id = id') then inr x.2 else inl ())) (set_couples (blen pre) xs) () = Ok (inr o).
Proof.
  induction xs as [|x xs IH]; intros pre post Hxs Hex Hall.
  { destruct Hex as (c & known & Hin & _). by apply not_elem_of_nil in Hin. }
  apply Forall_cons in Hxs as [Hx Hxs]. rewrite fmap_cons, enc_sets_cons. cbn [set_couples].
  specialize (IH (pre ++ enc_set (set_wire x)) post Hxs). rewrite blen_app in IH.
  assert (pre ++ (enc_set (set_wire x) ++ enc_sets (set_wire <$> xs)) ++ post =
    (pre ++ enc_set (set_wire x)) ++ enc_sets (set_wire <$> xs) ++ post) as E by (by rewrite <-!app_assoc).
  destruct x as [s|c known]; cbn [set_wire app for_each] in *.
  - rewrite E. apply IH; [|intros c known Hin; apply Hall; by right].
    destruct Hex as (c & known & [?|Hin]%elem_of_cons & Hid); [done|by exists c, known].
  - destruct Hx as [Hsid _]. rewrite <-(app_assoc (enc_set (cp_wire c))), rd_set_id, res_bind_ret by (cbn; unfold is_u16, IPFIX_MIN_RECORD_FLOWSET_ID in *; lia).
    cbn [fst cp_wire]. destruct (decide (id = cp_sid c)) as [->|Hne]; cbn [snd].
    + rewrite res_bind_ret. do 2 f_equal. apply Hall; [by left|done].
    + rewrite res_bind_ret. rewrite <-(app_assoc (enc_set (cp_wire c))) in E. rewrite E.
      apply IH; [|intros c' known' Hin; apply Hall; by right].
      destruct Hex as (c' & known' & [Heq|Hin]%elem_of_cons & Hid); [by injection Heq as -> ->|by exists c', known'].
Qed.

Lemma match_couples_spec mem couples cs : ∀ pre post h,
  Forall (λ c, is_u16 (cp_sid c) ∧ is_Some (h !! cp_template c) ∧
    for_each (λ (x : Z * option loc) _, id' ← rd16 mem x.1;
                    Ok (if decide (cp_sid c = id') then inr x.2 else inl ())) couples () = Ok (inr (Some (cp_template c)))) cs →
  match_couples mem (pre ++ enc_sets (cp_wire <$> cs) ++ post) couples (couple_offsets (blen pre) cs) h =
  Ok (zip (couple_offsets (blen pre) cs) ((λ c, Some (cp_template c)) <$> cs), add_references h (cp_template <$> cs)).
Proof.
  induction cs as [|c cs IH]; intros pre post h Hcs; [done|].
  apply Forall_cons in Hcs as [(Hid & [t Ht] & Hfind) Hcs]. rewrite fmap_cons, enc_sets_cons, <-!app_assoc.
  cbn [couple_offsets match_couples]. unfold match_couple. rewrite rd_set_id, res_bind_ret by done. cbn [fst cp_wire].
  rewrite Hfind, !res_bind_ret. cbn [or_fault]. rewrite res_bind_ret.
  destruct (tm_template_reference_inc_spec h _ t Ht) as [-> _]. rewrite res_bind_ret.
  specialize (IH (pre ++ enc_set (cp_wire c)) post (add_reference h (cp_template c))).
  rewrite <-!app_assoc, blen_app in IH. rewrite IH, res_bind_ret; [done|].
  eapply Forall_impl; [exact Hcs|]. intros c' (H1 & H2 & H3). split_and!; [done| |done].
  unfold add_reference. by apply lookup_alter_is_Some.
Qed.
End couple_again.

(** The three kinds of sets that are copied have room. *)
Lemma kinds_room xs : blen (enc_sets (template_sets xs)) + blen (enc_sets (data_sets xs)) ≤ blen (enc_sets (set_wire <$> xs)).
Proof.
  unfold template_sets, data_sets. rewrite enc_sets_app, blen_app. induction xs as [|x xs IH]; [done|].
  unfold sets_of in *. rewrite fmap_cons, enc_sets_cons, blen_app, !of_kind_cons.
  pose proof (blen_nonneg (enc_set (set_wire x))).
  unfold is_template_set, is_options_set, is_data_set, IPFIX_TEMPLATE_FLOWSET_ID, IPFIX_OPTION_FLOWSET_ID,
    IPFIX_MIN_RECORD_FLOWSET_ID in *.
  repeat case_decide; rewrite ?enc_sets_cons, ?blen_app; lia.
Qed.

Lemma set_lengths ss : 16 + blen (enc_sets ss) < 65536 → Forall (λ s : wire_set, 4 + blen s.2 < 65536) ss.
Proof.
  induction ss as [|s ss IH]; intros Hl; [by constructor|]. rewrite enc_sets_cons, blen_app, blen_enc_set in Hl.
  pose proof (blen_nonneg (enc_sets ss)). pose proof (blen_nonneg s.2). constructor; [lia|]. apply IH. lia.
Qed.

(** Writing into the header. *)
Lemma header_writes n t q o rest sn n' o' :
  (p ← wr32 (enc_header n t q o ++ rest) 8 sn; p ← wr16 p 2 n'; wr32 p 12 o') = Ok (enc_header n' t sn o' ++ rest).
Proof.
  unfold enc_header. rewrite <-!app_assoc.
  assert (∀ x y, wr32 (enc16 IPFIX_VERSION ++ enc16 n ++ enc32 t ++ enc32 x ++ enc32 o ++ rest) 8 y =
    Ok (enc16 IPFIX_VERSION ++ enc16 n ++ enc32 t ++ enc32 y ++ enc32 o ++ rest)) as E8.
  { intros x y. rewrite !(app_assoc (enc16 IPFIX_VERSION)), !(app_assoc (enc16 IPFIX_VERSION ++ enc16 n)).
    by apply (wr32_over ((enc16 IPFIX_VERSION ++ enc16 n) ++ enc32 t)). }
  rewrite E8, res_bind_ret.
  assert (∀ rest, wr16 (enc16 IPFIX_VERSION ++ enc16 n ++ rest) 2 n' = Ok (enc16 IPFIX_VERSION ++ enc16 n' ++ rest)) as E2
    by (intros r; by apply (wr16_over (enc16 IPFIX_VERSION))).
  rewrite E2, res_bind_ret.
  rewrite !(app_assoc (enc16 IPFIX_VERSION)), !(app_assoc (enc16 IPFIX_VERSION ++ enc16 n')),
    !(app_assoc ((enc16 IPFIX_VERSION ++ enc16 n') ++ enc32 t)).
  by apply (wr32_over (((enc16 IPFIX_VERSION ++ enc16 n') ++ enc32 t) ++ enc32 sn)).
Qed.

(** The sets of the new message. *)
Section new_sets.
Context (regexec : bytes → bytes → bool) (node : filter_treenode) (h0 : template_heap) (xs : list set_spec).
Context (Hxs : Forall (set_spec_ok h0) xs).

Definition new_sets : list wire_set := template_sets xs ++ (cp_wire <$> kept_sets regexec node xs).

Lemma kept_sets_from c' : c' ∈ kept_sets regexec node xs →
  ∃ c, DataSet c true ∈ xs ∧ cp_sid c' = cp_sid c ∧ cp_template c' = cp_template c.
Proof using.
  unfold kept_sets. intros (x & Hin & Hk)%list_elem_of_omap. destruct x as [|c [] ]; try done. cbn [kept_set] in Hk.
  exists c. split; [done|]. destruct (fitting _ _ _); [done|]. by injection Hk as <-.
Qed.

Lemma kept_sets_known c' : c' ∈ kept_sets regexec node xs →
  IPFIX_MIN_RECORD_FLOWSET_ID ≤ cp_sid c' < 65536 ∧ is_Some (h0 !! cp_template c').
Proof using Hxs.
  intros (c & Hin & -> & ->)%kept_sets_from. destruct (Forall_elem Hxs Hin) as [Hid Hk]. split; [done|].
  destruct (Hk eq_refl) as (t & -> & _). by eexists.
Qed.

Lemma kept_sids : Forall (λ c, IPFIX_MIN_RECORD_FLOWSET_ID ≤ cp_sid c) (kept_sets regexec node xs).
Proof using Hxs. apply Forall_forall. intros c Hc. by apply kept_sets_known in Hc as [ [? _] _]. Qed.

Lemma new_sets_ids : Forall (λ s : wire_set, is_u16 s.1) new_sets.
Proof using Hxs.
  unfold new_sets, template_sets, sets_of. rewrite !Forall_app. split; [split|].
  1,2: apply Forall_forall; intros s [Hid _]%elem_of_kind; unfold is_template_set, is_options_set in Hid; by rewrite Hid.
  apply Forall_fmap, Forall_forall. intros c Hc. apply kept_sets_known in Hc as [Hid _].
  cbn. unfold is_u16, IPFIX_MIN_RECORD_FLOWSET_ID in *. lia.
Qed.

Lemma new_sets_octets : blen (enc_sets new_sets) ≤ blen (enc_sets (set_wire <$> xs)).
Proof using Hxs.
  pose proof (kinds_room xs). unfold new_sets. rewrite enc_sets_app, blen_app.
  cut (blen (enc_sets (cp_wire <$> kept_sets regexec node xs)) ≤ blen (enc_sets (data_sets xs))); [lia|].
  clear -Hxs. unfold data_sets, sets_of. induction Hxs as [|x l Hx Hl IH]; [done|]. specialize (IH Hl).
  rewrite kept_sets_cons, fmap_app, enc_sets_app, blen_app, fmap_cons, of_kind_cons. destruct x as [s|c known]; cbn [set_wire].
  - destruct Hx as [_ Hs]. rewrite decide_False by done. change (blen (enc_sets (cp_wire <$> kept_sets regexec node [OtherSet s]))) with 0. rewrite Z.add_0_l. exact IH.
  - destruct Hx as [Hid _]. rewrite decide_True by (unfold is_data_set; cbn; lia). rewrite enc_sets_cons, blen_app.
    pose proof (kept_octets regexec node c known). lia.
Qed.

Lemma kept_sets_count : (length (kept_sets regexec node xs) ≤ length (data_sets xs))%nat.
Proof using Hxs.
  clear -Hxs. unfold data_sets, sets_of. induction Hxs as [|x l Hx Hl IH]; [done|]. specialize (IH Hl).
  rewrite kept_sets_cons, length_app, fmap_cons, of_kind_cons. destruct x as [s|c known]; cbn [set_wire].
  - destruct Hx as [_ Hs]. by rewrite decide_False.
  - destruct Hx as [Hid _]. rewrite decide_True by (unfold is_data_set; cbn; lia).
    unfold kept_sets at 1. cbn [omap list_omap length]. destruct (kept_set _ _ _); cbn [length]; lia.
Qed.

(** Filtering by identifiers. *)
Lemma filter_ids (P : Z → Prop) `{∀ id, Decision (P id)} (ss : list wire_set) :
  filter P ss.*1 = (of_kind P ss).*1.
Proof using. induction ss as [|s ss IH]; [done|]. rewrite fmap_cons, filter_cons, of_kind_cons. case_decide; [by rewrite fmap_cons, IH|done]. Qed.

Lemma filter_ids_none (P Q : Z → Prop) `{∀ id, Decision (P id)} `{∀ id, Decision (Q id)} (ss : list wire_set) :
  (∀ id, P id → ¬ Q id) → of_kind Q (of_kind P ss) = [].
Proof using.
  intros HPQ. induction ss as [|s ss IH]; [done|]. rewrite (of_kind_cons P).
  case_decide as Hp; [|done]. rewrite of_kind_cons, decide_False by (by apply HPQ). done.
Qed.

Lemma filter_kept_none (Q : Z → Prop) `{∀ id, Decision (Q id)} : (∀ id, IPFIX_MIN_RECORD_FLOWSET_ID ≤ id → ¬ Q id) →
  of_kind Q (cp_wire <$> kept_sets regexec node xs) = [].
Proof using Hxs.
  intros HQ. induction kept_sids as [|c l Hc _ IH]; [done|]. rewrite fmap_cons, of_kind_cons, decide_False by (by apply HQ). done.
Qed.

Lemma new_sets_of_templates : of_kind is_template_set new_sets = sets_of is_template_set xs ∧
  of_kind is_options_set new_sets = sets_of is_options_set xs.
Proof using Hxs.
  unfold new_sets, template_sets. rewrite !of_kind_app.
  rewrite (filter_kept_none is_template_set), (filter_kept_none is_options_set), !app_nil_r
    by (unfold is_template_set, is_options_set, IPFIX_MIN_RECORD_FLOWSET_ID, IPFIX_TEMPLATE_FLOWSET_ID, IPFIX_OPTION_FLOWSET_ID; lia).
  unfold sets_of. rewrite (filter_ids_none is_template_set is_options_set), (filter_ids_none is_options_set is_template_set), app_nil_r
    by (unfold is_template_set, is_options_set, IPFIX_TEMPLATE_FLOWSET_ID, IPFIX_OPTION_FLOWSET_ID; lia).
  split; [|cbn [app]]; apply filter_all, Forall_forall; intros s [? _]%elem_of_kind; done.
Qed.

Lemma new_sets_of_data : of_kind is_data_set new_sets = cp_wire <$> kept_sets regexec node xs.
Proof using Hxs.
  unfold new_sets, template_sets, sets_of. rewrite !of_kind_app.
  rewrite (filter_ids_none is_template_set is_data_set), (filter_ids_none is_options_set is_data_set) by (unfold is_template_set, is_options_set, is_data_set, IPFIX_MIN_RECORD_FLOWSET_ID, IPFIX_TEMPLATE_FLOWSET_ID, IPFIX_OPTION_FLOWSET_ID; lia).
  cbn [app]. apply filter_all, Forall_fmap, kept_sids.
Qed.

Lemma new_sets_fit : sets_fit (set_wire <$> xs) → sets_fit new_sets.
Proof using Hxs.
  unfold sets_fit. rewrite !(filter_ids is_template_set), !(filter_ids is_options_set), !(filter_ids is_data_set), !length_fmap. destruct new_sets_of_templates as [-> ->]. rewrite new_sets_of_data, length_fmap.
  intros (? & ? & H3). pose proof kept_sets_count. unfold data_sets, sets_of in *. split_and!; [done..|]. lia.
Qed.

(** Where the data sets are. *)
Definition data_place : Z := IPFIX_HEADER_LENGTH + blen (enc_sets (template_sets xs)).

Lemma filter_places_none (P : Z → Prop) `{∀ id, Decision (P id)} ss : ∀ p, Forall (λ s : wire_set, ¬ P s.1) ss →
  filter (λ x : Z * Z, P x.1) (places p ss) = [].
Proof using.
  induction ss as [|s ss IH]; intros p Hss; [done|]. apply Forall_cons in Hss as [Hs Hss].
  cbn [places]. rewrite filter_cons, decide_False by done. by apply IH.
Qed.

Lemma new_sets_places : offsets_of is_data_set new_sets = couple_offsets data_place (kept_sets regexec node xs).
Proof using Hxs.
  unfold offsets_of, new_sets. rewrite places_app, filter_app, (filter_places_none is_data_set).
  2: { unfold template_sets, sets_of. rewrite Forall_app. split; apply Forall_forall; intros s [Hid _]%elem_of_kind;
       unfold is_data_set, is_template_set, is_options_set, IPFIX_MIN_RECORD_FLOWSET_ID, IPFIX_TEMPLATE_FLOWSET_ID, IPFIX_OPTION_FLOWSET_ID in *; lia. }
  cbn [app]. destruct (couple_places _ kept_sids data_place) as [E _]. unfold data_place in *. rewrite E.
  apply snd_zip. by rewrite length_fmap, length_couple_offsets.
Qed.
End new_sets.

(** ** Theory: [filter_apply_profile] *)

(** Only the first [n] entries of the array are copied. *)
Lemma copy_metadata_take n : ∀ h ms, (n ≤ length ms)%nat →
  copy_metadata_records h n ms = copy_metadata_records h (length (take n ms)) (take n ms).
Proof.
  induction n as [|n IH]; intros h [|m ms] Hn; cbn [length take copy_metadata_records] in *; [done..|lia|].
  destruct (copy_channels h (channels m)) as [ [h' c]| |]; [|done..]. rewrite !res_bind_ret. cbn [fst]. by rewrite IH by lia.
Qed.

(** A message of the sets [xs] and the objects it points to. *)
Record filter_message (st : filter_state) (msg : ipfix_message) (t q o : Z) (xs : list set_spec) (tail : bytes)
    (input : loc) : Prop := {
  fm_packet : pkt_header msg = Some (enc_message t q o (set_wire <$> xs) ++ tail);
  fm_input : Message.input_info msg = Some input;
  fm_open : source_status msg ≠ SOURCE_STATUS_CLOSED;
  fm_templ : templ_set msg = offsets_of is_template_set (set_wire <$> xs);
  fm_opt : opt_templ_set msg = offsets_of is_options_set (set_wire <$> xs);
  fm_couples : data_couple msg = set_couples IPFIX_HEADER_LENGTH xs;
  fm_sets : Forall (set_spec_ok (fs_templates st)) xs;
  fm_same : ∀ c1 k1 c2 k2, DataSet c1 k1 ∈ xs → DataSet c2 k2 ∈ xs → cp_sid c1 = cp_sid c2 →
    set_pointer c1 k1 = set_pointer c2 k2;
  fm_size : 16 + blen (enc_sets (set_wire <$> xs)) < 65536;
  fm_fit : sets_fit (set_wire <$> xs);
  fm_odid : is_u32 o;
  fm_records : (length (known_records xs) ≤ Z.to_nat (data_records_count msg))%nat;
  fm_metadata : (Z.to_nat (data_records_count msg) ≤ length (msg_metadata msg))%nat;
  fm_channels : Forall (λ m, ∀ l, channels m = Some l → is_Some (fs_channels st !! l))
    (take (Z.to_nat (data_records_count msg)) (msg_metadata msg));
  fm_caches : ∀ k t, fs_templates st !! k = Some t → cache_ok t
}.

Lemma update_keeps_odid profile infos input n sn profile' infos' :
  filter_profile_update_input_info profile infos input n = Ok (sn, profile', infos') → new_odid profile' = new_odid profile.
Proof. unfold filter_profile_update_input_info. intros H. inv_res. destruct x as [l i]. inv_res. done. Qed.

Section apply_profile.
Context (regexec : bytes → bytes → bool) (node : filter_treenode) (profile : filter_profile).
Context (Hroot : root profile = Some node) (Hnode : node_ok node) (Hodid : is_u32 (new_odid profile)).
Context (st : filter_state) (msg : ipfix_message) (t q o : Z) (xs : list set_spec) (tail : bytes) (input : loc).
Context (Hm : filter_message st msg t q o xs tail input).

Let kept := kept_sets regexec node xs.
Let sets := new_sets regexec node xs.
Let listed := couple_records (data_place xs) kept.
Let mem := enc_message t q o (set_wire <$> xs) ++ tail.

(** What is passed on. *)
Definition filtered_message (sn : Z) (info : option loc) (rest : bytes) (md : list metadata) : ipfix_message :=
  {| pkt_header := Some (enc_message t sn (new_odid profile) sets ++ rest); Message.input_info := info;
     source_status := source_status msg; plugin_status := plugin_status msg; plugin_id := plugin_id msg;
     data_records_count := Z.of_nat (length listed);
     templ_records_count := templ_records_count msg; opt_templ_records_count := opt_templ_records_count msg;
     templ_set := offsets_of is_template_set sets; opt_templ_set := offsets_of is_options_set sets;
     data_couple := zip (couple_offsets (data_place xs) kept) ((λ c, Some (cp_template c)) <$> kept);
     live_profile := live_profile msg; msg_metadata := overlay listed md |}.

(** The packet before the header is completed. *)
Lemma packet_written md :
  (length (known_records xs) ≤ length md)%nat →
  ∃ rest h, templates_like (fs_templates st) h ∧
  (c ← put {| ptr := replicate (Z.to_nat (16 + blen (enc_sets (set_wire <$> xs)))) 0; fp_offset := 0; records := 0;
              fp_metadata := md; fp_templates := fs_templates st |} (enc_header (16 + blen (enc_sets (set_wire <$> xs))) t q o);
   c ← filter_add_template_sets mem msg c;
   fold_res (filter_couple regexec mem profile) (data_couple msg) c) =
  Ok (written (enc_header (16 + blen (enc_sets (set_wire <$> xs))) t q o ++ enc_sets sets) rest listed md h).
Proof using Hroot Hnode Hm.
  intros Hmd. pose proof (blen_nonneg (enc_sets (set_wire <$> xs))) as Hpos.
  set (n := 16 + blen (enc_sets (set_wire <$> xs))). set (header := enc_header n t q o).
  assert (blen header = 16) as Hh by apply blen_enc_header.
  pose proof (kinds_room xs) as Hroom. unfold template_sets in Hroom. rewrite enc_sets_app, blen_app in Hroom.
  pose proof (blen_nonneg (enc_sets (sets_of is_template_set xs))). pose proof (blen_nonneg (enc_sets (sets_of is_options_set xs))).
  pose proof (blen_nonneg (enc_sets (data_sets xs))).
  assert (mem = header ++ enc_sets (set_wire <$> xs) ++ tail) as Emem by (unfold mem, enc_message; by rewrite <-app_assoc).
  destruct (put_written md [] (replicate (Z.to_nat n) 0) [] (fs_templates st) header) as (rest0 & E0 & Hr0).
  { rewrite blen_replicate. lia. }
  rewrite blen_replicate, Z2Nat.id in Hr0 by lia. unfold written at 1 in E0. cbn [app length] in E0.
  change (blen []) with 0 in E0. change (Z.of_nat 0) with 0 in E0. change (overlay [] md) with md in E0.
  rewrite E0, res_bind_ret. unfold filter_add_template_sets.
  rewrite (fm_templ _ _ _ _ _ _ _ _ Hm), (fm_opt _ _ _ _ _ _ _ _ Hm), (fm_couples _ _ _ _ _ _ _ _ Hm).
  pose proof (set_lengths _ (fm_size _ _ _ _ _ _ _ _ Hm)) as Hlens. unfold offsets_of. change IPFIX_HEADER_LENGTH with 16. rewrite <-Hh, Emem.
  destruct (copy_sets_written md is_template_set (set_wire <$> xs) header tail header rest0 [] (fs_templates st) Hlens)
    as (rest1 & -> & Hr1); [fold (sets_of is_template_set xs); lia|]. rewrite res_bind_ret.
  fold (sets_of is_template_set xs) in Hr1 |- *.
  destruct (copy_sets_written md is_options_set (set_wire <$> xs) header tail (header ++ enc_sets (sets_of is_template_set xs))
    rest1 [] (fs_templates st) Hlens) as (rest2 & -> & Hr2); [fold (sets_of is_options_set xs); lia|]. rewrite res_bind_ret.
  fold (sets_of is_options_set xs) in Hr2 |- *.
  destruct (filter_couples_written regexec node profile Hroot Hnode md (fs_templates st) xs header tail
    ((header ++ enc_sets (sets_of is_template_set xs)) ++ enc_sets (sets_of is_options_set xs)) rest2 [] (fs_templates st)
    (fm_sets _ _ _ _ _ _ _ _ Hm)) as (rest3 & h & E3 & H3 & Hlike).
  { apply templates_like_refl, (fm_caches _ _ _ _ _ _ _ _ Hm). } { lia. } { done. }
  exists rest3, h. split; [done|]. rewrite E3. cbn [app].
  rewrite <-!app_assoc. unfold sets, new_sets, template_sets. rewrite !enc_sets_app, <-!app_assoc.
  unfold listed, data_place, template_sets. rewrite !blen_app, enc_sets_app, blen_app, Hh. done.
Qed.

(** The new packet as a message, and its couples. *)
Lemma packet_parsed sn info rest : blen (enc_sets sets) < 65520 →
  message_create_from_mem (enc_message t sn (new_odid profile) sets ++ rest) (16 + blen (enc_sets sets)) info (source_status msg) =
  Ok (Some (set_sets (new_message (Some (enc_message t sn (new_odid profile) sets ++ rest)) info (source_status msg))
    (offsets_of is_template_set sets) (offsets_of is_options_set sets)
    ((λ p, (p, None)) <$> couple_offsets (data_place xs) kept))).
Proof using Hodid Hm.
  intros Hlen. pose proof (fm_sets _ _ _ _ _ _ _ _ Hm) as Hxs. pose proof (blen_nonneg (enc_sets sets)).
  rewrite message_create_from_mem_enc; [|by eapply new_sets_ids|done|lia..].
  rewrite decide_True by (eapply new_sets_fit; [done|apply (fm_fit _ _ _ _ _ _ _ _ Hm)]).
  assert (offsets_of is_data_set sets = couple_offsets (data_place xs) kept) as -> by (by eapply new_sets_places). done.
Qed.

Lemma couples_matched sn rest h : templates_like (fs_templates st) h →
  match_couples mem (enc_message t sn (new_odid profile) sets ++ rest) (data_couple msg) (couple_offsets (data_place xs) kept) h =
  Ok (zip (couple_offsets (data_place xs) kept) ((λ c, Some (cp_template c)) <$> kept), add_references h (cp_template <$> kept)).
Proof using Hm.
  intros Hlike. pose proof (fm_sets _ _ _ _ _ _ _ _ Hm) as Hxs.
  assert (enc_message t sn (new_odid profile) sets ++ rest =
    (enc_header (IPFIX_HEADER_LENGTH + blen (enc_sets sets)) t sn (new_odid profile) ++ enc_sets (template_sets xs)) ++
    enc_sets (cp_wire <$> kept) ++ rest) as ->.
  { unfold enc_message. rewrite <-!app_assoc. f_equal. unfold sets, new_sets. by rewrite enc_sets_app, <-app_assoc. }
  assert (data_place xs = blen (enc_header (IPFIX_HEADER_LENGTH + blen (enc_sets sets)) t sn (new_odid profile) ++ enc_sets (template_sets xs))) as ->
    by (by rewrite blen_app, blen_enc_header).
  apply match_couples_spec, Forall_forall. intros c Hc. destruct (kept_sets_known regexec node _ _ Hxs c Hc) as [Hid [tc Htc] ].
  split; [unfold is_u16, IPFIX_MIN_RECORD_FLOWSET_ID in *; lia|]. split.
  { destruct (templates_like_lookup _ _ _ _ Hlike Htc) as (t' & -> & _). by eexists. }
  rewrite (fm_couples _ _ _ _ _ _ _ _ Hm). unfold mem, enc_message. rewrite <-app_assoc.
  change IPFIX_HEADER_LENGTH with (blen (enc_header (IPFIX_HEADER_LENGTH + blen (enc_sets (set_wire <$> xs))) t q o)) at 2.
  destruct (kept_sets_from regexec node xs c Hc) as (c0 & Hin & -> & ->).
  apply (find_couple (fs_templates st)); [done|by exists c0, true|].
  intros c1 k1 Hin1 Hid1. change (Some (cp_template c0)) with (set_pointer c0 true).
  by eapply (fm_same _ _ _ _ _ _ _ _ Hm).
Qed.

Lemma filter_apply_profile_spec :
  ∃ channels md rest h,
    fs_channels st ⊆ channels ∧
    Forall2 (metadata_copy (fs_channels st) channels) (take (Z.to_nat (data_records_count msg)) (msg_metadata msg)) md ∧
    templates_like (fs_templates st) h ∧
    filter_apply_profile regexec msg profile st =
    match sets with
    | [] => Ok ({| fs_templates := h; fs_channels := channels; fs_infos := fs_infos st |}, profile, None)
    | _ =>
        x ← filter_profile_update_input_info profile (fs_infos st) input (Z.of_nat (length listed));
        let '(sn, profile', infos) := x in
        Ok ({| fs_templates := add_references h (cp_template <$> kept); fs_channels := channels; fs_infos := infos |},
            profile', Some (filtered_message sn (fp_input_info profile') rest md))
    end.
Proof using Hroot Hnode Hodid Hm.
  pose proof (fm_metadata _ _ _ _ _ _ _ _ Hm) as Hmd. pose proof (fm_size _ _ _ _ _ _ _ _ Hm) as Hsize.
  pose proof (fm_sets _ _ _ _ _ _ _ _ Hm) as Hxs.
  destruct (copy_metadata_records_spec (take (Z.to_nat (data_records_count msg)) (msg_metadata msg)) (fs_channels st) (fs_channels st))
    as (channels & md & Ecopy & Hsub & Hcopy & _); [done|apply (fm_channels _ _ _ _ _ _ _ _ Hm)|].
  assert (length md = Z.to_nat (data_records_count msg)) as Hlen.
  { apply Forall2_length in Hcopy. rewrite <-Hcopy, length_take. lia. }
  destruct (packet_written md) as (rest & h & Hlike & Epacket).
  { rewrite Hlen. apply (fm_records _ _ _ _ _ _ _ _ Hm). }
  exists channels, md, rest, h. do 3 (split; [done|]).
  unfold filter_apply_profile. rewrite (fm_input _ _ _ _ _ _ _ _ Hm). cbn [or_fault]. rewrite res_bind_ret.
  rewrite decide_False by apply (fm_open _ _ _ _ _ _ _ _ Hm).
  rewrite (fm_packet _ _ _ _ _ _ _ _ Hm). cbn [or_fault]. rewrite res_bind_ret. fold mem.
  pose proof (blen_nonneg (enc_sets (set_wire <$> xs))) as Hpos.
  destruct (rd_header t q o (16 + blen (enc_sets (set_wire <$> xs))) (enc_sets (set_wire <$> xs) ++ tail)) as (_ & Hn & _);
    [unfold is_u16; lia|apply (fm_odid _ _ _ _ _ _ _ _ Hm)|].
  rewrite app_assoc in Hn. change (rd16 mem 2 = Ok (16 + blen (enc_sets (set_wire <$> xs)))) in Hn.
  rewrite Hn, res_bind_ret. unfold message_copy_metadata. rewrite copy_metadata_take, Ecopy, res_bind_ret by done.
  assert (rdn mem 0 IPFIX_HEADER_LENGTH = Ok (enc_header (16 + blen (enc_sets (set_wire <$> xs))) t q o)) as ->.
  { unfold mem, enc_message. rewrite <-app_assoc. exact (rdn_here [] (enc_header _ t q o) _). }
  rewrite res_bind_ret. cbv zeta.
  apply res_bind_Ok in Epacket as (c1 & -> & Epacket). apply res_bind_Ok in Epacket as (c2 & E2 & Epacket).
  rewrite res_bind_ret, E2, res_bind_ret, Epacket, res_bind_ret. cbn [fp_offset written ptr records fp_metadata fp_templates].
  rewrite blen_app, blen_enc_header. pose proof (new_sets_octets regexec node _ xs Hxs) as Hoct. fold sets in Hoct.
  destruct sets as [|s l] eqn:Esets.
  { rewrite decide_True by done. done. }
  rewrite <-Esets in *. assert (0 < blen (enc_sets sets)) as Hpos'.
  { rewrite Esets, enc_sets_cons, blen_app, blen_enc_set. pose proof (blen_nonneg s.2). pose proof (blen_nonneg (enc_sets l)). lia. }
  rewrite decide_False by (unfold IPFIX_HEADER_LENGTH; lia).
  destruct (filter_profile_update_input_info _ _ _ _) as [ [ [sn profile'] infos]| |] eqn:Eup; [|done..].
  rewrite !res_bind_ret.
  assert (new_odid profile' = new_odid profile) as Eodid by (by eapply update_keeps_odid). rewrite Eodid.
  pose proof (header_writes (16 + blen (enc_sets (set_wire <$> xs))) t q o (enc_sets sets ++ rest) sn
    (16 + blen (enc_sets sets)) (new_odid profile)) as Ew.
  apply res_bind_Ok in Ew as (p1 & E1 & Ew). apply res_bind_Ok in Ew as (p2 & E3 & Ew).
  rewrite <-app_assoc, E1, res_bind_ret, E3, res_bind_ret, Ew, res_bind_ret.
  assert (enc_header (16 + blen (enc_sets sets)) t sn (new_odid profile) ++ enc_sets sets ++ rest =
    enc_message t sn (new_odid profile) sets ++ rest) as -> by (unfold enc_message; by rewrite <-app_assoc).
  rewrite packet_parsed, res_bind_ret by lia. cbn [or_fault]. rewrite res_bind_ret.
  cbn [or_fault set_sets new_message pkt_header data_couple]. rewrite res_bind_ret.
  assert (((λ p : Z, (p, @None loc)) <$> couple_offsets (data_place xs) kept).*1 = couple_offsets (data_place xs) kept) as ->
    by (rewrite <-list_fmap_compose; apply list_fmap_id).
  rewrite couples_matched, res_bind_ret by done. cbn [fst snd]. unfold filtered_message, filter_copy_metainfo.
  cbn [pkt_header Message.input_info set_sets new_message templ_set opt_templ_set].
  rewrite u16_small; [done|]. pose proof (listed_octets regexec node _ xs Hxs (data_place xs)) as Hl. fold kept listed in Hl. lia.
Qed.
End apply_profile.

(** ** Theory: input information *)

(** The number the next message of a profile has. *)
Definition profile_seq (infos : gmap loc input_info) (p : filter_profile) : Z :=
  match fp_input_info p with
  | None => 0
  | Some l => match infos !! l with Some i => ii_sequence_number i | None => 0 end
  end.

(** The structure is the one its type says. *)
Definition info_ok (i : input_info) : Prop :=
  if decide (ii_type i = SOURCE_TYPE_IPFIX_FILE) then ∃ name, ii_details i = input_info_file name
  else ∃ n, ii_details i = input_info_network n.

Lemma copy_input_info_ok i : info_ok i → copy_input_info i = Ok i.
Proof. unfold info_ok, copy_input_info, as_file, as_network. case_decide; by intros [x ->]. Qed.

(** The profiles have structures of their own with their identifiers, none of them that
    of the source. *)
Record infos_ok (infos : gmap loc input_info) (input : loc) (ps : list filter_profile) : Prop := {
  io_input : ∃ i, infos !! input = Some i ∧ info_ok i;
  io_alive : ∀ p l, p ∈ ps → fp_input_info p = Some l → is_Some (infos !! l) ∧ l ≠ input;
  io_odid : ∀ p l i, p ∈ ps → fp_input_info p = Some l → infos !! l = Some i → ii_odid i = new_odid p;
  io_own : NoDup (omap fp_input_info ps)
}.

(** The structures of the profiles [ps] stay as they are. *)
Definition keeps_infos (infos infos' : gmap loc input_info) (ps : list filter_profile) : Prop :=
  ∀ p l, p ∈ ps → fp_input_info p = Some l → infos' !! l = infos !! l.

Lemma keeps_seq infos infos' ps p : keeps_infos infos infos' ps → p ∈ ps → profile_seq infos' p = profile_seq infos p.
Proof. intros Hk Hp. unfold profile_seq. destruct (fp_input_info p) as [l|] eqn:E; [|done]. by rewrite (Hk p l). Qed.

Lemma keeps_trans infos1 infos2 infos3 ps : keeps_infos infos1 infos2 ps → keeps_infos infos2 infos3 ps → keeps_infos infos1 infos3 ps.
Proof. intros H1 H2 p l Hp Hl. by rewrite (H2 p l Hp Hl), (H1 p l Hp Hl). Qed.

Lemma keeps_sub infos infos' ps ps' : keeps_infos infos infos' ps → ps' ⊆ ps → keeps_infos infos infos' ps'.
Proof. intros Hk Hs p l Hp. apply Hk. by apply Hs. Qed.

(** The structure [info] of a profile afterwards: it has the identifier of the profile and
    the number [seq], and it is the one of before or a copy of that of the source. *)
Definition profile_info (i : input_info) (infos' : gmap loc input_info) p p' (info : option loc) (seq : Z) : Prop :=
  ∃ l i', info = Some l ∧ fp_input_info p' = Some l ∧ infos' !! l = Some i' ∧
    ii_odid i' = new_odid p ∧ ii_sequence_number i' = seq ∧
    match fp_input_info p with Some l0 => l = l0 | None => i' = set_seq_odid i seq (new_odid p) end.

(** What an update of [p] does: to the number of the profile, and to no other. *)
Record updated (i : input_info) (infos infos' : gmap loc input_info) (p p' : filter_profile) (n : Z) : Prop := {
  up_odid : new_odid p' = new_odid p;
  up_root : root p' = root p;
  up_sources : fp_sources p' = fp_sources p;
  up_seq : profile_seq infos' p' = u32 (profile_seq infos p + n);
  up_info : profile_info i infos' p p' (fp_input_info p') (u32 (profile_seq infos p + n))
}.

Section update.
Context (infos : gmap loc input_info) (input : loc) (l1 l2 : list filter_profile) (p : filter_profile).
Context (Hok : infos_ok infos input (l1 ++ p :: l2)).

(** Storing the structure of [p] at a place no other profile has. *)
Lemma infos_ok_store l i : l ≠ input → ii_odid i = new_odid p → (∀ p0, p0 ∈ l1 ++ l2 → fp_input_info p0 ≠ Some l) →
  infos_ok (<[l := i]> infos) input (l1 ++ set_fp_input_info p (Some l) :: l2) ∧
  <[l := i]> infos !! input = infos !! input ∧
  keeps_infos infos (<[l := i]> infos) (l1 ++ l2).
Proof using Hok.
  intros Hne Hodid Hown. destruct Hok as [Hin Halive Hids Hnd]. split_and!.
  - constructor.
    + by rewrite lookup_insert_ne.
    + intros p0 l0 Hp0 Hl0. destruct (decide (l = l0)) as [<-|Hll]; [split; [by rewrite lookup_insert_eq; eexists|done]|].
      rewrite lookup_insert_ne by done. apply (Halive p0); [|done].
      apply elem_of_app in Hp0 as [?|[->|?]%elem_of_cons]; [apply elem_of_app; by left| |apply elem_of_app; right; by right].
      cbn in Hl0. congruence.
    + intros p0 l0 i0 Hp0 Hl0.
      destruct (decide (l = l0)) as [<-|Hll].
      * rewrite lookup_insert_eq. intros [= <-]. apply elem_of_app in Hp0 as [Hp0|[->|Hp0]%elem_of_cons]; [|done|];
          by destruct (Hown p0 ltac:(apply elem_of_app; tauto)).
      * rewrite lookup_insert_ne by done. apply (Hids p0 l0 i0); [|done].
        apply elem_of_app in Hp0 as [?|[->|?]%elem_of_cons]; [apply elem_of_app; by left| |apply elem_of_app; right; by right].
        cbn in Hl0. congruence.
    + rewrite omap_app in Hnd |- *. cbn [omap list_omap set_fp_input_info fp_input_info] in *.
      assert (NoDup (omap fp_input_info l1 ++ omap fp_input_info l2)) as Hnd'.
      { destruct (fp_input_info p); [|done]. rewrite <-Permutation_middle in Hnd. by apply NoDup_cons in Hnd as [_ ?]. }
      change (NoDup (omap fp_input_info l1 ++ l :: omap fp_input_info l2)). rewrite <-Permutation_middle. apply NoDup_cons. split; [|done].
      rewrite <-omap_app. intros (p0 & Hp0 & E)%list_elem_of_omap. by apply (Hown p0 Hp0).
  - by rewrite lookup_insert_ne.
  - intros p0 l0 Hp0 E. rewrite lookup_insert_ne; [done|]. intros <-. by apply (Hown p0 Hp0).
Qed.

Lemma update_input_info_spec n i0 : infos !! input = Some i0 →
  ∃ p' infos', filter_profile_update_input_info p infos input n = Ok (profile_seq infos p, p', infos') ∧
    updated i0 infos infos' p p' n ∧ infos_ok infos' input (l1 ++ p' :: l2) ∧ infos' !! input = infos !! input ∧
    keeps_infos infos infos' (l1 ++ l2).
Proof using Hok.
  intros Hi0. pose proof Hok as [ (i0' & Hi0' & Hi0ok) Halive Hids Hnd]. rewrite Hi0 in Hi0'. injection Hi0' as <-. unfold filter_profile_update_input_info.
  destruct (fp_input_info p) as [l|] eqn:Ep.
  - rewrite res_bind_ret. destruct (Halive p l) as [ [i Hi] Hne]; [apply elem_of_app; right; by left|done|].
    unfold deref. rewrite Hi. cbn [or_fault]. rewrite res_bind_ret.
    assert (profile_seq infos p = ii_sequence_number i) as -> by (unfold profile_seq; by rewrite Ep, Hi).
    assert (ii_odid i = new_odid p) as Eid by (apply (Hids p l); [apply elem_of_app; right; by left|done|done]).
    eexists _, _. split; [reflexivity|]. split.
    { assert (profile_seq infos p = ii_sequence_number i) as Es by (unfold profile_seq; by rewrite Ep, Hi).
      constructor; [done..| |].
      - unfold profile_seq at 1. cbn [fp_input_info set_fp_input_info]. by rewrite lookup_insert_eq, Es.
      - eexists l, _. cbn [fp_input_info set_fp_input_info]. rewrite Ep. split_and!; [done|done|apply lookup_insert_eq|done|by rewrite Es|done]. }
    apply infos_ok_store; [done|done|]. intros p0 Hp0 E0.
    rewrite omap_app in Hnd. cbn [omap list_omap] in Hnd. rewrite Ep in Hnd.
    change (NoDup (omap fp_input_info l1 ++ l :: omap fp_input_info l2)) in Hnd. rewrite <-Permutation_middle in Hnd.
    apply NoDup_cons in Hnd as [Hnd _]. apply Hnd. rewrite <-omap_app. apply list_elem_of_omap. by exists p0.
  - unfold deref. rewrite Hi0. cbn [or_fault]. rewrite res_bind_ret, copy_input_info_ok, !res_bind_ret by done.
    set (l := fresh (dom infos)). assert (infos !! l = None) as Hl by (apply not_elem_of_dom, is_fresh).
    rewrite lookup_insert_eq. cbn [or_fault]. rewrite res_bind_ret, insert_insert_eq.
    assert (profile_seq infos p = 0) as -> by (unfold profile_seq; by rewrite Ep).
    eexists _, _. split; [reflexivity|]. split.
    { assert (profile_seq infos p = 0) as Es by (unfold profile_seq; by rewrite Ep).
      constructor; [done..| |].
      - unfold profile_seq at 1. cbn [fp_input_info set_fp_input_info]. by rewrite lookup_insert_eq, Es.
      - eexists l, _. cbn [fp_input_info set_fp_input_info]. rewrite Ep. split_and!; [done|done|apply lookup_insert_eq|done|by rewrite Es|by rewrite Es]. }
    rewrite <-Hi0. apply infos_ok_store; [congruence|done|]. intros p0 Hp0 E0.
    destruct (Halive p0 l) as [ [? ?] _]; [|done|congruence]. apply elem_of_app in Hp0 as [?|?]; apply elem_of_app; [by left|right; by right].
Qed.
End update.

(** ** Theory: several profiles *)

(** Templates that differ in references and cached offsets. *)
Definition alike (t t' : ipfix_template) : Prop :=
  fields t' = fields t ∧ field_count t' = field_count t ∧ data_length t' = data_length t.
Definition heap_alike (h h' : template_heap) : Prop :=
  ∀ k, option_Forall2 (λ t t', alike t t' ∧ cache_ok t') (h !! k) (h' !! k).

Lemma data_set_of_alike t t' fs ds padding : alike t t' → data_set_of t fs ds padding → data_set_of t' fs ds padding.
Proof. intros (E1 & E2 & E3) [ [? ? ? ? ? ? ?] ? ? ? ?]. constructor; [constructor|..]; congruence || done. Qed.

Lemma templates_like_alike h h' : templates_like h h' → heap_alike h h'.
Proof. intros Hl k. destruct (Hl k) as [t t' [-> ?]|]; constructor. by split. Qed.

Lemma add_reference_alike h h' l : heap_alike h h' → heap_alike h (add_reference h' l).
Proof.
  intros Ha k. unfold add_reference. destruct (decide (l = k)) as [<-|Hne].
  - rewrite lookup_alter_eq. destruct (Ha l) as [t t' [Ht Hc]|]; constructor. by split.
  - rewrite lookup_alter_ne by done. apply Ha.
Qed.

Lemma add_references_alike h ls : ∀ h', heap_alike h h' → heap_alike h (add_references h' ls).
Proof. induction ls as [|l ls IH]; intros h' Ha; [done|]. by apply IH, add_reference_alike. Qed.

Lemma filter_message_alike st st' msg t q o xs tail input : filter_message st msg t q o xs tail input →
  heap_alike (fs_templates st) (fs_templates st') → fs_channels st ⊆ fs_channels st' →
  filter_message st' msg t q o xs tail input.
Proof.
  intros [] Ha Hc. constructor; [done..| |done|done|done|done|done|done| |].
  - eapply Forall_impl; [done|]. intros [s|c known] Hx; [done|]. destruct Hx as [Hid Hk]. split; [done|].
    intros Eq. destruct (Hk Eq) as (t0 & Ht & Hset & Hrec). specialize (Ha (cp_template c)). rewrite Ht in Ha.
    inversion Ha as [? t' [Hal _]|]; subst. exists t'. split; [done|]. split; [by eapply data_set_of_alike|done].
  - eapply Forall_impl; [done|]. intros m Hm l Hl. destruct (Hm l Hl) as [x Hx]. exists x. by eapply lookup_weaken.
  - intros k t' Hk. specialize (Ha k). rewrite Hk in Ha. by inversion Ha as [? ? [_ ?]|].
Qed.

Definition profile_ok (p : filter_profile) : Prop :=
  ∃ node, root p = Some node ∧ node_ok node ∧ is_u32 (new_odid p).

Section profiles.
Context (regexec : bytes → bytes → bool) (msg : ipfix_message) (t q o : Z) (xs : list set_spec) (tail : bytes) (input : loc).
Implicit Types (p : filter_profile) (ps l : list filter_profile) (es : list filter_event).

(** What a profile does with the message: the events [es], between the states with
    [infos] and [ch] and with [infos'] and [ch'] of structures and channels. The metadata
    of the copy is that of the first records of the original, with channels of its own. *)
Definition profile_effect (i : input_info) (infos infos' : gmap loc input_info) (ch ch' : channel_heap)
    (selected : bool) p p' es : Prop :=
  if selected then
    ∃ node, root p = Some node ∧
    match new_sets regexec node xs with
    | [] => es = [] ∧ profile_seq infos' p' = profile_seq infos p
    | _ =>
        let seq := profile_seq infos p in
        let seq' := u32 (seq + Z.of_nat (length (couple_records (data_place xs) (kept_sets regexec node xs)))) in
        profile_seq infos' p' = seq' ∧
        ∃ info rest md, es = [pass_message (filtered_message regexec node p msg t xs seq info rest md)] ∧
          profile_info i infos' p p' info seq' ∧
          Forall2 (metadata_copy ch ch') (take (Z.to_nat (data_records_count msg)) (msg_metadata msg)) md
    end
  else es = [] ∧ profile_seq infos' p' = profile_seq infos p.

Lemma metadata_copy_mono ch ch' ch0 ch1 m m' : ch0 ⊆ ch → ch' ⊆ ch1 → (∀ a : loc, channels m = Some a → is_Some (ch0 !! a)) →
  metadata_copy ch ch' m m' → metadata_copy ch0 ch1 m m'.
Proof.
  intros H0 H1 Halive [E Hc]. split; [done|]. destruct (channels m) as [l|], (channels m') as [l'|]; try done.
  destruct (Halive l eq_refl) as [x Hx]. destruct Hc as (E1 & [y Hy] & Hnone). pose proof (lookup_weaken _ _ _ _ Hx H0) as Hx'.
  pose proof (lookup_weaken _ _ _ _ Hy H1) as Hy'. split; [congruence|]. split; [by exists y|]. by eapply lookup_weaken_None.
Qed.

Lemma profile_effect_mono i infos infos' ch ch' infos0 infos1 ch0 ch1 sel p p' es :
  keeps_infos infos0 infos [p] → keeps_infos infos' infos1 [p'] → ch0 ⊆ ch → ch' ⊆ ch1 →
  Forall (λ m, ∀ a : loc, channels m = Some a → is_Some (ch0 !! a)) (take (Z.to_nat (data_records_count msg)) (msg_metadata msg)) →
  profile_effect i infos infos' ch ch' sel p p' es → profile_effect i infos0 infos1 ch0 ch1 sel p p' es.
Proof.
  intros K0 K1 H0 H1 Halive. unfold profile_effect.
  rewrite <-(keeps_seq infos0 infos [p] p K0), (keeps_seq infos' infos1 [p'] p' K1) by by left.
  destruct sel; [|done]. intros (node & Hroot & He). exists node. split; [done|]. destruct (new_sets regexec node xs) as [|? ?]; [done|].
  destruct He as (Hseq & info & rest & md & -> & (a & i' & -> & Hl & Hi' & Hrest) & Hmd). split; [done|].
  exists (Some a), rest, md. split; [done|]. split.
  { exists a, i'. rewrite (K1 p' a) by (done || by left). done. }
  clear -H0 H1 Halive Hmd. induction Hmd as [|m m' ms md Hm _ IH]; [constructor|]. apply Forall_cons in Halive as [Hal Halive].
  constructor; [by eapply metadata_copy_mono|by apply IH].
Qed.

Definition same_profile p p' : Prop :=
  new_odid p' = new_odid p ∧ root p' = root p ∧ fp_sources p' = fp_sources p.

Lemma profile_ok_same p p' : same_profile p p' → profile_ok p → profile_ok p'.
Proof. intros (E1 & E2 & _). unfold profile_ok. by rewrite E1, E2. Qed.

Lemma apply_one st l1 p l2 i : filter_message st msg t q o xs tail input → infos_ok (fs_infos st) input (l1 ++ p :: l2) →
  profile_ok p → fs_infos st !! input = Some i →
  ∃ st' p' m, filter_apply_profile regexec msg p st = Ok (st', p', m) ∧
    profile_effect i (fs_infos st) (fs_infos st') (fs_channels st) (fs_channels st') true p p' (passed m) ∧ same_profile p p' ∧
    filter_message st' msg t q o xs tail input ∧ infos_ok (fs_infos st') input (l1 ++ p' :: l2) ∧
    fs_infos st' !! input = Some i ∧ keeps_infos (fs_infos st) (fs_infos st') (l1 ++ l2) ∧ fs_channels st ⊆ fs_channels st'.
Proof.
  intros Hm Hinfo (node & Hroot & Hnode & Hodid) Hi.
  destruct (filter_apply_profile_spec regexec node p Hroot Hnode Hodid st msg t q o xs tail input Hm)
    as (channels & md & rest & h & Hsub & Hmd & Hlike & ->).
  destruct (new_sets regexec node xs) as [|s l] eqn:Es.
  - eexists _, p, None. split; [reflexivity|]. cbn [fs_infos fs_channels]. split; [exists node; by rewrite Es|]. split; [done|].
    split; [|done]. by eapply filter_message_alike; [|apply templates_like_alike|].
  - destruct (update_input_info_spec (fs_infos st) input l1 l2 p Hinfo
      (Z.of_nat (length (couple_records (data_place xs) (kept_sets regexec node xs)))) i Hi)
      as (p' & infos' & -> & [] & Hinfo' & Hin & Hseq).
    rewrite res_bind_ret. eexists _, p', (Some _). split; [reflexivity|]. cbn [fs_infos fs_channels passed].
    split; [exists node; rewrite Es; split; [done|]; split; [done|]; by eexists _, _, _|]. split; [done|].
    rewrite Hin. split; [|done]. eapply filter_message_alike; [done| |done]. cbn [fs_templates].
    by apply add_references_alike, templates_like_alike.
Qed.

(** The profiles from [ps] on, behind those of [l1]. *)
Lemma apply_profiles_spec odid i ps : ∀ l1 l2 st, filter_message st msg t q o xs tail input →
  infos_ok (fs_infos st) input (l1 ++ ps ++ l2) → Forall profile_ok ps → fs_infos st !! input = Some i →
  ∃ st' ps' ess, apply_profiles regexec msg odid ps st =
      Ok (st', ps', mjoin ess, Z.of_nat (length (filter (λ p, odid ∈ fp_sources p) ps))) ∧
    Forall2 same_profile ps ps' ∧ length ess = length ps ∧
    (∀ k p p' es, ps !! k = Some p → ps' !! k = Some p' → ess !! k = Some es →
      profile_effect i (fs_infos st) (fs_infos st') (fs_channels st) (fs_channels st')
        (bool_decide (odid ∈ fp_sources p)) p p' es) ∧
    filter_message st' msg t q o xs tail input ∧ infos_ok (fs_infos st') input (l1 ++ ps' ++ l2) ∧
    fs_infos st' !! input = Some i ∧ keeps_infos (fs_infos st) (fs_infos st') (l1 ++ l2) ∧ fs_channels st ⊆ fs_channels st'.
Proof.
  induction ps as [|p ps IH]; intros l1 l2 st Hm Hinfo Hps Hi; cbn [apply_profiles].
  { exists st, [], []. by split_and!. }
  apply Forall_cons in Hps as [Hp Hps]. rewrite filter_cons. pose proof (fm_channels _ _ _ _ _ _ _ _ Hm) as Halive.
  destruct (decide (odid ∈ fp_sources p)) as [Hin|Hout].
  - destruct (apply_one st l1 p (ps ++ l2) i Hm Hinfo Hp Hi) as (st1 & p' & m & -> & Heff & Hsame & Hm1 & Hinfo1 & Hi1 & Hk1 & Hc1).
    rewrite res_bind_ret. rewrite cons_middle, app_assoc in Hinfo1.
    destruct (IH (l1 ++ [p']) l2 st1 Hm1 Hinfo1 Hps Hi1) as (st2 & ps' & ess & -> & Hs2 & Hl2 & Heff2 & Hm2 & Hinfo2 & Hi2 & Hk2 & Hc2).
    rewrite res_bind_ret. exists st2, (p' :: ps'), (passed m :: ess).
    split; [cbn [length mjoin list_join]; do 2 f_equal; lia|]. split; [by constructor|]. split; [cbn; by rewrite Hl2|].
    split; [|split; [done|split; [cbn [app]; by rewrite cons_middle, app_assoc|split; [done|split; [|by transitivity (fs_channels st1)] ] ] ] ].
    + intros [|k] p1 p1' es H1 H2 H3; cbn in H1, H2, H3; simplify_eq.
      * rewrite bool_decide_eq_true_2 by done. eapply (profile_effect_mono i (fs_infos st) (fs_infos st1) (fs_channels st) (fs_channels st1));
          [by intros ???| |done|exact Hc2|done|exact Heff].
        eapply keeps_sub; [exact Hk2|]. intros x ->%list_elem_of_singleton. apply elem_of_app; left; apply elem_of_app; right; by left.
      * eapply (profile_effect_mono i (fs_infos st1) (fs_infos st2) (fs_channels st1) (fs_channels st2));
          [|by intros ???|exact Hc1|done|done|by eapply Heff2].
        eapply keeps_sub; [exact Hk1|]. intros x ->%list_elem_of_singleton.
        apply elem_of_app; right; apply elem_of_app; left; by eapply list_elem_of_lookup_2.
    + eapply keeps_trans; (eapply keeps_sub; [eassumption|]); intros x Hx; apply elem_of_app; apply elem_of_app in Hx as [?|?];
        [by left|right; apply elem_of_app; by right|left; apply elem_of_app; by left|by right].
  - cbn [app] in Hinfo. rewrite cons_middle, app_assoc in Hinfo.
    destruct (IH (l1 ++ [p]) l2 st Hm Hinfo Hps Hi) as (st2 & ps' & ess & -> & Hs2 & Hl2 & Heff2 & Hm2 & Hinfo2 & Hi2 & Hk2 & Hc2).
    rewrite res_bind_ret. exists st2, (p :: ps'), ([] :: ess).
    split; [done|]. split; [by constructor|]. split; [cbn; by rewrite Hl2|].
    split; [|split; [done|split; [cbn [app]; by rewrite cons_middle, app_assoc|split; [done|split; [|done] ] ] ] ].
    + intros [|k] p1 p1' es H1 H2 H3; cbn in H1, H2, H3; simplify_eq; [|by eapply Heff2].
      rewrite bool_decide_eq_false_2 by done. split; [done|].
      apply (keeps_seq _ _ _ _ Hk2). apply elem_of_app; left; apply elem_of_app; right; by left.
    + eapply keeps_sub; [exact Hk2|]. intros x Hx. apply elem_of_app; apply elem_of_app in Hx as [?|?]; [left; apply elem_of_app; by left|by right].
Qed.
End profiles.

(** ** Property *)

Definition all_profiles (conf : filter_config) : list filter_profile :=
  fc_profiles conf ++ match default_profile conf with Some d => [d] | None => [] end.

(** A profile is for the messages of its sources, the default one for the other messages. *)
Definition selected (conf : filter_config) (odid : Z) : list bool :=
  ((λ p, bool_decide (odid ∈ fp_sources p)) <$> fc_profiles conf) ++
  match default_profile conf with
  | Some _ => [bool_decide (Forall (λ p, odid ∉ fp_sources p) (fc_profiles conf))]
  | None => []
  end.

(** The original: dropped if the configuration says so and a profile was for it. *)
Definition original_event (conf : filter_config) (odid : Z) (msg : ipfix_message) : filter_event :=
  if remove_original conf && existsb id (selected conf odid) then drop_message msg else pass_message msg.

Lemma filter_sources_none odid ps :
  length (filter (λ p, odid ∈ fp_sources p) ps) = 0%nat ↔ Forall (λ p, odid ∉ fp_sources p) ps.
Proof.
  induction ps as [|p ps IH]; [done|]. rewrite filter_cons, Forall_cons, <-IH. case_decide; cbn [length]; [|tauto].
  split; [lia|tauto].
Qed.

Lemma some_selected conf odid : existsb id (selected conf odid) = false ↔
  default_profile conf = None ∧ Forall (λ p, odid ∉ fp_sources p) (fc_profiles conf).
Proof.
  unfold selected. rewrite existsb_app, orb_false_iff.
  assert (existsb id ((λ p, bool_decide (odid ∈ fp_sources p)) <$> fc_profiles conf) = false ↔
    Forall (λ p, odid ∉ fp_sources p) (fc_profiles conf)) as ->.
  { induction (fc_profiles conf) as [|p ps IH]; [done|]. rewrite fmap_cons, Forall_cons, <-IH. cbn [existsb].
    unfold id at 1. rewrite orb_false_iff, bool_decide_eq_false. done. }
  destruct (default_profile conf); cbn [existsb]; [|tauto]. unfold id. rewrite orb_false_r, bool_decide_eq_false.
  split; [tauto|by intros [? _] ].
Qed.

(** The last entries of four lists of one length. *)
Lemma lookup_snoc4 {A B C D} (la : list A) (lb : list B) (lc : list C) (ld : list D) a b c d k x y z w (P : A → B → C → D → Prop) :
  length lb = length la → length lc = length la → length ld = length la →
  (la !! k = Some x → lb !! k = Some y → lc !! k = Some z → ld !! k = Some w → P x y z w) → P a b c d →
  (la ++ [a]) !! k = Some x → (lb ++ [b]) !! k = Some y → (lc ++ [c]) !! k = Some z → (ld ++ [d]) !! k = Some w → P x y z w.
Proof.
  intros Hb Hc Hd Hin Hlast. destruct (decide (k < length la)%nat) as [Hk|Hk].
  - rewrite !lookup_app_l by lia. exact Hin.
  - rewrite !lookup_app_r by lia. rewrite Hb, Hc, Hd. destruct (k - length la)%nat as [|j]; cbn; [|done].
    by intros [= <-] [= <-] [= <-] [= <-].
Qed.

(** C6: every message of data is copied once for each profile that is for its source,
    or for the default profile when there is none: the copy has the template sets and
    the options template sets of the original, those records of the data sets with a
    template that the filter of the profile fits, the Observation Domain ID of the
    profile, and as its sequence number the number of records the profile has let pass
    before, and its data sets are coupled with the templates of the original; its
    structure of input information is that of the profile, with the new identifier and
    the next sequence number, and its metadata are copies of those of the original, the
    first for the first record that is left. No copy is made when there are no sets left.
    The copies are passed on in the order of the profiles, then the original is passed on
    or, when the configuration says so, dropped; a message for which there is no profile
    and no default one is passed on in any case. All stores stay inside the packet that
    was allocated for the copy, and the state is again one that is good for a message. *)
Theorem process_message_filters regexec conf msg t q o xs tail input st i :
  filter_message st msg t q o xs tail input →
  fs_infos st !! input = Some i → infos_ok (fs_infos st) input (all_profiles conf) →
  Forall profile_ok (all_profiles conf) →
  ∃ st' conf' ess,
    intermediate_process_message regexec conf msg st =
      Ok (st', conf', mjoin ess ++ [original_event conf (ii_odid i) msg]) ∧
    length ess = length (all_profiles conf) ∧
    (∀ k p p' es b, all_profiles conf !! k = Some p → all_profiles conf' !! k = Some p' → ess !! k = Some es →
      selected conf (ii_odid i) !! k = Some b →
      profile_effect regexec msg t xs i (fs_infos st) (fs_infos st') (fs_channels st) (fs_channels st') b p p' es) ∧
    Forall2 same_profile (all_profiles conf) (all_profiles conf') ∧
    filter_message st' msg t q o xs tail input ∧ infos_ok (fs_infos st') input (all_profiles conf') ∧
    fs_infos st' !! input = Some i.
Proof.
  intros Hm Hi Hinfo Hok. set (odid := ii_odid i). unfold all_profiles in Hinfo, Hok. apply Forall_app in Hok as [Hps Hd].
  unfold intermediate_process_message. rewrite (fm_input _ _ _ _ _ _ _ _ Hm). cbn [or_fault]. rewrite res_bind_ret.
  unfold deref. rewrite Hi. cbn [or_fault]. rewrite res_bind_ret. fold odid.
  destruct (apply_profiles_spec regexec msg t q o xs tail input odid i (fc_profiles conf) []
    (match default_profile conf with Some d => [d] | None => [] end) st Hm Hinfo Hps Hi)
    as (st1 & ps' & ess & -> & Hsame & Hlen & Heff & Hm1 & Hinfo1 & Hi1 & Hk1 & Hc1).
  rewrite res_bind_ret. cbn [app] in Hinfo1. pose proof (fm_channels _ _ _ _ _ _ _ _ Hm) as Halive.
  set (n := Z.of_nat _). assert (n = 0 ↔ Forall (λ p, odid ∉ fp_sources p) (fc_profiles conf)) as Hn
    by (rewrite <-filter_sources_none; unfold n; lia). clearbody n.
  assert (length ps' = length (fc_profiles conf)) as Hlen' by (symmetry; by eapply Forall2_length).
  unfold original_event. pose proof (some_selected conf odid) as Hsel. unfold all_profiles.
  destruct (default_profile conf) as [d|] eqn:Ed.
  - assert (existsb id (selected conf odid) = true) as -> by (apply not_false_iff_true; rewrite Hsel; by intros [? _]).
    rewrite andb_true_r. assert (selected conf odid = ((λ p, bool_decide (odid ∈ fp_sources p)) <$> fc_profiles conf) ++
      [bool_decide (n = 0)]) as -> by (unfold selected; rewrite Ed; do 2 f_equal; apply bool_decide_ext; by rewrite Hn).
    clear Hsel. apply Forall_cons in Hd as [Hd _]. destruct (decide (n = 0)) as [E0|Hne].
    + destruct (apply_one regexec msg t q o xs tail input st1 ps' d [] i Hm1 Hinfo1 Hd Hi1)
        as (st2 & d' & m & -> & Heffd & Hsamed & Hm2 & Hinfo2 & Hi2 & Hk2 & Hc2).
      rewrite res_bind_ret. eexists st2, _, (ess ++ [passed m]). cbn [fc_profiles default_profile].
      rewrite mjoin_snoc, <-app_assoc. split; [done|]. rewrite !length_app, Hlen. split; [done|].
      split; [|split; [by apply Forall2_app; [|constructor] |split; [done|split; done] ] ].
      rewrite bool_decide_eq_true_2 by done.
      intros k p p' es b. apply (lookup_snoc4 (fc_profiles conf) ps' ess _ d d' (passed m) true k p p' es b
        (λ p p' es b, profile_effect regexec msg t xs i (fs_infos st) (fs_infos st2) (fs_channels st) (fs_channels st2) b p p' es)); [done|done|by rewrite length_fmap| |].
      * intros H1 H2 H3 H4. rewrite list_lookup_fmap, H1 in H4. injection H4 as <-.
        eapply (profile_effect_mono regexec msg t xs i (fs_infos st) (fs_infos st1) (fs_channels st) (fs_channels st1));
          [by intros ???| |done|exact Hc2|done|by eapply Heff].
        eapply keeps_sub; [exact Hk2|]. intros x ->%list_elem_of_singleton. rewrite app_nil_r. by eapply list_elem_of_lookup_2.
      * eapply (profile_effect_mono regexec msg t xs i (fs_infos st1) (fs_infos st2) (fs_channels st1) (fs_channels st2));
          [exact Hk1|by intros ???|exact Hc1|done|done|exact Heffd].
    + eexists st1, _, (ess ++ [ [] ]). cbn [fc_profiles default_profile].
      rewrite mjoin_snoc, app_nil_r. split; [done|]. rewrite !length_app, Hlen. split; [done|].
      split; [|split; [by apply Forall2_app; [|by constructor] |by split_and!] ].
      rewrite bool_decide_eq_false_2 by done. intros k p p' es b.
      apply (lookup_snoc4 (fc_profiles conf) ps' ess _ d d [] false k p p' es b
        (λ p p' es b, profile_effect regexec msg t xs i (fs_infos st) (fs_infos st1) (fs_channels st) (fs_channels st1) b p p' es)); [done|done|by rewrite length_fmap| |].
      * intros H1 H2 H3 H4. rewrite list_lookup_fmap, H1 in H4. injection H4 as <-. by eapply Heff.
      * split; [done|]. apply (keeps_seq _ _ _ _ Hk1). by left.
  - rewrite !app_nil_r. assert (∀ k p p' es b, fc_profiles conf !! k = Some p → ps' !! k = Some p' → ess !! k = Some es →
      selected conf odid !! k = Some b → profile_effect regexec msg t xs i (fs_infos st) (fs_infos st1) (fs_channels st) (fs_channels st1) b p p' es) as Hall.
    { intros k p p' es b H1 H2 H3 H4. unfold selected in H4. rewrite Ed, app_nil_r, list_lookup_fmap, H1 in H4. injection H4 as <-. by eapply Heff. }
    destruct (decide (n = 0)) as [E0|Hne].
    + rewrite (proj2 Hsel) by (split; [done|by apply Hn]). rewrite andb_false_r.
      eexists st1, _, ess. split; [done|]. cbn [fc_profiles default_profile]. rewrite !app_nil_r. rewrite app_nil_r in Hinfo1. by split_and!.
    + assert (existsb id (selected conf odid) = true) as -> by (apply not_false_iff_true; rewrite Hsel, <-Hn; by intros [_ ?]).
      rewrite andb_true_r. eexists st1, _, ess. split; [done|]. cbn [fc_profiles default_profile]. rewrite !app_nil_r. rewrite app_nil_r in Hinfo1. by split_and!.
Qed.

(** ** An example *)

(** A template set, two records, and a set without a template. *)
Definition set_example : coupled :=
  {| cp_sid := 258; cp_template := 1%positive; cp_def := template_example; cp_fields := fields_example;
     cp_records := records_example; cp_padding := [0; 0] |}.
Definition sets_example : list set_spec :=
  [OtherSet (2, [1; 2; 0; 1; 0; 8; 0; 4]); DataSet set_example true;
   DataSet {| cp_sid := 300; cp_template := 1%positive; cp_def := template_example; cp_fields := []; cp_records := [];
              cp_padding := [1; 2; 3] |} false].

Definition file_info (odid : Z) : input_info :=
  {| ii_type := SOURCE_TYPE_IPFIX_FILE; ii_sequence_number := 0; ii_odid := odid; ii_packets := 0; ii_data_records := 0;
     ii_details := input_info_file [] |}.

Definition filter_state_example : filter_state :=
  {| fs_templates := {[1%positive := template_example]}; fs_channels := ∅; fs_infos := {[7%positive := file_info 42]} |}.

Definition filter_message_example : ipfix_message :=
  {| pkt_header := Some (enc_message 1000 5 42 (set_wire <$> sets_example)); Message.input_info := Some 7%positive;
     source_status := SOURCE_STATUS_OPENED; plugin_status := PLUGIN_DATA; plugin_id := 0; data_records_count := 2;
     templ_records_count := 1; opt_templ_records_count := 0;
     templ_set := offsets_of is_template_set (set_wire <$> sets_example); opt_templ_set := [];
     data_couple := set_couples IPFIX_HEADER_LENGTH sets_example; live_profile := None;
     msg_metadata := [metadata_example None; metadata_example None] |}.

(** One profile with the port 80, and a default profile with everything. *)
Definition profile_example (odid : Z) (node : filter_treenode) (sources : list Z) : filter_profile :=
  {| fp_input_info := None; new_odid := odid; root := Some node; fp_sources := sources |}.
Definition filter_config_example : filter_config :=
  {| remove_original := true;
     fc_profiles := [profile_example 100 filter_example [42; 43] ];
     default_profile := Some (profile_example 101 (NODE_EXISTS false {| ff_enterprise := 0; ff_id := 8 |}) []) |}.

Lemma filter_message_example_ok : filter_message filter_state_example filter_message_example 1000 5 42 sets_example [] 7.
Proof.
  constructor; try reflexivity; try done.
  - repeat constructor; try (cbn; lia); cbn; unfold is_u16, is_data_set, IPFIX_MIN_RECORD_FLOWSET_ID; try lia; try done.
    intros _. exists template_example. split; [done|]. split; [exact records_example_of|].
    repeat constructor; try done.
  - intros c1 k1 c2 k2 H1 H2.
    repeat (apply elem_of_cons in H1 as [H1|H1]; [try discriminate H1|]); [..|by apply not_elem_of_nil in H1];
    repeat (apply elem_of_cons in H2 as [H2|H2]; [try discriminate H2|]); try (by apply not_elem_of_nil in H2);
    injection H1 as -> ->; injection H2 as -> ->; done.
  - repeat constructor; done.
  - intros k t Hk. cbn [fs_templates filter_state_example] in Hk. apply lookup_singleton_Some in Hk as [_ <-]. exact cache_ok_template_example.
Qed.

Lemma process_message_filters_witness :
  ∃ st' conf' ess,
    intermediate_process_message (λ _ _, false) filter_config_example filter_message_example filter_state_example =
      Ok (st', conf', mjoin ess ++ [drop_message filter_message_example]) ∧
    length ess = 2%nat ∧ fs_infos st' !! 7%positive = Some (file_info 42).
Proof.
  destruct (process_message_filters (λ _ _, false) filter_config_example filter_message_example 1000 5 42 sets_example [] 7%positive
    filter_state_example (file_info 42)) as (st' & conf' & ess & E & Hlen & _ & _ & _ & _ & Hi).
  - exact filter_message_example_ok.
  - done.
  - constructor; [by exists (file_info 42); split; [|exists []]| | |by constructor];
      [intros p l Hp Hl|intros p l i Hp Hl]; repeat (apply elem_of_cons in Hp as [->|Hp]; [done|]); by apply not_elem_of_nil in Hp.
  - constructor; [|constructor; [|constructor] ]; eexists; (split; [reflexivity|split; [|done] ]); [exact filter_example_ok|exact I].
  - exists st', conf', ess. split; [exact E|]. split; [exact Hlen|exact Hi].
Defined.

(** The message that is passed on: the template set and the first record, with the
    identifier 100 and the sequence number 0. *)
Example filter_passes :
  match intermediate_process_message (λ _ _, false) filter_config_example filter_message_example filter_state_example with
  | Ok (_, _, [pass_message m; drop_message _]) =>
      pkt_header m = Some (enc_message 1000 0 100
        [(2, [1; 2; 0; 1; 0; 8; 0; 4]); (258, enc_records (take 1 records_example))] ++ replicate 16 0) ∧
      data_couple m = [(28, Some 1%positive)] ∧ data_records_count m = 1
  | _ => False
  end.
Proof. by vm_compute. Qed.
