(* ===== verification/Anonymization.v ===== *)
(** * Anonymization of addresses (src/base/src/intermediate/anonymization)

    The intermediate plugin replaces the addresses in the data records of a message, by
    truncation or with Crypto-PAn, which maps addresses with a common prefix to addresses
    with a common prefix of the same length.  [Crypto-PAn/panonymizer.c] builds the
    mapping on a block cipher; nothing depends on which cipher that is, so the
    definitions have it as an argument ([Rijndael_blockEncrypt] with the key that
    [Rijndael_init] was given) and the theorems hold for every cipher. *)

From S2P Require Import Prelude CLib TemplateRecord DataRecord Message TemplateManager Preprocessor.

(** ** Crypto-PAn (panonymizer.c) *)

Definition byte_at (m : bytes) (i : nat) : Z := nth i m 0.

Section panonymizer.
(** The cipher takes a key and a block of 16 octets to a block of 16 octets. *)
Context (Rijndael_blockEncrypt : bytes → bytes → bytes).

Record panonymizer := { m_key : bytes; m_pad : bytes }.

Definition PAnonymizer_Init (key : bytes) : res panonymizer :=
  m_key ← rdn key 0 16;
  pad ← rdn key 16 16;
  Ok {| m_key := m_key; m_pad := Rijndael_blockEncrypt m_key pad |}.

(** The first bit of the encrypted block: [rin_output[0] >> 7]. *)
Definition cipher_bit (st : panonymizer) (rin_input : bytes) : Z :=
  Z.shiftr (u8 (byte_at (Rijndael_blockEncrypt (m_key st) rin_input) 0)) 7.

Definition first4bytes_pad (st : panonymizer) : Z :=
  u32 (Z.shiftl (byte_at (m_pad st) 0) 24 + Z.shiftl (byte_at (m_pad st) 1) 16 + Z.shiftl (byte_at (m_pad st) 2) 8 +
       byte_at (m_pad st) 3).

(** The block for the bit at [pos]: the first [pos] bits of the address before the pad. *)
Definition rin_input_v4 (st : panonymizer) (orig_addr pos : Z) : bytes :=
  let first4bytes_pad := first4bytes_pad st in
  let first4bytes_input :=
    if decide (pos = 0) then first4bytes_pad
    else Z.lor (u32 (Z.shiftl (Z.shiftr orig_addr (32 - pos)) (32 - pos)))
               (Z.shiftr (u32 (Z.shiftl first4bytes_pad pos)) pos) in
  [u8 (Z.shiftr first4bytes_input 24); u8 (Z.shiftr (u32 (Z.shiftl first4bytes_input 8)) 24);
   u8 (Z.shiftr (u32 (Z.shiftl first4bytes_input 16)) 24); u8 (Z.shiftr (u32 (Z.shiftl first4bytes_input 24)) 24)] ++
  drop 4 (m_pad st).

Definition anonymize_step (st : panonymizer) (orig_addr : Z) (result pos : Z) : Z :=
  Z.lor result (u32 (Z.shiftl (cipher_bit st (rin_input_v4 st orig_addr pos)) (31 - pos))).

Definition anonymize (st : panonymizer) (orig_addr : Z) : Z :=
  Z.lxor (foldl (anonymize_step st orig_addr) 0 (range 0 32)) orig_addr.

(** The block for the bit at [pos] of an IPv6 address; [<<] is done on [int], so the pad
    is not masked. *)
Definition rin_input_v6 (st : panonymizer) (orig_bytes : bytes) (pos : Z) : bytes :=
  let bit_num := Z.land pos 7 in
  let left_byte := Z.to_nat (Z.shiftr pos 3) in
  take left_byte orig_bytes ++
  [u8 (Z.lor (Z.shiftl (Z.shiftr (byte_at orig_bytes left_byte) (7 - bit_num)) (7 - bit_num))
             (Z.shiftr (Z.shiftl (byte_at (m_pad st) left_byte) bit_num) bit_num))] ++
  drop (S left_byte) (m_pad st).

Definition anonymize_v6_step (st : panonymizer) (orig_bytes : bytes) (result : bytes) (pos : Z) : bytes :=
  let bit_num := Z.land pos 7 in
  let left_byte := Z.to_nat (Z.shiftr pos 3) in
  alter (λ x, u8 (Z.lor x (Z.shiftl (cipher_bit st (rin_input_v6 st orig_bytes pos)) bit_num))) left_byte result.

(** The XOR of the 64-bit halves is the one of their octets. *)
Definition anonymize_v6 (st : panonymizer) (orig_bytes : bytes) : bytes :=
  zip_with Z.lxor (foldl (anonymize_v6_step st orig_bytes) (replicate 16 0) (range 0 128)) orig_bytes.
End panonymizer.

(** ** Keys *)

Definition isxdigit (c : Z) : bool :=
  bool_decide (48 ≤ c ≤ 57 ∨ 65 ≤ c ≤ 70 ∨ 97 ≤ c ≤ 102).
Definition tolower (c : Z) : Z := if decide (65 ≤ c ≤ 90) then c + 32 else c.
Definition xdigit_value (c : Z) : Z :=
  if decide (48 ≤ c ≤ 57) then c - 48 else if decide (65 ≤ c ≤ 70) then c - 55 else c - 87.

(** [strtol] to the base 16 on two digits. *)
Fixpoint parse_hex (s : bytes) : option bytes :=
  match s with
  | a :: b :: s =>
      if isxdigit a && isxdigit b then key ← parse_hex s; Some (xdigit_value a * 16 + xdigit_value b :: key) else None
  | _ => Some []
  end.

(** [s] is the string without its final 0; [None] is the return value 0. *)
Definition ParseCryptoPAnKey (s : bytes) : option bytes :=
  let len := blen s in
  if decide (len < 32 ∨ len > 66) then None
  else if decide (len = 32) then Some s
  else
    let s := alter tolower 1%nat s in
    if decide (len = 66 ∧ byte_at s 0 = 48 ∧ byte_at s 1 = 120) then parse_hex (drop 2 s) else None.

(** ** The plugin (anonymization_ip.c) *)

Definition ANONYMIZATION_TYPE_TRUNCATION : Z := 1.
Definition ANONYMIZATION_TYPE_CRYPTOPAN : Z := 2.

Record ipfix_entity := { element_id : Z; ip_version : Z }.
Definition entities_to_anonymize : list ipfix_entity :=
  [ {| element_id := 8; ip_version := 4 |}; {| element_id := 12; ip_version := 4 |};
    {| element_id := 27; ip_version := 6 |}; {| element_id := 28; ip_version := 6 |} ].

Definition truncate_IPv4Address (data : bytes) : res bytes := data ← wr8 data 2 0; wr8 data 3 0.
Definition truncate_IPv6Address (data : bytes) : res bytes := memset data 7 0 8.

Section plugin.
Context (cipher : bytes → bytes → bytes).

(** The state of Crypto-PAn is global; [type] is 0 when the configuration has none. *)
Record anonymization_ip_config := { type_ : Z; panon : panonymizer }.

Definition address_size (version : Z) : Z := if decide (version = 4) then 4 else 16.

(** The new address; [None] when the type of anonymization is neither of the two. *)
Definition anonymize_address (conf : anonymization_ip_config) (version : Z) (data : bytes) : res (option bytes) :=
  if decide (type_ conf = ANONYMIZATION_TYPE_CRYPTOPAN) then
    if decide (version = 4) then
      old_addr ← rd32 data 0; Ok (Some (enc32 (anonymize cipher (panon conf) old_addr)))
    else Ok (Some (anonymize_v6 cipher (panon conf) data))
  else if decide (type_ conf = ANONYMIZATION_TYPE_TRUNCATION) then
    Some <$> (if decide (version = 4) then truncate_IPv4Address data else truncate_IPv6Address data)
  else Ok None.

(** The loop over the data records, on the index and the packet; [ret] is the offset of
    the address in a record. *)
Definition anonymize_records_step (conf : anonymization_ip_config) (version ret : Z) (data_records : list Z)
    (s : nat * bytes) : res ((nat * bytes) + bytes) :=
  let '(data_records_index, mem) := s in
  match data_records !! data_records_index with
  | None => Ok (inr mem)
  | Some p =>
      data ← message_get_data mem (p + ret) (address_size version);
      new_addr ← anonymize_address conf version data;
      match new_addr with
      | Some new_addr =>
          mem ← message_set_data mem (p + ret) new_addr (address_size version);
          Ok (inl (S data_records_index, mem))
      | None => Ok (inl (data_records_index, mem))
      end
  end.

Definition anonymize_entity (conf : anonymization_ip_config) (templ : ipfix_template) (data_set : Z)
    (mem : bytes) (e : ipfix_entity) : res bytes :=
  ret ← template_contains_field (Some templ) (element_id e);
  if decide (ret >= 0) then
    data_records ← get_data_records mem data_set templ;
    loop (anonymize_records_step conf (ip_version e) ret data_records) (S (length data_records)) (0%nat, mem)
  else Ok mem.

Fixpoint anonymize_entities (conf : anonymization_ip_config) (templ : ipfix_template) (data_set : Z)
    (es : list ipfix_entity) (mem : bytes) : res bytes :=
  match es with
  | [] => Ok mem
  | e :: es => mem ← anonymize_entity conf templ data_set mem e; anonymize_entities conf templ data_set es mem
  end.

(** A couple without a template is skipped. *)
Fixpoint anonymize_couples (conf : anonymization_ip_config) (theap : template_heap) (couples : list (Z * option loc))
    (mem : bytes) : res bytes :=
  match couples with
  | [] => Ok mem
  | (_, None) :: couples => anonymize_couples conf theap couples mem
  | (data_set, Some l) :: couples =>
      templ ← deref theap l;
      mem ← anonymize_entities conf templ data_set entities_to_anonymize mem;
      anonymize_couples conf theap couples mem
  end.

(** The message with its packet changed in place. *)
Definition with_packet (msg : ipfix_message) (mem : bytes) : ipfix_message :=
  {| pkt_header := Some mem; Message.input_info := Message.input_info msg; source_status := source_status msg;
     plugin_status := plugin_status msg; plugin_id := plugin_id msg;
     Message.data_records_count := Message.data_records_count msg; templ_records_count := templ_records_count msg;
     opt_templ_records_count := opt_templ_records_count msg; templ_set := templ_set msg;
     opt_templ_set := opt_templ_set msg; data_couple := data_couple msg;
     live_profile := live_profile msg; msg_metadata := msg_metadata msg |}.

(** The result is the message that is passed on. *)
Definition intermediate_process_message (conf : anonymization_ip_config) (theap : template_heap) (msg : ipfix_message) :
    res ipfix_message :=
  if decide (source_status msg = SOURCE_STATUS_CLOSED) then Ok msg else
  mem ← or_fault NullDeref (pkt_header msg);
  version ← rd16 mem 0;
  if decide (version ≠ IPFIX_VERSION) then Ok msg else
  mem ← anonymize_couples conf theap (data_couple msg) mem;
  Ok (with_packet msg mem).
End plugin.

(** ** Theory: prefixes of numbers *)

Lemma shiftr_succ x y n : 0 ≤ n →
  Z.shiftr x n = Z.shiftr y n ↔ Z.shiftr x (n + 1) = Z.shiftr y (n + 1) ∧ Z.testbit x n = Z.testbit y n.
Proof.
  intros Hn. split.
  - intros E. rewrite <-!Z.shiftr_shiftr by lia. rewrite E. split; [done|].
    pose proof (Z.shiftr_spec x n 0 ltac:(lia)) as Ex. pose proof (Z.shiftr_spec y n 0 ltac:(lia)) as Ey.
    rewrite Z.add_0_l in Ex, Ey. by rewrite <-Ex, <-Ey, E.
  - intros [E Eb]. apply Z.bits_inj'. intros i Hi. rewrite !Z.shiftr_spec by done.
    destruct (decide (i = 0)) as [->|Hne]; [by rewrite Z.add_0_l|].
    replace (i + n) with ((i - 1) + (n + 1)) by lia. rewrite <-!Z.shiftr_spec by lia. by rewrite E.
Qed.

Lemma shiftr_u32 x : is_u32 x → Z.shiftr x 32 = 0.
Proof. intros [? ?]. rewrite Z.shiftr_div_pow2 by lia. apply Z.div_small. lia. Qed.

(** A number is a 32-bit number when its bits from 32 on are 0. *)
Lemma is_u32_bits x : 0 ≤ x → (∀ i, 32 ≤ i → Z.testbit x i = false) → is_u32 x.
Proof.
  intros H0 Hb. split; [done|]. destruct (decide (x = 0)) as [->|Hx]; [done|].
  pose proof (Z.bit_log2 x ltac:(lia)) as Ht. destruct (decide (Z.log2 x < 32)) as [Hl|Hl].
  - change 4294967296 with (2 ^ 32). apply Z.log2_lt_pow2; lia.
  - rewrite Hb in Ht by lia. done.
Qed.

(** The bits that a loop puts together, the first one at the top. *)
Lemma fold_bits (f : Z → Z) i : (∀ p, f p = 0 ∨ f p = 1) → 0 ≤ i →
  ∀ n a r, 0 ≤ a → a + Z.of_nat n ≤ 32 →
  Z.testbit (foldl (λ r pos, Z.lor r (u32 (Z.shiftl (f pos) (31 - pos)))) r (range a n)) i =
  Z.testbit r i || (bool_decide (a ≤ 31 - i < a + Z.of_nat n) && Z.testbit (f (31 - i)) 0).
Proof.
  intros Hf Hi. induction n as [|n IH]; intros a r Ha Hn; cbn [range foldl].
  - rewrite bool_decide_false by lia. by rewrite orb_false_r.
  - rewrite IH by lia. rewrite Z.lor_spec.
    assert (u32 (Z.shiftl (f a) (31 - a)) = Z.shiftl (f a) (31 - a)) as ->.
    { apply u32_small. rewrite Z.shiftl_mul_pow2 by lia. pose proof (Z.pow_pos_nonneg 2 (31 - a) ltac:(lia) ltac:(lia)).
      pose proof (Z.pow_le_mono_r 2 (31 - a) 31 ltac:(lia) ltac:(lia)). change (2 ^ 31) with 2147483648 in *.
      destruct (Hf a) as [-> | ->]; lia. }
    rewrite Z.shiftl_spec by done. destruct (decide (i = 31 - a)) as [->|Hne].
    + rewrite Z.sub_diag, (bool_decide_false (_ ∧ _)), (bool_decide_true (_ ∧ _)) by lia.
      replace (31 - (31 - a)) with a by lia. cbn [andb]. by rewrite orb_false_r.
    + assert (Z.testbit (f a) (i - (31 - a)) = false) as ->.
      { destruct (decide (i - (31 - a) < 0)); [by apply Z.testbit_neg_r|].
        destruct (Hf a) as [-> | ->]; [apply Z.bits_0|]. apply Z.bits_above_log2; cbn; lia. }
      rewrite orb_false_r. do 2 f_equal. apply bool_decide_ext. lia.
Qed.

Section crypto_pan.
Context (cipher : bytes → bytes → bytes) (st : panonymizer).

Lemma cipher_bit_range b : cipher_bit cipher st b = 0 ∨ cipher_bit cipher st b = 1.
Proof.
  unfold cipher_bit, u8. set (x := byte_at _ _). rewrite Z.shiftr_div_pow2 by lia. change (2 ^ 7) with 128.
  pose proof (Z.mod_pos_bound x 256 ltac:(lia)). 
  pose proof (Z.div_pos (x mod 256) 128 ltac:(lia) ltac:(lia)).
  pose proof (Z.div_lt_upper_bound (x mod 256) 128 2 ltac:(lia) ltac:(lia)). lia.
Qed.

Lemma anonymize_bit a i : 0 ≤ i →
  Z.testbit (anonymize cipher st a) i =
  xorb (bool_decide (i < 32) && Z.testbit (cipher_bit cipher st (rin_input_v4 st a (31 - i))) 0) (Z.testbit a i).
Proof.
  intros Hi. unfold anonymize. rewrite Z.lxor_spec. f_equal.
  rewrite (fold_bits (λ pos, cipher_bit cipher st (rin_input_v4 st a pos))); [|intros; apply cipher_bit_range|done|lia|lia].
  rewrite Z.bits_0, orb_false_l. f_equal. apply bool_decide_ext. lia.
Qed.

Lemma anonymize_range a : is_u32 a → is_u32 (anonymize cipher st a).
Proof.
  intros Ha. assert (∀ i, 32 ≤ i → Z.testbit (anonymize cipher st a) i = false) as Hb.
  { intros i Hi. rewrite anonymize_bit, bool_decide_false by lia. cbn.
    replace i with ((i - 32) + 32) by lia. rewrite <-Z.shiftr_spec, shiftr_u32 by (done || lia). apply Z.bits_0. }
  apply is_u32_bits; [|done]. apply Z.bits_iff_nonneg_ex. exists 32. intros m Hm. apply Hb. lia.
Qed.

(** The block for a bit depends on the bits in front of it only. *)
Lemma rin_input_prefix a b pos : Z.shiftr a (32 - pos) = Z.shiftr b (32 - pos) →
  rin_input_v4 st a pos = rin_input_v4 st b pos.
Proof. intros E. unfold rin_input_v4. by rewrite E. Qed.

Lemma prefix_preserved a b k : is_u32 a → is_u32 b → (k ≤ 32)%nat →
  Z.shiftr (anonymize cipher st a) (32 - Z.of_nat k) = Z.shiftr (anonymize cipher st b) (32 - Z.of_nat k) ↔
  Z.shiftr a (32 - Z.of_nat k) = Z.shiftr b (32 - Z.of_nat k).
Proof.
  intros Ha Hb. induction k as [|k IH]; intros Hk.
  - rewrite Z.sub_0_r, !shiftr_u32; auto using anonymize_range.
  - specialize (IH ltac:(lia)). rewrite (shiftr_succ (anonymize _ _ _)), (shiftr_succ a) by lia.
    replace (32 - Z.of_nat (S k) + 1) with (32 - Z.of_nat k) by lia. rewrite IH.
    split; intros [E Ebit]; split; try done; rewrite !anonymize_bit in * by lia.
    + rewrite (rin_input_prefix a b) in Ebit by (by replace (32 - (31 - (32 - Z.of_nat (S k)))) with (32 - Z.of_nat k) by lia).
      by destruct (Z.testbit a _), (Z.testbit b _), (_ && _).
    + rewrite (rin_input_prefix a b) by (by replace (32 - (31 - (32 - Z.of_nat (S k)))) with (32 - Z.of_nat k) by lia).
      by rewrite Ebit.
Qed.
End crypto_pan.


(** ** Theory: the fields of a template *)

(** The lengths of the fields that are not of variable length. *)
Definition fixed_lengths (fs : list field_spec) : Z :=
  foldr Z.add 0 ((λ f, if decide (fs_length f = VAR_IE_LENGTH) then 0 else fs_length f) <$> fs).

Lemma fixed_lengths_snoc l f : fixed_lengths (l ++ [f]) =
  fixed_lengths l + if decide (fs_length f = VAR_IE_LENGTH) then 0 else fs_length f.
Proof.
  unfold fixed_lengths. induction l as [|g l IH]; [cbn; lia|]. cbn [fmap app list_fmap foldr] in *. rewrite IH. lia.
Qed.

Lemma fixed_lengths_fixed fs : has_variable fs = false → fixed_lengths fs = lengths fs.
Proof.
  intros H%has_variable_false. induction H as [|f fs Hf _ IH]; [done|].
  unfold fixed_lengths, lengths in *. cbn [fmap list_fmap foldr]. by rewrite IH, decide_False.
Qed.

Lemma fixed_min_length fs : has_variable fs = false → spec_min_length fs = lengths fs.
Proof.
  intros H%has_variable_false. induction H as [|f fs Hf _ IH]; [done|].
  unfold spec_min_length, lengths in *. cbn [fmap list_fmap foldr]. unfold min_length at 1. by rewrite IH, decide_False.
Qed.

Lemma has_variable_snoc l f : has_variable (l ++ [f]) = has_variable l || bool_decide (fs_length f = VAR_IE_LENGTH).
Proof. unfold has_variable. rewrite existsb_app. cbn. by rewrite orb_false_r. Qed.

Lemma template_contains_field_at t fs id : template_of t fs → template_type t ≠ TM_OPTIONS_TEMPLATE →
  template_contains_field (Some t) id =
  Ok (match find_split (λ f, wire_id f = id) fs with
      | Some (l, _) => if has_variable l then 0 else u16 (lengths l)
      | None => -1
      end).
Proof.
  intros [Ef Ec _ Hwf _ _ Hsz] Ht. unfold template_contains_field. rewrite decide_False by done. rewrite Ef, Ec, Nat2Z.id.
  set (st l := (Z.of_nat (length l), nrows l, has_variable l, u16 (fixed_lengths l))).
  refine (eq_trans (loop_find (λ f, wire_id f = id) (template_contains_field_step (fields_rows fs) (Z.of_nat (length fs)) id)
    fs st (λ l _, if has_variable l then 0 else u16 (fixed_lengths l)) (-1) _ _ _ _) _).
  - intros l f r E. pose proof Hwf as Hf. rewrite E in Hf. apply Forall_app in Hf as [_ [Hf _]%Forall_cons].
    pose proof (fields_size_length fs) as Hn.
    unfold template_contains_field_step, st. rewrite decide_True by (rewrite E, length_app; cbn; lia).
    rewrite E at 1. rewrite rd_row_field, res_bind_ret, ie_id_mk, ie_length_mk by by apply wire_id_u16.
    destruct (decide (wire_id f = id)); [done|].
    rewrite nrows_snoc, has_variable_snoc, fixed_lengths_snoc, length_app. cbn [length].
    assert (u16 (Z.of_nat (length l) + 1) = Z.of_nat (length l + 1)) as ->.
    { rewrite u16_small; [lia|]. rewrite E, length_app in Hn. rewrite E in Hsz. cbn [length] in Hn. lia. }
    repeat f_equal.
    + pose proof (wire_id_enterprise f Hf) as He. destruct (fs_enterprise f) as [e|].
      * rewrite decide_True by (apply He; by eexists). lia.
      * rewrite decide_False by (intros [? ?]%He; done). done.
    + destruct (decide (fs_length f = _)); [by rewrite bool_decide_true, orb_true_r|].
      by rewrite bool_decide_false, orb_false_r.
    + destruct (decide (fs_length f = _)); [by rewrite Z.add_0_r|]. unfold u16. by rewrite Zplus_mod_idemp_l.
  - unfold template_contains_field_step, st. by rewrite decide_False by lia.
  - lia.
  - destruct (find_split _ fs) as [ [l f]|] eqn:E; [|done]. destruct (has_variable l) eqn:El; [done|].
    by rewrite fixed_lengths_fixed.
Qed.

(** ** Specification *)

Section spec.
Context (cipher : bytes → bytes → bytes) (conf : anonymization_ip_config).

Definition address_word (v : bytes) : Z :=
  byte_at v 0 * 16777216 + byte_at v 1 * 65536 + byte_at v 2 * 256 + byte_at v 3.

(** The address that takes the place of [v]. *)
Definition anonymized (version : Z) (v : bytes) : bytes :=
  if decide (type_ conf = ANONYMIZATION_TYPE_CRYPTOPAN) then
    if decide (version = 4) then enc32 (anonymize cipher (panon conf) (address_word v))
    else anonymize_v6 cipher (panon conf) v
  else
    if decide (version = 4) then take 2 v ++ [0; 0] else take 7 v ++ replicate 8 0 ++ drop 15 v.

Fixpoint on_first {X} (P : X → Prop) `{∀ x, Decision (P x)} (f : X → X) (xs : list X) : list X :=
  match xs with
  | [] => []
  | x :: xs => if decide (P x) then f x :: xs else x :: on_first P f xs
  end.

(** The first field of the address in a record. *)
Definition anonymize_field (e : ipfix_entity) (d : list datum) : list datum :=
  on_first (λ x, wire_id x.1 = element_id e)
    (λ x, (x.1, {| dv_long := dv_long x.2; dv_bytes := anonymized (ip_version e) (dv_bytes x.2) |})) d.
Definition anonymize_record (d : list datum) : list datum :=
  foldl (λ d e, anonymize_field e d) d entities_to_anonymize.
Definition anonymize_set (c : coupled) : coupled :=
  {| cp_sid := cp_sid c; cp_template := cp_template c; cp_def := cp_def c; cp_fields := cp_fields c;
     cp_records := anonymize_record <$> cp_records c; cp_padding := cp_padding c |}.

(** The field of an address has the length of an address, and the fields in front of it
    are of fixed length. *)
Definition address_in_place (fs : list field_spec) (e : ipfix_entity) : Prop :=
  match find_split (λ f, wire_id f = element_id e) fs with
  | Some (l, f) => has_variable l = false ∧ fs_length f = address_size (ip_version e)
  | None => True
  end.

Record couple_fits (theap : template_heap) (c : coupled) : Prop := {
  cf_def : theap !! cp_template c = Some (cp_def c);
  cf_type : template_type (cp_def c) ≠ TM_OPTIONS_TEMPLATE;
  cf_set : data_set_of (cp_def c) (cp_fields c) (cp_records c) (cp_padding c);
  cf_count : Z.of_nat (length (cp_records c)) ≤ MSG_MAX_DATA_COUPLES;
  cf_addresses : Forall (address_in_place (cp_fields c)) entities_to_anonymize
}.

(** The sets of a message: a data set coupled with its template, a data set whose template
    is unknown, and a set of definitions, which is no couple. *)
Inductive carried_set :=
  | CoupledSet (c : coupled)
  | UncoupledSet (s : Z * bytes)
  | DefinitionSet (s : Z * bytes).

Definition carried_wire (x : carried_set) : Z * bytes :=
  match x with CoupledSet c => cp_wire c | UncoupledSet s | DefinitionSet s => s end.

(** The couples of the message, with the first set at [p]. *)
Fixpoint carried_couples (p : Z) (xs : list carried_set) : list (Z * option loc) :=
  match xs with
  | [] => []
  | x :: xs =>
      let couples := carried_couples (p + blen (enc_set (carried_wire x))) xs in
      match x with
      | CoupledSet c => (p, Some (cp_template c)) :: couples
      | UncoupledSet _ => (p, None) :: couples
      | DefinitionSet _ => couples
      end
  end.

Definition carried_fits (theap : template_heap) (x : carried_set) : Prop :=
  match x with CoupledSet c => couple_fits theap c | _ => True end.
Definition anonymize_carried (x : carried_set) : carried_set :=
  match x with CoupledSet c => CoupledSet (anonymize_set c) | x => x end.
End spec.

(** ** Theory: data sets *)

Lemma on_first_split {X} (P : X → Prop) `{∀ x, Decision (P x)} f xs :
  match find_split P xs with
  | Some (l, x) => ∃ r, xs = l ++ x :: r ∧ on_first P f xs = l ++ f x :: r
  | None => on_first P f xs = xs
  end.
Proof.
  induction xs as [|x xs IH]; [done|]. cbn [find_split on_first]. case_decide; [by exists xs|].
  destruct (find_split P xs) as [ [l y]|]; cbn; [|by rewrite IH].
  destruct IH as (r & -> & ->). by exists r.
Qed.

Lemma enc_data_set_split sid l d r padding :
  enc_data_set sid (l ++ d :: r) padding =
  (enc16 sid ++ enc16 (set_length (l ++ d :: r) padding) ++ enc_records l) ++ enc_data d ++ enc_records r ++ padding.
Proof.
  unfold enc_data_set. rewrite enc_records_app. change (enc_records (d :: r)) with (enc_data d ++ enc_records r).
  by rewrite <-!app_assoc.
Qed.

Lemma record_addresses_lookup l d r p :
  record_addresses p (l ++ d :: r) !! length l = Some (p + blen (enc_records l)).
Proof.
  revert p. induction l as [|d' l IH]; intros p; cbn [app record_addresses length lookup list_lookup].
  - by rewrite Z.add_0_r.
  - rewrite IH. change (enc_records (d' :: l)) with (enc_data d' ++ enc_records l). rewrite blen_app. f_equal. lia.
Qed.

Lemma length_record_addresses p ds : length (record_addresses p ds) = length ds.
Proof. revert p. induction ds as [|d ds IH]; intros p; [done|]. cbn. by rewrite IH. Qed.

Lemma rd32_address_word a b c d : rd32 [a; b; c; d] 0 = Ok (address_word [a; b; c; d]).
Proof.
  unfold address_word, byte_at. cbn [nth].
  replace (_ * 16777216 + _ + _ + _) with ((a * 256 + b) * 65536 + (c * 256 + d)) by lia. done.
Qed.

Section process.
Context (cipher : bytes → bytes → bytes) (conf : anonymization_ip_config).
Context (Htype : type_ conf = ANONYMIZATION_TYPE_TRUNCATION ∨ type_ conf = ANONYMIZATION_TYPE_CRYPTOPAN).
Implicit Types (d : list datum) (e : ipfix_entity).

Lemma length_anonymize_v6 st v : length v = 16%nat → length (anonymize_v6 cipher st v) = 16%nat.
Proof.
  intros Hv. unfold anonymize_v6. rewrite length_zip_with, Hv.
  assert (∀ xs r, length (foldl (anonymize_v6_step cipher st v) r xs) = length r) as ->; [|done].
  intros xs. induction xs as [|x xs IH]; intros r; [done|]. cbn [foldl]. rewrite IH. unfold anonymize_v6_step.
  apply length_alter.
Qed.

Lemma truncate_IPv6Address_spec v : blen v = 16 →
  truncate_IPv6Address v = Ok (take 7 v ++ replicate 8 0 ++ drop 15 v).
Proof.
  intros Hv. unfold truncate_IPv6Address, memset.
  destruct (blen_split v 7) as (a & v' & -> & Ha & Hv'); [lia|].
  destruct (blen_split v' 8) as (b & c & -> & Hb & Hc); [lia|].
  rewrite <-Ha. change (replicate (Z.to_nat 8) (u8 0)) with (replicate 8 0).
  rewrite wrn_here by (rewrite Hb; done). unfold blen in Ha, Hb. do 2 f_equal.
  - rewrite take_app_le, firstn_all2 by lia. done.
  - f_equal. rewrite app_assoc, drop_app_ge by (rewrite length_app; lia). rewrite length_app.
    replace (15 - _)%nat with 0%nat by lia. done.
Qed.

Lemma anonymize_address_spec version v : version = 4 ∨ version = 6 → blen v = address_size version →
  anonymize_address cipher conf version v = Ok (Some (anonymized cipher conf version v)) ∧
  blen (anonymized cipher conf version v) = address_size version.
Proof.
  intros Hver Hv. unfold anonymize_address, anonymized, address_size, ANONYMIZATION_TYPE_TRUNCATION, ANONYMIZATION_TYPE_CRYPTOPAN in *.
  assert (version = 4 → ∃ a b c x, v = [a; b; c; x]) as H4.
  { intros ->. rewrite decide_True in Hv by done. unfold blen in Hv.
    destruct v as [|a [|b [|c [|x [|y v] ] ] ] ]; try (cbn in Hv; lia). by exists a, b, c, x. }
  destruct Hver as [-> | ->].
  - destruct (H4 eq_refl) as (a & b & c & x & ->). destruct (decide (type_ conf = 2)) as [Et|Et].
    + rewrite !(decide_True (P := 4 = 4)), rd32_address_word, res_bind_ret by done. split; [done|apply blen_enc32].
    + rewrite (decide_True (P := type_ conf = 1)) by lia. done.
  - rewrite !(decide_False (P := 6 = 4)) in * by done. destruct (decide (type_ conf = 2)) as [Et|Et].
    + split; [done|]. unfold blen in *. rewrite length_anonymize_v6; lia.
    + rewrite (decide_True (P := type_ conf = 1)), truncate_IPv6Address_spec by lia. split; [done|].
      unfold blen in *. rewrite !length_app, length_take, length_drop, length_replicate. lia.
Qed.

Lemma entity_version e : e ∈ entities_to_anonymize → ip_version e = 4 ∨ ip_version e = 6.
Proof. intros He. repeat (apply elem_of_cons in He as [->|He]; cbn; auto). by inv He. Qed.

Lemma address_field_fixed e f : fs_length f = address_size (ip_version e) → fs_length f ≠ VAR_IE_LENGTH.
Proof. intros ->. unfold address_size, VAR_IE_LENGTH. by destruct (decide (ip_version e = 4)). Qed.

(** Everything that is kept when a field of the record is replaced. *)
Lemma anonymize_field_spec fs e d : address_in_place fs e → e ∈ entities_to_anonymize →
  Forall datum_wf d → d.*1 = fs →
  Forall datum_wf (anonymize_field cipher conf e d) ∧ (anonymize_field cipher conf e d).*1 = fs ∧
  blen (enc_data (anonymize_field cipher conf e d)) = blen (enc_data d).
Proof.
  intros Ha He Hd Hfs. unfold address_in_place in Ha. rewrite <-Hfs in *. rewrite find_split_fmap in Ha.
  pose proof (on_first_split (λ x : datum, wire_id x.1 = element_id e)
    (λ x, (x.1, {| dv_long := dv_long x.2; dv_bytes := anonymized cipher conf (ip_version e) (dv_bytes x.2) |})) d) as Hs.
  fold (anonymize_field cipher conf e d) in Hs.
  destruct (find_split _ d) as [ [l x]|]; [|by rewrite Hs]. destruct Ha as [_ Hlen]. cbn [prod_map snd] in Hlen.
  destruct Hs as (r & -> & ->). apply Forall_app in Hd as [Hl [ [Hf Hx] Hr]%Forall_cons].
  assert (fs_length x.1 ≠ VAR_IE_LENGTH) as Hnv by by apply (address_field_fixed e).
  rewrite decide_False in Hx by done. rewrite Hlen in Hx.
  destruct (anonymize_address_spec (ip_version e) (dv_bytes x.2) (entity_version e He) Hx) as [_ Hnew].
  split_and!.
  - apply Forall_app. split; [done|]. constructor; [|done]. split; [done|]. cbn [fst snd dv_bytes].
    rewrite decide_False by done. lia.
  - by rewrite !fmap_app, !fmap_cons.
  - rewrite !enc_data_app, !enc_data_cons, !blen_app, !blen_enc_datum. unfold length_prefix. cbn [fst snd dv_bytes].
    rewrite !decide_False by done. lia.
Qed.

(** The address in a record, wherever the record is in the packet. *)
Lemma anonymize_field_at fs e d pre post lf f : address_in_place fs e → e ∈ entities_to_anonymize →
  Forall datum_wf d → d.*1 = fs → find_split (λ f, wire_id f = element_id e) fs = Some (lf, f) →
  ∃ v, rdn (pre ++ enc_data d ++ post) (blen pre + lengths lf) (address_size (ip_version e)) = Ok v ∧
    blen v = address_size (ip_version e) ∧ 0 ≤ lengths lf ≤ blen (enc_data d) ∧
    wrn (pre ++ enc_data d ++ post) (blen pre + lengths lf) (anonymized cipher conf (ip_version e) v) =
    Ok (pre ++ enc_data (anonymize_field cipher conf e d) ++ post).
Proof.
  intros Ha He Hd <- E. unfold address_in_place in Ha. rewrite E in Ha. rewrite find_split_fmap in E.
  pose proof (on_first_split (λ x : datum, wire_id x.1 = element_id e)
    (λ x, (x.1, {| dv_long := dv_long x.2; dv_bytes := anonymized cipher conf (ip_version e) (dv_bytes x.2) |})) d) as Hs.
  fold (anonymize_field cipher conf e d) in Hs.
  destruct (find_split _ d) as [ [l x]|]; [|done]. cbn in E. injection E as <- <-. destruct Ha as [Hnv Hlen].
  destruct Hs as (r & -> & ->). apply Forall_app in Hd as [Hl [ [Hf Hx] Hr]%Forall_cons].
  destruct (fixed_record l Hl Hnv) as (Hlb & _ & _). change (l.*1) with (fst <$> l) in Hlb. rewrite <-Hlb.
  assert (fs_length x.1 ≠ VAR_IE_LENGTH) as Hxv by by apply (address_field_fixed e).
  rewrite decide_False in Hx by done. rewrite Hlen in Hx.
  destruct (anonymize_address_spec (ip_version e) (dv_bytes x.2) (entity_version e He) Hx) as [_ Hnew].
  set (x' := (x.1, _)).
  assert (length_prefix x = [] ∧ length_prefix x' = []) as [Hp Hp'] by (split; unfold length_prefix; by rewrite decide_False).
  destruct (value_place pre l x r post) as [Em Ep]. destruct (value_place pre l x' r post) as [Em' _].
  rewrite Hp, app_nil_r in *. rewrite Hp', app_nil_r in Em'. change (blen []) with 0 in Ep. rewrite Z.add_0_r in Ep.
  exists (dv_bytes x.2). rewrite Em, Em', Ep. split_and!.
  - rewrite <-Hx. apply rdn_here.
  - done.
  - apply blen_nonneg.
  - rewrite enc_data_app, blen_app. pose proof (blen_nonneg (enc_data (x :: r))). lia.
  - by rewrite wrn_here by lia.
Qed.

Section one_set.
Context (t : ipfix_template) (fs : list field_spec) (sid : Z) (pre post padding : bytes).
Context (Ht : template_type t ≠ TM_OPTIONS_TEMPLATE).

(** A function on records that keeps their template and their length. *)
Definition keeps_shape (g : list datum → list datum) : Prop :=
  ∀ d, Forall datum_wf d → d.*1 = fs →
    Forall datum_wf (g d) ∧ (g d).*1 = fs ∧ blen (enc_data (g d)) = blen (enc_data d).

Lemma keeps_shape_records g l : keeps_shape g → Forall (λ d, Forall datum_wf d ∧ d.*1 = fs) l →
  Forall (λ d, Forall datum_wf d ∧ d.*1 = fs) (g <$> l) ∧ blen (enc_records (g <$> l)) = blen (enc_records l).
Proof.
  intros Hg. induction 1 as [|d l [Hd Hfs] _ [IH1 IH2]]; [done|].
  destruct (Hg d Hd Hfs) as (H1 & H2 & H3). rewrite fmap_cons. split; [by constructor|].
  change (enc_records (?x :: ?y)) with (enc_data x ++ enc_records y). rewrite !blen_app. lia.
Qed.

Lemma keeps_shape_set g ds : keeps_shape g → data_set_of t fs ds padding →
  data_set_of t fs (g <$> ds) padding ∧ set_length (g <$> ds) padding = set_length ds padding.
Proof.
  intros Hg [H1 H2 H3 H4 H5]. destruct (keeps_shape_records g ds Hg H2) as [Hr Hb].
  assert (set_length (g <$> ds) padding = set_length ds padding) as E by (unfold set_length; by rewrite Hb).
  split; [|done]. split; auto. by rewrite E.
Qed.

Lemma template_lengths_small ds : data_set_of t fs ds padding → ∀ l f r, fs = l ++ f :: r → has_variable l = false →
  0 ≤ lengths l < 65536.
Proof.
  intros [ [_ _ _ Hwf _ _ _] _ _ Hmin _] l f r -> Hl. apply Forall_app in Hwf as [Hwf [Hf Hr]%Forall_cons].
  rewrite spec_min_length_app, (fixed_min_length l Hl) in Hmin.
  pose proof (spec_min_length_range (f :: r) ltac:(by constructor)). pose proof (spec_min_length_range l Hwf) as Hpos.
  rewrite (fixed_min_length l Hl) in Hpos. lia.
Qed.

Context (e : ipfix_entity) (Hin : e ∈ entities_to_anonymize) (Ha : address_in_place fs e).
Let g := anonymize_field cipher conf e.

Lemma anonymize_field_keeps : keeps_shape g.
Proof. intros d Hd Hfs. by apply anonymize_field_spec. Qed.

(** The set when the records of [l] are done. *)
Let set_at (l r : list (list datum)) : bytes := pre ++ enc_data_set sid ((g <$> l) ++ r) padding ++ post.

Lemma anonymize_records_at ds l d r lf f : data_set_of t fs ds padding → ds = l ++ d :: r →
  find_split (λ f, wire_id f = element_id e) fs = Some (lf, f) →
  anonymize_records_step cipher conf (ip_version e) (lengths lf) (record_addresses (blen pre + 4) ds) (length l, set_at l (d :: r)) =
  Ok (inl (length (l ++ [d]), set_at (l ++ [d]) r)).
Proof.
  intros Hs E Ef. destruct Hs as [_ Hr _ _ _]. rewrite E in Hr. apply Forall_app in Hr as [Hl [ [Hd Hfs] Hr]%Forall_cons].
  destruct (keeps_shape_records g l anonymize_field_keeps Hl) as [_ Hb].
  unfold anonymize_records_step. rewrite E, record_addresses_lookup. unfold set_at.
  rewrite enc_data_set_split.
  set (hd := enc16 sid ++ enc16 (set_length ((g <$> l) ++ d :: r) padding) ++ enc_records (g <$> l)).
  rewrite <-(app_assoc hd), <-!app_assoc.
  replace (blen pre + 4 + blen (enc_records l) + lengths lf) with (blen (pre ++ hd) + lengths lf)
    by (unfold hd; rewrite !blen_app, !blen_enc16, Hb; lia).
  destruct (anonymize_field_at fs e d (pre ++ hd) (enc_records r ++ padding ++ post) lf f Ha Hin Hd Hfs Ef)
    as (v & Hrd & Hv & _ & Hwr).
  rewrite <-!app_assoc in Hrd, Hwr. unfold message_get_data, message_set_data. rewrite Hrd, res_bind_ret.
  destruct (anonymize_address_spec (ip_version e) v (entity_version e Hin) Hv) as [-> Hb'].
  rewrite res_bind_ret, <-Hb'. pose proof (rdn_here [] (anonymized cipher conf (ip_version e) v) []) as H0.
  rewrite app_nil_r in H0. cbn [app] in H0. change (blen []) with 0 in H0. rewrite H0, res_bind_ret, Hwr, res_bind_ret.
  rewrite length_app. cbn [length]. do 3 f_equal; [lia|]. unfold hd. rewrite fmap_app.
  replace (((g <$> l) ++ (g <$> [d])) ++ r) with ((g <$> l) ++ g d :: r) by (by rewrite <-app_assoc).
  rewrite (enc_data_set_split sid (g <$> l) (g d) r padding), <-!app_assoc. do 3 f_equal.
  destruct (anonymize_field_keeps d Hd Hfs) as (_ & _ & Hgb). unfold set_length.
  rewrite !enc_records_app. do 2 f_equal. rewrite !blen_app. change (enc_records (?x :: ?y)) with (enc_data x ++ enc_records y).
  rewrite !blen_app, Hgb. done.
Qed.

Lemma anonymize_entity_spec ds : data_set_of t fs ds padding → Z.of_nat (length ds) ≤ MSG_MAX_DATA_COUPLES →
  anonymize_entity cipher conf t (blen pre) (pre ++ enc_data_set sid ds padding ++ post) e =
  Ok (pre ++ enc_data_set sid (g <$> ds) padding ++ post).
Proof.
  intros Hs Hn. pose proof Hs as [Hto Hr _ _ _]. unfold anonymize_entity.
  rewrite (template_contains_field_at t fs), res_bind_ret by done.
  destruct (find_split _ fs) as [ [lf f]|] eqn:Ef.
  - destruct (find_split_Some _ _ _ _ Ef) as (rf & Efs & _). pose proof Ha as Hv. unfold address_in_place in Hv.
    rewrite Ef in Hv. destruct Hv as [Hv Hlen]. rewrite Hv.
    pose proof (template_lengths_small ds Hs lf f rf Efs Hv). rewrite u16_small by lia. rewrite decide_True by lia.
    rewrite (get_data_records_at t fs), decide_True, res_bind_ret by done.
    rewrite length_record_addresses.
    refine (loop_over _ ds (λ l, (length l, set_at l (drop (length l) ds))) _ _ _ _ _).
    + intros l d r E. rewrite E at 2. rewrite drop_app_length. rewrite (anonymize_records_at ds l d r lf f Hs E Ef).
      rewrite E. replace (l ++ d :: r) with ((l ++ [d]) ++ r) by (by rewrite <-app_assoc). by rewrite drop_app_length.
    + intros n. cbn [loop]. unfold anonymize_records_step.
      rewrite lookup_ge_None_2 by (rewrite length_record_addresses; lia).
      unfold set_at. by rewrite drop_all, app_nil_r.
    + lia.
  - rewrite decide_False by lia. do 4 f_equal. apply find_split_None in Ef. subst g.
    clear -Hr Ef. induction Hr as [|d ds [Hd <-] _ IH]; [done|]. rewrite fmap_cons, <-IH. f_equal.
    pose proof (on_first_split (λ x : datum, wire_id x.1 = element_id e)
      (λ x, (x.1, {| dv_long := dv_long x.2; dv_bytes := anonymized cipher conf (ip_version e) (dv_bytes x.2) |})) d) as H.
    fold (anonymize_field cipher conf e d) in H. 
    destruct (find_split _ d) as [ [l x]|] eqn:E; [|by rewrite H].
    destruct (find_split_Some _ _ _ _ E) as (r & -> & _ & Hx). 
    rewrite fmap_app, fmap_cons in Ef. by apply Forall_app in Ef as [_ [Hno _]%Forall_cons].
Qed.
End one_set.

(** *** A set and a message *)

Lemma keeps_shape_entities fs es : Forall (λ e, e ∈ entities_to_anonymize) es → Forall (address_in_place fs) es →
  keeps_shape fs (λ d, foldl (λ d e, anonymize_field cipher conf e d) d es).
Proof.
  intros He Ha. revert He. induction Ha as [|e es Ha _ IH]; intros He d Hd Hfs; [done|].
  apply Forall_cons in He as [He Hes]. cbn [foldl].
  destruct (anonymize_field_spec fs e d Ha He Hd Hfs) as (H1 & H2 & H3).
  destruct (IH Hes _ H1 H2) as (H4 & H5 & H6). split_and!; [done..|lia].
Qed.

Lemma anonymize_entities_spec t fs sid pre post padding es : template_type t ≠ TM_OPTIONS_TEMPLATE →
  Forall (λ e, e ∈ entities_to_anonymize) es → Forall (address_in_place fs) es → ∀ ds,
  data_set_of t fs ds padding → Z.of_nat (length ds) ≤ MSG_MAX_DATA_COUPLES →
  anonymize_entities cipher conf t (blen pre) es (pre ++ enc_data_set sid ds padding ++ post) =
  Ok (pre ++ enc_data_set sid ((λ d, foldl (λ d e, anonymize_field cipher conf e d) d es) <$> ds) padding ++ post).
Proof.
  intros Ht He Ha. revert He. induction Ha as [|e es Ha _ IH]; intros He ds Hs Hn; cbn [anonymize_entities foldl].
  - by rewrite list_fmap_id.
  - apply Forall_cons in He as [He Hes].
    rewrite (anonymize_entity_spec t fs sid pre post padding Ht e He Ha ds Hs Hn), res_bind_ret.
    destruct (keeps_shape_set t fs padding _ ds (anonymize_field_keeps fs e He Ha) Hs) as [Hs' _].
    rewrite (IH Hes _ Hs') by (by rewrite length_fmap). by rewrite <-list_fmap_compose.
Qed.

Lemma entities_listed : Forall (λ e, e ∈ entities_to_anonymize) entities_to_anonymize.
Proof. by apply Forall_forall. Qed.

Lemma anonymize_record_keeps fs : Forall (address_in_place fs) entities_to_anonymize →
  keeps_shape fs (anonymize_record cipher conf).
Proof. exact (keeps_shape_entities fs _ entities_listed). Qed.

Lemma blen_anonymize_set theap c : couple_fits theap c →
  blen (enc_set (cp_wire (anonymize_set cipher conf c))) = blen (enc_set (cp_wire c)).
Proof.
  intros [_ _ [_ Hr _ _ _] _ Ha]. rewrite !blen_enc_set. unfold cp_wire, anonymize_set.
  cbn [snd cp_records cp_padding]. rewrite !blen_app.
  by destruct (keeps_shape_records _ _ _ (anonymize_record_keeps _ Ha) Hr) as [_ ->].
Qed.

Lemma blen_anonymize_carried theap x : carried_fits theap x →
  blen (enc_set (carried_wire (anonymize_carried cipher conf x))) = blen (enc_set (carried_wire x)).
Proof. destruct x; [exact (blen_anonymize_set theap c)|done..]. Qed.

Lemma blen_anonymize_sets theap xs : Forall (carried_fits theap) xs →
  blen (enc_sets (carried_wire <$> (anonymize_carried cipher conf <$> xs))) = blen (enc_sets (carried_wire <$> xs)).
Proof.
  induction 1 as [|x xs Hx _ IH]; [done|].
  by rewrite !fmap_cons, !enc_sets_cons, !blen_app, IH, (blen_anonymize_carried theap x Hx).
Qed.

(** The sets that are no couples with a template are left as they are. *)
Lemma anonymize_coupled theap c pre post couples : couple_fits theap c →
  anonymize_couples cipher conf theap ((blen pre, Some (cp_template c)) :: couples) (pre ++ enc_set (cp_wire c) ++ post) =
  anonymize_couples cipher conf theap couples (pre ++ enc_set (cp_wire (anonymize_set cipher conf c)) ++ post).
Proof.
  intros [Hdef Ht Hset Hn Ha]. cbn [anonymize_couples]. unfold deref. rewrite Hdef. cbn [or_fault].
  rewrite res_bind_ret, !cp_wire_enc.
  by rewrite (anonymize_entities_spec (cp_def c) (cp_fields c)), res_bind_ret by (done || apply entities_listed).
Qed.

Lemma anonymize_couples_spec theap xs post : Forall (carried_fits theap) xs → ∀ pre,
  anonymize_couples cipher conf theap (carried_couples (blen pre) xs) (pre ++ enc_sets (carried_wire <$> xs) ++ post) =
  Ok (pre ++ enc_sets (carried_wire <$> (anonymize_carried cipher conf <$> xs)) ++ post).
Proof.
  induction 1 as [|x xs Hx _ IH]; intros pre; [done|].
  rewrite !fmap_cons, !enc_sets_cons, <-!app_assoc. cbn [carried_couples].
  pose proof (blen_anonymize_carried theap x Hx) as Hb.
  transitivity (anonymize_couples cipher conf theap
    (carried_couples (blen (pre ++ enc_set (carried_wire (anonymize_carried cipher conf x)))) xs)
    ((pre ++ enc_set (carried_wire (anonymize_carried cipher conf x))) ++ enc_sets (carried_wire <$> xs) ++ post)).
  - rewrite blen_app, Hb, <-app_assoc. destruct x as [c| |]; [by apply anonymize_coupled|done..].
  - rewrite IH. by rewrite <-app_assoc.
Qed.

Lemma intermediate_process_message_spec theap msg xs t q o tail :
  source_status msg ≠ SOURCE_STATUS_CLOSED →
  pkt_header msg = Some (enc_message t q o (carried_wire <$> xs) ++ tail) →
  data_couple msg = carried_couples IPFIX_HEADER_LENGTH xs →
  Forall (carried_fits theap) xs →
  intermediate_process_message cipher conf theap msg =
  Ok (with_packet msg (enc_message t q o (carried_wire <$> (anonymize_carried cipher conf <$> xs)) ++ tail)).
Proof.
  intros Hst Hpkt Hdc Hxs. unfold intermediate_process_message. rewrite decide_False, Hpkt by done.
  cbn [or_fault]. rewrite res_bind_ret. unfold enc_message. rewrite <-(app_assoc (enc_header _ _ _ _) (enc_sets (carried_wire <$> xs))).
  assert (∀ n m, rd16 (enc_header n t q o ++ m) 0 = Ok IPFIX_VERSION) as ->
    by (intros n m; unfold enc_header; rewrite <-!app_assoc; by apply rd16_enc16).
  rewrite res_bind_ret, decide_False, Hdc by (intros H; by apply H).
  replace IPFIX_HEADER_LENGTH with (blen (enc_header (IPFIX_HEADER_LENGTH + blen (enc_sets (carried_wire <$> xs))) t q o)) at 1
    by apply blen_enc_header.
  rewrite (anonymize_couples_spec theap xs tail Hxs), res_bind_ret, (blen_anonymize_sets theap xs Hxs). by rewrite app_assoc.
Qed.
End process.

(** ** Properties *)

(** C19: Crypto-PAn keeps prefixes of IPv4 addresses, whatever the cipher and the key:
    the result is an address, and two addresses have their first [k] bits in common
    exactly when their results have; with all 32 bits, no two addresses have the same
    result. *)
Theorem anonymize_keeps_prefixes (cipher : bytes → bytes → bytes) st a b : is_u32 a → is_u32 b →
  is_u32 (anonymize cipher st a) ∧
  (∀ k, 0 ≤ k ≤ 32 →
    Z.shiftr (anonymize cipher st a) (32 - k) = Z.shiftr (anonymize cipher st b) (32 - k) ↔
    Z.shiftr a (32 - k) = Z.shiftr b (32 - k)) ∧
  (anonymize cipher st a = anonymize cipher st b ↔ a = b).
Proof.
  intros Ha Hb. split; [by apply anonymize_range|]. split.
  - intros k Hk. pose proof (prefix_preserved cipher st a b (Z.to_nat k) Ha Hb ltac:(lia)) as H.
    rewrite Z2Nat.id in H by lia. exact H.
  - pose proof (prefix_preserved cipher st a b 32 Ha Hb ltac:(lia)) as H. by rewrite Z.sub_diag, !Z.shiftr_0_r in H.
Qed.

(** C18: the plugin changes the addresses that it lists and nothing else: a message is passed
    on with the same header, sets and couples; the sets of definitions and the data sets whose
    template is unknown are as they were, and in every record of a data set with a template
    the first field of each of the elements 8, 12, 27 and 28 (source and destination address)
    is replaced by the truncated address or the one of Crypto-PAn. Any other field, an
    address such as the next hop (15) too, keeps its value. The data sets with a template are those
    of templates that are no options templates, with the listed addresses behind fields of
    fixed length only, and with at most [MSG_MAX_DATA_COUPLES] records. *)
Theorem intermediate_process_message_anonymizes (cipher : bytes → bytes → bytes) conf theap msg xs t q o tail :
  type_ conf = ANONYMIZATION_TYPE_TRUNCATION ∨ type_ conf = ANONYMIZATION_TYPE_CRYPTOPAN →
  source_status msg ≠ SOURCE_STATUS_CLOSED →
  pkt_header msg = Some (enc_message t q o (carried_wire <$> xs) ++ tail) →
  data_couple msg = carried_couples IPFIX_HEADER_LENGTH xs →
  Forall (carried_fits theap) xs →
  intermediate_process_message cipher conf theap msg =
  Ok (with_packet msg (enc_message t q o (carried_wire <$> (anonymize_carried cipher conf <$> xs)) ++ tail)) ∧
  Forall (carried_fits theap) (anonymize_carried cipher conf <$> xs).
Proof.
  intros Ht Hst Hpkt Hdc Hxs. split; [by apply intermediate_process_message_spec|].
  apply Forall_fmap. refine (Forall_impl _ _ _ Hxs _). intros [c| |]; [|done..].
  intros [H1 H2 H3 H4 H5]. split; [done..| |cbn; by rewrite length_fmap|done].
  by destruct (keeps_shape_set _ _ _ _ _ (anonymize_record_keeps cipher conf Ht _ H5) H3).
Qed.

(** ** Witnesses and examples *)

(** A cipher for examples: the first octet of the block, complemented. *)
Definition cipher_example (key block : bytes) : bytes := match block with b :: block => 255 - b :: block | [] => [] end.
Definition panonymizer_example : panonymizer := {| m_key := replicate 16 7; m_pad := replicate 16 0 |}.

Lemma anonymize_keeps_prefixes_witness :
  is_u32 0x0A000001 ∧ is_u32 0x0A0000FF ∧
  anonymize cipher_example panonymizer_example 0x0A000001 ≠ anonymize cipher_example panonymizer_example 0x0A0000FF.
Proof.
  destruct (anonymize_keeps_prefixes cipher_example panonymizer_example 0x0A000001 0x0A0000FF) as (H & _ & Hi);
    [by split|by split|]. split_and!; [by split|by split|]. by intros H0%Hi.
Defined.

Definition flow_fields : list field_spec :=
  [ {| fs_id := 8; fs_length := 4; fs_enterprise := None |}; {| fs_id := 15; fs_length := 4; fs_enterprise := None |};
    {| fs_id := 28; fs_length := 16; fs_enterprise := None |}; {| fs_id := 82; fs_length := 65535; fs_enterprise := None |} ].
Definition flow_template : ipfix_template := spec_template TM_TEMPLATE 300 0 flow_fields 1000.
Definition flow_record (a4 a6 : bytes) : list datum := zip flow_fields [value a4; value [10; 1; 1; 1]; value a6; value [97; 98] ].
Definition flow_set (ds : list (list datum)) : coupled :=
  {| cp_sid := 300; cp_template := 1%positive; cp_def := flow_template; cp_fields := flow_fields;
     cp_records := ds; cp_padding := [] |}.
Definition flow_sets : list carried_set :=
  [ DefinitionSet (2, [1; 44; 0; 1; 0; 8; 0; 4]); UncoupledSet (301, [10; 0; 0; 1]);
    CoupledSet (flow_set [flow_record [10; 0; 0; 1] (seqZ 1 16); flow_record [10; 1; 2; 3] (seqZ 101 16) ]) ].
Definition flow_message : ipfix_message :=
  set_sets (new_message (Some (enc_message 1000 1 2 (carried_wire <$> flow_sets))) None SOURCE_STATUS_OPENED)
    [16] [] [(28, None); (36, Some 1%positive)].
Definition truncation : anonymization_ip_config := {| type_ := 1; panon := panonymizer_example |}.

Lemma flow_sets_fit : Forall (carried_fits {[ 1%positive := flow_template ]}) flow_sets.
Proof.
  constructor; [done|]. constructor; [done|]. constructor; [|done]. constructor; [done|done| |by vm_compute|].
  - split; [apply spec_template_of; [|by repeat constructor|done..]; repeat constructor; cbn; lia| |done..].
    repeat constructor; cbn; lia.
  - repeat constructor; by vm_compute.
Qed.

Lemma intermediate_process_message_anonymizes_witness :
  intermediate_process_message cipher_example truncation {[ 1%positive := flow_template ]} flow_message =
  Ok (with_packet flow_message (enc_message 1000 1 2
    [ (2, [1; 44; 0; 1; 0; 8; 0; 4]); (301, [10; 0; 0; 1]);
      cp_wire (flow_set [flow_record [10; 0; 0; 0] (seqZ 1 7 ++ replicate 8 0 ++ [16]);
                         flow_record [10; 1; 0; 0] (seqZ 101 7 ++ replicate 8 0 ++ [116]) ]) ])).
Proof.
  destruct (intermediate_process_message_anonymizes cipher_example truncation {[ 1%positive := flow_template ]} flow_message
    flow_sets 1000 1 2 []) as [-> _]; [by left|done|by rewrite app_nil_r|by vm_compute|exact flow_sets_fit|by vm_compute].
Defined.

(** Crypto-PAn does not separate IPv6 addresses: the block for a bit has that bit in it, so
    two addresses that differ in one bit only may get the same result. *)
Example anonymize_v6_collides :
  let cipher (key block : bytes) := if decide (block = 0x81 :: replicate 15 0) then replicate 16 0x80 else replicate 16 0 in
  let st := panonymizer_example in
  let a := 0x81 :: 0x80 :: replicate 14 0 in
  let b := 0x01 :: 0x80 :: replicate 14 0 in
  a ≠ b ∧ anonymize_v6 cipher st a = anonymize_v6 cipher st b.
Proof. split; [done|by vm_compute]. Qed.

(** Without a type in the configuration the loop over the records of a set with an address
    never ends. *)
Lemma no_type_diverges cipher conf version ret data_records p mem data :
  type_ conf ≠ ANONYMIZATION_TYPE_TRUNCATION → type_ conf ≠ ANONYMIZATION_TYPE_CRYPTOPAN →
  data_records !! 0%nat = Some p → message_get_data mem (p + ret) (address_size version) = Ok data →
  ∀ fuel, loop (anonymize_records_step cipher conf version ret data_records) fuel (0%nat, mem) = OutOfFuel.
Proof.
  intros H1 H2 Hp Hd fuel. apply (loop_diverges _ (λ s, s = (0%nat, mem))); [|done].
  intros s ->. exists (0%nat, mem). split; [|done]. unfold anonymize_records_step, anonymize_address.
  by rewrite Hp, Hd, res_bind_ret, !decide_False.
Qed.

(** An address behind a field of variable length: the offset 0 is returned, and the start of
    the record is overwritten instead. *)
Example address_behind_variable_field :
  let fs := [ {| fs_id := 82; fs_length := 65535; fs_enterprise := None |};
              {| fs_id := 8; fs_length := 4; fs_enterprise := None |} ] in
  let t := spec_template TM_TEMPLATE 301 0 fs 1000 in
  anonymize_entities cipher_example truncation t 0 entities_to_anonymize
    (enc_data_set 301 [zip fs [value [97; 98; 99]; value [10; 1; 2; 3] ] ] []) =
  Ok (enc16 301 ++ enc16 12 ++ [3; 97; 0; 0; 10; 1; 2; 3]).
Proof. by vm_compute. Qed.
