(* ===== verification/Bitset.v ===== *)
(** * Bit sets (src/base/src/utils/profiles/bitset.c, bitset.h)

    An array of 32-bit words ([bitset_type_t] is [unsigned int]).  Allocation succeeds. *)

From S2P Require Import Prelude CLib.

Definition BITSET_BITS : Z := 32.

Record bitset_t := { array : list Z; words : Z }.

Definition bitset_create (size : Z) : bitset_t :=
  let words := size / BITSET_BITS + 1 in
  {| array := replicate (Z.to_nat words) 0; words := words |}.

(** [memset] on the words that the set has. *)
Definition bitset_clear (set : bitset_t) : bitset_t :=
  {| array := replicate (Z.to_nat (words set)) 0; words := words set |}.

(** [realloc] keeps the words up to the smaller of the sizes; the new ones are cleared. *)
Definition bitset_resize (set : bitset_t) (size : Z) : bitset_t :=
  let new_size := size / BITSET_BITS + 1 in
  if decide (new_size = words set) then set
  else {| array := take (Z.to_nat new_size) (array set) ++ replicate (Z.to_nat (new_size - words set)) 0;
          words := new_size |}.

Definition bitset_get_size (set : bitset_t) : Z := words set * BITSET_BITS.

Definition rd_word (set : bitset_t) (i : Z) : res Z :=
  if decide (0 ≤ i) then or_fault OobRead (array set !! Z.to_nat i) else Fault OobRead.

Definition bitset_set_fast (set : bitset_t) (idx : Z) (val : bool) : res bitset_t :=
  w ← rd_word set (idx / BITSET_BITS);
  let mask := u32 (Z.shiftl 1 (idx mod BITSET_BITS)) in
  let w := if val then Z.lor w mask else Z.land w (u32 (Z.lnot mask)) in
  Ok {| array := <[Z.to_nat (idx / BITSET_BITS) := w]> (array set); words := words set |}.

Definition bitset_set (set : bitset_t) (idx : Z) (val : bool) : res bitset_t :=
  if decide (words set ≤ idx / BITSET_BITS) then Ok set else bitset_set_fast set idx val.

Definition bitset_get_fast (set : bitset_t) (idx : Z) : res bool :=
  w ← rd_word set (idx / BITSET_BITS);
  Ok (bool_decide (Z.land w (u32 (Z.shiftl 1 (idx mod BITSET_BITS))) ≠ 0)).

Definition bitset_get (set : bitset_t) (idx : Z) : res bool :=
  if decide (words set ≤ idx / BITSET_BITS) then Ok false else bitset_get_fast set idx.

Definition bitset_get_and_set (set : bitset_t) (idx : Z) (val : bool) : res (bool * bitset_t) :=
  if decide (words set ≤ idx / BITSET_BITS) then Ok (false, set)
  else
    result ← bitset_get_fast set idx;
    set ← bitset_set_fast set idx val;
    Ok (result, set).

(** ** Theory *)

Record bitset_wf (set : bitset_t) : Prop := {
  bw_length : Z.of_nat (length (array set)) = words set;
  bw_words : Forall is_u32 (array set)
}.

(** The bit at an index; there are none outside of the set. *)
Definition bit (set : bitset_t) (idx : Z) : bool :=
  match array set !! Z.to_nat (idx / BITSET_BITS) with Some w => Z.testbit w (idx mod BITSET_BITS) | None => false end.

Section words.
Implicit Types (w i k : Z).

Lemma mask_pow2 k : 0 ≤ k < 32 → u32 (Z.shiftl 1 k) = 2 ^ k.
Proof.
  intros Hk. rewrite Z.shiftl_1_l. apply u32_small. split; [apply Z.pow_nonneg; lia|].
  change 4294967296 with (2 ^ 32). apply Z.pow_lt_mono_r; lia.
Qed.

Lemma mask_testbit k i : 0 ≤ k < 32 → 0 ≤ i → Z.testbit (u32 (Z.shiftl 1 k)) i = bool_decide (k = i).
Proof.
  intros Hk Hi. rewrite mask_pow2, Z.pow2_bits_eqb by lia. destruct (Z.eqb_spec k i).
  - by rewrite bool_decide_true.
  - by rewrite bool_decide_false.
Qed.

Lemma u32_testbit w i : 0 ≤ i → Z.testbit (u32 w) i = bool_decide (i < 32) && Z.testbit w i.
Proof.
  intros Hi. unfold u32. change 4294967296 with (2 ^ 32). destruct (decide (i < 32)) as [H|H].
  - rewrite bool_decide_true by done. by rewrite Z.mod_pow2_bits_low.
  - rewrite bool_decide_false by done. by rewrite Z.mod_pow2_bits_high by lia.
Qed.

Lemma is_u32_u32 w : is_u32 (u32 w).
Proof. unfold is_u32, u32. by apply Z.mod_pos_bound. Qed.

(** A number of 32 bits is its own remainder. *)
Lemma u32_lor w v : is_u32 w → is_u32 v → is_u32 (Z.lor w v).
Proof.
  intros Hw Hv. assert (Z.lor w v = u32 (Z.lor w v)) as ->; [|apply is_u32_u32].
  apply Z.bits_inj'. intros i Hi. rewrite u32_testbit, !Z.lor_spec by done.
  rewrite <-(u32_small w), <-(u32_small v), !u32_testbit by done. by destruct (bool_decide (i < 32)).
Qed.

Lemma u32_land w v : is_u32 w → is_u32 (Z.land w v).
Proof.
  intros Hw. assert (Z.land w v = u32 (Z.land w v)) as ->; [|apply is_u32_u32].
  apply Z.bits_inj'. intros i Hi. rewrite u32_testbit, !Z.land_spec by done.
  rewrite <-(u32_small w), !u32_testbit by done. by destruct (bool_decide (i < 32)).
Qed.

(** Setting and clearing one bit of a word. *)
Lemma set_bit w k val i : 0 ≤ k < 32 → 0 ≤ i < 32 →
  Z.testbit (if val : bool then Z.lor w (u32 (Z.shiftl 1 k)) else Z.land w (u32 (Z.lnot (u32 (Z.shiftl 1 k))))) i =
  if decide (i = k) then val else Z.testbit w i.
Proof.
  intros Hk Hi. destruct val.
  - rewrite Z.lor_spec, mask_testbit by lia. destruct (decide (i = k)) as [->|Hne].
    + by rewrite bool_decide_true, orb_true_r.
    + by rewrite bool_decide_false, orb_false_r by congruence.
  - rewrite Z.land_spec, u32_testbit, Z.lnot_spec, mask_testbit by lia. rewrite (bool_decide_true (i < 32)) by lia.
    cbn [andb]. destruct (decide (i = k)) as [->|Hne].
    + by rewrite bool_decide_true, andb_false_r.
    + by rewrite bool_decide_false, andb_true_r by congruence.
Qed.

Lemma get_bit w k : is_u32 w → 0 ≤ k < 32 → bool_decide (Z.land w (u32 (Z.shiftl 1 k)) ≠ 0) = Z.testbit w k.
Proof.
  intros Hw Hk. rewrite mask_pow2 by done. destruct (Z.testbit w k) eqn:E.
  - apply bool_decide_true. intros H. assert (Z.testbit (Z.land w (2 ^ k)) k = true) as H1.
    { rewrite Z.land_spec, E, Z.pow2_bits_true by lia. done. }
    rewrite H, Z.bits_0 in H1. done.
  - apply bool_decide_false. intros H. apply H. apply Z.bits_inj'. intros i Hi.
    rewrite Z.land_spec, Z.bits_0, Z.pow2_bits_eqb by lia. destruct (Z.eqb_spec k i) as [->|]; [by rewrite E|].
    by rewrite andb_false_r.
Qed.
End words.

Section bitset.
Implicit Types (set : bitset_t) (idx j : Z).

Lemma idx_word idx : 0 ≤ idx → 0 ≤ idx / 32 ∧ 0 ≤ idx mod 32 < 32 ∧ idx = 32 * (idx / 32) + idx mod 32.
Proof. intros. pose proof (Z.div_mod idx 32 ltac:(lia)). pose proof (Z.mod_pos_bound idx 32 ltac:(lia)). split; [apply Z.div_pos; lia|lia]. Qed.

Lemma word_in_set set idx : bitset_wf set → 0 ≤ idx < bitset_get_size set →
  ∃ w, array set !! Z.to_nat (idx / BITSET_BITS) = Some w ∧ is_u32 w ∧ rd_word set (idx / BITSET_BITS) = Ok w.
Proof.
  intros [Hl Hw] Hi. unfold bitset_get_size, BITSET_BITS in *. destruct (idx_word idx) as (H1 & H2 & H3); [lia|].
  destruct (lookup_lt_is_Some_2 (array set) (Z.to_nat (idx / 32))) as [w Ew]; [lia|].
  exists w. split; [done|]. split; [by apply (Forall_lookup_1 _ _ _ _ Hw Ew)|].
  unfold rd_word. by rewrite decide_True, Ew by lia.
Qed.

Lemma bitset_get_fast_spec set idx : bitset_wf set → 0 ≤ idx < bitset_get_size set →
  bitset_get_fast set idx = Ok (bit set idx).
Proof.
  intros Hwf Hi. destruct (word_in_set set idx Hwf Hi) as (w & E & Hw & Er). destruct (idx_word idx) as (_ & H & _); [lia|].
  unfold bitset_get_fast, bit. rewrite Er, E, res_bind_ret, get_bit by done. done.
Qed.

Lemma bitset_set_fast_spec set idx val : bitset_wf set → 0 ≤ idx < bitset_get_size set →
  ∃ set', bitset_set_fast set idx val = Ok set' ∧ bitset_wf set' ∧ words set' = words set ∧
    ∀ j, 0 ≤ j → bit set' j = if decide (j = idx) then val else bit set j.
Proof.
  intros Hwf Hi. destruct (word_in_set set idx Hwf Hi) as (w & E & Hw & Er). destruct (idx_word idx) as (H1 & H2 & H3); [lia|].
  unfold bitset_set_fast. rewrite Er, res_bind_ret. eexists. split; [done|]. split_and!.
  - destruct Hwf as [Hl Hall]. split; cbn [array words]; [by rewrite length_insert|].
    apply Forall_insert; [done|]. destruct val; [apply u32_lor; [done|]; apply is_u32_u32|by apply u32_land].
  - done.
  - intros j Hj. destruct (idx_word j Hj) as (J1 & J2 & J3). unfold bit, BITSET_BITS in *. cbn [array].
    destruct (decide (j / 32 = idx / 32)) as [Ej|Ej].
    + rewrite Ej, list_lookup_insert_eq, E by (by eapply lookup_lt_Some). rewrite set_bit by done.
      destruct (decide (j = idx)) as [->|]; [by rewrite decide_True|]. rewrite decide_False; [done|]. lia.
    + rewrite list_lookup_insert_ne by lia. rewrite decide_False; [done|]. intros ->. done.
Qed.

Lemma bitset_create_spec size : 0 ≤ size →
  bitset_wf (bitset_create size) ∧ size < bitset_get_size (bitset_create size) ∧ ∀ j, bit (bitset_create size) j = false.
Proof.
  intros Hs. unfold bitset_create, bitset_get_size, BITSET_BITS. destruct (idx_word size Hs) as (H1 & H2 & H3).
  split; [split; cbn [array words]; [rewrite length_replicate; lia|by apply Forall_replicate]|].
  split; [cbn; lia|]. intros j. unfold bit. cbn [array]. destruct (_ !! _) as [w|] eqn:E; [|done].
  apply lookup_replicate in E as [-> _]. apply Z.bits_0.
Qed.

Lemma bitset_clear_spec set : bitset_wf set →
  bitset_wf (bitset_clear set) ∧ words (bitset_clear set) = words set ∧ ∀ j, bit (bitset_clear set) j = false.
Proof.
  intros [Hl _]. unfold bitset_clear. split; [split; cbn [array words]; [rewrite length_replicate; lia|by apply Forall_replicate]|].
  split; [done|]. intros j. unfold bit. cbn [array]. destruct (_ !! _) as [w|] eqn:E; [|done].
  apply lookup_replicate in E as [-> _]. apply Z.bits_0.
Qed.

Lemma bitset_resize_spec set size : bitset_wf set → 0 ≤ size →
  bitset_wf (bitset_resize set size) ∧ size < bitset_get_size (bitset_resize set size) ∧
  ∀ j, 0 ≤ j → bit (bitset_resize set size) j = bool_decide (j < bitset_get_size (bitset_resize set size)) && bit set j.
Proof.
  intros Hwf Hs. destruct (idx_word size Hs) as (H1 & H2 & H3). pose proof Hwf as [Hl Hw].
  unfold bitset_resize, bitset_get_size, BITSET_BITS. destruct (decide (size / 32 + 1 = words set)) as [E|E].
  - split; [done|]. split; [lia|]. intros j Hj. destruct (decide (j < words set * 32)) as [Hlt|Hge].
    + by rewrite bool_decide_true.
    + rewrite bool_decide_false by done. cbn [andb]. destruct (idx_word j Hj) as (J1 & J2 & J3).
      unfold bit, BITSET_BITS. rewrite lookup_ge_None_2; [done|]. lia.
  - split; [split|]; cbn [array words].
    + rewrite length_app, length_take, length_replicate. lia.
    + apply Forall_app. split; [by apply Forall_take|by apply Forall_replicate].
    + split; [lia|]. intros j Hj. destruct (idx_word j Hj) as (J1 & J2 & J3). unfold bit, BITSET_BITS. cbn [array].
      destruct (decide (j < (size / 32 + 1) * 32)) as [Hlt|Hge].
      * rewrite bool_decide_true by done. cbn [andb].
        destruct (decide (j / 32 < words set)).
        -- rewrite lookup_app_l, lookup_take_lt by (rewrite ?length_take; lia). done.
        -- rewrite (lookup_ge_None_2 (array set)) by lia.
           rewrite lookup_app_r by (rewrite length_take; lia). destruct (_ !! _) as [w|] eqn:Ew; [|done].
           apply lookup_replicate in Ew as [-> _]. apply Z.bits_0.
      * rewrite bool_decide_false by done. cbn [andb]. rewrite lookup_ge_None_2; [done|].
        rewrite length_app, length_take, length_replicate. lia.
Qed.

Lemma bitset_get_and_set_spec set idx val : bitset_wf set → 0 ≤ idx < bitset_get_size set →
  ∃ set', bitset_get_and_set set idx val = Ok (bit set idx, set') ∧ bitset_wf set' ∧ words set' = words set ∧
    ∀ j, 0 ≤ j → bit set' j = if decide (j = idx) then val else bit set j.
Proof.
  intros Hwf Hi. unfold bitset_get_and_set. destruct (idx_word idx) as (H1 & H2 & H3); [lia|].
  rewrite decide_False by (unfold bitset_get_size, BITSET_BITS in *; lia).
  rewrite bitset_get_fast_spec, res_bind_ret by done.
  destruct (bitset_set_fast_spec set idx val Hwf Hi) as (set' & -> & ?). rewrite res_bind_ret. by exists set'.
Qed.
End bitset.
