(* ===== verification/Profiles.v ===== *)
(** * The tree of profiles (src/base/src/utils/profiles: Profile.cpp, Channel.cpp, profiles.cpp)

    A profile has channels and subprofiles; a channel gets the records of the channels of
    the parent profile it has as sources and passes those that its filter accepts to its
    listeners.  Profiles and channels are heap objects that point to each other.  The XML
    document and the filter are handled by other libraries: a document is a record of the
    accessors that the code calls, and a filter is of any type with any evaluation.
    A string is the list of its octets. *)

From S2P Require Import Prelude CLib Message.

Inductive PROFILE_TYPE := PT_UNDEF | PT_NORMAL | PT_SHADOW.
#[export] Instance PROFILE_TYPE_eq_dec : EqDecision PROFILE_TYPE.
Proof. solve_decision. Defined.

(** The accessors of libxml2.  [xmlChildren] is the list of a node's children in order. *)
Record xml_api := {
  xmlNode : Type;
  xmlChildren : xmlNode → list xmlNode;
  xmlName : xmlNode → bytes;
  xmlIsElement : xmlNode → bool;
  xmlNodeIsText : xmlNode → bool;
  xmlGetProp : xmlNode → bytes → option bytes;
  xmlNodeGetContent : xmlNode → option bytes
}.

(** The names of the document; the octets of "name" etc. *)
Definition str_filter : bytes := [102; 105; 108; 116; 101; 114].
Definition str_sourceList : bytes := [115; 111; 117; 114; 99; 101; 76; 105; 115; 116].
Definition str_source : bytes := [115; 111; 117; 114; 99; 101].
Definition str_name : bytes := [110; 97; 109; 101].
Definition str_type : bytes := [116; 121; 112; 101].
Definition str_normal : bytes := [110; 111; 114; 109; 97; 108].
Definition str_shadow : bytes := [115; 104; 97; 100; 111; 119].
Definition str_directory : bytes := [100; 105; 114; 101; 99; 116; 111; 114; 121].
Definition str_channelList : bytes := [99; 104; 97; 110; 110; 101; 108; 76; 105; 115; 116].
Definition str_channel : bytes := [99; 104; 97; 110; 110; 101; 108].
Definition str_subprofileList : bytes := [115; 117; 98; 112; 114; 111; 102; 105; 108; 101; 76; 105; 115; 116].
Definition str_profile : bytes := [112; 114; 111; 102; 105; 108; 101].
Definition str_channels_dir : bytes := [99; 104; 97; 110; 110; 101; 108; 115; 47].
Definition str_star : bytes := [42].
Definition SPACE : Z := 32.
Definition COMMA : Z := 44.
Definition SLASH : Z := 47.

Section profiles.
Context {filter : Type}.

Record Profile := {
  pr_parent : option loc;
  pr_id : Z;
  pr_pathName : bytes;
  pr_name : bytes;
  pr_type : PROFILE_TYPE;
  pr_directory : bytes;
  pr_children : list loc;
  pr_channels : list loc
}.

Record Channel := {
  ch_id : Z;
  ch_name : bytes;
  ch_pathName : bytes;
  ch_filter : option filter;
  ch_profile : option loc;
  ch_listeners : gset loc;
  ch_sources : gset loc
}.

(** The objects, and the counters of the classes. *)
Record tree := {
  pheap : gmap loc Profile;
  cheap : gmap loc Channel;
  profiles_cnt : Z;
  channels_cnt : Z
}.

Definition put_profile (t : tree) (p : loc) (P : Profile) : tree :=
  {| pheap := <[p := P]> (pheap t); cheap := cheap t; profiles_cnt := profiles_cnt t; channels_cnt := channels_cnt t |}.
Definition put_channel (t : tree) (c : loc) (C : Channel) : tree :=
  {| pheap := pheap t; cheap := <[c := C]> (cheap t); profiles_cnt := profiles_cnt t; channels_cnt := channels_cnt t |}.
Definition get_profile (t : tree) (p : loc) : res Profile := deref (pheap t) p.
Definition get_channel (t : tree) (c : loc) : res Channel := deref (cheap t) c.

(** [std::set] of pointers goes over them by address. *)
Definition by_address (s : gset loc) : list loc := merge_sort Pos.le (elements s).

(** *** Functions that may throw: the state and the result, none after a [throw]. *)

Definition M (A : Type) : Type := tree → res (tree * option A).
#[local] Instance M_ret : MRet M := λ A a t, Ok (t, Some a).
#[local] Instance M_bind : MBind M := λ A B k m t,
  x ← m t;
  match x with
  | (t, Some a) => k a t
  | (t, None) => Ok (t, None)
  end.
Definition throw {A} : M A := λ t, Ok (t, None).
(** A step that does not throw, and one without result. *)
Definition call {A} (f : tree → res (tree * A)) : M A := λ t, x ← f t; Ok (x.1, Some x.2).
Definition run (f : tree → res tree) : M () := λ t, t ← f t; Ok (t, Some ()).
(** [catch]: the handler runs on the state of the [throw] and throws again. *)
Definition on_throw {A} (m : M A) (handler : tree → res tree) : M A := λ t,
  x ← m t;
  match x with
  | (t, Some a) => Ok (t, Some a)
  | (t, None) => t ← handler t; Ok (t, None)
  end.
Definition or_throw {A} (o : option A) : M A := match o with Some a => mret a | None => throw end.

Fixpoint for_list {A X} (f : A → X → M X) (xs : list A) (x : X) : M X :=
  match xs with
  | [] => mret x
  | a :: xs => y ← f a x; for_list f xs y
  end.

(** ** Channel.cpp *)

(** The spaces at both ends are cut off; a string of spaces becomes empty. *)
Fixpoint drop_spaces (s : bytes) : bytes :=
  match s with
  | c :: s' => if decide (c = SPACE) then drop_spaces s' else s
  | [] => []
  end.
Definition trim (s : bytes) : bytes := drop_spaces (reverse (drop_spaces (reverse s))).

(** What [std::getline] reads one after the other: the delimiter ends a line, and there is
    no line behind the last delimiter. *)
Fixpoint getlines (delim : Z) (line : bytes) (s : bytes) : list bytes :=
  match s with
  | [] => match line with [] => [] | _ => [line] end
  | c :: s => if decide (c = delim) then line :: getlines delim [] s else getlines delim (line ++ [c]) s
  end.

Definition Channel_new (name : bytes) (t : tree) : res (tree * loc) :=
  let c := fresh (dom (cheap t)) in
  let C := {| ch_id := channels_cnt t; ch_name := name; ch_pathName := name; ch_filter := None; ch_profile := None;
              ch_listeners := ∅; ch_sources := ∅ |} in
  Ok ({| pheap := pheap t; cheap := <[c := C]> (cheap t); profiles_cnt := profiles_cnt t;
         channels_cnt := u16 (channels_cnt t + 1) |}, c).

Definition Channel_delete (c : loc) (t : tree) : res tree :=
  _ ← get_channel t c;
  Ok {| pheap := pheap t; cheap := delete c (cheap t); profiles_cnt := profiles_cnt t; channels_cnt := channels_cnt t |}.

Definition upd_channel (t : tree) (c : loc) (f : Channel → Channel) : res tree :=
  C ← get_channel t c; Ok (put_channel t c (f C)).

Definition with_listeners (s : gset loc) (C : Channel) : Channel :=
  {| ch_id := ch_id C; ch_name := ch_name C; ch_pathName := ch_pathName C; ch_filter := ch_filter C;
     ch_profile := ch_profile C; ch_listeners := s; ch_sources := ch_sources C |}.
Definition with_sources (s : gset loc) (C : Channel) : Channel :=
  {| ch_id := ch_id C; ch_name := ch_name C; ch_pathName := ch_pathName C; ch_filter := ch_filter C;
     ch_profile := ch_profile C; ch_listeners := ch_listeners C; ch_sources := s |}.

Definition addListener (this listener : loc) (t : tree) : res tree :=
  t ← upd_channel t this (λ C, with_listeners ({[listener]} ∪ ch_listeners C) C);
  upd_channel t listener (λ C, with_sources ({[this]} ∪ ch_sources C) C).

Definition removeListener (this child : loc) (t : tree) : res tree :=
  t ← upd_channel t this (λ C, with_listeners (ch_listeners C ∖ {[child]}) C);
  upd_channel t child (λ C, with_sources (ch_sources C ∖ {[this]}) C).

(** By the identifier of the listener: the first one in the order of addresses. *)
Fixpoint find_channel_by (P : Channel → bool) (cs : list loc) (t : tree) : res (option loc) :=
  match cs with
  | [] => Ok None
  | c :: cs => C ← get_channel t c; if P C then Ok (Some c) else find_channel_by P cs t
  end.

Definition removeListener_id (this : loc) (id : Z) (t : tree) : res tree :=
  C ← get_channel t this;
  listener ← find_channel_by (λ L, bool_decide (ch_id L = id)) (by_address (ch_listeners C)) t;
  match listener with
  | None => Ok t
  | Some listener =>
      t ← upd_channel t listener (λ L, with_sources (ch_sources L ∖ {[this]}) L);
      upd_channel t this (λ C, with_listeners (ch_listeners C ∖ {[listener]}) C)
  end.

Definition setProfile (c p : loc) (t : tree) : res tree :=
  upd_channel t c (λ C, {| ch_id := ch_id C; ch_name := ch_name C; ch_pathName := ch_pathName C; ch_filter := ch_filter C;
                           ch_profile := Some p; ch_listeners := ch_listeners C; ch_sources := ch_sources C |}).
Definition setFilter (c : loc) (f : option filter) (t : tree) : res tree :=
  upd_channel t c (λ C, {| ch_id := ch_id C; ch_name := ch_name C; ch_pathName := ch_pathName C; ch_filter := f;
                           ch_profile := ch_profile C; ch_listeners := ch_listeners C; ch_sources := ch_sources C |}).

(** [m_profile->getParent()]. *)
Definition parent_of_channel (t : tree) (c : loc) : res (option loc) :=
  C ← get_channel t c;
  p ← or_fault NullDeref (ch_profile C);
  P ← get_profile t p;
  Ok (pr_parent P).

Definition set_source (c parent : loc) (name : bytes) (_ : ()) : M () :=
  let channel := trim name in
  Pp ← call (λ t, P ← get_profile t parent; Ok (t, P));
  if decide (channel = str_star) then
    for_list (λ ch _, run (addListener ch c)) (pr_channels Pp) ()
  else
    src ← call (λ t, x ← find_channel_by (λ C, bool_decide (ch_name C = channel)) (pr_channels Pp) t; Ok (t, x));
    match src with
    | None => throw
    | Some src => run (addListener src c)
    end.

Definition setSources (c : loc) (sources : bytes) : M () :=
  parent ← call (λ t, p ← parent_of_channel t c; Ok (t, p));
  match parent with
  | None => mret ()
  | Some parent => for_list (set_source c parent) (getlines COMMA [] sources) ()
  end.

Definition Channel_updatePathName (t : tree) (c : loc) : res tree :=
  C ← get_channel t c;
  path ← match ch_profile C with
         | Some p => P ← get_profile t p; Ok (pr_pathName P ++ str_channels_dir)
         | None => Ok []
         end;
  Ok (put_channel t c {| ch_id := ch_id C; ch_name := ch_name C; ch_pathName := path; ch_filter := ch_filter C;
                         ch_profile := ch_profile C; ch_listeners := ch_listeners C; ch_sources := ch_sources C |}).

(** ** Profile.cpp *)

Definition Profile_new (name : bytes) (type : PROFILE_TYPE) (t : tree) : res (tree * loc) :=
  let p := fresh (dom (pheap t)) in
  let P := {| pr_parent := None; pr_id := profiles_cnt t; pr_pathName := []; pr_name := name; pr_type := type;
              pr_directory := []; pr_children := []; pr_channels := [] |} in
  Ok ({| pheap := <[p := P]> (pheap t); cheap := cheap t; profiles_cnt := u16 (profiles_cnt t + 1);
         channels_cnt := channels_cnt t |}, p).

Definition upd_profile (t : tree) (p : loc) (f : Profile → Profile) : res tree :=
  P ← get_profile t p; Ok (put_profile t p (f P)).

Definition with_children (l : list loc) (P : Profile) : Profile :=
  {| pr_parent := pr_parent P; pr_id := pr_id P; pr_pathName := pr_pathName P; pr_name := pr_name P; pr_type := pr_type P;
     pr_directory := pr_directory P; pr_children := l; pr_channels := pr_channels P |}.
Definition with_channels (l : list loc) (P : Profile) : Profile :=
  {| pr_parent := pr_parent P; pr_id := pr_id P; pr_pathName := pr_pathName P; pr_name := pr_name P; pr_type := pr_type P;
     pr_directory := pr_directory P; pr_children := pr_children P; pr_channels := l |}.
Definition with_path (path : bytes) (P : Profile) : Profile :=
  {| pr_parent := pr_parent P; pr_id := pr_id P; pr_pathName := path; pr_name := pr_name P; pr_type := pr_type P;
     pr_directory := pr_directory P; pr_children := pr_children P; pr_channels := pr_channels P |}.

Definition addChannel (p channel : loc) (t : tree) : res tree :=
  upd_profile t p (λ P, with_channels (pr_channels P ++ [channel]) P).
Definition addProfile (p child : loc) (t : tree) : res tree :=
  upd_profile t p (λ P, with_children (pr_children P ++ [child]) P).
Definition setParent (p : loc) (parent : option loc) (t : tree) : res tree :=
  upd_profile t p (λ P, {| pr_parent := parent; pr_id := pr_id P; pr_pathName := pr_pathName P; pr_name := pr_name P;
    pr_type := pr_type P; pr_directory := pr_directory P; pr_children := pr_children P; pr_channels := pr_channels P |}).
Definition setDirectory (p : loc) (dir : bytes) (t : tree) : res tree :=
  upd_profile t p (λ P, {| pr_parent := pr_parent P; pr_id := pr_id P; pr_pathName := pr_pathName P; pr_name := pr_name P;
    pr_type := pr_type P; pr_directory := dir; pr_children := pr_children P; pr_channels := pr_channels P |}).

(** The first element with the identifier goes. *)
Fixpoint remove_first {A} (P : A → bool) (l : list A) : list A :=
  match l with [] => [] | x :: l => if P x then l else x :: remove_first P l end.

Definition removeProfile (p : loc) (id : Z) (t : tree) : res tree :=
  P ← get_profile t p;
  children ← mapM (λ q, Q ← get_profile t q; Ok (q, pr_id Q)) (pr_children P);
  upd_profile t p (with_children (remove_first (λ x, bool_decide (x.2 = id)) children).*1).

(** The channel is taken from its sources, the listeners keep it as a source. *)
Definition removeChannel (p : loc) (id : Z) (t : tree) : res tree :=
  P ← get_profile t p;
  it ← find_channel_by (λ C, bool_decide (ch_id C = id)) (pr_channels P) t;
  match it with
  | None => Ok t
  | Some ch =>
      C ← get_channel t ch;
      t ← fold_res (λ t src, removeListener src ch t) (by_address (ch_sources C)) t;
      upd_profile t p (with_channels (remove_first (λ c, bool_decide (c = ch)) (pr_channels P)))
  end.

(** The destructors of a tree; [fuel] bounds its height. *)
Fixpoint Profile_delete (fuel : nat) (t : tree) (p : loc) : res tree :=
  match fuel with
  | O => OutOfFuel
  | S fuel =>
      P ← get_profile t p;
      t ← fold_res (λ t c, Channel_delete c t) (pr_channels P) t;
      t ← fold_res (λ t q, Profile_delete fuel t q) (pr_children P) t;
      Ok {| pheap := delete p (pheap t); cheap := cheap t; profiles_cnt := profiles_cnt t; channels_cnt := channels_cnt t |}
  end.

Fixpoint Profile_updatePathName (fuel : nat) (t : tree) (p : loc) : res tree :=
  match fuel with
  | O => OutOfFuel
  | S fuel =>
      P ← get_profile t p;
      path ← match pr_parent P with
             | Some q => Q ← get_profile t q; Ok (pr_pathName Q ++ pr_name P ++ [SLASH])
             | None => Ok []
             end;
      let t := put_profile t p (with_path path P) in
      t ← fold_res (λ t c, Channel_updatePathName t c) (pr_channels P) t;
      fold_res (λ t q, Profile_updatePathName fuel t q) (pr_children P) t
  end.

(** ** Matching of data records *)

(** [struct match_data]: the array with what is written to it; [channelsMax] is what the
    structure says of its size, in 16 bits. *)
Record match_data := { channels : list (option loc); channelsCounter : Z; channelsMax : Z }.

Section matching.
Context (ipx_filter_eval : filter → ipfix_message → ipfix_record → Z) (msg : ipfix_message) (mdata : metadata).

Definition accepts (C : Channel) : bool :=
  match ch_filter C with
  | Some f => bool_decide (¬ 0 >= ipx_filter_eval f msg (md_record mdata))
  | None => true
  end.

Definition match_data_room (data : match_data) : match_data :=
  if decide (channelsMax data = 0) then
    {| channels := replicate 5 None; channelsCounter := channelsCounter data; channelsMax := 5 |}
  else if decide (channelsCounter data = channelsMax data) then
    {| channels := take (Z.to_nat (channelsMax data * 2)) (channels data) ++
                   replicate (Z.to_nat (channelsMax data * 2) - length (channels data)) None;
       channelsCounter := channelsCounter data; channelsMax := u16 (channelsMax data * 2) |}
  else data.

Definition match_data_push (data : match_data) (c : loc) : res match_data :=
  let data := match_data_room data in
  if decide (0 ≤ channelsCounter data < Z.of_nat (length (channels data))) then
    Ok {| channels := <[Z.to_nat (channelsCounter data) := Some c]> (channels data);
          channelsCounter := u16 (channelsCounter data + 1); channelsMax := channelsMax data |}
  else Fault OobWrite.

Fixpoint Channel_match (fuel : nat) (t : tree) (data : match_data) (c : loc) : res match_data :=
  match fuel with
  | O => OutOfFuel
  | S fuel =>
      C ← get_channel t c;
      if accepts C then
        data ← match_data_push data c;
        fold_res (λ data child, Channel_match fuel t data child) (by_address (ch_listeners C)) data
      else Ok data
  end.

(** The variant that fills a vector. *)
Fixpoint Channel_match_vector (fuel : nat) (t : tree) (chs : list loc) (c : loc) : res (list loc) :=
  match fuel with
  | O => OutOfFuel
  | S fuel =>
      C ← get_channel t c;
      if accepts C then
        fold_res (λ chs child, Channel_match_vector fuel t chs child) (by_address (ch_listeners C)) (chs ++ [c])
      else Ok chs
  end.

Definition Profile_match (fuel : nat) (t : tree) (data : match_data) (p : loc) : res match_data :=
  P ← get_profile t p;
  fold_res (λ data c, Channel_match fuel t data c) (pr_channels P) data.

Definition Profile_match_vector (fuel : nat) (t : tree) (chs : list loc) (p : loc) : res (list loc) :=
  P ← get_profile t p;
  fold_res (λ chs c, Channel_match_vector fuel t chs c) (pr_channels P) chs.

(** The array with its terminating null pointer, or null. *)
Definition profile_match_data (fuel : nat) (t : tree) (p : loc) : res (option (list (option loc))) :=
  data ← Profile_match fuel t {| channels := []; channelsCounter := 0; channelsMax := 0 |} p;
  if decide (channels data = [] ∨ channelsCounter data = 0) then Ok None
  else
    let chs := if decide (channelsCounter data = channelsMax data)
               then take (Z.to_nat (channelsCounter data + 1)) (channels data) ++
                    replicate (Z.to_nat (channelsCounter data + 1) - length (channels data)) None
               else channels data in
    if decide (channelsCounter data < Z.of_nat (length chs))
    then Ok (Some (<[Z.to_nat (channelsCounter data) := None]> chs)) else Fault OobWrite.
End matching.

(** ** The interface in C (profiles.cpp) *)

Definition profile_get_name (t : tree) (p : loc) : res bytes := P ← get_profile t p; Ok (pr_name P).
Definition profile_get_type (t : tree) (p : loc) : res PROFILE_TYPE := P ← get_profile t p; Ok (pr_type P).
Definition profile_get_directory (t : tree) (p : loc) : res bytes := P ← get_profile t p; Ok (pr_directory P).
Definition profile_get_path (t : tree) (p : loc) : res bytes := P ← get_profile t p; Ok (pr_pathName P).
Definition profile_get_children (t : tree) (p : loc) : res Z := P ← get_profile t p; Ok (u16 (Z.of_nat (length (pr_children P)))).
Definition profile_get_channels (t : tree) (p : loc) : res Z := P ← get_profile t p; Ok (u16 (Z.of_nat (length (pr_channels P)))).
Definition profile_get_parent (t : tree) (p : loc) : res (option loc) := P ← get_profile t p; Ok (pr_parent P).
Definition profile_get_child (t : tree) (p : loc) (index : Z) : res (option loc) :=
  P ← get_profile t p; Ok (pr_children P !! Z.to_nat index).
Definition profile_get_channel (t : tree) (p : loc) (index : Z) : res (option loc) :=
  P ← get_profile t p; Ok (pr_channels P !! Z.to_nat index).
Definition channel_get_name (t : tree) (c : loc) : res bytes := C ← get_channel t c; Ok (ch_name C).
Definition channel_get_path (t : tree) (c : loc) : res bytes := C ← get_channel t c; Ok (ch_pathName C).
Definition channel_get_profile (t : tree) (c : loc) : res (option loc) := C ← get_channel t c; Ok (ch_profile C).
Definition channel_get_listeners (t : tree) (c : loc) : res Z := C ← get_channel t c; Ok (u16 (Z.of_nat (size (ch_listeners C)))).
Definition channel_get_sources (t : tree) (c : loc) : res Z := C ← get_channel t c; Ok (u16 (Z.of_nat (size (ch_sources C)))).

(** Up to the root, and from there breadth first. *)
Definition find_root_step (t : tree) (p : loc) : res (loc + loc) :=
  parent ← profile_get_parent t p;
  Ok (match parent with Some q => inl q | None => inr p end).

Definition all_profiles_step (t : tree) (s : gset loc * list loc) : res ((gset loc * list loc) + gset loc) :=
  let '(all_profiles, next) := s in
  match next with
  | [] => Ok (inr all_profiles)
  | item :: next => P ← get_profile t item; Ok (inl ({[item]} ∪ all_profiles, next ++ pr_children P))
  end.

Definition profile_get_all_profiles (fuel : nat) (t : tree) (p : option loc) : res (option (list loc)) :=
  match p with
  | None => Ok None
  | Some p =>
      root ← loop (find_root_step t) fuel p;
      all_profiles ← loop (all_profiles_step t) fuel (∅, [root]);
      Ok (Some (by_address all_profiles))
  end.

(** ** Processing of the document (profiles.cpp) *)

Section document.
Context (doc : xml_api) (ipx_filter_parse : bytes → option filter) (utils_path_preprocessor : bytes → option bytes).
Implicit Types (root node : xmlNode doc).

(** The number of children with the name, and the one when there is one. *)
Definition xml_find_uniq_element root (name : bytes) : Z * option (xmlNode doc) :=
  let found := base.filter (λ node, xmlName doc node = name) (xmlChildren doc root) in
  let count := Z.of_nat (length found) in
  (count, if decide (count = 1) then list.last found else None).

Definition channel_parse_filter root : M (option filter) :=
  let '(cnt, filter_node) := xml_find_uniq_element root str_filter in
  match filter_node with
  | None => mret None
  | Some filter_node =>
      if decide (cnt < 1) then mret None
      else match xmlChildren doc filter_node with
      | [] => mret None
      | child :: _ =>
          if decide (cnt > 1) then throw
          else if xmlNodeIsText doc child then
            aux_char ← or_throw (xmlNodeGetContent doc filter_node);
            pdata ← or_throw (ipx_filter_parse aux_char);
            mret (Some pdata)
          else throw
      end
  end.

(** [xmlNodeIsText] of no node is false. *)
Definition channel_parse_source node (lst : bytes) : M bytes :=
  if negb (xmlIsElement doc node) then mret lst
  else if decide (xmlName doc node ≠ str_source) then throw
  else match xmlChildren doc node with
  | child :: _ =>
      if xmlNodeIsText doc child then
        match xmlNodeGetContent doc child with
        | Some aux_char => mret ((if decide (lst = []) then lst else lst ++ [COMMA]) ++ aux_char)
        | None => mret lst
        end
      else throw
  | [] => throw
  end.

Definition channel_parse_source_list root : M bytes :=
  let '(cnt, sources_node) := xml_find_uniq_element root str_sourceList in
  match sources_node with
  | Some sources_node => if decide (cnt ≠ 1) then throw else for_list channel_parse_source (xmlChildren doc sources_node) []
  | None => throw
  end.

Definition process_channel (profile : loc) root : M loc :=
  name ← or_throw (xmlGetProp doc root str_name);
  channel ← call (Channel_new name);
  _ ← run (setProfile channel profile);
  _ ← on_throw (filter ← channel_parse_filter root;
                _ ← run (setFilter channel filter);
                lst ← channel_parse_source_list root;
                setSources channel lst)
        (Channel_delete channel);
  no_source ← call (λ t, parent ← parent_of_channel t channel; C ← get_channel t channel;
                         Ok (t, bool_decide (is_Some parent ∧ ch_sources C = ∅)));
  if no_source : bool then _ ← run (Channel_delete channel); throw
  else mret channel.

Definition profile_parse_type root : M PROFILE_TYPE :=
  let '(cnt, type_node) := xml_find_uniq_element root str_type in
  match type_node with
  | Some type_node =>
      if decide (cnt ≠ 1) then throw else
      aux_char ← or_throw (child ← head (xmlChildren doc type_node); xmlNodeGetContent doc child);
      if decide (aux_char = str_normal) then mret PT_NORMAL
      else if decide (aux_char = str_shadow) then mret PT_SHADOW else throw
  | None => throw
  end.

Definition profile_parse_directory root : M bytes :=
  let '(cnt, dir_node) := xml_find_uniq_element root str_directory in
  match dir_node with
  | Some dir_node =>
      if decide (cnt ≠ 1) then throw else
      aux_char ← or_throw (child ← head (xmlChildren doc dir_node); xmlNodeGetContent doc child);
      result ← or_throw (utils_path_preprocessor aux_char);
      if decide (result = []) then throw
      else if decide (head result ≠ Some SLASH) then throw
      else mret (if decide (list.last result ≠ Some SLASH) then result ++ [SLASH] else result)
  | None => throw
  end.

Definition profile_add_channel (profile : loc) node (count : Z) : M Z :=
  if negb (xmlIsElement doc node) then mret count
  else if decide (xmlName doc node ≠ str_channel) then throw
  else channel ← process_channel profile node;
       _ ← run (addChannel profile channel);
       mret (count + 1).

Definition profile_parse_channels (profile : loc) root : M Z :=
  let '(cnt, channels_node) := xml_find_uniq_element root str_channelList in
  match channels_node with
  | Some channels_node =>
      if decide (cnt ≠ 1) then throw else
      count ← for_list (profile_add_channel profile) (xmlChildren doc channels_node) 0;
      chs ← call (λ t, P ← get_profile t profile; Ok (t, pr_channels P));
      if decide (chs = []) then throw else mret count
  | None => throw
  end.

Definition profile_add_child (process_profile : option loc → xmlNode doc → M loc) (profile : loc) node (_ : ()) : M () :=
  if negb (xmlIsElement doc node) then mret ()
  else if decide (xmlName doc node ≠ str_profile) then throw
  else child ← process_profile (Some profile) node; run (addProfile profile child).

Definition profile_parse_subprofiles (process_profile : option loc → xmlNode doc → M loc) (profile : loc) root : M () :=
  let '(cnt, subprofiles_node) := xml_find_uniq_element root str_subprofileList in
  if decide (cnt > 1) then throw
  else match subprofiles_node with
  | None => mret ()
  | Some subprofiles_node => for_list (profile_add_child process_profile profile) (xmlChildren doc subprofiles_node) ()
  end.

(** [fuel] bounds the height of the document. *)
Fixpoint process_profile (fuel : nat) (parent : option loc) root : M loc :=
  match fuel with
  | O => λ _, OutOfFuel
  | S fuel =>
      type ← profile_parse_type root;
      name ← or_throw (xmlGetProp doc root str_name);
      profile ← call (Profile_new name type);
      _ ← on_throw (_ ← run (setParent profile parent);
                    dir ← profile_parse_directory root;
                    _ ← run (setDirectory profile dir);
                    _ ← profile_parse_channels profile root;
                    profile_parse_subprofiles (process_profile fuel) profile root)
            (λ t, Profile_delete (S fuel) t profile);
      mret profile
  end.

(** The nodes of the document from its root element on; the first profile is taken. *)
Fixpoint find_root_profile (fuel : nat) (nodes : list (xmlNode doc)) : M (option loc) :=
  match nodes with
  | [] => mret None
  | node :: nodes =>
      if negb (xmlIsElement doc node) then find_root_profile fuel nodes
      else if decide (xmlName doc node = str_profile) then p ← process_profile fuel None node; mret (Some p)
      else find_root_profile fuel nodes
  end.

Definition process_profile_xml (fuel : nat) (nodes : list (xmlNode doc)) (t : tree) : res (tree * option loc) :=
  x ← find_root_profile fuel nodes t;
  match x with
  | (t, Some (Some rootProfile)) => t ← Profile_updatePathName fuel t rootProfile; Ok (t, Some rootProfile)
  | (t, _) => Ok (t, None)
  end.
End document.
End profiles.

Arguments Profile : clear implicits.
Arguments Channel filter : clear implicits.
Arguments tree filter : clear implicits.

(** ** Theory: the shape of a tree *)

Inductive ptree := PNode (p : loc) (cs : list loc) (subs : list ptree).

Section ptree_ind.
Context (P : ptree → Prop) (HP : ∀ p cs subs, Forall P subs → P (PNode p cs subs)).

Fixpoint ptree_ind' (x : ptree) : P x :=
  match x with
  | PNode p cs subs =>
      HP p cs subs ((fix go (ys : list ptree) : Forall P ys :=
        match ys with [] => Forall_nil_2 P | y :: ys => Forall_cons_2 P y ys (ptree_ind' y) (go ys) end) subs)
  end.
End ptree_ind.

Definition proot (x : ptree) : loc := let 'PNode p _ _ := x in p.
Definition pchannels (x : ptree) : list loc := let 'PNode _ cs _ := x in cs.
Fixpoint plocs (x : ptree) : list loc := let 'PNode p _ subs := x in p :: mjoin (plocs <$> subs).
Fixpoint clocs (x : ptree) : list loc := let 'PNode _ cs subs := x in cs ++ mjoin (clocs <$> subs).
Fixpoint height (x : ptree) : nat := let 'PNode _ _ subs := x in S (foldr max 0%nat (height <$> subs)).

Section own.
Context {filter : Type}.
Implicit Types (t : tree filter) (x y : ptree) (P Q : Profile) (C D : Channel filter) (p q c d : loc).

Definition channel_at t p c : Prop := ∃ C, cheap t !! c = Some C ∧ ch_profile C = Some p.
Definition node_at t (parent : option loc) p cs (children : list loc) : Prop :=
  ∃ P, pheap t !! p = Some P ∧ pr_parent P = parent ∧ pr_channels P = cs ∧ pr_children P = children.

(** The tree [x] is in the heap. *)
Fixpoint own t (parent : option loc) x : Prop :=
  let 'PNode p cs subs := x in
  node_at t parent p cs (proot <$> subs) ∧ Forall (channel_at t p) cs ∧
  foldr and True ((own t (Some p)) <$> subs).

Lemma own_node t parent p cs subs :
  own t parent (PNode p cs subs) ↔
  node_at t parent p cs (proot <$> subs) ∧ Forall (channel_at t p) cs ∧ Forall (own t (Some p)) subs.
Proof.
  cbn. assert (foldr and True (own t (Some p) <$> subs) ↔ Forall (own t (Some p)) subs) as ->; [|done].
  induction subs as [|y subs IH]; cbn; [by split|]. rewrite Forall_cons, <-IH. done.
Qed.

Lemma elem_of_plocs p cs subs q : q ∈ plocs (PNode p cs subs) ↔ q = p ∨ ∃ y, y ∈ subs ∧ q ∈ plocs y.
Proof.
  cbn. rewrite elem_of_cons, list_elem_of_join. setoid_rewrite list_elem_of_fmap. naive_solver.
Qed.

Lemma elem_of_clocs p cs subs c : c ∈ clocs (PNode p cs subs) ↔ c ∈ cs ∨ ∃ y, y ∈ subs ∧ c ∈ clocs y.
Proof.
  cbn. rewrite elem_of_app, list_elem_of_join. setoid_rewrite list_elem_of_fmap. naive_solver.
Qed.

Lemma proot_in x : proot x ∈ plocs x.
Proof. destruct x. apply elem_of_plocs. by left. Qed.

(** The part of the heap that a tree occupies decides whether it is there. *)
Lemma own_agree x : ∀ t t' parent,
  (∀ q, q ∈ plocs x → pheap t' !! q = pheap t !! q) →
  (∀ c p, c ∈ clocs x → channel_at t p c → channel_at t' p c) →
  own t parent x → own t' parent x.
Proof.
  induction x as [p cs subs IH] using ptree_ind'. intros t t' parent Hp Hc. rewrite !own_node. intros ((P & HP & HP') & Hcs & Hs).
  split_and!.
  - exists P. by rewrite Hp by (apply elem_of_plocs; by left).
  - apply Forall_forall. intros c Hin. apply Hc; [apply elem_of_clocs; by left|]. by apply (Forall_elem Hcs).
  - apply Forall_forall. intros y Hy. apply (Forall_elem IH Hy t); [| |by apply (Forall_elem Hs)].
    + intros q Hq. apply Hp, elem_of_plocs. right. eauto.
    + intros c p' Hin. apply Hc, elem_of_clocs. right. eauto.
Qed.

(** Everything of a tree is allocated, and a channel belongs to a profile of it. *)
Lemma own_allocated x : ∀ t parent, own t parent x →
  (∀ q, q ∈ plocs x → is_Some (pheap t !! q)) ∧
  (∀ c, c ∈ clocs x → ∃ p, p ∈ plocs x ∧ channel_at t p c).
Proof.
  induction x as [p cs subs IH] using ptree_ind'. intros t parent. rewrite own_node. intros ((P & HP & _) & Hcs & Hs).
  split.
  - intros q [->|(y & Hy & Hq)]%elem_of_plocs; [by eexists|].
    by apply (Forall_elem IH Hy t (Some p) (Forall_elem Hs Hy)).
  - intros c [Hc|(y & Hy & Hc)]%elem_of_clocs.
    + exists p. split; [apply elem_of_plocs; by left|]. by apply (Forall_elem Hcs).
    + destruct (Forall_elem IH Hy t (Some p) (Forall_elem Hs Hy)) as [_ H].
      destruct (H c Hc) as (p' & Hp' & Hat). exists p'. split; [|done]. apply elem_of_plocs. eauto.
Qed.

End own.

(** ** Theory: how a heap changes *)

Section extends.
Context {filter : Type}.
Implicit Types (t : tree filter) (x y : ptree) (P Q : Profile) (C D : Channel filter) (p q c d : loc).

(** Channels that differ in their listeners only. *)
Definition same_but_listeners C D : Prop := D = with_listeners (ch_listeners D) C.

#[export] Instance same_but_listeners_preorder : PreOrder same_but_listeners.
Proof.
  split; [by intros []|]. intros [] [] [] H1 H2. unfold same_but_listeners, with_listeners in *. cbn in *. congruence.
Qed.

(** The profiles [ps] and the channels [cs] are new, and of what was there only listeners
    have changed. *)
Record extends t t' (ps cs : list loc) : Prop := {
  ex_new_profile q : q ∈ ps → pheap t !! q = None ∧ is_Some (pheap t' !! q);
  ex_old_profile q : q ∉ ps → pheap t' !! q = pheap t !! q;
  ex_new_channel c : c ∈ cs → cheap t !! c = None ∧ is_Some (cheap t' !! c);
  ex_old_channel c : c ∉ cs → option_Forall2 same_but_listeners (cheap t !! c) (cheap t' !! c)
}.

Lemma extends_refl t : extends t t [] [].
Proof. split; [by intros ? ?%not_elem_of_nil|done|by intros ? ?%not_elem_of_nil|]. intros c _. destruct (cheap t !! c); by constructor. Qed.

Lemma extends_trans t1 t2 t3 ps cs ps' cs' : extends t1 t2 ps cs → extends t2 t3 ps' cs' →
  extends t1 t3 (ps ++ ps') (cs ++ cs').
Proof.
  intros [A1 A2 A3 A4] [B1 B2 B3 B4]. split.
  - intros q [Hq|Hq]%elem_of_app.
    + destruct (A1 q Hq) as [? Hs]. split; [done|]. destruct (decide (q ∈ ps')) as [Hq'|Hq']; [by apply B1|by rewrite B2].
    + destruct (B1 q Hq) as [Hn Hs]. split; [|done]. destruct (decide (q ∈ ps)) as [Hq'|Hq']; [|by rewrite <-A2].
      destruct (A1 q Hq') as [_ [? ?]]. congruence.
  - intros q [H1 H2]%not_elem_of_app. by rewrite B2, A2.
  - intros c [Hc|Hc]%elem_of_app.
    + destruct (A3 c Hc) as [? Hs]. split; [done|]. destruct (decide (c ∈ cs')) as [Hc'|Hc']; [by apply B3|].
      destruct Hs as [C E]. pose proof (B4 c Hc') as Hb. rewrite E in Hb. inv Hb. by eexists.
    + destruct (B3 c Hc) as [Hn Hs]. split; [|done]. destruct (decide (c ∈ cs)) as [Hc'|Hc'].
      * destruct (A3 c Hc') as [_ [? ?]]. congruence.
      * pose proof (A4 c Hc') as Hb. rewrite Hn in Hb. by inv Hb.
  - intros c [H1 H2]%not_elem_of_app. specialize (A4 c H1). specialize (B4 c H2).
    destruct A4 as [C D HCD|]; inv B4; constructor. etrans; eassumption.
Qed.

Lemma extends_profile t t' ps cs q Q : extends t t' ps cs → pheap t !! q = Some Q → pheap t' !! q = Some Q.
Proof.
  intros [H1 H2 _ _] E. destruct (decide (q ∈ ps)) as [Hq|Hq]; [|by rewrite H2].
  destruct (H1 q Hq). congruence.
Qed.

Lemma extends_channel t t' ps cs c C : extends t t' ps cs → cheap t !! c = Some C →
  ∃ C', cheap t' !! c = Some C' ∧ same_but_listeners C C'.
Proof.
  intros [_ _ H3 H4] E. destruct (decide (c ∈ cs)) as [Hc|Hc]; [destruct (H3 c Hc); congruence|].
  specialize (H4 c Hc). rewrite E in H4. inv H4. by eexists.
Qed.

Lemma extends_channel_at t t' ps cs p c : extends t t' ps cs → channel_at t p c → channel_at t' p c.
Proof.
  intros He (C & E & Hp). destruct (extends_channel _ _ _ _ _ _ He E) as (C' & E' & HC).
  exists C'. split; [done|]. rewrite HC. done.
Qed.

Lemma extends_own t t' ps cs parent x : extends t t' ps cs → own t parent x → own t' parent x.
Proof.
  intros He Ho. apply (own_agree x t); [| |done].
  - intros q Hq. destruct (own_allocated x t parent Ho) as [Ha _]. destruct (Ha q Hq) as [Q E].
    by rewrite E, (extends_profile _ _ _ _ _ _ He E).
  - intros c p _. by apply (extends_channel_at _ _ _ _ _ _ He).
Qed.

(** Writing to a new profile or to a new channel. *)
Lemma extends_put_profile t t' ps cs p P : extends t t' ps cs → p ∈ ps → extends t (put_profile t' p P) ps cs.
Proof.
  intros [H1 H2 H3 H4] Hp. split; [| |done..]; intros q Hq; cbn [put_profile pheap].
  - destruct (H1 q Hq) as [? ?]. split; [done|]. destruct (decide (q = p)) as [->|]; [rewrite lookup_insert_eq; by eexists|].
    by rewrite lookup_insert_ne.
  - rewrite lookup_insert_ne by (intros ->; done). by apply H2.
Qed.

Lemma own_put_profile t parent x p P : p ∉ plocs x → own t parent x → own (put_profile t p P) parent x.
Proof.
  intros Hp Ho. apply (own_agree x t); [|by intros|done]. intros q Hq. cbn [put_profile pheap].
  by rewrite lookup_insert_ne by (intros ->; done).
Qed.
End extends.

(** ** Theory: deleting a tree *)

Section delete.
Context {filter : Type}.
Implicit Types (t : tree filter) (x y : ptree).

(** The heap without the profiles [ps] and the channels [cs]. *)
Definition without t t' (ps cs : list loc) : Prop :=
  (∀ q, pheap t' !! q = if decide (q ∈ ps) then None else pheap t !! q) ∧
  (∀ c, cheap t' !! c = if decide (c ∈ cs) then None else cheap t !! c).

Lemma without_own t t' ps cs parent x : without t t' ps cs → own t parent x →
  (∀ q, q ∈ plocs x → q ∉ ps) → (∀ c, c ∈ clocs x → c ∉ cs) → own t' parent x.
Proof.
  intros [H1 H2] Ho Hp Hc. apply (own_agree x t); [| |done].
  - intros q Hq. rewrite H1, decide_False; auto.
  - intros c p Hin (C & E & HC). exists C. rewrite H2, decide_False; auto.
Qed.

Lemma height_sub p cs subs y n : y ∈ subs → (height (PNode p cs subs) ≤ S n)%nat → (height y ≤ n)%nat.
Proof.
  intros Hy. cbn [height]. intros H%le_S_n. revert H. induction Hy as [|y z subs _ IH]; cbn; lia.
Qed.

Lemma without_trans t1 t2 t3 ps cs ps' cs' : without t1 t2 ps cs → without t2 t3 ps' cs' →
  without t1 t3 (ps ++ ps') (cs ++ cs').
Proof.
  intros [A1 A2] [B1 B2]. split; intros q; [rewrite B1, A1|rewrite B2, A2]; repeat case_decide; try done;
    repeat match goal with H : context [_ ++ _] |- _ => rewrite elem_of_app in H end; naive_solver.
Qed.

Lemma Profile_delete_spec x : ∀ fuel t parent, own t parent x → NoDup (plocs x) → NoDup (clocs x) → (height x ≤ fuel)%nat →
  ∃ t', Profile_delete fuel t (proot x) = Ok t' ∧ without t t' (plocs x) (clocs x).
Proof.
  induction x as [p cs subs IH] using ptree_ind'. intros [|fuel] t parent Ho Hp Hc Hf; [cbn in Hf; lia|].
  apply own_node in Ho as ((P & HP & _ & HPc & HPs) & Hcs & Hs). cbn [proot Profile_delete].
  unfold get_profile, deref. rewrite HP. cbn [or_fault]. rewrite res_bind_ret, HPc, HPs.
  cbn [plocs clocs] in Hp, Hc. apply NoDup_app in Hc as (Hc1 & Hc2 & Hc3). apply NoDup_cons in Hp as [Hp1 Hp2].
  (* the channels *)
  destruct (fold_res_ind (λ t c, Channel_delete c t) (λ l t', without t t' [] l) cs t) as (t1 & -> & H1).
  { by split; intros q; rewrite decide_False by apply not_elem_of_nil. }
  { intros l1 a l2 t' E [W1 W2]. rewrite E in Hcs, Hc1. apply Forall_app in Hcs as [_ [ (C & EC & _) _]%Forall_cons].
    apply NoDup_app in Hc1 as (_ & Hdis & _). assert (a ∉ l1) as Ha by (intros Ha; apply (Hdis a Ha); left).
    unfold Channel_delete, get_channel, deref. rewrite W2, decide_False, EC by done. eexists. split; [done|]. split; cbn.
    - done.
    - intros c. destruct (decide (c = a)) as [->|Hne].
      + rewrite lookup_delete_eq, decide_True; [done|]. apply elem_of_app. right. by left.
      + rewrite lookup_delete_ne, W2 by done. destruct (decide (c ∈ l1)) as [Hin|Hin].
        * rewrite decide_True; [done|]. apply elem_of_app. by left.
        * rewrite decide_False; [done|]. rewrite elem_of_app, list_elem_of_singleton. naive_solver. }
  rewrite res_bind_ret, fold_res_fmap.
  (* the subprofiles *)
  destruct (fold_res_ind (λ t y, Profile_delete fuel t (proot y))
    (λ l t', without t t' (mjoin (plocs <$> l)) (cs ++ mjoin (clocs <$> l))) subs t1) as (t2 & -> & H2).
  { destruct H1 as [W1 W2]. cbn [fmap list_fmap mjoin]. by rewrite app_nil_r. }
  { intros l1 y l2 t' E Hw. rewrite E in Hp2, Hc3.
    destruct (NoDup_mjoin_split plocs l1 y l2 Hp2) as [Hpy Hpd]. destruct (NoDup_mjoin_split clocs l1 y l2 Hc3) as [Hcy Hcd].
    assert (y ∈ subs) as Hy by (rewrite E; apply elem_of_app; right; left).
    destruct (Forall_elem IH Hy fuel t' (Some p)) as (t'' & -> & H2); [|done|done|by apply (height_sub p cs subs)|].
    { apply (without_own _ _ _ _ _ _ Hw (Forall_elem Hs Hy)).
      - intros q Hq. by apply Hpd.
      - intros c Hin [Hcs'|Hl]%elem_of_app; [|by destruct (Hcd c Hin)]. apply (Hc2 c Hcs').
        rewrite E, fmap_app, join_app, fmap_cons, mjoin_cons, !elem_of_app. auto. }
    exists t''. split; [done|]. rewrite !mjoin_fmap_snoc, app_assoc. exact (without_trans _ _ _ _ _ _ _ Hw H2). }
  rewrite res_bind_ret. eexists. split; [done|]. destruct H2 as [W1 W2]. split; cbn [pheap cheap]; [|done].
  intros q. cbn [plocs]. destruct (decide (q = p)) as [->|Hne].
  - rewrite lookup_delete_eq, decide_True; [done|left].
  - rewrite lookup_delete_ne, W1 by done. apply decide_ext. rewrite elem_of_cons. naive_solver.
Qed.
End delete.

(** ** Theory: sources and listeners *)

Section links.
Context {filter : Type}.
Implicit Types (t : tree filter) (C S L : Channel filter) (P : Profile) (c s l p q : loc).

(** A channel has a listener exactly when the listener has it as a source, and the sources
    of a channel are channels of the parent profile. *)
Record links_ok t : Prop := {
  lk_dual c C l : cheap t !! c = Some C → l ∈ ch_listeners C ↔ ∃ L, cheap t !! l = Some L ∧ c ∈ ch_sources L;
  lk_source c C s : cheap t !! c = Some C → s ∈ ch_sources C →
    ∃ p P q, ch_profile C = Some p ∧ pheap t !! p = Some P ∧ pr_parent P = Some q ∧ channel_at t q s
}.

(** The channel [c] has got the sources [added]; other channels have changed in their
    listeners only. *)
Record linked_to c (added : gset loc) t t' : Prop := {
  lt_profiles : pheap t' = pheap t;
  lt_channel C : cheap t !! c = Some C → cheap t' !! c = Some (with_sources (ch_sources C ∪ added) C);
  lt_others d : d ≠ c → option_Forall2 same_but_listeners (cheap t !! d) (cheap t' !! d);
  lt_links : links_ok t'
}.

Lemma linked_to_refl c t : links_ok t → linked_to c ∅ t t.
Proof.
  intros Hl. split; [done| | |done].
  - intros C E. rewrite E. f_equal. unfold with_sources. rewrite (right_id_L ∅ (∪)). by destruct C.
  - intros d _. destruct (cheap t !! d); by constructor.
Qed.

Lemma linked_to_trans c a1 a2 t1 t2 t3 : linked_to c a1 t1 t2 → linked_to c a2 t2 t3 → linked_to c (a1 ∪ a2) t1 t3.
Proof.
  intros [A1 A2 A3 A4] [B1 B2 B3 B4]. split; [congruence| | |done].
  - intros C E. rewrite (B2 _ (A2 C E)). f_equal. unfold with_sources. cbn. by rewrite (assoc_L (∪)).
  - intros d Hd. specialize (A3 d Hd). specialize (B3 d Hd). destruct A3 as [? ? ?|]; inv B3; constructor. etrans; eassumption.
Qed.

Lemma linked_to_channel_at c added t t' q s : linked_to c added t t' → channel_at t q s → channel_at t' q s.
Proof.
  intros [_ H2 H3 _] (S & E & Hq). destruct (decide (s = c)) as [->|Hne].
  - eexists. split; [by apply H2|done].
  - specialize (H3 s Hne). rewrite E in H3. inversion H3 as [? S' HS Ex E'|]. exists S'. split; [done|]. by rewrite HS.
Qed.

Lemma addListener_spec t s c S C p P q : links_ok t → s ≠ c →
  cheap t !! s = Some S → ch_profile S = Some q → cheap t !! c = Some C → ch_profile C = Some p →
  pheap t !! p = Some P → pr_parent P = Some q →
  ∃ t', addListener s c t = Ok t' ∧ linked_to c {[s]} t t'.
Proof.
  intros [Hd Hs] Hne ES HS EC HC EP HP. unfold addListener, upd_channel, get_channel, deref. rewrite ES. cbn [or_fault].
  rewrite !res_bind_ret. cbn [put_channel cheap]. rewrite lookup_insert_ne, EC by done. cbn [or_fault]. rewrite res_bind_ret.
  set (S' := with_listeners ({[c]} ∪ ch_listeners S) S). set (C' := with_sources ({[s]} ∪ ch_sources C) C).
  eexists. split; [done|].
  assert (∀ d D', <[c:=C']> (<[s:=S']> (cheap t)) !! d = Some D' → ∃ D, cheap t !! d = Some D ∧ ch_profile D' = ch_profile D ∧
    ch_listeners D' = (if decide (d = s) then {[c]} ∪ ch_listeners D else ch_listeners D) ∧
    ch_sources D' = (if decide (d = c) then {[s]} ∪ ch_sources D else ch_sources D)) as Hget.
  { intros d D'. destruct (decide (d = c)) as [->|Hdc]; [|rewrite lookup_insert_ne by done; destruct (decide (d = s)) as [->|Hds]].
    - rewrite lookup_insert_eq. intros [= <-]. exists C. rewrite (decide_False (P := c = s)) by done. by split_and!.
    - rewrite lookup_insert_eq. intros [= <-]. exists S. by split_and!.
    - rewrite lookup_insert_ne by done. intros E. exists D'. by split_and!. }
  assert (∀ d, is_Some (cheap t !! d) → is_Some (<[c:=C']> (<[s:=S']> (cheap t)) !! d)) as Hlive.
  { intros d ?. destruct (decide (d = c)) as [->|]; [rewrite lookup_insert_eq; by eexists|rewrite lookup_insert_ne by done].
    destruct (decide (d = s)) as [->|]; [rewrite lookup_insert_eq; by eexists|by rewrite lookup_insert_ne]. }
  split; [done| | |].
  - intros C0 EC0. cbn [put_channel cheap]. rewrite lookup_insert_eq. assert (C0 = C) as -> by congruence.
    unfold C'. by rewrite (comm_L (∪) {[s]}).
  - intros d Hdc. cbn [put_channel cheap]. rewrite lookup_insert_ne by done. destruct (decide (d = s)) as [->|].
    + rewrite lookup_insert_eq, ES. by constructor.
    + rewrite lookup_insert_ne by done. destruct (cheap t !! d); by constructor.
  - split; cbn [put_channel cheap pheap].
    + intros d D' l ED. destruct (Hget d D' ED) as (D & E & _ & -> & _).
      assert (l ∈ (if decide (d = s) then {[c]} ∪ ch_listeners D else ch_listeners D) ↔
        l ∈ ch_listeners D ∨ (d = s ∧ l = c)) as -> by (case_decide; set_solver).
      rewrite (Hd d D l E). split.
      * intros [(L & EL & HL)|[-> ->]].
        -- destruct (Hlive l) as [L' EL']; [by eexists|]. exists L'. split; [done|].
           destruct (Hget l L' EL') as (L0 & EL0 & _ & _ & ->). assert (L0 = L) as -> by congruence. case_decide; set_solver.
        -- exists C'. rewrite lookup_insert_eq. split; [done|]. cbn. set_solver.
      * intros (L' & EL' & HL'). destruct (Hget l L' EL') as (L & EL & _ & _ & Esrc). rewrite Esrc in HL'.
        case_decide as Hl; [|left; by exists L]. apply elem_of_union in HL' as [->%elem_of_singleton|HL']; [by right|left; by exists L].
    + intros d D' s0 ED Hs0. destruct (Hget d D' ED) as (D & E & Epr & _ & Esrc). rewrite Esrc in Hs0.
      assert (∀ q0 s1, channel_at t q0 s1 → channel_at (put_channel (put_channel t s S') c C') q0 s1) as Hat.
      { intros q0 s1 (X & EX & HX). destruct (Hlive s1) as [X' EX']; [by eexists|]. exists X'. split; [done|].
        destruct (Hget s1 X' EX') as (X0 & EX0 & -> & _). congruence. }
      rewrite Epr. case_decide as Hdc; [apply elem_of_union in Hs0 as [->%elem_of_singleton|Hs0]|].
      * subst d. assert (D = C) as -> by congruence. exists p, P, q. split_and!; [done..|]. apply Hat. by exists S.
      * destruct (Hs d D s0 E Hs0) as (p0 & P0 & q0 & ? & ? & ? & ?). exists p0, P0, q0. auto.
      * destruct (Hs d D s0 E Hs0) as (p0 & P0 & q0 & ? & ? & ? & ?). exists p0, P0, q0. auto.
Qed.
End links.

(** ** Theory: functions that may throw *)

Section throwing.
Context {filter : Type}.
Implicit Types (t s : tree filter).
#[local] Existing Instance M_ret.
#[local] Existing Instance M_bind.

Lemma bind_done {A B} (m : M A) (k : A → M B) t t' a : m t = Ok (t', Some a) → (m ≫= k) t = k a t'.
Proof. intros E. unfold mbind, M_bind. by rewrite E. Qed.

Lemma bind_thrown {A B} (m : M A) (k : A → M B) t t' : m t = Ok (t', None) → (m ≫= k) t = Ok (t', None).
Proof. intros E. unfold mbind, M_bind. by rewrite E. Qed.

Lemma run_done (f : tree filter → res (tree filter)) t t' : f t = Ok t' → run f t = Ok (t', Some ()).
Proof. intros E. unfold run. by rewrite E. Qed.

Lemma call_done {A} (f : tree filter → res (tree filter * A)) t t' a : f t = Ok (t', a) → call f t = Ok (t', Some a).
Proof. intros E. unfold call. by rewrite E. Qed.

(** The result of a function that ends normally with [Q] or throws with [E]. *)
Definition ends {A} (r : res (tree filter * option A)) (Q : A → tree filter → Prop) (E : tree filter → Prop) : Prop :=
  (∃ a t', r = Ok (t', Some a) ∧ Q a t') ∨ (∃ t', r = Ok (t', None) ∧ E t').

Lemma ends_ret {A} (a : A) t Q E : Q a t → ends ((mret a : M A) t) Q E.
Proof. intros H. left. by exists a, t. Qed.

Lemma ends_throw {A} t (Q : A → _) E : E t → ends ((throw : M A) t) Q E.
Proof. intros H. right. by exists t. Qed.

Lemma ends_bind {A B} (m : M A) (k : A → M B) t Q E Q' :
  ends (m t) Q' E → (∀ a t', Q' a t' → ends (k a t') Q E) → ends ((m ≫= k) t) Q E.
Proof.
  intros [(a & t' & Em & Ha)|(t' & Em & HE)] Hk.
  - rewrite (bind_done _ _ _ _ _ Em). by apply Hk.
  - rewrite (bind_thrown _ _ _ _ Em). right. by exists t'.
Qed.

Lemma ends_mono {A} (r : res (tree filter * option A)) (Q Q' : A → _) (E E' : _ → Prop) : ends r Q E →
  (∀ a t, Q a t → Q' a t) → (∀ t, E t → E' t) → ends r Q' E'.
Proof. intros [(a & t' & ? & ?)|(t' & ? & ?)] HQ HE; [left; exists a, t'|right; exists t']; auto. Qed.

Lemma ends_run (f : tree filter → res (tree filter)) t (Q : () → _) E :
  (∃ t', f t = Ok t' ∧ Q () t') → ends (run f t) Q E.
Proof. intros (t' & Ef & HQ). left. exists (), t'. split; [by apply run_done|done]. Qed.

Lemma ends_call {A} (f : tree filter → res (tree filter * A)) t Q E :
  (∃ a t', f t = Ok (t', a) ∧ Q a t') → ends (call f t) Q E.
Proof. intros (a & t' & Ef & HQ). left. exists a, t'. split; [by apply call_done|done]. Qed.

Lemma ends_or_throw {A} (o : option A) t Q E :
  match o with Some a => Q a t | None => E t end → ends (or_throw o t) Q E.
Proof. destruct o; [by apply ends_ret|by apply ends_throw]. Qed.

Lemma ends_for_list {A X} (f : A → X → M X) (I : list A → X → tree filter → Prop) E l x t : I [] x t →
  (∀ l1 a l2 y s, l = l1 ++ a :: l2 → I l1 y s → ends (f a y s) (I (l1 ++ [a])) E) →
  ends (for_list f l x t) (I l) E.
Proof.
  intros H0 Hs. assert (∀ l2 l1 y s, l = l1 ++ l2 → I l1 y s → ends (for_list f l2 y s) (I l) E) as H;
    [|by apply (H l [])].
  induction l2 as [|a l2 IH]; intros l1 y s El Hy; cbn [for_list].
  - rewrite app_nil_r in El. subst. by apply ends_ret.
  - apply (ends_bind _ _ _ _ _ (I (l1 ++ [a]))); [by apply (Hs l1 a l2)|].
    intros y' s' Hy'. apply (IH (l1 ++ [a])); [by rewrite <-app_assoc|done].
Qed.

Lemma ends_on_throw {A} (m : M A) (handler : tree filter → res (tree filter)) t Q E E' :
  ends (m t) Q E' → (∀ t', E' t' → ∃ t'', handler t' = Ok t'' ∧ E t'') → ends (on_throw m handler t) Q E.
Proof.
  intros [(a & t' & Em & HQ)|(t' & Em & HE)] Hh; unfold on_throw; rewrite Em, res_bind_ret.
  - left. by exists a, t'.
  - destruct (Hh t' HE) as (t'' & -> & H). right. by exists t''.
Qed.
End throwing.

(** ** Theory: the sources of a channel *)

Section sources.
Context {filter : Type}.
Implicit Types (t : tree filter) (C S : Channel filter) (P : Profile) (c s p q : loc).
#[local] Existing Instance M_ret.
#[local] Existing Instance M_bind.

(** What a name stands for: all the channels or the first one of that name. *)
Definition named t s : option bytes := ch_name <$> cheap t !! s.
Definition source_of t (cs : list loc) (name : bytes) : option (gset loc) :=
  if decide (trim name = str_star) then Some (list_to_set cs)
  else (λ '(_, s), {[s]}) <$> list_find (λ s, named t s = Some (trim name)) cs.

Fixpoint sources_of t (cs : list loc) (lines : list bytes) : option (gset loc) :=
  match lines with
  | [] => Some ∅
  | line :: lines => s ← source_of t cs line; r ← sources_of t cs lines; Some (s ∪ r)
  end.

Lemma sources_of_one t cs line : sources_of t cs [line] = source_of t cs line.
Proof. cbn [sources_of]. destruct (source_of t cs line); cbn; [|done]. by rewrite (right_id_L ∅ (∪)). Qed.

Lemma sources_of_app t cs l1 l2 :
  sources_of t cs (l1 ++ l2) = (s ← sources_of t cs l1; r ← sources_of t cs l2; Some (s ∪ r)).
Proof.
  induction l1 as [|line l1 IH]; cbn [sources_of app]; [cbn; destruct (sources_of t cs l2); cbn; by rewrite ?(left_id_L ∅ (∪))|].
  rewrite IH. destruct (source_of t cs line), (sources_of t cs l1); cbn; [|done..].
  destruct (sources_of t cs l2); cbn; by rewrite ?(assoc_L (∪)).
Qed.

Lemma find_channel_by_spec t (f : Channel filter → bool) cs : Forall (λ s, is_Some (cheap t !! s)) cs →
  find_channel_by f cs t = Ok (snd <$> list_find (λ s, f <$> cheap t !! s = Some true) cs).
Proof.
  induction 1 as [|s cs [S E] _ IH]; [done|]. cbn [find_channel_by list_find]. unfold get_channel, deref. rewrite E.
  cbn [or_fault]. rewrite res_bind_ret. change (f <$> Some S) with (Some (f S)). destruct (f S).
  - rewrite decide_True by done. done.
  - rewrite decide_False by done. rewrite IH. by destruct (list_find _ cs) as [[i x]|].
Qed.

Section one_channel.
Context (c p q : loc) (P Q : Profile) (t0 : tree filter).
Context (Hc : channel_at t0 p c) (HP : pheap t0 !! p = Some P) (Hpq : pr_parent P = Some q) (HQ : pheap t0 !! q = Some Q).
Context (Hcs : Forall (channel_at t0 q) (pr_channels Q)) (Hnew : c ∉ pr_channels Q).

Lemma linked_to_step t added s : linked_to c added t0 t → s ∈ pr_channels Q →
  ∃ t', addListener s c t = Ok t' ∧ linked_to c (added ∪ {[s]}) t0 t'.
Proof.
  intros Hl Hs. assert (s ≠ c) as Hne by (intros ->; done).
  destruct (linked_to_channel_at _ _ _ _ _ _ Hl (Forall_elem Hcs Hs)) as (S & ES & HS).
  destruct (linked_to_channel_at _ _ _ _ _ _ Hl Hc) as (C & EC & HC).
  destruct (addListener_spec t s c S C p P q (lt_links _ _ _ _ Hl) Hne ES HS EC HC) as (t' & E & Hl');
    [by rewrite (lt_profiles _ _ _ _ Hl)|done|].
  exists t'. split; [done|]. exact (linked_to_trans _ _ _ _ _ _ Hl Hl').
Qed.

Lemma linked_to_named t added s : linked_to c added t0 t → s ≠ c → named t s = named t0 s.
Proof.
  intros [_ _ H _] Hne. unfold named. destruct (H s Hne) as [C D ->|]; done.
Qed.

Lemma linked_to_source t added name : linked_to c added t0 t → source_of t (pr_channels Q) name = source_of t0 (pr_channels Q) name.
Proof.
  intros Hl. unfold source_of. case_decide; [done|]. f_equal.
  assert (∀ cs, c ∉ cs → list_find (λ s, named t s = Some (trim name)) cs = list_find (λ s, named t0 s = Some (trim name)) cs) as ->; [|done|done].
  induction cs as [|s cs IH]; [done|]. intros [Hs Hcs']%not_elem_of_cons. cbn [list_find].
  rewrite (linked_to_named t added s Hl) by congruence. by rewrite (IH Hcs').
Qed.

Lemma set_source_spec t added name : linked_to c added t0 t →
  ends (set_source c q name () t)
    (λ _ t', ∃ new, source_of t0 (pr_channels Q) name = Some new ∧ linked_to c (added ∪ new) t0 t')
    (λ t', t' = t ∧ source_of t0 (pr_channels Q) name = None).
Proof.
  intros Hl. rewrite <-(linked_to_source t added name Hl). unfold set_source.
  apply (ends_bind _ _ _ _ _ (λ X t', X = Q ∧ t' = t)).
  { apply ends_call. exists Q, t. unfold get_profile, deref. by rewrite (lt_profiles _ _ _ _ Hl), HQ. }
  intros X t' [-> ->]. unfold source_of. destruct (decide (trim name = str_star)) as [_|Hns].
  - apply (ends_mono _ (λ _ t', linked_to c (added ∪ list_to_set (pr_channels Q)) t0 t') _ (λ _, False)); [|by eauto|done].
    apply (ends_for_list _ (λ l _ t', linked_to c (added ∪ list_to_set l) t0 t')).
    + by rewrite list_to_set_nil, (right_id_L ∅ (∪)).
    + intros l1 a l2 y s E Hs. apply ends_run. destruct (linked_to_step _ _ a Hs) as (t' & Ea & Hl');
        [rewrite E; apply elem_of_app; right; left|].
      exists t'. split; [done|]. rewrite list_to_set_app_L. cbn. by rewrite (right_id_L ∅ (∪)), (assoc_L (∪)).
  - apply (ends_bind _ _ _ _ _ (λ x t', x = snd <$> list_find (λ s, named t s = Some (trim name)) (pr_channels Q) ∧ t' = t)).
    { apply ends_call. eexists _, t. split; [|by split]. rewrite find_channel_by_spec.
      - rewrite res_bind_ret. do 3 f_equal. apply list_find_ext. intros s. unfold named.
        destruct (cheap t !! s) as [S|]; cbn; [|done]. split; [intros [= H%bool_decide_eq_true]; by f_equal|].
        intros [= ->]. by rewrite bool_decide_true.
      - refine (Forall_impl _ _ _ Hcs _). intros s Hs.
        destruct (linked_to_channel_at _ _ _ _ q s Hl Hs) as (S' & ? & _). by eexists. }
    intros x t' [-> ->]. destruct (list_find _ _) as [[i s]|] eqn:Ef; [|by apply ends_throw].
    apply list_find_Some in Ef as (Ei & _ & _). apply ends_run.
    destruct (linked_to_step _ _ s Hl) as (t' & Ea & Hl'); [by eapply list_elem_of_lookup_2|]. exists t'. eauto.
Qed.

(** [setSources] fails exactly when a name is not that of a channel of the parent profile,
    and otherwise the channel gets the sources named. *)
Lemma setSources_spec str : links_ok t0 →
  ends (setSources c str t0)
    (λ _ t', ∃ new, sources_of t0 (pr_channels Q) (getlines COMMA [] str) = Some new ∧ linked_to c new t0 t')
    (λ t', sources_of t0 (pr_channels Q) (getlines COMMA [] str) = None ∧ ∃ new, linked_to c new t0 t').
Proof.
  intros Hl. unfold setSources. apply (ends_bind _ _ _ _ _ (λ x t', x = Some q ∧ t' = t0)).
  { apply ends_call. exists (Some q), t0. split; [|done]. destruct Hc as (C & EC & HC).
    unfold parent_of_channel, get_channel, get_profile, deref. rewrite EC. cbn [or_fault]. rewrite res_bind_ret, HC.
    cbn [or_fault]. rewrite res_bind_ret, HP. cbn [or_fault]. by rewrite !res_bind_ret, Hpq. }
  intros x t' [-> ->]. generalize (getlines COMMA [] str) as lines. intros lines.
  apply (ends_mono _ (λ _ t', ∃ new, sources_of t0 (pr_channels Q) lines = Some new ∧ linked_to c new t0 t') _
    (λ t', sources_of t0 (pr_channels Q) lines = None ∧ ∃ new, linked_to c new t0 t')); [|done..].
  apply (ends_for_list _ (λ l _ t', ∃ new, sources_of t0 (pr_channels Q) l = Some new ∧ linked_to c new t0 t')).
  - exists ∅. split; [done|]. by apply linked_to_refl.
  - intros l1 a l2 [] s E (new & En & Hs). eapply ends_mono; [apply (set_source_spec s new a Hs)|..]; cbn.
    + intros _ t' (new' & Ea & Hl'). exists (new ∪ new'). by rewrite sources_of_app, En, sources_of_one, Ea.
    + intros t' [-> Ea]. rewrite E, sources_of_app, En. cbn [sources_of]. rewrite Ea. eauto.
Qed.
End one_channel.

(** A channel of the root profile keeps no sources. *)
Lemma setSources_root c p P str t0 : channel_at t0 p c → pheap t0 !! p = Some P → pr_parent P = None →
  setSources c str t0 = Ok (t0, Some ()).
Proof.
  intros (C & EC & HC) HP Hpq. unfold setSources.
  assert (call (λ t, p ← parent_of_channel t c; Ok (t, p)) t0 = Ok (t0, Some None)) as E.
  { apply call_done. unfold parent_of_channel, get_channel, get_profile, deref. rewrite EC. cbn [or_fault].
    rewrite res_bind_ret, HC. cbn [or_fault]. rewrite res_bind_ret, HP. cbn [or_fault]. by rewrite !res_bind_ret, Hpq. }
  by rewrite (bind_done _ _ _ _ _ E).
Qed.
End sources.

(** ** Theory: processing a channel *)

Section process_channel.
Context {filter : Type} (doc : xml_api) (ipx_filter_parse : bytes → option filter) (utils_path_preprocessor : bytes → option bytes).
Implicit Types (t : tree filter) (C S : Channel filter) (P Q : Profile) (c s p q : loc) (root node : xmlNode doc).
#[local] Existing Instance M_ret.
#[local] Existing Instance M_bind.

(** Reading the document does not change the state. *)
Definition only_reads {A} (m : M (filter := filter) A) (R : A → Prop) : Prop :=
  ∀ t, ends (m t) (λ a t', t' = t ∧ R a) (λ t', t' = t).

Lemma reads_ret {A} (a : A) (R : A → Prop) : R a → only_reads (mret a) R.
Proof. intros H t. by apply ends_ret. Qed.
Lemma reads_throw {A} (R : A → Prop) : only_reads throw R.
Proof. intros t. by apply ends_throw. Qed.
Lemma reads_or_throw {A} (o : option A) (R : A → Prop) : (∀ a, o = Some a → R a) → only_reads (or_throw o) R.
Proof. intros H t. apply ends_or_throw. destruct o; [|done]. split; [done|by apply H]. Qed.
Lemma reads_bind {A B} (m : M A) (k : A → M B) R R' : only_reads m R → (∀ a, R a → only_reads (k a) R') → only_reads (m ≫= k) R'.
Proof.
  intros Hm Hk t. apply (ends_bind _ _ _ _ _ (λ a t', t' = t ∧ R a)); [apply Hm|].
  intros a t' [-> Ha]. by apply Hk.
Qed.

Create HintDb reads.
#[local] Hint Resolve reads_ret reads_throw : reads.

Lemma channel_parse_filter_reads root : only_reads (channel_parse_filter doc ipx_filter_parse root) (λ _, True).
Proof.
  unfold channel_parse_filter. destruct (xml_find_uniq_element doc root str_filter) as [cnt [node|] ]; [|by apply reads_ret].
  case_decide; [by apply reads_ret|]. destruct (xmlChildren doc node) as [|child l]; [by apply reads_ret|].
  case_decide; [apply reads_throw|]. destruct (xmlNodeIsText doc child); [|apply reads_throw].
  apply (reads_bind _ _ (λ _, True)); [by apply reads_or_throw|]. intros s _.
  apply (reads_bind _ _ (λ _, True)); [by apply reads_or_throw|]. intros f _. by apply reads_ret.
Qed.

Lemma reads_for_list {A X} (f : A → X → M X) l x : (∀ a x, only_reads (f a x) (λ _, True)) →
  only_reads (for_list f l x) (λ _, True).
Proof.
  intros H. revert x. induction l as [|a l IH]; intros x; cbn [for_list]; [by apply reads_ret|].
  apply (reads_bind _ _ (λ _, True)); [apply H|]. intros y _. apply IH.
Qed.

Lemma channel_parse_source_list_reads root : only_reads (channel_parse_source_list (filter := filter) doc root) (λ _, True).
Proof.
  unfold channel_parse_source_list. destruct (xml_find_uniq_element doc root str_sourceList) as [cnt [node|] ]; [|apply reads_throw].
  case_decide; [apply reads_throw|]. apply reads_for_list. intros a x. unfold channel_parse_source.
  destruct (negb _); [by apply reads_ret|]. case_decide; [apply reads_throw|].
  destruct (xmlChildren doc a) as [|child l]; [apply reads_throw|]. destruct (xmlNodeIsText doc child); [|apply reads_throw].
  destruct (xmlNodeGetContent doc child); by apply reads_ret.
Qed.

Lemma profile_parse_type_reads root : only_reads (profile_parse_type (filter := filter) doc root) (λ ty, ty ≠ PT_UNDEF).
Proof.
  unfold profile_parse_type. destruct (xml_find_uniq_element doc root str_type) as [cnt [node|] ]; [|apply reads_throw].
  case_decide; [apply reads_throw|]. apply (reads_bind _ _ (λ _, True)); [by apply reads_or_throw|]. intros s _.
  case_decide; [by apply reads_ret|]. case_decide; [by apply reads_ret|apply reads_throw].
Qed.

(** A directory is an absolute path that ends with a slash. *)
Definition directory_ok (dir : bytes) : Prop := head dir = Some SLASH ∧ list.last dir = Some SLASH.

Lemma profile_parse_directory_reads root :
  only_reads (profile_parse_directory (filter := filter) doc utils_path_preprocessor root) directory_ok.
Proof.
  unfold profile_parse_directory. destruct (xml_find_uniq_element doc root str_directory) as [cnt [node|] ]; [|apply reads_throw].
  case_decide; [apply reads_throw|]. apply (reads_bind _ _ (λ _, True)); [by apply reads_or_throw|]. intros s _.
  apply (reads_bind _ _ (λ _, True)); [by apply reads_or_throw|]. intros r _.
  destruct (decide (r = [])) as [|Hne]; [apply reads_throw|].
  destruct (decide (head r ≠ Some SLASH)) as [|Hh]; [apply reads_throw|]. apply reads_ret.
  apply dec_stable in Hh. destruct (decide (list.last r ≠ Some SLASH)) as [|Hl].
  - split; [by destruct r|]. by rewrite last_app.
  - split; [done|by apply dec_stable in Hl].
Qed.

(** *** The new channel *)

Lemma extends_new_channel t c C n m : cheap t !! c = None →
  extends t {| pheap := pheap t; cheap := <[c := C]> (cheap t); profiles_cnt := n; channels_cnt := m |} [] [c].
Proof.
  intros Hc. split; cbn [pheap cheap].
  - by intros q ?%not_elem_of_nil.
  - done.
  - intros d ->%list_elem_of_singleton. rewrite lookup_insert_eq. eauto.
  - intros d Hd%not_elem_of_cons. rewrite lookup_insert_ne by naive_solver. destruct (cheap t !! d); by constructor.
Qed.

Lemma links_new_channel t c C n m : links_ok t → cheap t !! c = None → ch_listeners C = ∅ → ch_sources C = ∅ →
  links_ok {| pheap := pheap t; cheap := <[c := C]> (cheap t); profiles_cnt := n; channels_cnt := m |}.
Proof.
  intros [Hd Hs] Hc HL HS. split; cbn [pheap cheap].
  - intros d D l. destruct (decide (d = c)) as [->|Hne].
    + rewrite lookup_insert_eq. intros [= <-]. rewrite HL. split; [set_solver|]. intros (L & EL & HcL).
      destruct (decide (l = c)) as [->|]; [rewrite lookup_insert_eq in EL; simplify_eq; set_solver|].
      rewrite lookup_insert_ne in EL by done. destruct (Hs l L c EL HcL) as (? & ? & ? & _ & _ & _ & (? & ? & _)). congruence.
    + rewrite lookup_insert_ne by done. intros E. rewrite (Hd d D l E). split; intros (L & EL & HdL); exists L.
      * rewrite lookup_insert_ne; [done|]. intros <-. congruence.
      * destruct (decide (l = c)) as [->|]; [rewrite lookup_insert_eq in EL; simplify_eq; set_solver|].
        by rewrite lookup_insert_ne in EL.
  - intros d D s. destruct (decide (d = c)) as [->|Hne].
    + rewrite lookup_insert_eq. intros [= <-]. rewrite HS. set_solver.
    + rewrite lookup_insert_ne by done. intros E Hin. destruct (Hs d D s E Hin) as (p & P & q & H1 & H2 & H3 & (X & EX & HX)).
      exists p, P, q. split_and!; [done..|]. exists X. split; [|done]. cbn [cheap]. rewrite lookup_insert_ne; [done|]. intros <-. congruence.
Qed.

Lemma extends_linked_to c new t t2 t' : extends t t2 [] [c] → linked_to c new t2 t' → extends t t' [] [c].
Proof.
  intros [_ H2 H3 H4] [L1 L2 L3 _]. split.
  - by intros q ?%not_elem_of_nil.
  - intros q Hq. by rewrite L1, H2.
  - intros d Hd. pose proof Hd as ->%list_elem_of_singleton. destruct (H3 c Hd) as [? [C E]]. split; [done|].
    rewrite (L2 C E). by eexists.
  - intros d Hd. specialize (H4 d Hd). assert (d ≠ c) as Hne by (intros ->; apply Hd; left). specialize (L3 d Hne).
    destruct H4 as [? ? ?|]; inv L3; constructor. etrans; eassumption.
Qed.

Lemma Channel_delete_new c t t' : extends t t' [] [c] → ∃ t'', Channel_delete c t' = Ok t'' ∧ extends t t'' [] [].
Proof.
  intros [_ H2 H3 H4]. destruct (H3 c ltac:(left)) as [Hn [C E]]. unfold Channel_delete, get_channel, deref. rewrite E.
  eexists. split; [done|]. split; cbn [pheap cheap].
  - by intros q ?%not_elem_of_nil.
  - done.
  - by intros d ?%not_elem_of_nil.
  - intros d _. destruct (decide (d = c)) as [->|Hne]; [rewrite lookup_delete_eq, Hn; constructor|].
    rewrite lookup_delete_ne by done. apply H4. intros ->%list_elem_of_singleton. done.
Qed.

(** What a profile has to be for channels to be added to it. *)
Definition profile_ready t p P : Prop :=
  pheap t !! p = Some P ∧
  match pr_parent P with
  | None => True
  | Some q => ∃ Q, pheap t !! q = Some Q ∧ Forall (channel_at t q) (pr_channels Q)
  end.

(** The channel that a node describes. *)
Definition channel_of root P C : Prop :=
  xmlGetProp doc root str_name = Some (ch_name C) ∧ ch_listeners C = ∅ ∧ (pr_parent P = None ↔ ch_sources C = ∅).

(** The state with the new channel, before its sources are set. *)
Section new_channel.
Context (t : tree filter) (p : loc) (P : Profile) (root : xmlNode doc) (name : bytes).
Context (Hready : profile_ready t p P) (Hlinks : links_ok t) (Hname : xmlGetProp doc root str_name = Some name).
Let c : loc := fresh (dom (cheap t)).
Let with_C (C : Channel filter) : tree filter :=
  {| pheap := pheap t; cheap := <[c := C]> (cheap t); profiles_cnt := profiles_cnt t; channels_cnt := u16 (channels_cnt t + 1) |}.
Let C0 (pr : option loc) (f : option filter) : Channel filter :=
  {| ch_id := channels_cnt t; ch_name := name; ch_pathName := name; ch_filter := f; ch_profile := pr;
     ch_listeners := ∅; ch_sources := ∅ |}.

Lemma fresh_channel : cheap t !! c = None.
Proof. apply not_elem_of_dom, is_fresh. Qed.

Lemma upd_new_channel C f : upd_channel (with_C C) c f = Ok (with_C (f C)).
Proof.
  unfold upd_channel, get_channel, deref, with_C. cbn [cheap]. rewrite lookup_insert_eq. cbn [or_fault].
  unfold put_channel. cbn [pheap cheap profiles_cnt channels_cnt]. by rewrite res_bind_ret, insert_insert_eq.
Qed.

Lemma new_channel_sources f str :
  ends (setSources c str (with_C (C0 (Some p) f)))
    (λ _ t', extends t t' [] [c] ∧ channel_at t' p c ∧ links_ok t' ∧
       ∃ C, cheap t' !! c = Some C ∧ ch_name C = name ∧ ch_listeners C = ∅ ∧ (pr_parent P = None → ch_sources C = ∅))
    (λ t', extends t t' [] [c]).
Proof.
  pose proof fresh_channel as Hfr. set (t2 := with_C _).
  assert (extends t t2 [] [c]) as He by by apply extends_new_channel.
  assert (links_ok t2) as Hl2 by by apply links_new_channel.
  assert (cheap t2 !! c = Some (C0 (Some p) f)) as EC by apply lookup_insert_eq.
  assert (channel_at t2 p c) as Hat by by eexists.
  destruct Hready as [HP Hpar]. destruct (pr_parent P) as [q|] eqn:Epar.
  - destruct Hpar as (Q & HQ & Hcs).
    assert (Forall (channel_at t2 q) (pr_channels Q)) as Hcs2.
    { refine (Forall_impl _ _ _ Hcs _). intros s. apply (extends_channel_at _ _ _ _ _ _ He). }
    assert (c ∉ pr_channels Q) as Hnew.
    { intros Hin. destruct (Forall_elem Hcs Hin) as (? & ? & _). congruence. }
    eapply ends_mono; [exact (setSources_spec c p q P Q t2 Hat HP Epar HQ Hcs2 Hnew str Hl2)|..]; cbn.
    + intros _ t' (new & _ & Hto). split; [by apply (extends_linked_to c new _ t2)|].
      split; [by apply (linked_to_channel_at c new t2)|]. split; [by apply (lt_links _ _ _ _ Hto)|].
      eexists. split; [by apply (lt_channel _ _ _ _ Hto)|]. by split_and!.
    + intros t' (_ & new & Hto). by apply (extends_linked_to c new _ t2).
  - rewrite (setSources_root c p P str t2 Hat HP Epar). left. exists (), t2. split; [done|]. split_and!; [done..|].
    eexists. split; [exact EC|]. by split_and!.
Qed.

Lemma new_channel_configured :
  ends (on_throw (f ← channel_parse_filter doc ipx_filter_parse root;
                  _ ← run (setFilter c f);
                  lst ← channel_parse_source_list doc root;
                  setSources c lst) (Channel_delete c) (with_C (C0 (Some p) None)))
    (λ _ t', extends t t' [] [c] ∧ channel_at t' p c ∧ links_ok t' ∧
       ∃ C, cheap t' !! c = Some C ∧ ch_name C = name ∧ ch_listeners C = ∅ ∧ (pr_parent P = None → ch_sources C = ∅))
    (λ t', extends t t' [] []).
Proof.
  assert (∀ C, extends t (with_C C) [] [c]) as Hext by (intros C; apply extends_new_channel, fresh_channel).
  apply (ends_on_throw _ _ _ _ _ (λ t', extends t t' [] [c])); [|intros t'; apply Channel_delete_new].
  eapply ends_bind.
  { eapply ends_mono; [apply channel_parse_filter_reads|exact (λ _ _ H, H)|]. by intros t' ->. }
  intros f t' [-> _]. apply (ends_bind _ _ _ _ _ (λ _ t', t' = with_C (C0 (Some p) f))).
  { apply ends_run. eexists. split; [apply upd_new_channel|done]. }
  intros [] t' ->. eapply ends_bind.
  { eapply ends_mono; [apply channel_parse_source_list_reads|exact (λ _ _ H, H)|]. by intros t' ->. }
  intros lst t' [-> _]. apply new_channel_sources.
Qed.

Lemma new_channel_spec :
  ends (process_channel doc ipx_filter_parse p root t)
    (λ c' t', c' = c ∧ extends t t' [] [c] ∧ channel_at t' p c ∧ links_ok t' ∧
       ∃ C, cheap t' !! c = Some C ∧ channel_of root P C)
    (λ t', extends t t' [] []).
Proof.
  unfold process_channel. rewrite Hname.
  apply (ends_bind _ _ _ _ _ (λ n t', n = name ∧ t' = t)); [by apply ends_ret|]. intros ? ? [-> ->].
  apply (ends_bind _ _ _ _ _ (λ c' t', c' = c ∧ t' = with_C (C0 None None))).
  { apply ends_call. by eexists _, _. }
  intros ? ? [-> ->]. apply (ends_bind _ _ _ _ _ (λ _ t', t' = with_C (C0 (Some p) None))).
  { apply ends_run. eexists. split; [apply upd_new_channel|done]. }
  intros [] ? ->. eapply ends_bind; [apply new_channel_configured|].
  intros [] t' (He & Hat & Hl & C & EC & HN & HL & Hroot).
  apply (ends_bind _ _ _ _ _ (λ b t'', t'' = t' ∧ b = bool_decide (is_Some (pr_parent P) ∧ ch_sources C = ∅))).
  { apply ends_call. eexists _, t'. split; [|by split]. unfold parent_of_channel, get_channel, get_profile, deref.
    destruct Hat as (C' & EC' & HC'). assert (C' = C) as -> by congruence. rewrite EC. cbn [or_fault].
    rewrite !res_bind_ret, HC'. cbn [or_fault]. destruct Hready as [HP _].
    rewrite res_bind_ret, (extends_profile _ _ _ _ _ _ He HP). cbn [or_fault]. by rewrite !res_bind_ret. }
  intros b ? [-> ->]. destruct (decide (is_Some (pr_parent P) ∧ ch_sources C = ∅)) as [Hno|Hno].
  - rewrite bool_decide_true by done.
    apply (ends_bind _ _ _ _ _ (λ _ t'', extends t t'' [] [])); [|intros [] t'' H; by apply ends_throw].
    apply ends_run. destruct (Channel_delete_new c t t' He) as (t'' & E & H). by exists t''.
  - rewrite bool_decide_false by done. apply ends_ret. split; [done|]. split_and!; [done..|]. exists C. split; [done|].
    split; [by rewrite HN|]. split; [done|]. split; [done|]. intros HS. destruct (pr_parent P) as [q|]; [|done].
    destruct Hno. split; [by eexists|done].
Qed.
End new_channel.

Lemma process_channel_spec t p P root : profile_ready t p P → links_ok t →
  ends (process_channel doc ipx_filter_parse p root t)
    (λ c t', extends t t' [] [c] ∧ channel_at t' p c ∧ links_ok t' ∧ ∃ C, cheap t' !! c = Some C ∧ channel_of root P C)
    (λ t', extends t t' [] []).
Proof.
  intros Hr Hl. destruct (xmlGetProp doc root str_name) as [name|] eqn:E.
  - eapply ends_mono; [by apply (new_channel_spec t p P root name)|..]; [|done]. by intros c t' (-> & ?).
  - unfold process_channel. rewrite E. right. exists t. split; [done|apply extends_refl].
Qed.

(** *** A profile under construction *)

(** What a profile has in a complete tree. *)
Definition content_ok t P : Prop :=
  pr_type P ≠ PT_UNDEF ∧ directory_ok (pr_directory P) ∧
  Forall (λ c, ∃ C, cheap t !! c = Some C ∧ (pr_parent P = None ↔ ch_sources C = ∅)) (pr_channels P).
Definition node_ok t q : Prop := ∃ P, pheap t !! q = Some P ∧ content_ok t P ∧ pr_channels P ≠ [].

(** The new tree [x] is all that has come to the heap [t0]. *)
Record grown t0 t (parent : option loc) (x : ptree) : Prop := {
  gr_extends : extends t0 t (plocs x) (clocs x);
  gr_own : own t parent x;
  gr_plocs : NoDup (plocs x);
  gr_clocs : NoDup (clocs x)
}.

Lemma without_new t0 t t' ps cs : extends t0 t ps cs → without t t' ps cs → extends t0 t' [] [].
Proof.
  intros [H1 H2 H3 H4] [W1 W2]. split; [by intros ? ?%not_elem_of_nil| |by intros ? ?%not_elem_of_nil|].
  - intros q _. rewrite W1. case_decide as Hq; [by destruct (H1 q Hq)|by apply H2].
  - intros c _. rewrite W2. case_decide as Hc; [destruct (H3 c Hc) as [-> _]; constructor|by apply H4].
Qed.

Lemma grown_delete t0 t parent x fuel : grown t0 t parent x → (height x ≤ fuel)%nat →
  ∃ t', Profile_delete fuel t (proot x) = Ok t' ∧ extends t0 t' [] [].
Proof.
  intros [He Ho Hp Hc] Hf. destruct (Profile_delete_spec x fuel t parent Ho Hp Hc Hf) as (t' & -> & Hw).
  exists t'. split; [done|]. by apply (without_new t0 t t' _ _ He).
Qed.

Lemma grown_extends t0 t t' parent x : grown t0 t parent x → extends t t' [] [] → grown t0 t' parent x.
Proof.
  intros [He Ho Hp Hc] He'. split; [|by apply (extends_own t t' [] [])|done..].
  pose proof (extends_trans _ _ _ _ _ _ _ He He') as H. by rewrite !app_nil_r in H.
Qed.

Lemma content_ok_extends t t' ps cs P : extends t t' ps cs → content_ok t P → content_ok t' P.
Proof.
  intros He (H1 & H2 & H3). split_and!; [done..|]. refine (Forall_impl _ _ _ H3 _). intros c (C & EC & HC).
  destruct (extends_channel _ _ _ _ _ _ He EC) as (C' & EC' & HC'). exists C'. split; [done|]. by rewrite HC'.
Qed.

Lemma node_ok_extends t t' ps cs q : extends t t' ps cs → node_ok t q → node_ok t' q.
Proof.
  intros He (P & HP & H1 & H2). exists P. split; [by apply (extends_profile _ _ _ _ _ _ He)|].
  split; [by apply (content_ok_extends _ _ _ _ _ He)|done].
Qed.

Lemma links_put_profile t p P P' : links_ok t → pheap t !! p = Some P → pr_parent P' = pr_parent P → links_ok (put_profile t p P').
Proof.
  intros [H1 H2] HP Epar. split; [exact H1|]. intros c C s EC Hs. destruct (H2 c C s EC Hs) as (p' & P0 & q & ? & HP0 & ? & ?).
  exists p'. destruct (decide (p' = p)) as [->|Hne].
  - exists P', q. cbn [put_profile pheap]. rewrite lookup_insert_eq. split_and!; [done..| |done]. congruence.
  - exists P0, q. cbn [put_profile pheap]. by rewrite lookup_insert_ne by done.
Qed.

Definition parent_ready t (parent : option loc) : Prop :=
  match parent with
  | None => True
  | Some q => ∃ Q, pheap t !! q = Some Q ∧ Forall (channel_at t q) (pr_channels Q)
  end.

Lemma parent_ready_extends t t' ps cs parent : extends t t' ps cs → parent_ready t parent → parent_ready t' parent.
Proof.
  intros He. destruct parent as [q|]; [|done]. intros (Q & HQ & Hcs). exists Q.
  split; [by apply (extends_profile _ _ _ _ _ _ He)|]. refine (Forall_impl _ _ _ Hcs _). intros c. apply (extends_channel_at _ _ _ _ _ _ He).
Qed.

(** Adding a new channel and a new subprofile. *)
Lemma grown_channel t0 t t1 parent p cs subs c P : grown t0 t parent (PNode p cs subs) →
  extends t t1 [] [c] → channel_at t1 p c → pheap t !! p = Some P →
  grown t0 (put_profile t1 p (with_channels (cs ++ [c]) P)) parent (PNode p (cs ++ [c]) subs).
Proof.
  intros [He Ho Hp Hc] He1 Hat HP. pose proof Ho as ((P' & HP' & H1 & H2 & H3) & Hcs & Hs)%own_node.
  assert (P' = P) as -> by congruence.
  assert (c ∉ clocs (PNode p cs subs)) as Hfr.
  { intros Hin. destruct (ex_new_channel _ _ _ _ He1 c ltac:(left)) as [Hn _].
    destruct (ex_new_channel _ _ _ _ He c Hin) as [_ [? ?]]. congruence. }
  assert (∀ t2, t2 = put_profile t1 p (with_channels (cs ++ [c]) P) → own t2 parent (PNode p (cs ++ [c]) subs)) as Hown.
  { intros t2 ->. apply own_node. split_and!.
    - exists (with_channels (cs ++ [c]) P). cbn [put_profile pheap]. by rewrite lookup_insert_eq.
    - apply Forall_app. split; [|by constructor]. refine (Forall_impl _ _ _ Hcs _). intros d. apply (extends_channel_at _ _ _ _ _ _ He1).
    - apply Forall_forall. intros y Hy. apply own_put_profile.
      + cbn [plocs] in Hp. apply NoDup_cons in Hp as [Hp _]. intros Hin. by apply Hp, (elem_of_mjoin _ _ y).
      + apply (extends_own _ _ _ _ _ _ He1). by apply (Forall_elem Hs). }
  split; [| |done|].
  - apply extends_put_profile; [|by apply elem_of_plocs; left].
    pose proof (extends_trans _ _ _ _ _ _ _ He He1) as [E1 E2 E3 E4]. rewrite app_nil_r in E1, E2. split; [done..| |].
    + intros d Hd. apply E3. rewrite elem_of_app. cbn [clocs] in *. rewrite !elem_of_app in *. tauto.
    + intros d Hd. apply E4. rewrite elem_of_app. cbn [clocs] in *. rewrite !elem_of_app in *. tauto.
  - by apply Hown.
  - cbn [clocs] in *. rewrite <-app_assoc. apply NoDup_app in Hc as (Hc1 & Hc2 & Hc3). apply NoDup_app. split_and!; [done| |].
    + intros d Hd [->%list_elem_of_singleton|Hin]%elem_of_app; [|by apply (Hc2 d)]. apply Hfr, elem_of_app. by left.
    + apply NoDup_app. split_and!; [apply NoDup_singleton| |done]. intros d ->%list_elem_of_singleton Hin.
      apply Hfr, elem_of_app. by right.
Qed.

Lemma grown_child t0 t t1 parent p cs subs y P : grown t0 t parent (PNode p cs subs) →
  grown t t1 (Some p) y → pheap t !! p = Some P →
  grown t0 (put_profile t1 p (with_children ((proot <$> subs) ++ [proot y]) P)) parent (PNode p cs (subs ++ [y])).
Proof.
  intros [He Ho Hp Hc] [He1 Ho1 Hp1 Hc1] HP. pose proof Ho as ((P' & HP' & H1 & H2 & H3) & Hcs & Hs)%own_node.
  assert (P' = P) as -> by congruence.
  assert (∀ q, q ∈ plocs y → q ∉ plocs (PNode p cs subs)) as Hfp.
  { intros q Hq Hin. destruct (ex_new_profile _ _ _ _ He1 q Hq) as [Hn _].
    destruct (ex_new_profile _ _ _ _ He q Hin) as [_ [? ?]]. congruence. }
  assert (∀ c, c ∈ clocs y → c ∉ clocs (PNode p cs subs)) as Hfc.
  { intros c Hin Hin'. destruct (ex_new_channel _ _ _ _ He1 c Hin) as [Hn _].
    destruct (ex_new_channel _ _ _ _ He c Hin') as [_ [? ?]]. congruence. }
  split.
  - apply extends_put_profile; [|by apply elem_of_plocs; left].
    pose proof (extends_trans _ _ _ _ _ _ _ He He1) as H. cbn [plocs clocs] in *.
    rewrite !mjoin_fmap_snoc. rewrite app_assoc. exact H.
  - apply own_node. split_and!.
    + eexists. cbn [put_profile pheap]. rewrite lookup_insert_eq. split; [done|]. split_and!; [done..|]. cbn. by rewrite fmap_app.
    + refine (Forall_impl _ _ _ Hcs _). intros d. apply (extends_channel_at _ _ _ _ _ _ He1).
    + apply Forall_app. split; [|constructor; [|constructor] ].
      * apply Forall_forall. intros z Hz. apply own_put_profile.
        -- cbn [plocs] in Hp. apply NoDup_cons in Hp as [Hp _]. intros Hin. by apply Hp, (elem_of_mjoin _ _ z).
        -- apply (extends_own _ _ _ _ _ _ He1). by apply (Forall_elem Hs).
      * apply own_put_profile; [|done]. intros Hin. apply (Hfp p Hin), elem_of_plocs. by left.
  - cbn [plocs] in *. rewrite mjoin_fmap_snoc, app_comm_cons. apply NoDup_app. split_and!; [done| |done].
    intros q Hq Hin. by apply (Hfp q Hin).
  - cbn [clocs] in *. rewrite mjoin_fmap_snoc, app_assoc. apply NoDup_app. split_and!; [done| |done].
    intros q Hq Hin. by apply (Hfc q Hin).
Qed.

Section one_profile.
Context (t0 : tree filter) (parent : option loc) (p : loc) (fuel : nat) (Hpar : parent_ready t0 parent).

(** The profile with the channels [cs] and the subtrees [subs] so far; what is to be
    deleted after a throw. *)
Definition building (cs : list loc) (subs : list ptree) t : Prop :=
  grown t0 t parent (PNode p cs subs) ∧ links_ok t ∧ (∃ P, pheap t !! p = Some P ∧ content_ok t P) ∧
  Forall (λ y, (height y ≤ fuel)%nat ∧ ∀ q, q ∈ plocs y → node_ok t q) subs.
Definition given_up t : Prop := ∃ x, proot x = p ∧ (height x ≤ S fuel)%nat ∧ grown t0 t parent x.

Lemma building_given_up cs subs t t' : building cs subs t → extends t t' [] [] → given_up t'.
Proof.
  intros (Hg & _ & _ & Hs) He. exists (PNode p cs subs). split; [done|]. split; [|by apply (grown_extends _ t)].
  cbn [height]. apply le_n_S. clear Hg. induction Hs as [|y subs [Hy _] _ IH]; cbn; lia.
Qed.

Lemma building_profile cs subs t : building cs subs t → ∃ P, pheap t !! p = Some P ∧ content_ok t P ∧
  pr_parent P = parent ∧ pr_channels P = cs ∧ pr_children P = (proot <$> subs) ∧ profile_ready t p P.
Proof.
  intros (Hg & _ & (P & HP & HPc) & _). pose proof (gr_own _ _ _ _ Hg) as ((P' & HP' & H1 & H2 & H3) & _)%own_node.
  assert (P' = P) as -> by congruence. exists P. split_and!; [done..|]. split; [done|]. rewrite H1.
  exact (parent_ready_extends _ _ _ _ _ (gr_extends _ _ _ _ Hg) Hpar).
Qed.

Lemma profile_add_channel_spec cs t node n : building cs [] t →
  ends (profile_add_channel doc ipx_filter_parse p node n t) (λ _ t', ∃ cs', building cs' [] t') given_up.
Proof.
  intros Hb. pose proof Hb as (Hg & Hl & _ & _). destruct (building_profile _ _ _ Hb) as (P & HP & HPc & Hpp & Hch & _ & Hr).
  assert (given_up t) as Hgu by (apply (building_given_up cs [] t t Hb), extends_refl).
  unfold profile_add_channel. destruct (negb _); [apply ends_ret; by exists cs|]. case_decide; [by apply ends_throw|].
  eapply ends_bind.
  { eapply ends_mono; [by apply (process_channel_spec t p P node)|exact (λ _ _ H, H)|].
    intros t' He. exact (building_given_up cs [] t t' Hb He). }
  intros c t' (He & Hat & Hl' & C & EC & _ & _ & HC). apply (ends_bind _ _ _ _ _ (λ _ t'', ∃ cs', building cs' [] t'')); [|intros [] t'' Hb'; by apply ends_ret].
  apply ends_run. exists (put_profile t' p (with_channels (cs ++ [c]) P)). split.
  - unfold addChannel, upd_profile, get_profile, deref. rewrite (extends_profile _ _ _ _ _ _ He HP). cbn [or_fault].
    by rewrite res_bind_ret, Hch.
  - exists (cs ++ [c]). split_and!; [by apply (grown_channel t0 t)| | |done].
    + apply (links_put_profile t' p P); [done|by apply (extends_profile _ _ _ _ _ _ He)|done].
    + eexists. cbn [put_profile pheap]. split; [apply lookup_insert_eq|].
      destruct (content_ok_extends _ _ _ _ _ He HPc) as (H1 & H2 & H3). split; [done|]. split; [done|].
      cbn [with_channels pr_channels pr_parent]. apply Forall_app. rewrite <-Hch. split; [exact H3|]. constructor; [|constructor].
      by exists C.
Qed.

Lemma profile_parse_channels_spec root t : building [] [] t →
  ends (profile_parse_channels doc ipx_filter_parse p root t) (λ _ t', ∃ cs, cs ≠ [] ∧ building cs [] t') given_up.
Proof.
  intros Hb. unfold profile_parse_channels.
  assert (given_up t) as Hgu by (apply (building_given_up [] [] t t Hb), extends_refl).
  destruct (xml_find_uniq_element doc root str_channelList) as [cnt [node|] ]; [|by apply ends_throw].
  case_decide; [by apply ends_throw|]. eapply ends_bind.
  { apply (ends_for_list _ (λ _ _ t', ∃ cs, building cs [] t')); [by exists []|].
    intros l1 a l2 y s _ (cs & Hcs). by apply (profile_add_channel_spec cs). }
  intros n t' (cs & Hcs). destruct (building_profile _ _ _ Hcs) as (P & HP & _ & _ & Hch & _).
  apply (ends_bind _ _ _ _ _ (λ chs t'', chs = cs ∧ t'' = t')).
  { apply ends_call. exists cs, t'. unfold get_profile, deref. rewrite HP. cbn [or_fault]. by rewrite res_bind_ret, Hch. }
  intros ? ? [-> ->]. destruct (decide (cs = [])); [|apply ends_ret; by exists cs].
  apply ends_throw. apply (building_given_up cs [] t' t' Hcs), extends_refl.
Qed.

(** [make] is the processing of a subprofile. *)
Lemma profile_parse_subprofiles_spec (make : option loc → xmlNode doc → M loc) root cs t :
  (∀ node t, links_ok t → parent_ready t (Some p) →
     (∃ list_node, list_node ∈ xmlChildren doc root ∧ node ∈ xmlChildren doc list_node) →
     ends (make (Some p) node t)
       (λ q t', ∃ y, proot y = q ∧ (height y ≤ fuel)%nat ∧ grown t t' (Some p) y ∧ links_ok t' ∧ ∀ q, q ∈ plocs y → node_ok t' q)
       (λ t', extends t t' [] [])) →
  building cs [] t →
  ends (profile_parse_subprofiles doc make p root t) (λ _ t', ∃ subs, building cs subs t') given_up.
Proof.
  intros Hmake Hb. unfold profile_parse_subprofiles. destruct (xml_find_uniq_element doc root str_subprofileList) as [cnt o] eqn:Ex.
  case_decide; [apply ends_throw; apply (building_given_up cs [] t t Hb), extends_refl|].
  destruct o as [lnode|]; [|apply ends_ret; by exists []].
  assert (lnode ∈ xmlChildren doc root) as Hln.
  { unfold xml_find_uniq_element in Ex. injection Ex as _ Ex. case_decide; [|done]. apply last_Some in Ex as [l' El].
    assert (lnode ∈ base.filter (λ node, xmlName doc node = str_subprofileList) (xmlChildren doc root)) as Hin
      by (rewrite El; apply elem_of_app; right; left). by apply list_elem_of_filter in Hin as [_ ?]. }
  apply (ends_for_list _ (λ _ _ t', ∃ subs, building cs subs t')); [by exists []|].
  intros l1 node l2 [] s El (subs & Hs). unfold profile_add_child. destruct (negb _); [apply ends_ret; by exists subs|].
  case_decide; [apply ends_throw; apply (building_given_up cs subs s s Hs), extends_refl|].
  destruct (building_profile _ _ _ Hs) as (P & HP & HPc & Hpp & Hch & Hcl & _).
  pose proof Hs as (Hg & Hl & _ & Hall). pose proof (gr_own _ _ _ _ Hg) as (_ & Hcs & _)%own_node.
  eapply ends_bind.
  { eapply ends_mono; [apply Hmake; [done| |]|exact (λ _ _ H, H)|].
    - exists P. by rewrite Hch.
    - exists lnode. split; [done|]. rewrite El. apply elem_of_app. right. left.
    - intros t' He. exact (building_given_up cs subs s t' Hs He). }
  intros q t' (y & <- & Hy & Hgy & Hl' & Hok). pose proof (gr_extends _ _ _ _ Hgy) as He.
  apply ends_run. exists (put_profile t' p (with_children ((proot <$> subs) ++ [proot y]) P)). split.
  { unfold addProfile, upd_profile, get_profile, deref. rewrite (extends_profile _ _ _ _ _ _ He HP). cbn [or_fault].
    by rewrite res_bind_ret, Hcl. }
  exists (subs ++ [y]). assert (p ∉ plocs y) as Hpy.
  { intros Hin. destruct (ex_new_profile _ _ _ _ He p Hin) as [Hn _]. congruence. }
  assert (∀ q, q ≠ p → node_ok t' q → node_ok (put_profile t' p (with_children ((proot <$> subs) ++ [proot y]) P)) q) as Hput.
  { intros q Hq (Q & HQ & H1 & H2). exists Q. cbn [put_profile pheap]. by rewrite lookup_insert_ne by done. }
  split_and!; [by apply (grown_child t0 s)| | |].
  - apply (links_put_profile t' p P); [done|by apply (extends_profile _ _ _ _ _ _ He)|done].
  - eexists. cbn [put_profile pheap]. split; [apply lookup_insert_eq|]. exact (content_ok_extends _ _ _ _ _ He HPc).
  - apply Forall_app. split.
    + apply Forall_forall. intros z Hz. destruct (Forall_elem Hall Hz) as [Hhz Hokz]. split; [done|]. intros q Hq. apply Hput.
      * intros ->. pose proof (gr_plocs _ _ _ _ Hg) as Hp. cbn [plocs] in Hp. apply NoDup_cons in Hp as [Hp _].
        by apply Hp, (elem_of_mjoin _ _ z).
      * by apply (node_ok_extends _ _ _ _ _ He), Hokz.
    + constructor; [|constructor]. split; [done|]. intros q Hq. apply Hput; [by intros ->|by apply Hok].
Qed.
End one_profile.

(** *** Profiles and documents *)

(** A document has a height: the children of a node are lower. *)
Context (depth : xmlNode doc → nat) (Hdepth : ∀ node child, child ∈ xmlChildren doc node → (depth child < depth node)%nat).

(** The tree that processing gives. *)
Definition processed t0 (parent : option loc) (fuel : nat) q t : Prop :=
  ∃ x, proot x = q ∧ (height x ≤ fuel)%nat ∧ grown t0 t parent x ∧ links_ok t ∧ ∀ q, q ∈ plocs x → node_ok t q.

Lemma new_profile_grown t0 parent name type : let p := fresh (dom (pheap t0)) in
  ∀ t P, pheap t = <[p := P]> (pheap t0) → cheap t = cheap t0 → pr_parent P = parent → pr_channels P = [] → pr_children P = [] →
  name = pr_name P → type = pr_type P →
  grown t0 t parent (PNode p [] []).
Proof.
  intros p t P Ep Ec H1 H2 H3 _ _. assert (pheap t0 !! p = None) as Hfr by (apply not_elem_of_dom, is_fresh). split.
  - split; cbn [plocs clocs fmap list_fmap mjoin list_join app].
    + intros q ->%list_elem_of_singleton. rewrite Ep, lookup_insert_eq. split; [done|by eexists].
    + intros q Hq%not_elem_of_cons. rewrite Ep, lookup_insert_ne; naive_solver.
    + by intros c ?%not_elem_of_nil.
    + intros c _. rewrite Ec. destruct (cheap t0 !! c); by constructor.
  - apply own_node. split_and!; [|done|done]. exists P. rewrite Ep, lookup_insert_eq. by split_and!.
  - cbn. apply NoDup_singleton.
  - cbn. constructor.
Qed.

Lemma links_new_profile t t' p P : links_ok t → pheap t !! p = None → pheap t' = <[p := P]> (pheap t) → cheap t' = cheap t → links_ok t'.
Proof.
  intros [H1 H2] Hp Ep Ec. split; rewrite Ec; [exact H1|]. intros c C s EC Hs. destruct (H2 c C s EC Hs) as (p' & P' & q & ? & HP & ? & (S & ? & ?)).
  exists p', P', q. rewrite Ep, lookup_insert_ne by congruence. split_and!; [done..|]. exists S. by rewrite Ec.
Qed.

Lemma process_profile_spec fuel : ∀ parent root t0, (depth root < fuel)%nat → parent_ready t0 parent → links_ok t0 →
  ends (process_profile doc ipx_filter_parse utils_path_preprocessor fuel parent root t0)
    (processed t0 parent fuel) (λ t, extends t0 t [] []).
Proof.
  induction fuel as [|fuel IH]; intros parent root t0 Hf Hpar Hl; [lia|]. cbn [process_profile].
  eapply ends_bind.
  { eapply ends_mono; [apply profile_parse_type_reads|exact (λ _ _ H, H)|]. intros t ->. apply extends_refl. }
  intros type t' [-> Htype].
  apply (ends_bind _ _ _ _ _ (λ _ t', t' = t0)).
  { apply ends_or_throw. destruct (xmlGetProp doc root str_name); [done|apply extends_refl]. }
  intros name t' ->. set (p := fresh (dom (pheap t0))). assert (pheap t0 !! p = None) as Hfr by (apply not_elem_of_dom, is_fresh).
  set (with_P parent dir := {| pheap := <[p := {| pr_parent := parent; pr_id := profiles_cnt t0; pr_pathName := []; pr_name := name;
         pr_type := type; pr_directory := dir; pr_children := []; pr_channels := [] |}]> (pheap t0);
       cheap := cheap t0; profiles_cnt := u16 (profiles_cnt t0 + 1); channels_cnt := channels_cnt t0 |} : tree filter).
  apply (ends_bind _ _ _ _ _ (λ p' t', p' = p ∧ t' = with_P None [])).
  { apply ends_call. by eexists _, _. }
  intros ? ? [-> ->].
  assert (∀ dir, grown t0 (with_P parent dir) parent (PNode p [] [])) as Hg by (intros dir; by eapply (new_profile_grown t0 parent name type)).
  assert (∀ dir, given_up t0 parent p fuel (with_P parent dir)) as Hgu.
  { intros dir. exists (PNode p [] []). split; [done|]. split; [cbn; lia|apply Hg]. }
  apply (ends_bind _ _ _ _ _ (λ _ t, ∃ cs subs, cs ≠ [] ∧ building t0 parent p fuel cs subs t)).
  2: { intros [] t (cs & subs & Hcs & Hb). apply ends_ret. destruct (building_profile _ _ _ _ Hpar _ _ _ Hb) as (P & HP & HPc & _ & Hch & _).
       destruct Hb as (Hgr & Hl' & _ & Hs). exists (PNode p cs subs). split_and!; [done| |done|done|].
       - cbn [height]. apply le_n_S. clear -Hs. induction Hs as [|y subs [Hy _] _ IH]; cbn; lia.
       - intros q [->|(y & Hy & Hq)]%elem_of_plocs; [exists P; by rewrite Hch|]. by apply (Forall_elem Hs Hy). }
  apply (ends_on_throw _ _ _ _ _ (given_up t0 parent p fuel)).
  2: { intros t (x & <- & Hh & Hgr). by apply (grown_delete t0 t parent x). }
  apply (ends_bind _ _ _ _ _ (λ _ t, t = with_P parent [])).
  { apply ends_run. eexists. split; [|done]. unfold setParent, upd_profile, get_profile, deref. cbn [with_P pheap].
    rewrite lookup_insert_eq. cbn [or_fault]. rewrite res_bind_ret. unfold put_profile, with_P. cbn. by rewrite insert_insert_eq. }
  intros [] ? ->. eapply ends_bind.
  { eapply ends_mono; [apply profile_parse_directory_reads|exact (λ _ _ H, H)|]. intros t ->. apply Hgu. }
  intros dir ? [-> Hdir]. apply (ends_bind _ _ _ _ _ (λ _ t, t = with_P parent dir)).
  { apply ends_run. eexists. split; [|done]. unfold setDirectory, upd_profile, get_profile, deref. cbn [with_P pheap].
    rewrite lookup_insert_eq. cbn [or_fault]. rewrite res_bind_ret. unfold put_profile, with_P. cbn. by rewrite insert_insert_eq. }
  intros [] ? ->. eapply ends_bind.
  { apply (profile_parse_channels_spec t0 parent p fuel Hpar). split_and!; [apply Hg| | |done].
    - by eapply (links_new_profile t0 _ p).
    - eexists. cbn [with_P pheap]. rewrite lookup_insert_eq. split; [done|]. split_and!; [done..|]. by constructor. }
  intros n t (cs & Hcs & Hb).
  eapply ends_mono; [apply (profile_parse_subprofiles_spec t0 parent p fuel Hpar _ root cs t); [|exact Hb]|..].
  - intros node t1 Hl1 Hp1 (lnode & Hln & Hn). apply IH; [|done..].
    pose proof (Hdepth _ _ Hln). pose proof (Hdepth _ _ Hn). lia.
  - intros [] t1 (subs & Hs). by exists cs, subs.
  - done.
Qed.
End process_channel.

(** ** Theory: paths *)

Section paths.
Context {filter : Type}.
Implicit Types (t : tree filter) (x y : ptree) (P Q : Profile) (C D : Channel filter) (p q c : loc) (path : bytes).

Definition with_channel_path path C : Channel filter :=
  {| ch_id := ch_id C; ch_name := ch_name C; ch_pathName := path; ch_filter := ch_filter C;
     ch_profile := ch_profile C; ch_listeners := ch_listeners C; ch_sources := ch_sources C |}.

(** Only paths of the profiles [ps] and the channels [cs] have changed. *)
Record repathed t t' (ps cs : list loc) : Prop := {
  rp_profile q : option_Forall2 (λ P P', P' = with_path (pr_pathName P') P ∧ (q ∉ ps → P' = P)) (pheap t !! q) (pheap t' !! q);
  rp_channel c : option_Forall2 (λ C C', C' = with_channel_path (ch_pathName C') C ∧ (c ∉ cs → C' = C)) (cheap t !! c) (cheap t' !! c)
}.

(** The path of the profile, of its channels and of its subprofiles. *)
Fixpoint paths_ok t path x : Prop :=
  let 'PNode p cs subs := x in
  (∃ P, pheap t !! p = Some P ∧ pr_pathName P = path) ∧
  Forall (λ c, ∃ C, cheap t !! c = Some C ∧ ch_pathName C = path ++ str_channels_dir) cs ∧
  foldr and True ((λ y, ∃ Y, pheap t !! proot y = Some Y ∧ paths_ok t (path ++ pr_name Y ++ [SLASH]) y) <$> subs).

Lemma paths_ok_node t path p cs subs : paths_ok t path (PNode p cs subs) ↔
  (∃ P, pheap t !! p = Some P ∧ pr_pathName P = path) ∧
  Forall (λ c, ∃ C, cheap t !! c = Some C ∧ ch_pathName C = path ++ str_channels_dir) cs ∧
  Forall (λ y, ∃ Y, pheap t !! proot y = Some Y ∧ paths_ok t (path ++ pr_name Y ++ [SLASH]) y) subs.
Proof.
  cbn. assert (∀ R : ptree → Prop, foldr and True (R <$> subs) ↔ Forall R subs) as H.
  { intros R. induction subs as [|y subs IH]; cbn; [by split|]. rewrite Forall_cons, <-IH. done. }
  by rewrite H.
Qed.

Lemma repathed_refl t : repathed t t [] [].
Proof. split; intros q; destruct (_ !! q) as [X|]; constructor; (split; [by destruct X|done]). Qed.

Lemma repathed_trans t1 t2 t3 ps cs ps' cs' : repathed t1 t2 ps cs → repathed t2 t3 ps' cs' →
  repathed t1 t3 (ps ++ ps') (cs ++ cs').
Proof.
  intros [A1 A2] [B1 B2]. split; intros q; [specialize (A1 q); specialize (B1 q)|specialize (A2 q); specialize (B2 q)].
  - destruct A1 as [P1 P2 [E1 H1]|]; inversion B1 as [? P3 [E2 H2]|]; constructor. split; [by rewrite E2, E1|].
    intros [? ?]%not_elem_of_app. rewrite H2, H1; auto.
  - destruct A2 as [P1 P2 [E1 H1]|]; inversion B2 as [? P3 [E2 H2]|]; constructor. split; [by rewrite E2, E1|].
    intros [? ?]%not_elem_of_app. rewrite H2, H1; auto.
Qed.

Lemma repathed_profile t t' ps cs q P : repathed t t' ps cs → pheap t !! q = Some P →
  ∃ P', pheap t' !! q = Some P' ∧ P' = with_path (pr_pathName P') P ∧ (q ∉ ps → P' = P).
Proof. intros [H _] E. specialize (H q). rewrite E in H. inversion H as [? P' ?|]. by exists P'. Qed.

Lemma repathed_channel t t' ps cs c C : repathed t t' ps cs → cheap t !! c = Some C →
  ∃ C', cheap t' !! c = Some C' ∧ C' = with_channel_path (ch_pathName C') C ∧ (c ∉ cs → C' = C).
Proof. intros [_ H] E. specialize (H c). rewrite E in H. inversion H as [? C' ?|]. by exists C'. Qed.

Lemma repathed_own t t' ps cs x : ∀ parent, repathed t t' ps cs → own t parent x → own t' parent x.
Proof.
  induction x as [p xs subs IH] using ptree_ind'. intros parent Hr. rewrite !own_node. intros ((P & HP & H1 & H2 & H3) & Hcs & Hs).
  split_and!.
  - destruct (repathed_profile _ _ _ _ _ _ Hr HP) as (P' & HP' & E & _). exists P'. split; [done|]. rewrite E. done.
  - refine (Forall_impl _ _ _ Hcs _). intros c (C & EC & HC).
    destruct (repathed_channel _ _ _ _ _ _ Hr EC) as (C' & EC' & E & _). exists C'. split; [done|]. by rewrite E.
  - apply Forall_forall. intros y Hy. by apply (Forall_elem IH Hy), (Forall_elem Hs Hy).
Qed.

(** Outside of what has changed the paths stay. *)
Lemma repathed_paths t t' ps cs x : ∀ path, repathed t t' ps cs → paths_ok t path x →
  (∀ q, q ∈ plocs x → q ∉ ps) → (∀ c, c ∈ clocs x → c ∉ cs) → paths_ok t' path x.
Proof.
  induction x as [p xs subs IH] using ptree_ind'. intros path Hr. rewrite !paths_ok_node. intros ((P & HP & HPp) & Hcs & Hs) Hps Hxs.
  split_and!.
  - destruct (repathed_profile _ _ _ _ _ _ Hr HP) as (P' & HP' & _ & E). exists P'. split; [done|].
    rewrite E; [done|]. apply Hps, elem_of_plocs. by left.
  - apply Forall_forall. intros c Hc. destruct (Forall_elem Hcs Hc) as (C & EC & HC).
    destruct (repathed_channel _ _ _ _ _ _ Hr EC) as (C' & EC' & _ & E). exists C'. split; [done|].
    rewrite E; [done|]. apply Hxs, elem_of_clocs. by left.
  - apply Forall_forall. intros y Hy. destruct (Forall_elem Hs Hy) as (Y & HY & Hpy).
    destruct (repathed_profile _ _ _ _ _ _ Hr HY) as (Y' & HY' & E & _). exists Y'. split; [done|].
    rewrite E. cbn [with_path pr_name]. apply (Forall_elem IH Hy); [done..| |]; intros z Hz.
    + apply Hps, elem_of_plocs. eauto.
    + apply Hxs, elem_of_clocs. eauto.
Qed.

Lemma Channel_updatePathName_spec t c C p P : cheap t !! c = Some C → ch_profile C = Some p → pheap t !! p = Some P →
  ∃ t', Channel_updatePathName t c = Ok t' ∧ repathed t t' [] [c] ∧ pheap t' = pheap t ∧
    ∃ C', cheap t' !! c = Some C' ∧ ch_pathName C' = pr_pathName P ++ str_channels_dir.
Proof.
  intros EC HC HP. unfold Channel_updatePathName, get_channel, get_profile, deref. rewrite EC. cbn [or_fault].
  rewrite res_bind_ret, HC, HP. cbn [or_fault]. rewrite !res_bind_ret. eexists. split; [done|]. split_and!; [|done|].
  - split; intros q; cbn [put_channel pheap cheap].
    + destruct (pheap t !! q) as [X|]; constructor. split; [by destruct X|done].
    + destruct (decide (q = c)) as [->|Hne].
      * rewrite lookup_insert_eq, EC. constructor. split; [unfold with_channel_path; by rewrite HC|]. intros Hn. destruct Hn. left.
      * rewrite lookup_insert_ne by done. destruct (cheap t !! q) as [X|]; constructor. split; [by destruct X|done].
  - eexists. cbn [put_channel cheap]. split; [apply lookup_insert_eq|done].
Qed.

Lemma update_channel_paths t p P cs : pheap t !! p = Some P → Forall (channel_at t p) cs →
  ∃ t', fold_res (λ t c, Channel_updatePathName t c) cs t = Ok t' ∧ repathed t t' [] cs ∧ pheap t' = pheap t ∧
    Forall (λ c, ∃ C', cheap t' !! c = Some C' ∧ ch_pathName C' = pr_pathName P ++ str_channels_dir) cs.
Proof.
  intros HP Hcs. apply (fold_res_ind _ (λ l t', repathed t t' [] l ∧ pheap t' = pheap t ∧
    Forall (λ c, ∃ C', cheap t' !! c = Some C' ∧ ch_pathName C' = pr_pathName P ++ str_channels_dir) l)).
  - split; [apply repathed_refl|done].
  - intros l1 c l2 t1 E (Hr & Hp & Hall).
    destruct (Forall_elem Hcs (x := c)) as (C & EC & HC); [rewrite E; apply elem_of_app; right; left|].
    destruct (repathed_channel _ _ _ _ _ _ Hr EC) as (C1 & EC1 & E1 & _).
    destruct (Channel_updatePathName_spec t1 c C1 p P EC1) as (t2 & Et & Hr2 & Hp2 & C2 & EC2 & HC2); [by rewrite E1|by rewrite Hp|].
    exists t2. split; [done|]. split_and!; [exact (repathed_trans _ _ _ _ _ _ _ Hr Hr2)|congruence|].
    apply Forall_app. split; [|constructor; [by exists C2|constructor] ].
    refine (Forall_impl _ _ _ Hall _). intros d (D & ED & HD). destruct (decide (d = c)) as [->|Hne]; [by exists C2|].
    destruct (repathed_channel _ _ _ _ _ _ Hr2 ED) as (D' & ED' & _ & HD'). exists D'. split; [done|].
    rewrite HD'; [done|]. by intros ->%list_elem_of_singleton.
Qed.

(** The path below a parent, with the name of the profile. *)
Definition path_below t (parent : option loc) (name path : bytes) : Prop :=
  match parent with
  | None => path = []
  | Some q => ∃ Q, pheap t !! q = Some Q ∧ path = pr_pathName Q ++ name ++ [SLASH]
  end.

Lemma Profile_updatePathName_spec x : ∀ fuel t parent P path, own t parent x → NoDup (plocs x) → NoDup (clocs x) → (height x ≤ fuel)%nat →
  (∀ q, parent = Some q → q ∉ plocs x) → pheap t !! proot x = Some P → path_below t parent (pr_name P) path →
  ∃ t', Profile_updatePathName fuel t (proot x) = Ok t' ∧ repathed t t' (plocs x) (clocs x) ∧ paths_ok t' path x.
Proof.
  induction x as [p cs subs IH] using ptree_ind'. intros [|fuel] t parent P path Ho Hp Hc Hf Hpar HP Hpath; [cbn in Hf; lia|].
  pose proof Ho as ((P0 & HP0 & H1 & H2 & H3) & Hcs & Hs)%own_node. cbn [proot] in *. assert (P0 = P) as -> by congruence.
  cbn [Profile_updatePathName]. unfold get_profile, deref. rewrite HP. cbn [or_fault]. rewrite res_bind_ret, H1.
  assert (match parent with Some q => Q ← or_fault UseAfterFree (pheap t !! q); Ok (pr_pathName Q ++ pr_name P ++ [SLASH]) | None => Ok [] end
    = Ok path) as ->.
  { destruct parent as [q|]; [|by rewrite Hpath]. destruct Hpath as (Q & HQ & ->). by rewrite HQ. }
  rewrite res_bind_ret. set (P' := with_path path P). set (t1 := put_profile t p P').
  assert (repathed t t1 [p] []) as Hr1.
  { split; intros q; cbn [t1 put_profile pheap cheap].
    - destruct (decide (q = p)) as [->|Hne].
      + rewrite lookup_insert_eq, HP. constructor. split; [done|]. intros Hn. destruct Hn. left.
      + rewrite lookup_insert_ne by done. destruct (pheap t !! q) as [X|]; constructor. split; [by destruct X|done].
    - destruct (cheap t !! q) as [X|]; constructor. split; [by destruct X|done]. }
  assert (pheap t1 !! p = Some P') as HP1 by apply lookup_insert_eq.
  destruct (update_channel_paths t1 p P' cs HP1 Hcs) as (t2 & E2 & Hr2 & Hp2 & Hcs2).
  rewrite H2, E2, res_bind_ret, H3, fold_res_fmap.
  cbn [plocs clocs] in Hp, Hc. apply NoDup_cons in Hp as [Hp1 Hps]. apply NoDup_app in Hc as (_ & Hc2 & Hcs').
  destruct (fold_res_ind (λ t y, Profile_updatePathName fuel t (proot y)) (λ l t',
    repathed t t' ([p] ++ mjoin (plocs <$> l)) (cs ++ mjoin (clocs <$> l)) ∧ (∃ P0, pheap t' !! p = Some P0 ∧ pr_pathName P0 = path) ∧
    Forall (λ c, ∃ C, cheap t' !! c = Some C ∧ ch_pathName C = path ++ str_channels_dir) cs ∧
    Forall (λ y, ∃ Y, pheap t' !! proot y = Some Y ∧ paths_ok t' (path ++ pr_name Y ++ [SLASH]) y) l) subs t2)
    as (t3 & E3 & Hr & Hpp & Hcp & Hall).
  { split_and!; [|by exists P'; rewrite Hp2|done|done]. cbn [fmap list_fmap mjoin list_join]. rewrite (app_nil_r cs).
    exact (repathed_trans _ _ _ _ _ _ _ Hr1 Hr2). }
  { intros l1 y l2 t' E (Hr & (P1 & HP1' & HPp) & Hcp & Hall).
    assert (y ∈ subs) as Hy by (rewrite E; apply elem_of_app; right; left).
    rewrite E in Hps, Hcs'. destruct (NoDup_mjoin_split plocs l1 y l2 Hps) as [Hyp Hyd].
    destruct (NoDup_mjoin_split clocs l1 y l2 Hcs') as [Hyc Hycd].
    assert (p ∉ plocs y) as Hpy.
    { intros Hin. by apply Hp1, (elem_of_mjoin _ _ y). }
    assert (∀ c, c ∈ cs → c ∉ clocs y) as Hcy.
    { intros c Hin Hin'. by apply (Hc2 c Hin), (elem_of_mjoin _ _ y). }
    pose proof (repathed_own _ _ _ _ _ _ Hr (Forall_elem Hs Hy)) as Hoy.
    destruct (own_allocated y t' (Some p) Hoy) as [Hay _]. destruct (Hay (proot y) (proot_in y)) as [Y HY].
    destruct (Forall_elem IH Hy fuel t' (Some p) Y (path ++ pr_name Y ++ [SLASH])) as (t'' & -> & Hr'' & Hp'');
      [done..|by apply (height_sub p cs subs)|by intros ? [= <-]|done|by exists P1; rewrite HPp|].
    exists t''. split; [done|]. rewrite !mjoin_fmap_snoc, !app_assoc. split_and!.
    - exact (repathed_trans _ _ _ _ _ _ _ Hr Hr'').
    - destruct (repathed_profile _ _ _ _ _ _ Hr'' HP1') as (P2 & HP2 & _ & Esame). exists P2. split; [done|]. by rewrite Esame.
    - apply Forall_forall. intros c Hin. destruct (Forall_elem Hcp Hin) as (C & EC & HC).
      destruct (repathed_channel _ _ _ _ _ _ Hr'' EC) as (C2 & EC2 & _ & Esame). exists C2. split; [done|]. by rewrite Esame by by apply Hcy.
    - apply Forall_app. split.
      + apply Forall_forall. intros z Hz. destruct (Forall_elem Hall Hz) as (Z & HZ & Hpz).
        destruct (repathed_profile _ _ _ _ _ _ Hr'' HZ) as (Z2 & HZ2 & EZ & _). exists Z2. split; [done|].
        rewrite EZ. cbn [with_path pr_name]. apply (repathed_paths t' t'' _ _ z _ Hr'' Hpz).
        * intros q Hq Hin. destruct (Hyd q Hin) as [Hn _]. by apply Hn, (elem_of_mjoin _ _ z).
        * intros q Hq Hin. destruct (Hycd q Hin) as [Hn _]. by apply Hn, (elem_of_mjoin _ _ z).
      + constructor; [|constructor]. destruct (repathed_profile _ _ _ _ _ _ Hr'' HY) as (Y2 & HY2 & EY & _).
        exists Y2. split; [done|]. by rewrite EY. }
  exists t3. split; [exact E3|]. split; [exact Hr|]. by apply paths_ok_node.
Qed.
End paths.

(** ** Theory: a document *)

Section process_document.
Context {filter : Type} (doc : xml_api) (ipx_filter_parse : bytes → option filter) (utils_path_preprocessor : bytes → option bytes).
Context (depth : xmlNode doc → nat) (Hdepth : ∀ node child, child ∈ xmlChildren doc node → (depth child < depth node)%nat).
Implicit Types (t : tree filter) (x : ptree).
#[local] Existing Instance M_ret.
#[local] Existing Instance M_bind.

Lemma extends_repathed t0 t t' ps cs : extends t0 t ps cs → repathed t t' ps cs → extends t0 t' ps cs.
Proof.
  intros [H1 H2 H3 H4] [R1 R2]. split.
  - intros q Hq. destruct (H1 q Hq) as [? [P HP]]. split; [done|]. specialize (R1 q). rewrite HP in R1.
    inversion R1 as [? P' _ E E'|]. by eexists.
  - intros q Hq. rewrite <-(H2 q Hq). destruct (R1 q) as [P P' [_ E]|]; [|done]. by rewrite E.
  - intros c Hc. destruct (H3 c Hc) as [? [C EC]]. split; [done|]. specialize (R2 c). rewrite EC in R2.
    inversion R2 as [? C' _ E E'|]. by eexists.
  - intros c Hc. pose proof (H4 c Hc) as H. destruct (R2 c) as [C C' [_ E]|]; [|done]. by rewrite E.
Qed.

Lemma links_repathed t t' ps cs : repathed t t' ps cs → links_ok t → links_ok t'.
Proof.
  intros Hr [H1 H2].
  assert (∀ c C', cheap t' !! c = Some C' → ∃ C, cheap t !! c = Some C ∧ C' = with_channel_path (ch_pathName C') C) as Hback.
  { intros c C' EC'. destruct Hr as [_ R2]. specialize (R2 c). rewrite EC' in R2. inversion R2 as [C ? [E _] E1|]. by exists C. }
  split.
  - intros c C' l EC'. destruct (Hback c C' EC') as (C & EC & ->). cbn [with_channel_path ch_listeners]. rewrite (H1 c C l EC). split.
    + intros (L & EL & HL). destruct (repathed_channel _ _ _ _ _ _ Hr EL) as (L' & EL' & E & _). exists L'. split; [done|]. by rewrite E.
    + intros (L' & EL' & HL). destruct (Hback l L' EL') as (L & EL & E). exists L. split; [done|]. by rewrite E in HL.
  - intros c C' s EC' Hs. destruct (Hback c C' EC') as (C & EC & E). rewrite E in Hs |- *. cbn [with_channel_path ch_sources ch_profile] in *.
    destruct (H2 c C s EC Hs) as (p & P & q & ? & HP & ? & (S & ES & ?)).
    destruct (repathed_profile _ _ _ _ _ _ Hr HP) as (P' & HP' & EP & _). destruct (repathed_channel _ _ _ _ _ _ Hr ES) as (S' & ES' & E' & _).
    exists p, P', q. split_and!; [done..|by rewrite EP|]. exists S'. split; [done|]. by rewrite E'.
Qed.

Lemma node_ok_repathed t t' ps cs q : repathed t t' ps cs → node_ok t q → node_ok t' q.
Proof.
  intros Hr (P & HP & (H1 & H2 & H3) & H4). destruct (repathed_profile _ _ _ _ _ _ Hr HP) as (P' & HP' & E & _).
  exists P'. split; [done|]. rewrite E. unfold content_ok. cbn [with_path pr_type pr_directory pr_channels pr_parent].
  split; [|done]. split_and!; [done..|]. refine (Forall_impl _ _ _ H3 _). intros c (C & EC & HC).
  destruct (repathed_channel _ _ _ _ _ _ Hr EC) as (C' & EC' & EC2 & _). exists C'. split; [done|]. by rewrite EC2.
Qed.

Lemma process_profile_xml_spec fuel nodes t0 : links_ok t0 → Forall (λ node, (depth node < fuel)%nat) nodes →
  (∃ x t', process_profile_xml doc ipx_filter_parse utils_path_preprocessor fuel nodes t0 = Ok (t', Some (proot x)) ∧
     (height x ≤ fuel)%nat ∧ grown t0 t' None x ∧ links_ok t' ∧ (∀ q, q ∈ plocs x → node_ok t' q) ∧ paths_ok t' [] x) ∨
  (∃ t', process_profile_xml doc ipx_filter_parse utils_path_preprocessor fuel nodes t0 = Ok (t', None) ∧ extends t0 t' [] []).
Proof.
  intros Hl Hn. unfold process_profile_xml.
  assert (ends (find_root_profile doc ipx_filter_parse utils_path_preprocessor fuel nodes t0)
    (λ o t, match o with Some q => processed t0 None fuel q t | None => extends t0 t [] [] end) (λ t, extends t0 t [] [])) as Hf.
  { induction Hn as [|node nodes Hnode _ IH]; cbn [find_root_profile]; [apply ends_ret, extends_refl|].
    destruct (negb _); [done|]. case_decide; [|done]. eapply ends_bind.
    - by apply (process_profile_spec doc ipx_filter_parse utils_path_preprocessor depth Hdepth fuel None node t0).
    - intros q t Hq. by apply ends_ret. }
  destruct Hf as [([q|] & t & -> & Hq)|(t & -> & He)]; rewrite res_bind_ret; [|right; by exists t..].
  left. destruct Hq as (x & <- & Hh & [He Ho Hp Hc] & Hl' & Hok). exists x.
  destruct (own_allocated x t None Ho) as [Ha _]. destruct (Ha _ (proot_in x)) as [P HP].
  destruct (Profile_updatePathName_spec x fuel t None P [] Ho Hp Hc Hh) as (t' & -> & Hr & Hpaths); [done|done|done|].
  exists t'. split; [done|]. split; [done|]. split; [split|].
  - by apply (extends_repathed t0 t).
  - by apply (repathed_own t t' _ _ _ _ Hr).
  - done.
  - done.
  - split_and!; [by apply (links_repathed _ _ _ _ Hr)| |done]. intros q Hq. by apply (node_ok_repathed _ _ _ _ _ Hr), Hok.
Qed.
End process_document.

(** ** Theory: all profiles of a tree *)

Section all_profiles.
Context {filter : Type}.
Implicit Types (t : tree filter) (x y : ptree) (P Q : Profile) (C L : Channel filter) (p q c l : loc).

Lemma find_root_climbs x : ∀ t parent q, own t parent x → q ∈ plocs x →
  ∃ k, (k < height x)%nat ∧ ∀ m, loop (find_root_step t) (k + m) q = loop (find_root_step t) m (proot x).
Proof.
  induction x as [p cs subs IH] using ptree_ind'. intros t parent q Ho [->|(y & Hy & Hq)]%elem_of_plocs.
  - exists 0%nat. split; [cbn; lia|done].
  - apply own_node in Ho as (_ & _ & Hs). pose proof (Forall_elem Hs Hy) as Hoy.
    destruct (Forall_elem IH Hy t (Some p) q Hoy Hq) as (k & Hk & E). exists (k + 1)%nat. split.
    + cbn [height]. assert (height y ≤ foldr max 0%nat (height <$> subs))%nat; [|lia].
      clear -Hy. induction Hy as [|y z subs _ IH]; cbn; lia.
    + intros m. rewrite <-Nat.add_assoc, E. cbn [Nat.add loop]. destruct y as [py csy subsy].
      apply own_node in Hoy as ((P & HP & HPp & _) & _ & _). unfold find_root_step at 1, profile_get_parent, get_profile, deref.
      cbn [proot]. rewrite HP. cbn [or_fault]. by rewrite !res_bind_ret, HPp.
Qed.

Lemma all_profiles_loop t : ∀ fuel set ys, Forall (λ y, ∃ parent, own t parent y) ys →
  (length (mjoin (plocs <$> ys)) < fuel)%nat →
  loop (all_profiles_step t) fuel (set, proot <$> ys) = Ok (list_to_set (mjoin (plocs <$> ys)) ∪ set).
Proof.
  induction fuel as [|fuel IH]; intros set ys Hys Hf; [lia|]. cbn [loop].
  destruct Hys as [|[p cs subs] ys (parent & Ho) Hys]; cbn [fmap list_fmap proot all_profiles_step].
  - cbn. f_equal. set_solver.
  - apply own_node in Ho as ((P & HP & _ & _ & HPs) & _ & Hs). unfold get_profile, deref. rewrite HP. cbn [or_fault].
    rewrite res_bind_ret, HPs. change (list_fmap ptree loc proot ys) with (proot <$> ys). rewrite <-fmap_app.
    rewrite fmap_cons, mjoin_cons in Hf. cbn [plocs app length] in Hf. rewrite length_app in Hf. rewrite IH.
    + f_equal. rewrite fmap_app, join_app, mjoin_cons. cbn [plocs app]. rewrite !list_to_set_app_L. cbn [list_to_set].
      rewrite list_to_set_app_L. change (list_fmap ptree (list loc) plocs ys) with (plocs <$> ys). set_solver.
    + apply Forall_app. split; [done|]. refine (Forall_impl _ _ _ Hs _). intros y Hy. by exists (Some p).
    + rewrite fmap_app, join_app, length_app. lia.
Qed.

Lemma height_plocs x : (height x ≤ length (plocs x))%nat.
Proof.
  induction x as [p cs subs IH] using ptree_ind'. cbn [height plocs length]. apply le_n_S.
  induction IH as [|y subs Hy _ IH]; [done|]. cbn [fmap list_fmap foldr]. rewrite mjoin_cons, length_app. unfold fmap in *. lia.
Qed.

(** From any profile of a tree one comes to its root, ... *)
Lemma find_root_spec t x q fuel : own t None x → q ∈ plocs x → (length (plocs x) < fuel)%nat →
  loop (find_root_step t) fuel q = Ok (proot x).
Proof.
  intros Ho Hq Hf. destruct (find_root_climbs x t None q Ho Hq) as (k & Hk & E). pose proof (height_plocs x).
  replace fuel with (k + S (fuel - k - 1))%nat by lia. rewrite E. cbn [loop].
  destruct x as [p cs subs]. pose proof Ho as ((P & HP & HPp & _) & _ & _)%own_node.
  unfold find_root_step, profile_get_parent, get_profile, deref. cbn [proot]. rewrite HP. cbn [or_fault].
  by rewrite !res_bind_ret, HPp.
Qed.

(** ... and to the list of all its profiles, by address. *)
Lemma profile_get_all_profiles_spec t x q fuel : own t None x → q ∈ plocs x → (length (plocs x) < fuel)%nat →
  profile_get_all_profiles fuel t (Some q) = Ok (Some (by_address (list_to_set (plocs x)))).
Proof.
  intros Ho Hq Hf. unfold profile_get_all_profiles. rewrite (find_root_spec t x q fuel Ho Hq Hf), res_bind_ret.
  pose proof (all_profiles_loop t fuel ∅ [x]) as Hl. cbn [fmap list_fmap proot] in Hl. rewrite Hl.
  - rewrite res_bind_ret, mjoin_cons. cbn [mjoin list_join]. by rewrite app_nil_r, (right_id_L ∅ (∪)).
  - constructor; [by exists None|done].
  - rewrite mjoin_cons, length_app. cbn [mjoin list_join length]. lia.
Qed.

Lemma by_address_perm (s : gset loc) : by_address s ≡ₚ elements s.
Proof. apply merge_sort_Permutation. Qed.

Lemma elem_of_by_address (s : gset loc) a : a ∈ by_address s ↔ a ∈ s.
Proof. by rewrite by_address_perm, elem_of_elements. Qed.

Lemma NoDup_by_address (s : gset loc) : NoDup (by_address s).
Proof. rewrite by_address_perm. apply NoDup_elements. Qed.
End all_profiles.

(** ** Theory: matching *)

Section match_theory.
Context {filter : Type}.
Context (ipx_filter_eval : filter → ipfix_message → ipfix_record → Z) (msg : ipfix_message) (mdata : metadata).
Implicit Types (t : tree filter) (x y : ptree) (P Q : Profile) (C L : Channel filter) (p q c d : loc) (n : nat).

Abbreviation acc := (accepts ipx_filter_eval msg mdata).

(** The channels that a channel and its listeners accept the record for, in order. *)
Fixpoint matched n t c : list loc :=
  match n with
  | O => []
  | S n =>
      match cheap t !! c with
      | Some C => if acc C then c :: mjoin (matched n t <$> by_address (ch_listeners C)) else []
      | None => []
      end
  end.

(** The listeners end after [n] channels. *)
Fixpoint live n t c : Prop :=
  match n with
  | O => False
  | S n => ∃ C, cheap t !! c = Some C ∧ ∀ l, l ∈ ch_listeners C → live n t l
  end.

Lemma live_mono n m t c : (n ≤ m)%nat → live n t c → live m t c.
Proof.
  revert m c. induction n as [|n IH]; intros [|m] c Hm; cbn [live]; try done; [lia|].
  intros (C & EC & Hl). exists C. split; [done|]. intros l Hin. apply IH; [lia|auto].
Qed.

Lemma Channel_match_vector_spec n : ∀ t chs c, live n t c →
  Channel_match_vector ipx_filter_eval msg mdata n t chs c = Ok (chs ++ matched n t c).
Proof.
  induction n as [|n IH]; intros t chs c; [done|]. intros (C & EC & Hl). cbn [Channel_match_vector matched].
  unfold get_channel, deref. rewrite EC. cbn [or_fault]. rewrite res_bind_ret. destruct (acc C); [|by rewrite app_nil_r].
  destruct (fold_res_ind (λ chs child, Channel_match_vector ipx_filter_eval msg mdata n t chs child)
    (λ l r, r = (chs ++ [c]) ++ mjoin (matched n t <$> l)) (by_address (ch_listeners C)) (chs ++ [c])) as (r & -> & ->).
  - by rewrite app_nil_r.
  - intros l1 a l2 r E ->. eexists. split; [apply IH, Hl; rewrite <-elem_of_by_address, E; apply elem_of_app; right; left|].
    by rewrite mjoin_fmap_snoc, app_assoc.
  - f_equal. by rewrite <-app_assoc.
Qed.

(** *** The array *)

Record holds (data : match_data) (l : list loc) : Prop := {
  hd_counter : channelsCounter data = Z.of_nat (length l);
  hd_max : channelsMax data = Z.of_nat (length (channels data));
  hd_size : channelsMax data = 0 ∨ ∃ k, (k ≤ 13)%nat ∧ channelsMax data = 5 * 2 ^ Z.of_nat k;
  hd_content : ∃ rest, channels data = (Some <$> l) ++ rest
}.

Lemma match_data_push_spec data l c : holds data l → Z.of_nat (length l) < 40960 →
  ∃ data', match_data_push data c = Ok data' ∧ holds data' (l ++ [c]).
Proof.
  intros [Hc Hm Hs (rest & Hr)] Hl. unfold match_data_push.
  assert (∃ rest', rest' ≠ [] ∧ channels (match_data_room data) = (Some <$> l) ++ rest' ∧
    channelsCounter (match_data_room data) = Z.of_nat (length l) ∧
    channelsMax (match_data_room data) = Z.of_nat (length (channels (match_data_room data))) ∧
    ∃ k, (k ≤ 13)%nat ∧ channelsMax (match_data_room data) = 5 * 2 ^ Z.of_nat k) as (rest' & Hne & E1 & E2 & E3 & E4).
  { rewrite Hr, length_app, length_fmap in Hm. unfold match_data_room. destruct (decide (channelsMax data = 0)) as [H0|H0].
    - assert (length l = 0%nat) as Hl0 by lia. destruct l; [|done]. exists (replicate 5 None). cbn. split_and!; try done.
      exists 0%nat. split; [lia|done].
    - destruct Hs as [?|(k & Hk & Hs)]; [done|]. destruct (decide (channelsCounter data = channelsMax data)) as [He|He].
      + cbn [channels channelsCounter channelsMax]. assert (rest = []) as ->.
        { destruct rest; [done|]. cbn [length] in Hm. lia. }
        rewrite app_nil_r in Hr. assert (Z.of_nat (length (channels data)) = channelsMax data) as Hlen
          by (rewrite Hr, length_fmap; lia).
        assert (k ≤ 12)%nat as Hk12.
        { destruct (decide (k = 13%nat)) as [->|]; [|lia]. change (5 * 2 ^ Z.of_nat 13) with 40960 in Hs. lia. }
        assert (channelsMax data * 2 = 5 * 2 ^ Z.of_nat (S k)) as E2 by (rewrite Nat2Z.inj_succ, Z.pow_succ_r; lia).
        assert (0 < channelsMax data * 2 < 65536) as Hb.
        { rewrite E2. pose proof (Z.pow_pos_nonneg 2 (Z.of_nat (S k)) ltac:(lia) ltac:(lia)).
          pose proof (Z.pow_le_mono_r 2 (Z.of_nat (S k)) 13 ltac:(lia) ltac:(lia)) as Hp. change (2 ^ 13) with 8192 in Hp. lia. }
        rewrite firstn_all2 by lia. exists (replicate (Z.to_nat (channelsMax data * 2) - length (channels data)) None).
        split_and!; [|by rewrite Hr at 1|done| |].
        * intros Hn. apply (f_equal length) in Hn. rewrite length_replicate in Hn. cbn in Hn. lia.
        * rewrite u16_small by lia. rewrite length_app, length_replicate. lia.
        * exists (S k). split; [lia|]. by rewrite u16_small by lia.
      + exists rest. split_and!; [|done|done| |by exists k].
        * intros ->. cbn [length] in Hm. lia.
        * rewrite Hr, length_app, length_fmap. lia. }
  rewrite E1, E2. destruct rest' as [|r0 rest']; [done|]. rewrite decide_True by (rewrite length_app, length_fmap; cbn; lia).
  eexists. split; [done|]. rewrite Nat2Z.id. split; cbn [channels channelsCounter channelsMax].
  - rewrite u16_small by lia. rewrite length_app. cbn. lia.
  - rewrite length_insert, E3, E1. done.
  - by right.
  - exists rest'. rewrite insert_app_r_alt by (rewrite length_fmap; lia). rewrite length_fmap, Nat.sub_diag. cbn.
    by rewrite fmap_app, <-app_assoc.
Qed.

Lemma Channel_match_spec n : ∀ t data l c, live n t c → holds data l →
  Z.of_nat (length (l ++ matched n t c)) ≤ 40960 →
  ∃ data', Channel_match ipx_filter_eval msg mdata n t data c = Ok data' ∧ holds data' (l ++ matched n t c).
Proof.
  induction n as [|n IH]; intros t data l c; [done|]. intros (C & EC & Hl) Hh Hlen. cbn [Channel_match matched] in *.
  unfold get_channel, deref. rewrite EC in Hlen |- *. cbn [or_fault]. rewrite res_bind_ret. destruct (acc C); [|exists data; by rewrite app_nil_r].
  rewrite length_app in Hlen. cbn [length] in Hlen.
  destruct (match_data_push_spec data l c Hh) as (data1 & -> & H1); [lia|]. rewrite res_bind_ret.
  destruct (fold_res_ind (λ data child, Channel_match ipx_filter_eval msg mdata n t data child)
    (λ ls r, holds r ((l ++ [c]) ++ mjoin (matched n t <$> ls))) (by_address (ch_listeners C)) data1) as (r & -> & Hr).
  - by rewrite app_nil_r.
  - intros l1 a l2 r E Hr. rewrite mjoin_fmap_snoc, app_assoc. apply IH; [|done|].
    + apply Hl. rewrite <-elem_of_by_address, E. apply elem_of_app. right. left.
    + rewrite E, fmap_app, join_app, fmap_cons, mjoin_cons, !length_app in Hlen. rewrite !length_app. cbn [length]. lia.
  - exists r. split; [done|]. by rewrite <-app_assoc in Hr.
Qed.

(** *** Who gets a record *)

(** A channel that accepts the record feeds its listeners. *)
Definition feeds t c d : Prop := ∃ C, cheap t !! c = Some C ∧ acc C = true ∧ d ∈ ch_listeners C.
Definition accepting t c : Prop := ∃ C, cheap t !! c = Some C ∧ acc C = true.

Lemma elem_of_matched n : ∀ t c d, live n t c → d ∈ matched n t c ↔ rtc (feeds t) c d ∧ accepting t d.
Proof.
  induction n as [|n IH]; intros t c d; [done|]. intros (C & EC & Hl). cbn [matched]. rewrite EC. destruct (acc C) eqn:Ea.
  - rewrite elem_of_cons, list_elem_of_join. split.
    + intros [->|(ds & Hd & (l & -> & Hin%elem_of_by_address)%list_elem_of_fmap)]; [split; [done|by exists C]|].
      apply IH in Hd as [Hr Hacc]; [|auto]. split; [|done]. eapply rtc_l; [|exact Hr]. by exists C.
    + intros [Hr Hacc]. apply rtc_inv in Hr as [->|(l & (C' & EC' & _ & Hin) & Hr)]; [by left|right].
      assert (C' = C) as -> by congruence. exists (matched n t l). split; [apply IH; auto|].
      apply list_elem_of_fmap_2. by apply elem_of_by_address.
  - split; [by intros ?%not_elem_of_nil|]. intros [Hr Hacc].
    apply rtc_inv in Hr as [->|(l & (C' & EC' & Ha & _) & _)]; [destruct Hacc as (C' & EC' & ?)|]; congruence.
Qed.

(** *** The listeners of a channel of a tree are channels of the subprofiles. *)

Definition children_known t x : Prop :=
  ∀ q Q p, pheap t !! q = Some Q → pr_parent Q = Some p → p ∈ plocs x → q ∈ plocs x.

Lemma own_parent x : ∀ t parent q Q, own t parent x → q ∈ plocs x → pheap t !! q = Some Q →
  (q = proot x ∧ pr_parent Q = parent) ∨ ∃ p, p ∈ plocs x ∧ pr_parent Q = Some p.
Proof.
  induction x as [p cs subs IH] using ptree_ind'. intros t parent q Q ((P & HP & HPp & _) & _ & Hs)%own_node Hq HQ.
  apply elem_of_plocs in Hq as [->|(y & Hy & Hq)].
  - left. split; [done|]. congruence.
  - right. destruct (Forall_elem IH Hy t (Some p) q Q (Forall_elem Hs Hy) Hq HQ) as [ [_ HQp]|(p' & Hp' & HQp)].
    + exists p. split; [apply elem_of_plocs; by left|done].
    + exists p'. split; [apply elem_of_plocs; eauto|done].
Qed.

Lemma tree_live x : ∀ t parent c, own t parent x → NoDup (plocs x) → children_known t x → links_ok t →
  (∀ q, parent = Some q → q ∉ plocs x) → channel_at t (proot x) c → live (height x) t c.
Proof.
  induction x as [p cs subs IH] using ptree_ind'. intros t parent c Ho Hp Hk Hl Hpar (C & EC & HC).
  pose proof Ho as (_ & _ & Hs)%own_node. cbn [plocs] in Hp. apply NoDup_cons in Hp as [Hp1 Hp2].
  cbn [height live]. exists C. split; [done|]. intros l Hin.
  destruct (proj1 (lk_dual t Hl c C l EC) Hin) as (L & EL & HcL).
  destruct (lk_source t Hl l L c EL HcL) as (p' & P' & q & HL & HP' & HPq & (C' & EC' & HC')).
  assert (C' = C) as -> by congruence. assert (q = p) as -> by (cbn in HC; congruence).
  assert (p' ∈ plocs (PNode p cs subs)) as Hp' by (apply (Hk p' P' p); [done..|]; apply elem_of_plocs; by left).
  apply elem_of_plocs in Hp' as [->|(y & Hy & Hp')].
  { pose proof Ho as ((P & HP & HPp & _) & _)%own_node. exfalso. apply (Hpar p); [congruence|]. apply elem_of_plocs. by left. }
  pose proof (Forall_elem Hs Hy) as Hoy.
  assert (p ∉ plocs y) as Hpy by (intros H; by apply Hp1, (elem_of_mjoin _ _ y)).
  destruct (own_parent y t (Some p) p' P' Hoy Hp' HP') as [ [-> _]|(p2 & Hp2' & ?)]; [|assert (p2 = p) as -> by congruence; done].
  apply list_elem_of_split in Hy as Hsplit. destruct Hsplit as (l1 & l2 & Esub).
  rewrite Esub in Hp2. destruct (NoDup_mjoin_split plocs l1 y l2 Hp2) as [Hyp Hyd].
  apply (live_mono (height y)).
  - clear -Hy. induction Hy as [|y z subs _ IH]; cbn; lia.
  - apply (Forall_elem IH Hy t (Some p)); [done|done| |done|by intros ? [= <-]|by exists L].
    intros r R pr HR HRp Hin'. assert (r ∈ plocs (PNode p cs subs)) as Hr.
    { apply (Hk r R pr HR HRp), elem_of_plocs. right. by exists y. }
    apply elem_of_plocs in Hr as [->|(z & Hz & Hrz)].
    + pose proof Ho as ((P & HP & HPp & _) & _)%own_node. exfalso. apply (Hpar pr); [congruence|]. apply elem_of_plocs. right. by exists y.
    + destruct (own_parent z t (Some p) r R (Forall_elem Hs Hz) Hrz HR) as [ [-> Hpr]|(p2 & Hp2' & Hpr)].
      * assert (pr = p) as -> by congruence. done.
      * assert (p2 = pr) as -> by congruence.
        rewrite Esub in Hz. apply elem_of_app in Hz as [Hz|[->|Hz]%elem_of_cons]; [|done|].
        -- destruct (Hyd pr Hin') as [Hn _]. by destruct Hn; apply (elem_of_mjoin _ _ z).
        -- destruct (Hyd pr Hin') as [_ Hn]. by destruct Hn; apply (elem_of_mjoin _ _ z).
Qed.

Lemma grown_children_known t0 t x : (∀ q Q p, pheap t0 !! q = Some Q → pr_parent Q = Some p → is_Some (pheap t0 !! p)) →
  grown t0 t None x → children_known t x.
Proof.
  intros Hcl [He _ _ _] q Q p HQ HQp Hp. destruct (decide (q ∈ plocs x)) as [|Hq]; [done|].
  rewrite (ex_old_profile _ _ _ _ He q Hq) in HQ. destruct (Hcl q Q p HQ HQp) as [P HP].
  destruct (ex_new_profile _ _ _ _ He p Hp). congruence.
Qed.

(** *** The match of a profile *)

Lemma Profile_match_spec n t p P : pheap t !! p = Some P → Forall (live n t) (pr_channels P) →
  Z.of_nat (length (mjoin (matched n t <$> pr_channels P))) ≤ 40960 →
  ∃ data, Profile_match ipx_filter_eval msg mdata n t {| channels := []; channelsCounter := 0; channelsMax := 0 |} p = Ok data ∧
    holds data (mjoin (matched n t <$> pr_channels P)).
Proof.
  intros HP Hl Hlen. unfold Profile_match, get_profile, deref. rewrite HP. cbn [or_fault]. rewrite res_bind_ret.
  apply (fold_res_ind _ (λ l r, holds r (mjoin (matched n t <$> l)))).
  - split; [done|done|by left|by exists []].
  - intros l1 a l2 r E Hr. rewrite mjoin_fmap_snoc. apply Channel_match_spec; [|done|].
    + apply (Forall_elem Hl). rewrite E. apply elem_of_app. right. left.
    + rewrite E, fmap_app, join_app, fmap_cons, mjoin_cons, !length_app in Hlen. rewrite length_app. lia.
Qed.

Lemma profile_match_data_spec n t p P : pheap t !! p = Some P → Forall (live n t) (pr_channels P) →
  let l := mjoin (matched n t <$> pr_channels P) in
  Z.of_nat (length l) ≤ 40960 →
  match l with
  | [] => profile_match_data ipx_filter_eval msg mdata n t p = Ok None
  | _ => ∃ rest, profile_match_data ipx_filter_eval msg mdata n t p = Ok (Some ((Some <$> l) ++ None :: rest))
  end.
Proof.
  intros HP Hl l Hlen. destruct (Profile_match_spec n t p P HP Hl Hlen) as (data & E & [Hc Hm Hs (rest & Hr)]).
  fold l in Hc, Hr. unfold profile_match_data. rewrite E, res_bind_ret. destruct l as [|c l'] eqn:El.
  { rewrite decide_True; [done|]. right. done. }
  rewrite Hr in Hm. rewrite decide_False.
  2: { rewrite Hc, Hr. intros [H|H]; done. }
  rewrite length_app, length_fmap in Hm. set (cl := c :: l') in *. clearbody cl.
  destruct (decide (channelsCounter data = channelsMax data)) as [Hf|Hf].
  - assert (rest = []) as -> by (destruct rest; [done|cbn in Hm; lia]). rewrite app_nil_r in Hr.
    rewrite Hc, Hr, firstn_all2 by (rewrite length_fmap; lia). rewrite length_fmap.
    replace (Z.to_nat (Z.of_nat (length cl) + 1) - length cl)%nat with 1%nat by lia.
    rewrite decide_True by (rewrite length_app, length_fmap; cbn; lia). exists []. do 2 f_equal.
    rewrite Nat2Z.id, insert_app_r_alt by (rewrite length_fmap; lia). by rewrite length_fmap, Nat.sub_diag.
  - destruct rest as [|r rest]; [cbn in Hm; lia|]. rewrite Hc, Hr. rewrite decide_True by (rewrite length_app, length_fmap; cbn; lia).
    exists rest. do 2 f_equal. rewrite Nat2Z.id, insert_app_r_alt by (rewrite length_fmap; lia). by rewrite length_fmap, Nat.sub_diag.
Qed.
End match_theory.

(** ** Properties *)

(** C1: processing a document ends, and gives a tree or leaves nothing behind.  If a part
    of the document is wrong, everything that was allocated is freed again and of the
    objects that were there before only listeners may have changed.  Otherwise the new
    objects are exactly those of one tree, without sharing: parents, subprofiles and
    channels point to each other; every profile has a type, an absolute directory that
    ends with a slash and at least one channel; every channel below the root has a source,
    sources are channels of the parent profile and listeners are the reverse of sources;
    and the paths are those of the names from the root down. *)
Theorem process_profile_xml_builds {filter} (doc : xml_api) (ipx_filter_parse : bytes → option filter)
    (utils_path_preprocessor : bytes → option bytes) (depth : xmlNode doc → nat) fuel nodes t0 :
  (∀ node child, child ∈ xmlChildren doc node → (depth child < depth node)%nat) →
  links_ok t0 → Forall (λ node, (depth node < fuel)%nat) nodes →
  (∃ x t', process_profile_xml doc ipx_filter_parse utils_path_preprocessor fuel nodes t0 = Ok (t', Some (proot x)) ∧
     (height x ≤ fuel)%nat ∧ grown t0 t' None x ∧ links_ok t' ∧ (∀ q, q ∈ plocs x → node_ok t' q) ∧ paths_ok t' [] x) ∨
  (∃ t', process_profile_xml doc ipx_filter_parse utils_path_preprocessor fuel nodes t0 = Ok (t', None) ∧ extends t0 t' [] []).
Proof. intros Hd. exact (process_profile_xml_spec doc ipx_filter_parse utils_path_preprocessor depth Hd fuel nodes t0). Qed.

(** C2: a data record goes to the channels that are to get it and to no others: the array
    that the match of a root profile gives lists, with a null pointer behind them, exactly
    the channels that accept the record and that it reaches from a channel of that profile
    over channels that accept it; without any there is no array. *)
Theorem profile_match_data_reaches {filter} (ipx_filter_eval : filter → ipfix_message → ipfix_record → Z) msg mdata t0 t x :
  grown t0 t None x → links_ok t →
  (∀ q Q p, pheap t0 !! q = Some Q → pr_parent Q = Some p → is_Some (pheap t0 !! p)) →
  Z.of_nat (length (mjoin (matched ipx_filter_eval msg mdata (height x) t <$> pchannels x))) ≤ 40960 →
  ∃ l rest,
    profile_match_data ipx_filter_eval msg mdata (height x) t (proot x) =
      Ok (match l with [] => None | _ => Some ((Some <$> l) ++ None :: rest) end) ∧
    ∀ d, d ∈ l ↔ (∃ c, c ∈ pchannels x ∧ rtc (feeds ipx_filter_eval msg mdata t) c d) ∧ accepting ipx_filter_eval msg mdata t d.
Proof.
  intros Hg Hl Hcl Hlen. pose proof Hg as [_ Ho Hp _]. pose proof (grown_children_known t0 t x Hcl Hg) as Hk.
  destruct x as [p cs subs]. pose proof Ho as ((P & HP & _ & HPc & _) & Hcs & _)%own_node.
  assert (Forall (live (height (PNode p cs subs)) t) cs) as Hlive.
  { refine (Forall_impl _ _ _ Hcs _). intros c Hc. by apply (tree_live (PNode p cs subs) t None). }
  cbn [pchannels proot] in *. rewrite <-HPc in Hlive, Hlen |- *.
  pose proof (profile_match_data_spec ipx_filter_eval msg mdata _ t p P HP Hlive Hlen) as Hm. cbv zeta in Hm.
  set (l := mjoin _) in *. exists l.
  assert (∀ d, d ∈ l ↔ (∃ c, c ∈ pr_channels P ∧ rtc (feeds ipx_filter_eval msg mdata t) c d) ∧ accepting ipx_filter_eval msg mdata t d) as Hd.
  { intros d. subst l. rewrite list_elem_of_join. split.
    - intros (ds & Hin & (c & -> & Hc)%list_elem_of_fmap). apply elem_of_matched in Hin as [? ?]; [|by apply (Forall_elem Hlive)].
      split; [by exists c|done].
    - intros [(c & Hc & Hr) Hacc]. eexists. split; [|by apply list_elem_of_fmap_2].
      apply elem_of_matched; [by apply (Forall_elem Hlive)|done]. }
  destruct l as [|c l]; [exists []; by split|]. destruct Hm as (rest & ->). exists rest. by split.
Qed.

(** ** Witnesses and examples *)

(** Documents for examples. *)
Inductive xml_elem :=
  | Elem (name : bytes) (attr : bytes) (children : list xml_elem)
  | Text (content : bytes).

Fixpoint xml_depth (e : xml_elem) : nat :=
  match e with
  | Elem _ _ children => S (foldr max 0%nat (xml_depth <$> children))
  | Text _ => 0
  end.

(** The content of an element is the text in it. *)
Definition xml_example : xml_api := {|
  xmlNode := xml_elem;
  xmlChildren e := match e with Elem _ _ children => children | Text _ => [] end;
  xmlName e := match e with Elem name _ _ => name | Text _ => [] end;
  xmlIsElement e := match e with Elem _ _ _ => true | Text _ => false end;
  xmlNodeIsText e := match e with Elem _ _ _ => false | Text _ => true end;
  xmlGetProp e _ := match e with Elem _ attr _ => Some attr | Text _ => None end;
  xmlNodeGetContent e := match e with Elem _ _ (Text s :: _) => Some s | Text s => Some s | _ => None end
|}.

Lemma xml_example_depth node child : child ∈ xmlChildren xml_example node → (xml_depth child < xml_depth node)%nat.
Proof.
  destruct node as [name attr children|s]; cbn [xmlChildren xml_example]; [|by intros ?%not_elem_of_nil].
  intros H. cbn [xml_depth]. apply le_n_S. induction H as [|e e' children _ IH]; cbn; lia.
Qed.

Definition channel_node (name : bytes) (filters : list xml_elem) (source : bytes) : xml_elem :=
  Elem str_channel name (filters ++ [Elem str_sourceList [] [Elem str_source [] [Text source] ] ]).
Definition profile_node (name : bytes) (chs subs : list xml_elem) : xml_elem :=
  Elem str_profile name ([Elem str_type [] [Text str_normal]; Elem str_directory [] [Text [47; 100] ];
    Elem str_channelList [] chs] ++ match subs with [] => [] | _ => [Elem str_subprofileList [] subs] end).

(** The profile [live] with the channels [a] and [b], and a subprofile [s] with a channel
    that has both as sources. *)
Definition document_example : xml_elem :=
  profile_node [108] [channel_node [97] [] str_star; channel_node [98] [Elem str_filter [] [Text [1] ] ] str_star]
    [profile_node [115] [channel_node [99] [] [97; 44; 32; 98] ] [] ].
Definition no_tree : tree bool := {| pheap := ∅; cheap := ∅; profiles_cnt := 1; channels_cnt := 1 |}.
Definition run_example : res (tree bool * option loc) :=
  process_profile_xml xml_example (λ _, Some false) Some 10 [document_example] no_tree.
Definition tree_example : tree bool :=
  match run_example with
  | Ok (t, _) => t
  | _ => no_tree
  end.

Lemma no_tree_links : links_ok no_tree.
Proof. by split. Qed.

Lemma process_profile_xml_builds_witness : ∃ x,
  run_example = Ok (tree_example, Some (proot x)) ∧ grown no_tree tree_example None x ∧ links_ok tree_example ∧ paths_ok tree_example [] x.
Proof.
  destruct (process_profile_xml_builds xml_example (λ _, Some false) Some xml_depth 10 [document_example] no_tree
    xml_example_depth no_tree_links) as [(x & t' & E & _ & Hg & Hl & _ & Hp)|(t' & E & _)].
  - constructor; [|constructor]. apply (bool_decide_unpack _). by vm_compute.
  - fold run_example in E. exists x. assert (t' = tree_example) as Et by (unfold tree_example; rewrite E; reflexivity).
    rewrite Et in E, Hg, Hl, Hp. exact (conj E (conj Hg (conj Hl Hp))).
  - fold run_example in E. assert (match run_example with Ok (_, Some _) => true | _ => false end = true) as H
      by (vm_compute; reflexivity).
    rewrite E in H. discriminate H.
Defined.

(** The heap and the root determine the tree. *)
Lemma own_inj {filter} (t : tree filter) x : ∀ parent y, own t parent x → own t parent y → proot x = proot y → x = y.
Proof.
  induction x as [p cs subs IH] using ptree_ind'. intros parent [p' cs' subs'] Hx Hy Ep. cbn in Ep. subst p'.
  apply own_node in Hx as ((P & HP & _ & Hc & Hs) & _ & Hsub). apply own_node in Hy as ((P' & HP' & _ & Hc' & Hs') & _ & Hsub').
  assert (P' = P) as -> by congruence. rewrite Hc in Hc'. rewrite Hs in Hs'. subst cs'. f_equal. clear HP Hc Hs HP'.
  revert subs' Hs' Hsub'. induction IH as [|y subs Hy _ IHs]; intros [|y' subs'] E Hsub'; try done.
  cbn in E. injection E as E1 E2. apply Forall_cons in Hsub as [H1 H2]. apply Forall_cons in Hsub' as [H1' H2'].
  f_equal; [by apply (Hy (Some p))|by apply IHs].
Qed.

(** The channel of the subprofile has one of its two sources accept a record. *)
Lemma profile_match_data_reaches_witness : ∃ x l rest,
  x = PNode 1 [1%positive; 2%positive] [PNode 2 [3%positive] [] ] ∧ l = [1%positive; 3%positive] ∧
  profile_match_data (λ (f : bool) _ _, if f then 1 else 0) message_create_empty (metadata_example None) (height x) tree_example (proot x)
  = Ok (Some ((Some <$> l) ++ None :: rest)).
Proof.
  destruct process_profile_xml_builds_witness as (x & E & Hg & Hl & _).
  assert (proot x = 1%positive) as Hx.
  { assert (match run_example with Ok (_, Some p) => p | _ => 2%positive end = 1%positive) as H by (vm_compute; reflexivity).
    rewrite E in H. exact H. }
  pose proof (own_inj tree_example x None (PNode 1 [1%positive; 2%positive] [PNode 2 [3%positive] [] ]) (gr_own _ _ _ _ Hg)) as Ex.
  assert (x = PNode 1 [1%positive; 2%positive] [PNode 2 [3%positive] [] ]) as ->.
  { apply Ex; [|exact Hx]. unfold own, node_at, channel_at. cbn [fmap list_fmap foldr proot]. split_and!; vm_compute;
    try (eexists; split_and!; reflexivity); try exact I; repeat (constructor || (eexists; split; reflexivity)). }
  destruct (profile_match_data_reaches (λ (f : bool) _ _, if f then 1 else 0) message_create_empty (metadata_example None)
    no_tree tree_example _ Hg Hl) as (l & rest & Em & Hd).
  - by intros q Q p.
  - vm_compute. discriminate.
  - eexists _, [1%positive; 3%positive], _. split; [reflexivity|]. split; [reflexivity|]. vm_compute. reflexivity.
Defined.

(** Two filters in a channel are taken as none: the count of 2 is looked at only after the
    missing node. *)
Example two_filters_are_none :
  let f := Elem str_filter [] [Text [1] ] in
  channel_parse_filter xml_example (λ _, Some false) (channel_node [97] [f; f] str_star) no_tree = Ok (no_tree, Some None).
Proof. by vm_compute. Qed.
