(* ===== verification/ProfileEvents.v ===== *)
(** * Profile events (src/base/src/utils/profiles/profile_events.c)

    The manager tells a plugin about the profiles and channels of the records that it
    stores: callbacks on new, deleted and changed ones and on their data.  Items are heap
    objects; the arrays of the groups hold pointers to them, and the item of a channel
    points to that of its profile.  The callbacks get the context by value and change the
    state [W] of the plugin; the fields of a context that they may write through are data
    of the plugin, pointers to them are numbers with 0 as null.  Profiles and channels are
    those of the heap of trees in Profiles.v.  Sizes ([size_t]) count allocated objects, and
    allocation succeeds. *)

From S2P Require Import Prelude CLib Message Bitset Profiles.

Definition PEVENTS_HINT_PROFILE : Z := 8.
Definition PEVENTS_HINT_CHANNELS : Z := 32.
Definition PEVENTS_HINT_OVERLAP : Z := 8.
Definition PEVENTS_CHANGE_TYPE : Z := Z.shiftl 1 0.
Definition PEVENTS_CHANGE_DIR : Z := Z.shiftl 1 1.

Record pevents_ctx := { ptr : loc; local : Z; global : Z }.

Record pevents_item := { ctx : pevents_ctx; parent_ptr : option loc; idx : Z }.

Definition with_ctx (c : pevents_ctx) (item : pevents_item) : pevents_item :=
  {| ctx := c; parent_ptr := parent_ptr item; idx := idx item |}.
Definition with_idx (i : Z) (item : pevents_item) : pevents_item :=
  {| ctx := ctx item; parent_ptr := parent_ptr item; idx := i |}.
Definition with_ptr (p : loc) (c : pevents_ctx) : pevents_ctx := {| ptr := p; local := local c; global := global c |}.
Definition with_local (l : Z) (c : pevents_ctx) : pevents_ctx := {| ptr := ptr c; local := l; global := global c |}.
Definition with_global (g : Z) (c : pevents_ctx) : pevents_ctx := {| ptr := ptr c; local := local c; global := g |}.

Abbreviation items := (gmap loc pevents_item).

Definition upd_item (h : items) (l : loc) (f : pevents_item → pevents_item) : res items :=
  item ← deref h l; Ok (<[l := f item]> h).
Definition upd_ctx (h : items) (l : loc) (f : pevents_ctx → pevents_ctx) : res items :=
  upd_item h l (λ item, with_ctx (f (ctx item)) item).

Section events.
Context {filter W Rec : Type}.

(** Any of the callbacks can be null. *)
Record pevent_cb_set := {
  on_create : option (pevents_ctx → W → W * Z);
  on_delete : option (pevents_ctx → W → W);
  on_update : option (pevents_ctx → Z → W → W);
  on_data : option (pevents_ctx → Rec → W → W)
}.

(** [all_ptr] is the part of the array that is in use, [all_prealloc] its size. *)
Record pevents_group := {
  bitset : bitset_t;
  cbs : pevent_cb_set;
  all_ptr : list loc;
  all_prealloc : Z
}.

Record pevents_t := { mchannels : pevents_group; mprofiles : pevents_group; user_global : Z }.

Record pevents_update := {
  uchannels : pevents_group;
  uprofiles : pevents_group;
  chnl_flags : list Z;
  prfl_flags : list Z
}.

Definition all_size (grp : pevents_group) : Z := Z.of_nat (length (all_ptr grp)).

Definition with_bitset (b : bitset_t) (grp : pevents_group) : pevents_group :=
  {| bitset := b; cbs := cbs grp; all_ptr := all_ptr grp; all_prealloc := all_prealloc grp |}.
Definition with_cbs (c : pevent_cb_set) (grp : pevents_group) : pevents_group :=
  {| bitset := bitset grp; cbs := c; all_ptr := all_ptr grp; all_prealloc := all_prealloc grp |}.
Definition with_all_ptr (l : list loc) (grp : pevents_group) : pevents_group :=
  {| bitset := bitset grp; cbs := cbs grp; all_ptr := l; all_prealloc := all_prealloc grp |}.
Definition clear_bits (grp : pevents_group) : pevents_group := with_bitset (bitset_clear (bitset grp)) grp.
Definition with_groups (channels profiles : pevents_group) (mgr : pevents_t) : pevents_t :=
  {| mchannels := channels; mprofiles := profiles; user_global := user_global mgr |}.

(** ** Groups *)

(** No group after an error. *)
Definition group_init (items_cnt : Z) : option pevents_group :=
  if decide (items_cnt = 0) then None
  else Some {| bitset := bitset_create items_cnt;
               cbs := {| on_create := None; on_delete := None; on_update := None; on_data := None |};
               all_ptr := []; all_prealloc := items_cnt |}.

Definition group_resize (grp : pevents_group) (items_cnt : Z) : pevents_group :=
  if decide (all_prealloc grp >= items_cnt) then grp
  else {| bitset := bitset_resize (bitset grp) items_cnt; cbs := cbs grp; all_ptr := all_ptr grp; all_prealloc := items_cnt |}.

Definition group_deinit (h : items) (grp : pevents_group) : res items :=
  fold_res (λ h l, _ ← deref h l; Ok (delete l h)) (all_ptr grp) h.

(** The new item is zero but for its index; the address 1 stands for the null pointer that
    [ptr] holds until it is set. *)
Definition group_item_new (h : items) (grp : pevents_group) : res (items * pevents_group * loc) :=
  let grp := if decide (all_size grp = all_prealloc grp) then group_resize grp (2 * all_prealloc grp) else grp in
  if decide (all_size grp < all_prealloc grp) then
    let l := fresh (dom h) in
    let item := {| ctx := {| ptr := 1; local := 0; global := 0 |}; parent_ptr := None; idx := all_size grp |} in
    Ok (<[l := item]> h, with_all_ptr (all_ptr grp ++ [l]) grp, l)
  else Fault OobWrite.

Definition group_item_cmp (val1 val2 : loc) : Z :=
  if decide (val1 = val2) then 0 else if decide (val1 < val2)%positive then -1 else 1.

Definition ptr_of (h : items) (l : loc) : res loc := item ← deref h l; Ok (ptr (ctx item)).

Definition group_item_find (h : items) (grp : pevents_group) (item : loc) : res (option loc) :=
  bsearch (λ l, p ← ptr_of h l; Ok (group_item_cmp item p)) (all_ptr grp).

Definition group_item_at (grp : pevents_group) (i : Z) : option loc :=
  if decide (i >= all_size grp) then None else all_ptr grp !! Z.to_nat i.

(** [qsort] with the comparison of addresses, then the new indexes. *)
Definition group_le (a b : loc * loc) : Prop := group_item_cmp a.1 b.1 <= 0.
#[export] Instance group_le_dec a b : Decision (group_le a b).
Proof. unfold group_le. apply _. Defined.

Definition group_sort (h : items) (grp : pevents_group) : res (items * pevents_group) :=
  keyed ← mapM (λ l, p ← ptr_of h l; Ok (p, l)) (all_ptr grp);
  let sorted := (merge_sort group_le keyed).*2 in
  h ← fold_res (λ h (x : Z * loc), upd_item h x.2 (with_idx x.1)) (zip (seqZ 0 (all_size grp)) sorted) h;
  Ok (h, with_all_ptr sorted grp).

(** The loop over the items of a group. *)
Definition item_at_index (grp : pevents_group) (i : Z) : res loc := or_fault NullDeref (group_item_at grp i).
Definition for_indexes {X} (grp : pevents_group) (f : X → Z → res X) (x : X) : res X :=
  fold_res f (seqZ 0 (all_size grp)) x.

Definition group_on_create (grp : pevents_group) (s : items * W) : res (items * W) :=
  match on_create (cbs grp) with
  | None => Ok s
  | Some create_fn =>
      for_indexes grp (λ '(h, w) i,
        b ← bitset_get_fast (bitset grp) i;
        if b : bool then Ok (h, w)
        else
          l ← item_at_index grp i;
          item ← deref h l;
          let '(w, user_local) := create_fn (ctx item) w in
          h ← upd_ctx h l (with_local user_local);
          Ok (h, w)) s
  end.

Definition group_on_delete (h : items) (grp : pevents_group) (w : W) : res W :=
  match on_delete (cbs grp) with
  | None => Ok w
  | Some delete_fn =>
      for_indexes grp (λ w i,
        b ← bitset_get_fast (bitset grp) i;
        if b : bool then Ok w
        else l ← item_at_index grp i; item ← deref h l; Ok (delete_fn (ctx item) w)) w
  end.

Definition group_on_update (h : items) (grp : pevents_group) (flag_arr : list Z) (w : W) : res W :=
  match on_update (cbs grp) with
  | None => Ok w
  | Some update_fn =>
      for_indexes grp (λ w i,
        flag ← or_fault OobRead (flag_arr !! Z.to_nat i);
        if decide (flag = 0) then Ok w
        else l ← item_at_index grp i; item ← deref h l; Ok (update_fn (ctx item) flag w)) w
  end.

Definition group_on_general (h : items) (grp : pevents_group) (fn : pevents_ctx → W → W) (w : W) : res W :=
  for_indexes grp (λ w i, l ← item_at_index grp i; item ← deref h l; Ok (fn (ctx item) w)) w.

(** ** The update of the configuration *)

(** The channel with the index, in the group under construction; left with the groups as
    they are after an error. *)
Definition parse_channel (t : tree filter) (profile_ptr profile_item : loc) (j : Z) (s : items * pevents_group)
    : res ((items * pevents_group) + (items * pevents_group)) :=
  let '(h, channels) := s in
  c ← profile_get_channel t profile_ptr j;
  match c with
  | None => Ok (inr s)
  | Some channel_ptr =>
      '(h, channels, l) ← group_item_new h channels;
      h ← upd_item h l (λ item, {| ctx := with_ptr channel_ptr (ctx item); parent_ptr := Some profile_item; idx := idx item |});
      Ok (inl (h, channels))
  end.

Definition parse_profile (t : tree filter) (profile_ptr : loc) (s : items * pevents_group * pevents_group)
    : res ((items * pevents_group * pevents_group) + (items * pevents_group * pevents_group)) :=
  let '(h, channels, profiles) := s in
  '(h, profiles, l) ← group_item_new h profiles;
  h ← upd_item h l (λ item, {| ctx := with_ptr profile_ptr (ctx item); parent_ptr := None; idx := idx item |});
  channel_cnt ← profile_get_channels t profile_ptr;
  x ← for_each (parse_channel t profile_ptr l) (seqZ 0 channel_cnt) (h, channels);
  Ok (match x with inl (h, channels) => inl (h, channels, profiles) | inr (h, channels) => inr (h, channels, profiles) end).

Definition pevents_update_parse_tree (fuel : nat) (t : tree filter) (h : items) (update : pevents_update) (tree_root : option loc)
    : res (items * pevents_update * Z) :=
  profile_list ← profile_get_all_profiles fuel t tree_root;
  match profile_list with
  | None => Ok (h, update, 1)
  | Some profile_list =>
      x ← for_each (parse_profile t) profile_list (h, uchannels update, uprofiles update);
      match x with
      | inr (h, channels, profiles) =>
          Ok (h, {| uchannels := channels; uprofiles := profiles; chnl_flags := chnl_flags update; prfl_flags := prfl_flags update |}, 1)
      | inl (h, channels, profiles) =>
          let chnl_flags := replicate (length (all_ptr channels)) 0 in
          let prfl_flags := replicate (length (all_ptr profiles)) 0 in
          '(h, channels) ← group_sort h channels;
          '(h, profiles) ← group_sort h profiles;
          Ok (h, {| uchannels := channels; uprofiles := profiles; chnl_flags := chnl_flags; prfl_flags := prfl_flags |}, 0)
      end
  end.

Definition pevents_update_delete (h : items) (update : pevents_update) : res items :=
  h ← group_deinit h (uchannels update); group_deinit h (uprofiles update).

Definition set_global (g : Z) (h : items) (grp : pevents_group) : res items :=
  for_indexes grp (λ h i, l ← item_at_index grp i; upd_ctx h l (with_global g)) h.

Definition pevents_update_create (fuel : nat) (t : tree filter) (h : items) (mgr : pevents_t) (tree_root : option loc)
    : res (items * option pevents_update) :=
  let profile_hint := Z.max (all_size (mprofiles mgr) + PEVENTS_HINT_OVERLAP) PEVENTS_HINT_PROFILE in
  let channel_hint := Z.max (all_size (mchannels mgr) + PEVENTS_HINT_OVERLAP) PEVENTS_HINT_CHANNELS in
  match group_init profile_hint, group_init channel_hint with
  | Some prfl_grp, Some chnl_grp =>
      let update := {| uchannels := chnl_grp; uprofiles := prfl_grp; chnl_flags := []; prfl_flags := [] |} in
      '(h, update, rc) ← pevents_update_parse_tree fuel t h update tree_root;
      if decide (rc ≠ 0) then h ← pevents_update_delete h update; Ok (h, None)
      else
        h ← set_global (user_global mgr) h (uchannels update);
        h ← set_global (user_global mgr) h (uprofiles update);
        Ok (h, Some update)
  | _, _ => Ok (h, None)
  end.

(** A pointer that the accessors dereference. *)
Definition nonnull {A} (p : option A) : res A := or_fault NullDeref p.

Definition pevents_update_mapper_change_flags (t : tree filter) (ch_old ch_new : loc) : res Z :=
  prfl_new ← channel_get_profile t ch_new; prfl_old ← channel_get_profile t ch_old;
  prfl_new ← nonnull prfl_new; prfl_old ← nonnull prfl_old;
  dir_new ← profile_get_directory t prfl_new; dir_old ← profile_get_directory t prfl_old;
  type_new ← profile_get_type t prfl_new; type_old ← profile_get_type t prfl_old;
  let flags := if decide (dir_new ≠ dir_old) then PEVENTS_CHANGE_DIR else 0 in
  Ok (if decide (type_new ≠ type_old) then Z.lor flags PEVENTS_CHANGE_TYPE else flags).

(** The first channel that is not mapped yet and has the name and the path. *)
Definition find_old_channel_step (t : tree filter) (h : items) (ch_grp : pevents_group) (path_new name_new : bytes) (i : Z) (_ : ())
    : res (() + loc) :=
  mapped ← bitset_get_fast (bitset ch_grp) i;
  if mapped : bool then Ok (inl ())
  else
    l ← item_at_index ch_grp i;
    ch_old ← ptr_of h l;
    name_old ← channel_get_name t ch_old;
    if decide (name_old ≠ name_new) then Ok (inl ())
    else
      path_old ← channel_get_path t ch_old;
      if decide (path_new ≠ path_old) then Ok (inl ()) else Ok (inr l).

Definition pevents_update_mapper_find_old_channel (t : tree filter) (h : items) (mgr : pevents_t) (ch_new : loc) : res (option loc) :=
  path_new ← channel_get_path t ch_new;
  name_new ← channel_get_name t ch_new;
  x ← for_each (find_old_channel_step t h (mchannels mgr) path_new name_new) (seqZ 0 (all_size (mchannels mgr))) ();
  Ok (match x with inl _ => None | inr l => Some l end).

Definition set_bit_of (grp : pevents_group) (i : Z) : res pevents_group :=
  b ← bitset_set_fast (bitset grp) i true; Ok (with_bitset b grp).
Definition set_flag (flags : list Z) (i : Z) (v : Z) : res (list Z) :=
  if decide (0 ≤ i < Z.of_nat (length flags)) then Ok (<[Z.to_nat i := v]> flags) else Fault OobWrite.

(** The profile of a mapped channel, unless it is mapped already. *)
Definition map_profile (h : items) (mgr : pevents_t) (update : pevents_update) (item_chnl_old item_chnl_new : pevents_item) (flags : Z)
    : res (items * pevents_t * pevents_update) :=
  lp_new ← nonnull (parent_ptr item_chnl_new);
  item_prfl_new ← deref h lp_new;
  mapped ← bitset_get_fast (bitset (uprofiles update)) (idx item_prfl_new);
  if mapped : bool then Ok (h, mgr, update)
  else
    lp_old ← nonnull (parent_ptr item_chnl_old);
    item_prfl_old ← deref h lp_old;
    mprfl ← set_bit_of (mprofiles mgr) (idx item_prfl_old);
    uprfl ← set_bit_of (uprofiles update) (idx item_prfl_new);
    h ← upd_ctx h lp_new (with_local (local (ctx item_prfl_old)));
    pflags ← set_flag (prfl_flags update) (idx item_prfl_new) flags;
    Ok (h, with_groups (mchannels mgr) mprfl mgr,
        {| uchannels := uchannels update; uprofiles := uprfl; chnl_flags := chnl_flags update; prfl_flags := pflags |}).

Definition mapper_step (t : tree filter) (s : items * pevents_t * pevents_update) (i : Z) : res (items * pevents_t * pevents_update) :=
  let '(h, mgr, update) := s in
  l_new ← item_at_index (uchannels update) i;
  item_chnl_new ← deref h l_new;
  let ch_new := ptr (ctx item_chnl_new) in
  old ← pevents_update_mapper_find_old_channel t h mgr ch_new;
  match old with
  | None => Ok s
  | Some l_old =>
      item_chnl_old ← deref h l_old;
      flags ← pevents_update_mapper_change_flags t (ptr (ctx item_chnl_old)) ch_new;
      mchnl ← set_bit_of (mchannels mgr) (idx item_chnl_old);
      uchnl ← set_bit_of (uchannels update) (idx item_chnl_new);
      h ← upd_ctx h l_new (with_local (local (ctx item_chnl_old)));
      cflags ← set_flag (chnl_flags update) i flags;
      map_profile h (with_groups mchnl (mprofiles mgr) mgr)
        {| uchannels := uchnl; uprofiles := uprofiles update; chnl_flags := cflags; prfl_flags := prfl_flags update |}
        item_chnl_old item_chnl_new flags
  end.

Definition pevents_update_mapper (t : tree filter) (h : items) (mgr : pevents_t) (update : pevents_update)
    : res (items * pevents_t * pevents_update) :=
  if decide (all_size (uchannels update) = 0) then Ok (h, mgr, update)
  else
    let mgr := with_groups (clear_bits (mchannels mgr)) (clear_bits (mprofiles mgr)) mgr in
    let update := {| uchannels := clear_bits (uchannels update); uprofiles := clear_bits (uprofiles update);
                     chnl_flags := chnl_flags update; prfl_flags := prfl_flags update |} in
    for_indexes (uchannels update) (mapper_step t) (h, mgr, update).

Definition pevents_update_apply (h : items) (mgr : pevents_t) (update : pevents_update) (w : W) : res (items * pevents_t * W) :=
  let uprfl := with_cbs (cbs (mprofiles mgr)) (uprofiles update) in
  let uchnl := with_cbs (cbs (mchannels mgr)) (uchannels update) in
  w ← group_on_delete h (mprofiles mgr) w;
  w ← group_on_delete h (mchannels mgr) w;
  w ← group_on_update h uprfl (prfl_flags update) w;
  w ← group_on_update h uchnl (chnl_flags update) w;
  '(h, w) ← group_on_create uprfl (h, w);
  '(h, w) ← group_on_create uchnl (h, w);
  h ← group_deinit h (mprofiles mgr);
  h ← group_deinit h (mchannels mgr);
  Ok (h, with_groups (clear_bits uchnl) (clear_bits uprfl) mgr, w).

(** The root is looked for from the profile of the channel upwards. *)
Definition tree_root_of (fuel : nat) (t : tree filter) (channel : loc) : res (option loc) :=
  p ← channel_get_profile t channel;
  match p with
  | None => Ok None
  | Some p => root ← loop (find_root_step t) fuel p; Ok (Some root)
  end.

Definition pevents_reload (fuel : nat) (t : tree filter) (h : items) (mgr : pevents_t) (w : W) (channel : loc)
    : res (items * pevents_t * W * Z) :=
  tree_root ← tree_root_of fuel t channel;
  '(h, update) ← pevents_update_create fuel t h mgr tree_root;
  match update with
  | None => Ok (h, mgr, w, 1)
  | Some update =>
      '(h, mgr, update) ← pevents_update_mapper t h mgr update;
      '(h, mgr, w) ← pevents_update_apply h mgr update w;
      Ok (h, mgr, w, 0)
  end.

(** ** Data *)

Definition on_data_of (grp : pevents_group) (c : pevents_ctx) (rec : Rec) (w : W) : W :=
  match on_data (cbs grp) with Some f => f c rec w | None => w end.

Definition pevents_data (h : items) (mgr : pevents_t) (w : W) (channel : loc) (rec : Rec) : res (pevents_t * W * Z) :=
  let grp_chnl := mchannels mgr in
  l ← group_item_find h grp_chnl channel;
  match l with
  | None => Ok (mgr, w, 1)
  | Some l =>
      item_chnl ← deref h l;
      '(processed, b) ← bitset_get_and_set (bitset grp_chnl) (idx item_chnl) true;
      let grp_chnl := with_bitset b grp_chnl in
      if processed : bool then Ok (with_groups grp_chnl (mprofiles mgr) mgr, w, 0)
      else
        let w := on_data_of grp_chnl (ctx item_chnl) rec w in
        let grp_prfl := mprofiles mgr in
        lp ← nonnull (parent_ptr item_chnl);
        item_prfl ← deref h lp;
        '(processed, b) ← bitset_get_and_set (bitset grp_chnl) (idx item_prfl) true;
        let grp_chnl := with_bitset b grp_chnl in
        let mgr := with_groups grp_chnl grp_prfl mgr in
        if processed : bool then Ok (mgr, w, 0)
        else Ok (mgr, on_data_of grp_prfl (ctx item_prfl) rec w, 0)
  end.

(** ** The manager *)

Definition pevents_create (profiles channels : pevent_cb_set) : option pevents_t :=
  match group_init 1, group_init 1 with
  | Some prfl, Some chnl => Some {| mchannels := with_cbs channels chnl; mprofiles := with_cbs profiles prfl; user_global := 0 |}
  | _, _ => None
  end.

Definition pevents_destroy (h : items) (mgr : pevents_t) (w : W) : res (items * W) :=
  let prfl := clear_bits (mprofiles mgr) in
  let chnl := clear_bits (mchannels mgr) in
  w ← group_on_delete h prfl w;
  w ← group_on_delete h chnl w;
  h ← group_deinit h prfl;
  h ← group_deinit h chnl;
  Ok (h, w).

Definition pevents_global_set (h : items) (mgr : pevents_t) (g : Z) : res (items * pevents_t) :=
  let mgr := {| mchannels := mchannels mgr; mprofiles := mprofiles mgr; user_global := g |} in
  h ← set_global g h (mchannels mgr);
  h ← set_global g h (mprofiles mgr);
  Ok (h, mgr).

Definition pevents_global_get (mgr : pevents_t) : Z := user_global mgr.

(** One channel of the list; left with the code 1 after an error. *)
Definition process_step (fuel : nat) (t : tree filter) (data : Rec) (channel : loc) (s : items * pevents_t * W)
    : res ((items * pevents_t * W) + (items * pevents_t * W)) :=
  let '(h, mgr, w) := s in
  '(mgr, w, rc) ← pevents_data h mgr w channel data;
  if decide (rc = 0) then Ok (inl (h, mgr, w))
  else
    '(h, mgr, w, rc) ← pevents_reload fuel t h mgr w channel;
    if decide (rc ≠ 0) then Ok (inr (h, mgr, w))
    else
      '(mgr, w, rc) ← pevents_data h mgr w channel data;
      Ok (if decide (rc = 0) then inl (h, mgr, w) else inr (h, mgr, w)).

Definition pevents_process (fuel : nat) (t : tree filter) (h : items) (mgr : pevents_t) (w : W) (channels : list loc) (data : Rec)
    : res (items * pevents_t * W * Z) :=
  let mgr := with_groups (clear_bits (mchannels mgr)) (clear_bits (mprofiles mgr)) mgr in
  x ← for_each (process_step fuel t data) channels (h, mgr, w);
  Ok (match x with inl (h, mgr, w) => (h, mgr, w, 0) | inr (h, mgr, w) => (h, mgr, w, 1) end).

Definition pevents_for_each (h : items) (mgr : pevents_t) (w : W) (prfl_fn chnl_fn : option (pevents_ctx → W → W)) : res W :=
  w ← match prfl_fn with Some fn => group_on_general h (mprofiles mgr) fn w | None => Ok w end;
  match chnl_fn with Some fn => group_on_general h (mchannels mgr) fn w | None => Ok w end.
End events.

Arguments pevent_cb_set : clear implicits.
Arguments pevents_group : clear implicits.
Arguments pevents_t : clear implicits.
Arguments pevents_update : clear implicits.

(** ** Theory: groups

    A group holds a list of contexts with the item of their profile, at the indexes of the
    list. *)

Lemma deref_Some {A} (h : gmap loc A) l x : h !! l = Some x → deref h l = Ok x.
Proof. unfold deref. by intros ->. Qed.

Section group.
Context {W Rec : Type}.
Implicit Types (g : pevents_group W Rec) (h : items) (v : pevents_ctx * option loc) (vs : list (pevents_ctx * option loc)).

Definition item_at v (i : nat) : pevents_item := {| ctx := v.1; parent_ptr := v.2; idx := Z.of_nat i |}.

Record group_holds h g vs : Prop := {
  gh_length : length (all_ptr g) = length vs;
  gh_item : ∀ i l v, all_ptr g !! i = Some l → vs !! i = Some v → h !! l = Some (item_at v i)
}.

Record group_ok g : Prop := {
  go_bits : bitset_wf (bitset g);
  go_used : all_size g ≤ all_prealloc g;
  go_room : 0 < all_prealloc g < bitset_get_size (bitset g)
}.

Lemma group_holds_NoDup h g vs : group_holds h g vs → NoDup (all_ptr g).
Proof.
  intros [Hl Hi]. apply NoDup_alt. intros i j l Ei Ej.
  destruct (lookup_lt_is_Some_2 vs i) as [v Hv]; [rewrite <-Hl; by eapply lookup_lt_Some|].
  destruct (lookup_lt_is_Some_2 vs j) as [v' Hv']; [rewrite <-Hl; by eapply lookup_lt_Some|].
  pose proof (Hi i l v Ei Hv) as E1. pose proof (Hi j l v' Ej Hv') as E2. rewrite E1 in E2. injection E2 as _ _ ?. lia.
Qed.

Lemma group_holds_at h g vs i v : group_holds h g vs → vs !! i = Some v →
  ∃ l, all_ptr g !! i = Some l ∧ h !! l = Some (item_at v i).
Proof.
  intros [Hl Hi] Hv. destruct (lookup_lt_is_Some_2 (all_ptr g) i) as [l El]; [rewrite Hl; by eapply lookup_lt_Some|].
  exists l. split; [done|]. by apply Hi.
Qed.

Lemma group_holds_agree h h' g vs : group_holds h g vs → (∀ l, l ∈ all_ptr g → h' !! l = h !! l) → group_holds h' g vs.
Proof. intros [Hl Hi] Ha. split; [done|]. intros i l v El Ev. rewrite Ha; [by apply Hi|by eapply list_elem_of_lookup_2]. Qed.

(** The group counts only with its array. *)
Lemma group_holds_ptr h g g' vs : all_ptr g' = all_ptr g → group_holds h g vs → group_holds h g' vs.
Proof. intros E [Hl Hi]. split; rewrite E; done. Qed.

Lemma group_holds_allocated h g vs l : group_holds h g vs → l ∈ all_ptr g → is_Some (h !! l).
Proof.
  intros [Hl Hi] [i El]%list_elem_of_lookup_1. destruct (lookup_lt_is_Some_2 vs i) as [v Ev]; [rewrite <-Hl; by eapply lookup_lt_Some|].
  eexists. by apply (Hi i l v).
Qed.

Lemma all_size_holds h g vs : group_holds h g vs → all_size g = Z.of_nat (length vs).
Proof. intros [Hl _]. unfold all_size. by rewrite Hl. Qed.

(** A loop over the indexes. *)
Lemma for_indexes_ind {X} g (f : X → Z → res X) (I : nat → X → Prop) x : I 0%nat x →
  (∀ i y, (i < length (all_ptr g))%nat → I i y → ∃ z, f y (Z.of_nat i) = Ok z ∧ I (S i) z) →
  ∃ z, for_indexes g f x = Ok z ∧ I (length (all_ptr g)) z.
Proof.
  intros H0 Hs. unfold for_indexes, all_size.
  destruct (fold_res_ind f (λ l y, I (length l) y) (seqZ 0 (Z.of_nat (length (all_ptr g)))) x H0) as (z & Ez & Hz).
  - intros l1 a l2 y E Hy. pose proof (f_equal length E) as Hlen. rewrite length_seqZ, length_app in Hlen. cbn [length] in Hlen.
    assert (seqZ 0 (Z.of_nat (length (all_ptr g))) !! length l1 = Some a) as Ha by (rewrite E; by apply list_lookup_middle).
    apply lookup_seqZ in Ha as [Ea _]. rewrite Z.add_0_l in Ea. subst a.
    destruct (Hs (length l1) y) as (z & Ez & Hz); [lia|done|]. exists z. split; [done|]. rewrite length_app. cbn [length].
    by rewrite Nat.add_1_r.
  - exists z. split; [done|]. rewrite length_seqZ in Hz. by replace (Z.to_nat (Z.of_nat (length (all_ptr g)))) with (length (all_ptr g)) in Hz by lia.
Qed.

Lemma item_at_index_spec h g vs i v : group_holds h g vs → vs !! i = Some v →
  ∃ l, item_at_index g (Z.of_nat i) = Ok l ∧ all_ptr g !! i = Some l ∧ h !! l = Some (item_at v i).
Proof.
  intros Hg Hv. destruct (group_holds_at h g vs i v Hg Hv) as (l & El & Eh). exists l. split; [|done].
  unfold item_at_index, group_item_at, all_size. rewrite decide_False, Nat2Z.id, El; [done|]. apply lookup_lt_Some in El. lia.
Qed.

(** *** Loops over a group *)

(** The bits of the group are those of the items with an address that [k] holds for. *)
Definition key v : loc := ptr v.1.
Definition marked (k : loc → bool) g vs : Prop :=
  ∀ i v, vs !! i = Some v → bit (bitset g) (Z.of_nat i) = k (key v).

Lemma get_bit_spec h g vs k i v : group_ok g → group_holds h g vs → marked k g vs → vs !! i = Some v →
  bitset_get_fast (bitset g) (Z.of_nat i) = Ok (k (key v)).
Proof.
  intros [Hb Hu Hr] Hg Hm Hv. rewrite bitset_get_fast_spec; [by rewrite (Hm i v Hv)|done|].
  apply lookup_lt_Some in Hv. rewrite (all_size_holds h g vs Hg) in Hu. lia.
Qed.

Lemma take_last {A} (l : list A) i x : l !! i = Some x → take (S i) l = take i l ++ [x].
Proof. apply take_S_r. Qed.

Lemma filter_snoc {A} (P : A → Prop) `{∀ x, Decision (P x)} l x :
  base.filter P (l ++ [x]) = base.filter P l ++ (if decide (P x) then [x] else []).
Proof. rewrite filter_app. f_equal. Qed.

(** The calls of a callback on the items with an address that [k] does not hold for, and
    on those with flags. *)
Definition calls (f : option (pevents_ctx → W → W)) (k : loc → bool) (l : list pevents_ctx) (w : W) : W :=
  match f with Some f => foldl (λ w c, f c w) w (base.filter (λ c, k (ptr c) = false) l) | None => w end.
Definition update_calls (f : option (pevents_ctx → Z → W → W)) (fl : loc → Z) (l : list pevents_ctx) (w : W) : W :=
  match f with Some f => foldl (λ w c, f c (fl (ptr c)) w) w (base.filter (λ c, fl (ptr c) ≠ 0) l) | None => w end.

Lemma calls_snoc f k l c w : calls (Some f) k (l ++ [c]) w = if k (ptr c) then calls (Some f) k l w else f c (calls (Some f) k l w).
Proof. unfold calls. rewrite filter_snoc, foldl_app. by destruct (k (ptr c)). Qed.

Lemma fmap_take_last {A B} (F : A → B) (l : list A) i x : l !! i = Some x → F <$> take (S i) l = (F <$> take i l) ++ [F x].
Proof. intros Hx. by rewrite (take_last _ _ _ Hx), fmap_app. Qed.

Lemma group_on_delete_spec h g vs k w : group_ok g → group_holds h g vs → marked k g vs →
  group_on_delete h g w = Ok (calls (on_delete (cbs g)) k vs.*1 w).
Proof.
  intros Hok Hg Hm. unfold group_on_delete. destruct (on_delete (cbs g)) as [f|]; [|done].
  destruct (for_indexes_ind g (λ w i, b ← bitset_get_fast (bitset g) i;
     if b : bool then Ok w else l ← item_at_index g i; item ← deref h l; Ok (f (ctx item) w))
     (λ i y, y = calls (Some f) k (take i vs).*1 w) w) as (z & -> & ->).
  - done.
  - intros i y Hi ->. destruct (lookup_lt_is_Some_2 vs i) as [v Hv]; [by rewrite <-(gh_length _ _ _ Hg)|].
    rewrite (get_bit_spec h g vs k i v), res_bind_ret, (fmap_take_last _ _ _ _ Hv), calls_snoc by done.
    change (ptr v.1) with (key v). destruct (k (key v)); [by eexists|]. destruct (item_at_index_spec h g vs i v Hg Hv) as (l & -> & _ & El).
    rewrite res_bind_ret. unfold deref. rewrite El. cbn [or_fault]. rewrite res_bind_ret. by eexists.
  - by rewrite (gh_length _ _ _ Hg), firstn_all.
Qed.

Lemma group_on_update_spec h g vs (fl : loc → Z) flags w : group_holds h g vs →
  (∀ i v, vs !! i = Some v → flags !! i = Some (fl (key v))) →
  group_on_update h g flags w =
    Ok (update_calls (on_update (cbs g)) fl vs.*1 w).
Proof.
  intros Hg Hf. unfold group_on_update. destruct (on_update (cbs g)) as [f|]; [|done].
  destruct (for_indexes_ind g (λ w i, flag ← or_fault OobRead (flags !! Z.to_nat i);
     if decide (flag = 0) then Ok w else l ← item_at_index g i; item ← deref h l; Ok (f (ctx item) flag w))
     (λ i y, y = update_calls (Some f) fl (take i vs).*1 w) w) as (z & -> & ->).
  - done.
  - intros i y Hi ->. destruct (lookup_lt_is_Some_2 vs i) as [v Hv]; [by rewrite <-(gh_length _ _ _ Hg)|].
    rewrite Nat2Z.id, (Hf i v Hv). cbn [or_fault]. rewrite res_bind_ret, (fmap_take_last _ _ _ _ Hv). unfold update_calls. rewrite filter_snoc, foldl_app.
    change (ptr v.1) with (key v). destruct (decide (fl (key v) = 0)) as [E|E].
    + rewrite (decide_False (P := fl (key v) ≠ 0)) by (intros H; done). by eexists.
    + rewrite (decide_True (P := fl (key v) ≠ 0)) by done. destruct (item_at_index_spec h g vs i v Hg Hv) as (l & -> & _ & El).
      rewrite res_bind_ret. unfold deref. rewrite El. cbn [or_fault]. rewrite res_bind_ret. by eexists.
  - by rewrite (gh_length _ _ _ Hg), firstn_all.
Qed.

Lemma group_on_general_spec h g vs fn w : group_holds h g vs →
  group_on_general h g fn w = Ok (foldl (λ w c, fn c w) w vs.*1).
Proof.
  intros Hg. unfold group_on_general.
  destruct (for_indexes_ind g (λ w i, l ← item_at_index g i; item ← deref h l; Ok (fn (ctx item) w))
     (λ i y, y = foldl (λ w c, fn c w) w (take i vs).*1) w) as (z & -> & ->).
  - done.
  - intros i y Hi ->. destruct (lookup_lt_is_Some_2 vs i) as [v Hv]; [by rewrite <-(gh_length _ _ _ Hg)|].
    destruct (item_at_index_spec h g vs i v Hg Hv) as (l & -> & _ & El).
    rewrite res_bind_ret. unfold deref. rewrite El. cbn [or_fault]. rewrite res_bind_ret, (fmap_take_last _ _ _ _ Hv), foldl_app. by eexists.
  - by rewrite (gh_length _ _ _ Hg), firstn_all.
Qed.

(** *** Changes of the items of a group *)

Definition with_v (f : pevents_ctx → pevents_ctx) v : pevents_ctx * option loc := (f v.1, v.2).

Lemma upd_ctx_spec h g vs i v f : group_holds h g vs → vs !! i = Some v →
  ∃ l h', item_at_index g (Z.of_nat i) = Ok l ∧ upd_ctx h l f = Ok h' ∧ group_holds h' g (<[i := with_v f v]> vs) ∧
    ∀ k, k ∉ all_ptr g → h' !! k = h !! k.
Proof.
  intros Hg Hv. destruct (item_at_index_spec h g vs i v Hg Hv) as (l & El & Ei & Eh).
  exists l, (<[l := item_at (with_v f v) i]> h). split; [done|]. split.
  { unfold upd_ctx, upd_item, deref. by rewrite Eh. }
  split.
  - split; [by rewrite length_insert, (gh_length _ _ _ Hg)|]. intros j k u Ek Eu. destruct (decide (j = i)) as [->|Hji].
    + assert (k = l) as -> by congruence. rewrite list_lookup_insert_eq in Eu by (by eapply lookup_lt_Some). rewrite lookup_insert_eq. congruence.
    + rewrite list_lookup_insert_ne in Eu by done. rewrite lookup_insert_ne; [by apply (gh_item _ _ _ Hg)|].
      intros <-. apply Hji. by apply (proj1 (NoDup_alt _) (group_holds_NoDup _ _ _ Hg) j i l).
  - intros k Hk. apply lookup_insert_ne. intros <-. apply Hk. by eapply list_elem_of_lookup_2.
Qed.

Lemma insert_take_drop {A} (l1 l2 : list A) (x y : A) : <[length l1 := y]> (l1 ++ x :: l2) = (l1 ++ [y]) ++ l2.
Proof. rewrite <-app_assoc. rewrite <-(Nat.add_0_r (length l1)) at 1. by rewrite insert_app_r. Qed.

(** What is done at index [i] of the list is up to there in its new form. *)
Lemma with_take {A} (F : A → A) (xs : list A) i (x : A) : xs !! i = Some x →
  <[i := F x]> ((F <$> take i xs) ++ drop i xs) = (F <$> take (S i) xs) ++ drop (S i) xs.
Proof.
  intros Hx. rewrite (take_last _ _ _ Hx), fmap_app, (drop_S _ _ _ Hx). cbn [fmap list_fmap].
  rewrite <-insert_take_drop with (x := x), length_fmap, length_take. do 2 f_equal. apply lookup_lt_Some in Hx. lia.
Qed.

Lemma lookup_with_take {A} (F : A → A) (xs : list A) i (x : A) : xs !! i = Some x → ((F <$> take i xs) ++ drop i xs) !! i = Some x.
Proof.
  intros Hx. pose proof (lookup_lt_Some _ _ _ Hx). rewrite lookup_app_r by (rewrite length_fmap, length_take; lia).
  rewrite length_fmap, length_take, lookup_drop. by replace (i + (i - i `min` length xs))%nat with i by lia.
Qed.

Lemma set_global_spec h g vs x : group_holds h g vs →
  ∃ h', set_global x h g = Ok h' ∧ group_holds h' g (with_v (with_global x) <$> vs) ∧ ∀ k, k ∉ all_ptr g → h' !! k = h !! k.
Proof.
  intros Hg. unfold set_global. set (F := with_v (with_global x)).
  destruct (for_indexes_ind g (λ h i, l ← item_at_index g i; upd_ctx h l (with_global x))
    (λ i h', group_holds h' g ((F <$> take i vs) ++ drop i vs) ∧ ∀ k, k ∉ all_ptr g → h' !! k = h !! k) h) as (h' & E & Hh & Hk).
  - by rewrite drop_0.
  - intros i h1 Hi (Hh & Hk). destruct (lookup_lt_is_Some_2 vs i) as [v Hv]; [by rewrite <-(gh_length _ _ _ Hg)|].
    destruct (upd_ctx_spec h1 g _ i v (with_global x) Hh (lookup_with_take F vs i v Hv)) as (l & h2 & -> & E2 & H2 & Hk2).
    rewrite res_bind_ret. exists h2. split; [done|]. fold (F v) in H2. rewrite (with_take F vs i v Hv) in H2. split; [done|].
    intros k Hin. by rewrite Hk2, Hk.
  - exists h'. split; [done|]. split; [|done]. by rewrite (gh_length _ _ _ Hg), firstn_all, drop_all, app_nil_r in Hh.
Qed.

(** The items with an address that [k] does not hold for get the data that the callback
    gives. *)
Fixpoint creates {B} (f : pevents_ctx → W → W * Z) (k : loc → bool) (vs : list (pevents_ctx * B)) (w : W) : list (pevents_ctx * B) * W :=
  match vs with
  | [] => ([], w)
  | v :: vs =>
      let '(w, v) := if k (ptr v.1) then (w, v) else let '(w, x) := f v.1 w in (w, (with_local x v.1, v.2)) in
      let '(r, w) := creates f k vs w in (v :: r, w)
  end.

Lemma creates_snoc {B} f k (vs : list (pevents_ctx * B)) (v : pevents_ctx * B) w :
  creates f k (vs ++ [v]) w =
  let '(r, w) := creates f k vs w in
  let '(w, v) := if k (ptr v.1) then (w, v) else let '(w, x) := f v.1 w in (w, (with_local x v.1, v.2)) in (r ++ [v], w).
Proof.
  revert w. induction vs as [|u vs IH]; intros w; cbn [app creates].
  - by destruct (if k (ptr v.1) then _ else _).
  - destruct (if k (ptr u.1) then _ else _) as [w1 u1]. rewrite IH. destruct (creates f k vs w1) as [r w2].
    by destruct (if k (ptr v.1) then _ else _).
Qed.

Lemma length_creates {B} f k (vs : list (pevents_ctx * B)) w : length (creates f k vs w).1 = length vs.
Proof.
  revert w. induction vs as [|u vs IH]; intros w; [done|]. cbn [creates]. destruct (if k (ptr u.1) then _ else _) as [w1 u1].
  specialize (IH w1). destruct (creates f k vs w1). cbn in *. by rewrite IH.
Qed.

Definition create_calls {B} (f : option (pevents_ctx → W → W * Z)) k (vs : list (pevents_ctx * B)) w : list (pevents_ctx * B) * W :=
  match f with Some f => creates f k vs w | None => (vs, w) end.

Lemma group_on_create_spec h g vs k w : group_ok g → group_holds h g vs → marked k g vs →
  ∃ h', group_on_create g (h, w) = Ok (h', (create_calls (on_create (cbs g)) k vs w).2) ∧
    group_holds h' g (create_calls (on_create (cbs g)) k vs w).1 ∧ ∀ k, k ∉ all_ptr g → h' !! k = h !! k.
Proof.
  intros Hok Hg Hm. unfold group_on_create, create_calls. destruct (on_create (cbs g)) as [f|]; [|by exists h].
  set (body := λ '(h, w) i, _).
  destruct (for_indexes_ind g body (λ i s, s.2 = (creates f k (take i vs) w).2 ∧
     group_holds s.1 g ((creates f k (take i vs) w).1 ++ drop i vs) ∧ ∀ k, k ∉ all_ptr g → s.1 !! k = h !! k) (h, w))
    as ([h' w'] & -> & Hw & Hh & Hk).
  - cbn. by rewrite drop_0.
  - intros i [h1 w1] Hi (Hw & Hh & Hk). cbn [fst snd] in *. destruct (lookup_lt_is_Some_2 vs i) as [v Hv]; [by rewrite <-(gh_length _ _ _ Hg)|].
    pose proof (lookup_lt_Some _ _ _ Hv) as Hlt. subst body. cbv beta iota.
    rewrite (get_bit_spec h g vs k i v), res_bind_ret, (take_last _ _ _ Hv), creates_snoc by done.
    pose proof (length_creates f k (take i vs) w) as Hl. rewrite length_take in Hl. rewrite (drop_S _ _ _ Hv) in Hh.
    destruct (creates f k (take i vs) w) as [r w2]. cbn [fst snd] in *. subst w2.
    change (ptr v.1) with (key v). destruct (k (key v)).
    { eexists. split; [done|]. cbn [fst snd]. by rewrite <-app_assoc. }
    assert ((r ++ v :: drop (S i) vs) !! i = Some v) as Hlk by (replace i with (length r) by lia; by apply list_lookup_middle).
    destruct (item_at_index_spec h1 g _ i v Hh Hlk) as (l & El & _ & Eh). rewrite El, res_bind_ret.
    unfold deref at 1. rewrite Eh. cbn [or_fault]. rewrite res_bind_ret. change (ctx (item_at v i)) with v.1. destruct (f v.1 w1) as [w3 x].
    destruct (upd_ctx_spec h1 g _ i v (with_local x) Hh Hlk) as (l' & h2 & El' & E2 & H2 & Hk2).
    rewrite El in El'. injection El' as <-. rewrite E2, res_bind_ret. eexists. split; [done|]. cbn [fst snd]. split; [done|]. split.
    + replace i with (length r) in H2 by lia. rewrite insert_take_drop in H2. by replace (length r) with i in H2 by lia.
    + intros a Hin. by rewrite Hk2, Hk.
  - exists h'. cbn [fst snd] in *. rewrite (gh_length _ _ _ Hg), firstn_all, drop_all, app_nil_r in *. by rewrite Hw.
Qed.

Lemma group_deinit_spec h g vs : group_holds h g vs →
  ∃ h', group_deinit h g = Ok h' ∧ ∀ k, h' !! k = if decide (k ∈ all_ptr g) then None else h !! k.
Proof.
  intros Hg. pose proof (group_holds_NoDup h g vs Hg) as Hnd. unfold group_deinit.
  destruct (fold_res_ind (λ h l, _ ← deref h l; Ok (delete l h)) (λ done h', ∀ k, h' !! k = if decide (k ∈ done) then None else h !! k)
    (all_ptr g) h) as (h' & -> & H).
  - intros k. rewrite decide_False; [done|]. apply not_elem_of_nil.
  - intros l1 l l2 h1 E Hh1. rewrite E in Hnd. apply NoDup_app in Hnd as (_ & Hnd & _).
    destruct (group_holds_allocated h g vs l Hg) as [it Hit]; [rewrite E; apply elem_of_app; right; left|].
    unfold deref. rewrite Hh1, decide_False, Hit by (intros Hin; apply (Hnd l Hin); left). cbn [or_fault].
    rewrite res_bind_ret. eexists. split; [done|]. intros k. destruct (decide (k = l)) as [->|Hkl].
    + rewrite lookup_delete_eq, decide_True; [done|]. apply elem_of_app. right. left.
    + rewrite lookup_delete_ne, Hh1 by done. repeat case_decide; set_solver.
  - by exists h'.
Qed.

(** *** New items *)

Lemma group_init_spec n : 0 < n → ∃ g, group_init n = Some g ∧ group_ok g ∧ all_ptr g = [] ∧ ∀ h, group_holds h g [].
Proof.
  intros Hn. unfold group_init. rewrite decide_False by lia. eexists. split; [done|].
  destruct (bitset_create_spec n) as (H1 & H2 & _); [lia|]. split; [|by split].
  split; unfold all_size; cbn [bitset all_ptr all_prealloc length]; [done|lia|by split].
Qed.

Lemma group_resize_ok g n : group_ok g → group_ok (group_resize g n) ∧ n ≤ all_prealloc (group_resize g n) ∧
  all_ptr (group_resize g n) = all_ptr g ∧ cbs (group_resize g n) = cbs g.
Proof.
  intros [Hb Hu Hr]. unfold group_resize. case_decide as Hn; [split_and!; (done || lia)|].
  destruct (bitset_resize_spec (bitset g) n Hb) as (H1 & H2 & _); [lia|]. unfold all_size in *.
  split_and!; [|cbn; lia|done..]. split; unfold all_size; cbn [bitset all_ptr all_prealloc]; (done || lia).
Qed.

Definition new_ctx (p : loc) : pevents_ctx := {| ptr := p; local := 0; global := 0 |}.

Lemma group_item_new_spec h g vs p parent : group_ok g → group_holds h g vs →
  ∃ l h1 h2 g', group_item_new h g = Ok (h1, g', l) ∧
    upd_item h1 l (λ item, {| ctx := with_ptr p (ctx item); parent_ptr := parent; idx := idx item |}) = Ok h2 ∧
    h !! l = None ∧ group_ok g' ∧ all_ptr g' = all_ptr g ++ [l] ∧ cbs g' = cbs g ∧
    group_holds h2 g' (vs ++ [(new_ctx p, parent)]) ∧ ∀ k, k ≠ l → h2 !! k = h !! k.
Proof.
  intros Hok Hg. unfold group_item_new.
  set (g1 := if decide (all_size g = all_prealloc g) then group_resize g (2 * all_prealloc g) else g).
  assert (group_ok g1 ∧ all_ptr g1 = all_ptr g ∧ cbs g1 = cbs g ∧ all_size g1 < all_prealloc g1) as (Hok1 & Ep & Ec & Hlt).
  { subst g1. pose proof Hok as [_ Hu Hr]. case_decide as Hf; [|split_and!; (done || lia)].
    destruct (group_resize_ok g (2 * all_prealloc g) Hok) as (? & ? & E & ?). split_and!; [done..|].
    unfold all_size in *. rewrite E. lia. }
  clearbody g1. rewrite decide_True by done. set (l := fresh (dom h)).
  assert (h !! l = None) as Hl by (apply not_elem_of_dom, is_fresh).
  eexists l, _, _, _. split; [done|]. split; [unfold upd_item, deref; rewrite lookup_insert_eq; done|]. split; [done|].
  split. { destruct Hok1 as [Hb1 Hu1 Hr1]. split; [done| |done]. unfold all_size in *. cbn [all_ptr with_all_ptr all_prealloc]. rewrite length_app. cbn. lia. }
  split; [by cbn [all_ptr with_all_ptr]; rewrite Ep|]. split; [done|]. split.
  - split; cbn [all_ptr with_all_ptr]; [rewrite !length_app, Ep, (gh_length _ _ _ Hg); done|]. intros i k v Ek Ev.
    rewrite Ep in Ek. destruct (decide (i < length vs)%nat) as [Hi|Hi].
    + rewrite lookup_app_l in Ek by (by rewrite (gh_length _ _ _ Hg)). rewrite lookup_app_l in Ev by done.
      pose proof (gh_item _ _ _ Hg i k v Ek Ev) as E. by rewrite !lookup_insert_ne by (intros <-; congruence).
    + pose proof (lookup_lt_Some _ _ _ Ev) as Hi2. rewrite length_app in Hi2. cbn in Hi2.
      assert (i = length vs) as -> by lia. rewrite list_lookup_middle in Ev by done. injection Ev as <-.
      rewrite <-(gh_length _ _ _ Hg) in Ek at 1. rewrite list_lookup_middle in Ek by done. injection Ek as <-.
      rewrite lookup_insert_eq. unfold item_at, all_size. cbn. by rewrite Ep, (gh_length _ _ _ Hg).
  - intros k Hk. by rewrite !lookup_insert_ne.
Qed.

(** *** Sorting and searching *)

Lemma group_item_cmp_spec (a b : loc) : (group_item_cmp a b < 0 ↔ (a < b)%positive) ∧ (group_item_cmp a b > 0 ↔ (b < a)%positive).
Proof. unfold group_item_cmp. repeat case_decide; lia. Qed.

#[local] Instance group_le_total : Total group_le.
Proof. intros [a ?] [b ?]. unfold group_le. cbn. destruct (group_item_cmp_spec a b), (group_item_cmp_spec b a). lia. Qed.

#[local] Instance group_le_trans : Transitive group_le.
Proof.
  intros [a ?] [b ?] [c ?]. unfold group_le. cbn. destruct (group_item_cmp_spec a b), (group_item_cmp_spec b c), (group_item_cmp_spec a c). lia.
Qed.

(** The addresses grow with the index. *)
Definition ascending (ks : list loc) : Prop := StronglySorted Pos.lt ks.

Lemma ascending_lookup ks i j a b : ascending ks → (i < j)%nat → ks !! i = Some a → ks !! j = Some b → (a < b)%positive.
Proof.
  intros Hs. revert i j. induction Hs as [|k ks Hs IH Hk]; intros i j Hij Ha Hb; [done|].
  destruct j as [|j]; [lia|]. destruct i as [|i]; cbn in Ha, Hb.
  - injection Ha as <-. by apply (Forall_lookup_1 _ _ _ _ Hk Hb).
  - apply (IH i j); [lia|done..].
Qed.

Lemma ascending_NoDup ks : ascending ks → NoDup ks.
Proof.
  induction 1 as [|k ks Hs IH Hk]; constructor; [|done]. intros Hin. pose proof (Forall_elem Hk Hin). lia.
Qed.

Lemma sorted_ascending (ks : list (loc * loc)) : StronglySorted group_le ks → NoDup ks.*1 → ascending ks.*1.
Proof.
  induction 1 as [|k ks Hs IH Hk]; intros Hn; [constructor|]. cbn in Hn |- *. apply NoDup_cons in Hn as [Hn1 Hn2].
  constructor; [by apply IH|]. apply Forall_fmap, Forall_forall. intros k' Hin. pose proof (Forall_elem Hk Hin) as Hle.
  unfold group_le in Hle. destruct (group_item_cmp_spec k.1 k'.1) as [_ H]. cbn.
  assert (k.1 ≠ k'.1); [|lia]. intros E. apply Hn1. rewrite E. by apply list_elem_of_fmap_2.
Qed.

(** Sorting: the items keep their contents but for the indexes. *)
Lemma mapM_keys h g vs : group_holds h g vs →
  mapM (λ l, p ← ptr_of h l; Ok (p, l)) (all_ptr g) = Ok ((λ x, (key x.2, x.1)) <$> zip (all_ptr g) vs).
Proof.
  intros [Hl Hi]. revert vs Hl Hi. generalize 0%nat. generalize (all_ptr g). intros ls.
  cut (∀ n vs, length ls = length vs → (∀ i l v, ls !! i = Some l → vs !! i = Some v → h !! l = Some (item_at v (n + i))) →
    mapM (λ l, p ← ptr_of h l; Ok (p, l)) ls = Ok ((λ x, (key x.2, x.1)) <$> zip ls vs)).
  { intros H _ vs. apply (H 0%nat). }
  induction ls as [|l ls IH]; intros n [|v vs] Hl Hi; try done.
  cbn [mapM]. change (mbind _ _) with ((p ← ptr_of h l; Ok (p, l)) ≫= λ y, k ← mapM (λ l, p ← ptr_of h l; Ok (p, l)) ls; mret (y :: k)).
  assert (ptr_of h l = Ok (key v)) as -> by (unfold ptr_of, deref; by rewrite (Hi 0%nat l v)). rewrite !res_bind_ret.
  rewrite (IH (S n) vs), res_bind_ret; [done|by injection Hl|]. intros i k u Ek Eu. rewrite (Hi (S i) k u) by done.
  do 2 f_equal. lia.
Qed.

Lemma group_sort_spec h g vs : group_ok g → group_holds h g vs → NoDup (key <$> vs) →
  ∃ h' g' vs', group_sort h g = Ok (h', g') ∧ vs' ≡ₚ vs ∧ ascending (key <$> vs') ∧ group_ok g' ∧ group_holds h' g' vs' ∧
    cbs g' = cbs g ∧ all_ptr g' ≡ₚ all_ptr g ∧
    (∀ i l v, all_ptr g' !! i = Some l → vs' !! i = Some v → ∃ j, all_ptr g !! j = Some l ∧ vs !! j = Some v) ∧
    ∀ k, k ∉ all_ptr g → h' !! k = h !! k.
Proof.
  intros Hok Hg Hnd. unfold group_sort. rewrite (mapM_keys h g vs Hg), res_bind_ret.
  set (F := λ x : loc * _, _). pose proof (merge_sort_Permutation group_le (F <$> zip (all_ptr g) vs)) as Hp.
  pose proof (StronglySorted_merge_sort group_le (F <$> zip (all_ptr g) vs)) as Hs.
  apply Permutation_map_inv in Hp as (zs & Ez & Hp). change (map F zs) with (F <$> zs) in Ez.
  rewrite Ez in Hs |- *. clear Ez.
  assert (length (all_ptr g) = length vs) as Hl by apply Hg.
  assert (zs.*1 ≡ₚ all_ptr g) as Hp1. { rewrite <-Hp. by rewrite fst_zip by lia. }
  assert (zs.*2 ≡ₚ vs) as Hp2. { rewrite <-Hp. by rewrite snd_zip by lia. }
  assert ((F <$> zs).*1 = key <$> zs.*2) as E1 by (rewrite <-!list_fmap_compose; done).
  assert ((F <$> zs).*2 = zs.*1) as E2 by (rewrite <-!list_fmap_compose; done). rewrite E2.
  assert (ascending (key <$> zs.*2)) as Hasc. { rewrite <-E1. apply sorted_ascending; [done|]. by rewrite E1, Hp2. }
  assert (∀ i l v, zs.*1 !! i = Some l → zs.*2 !! i = Some v → ∃ j, all_ptr g !! j = Some l ∧ vs !! j = Some v) as Hold.
  { intros i l v El Ev. rewrite list_lookup_fmap in El. rewrite list_lookup_fmap in Ev. destruct (zs !! i) as [[l' v']|] eqn:Ei; [|done]. cbn in El, Ev. simplify_eq.
    apply list_elem_of_lookup_2 in Ei. rewrite <-Hp in Ei. apply list_elem_of_lookup_1 in Ei as [j Ej].
    apply lookup_zip_Some in Ej. by exists j. }
  assert (NoDup zs.*1) as Hn1 by (rewrite Hp1; by apply (group_holds_NoDup h g vs)).
  destruct (fold_res_ind (λ h (x : Z * loc), upd_item h x.2 (with_idx x.1)) (λ done h',
      (∀ i l v, (i < length done)%nat → zs.*1 !! i = Some l → zs.*2 !! i = Some v → h' !! l = Some (item_at v i)) ∧
      ∀ k, k ∉ done.*2 → h' !! k = h !! k) (zip (seqZ 0 (all_size g)) zs.*1) h) as (h' & Eh & Hdone & Hrest).
  - split; [cbn; lia|done].
  - intros l1 [i l] l2 h1 E (Hd & Hr).
    assert (zip (seqZ 0 (all_size g)) zs.*1 !! length l1 = Some (i, l)) as Hx by (rewrite E; by apply list_lookup_middle).
    apply lookup_zip_Some in Hx as [Hi Hz]. apply lookup_seqZ in Hi as [Ei _]. rewrite Z.add_0_l in Ei. subst i.
    destruct (lookup_lt_is_Some_2 zs.*2 (length l1)) as [v Hv]. { apply lookup_lt_Some in Hz. rewrite Hp2, <-Hl, <-Hp1. done. }
    assert (l ∉ l1.*2) as Hnew.
    { intros (j & Hj)%list_elem_of_lookup_1. rewrite list_lookup_fmap in Hj. destruct (l1 !! j) as [[a b]|] eqn:Ej; [|done].
      cbn in Hj. injection Hj as ->. pose proof (lookup_lt_Some _ _ _ Ej).
      assert (zip (seqZ 0 (all_size g)) zs.*1 !! j = Some (a, l)) as Ej' by (rewrite E; by apply lookup_app_l_Some).
      apply lookup_zip_Some in Ej' as [_ Ej']. rewrite NoDup_alt in Hn1. specialize (Hn1 j (length l1) l Ej' Hz). lia. }
    destruct (Hold _ _ _ Hz Hv) as (j & Ej & Ev). pose proof (gh_item _ _ _ Hg j l v Ej Ev) as El.
    unfold upd_item, deref. cbn [fst snd]. rewrite Hr, El by done. cbn [or_fault]. rewrite res_bind_ret. eexists. split; [done|]. split.
    + intros i k u Hi Ek Eu. rewrite length_app in Hi. cbn in Hi. destruct (decide (i = length l1)) as [->|Hne].
      * assert (k = l) as -> by congruence. rewrite lookup_insert_eq. assert (u = v) as -> by congruence. done.
      * rewrite lookup_insert_ne; [by apply Hd; [lia|..]|]. intros <-. apply Hne. rewrite NoDup_alt in Hn1. by apply (Hn1 _ _ l).
    + intros k. rewrite fmap_app, elem_of_app. cbn. intros Hk. rewrite lookup_insert_ne by (intros <-; apply Hk; right; left). apply Hr. tauto.
  - rewrite Eh, res_bind_ret. exists h', (with_all_ptr zs.*1 g), zs.*2.
    assert (length (seqZ 0 (all_size g)) = length zs.*1) as Hlz.
    { rewrite length_seqZ. unfold all_size. rewrite Nat2Z.id. by rewrite Hp1. }
    split_and!; [done..| | |done|done|done|].
    + destruct Hok as [Hb Hu Hr]. split; [done| |done]. unfold all_size in *. cbn [all_ptr with_all_ptr all_prealloc]. by rewrite Hp1.
    + split; cbn [all_ptr with_all_ptr]; [by rewrite !length_fmap|]. intros i l v El Ev. apply Hdone; [|done..].
      rewrite length_zip, Hlz. apply lookup_lt_Some in El. lia.
    + intros k Hk. apply Hrest. rewrite snd_zip by lia. by rewrite Hp1.
Qed.

Lemma group_item_find_spec h g vs c : group_holds h g vs → ascending (key <$> vs) →
  group_item_find h g c = Ok (i ← fst <$> list_find (λ v, key v = c) vs; all_ptr g !! i).
Proof.
  intros Hg Ha. unfold group_item_find.
  assert (∀ i l, all_ptr g !! i = Some l → ∃ v, vs !! i = Some v ∧ ptr_of h l = Ok (key v)) as Hat.
  { intros i l El. destruct (lookup_lt_is_Some_2 vs i) as [v Ev]; [rewrite <-(gh_length _ _ _ Hg); by eapply lookup_lt_Some|].
    exists v. split; [done|]. unfold ptr_of, deref. by rewrite (gh_item _ _ _ Hg i l v El Ev). }
  set (f := λ l, match ptr_of h l with Ok p => p | _ => 1%positive end).
  rewrite (bsearch_spec _ _ f c).
  - f_equal. destruct (list_find (λ v, key v = c) vs) as [[i v]|] eqn:Ef; cbn.
    + apply list_find_Some in Ef as (Ev & Hk & Hfirst). destruct (group_holds_at h g vs i v Hg Ev) as (l & El & _). rewrite El.
      rewrite (proj2 (list_find_Some _ _ i l)); [done|]. split_and!; [done| |].
      * subst f. cbn. destruct (Hat i l El) as (v' & Ev' & ->). congruence.
      * intros j l' El' Hj. subst f. cbn. destruct (Hat j l' El') as (v' & Ev' & ->). by apply (Hfirst j).
    + apply list_find_None in Ef. rewrite (proj2 (list_find_None _ _)); [done|]. apply Forall_lookup_2. intros i l El.
      subst f. cbn. destruct (Hat i l El) as (v' & Ev' & ->). by apply (Forall_lookup_1 _ _ _ _ Ef Ev').
  - intros l [i El]%list_elem_of_lookup_1. destruct (Hat i l El) as (v & Ev & E). subst f. cbn. rewrite E, res_bind_ret.
    eexists. split; [done|]. apply group_item_cmp_spec.
  - intros i j l l' Hij El El'. subst f. cbn. destruct (Hat i l El) as (v & Ev & ->), (Hat j l' El') as (v' & Ev' & ->).
    apply (ascending_lookup (key <$> vs) i j); [done..| |]; rewrite list_lookup_fmap; [by rewrite Ev|by rewrite Ev'].
Qed.
End group.

(** ** Theory: the manager

    What a manager is for its clients: the contexts of the profiles, and those of the
    channels with the address of their profile, by address. *)

Record view := { v_profiles : list pevents_ctx; v_channels : list (pevents_ctx * loc) }.

Definition profile_items (ps : list pevents_ctx) : list (pevents_ctx * option loc) := (λ p, (p, None)) <$> ps.
Definition item_of (ls : list loc) (ps : list loc) (q : loc) : option loc := i ← fst <$> list_find (λ p, p = q) ps; ls !! i.
Definition channel_items (ls : list loc) (ps : list loc) (cs : list (pevents_ctx * loc)) : list (pevents_ctx * option loc) :=
  (λ c, (c.1, item_of ls ps c.2)) <$> cs.
Definition profile_keys (v : view) : list loc := ptr <$> v_profiles v.
Definition channel_keys (v : view) : list loc := (λ c, ptr c.1) <$> v_channels v.

Section manager.
Context {filter W Rec : Type}.
Implicit Types (t : tree filter) (mgr : pevents_t W Rec) (h : items) (v : view) (rec : Rec).

Record mgr_holds h mgr v : Prop := {
  mh_profiles : group_holds h (mprofiles mgr) (profile_items (v_profiles v));
  mh_channels : group_holds h (mchannels mgr) (channel_items (all_ptr (mprofiles mgr)) (profile_keys v) (v_channels v));
  mh_profiles_ok : group_ok (mprofiles mgr);
  mh_channels_ok : group_ok (mchannels mgr);
  mh_disjoint : ∀ l, l ∈ all_ptr (mprofiles mgr) → l ∉ all_ptr (mchannels mgr);
  mh_profiles_sorted : ascending (profile_keys v);
  mh_channels_sorted : ascending (channel_keys v);
  mh_parents : Forall (λ c, c.2 ∈ profile_keys v) (v_channels v);
  mh_fewer : (length (v_profiles v) ≤ length (v_channels v))%nat
}.

(** The marks of the channels' bit set. *)
Definition marks_are mgr (marks : gset nat) : Prop :=
  ∀ j, bit (bitset (mchannels mgr)) (Z.of_nat j) = bool_decide (j ∈ marks).

Lemma list_find_key {A} (f : A → loc) (l : list A) (q : loc) :
  fst <$> list_find (λ p, p = q) (f <$> l) = fst <$> list_find (λ x, f x = q) l.
Proof. rewrite list_find_fmap. by destruct (list_find _ l) as [[]|]. Qed.

Lemma list_find_ascending {A} (f : A → loc) (l : list A) i x : ascending (f <$> l) → l !! i = Some x →
  list_find (λ y, f y = f x) l = Some (i, x).
Proof.
  intros Ha Hx. apply list_find_Some. split_and!; [done..|]. intros j y Hy Hj E.
  assert (f y < f x)%positive; [|lia]. apply (ascending_lookup (f <$> l) j i); [done..| |]; rewrite list_lookup_fmap; [by rewrite Hy|by rewrite Hx].
Qed.

Lemma channel_items_keys ls ps cs : key <$> channel_items ls ps cs = (λ c, ptr c.1) <$> cs.
Proof. unfold channel_items. by rewrite <-list_fmap_compose. Qed.
Lemma profile_items_keys ps : key <$> profile_items ps = ptr <$> ps.
Proof. unfold profile_items. by rewrite <-list_fmap_compose. Qed.

(** A channel of the manager, with the items of it and of its profile. *)
Lemma find_channel h mgr v c i cx q : mgr_holds h mgr v → list_find (λ x, ptr x.1 = c) (v_channels v) = Some (i, (cx, q)) →
  ∃ l j pc lp, group_item_find h (mchannels mgr) c = Ok (Some l) ∧
    h !! l = Some {| ctx := cx; parent_ptr := Some lp; idx := Z.of_nat i |} ∧
    list_find (λ p, ptr p = q) (v_profiles v) = Some (j, pc) ∧
    h !! lp = Some {| ctx := pc; parent_ptr := None; idx := Z.of_nat j |} ∧
    v_channels v !! i = Some (cx, q) ∧ v_profiles v !! j = Some pc.
Proof.
  intros [Hp Hc _ _ _ Hps Hcs Hpar _] Hf. pose proof Hf as (Hi & Hk & _)%list_find_Some. cbn in Hk.
  assert (∃ j pc, list_find (λ p, ptr p = q) (v_profiles v) = Some (j, pc)) as (j & pc & Ej).
  { pose proof (Forall_lookup_1 _ _ _ _ Hpar Hi) as Hq. cbn in Hq. unfold profile_keys in Hq.
    apply list_elem_of_fmap in Hq as (pc & -> & Hpc). apply list_elem_of_lookup_1 in Hpc as [j Ej].
    exists j, pc. by apply list_find_ascending. }
  pose proof Ej as (Hj & Hkp & _)%list_find_Some.
  destruct (group_holds_at _ _ _ j (pc, None) Hp) as (lp & Elp & Hlp). { unfold profile_items. by rewrite list_lookup_fmap, Hj. }
  destruct (group_holds_at _ _ _ i (cx, Some lp) Hc) as (l & El & Hl).
  { unfold channel_items. rewrite list_lookup_fmap, Hi. cbn. unfold item_of, profile_keys. rewrite list_find_key, Ej. cbn. by rewrite Elp. }
  exists l, j, pc, lp. split; [|done]. rewrite (group_item_find_spec h _ _ c Hc) by (by rewrite channel_items_keys).
  unfold channel_items. rewrite list_find_fmap. change (list_find _ (v_channels v)) with (list_find (λ x, ptr x.1 = c) (v_channels v)).
  rewrite Hf. cbn. by rewrite El.
Qed.

Lemma find_no_channel h mgr v c : mgr_holds h mgr v → list_find (λ x, ptr x.1 = c) (v_channels v) = None →
  group_item_find h (mchannels mgr) c = Ok None.
Proof.
  intros [_ Hc _ _ _ _ Hcs _ _] Hf. rewrite (group_item_find_spec h _ _ c Hc) by (by rewrite channel_items_keys).
  unfold channel_items. rewrite list_find_fmap. change (list_find _ (v_channels v)) with (list_find (λ x, ptr x.1 = c) (v_channels v)).
  by rewrite Hf.
Qed.

(** Only the bits differ. *)
Lemma mgr_holds_bits h mgr v b : mgr_holds h mgr v → bitset_wf b → words b = words (bitset (mchannels mgr)) →
  mgr_holds h (with_groups (with_bitset b (mchannels mgr)) (mprofiles mgr) mgr) v.
Proof.
  intros [Hp Hc Hpo [Hb Hu Hr] Hd Hps Hcs Hpar Hf] Hwf Hw. split; cbn [with_groups mchannels mprofiles]; try done.
  - by apply (group_holds_ptr h (mchannels mgr)).
  - split; [done|done|]. cbn [with_bitset all_prealloc bitset]. unfold bitset_get_size in *. by rewrite Hw.
Qed.

(** *** Data *)

Definition deliver v (c : loc) (marks : gset nat) : gset nat * list (pevents_ctx + pevents_ctx) :=
  match list_find (λ x, ptr x.1 = c) (v_channels v) with
  | None => (marks, [])
  | Some (i, (cx, q)) =>
      if decide (i ∈ marks) then (marks, [])
      else
        let marks := {[i]} ∪ marks in
        match list_find (λ p, ptr p = q) (v_profiles v) with
        | None => (marks, [inr cx])
        | Some (j, pc) => if decide (j ∈ marks) then (marks, [inr cx]) else ({[j]} ∪ marks, [inr cx; inl pc])
        end
  end.

Fixpoint deliveries v (cs : list loc) (marks : gset nat) : list (pevents_ctx + pevents_ctx) :=
  match cs with
  | [] => []
  | c :: cs => let '(marks, es) := deliver v c marks in es ++ deliveries v cs marks
  end.

(** The data callback of a profile ([inl]) or of a channel ([inr]). *)
Definition handle mgr rec (w : W) (e : pevents_ctx + pevents_ctx) : W :=
  match e with
  | inl pc => on_data_of (mprofiles mgr) pc rec w
  | inr cx => on_data_of (mchannels mgr) cx rec w
  end.

(** What the calls leave alone. *)
Record same_but_bits mgr mgr' : Prop := {
  sb_profiles : mprofiles mgr' = mprofiles mgr;
  sb_channels : ∃ b, mchannels mgr' = with_bitset b (mchannels mgr);
  sb_global : user_global mgr' = user_global mgr
}.

Lemma mark_spec h mgr v marks i : mgr_holds h mgr v → marks_are mgr marks → (i < length (v_channels v))%nat →
  ∃ b, bitset_get_and_set (bitset (mchannels mgr)) (Z.of_nat i) true = Ok (bool_decide (i ∈ marks), b) ∧
    mgr_holds h (with_groups (with_bitset b (mchannels mgr)) (mprofiles mgr) mgr) v ∧
    marks_are (with_groups (with_bitset b (mchannels mgr)) (mprofiles mgr) mgr) ({[i]} ∪ marks).
Proof.
  intros Hh Hm Hi. pose proof (mh_channels_ok _ _ _ Hh) as [Hb Hu Hr].
  destruct (bitset_get_and_set_spec (bitset (mchannels mgr)) (Z.of_nat i) true Hb) as (b & E & Hwf & Hw & Hbit).
  { rewrite (all_size_holds _ _ _ (mh_channels _ _ _ Hh)) in Hu. unfold channel_items in Hu. rewrite length_fmap in Hu. lia. }
  exists b. rewrite E, (Hm i). split; [done|]. split; [by apply mgr_holds_bits|].
  intros j. cbn [with_groups mchannels with_bitset bitset]. rewrite Hbit by lia. case_decide as Hj.
  - rewrite bool_decide_true; [done|]. apply elem_of_union_l, elem_of_singleton. lia.
  - rewrite Hm. apply bool_decide_ext. rewrite elem_of_union, elem_of_singleton. split; [by right|]. intros [->|]; [done|done].
Qed.

Lemma pevents_data_spec h mgr v marks w c rec : mgr_holds h mgr v → marks_are mgr marks → c ∈ channel_keys v →
  ∃ mgr', pevents_data h mgr w c rec = Ok (mgr', foldl (handle mgr rec) w (deliver v c marks).2, 0) ∧
    mgr_holds h mgr' v ∧ marks_are mgr' (deliver v c marks).1 ∧ same_but_bits mgr mgr'.
Proof.
  intros Hh Hm Hc. unfold pevents_data, deliver.
  assert (∃ i cx q, list_find (λ x, ptr x.1 = c) (v_channels v) = Some (i, (cx, q))) as (i & cx & q & Ef).
  { apply list_elem_of_fmap in Hc as ([cx q] & -> & [i Hi]%list_elem_of_lookup_1). exists i, cx, q.
    by apply (list_find_ascending (λ x, ptr x.1) _ i (cx, q)), Hi; apply Hh. }
  destruct (find_channel h mgr v c i cx q Hh Ef) as (l & j & pc & lp & -> & Hl & Ej & Hlp & Hi & Hj).
  rewrite Ef, Ej, res_bind_ret, (deref_Some _ _ _ Hl), res_bind_ret. cbn [idx ctx parent_ptr].
  destruct (mark_spec h mgr v marks i Hh Hm) as (b & -> & Hh1 & Hm1); [by eapply lookup_lt_Some|].
  rewrite res_bind_ret. destruct (decide (i ∈ marks)) as [Him|Him].
  { rewrite bool_decide_true by done. eexists. split; [done|]. cbn [fst snd]. split; [done|]. split.
    - intros k. etransitivity; [exact (Hm1 k)|]. apply bool_decide_ext. set_solver.
    - split; [done|by exists b|done]. }
  rewrite bool_decide_false by done. cbn [nonnull or_fault]. rewrite res_bind_ret, (deref_Some _ _ _ Hlp), res_bind_ret.
  cbn [idx ctx]. set (mgr1 := with_groups _ _ _) in *.
  change (bitset (with_bitset b (mchannels mgr))) with (bitset (mchannels mgr1)).
  destruct (mark_spec h mgr1 v _ j Hh1 Hm1) as (b2 & -> & Hh2 & Hm2).
  { apply lookup_lt_Some in Hj. pose proof (mh_fewer _ _ _ Hh). lia. }
  rewrite res_bind_ret. case_decide as Hjm.
  - rewrite bool_decide_true by done. eexists. split; [done|]. split; [done|]. split.
    + intros k. etransitivity; [exact (Hm2 k)|]. apply bool_decide_ext. cbn [fst]. set_solver.
    + split; [done|by exists b2|done].
  - rewrite bool_decide_false by done. eexists. split; [done|]. split; [done|]. split; [done|]. split; [done|by exists b2|done].
Qed.

Lemma handle_same mgr mgr' rec : same_but_bits mgr mgr' → handle mgr' rec = handle mgr rec.
Proof. intros [Hp (b & Hc) _]. unfold handle. by rewrite Hp, Hc. Qed.

Lemma same_but_bits_trans mgr1 mgr2 mgr3 : same_but_bits mgr1 mgr2 → same_but_bits mgr2 mgr3 → same_but_bits mgr1 mgr3.
Proof.
  intros [H1 (b1 & H2) H3] [H1' (b2 & H2') H3']. split; [congruence| |congruence]. exists b2. rewrite H2', H2. done.
Qed.

Lemma process_known fuel t h v rec cs : Forall (λ c, c ∈ channel_keys v) cs → ∀ mgr marks w,
  mgr_holds h mgr v → marks_are mgr marks →
  ∃ mgr', for_each (process_step fuel t rec) cs (h, mgr, w) =
      Ok (inl (h, mgr', foldl (handle mgr rec) w (deliveries v cs marks))) ∧
    mgr_holds h mgr' v ∧ same_but_bits mgr mgr'.
Proof.
  induction 1 as [|c cs Hc _ IH]; intros mgr marks w Hh Hm; cbn [for_each deliveries].
  { exists mgr. split; [done|]. split; [done|]. split; [done| |done]. exists (bitset (mchannels mgr)). by destruct (mchannels mgr). }
  destruct (pevents_data_spec h mgr v marks w c rec Hh Hm Hc) as (mgr1 & E & Hh1 & Hm1 & Hs1).
  assert (process_step fuel t rec c (h, mgr, w) = Ok (inl (h, mgr1, foldl (handle mgr rec) w (deliver v c marks).2))) as ->
    by (unfold process_step; rewrite E, res_bind_ret; done). rewrite res_bind_ret. cbv beta iota.
  destruct (deliver v c marks) as [marks1 es]. cbn [fst snd] in *.
  destruct (IH mgr1 marks1 (foldl (handle mgr rec) w es) Hh1 Hm1) as (mgr2 & E2 & Hh2 & Hs2).
  exists mgr2. rewrite E2, (handle_same mgr mgr1) by done. rewrite foldl_app. split; [done|]. split; [done|].
  by apply (same_but_bits_trans _ mgr1).
Qed.

(** *** At most one call for each channel and profile *)

Definition event_at v (e : pevents_ctx + pevents_ctx) (i : nat) : Prop :=
  match e with
  | inl pc => v_profiles v !! i = Some pc
  | inr cx => ∃ q, v_channels v !! i = Some (cx, q)
  end.

Lemma ascending_index {A} (f : A → loc) (l : list A) i j x y : ascending (f <$> l) → l !! i = Some x → l !! j = Some y → f x = f y → i = j.
Proof.
  intros Ha Hi Hj E. apply ascending_NoDup in Ha. rewrite NoDup_alt in Ha. apply (Ha i j (f x)); rewrite list_lookup_fmap.
  - by rewrite Hi.
  - rewrite Hj. cbn. by rewrite E.
Qed.

Lemma event_at_inj v e i j : ascending (profile_keys v) → ascending (channel_keys v) → event_at v e i → event_at v e j → i = j.
Proof.
  intros Hp Hc. destruct e as [pc|cx]; cbn.
  - intros Hi Hj. by apply (ascending_index ptr (v_profiles v) i j pc pc).
  - intros (q & Hi) (q' & Hj). by apply (ascending_index (λ c, ptr c.1) (v_channels v) i j (cx, q) (cx, q')).
Qed.

Lemma deliver_spec v c marks : let '(marks', es) := deliver v c marks in
  marks ⊆ marks' ∧ NoDup es ∧ ∀ e, e ∈ es → ∃ i, event_at v e i ∧ i ∉ marks ∧ i ∈ marks'.
Proof.
  unfold deliver. destruct (list_find _ (v_channels v)) as [[i [cx q]]|] eqn:Ef; [|by split_and!; [done|constructor|intros e ?%not_elem_of_nil] ].
  apply list_find_Some in Ef as (Hi & _). case_decide as Him; [by split_and!; [done|constructor|intros e ?%not_elem_of_nil]|].
  destruct (list_find _ (v_profiles v)) as [[j pc]|] eqn:Ej.
  2: { split_and!; [set_solver|apply NoDup_singleton|]. intros e ->%list_elem_of_singleton. exists i. split; [by exists q|set_solver]. }
  apply list_find_Some in Ej as (Hj & _). case_decide as Hjm.
  { split_and!; [set_solver|apply NoDup_singleton|]. intros e ->%list_elem_of_singleton. exists i. split; [by exists q|set_solver]. }
  split_and!; [set_solver|apply NoDup_cons; split; [by intros ?%list_elem_of_singleton|apply NoDup_singleton]|].
  intros e [->| ->%list_elem_of_singleton]%elem_of_cons; [exists i|exists j]; (split; [by try exists q|set_solver]).
Qed.

Lemma deliveries_spec v cs : ascending (profile_keys v) → ascending (channel_keys v) → ∀ marks,
  NoDup (deliveries v cs marks) ∧ ∀ e, e ∈ deliveries v cs marks → ∃ i, event_at v e i ∧ i ∉ marks.
Proof.
  intros Hp Hc. induction cs as [|c cs IH]; intros marks; cbn [deliveries]; [by split; [constructor|intros e ?%not_elem_of_nil]|].
  pose proof (deliver_spec v c marks) as Hd. destruct (deliver v c marks) as [marks' es]. destruct Hd as (Hsub & Hnd & Hes).
  destruct (IH marks') as [Hnd' Hin]. split.
  - apply NoDup_app. split; [done|]. split; [|done]. intros e He Hr. destruct (Hes e He) as (i & Hi & _ & Hi').
    destruct (Hin e Hr) as (j & Hj & Hj'). by rewrite (event_at_inj v e i j) in Hi'.
  - intros e [He|He]%elem_of_app; [destruct (Hes e He) as (i & ? & ? & _); by exists i|].
    destruct (Hin e He) as (i & ? & Hi). exists i. split; [done|]. set_solver.
Qed.
End manager.

(** *** The contents of a tree *)

Section contents.
Context {filter : Type} (t : tree filter).

Definition channels_of (q : loc) : list loc := match pheap t !! q with Some P => pr_channels P | None => [] end.
Definition profile_of (c : loc) : loc := match cheap t !! c with Some C => default 1%positive (ch_profile C) | None => 1%positive end.

(** The channels of a list of profiles, with the profile. *)
Definition pairs_of (qs : list loc) : list (loc * loc) := mjoin ((λ q, (λ c, (c, q)) <$> channels_of q) <$> qs).

Lemma pairs_of_keys qs : (pairs_of qs).*1 = mjoin (channels_of <$> qs).
Proof.
  unfold pairs_of. induction qs as [|q qs IH]; [done|]. cbn [fmap list_fmap]. rewrite !mjoin_cons, fmap_app, IH. f_equal.
  rewrite <-list_fmap_compose. apply list_fmap_id.
Qed.

Lemma pairs_of_snoc qs q : pairs_of (qs ++ [q]) = pairs_of qs ++ ((λ c, (c, q)) <$> channels_of q).
Proof. unfold pairs_of. by rewrite mjoin_fmap_snoc. Qed.

Lemma elem_of_pairs qs c q : (c, q) ∈ pairs_of qs ↔ q ∈ qs ∧ c ∈ channels_of q.
Proof.
  unfold pairs_of. rewrite list_elem_of_join. setoid_rewrite list_elem_of_fmap. split.
  - intros (l & Hin & q' & -> & Hq). apply list_elem_of_fmap in Hin as (c' & [= -> ->] & Hc). done.
  - intros [Hq Hc]. exists ((λ c, (c, q)) <$> channels_of q). split; [apply list_elem_of_fmap; by exists c|by exists q].
Qed.

Lemma own_channels x : ∀ parent, own t parent x → clocs x ≡ₚ mjoin (channels_of <$> plocs x).
Proof.
  induction x as [p cs subs IH] using ptree_ind'. intros parent ((P & HP & _ & HPc & _) & _ & Hs)%own_node.
  cbn [clocs plocs fmap list_fmap]. rewrite mjoin_cons. apply Permutation_app.
  - unfold channels_of. by rewrite HP, HPc.
  - clear HP HPc. induction IH as [|y subs Hy _ IHs]; [done|]. apply Forall_cons in Hs as [Hy' Hs].
    cbn [fmap list_fmap]. rewrite !mjoin_cons, fmap_app, join_app. apply Permutation_app; [by apply (Hy (Some p))|by apply IHs].
Qed.

Lemma own_channel x : ∀ parent q c, own t parent x → q ∈ plocs x → c ∈ channels_of q → channel_at t q c.
Proof.
  induction x as [p cs subs IH] using ptree_ind'. intros parent q c ((P & HP & _ & HPc & _) & Hcs & Hs)%own_node Hq Hc.
  apply elem_of_plocs in Hq as [->|(y & Hy & Hq)].
  - unfold channels_of in Hc. rewrite HP, HPc in Hc. by apply (Forall_elem Hcs).
  - by apply (Forall_elem IH Hy (Some p)); [apply (Forall_elem Hs)|..].
Qed.
End contents.

Lemma ascending_unique l k : ascending l → ascending k → l ≡ₚ k → l = k.
Proof.
  intros Hl. revert k. induction Hl as [|a l Hl IH Ha]; intros k Hk Hp; [by apply Permutation_nil in Hp|].
  destruct Hk as [|b k Hk Hb]; [by apply Permutation_nil_r in Hp|].
  assert (a = b) as ->.
  { assert (a ∈ b :: k) as [->|Hin]%elem_of_cons by (rewrite <-Hp; left); [done|].
    assert (b ∈ a :: l) as [->|Hin']%elem_of_cons by (rewrite Hp; left); [done|].
    pose proof (Forall_elem Ha Hin'). pose proof (Forall_elem Hb Hin). lia. }
  f_equal. apply IH; [done|]. by apply Permutation_cons_inv in Hp.
Qed.

Lemma by_address_ascending s : ascending (by_address s).
Proof.
  assert (∀ l, StronglySorted Pos.le l → NoDup l → ascending l) as H.
  { induction 1 as [|a l Hl IH Ha]; intros Hn; [constructor|]. apply NoDup_cons in Hn as [Hn1 Hn2]. constructor; [by apply IH|].
    apply Forall_forall. intros b Hb. pose proof (Forall_elem Ha Hb). assert (a ≠ b) by (by intros ->). lia. }
  apply H; [|apply NoDup_by_address]. apply StronglySorted_merge_sort; [intros a b c; lia|intros a b; lia].
Qed.

(** ** Theory: the new configuration *)

Section building.
Context {filter W Rec : Type} (t : tree filter).
Implicit Types (g : pevents_group W Rec) (h : items) (vs : list (pevents_ctx * option loc)).

Lemma group_holds_mono h h' g vs : h ⊆ h' → group_holds h g vs → group_holds h' g vs.
Proof. intros Hs [Hl Hi]. split; [done|]. intros i l v El Ev. by apply (lookup_weaken h h'), Hs; apply Hi. Qed.

(** A group with more items than another, all of them new in a heap. *)
Record grown_group h0 g g' : Prop := {
  gg_ok : group_ok g';
  gg_cbs : cbs g' = cbs g;
  gg_new : ∀ l, l ∈ all_ptr g' → l ∈ all_ptr g ∨ h0 !! l = None
}.

Lemma group_add h g vs p parent : group_ok g → group_holds h g vs →
  ∃ l h1 h2 g', group_item_new h g = Ok (h1, g', l) ∧
    upd_item h1 l (λ item, {| ctx := with_ptr p (ctx item); parent_ptr := parent; idx := idx item |}) = Ok h2 ∧
    group_holds h2 g' (vs ++ [(new_ctx p, parent)]) ∧ h ⊆ h2 ∧ grown_group h g g' ∧ all_ptr g' = all_ptr g ++ [l] ∧ h !! l = None.
Proof.
  intros Hok Hg. destruct (group_item_new_spec h g vs p parent Hok Hg) as (l & h1 & h2 & g' & E1 & E2 & Hl & Hok' & Ep & Ec & Hg' & Hr).
  exists l, h1, h2, g'. split_and!; try done.
  - apply map_subseteq_spec. intros k x Hk. rewrite Hr; [done|]. intros ->. congruence.
  - split; [done|done|]. rewrite Ep. intros k [Hk| ->%list_elem_of_singleton]%elem_of_app; [by left|by right].
Qed.

Lemma grown_group_refl h g : group_ok g → grown_group h g g.
Proof. split; [done|done|by left]. Qed.

Lemma grown_group_trans h h' g1 g2 g3 : h ⊆ h' → grown_group h g1 g2 → grown_group h' g2 g3 → grown_group h g1 g3.
Proof.
  intros Hs [_ C1 N1] [O2 C2 N2]. split; [done|congruence|]. intros l [Hl|Hl]%N2; [by apply N1|]. right.
  by apply (lookup_weaken_None h h').
Qed.

Lemma parse_channels_spec h g vs q P l : pheap t !! q = Some P → Z.of_nat (length (pr_channels P)) < 65536 →
  group_ok g → group_holds h g vs →
  ∃ h' g', for_each (parse_channel t q l) (seqZ 0 (u16 (Z.of_nat (length (pr_channels P))))) (h, g) = Ok (inl (h', g')) ∧
    group_holds h' g' (vs ++ ((λ c, (new_ctx c, Some l)) <$> pr_channels P)) ∧ h ⊆ h' ∧ grown_group h g g'.
Proof.
  intros HP Hlen Hok Hg. rewrite u16_small by lia. set (F := λ c, (new_ctx c, Some l)).
  destruct (for_each_total (parse_channel t q l) (λ done s, ∃ n, length done = n ∧
      group_holds s.1 s.2 (vs ++ (F <$> take n (pr_channels P))) ∧ h ⊆ s.1 ∧ grown_group h g s.2)
    (λ o, ∃ s, o = inl s ∧ group_holds s.1 s.2 (vs ++ (F <$> pr_channels P)) ∧ h ⊆ s.1 ∧ grown_group h g s.2)
    (seqZ 0 (Z.of_nat (length (pr_channels P))))) with (s := (h, g)) as (o & -> & [h' g'] & -> & Hh & Hs & Hgr).
  - intros done j r [h1 g1] E (n & Hn & Hh & Hs & Hgr). cbn [fst snd] in *.
    assert (seqZ 0 (Z.of_nat (length (pr_channels P))) !! n = Some j) as Hj by (rewrite E, <-Hn; by apply list_lookup_middle).
    apply lookup_seqZ in Hj as [-> Hj]. destruct (lookup_lt_is_Some_2 (pr_channels P) n) as [c Hc]; [lia|].
    destruct (group_add h1 g1 _ c (Some l) (gg_ok _ _ _ Hgr) Hh) as (k & h2 & h3 & g3 & E2 & E3 & Hh3 & Hs3 & Hgr3 & _).
    exists (inl (h3, g3)). split.
    + unfold parse_channel, profile_get_channel, get_profile. rewrite (deref_Some _ _ _ HP), res_bind_ret, res_bind_ret.
      rewrite Z.add_0_l, Nat2Z.id, Hc, E2, res_bind_ret. cbv beta iota. by rewrite E3, res_bind_ret.
    + exists (S n). rewrite length_app, Hn. cbn. split; [lia|]. rewrite (fmap_take_last _ _ _ _ Hc), app_assoc.
      split; [done|]. split; [by etrans|]. by apply (grown_group_trans h h1 g g1).
  - intros [h1 g1] (n & Hn & H). exists (h1, g1). split; [done|]. rewrite length_seqZ, Nat2Z.id in Hn. subst n.
    by rewrite firstn_all in H.
  - exists 0%nat. cbn. rewrite app_nil_r. split_and!; [done..|]. by apply grown_group_refl.
  - by exists h', g'.
Qed.

(** The groups after the profiles [qs]. *)
Record parsed h0 (gc0 gp0 : pevents_group W Rec) (qs : list loc) (s : items * pevents_group W Rec * pevents_group W Rec) : Prop := {
  pa_profiles : group_holds s.1.1 s.2 (profile_items (new_ctx <$> qs));
  pa_channels : group_holds s.1.1 s.1.2 (channel_items (all_ptr s.2) qs ((λ n, (new_ctx n.1, n.2)) <$> pairs_of t qs));
  pa_heap : h0 ⊆ s.1.1;
  pa_grown_profiles : grown_group h0 gp0 s.2;
  pa_grown_channels : grown_group h0 gc0 s.1.2;
  pa_disjoint : ∀ l, l ∈ all_ptr s.2 → l ∉ all_ptr s.1.2
}.

Lemma item_of_Some ls ps q i l : NoDup ps → ps !! i = Some q → ls !! i = Some l → item_of ls ps q = Some l.
Proof.
  intros Hn Hi Hl. unfold item_of. rewrite (proj2 (list_find_Some (λ p, p = q) ps i q)); [done|]. split_and!; [done..|].
  intros j y Hj Hji ->. rewrite NoDup_alt in Hn. specialize (Hn i j q Hi Hj). lia.
Qed.

(** Channels are the same items under another arrangement of the profiles. *)
Lemma channel_items_ext ls ps ls' ps' cs : NoDup ps → NoDup ps' → length ls = length ps →
  (∀ i q l, ps !! i = Some q → ls !! i = Some l → ∃ j, ps' !! j = Some q ∧ ls' !! j = Some l) →
  Forall (λ c, c.2 ∈ ps) cs → channel_items ls' ps' cs = channel_items ls ps cs.
Proof.
  intros Hn Hn' Hlen Hat Hcs. unfold channel_items. apply list_fmap_ext. intros k c Hc. f_equal.
  pose proof (Forall_lookup_1 _ _ _ _ Hcs Hc) as Hq. apply list_elem_of_lookup_1 in Hq as [i Hi].
  destruct (lookup_lt_is_Some_2 ls i) as [l Hl]; [rewrite Hlen; by eapply lookup_lt_Some|].
  destruct (Hat i c.2 l Hi Hl) as (j & Hj & Hl'). by rewrite (item_of_Some ls ps c.2 i l), (item_of_Some ls' ps' c.2 j l).
Qed.

Lemma pairs_parents qs : Forall (λ n, n.2 ∈ qs) (pairs_of t qs).
Proof. apply Forall_forall. intros [c q] H. by apply elem_of_pairs in H as [? _]. Qed.

Lemma channel_items_app ls ps cs ds : channel_items ls ps (cs ++ ds) = channel_items ls ps cs ++ channel_items ls ps ds.
Proof. apply fmap_app. Qed.

(** A tree that can be parsed: the number of channels of a profile fits 16 bits. *)
Definition parsable (q : loc) : Prop := ∃ P, pheap t !! q = Some P ∧ Z.of_nat (length (pr_channels P)) < 65536.

Lemma parse_profile_spec h0 gc0 gp0 qs q s : parsed h0 gc0 gp0 qs s → q ∉ qs → NoDup qs → parsable q →
  ∃ s', parse_profile t q s = Ok (inl s') ∧ parsed h0 gc0 gp0 (qs ++ [q]) s'.
Proof.
  destruct s as [[h gc] gp]. intros [Hp Hc Hs Hgp Hgc Hd] Hq Hnd (P & HP & Hlen). cbn [fst snd] in *.
  destruct (group_add h gp _ q None (gg_ok _ _ _ Hgp) Hp) as (l & h1 & h2 & gp1 & E1 & E2 & Hp2 & Hs2 & Hgp2 & Ep & Hl).
  destruct (parse_channels_spec h2 gc _ q P l HP Hlen (gg_ok _ _ _ Hgc) (group_holds_mono _ _ _ _ Hs2 Hc))
    as (h3 & gc3 & E3 & Hc3 & Hs3 & Hgc3).
  exists (h3, gc3, gp1). split.
  { unfold parse_profile. rewrite E1, res_bind_ret. cbv beta iota. rewrite E2, res_bind_ret. unfold profile_get_channels, get_profile.
    rewrite (deref_Some _ _ _ HP), !res_bind_ret, E3, res_bind_ret. done. }
  assert (length (all_ptr gp) = length qs) as Hlp.
  { rewrite (gh_length _ _ _ Hp). unfold profile_items. by rewrite !length_fmap. }
  assert (NoDup (qs ++ [q])) as Hnd'.
  { apply NoDup_app. split; [done|]. split; [by intros a Ha ->%list_elem_of_singleton|apply NoDup_singleton]. }
  split; cbn [fst snd].
  - apply (group_holds_mono h2); [done|]. unfold profile_items in *. by rewrite !fmap_app.
  - rewrite pairs_of_snoc, fmap_app, channel_items_app. rewrite (channel_items_ext (all_ptr gp) qs); [|done..| |].
    + unfold channel_items at 2. rewrite <-!list_fmap_compose. unfold channels_of at 1. rewrite HP.
      assert ((λ c, (new_ctx c, Some l)) <$> pr_channels P =
        (λ c, (new_ctx c, item_of (all_ptr gp1) (qs ++ [q]) q)) <$> pr_channels P) as E; [|by rewrite E in Hc3].
      apply list_fmap_ext. intros _ c _. rewrite (item_of_Some _ _ q (length qs) l); [done|done|by apply list_lookup_middle|].
      rewrite Ep, <-Hlp. by apply list_lookup_middle.
    + intros i p k Hi Hk. exists i. split; [by apply lookup_app_l_Some|]. rewrite Ep. by apply lookup_app_l_Some.
    + apply Forall_fmap. apply pairs_parents.
  - by do 2 (etrans; [|done]).
  - by apply (grown_group_trans h0 h gp0 gp).
  - apply (grown_group_trans h0 h2 gc0 gc); [by etrans|done|done].
  - rewrite Ep. intros k [Hk|Hk]%elem_of_app Hin; [|apply list_elem_of_singleton in Hk as ->].
    + apply (gg_new _ _ _ Hgc3) in Hin as [Hin|Hin]; [by apply (Hd k)|].
      destruct (group_holds_allocated h gp _ k Hp Hk) as [x Hx]. rewrite (lookup_weaken h h2 k x) in Hin by done. done.
    + apply (gg_new _ _ _ Hgc3) in Hin as [Hin|Hin].
      * destruct (group_holds_allocated h gc _ l Hc Hin) as [x Hx]. congruence.
      * destruct (group_holds_allocated h2 gp1 _ l Hp2) as [x Hx]; [rewrite Ep; apply elem_of_app; right; left|]. congruence.
Qed.

Lemma parse_profiles_spec h0 gc0 gp0 qs : group_ok gc0 → group_ok gp0 → group_holds h0 gc0 [] → group_holds h0 gp0 [] →
  NoDup qs → Forall parsable qs →
  ∃ s, for_each (parse_profile t) qs (h0, gc0, gp0) = Ok (inl s) ∧ parsed h0 gc0 gp0 qs s.
Proof.
  intros Hoc Hop Hc Hp Hnd Hqs.
  destruct (for_each_total (parse_profile t) (parsed h0 gc0 gp0) (λ o, ∃ s, o = inl s ∧ parsed h0 gc0 gp0 qs s) qs)
    with (s := (h0, gc0, gp0)) as (o & -> & s & -> & Hs).
  - intros done q rest s E Hs. subst qs. apply NoDup_app in Hnd as (Hn1 & Hn2 & _).
    destruct (parse_profile_spec h0 gc0 gp0 done q s) as (s' & -> & Hs'); [done| |done| |].
    + intros Hin. apply (Hn2 q Hin). left.
    + apply (Forall_elem Hqs). apply elem_of_app. right. left.
    + by exists (inl s').
  - intros s Hs. by exists s.
  - split; cbn; [done|done|done|by apply grown_group_refl|by apply grown_group_refl|].
    intros l Hl. destruct (group_holds_allocated h0 gp0 [] l Hp Hl). apply gh_length in Hp. by destruct (all_ptr gp0); [apply not_elem_of_nil in Hl|].
  - by exists s.
Qed.

(** The update structure for the profiles [qs] and the channels [news], in a heap that was
    [h0] before; [g] is the global data. *)
Record built h0 h (upd : pevents_update W Rec) (g : Z) (qs : list loc) (news : list (loc * loc)) : Prop := {
  bt_profiles : group_holds h (uprofiles upd) (profile_items ((λ q, with_global g (new_ctx q)) <$> qs));
  bt_channels : group_holds h (uchannels upd)
    (channel_items (all_ptr (uprofiles upd)) qs ((λ n, (with_global g (new_ctx n.1), n.2)) <$> news));
  bt_profiles_ok : group_ok (uprofiles upd);
  bt_channels_ok : group_ok (uchannels upd);
  bt_old : h0 ⊆ h;
  bt_new_profiles : ∀ l, l ∈ all_ptr (uprofiles upd) → h0 !! l = None;
  bt_new_channels : ∀ l, l ∈ all_ptr (uchannels upd) → h0 !! l = None;
  bt_disjoint : ∀ l, l ∈ all_ptr (uprofiles upd) → l ∉ all_ptr (uchannels upd);
  bt_chnl_flags : chnl_flags upd = replicate (length news) 0;
  bt_prfl_flags : prfl_flags upd = replicate (length qs) 0
}.

Lemma subseteq_outside h0 h h' (ls : list loc) : h0 ⊆ h → (∀ l, l ∈ ls → h0 !! l = None) → (∀ k, k ∉ ls → h' !! k = h !! k) → h0 ⊆ h'.
Proof.
  intros Hs Hn Hk. apply map_subseteq_spec. intros l x Hl. rewrite Hk; [by apply (lookup_weaken h0 h)|].
  intros Hin. specialize (Hn l Hin). congruence.
Qed.

Lemma sort_channels h g ls qs cs : group_ok g →
  group_holds h g (channel_items ls qs ((λ n, (new_ctx n.1, n.2)) <$> cs)) → NoDup cs.*1 →
  ∃ h' g' news, group_sort h g = Ok (h', g') ∧ news ≡ₚ cs ∧ ascending news.*1 ∧ group_ok g' ∧
    group_holds h' g' (channel_items ls qs ((λ n, (new_ctx n.1, n.2)) <$> news)) ∧
    all_ptr g' ≡ₚ all_ptr g ∧ ∀ k, k ∉ all_ptr g → h' !! k = h !! k.
Proof.
  intros Hok Hg Hnd. destruct (group_sort_spec h g _ Hok Hg) as (h' & g' & vs' & E & Hp & Ha & Hok' & Hg' & _ & Hpp & _ & Hk).
  { rewrite channel_items_keys, <-list_fmap_compose. exact Hnd. }
  unfold channel_items in Hp. rewrite <-list_fmap_compose in Hp. apply Permutation_map_inv in Hp as (news & -> & Hp).
  exists h', g', news. split_and!; [done|by symmetry| |done| |done|done].
  - change (map ?f news) with (f <$> news) in Ha. rewrite <-list_fmap_compose in Ha. exact Ha.
  - unfold channel_items. rewrite <-list_fmap_compose. exact Hg'.
Qed.

Lemma sort_profiles h g qs : group_ok g → group_holds h g (profile_items (new_ctx <$> qs)) → ascending qs →
  ∃ h' g', group_sort h g = Ok (h', g') ∧ group_ok g' ∧ group_holds h' g' (profile_items (new_ctx <$> qs)) ∧
    all_ptr g' ≡ₚ all_ptr g ∧ (∀ i q l, qs !! i = Some q → all_ptr g !! i = Some l → ∃ j, qs !! j = Some q ∧ all_ptr g' !! j = Some l) ∧
    ∀ k, k ∉ all_ptr g → h' !! k = h !! k.
Proof.
  intros Hok Hg Ha. assert (key <$> profile_items (new_ctx <$> qs) = qs) as Hkeys.
  { rewrite profile_items_keys, <-list_fmap_compose. apply list_fmap_id. }
  destruct (group_sort_spec h g _ Hok Hg) as (h' & g' & vs' & E & Hp & Ha' & Hok' & Hg' & _ & Hpp & Hold & Hk).
  { rewrite Hkeys. by apply ascending_NoDup. }
  assert (vs' = profile_items (new_ctx <$> qs)) as ->.
  { assert (key <$> vs' = qs) as Hkeys' by (apply ascending_unique; [done|done|by rewrite Hp, Hkeys]).
    unfold profile_items in Hp. rewrite <-list_fmap_compose in Hp. apply Permutation_map_inv in Hp as (qs' & -> & Hp).
    change (map ?f qs') with (f <$> qs') in *. rewrite <-list_fmap_compose in Hkeys'.
    assert (qs' = qs) as -> by (rewrite <-Hkeys'; symmetry; apply list_fmap_id).
    unfold profile_items. by rewrite <-list_fmap_compose. }
  exists h', g'. split_and!; [done..| |done]. intros i q l Hi Hl.
  assert (l ∈ all_ptr g') as Hin by (rewrite Hpp; by eapply list_elem_of_lookup_2).
  apply list_elem_of_lookup_1 in Hin as [j Hj].
  assert (length (all_ptr g') = length qs) as Hlen by (rewrite (gh_length _ _ _ Hg'); unfold profile_items; by rewrite !length_fmap).
  destruct (lookup_lt_is_Some_2 qs j) as [q' Hq']; [rewrite <-Hlen; by eapply lookup_lt_Some|].
  assert (profile_items (new_ctx <$> qs) !! j = Some (new_ctx q', None)) as Hv by (unfold profile_items; by rewrite !list_lookup_fmap, Hq').
  destruct (Hold j l _ Hj Hv) as (i' & Hi' & Hv'). unfold profile_items in Hv'. rewrite !list_lookup_fmap in Hv'.
  pose proof (group_holds_NoDup _ _ _ Hg) as Hnd. rewrite NoDup_alt in Hnd. assert (i' = i) as -> by (by apply (Hnd i' i l)).
  rewrite Hi in Hv'. cbn in Hv'. injection Hv' as Eq. exists j. split; [|done]. congruence.
Qed.

Lemma length_channel_items ls ps cs : length (channel_items ls ps cs) = length cs.
Proof. apply length_fmap. Qed.

Lemma pairs_perm x : own t None x → NoDup (plocs x) → (pairs_of t (by_address (list_to_set (plocs x)))).*1 ≡ₚ clocs x.
Proof.
  intros Ho Hn. rewrite pairs_of_keys, (own_channels t x None Ho). apply join_Permutation, fmap_Permutation.
  by rewrite by_address_perm, elements_list_to_set.
Qed.

Lemma parse_tree_spec fuel h x q0 gc0 gp0 cf pf : own t None x → q0 ∈ plocs x → NoDup (plocs x) → NoDup (clocs x) →
  Forall parsable (plocs x) → (length (plocs x) < fuel)%nat →
  group_ok gc0 → group_ok gp0 → (∀ h, group_holds h gc0 []) → (∀ h, group_holds h gp0 []) →
  let qs := by_address (list_to_set (plocs x)) in
  ∃ h' upd news, pevents_update_parse_tree fuel t h {| uchannels := gc0; uprofiles := gp0; chnl_flags := cf; prfl_flags := pf |} (Some q0)
      = Ok (h', upd, 0) ∧
    news ≡ₚ pairs_of t qs ∧ ascending news.*1 ∧ built h h' upd 0 qs news.
Proof.
  intros Hown Hq0 Hndp Hndc Hpar Hfuel Hoc Hop Hc0 Hp0 qs. unfold pevents_update_parse_tree.
  rewrite (profile_get_all_profiles_spec t x q0 fuel Hown Hq0 Hfuel), res_bind_ret. fold qs. cbn [uchannels uprofiles].
  assert (∀ q, q ∈ qs ↔ q ∈ plocs x) as Hqs by (intros q; unfold qs; by rewrite elem_of_by_address, elem_of_list_to_set).
  assert (NoDup qs) as Hnq by apply NoDup_by_address.
  destruct (parse_profiles_spec h gc0 gp0 qs Hoc Hop (Hc0 h) (Hp0 h) Hnq) as ([[h1 gc] gp] & -> & [Hp Hc Hs Hgp Hgc Hd]).
  { apply Forall_forall. intros q Hq%Hqs. by apply (Forall_elem Hpar). }
  rewrite res_bind_ret. cbn [fst snd] in *.
  assert (NoDup (pairs_of t qs).*1) as Hndq by (unfold qs; by rewrite pairs_perm).
  assert (∀ l, l ∈ all_ptr gp → h !! l = None) as Hnewp.
  { intros l [Hl|Hl]%(gg_new _ _ _ Hgp); [|done]. pose proof (gh_length _ _ _ (Hp0 h)). destruct (all_ptr gp0); [by apply not_elem_of_nil in Hl|done]. }
  assert (∀ l, l ∈ all_ptr gc → h !! l = None) as Hnewc.
  { intros l [Hl|Hl]%(gg_new _ _ _ Hgc); [|done]. pose proof (gh_length _ _ _ (Hc0 h)). destruct (all_ptr gc0); [by apply not_elem_of_nil in Hl|done]. }
  destruct (sort_channels h1 gc _ _ _ (gg_ok _ _ _ Hgc) Hc Hndq) as (h2 & gc2 & news & E2 & Hperm & Ha & Hoc2 & Hc2 & Hpc & Hk2).
  destruct (sort_profiles h2 gp qs (gg_ok _ _ _ Hgp)) as (h3 & gp3 & E3 & Hop3 & Hp3 & Hpp & Hat & Hk3).
  { apply (group_holds_agree h1); [done|]. intros l Hl. apply Hk2. by apply Hd. }
  { apply by_address_ascending. }
  cbv zeta beta iota. rewrite E2, res_bind_ret. cbv beta iota. rewrite E3, res_bind_ret. eexists _, _, news. split; [done|]. split; [done|]. split; [done|].
  assert (length (all_ptr gp) = length qs) as Hlp by (rewrite (gh_length _ _ _ Hp); unfold profile_items; by rewrite !length_fmap).
  split; cbn [uchannels uprofiles chnl_flags prfl_flags].
  - done.
  - apply (group_holds_agree h2).
    + rewrite (channel_items_ext (all_ptr gp) qs _ _ _ Hnq Hnq Hlp Hat); [done|].
      apply Forall_fmap. rewrite Hperm. apply pairs_parents.
    + intros l Hl. apply Hk3. intros Hin. apply (Hd l Hin). by rewrite <-Hpc.
  - done.
  - done.
  - apply (subseteq_outside h h2 h3 (all_ptr gp)); [|done..]. by apply (subseteq_outside h h1 h2 (all_ptr gc)).
  - intros l Hl. apply Hnewp. by rewrite <-Hpp.
  - intros l Hl. apply Hnewc. by rewrite <-Hpc.
  - intros l. rewrite Hpp, Hpc. apply Hd.
  - by rewrite (gh_length _ _ _ Hc), length_channel_items, length_fmap, Hperm.
  - by rewrite Hlp.
Qed.

Lemma update_create_spec fuel h x q0 mgr : own t None x → q0 ∈ plocs x → NoDup (plocs x) → NoDup (clocs x) →
  Forall parsable (plocs x) → (length (plocs x) < fuel)%nat →
  let qs := by_address (list_to_set (plocs x)) in
  ∃ h' upd news, pevents_update_create fuel t h mgr (Some q0) = Ok (h', Some upd) ∧
    news ≡ₚ pairs_of t qs ∧ ascending news.*1 ∧ built h h' upd (user_global mgr) qs news.
Proof.
  intros Hown Hq0 Hndp Hndc Hpar Hfuel qs. unfold pevents_update_create.
  destruct (group_init_spec (W := W) (Rec := Rec) (Z.max (all_size (mprofiles mgr) + PEVENTS_HINT_OVERLAP) PEVENTS_HINT_PROFILE)) as (gp0 & -> & Hop & _ & Hp0).
  { unfold PEVENTS_HINT_PROFILE. lia. }
  destruct (group_init_spec (W := W) (Rec := Rec) (Z.max (all_size (mchannels mgr) + PEVENTS_HINT_OVERLAP) PEVENTS_HINT_CHANNELS)) as (gc0 & -> & Hoc & _ & Hc0).
  { unfold PEVENTS_HINT_CHANNELS. lia. }
  destruct (parse_tree_spec fuel h x q0 gc0 gp0 [] [] Hown Hq0 Hndp Hndc Hpar Hfuel Hoc Hop Hc0 Hp0)
    as (h1 & upd & news & -> & Hperm & Ha & [Hp Hc Hpo Hco Hold Hnp Hnc Hd Hcf Hpf]). fold qs in Hperm, Hp, Hc, Hpf.
  rewrite res_bind_ret. cbv beta iota. rewrite decide_False by (intros H; apply H; done).
  destruct (set_global_spec h1 (uchannels upd) _ (user_global mgr) Hc) as (h2 & -> & Hc2 & Hk2).
  destruct (set_global_spec h2 (uprofiles upd) (profile_items ((λ q, with_global 0 (new_ctx q)) <$> qs)) (user_global mgr)) as (h3 & E3 & Hp3 & Hk3).
  { apply (group_holds_agree h1); [done|]. intros l Hl. apply Hk2. by apply Hd. }
  rewrite res_bind_ret, E3, res_bind_ret. exists h3, upd, news. split_and!; [done..|]. split; try done.
  - unfold profile_items in *. rewrite <-!list_fmap_compose in *. exact Hp3.
  - apply (group_holds_agree h2).
    + unfold channel_items in *. rewrite <-!list_fmap_compose in *. exact Hc2.
    + intros l Hl. apply Hk3. intros Hin. by apply (Hd l Hin).
  - apply (subseteq_outside h h2 h3 (all_ptr (uprofiles upd))); [|done..]. by apply (subseteq_outside h h1 h2 (all_ptr (uchannels upd))).
Qed.
End building.

(** *** Which channels and profiles stay

    A new channel is mapped to the old one with its path and name; a new profile to the old
    profile of the first of its channels that is mapped. *)

Section kept.
Context {filter : Type} (t : tree filter) (v : view).
Implicit Types (done news : list (loc * loc)) (n : loc * loc) (c q : loc) (o : pevents_ctx * loc).

Definition channel_id (c : loc) : option (bytes * bytes) := (λ C, (ch_pathName C, ch_name C)) <$> cheap t !! c.

Definition kept_channel (c : loc) : option (pevents_ctx * loc) :=
  snd <$> list_find (λ o, channel_id (ptr o.1) = channel_id c) (v_channels v).
Definition kept_by (q : loc) (n : loc * loc) : option (loc * (pevents_ctx * loc)) :=
  if decide (n.2 = q) then pair n.1 <$> kept_channel n.1 else None.
Definition kept_profile (news : list (loc * loc)) (q : loc) : option (loc * (pevents_ctx * loc)) := head (omap (kept_by q) news).

(** The old channels and profiles that something is mapped to. *)
Definition kept_old_channels (news : list (loc * loc)) : list loc := omap (λ n, (λ o, ptr o.1) <$> kept_channel n.1) news.
Definition kept_old_profiles (news : list (loc * loc)) (qs : list loc) : list loc := omap (λ q, (λ r, r.2.2) <$> kept_profile news q) qs.

Definition old_local (p : loc) : Z := match list_find (λ x, ptr x = p) (v_profiles v) with Some (_, x) => local x | None => 0 end.

(** The directory and the type of the profile of a channel. *)
Definition settings (c : loc) : option (bytes * PROFILE_TYPE) :=
  C ← cheap t !! c; q ← ch_profile C; Q ← pheap t !! q; Some (pr_directory Q, pr_type Q).
Definition change_flags (c_old c_new : loc) : Z :=
  match settings c_old, settings c_new with
  | Some (dir_old, type_old), Some (dir_new, type_new) =>
      (if decide (dir_new = dir_old) then 0 else PEVENTS_CHANGE_DIR) + (if decide (type_new = type_old) then 0 else PEVENTS_CHANGE_TYPE)
  | _, _ => 0
  end.

Definition channel_local (c : loc) : Z := match kept_channel c with Some o => local o.1 | None => 0 end.
Definition channel_flags (c : loc) : Z := match kept_channel c with Some o => change_flags (ptr o.1) c | None => 0 end.
Definition profile_local (news : list (loc * loc)) (q : loc) : Z :=
  match kept_profile news q with Some (_, o) => old_local o.2 | None => 0 end.
Definition profile_flags (news : list (loc * loc)) (q : loc) : Z :=
  match kept_profile news q with Some (c, o) => change_flags (ptr o.1) c | None => 0 end.

Lemma kept_profile_snoc done n q :
  kept_profile (done ++ [n]) q = match kept_profile done q with Some r => Some r | None => kept_by q n end.
Proof.
  unfold kept_profile. rewrite omap_app. destruct (omap (kept_by q) done); [|done]. cbn. by destruct (kept_by q n).
Qed.

Lemma kept_channel_Some c o : kept_channel c = Some o → ∃ i, v_channels v !! i = Some o ∧ channel_id (ptr o.1) = channel_id c ∧
  ∀ j o', v_channels v !! j = Some o' → (j < i)%nat → channel_id (ptr o'.1) ≠ channel_id c.
Proof.
  unfold kept_channel. intros ([i o'] & Hf & ->)%fmap_Some. apply list_find_Some in Hf as (Hi & Hk & Hmin). by exists i.
Qed.

Lemma kept_channel_None c : kept_channel c = None → Forall (λ o, channel_id (ptr o.1) ≠ channel_id c) (v_channels v).
Proof. unfold kept_channel. intros Hf%fmap_None. by apply list_find_None in Hf. Qed.

(** The flags that the code computes. *)
Definition channel_known (c : loc) : Prop := is_Some (settings c).

Lemma channel_known_inv c : channel_known c → ∃ C q Q, cheap t !! c = Some C ∧ ch_profile C = Some q ∧ pheap t !! q = Some Q.
Proof.
  unfold channel_known, settings. intros [x Hx]. destruct (cheap t !! c) as [C|]; [|done]. cbn in Hx.
  destruct (ch_profile C) as [q|] eqn:Eq; [|done]. cbn in Hx. destruct (pheap t !! q) as [Q|] eqn:EQ; [|done]. by exists C, q, Q.
Qed.

Lemma change_flags_spec c_old c_new : channel_known c_old → channel_known c_new →
  pevents_update_mapper_change_flags t c_old c_new = Ok (change_flags c_old c_new).
Proof.
  intros (C & q & Q & EC & Eq & EQ)%channel_known_inv (C' & q' & Q' & EC' & Eq' & EQ')%channel_known_inv.
  unfold pevents_update_mapper_change_flags, change_flags, settings, channel_get_profile, profile_get_directory, profile_get_type, get_channel, get_profile.
  rewrite EC, EC'. cbn. rewrite Eq, Eq'. cbn. rewrite EQ, EQ'. unfold deref. rewrite EC, EC'. cbn. rewrite Eq, Eq'. cbn. rewrite EQ, EQ'. cbn.
  f_equal. repeat case_decide; congruence || reflexivity.
Qed.
End kept.

(** What a new configuration does: the callbacks of the profiles and channels that go, of
    those that stay with another directory or type, and of those that are new, and the
    contexts afterwards. *)
Section reload_spec.
Context {filter W Rec : Type} (t : tree filter) (pcb ccb : pevent_cb_set W Rec) (g : Z).

Definition reload_spec (v : view) (qs : list loc) (news : list (loc * loc)) (w : W) : view * W :=
  let ps := (λ q, {| ptr := q; local := profile_local t v news q; global := g |}) <$> qs in
  let cs := (λ n, ({| ptr := n.1; local := channel_local t v n.1; global := g |}, n.2)) <$> news in
  let w := calls (on_delete pcb) (λ p, bool_decide (p ∈ kept_old_profiles t v news qs)) (v_profiles v) w in
  let w := calls (on_delete ccb) (λ c, bool_decide (c ∈ kept_old_channels t v news)) (v_channels v).*1 w in
  let w := update_calls (on_update pcb) (profile_flags t v news) ps w in
  let w := update_calls (on_update ccb) (channel_flags t v) cs.*1 w in
  let '(ps, w) := create_calls (on_create pcb) (λ q, bool_decide (is_Some (kept_profile t v news q))) (profile_items ps) w in
  let '(cs, w) := create_calls (on_create ccb) (λ c, bool_decide (is_Some (kept_channel t v c))) cs w in
  ({| v_profiles := ps.*1; v_channels := cs |}, w).
End reload_spec.

Section creates.
Context {W : Type}.

Lemma create_calls_map {B C} (F : B → C) f k (vs : list (pevents_ctx * B)) (w : W) :
  create_calls f k (prod_map id F <$> vs) w = prod_map (fmap (prod_map id F)) id (create_calls f k vs w).
Proof.
  destruct f as [f|]; [|done]. cbn [create_calls]. revert w. induction vs as [|[c b] vs IH]; intros w; [done|].
  cbn [fmap list_fmap creates prod_map fst snd id]. destruct (k (ptr c)).
  - rewrite IH. by destruct (creates f k vs w).
  - destruct (f c w) as [w1 x]. rewrite IH. by destruct (creates f k vs w1).
Qed.

Lemma create_calls_keys {B} f k (vs : list (pevents_ctx * B)) (w : W) :
  (λ v, (ptr v.1, v.2)) <$> (create_calls f k vs w).1 = (λ v, (ptr v.1, v.2)) <$> vs.
Proof.
  destruct f as [f|]; [|done]. cbn [create_calls]. revert w. induction vs as [|[c b] vs IH]; intros w; [done|].
  cbn [creates fst snd]. destruct (k (ptr c)).
  - specialize (IH w). destruct (creates f k vs w). cbn in *. by rewrite IH.
  - destruct (f c w) as [w1 x]. specialize (IH w1). destruct (creates f k vs w1). cbn in *. by rewrite IH.
Qed.

Lemma create_calls_ptrs {B} f k (vs : list (pevents_ctx * B)) (w : W) :
  (λ v, ptr v.1) <$> (create_calls f k vs w).1 = (λ v, ptr v.1) <$> vs ∧ (create_calls f k vs w).1.*2 = vs.*2.
Proof.
  pose proof (create_calls_keys f k vs w) as E. split.
  - apply (f_equal (fmap fst)) in E. rewrite <-!list_fmap_compose in E. exact E.
  - apply (f_equal (fmap snd)) in E. rewrite <-!list_fmap_compose in E. exact E.
Qed.

Lemma create_calls_profiles f k ps (w : W) :
  (create_calls f k (profile_items ps) w).1 = profile_items ((create_calls f k (profile_items ps) w).1.*1).
Proof.
  destruct (create_calls_ptrs f k (profile_items ps) w) as [_ E]. unfold profile_items in E at 2. rewrite <-list_fmap_compose in E.
  unfold profile_items at 2. rewrite <-list_fmap_compose. set (r := (create_calls _ _ _ _).1) in *. clearbody r.
  revert ps E. induction r as [|[c b] r IH]; intros [|p ps] E; try done. cbn in E |- *. injection E as -> E. f_equal. by apply (IH ps).
Qed.
End creates.

(** *** Groups while they are changed *)

Section group_state.
Context {W Rec : Type}.
Implicit Types (g : pevents_group W Rec) (h : items) (vs : list (pevents_ctx * option loc)) (k : loc → bool).

Record group_state h g (ls : list loc) (cb : pevent_cb_set W Rec) k vs : Prop := {
  gs_holds : group_holds h g vs;
  gs_ok : group_ok g;
  gs_ptr : all_ptr g = ls;
  gs_cbs : cbs g = cb;
  gs_marked : marked k g vs
}.

Lemma group_state_ext h g ls cb k k' vs : (∀ a, a ∈ key <$> vs → k a = k' a) → group_state h g ls cb k vs → group_state h g ls cb k' vs.
Proof.
  intros E [H1 H2 H3 H4 H5]. split; [done..|]. intros i v Hv. rewrite <-E; [by apply H5|]. apply list_elem_of_fmap_2. by eapply list_elem_of_lookup_2.
Qed.

Lemma group_state_agree h h' g ls cb k vs : (∀ l, l ∈ ls → h' !! l = h !! l) → group_state h g ls cb k vs → group_state h' g ls cb k vs.
Proof. intros E [H1 H2 H3 H4 H5]. split; [|done..]. apply (group_holds_agree h); [done|]. by rewrite H3. Qed.

Lemma group_state_clear h g vs : group_ok g → group_holds h g vs → group_state h (clear_bits g) (all_ptr g) (cbs g) (λ _, false) vs.
Proof.
  intros [Hb Hu Hr] Hg. destruct (bitset_clear_spec (bitset g) Hb) as (Hwf & Hw & Hbit). split; [by apply (group_holds_ptr h g)| |done|done|].
  - split; [done|done|]. cbn [clear_bits with_bitset bitset all_prealloc]. unfold bitset_get_size in *. by rewrite Hw.
  - intros i v Hv. apply Hbit.
Qed.

Lemma set_bit_of_spec h g ls cb k vs i v : group_state h g ls cb k vs → NoDup (key <$> vs) → vs !! i = Some v →
  ∃ g', set_bit_of g (Z.of_nat i) = Ok g' ∧ group_state h g' ls cb (λ a, bool_decide (a = key v) || k a) vs.
Proof.
  intros [Hg [Hb Hu Hr] Hp Hc Hm] Hn Hv.
  destruct (bitset_set_fast_spec (bitset g) (Z.of_nat i) true Hb) as (b & E & Hwf & Hw & Hbit).
  { apply lookup_lt_Some in Hv. rewrite (all_size_holds h g vs Hg) in Hu. lia. }
  exists (with_bitset b g). split; [unfold set_bit_of; by rewrite E|]. split; [by apply (group_holds_ptr h g)| |done|done|].
  - split; [done|done|]. cbn [with_bitset bitset all_prealloc]. unfold bitset_get_size in *. by rewrite Hw.
  - intros j u Hu'. cbn [with_bitset bitset]. rewrite Hbit, (Hm j u Hu') by lia. case_decide as Hij.
    + assert (j = i) as -> by lia. by rewrite bool_decide_true by congruence.
    + rewrite bool_decide_false; [done|]. intros E'. apply Hij. f_equal. rewrite NoDup_alt in Hn.
      apply (Hn j i (key v)); rewrite list_lookup_fmap; [rewrite Hu'; cbn; by rewrite E'|by rewrite Hv].
Qed.

Lemma upd_ctx_state h g ls cb k vs i l v x : group_state h g ls cb k vs → vs !! i = Some v → ls !! i = Some l →
  ∃ h', upd_ctx h l (with_local x) = Ok h' ∧ group_state h' g ls cb k (<[i := with_v (with_local x) v]> vs) ∧ ∀ a, a ∉ ls → h' !! a = h !! a.
Proof.
  intros [Hg Hok Hp Hc Hm] Hv Hl. destruct (upd_ctx_spec h g vs i v (with_local x) Hg Hv) as (l' & h' & Ei & E & Hg' & Hk).
  assert (l' = l) as ->.
  { destruct (item_at_index_spec h g vs i v Hg Hv) as (l2 & E2 & El2 & _). rewrite E2 in Ei. injection Ei as <-. rewrite Hp in El2. congruence. }
  exists h'. split; [done|]. split; [|by rewrite <-Hp]. split; [done..|]. intros j u Hu. destruct (decide (j = i)) as [->|Hne].
  - rewrite list_lookup_insert_eq in Hu by (by eapply lookup_lt_Some). injection Hu as <-. by apply (Hm i v).
  - rewrite list_lookup_insert_ne in Hu by done. by apply Hm.
Qed.

Lemma group_state_at h g ls cb k vs i v : group_state h g ls cb k vs → vs !! i = Some v →
  ∃ l, ls !! i = Some l ∧ item_at_index g (Z.of_nat i) = Ok l ∧ h !! l = Some (item_at v i).
Proof.
  intros [Hg _ Hp _ _] Hv. destruct (item_at_index_spec h g vs i v Hg Hv) as (l & E & El & Hl). rewrite Hp in El. by exists l.
Qed.

Lemma state_get_bit h g ls cb k vs i v : group_state h g ls cb k vs → vs !! i = Some v →
  bitset_get_fast (bitset g) (Z.of_nat i) = Ok (k (key v)).
Proof. intros [Hg Hok _ _ Hm] Hv. by apply (get_bit_spec h g vs k i v). Qed.

(** One element of a list has another image. *)
Lemma fmap_insert {A B} (F G : A → B) (l : list A) i x z : l !! i = Some x → z = G x →
  (∀ j y, l !! j = Some y → j ≠ i → F y = G y) → <[i := z]> (F <$> l) = G <$> l.
Proof.
  intros Hx -> HFG. apply list_eq. intros j. destruct (decide (j = i)) as [->|Hne].
  - rewrite list_lookup_insert_eq, list_lookup_fmap, Hx; [done|]. rewrite length_fmap. by eapply lookup_lt_Some.
  - rewrite list_lookup_insert_ne, !list_lookup_fmap by done. destruct (l !! j) as [y|] eqn:Ey; [|done]. cbn. f_equal. by apply (HFG j).
Qed.

Lemma set_flag_spec (flags : list Z) i x : (i < length flags)%nat → set_flag flags (Z.of_nat i) x = Ok (<[i := x]> flags).
Proof. intros Hi. unfold set_flag. rewrite decide_True by lia. by rewrite Nat2Z.id. Qed.
End group_state.

(** *** The mapper *)

Section mapping.
Context {filter W Rec : Type} (t : tree filter) (v : view) (g : Z) (qs : list loc) (news : list (loc * loc)).
Context (lqs lcs lop lco : list loc) (cqs ccs cop cco : pevent_cb_set W Rec).
Context (Hqs : ascending qs) (Hnews : ascending news.*1) (Hparents : Forall (λ n, n.2 ∈ qs) news).
Context (Hids : NoDup ((λ n, channel_id t n.1) <$> news)).
Context (Hknown_new : Forall (λ n, channel_known t n.1) news) (Hknown_old : Forall (λ o, channel_known t (ptr o.1)) (v_channels v)).
Context (Hvp : ascending (profile_keys v)) (Hvc : ascending (channel_keys v)) (Hvpar : Forall (λ o, o.2 ∈ profile_keys v) (v_channels v)).
Context (Hd1 : ∀ l, l ∈ lqs → l ∉ lcs) (Hd2 : ∀ l, l ∈ lop ∨ l ∈ lco → l ∉ lqs ∧ l ∉ lcs) (Hd3 : ∀ l, l ∈ lop → l ∉ lco).
Context (Hfewer : (length qs ≤ length news)%nat).
Implicit Types (done : list (loc * loc)) (h : items) (m : pevents_t W Rec) (u : pevents_update W Rec).

Definition mapped_channel done c : pevents_ctx :=
  {| ptr := c; local := if decide (c ∈ done.*1) then channel_local t v c else 0; global := g |}.
Definition mapped_profile done q : pevents_ctx := {| ptr := q; local := profile_local t v done q; global := g |}.

Record mapped done h m u : Prop := {
  mp_new_profiles : group_state h (uprofiles u) lqs cqs (λ q, bool_decide (is_Some (kept_profile t v done q)))
    (profile_items (mapped_profile done <$> qs));
  mp_new_channels : group_state h (uchannels u) lcs ccs (λ c, bool_decide (c ∈ done.*1 ∧ is_Some (kept_channel t v c)))
    (channel_items lqs qs ((λ n, (mapped_channel done n.1, n.2)) <$> news));
  mp_old_profiles : group_state h (mprofiles m) lop cop (λ a, bool_decide (a ∈ kept_old_profiles t v done qs)) (profile_items (v_profiles v));
  mp_old_channels : group_state h (mchannels m) lco cco (λ a, bool_decide (a ∈ kept_old_channels t v done))
    (channel_items lop (profile_keys v) (v_channels v));
  mp_cflags : chnl_flags u = (λ n, if decide (n.1 ∈ done.*1) then channel_flags t v n.1 else 0) <$> news;
  mp_pflags : prfl_flags u = profile_flags t v done <$> qs;
  mp_global : user_global m = g
}.

Lemma channel_known_at c : channel_known t c → ∃ C, cheap t !! c = Some C ∧ channel_id t c = Some (ch_pathName C, ch_name C).
Proof. intros (C & q & Q & EC & _)%channel_known_inv. exists C. unfold channel_id. by rewrite EC. Qed.

(** A mapped old channel has another name or path than the channel that is looked up. *)
Lemma kept_old_other done n rest a : news = done ++ n :: rest → a ∈ kept_old_channels t v done → channel_id t a ≠ channel_id t n.1.
Proof.
  intros E Ha Eq. unfold kept_old_channels in Ha. apply list_elem_of_omap in Ha as (n' & Hn' & Ha).
  apply fmap_Some in Ha as (o & Ho & ->). apply kept_channel_Some in Ho as (i & _ & Eid & _).
  rewrite E, fmap_app, NoDup_app in Hids. destruct Hids as (_ & H & _). apply (H (channel_id t n'.1)).
  - by apply (list_elem_of_fmap_2 (λ n, channel_id t n.1)).
  - rewrite <-Eid, Eq. left.
Qed.

Lemma find_step h m done n rest j o : news = done ++ n :: rest →
  group_state h (mchannels m) lco cco (λ a, bool_decide (a ∈ kept_old_channels t v done)) (channel_items lop (profile_keys v) (v_channels v)) →
  v_channels v !! j = Some o →
  ∀ C, cheap t !! n.1 = Some C →
  ∃ l, lco !! j = Some l ∧ h !! l = Some (item_at (o.1, item_of lop (profile_keys v) o.2) j) ∧
    find_old_channel_step t h (mchannels m) (ch_pathName C) (ch_name C) (Z.of_nat j) () =
    Ok (if decide (channel_id t (ptr o.1) = channel_id t n.1) then inr l else inl ()).
Proof.
  intros E Hst Hj C HC.
  assert (channel_items lop (profile_keys v) (v_channels v) !! j = Some (o.1, item_of lop (profile_keys v) o.2)) as Hv
    by (unfold channel_items; by rewrite list_lookup_fmap, Hj).
  destruct (group_state_at _ _ _ _ _ _ _ _ Hst Hv) as (l & El & Ei & Hl). exists l. split; [done|]. split; [done|].
  unfold find_old_channel_step. rewrite (state_get_bit _ _ _ _ _ _ _ _ Hst Hv), res_bind_ret. unfold key. cbn [fst].
  assert (channel_id t n.1 = Some (ch_pathName C, ch_name C)) as Ec by (unfold channel_id; by rewrite HC).
  case_bool_decide as Hm.
  { rewrite decide_False; [done|]. by apply (kept_old_other done n rest). }
  rewrite Ei, res_bind_ret. unfold ptr_of. rewrite (deref_Some _ _ _ Hl), !res_bind_ret. cbn [ctx item_at fst].
  destruct (channel_known_at (ptr o.1)) as (Co & HCo & Eo). { by apply (Forall_lookup_1 _ _ _ _ Hknown_old Hj). }
  unfold channel_get_name, channel_get_path, get_channel. rewrite (deref_Some _ _ _ HCo), !res_bind_ret, Eo, Ec.
  destruct (decide (ch_name Co ≠ ch_name C)) as [Hn|Hn].
  { rewrite decide_False; [done|]. by intros [= _ ?]. }
  destruct (decide (ch_pathName C ≠ ch_pathName Co)) as [Hp|Hp].
  { rewrite decide_False; [done|]. intros [= Ep _]. by apply Hp. }
  apply dec_stable in Hn. apply dec_stable in Hp. rewrite decide_True; [done|]. congruence.
Qed.

Lemma find_old_channel_spec h m done n rest : news = done ++ n :: rest →
  group_state h (mchannels m) lco cco (λ a, bool_decide (a ∈ kept_old_channels t v done)) (channel_items lop (profile_keys v) (v_channels v)) →
  match kept_channel t v n.1 with
  | None => pevents_update_mapper_find_old_channel t h m n.1 = Ok None
  | Some o => ∃ j l, v_channels v !! j = Some o ∧ lco !! j = Some l ∧
      h !! l = Some (item_at (o.1, item_of lop (profile_keys v) o.2) j) ∧
      pevents_update_mapper_find_old_channel t h m n.1 = Ok (Some l)
  end.
Proof.
  intros E Hst. assert (n ∈ news) as Hin by (rewrite E; apply elem_of_app; right; left).
  destruct (channel_known_at n.1 (Forall_elem Hknown_new Hin)) as (C & HC & _).
  assert (all_size (mchannels m) = Z.of_nat (length (v_channels v))) as Hsz.
  { rewrite (all_size_holds _ _ _ (gs_holds _ _ _ _ _ _ Hst)). by rewrite length_channel_items. }
  assert (∃ o, for_each (find_old_channel_step t h (mchannels m) (ch_pathName C) (ch_name C)) (seqZ 0 (all_size (mchannels m))) () = Ok o ∧
    match kept_channel t v n.1 with
    | None => o = inl ()
    | Some x => ∃ j l, v_channels v !! j = Some x ∧ lco !! j = Some l ∧
        h !! l = Some (item_at (x.1, item_of lop (profile_keys v) x.2) j) ∧ o = inr l
    end) as (o & Eo & Ho).
  { apply (for_each_total _ (λ l _, ∀ j x, (j < length l)%nat → v_channels v !! j = Some x → channel_id t (ptr x.1) ≠ channel_id t n.1)).
    - intros l1 z l2 [] Ez Hl1. assert (seqZ 0 (all_size (mchannels m)) !! length l1 = Some z) as Hz by (rewrite Ez; by apply list_lookup_middle).
      apply lookup_seqZ in Hz as [-> Hz]. rewrite Z.add_0_l. destruct (lookup_lt_is_Some_2 (v_channels v) (length l1)) as [x Hx]; [lia|].
      destruct (find_step h m done n rest _ x E Hst Hx C HC) as (l & Hl & Hit & ->). eexists. split; [done|]. case_decide as Hid.
      + assert (kept_channel t v n.1 = Some x) as ->; [|by exists (length l1), l].
        unfold kept_channel. rewrite (proj2 (list_find_Some _ _ (length l1) x)); [done|]. split_and!; [done..|]. intros j y Hy Hj. by apply (Hl1 j y).
      + intros j y Hj Hy. rewrite length_app in Hj. cbn in Hj. destruct (decide (j = length l1)) as [->|]; [congruence|]. apply (Hl1 j y); [lia|done].
    - intros [] Hall. destruct (kept_channel t v n.1) as [x|] eqn:Ex; [|done].
      apply kept_channel_Some in Ex as (j & Hj & Hid & _). rewrite length_seqZ, Hsz in Hall.
      exfalso. apply (Hall j x); [|done..]. apply lookup_lt_Some in Hj. lia.
    - cbn. lia. }
  assert (pevents_update_mapper_find_old_channel t h m n.1 = Ok (match o with inl _ => None | inr l => Some l end)) as ->.
  { unfold pevents_update_mapper_find_old_channel, channel_get_path, channel_get_name, get_channel.
    by rewrite (deref_Some _ _ _ HC), !res_bind_ret, Eo. }
  destruct (kept_channel t v n.1); [|by rewrite Ho]. destruct Ho as (j & l & ? & ? & ? & ->). by exists j, l.
Qed.

(** *** One more channel *)

Lemma news_NoDup : NoDup news.*1.
Proof. by apply ascending_NoDup. Qed.

Lemma new_channel_index done n rest : news = done ++ n :: rest → n.1 ∉ done.*1 ∧ news !! length done = Some n.
Proof.
  intros E. split; [|rewrite E; by apply list_lookup_middle]. pose proof news_NoDup as Hn. rewrite E, fmap_app, NoDup_app in Hn.
  destruct Hn as (_ & H & _). intros Hin. apply (H n.1 Hin). left.
Qed.

Lemma elem_of_snoc_keys done n c : c ∈ (done ++ [n]).*1 ↔ c ∈ done.*1 ∨ c = n.1.
Proof. rewrite fmap_app, elem_of_app. cbn. by rewrite list_elem_of_singleton. Qed.

(** Without an old channel nothing changes. *)
Lemma mapped_skip done n rest h m u : news = done ++ n :: rest → kept_channel t v n.1 = None → mapped done h m u → mapped (done ++ [n]) h m u.
Proof.
  intros E Hn [H1 H2 H3 H4 H5 H6 H7].
  assert (∀ q, kept_profile t v (done ++ [n]) q = kept_profile t v done q) as Hp.
  { intros q. rewrite kept_profile_snoc. unfold kept_by. rewrite Hn. destruct (kept_profile t v done q); [done|]. by case_decide. }
  split; [| | | | | |done].
  - assert (mapped_profile (done ++ [n]) <$> qs = mapped_profile done <$> qs) as ->.
    { apply list_fmap_ext. intros _ q _. unfold mapped_profile, profile_local. by rewrite Hp. }
    eapply group_state_ext; [|exact H1]. intros q _. cbv beta. by rewrite Hp.
  - assert ((λ x, (mapped_channel (done ++ [n]) x.1, x.2)) <$> news = (λ x, (mapped_channel done x.1, x.2)) <$> news) as ->.
    { apply list_fmap_ext. intros _ x _. f_equal. unfold mapped_channel. f_equal. destruct (decide (x.1 ∈ done.*1)) as [Hx|Hx].
      - rewrite decide_True; [done|]. apply elem_of_snoc_keys. by left.
      - case_decide as Hx'; [|done]. apply elem_of_snoc_keys in Hx' as [?|Ex]; [done|]. unfold channel_local. by rewrite Ex, Hn. }
    eapply group_state_ext; [|exact H2]. intros c _. cbv beta. apply bool_decide_ext. rewrite elem_of_snoc_keys. split; [intros [? ?]; auto|].
    intros [[?| ->] [x Hx]]; [split; [done|by exists x]|congruence].
  - eapply group_state_ext; [|exact H3]. intros a _. cbv beta. apply bool_decide_ext. unfold kept_old_profiles.
    rewrite !list_elem_of_omap. by setoid_rewrite Hp.
  - eapply group_state_ext; [|exact H4]. intros a _. cbv beta. apply bool_decide_ext. unfold kept_old_channels.
    rewrite omap_app. cbn. rewrite Hn. cbn. by rewrite app_nil_r.
  - rewrite H5. apply list_fmap_ext. intros _ x _. destruct (decide (x.1 ∈ done.*1)) as [Hx|Hx].
    + rewrite decide_True; [done|]. apply elem_of_snoc_keys. by left.
    + case_decide as Hx'; [|done]. apply elem_of_snoc_keys in Hx' as [?|Ex]; [done|]. unfold channel_flags. by rewrite Ex, Hn.
  - rewrite H6. apply list_fmap_ext. intros _ q _. unfold profile_flags. by rewrite Hp.
Qed.

(** With one, the channel gets its data and is marked, ... *)
Lemma mapped_channel_snoc done n rest o h gr : news = done ++ n :: rest → kept_channel t v n.1 = Some o →
  group_state h gr lcs ccs (λ a, bool_decide (a = n.1) || bool_decide (a ∈ done.*1 ∧ is_Some (kept_channel t v a)))
    (<[length done := (with_local (local o.1) (mapped_channel done n.1), item_of lqs qs n.2)]>
      (channel_items lqs qs ((λ x, (mapped_channel done x.1, x.2)) <$> news))) →
  group_state h gr lcs ccs (λ c, bool_decide (c ∈ (done ++ [n]).*1 ∧ is_Some (kept_channel t v c)))
    (channel_items lqs qs ((λ x, (mapped_channel (done ++ [n]) x.1, x.2)) <$> news)).
Proof.
  intros E Hk Hst. destruct (new_channel_index done n rest E) as [Hnew Hi].
  assert (<[length done := (with_local (local o.1) (mapped_channel done n.1), item_of lqs qs n.2)]>
      (channel_items lqs qs ((λ x, (mapped_channel done x.1, x.2)) <$> news)) =
    channel_items lqs qs ((λ x, (mapped_channel (done ++ [n]) x.1, x.2)) <$> news)) as <-.
  { unfold channel_items. rewrite <-!list_fmap_compose. apply (fmap_insert _ _ _ _ n); [done| |].
    - cbn. unfold mapped_channel, with_local. cbn. rewrite decide_True by (apply elem_of_snoc_keys; by right).
      unfold channel_local. by rewrite Hk.
    - intros j x Hx Hj. cbn. f_equal. unfold mapped_channel. f_equal. apply decide_ext. rewrite elem_of_snoc_keys.
      split; [by left|]. intros [?|Ex]; [done|]. exfalso. apply Hj. pose proof news_NoDup as Hn. rewrite NoDup_alt in Hn.
      apply (Hn j (length done) n.1); rewrite list_lookup_fmap; [rewrite Hx; cbn; by rewrite Ex|by rewrite Hi]. }
  eapply group_state_ext; [|exact Hst]. intros a _. cbv beta. rewrite <-bool_decide_or. apply bool_decide_ext. rewrite elem_of_snoc_keys.
  split; [intros [->|(?&?)]; [rewrite Hk; split; [by right|by eexists]|auto]|]. intros [[?|?] ?]; auto.
Qed.

Lemma mapped_cflags_snoc done n rest : news = done ++ n :: rest →
  <[length done := channel_flags t v n.1]> ((λ x, if decide (x.1 ∈ done.*1) then channel_flags t v x.1 else 0) <$> news) =
  (λ x, if decide (x.1 ∈ (done ++ [n]).*1) then channel_flags t v x.1 else 0) <$> news.
Proof.
  intros E. destruct (new_channel_index done n rest E) as [Hnew Hi]. apply (fmap_insert _ _ _ _ n); [done| |].
  - rewrite decide_True; [done|]. apply elem_of_snoc_keys. by right.
  - intros j x Hx Hj. apply decide_ext. rewrite elem_of_snoc_keys. split; [by left|]. intros [?|Ex]; [done|]. exfalso. apply Hj.
    pose proof news_NoDup as Hn. rewrite NoDup_alt in Hn.
    apply (Hn j (length done) n.1); rewrite list_lookup_fmap; [rewrite Hx; cbn; by rewrite Ex|by rewrite Hi].
Qed.

Lemma kept_old_channels_snoc done n o h gr : kept_channel t v n.1 = Some o →
  group_state h gr lco cco (λ a, bool_decide (a = ptr o.1) || bool_decide (a ∈ kept_old_channels t v done))
    (channel_items lop (profile_keys v) (v_channels v)) →
  group_state h gr lco cco (λ a, bool_decide (a ∈ kept_old_channels t v (done ++ [n]))) (channel_items lop (profile_keys v) (v_channels v)).
Proof.
  intros Hk Hst. eapply group_state_ext; [|exact Hst]. intros a _. cbv beta. rewrite <-bool_decide_or. apply bool_decide_ext.
  unfold kept_old_channels. rewrite omap_app, elem_of_app. cbn. rewrite Hk. cbn. rewrite list_elem_of_singleton. tauto.
Qed.

(** ... and so is its profile, unless an earlier channel did it. *)
Lemma kept_profile_same done n q : is_Some (kept_profile t v done n.2) → kept_profile t v (done ++ [n]) q = kept_profile t v done q.
Proof.
  intros [r Hr]. rewrite kept_profile_snoc. destruct (kept_profile t v done q) eqn:Eq; [done|]. unfold kept_by. rewrite decide_False; [done|].
  intros <-. congruence.
Qed.

Lemma kept_profile_new done n o q : kept_profile t v done n.2 = None → kept_channel t v n.1 = Some o →
  kept_profile t v (done ++ [n]) q = if decide (q = n.2) then Some (n.1, o) else kept_profile t v done q.
Proof.
  intros Hn Hk. rewrite kept_profile_snoc. unfold kept_by. rewrite Hk. case_decide as Hq.
  - subst q. by rewrite Hn, decide_True.
  - rewrite decide_False by done. by destruct (kept_profile t v done q).
Qed.

Lemma profile_items_insert done n o j : qs !! j = Some n.2 → kept_profile t v done n.2 = None → kept_channel t v n.1 = Some o →
  <[j := with_v (with_local (old_local v o.2)) (mapped_profile done n.2, None)]> (profile_items (mapped_profile done <$> qs)) =
    profile_items (mapped_profile (done ++ [n]) <$> qs) ∧
  <[j := change_flags t (ptr o.1) n.1]> (profile_flags t v done <$> qs) = profile_flags t v (done ++ [n]) <$> qs.
Proof.
  intros Hj Hn Hk. assert (∀ i q, qs !! i = Some q → i ≠ j → q ≠ n.2) as Hne.
  { intros i q Hi Hij ->. apply Hij. pose proof (ascending_NoDup _ Hqs) as Hnd. rewrite NoDup_alt in Hnd. by apply (Hnd i j n.2). }
  split.
  - unfold profile_items. rewrite <-!list_fmap_compose. apply (fmap_insert _ _ _ _ n.2); [done| |].
    + cbn. unfold with_v, mapped_profile, profile_local, with_local. cbn. by rewrite (kept_profile_new done n o _ Hn Hk), decide_True.
    + intros i q Hi Hij. cbn. f_equal. unfold mapped_profile, profile_local. f_equal.
      by rewrite (kept_profile_new done n o _ Hn Hk), decide_False by (by apply (Hne i)).
  - apply (fmap_insert _ _ _ _ n.2); [done| |].
    + unfold profile_flags. by rewrite (kept_profile_new done n o _ Hn Hk), decide_True.
    + intros i q Hi Hij. unfold profile_flags. by rewrite (kept_profile_new done n o _ Hn Hk), decide_False by (by apply (Hne i)).
Qed.

Lemma kept_old_profiles_new done n o a : n.2 ∈ qs → kept_profile t v done n.2 = None → kept_channel t v n.1 = Some o →
  a ∈ kept_old_profiles t v (done ++ [n]) qs ↔ a = o.2 ∨ a ∈ kept_old_profiles t v done qs.
Proof.
  intros Hq Hn Hk. unfold kept_old_profiles. rewrite !list_elem_of_omap. split.
  - intros (q & Hin & Hq'). rewrite (kept_profile_new done n o _ Hn Hk) in Hq'. case_decide; [left; cbn in Hq'; congruence|right; by exists q].
  - intros [->|(q & Hin & Hq')].
    + exists n.2. by rewrite (kept_profile_new done n o _ Hn Hk), decide_True.
    + exists q. split; [done|]. rewrite (kept_profile_new done n o _ Hn Hk), decide_False; [done|]. intros ->. by rewrite Hn in Hq'.
Qed.

(** The item of the profile of a channel. *)
Lemma profile_item h (gr : pevents_group W Rec) ls ps k cb q (f : loc → pevents_ctx) : (∀ q, ptr (f q) = q) → NoDup ps →
  group_state h gr ls cb k (profile_items (f <$> ps)) → q ∈ ps →
  ∃ j l, ps !! j = Some q ∧ ls !! j = Some l ∧ item_of ls ps q = Some l ∧
    h !! l = Some {| ctx := f q; parent_ptr := None; idx := Z.of_nat j |} ∧ profile_items (f <$> ps) !! j = Some (f q, None).
Proof.
  intros Hf Hn Hst Hq. apply list_elem_of_lookup_1 in Hq as [j Hj].
  assert (profile_items (f <$> ps) !! j = Some (f q, None)) as Hv by (unfold profile_items; by rewrite !list_lookup_fmap, Hj).
  destruct (group_state_at _ _ _ _ _ _ _ _ Hst Hv) as (l & El & _ & Hl). exists j, l. split_and!; try done.
  by apply (item_of_Some ls ps q j l).
Qed.

Lemma old_profile_item h m done q :
  group_state h (mprofiles m) lop cop (λ a, bool_decide (a ∈ kept_old_profiles t v done qs)) (profile_items (v_profiles v)) →
  q ∈ profile_keys v →
  ∃ j l pc, item_of lop (profile_keys v) q = Some l ∧ h !! l = Some {| ctx := pc; parent_ptr := None; idx := Z.of_nat j |} ∧
    ptr pc = q ∧ local pc = old_local v q ∧ profile_items (v_profiles v) !! j = Some (pc, None).
Proof.
  intros Hst Hq. unfold profile_keys in Hq. apply list_elem_of_fmap in Hq as (pc & -> & Hpc). apply list_elem_of_lookup_1 in Hpc as [j Hj].
  assert (profile_items (v_profiles v) !! j = Some (pc, None)) as Hv by (unfold profile_items; by rewrite list_lookup_fmap, Hj).
  destruct (group_state_at _ _ _ _ _ _ _ _ Hst Hv) as (l & El & _ & Hl). exists j, l, pc. split_and!; try done.
  - apply (item_of_Some _ _ _ j l); [by apply ascending_NoDup| |done]. unfold profile_keys. by rewrite list_lookup_fmap, Hj.
  - unfold old_local. by rewrite (list_find_ascending ptr (v_profiles v) j pc).
Qed.

(** The state between the two parts of a step. *)
Record half_mapped done n h m u : Prop := {
  hm_new_profiles : group_state h (uprofiles u) lqs cqs (λ q, bool_decide (is_Some (kept_profile t v done q)))
    (profile_items (mapped_profile done <$> qs));
  hm_new_channels : group_state h (uchannels u) lcs ccs (λ c, bool_decide (c ∈ (done ++ [n]).*1 ∧ is_Some (kept_channel t v c)))
    (channel_items lqs qs ((λ x, (mapped_channel (done ++ [n]) x.1, x.2)) <$> news));
  hm_old_profiles : group_state h (mprofiles m) lop cop (λ a, bool_decide (a ∈ kept_old_profiles t v done qs)) (profile_items (v_profiles v));
  hm_old_channels : group_state h (mchannels m) lco cco (λ a, bool_decide (a ∈ kept_old_channels t v (done ++ [n])))
    (channel_items lop (profile_keys v) (v_channels v));
  hm_cflags : chnl_flags u = (λ x, if decide (x.1 ∈ (done ++ [n]).*1) then channel_flags t v x.1 else 0) <$> news;
  hm_pflags : prfl_flags u = profile_flags t v done <$> qs;
  hm_global : user_global m = g
}.

Lemma half_mapped_done done n h m u : is_Some (kept_profile t v done n.2) → half_mapped done n h m u → mapped (done ++ [n]) h m u.
Proof.
  intros Hk [H1 H2 H3 H4 H5 H6 H7]. split; try done.
  - assert (mapped_profile (done ++ [n]) <$> qs = mapped_profile done <$> qs) as ->.
    { apply list_fmap_ext. intros _ p _. unfold mapped_profile, profile_local. by rewrite kept_profile_same. }
    eapply group_state_ext; [|exact H1]. intros p _. cbv beta. by rewrite kept_profile_same.
  - eapply group_state_ext; [|exact H3]. intros a _. cbv beta. apply bool_decide_ext. unfold kept_old_profiles. rewrite !list_elem_of_omap.
    by setoid_rewrite (λ q, kept_profile_same done n q Hk).
  - rewrite H6. apply list_fmap_ext. intros _ p _. unfold profile_flags. by rewrite kept_profile_same.
Qed.

Lemma map_profile_spec done n o io i_new i_old h m u : half_mapped done n h m u → n.2 ∈ qs → o.2 ∈ profile_keys v → kept_channel t v n.1 = Some o →
  ∃ s, map_profile h m u {| ctx := io; parent_ptr := item_of lop (profile_keys v) o.2; idx := i_old |}
      {| ctx := new_ctx n.1; parent_ptr := item_of lqs qs n.2; idx := i_new |} (change_flags t (ptr o.1) n.1) = Ok s ∧
    mapped (done ++ [n]) s.1.1 s.1.2 s.2.
Proof.
  intros Hm Hq Hoq Hk. pose proof Hm as [H1 H2 H3 H4 H5 H6 H7].
  destruct (profile_item h (uprofiles u) lqs qs _ _ n.2 (mapped_profile done) (λ _, eq_refl) (ascending_NoDup _ Hqs) H1 Hq)
    as (j & lq & Hj & Hlq & Eq & Hitq & Hvq).
  unfold map_profile. cbn [parent_ptr]. rewrite Eq. cbn [nonnull or_fault]. rewrite res_bind_ret, (deref_Some _ _ _ Hitq), res_bind_ret. cbn [idx].
  rewrite (state_get_bit _ _ _ _ _ _ _ _ H1 Hvq), res_bind_ret. unfold key. cbn [fst ptr mapped_profile].
  case_bool_decide as Hqk; [by exists (h, m, u); split; [|apply half_mapped_done]|].
  apply eq_None_not_Some in Hqk.
  destruct (old_profile_item h m done o.2 H3 Hoq) as (jo & lpo & pc & -> & Hitp & Hptr & Hloc & Hvpo).
  cbn [nonnull or_fault]. rewrite res_bind_ret, (deref_Some _ _ _ Hitp), res_bind_ret. cbn [idx ctx].
  assert (NoDup (key <$> profile_items (v_profiles v))) as Hn1 by (rewrite profile_items_keys; by apply ascending_NoDup).
  assert (NoDup (key <$> profile_items (mapped_profile done <$> qs))) as Hn2.
  { rewrite profile_items_keys, <-list_fmap_compose. apply ascending_NoDup in Hqs.
    assert (ptr ∘ mapped_profile done <$> qs = qs) as -> by apply list_fmap_id. done. }
  destruct (set_bit_of_spec _ _ _ _ _ _ jo (pc, None) H3 Hn1 Hvpo) as (mp & -> & Hmp).
  rewrite res_bind_ret. destruct (set_bit_of_spec _ _ _ _ _ _ j (mapped_profile done n.2, None) H1 Hn2 Hvq) as (up & -> & Hup).
  rewrite res_bind_ret. destruct (upd_ctx_state _ _ _ _ _ _ _ lq _ (local pc) Hup Hvq Hlq) as (h1 & -> & Hup1 & Hfr).
  rewrite res_bind_ret, set_flag_spec, res_bind_ret by (rewrite H6, length_fmap; by eapply lookup_lt_Some).
  destruct (profile_items_insert done n o j Hj Hqk Hk) as [E1 E2]. rewrite H6, E2. rewrite Hloc, E1 in Hup1.
  eexists. split; [done|]. cbn [fst snd].
  split; cbn [with_groups mprofiles mchannels uprofiles uchannels chnl_flags prfl_flags user_global]; try done.
  - eapply group_state_ext; [|exact Hup1]. intros a _. cbv beta. rewrite <-bool_decide_or. apply bool_decide_ext.
    rewrite (kept_profile_new done n o _ Hqk Hk). unfold key. cbn. case_decide as Ha; [split; [by eexists|by left]|]. split; [intros [?|?]; done|by right].
  - apply (group_state_agree h); [|done]. intros a Ha. apply Hfr. intros Hin. by apply (Hd1 a).
  - apply (group_state_agree h); [intros a Ha; apply Hfr; by apply Hd2; left|].
    eapply group_state_ext; [|exact Hmp]. intros a _. cbv beta. rewrite <-bool_decide_or. apply bool_decide_ext.
    rewrite (kept_old_profiles_new done n o a Hq Hqk Hk). unfold key. cbn. by rewrite Hptr.
  - apply (group_state_agree h); [|done]. intros a Ha. apply Hfr. by apply Hd2; right.
Qed.

Lemma mapper_step_spec done n rest h m u : news = done ++ n :: rest → mapped done h m u →
  ∃ s, mapper_step t (h, m, u) (Z.of_nat (length done)) = Ok s ∧ mapped (done ++ [n]) s.1.1 s.1.2 s.2.
Proof.
  intros E Hm. pose proof Hm as [H1 H2 H3 H4 H5 H6 H7]. destruct (new_channel_index done n rest E) as [Hnew Hi].
  set (nc := (mapped_channel done n.1, item_of lqs qs n.2)).
  assert (channel_items lqs qs ((λ x, (mapped_channel done x.1, x.2)) <$> news) !! length done = Some nc) as Hv
    by (unfold channel_items; by rewrite !list_lookup_fmap, Hi).
  destruct (group_state_at _ _ _ _ _ _ _ _ H2 Hv) as (l & El & Ei & Hl).
  assert (n ∈ news) as Hin by (by eapply list_elem_of_lookup_2). pose proof (Forall_elem Hparents Hin) as Hq. cbn in Hq.
  unfold mapper_step. rewrite Ei, res_bind_ret, (deref_Some _ _ _ Hl), res_bind_ret. cbv zeta.
  change (ptr (ctx (item_at nc (length done)))) with n.1.
  pose proof (find_old_channel_spec h m done n rest E H4) as Hfind.
  destruct (kept_channel t v n.1) as [o|] eqn:Hk.
  2: { rewrite Hfind, res_bind_ret. eexists. split; [done|]. by apply (mapped_skip done n rest). }
  destruct Hfind as (i & lo & Hio & Hlo & Hito & ->). rewrite res_bind_ret, (deref_Some _ _ _ Hito), res_bind_ret.
  cbn [ctx item_at fst idx].
  rewrite change_flags_spec, res_bind_ret; [|by apply (Forall_lookup_1 _ _ _ _ Hknown_old Hio)|by apply (Forall_elem Hknown_new)].
  set (vo := (o.1, item_of lop (profile_keys v) o.2)).
  assert (channel_items lop (profile_keys v) (v_channels v) !! i = Some vo) as Hvo by (unfold channel_items; by rewrite list_lookup_fmap, Hio).
  assert (NoDup (key <$> channel_items lop (profile_keys v) (v_channels v))) as Hn1 by (rewrite channel_items_keys; by apply ascending_NoDup).
  assert (NoDup (key <$> channel_items lqs qs ((λ x, (mapped_channel done x.1, x.2)) <$> news))) as Hn2
    by (rewrite channel_items_keys, <-list_fmap_compose; apply news_NoDup).
  destruct (set_bit_of_spec _ _ _ _ _ _ i vo H4 Hn1 Hvo) as (mc & -> & Hmc). rewrite res_bind_ret.
  destruct (set_bit_of_spec _ _ _ _ _ _ (length done) nc H2 Hn2 Hv) as (uc & -> & Huc). rewrite res_bind_ret.
  destruct (upd_ctx_state _ _ _ _ _ _ _ l _ (local o.1) Huc Hv El) as (h1 & -> & Huc1 & Hfr).
  rewrite res_bind_ret. apply (mapped_channel_snoc done n rest o _ _ E Hk) in Huc1. apply (kept_old_channels_snoc done n o _ _ Hk) in Hmc.
  rewrite set_flag_spec, res_bind_ret by (rewrite H5, length_fmap; by eapply lookup_lt_Some).
  assert (∀ a, a ∈ lqs ∨ a ∈ lop ∨ a ∈ lco → h1 !! a = h !! a) as Hframe.
  { intros a [Ha|Ha]; apply Hfr; [by apply Hd1|by apply Hd2]. }
  apply (map_profile_spec done n o o.1 (Z.of_nat (length done)) (Z.of_nat i)); [|done| |done].
  2: { exact (Forall_lookup_1 _ _ _ _ Hvpar Hio). }
  split; cbn [with_groups mprofiles mchannels uprofiles uchannels chnl_flags prfl_flags user_global]; try done.
  - apply (group_state_agree h); [|done]. intros a Ha. apply Hframe. auto.
  - apply (group_state_agree h); [|done]. intros a Ha. apply Hframe. auto.
  - apply (group_state_agree h); [|done]. intros a Ha. apply Hframe. auto.
  - rewrite H5, <-(mapped_cflags_snoc done n rest E). unfold channel_flags at 2. by rewrite Hk.
Qed.

Lemma mapper_loop_spec h m u : mapped [] h m u →
  ∃ s, for_indexes (uchannels u) (mapper_step t) (h, m, u) = Ok s ∧ mapped news s.1.1 s.1.2 s.2.
Proof.
  intros Hm. assert (length (all_ptr (uchannels u)) = length news) as Hlen.
  { rewrite (gh_length _ _ _ (gs_holds _ _ _ _ _ _ (mp_new_channels _ _ _ _ Hm))), length_channel_items. by rewrite length_fmap. }
  destruct (for_indexes_ind (uchannels u) (mapper_step t) (λ i s, mapped (take i news) s.1.1 s.1.2 s.2) (h, m, u)) as (s & Es & Hs).
  - by rewrite take_0.
  - intros i [[h1 m1] u1] Hi Hs. cbn [fst snd] in Hs. destruct (lookup_lt_is_Some_2 news i) as [n Hn]; [lia|].
    pose proof (mapper_step_spec (take i news) n (drop (S i) news) h1 m1 u1) as Hstep.
    rewrite length_take, Nat.min_l in Hstep by lia. rewrite (take_last _ _ _ Hn). apply Hstep; [|done].
    rewrite <-(take_drop i news) at 1. by rewrite (drop_S _ _ _ Hn).
  - exists s. split; [done|]. by rewrite Hlen, firstn_all in Hs.
Qed.

Lemma mapped_start h m u :
  group_state h (uprofiles u) lqs cqs (λ _, false) (profile_items ((λ q, with_global g (new_ctx q)) <$> qs)) →
  group_state h (uchannels u) lcs ccs (λ _, false) (channel_items lqs qs ((λ n, (with_global g (new_ctx n.1), n.2)) <$> news)) →
  group_state h (mprofiles m) lop cop (λ _, false) (profile_items (v_profiles v)) →
  group_state h (mchannels m) lco cco (λ _, false) (channel_items lop (profile_keys v) (v_channels v)) →
  chnl_flags u = replicate (length news) 0 → prfl_flags u = replicate (length qs) 0 → user_global m = g →
  mapped [] h m u.
Proof.
  intros H1 H2 H3 H4 H5 H6 H7.
  assert (∀ q, kept_profile t v [] q = None) as Hk by done.
  split; [done| | | | | |done].
  - assert ((λ n, (mapped_channel [] n.1, n.2)) <$> news = (λ n, (with_global g (new_ctx n.1), n.2)) <$> news) as ->.
    { apply list_fmap_ext. intros _ n _. f_equal. }
    eapply group_state_ext; [|exact H2]. intros c _. symmetry. apply bool_decide_false. by intros [?%not_elem_of_nil _].
  - eapply group_state_ext; [|exact H3]. intros a _. symmetry. apply bool_decide_false. unfold kept_old_profiles.
    intros (q & _ & Hq)%list_elem_of_omap. done.
  - eapply group_state_ext; [|exact H4]. intros a _. symmetry. apply bool_decide_false. by intros ?%not_elem_of_nil.
  - rewrite H5. apply list_eq. intros i. rewrite list_lookup_fmap. destruct (news !! i) as [n|] eqn:En.
    + rewrite lookup_replicate_2 by (by eapply lookup_lt_Some). done.
    + apply lookup_ge_None_1 in En. by rewrite lookup_ge_None_2 by (by rewrite length_replicate).
  - rewrite H6. apply list_eq. intros i. rewrite list_lookup_fmap. destruct (qs !! i) as [n|] eqn:En.
    + rewrite lookup_replicate_2 by (by eapply lookup_lt_Some). done.
    + apply lookup_ge_None_1 in En. by rewrite lookup_ge_None_2 by (by rewrite length_replicate).
Qed.

(** *** The application of the update *)

Lemma group_state_cbs h (gr : pevents_group W Rec) ls cb cb' k vs : group_state h gr ls cb k vs → group_state h (with_cbs cb' gr) ls cb' k vs.
Proof. intros [Hg [Hb Hu Hr] Hp _ Hm]. split; [by apply (group_holds_ptr h gr)|by split|done|done|done]. Qed.

Lemma profile_items_fst ps : (profile_items ps).*1 = ps.
Proof. unfold profile_items. rewrite <-list_fmap_compose. apply list_fmap_id. Qed.

Lemma channel_items_fst ls ps cs : (channel_items ls ps cs).*1 = cs.*1.
Proof. unfold channel_items. by rewrite <-list_fmap_compose. Qed.

Lemma mapped_channels_all : (λ n, (mapped_channel news n.1, n.2)) <$> news =
  (λ n, ({| ptr := n.1; local := channel_local t v n.1; global := g |}, n.2)) <$> news.
Proof.
  apply list_fmap_ext. intros i n Hn. f_equal. unfold mapped_channel. rewrite decide_True; [done|].
  apply list_elem_of_fmap_2. by eapply list_elem_of_lookup_2.
Qed.

(** The state while the callbacks run. *)
Lemma mapped_calls h m u w : mapped news h m u →
  let kq := λ q, bool_decide (is_Some (kept_profile t v news q)) in
  let kc := λ c, bool_decide (is_Some (kept_channel t v c)) in
  let ps := (λ q, {| ptr := q; local := profile_local t v news q; global := g |}) <$> qs in
  let cs := (λ n, ({| ptr := n.1; local := channel_local t v n.1; global := g |}, n.2)) <$> news in
  group_state h (with_cbs (cbs (mprofiles m)) (uprofiles u)) lqs cop kq (profile_items ps) ∧
  group_state h (with_cbs (cbs (mchannels m)) (uchannels u)) lcs cco kc (channel_items lqs qs cs) ∧
  group_on_delete h (mprofiles m) w = Ok (calls (on_delete cop) (λ p, bool_decide (p ∈ kept_old_profiles t v news qs)) (v_profiles v) w) ∧
  group_on_delete h (mchannels m) w = Ok (calls (on_delete cco) (λ c, bool_decide (c ∈ kept_old_channels t v news)) (v_channels v).*1 w) ∧
  group_on_update h (with_cbs (cbs (mprofiles m)) (uprofiles u)) (prfl_flags u) w = Ok (update_calls (on_update cop) (profile_flags t v news) ps w) ∧
  group_on_update h (with_cbs (cbs (mchannels m)) (uchannels u)) (chnl_flags u) w = Ok (update_calls (on_update cco) (channel_flags t v) cs.*1 w).
Proof.
  intros [H1 H2 H3 H4 H5 H6 H7] kq kc ps cs. rewrite mapped_channels_all in H2. fold cs in H2. change (mapped_profile news <$> qs) with ps in H1.
  assert (group_state h (uchannels u) lcs ccs kc (channel_items lqs qs cs)) as H2'.
  { eapply group_state_ext; [|exact H2]. intros a Ha. cbv beta. apply bool_decide_ext. rewrite channel_items_keys in Ha.
    unfold cs in Ha. rewrite <-list_fmap_compose in Ha. split; [by intros [_ ?]|by split]. }
  assert (cbs (mprofiles m) = cop) as -> by apply H3. assert (cbs (mchannels m) = cco) as -> by apply H4.
  pose proof (group_state_cbs h _ _ _ cop _ _ H1) as H1c. pose proof (group_state_cbs h _ _ _ cco _ _ H2') as H2c.
  split; [done|]. split; [done|].
  assert (cbs (mprofiles m) = cop) as Ep by apply H3. assert (cbs (mchannels m) = cco) as Ec by apply H4. split_and!.
  - rewrite (group_on_delete_spec h _ _ _ w (gs_ok _ _ _ _ _ _ H3) (gs_holds _ _ _ _ _ _ H3) (gs_marked _ _ _ _ _ _ H3)).
    by rewrite profile_items_fst, Ep.
  - rewrite (group_on_delete_spec h _ _ _ w (gs_ok _ _ _ _ _ _ H4) (gs_holds _ _ _ _ _ _ H4) (gs_marked _ _ _ _ _ _ H4)).
    by rewrite channel_items_fst, Ec.
  - rewrite (group_on_update_spec h _ _ (profile_flags t v news) _ w (gs_holds _ _ _ _ _ _ H1c)).
    + by rewrite profile_items_fst.
    + intros i x Hx. unfold profile_items, ps in Hx. rewrite !list_lookup_fmap in Hx. rewrite H6, list_lookup_fmap.
      destruct (qs !! i) as [q|]; [|done]. cbn in Hx. by injection Hx as <-.
  - rewrite (group_on_update_spec h _ _ (channel_flags t v) _ w (gs_holds _ _ _ _ _ _ H2c)).
    + by rewrite channel_items_fst.
    + intros i x Hx. unfold channel_items, cs in Hx. rewrite !list_lookup_fmap in Hx. rewrite H5, list_lookup_fmap.
      destruct (news !! i) as [n|] eqn:En; [|done]. cbn in Hx. injection Hx as <-. cbn. f_equal. rewrite decide_True; [done|].
      apply list_elem_of_fmap_2. by eapply list_elem_of_lookup_2.
Qed.

Lemma create_both h (up uc : pevents_group W Rec) ps cs kq kc w :
  group_state h up lqs cop kq (profile_items ps) → group_state h uc lcs cco kc (channel_items lqs qs cs) →
  let '(rp, w1) := create_calls (on_create cop) kq (profile_items ps) w in
  let '(rc, w2) := create_calls (on_create cco) kc cs w1 in
  ∃ h1 h2, group_on_create up (h, w) = Ok (h1, w1) ∧ group_on_create uc (h1, w1) = Ok (h2, w2) ∧
    group_holds h2 up rp ∧ group_holds h2 uc (channel_items lqs qs rc) ∧ ∀ l, l ∉ lqs → l ∉ lcs → h2 !! l = h !! l.
Proof.
  intros Hps Hcs.
  destruct (group_on_create_spec h up _ kq w (gs_ok _ _ _ _ _ _ Hps) (gs_holds _ _ _ _ _ _ Hps) (gs_marked _ _ _ _ _ _ Hps)) as (h1 & E1 & Hp1 & Hf1).
  rewrite (gs_cbs _ _ _ _ _ _ Hps) in *. rewrite (gs_ptr _ _ _ _ _ _ Hps) in Hf1.
  destruct (create_calls (on_create cop) kq (profile_items ps) w) as [rp w1]. cbn [fst snd] in *.
  apply (group_state_agree h h1) in Hcs; [|intros l Hl; apply Hf1; intros Hin; by apply (Hd1 l)].
  destruct (group_on_create_spec h1 uc _ kc w1 (gs_ok _ _ _ _ _ _ Hcs) (gs_holds _ _ _ _ _ _ Hcs) (gs_marked _ _ _ _ _ _ Hcs)) as (h2 & E2 & Hc2 & Hf2).
  rewrite (gs_cbs _ _ _ _ _ _ Hcs) in *. rewrite (gs_ptr _ _ _ _ _ _ Hcs) in Hf2.
  change (channel_items lqs qs cs) with (prod_map id (item_of lqs qs) <$> cs) in E2, Hc2. rewrite create_calls_map in E2, Hc2.
  destruct (create_calls (on_create cco) kc cs w1) as [rc w2]. cbn [fst snd prod_map id] in *.
  exists h1, h2. split_and!; [done|done| |done|].
  - apply (group_holds_agree h1); [done|]. rewrite (gs_ptr _ _ _ _ _ _ Hps). intros l Hl. apply Hf2. by apply Hd1.
  - intros l H1 H2. by rewrite Hf2, Hf1.
Qed.

(** The old groups go, and what is at the new items stays. *)
Lemma deinit_both h h2 m u done : mapped done h m u → (∀ l, l ∉ lqs → l ∉ lcs → h2 !! l = h !! l) →
  ∃ h3 h4, group_deinit h2 (mprofiles m) = Ok h3 ∧ group_deinit h3 (mchannels m) = Ok h4 ∧
    ∀ l, l ∈ lqs ∨ l ∈ lcs → h4 !! l = h2 !! l.
Proof.
  intros [_ _ H3 H4 _ _ _] Hf2.
  destruct (group_deinit_spec h2 (mprofiles m) (profile_items (v_profiles v))) as (h3 & E3 & Hf3).
  { eapply group_holds_agree; [exact (gs_holds _ _ _ _ _ _ H3)|]. rewrite (gs_ptr _ _ _ _ _ _ H3). intros l Hl.
    destruct (Hd2 l (or_introl Hl)). by rewrite Hf2. }
  rewrite (gs_ptr _ _ _ _ _ _ H3) in Hf3.
  destruct (group_deinit_spec h3 (mchannels m) (channel_items lop (profile_keys v) (v_channels v))) as (h4 & E4 & Hf4).
  { eapply group_holds_agree; [exact (gs_holds _ _ _ _ _ _ H4)|]. rewrite (gs_ptr _ _ _ _ _ _ H4). intros l Hl.
    destruct (Hd2 l (or_intror Hl)). rewrite Hf3, decide_False, Hf2; [done..|]. intros Hin. by apply (Hd3 l). }
  rewrite (gs_ptr _ _ _ _ _ _ H4) in Hf4. exists h3, h4. split; [done|]. split; [done|]. intros l Hl.
  rewrite Hf4, decide_False, Hf3, decide_False; [done| |]; intros Hin; [destruct (Hd2 l (or_introl Hin))|destruct (Hd2 l (or_intror Hin))]; tauto.
Qed.

(** The new groups are a manager. *)
Lemma new_manager_holds h m (up uc : pevents_group W Rec) (ps : list pevents_ctx) (cs : list (pevents_ctx * loc)) :
  group_ok up → group_ok uc → all_ptr up = lqs → all_ptr uc = lcs →
  group_holds h up (profile_items ps) → group_holds h uc (channel_items lqs qs cs) →
  ptr <$> ps = qs → (λ c, ptr c.1) <$> cs = news.*1 → cs.*2 = news.*2 →
  mgr_holds h (with_groups (clear_bits uc) (clear_bits up) m) {| v_profiles := ps; v_channels := cs |}.
Proof.
  intros Hop Hoc Ep Ec Hp Hc Eqs Ecs Ecp.
  destruct (group_state_clear h up _ Hop Hp) as [Hp1 Hp2 _ _ _]. destruct (group_state_clear h uc _ Hoc Hc) as [Hc1 Hc2 _ _ _].
  split; cbn [with_groups mprofiles mchannels v_profiles v_channels]; unfold profile_keys, channel_keys; cbn [v_profiles v_channels];
    change (all_ptr (clear_bits up)) with (all_ptr up); change (all_ptr (clear_bits uc)) with (all_ptr uc); rewrite ?Eqs, ?Ecs, ?Ep, ?Ec; try done.
  - apply Forall_forall. intros c Hin. apply (list_elem_of_fmap_2 snd) in Hin. rewrite Ecp in Hin.
    apply list_elem_of_fmap in Hin as (n & -> & Hn). by apply (Forall_elem Hparents).
  - rewrite <-(length_fmap ptr ps), Eqs, <-(length_fmap snd cs), Ecp, length_fmap. done.
Qed.

Lemma update_apply_spec h m u w : mapped news h m u →
  ∃ h' m' v', pevents_update_apply h m u w = Ok (h', m', (reload_spec t cop cco g v qs news w).2) ∧
    v' = (reload_spec t cop cco g v qs news w).1 ∧ mgr_holds h' m' v' ∧
    user_global m' = g ∧ cbs (mprofiles m') = cop ∧ cbs (mchannels m') = cco ∧ profile_keys v' = qs ∧ channel_keys v' = news.*1 ∧
    marks_are m' ∅.
Proof.
  intros Hm. unfold pevents_update_apply, reload_spec.
  destruct (mapped_calls h m u w Hm) as (Hps & Hcs & E1 & _). rewrite E1, res_bind_ret. clear E1. set (w1 := calls _ _ (v_profiles v) w).
  destruct (mapped_calls h m u w1 Hm) as (_ & _ & _ & E2 & _). rewrite E2, res_bind_ret. clear E2. set (w2 := calls _ _ (v_channels v).*1 w1).
  destruct (mapped_calls h m u w2 Hm) as (_ & _ & _ & _ & E3 & _). rewrite E3, res_bind_ret. clear E3. set (w3 := update_calls _ _ _ w2).
  destruct (mapped_calls h m u w3 Hm) as (_ & _ & _ & _ & _ & E4). rewrite E4, res_bind_ret. clear E4. set (w4 := update_calls _ _ _ w3).
  set (ps := (λ q, _) <$> qs) in *. set (cs := (λ n, ({| ptr := n.1; local := channel_local t v n.1; global := g |}, n.2)) <$> news) in *.
  set (kq := λ q, bool_decide (is_Some (kept_profile t v news q))) in *. set (kc := λ c, bool_decide (is_Some (kept_channel t v c))) in *.
  set (up := with_cbs _ (uprofiles u)) in *. set (uc := with_cbs _ (uchannels u)) in *. clearbody w1 w2 w3 w4.
  pose proof (create_both h up uc ps cs kq kc w4 Hps Hcs) as Hcr.
  pose proof (create_calls_profiles (on_create cop) kq ps w4) as Epr. destruct (create_calls_ptrs (on_create cop) kq (profile_items ps) w4) as [Ekp _].
  destruct (create_calls (on_create cop) kq (profile_items ps) w4) as [rp w5]. cbn [fst snd] in *.
  destruct (create_calls_ptrs (on_create cco) kc cs w5) as [Ekc Ekq].
  destruct (create_calls (on_create cco) kc cs w5) as [rc w6]. cbn [fst snd] in *.
  destruct Hcr as (h1 & h2 & -> & E2 & Hp2 & Hc2 & Hf2). rewrite res_bind_ret, E2, res_bind_ret.
  destruct (deinit_both h h2 m u news Hm Hf2) as (h3 & h4 & -> & E4 & Hf4). rewrite res_bind_ret, E4, res_bind_ret.
  assert (ptr <$> rp.*1 = qs) as Eqs.
  { rewrite <-list_fmap_compose. etrans; [exact Ekp|]. unfold profile_items, ps. rewrite <-!list_fmap_compose. apply list_fmap_id. }
  assert ((λ c, ptr c.1) <$> rc = news.*1) as Ecs by (etrans; [exact Ekc|]; unfold cs; by rewrite <-list_fmap_compose).
  assert (rc.*2 = news.*2) as Ecp by (rewrite Ekq; unfold cs; by rewrite <-list_fmap_compose).
  eexists _, _, _. split; [done|]. split; [done|].
  split; [|split_and!; [apply Hm|exact (gs_cbs _ _ _ _ _ _ Hps)|exact (gs_cbs _ _ _ _ _ _ Hcs)|done|done|] ].
  2: { intros j. apply (bitset_clear_spec (bitset uc)). apply Hcs. }
  apply new_manager_holds; try done; [apply Hps|apply Hcs|apply Hps|apply Hcs| |].
  - rewrite <-Epr. apply (group_holds_agree h2); [done|]. rewrite (gs_ptr _ _ _ _ _ _ Hps). auto.
  - apply (group_holds_agree h2); [done|]. rewrite (gs_ptr _ _ _ _ _ _ Hcs). auto.
Qed.
End mapping.

(** ** Theory: reload and process *)

Section reload.
Context {filter W Rec : Type} (t : tree filter).
Implicit Types (mgr : pevents_t W Rec) (h : items) (v : view) (rec : Rec) (w : W).

(** A tree that a manager can be given: it is all there, every profile has channels, and
    no two channels have the same path and name. *)
Record tree_ready (x : ptree) : Prop := {
  tr_own : own t None x;
  tr_plocs : NoDup (plocs x);
  tr_clocs : NoDup (clocs x);
  tr_parsable : Forall (parsable t) (plocs x);
  tr_channels : Forall (λ q, channels_of t q ≠ []) (plocs x);
  tr_ids : NoDup (channel_id t <$> clocs x)
}.

Definition tree_profiles (x : ptree) : list loc := by_address (list_to_set (plocs x)).
Definition tree_channels (x : ptree) : list (loc * loc) := (λ c, (c, profile_of t c)) <$> by_address (list_to_set (clocs x)).

Lemma elem_of_clocs_profile x : ∀ parent c, own t parent x → c ∈ clocs x → ∃ q, q ∈ plocs x ∧ c ∈ channels_of t q.
Proof.
  intros parent c Ho Hc. rewrite (own_channels t x parent Ho) in Hc.
  apply list_elem_of_join in Hc as (l & Hc & (q & -> & Hq)%list_elem_of_fmap). by exists q.
Qed.

Lemma own_known x c : own t None x → c ∈ clocs x → channel_known t c ∧ ∃ q, q ∈ plocs x ∧ channel_at t q c.
Proof.
  intros Ho Hc. destruct (elem_of_clocs_profile x None c Ho Hc) as (q & Hq & Hcq).
  pose proof (own_channel t x None q c Ho Hq Hcq) as Hat. split; [|by exists q]. destruct Hat as (C & EC & EP).
  destruct (own_allocated x t None Ho) as [Ha _]. destruct (Ha q Hq) as [Q EQ].
  unfold channel_known, settings. rewrite EC. cbn. rewrite EP. cbn. rewrite EQ. by eexists.
Qed.

(** The sorted channels are those of the tree. *)
Lemma news_channels x news : tree_ready x → news ≡ₚ pairs_of t (tree_profiles x) → ascending news.*1 → news = tree_channels x.
Proof.
  intros [Ho Hp Hc _ _ _] Hperm Ha.
  assert (news.*1 = by_address (list_to_set (clocs x))) as E1.
  { apply ascending_unique; [done|apply by_address_ascending|]. rewrite Hperm. unfold tree_profiles. rewrite (pairs_perm t x Ho Hp).
    by rewrite by_address_perm, elements_list_to_set. }
  unfold tree_channels. rewrite <-E1, <-list_fmap_compose. apply list_eq. intros i. rewrite list_lookup_fmap.
  destruct (news !! i) as [[c q]|] eqn:Hn; [|done]. cbn. do 2 f_equal.
  assert ((c, q) ∈ pairs_of t (tree_profiles x)) as [Hq Hcq]%elem_of_pairs by (rewrite <-Hperm; by eapply list_elem_of_lookup_2).
  unfold tree_profiles in Hq. rewrite elem_of_by_address, elem_of_list_to_set in Hq.
  destruct (own_channel t x None q c Ho Hq Hcq) as (C & EC & EP). unfold profile_of. by rewrite EC, EP.
Qed.

Lemma pairs_fewer qs : Forall (λ q, channels_of t q ≠ []) qs → (length qs ≤ length (pairs_of t qs))%nat.
Proof.
  induction 1 as [|q qs Hq _ IH]; [done|]. unfold pairs_of in *. cbn [fmap list_fmap]. rewrite mjoin_cons, length_app, length_fmap.
  destruct (channels_of t q); [done|]. cbn [length]. lia.
Qed.

Lemma tree_root_of_spec fuel x c : own t None x → c ∈ clocs x → (length (plocs x) < fuel)%nat → tree_root_of fuel t c = Ok (Some (proot x)).
Proof.
  intros Ho Hc Hf. destruct (own_known x c Ho Hc) as (_ & q & Hq & (C & EC & EP)).
  unfold tree_root_of, channel_get_profile, get_channel. rewrite (deref_Some _ _ _ EC), !res_bind_ret, EP.
  by rewrite (find_root_spec t x q fuel Ho Hq Hf).
Qed.

(** Reloading gives the manager of the new tree, after the calls that the change asks for. *)
Definition reloaded mgr v x w : view * W :=
  reload_spec t (cbs (mprofiles mgr)) (cbs (mchannels mgr)) (user_global mgr) v (tree_profiles x) (tree_channels x) w.

Record same_manager mgr mgr' : Prop := {
  sm_global : user_global mgr' = user_global mgr;
  sm_profiles : cbs (mprofiles mgr') = cbs (mprofiles mgr);
  sm_channels : cbs (mchannels mgr') = cbs (mchannels mgr)
}.

Lemma pevents_reload_spec fuel h mgr v x c w : mgr_holds h mgr v → tree_ready x →
  Forall (λ o, channel_known t (ptr o.1)) (v_channels v) → c ∈ clocs x → (length (plocs x) < fuel)%nat →
  ∃ h' mgr', pevents_reload fuel t h mgr w c = Ok (h', mgr', (reloaded mgr v x w).2, 0) ∧
    mgr_holds h' mgr' (reloaded mgr v x w).1 ∧ same_manager mgr mgr' ∧ marks_are mgr' ∅ ∧
    profile_keys (reloaded mgr v x w).1 = tree_profiles x ∧ channel_keys (reloaded mgr v x w).1 = (tree_channels x).*1.
Proof.
  intros Hh Hx Hold Hc Hf. pose proof Hx as [Ho Hp Hcl Hpar Hch Hids]. unfold pevents_reload.
  rewrite (tree_root_of_spec fuel x c Ho Hc Hf), res_bind_ret.
  destruct (update_create_spec t fuel h x (proot x) mgr Ho (proot_in x) Hp Hcl Hpar Hf) as (h1 & upd & news & -> & Hperm & Ha & Hb).
  rewrite res_bind_ret. fold (tree_profiles x) in Hperm, Hb. pose proof (news_channels x news Hx Hperm Ha) as ->.
  destruct Hb as [Bp Bc Bpo Bco Bold Bnp Bnc Bd Bcf Bpf]. pose proof Hh as [Mp Mc Mpo Mco Md Mps Mcs Mpar Mf].
  apply (group_holds_mono _ _ _ _ Bold) in Mp as Mp1. apply (group_holds_mono _ _ _ _ Bold) in Mc as Mc1.
  assert ((tree_channels x).*1 ≡ₚ clocs x) as Hkeys.
  { unfold tree_channels. rewrite <-list_fmap_compose. rewrite list_fmap_id. by rewrite by_address_perm, elements_list_to_set. }
  unfold pevents_update_mapper. rewrite decide_False.
  2: { rewrite (all_size_holds _ _ _ Bc), length_channel_items, length_fmap. intros E. assert (length (clocs x) = 0%nat) as E'
       by (rewrite <-Hkeys, length_fmap; lia). apply length_zero_iff_nil in E'. rewrite E' in Hc. by apply not_elem_of_nil in Hc. }
  assert (ascending (tree_profiles x)) as Hqs by apply by_address_ascending.
  assert (Forall (λ n, n.2 ∈ tree_profiles x) (tree_channels x)) as Hparents by (rewrite Hperm; apply pairs_parents).
  assert (NoDup ((λ n, channel_id t n.1) <$> tree_channels x)) as Hids'.
  { change (NoDup (channel_id t ∘ fst <$> tree_channels x)). rewrite list_fmap_compose. by rewrite Hkeys. }
  assert (Forall (λ n, channel_known t n.1) (tree_channels x)) as Hnew.
  { apply Forall_forall. intros n Hn. apply (own_known x); [done|]. rewrite <-Hkeys. by apply list_elem_of_fmap_2. }
  assert (∀ l, l ∈ all_ptr (mprofiles mgr) ∨ l ∈ all_ptr (mchannels mgr) → l ∉ all_ptr (uprofiles upd) ∧ l ∉ all_ptr (uchannels upd)) as Hd2.
  { intros l Hl. assert (is_Some (h !! l)) as [y Hy] by (destruct Hl as [Hl|Hl]; [exact (group_holds_allocated h _ _ l Mp Hl)|exact (group_holds_allocated h _ _ l Mc Hl)]).
    split; intros Hin; [apply Bnp in Hin|apply Bnc in Hin]; congruence. }
  assert (length (tree_profiles x) ≤ length (tree_channels x))%nat as Hfewer.
  { rewrite Hperm. apply pairs_fewer. apply Forall_forall. intros q Hq. unfold tree_profiles in Hq.
    rewrite elem_of_by_address, elem_of_list_to_set in Hq. by apply (Forall_elem Hch). }
  cbv zeta. set (mgr1 := with_groups _ _ mgr). set (upd1 := {| uchannels := _ |}).
  assert (mapped t v (user_global mgr) (tree_profiles x) (tree_channels x) (all_ptr (uprofiles upd)) (all_ptr (uchannels upd))
    (all_ptr (mprofiles mgr)) (all_ptr (mchannels mgr)) (cbs (uprofiles upd)) (cbs (uchannels upd)) (cbs (mprofiles mgr)) (cbs (mchannels mgr))
    [] h1 mgr1 upd1) as Hstart.
  { apply mapped_start; try done; by apply group_state_clear. }
  destruct (mapper_loop_spec t v _ _ _ _ _ _ _ _ _ _ _ Hqs Ha Hparents Hids' Hnew Hold Mps Mcs Mpar Bd Hd2 Hfewer h1 mgr1 upd1 Hstart)
    as ([[h2 mgr2] upd2] & Es & Hs).
  rewrite Es, res_bind_ret. cbv beta iota. cbn [fst snd] in Hs.
  destruct (update_apply_spec t v _ _ _ _ _ _ _ _ _ _ _ Hqs Ha Hparents Bd Hd2 Md Hfewer h2 mgr2 upd2 w Hs)
    as (h3 & mgr3 & v3 & Ea & Ev & Hm3 & Hg & Hcp & Hcc & Hkp & Hkc & Hbits).
  rewrite Ea, res_bind_ret. subst v3. exists h3, mgr3. by split_and!.
Qed.
(** A new manager, and what the other calls do. *)
Lemma pevents_create_spec (profiles channels : pevent_cb_set W Rec) h :
  ∃ mgr, pevents_create profiles channels = Some mgr ∧ mgr_holds h mgr {| v_profiles := []; v_channels := [] |} ∧
    cbs (mprofiles mgr) = profiles ∧ cbs (mchannels mgr) = channels ∧ user_global mgr = 0.
Proof.
  destruct (group_init_spec (W := W) (Rec := Rec) 1) as (g & E & Hok & Hp & Hh); [lia|]. unfold pevents_create. rewrite E.
  eexists. split; [done|]. split; [|done]. pose proof Hok as [Hb Hu Hr].
  split; cbn [mprofiles mchannels v_profiles v_channels length]; [|..|constructor|constructor|constructor|done].
  - by apply (group_holds_ptr h g).
  - by apply (group_holds_ptr h g).
  - by split.
  - by split.
  - intros l. change (all_ptr (with_cbs profiles g)) with (all_ptr g). rewrite Hp. by intros ?%not_elem_of_nil.
Qed.

Lemma mgr_holds_clear h mgr v : mgr_holds h mgr v →
  let mgr' := with_groups (clear_bits (mchannels mgr)) (clear_bits (mprofiles mgr)) mgr in
  mgr_holds h mgr' v ∧ marks_are mgr' ∅ ∧ same_manager mgr mgr'.
Proof.
  intros [Mp Mc Mpo Mco Md Mps Mcs Mpar Mf] mgr'.
  destruct (group_state_clear h (mprofiles mgr) _ Mpo Mp) as [Hp1 Hp2 _ _ _]. destruct (group_state_clear h (mchannels mgr) _ Mco Mc) as [Hc1 Hc2 _ _ _].
  split; [by split|]. split; [|done]. intros j. apply (bitset_clear_spec (bitset (mchannels mgr))), Mco.
Qed.

Lemma handle_same_manager mgr mgr' rec : same_manager mgr mgr' → handle mgr' rec = handle mgr rec.
Proof. intros [_ Hp Hc]. unfold handle, on_data_of. by rewrite Hp, Hc. Qed.

(** The first channel of a record is unknown: the new tree is loaded, and the record goes to
    the manager of that tree. *)
Lemma process_step_reload fuel h mgr v x c w rec : mgr_holds h mgr v → tree_ready x →
  Forall (λ o, channel_known t (ptr o.1)) (v_channels v) → c ∈ clocs x → (length (plocs x) < fuel)%nat → c ∉ channel_keys v →
  let '(v', w') := reloaded mgr v x w in
  ∃ h' mgr', process_step fuel t rec c (h, mgr, w) = Ok (inl (h', mgr', foldl (handle mgr rec) w' (deliver v' c ∅).2)) ∧
    mgr_holds h' mgr' v' ∧ marks_are mgr' (deliver v' c ∅).1 ∧ same_manager mgr mgr' ∧
    profile_keys v' = tree_profiles x ∧ channel_keys v' = (tree_channels x).*1.
Proof.
  intros Hh Hx Hold Hc Hf Hnew. destruct (pevents_reload_spec fuel h mgr v x c w Hh Hx Hold Hc Hf) as (h' & mgr' & E & Hh' & Hs & Hm & Hkp & Hkc).
  destruct (reloaded mgr v x w) as [v' w']. cbn [fst snd] in *.
  assert (c ∈ channel_keys v') as Hc'.
  { rewrite Hkc. unfold tree_channels. rewrite <-list_fmap_compose, list_fmap_id. by rewrite elem_of_by_address, elem_of_list_to_set. }
  destruct (pevents_data_spec h' mgr' v' ∅ w' c rec Hh' Hm Hc') as (mgr2 & E2 & Hh2 & Hm2 & Hs2).
  exists h', mgr2. split; [|split_and!; [done|done| |done|done] ].
  - assert (pevents_data h mgr w c rec = Ok (mgr, w, 1)) as E1.
    { unfold pevents_data. rewrite (find_no_channel h mgr v c Hh); [done|]. apply list_find_None. apply Forall_forall. intros o Ho Eo.
      apply Hnew. rewrite <-Eo. by apply (list_elem_of_fmap_2 (λ c, ptr c.1)). }
    unfold process_step. rewrite E1, res_bind_ret. cbv beta iota. rewrite decide_False, E, res_bind_ret by done. cbv beta iota. rewrite decide_False, E2, res_bind_ret by (by intros H; apply H).
    cbv beta iota. by rewrite decide_True, (handle_same_manager mgr mgr').
  - destruct Hs as [S1 S2 S3]. destruct Hs2 as [T1 (b & T2) T3]. split; [congruence| |]; [by rewrite T1|by rewrite T2].
Qed.
End reload.

(** *** The other calls *)

Section calls.
Context {W Rec : Type}.
Implicit Types (mgr : pevents_t W Rec) (h : items) (v : view) (w : W).

Lemma calls_all (f : option (pevents_ctx → W → W)) l w :
  calls f (λ _, false) l w = match f with Some f => foldl (λ w c, f c w) w l | None => w end.
Proof. destruct f as [f|]; [|done]. unfold calls. f_equal. induction l as [|c l IH]; [done|]. rewrite filter_cons_True by done. by rewrite IH. Qed.

(** Every profile and channel is deleted once, and no item is left. *)
Lemma pevents_destroy_spec h mgr v w : mgr_holds h mgr v →
  ∃ h', pevents_destroy h mgr w =
      Ok (h', calls (on_delete (cbs (mchannels mgr))) (λ _, false) (v_channels v).*1
                (calls (on_delete (cbs (mprofiles mgr))) (λ _, false) (v_profiles v) w)) ∧
    ∀ l, h' !! l = if decide (l ∈ all_ptr (mprofiles mgr) ++ all_ptr (mchannels mgr)) then None else h !! l.
Proof.
  intros [Mp Mc Mpo Mco Md _ _ _ _]. unfold pevents_destroy.
  destruct (group_state_clear h (mprofiles mgr) _ Mpo Mp) as [Hp1 Hp2 Hp3 Hp4 Hp5].
  destruct (group_state_clear h (mchannels mgr) _ Mco Mc) as [Hc1 Hc2 Hc3 Hc4 Hc5].
  rewrite (group_on_delete_spec h _ _ _ w Hp2 Hp1 Hp5), res_bind_ret, profile_items_fst, Hp4.
  rewrite (group_on_delete_spec h _ _ _ _ Hc2 Hc1 Hc5), res_bind_ret, channel_items_fst, Hc4.
  destruct (group_deinit_spec h _ _ Hp1) as (h1 & -> & Hf1). rewrite res_bind_ret.
  destruct (group_deinit_spec h1 (clear_bits (mchannels mgr)) (channel_items (all_ptr (mprofiles mgr)) (profile_keys v) (v_channels v))) as (h2 & -> & Hf2).
  { apply (group_holds_agree h); [done|]. intros l Hl. rewrite Hf1, decide_False; [done|]. intros Hin. by apply (Md l). }
  exists h2. split; [done|]. intros l. rewrite Hf2, Hf1, Hp3, Hc3. repeat case_decide; try done; rewrite ?elem_of_app in *; tauto.
Qed.

Lemma pevents_global_set_spec h mgr v g : mgr_holds h mgr v →
  ∃ h' mgr', pevents_global_set h mgr g = Ok (h', mgr') ∧ pevents_global_get mgr' = g ∧
    mgr_holds h' mgr' {| v_profiles := with_global g <$> v_profiles v; v_channels := (λ c, (with_global g c.1, c.2)) <$> v_channels v |}.
Proof.
  intros [Mp Mc Mpo Mco Md Mps Mcs Mpar Mf]. unfold pevents_global_set. cbn [mchannels mprofiles].
  destruct (set_global_spec h (mchannels mgr) _ g Mc) as (h1 & -> & Hc1 & Hf1). rewrite res_bind_ret.
  destruct (set_global_spec h1 (mprofiles mgr) (profile_items (v_profiles v)) g) as (h2 & -> & Hp2 & Hf2).
  { apply (group_holds_agree h); [done|]. intros l Hl. apply Hf1. by apply Md. }
  rewrite res_bind_ret. eexists _, _. split; [done|]. split; [done|].
  assert (∀ v, profile_keys {| v_profiles := with_global g <$> v_profiles v; v_channels := (λ c, (with_global g c.1, c.2)) <$> v_channels v |} = profile_keys v) as Ek.
  { intros v'. unfold profile_keys. cbn. by rewrite <-list_fmap_compose. }
  split; cbn [mchannels mprofiles v_profiles v_channels]; rewrite ?Ek; try done.
  - unfold profile_items in *. rewrite <-!list_fmap_compose in *. exact Hp2.
  - apply (group_holds_agree h1).
    + unfold channel_items in *. rewrite <-!list_fmap_compose in *. exact Hc1.
    + intros l Hl. apply Hf2. intros Hin. by apply (Md l).
  - unfold channel_keys in *. cbn. by rewrite <-list_fmap_compose.
  - apply Forall_fmap. exact Mpar.
  - by rewrite !length_fmap.
Qed.

Lemma pevents_for_each_spec h mgr v w (prfl_fn chnl_fn : option (pevents_ctx → W → W)) : mgr_holds h mgr v →
  pevents_for_each h mgr w prfl_fn chnl_fn = Ok (calls chnl_fn (λ _, false) (v_channels v).*1 (calls prfl_fn (λ _, false) (v_profiles v) w)).
Proof.
  intros [Mp Mc _ _ _ _ _ _ _]. unfold pevents_for_each. rewrite !calls_all.
  destruct prfl_fn as [fn|]; [rewrite (group_on_general_spec h _ _ fn w Mp), profile_items_fst|]; rewrite res_bind_ret;
    (destruct chnl_fn as [fn'|]; [|done]); by rewrite (group_on_general_spec h _ _ fn' _ Mc), channel_items_fst.
Qed.
End calls.

(** ** Properties *)

(** C4: a record whose channels the manager knows is handed out at most once to every
    channel and to every profile: the calls of the data callbacks are exactly
    [deliveries], in which no channel and no profile occurs twice and every one is of the
    manager; nothing else in the manager changes. *)
Theorem pevents_process_once {filter W Rec} fuel (t : tree filter) h (mgr : pevents_t W Rec) v w cs rec : mgr_holds h mgr v →
  Forall (λ c, c ∈ channel_keys v) cs →
  ∃ mgr', pevents_process fuel t h mgr w cs rec = Ok (h, mgr', foldl (handle mgr rec) w (deliveries v cs ∅), 0) ∧
    mgr_holds h mgr' v ∧ same_manager mgr mgr' ∧
    NoDup (deliveries v cs ∅) ∧ ∀ e, e ∈ deliveries v cs ∅ → ∃ i, event_at v e i.
Proof.
  intros Hh Hcs. destruct (mgr_holds_clear h mgr v Hh) as (Hh0 & Hm0 & Hs0). unfold pevents_process.
  destruct (process_known fuel t h v rec cs Hcs _ ∅ w Hh0 Hm0) as (mgr' & E & Hh' & [T1 (b & T2) T3]).
  rewrite E, res_bind_ret. exists mgr'. rewrite (handle_same_manager mgr) by done.
  destruct (deliveries_spec v cs (mh_profiles_sorted _ _ _ Hh) (mh_channels_sorted _ _ _ Hh) ∅) as [Hnd Hat].
  split; [done|]. split; [done|]. split; [split; [by rewrite T3|by rewrite T1|by rewrite T2]|]. split; [done|].
  intros e He. destruct (Hat e He) as (i & Hi & _). by exists i.
Qed.

(** C3: a record with channels of a new tree, the first of them unknown, makes the manager
    that of the new tree: the callbacks for what is deleted, changed and new are called, in
    this order and once each as [reload_spec] says, a channel or profile that stays keeps
    its data, and then the record is handed out in the new configuration. *)
Theorem pevents_process_reconfigures {filter W Rec} fuel (t : tree filter) h (mgr : pevents_t W Rec) v x w c cs rec :
  mgr_holds h mgr v → tree_ready t x → Forall (λ o, channel_known t (ptr o.1)) (v_channels v) → (length (plocs x) < fuel)%nat →
  c ∉ channel_keys v → Forall (λ c, c ∈ clocs x) (c :: cs) →
  let '(v', w') := reload_spec t (cbs (mprofiles mgr)) (cbs (mchannels mgr)) (user_global mgr) v (tree_profiles x) (tree_channels t x) w in
  ∃ h' mgr', pevents_process fuel t h mgr w (c :: cs) rec = Ok (h', mgr', foldl (handle mgr rec) w' (deliveries v' (c :: cs) ∅), 0) ∧
    mgr_holds h' mgr' v' ∧ same_manager mgr mgr' ∧ profile_keys v' = tree_profiles x ∧ channel_keys v' = (tree_channels t x).*1.
Proof.
  intros Hh Hx Hold Hf Hnew [Hc Hcs]%Forall_cons. destruct (mgr_holds_clear h mgr v Hh) as (Hh0 & Hm0 & Hs0).
  unfold pevents_process. set (mgr0 := with_groups _ _ mgr) in *. cbn [for_each].
  pose proof (process_step_reload t fuel h mgr0 v x c w rec Hh0 Hx Hold Hc Hf Hnew) as H. unfold reloaded in H.
  change (cbs (mprofiles mgr0)) with (cbs (mprofiles mgr)) in H. change (cbs (mchannels mgr0)) with (cbs (mchannels mgr)) in H.
  change (user_global mgr0) with (user_global mgr) in H.
  destruct (reload_spec _ _ _ _ _ _ _ _) as [v' w']. destruct H as (h1 & mgr1 & E & Hh1 & Hm1 & Hs1 & Hkp & Hkc).
  rewrite E, !res_bind_ret. cbn [deliveries]. destruct (deliver v' c ∅) as [marks es]. cbn [fst snd] in *.
  assert (Forall (λ c, c ∈ channel_keys v') cs) as Hcs'.
  { refine (Forall_impl _ _ _ Hcs _). intros a Ha. rewrite Hkc. unfold tree_channels. rewrite <-list_fmap_compose, list_fmap_id.
    by rewrite elem_of_by_address, elem_of_list_to_set. }
  destruct (process_known fuel t h1 v' rec cs Hcs' mgr1 marks (foldl (handle mgr0 rec) w' es) Hh1 Hm1) as (mgr2 & -> & Hh2 & [T1 (b & T2) T3]).
  rewrite res_bind_ret. exists h1, mgr2. rewrite foldl_app, (handle_same_manager mgr0 mgr1) by done.
  split; [done|]. split; [done|]. split; [|done]. destruct Hs1 as [S1 S2 S3]. split; [by rewrite T3, S1|by rewrite T1, S2|by rewrite T2; cbn; rewrite S3].
Qed.

Lemma deliver_listed v d marks c : inr c ∈ (deliver v d marks).2 → ptr c = d.
Proof.
  unfold deliver. destruct (list_find _ (v_channels v)) as [[i [cx q]]|] eqn:Ef; [|by intros ?%not_elem_of_nil].
  apply list_find_Some in Ef as (_ & Hd & _). cbn [fst] in Hd.
  repeat (case_decide || case_match); cbn [snd]; rewrite ?list_elem_of_cons; set_solver.
Qed.

(** The marks after the channels [cs]. *)
Definition marks_after v (cs : list loc) (marks : gset nat) : gset nat := foldl (λ m c, (deliver v c m).1) marks cs.

Lemma deliveries_app v l1 l2 : ∀ marks, deliveries v (l1 ++ l2) marks = deliveries v l1 marks ++ deliveries v l2 (marks_after v l1 marks).
Proof.
  induction l1 as [|c l1 IH]; intros marks; [done|]. cbn [app deliveries marks_after foldl].
  destruct (deliver v c marks) as [marks' es]. cbn [fst]. by rewrite IH, app_assoc.
Qed.

Lemma deliveries_listed v cs c : ∀ marks, inr c ∈ deliveries v cs marks → ptr c ∈ cs.
Proof.
  induction cs as [|d cs IH]; intros marks; cbn [deliveries]; [by intros ?%not_elem_of_nil|].
  pose proof (deliver_listed v d marks c) as Hd. destruct (deliver v d marks) as [marks' es]. cbn [snd] in Hd.
  rewrite elem_of_app. intros [Hin|Hin]; [rewrite (Hd Hin); by left|right; by eapply IH].
Qed.

(** What a channel that is handed out leaves: the marks of its index and of its profile's. *)
Lemma deliver_marks v marks i j cx pc : ascending (profile_keys v) → ascending (channel_keys v) →
  v_channels v !! i = Some (cx, ptr pc) → v_profiles v !! j = Some pc → i ∉ marks → j ∈ (deliver v (ptr cx) marks).1.
Proof.
  intros Hp Hc Hi Hj Hm. unfold deliver.
  pose proof (list_find_ascending (λ c, ptr c.1) (v_channels v) i _ Hc Hi) as E1.
  pose proof (list_find_ascending ptr (v_profiles v) j _ Hp Hj) as E2. cbn [fst] in E1. rewrite E1, decide_False by done.
  rewrite E2. case_decide; [done|]. cbn [fst]. set_solver.
Qed.

(** C5: profiles are marked in the bit set of the channels, so a record can be lost for a
    channel. Take any list of channels the manager knows, in which a channel is handed the
    record, and a second channel whose index is that of the profile of the first one. When
    the second one is not in the list before the first one, its data callback is not
    called, wherever in the rest of the list it is. *)
Theorem pevents_process_loses_record {filter W Rec} fuel (t : tree filter) h (mgr : pevents_t W Rec) v w rec i j cx cy pc q l1 l2 :
  mgr_holds h mgr v → Forall (λ c, c ∈ channel_keys v) (l1 ++ ptr cx :: l2) →
  v_channels v !! i = Some (cx, ptr pc) → v_profiles v !! j = Some pc → v_channels v !! j = Some (cy, q) → i ≠ j →
  ptr cx ∉ l1 → ptr cy ∉ l1 → inr cx ∈ deliveries v (l1 ++ ptr cx :: l2) ∅ →
  ∃ mgr' ds, pevents_process fuel t h mgr w (l1 ++ ptr cx :: l2) rec = Ok (h, mgr', foldl (handle mgr rec) w ds, 0) ∧
    inr cx ∈ ds ∧ inr cy ∉ ds.
Proof.
  intros Hh Hcs Hi Hp Hj Hij Hx1 Hy1 Hx. destruct (mgr_holds_clear h mgr v Hh) as (Hh0 & Hm0 & Hs0).
  destruct (process_known fuel t h v rec _ Hcs _ ∅ w Hh0 Hm0) as (mgr' & E & _).
  exists mgr', (deliveries v (l1 ++ ptr cx :: l2) ∅). unfold pevents_process. rewrite E, res_bind_ret, (handle_same_manager mgr) by done.
  split; [done|]. split; [done|]. pose proof Hh as [_ _ _ _ _ Hps Hks _ _].
  rewrite deliveries_app in Hx |- *. set (marks := marks_after v l1 ∅) in *.
  assert (i ∉ marks) as Him.
  { rewrite elem_of_app in Hx. destruct Hx as [Hx%deliveries_listed|Hx]; [done|].
    destruct (deliveries_spec v (ptr cx :: l2) Hps Hks marks) as [_ Hat]. destruct (Hat _ Hx) as (i' & Hi' & Hm).
    by rewrite (event_at_inj v (inr cx) i i' Hps Hks ltac:(by exists (ptr pc)) Hi'). }
  assert (∀ c, c = cy → inr c ∉ deliveries v l1 ∅) as H1 by (intros c ->; by intros ?%deliveries_listed).
  rewrite elem_of_app. intros [Hy|Hy]; [by apply (H1 cy)|]. cbn [deliveries] in Hy.
  pose proof (deliver_marks v marks i j cx pc Hps Hks Hi Hp Him) as Hmark. pose proof (deliver_listed v (ptr cx) marks cy) as Hl.
  destruct (deliver v (ptr cx) marks) as [marks' es]. cbn [fst snd] in *. rewrite elem_of_app in Hy. destruct Hy as [Hy|Hy].
  - apply Hij. pose proof (Hl Hy) as Eptr. by apply (ascending_index (λ c, ptr c.1) (v_channels v) i j _ _ Hks Hi Hj).
  - destruct (deliveries_spec v l2 Hps Hks marks') as [_ Hat]. destruct (Hat _ Hy) as (j' & Hj' & Hm).
    by rewrite (event_at_inj v (inr cy) j j' Hps Hks ltac:(by exists q) Hj') in Hmark.
Qed.

(** ** Witnesses

    A plugin that logs its calls, and the tree of the example of Profiles.v. *)

Definition log_cbs (kind : Z) : pevent_cb_set (list (Z * loc)) Z := {|
  on_create := Some (λ c w, (w ++ [(kind, ptr c)], Z.pos (ptr c) * 10));
  on_delete := Some (λ c w, w ++ [(kind + 1, ptr c)]);
  on_update := Some (λ c _ w, w ++ [(kind + 2, ptr c)]);
  on_data := Some (λ c _ w, w ++ [(kind + 3, ptr c)])
|}.

Definition group_example (kind : Z) : pevents_group (list (Z * loc)) Z :=
  {| bitset := bitset_create 1; cbs := log_cbs kind; all_ptr := []; all_prealloc := 1 |}.
Definition mgr_example : pevents_t (list (Z * loc)) Z :=
  {| mchannels := group_example 10; mprofiles := group_example 0; user_global := 0 |}.
Definition view_empty : view := {| v_profiles := []; v_channels := [] |}.
Definition x_example : ptree := PNode 1 [1%positive; 2%positive] [PNode 2 [3%positive] [] ].

Lemma mgr_example_holds h : mgr_holds h mgr_example view_empty.
Proof. destruct (pevents_create_spec (log_cbs 0) (log_cbs 10) h) as (mgr & E & H & _). injection E as <-. exact H. Qed.

Lemma tree_example_ready : tree_ready tree_example x_example.
Proof.
  split.
  - unfold own, node_at, channel_at. cbn [fmap list_fmap foldr proot x_example]. split_and!; vm_compute;
      try (eexists; split_and!; reflexivity); try exact I; repeat (constructor || (eexists; split; reflexivity)).
  - apply (bool_decide_unpack _). by vm_compute.
  - apply (bool_decide_unpack _). by vm_compute.
  - repeat constructor; eexists; (split; [vm_compute; reflexivity|by vm_compute]).
  - repeat constructor; by vm_compute.
  - apply (bool_decide_unpack _). by vm_compute.
Qed.

(** The first record creates the profiles and channels of the tree. *)
Lemma pevents_process_reconfigures_witness : ∃ h' mgr' v',
  pevents_process 10 tree_example ∅ mgr_example [] [3%positive; 1%positive] 7 =
    Ok (h', mgr', [(0, 1%positive); (0, 2%positive); (10, 1%positive); (10, 2%positive); (10, 3%positive);
                   (13, 3%positive); (3, 2%positive); (13, 1%positive)], 0) ∧ mgr_holds h' mgr' v'.
Proof.
  pose proof (pevents_process_reconfigures 10 tree_example ∅ mgr_example view_empty x_example [] 3%positive [1%positive] 7 (mgr_example_holds ∅)
    tree_example_ready) as H.
  assert (reload_spec tree_example (cbs (mprofiles mgr_example)) (cbs (mchannels mgr_example)) (user_global mgr_example) view_empty
    (tree_profiles x_example) (tree_channels tree_example x_example) [] =
    ({| v_profiles := [ {| ptr := 1; local := 10; global := 0 |}; {| ptr := 2; local := 20; global := 0 |} ];
        v_channels := [ ({| ptr := 1; local := 10; global := 0 |}, 1%positive); ({| ptr := 2; local := 20; global := 0 |}, 1%positive);
                        ({| ptr := 3; local := 30; global := 0 |}, 2%positive) ] |},
     [(0, 1%positive); (0, 2%positive); (10, 1%positive); (10, 2%positive); (10, 3%positive)])) as E by (vm_compute; reflexivity).
  rewrite E in H. destruct H as (h' & mgr' & Ep & Hh & _).
  - constructor.
  - apply (bool_decide_unpack _). by vm_compute.
  - by intros ?%not_elem_of_nil.
  - repeat constructor; apply (bool_decide_unpack _); by vm_compute.
  - exists h', mgr'. eexists. split; [exact Ep|exact Hh].
Defined.

(** The manager of that tree. *)
Definition view_example : view :=
  {| v_profiles := [ {| ptr := 1; local := 10; global := 0 |}; {| ptr := 2; local := 20; global := 0 |} ];
     v_channels := [ ({| ptr := 1; local := 10; global := 0 |}, 1%positive); ({| ptr := 2; local := 20; global := 0 |}, 1%positive);
                     ({| ptr := 3; local := 30; global := 0 |}, 2%positive) ] |}.

Lemma manager_of_example : ∃ h (mgr : pevents_t (list (Z * loc)) Z), mgr_holds h mgr view_example ∧ same_manager mgr_example mgr.
Proof.
  destruct (pevents_reload_spec tree_example 10 ∅ mgr_example view_empty x_example 1%positive [] (mgr_example_holds ∅) tree_example_ready)
    as (h & mgr & _ & Hh & Hs & _).
  - constructor.
  - apply (bool_decide_unpack _). by vm_compute.
  - apply (bool_decide_unpack _). by vm_compute.
  - exists h, mgr. split; [|done].
    assert ((reloaded tree_example mgr_example view_empty x_example []).1 = view_example) as E by (vm_compute; reflexivity). by rewrite E in Hh.
Qed.

(** The second channel is in the list twice and its data callback is called once. *)
Lemma pevents_process_once_witness : ∃ h (mgr mgr' : pevents_t (list (Z * loc)) Z),
  mgr_holds h mgr view_example ∧
  pevents_process 10 tree_example h mgr [] [2%positive; 3%positive; 2%positive] 7 =
    Ok (h, mgr', foldl (handle mgr 7) [] (deliveries view_example [2%positive; 3%positive; 2%positive] ∅), 0) ∧
  deliveries view_example [2%positive; 3%positive; 2%positive] ∅ =
    [inr {| ptr := 2; local := 20; global := 0 |}; inl {| ptr := 1; local := 10; global := 0 |}; inr {| ptr := 3; local := 30; global := 0 |}].
Proof.
  destruct manager_of_example as (h & mgr & Hh & _).
  destruct (pevents_process_once 10 tree_example h mgr view_example [] [2%positive; 3%positive; 2%positive] 7 Hh) as (mgr' & E & _).
  - apply (bool_decide_unpack _). by vm_compute.
  - exists h, mgr, mgr'. split; [exact Hh|]. split; [exact E|]. vm_compute. reflexivity.
Defined.

(** The record is for three channels; the first one is handed it and the last one loses it. *)
Lemma pevents_process_loses_record_witness : ∃ h (mgr mgr' : pevents_t (list (Z * loc)) Z) ds,
  pevents_process 10 tree_example h mgr [] [2%positive; 3%positive; 1%positive] 7 = Ok (h, mgr', foldl (handle mgr 7) [] ds, 0) ∧
  inr {| ptr := 2; local := 20; global := 0 |} ∈ ds ∧ inr {| ptr := 1; local := 10; global := 0 |} ∉ ds.
Proof.
  destruct manager_of_example as (h & mgr & Hh & _).
  destruct (pevents_process_loses_record 10 tree_example h mgr view_example [] 7 1 0 {| ptr := 2; local := 20; global := 0 |}
    {| ptr := 1; local := 10; global := 0 |} {| ptr := 1; local := 10; global := 0 |} 1%positive [] [3%positive; 1%positive] Hh) as (mgr' & ds & E).
  - apply (bool_decide_unpack _). by vm_compute.
  - reflexivity.
  - reflexivity.
  - reflexivity.
  - discriminate.
  - apply (bool_decide_unpack _). by vm_compute.
  - apply (bool_decide_unpack _). by vm_compute.
  - vm_compute. apply list_elem_of_here.
  - exists h, mgr, mgr', ds. exact E.
Defined.

(** A profile whose index is that of its channel gets no record of this channel at all. *)
Example profile_without_data : deliveries view_example [1%positive] ∅ = [inr {| ptr := 1; local := 10; global := 0 |}].
Proof. by vm_compute. Qed.
