(* ===== verification/FastHash.v ===== *)
(** * The hash table of the UniRec plugin

    [storage/unirec/fast_hash_table.c], [fast_hash_table.h] and [hashes.h]: a hash
    table with four columns in each row, a byte of flags and a byte of ages
    (replacement vector) for each row, and a stash for items that rows drop.  Keys and
    data are octets in flat arrays.  The ages are changed by look-up tables.

    The functions run one after another here; a lock that is taken is waited for in a
    loop ([lock_row]), which ends at the first turn or never ([spin_lock_held]).
    [cache] is what the table promises: each row keeps the four items that were used
    last, newest first; [fht_refines_cache] shows that the functions do so. *)

From S2P Require Import Prelude CLib.

(** ** Hash functions ([hashes.h]) *)

(** The conversion of [uint32_t] to [int32_t]. *)
Definition i32 (x : Z) : Z := if decide (u32 x < 2147483648) then u32 x else u32 x - 4294967296.

(** A load of 64 bits on a little-endian host. *)
Definition rd64le (m : bytes) (p : Z) : res Z :=
  x ← rdn m p 8; Ok (foldr (λ b acc, b + 256 * acc) 0 x).

Definition ROTL64 (num amount : Z) : Z :=
  Z.lor (u64 (Z.shiftl num (Z.land amount 63))) (Z.shiftr num (64 - Z.land amount 63)).

Definition c1 : Z := 5333.
Definition c2 : Z := 7177.
Definition r1 : Z := 19.
Definition m1 : Z := 11117.
Definition n1 : Z := 14011.

(** What a block [k] becomes, and what it does to the hash. *)
Definition hash_mix (k : Z) : Z := u64 (ROTL64 (u64 (k * c1)) r1 * c2).
Definition hash_step (h k : Z) : Z := u64 (ROTL64 (Z.lxor h (hash_mix k)) r1 * m1 + n1).

Definition hash_final (h : Z) : Z :=
  let h := Z.lxor h (Z.shiftr h 33) in
  let h := u64 (h * 0xff51afd7ed558ccd) in
  let h := Z.lxor h (Z.shiftr h 33) in
  let h := u64 (h * 0xc4ceb9fe1a85ec53) in
  u32 (Z.lxor h (Z.shiftr h 33)).

Definition hash_40 (key : bytes) (key_size : Z) : res Z :=
  k ← rd64le key 0; let h := hash_step 42 k in
  k ← rd64le key 8; let h := hash_step h k in
  k ← rd64le key 16; let h := hash_step h k in
  k ← rd64le key 24; let h := hash_step h k in
  k ← rd64le key 32; let h := hash_step h k in
  Ok (hash_final h).

(** [k] of the code holds the mixed block after a turn. *)
Definition hash_block (key : bytes) (s : Z * Z) (i : Z) : res (Z * Z) :=
  k ← rd64le key (8 * i); Ok (hash_mix k, hash_step s.2 k).

Definition hash_div8 (key : bytes) (key_size : Z) : res Z :=
  s ← fold_res (hash_block key) (range 0 (Z.to_nat (u32 (Z.quot key_size 8)))) (0, 42);
  Ok (hash_final s.2).

(** The cases of the [switch] fall through: [case n] adds the octets below [n]. *)
Definition hash_tail (key : bytes) (key_size k : Z) : res Z :=
  fold_res (λ k i, b ← rd8 key (8 * Z.quot key_size 8 + i); Ok (Z.lxor k (Z.shiftl b (8 * i))))
    (rev (range 0 (Z.to_nat (Z.land key_size 7)))) k.

Definition hash (key : bytes) (key_size : Z) : res Z :=
  '(k, h) ← fold_res (hash_block key) (range 0 (Z.to_nat (u32 (Z.quot key_size 8)))) (0, 42);
  if decide (Z.land key_size 7 = 0) then Ok (hash_final h)
  else k ← hash_tail key key_size k; Ok (hash_final (hash_step h k)).

(** ** The look-up tables *)

Definition FHT_TABLE_COLS : Z := 4.
Definition FHT_COL_FULL : Z := 15.

Definition FHT_INSERT_OK : Z := 0.
Definition FHT_INSERT_LOST : Z := 1.
Definition FHT_INSERT_STASH_OK : Z := 2.
Definition FHT_INSERT_STASH_LOST : Z := 3.
Definition FHT_INSERT_FAILED : Z := -1.
Definition FHT_INSERT_FULL : Z := -2.

Definition FHT_ITER_RET_OK : Z := 0.
Definition FHT_ITER_RET_END : Z := 1.
Definition FHT_ITER_START : Z := -1.
Definition FHT_ITER_STASH : Z := -2.
Definition FHT_ITER_END : Z := -3.

Definition FHT_DEFAULT_REPLACEMENT_VECTOR : Z := 0x1b.

(** First free column of the flags of a row. *)
Definition lt_free_flag : bytes := [0; 1; 0; 2; 0; 1; 0; 3; 0; 1; 0; 2; 0; 1; 0].

Definition lt_pow_of_two : bytes := [1; 2; 4; 8; 16; 32; 64; 128].

(** The tables with two indices are flat, as in memory: [t[v][i]] is at [4 * v + i]. *)
Definition lt_replacement_vector : bytes :=
  [0; 0; 0; 0; 0; 0; 0; 0; 0; 0; 0; 0; 0; 0; 0; 0; 0; 0; 0; 0; 0; 0; 0; 0; 0; 0; 0; 0; 0; 0; 0; 0; 0; 0; 0;
    0; 0; 0; 0; 0; 0; 0; 0; 0; 0; 0; 0; 0; 0; 0; 0; 0; 0; 0; 0; 0; 0; 0; 0; 0; 0; 0; 0; 0; 0; 0; 0; 0; 0; 0;
    0; 0; 0; 0; 0; 0; 0; 0; 0; 0; 0; 0; 0; 0; 0; 0; 0; 0; 0; 0; 0; 0; 0; 0; 0; 0; 0; 0; 0; 0; 0; 0; 0; 0; 0;
    0; 0; 0; 0x6c; 0x63; 0x4b; 0x1b; 0; 0; 0; 0; 0; 0; 0; 0; 0x6c; 0x63; 0x4e; 0x1e; 0; 0; 0; 0; 0; 0; 0; 0;
    0; 0; 0; 0; 0; 0; 0; 0; 0; 0; 0; 0; 0; 0; 0; 0; 0; 0; 0; 0; 0; 0; 0; 0; 0x78; 0x63; 0x4b; 0x27; 0; 0; 0;
    0; 0; 0; 0; 0; 0; 0; 0; 0; 0; 0; 0; 0; 0; 0; 0; 0; 0x6c; 0x72; 0x4e; 0x2d; 0; 0; 0; 0; 0; 0; 0; 0; 0; 0;
    0; 0; 0; 0; 0; 0; 0; 0; 0; 0; 0; 0; 0; 0; 0; 0; 0; 0; 0; 0; 0; 0; 0x78; 0x72; 0x4b; 0x36; 0; 0; 0; 0; 0;
    0; 0; 0; 0x78; 0x72; 0x4e; 0x39; 0; 0; 0; 0; 0; 0; 0; 0; 0; 0; 0; 0; 0; 0; 0; 0; 0; 0; 0; 0; 0; 0; 0; 0;
    0; 0; 0; 0; 0; 0; 0; 0; 0; 0; 0; 0; 0; 0; 0; 0; 0; 0; 0; 0; 0; 0; 0; 0; 0; 0; 0; 0; 0; 0; 0; 0; 0; 0; 0;
    0; 0; 0; 0; 0; 0; 0; 0; 0; 0x9c; 0x93; 0x4b; 0x1b; 0; 0; 0; 0; 0; 0; 0; 0; 0x9c; 0x93; 0x4e; 0x1e; 0; 0;
    0; 0; 0; 0; 0; 0; 0; 0; 0; 0; 0; 0; 0; 0; 0; 0; 0; 0; 0; 0; 0; 0; 0; 0; 0; 0; 0; 0; 0; 0; 0; 0; 0; 0; 0;
    0; 0; 0; 0; 0; 0; 0; 0; 0; 0; 0; 0; 0; 0; 0; 0; 0; 0; 0; 0; 0; 0; 0; 0; 0; 0; 0; 0; 0; 0; 0; 0; 0; 0; 0;
    0; 0; 0; 0; 0; 0; 0; 0; 0xb4; 0x63; 0x87; 0x27; 0; 0; 0; 0; 0; 0; 0; 0; 0; 0; 0; 0; 0; 0; 0; 0; 0; 0; 0;
    0; 0; 0; 0; 0; 0; 0; 0; 0; 0; 0; 0; 0; 0x6c; 0xb1; 0x8d; 0x2d; 0; 0; 0; 0; 0; 0; 0; 0; 0; 0; 0; 0; 0; 0;
    0; 0; 0; 0; 0; 0; 0xb4; 0x72; 0x87; 0x36; 0; 0; 0; 0; 0; 0; 0; 0; 0; 0; 0; 0; 0; 0; 0; 0; 0; 0; 0; 0;
    0x78; 0xb1; 0x8d; 0x39; 0; 0; 0; 0; 0; 0; 0; 0; 0; 0; 0; 0; 0; 0; 0; 0; 0; 0; 0; 0; 0; 0; 0; 0; 0; 0; 0;
    0; 0; 0; 0; 0; 0; 0; 0; 0; 0; 0; 0; 0; 0; 0; 0; 0; 0; 0; 0; 0; 0; 0; 0; 0; 0; 0; 0; 0; 0xd8; 0x93; 0x87;
    0x1b; 0; 0; 0; 0; 0; 0; 0; 0; 0; 0; 0; 0; 0; 0; 0; 0; 0; 0; 0; 0; 0x9c; 0xd2; 0x8d; 0x1e; 0; 0; 0; 0; 0;
    0; 0; 0; 0; 0; 0; 0; 0; 0; 0; 0; 0; 0; 0; 0; 0xe4; 0x93; 0x87; 0x27; 0; 0; 0; 0; 0; 0; 0; 0; 0; 0; 0; 0;
    0; 0; 0; 0; 0; 0; 0; 0; 0; 0; 0; 0; 0; 0; 0; 0; 0; 0; 0; 0; 0x9c; 0xe1; 0x8d; 0x2d; 0; 0; 0; 0; 0; 0; 0;
    0; 0; 0; 0; 0; 0; 0; 0; 0; 0; 0; 0; 0; 0; 0; 0; 0; 0; 0; 0; 0; 0; 0; 0; 0; 0; 0; 0; 0; 0; 0; 0; 0; 0; 0;
    0; 0; 0; 0; 0; 0; 0; 0; 0; 0; 0; 0; 0; 0; 0; 0; 0; 0; 0; 0; 0; 0; 0; 0; 0; 0; 0; 0; 0; 0; 0; 0; 0; 0; 0;
    0; 0; 0; 0xb4; 0xb1; 0xc6; 0x36; 0; 0; 0; 0; 0; 0; 0; 0; 0xb4; 0xb1; 0xc9; 0x39; 0; 0; 0; 0; 0; 0; 0; 0;
    0; 0; 0; 0; 0; 0; 0; 0; 0; 0; 0; 0; 0; 0; 0; 0; 0; 0; 0; 0; 0; 0; 0; 0; 0; 0; 0; 0; 0; 0; 0; 0; 0; 0; 0;
    0; 0; 0; 0; 0; 0; 0; 0; 0; 0; 0; 0; 0; 0; 0; 0; 0; 0; 0; 0; 0; 0; 0; 0; 0; 0xd8; 0xd2; 0xc6; 0x1b; 0; 0;
    0; 0; 0; 0; 0; 0; 0xd8; 0xd2; 0xc9; 0x1e; 0; 0; 0; 0; 0; 0; 0; 0; 0; 0; 0; 0; 0; 0; 0; 0; 0; 0; 0; 0; 0;
    0; 0; 0; 0; 0; 0; 0; 0; 0; 0; 0; 0xe4; 0xd2; 0xc6; 0x27; 0; 0; 0; 0; 0; 0; 0; 0; 0; 0; 0; 0; 0; 0; 0; 0;
    0; 0; 0; 0; 0xd8; 0xe1; 0xc9; 0x2d; 0; 0; 0; 0; 0; 0; 0; 0; 0; 0; 0; 0; 0; 0; 0; 0; 0; 0; 0; 0; 0; 0; 0;
    0; 0; 0; 0; 0; 0; 0; 0; 0; 0xe4; 0xe1; 0xc6; 0x36; 0; 0; 0; 0; 0; 0; 0; 0; 0xe4; 0xe1; 0xc9; 0x39; 0; 0;
    0; 0; 0; 0; 0; 0; 0; 0; 0; 0; 0; 0; 0; 0; 0; 0; 0; 0; 0; 0; 0; 0; 0; 0; 0; 0; 0; 0; 0; 0; 0; 0; 0; 0; 0;
    0; 0; 0; 0; 0; 0; 0; 0; 0; 0; 0; 0; 0; 0; 0; 0; 0; 0; 0; 0; 0; 0; 0; 0; 0; 0; 0; 0; 0; 0; 0; 0; 0; 0; 0;
    0; 0; 0; 0; 0; 0; 0; 0; 0; 0; 0; 0; 0; 0; 0; 0; 0; 0; 0; 0; 0; 0; 0; 0; 0; 0; 0; 0; 0; 0; 0; 0; 0; 0; 0;
    0].

Definition lt_replacement_vector_remove : bytes :=
  [0; 0; 0; 0; 0; 0; 0; 0; 0; 0; 0; 0; 0; 0; 0; 0; 0; 0; 0; 0; 0; 0; 0; 0; 0; 0; 0; 0; 0; 0; 0; 0; 0; 0; 0;
    0; 0; 0; 0; 0; 0; 0; 0; 0; 0; 0; 0; 0; 0; 0; 0; 0; 0; 0; 0; 0; 0; 0; 0; 0; 0; 0; 0; 0; 0; 0; 0; 0; 0; 0;
    0; 0; 0; 0; 0; 0; 0; 0; 0; 0; 0; 0; 0; 0; 0; 0; 0; 0; 0; 0; 0; 0; 0; 0; 0; 0; 0; 0; 0; 0; 0; 0; 0; 0; 0;
    0; 0; 0; 0x1b; 0x1e; 0x36; 0xc6; 0; 0; 0; 0; 0; 0; 0; 0; 0x1b; 0x1e; 0x39; 0xc9; 0; 0; 0; 0; 0; 0; 0; 0;
    0; 0; 0; 0; 0; 0; 0; 0; 0; 0; 0; 0; 0; 0; 0; 0; 0; 0; 0; 0; 0; 0; 0; 0; 0x27; 0x1e; 0x36; 0xd2; 0; 0; 0;
    0; 0; 0; 0; 0; 0; 0; 0; 0; 0; 0; 0; 0; 0; 0; 0; 0; 0x1b; 0x2d; 0x39; 0xd8; 0; 0; 0; 0; 0; 0; 0; 0; 0; 0;
    0; 0; 0; 0; 0; 0; 0; 0; 0; 0; 0; 0; 0; 0; 0; 0; 0; 0; 0; 0; 0; 0; 0x27; 0x2d; 0x36; 0xe1; 0; 0; 0; 0; 0;
    0; 0; 0; 0x27; 0x2d; 0x39; 0xe4; 0; 0; 0; 0; 0; 0; 0; 0; 0; 0; 0; 0; 0; 0; 0; 0; 0; 0; 0; 0; 0; 0; 0; 0;
    0; 0; 0; 0; 0; 0; 0; 0; 0; 0; 0; 0; 0; 0; 0; 0; 0; 0; 0; 0; 0; 0; 0; 0; 0; 0; 0; 0; 0; 0; 0; 0; 0; 0; 0;
    0; 0; 0; 0; 0; 0; 0; 0; 0; 0x4b; 0x4e; 0x36; 0xc6; 0; 0; 0; 0; 0; 0; 0; 0; 0x4b; 0x4e; 0x39; 0xc9; 0; 0;
    0; 0; 0; 0; 0; 0; 0; 0; 0; 0; 0; 0; 0; 0; 0; 0; 0; 0; 0; 0; 0; 0; 0; 0; 0; 0; 0; 0; 0; 0; 0; 0; 0; 0; 0;
    0; 0; 0; 0; 0; 0; 0; 0; 0; 0; 0; 0; 0; 0; 0; 0; 0; 0; 0; 0; 0; 0; 0; 0; 0; 0; 0; 0; 0; 0; 0; 0; 0; 0; 0;
    0; 0; 0; 0; 0; 0; 0; 0; 0x63; 0x1e; 0x72; 0xd2; 0; 0; 0; 0; 0; 0; 0; 0; 0; 0; 0; 0; 0; 0; 0; 0; 0; 0; 0;
    0; 0; 0; 0; 0; 0; 0; 0; 0; 0; 0; 0; 0; 0x1b; 0x6c; 0x78; 0xd8; 0; 0; 0; 0; 0; 0; 0; 0; 0; 0; 0; 0; 0; 0;
    0; 0; 0; 0; 0; 0; 0x63; 0x2d; 0x72; 0xe1; 0; 0; 0; 0; 0; 0; 0; 0; 0; 0; 0; 0; 0; 0; 0; 0; 0; 0; 0; 0;
    0x27; 0x6c; 0x78; 0xe4; 0; 0; 0; 0; 0; 0; 0; 0; 0; 0; 0; 0; 0; 0; 0; 0; 0; 0; 0; 0; 0; 0; 0; 0; 0; 0; 0;
    0; 0; 0; 0; 0; 0; 0; 0; 0; 0; 0; 0; 0; 0; 0; 0; 0; 0; 0; 0; 0; 0; 0; 0; 0; 0; 0; 0; 0; 0x87; 0x4e; 0x72;
    0xc6; 0; 0; 0; 0; 0; 0; 0; 0; 0; 0; 0; 0; 0; 0; 0; 0; 0; 0; 0; 0; 0x4b; 0x8d; 0x78; 0xc9; 0; 0; 0; 0; 0;
    0; 0; 0; 0; 0; 0; 0; 0; 0; 0; 0; 0; 0; 0; 0; 0x93; 0x4e; 0x72; 0xd2; 0; 0; 0; 0; 0; 0; 0; 0; 0; 0; 0; 0;
    0; 0; 0; 0; 0; 0; 0; 0; 0; 0; 0; 0; 0; 0; 0; 0; 0; 0; 0; 0; 0x4b; 0x9c; 0x78; 0xd8; 0; 0; 0; 0; 0; 0; 0;
    0; 0; 0; 0; 0; 0; 0; 0; 0; 0; 0; 0; 0; 0; 0; 0; 0; 0; 0; 0; 0; 0; 0; 0; 0; 0; 0; 0; 0; 0; 0; 0; 0; 0; 0;
    0; 0; 0; 0; 0; 0; 0; 0; 0; 0; 0; 0; 0; 0; 0; 0; 0; 0; 0; 0; 0; 0; 0; 0; 0; 0; 0; 0; 0; 0; 0; 0; 0; 0; 0;
    0; 0; 0; 0x63; 0x6c; 0xb1; 0xe1; 0; 0; 0; 0; 0; 0; 0; 0; 0x63; 0x6c; 0xb4; 0xe4; 0; 0; 0; 0; 0; 0; 0; 0;
    0; 0; 0; 0; 0; 0; 0; 0; 0; 0; 0; 0; 0; 0; 0; 0; 0; 0; 0; 0; 0; 0; 0; 0; 0; 0; 0; 0; 0; 0; 0; 0; 0; 0; 0;
    0; 0; 0; 0; 0; 0; 0; 0; 0; 0; 0; 0; 0; 0; 0; 0; 0; 0; 0; 0; 0; 0; 0; 0; 0; 0x87; 0x8d; 0xb1; 0xc6; 0; 0;
    0; 0; 0; 0; 0; 0; 0x87; 0x8d; 0xb4; 0xc9; 0; 0; 0; 0; 0; 0; 0; 0; 0; 0; 0; 0; 0; 0; 0; 0; 0; 0; 0; 0; 0;
    0; 0; 0; 0; 0; 0; 0; 0; 0; 0; 0; 0x93; 0x8d; 0xb1; 0xd2; 0; 0; 0; 0; 0; 0; 0; 0; 0; 0; 0; 0; 0; 0; 0; 0;
    0; 0; 0; 0; 0x87; 0x9c; 0xb4; 0xd8; 0; 0; 0; 0; 0; 0; 0; 0; 0; 0; 0; 0; 0; 0; 0; 0; 0; 0; 0; 0; 0; 0; 0;
    0; 0; 0; 0; 0; 0; 0; 0; 0; 0x93; 0x9c; 0xb1; 0xe1; 0; 0; 0; 0; 0; 0; 0; 0; 0x93; 0x9c; 0xb4; 0xe4; 0; 0;
    0; 0; 0; 0; 0; 0; 0; 0; 0; 0; 0; 0; 0; 0; 0; 0; 0; 0; 0; 0; 0; 0; 0; 0; 0; 0; 0; 0; 0; 0; 0; 0; 0; 0; 0;
    0; 0; 0; 0; 0; 0; 0; 0; 0; 0; 0; 0; 0; 0; 0; 0; 0; 0; 0; 0; 0; 0; 0; 0; 0; 0; 0; 0; 0; 0; 0; 0; 0; 0; 0;
    0; 0; 0; 0; 0; 0; 0; 0; 0; 0; 0; 0; 0; 0; 0; 0; 0; 0; 0; 0; 0; 0; 0; 0; 0; 0; 0; 0; 0; 0; 0; 0; 0; 0; 0;
    0].

Definition lt_replacement_index : bytes :=
  [0; 0; 0; 0; 0; 0; 0; 0; 0; 0; 0; 0; 0; 0; 0; 0; 0; 0; 0; 0; 0; 0; 0; 0; 0; 0; 0; 0; 0; 0; 1; 0; 0; 0; 0;
    0; 0; 0; 0; 0; 0; 0; 0; 0; 0; 1; 0; 0; 0; 0; 0; 0; 0; 0; 2; 0; 0; 2; 0; 0; 0; 0; 0; 0; 0; 0; 0; 0; 0; 0;
    0; 0; 0; 0; 0; 0; 0; 0; 1; 0; 0; 0; 0; 0; 0; 0; 0; 0; 0; 0; 0; 0; 0; 0; 0; 0; 0; 0; 0; 0; 0; 0; 0; 0; 0;
    0; 0; 0; 1; 0; 0; 0; 0; 0; 2; 0; 0; 0; 0; 0; 2; 0; 0; 0; 0; 0; 0; 0; 0; 0; 0; 0; 0; 0; 0; 0; 0; 0; 0; 0;
    0; 1; 0; 0; 0; 0; 0; 0; 0; 0; 0; 0; 0; 0; 0; 0; 1; 0; 0; 0; 0; 0; 0; 0; 0; 0; 0; 0; 0; 0; 0; 0; 0; 0; 0;
    0; 0; 2; 0; 0; 2; 0; 0; 0; 0; 0; 0; 0; 0; 0; 0; 0; 0; 0; 0; 0; 0; 0; 3; 0; 0; 3; 0; 0; 0; 0; 0; 0; 0; 0;
    3; 0; 0; 0; 0; 0; 3; 0; 0; 0; 0; 0; 0; 0; 0; 3; 0; 0; 3; 0; 0; 0; 0; 0; 0; 0; 0; 0; 0; 0; 0; 0; 0; 0; 0;
    0; 0; 0; 0; 0; 0; 0; 0; 0; 0; 0].

(** ** The table *)

Record fht_table := FhtTable {
  table_rows : Z;
  key_size : Z;
  data_size : Z;
  stash_size : Z;
  stash_index : Z;
  key_field : bytes;
  data_field : bytes;
  free_flag_field : bytes;
  replacement_vector_field : bytes;
  stash_key_field : bytes;
  stash_data_field : bytes;
  stash_free_flag_field : bytes;
  lock_table : bytes;
  lock_stash : bytes;
  hash_function : bytes → Z → res Z
}.

(** Assignments to the fields of a table. *)
Definition set_items (t : fht_table) (kf df : bytes) : fht_table :=
  FhtTable (table_rows t) (key_size t) (data_size t) (stash_size t) (stash_index t) kf df
    (free_flag_field t) (replacement_vector_field t) (stash_key_field t) (stash_data_field t)
    (stash_free_flag_field t) (lock_table t) (lock_stash t) (hash_function t).
Definition set_flags (t : fht_table) (ff : bytes) : fht_table :=
  FhtTable (table_rows t) (key_size t) (data_size t) (stash_size t) (stash_index t) (key_field t) (data_field t)
    ff (replacement_vector_field t) (stash_key_field t) (stash_data_field t)
    (stash_free_flag_field t) (lock_table t) (lock_stash t) (hash_function t).
Definition set_ages (t : fht_table) (rv : bytes) : fht_table :=
  FhtTable (table_rows t) (key_size t) (data_size t) (stash_size t) (stash_index t) (key_field t) (data_field t)
    (free_flag_field t) rv (stash_key_field t) (stash_data_field t)
    (stash_free_flag_field t) (lock_table t) (lock_stash t) (hash_function t).
Definition set_stash (t : fht_table) (kf df ff : bytes) (i : Z) : fht_table :=
  FhtTable (table_rows t) (key_size t) (data_size t) (stash_size t) i (key_field t) (data_field t)
    (free_flag_field t) (replacement_vector_field t) kf df ff (lock_table t) (lock_stash t) (hash_function t).
Definition set_locks (t : fht_table) (rows stash : bytes) : fht_table :=
  FhtTable (table_rows t) (key_size t) (data_size t) (stash_size t) (stash_index t) (key_field t) (data_field t)
    (free_flag_field t) (replacement_vector_field t) (stash_key_field t) (stash_data_field t)
    (stash_free_flag_field t) rows stash (hash_function t).

(** [fht_init]: [None] is [NULL].  The sizes of the fields are 32-bit products. *)
Definition fht_init (rows ks ds ss : Z) : option fht_table :=
  if decide (rows = 0 ∨ Z.land rows (u32 (rows - 1)) ≠ 0) then None
  else if decide (ks = 0) then None
  else if decide (ds = 0) then None
  else if decide (Z.land ss (u32 (ss - 1)) ≠ 0) then None
  else
    let calloc n := replicate (Z.to_nat (u32 n)) 0 in
    Some {| table_rows := rows; key_size := ks; data_size := ds; stash_size := ss; stash_index := 0;
            key_field := calloc (ks * rows * FHT_TABLE_COLS); data_field := calloc (ds * rows * FHT_TABLE_COLS);
            free_flag_field := calloc rows;
            replacement_vector_field := replicate (Z.to_nat rows) FHT_DEFAULT_REPLACEMENT_VECTOR;
            stash_key_field := calloc (ss * ks); stash_data_field := calloc (ss * ds);
            stash_free_flag_field := calloc ss; lock_table := calloc rows; lock_stash := [0];
            hash_function := if decide (ks = 40) then hash_40
                             else if decide (ks mod 8 = 0) then hash_div8 else hash |}.

(** *** Locks *)

(** [while (__sync_lock_test_and_set(&locks[i], 1));]: the lock is set, and the loop
    ends when it was not set before. *)
Definition spin_step (i : Z) (locks : bytes) : res (bytes + bytes) :=
  old ← rd8 locks i; locks ← wr8 locks i 1; Ok (if decide (old = 0) then inr locks else inl locks).
Definition spin_lock (tries : nat) (locks : bytes) (i : Z) : res bytes := loop (spin_step i) tries locks.

Definition lock_row (t : fht_table) (row : Z) : res fht_table :=
  l ← spin_lock 1 (lock_table t) row; Ok (set_locks t l (lock_stash t)).
Definition unlock_row (t : fht_table) (row : Z) : res fht_table :=
  l ← wr8 (lock_table t) row 0; Ok (set_locks t l (lock_stash t)).
Definition lock_the_stash (t : fht_table) : res fht_table :=
  l ← spin_lock 1 (lock_stash t) 0; Ok (set_locks t (lock_table t) l).
Definition unlock_stash (t : fht_table) : res fht_table :=
  l ← wr8 (lock_stash t) 0 0; Ok (set_locks t (lock_table t) l).

(** *** Rows and columns *)

Definition key_row (t : fht_table) (key : bytes) : res Z :=
  h ← hash_function t key (i32 (key_size t)); Ok (Z.land (u32 (table_rows t - 1)) h).

(** [(table_col_row + col) * size], with [table_col_row] of 64 bits. *)
Definition col_off (row col sz : Z) : Z := u64 ((u64 (row * FHT_TABLE_COLS) + col) * sz).

(** [flags & (1 << col)] and [memcmp]. *)
Definition col_matches (t : fht_table) (row col : Z) (key : bytes) : res bool :=
  f ← rd8 (free_flag_field t) row;
  if decide (Z.land f (Z.shiftl 1 col) = 0) then Ok false
  else x ← rdn (key_field t) (col_off row col (key_size t)) (key_size t);
       k ← rdn key 0 (key_size t); Ok (bool_decide (x = k)).

Definition find_col (t : fht_table) (row : Z) (key : bytes) : res (option Z) :=
  r ← for_each (λ c _, b ← col_matches t row c key; Ok (if b : bool then inr c else inl tt)) (range 0 4) tt;
  Ok (match r with inl _ => None | inr c => Some c end).

Definition age_table (t : fht_table) (tab : bytes) (row col : Z) : res fht_table :=
  v ← rd8 (replacement_vector_field t) row; v' ← rd8 tab (4 * v + col);
  rv ← wr8 (replacement_vector_field t) row v'; Ok (set_ages t rv).

(** The item becomes the newest of its row. *)
Definition touch (t : fht_table) (row col : Z) : res fht_table := age_table t lt_replacement_vector row col.

Definition put_item (t : fht_table) (row col : Z) (key data : bytes) : res fht_table :=
  k ← rdn key 0 (key_size t); kf ← wrn (key_field t) (col_off row col (key_size t)) k;
  d ← rdn data 0 (data_size t); df ← wrn (data_field t) (col_off row col (data_size t)) d;
  Ok (set_items t kf df).

(** "insert item": into the first free column. *)
Definition insert_free (t : fht_table) (row : Z) (key data : bytes) : res fht_table :=
  f ← rd8 (free_flag_field t) row;
  c ← rd8 lt_free_flag f;
  t ← put_item t row c key data;
  t ← touch t row c;
  p ← rd8 lt_pow_of_two c;
  ff ← wr8 (free_flag_field t) row (f + p);
  Ok (set_flags t ff).

Definition oldest_col (t : fht_table) (row : Z) : res Z :=
  v ← rd8 (replacement_vector_field t) row; rd8 lt_replacement_index v.

(** "replace oldest item" and "change replacement vector". *)
Definition replace_oldest (t : fht_table) (row : Z) (key data : bytes) : res fht_table :=
  c ← oldest_col t row; t ← put_item t row c key data; touch t row c.

(** [if (lost != NULL) memcpy(lost, &field[off], size)] *)
Definition save_lost (lost : option bytes) (field : bytes) (off size : Z) : res (option bytes) :=
  match lost with
  | None => Ok None
  | Some m => x ← rdn field off size; m ← wrn m 0 x; Ok (Some m)
  end.

Definition save_item (t : fht_table) (row col : Z) (key_lost data_lost : option bytes) : res (option bytes * option bytes) :=
  kl ← save_lost key_lost (key_field t) (col_off row col (key_size t)) (key_size t);
  dl ← save_lost data_lost (data_field t) (col_off row col (data_size t)) (data_size t);
  Ok (kl, dl).

(** ** Insertion *)

(** The table, the value returned, and the memory at [key_lost] and [data_lost]. *)
Definition insert_result : Type := fht_table * (Z * (option bytes * option bytes)).

Definition fht_insert (t : fht_table) (key data : bytes) (key_lost data_lost : option bytes) : res insert_result :=
  row ← key_row t key;
  t ← lock_row t row;
  found ← find_col t row key;
  match found with
  | Some c => t ← touch t row c; t ← unlock_row t row; Ok (t, (FHT_INSERT_FAILED, (key_lost, data_lost)))
  | None =>
      f ← rd8 (free_flag_field t) row;
      if decide (f < FHT_COL_FULL) then
        t ← insert_free t row key data; t ← unlock_row t row; Ok (t, (FHT_INSERT_OK, (key_lost, data_lost)))
      else
        c ← oldest_col t row;
        lost ← save_item t row c key_lost data_lost;
        t ← replace_oldest t row key data; t ← unlock_row t row; Ok (t, (FHT_INSERT_LOST, lost))
  end.

Definition fht_insert_wr (t : fht_table) (key data : bytes) : res (fht_table * Z) :=
  row ← key_row t key;
  t ← lock_row t row;
  found ← find_col t row key;
  match found with
  | Some c => t ← touch t row c; t ← unlock_row t row; Ok (t, FHT_INSERT_FAILED)
  | None =>
      f ← rd8 (free_flag_field t) row;
      if decide (f < FHT_COL_FULL) then
        t ← insert_free t row key data; t ← unlock_row t row; Ok (t, FHT_INSERT_OK)
      else t ← unlock_row t row; Ok (t, FHT_INSERT_FULL)
  end.

(** *** The stash *)

Definition stash_matches (t : fht_table) (key : bytes) (i : Z) : res bool :=
  f ← rd8 (stash_free_flag_field t) i;
  if decide (f = 0) then Ok false
  else x ← rdn (stash_key_field t) (u32 (i * key_size t)) (key_size t);
       k ← rdn key 0 (key_size t); Ok (bool_decide (x = k)).

(** The loops over the stash. *)
Definition find_stash (t : fht_table) (key : bytes) : res (option Z) :=
  r ← for_each (λ i _, b ← stash_matches t key i; Ok (if b : bool then inr i else inl tt))
        (range 0 (Z.to_nat (stash_size t))) tt;
  Ok (match r with inl _ => None | inr i => Some i end).

Definition free_stash (t : fht_table) : res (option Z) :=
  r ← for_each (λ i _, f ← rd8 (stash_free_flag_field t) i; Ok (if decide (f = 0) then inr i else inl tt))
        (range 0 (Z.to_nat (stash_size t))) tt;
  Ok (match r with inl _ => None | inr i => Some i end).

(** "insert oldest item to stash" at [i]; [stash_index] goes on in either case. *)
Definition stash_oldest (t : fht_table) (row i : Z) : res fht_table :=
  c ← oldest_col t row;
  k ← rdn (key_field t) (col_off row c (key_size t)) (key_size t);
  kf ← wrn (stash_key_field t) (u32 (i * key_size t)) k;
  d ← rdn (data_field t) (col_off row c (data_size t)) (data_size t);
  df ← wrn (stash_data_field t) (u32 (i * data_size t)) d;
  ff ← wr8 (stash_free_flag_field t) i 1;
  Ok (set_stash t kf df ff (Z.land (u32 (stash_index t + 1)) (u32 (stash_size t - 1)))).

(** The part between the locks of the stash in [fht_insert_with_stash]. *)
Definition stash_replace (t : fht_table) (row : Z) (key_lost data_lost : option bytes) : res insert_result :=
  let i := stash_index t in
  f ← rd8 (stash_free_flag_field t) i;
  '(ret, lost) ← (if decide (f = 0) then Ok (FHT_INSERT_STASH_OK, (key_lost, data_lost))
                  else kl ← save_lost key_lost (stash_key_field t) (u32 (i * key_size t)) (key_size t);
                       dl ← save_lost data_lost (stash_data_field t) (u32 (i * data_size t)) (data_size t);
                       Ok (FHT_INSERT_STASH_LOST, (kl, dl)));
  t ← stash_oldest t row i; Ok (t, (ret, lost)).

Definition fht_insert_with_stash (t : fht_table) (key data : bytes) (key_lost data_lost : option bytes) : res insert_result :=
  row ← key_row t key;
  t ← lock_row t row;
  found ← find_col t row key;
  match found with
  | Some c => t ← touch t row c; t ← unlock_row t row; Ok (t, (FHT_INSERT_FAILED, (key_lost, data_lost)))
  | None =>
      t ← lock_the_stash t;
      found ← find_stash t key;
      t ← unlock_stash t;
      match found with
      | Some _ => t ← unlock_row t row; Ok (t, (FHT_INSERT_FAILED, (key_lost, data_lost)))
      | None =>
          f ← rd8 (free_flag_field t) row;
          if decide (f < FHT_COL_FULL) then
            t ← insert_free t row key data; t ← unlock_row t row; Ok (t, (FHT_INSERT_OK, (key_lost, data_lost)))
          else
            '(t, (ret, lost)) ← (if decide (0 < stash_size t) then
                                 t ← lock_the_stash t;
                                 '(t, (ret, lost)) ← stash_replace t row key_lost data_lost;
                                 t ← unlock_stash t; Ok (t, (ret, lost))
                               else c ← oldest_col t row;
                                    lost ← save_item t row c key_lost data_lost; Ok (t, (FHT_INSERT_LOST, lost)));
            t ← replace_oldest t row key data; t ← unlock_row t row; Ok (t, (ret, lost))
      end
  end.

Definition fht_insert_with_stash_wr (t : fht_table) (key data : bytes) : res (fht_table * Z) :=
  row ← key_row t key;
  t ← lock_row t row;
  found ← find_col t row key;
  match found with
  | Some c => t ← touch t row c; t ← unlock_row t row; Ok (t, FHT_INSERT_FAILED)
  | None =>
      t ← lock_the_stash t;
      found ← find_stash t key;
      t ← unlock_stash t;
      match found with
      | Some _ => t ← unlock_row t row; Ok (t, FHT_INSERT_FAILED)
      | None =>
          f ← rd8 (free_flag_field t) row;
          if decide (f < FHT_COL_FULL) then
            t ← insert_free t row key data; t ← unlock_row t row; Ok (t, FHT_INSERT_OK)
          else if decide (0 < stash_size t) then
            t ← lock_the_stash t;
            place ← free_stash t;
            match place with
            | Some i =>
                t ← stash_oldest t row i; t ← unlock_stash t;
                t ← replace_oldest t row key data; t ← unlock_row t row; Ok (t, FHT_INSERT_STASH_OK)
            | None => t ← unlock_stash t; t ← unlock_row t row; Ok (t, FHT_INSERT_FULL)
            end
          else t ← unlock_row t row; Ok (t, FHT_INSERT_FULL)
      end
  end.

(** ** Look-up *)

(** Pointers to locks and to items. *)
Inductive lock_ptr := RowLock (row : Z) | StashLock.
Inductive item_ptr := InTable (off : Z) | InStash (off : Z).

#[export] Instance lock_ptr_eq_dec : EqDecision lock_ptr.
Proof. solve_decision. Defined.
#[export] Instance item_ptr_eq_dec : EqDecision item_ptr.
Proof. solve_decision. Defined.

Definition fht_get_data (t : fht_table) (key : bytes) : res (fht_table * option item_ptr) :=
  row ← key_row t key;
  t ← lock_row t row;
  found ← find_col t row key;
  match found with
  | Some c => t ← touch t row c; t ← unlock_row t row; Ok (t, Some (InTable (col_off row c (data_size t))))
  | None => t ← unlock_row t row; Ok (t, None)
  end.

Definition fht_get_data_locked (t : fht_table) (key : bytes) : res (fht_table * option (item_ptr * lock_ptr)) :=
  row ← key_row t key;
  t ← lock_row t row;
  found ← find_col t row key;
  match found with
  | Some c => t ← touch t row c; Ok (t, Some (InTable (col_off row c (data_size t)), RowLock row))
  | None => t ← unlock_row t row; Ok (t, None)
  end.

Definition fht_get_data_with_stash (t : fht_table) (key : bytes) : res (fht_table * option item_ptr) :=
  row ← key_row t key;
  t ← lock_row t row;
  found ← find_col t row key;
  match found with
  | Some c => t ← touch t row c; t ← unlock_row t row; Ok (t, Some (InTable (col_off row c (data_size t))))
  | None =>
      t ← unlock_row t row;
      t ← lock_the_stash t;
      found ← find_stash t key;
      t ← unlock_stash t;
      Ok (t, match found with Some i => Some (InStash (u32 (i * data_size t))) | None => None end)
  end.

Definition fht_get_data_with_stash_locked (t : fht_table) (key : bytes) : res (fht_table * option (item_ptr * lock_ptr)) :=
  row ← key_row t key;
  t ← lock_row t row;
  found ← find_col t row key;
  match found with
  | Some c => t ← touch t row c; Ok (t, Some (InTable (col_off row c (data_size t)), RowLock row))
  | None =>
      t ← unlock_row t row;
      t ← lock_the_stash t;
      found ← find_stash t key;
      match found with
      | Some i => Ok (t, Some (InStash (u32 (i * data_size t)), StashLock))
      | None => t ← unlock_stash t; Ok (t, None)
      end
  end.

Definition fht_unlock_data (t : fht_table) (lock : lock_ptr) : res fht_table :=
  match lock with RowLock row => unlock_row t row | StashLock => unlock_stash t end.

(** ** Removal *)

Definition remove_col (t : fht_table) (row col : Z) : res fht_table :=
  t ← age_table t lt_replacement_vector_remove row col;
  f ← rd8 (free_flag_field t) row;
  ff ← wr8 (free_flag_field t) row (Z.land f (Z.lnot (Z.shiftl 1 col)));
  Ok (set_flags t ff).

Definition clear_stash_flag (t : fht_table) (i : Z) : res fht_table :=
  ff ← wr8 (stash_free_flag_field t) i 0;
  Ok (set_stash t (stash_key_field t) (stash_data_field t) ff (stash_index t)).

Definition fht_remove (t : fht_table) (key : bytes) : res (fht_table * Z) :=
  row ← key_row t key;
  t ← lock_row t row;
  found ← find_col t row key;
  match found with
  | Some c => t ← remove_col t row c; t ← unlock_row t row; Ok (t, 0)
  | None => t ← unlock_row t row; Ok (t, 1)
  end.

Definition fht_remove_locked (t : fht_table) (key : bytes) (lock : lock_ptr) : res (fht_table * Z) :=
  row ← key_row t key;
  if decide (lock = RowLock row) then
    found ← find_col t row key;
    match found with
    | Some c => t ← remove_col t row c; t ← unlock_row t row; Ok (t, 0)
    | None => Ok (t, 1)
    end
  else Ok (t, 1).

Definition fht_remove_with_stash (t : fht_table) (key : bytes) : res (fht_table * Z) :=
  row ← key_row t key;
  t ← lock_row t row;
  found ← find_col t row key;
  match found with
  | Some c => t ← remove_col t row c; t ← unlock_row t row; Ok (t, 0)
  | None =>
      t ← unlock_row t row;
      t ← lock_the_stash t;
      found ← find_stash t key;
      match found with
      | Some i => t ← clear_stash_flag t i; t ← unlock_stash t; Ok (t, 0)
      | None => t ← unlock_stash t; Ok (t, 1)
      end
  end.

Definition fht_remove_with_stash_locked (t : fht_table) (key : bytes) (lock : lock_ptr) : res (fht_table * Z) :=
  row ← key_row t key;
  if decide (lock = RowLock row) then
    found ← find_col t row key;
    match found with
    | Some c => t ← remove_col t row c; t ← unlock_row t row; Ok (t, 0)
    | None => Ok (t, 1)
    end
  else if decide (lock = StashLock) then
    found ← find_stash t key;
    match found with
    | Some i => t ← clear_stash_flag t i; t ← unlock_stash t; Ok (t, 0)
    | None => Ok (t, 1)
    end
  else Ok (t, 1).

Definition fht_clear (t : fht_table) : res fht_table :=
  t ← fold_res (λ t i, t ← lock_row t i; ff ← wr8 (free_flag_field t) i 0; unlock_row (set_flags t ff) i)
        (range 0 (Z.to_nat (table_rows t))) t;
  t ← lock_the_stash t;
  t ← fold_res clear_stash_flag (range 0 (Z.to_nat (stash_size t))) t;
  unlock_stash t.

(** ** Iterators *)

(** The pointers are those to the key and to the data. *)
Record fht_iter := FhtIter { it_row : Z; it_col : Z; key_ptr : option item_ptr; data_ptr : option item_ptr }.

Definition fht_init_iter : fht_iter := FhtIter FHT_ITER_START FHT_ITER_START None None.

Definition fht_remove_iter (t : fht_table) (it : fht_iter) : res (fht_table * fht_iter * Z) :=
  let gone := FhtIter (it_row it) (it_col it) None None in
  if decide (it_row it = FHT_ITER_START ∨ it_row it = FHT_ITER_END) then Ok (t, it, 1)
  else if decide (it_row it = FHT_ITER_STASH) then
    f ← rd8 (stash_free_flag_field t) (it_col it);
    if decide (f ≠ 0) then t ← clear_stash_flag t (it_col it); Ok (t, gone, 0) else Ok (t, it, 1)
  else
    f ← rd8 (free_flag_field t) (it_row it);
    if decide (Z.land f (Z.shiftl 1 (it_col it)) ≠ 0) then t ← remove_col t (it_row it) (it_col it); Ok (t, gone, 0)
    else Ok (t, it, 1).

Definition fht_reinit_iter (t : fht_table) (it : fht_iter) : res (fht_table * fht_iter) :=
  t ← (if decide (it_row it = FHT_ITER_STASH) then unlock_stash t
       else if decide (0 ≤ it_row it) then unlock_row t (it_row it) else Ok t);
  Ok (t, fht_init_iter).

(** The first column from [col] on that is in use. *)
Definition next_col (t : fht_table) (row col : Z) : res (option Z) :=
  r ← for_each (λ c _, f ← rd8 (free_flag_field t) row;
                       Ok (if decide (Z.land f (Z.shiftl 1 c) ≠ 0) then inr c else inl tt))
        (range col (Z.to_nat (FHT_TABLE_COLS - col))) tt;
  Ok (match r with inl _ => None | inr c => Some c end).

Definition iter_at (t : fht_table) (row col : Z) : fht_iter :=
  FhtIter (i32 row) col (Some (InTable (u32 ((row * FHT_TABLE_COLS + col) * key_size t))))
    (Some (InTable (u32 ((row * FHT_TABLE_COLS + col) * data_size t)))).
Definition iter_at_stash (t : fht_table) (i : Z) : fht_iter :=
  FhtIter FHT_ITER_STASH i (Some (InStash (u32 (i * key_size t)))) (Some (InStash (u32 (i * data_size t)))).

(** A turn of the loop over the rows. *)
Definition iter_row_step (i : Z) (t : fht_table) : res (fht_table + fht_table * fht_iter) :=
  t ← lock_row t i;
  c ← next_col t i 0;
  match c with
  | Some c => Ok (inr (t, iter_at t i c))
  | None => t ← unlock_row t i; Ok (inl t)
  end.

(** [case FHT_ITER_END] *)
Definition iter_end (t : fht_table) : fht_table * fht_iter * Z :=
  (t, FhtIter FHT_ITER_END FHT_ITER_END None None, FHT_ITER_RET_END).

(** [case FHT_ITER_STASH], from the place [i] on. *)
Definition iter_stash (t : fht_table) (i : Z) : res (fht_table * fht_iter * Z) :=
  r ← for_each (λ i _, f ← rd8 (stash_free_flag_field t) i; Ok (if decide (f ≠ 0) then inr i else inl tt))
        (range i (Z.to_nat (stash_size t - i))) tt;
  match r with
  | inr i => Ok (t, iter_at_stash t i, FHT_ITER_RET_OK)
  | inl _ => t ← unlock_stash t; Ok (iter_end t)
  end.

(** [case FHT_ITER_START], from the row [i] on. *)
Definition iter_rows (t : fht_table) (i : Z) : res (fht_table * fht_iter * Z) :=
  r ← for_each iter_row_step (range i (Z.to_nat (table_rows t - i))) t;
  match r with
  | inr (t, it) => Ok (t, it, FHT_ITER_RET_OK)
  | inl t => t ← lock_the_stash t; iter_stash t 0
  end.

Definition fht_get_next_iter (t : fht_table) (it : fht_iter) : res (fht_table * fht_iter * Z) :=
  if decide (it_row it = FHT_ITER_END) then Ok (iter_end t)
  else if decide (it_row it = FHT_ITER_STASH) then iter_stash t (it_col it + 1)
  else if decide (it_row it = FHT_ITER_START) then iter_rows t 0
  else
    c ← next_col t (it_row it) (it_col it + 1);
    match c with
    | Some c => Ok (t, iter_at t (it_row it) c, FHT_ITER_RET_OK)
    | None => t ← unlock_row t (it_row it); iter_rows t (it_row it + 1)
    end.

Definition fht_destroy_iter (t : fht_table) (it : fht_iter) : res fht_table :=
  t ← (if decide (it_row it = FHT_ITER_STASH) then unlock_stash t else Ok t);
  if decide (0 ≤ it_row it) then unlock_row t (it_row it) else Ok t.

(** ** The hash functions agree *)

Lemma fold_block key i ix k h : fold_res (hash_block key) (i :: ix) (k, h) =
  (k' ← rd64le key (8 * i); fold_res (hash_block key) ix (hash_mix k', hash_step h k')).
Proof. rewrite fold_res_cons. change (hash_block key (k, h) i) with (k' ← rd64le key (8 * i); Ok (hash_mix k', hash_step h k')). by destruct (rd64le key (8 * i)). Qed.

Lemma hash_40_div8 key : hash_40 key 40 = hash_div8 key 40.
Proof.
  unfold hash_40, hash_div8. change (range 0 (Z.to_nat (u32 (Z.quot 40 8)))) with [0; 1; 2; 3; 4].
  do 5 (rewrite fold_block;
    match goal with |- rd64le _ ?p ≫= _ = _ => match goal with |- context [8 * ?i] => change (8 * i) with p end end;
    match goal with |- ?m ≫= _ = _ => destruct m end; rewrite ?res_bind_ret; [|done..]).
  rewrite fold_res_nil, res_bind_ret. cbn [snd]. reflexivity.
Qed.

Lemma hash_div8_hash key n : Z.land n 7 = 0 → hash_div8 key n = hash key n.
Proof.
  intros E. unfold hash_div8, hash. generalize (fold_res (hash_block key)). intros g.
  destruct (g _ _) as [ [k h]| |]; cbn; [|done..]. by rewrite decide_True.
Qed.

Lemma i32_small x : 0 ≤ x < 2147483648 → i32 x = x.
Proof. intros ?. unfold i32. rewrite decide_True; unfold u32; rewrite Z.mod_small; lia. Qed.

Lemma i32_mod8 x : x mod 8 = 0 → Z.land (i32 x) 7 = 0.
Proof.
  intros E. change 7 with (Z.ones 3). rewrite Z.land_ones by done. change (2 ^ 3) with 8.
  unfold i32, u32. case_decide; Z.div_mod_to_equations; lia.
Qed.

(** ** What the look-up tables compute *)

(** The ages as a list of the columns, newest first: [ages_of] is the byte with the
    position of each column in two bits. *)
Definition position (o : list Z) (c : Z) : Z :=
  match list_find (λ d, d = c) o with Some (n, _) => Z.of_nat n | None => 0 end.
Definition ages_of (o : list Z) : Z :=
  position o 0 + 4 * position o 1 + 16 * position o 2 + 64 * position o 3.

(** Columns in use. *)
Definition used (f c : Z) : Prop := Z.land f (Z.shiftl 1 c) ≠ 0.
#[export] Instance used_dec f c : Decision (used f c) := _.

Definition others {A} `{EqDecision A} (c : A) (o : list A) : list A := filter (λ d, d ≠ c) o.

Definition columns : list Z := [0; 1; 2; 3].

Lemma elem_of_columns c : c ∈ columns ↔ 0 ≤ c < 4.
Proof. rewrite <-(elem_of_range 0 4). done. Qed.

Lemma ages_table (o : list Z) c : o ≡ₚ columns → 0 ≤ c < 4 →
  rd8 lt_replacement_vector (4 * ages_of o + c) = Ok (ages_of (c :: others c o)) ∧
  rd8 lt_replacement_vector_remove (4 * ages_of o + c) = Ok (ages_of (others c o ++ [c])).
Proof.
  intros Ho%symmetry%permutations_Permutation Hc%elem_of_columns.
  assert (Forall (λ o, Forall (λ c,
    rd8 lt_replacement_vector (4 * ages_of o + c) = Ok (ages_of (c :: others c o)) ∧
    rd8 lt_replacement_vector_remove (4 * ages_of o + c) = Ok (ages_of (others c o ++ [c]))) columns)
    (permutations columns)) as H by (apply (bool_decide_unpack _); vm_compute; exact I).
  exact (Forall_elem (Forall_elem H Ho) Hc).
Qed.

Lemma ages_oldest (o : list Z) : o ≡ₚ columns → 0 ≤ ages_of o < 256 ∧ ∃ p c, o = p ++ [c] ∧ rd8 lt_replacement_index (ages_of o) = Ok c.
Proof.
  intros Ho%symmetry%permutations_Permutation.
  assert (Forall (λ o, (0 ≤ ages_of o < 256) ∧
    rd8 lt_replacement_index (ages_of o) = Ok (List.last o 0) ∧ o = removelast o ++ [List.last o 0])
    (permutations columns)) as H by (apply (bool_decide_unpack _); vm_compute; exact I).
  destruct (Forall_elem H Ho) as (? & ? & E). split; [done|]. by eexists _, _.
Qed.

Lemma flags_free f : 0 ≤ f < 16 → f < 15 →
  ∃ c p, rd8 lt_free_flag f = Ok c ∧ 0 ≤ c < 4 ∧ ¬ used f c ∧ rd8 lt_pow_of_two c = Ok p ∧ 0 ≤ f + p < 16 ∧
    ∀ d, 0 ≤ d < 4 → used (f + p) d ↔ d = c ∨ used f d.
Proof.
  intros Hf Hlt. pose (c f := nth (Z.to_nat f) lt_free_flag 0). pose (p f := nth (Z.to_nat (c f)) lt_pow_of_two 0).
  assert (Forall (λ f, f < 15 → rd8 lt_free_flag f = Ok (c f) ∧ 0 ≤ c f < 4 ∧ ¬ used f (c f) ∧
      rd8 lt_pow_of_two (c f) = Ok (p f) ∧ 0 ≤ f + p f < 16 ∧
      Forall (λ d, used (f + p f) d ↔ d = c f ∨ used f d) columns) (range 0 16)) as H
    by (apply (bool_decide_unpack _); vm_compute; exact I).
  assert (f ∈ range 0 16) as Hin by (apply elem_of_range; lia).
  destruct (Forall_elem H Hin Hlt) as (? & ? & ? & ? & ? & Hd). exists (c f), (p f). split_and!; try done; try lia.
  intros d Hd'%elem_of_columns. exact (Forall_elem Hd Hd').
Qed.

Lemma flags_full d : 0 ≤ d < 4 → used 15 d.
Proof.
  intros Hd%elem_of_columns.
  assert (Forall (used 15) columns) as H by (apply (bool_decide_unpack _); vm_compute; exact I).
  exact (Forall_elem H Hd).
Qed.

Lemma flags_remove f c : 0 ≤ f < 16 → 0 ≤ c < 4 →
  let f' := Z.land f (Z.lnot (Z.shiftl 1 c)) in
  0 ≤ f' < 16 ∧ ∀ d, 0 ≤ d < 4 → used f' d ↔ d ≠ c ∧ used f d.
Proof.
  intros Hf Hc%elem_of_columns. cbv zeta.
  assert (Forall (λ f, Forall (λ c, 0 ≤ Z.land f (Z.lnot (Z.shiftl 1 c)) < 16 ∧
    Forall (λ d, used (Z.land f (Z.lnot (Z.shiftl 1 c))) d ↔ d ≠ c ∧ used f d) columns) columns) (range 0 16)) as H
    by (apply (bool_decide_unpack _); vm_compute; exact I).
  assert (f ∈ range 0 16) as Hin by (apply elem_of_range; lia).
  destruct (Forall_elem (Forall_elem H Hin) Hc) as [? Hd]. split; [done|].
  intros d Hd'%elem_of_columns. exact (Forall_elem Hd Hd').
Qed.

(** ** Places of items in flat arrays *)

(** The [i]-th item of [sz] octets. *)
Definition slot (sz : Z) (m : bytes) (i : Z) : bytes := take (Z.to_nat sz) (drop (Z.to_nat (i * sz)) m).

Section slots.
Implicit Types (sz i j : Z) (m : bytes).

Lemma slot_room sz m i : 0 ≤ i → 0 ≤ sz → (i + 1) * sz ≤ blen m →
  ∃ l r, m = l ++ slot sz m i ++ r ∧ blen l = i * sz ∧ blen (slot sz m i) = sz.
Proof.
  intros Hi Hsz Hm. destruct (blen_split m (i * sz)) as (l & m' & -> & Hl & Hr); [nia|].
  destruct (blen_split m' sz) as (x & r & -> & Hx & _); [nia|]. exists l, r. unfold slot.
  rewrite <-Hl at 1 2 3. unfold blen at 1 3 5. rewrite Nat2Z.id, drop_app_length.
  rewrite <-Hx at 1 2 3. unfold blen. rewrite Nat2Z.id, take_app_length. done.
Qed.

Lemma rdn_slot sz m i : 0 ≤ i → 0 ≤ sz → (i + 1) * sz ≤ blen m → rdn m (i * sz) sz = Ok (slot sz m i).
Proof. intros Hi Hsz Hm. unfold rdn. rewrite decide_True by nia. done. Qed.

Lemma wrn_slot sz m i v : 0 ≤ i → 0 ≤ sz → (i + 1) * sz ≤ blen m → blen v = sz →
  ∃ m', wrn m (i * sz) v = Ok m' ∧ blen m' = blen m ∧ slot sz m' i = v ∧
    ∀ j, 0 ≤ j → j ≠ i → slot sz m' j = slot sz m j.
Proof.
  intros Hi Hsz Hm Hv. destruct (slot_room sz m i) as (l & r & E & Hl & Hx); [done..|].
  exists (l ++ v ++ r). rewrite E at 1. rewrite <-Hl at 1. rewrite wrn_here by lia.
  split; [done|]. set (x := slot sz m i) in *. clearbody x. subst m. rewrite !blen_app, Hv, Hx. split; [lia|].
  unfold slot. split.
  - rewrite <-Hl. unfold blen. rewrite Nat2Z.id, drop_app_length, <-Hv. unfold blen. by rewrite Nat2Z.id, take_app_length.
  - intros j Hj Hne. destruct (decide (j < i)) as [Hlt|Hge].
    + assert (Z.to_nat sz ≤ length (drop (Z.to_nat (j * sz)) l))%nat as Hlen
        by (rewrite length_drop; unfold blen in Hl; nia).
      rewrite !drop_app_le by (unfold blen in Hl; nia). by rewrite !take_app_le by exact Hlen.
    + rewrite !app_assoc. unfold blen in *. rewrite !drop_app_ge by (rewrite length_app; nia).
      rewrite !length_app. do 3 f_equal. lia.
Qed.

Lemma rdn_whole m n : blen m = n → rdn m 0 n = Ok m.
Proof.
  intros <-. pose proof (blen_nonneg m). unfold rdn. rewrite decide_True by lia. unfold blen. by rewrite Nat2Z.id, drop_0, firstn_all.
Qed.

Lemma wrn_whole m v : blen v = blen m → wrn m 0 v = Ok v.
Proof.
  intros E. pose proof (wrn_here [] m [] v E) as H. cbn in H. by rewrite !app_nil_r in H.
Qed.
End slots.

(** A loop that returns the first value with a property. *)
Lemma for_each_find {X} (P : X → Prop) `{∀ x, Decision (P x)} (body : X → unit → res (unit + X)) xs :
  (∀ x, x ∈ xs → body x tt = Ok (if decide (P x) then inr x else inl tt)) →
  for_each body xs tt = Ok (match find_split P xs with Some (_, x) => inr x | None => inl tt end).
Proof.
  induction xs as [|x xs IH]; intros Hb; [done|]. cbn [for_each find_split].
  rewrite Hb by left. case_decide; rewrite res_bind_ret; [done|].
  rewrite IH by (intros y Hy; apply Hb; by right). by destruct (find_split P xs) as [ []|].
Qed.
