(* ===== verification/FastHashCache.v ===== *)
(** * The hash table of the UniRec plugin keeps what was used last

    The promise of [FastHash]: [cache] has for each row of the table the items in the order
    of their last use, at most four, and the stash as a ring.  Each function on the table
    does to it what its counterpart does to the promise ([fht_call_refines]); an iterator
    visits every item once and leaves the table as it was ([iter_all_items]). *)

From S2P Require Import Prelude CLib FastHash.

(** ** What the table holds *)

Abbreviation item := (bytes * bytes)%type.

(** The promise: rows with the items used last in front, and the stash. *)
Record cache := Cache { c_rows : list (list item); c_stash : list (option item); c_next : Z }.

(** Sizes that fit their fields. *)
Record fht_ok (t : fht_table) : Prop := {
  ok_rows : ∃ k, 0 ≤ k < 32 ∧ table_rows t = 2 ^ k;
  ok_stash : stash_size t = 0 ∨ ∃ k, 0 ≤ k < 32 ∧ stash_size t = 2 ^ k;
  ok_sizes : 0 < key_size t ∧ 0 < data_size t;
  ok_fit : key_size t * table_rows t * 4 < 4294967296 ∧ data_size t * table_rows t * 4 < 4294967296 ∧
    stash_size t * key_size t < 4294967296 ∧ stash_size t * data_size t < 4294967296;
  ok_key_field : blen (key_field t) = key_size t * table_rows t * 4;
  ok_data_field : blen (data_field t) = data_size t * table_rows t * 4;
  ok_flags : length (free_flag_field t) = Z.to_nat (table_rows t);
  ok_ages : length (replacement_vector_field t) = Z.to_nat (table_rows t);
  ok_stash_keys : blen (stash_key_field t) = stash_size t * key_size t;
  ok_stash_data : blen (stash_data_field t) = stash_size t * data_size t;
  ok_stash_flags : length (stash_free_flag_field t) = Z.to_nat (stash_size t);
  ok_locks : length (lock_table t) = Z.to_nat (table_rows t) ∧ length (lock_stash t) = 1%nat;
  ok_hash : ∀ key, blen key = key_size t → ∃ h, hash_function t key (i32 (key_size t)) = Ok h ∧ is_u32 h
}.

(** The row of a key. *)
Definition place (t : fht_table) (key : bytes) : nat :=
  match key_row t key with Ok r => Z.to_nat r | _ => O end.

Definition cell (t : fht_table) (r : nat) (c : Z) : item :=
  (slot (key_size t) (key_field t) (4 * Z.of_nat r + c), slot (data_size t) (data_field t) (4 * Z.of_nat r + c)).
Definition stash_cell (t : fht_table) (i : nat) : item :=
  (slot (key_size t) (stash_key_field t) (Z.of_nat i), slot (data_size t) (stash_data_field t) (Z.of_nat i)).

(** Columns of a row, newest first ([o]), and its flags. *)
Definition row_state (t : fht_table) (r : nat) (o : list Z) (f : Z) : Prop :=
  o ≡ₚ columns ∧ 0 ≤ f < 16 ∧ replacement_vector_field t !! r = Some (ages_of o) ∧ free_flag_field t !! r = Some f.

Definition row_items (t : fht_table) (r : nat) (o : list Z) (f : Z) : list item := cell t r <$> filter (used f) o.

Definition row_rep (t : fht_table) (r : nat) (row : list item) : Prop :=
  ∃ o f, row_state t r o f ∧ row = row_items t r o f ∧ NoDup row.*1.

Definition stash_rep (t : fht_table) (i : nat) (x : option item) : Prop :=
  ∃ f, stash_free_flag_field t !! i = Some f ∧ x = if decide (f = 0) then None else Some (stash_cell t i).

Record cache_rep (t : fht_table) (C : cache) : Prop := {
  rep_rows : length (c_rows C) = Z.to_nat (table_rows t);
  rep_row : ∀ r row, c_rows C !! r = Some row → row_rep t r row;
  rep_stash_size : length (c_stash C) = Z.to_nat (stash_size t);
  rep_stash : ∀ i x, c_stash C !! i = Some x → stash_rep t i x;
  rep_next : c_next C = stash_index t ∧ 0 ≤ stash_index t ∧ (0 < stash_size t → stash_index t < stash_size t)
}.

(** No lock is taken. *)
Definition unlocked (t : fht_table) : Prop :=
  (∀ r l, lock_table t !! r = Some l → l = 0) ∧ lock_stash t = [0].

(** *** Arithmetic of the places *)

Section shape.
Context (t : fht_table) (Hok : fht_ok t).

Lemma rows_range : 0 < table_rows t < 4294967296.
Proof. destruct (ok_rows t Hok) as (k & Hk & ->). split; [lia|]. apply (Z.pow_lt_mono_r 2 k 32); lia. Qed.

Lemma key_row_place key : blen key = key_size t →
  key_row t key = Ok (Z.of_nat (place t key)) ∧ (place t key < Z.to_nat (table_rows t))%nat.
Proof.
  intros Hk. destruct (ok_hash t Hok key Hk) as (h & Eh & Hh).
  assert (key_row t key = Ok (Z.land (u32 (table_rows t - 1)) h)) as E by (unfold key_row; by rewrite Eh).
  assert (0 ≤ Z.land (u32 (table_rows t - 1)) h < table_rows t) as Hr.
  { pose proof rows_range. unfold u32. rewrite Z.mod_small by lia. rewrite Z.land_comm.
    destruct (ok_rows t Hok) as (k & Hk' & ->). replace (2 ^ k - 1) with (Z.ones k) by (rewrite Z.ones_equiv; lia).
    rewrite Z.land_ones by lia. apply Z.mod_pos_bound. lia. }
  unfold place. rewrite E. split; [f_equal|]; lia.
Qed.

Lemma col_off_eq r c sz : 0 ≤ c < 4 → (r < Z.to_nat (table_rows t))%nat → 0 ≤ sz → sz * table_rows t * 4 < 4294967296 →
  col_off (Z.of_nat r) c sz = (4 * Z.of_nat r + c) * sz ∧ (4 * Z.of_nat r + c + 1) * sz ≤ sz * table_rows t * 4.
Proof.
  intros Hc Hr Hsz Hfit. pose proof rows_range. split; [|nia]. unfold col_off, FHT_TABLE_COLS, u64.
  rewrite (Z.mod_small (_ * 4)) by lia. rewrite Z.mod_small; [f_equal; lia|]. split; [nia|]. nia.
Qed.

Lemma stash_off_eq i sz : (i < Z.to_nat (stash_size t))%nat → 0 ≤ sz → stash_size t * sz < 4294967296 →
  u32 (Z.of_nat i * sz) = Z.of_nat i * sz ∧ (Z.of_nat i + 1) * sz ≤ stash_size t * sz.
Proof. intros Hi Hsz Hfit. split; [|nia]. apply Z.mod_small. nia. Qed.
End shape.

(** *** What an operation leaves alone *)

(** Sizes, hash function and locks. *)
Record same_frame (t t' : fht_table) : Prop := {
  fr_rows : table_rows t' = table_rows t;
  fr_sizes : key_size t' = key_size t ∧ data_size t' = data_size t ∧ stash_size t' = stash_size t;
  fr_hash : hash_function t' = hash_function t;
  fr_locks : lock_table t' = lock_table t ∧ lock_stash t' = lock_stash t;
  fr_room : blen (key_field t') = blen (key_field t) ∧ blen (data_field t') = blen (data_field t) ∧
    length (free_flag_field t') = length (free_flag_field t) ∧
    length (replacement_vector_field t') = length (replacement_vector_field t);
  fr_stash_room : blen (stash_key_field t') = blen (stash_key_field t) ∧
    blen (stash_data_field t') = blen (stash_data_field t) ∧
    length (stash_free_flag_field t') = length (stash_free_flag_field t)
}.

(** The stash, and the rows other than [r]. *)
Definition same_stash (t t' : fht_table) : Prop :=
  stash_index t' = stash_index t ∧ stash_key_field t' = stash_key_field t ∧
  stash_data_field t' = stash_data_field t ∧ stash_free_flag_field t' = stash_free_flag_field t.
Definition same_row (t t' : fht_table) (r : nat) : Prop :=
  replacement_vector_field t' !! r = replacement_vector_field t !! r ∧
  free_flag_field t' !! r = free_flag_field t !! r ∧ ∀ c, 0 ≤ c < 4 → cell t' r c = cell t r c.

#[export] Instance same_frame_trans : Transitive same_frame.
Proof.
  intros t1 t2 t3 [? [? [? ?]] ? [? ?] [? [? [? ?]]] [? [? ?]] ] [? [? [? ?]] ? [? ?] [? [? [? ?]]] [? [? ?]] ].
  split; split_and?; congruence.
Qed.

Lemma same_frame_ok t t' : same_frame t t' → fht_ok t → fht_ok t'.
Proof.
  intros [Er [Ek [Ed Es]] Eh [El1 El2] [Ekf [Edf [Eff Erv]]] [Esk [Esd Esf]] ] [].
  split; rewrite ?Er, ?Ek, ?Ed, ?Es, ?Eh, ?El1, ?El2, ?Ekf, ?Edf, ?Eff, ?Erv, ?Esk, ?Esd, ?Esf; done.
Qed.

Lemma same_frame_place t t' key : same_frame t t' → place t' key = place t key ∧ key_row t' key = key_row t key.
Proof. intros [Er [Ek _] Eh _ _ _]. unfold place, key_row. by rewrite Er, Ek, Eh. Qed.

Definition row_only (t t' : fht_table) (r : nat) : Prop :=
  same_frame t t' ∧ same_stash t t' ∧ ∀ r', r' ≠ r → same_row t t' r'.

Lemma row_only_trans t1 t2 t3 r : row_only t1 t2 r → row_only t2 t3 r → row_only t1 t3 r.
Proof.
  intros (? & (?&?&?&?) & Ra) (? & (?&?&?&?) & Rb). split; [by etrans|]. split.
  - unfold same_stash. split_and!; congruence.
  - intros r' Hr. destruct (Ra r' Hr) as (?&?&C1), (Rb r' Hr) as (?&?&C2). split_and!; try congruence.
    intros c Hc. by rewrite C2, C1.
Qed.

Lemma row_items_ext t t' r o f : o ≡ₚ columns → (∀ c, 0 ≤ c < 4 → cell t' r c = cell t r c) →
  row_items t' r o f = row_items t r o f.
Proof.
  intros Ho Hc. unfold row_items. apply list_fmap_ext. intros i c Hi. apply Hc.
  apply elem_of_columns. rewrite <-Ho. apply list_elem_of_lookup_2, list_elem_of_filter in Hi. by destruct Hi.
Qed.

Lemma row_rep_same t t' r row : same_row t t' r → row_rep t r row → row_rep t' r row.
Proof.
  intros (Ea & Ef & Hc) (o & f & (Ho & Hf & Ea' & Ef') & -> & Hnd). exists o, f. unfold row_state.
  rewrite Ea, Ef, (row_items_ext t t') by done. done.
Qed.

Lemma stash_rep_same t t' i x : same_stash t t' → same_frame t t' → stash_rep t i x → stash_rep t' i x.
Proof.
  intros (Ei & Ek & Ed & Ef) [_ [Eks [Eds _]] _ _ _ _] (f & Hf & ->). exists f. rewrite Ef. split; [done|].
  unfold stash_cell. by rewrite Ek, Ed, Eks, Eds.
Qed.

Definition set_row (C : cache) (r : nat) (row : list item) : cache := Cache (<[r := row]> (c_rows C)) (c_stash C) (c_next C).

Lemma rep_update t t' C r row : cache_rep t C → row_only t t' r → row_rep t' r row → cache_rep t' (set_row C r row).
Proof.
  intros [Hrows Hrow Hss Hst Hn] (Hfr & Hsst & Hoth) Hr. pose proof Hfr as [Er [_ [_ Ess]] _ _ _ _].
  pose proof Hsst as (Ei & _). split; cbn [set_row c_rows c_stash c_next]; rewrite ?Er, ?Ess, ?Ei; [|..|done].
  - by rewrite length_insert.
  - intros r' row'. destruct (decide (r' = r)) as [->|Hne].
    + destruct (decide (r < length (c_rows C))%nat); [rewrite list_lookup_insert_eq by done; by intros [= <-]|].
      rewrite list_insert_ge by lia. intros E%lookup_lt_Some. lia.
    + rewrite list_lookup_insert_ne by done. intros E. apply (row_rep_same t); auto.
  - done.
  - intros i x E. apply (stash_rep_same t); auto.
Qed.

(** *** Bytes at an index *)

Lemma rd8_at m (r : nat) v : m !! r = Some v → rd8 m (Z.of_nat r) = Ok v.
Proof. intros E. apply rd8_Some. rewrite Nat2Z.id. split; [lia|done]. Qed.

Lemma wr8_at m (r : nat) v : (r < length m)%nat → 0 ≤ v < 256 → wr8 m (Z.of_nat r) v = Ok (<[r := v]> m).
Proof.
  intros Hr Hv. unfold wr8. rewrite decide_True by (unfold blen; lia). rewrite Nat2Z.id.
  unfold u8. by rewrite Z.mod_small.
Qed.

(** *** Rows *)

Definition find_item (key : bytes) (row : list item) : option item :=
  match find_split (λ i : item, i.1 = key) row with Some (_, i) => Some i | None => None end.

(** The item comes to the front. *)
Definition renew (i : item) (row : list item) : list item := i :: filter (λ j : item, j.1 ≠ i.1) row.

Lemma find_item_None key row : find_item key row = None ↔ key ∉ row.*1.
Proof.
  unfold find_item. destruct (find_split _ row) as [ [l i]|] eqn:E.
  - apply (find_split_Some (λ i : item, i.1 = key)) in E as (r & -> & _ & <-). split; [done|]. intros []. rewrite fmap_app, fmap_cons. set_solver.
  - apply (find_split_None (λ i : item, i.1 = key)) in E. split; [|done]. intros _ (i & -> & Hi)%list_elem_of_fmap. exact (Forall_elem E Hi eq_refl).
Qed.

Lemma NoDup_key_eq (row : list item) i j : NoDup row.*1 → i ∈ row → j ∈ row → i.1 = j.1 → i = j.
Proof.
  induction row as [|x row IH]; intros Hnd Hi Hj E; [by apply not_elem_of_nil in Hi|].
  apply NoDup_cons in Hnd as [Hx Hnd]. apply elem_of_cons in Hi as [->|Hi], Hj as [->|Hj]; auto;
  destruct Hx; [rewrite E|rewrite <-E]; by apply list_elem_of_fmap_2.
Qed.

Lemma find_item_Some key row i : NoDup row.*1 → i ∈ row → i.1 = key → find_item key row = Some i.
Proof.
  intros Hnd Hi Hk. destruct (find_item key row) as [j|] eqn:E.
  - unfold find_item in E. destruct (find_split _ row) as [ [l x]|] eqn:Es; [|done]. injection E as ->.
    apply (find_split_Some (λ i : item, i.1 = key)) in Es as (r & -> & _ & Hj). f_equal.
    apply (NoDup_key_eq (l ++ j :: r)); [done| |done|by rewrite Hj]. set_solver.
  - apply find_item_None in E. destruct E. rewrite <-Hk. by apply list_elem_of_fmap_2.
Qed.

Lemma filter_others (P : Z → Prop) `{∀ x, Decision (P x)} c o : filter P (others c o) = others c (filter P o).
Proof.
  unfold others. induction o as [|x o IH]; [done|]. rewrite !filter_cons.
  repeat (case_decide; rewrite ?filter_cons, ?IH; try done).
Qed.

Lemma others_notin {A} `{EqDecision A} (c : A) o : c ∉ o → others c o = o.
Proof.
  unfold others. induction o as [|x o IH]; intros Hc; [done|]. apply not_elem_of_cons in Hc as [? ?].
  rewrite filter_cons, decide_True by done. by rewrite IH.
Qed.

Lemma others_perm (c : Z) o : o ≡ₚ columns → 0 ≤ c < 4 → c :: others c o ≡ₚ columns ∧ others c o ++ [c] ≡ₚ columns.
Proof.
  intros Ho Hc%elem_of_columns. assert (c :: others c o ≡ₚ o) as E.
  { assert (NoDup o) as Hnd by (rewrite Ho; apply (bool_decide_unpack _); exact I). rewrite <-Ho in Hc.
    apply list_elem_of_split in Hc as (l1 & l2 & ->). apply NoDup_app in Hnd as (_ & H1 & [H2 _]%NoDup_cons).
    unfold others at 1. rewrite filter_app, filter_cons, decide_False by tauto. fold (others c l1). fold (others c l2).
    rewrite !others_notin; [by rewrite Permutation_middle|done|]. intros Hin. apply (H1 _ Hin). by left. }
  rewrite <-Permutation_cons_append. by rewrite E.
Qed.

Section rows.
Context (t : fht_table) (Hok : fht_ok t).
Implicit Types (r : nat) (c f : Z) (o : list Z) (key data : bytes) (row : list item).

Lemma find_col_spec r o f key : (r < Z.to_nat (table_rows t))%nat → row_state t r o f → blen key = key_size t →
  ∃ x, find_col t (Z.of_nat r) key = Ok x ∧
    match x with
    | Some c => 0 ≤ c < 4 ∧ used f c ∧ (cell t r c).1 = key
    | None => ∀ c, 0 ≤ c < 4 → used f c → (cell t r c).1 ≠ key
    end.
Proof.
  intros Hr (Ho & Hf & Ea & Ef) Hk. destruct (ok_sizes t Hok) as [Hks _]. destruct (ok_fit t Hok) as [Hfit _].
  set (P c := used f c ∧ (cell t r c).1 = key).
  assert (∀ c, 0 ≤ c < 4 → col_matches t (Z.of_nat r) c key = Ok (bool_decide (P c))) as Hm.
  { intros c Hc. unfold col_matches. rewrite (rd8_at _ _ _ Ef), res_bind_ret.
    destruct (col_off_eq t Hok r c (key_size t)) as [-> Hoff]; [done..|lia|done|].
    case_decide as Hu; [by rewrite bool_decide_false by (intros [? _]; done)|].
    rewrite rdn_slot by (rewrite ?(ok_key_field t Hok); lia). rewrite res_bind_ret, rdn_whole by done. rewrite res_bind_ret.
    f_equal. apply bool_decide_ext. unfold P, used. cbn. tauto. }
  unfold find_col. rewrite (for_each_find P).
  - rewrite res_bind_ret. destruct (find_split P _) as [ [l c]|] eqn:E; eexists; split; try done.
    + apply find_split_Some in E as (l2 & E & _ & HP). split; [|done]. apply (elem_of_range 0 4). rewrite E. set_solver.
    + apply find_split_None in E. intros c Hc Hu Hk'. apply (elem_of_range 0 4) in Hc. by apply (Forall_elem E Hc).
  - intros c Hc%elem_of_range. rewrite Hm, res_bind_ret by lia. f_equal. case_decide as HP.
    + by rewrite bool_decide_true.
    + by rewrite bool_decide_false.
Qed.

Lemma age_spec r o f tab c o' : row_state t r o f → (r < Z.to_nat (table_rows t))%nat →
  rd8 tab (4 * ages_of o + c) = Ok (ages_of o') → o' ≡ₚ columns →
  age_table t tab (Z.of_nat r) c = Ok (set_ages t (<[r := ages_of o']> (replacement_vector_field t))).
Proof.
  intros (Ho & Hf & Ea & Ef) Hr Et Ho'. unfold age_table. rewrite (rd8_at _ _ _ Ea), res_bind_ret, Et, res_bind_ret.
  destruct (ages_oldest o' Ho') as [? _]. rewrite wr8_at by (rewrite ?(ok_ages t Hok); done). done.
Qed.

Lemma set_ages_only r v : row_only t (set_ages t (<[r := v]> (replacement_vector_field t))) r.
Proof.
  split; [|split].
  - split; cbn; rewrite ?length_insert; done.
  - done.
  - intros r' Hr. unfold same_row. cbn. by rewrite list_lookup_insert_ne.
Qed.
Lemma set_flags_only r v : row_only t (set_flags t (<[r := v]> (free_flag_field t))) r.
Proof.
  split; [|split].
  - split; cbn; rewrite ?length_insert; done.
  - done.
  - intros r' Hr. unfold same_row. cbn. by rewrite list_lookup_insert_ne.
Qed.

(** A hit: the item becomes the newest. *)
Lemma touch_spec r o f c : (r < Z.to_nat (table_rows t))%nat → row_state t r o f → 0 ≤ c < 4 →
  ∃ t', touch t (Z.of_nat r) c = Ok t' ∧ row_only t t' r ∧ row_state t' r (c :: others c o) f ∧
    ∀ d, cell t' r d = cell t r d.
Proof.
  intros Hr Hs Hc. pose proof Hs as (Ho & Hf & Ea & Ef). destruct (ages_table o c Ho Hc) as [Et _].
  destruct (others_perm c o Ho Hc) as [Ho' _].
  eexists. split; [exact (age_spec r o f _ c _ Hs Hr Et Ho')|]. split; [apply set_ages_only|]. split; [|done].
  unfold row_state. split_and!; [done|lia|lia| |done]. cbn. apply list_lookup_insert_eq. by rewrite (ok_ages t Hok).
Qed.

Lemma put_item_spec r c key data : (r < Z.to_nat (table_rows t))%nat → 0 ≤ c < 4 →
  blen key = key_size t → blen data = data_size t →
  ∃ t', put_item t (Z.of_nat r) c key data = Ok t' ∧ row_only t t' r ∧
    replacement_vector_field t' = replacement_vector_field t ∧ free_flag_field t' = free_flag_field t ∧
    cell t' r c = (key, data) ∧ ∀ d, 0 ≤ d < 4 → d ≠ c → cell t' r d = cell t r d.
Proof.
  intros Hr Hc Hk Hd. destruct (ok_sizes t Hok) as [Hks Hds]. destruct (ok_fit t Hok) as (Hfk & Hfd & _).
  unfold put_item. rewrite (rdn_whole key), res_bind_ret by done.
  destruct (col_off_eq t Hok r c (key_size t)) as [-> Hoffk]; [done..|lia|done|].
  destruct (wrn_slot (key_size t) (key_field t) (4 * Z.of_nat r + c) key) as (kf & Ekf & Hlk & Hsk & Hok');
    [lia|lia|by rewrite (ok_key_field t Hok)|done|]. rewrite Ekf, res_bind_ret, (rdn_whole data), res_bind_ret by done.
  destruct (col_off_eq t Hok r c (data_size t)) as [-> Hoffd]; [done..|lia|done|].
  destruct (wrn_slot (data_size t) (data_field t) (4 * Z.of_nat r + c) data) as (df & Edf & Hld & Hsd & Hod);
    [lia|lia|by rewrite (ok_data_field t Hok)|done|]. rewrite Edf, res_bind_ret.
  eexists. split; [done|]. split; [|split_and!; try done].
  - split; [split; cbn; split_and?; done|]. split; [done|]. intros r' Hne. unfold same_row. split_and!; [done..|].
    intros d Hd'. unfold cell. cbn. by rewrite Hok', Hod by lia.
  - unfold cell. cbn. by rewrite Hsk, Hsd.
  - intros d Hd' Hne. unfold cell. cbn. by rewrite Hok', Hod by lia.
Qed.
End rows.

(** *** Rows as lists of items *)

Lemma filter_ext_elem {A} (P Q : A → Prop) `{∀ x, Decision (P x)} `{∀ x, Decision (Q x)} (l : list A) :
  (∀ x, x ∈ l → P x ↔ Q x) → filter P l = filter Q l.
Proof.
  induction l as [|x l IH]; intros E; [done|]. rewrite !filter_cons, IH by (intros y Hy; apply E; by right).
  assert (P x ↔ Q x) by (apply E; by left). repeat case_decide; tauto.
Qed.

Lemma others_items (g : Z → item) c l : NoDup (g <$> l).*1 → c ∈ l →
  g <$> others c l = filter (λ j : item, j.1 ≠ (g c).1) (g <$> l).
Proof.
  intros Hnd Hc. unfold others.
  assert (∀ d, d ∈ l → d ≠ c ↔ (g d).1 ≠ (g c).1) as Hiff.
  { intros d Hd. split; [|congruence]. intros Hne E. rewrite <-list_fmap_compose in Hnd.
    apply list_elem_of_lookup_1 in Hc as [i Hi], Hd as [j Hj].
    assert (i = j) as -> by (eapply (NoDup_lookup _ i j (g c).1 Hnd); rewrite list_lookup_fmap; [by rewrite Hi|rewrite Hj; cbn; by rewrite E]).
    congruence. }
  clear Hnd Hc. induction l as [|d l IH]; [done|]. rewrite fmap_cons, !filter_cons.
  assert (d ≠ c ↔ (g d).1 ≠ (g c).1) by (apply Hiff; by left).
  rewrite <-IH by (intros e He; apply Hiff; by right). do 2 case_decide; by (tauto || rewrite ?fmap_cons).
Qed.

Lemma NoDup_keys_filter (P : item → Prop) `{∀ x, Decision (P x)} (l : list item) : NoDup l.*1 → NoDup (filter P l).*1.
Proof.
  induction l as [|j l IH]; [done|]. rewrite fmap_cons, NoDup_cons, filter_cons. intros [Hj Hl].
  case_decide; [|auto]. rewrite fmap_cons. apply NoDup_cons. split; [|auto].
  intros (x & E & [_ Hx]%list_elem_of_filter)%list_elem_of_fmap. apply Hj. rewrite E. by apply list_elem_of_fmap_2.
Qed.

Section row_items.
Context (t : fht_table) (Hok : fht_ok t) (r : nat) (Hr : (r < Z.to_nat (table_rows t))%nat).
Context (o : list Z) (f : Z) (Hs : row_state t r o f) (Hnd : NoDup (row_items t r o f).*1).
Implicit Types (c : Z) (key data : bytes).

Lemma used_in_row c : 0 ≤ c < 4 → used f c → c ∈ filter (used f) o ∧ cell t r c ∈ row_items t r o f.
Proof.
  intros Hc%elem_of_columns Hu. destruct Hs as (Ho & _). rewrite <-Ho in Hc.
  assert (c ∈ filter (used f) o) by (by apply list_elem_of_filter). split; [done|]. by apply list_elem_of_fmap_2.
Qed.

Lemma row_column c : c ∈ o → 0 ≤ c < 4.
Proof. destruct Hs as (Ho & _). rewrite Ho. apply elem_of_columns. Qed.

Lemma row_no_dup : NoDup o.
Proof. destruct Hs as (E & _). rewrite E. apply (bool_decide_unpack _). exact I. Qed.

Lemma find_col_item key : blen key = key_size t →
  ∃ x, find_col t (Z.of_nat r) key = Ok x ∧
    match x with
    | Some c => 0 ≤ c < 4 ∧ used f c ∧ (cell t r c).1 = key ∧ find_item key (row_items t r o f) = Some (cell t r c)
    | None => find_item key (row_items t r o f) = None
    end.
Proof.
  intros Hk. destruct (find_col_spec t Hok r o f key Hr Hs Hk) as (x & Ex & Hx). exists x. split; [done|].
  destruct x as [c|].
  - destruct Hx as (Hc & Hu & Hkey). split_and!; try done; try lia. apply find_item_Some; [done| |done].
    by apply used_in_row.
  - apply find_item_None. rewrite list_elem_of_fmap. intros (i & -> & Hi).
    apply list_elem_of_fmap in Hi as (c & -> & [Hu Hc]%list_elem_of_filter).
    exact (Hx c (row_column c Hc) Hu eq_refl).
Qed.

Lemma renew_items c : 0 ≤ c < 4 → used f c →
  row_items t r (c :: others c o) f = renew (cell t r c) (row_items t r o f).
Proof.
  intros Hc Hu. unfold row_items, renew. rewrite filter_cons, decide_True, fmap_cons, filter_others by done. f_equal.
  apply others_items; [done|]. by apply used_in_row.
Qed.

Lemma touch_row c : 0 ≤ c < 4 → used f c →
  ∃ t', touch t (Z.of_nat r) c = Ok t' ∧ row_only t t' r ∧ row_rep t' r (renew (cell t r c) (row_items t r o f)) ∧
    ∀ d, cell t' r d = cell t r d.
Proof.
  intros Hc Hu. destruct (touch_spec t Hok r o f c Hr Hs Hc) as (t' & Et & Hro & Hs' & Hcell).
  exists t'. split_and!; try done; try apply Hro. exists (c :: others c o), f. split; [done|].
  rewrite <-renew_items by done. split; [symmetry; apply row_items_ext; [apply Hs'|by intros]|].
  rewrite renew_items by done. unfold renew. rewrite fmap_cons. apply NoDup_cons. split.
  - rewrite list_elem_of_fmap. intros (j & E & [Hj _]%list_elem_of_filter). congruence.
  - by apply NoDup_keys_filter.
Qed.

(** A new item in the first free column. *)
Lemma insert_free_row key data : f < 15 → find_item key (row_items t r o f) = None →
  blen key = key_size t → blen data = data_size t →
  (length (row_items t r o f) < 4)%nat ∧
  ∃ t', insert_free t (Z.of_nat r) key data = Ok t' ∧ row_only t t' r ∧ row_rep t' r ((key, data) :: row_items t r o f).
Proof.
  intros Hlt Hnone Hk Hd. pose proof Hs as (Ho & Hf & Ea & Ef).
  destruct (flags_free f Hf Hlt) as (c & p & Ec & Hc & Hnu & Ep & Hfp & Hused).
  split.
  { unfold row_items. rewrite length_fmap. apply (Nat.lt_le_trans _ (length o)); [|by rewrite Ho].
    apply (length_filter_lt (used f) o c); [|done]. rewrite Ho. by apply elem_of_columns. }
  unfold insert_free. rewrite (rd8_at _ _ _ Ef), res_bind_ret, Ec, res_bind_ret.
  destruct (put_item_spec t Hok r c key data Hr Hc Hk Hd) as (t1 & -> & Hro1 & Erv & Eff & Ecell & Eother).
  rewrite res_bind_ret. pose proof (same_frame_ok _ _ (proj1 Hro1) Hok) as Hok1.
  pose proof (fr_rows _ _ (proj1 Hro1)) as Erows.
  assert (row_state t1 r o f) as Hs1 by (unfold row_state; by rewrite Erv, Eff).
  destruct (touch_spec t1 Hok1 r o f c ltac:(by rewrite Erows) Hs1 Hc) as (t2 & -> & Hro2 & Hs2 & Hcell2).
  rewrite res_bind_ret, Ep, res_bind_ret. pose proof (same_frame_ok _ _ (proj1 Hro2) Hok1) as Hok2.
  destruct Hs2 as (Ho2 & _ & Ea2 & Ef2). assert (r < length (free_flag_field t2))%nat as Hlen by (by apply lookup_lt_Some in Ef2).
  rewrite wr8_at, res_bind_ret by (done || lia). eexists. split; [done|]. split.
  { eapply row_only_trans; [exact Hro1|]. eapply row_only_trans; [exact Hro2|]. apply set_flags_only. }
  exists (c :: others c o), (f + p).
  assert (row_items (set_flags t2 (<[r:=f + p]> (free_flag_field t2))) r (c :: others c o) (f + p) = (key, data) :: row_items t r o f) as Eitems.
  { unfold row_items. rewrite filter_cons, decide_True by (apply Hused; [done|by left]). rewrite fmap_cons. f_equal.
    - etrans; [apply Hcell2|done].
    - assert (filter (used (f + p)) (others c o) = filter (used f) o) as ->.
      { unfold others. rewrite list_filter_filter. apply filter_ext_elem. intros d Hd'%row_column.
        rewrite (Hused d Hd'). split; [tauto|]. intros Hu. split; [by right|by intros ->]. }
      apply list_fmap_ext. intros i d [Hu Hd']%list_elem_of_lookup_2%list_elem_of_filter.
      etrans; [apply Hcell2|]. apply Eother; [by apply row_column|by intros ->]. }
  split; [|split].
  - unfold row_state. cbn. split_and!; [done|lia|lia|done|]. by apply list_lookup_insert_eq.
  - by rewrite Eitems.
  - rewrite fmap_cons. apply NoDup_cons. split; [by apply find_item_None|done].
Qed.

Lemma full_row : ¬ f < 15 → ∃ p c, o = p ++ [c] ∧ 0 ≤ c < 4 ∧ oldest_col t (Z.of_nat r) = Ok c ∧
  row_items t r o f = (cell t r <$> p) ++ [cell t r c] ∧ length (row_items t r o f) = 4%nat.
Proof.
  intros Hge. pose proof Hs as (Ho & Hf & Ea & Ef). destruct (ages_oldest o Ho) as (_ & p & c & E & Ec).
  assert (f = 15) as E15 by lia. exists p, c. split; [done|].
  assert (c ∈ o) as Hc by (rewrite E; set_solver). split; [by apply row_column|]. split.
  { unfold oldest_col. by rewrite (rd8_at _ _ _ Ea), res_bind_ret. }
  assert (filter (used f) o = o) as Efull.
  { rewrite E15. clear -Hs. assert (∀ d, d ∈ o → used 15 d) as Hall by (intros d Hd; by apply flags_full, row_column).
    revert Hall. generalize o. intros l. induction l as [|d l IH]; intros Hall; [done|].
    rewrite filter_cons, decide_True by (apply Hall; by left). f_equal. apply IH. intros e He. apply Hall. by right. }
  unfold row_items. rewrite Efull. split; [|by rewrite length_fmap, Ho]. by rewrite E, fmap_app.
Qed.

(** The oldest item makes place for a new one. *)
Lemma replace_oldest_row key data : ¬ f < 15 → find_item key (row_items t r o f) = None →
  blen key = key_size t → blen data = data_size t →
  ∃ t', replace_oldest t (Z.of_nat r) key data = Ok t' ∧ row_only t t' r ∧
    row_rep t' r ((key, data) :: removelast (row_items t r o f)).
Proof.
  intros Hge Hnone Hk Hd. pose proof Hs as (Ho & Hf & Ea & Ef).
  destruct (full_row Hge) as (p & c & E & Hc & Eold & Eitems & _). unfold replace_oldest. rewrite Eold, res_bind_ret.
  destruct (put_item_spec t Hok r c key data Hr Hc Hk Hd) as (t1 & -> & Hro1 & Erv & Eff & Ecell & Eother).
  rewrite res_bind_ret. pose proof (same_frame_ok _ _ (proj1 Hro1) Hok) as Hok1.
  pose proof (fr_rows _ _ (proj1 Hro1)) as Erows.
  assert (row_state t1 r o f) as Hs1 by (unfold row_state; by rewrite Erv, Eff).
  destruct (touch_spec t1 Hok1 r o f c ltac:(by rewrite Erows) Hs1 Hc) as (t2 & -> & Hro2 & Hs2 & Hcell2).
  exists t2. split; [done|]. split; [by eapply row_only_trans|].
  assert (others c o = p) as Ep.
  { pose proof row_no_dup as Hno. rewrite E in Hno |- *. apply NoDup_app in Hno as (_ & Hno & _).
    unfold others. rewrite filter_app, filter_cons, decide_False, filter_nil, app_nil_r by tauto.
    apply others_notin. intros Hin. apply (Hno _ Hin). by left. }
  assert (∀ d, d ∈ p → 0 ≤ d < 4 ∧ d ≠ c) as Hp.
  { intros d Hd'. pose proof row_no_dup as Hno. rewrite E in Hno. apply NoDup_app in Hno as (_ & Hno & _). split.
    - apply row_column. rewrite E. set_solver.
    - intros ->. apply (Hno _ Hd'). by left. }
  rewrite Ep in Hs2. exists (c :: p), f. split; [done|].
  assert (row_items t2 r (c :: p) f = (key, data) :: (cell t r <$> p)) as Eitems2.
  { assert (f = 15) as -> by lia. unfold row_items. rewrite filter_cons, decide_True by (by apply flags_full).
    rewrite fmap_cons. f_equal; [etrans; [apply Hcell2|done]|].
    clear -Hp Eother Hcell2. induction p as [|d l IH]; [done|].
    destruct (Hp d) as [Hd Hne]; [by left|]. rewrite filter_cons, decide_True by (by apply flags_full).
    rewrite !fmap_cons. f_equal; [etrans; [apply Hcell2|by apply Eother]|]. apply IH. intros e He. apply Hp. by right. }
  rewrite Eitems2, Eitems, removelast_last. split; [done|]. rewrite fmap_cons. apply NoDup_cons. split.
  - apply find_item_None in Hnone. rewrite Eitems, fmap_app in Hnone. intros Hin. apply Hnone, elem_of_app. by left.
  - rewrite Eitems, fmap_app in Hnd. by apply NoDup_app in Hnd as (? & _).
Qed.

(** Removal; the free column becomes the oldest. *)
Lemma remove_col_row c : 0 ≤ c < 4 → used f c →
  ∃ t', remove_col t (Z.of_nat r) c = Ok t' ∧ row_only t t' r ∧
    row_rep t' r (filter (λ j : item, j.1 ≠ (cell t r c).1) (row_items t r o f)).
Proof.
  intros Hc Hu. pose proof Hs as (Ho & Hf & Ea & Ef). destruct (ages_table o c Ho Hc) as [_ Et].
  destruct (others_perm c o Ho Hc) as [_ Ho']. unfold remove_col.
  rewrite (age_spec t Hok r o f _ c _ Hs Hr Et Ho'), res_bind_ret. cbn [free_flag_field set_ages].
  rewrite (rd8_at _ _ _ Ef), res_bind_ret. destruct (flags_remove f c Hf Hc) as [Hf' Hused].
  assert (r < length (free_flag_field t))%nat as Hlen by (by apply lookup_lt_Some in Ef).
  rewrite wr8_at, res_bind_ret by (done || lia). eexists. split; [done|]. split.
  { eapply row_only_trans; [apply set_ages_only|]. apply (set_flags_only (set_ages t _)). }
  set (f' := Z.land f (Z.lnot (Z.shiftl 1 c))) in *. exists (others c o ++ [c]), f'.
  assert (row_items t r (others c o ++ [c]) f' = filter (λ j : item, j.1 ≠ (cell t r c).1) (row_items t r o f)) as Eitems.
  { unfold row_items. rewrite <-others_items; [|done|by apply used_in_row]. f_equal.
    rewrite filter_app, filter_cons, decide_False, filter_nil, app_nil_r by (rewrite Hused; tauto).
    rewrite filter_others. unfold others. rewrite !list_filter_filter. apply filter_ext_elem.
    intros d Hd%row_column. rewrite Hused by done. tauto. }
  split; [|split].
  - unfold row_state. cbn. split_and!; [done|lia|lia| |]; apply list_lookup_insert_eq; [by rewrite (ok_ages t Hok)|done].
  - rewrite <-Eitems. symmetry. by apply row_items_ext.
  - by apply NoDup_keys_filter.
Qed.
End row_items.

(** *** The stash *)

(** The place of a key, and the first free place. *)
Definition stash_place (key : bytes) (l : list (option item)) : option nat :=
  fst <$> list_find (λ x : option item, fst <$> x = Some key) l.
Definition free_place (l : list (option item)) : option nat := fst <$> list_find (λ x : option item, x = None) l.

(** A loop over the places of a list. *)
Lemma find_range {A} (P : A → Prop) (Q : Z → Prop) `{∀ x, Decision (P x)} `{∀ i, Decision (Q i)} (l : list A) a :
  (∀ i x, l !! i = Some x → Q (a + Z.of_nat i) ↔ P x) →
  match find_split Q (range a (length l)) with
  | Some (_, i) => ∃ n, i = a + Z.of_nat n ∧ fst <$> list_find P l = Some n
  | None => fst <$> list_find P l = None
  end.
Proof.
  revert a. induction l as [|x l IH]; intros a HQ; [done|]. cbn [length range find_split list_find].
  pose proof (HQ O x eq_refl) as HQ0. rewrite Z.add_0_r in HQ0. specialize (IH (a + 1)).
  destruct (decide (Q a)) as [HQa|HQa], (decide (P x)) as [HPx|HPx]; try tauto; [exists O; split; [lia|done]|].
  assert (∀ i y, l !! i = Some y → Q (a + 1 + Z.of_nat i) ↔ P y) as HQ'.
  { intros i y Hy. rewrite <-(HQ (S i) y Hy). by replace (a + 1 + Z.of_nat i) with (a + Z.of_nat (S i)) by lia. }
  specialize (IH HQ'). destruct (find_split Q _) as [ [p i]|]; cbn.
  - destruct IH as (n & -> & E). exists (S n). split; [lia|]. destruct (list_find P l) as [ [m y]|]; [|done]. by injection E as ->.
  - by destruct (list_find P l) as [ [m y]|].
Qed.

Definition same_rows (t t' : fht_table) : Prop := ∀ r, same_row t t' r.

Section stash.
Context (t : fht_table) (Hok : fht_ok t) (C : cache) (HC : cache_rep t C).
Implicit Types (r i : nat) (key : bytes).

Lemma stash_flag i x : c_stash C !! i = Some x →
  ∃ f, rd8 (stash_free_flag_field t) (Z.of_nat i) = Ok f ∧ (f = 0 ↔ x = None) ∧ (x = None ∨ x = Some (stash_cell t i)).
Proof.
  intros E. destruct (rep_stash _ _ HC i x E) as (f & Ef & ->). exists f. rewrite (rd8_at _ _ _ Ef).
  split; [done|]. case_decide; naive_solver.
Qed.

Lemma stash_size_eq : length (c_stash C) = Z.to_nat (stash_size t).
Proof. exact (rep_stash_size _ _ HC). Qed.

Lemma stash_key_at i : (i < Z.to_nat (stash_size t))%nat →
  rdn (stash_key_field t) (u32 (Z.of_nat i * key_size t)) (key_size t) = Ok (stash_cell t i).1 ∧
  rdn (stash_data_field t) (u32 (Z.of_nat i * data_size t)) (data_size t) = Ok (stash_cell t i).2.
Proof.
  intros Hi. destruct (ok_sizes t Hok), (ok_fit t Hok) as (_ & _ & Hk & Hd).
  destruct (stash_off_eq t i (key_size t) Hi) as [-> ?]; [lia|done|].
  destruct (stash_off_eq t i (data_size t) Hi) as [-> ?]; [lia|done|].
  rewrite !rdn_slot by (rewrite ?(ok_stash_keys t Hok), ?(ok_stash_data t Hok); lia). done.
Qed.

Lemma find_stash_spec key : blen key = key_size t → find_stash t key = Ok (Z.of_nat <$> stash_place key (c_stash C)).
Proof.
  intros Hk. set (Q z := fst <$> (default None (c_stash C !! Z.to_nat z)) = Some key).
  unfold find_stash. rewrite (for_each_find Q).
  - rewrite <-stash_size_eq, res_bind_ret. unfold stash_place.
    assert (∀ i x, c_stash C !! i = Some x → Q (0 + Z.of_nat i) ↔ fst <$> x = Some key) as HQ
      by (intros i x Hx; unfold Q; rewrite Z.add_0_l, Nat2Z.id, Hx; done).
    pose proof (find_range (λ x : option item, fst <$> x = Some key) Q (c_stash C) 0 HQ) as H.
    destruct (find_split Q _) as [ [p i]|]; [destruct H as (n & -> & ->)|rewrite H]; done.
  - intros i (Hi0 & Hi)%elem_of_range. rewrite Z.add_0_l, Z2Nat.id in Hi by lia.
    destruct (lookup_lt_is_Some_2 (c_stash C) (Z.to_nat i)) as [x Ex]; [rewrite stash_size_eq; lia|].
    assert ((Z.to_nat i < Z.to_nat (stash_size t))%nat) as Hlt by lia.
    destruct (stash_flag _ x Ex) as (f & Ef & Hf0 & Hx). rewrite Z2Nat.id in Ef by done.
    destruct (stash_key_at _ Hlt) as [Erd _]. rewrite Z2Nat.id in Erd by done.
    unfold stash_matches. rewrite Ef, res_bind_ret. assert (Q i ↔ fst <$> x = Some key) as HQ by (unfold Q; by rewrite Ex).
    destruct (decide (f = 0)) as [E0|E0].
    + rewrite res_bind_ret. rewrite decide_False by (rewrite HQ; assert (x = None) as -> by tauto; done). done.
    + destruct Hx as [->| ->]; [tauto|]. rewrite Erd, res_bind_ret, (rdn_whole key), res_bind_ret by done.
      rewrite res_bind_ret. cbn [fmap option_fmap option_map] in HQ.
      case_bool_decide as E; [rewrite decide_True by (rewrite HQ; by f_equal)|rewrite decide_False by (rewrite HQ; congruence)]; done.
Qed.

Lemma free_stash_spec : free_stash t = Ok (Z.of_nat <$> free_place (c_stash C)).
Proof.
  set (Q z := default None (c_stash C !! Z.to_nat z) = None).
  unfold free_stash. rewrite (for_each_find Q).
  - rewrite <-stash_size_eq, res_bind_ret. unfold free_place.
    assert (∀ i x, c_stash C !! i = Some x → Q (0 + Z.of_nat i) ↔ x = None) as HQ
      by (intros i x Hx; unfold Q; rewrite Z.add_0_l, Nat2Z.id, Hx; done).
    pose proof (find_range (λ x : option item, x = None) Q (c_stash C) 0 HQ) as H.
    destruct (find_split Q _) as [ [p i]|]; [destruct H as (n & -> & ->)|rewrite H]; done.
  - intros i (Hi0 & Hi)%elem_of_range. rewrite Z.add_0_l, Z2Nat.id in Hi by lia.
    destruct (lookup_lt_is_Some_2 (c_stash C) (Z.to_nat i)) as [x Ex]; [rewrite stash_size_eq; lia|].
    destruct (stash_flag _ x Ex) as (f & Ef & Hf0 & _). rewrite Z2Nat.id in Ef by done.
    rewrite Ef, res_bind_ret. assert (Q i ↔ x = None) as HQ by (unfold Q; by rewrite Ex).
    destruct (decide (f = 0)), (decide (Q i)); tauto.
Qed.

Definition set_place (i : nat) (x : option item) (next : Z) : cache := Cache (c_rows C) (<[i := x]> (c_stash C)) next.

(** The oldest item of a row goes to place [i]. *)
Lemma stash_oldest_spec r i c : (r < Z.to_nat (table_rows t))%nat → (i < Z.to_nat (stash_size t))%nat → 0 ≤ c < 4 →
  oldest_col t (Z.of_nat r) = Ok c →
  ∃ t', stash_oldest t (Z.of_nat r) (Z.of_nat i) = Ok t' ∧ same_frame t t' ∧ same_rows t t' ∧
    cache_rep t' (set_place i (Some (cell t r c)) ((c_next C + 1) mod stash_size t)).
Proof.
  intros Hr Hi Hc Ec. destruct (ok_sizes t Hok) as [Hks Hds], (ok_fit t Hok) as (Hfk & Hfd & Hsk & Hsd).
  unfold stash_oldest. rewrite Ec, res_bind_ret.
  destruct (col_off_eq t Hok r c (key_size t)) as [-> Hok1]; [done..|lia|done|].
  rewrite (rdn_slot (key_size t) (key_field t)), res_bind_ret by (rewrite ?(ok_key_field t Hok); lia).
  destruct (stash_off_eq t i (key_size t) Hi) as [-> Hsk1]; [lia|done|].
  destruct (slot_room (key_size t) (key_field t) (4 * Z.of_nat r + c)) as (_ & _ & _ & _ & Hbk); [lia..|by rewrite (ok_key_field t Hok)|].
  destruct (wrn_slot (key_size t) (stash_key_field t) (Z.of_nat i) (slot (key_size t) (key_field t) (4 * Z.of_nat r + c)))
    as (kf & -> & Hlk & Ek & Hok'); [lia..|by rewrite (ok_stash_keys t Hok)|done|]. rewrite res_bind_ret.
  destruct (col_off_eq t Hok r c (data_size t)) as [-> Hod1]; [done..|lia|done|].
  rewrite (rdn_slot (data_size t) (data_field t)), res_bind_ret by (rewrite ?(ok_data_field t Hok); lia).
  destruct (stash_off_eq t i (data_size t) Hi) as [-> Hsd1]; [lia|done|].
  destruct (slot_room (data_size t) (data_field t) (4 * Z.of_nat r + c)) as (_ & _ & _ & _ & Hbd); [lia..|by rewrite (ok_data_field t Hok)|].
  destruct (wrn_slot (data_size t) (stash_data_field t) (Z.of_nat i) (slot (data_size t) (data_field t) (4 * Z.of_nat r + c)))
    as (df & -> & Hld & Ed & Hod'); [lia..|by rewrite (ok_stash_data t Hok)|done|]. rewrite res_bind_ret.
  assert (i < length (stash_free_flag_field t))%nat as Hlf by (by rewrite (ok_stash_flags t Hok)).
  rewrite wr8_at, res_bind_ret by (done || lia). eexists. split; [done|].
  split; [split; cbn; rewrite ?length_insert; split_and?; done|]. split; [done|].
  destruct (rep_next _ _ HC) as (En & Hn0 & Hn1).
  assert (Z.land (u32 (stash_index t + 1)) (u32 (stash_size t - 1)) = (stash_index t + 1) mod stash_size t) as Enext.
  { destruct (ok_stash t Hok) as [E|(k & Hk & E)]; [lia|]. assert (stash_size t < 4294967296) by (rewrite E; apply (Z.pow_lt_mono_r 2 k 32); lia).
    unfold u32. rewrite !Z.mod_small by lia. rewrite E.
    replace (2 ^ k - 1) with (Z.ones k) by (rewrite Z.ones_equiv; lia). by rewrite Z.land_ones by lia. }
  split; cbn; [exact (rep_rows _ _ HC)|..].
  - intros r' row E. apply (row_rep_same t); [done|by apply (rep_row _ _ HC)].
  - rewrite length_insert. exact stash_size_eq.
  - intros j x E. destruct (decide (j = i)) as [->|Hne].
    + rewrite list_lookup_insert_eq in E by (rewrite stash_size_eq; lia). injection E as <-. exists 1. cbn.
      rewrite list_lookup_insert_eq by done. split; [done|]. unfold stash_cell. cbn. by rewrite Ek, Ed.
    + rewrite list_lookup_insert_ne in E by done. destruct (rep_stash _ _ HC j x E) as (f & Ef & ->). exists f. cbn.
      rewrite list_lookup_insert_ne by done. split; [done|]. unfold stash_cell. cbn. by rewrite Hok', Hod' by lia.
  - rewrite Enext, En. split; [done|]. split; [apply Z.mod_pos_bound; lia|]. intros ?. apply Z.mod_pos_bound. lia.
Qed.

Lemma clear_stash_flag_spec i : (i < Z.to_nat (stash_size t))%nat →
  ∃ t', clear_stash_flag t (Z.of_nat i) = Ok t' ∧ same_frame t t' ∧ same_rows t t' ∧
    cache_rep t' (set_place i None (c_next C)).
Proof.
  intros Hi. assert (i < length (stash_free_flag_field t))%nat as Hlf by (by rewrite (ok_stash_flags t Hok)).
  unfold clear_stash_flag. rewrite wr8_at, res_bind_ret by (done || lia). eexists. split; [done|].
  split; [split; cbn; rewrite ?length_insert; split_and?; done|]. split; [done|].
  split; cbn; [exact (rep_rows _ _ HC)|..].
  - intros r' row E. apply (row_rep_same t); [done|by apply (rep_row _ _ HC)].
  - rewrite length_insert. exact stash_size_eq.
  - intros j x E. destruct (decide (j = i)) as [->|Hne].
    + rewrite list_lookup_insert_eq in E by (rewrite stash_size_eq; lia). injection E as <-. exists 0. cbn.
      by rewrite list_lookup_insert_eq by done.
    + rewrite list_lookup_insert_ne in E by done. destruct (rep_stash _ _ HC j x E) as (f & Ef & ->). exists f. cbn.
      by rewrite list_lookup_insert_ne by done.
  - exact (rep_next _ _ HC).
Qed.
End stash.

(** *** Locks *)

Definition alike (t t' : fht_table) : Prop :=
  table_rows t' = table_rows t ∧ key_size t' = key_size t ∧ data_size t' = data_size t ∧
  stash_size t' = stash_size t ∧ hash_function t' = hash_function t.

#[export] Instance alike_trans : Transitive alike.
Proof. intros t1 t2 t3 (?&?&?&?&?) (?&?&?&?&?). unfold alike. split_and!; congruence. Qed.

Lemma same_frame_alike t t' : same_frame t t' → alike t t'.
Proof. intros [? (?&?&?) ? _ _ _]. by unfold alike. Qed.

Lemma alike_place t t' key : alike t t' → place t' key = place t key ∧ key_row t' key = key_row t key.
Proof. intros (Er & Ek & _ & _ & Eh). unfold place, key_row. by rewrite Er, Ek, Eh. Qed.

(** Waiting in the loop ends at the first turn, or never: the other threads that could
    release the lock are not there. *)
Lemma spin_lock_free locks (i : nat) n : locks !! i = Some 0 → spin_lock (S n) locks (Z.of_nat i) = Ok (<[i := 1]> locks).
Proof.
  intros E. unfold spin_lock. apply loop_exit. unfold spin_step. rewrite (rd8_at _ _ _ E), res_bind_ret.
  apply lookup_lt_Some in E. by rewrite wr8_at, res_bind_ret by (done || lia).
Qed.

Lemma spin_lock_held locks (i : nat) v n : locks !! i = Some v → v ≠ 0 → spin_lock n locks (Z.of_nat i) = OutOfFuel.
Proof.
  intros E Hv. apply (loop_diverges _ (λ l, ∃ w, l !! i = Some w ∧ w ≠ 0)); [|by eauto]. intros l (w & El & Hw).
  unfold spin_step. rewrite (rd8_at _ _ _ El), res_bind_ret. apply lookup_lt_Some in El.
  rewrite wr8_at, res_bind_ret, decide_False by (done || lia). eexists. split; [done|]. exists 1.
  by rewrite list_lookup_insert_eq.
Qed.

(** The state between two calls, for a table with the sizes of [t0]. *)
Definition good (t0 t : fht_table) (C : cache) : Prop := alike t0 t ∧ fht_ok t ∧ cache_rep t C ∧ unlocked t.

Lemma set_locks_rep t C a b : cache_rep t C → cache_rep (set_locks t a b) C.
Proof. intros [H1 H2 H3 H4 H5]. by split. Qed.

Lemma set_locks_ok t a b : length a = length (lock_table t) → length b = length (lock_stash t) →
  fht_ok t → fht_ok (set_locks t a b).
Proof. intros Ea Eb []. split; cbn; rewrite ?Ea, ?Eb; done. Qed.

Lemma row_locked t0 t C (r : nat) : good t0 t C → (r < Z.to_nat (table_rows t))%nat →
  ∃ t1, lock_row t (Z.of_nat r) = Ok t1 ∧ t1 = set_locks t (lock_table t1) (lock_stash t) ∧ fht_ok t1 ∧ cache_rep t1 C ∧
    ∀ t2 C2, same_frame t1 t2 → cache_rep t2 C2 → ∃ t3, unlock_row t2 (Z.of_nat r) = Ok t3 ∧ good t0 t3 C2 ∧
      data_field t3 = data_field t2 ∧ stash_data_field t3 = stash_data_field t2.
Proof.
  intros (Hal & Hok & HC & Hul & Hus) Hr. pose proof (ok_locks t Hok) as [Hl _].
  destruct (lookup_lt_is_Some_2 (lock_table t) r) as [v Ev]; [by rewrite Hl|]. pose proof (Hul _ _ Ev) as ->.
  unfold lock_row. rewrite (spin_lock_free _ _ 0 Ev), res_bind_ret. eexists. split; [done|]. split; [done|].
  assert (fht_ok (set_locks t (<[r:=1]> (lock_table t)) (lock_stash t))) as Hok1
    by (apply set_locks_ok; [by rewrite length_insert|done|done]).
  split; [done|]. split; [by apply set_locks_rep|]. intros t2 C2 Hfr HC2. pose proof (fr_locks _ _ Hfr) as [El1 El2].
  cbn in El1, El2. unfold unlock_row. rewrite El1. rewrite wr8_at, res_bind_ret by (rewrite ?length_insert, ?Hl; done || lia).
  eexists. split; [done|]. split; [|done]. split; [etrans; [exact Hal|exact (same_frame_alike _ _ Hfr)]|].
  split; [|split; [by apply set_locks_rep|]].
  - apply set_locks_ok; [by rewrite El1, !length_insert|done|]. by eapply same_frame_ok.
  - split; cbn; [|by rewrite El2]. rewrite list_insert_insert_eq, list_insert_id by done. done.
Qed.

Lemma stash_locked t : fht_ok t → lock_stash t = [0] →
  lock_the_stash t = Ok (set_locks t (lock_table t) [1]) ∧
  ∀ t2, lock_stash t2 = [1] → unlock_stash t2 = Ok (set_locks t2 (lock_table t2) [0]).
Proof.
  intros Hok E. split.
  - unfold lock_the_stash. rewrite E. change 0 with (Z.of_nat 0) at 2. by rewrite (spin_lock_free [0] 0 0 eq_refl).
  - intros t2 E2. unfold unlock_stash. by rewrite E2.
Qed.

(** ** The promise *)

(** The functions on [cache]; [at_row] gives the row of a key. *)
Section cache.
Context (at_row : bytes → nat).
Implicit Types (C : cache) (key data : bytes).

Definition c_row (C : cache) (key : bytes) : list item := default [] (c_rows C !! at_row key).
Definition c_set (C : cache) (key : bytes) (row : list item) : cache := set_row C (at_row key) row.

(** The oldest item of a full row leaves. *)
Definition c_put (C : cache) (i : item) : cache :=
  c_set C i.1 (i :: (if decide (length (c_row C i.1) < 4)%nat then c_row C i.1 else removelast (c_row C i.1))).

Definition cache_get (C : cache) (key : bytes) : cache * option bytes :=
  match find_item key (c_row C key) with
  | Some i => (c_set C key (renew i (c_row C key)), Some i.2)
  | None => (C, None)
  end.

Definition cache_get_stash (C : cache) (key : bytes) : cache * option bytes :=
  match find_item key (c_row C key) with
  | Some i => (c_set C key (renew i (c_row C key)), Some i.2)
  | None => (C, j ← stash_place key (c_stash C); x ← c_stash C !! j; snd <$> x)
  end.

Definition cache_insert (C : cache) (key data : bytes) : cache * (Z * option item) :=
  match find_item key (c_row C key) with
  | Some i => (c_set C key (renew i (c_row C key)), (FHT_INSERT_FAILED, None))
  | None =>
      if decide (length (c_row C key) < 4)%nat then (c_put C (key, data), (FHT_INSERT_OK, None))
      else (c_put C (key, data), (FHT_INSERT_LOST, last (c_row C key)))
  end.

Definition cache_insert_wr (C : cache) (key data : bytes) : cache * Z :=
  match find_item key (c_row C key) with
  | Some i => (c_set C key (renew i (c_row C key)), FHT_INSERT_FAILED)
  | None =>
      if decide (length (c_row C key) < 4)%nat then (c_put C (key, data), FHT_INSERT_OK) else (C, FHT_INSERT_FULL)
  end.

(** The stash is a ring: the next place is taken, whether it is free or not. *)
Definition c_stash_next (C : cache) (x : option item) : cache :=
  Cache (c_rows C) (<[Z.to_nat (c_next C) := x]> (c_stash C)) ((c_next C + 1) mod Z.of_nat (length (c_stash C))).

Definition cache_insert_stash (C : cache) (key data : bytes) : cache * (Z * option item) :=
  match find_item key (c_row C key) with
  | Some i => (c_set C key (renew i (c_row C key)), (FHT_INSERT_FAILED, None))
  | None =>
      match stash_place key (c_stash C) with
      | Some _ => (C, (FHT_INSERT_FAILED, None))
      | None =>
          if decide (length (c_row C key) < 4)%nat then (c_put C (key, data), (FHT_INSERT_OK, None))
          else match c_stash C !! Z.to_nat (c_next C) with
               | None => (c_put C (key, data), (FHT_INSERT_LOST, last (c_row C key)))
               | Some None => (c_put (c_stash_next C (last (c_row C key))) (key, data), (FHT_INSERT_STASH_OK, None))
               | Some (Some i) => (c_put (c_stash_next C (last (c_row C key))) (key, data), (FHT_INSERT_STASH_LOST, Some i))
               end
      end
  end.

(** Here a free place of the stash is looked for, and the ring goes on all the same. *)
Definition cache_insert_stash_wr (C : cache) (key data : bytes) : cache * Z :=
  match find_item key (c_row C key) with
  | Some i => (c_set C key (renew i (c_row C key)), FHT_INSERT_FAILED)
  | None =>
      match stash_place key (c_stash C) with
      | Some _ => (C, FHT_INSERT_FAILED)
      | None =>
          if decide (length (c_row C key) < 4)%nat then (c_put C (key, data), FHT_INSERT_OK)
          else match free_place (c_stash C) with
               | Some j => (c_put (Cache (c_rows C) (<[j := last (c_row C key)]> (c_stash C))
                              ((c_next C + 1) mod Z.of_nat (length (c_stash C)))) (key, data), FHT_INSERT_STASH_OK)
               | None => (C, FHT_INSERT_FULL)
               end
      end
  end.

Definition c_drop (key : bytes) (row : list item) : list item := filter (λ j : item, j.1 ≠ key) row.

Definition cache_remove (C : cache) (key : bytes) : cache * Z :=
  match find_item key (c_row C key) with
  | Some i => (c_set C key (c_drop key (c_row C key)), 0)
  | None => (C, 1)
  end.

Definition cache_remove_stash (C : cache) (key : bytes) : cache * Z :=
  match find_item key (c_row C key) with
  | Some i => (c_set C key (c_drop key (c_row C key)), 0)
  | None =>
      match stash_place key (c_stash C) with
      | Some j => (Cache (c_rows C) (<[j := None]> (c_stash C)) (c_next C), 0)
      | None => (C, 1)
      end
  end.

Definition cache_clear (C : cache) : cache :=
  Cache ((λ _, []) <$> c_rows C) ((λ _, None) <$> c_stash C) (c_next C).
End cache.

(** *** Steps of the functions on the promise *)

Section steps.
Context (t : fht_table) (Hok : fht_ok t) (C : cache) (HC : cache_rep t C).
Context (key : bytes) (Hk : blen key = key_size t) (at_row : bytes → nat) (Hat : at_row key = place t key).
Let r := at_row key.
Let row := c_row at_row C key.

Lemma place_row : (r < Z.to_nat (table_rows t))%nat ∧ c_rows C !! r = Some row.
Proof.
  destruct (key_row_place t Hok key Hk) as [_ Hr]. rewrite <-Hat in Hr. split; [done|]. unfold row, c_row.
  destruct (lookup_lt_is_Some_2 (c_rows C) r) as [x Ex]; [by rewrite (rep_rows _ _ HC)|]. unfold r in Ex. by rewrite Ex.
Qed.

Lemma row_view : ∃ o f, row_state t r o f ∧ NoDup (row_items t r o f).*1 ∧ row = row_items t r o f ∧ rd8 (free_flag_field t) (Z.of_nat r) = Ok f.
Proof.
  destruct place_row as [Hr E]. destruct (rep_row _ _ HC r row E) as (o & f & Hs & Erow & Hnd). exists o, f.
  split; [done|]. rewrite <-Erow. split_and!; [done..|]. apply rd8_at. by destruct Hs as (_ & _ & _ & ?).
Qed.

Lemma rep_step (m : res fht_table) row' : (∃ t', m = Ok t' ∧ row_only t t' r ∧ row_rep t' r row') →
  ∃ t', m = Ok t' ∧ row_only t t' r ∧ cache_rep t' (c_set at_row C key row').
Proof. intros (t' & -> & Hro & Hrow). exists t'. split_and!; try done; try apply Hro. by apply (rep_update t). Qed.

Lemma step_find : ∃ x, find_col t (Z.of_nat r) key = Ok x ∧
  match x with
  | Some c => ∃ i, find_item key row = Some i ∧ cell t r c = i ∧ i.1 = key ∧ 0 ≤ c < 4 ∧
      (∃ t', touch t (Z.of_nat r) c = Ok t' ∧ row_only t t' r ∧ cache_rep t' (c_set at_row C key (renew i row)) ∧ cell t' r c = i) ∧
      (∃ t', remove_col t (Z.of_nat r) c = Ok t' ∧ row_only t t' r ∧ cache_rep t' (c_set at_row C key (c_drop key row)))
  | None => find_item key row = None
  end.
Proof.
  destruct place_row as [Hr _]. destruct row_view as (o & f & Hs & Hnd & Erow & _). rewrite Erow in *.
  destruct (find_col_item t Hok r Hr o f Hs Hnd key Hk) as (x & Ex & Hx). exists x. split; [done|].
  destruct x as [c|]; [|done]. destruct Hx as (Hc & Hu & Hkey & Efind). exists (cell t r c).
  split_and!; try done; try apply Hc.
  - destruct (touch_row t Hok r Hr o f Hs Hnd c Hc Hu) as (t' & -> & Hro & Hrow & Hcell). exists t'.
    split_and!; try done; try apply Hro. by apply (rep_update t).
  - apply rep_step. unfold c_drop. rewrite <-Hkey. by apply (remove_col_row t Hok r Hr o f Hs Hnd c).
Qed.

Lemma step_insert : find_item key row = None →
  ∃ f, rd8 (free_flag_field t) (Z.of_nat r) = Ok f ∧
  if decide (f < FHT_COL_FULL) then
    (length row < 4)%nat ∧ ∀ data, blen data = data_size t →
      ∃ t', insert_free t (Z.of_nat r) key data = Ok t' ∧ row_only t t' r ∧ cache_rep t' (c_put at_row C (key, data))
  else
    ¬ (length row < 4)%nat ∧
    (∃ c, oldest_col t (Z.of_nat r) = Ok c ∧ 0 ≤ c < 4 ∧ last row = Some (cell t r c)) ∧
    ∀ data, blen data = data_size t →
      ∃ t', replace_oldest t (Z.of_nat r) key data = Ok t' ∧ row_only t t' r ∧ cache_rep t' (c_put at_row C (key, data)).
Proof.
  intros Hnone. destruct place_row as [Hr _]. destruct row_view as (o & f & Hs & Hnd & Erow & Ef). exists f. split; [done|].
  unfold FHT_COL_FULL, c_put. cbn [fst]. fold row. rewrite Erow in *. case_decide as Hlt.
  - assert (blen (replicate (Z.to_nat (data_size t)) 0) = data_size t) as Hd0
      by (unfold blen; rewrite length_replicate; destruct (ok_sizes t Hok); lia).
    destruct (insert_free_row t Hok r Hr o f Hs Hnd key _ Hlt Hnone Hk Hd0) as [Hlen _]. split; [done|]. intros data Hd.
    rewrite decide_True by done. apply rep_step. by apply (insert_free_row t Hok r Hr o f Hs Hnd).
  - destruct (full_row t Hok r Hr o f Hs Hnd Hlt) as (p & c & E & Hc & Eold & Eitems & Hlen).
    rewrite Hlen. split; [lia|]. split; [exists c; split_and!; try done; try lia; by rewrite Eitems, last_snoc|].
    intros data Hd. rewrite decide_False by lia. apply rep_step. by apply (replace_oldest_row t Hok r Hr o f Hs Hnd).
Qed.
End steps.

Section calls.
Context (t0 : fht_table).
Implicit Types (t : fht_table) (C : cache) (key data : bytes).
Let at_row := place t0.

(** Up to the lock of the row of a key, and from its release on. *)
Lemma enter t C key : good t0 t C → blen key = key_size t0 →
  key_row t key = Ok (Z.of_nat (at_row key)) ∧
  ∃ t1, lock_row t (Z.of_nat (at_row key)) = Ok t1 ∧ fht_ok t1 ∧ cache_rep t1 C ∧ blen key = key_size t1 ∧
    at_row key = place t1 key ∧ alike t0 t1 ∧ lock_stash t1 = [0] ∧
    ∀ t2 C2, same_frame t1 t2 → cache_rep t2 C2 → ∃ t3, unlock_row t2 (Z.of_nat (at_row key)) = Ok t3 ∧ good t0 t3 C2 ∧
      data_field t3 = data_field t2 ∧ stash_data_field t3 = stash_data_field t2.
Proof.
  intros Hg Hk. pose proof Hg as (Hal & Hok & HC & Hul & Hus). pose proof Hal as (_ & Eks & _).
  destruct (alike_place _ _ key Hal) as [Ep Er]. unfold at_row. rewrite <-Ep.
  destruct (key_row_place t Hok key) as [Ekr Hr]; [by rewrite Eks|]. split; [done|].
  destruct (row_locked t0 t C (place t key) Hg Hr) as (t1 & El & E1 & Hok1 & HC1 & Hend). exists t1.
  split; [done|]. split; [done|]. split; [done|]. split; [rewrite E1; cbn; by rewrite Eks|].
  split; [by rewrite E1|]. split; [rewrite E1; exact Hal|]. split; [by rewrite E1|done].
Qed.

Lemma set_locks_id t : set_locks t (lock_table t) (lock_stash t) = t.
Proof. by destruct t. Qed.

(** The stash is searched under its lock. *)
Lemma stash_peek t C key : fht_ok t → cache_rep t C → lock_stash t = [0] → blen key = key_size t →
  ∃ t', lock_the_stash t = Ok t' ∧ find_stash t' key = Ok (Z.of_nat <$> stash_place key (c_stash C)) ∧
    unlock_stash t' = Ok t ∧ fht_ok t' ∧ cache_rep t' C ∧ lock_stash t' = [1].
Proof.
  intros Hok HC Hl Hk. destruct (stash_locked t Hok Hl) as [El Eu]. exists (set_locks t (lock_table t) [1]).
  split; [done|]. split; [exact (find_stash_spec t Hok C HC key Hk)|]. split.
  - rewrite Eu by done. f_equal. etrans; [|apply (set_locks_id t)]. by rewrite Hl.
  - split_and!; [by apply set_locks_ok; rewrite ?Hl|by apply set_locks_rep|done].
Qed.

(** Data behind a pointer that a look-up gives. *)
Definition deref_item (t : fht_table) (p : item_ptr) : res bytes :=
  match p with
  | InTable off => rdn (data_field t) off (data_size t)
  | InStash off => rdn (stash_data_field t) off (data_size t)
  end.

Lemma deref_cell t (r : nat) c : fht_ok t → (r < Z.to_nat (table_rows t))%nat → 0 ≤ c < 4 →
  deref_item t (InTable (col_off (Z.of_nat r) c (data_size t))) = Ok (cell t r c).2.
Proof.
  intros Hok Hr Hc. destruct (ok_sizes t Hok) as [_ Hd], (ok_fit t Hok) as (_ & Hfit & _). cbn.
  destruct (col_off_eq t Hok r c (data_size t)) as [-> ?]; [done..|lia|done|].
  by rewrite rdn_slot by (rewrite ?(ok_data_field t Hok); lia).
Qed.

Lemma at_row_bound t C key : good t0 t C → blen key = key_size t0 → (at_row key < Z.to_nat (table_rows t))%nat.
Proof.
  intros (Hal & Hok & _) Hk. pose proof Hal as (_ & Eks & _). unfold at_row. destruct (alike_place _ _ key Hal) as [<- _].
  apply key_row_place; [done|]. by rewrite Eks.
Qed.

(** What a call leaves: a good state, and a value. *)
Definition leaves {A} (m : res (fht_table * A)) (C : cache) (Q : fht_table → A → Prop) : Prop :=
  ∃ t' a, m = Ok (t', a) ∧ good t0 t' C ∧ Q t' a.

Lemma leave {A} t1 t2 C2 key (a : A) (Q : fht_table → A → Prop) :
  (∀ t2 C2, same_frame t1 t2 → cache_rep t2 C2 → ∃ t3, unlock_row t2 (Z.of_nat (at_row key)) = Ok t3 ∧ good t0 t3 C2 ∧
      data_field t3 = data_field t2 ∧ stash_data_field t3 = stash_data_field t2) →
  same_frame t1 t2 → cache_rep t2 C2 →
  (∀ t3, good t0 t3 C2 → data_field t3 = data_field t2 → stash_data_field t3 = stash_data_field t2 → Q t3 a) →
  leaves (t3 ← unlock_row t2 (Z.of_nat (at_row key)); Ok (t3, a)) C2 Q.
Proof. intros Hend Hfr HC HQ. destruct (Hend t2 C2 Hfr HC) as (t3 & -> & Hg & Ed & Es). exists t3, a. auto. Qed.

Lemma same_frame_refl t : same_frame t t.
Proof. by split. Qed.

Lemma fht_get_data_spec t C key : good t0 t C → blen key = key_size t0 →
  leaves (fht_get_data t key) (cache_get at_row C key).1
    (λ t' p, match p with
             | Some p => (Some <$> deref_item t' p) = Ok (cache_get at_row C key).2
             | None => (cache_get at_row C key).2 = None
             end).
Proof.
  intros Hg Hk. destruct (enter t C key Hg Hk) as (Er & t1 & El & Hok1 & HC1 & Hk1 & Hat & Hal & Hls & Hend).
  unfold fht_get_data, cache_get. rewrite Er, res_bind_ret, El, res_bind_ret.
  destruct (step_find t1 Hok1 C HC1 key Hk1 at_row Hat) as (x & -> & Hx). rewrite res_bind_ret. destruct x as [c|].
  - destruct Hx as (i & -> & Ecell & Ekey & Hc & (t2 & -> & Hro & HC2 & Ecell2) & _). rewrite res_bind_ret. cbn [fst snd].
    pose proof (same_frame_alike _ _ (proj1 Hro)) as Hal2.
    assert (same_frame t1 t2) as Hfr by apply Hro.
    destruct (Hend t2 _ Hfr HC2) as (t3 & -> & Hg3 & Ed & _). rewrite res_bind_ret. eexists _, _. split; [done|].
    split; [done|]. rewrite deref_cell; [|by apply Hg3|by eapply at_row_bound|done]. cbn. do 2 f_equal.
    rewrite <-Ecell2. unfold cell. cbn. rewrite Ed. destruct Hg3 as ((_ & _ & -> & _) & _).
    destruct Hal2 as (_ & _ & -> & _). destruct Hal as (_ & _ & -> & _). done.
  - rewrite Hx. apply (leave t1); [done|apply same_frame_refl|done|done].
Qed.

(** Memory for a lost key or data, and what is in it afterwards. *)
Definition room (l : option bytes) (n : Z) : Prop := match l with None => True | Some m => blen m = n end.
Definition stored (l x : option bytes) : option bytes := match l with None => None | Some m => Some (default m x) end.

Lemma save_lost_spec l field off n x : room l n → rdn field off n = Ok x → blen x = n →
  save_lost l field off n = Ok (stored l (Some x)).
Proof. intros Hl Ex Hn. destruct l as [m|]; [|done]. cbn in *. rewrite Ex, res_bind_ret. by rewrite wrn_whole by congruence. Qed.

Lemma save_item_spec t (r : nat) c kl dl : fht_ok t → (r < Z.to_nat (table_rows t))%nat → 0 ≤ c < 4 →
  room kl (key_size t) → room dl (data_size t) →
  save_item t (Z.of_nat r) c kl dl = Ok (stored kl (Some (cell t r c).1), stored dl (Some (cell t r c).2)).
Proof.
  intros Hok Hr Hc Hkl Hdl. destruct (ok_sizes t Hok) as [Hks Hds], (ok_fit t Hok) as (Hfk & Hfd & _). unfold save_item.
  destruct (col_off_eq t Hok r c (key_size t)) as [-> Hk1]; [done..|lia|done|].
  destruct (slot_room (key_size t) (key_field t) (4 * Z.of_nat r + c)) as (_ & _ & _ & _ & Hbk); [lia..|by rewrite (ok_key_field t Hok)|].
  rewrite (save_lost_spec kl _ _ _ (cell t r c).1); [|done|by rewrite rdn_slot by (rewrite ?(ok_key_field t Hok); lia)|done].
  destruct (col_off_eq t Hok r c (data_size t)) as [-> Hd1]; [done..|lia|done|].
  destruct (slot_room (data_size t) (data_field t) (4 * Z.of_nat r + c)) as (_ & _ & _ & _ & Hbd); [lia..|by rewrite (ok_data_field t Hok)|].
  rewrite (save_lost_spec dl _ _ _ (cell t r c).2); [|done|by rewrite rdn_slot by (rewrite ?(ok_data_field t Hok); lia)|done].
  done.
Qed.

(** What an insertion reports. *)
Definition reports (kl dl : option bytes) (out : Z * option item) (t' : fht_table) (x : Z * (option bytes * option bytes)) : Prop :=
  x = (out.1, (stored kl (fst <$> out.2), stored dl (snd <$> out.2))).

Lemma stored_None l : stored l None = l.
Proof. by destruct l. Qed.

Lemma reports_nothing kl dl z t' : reports kl dl (z, None) t' (z, (kl, dl)).
Proof. unfold reports. cbn. by rewrite !stored_None. Qed.

Lemma fht_insert_spec t C key data kl dl : good t0 t C → blen key = key_size t0 → blen data = data_size t0 →
  room kl (key_size t0) → room dl (data_size t0) →
  leaves (fht_insert t key data kl dl) (cache_insert at_row C key data).1 (reports kl dl (cache_insert at_row C key data).2).
Proof.
  intros Hg Hk Hd Hkl Hdl. destruct (enter t C key Hg Hk) as (Er & t1 & El & Hok1 & HC1 & Hk1 & Hat & Hal & Hls & Hend).
  pose proof Hal as (_ & Eks & Eds & _). rewrite <-Eks in Hkl. rewrite <-Eds in Hd, Hdl.
  unfold fht_insert, cache_insert. rewrite Er, res_bind_ret, El, res_bind_ret.
  destruct (step_find t1 Hok1 C HC1 key Hk1 at_row Hat) as (x & -> & Hx). rewrite res_bind_ret. destruct x as [c|].
  - destruct Hx as (i & -> & _ & _ & _ & (t2 & -> & Hro & HC2 & _) & _). rewrite res_bind_ret.
    apply (leave t1); [done|apply Hro|done|]. intros. apply reports_nothing.
  - rewrite Hx. destruct (step_insert t1 Hok1 C HC1 key Hk1 at_row Hat Hx) as (f & -> & Hf). rewrite res_bind_ret.
    case_decide as Hlt.
    + destruct Hf as [Hlen Hins]. rewrite decide_True by done. destruct (Hins data Hd) as (t2 & -> & Hro & HC2).
      rewrite res_bind_ret. apply (leave t1); [done|apply Hro|done|]. intros. apply reports_nothing.
    + destruct Hf as (Hlen & (c & -> & Hc & Elast) & Hins). rewrite decide_False by done.
      assert (at_row key < Z.to_nat (table_rows t1))%nat as Hr by (rewrite Hat; by apply key_row_place).
      rewrite res_bind_ret, save_item_spec, res_bind_ret by done. destruct (Hins data Hd) as (t2 & -> & Hro & HC2).
      rewrite res_bind_ret. apply (leave t1); [done|apply Hro|done|]. intros. unfold reports. cbn [fst snd]. by rewrite Elast.
Qed.

Lemma fht_insert_wr_spec t C key data : good t0 t C → blen key = key_size t0 → blen data = data_size t0 →
  leaves (fht_insert_wr t key data) (cache_insert_wr at_row C key data).1 (λ _ z, z = (cache_insert_wr at_row C key data).2).
Proof.
  intros Hg Hk Hd. destruct (enter t C key Hg Hk) as (Er & t1 & El & Hok1 & HC1 & Hk1 & Hat & Hal & Hls & Hend).
  pose proof Hal as (_ & Eks & Eds & _). rewrite <-Eds in Hd.
  unfold fht_insert_wr, cache_insert_wr. rewrite Er, res_bind_ret, El, res_bind_ret.
  destruct (step_find t1 Hok1 C HC1 key Hk1 at_row Hat) as (x & -> & Hx). rewrite res_bind_ret. destruct x as [c|].
  - destruct Hx as (i & -> & _ & _ & _ & (t2 & -> & Hro & HC2 & _) & _). rewrite res_bind_ret.
    apply (leave t1); [done|apply Hro|done|done].
  - rewrite Hx. destruct (step_insert t1 Hok1 C HC1 key Hk1 at_row Hat Hx) as (f & -> & Hf). rewrite res_bind_ret.
    case_decide as Hlt.
    + destruct Hf as [Hlen Hins]. rewrite decide_True by done. destruct (Hins data Hd) as (t2 & -> & Hro & HC2).
      rewrite res_bind_ret. apply (leave t1); [done|apply Hro|done|done].
    + destruct Hf as (Hlen & _ & _). rewrite decide_False by done.
      apply (leave t1); [done|apply same_frame_refl|done|done].
Qed.

Lemma fht_remove_spec t C key : good t0 t C → blen key = key_size t0 →
  leaves (fht_remove t key) (cache_remove at_row C key).1 (λ _ z, z = (cache_remove at_row C key).2).
Proof.
  intros Hg Hk. destruct (enter t C key Hg Hk) as (Er & t1 & El & Hok1 & HC1 & Hk1 & Hat & Hal & Hls & Hend).
  unfold fht_remove, cache_remove. rewrite Er, res_bind_ret, El, res_bind_ret.
  destruct (step_find t1 Hok1 C HC1 key Hk1 at_row Hat) as (x & -> & Hx). rewrite res_bind_ret. destruct x as [c|].
  - destruct Hx as (i & -> & _ & _ & _ & _ & (t2 & -> & Hro & HC2)). rewrite res_bind_ret.
    apply (leave t1); [done|apply Hro|done|done].
  - rewrite Hx. apply (leave t1); [done|apply same_frame_refl|done|done].
Qed.

(** *** Calls that use the stash *)

Lemma stash_place_Some key l j : stash_place key l = Some j → ∃ i, l !! j = Some (Some i) ∧ i.1 = key.
Proof.
  unfold stash_place. intros ([n x] & (E & Hx & _)%list_find_Some & [= ->])%fmap_Some. destruct x as [i|]; [|done].
  exists i. split; [done|]. by injection Hx.
Qed.

Lemma free_place_Some l j : free_place l = Some j → l !! j = Some None.
Proof. unfold free_place. by intros ([n x] & (E & -> & _)%list_find_Some & [= ->])%fmap_Some. Qed.

Lemma same_frame_stash_lock t t' : lock_stash t = [0] → same_frame (set_locks t (lock_table t) [1]) t' →
  same_frame t (set_locks t' (lock_table t') [0]).
Proof. intros El [? ? ? [El1 El2] ? ?]. split; done. Qed.

(** An item of a full row goes to place [i] of the stash, under the lock of the stash. *)
Lemma stash_put t C key (i : nat) c : fht_ok t → cache_rep t C → lock_stash t = [0] →
  (at_row key < Z.to_nat (table_rows t))%nat → (i < Z.to_nat (stash_size t))%nat → 0 ≤ c < 4 →
  oldest_col t (Z.of_nat (at_row key)) = Ok c → last (c_row at_row C key) = Some (cell t (at_row key) c) →
  ∃ t1 t2, stash_oldest (set_locks t (lock_table t) [1]) (Z.of_nat (at_row key)) (Z.of_nat i) = Ok t1 ∧
    unlock_stash t1 = Ok t2 ∧ fht_ok t2 ∧ same_frame t t2 ∧ lock_stash t2 = [0] ∧
    cache_rep t2 (set_place C i (last (c_row at_row C key)) ((c_next C + 1) mod Z.of_nat (length (c_stash C)))).
Proof.
  intros Hok HC Hl Hr Hi Hc Ec Elast. destruct (stash_locked t Hok Hl) as [_ Eu].
  set (ts := set_locks t (lock_table t) [1]).
  assert (fht_ok ts) as Hoks by (apply set_locks_ok; rewrite ?Hl; done).
  assert (cache_rep ts C) as HCs by (by apply set_locks_rep).
  destruct (stash_oldest_spec ts Hoks C HCs (at_row key) i c Hr Hi Hc Ec) as (t1 & -> & Hfr & _ & HC1).
  exists t1, (set_locks t1 (lock_table t1) [0]). split; [done|]. pose proof (fr_locks _ _ Hfr) as [_ El1].
  split; [by apply Eu|]. pose proof (same_frame_stash_lock t t1 Hl Hfr) as Hfr'.
  split; [by apply (same_frame_ok t)|]. split; [done|]. split; [done|]. apply set_locks_rep.
  rewrite (stash_size_eq t C HC), Z2Nat.id by lia. rewrite Elast. exact HC1.
Qed.

Lemma full_put t C0 C key data : fht_ok t → cache_rep t C → blen key = key_size t → at_row key = place t key →
  blen data = data_size t → c_rows C = c_rows C0 → find_item key (c_row at_row C0 key) = None →
  ¬ (length (c_row at_row C0 key) < 4)%nat →
  ∃ t', replace_oldest t (Z.of_nat (at_row key)) key data = Ok t' ∧ same_frame t t' ∧ cache_rep t' (c_put at_row C (key, data)).
Proof.
  intros Hok HC Hk Hat Hd Erows Hnone Hfull. unfold c_row in Hnone, Hfull. rewrite <-Erows in Hnone, Hfull.
  destruct (step_insert t Hok C HC key Hk at_row Hat Hnone) as (f & _ & Hf). case_decide.
  - destruct Hf as [Hlen _]. unfold c_row in Hlen. lia.
  - destruct Hf as (_ & _ & Hput). destruct (Hput data Hd) as (t' & -> & Hro & HC'). exists t'. split_and!; try done; apply Hro.
Qed.

Lemma fht_get_data_with_stash_spec t C key : good t0 t C → blen key = key_size t0 →
  leaves (fht_get_data_with_stash t key) (cache_get_stash at_row C key).1
    (λ t' p, match p with
             | Some p => (Some <$> deref_item t' p) = Ok (cache_get_stash at_row C key).2
             | None => (cache_get_stash at_row C key).2 = None
             end).
Proof.
  intros Hg Hk. destruct (enter t C key Hg Hk) as (Er & t1 & El & Hok1 & HC1 & Hk1 & Hat & Hal & Hls & Hend).
  unfold fht_get_data_with_stash, cache_get_stash. rewrite Er, res_bind_ret, El, res_bind_ret.
  destruct (step_find t1 Hok1 C HC1 key Hk1 at_row Hat) as (x & -> & Hx). rewrite res_bind_ret. destruct x as [c|].
  - destruct Hx as (i & -> & Ecell & Ekey & Hc & (t2 & -> & Hro & HC2 & Ecell2) & _). rewrite res_bind_ret. cbn [fst snd].
    pose proof (same_frame_alike _ _ (proj1 Hro)) as Hal2.
    assert (same_frame t1 t2) as Hfr by apply Hro.
    destruct (Hend t2 _ Hfr HC2) as (t3 & -> & Hg3 & Ed & _). rewrite res_bind_ret. eexists _, _. split; [done|].
    split; [done|]. rewrite deref_cell; [|by apply Hg3|by eapply at_row_bound|done]. cbn. do 2 f_equal.
    rewrite <-Ecell2. unfold cell. cbn. rewrite Ed. destruct Hg3 as ((_ & _ & -> & _) & _).
    destruct Hal2 as (_ & _ & -> & _). destruct Hal as (_ & _ & -> & _). done.
  - rewrite Hx. destruct (Hend t1 C (same_frame_refl t1) HC1) as (t2 & -> & Hg2 & _). rewrite res_bind_ret.
    pose proof Hg2 as (Hal2 & Hok2 & HC2 & _ & Hls2). pose proof Hal2 as (_ & Eks2 & _).
    destruct (stash_peek t2 C key Hok2 HC2 Hls2) as (t3 & -> & Efind & Eu & _); [by rewrite Eks2|].
    rewrite res_bind_ret, Efind, res_bind_ret, Eu, res_bind_ret.
    exists t2. cbn [fst snd]. destruct (stash_place key (c_stash C)) as [j|] eqn:Ej; cbn; eexists; (split; [done|]); (split; [done|]); [|done].
    apply stash_place_Some in Ej as (i & Ei & _). rewrite Ei. cbn.
    destruct (stash_flag t2 C HC2 j _ Ei) as (_ & _ & _ & [|[= ->] ]); [done|].
    assert (j < Z.to_nat (stash_size t2))%nat as Hj by (rewrite <-(stash_size_eq t2 C HC2); by apply lookup_lt_Some in Ei).
    by rewrite (proj2 (stash_key_at t2 Hok2 j Hj)).
Qed.

Lemma fht_remove_with_stash_spec t C key : good t0 t C → blen key = key_size t0 →
  leaves (fht_remove_with_stash t key) (cache_remove_stash at_row C key).1 (λ _ z, z = (cache_remove_stash at_row C key).2).
Proof.
  intros Hg Hk. destruct (enter t C key Hg Hk) as (Er & t1 & El & Hok1 & HC1 & Hk1 & Hat & Hal & Hls & Hend).
  unfold fht_remove_with_stash, cache_remove_stash. rewrite Er, res_bind_ret, El, res_bind_ret.
  destruct (step_find t1 Hok1 C HC1 key Hk1 at_row Hat) as (x & -> & Hx). rewrite res_bind_ret. destruct x as [c|].
  - destruct Hx as (i & -> & _ & _ & _ & _ & (t2 & -> & Hro & HC2)). rewrite res_bind_ret.
    apply (leave t1); [done|apply Hro|done|done].
  - rewrite Hx. destruct (Hend t1 C (same_frame_refl t1) HC1) as (t2 & -> & Hg2 & _). rewrite res_bind_ret.
    pose proof Hg2 as (Hal2 & Hok2 & HC2 & Hul2 & Hls2). pose proof Hal2 as (_ & Eks2 & _).
    destruct (stash_locked t2 Hok2 Hls2) as [El2 Eu2].
    destruct (stash_peek t2 C key Hok2 HC2 Hls2) as (t3 & El3 & Efind & Eu & Hok3 & HC3 & Hls3); [by rewrite Eks2|].
    rewrite El3, res_bind_ret, Efind, res_bind_ret.
    destruct (stash_place key (c_stash C)) as [j|] eqn:Ej; cbn [fmap option_fmap option_map].
    + apply stash_place_Some in Ej as (i & Ei & _).
      assert (j < Z.to_nat (stash_size t3))%nat as Hj by (rewrite <-(stash_size_eq t3 C HC3); by apply lookup_lt_Some in Ei).
      destruct (clear_stash_flag_spec t3 Hok3 C HC3 j Hj) as (t4 & -> & Hfr & _ & HC4). rewrite res_bind_ret.
      rewrite El2 in El3. injection El3 as <-. pose proof (fr_locks _ _ Hfr) as [El4 El4']. rewrite Eu2, res_bind_ret by done.
      eexists _, _. split; [done|]. split; [|done]. pose proof (same_frame_stash_lock t2 t4 Hls2 Hfr) as Hfr'.
      split; [etrans; [exact Hal2|by apply same_frame_alike]|]. split; [by apply (same_frame_ok t2)|].
      split; [by apply set_locks_rep|]. split; [|done]. cbn. rewrite El4. exact Hul2.
    + rewrite Eu, res_bind_ret. by exists t2, 1.
Qed.

Lemma stash_replace_spec t C key c kl dl : fht_ok t → cache_rep t C → lock_stash t = [0] → 0 < stash_size t →
  (at_row key < Z.to_nat (table_rows t))%nat → 0 ≤ c < 4 → room kl (key_size t) → room dl (data_size t) →
  oldest_col t (Z.of_nat (at_row key)) = Ok c → last (c_row at_row C key) = Some (cell t (at_row key) c) →
  ∃ (x : option item) t1 t2, c_stash C !! Z.to_nat (c_next C) = Some x ∧
    stash_replace (set_locks t (lock_table t) [1]) (Z.of_nat (at_row key)) kl dl =
      Ok (t1, (match x with Some _ => FHT_INSERT_STASH_LOST | None => FHT_INSERT_STASH_OK end, (stored kl (fst <$> x), stored dl (snd <$> x)))) ∧
    unlock_stash t1 = Ok t2 ∧ fht_ok t2 ∧ same_frame t t2 ∧
    cache_rep t2 (c_stash_next C (last (c_row at_row C key))).
Proof.
  intros Hok HC Hl Hpos Hr Hc Hkl Hdl Ec Elast. destruct (rep_next _ _ HC) as (En & Hn0 & Hn1). specialize (Hn1 Hpos).
  assert (Z.to_nat (c_next C) < Z.to_nat (stash_size t))%nat as Hi by lia.
  destruct (lookup_lt_is_Some_2 (c_stash C) (Z.to_nat (c_next C))) as [x Ex]; [by rewrite (stash_size_eq t C HC)|].
  destruct (stash_put t C key (Z.to_nat (c_next C)) c Hok HC Hl Hr Hi Hc Ec Elast) as (t1 & t2 & Eput & Eu & Hok2 & Hfr & _ & HC2).
  exists x, t1, t2. split; [done|]. split; [|by split_and!]. unfold stash_replace. cbn [stash_index set_locks stash_free_flag_field].
  destruct (stash_flag t C HC _ _ Ex) as (f & Ef & Hf0 & Hx). rewrite En in Ef, Eput, Hx, Hi. rewrite Z2Nat.id in Ef, Eput by done.
  rewrite Ef, res_bind_ret. rewrite Eput. case_decide as E0.
  - assert (x = None) as -> by tauto. cbn. by rewrite !stored_None.
  - destruct Hx as [->| ->]; [tauto|]. cbn [fmap option_fmap option_map key_size data_size stash_key_field stash_data_field set_locks].
    destruct (stash_key_at t Hok _ Hi) as [Ek Ed]. rewrite Z2Nat.id in Ek, Ed by done.
    destruct (ok_sizes t Hok), (ok_fit t Hok) as (_ & _ & Hfk & Hfd).
    destruct (stash_off_eq t _ (key_size t) Hi) as [_ Hk1]; [lia|done|]. destruct (stash_off_eq t _ (data_size t) Hi) as [_ Hd1]; [lia|done|].
    destruct (slot_room (key_size t) (stash_key_field t) (Z.of_nat (Z.to_nat (stash_index t)))) as (_ & _ & _ & _ & Hbk); [lia..|by rewrite (ok_stash_keys t Hok)|].
    destruct (slot_room (data_size t) (stash_data_field t) (Z.of_nat (Z.to_nat (stash_index t)))) as (_ & _ & _ & _ & Hbd); [lia..|by rewrite (ok_stash_data t Hok)|].
    rewrite (save_lost_spec kl _ _ _ _ Hkl Ek Hbk), res_bind_ret. rewrite (save_lost_spec dl _ _ _ _ Hdl Ed Hbd). done.
Qed.

Lemma fht_insert_with_stash_spec t C key data kl dl : good t0 t C → blen key = key_size t0 → blen data = data_size t0 →
  room kl (key_size t0) → room dl (data_size t0) →
  leaves (fht_insert_with_stash t key data kl dl) (cache_insert_stash at_row C key data).1
    (reports kl dl (cache_insert_stash at_row C key data).2).
Proof.
  intros Hg Hk Hd Hkl Hdl. destruct (enter t C key Hg Hk) as (Er & t1 & El & Hok1 & HC1 & Hk1 & Hat & Hal & Hls & Hend).
  pose proof Hal as (_ & Eks & Eds & _). rewrite <-Eks in Hkl. rewrite <-Eds in Hd, Hdl.
  unfold fht_insert_with_stash, cache_insert_stash. rewrite Er, res_bind_ret, El, res_bind_ret.
  destruct (step_find t1 Hok1 C HC1 key Hk1 at_row Hat) as (x & -> & Hx). rewrite res_bind_ret. destruct x as [c|].
  { destruct Hx as (i & -> & _ & _ & _ & (t2 & -> & Hro & HC2 & _) & _). rewrite res_bind_ret.
    apply (leave t1); [done|apply Hro|done|]. intros. apply reports_nothing. }
  rewrite Hx. destruct (stash_peek t1 C key Hok1 HC1 Hls Hk1) as (ts & Els & Efind & Eu & _).
  rewrite Els, res_bind_ret, Efind, res_bind_ret, Eu, res_bind_ret.
  destruct (stash_place key (c_stash C)) as [j|]; cbn [fmap option_fmap option_map].
  { apply (leave t1); [done|apply same_frame_refl|done|]. intros. apply reports_nothing. }
  destruct (step_insert t1 Hok1 C HC1 key Hk1 at_row Hat Hx) as (f & -> & Hf). rewrite res_bind_ret.
  case_decide as Hlt.
  { destruct Hf as [Hlen Hins]. rewrite decide_True by done. destruct (Hins data Hd) as (t2 & -> & Hro & HC2).
    rewrite res_bind_ret. apply (leave t1); [done|apply Hro|done|]. intros. apply reports_nothing. }
  destruct Hf as (Hlen & (c & Ec & Hc & Elast) & Hins). rewrite (decide_False (P := (length _ < 4)%nat)) by done.
  assert (at_row key < Z.to_nat (table_rows t1))%nat as Hr by (rewrite Hat; by apply key_row_place).
  destruct (stash_locked t1 Hok1 Hls) as [Els' _]. rewrite Els' in Els. injection Els as <-.
  destruct (decide (0 < stash_size t1)) as [Hpos|Hpos].
  - destruct (stash_replace_spec t1 C key c kl dl) as (x & t2 & t3 & -> & Erep & Eu3 & Hok3 & Hfr & HC3); [done..|].
    rewrite Els', res_bind_ret, Erep, res_bind_ret, Eu3, res_bind_ret.
    pose proof (same_frame_alike _ _ Hfr) as Hal3. pose proof Hal3 as (_ & Eks3 & Eds3 & _).
    destruct (alike_place _ _ key Hal3) as [Ep3 _].
    destruct (full_put t3 C (c_stash_next C (last (c_row at_row C key))) key data) as (t4 & Eput & Hfr4 & HC4);
      [done|done|by rewrite Eks3|by rewrite Ep3|by rewrite Eds3|done|done|done|].
    rewrite res_bind_ret, Eput, res_bind_ret. destruct x as [i|]; cbn [fst snd];
      (apply (leave t1); [done|by etrans|done|]; intros; unfold reports; cbn; by rewrite ?stored_None).
  - assert (stash_size t1 = 0) as Hz by (destruct (ok_stash t1 Hok1) as [|(k & Hk' & E)]; [done|]; rewrite E in Hpos; lia).
    assert (c_stash C !! Z.to_nat (c_next C) = None) as ->
      by (apply lookup_ge_None; rewrite (stash_size_eq t1 C HC1); lia).
    rewrite Ec, res_bind_ret, save_item_spec, !res_bind_ret by done. destruct (Hins data Hd) as (t2 & -> & Hro & HC2).
    rewrite res_bind_ret. apply (leave t1); [done|apply Hro|done|]. intros. unfold reports. cbn [fst snd]. by rewrite Elast.
Qed.

Lemma fht_insert_with_stash_wr_spec t C key data : good t0 t C → blen key = key_size t0 → blen data = data_size t0 →
  leaves (fht_insert_with_stash_wr t key data) (cache_insert_stash_wr at_row C key data).1
    (λ _ z, z = (cache_insert_stash_wr at_row C key data).2).
Proof.
  intros Hg Hk Hd. destruct (enter t C key Hg Hk) as (Er & t1 & El & Hok1 & HC1 & Hk1 & Hat & Hal & Hls & Hend).
  pose proof Hal as (_ & Eks & Eds & _). rewrite <-Eds in Hd.
  unfold fht_insert_with_stash_wr, cache_insert_stash_wr. rewrite Er, res_bind_ret, El, res_bind_ret.
  destruct (step_find t1 Hok1 C HC1 key Hk1 at_row Hat) as (x & -> & Hx). rewrite res_bind_ret. destruct x as [c|].
  { destruct Hx as (i & -> & _ & _ & _ & (t2 & -> & Hro & HC2 & _) & _). rewrite res_bind_ret.
    apply (leave t1); [done|apply Hro|done|done]. }
  rewrite Hx. destruct (stash_peek t1 C key Hok1 HC1 Hls Hk1) as (ts & Els & Efind & Eu & Hoks & HCs & _).
  rewrite Els, res_bind_ret, Efind, res_bind_ret, Eu, res_bind_ret.
  destruct (stash_place key (c_stash C)) as [j|]; cbn [fmap option_fmap option_map].
  { apply (leave t1); [done|apply same_frame_refl|done|done]. }
  destruct (step_insert t1 Hok1 C HC1 key Hk1 at_row Hat Hx) as (f & -> & Hf). rewrite res_bind_ret.
  case_decide as Hlt.
  { destruct Hf as [Hlen Hins]. rewrite decide_True by done. destruct (Hins data Hd) as (t2 & -> & Hro & HC2).
    rewrite res_bind_ret. apply (leave t1); [done|apply Hro|done|done]. }
  destruct Hf as (Hlen & (c & Ec & Hc & Elast) & Hins). rewrite (decide_False (P := (length _ < 4)%nat)) by done.
  assert (at_row key < Z.to_nat (table_rows t1))%nat as Hr by (rewrite Hat; by apply key_row_place).
  pose proof (stash_size_eq t1 C HC1) as Hlen_stash.
  destruct (decide (0 < stash_size t1)) as [Hpos|Hpos].
  - rewrite Els, res_bind_ret, (free_stash_spec ts C HCs), res_bind_ret.
    destruct (free_place (c_stash C)) as [j|] eqn:Ej; cbn [fmap option_fmap option_map].
    + apply free_place_Some in Ej. assert (j < Z.to_nat (stash_size t1))%nat as Hj by (rewrite <-Hlen_stash; by apply lookup_lt_Some in Ej).
      destruct (stash_put t1 C key j c) as (t2 & t3 & Eput & Eu3 & Hok3 & Hfr & _ & HC3); [done..|].
      destruct (stash_locked t1 Hok1 Hls) as [Els' _]. rewrite Els' in Els. injection Els as <-.
      rewrite Eput, res_bind_ret, Eu3, res_bind_ret.
      pose proof (same_frame_alike _ _ Hfr) as Hal3. pose proof Hal3 as (_ & Eks3 & Eds3 & _).
      destruct (alike_place _ _ key Hal3) as [Ep3 _].
      destruct (full_put t3 C _ key data Hok3 HC3) as (t4 & -> & Hfr4 & HC4);
        [by rewrite Eks3|by rewrite Ep3|by rewrite Eds3|done|done|done|].
      rewrite res_bind_ret. apply (leave t1); [done|by etrans|done|done].
    + rewrite Eu, res_bind_ret. apply (leave t1); [done|apply same_frame_refl|done|done].
  - assert (c_stash C = []) as Enil by (destruct (c_stash C); [done|cbn in Hlen_stash; lia]). rewrite Enil. cbn.
    apply (leave t1); [done|apply same_frame_refl|done|done].
Qed.

(** *** Clearing *)

Lemma range_prefix a n l1 x l2 : range a n = l1 ++ x :: l2 → x = a + Z.of_nat (length l1) ∧ (length l1 < n)%nat.
Proof.
  revert a n. induction l1 as [|y l1 IH]; intros a [|n] E; try done.
  - injection E as -> _. cbn. lia.
  - injection E as _ E. destruct (IH _ _ E) as [-> ?]. cbn. lia.
Qed.

Lemma insert_zeros (m : bytes) k : (k < length m)%nat →
  <[k := 0]> (replicate k 0 ++ drop k m) = replicate (S k) 0 ++ drop (S k) m.
Proof.
  intros Hk. rewrite insert_app_r_alt by (rewrite length_replicate; lia). rewrite length_replicate, Nat.sub_diag.
  destruct (lookup_lt_is_Some_2 m k Hk) as [x Ex]. rewrite (drop_S _ _ _ Ex). cbn [insert list_insert].
  change (replicate (S k) 0) with (replicate 1 0 ++ replicate k 0). rewrite <-replicate_add, Nat.add_comm, replicate_add, <-app_assoc. done.
Qed.

Lemma clear_rows t : fht_ok t → unlocked t →
  fold_res (λ t i, t ← lock_row t i; ff ← wr8 (free_flag_field t) i 0; unlock_row (set_flags t ff) i)
    (range 0 (Z.to_nat (table_rows t))) t = Ok (set_flags t (replicate (Z.to_nat (table_rows t)) 0)).
Proof.
  intros Hok [Hul _]. set (n := Z.to_nat (table_rows t)).
  assert (length (free_flag_field t) = n) as Hf by apply (ok_flags t Hok). assert (length (lock_table t) = n) as Hl by apply (ok_locks t Hok).
  destruct (fold_res_ind (λ t i, t ← lock_row t i; ff ← wr8 (free_flag_field t) i 0; unlock_row (set_flags t ff) i)
    (λ l u, u = set_flags t (replicate (length l) 0 ++ drop (length l) (free_flag_field t))) (range 0 n) t) as (u & E & ->).
  - cbn. by destruct t.
  - intros l1 x l2 u El ->. apply range_prefix in El as [-> Hk]. rewrite Z.add_0_l. set (k := length l1) in *.
    destruct (lookup_lt_is_Some_2 (lock_table t) k) as [v Ev]; [by rewrite Hl|]. pose proof (Hul _ _ Ev) as ->.
    unfold lock_row. cbn [lock_table set_flags]. rewrite (spin_lock_free _ _ 0 Ev), !res_bind_ret. cbn [free_flag_field set_locks set_flags].
    rewrite wr8_at, res_bind_ret by (rewrite ?length_app, ?length_replicate, ?length_drop; lia).
    unfold unlock_row. cbn [lock_table set_locks set_flags]. rewrite wr8_at, res_bind_ret by (rewrite ?length_insert; lia).
    rewrite list_insert_insert_eq, (list_insert_id (lock_table t) k 0 Ev). eexists. split; [done|]. rewrite length_app, insert_zeros by lia.
    cbn [length]. by rewrite Nat.add_1_r.
  - rewrite E. do 2 f_equal. assert (length (range 0 n) = n) as -> by (rewrite range_seqZ, length_seqZ; lia).
    by rewrite drop_ge, app_nil_r by lia.
Qed.

Lemma clear_stash t : fht_ok t →
  fold_res clear_stash_flag (range 0 (Z.to_nat (stash_size t))) t =
    Ok (set_stash t (stash_key_field t) (stash_data_field t) (replicate (Z.to_nat (stash_size t)) 0) (stash_index t)).
Proof.
  intros Hok. set (n := Z.to_nat (stash_size t)). assert (length (stash_free_flag_field t) = n) as Hf by apply (ok_stash_flags t Hok).
  destruct (fold_res_ind clear_stash_flag
    (λ l u, u = set_stash t (stash_key_field t) (stash_data_field t) (replicate (length l) 0 ++ drop (length l) (stash_free_flag_field t)) (stash_index t))
    (range 0 n) t) as (u & E & ->).
  - cbn. by destruct t.
  - intros l1 x l2 u El ->. apply range_prefix in El as [-> Hk]. rewrite Z.add_0_l. set (k := length l1) in *.
    unfold clear_stash_flag. cbn [stash_free_flag_field set_stash].
    rewrite wr8_at, res_bind_ret by (rewrite ?length_app, ?length_replicate, ?length_drop; lia).
    eexists. split; [done|]. rewrite length_app, insert_zeros by lia. cbn [length]. by rewrite Nat.add_1_r.
  - rewrite E. do 2 f_equal. assert (length (range 0 n) = n) as -> by (rewrite range_seqZ, length_seqZ; lia).
    by rewrite drop_ge, app_nil_r by lia.
Qed.

Lemma fht_clear_spec t C : good t0 t C → ∃ t', fht_clear t = Ok t' ∧ good t0 t' (cache_clear C).
Proof.
  intros (Hal & Hok & HC & Hu). unfold fht_clear. rewrite clear_rows, res_bind_ret by done.
  set (t1 := set_flags t _). assert (fht_ok t1) as Hok1.
  { destruct Hok. split; cbn; try done. by rewrite length_replicate. }
  destruct Hu as [Hul Hls]. destruct (stash_locked t1 Hok1 Hls) as [-> Eu]. rewrite res_bind_ret.
  assert (fht_ok (set_locks t1 (lock_table t1) [1])) as Hok2 by (by apply set_locks_ok; cbn; rewrite ?Hls).
  rewrite (clear_stash _ Hok2), res_bind_ret, Eu by done. eexists. split; [done|]. split; [exact Hal|]. split; [|split].
  - destruct Hok. split; cbn; try done; try (by rewrite length_replicate); naive_solver.
  - destruct HC as [Hr Hrow Hs Hst Hn]. split; cbn; rewrite ?length_fmap; try done.
    + intros r row E. rewrite list_lookup_fmap in E. destruct (c_rows C !! r) as [row0|] eqn:E0; [|done]. injection E as <-.
      destruct (Hrow r row0 E0) as (o & f & (Ho & _ & Ea & _) & _ & _). exists o, 0.
      assert (r < Z.to_nat (table_rows t))%nat by (rewrite <-Hr; by apply lookup_lt_Some in E0).
      split; [unfold row_state; split_and!; try (done || lia); by apply lookup_replicate_2|].
      unfold row_items. assert (filter (used 0) o = []) as ->; [|by split; [|constructor] ].
      clear. induction o as [|d o IH]; [done|]. by rewrite filter_cons, decide_False by (unfold used; rewrite Z.land_0_l; tauto).
    + intros i x E. rewrite list_lookup_fmap in E. destruct (c_stash C !! i) as [x0|] eqn:E0; [|done]. injection E as <-.
      exists 0. split; [|done]. apply lookup_replicate_2. rewrite <-Hs. by apply lookup_lt_Some in E0.
  - split; [exact Hul|done].
Qed.
End calls.

(** ** Sequences of calls *)

Inductive fht_op :=
  | OpInsert (key data : bytes) (key_lost data_lost : option bytes)
  | OpInsertWr (key data : bytes)
  | OpInsertStash (key data : bytes) (key_lost data_lost : option bytes)
  | OpInsertStashWr (key data : bytes)
  | OpGet (key : bytes)
  | OpGetStash (key : bytes)
  | OpRemove (key : bytes)
  | OpRemoveStash (key : bytes)
  | OpClear.

(** What the caller sees: the value, and the memory for lost items or the data found. *)
Inductive outcome :=
  | Inserted (ret : Z) (key_lost data_lost : option bytes)
  | Returned (ret : Z)
  | Found (data : option bytes).

Definition fht_call (t : fht_table) (op : fht_op) : res (fht_table * outcome) :=
  let inserted (x : insert_result) := let '(t, (z, (kl, dl))) := x in (t, Inserted z kl dl) in
  let returned (x : fht_table * Z) := let '(t, z) := x in (t, Returned z) in
  let found (x : fht_table * option item_ptr) :=
    let '(t, p) := x in
    match p with None => Ok (t, Found None) | Some p => d ← deref_item t p; Ok (t, Found (Some d)) end in
  match op with
  | OpInsert k d kl dl => inserted <$> fht_insert t k d kl dl
  | OpInsertWr k d => returned <$> fht_insert_wr t k d
  | OpInsertStash k d kl dl => inserted <$> fht_insert_with_stash t k d kl dl
  | OpInsertStashWr k d => returned <$> fht_insert_with_stash_wr t k d
  | OpGet k => x ← fht_get_data t k; found x
  | OpGetStash k => x ← fht_get_data_with_stash t k; found x
  | OpRemove k => returned <$> fht_remove t k
  | OpRemoveStash k => returned <$> fht_remove_with_stash t k
  | OpClear => t ← fht_clear t; Ok (t, Returned 0)
  end.

Definition cache_call (at_row : bytes → nat) (C : cache) (op : fht_op) : cache * outcome :=
  let inserted kl dl (x : cache * (Z * option item)) :=
    let '(C, (z, i)) := x in (C, Inserted z (stored kl (fst <$> i)) (stored dl (snd <$> i))) in
  let returned (x : cache * Z) := let '(C, z) := x in (C, Returned z) in
  let found (x : cache * option bytes) := let '(C, d) := x in (C, Found d) in
  match op with
  | OpInsert k d kl dl => inserted kl dl (cache_insert at_row C k d)
  | OpInsertWr k d => returned (cache_insert_wr at_row C k d)
  | OpInsertStash k d kl dl => inserted kl dl (cache_insert_stash at_row C k d)
  | OpInsertStashWr k d => returned (cache_insert_stash_wr at_row C k d)
  | OpGet k => found (cache_get at_row C k)
  | OpGetStash k => found (cache_get_stash at_row C k)
  | OpRemove k => returned (cache_remove at_row C k)
  | OpRemoveStash k => returned (cache_remove_stash at_row C k)
  | OpClear => (cache_clear C, Returned 0)
  end.

Fixpoint fht_calls (t : fht_table) (ops : list fht_op) : res (fht_table * list outcome) :=
  match ops with
  | [] => Ok (t, [])
  | op :: ops => '(t, o) ← fht_call t op; '(t, os) ← fht_calls t ops; Ok (t, o :: os)
  end.

Fixpoint cache_calls (at_row : bytes → nat) (C : cache) (ops : list fht_op) : cache * list outcome :=
  match ops with
  | [] => (C, [])
  | op :: ops => let '(C, o) := cache_call at_row C op in let '(C, os) := cache_calls at_row C ops in (C, o :: os)
  end.

(** Keys and data have the sizes of the table. *)
Definition op_ok (ks ds : Z) (op : fht_op) : Prop :=
  match op with
  | OpInsert k d kl dl | OpInsertStash k d kl dl => blen k = ks ∧ blen d = ds ∧ room kl ks ∧ room dl ds
  | OpInsertWr k d | OpInsertStashWr k d => blen k = ks ∧ blen d = ds
  | OpGet k | OpGetStash k | OpRemove k | OpRemoveStash k => blen k = ks
  | OpClear => True
  end.

Section calls_refine.
Context (t0 : fht_table).

Lemma inserted_refines m C out kl dl : leaves t0 m C (reports kl dl out) →
  ∃ t', (λ x : insert_result, let '(t, (z, (kl, dl))) := x in (t, Inserted z kl dl)) <$> m =
    Ok (t', Inserted out.1 (stored kl (fst <$> out.2)) (stored dl (snd <$> out.2))) ∧ good t0 t' C.
Proof. intros (t' & a & -> & Hg & ->). by exists t'. Qed.

Lemma returned_refines m C z : leaves t0 m C (λ _ z', z' = z) →
  ∃ t', (λ x : fht_table * Z, let '(t, z) := x in (t, Returned z)) <$> m = Ok (t', Returned z) ∧ good t0 t' C.
Proof. intros (t' & a & -> & Hg & ->). by exists t'. Qed.

Lemma found_refines m C d : leaves t0 m C (λ t' p, match p with Some p => (Some <$> deref_item t' p) = Ok d | None => d = None end) →
  ∃ t', (x ← m; let '(t, p) := x in
    match p with None => Ok (t, Found None) | Some p => d ← deref_item t p; Ok (t, Found (Some d)) end) =
    Ok (t', Found d) ∧ good t0 t' C.
Proof.
  intros (t' & a & -> & Hg & Ha). exists t'. split; [|done]. rewrite res_bind_ret. destruct a as [p|]; [|by rewrite Ha].
  apply res_fmap_Ok in Ha as (x & -> & ->). done.
Qed.

Lemma fht_call_refines t C op : good t0 t C → op_ok (key_size t0) (data_size t0) op →
  ∃ t', fht_call t op = Ok (t', (cache_call (place t0) C op).2) ∧ good t0 t' (cache_call (place t0) C op).1.
Proof.
  intros Hg Hop. destruct op as [k d kl dl|k d|k d kl dl|k d|k|k|k|k|]; cbn [fht_call cache_call op_ok] in *.
  - destruct Hop as (Hk & Hd & Hkl & Hdl). pose proof (inserted_refines _ _ _ _ _ (fht_insert_spec t0 t C k d kl dl Hg Hk Hd Hkl Hdl)) as H.
    by destruct (cache_insert (place t0) C k d) as [C' [z i] ].
  - destruct Hop as (Hk & Hd). pose proof (returned_refines _ _ _ (fht_insert_wr_spec t0 t C k d Hg Hk Hd)) as H.
    by destruct (cache_insert_wr (place t0) C k d) as [C' z].
  - destruct Hop as (Hk & Hd & Hkl & Hdl). pose proof (inserted_refines _ _ _ _ _ (fht_insert_with_stash_spec t0 t C k d kl dl Hg Hk Hd Hkl Hdl)) as H.
    by destruct (cache_insert_stash (place t0) C k d) as [C' [z i] ].
  - destruct Hop as (Hk & Hd). pose proof (returned_refines _ _ _ (fht_insert_with_stash_wr_spec t0 t C k d Hg Hk Hd)) as H.
    by destruct (cache_insert_stash_wr (place t0) C k d) as [C' z].
  - pose proof (found_refines _ _ _ (fht_get_data_spec t0 t C k Hg Hop)) as H. by destruct (cache_get (place t0) C k) as [C' d].
  - pose proof (found_refines _ _ _ (fht_get_data_with_stash_spec t0 t C k Hg Hop)) as H. by destruct (cache_get_stash (place t0) C k) as [C' d].
  - pose proof (returned_refines _ _ _ (fht_remove_spec t0 t C k Hg Hop)) as H. by destruct (cache_remove (place t0) C k) as [C' z].
  - pose proof (returned_refines _ _ _ (fht_remove_with_stash_spec t0 t C k Hg Hop)) as H. by destruct (cache_remove_stash (place t0) C k) as [C' z].
  - destruct (fht_clear_spec t0 t C Hg) as (t' & -> & Hg'). by exists t'.
Qed.

Lemma fht_calls_refine ops t C : good t0 t C → Forall (op_ok (key_size t0) (data_size t0)) ops →
  ∃ t', fht_calls t ops = Ok (t', (cache_calls (place t0) C ops).2) ∧ good t0 t' (cache_calls (place t0) C ops).1.
Proof.
  intros Hg Hops. revert t C Hg. induction Hops as [|op ops Hop _ IH]; intros t C Hg; cbn [fht_calls cache_calls]; [by exists t|].
  destruct (fht_call_refines t C op Hg Hop) as (t1 & -> & Hg1). destruct (cache_call (place t0) C op) as [C1 o]. cbn [fst snd] in *.
  rewrite res_bind_ret. destruct (IH t1 C1 Hg1) as (t2 & -> & Hg2). destruct (cache_calls (place t0) C1 ops) as [C2 os].
  exists t2. by rewrite res_bind_ret.
Qed.
End calls_refine.

(** *** A new table *)

Lemma power_of_two x : 0 < x < 4294967296 → Z.land x (u32 (x - 1)) = 0 → ∃ k, 0 ≤ k < 32 ∧ x = 2 ^ k.
Proof.
  intros Hx E. unfold u32 in E. rewrite Z.mod_small in E by lia. exists (Z.log2 x).
  pose proof (Z.log2_spec x ltac:(lia)) as [Hlo Hhi]. pose proof (Z.log2_nonneg x).
  assert (Z.log2 x < 32) by (apply Z.log2_lt_pow2; lia). split; [lia|].
  destruct (decide (x = 2 ^ Z.log2 x)) as [|Hne]; [done|]. exfalso.
  assert (Z.testbit (Z.land x (x - 1)) (Z.log2 x) = true) as Hb; [|by rewrite E, Z.testbit_0_l in Hb].
  rewrite <-Z.add_1_r in Hhi. rewrite Z.land_spec. apply andb_true_intro. split; apply testbit_top; lia.
Qed.

Definition empty_cache (rows ss : Z) : cache := Cache (replicate (Z.to_nat rows) []) (replicate (Z.to_nat ss) None) 0.

Lemma le_word_total key p : 0 ≤ p → p + 8 ≤ blen key → ∃ k, rd64le key p = Ok k.
Proof. intros Hp Hk. unfold rd64le, rdn. rewrite decide_True by lia. by eexists. Qed.

Lemma hash_total key n : 0 ≤ n < 2147483648 → blen key = n → ∃ h, hash key n = Ok h ∧ is_u32 h.
Proof.
  intros Hn Hk. unfold hash. rewrite Z.quot_div_nonneg by lia. pose proof (Z.div_mod n 8) as Hdiv.
  pose proof (Z.mod_pos_bound n 8). assert (0 ≤ n / 8) by (apply Z.div_pos; lia).
  unfold u32. rewrite (Z.mod_small (n / 8)) by (split; [done|]; apply Z.div_lt_upper_bound; lia).
  assert (∀ h, is_u32 (hash_final h)) as Hfin by (intros h; apply Z.mod_pos_bound; lia).
  destruct (fold_res_ind (hash_block key) (λ _ _, True) (range 0 (Z.to_nat (n / 8))) (0, 42)) as ([k h] & -> & _); [done| |].
  { intros l1 i l2 y E _. apply range_prefix in E as [-> Hl]. rewrite Z.add_0_l. unfold hash_block.
    destruct (le_word_total key (8 * Z.of_nat (length l1))) as [w ->]; [lia|lia|]. by eexists. }
  rewrite res_bind_ret. case_decide; [by eexists|]. unfold hash_tail.
  assert (Z.land n 7 = n mod 8) as Hland by (change 7 with (Z.ones 3); by rewrite Z.land_ones).
  match goal with |- context [fold_res ?g _ _] => destruct (fold_res_ind g (λ _ _, True) (rev (range 0 (Z.to_nat (Z.land n 7)))) k) as (k' & -> & _) end;
    [done| |by eexists].
  intros l1 i l2 y E _. assert (0 ≤ i < n mod 8) as Hi.
  { assert (i ∈ range 0 (Z.to_nat (Z.land n 7))) as Hin by (apply list_elem_of_In, in_rev; rewrite E; apply in_elt).
    apply elem_of_range in Hin. lia. }
  rewrite Z.quot_div_nonneg by lia. destruct (rd8_in_bounds key (8 * (n / 8) + i)) as [b ->]; [lia|]. by eexists.
Qed.

(** The function that [fht_init] chooses is the general one, faster. *)
Lemma fht_init_hash rows ks ds ss t key : fht_init rows ks ds ss = Some t → hash_function t key (i32 ks) = hash key (i32 ks).
Proof.
  unfold fht_init. repeat (case_decide; [done|]). intros [= <-]. cbn. case_decide as E40; [subst|case_decide as E8; [|done] ].
  - change (i32 40) with 40. rewrite hash_40_div8. by apply hash_div8_hash.
  - apply hash_div8_hash. by apply i32_mod8.
Qed.

Lemma fht_init_good rows ks ds ss t : fht_init rows ks ds ss = Some t →
  is_u32 rows → is_u32 ks → is_u32 ds → is_u32 ss →
  ks * rows * 4 < 4294967296 → ds * rows * 4 < 4294967296 → ss * ks < 4294967296 → ss * ds < 4294967296 →
  good t t (empty_cache rows ss) ∧ key_size t = ks ∧ data_size t = ds ∧ table_rows t = rows.
Proof.
  intros Hi Hr Hk Hd Hs F1 F2 F3 F4.
  assert (∀ key, hash_function t key (i32 ks) = hash key (i32 ks)) as Hhash by (intros; by eapply fht_init_hash).
  unfold fht_init in Hi. destruct (decide _) as [|N1] in Hi; [done|]. destruct (decide _) as [|N2] in Hi; [done|].
  destruct (decide _) as [|N3] in Hi; [done|]. destruct (decide _) as [|N4] in Hi; [done|].
  unfold is_u32 in *. apply Decidable.not_or in N1 as [N0 N1]. apply Decidable.dec_not_not in N1, N4; [|apply Z.eq_decidable..].
  destruct (power_of_two rows) as (k & Hk' & Erows); [lia|done|]. injection Hi as <-.
  assert (ks * rows * 4 = u32 (ks * rows * 4)) as Eu1 by (unfold u32; rewrite Z.mod_small; nia).
  assert (ds * rows * 4 = u32 (ds * rows * 4)) as Eu2 by (unfold u32; rewrite Z.mod_small; nia).
  assert (ss * ks = u32 (ss * ks)) as Eu3 by (unfold u32; rewrite Z.mod_small; nia).
  assert (ss * ds = u32 (ss * ds)) as Eu4 by (unfold u32; rewrite Z.mod_small; nia).
  assert (rows = u32 rows) as Eu5 by (unfold u32; by rewrite Z.mod_small).
  assert (ss = u32 ss) as Eu6 by (unfold u32; by rewrite Z.mod_small).
  split; [|done]. split; [done|]. split; [|split].
  - split; cbn [table_rows key_size data_size stash_size key_field data_field free_flag_field replacement_vector_field
      stash_key_field stash_data_field stash_free_flag_field lock_table lock_stash hash_function];
    unfold blen, FHT_TABLE_COLS; rewrite ?length_replicate, <-?Eu1, <-?Eu2, <-?Eu3, <-?Eu4, <-?Eu5, <-?Eu6; try done; try lia.
    + eauto.
    + destruct (decide (ss = 0)) as [|Hne]; [by left|]. right. apply power_of_two; [lia|done].
    + intros key Hkey. cbn in Hhash. rewrite Hhash, i32_small by nia. apply hash_total; [nia|done].
  - split; cbn; rewrite ?length_replicate; try done.
    + intros r row [-> Hlt]%lookup_replicate. exists (rev columns), 0. rewrite <-Eu5.
      split; [unfold row_state; cbn -[rev columns]; split_and!; [symmetry; apply Permutation_rev|lia|lia| |]; by apply lookup_replicate_2|].
      split; [done|constructor].
    + intros i x [-> Hlt]%lookup_replicate. exists 0. cbn. rewrite <-Eu6. split; [by apply lookup_replicate_2|done].
  - split; [|done]. cbn. intros r l [-> _]%lookup_replicate. done.
Qed.

(** ** Iteration *)

(** The item an iterator is at. *)
Definition iter_item (t : fht_table) (it : fht_iter) : res item :=
  match key_ptr it, data_ptr it with
  | Some kp, Some dp =>
      k ← (match kp with InTable off => rdn (key_field t) off (key_size t)
                       | InStash off => rdn (stash_key_field t) off (key_size t) end);
      d ← deref_item t dp; Ok (k, d)
  | _, _ => Fault NullDeref
  end.

(** [while (fht_get_next_iter(it) == FHT_ITER_RET_OK)], for the items that it gives. *)
Fixpoint iter_all (fuel : nat) (t : fht_table) (it : fht_iter) : res (fht_table * list item) :=
  match fuel with
  | O => OutOfFuel
  | S fuel =>
      '(t, it, ret) ← fht_get_next_iter t it;
      if decide (ret = FHT_ITER_RET_OK) then
        i ← iter_item t it; '(t, l) ← iter_all fuel t it; Ok (t, i :: l)
      else Ok (t, [])
  end.

(** The part of a turn behind the call. *)
Definition iter_rest (fuel : nat) (m : res (fht_table * fht_iter * Z)) : res (fht_table * list item) :=
  '(t, it, ret) ← m;
  if decide (ret = FHT_ITER_RET_OK) then i ← iter_item t it; '(t, l) ← iter_all fuel t it; Ok (t, i :: l)
  else Ok (t, []).

Lemma filter_range_head (P : Z → Prop) `{∀ x, Decision (P x)} a n :
  match find_split P (range a n) with
  | Some (_, x) => a ≤ x < a + Z.of_nat n ∧
      filter P (range a n) = x :: filter P (range (x + 1) (Z.to_nat (a + Z.of_nat n - (x + 1))))
  | None => filter P (range a n) = []
  end.
Proof.
  revert a. induction n as [|n IH]; intros a; [done|]. cbn [range find_split]. rewrite filter_cons.
  destruct (decide (P a)) as [Ha|Ha].
  - split; [lia|]. do 3 f_equal. lia.
  - specialize (IH (a + 1)). destruct (find_split P (range (a + 1) n)) as [ [l x]|]; cbn [fmap option_fmap option_map prod_map]; [|done].
    destruct IH as [Hx ->]. unfold id. cbn [snd]. split; [lia|]. do 3 f_equal. lia.
Qed.

Section iteration.
Context (t : fht_table) (C : cache) (Hg : good t t C).
Implicit Types (r : nat) (c f i : Z).

Let Hok : fht_ok t := proj1 (proj2 Hg).
Let HC : cache_rep t C := proj1 (proj2 (proj2 Hg)).

(** The items from a place on, in the order of the iterator. *)
Definition row_from (t : fht_table) (r : nat) (c : Z) : list item :=
  cell t r <$> filter (used (default 0 (free_flag_field t !! r))) (range c (Z.to_nat (4 - c))).
Definition rows_from (t : fht_table) (r : Z) : list item :=
  mjoin ((λ i, row_from t (Z.to_nat i) 0) <$> range r (Z.to_nat (table_rows t - r))).
Definition stash_from (t : fht_table) (i : Z) : list item :=
  (λ i, stash_cell t (Z.to_nat i)) <$>
  filter (λ i, default 0 (stash_free_flag_field t !! Z.to_nat i) ≠ 0) (range i (Z.to_nat (stash_size t - i))).

Definition at_row (r : nat) : fht_table := set_locks t (<[r := 1]> (lock_table t)) (lock_stash t).
Definition at_stash : fht_table := set_locks t (lock_table t) [1].

(** [default], from column [c] on. *)
Definition iter_cols (t : fht_table) (r c : Z) : res (fht_table * fht_iter * Z) :=
  c ← next_col t r c;
  match c with
  | Some c => Ok (t, iter_at t r c, FHT_ITER_RET_OK)
  | None => t ← unlock_row t r; iter_rows t (r + 1)
  end.

Lemma flag_at (r : nat) : (r < Z.to_nat (table_rows t))%nat →
  rd8 (free_flag_field t) (Z.of_nat r) = Ok (default 0 (free_flag_field t !! r)).
Proof.
  intros Hr. destruct (lookup_lt_is_Some_2 (free_flag_field t) r) as [f Ef]; [by rewrite (ok_flags t Hok)|].
  by rewrite (rd8_at _ _ _ Ef), Ef.
Qed.

Lemma next_col_spec (r : nat) c : (r < Z.to_nat (table_rows t))%nat → 0 ≤ c ≤ 4 →
  ∃ x, next_col (at_row r) (Z.of_nat r) c = Ok x ∧
    match x with
    | Some d => c ≤ d < 4 ∧ row_from t r c = cell t r d :: row_from t r (d + 1)
    | None => row_from t r c = []
    end.
Proof.
  intros Hr Hc. set (f := default 0 (free_flag_field t !! r)). unfold next_col, FHT_TABLE_COLS.
  rewrite (for_each_find (used f)).
  - rewrite res_bind_ret. eexists. split; [done|]. pose proof (filter_range_head (used f) c (Z.to_nat (4 - c))) as H.
    unfold row_from. fold f. destruct (find_split (used f) _) as [ [l d]|].
    + destruct H as [Hd ->]. split; [lia|]. rewrite fmap_cons. do 4 f_equal. lia.
    + by rewrite H.
  - intros d _. cbn [free_flag_field at_row set_locks]. by rewrite flag_at, res_bind_ret by done.
Qed.

Lemma iter_item_row (r : nat) c : (r < Z.to_nat (table_rows t))%nat → 0 ≤ c < 4 →
  iter_item (at_row r) (iter_at (at_row r) (Z.of_nat r) c) = Ok (cell t r c).
Proof.
  intros Hr Hc. destruct (ok_sizes t Hok) as [Hks Hds], (ok_fit t Hok) as (Hfk & Hfd & _).
  pose proof (rows_range t Hok). unfold iter_item, iter_at, FHT_TABLE_COLS. cbn.
  destruct (col_off_eq t Hok r c (key_size t)) as [_ Hk1]; [done..|lia|done|].
  destruct (col_off_eq t Hok r c (data_size t)) as [_ Hd1]; [done..|lia|done|].
  unfold u32. rewrite !Z.mod_small by nia. replace (Z.of_nat r * 4 + c) with (4 * Z.of_nat r + c) by lia.
  rewrite (rdn_slot (key_size t)), res_bind_ret by (rewrite ?(ok_key_field t Hok); lia).
  by rewrite (rdn_slot (data_size t)) by (rewrite ?(ok_data_field t Hok); lia).
Qed.

Lemma iter_item_stash (i : nat) : (i < Z.to_nat (stash_size t))%nat →
  iter_item at_stash (iter_at_stash at_stash (Z.of_nat i)) = Ok (stash_cell t i).
Proof. intros Hi. destruct (stash_key_at t Hok i Hi) as [Ek Ed]. unfold iter_item. cbn in *. rewrite Ek, res_bind_ret, Ed. done. Qed.

(** *** Through the stash *)

Lemma stash_iterated n i fuel : Z.to_nat (stash_size t - i) = n → 0 ≤ i → (length (stash_from t i) ≤ fuel)%nat →
  iter_rest fuel (iter_stash at_stash i) = Ok (t, stash_from t i).
Proof.
  revert i fuel. induction (lt_wf n) as [n _ IH]. intros i fuel Hn Hi Hf.
  assert (unlock_stash at_stash = Ok t) as Eu.
  { pose proof Hg as (_ & _ & _ & _ & Hls). destruct (stash_locked t Hok Hls) as [_ Eu]. unfold at_stash. rewrite Eu by done.
    f_equal. etrans; [|apply (set_locks_id t)]. by rewrite Hls. }
  set (P j := default 0 (stash_free_flag_field t !! Z.to_nat j) ≠ 0).
  unfold iter_stash. change (stash_size at_stash) with (stash_size t). rewrite (for_each_find P).
  - rewrite res_bind_ret. pose proof (filter_range_head P i (Z.to_nat (stash_size t - i))) as H. unfold stash_from. fold P.
    destruct (find_split P _) as [ [l j]|].
    + destruct H as [Hj EH]. unfold stash_from in Hf. fold P in Hf. rewrite EH in Hf |- *. rewrite fmap_cons in Hf |- *.
      replace (Z.to_nat (i + Z.of_nat (Z.to_nat (stash_size t - i)) - (j + 1))) with (Z.to_nat (stash_size t - (j + 1))) in * by lia.
      cbn [length] in Hf. unfold iter_rest. rewrite res_bind_ret. cbn [FHT_ITER_RET_OK]. rewrite decide_True by done.
      assert (j = Z.of_nat (Z.to_nat j)) as Ej by lia. rewrite Ej at 1. rewrite iter_item_stash, res_bind_ret by lia.
      destruct fuel as [|fuel]; [lia|]. cbn [iter_all]. unfold fht_get_next_iter.
      change (it_row (iter_at_stash at_stash j)) with FHT_ITER_STASH. change (it_col (iter_at_stash at_stash j)) with j.
      rewrite decide_False by done. rewrite decide_True by done.
      pose proof (IH (Z.to_nat (stash_size t - (j + 1))) ltac:(lia) (j + 1) fuel eq_refl ltac:(lia) ltac:(apply le_S_n, Hf)) as E.
      unfold iter_rest in E. rewrite E, res_bind_ret. done.
    + rewrite Eu, res_bind_ret, H. done.
  - intros j (Hj0 & Hj)%elem_of_range. destruct (lookup_lt_is_Some_2 (stash_free_flag_field t) (Z.to_nat j)) as [f Ef];
      [rewrite (ok_stash_flags t Hok); lia|]. cbn [stash_free_flag_field at_stash set_locks].
    pose proof (rd8_at _ _ _ Ef) as Erd. rewrite Z2Nat.id in Erd by lia. rewrite Erd, res_bind_ret.
    assert (P j ↔ f ≠ 0) as HP by (unfold P; by rewrite Ef). f_equal. destruct (decide (f ≠ 0)), (decide (P j)); tauto.
Qed.

(** *** Through the rows *)

Lemma lock_here (r : nat) : (r < Z.to_nat (table_rows t))%nat →
  lock_row t (Z.of_nat r) = Ok (at_row r) ∧ unlock_row (at_row r) (Z.of_nat r) = Ok t.
Proof.
  intros Hr. pose proof Hg as (_ & _ & _ & Hul & _). pose proof (ok_locks t Hok) as [Hl _].
  destruct (lookup_lt_is_Some_2 (lock_table t) r) as [v Ev]; [by rewrite Hl|]. pose proof (Hul _ _ Ev) as ->.
  split; [unfold lock_row; by rewrite (spin_lock_free _ _ 0 Ev)|].
  unfold unlock_row. cbn [lock_table at_row set_locks]. rewrite wr8_at, res_bind_ret by (rewrite ?length_insert; lia).
  rewrite list_insert_insert_eq, (list_insert_id _ _ _ Ev). f_equal. apply (set_locks_id t).
Qed.

Lemma iter_rows_step (r : nat) : (r < Z.to_nat (table_rows t))%nat →
  iter_rows t (Z.of_nat r) = iter_cols (at_row r) (Z.of_nat r) 0.
Proof.
  intros Hr. destruct (lock_here r Hr) as [El Eu]. unfold iter_rows, iter_cols.
  replace (Z.to_nat (table_rows t - Z.of_nat r)) with (S (Z.to_nat (table_rows t - (Z.of_nat r + 1)))) by lia.
  destruct (next_col_spec r 0 Hr) as (x & Ex & _); [lia|].
  assert (iter_row_step (Z.of_nat r) t = Ok (match x with Some c => inr (at_row r, iter_at (at_row r) (Z.of_nat r) c) | None => inl t end)) as E.
  { unfold iter_row_step. rewrite El, res_bind_ret, Ex, res_bind_ret. destruct x; [done|]. by rewrite Eu. }
  cbn [range for_each]. rewrite E, res_bind_ret, Ex, res_bind_ret. destruct x as [c|]; [done|]. by rewrite Eu, res_bind_ret.
Qed.

(** The calls go on behind the column of an item. *)
Lemma next_after_col (r : nat) c : (r < Z.to_nat (table_rows t))%nat → 0 ≤ c < 4 →
  fht_get_next_iter (at_row r) (iter_at (at_row r) (Z.of_nat r) c) = iter_cols (at_row r) (Z.of_nat r) (c + 1).
Proof.
  intros Hr Hc. destruct (ok_rows t Hok) as (k & Hk & Erows). assert (Z.of_nat r < 2147483648) as Hr31.
  { assert (2 ^ k ≤ 2 ^ 31) by (apply Z.pow_le_mono_r; lia). lia. }
  unfold fht_get_next_iter, iter_at. cbn [it_row it_col]. rewrite i32_small by lia.
  rewrite !decide_False by (unfold FHT_ITER_END, FHT_ITER_STASH, FHT_ITER_START; lia). done.
Qed.

Lemma cols_iterated (r : nat) c tail fuel : (r < Z.to_nat (table_rows t))%nat → 0 ≤ c ≤ 4 →
  (∀ fuel, (length tail ≤ fuel)%nat → iter_rest fuel (iter_rows t (Z.of_nat r + 1)) = Ok (t, tail)) →
  (length (row_from t r c ++ tail) ≤ fuel)%nat →
  iter_rest fuel (iter_cols (at_row r) (Z.of_nat r) c) = Ok (t, row_from t r c ++ tail).
Proof.
  intros Hr Hc Htail. revert c Hc fuel. 
  assert (∀ n c fuel, Z.to_nat (4 - c) = n → 0 ≤ c ≤ 4 → (length (row_from t r c ++ tail) ≤ fuel)%nat →
    iter_rest fuel (iter_cols (at_row r) (Z.of_nat r) c) = Ok (t, row_from t r c ++ tail)) as H; [|by eauto].
  induction n as [n IH] using lt_wf_ind. intros c fuel Hn Hc Hf. unfold iter_cols.
  destruct (next_col_spec r c Hr Hc) as (x & -> & Hx). rewrite res_bind_ret. destruct x as [d|].
  - destruct Hx as [Hd Erow]. rewrite Erow in Hf |- *. cbn [app length] in Hf |- *. unfold iter_rest. rewrite res_bind_ret.
    rewrite decide_True, iter_item_row, res_bind_ret by (done || lia). destruct fuel as [|fuel]; [lia|].
    cbn [iter_all]. rewrite next_after_col by (done || lia).
    pose proof (IH (Z.to_nat (4 - (d + 1))) ltac:(lia) (d + 1) fuel eq_refl ltac:(lia) ltac:(lia)) as E.
    unfold iter_rest in E. by rewrite E, res_bind_ret.
  - rewrite Hx in Hf |- *. destruct (lock_here r Hr) as [_ ->]. rewrite res_bind_ret. by apply Htail.
Qed.

Lemma rows_from_step (r : nat) : (r < Z.to_nat (table_rows t))%nat →
  rows_from t (Z.of_nat r) = row_from t r 0 ++ rows_from t (Z.of_nat r + 1).
Proof.
  intros Hr. unfold rows_from.
  replace (Z.to_nat (table_rows t - Z.of_nat r)) with (S (Z.to_nat (table_rows t - (Z.of_nat r + 1)))) by lia.
  cbn [range]. by rewrite fmap_cons, mjoin_cons, Nat2Z.id.
Qed.

Lemma rows_iterated n (r : nat) fuel : n = (Z.to_nat (table_rows t) - r)%nat → (r ≤ Z.to_nat (table_rows t))%nat →
  (length (rows_from t (Z.of_nat r) ++ stash_from t 0) ≤ fuel)%nat →
  iter_rest fuel (iter_rows t (Z.of_nat r)) = Ok (t, rows_from t (Z.of_nat r) ++ stash_from t 0).
Proof.
  revert r fuel. induction n as [|n IH]; intros r fuel Hn Hr Hf.
  - assert (Z.to_nat (table_rows t - Z.of_nat r) = O) as E0 by lia. unfold rows_from in Hf |- *. unfold iter_rows. rewrite E0 in Hf |- *.
    cbn [range for_each fmap list_fmap mjoin list_join app] in Hf |- *. rewrite res_bind_ret.
    pose proof Hg as (_ & _ & _ & _ & Hls). destruct (stash_locked t Hok Hls) as [-> _]. rewrite res_bind_ret.
    by apply (stash_iterated (Z.to_nat (stash_size t - 0))).
  - rewrite rows_from_step, <-app_assoc in Hf |- * by lia. rewrite iter_rows_step by lia.
    apply cols_iterated; [lia|lia| |done]. intros fuel' Hf'. replace (Z.of_nat r + 1) with (Z.of_nat (S r)) in * by lia. apply IH; [lia|lia|done].
Qed.

(** *** The items are those of the promise *)

Lemma rows_from_items : rows_from t 0 ≡ₚ mjoin (c_rows C).
Proof.
  unfold rows_from. rewrite Z.sub_0_r, <-(rep_rows _ _ HC).
  assert (∀ (rows : list (list item)) a, (∀ (i : nat) row, rows !! i = Some row → row_rep t (a + i) row) →
    mjoin ((λ i, row_from t (Z.to_nat i) 0) <$> range (Z.of_nat a) (length rows)) ≡ₚ mjoin rows) as H;
    [|by apply (H _ O), (rep_row _ _ HC)].
  induction rows as [|row rows IH]; intros a Hrep; [done|]. cbn [length range]. rewrite fmap_cons, !mjoin_cons, Nat2Z.id. f_equiv.
  - destruct (Hrep O row eq_refl) as (o & f & (Ho & _ & _ & Ef) & -> & _). rewrite Nat.add_0_r in *. unfold row_from, row_items.
    rewrite Ef. cbn [default]. by rewrite Ho.
  - replace (Z.of_nat a + 1) with (Z.of_nat (S a)) by lia. apply IH. intros i row' E. replace (S a + i)%nat with (a + S i)%nat by lia.
    by apply Hrep.
Qed.

Lemma stash_from_items : stash_from t 0 = omap id (c_stash C).
Proof.
  unfold stash_from. rewrite Z.sub_0_r, <-(rep_stash_size _ _ HC).
  assert (∀ (l : list (option item)) a, (∀ (i : nat) x, l !! i = Some x → stash_rep t (a + i) x) →
    (λ i, stash_cell t (Z.to_nat i)) <$> filter (λ i, default 0 (stash_free_flag_field t !! Z.to_nat i) ≠ 0) (range (Z.of_nat a) (length l)) =
    omap id l) as H; [|by apply (H _ O), (rep_stash _ _ HC)].
  induction l as [|x l IH]; intros a Hrep; [done|]. cbn [length range]. rewrite filter_cons.
  destruct (Hrep O x eq_refl) as (f & Ef & ->). rewrite Nat.add_0_r in *.
  assert (default 0 (stash_free_flag_field t !! Z.to_nat (Z.of_nat a)) = f) as Ed by (by rewrite Nat2Z.id, Ef).
  replace (Z.of_nat a + 1) with (Z.of_nat (S a)) by lia.
  assert ((λ i, stash_cell t (Z.to_nat i)) <$> filter (λ i, default 0 (stash_free_flag_field t !! Z.to_nat i) ≠ 0) (range (Z.of_nat (S a)) (length l)) =
    omap id l) as E by (apply IH; intros i y Ey; replace (S a + i)%nat with (a + S i)%nat by lia; by apply Hrep).
  destruct (decide (f = 0)) as [E0|E0]; rewrite Ed; [rewrite decide_False by tauto|rewrite decide_True by done]; [exact E|].
  rewrite fmap_cons, Nat2Z.id, E. done.
Qed.

Lemma iter_all_items fuel : (length (rows_from t 0 ++ stash_from t 0) ≤ fuel)%nat →
  iter_all (S fuel) t fht_init_iter = Ok (t, rows_from t 0 ++ stash_from t 0).
Proof. intros Hf. cbn [iter_all]. exact (rows_iterated _ O fuel eq_refl ltac:(lia) Hf). Qed.
(** *** Leaving an iteration *)

Lemma small_row (r : nat) : (r < Z.to_nat (table_rows t))%nat → i32 (Z.of_nat r) = Z.of_nat r.
Proof.
  intros Hr. destruct (ok_rows t Hok) as (k & Hk & Erows). assert (2 ^ k ≤ 2 ^ 31) by (apply Z.pow_le_mono_r; lia).
  apply i32_small. lia.
Qed.

(** Giving an iterator up releases what it has locked. *)
Lemma iter_released (r : nat) c : (r < Z.to_nat (table_rows t))%nat →
  fht_destroy_iter (at_row r) (iter_at (at_row r) (Z.of_nat r) c) = Ok t ∧
  fht_reinit_iter (at_row r) (iter_at (at_row r) (Z.of_nat r) c) = Ok (t, fht_init_iter).
Proof.
  intros Hr. destruct (lock_here r Hr) as [_ Eu]. unfold fht_destroy_iter, fht_reinit_iter, iter_at. cbn [it_row].
  rewrite small_row by done. rewrite !(decide_False (P := _ = FHT_ITER_STASH)) by (unfold FHT_ITER_STASH; lia).
  rewrite res_bind_ret, !decide_True by lia. by rewrite Eu.
Qed.

(** The item of the iterator is removed from its row. *)
Lemma fht_remove_iter_spec (r : nat) c row : c_rows C !! r = Some row → 0 ≤ c < 4 → cell t r c ∈ row →
  used (default 0 (free_flag_field t !! r)) c →
  ∃ t', fht_remove_iter (at_row r) (iter_at (at_row r) (Z.of_nat r) c) =
      Ok (t', FhtIter (Z.of_nat r) c None None, 0) ∧
    cache_rep t' (set_row C r (c_drop (cell t r c).1 row)) ∧ same_frame (at_row r) t'.
Proof.
  intros Erow Hc Hin Hu. assert (r < Z.to_nat (table_rows t))%nat as Hr
    by (rewrite <-(rep_rows _ _ HC); by apply lookup_lt_Some in Erow).
  unfold fht_remove_iter, iter_at. cbn [it_row it_col]. rewrite small_row by done.
  rewrite !decide_False by (unfold FHT_ITER_START, FHT_ITER_END, FHT_ITER_STASH; lia).
  change (free_flag_field (at_row r)) with (free_flag_field t). rewrite flag_at, res_bind_ret by done.
  rewrite decide_True by exact Hu.
  assert (fht_ok (at_row r)) as Hok1 by (apply set_locks_ok; [by rewrite length_insert|done|done]).
  assert (cache_rep (at_row r) C) as HC1 by (by apply set_locks_rep).
  destruct (rep_row _ _ HC1 r row Erow) as (o & f & Hs & Eitems & Hnd). rewrite Eitems in Hnd.
  pose proof Hs as (_ & _ & _ & Ef). change (free_flag_field (at_row r)) with (free_flag_field t) in Ef. rewrite Ef in Hu.
  destruct (remove_col_row (at_row r) Hok1 r Hr o f Hs Hnd c Hc Hu) as (t' & -> & Hro & Hrow). rewrite res_bind_ret.
  exists t'. split; [done|]. split; [|apply Hro]. apply (rep_update (at_row r)); [done|done|]. rewrite Eitems. exact Hrow.
Qed.
End iteration.

(** ** Calls that keep a lock *)

Lemma fht_get_data_locked_unlock t key :
  ('(t, x) ← fht_get_data_locked t key;
   match x with Some (p, l) => t ← fht_unlock_data t l; Ok (t, Some p) | None => Ok (t, None) end) = fht_get_data t key.
Proof.
  unfold fht_get_data_locked, fht_get_data.
  destruct (key_row t key) as [row| |]; [rewrite !res_bind_ret|done..].
  destruct (lock_row t row) as [t1| |]; [rewrite !res_bind_ret|done..].
  destruct (find_col t1 row key) as [ [c|]| |]; [rewrite !res_bind_ret..|done|done].
  - destruct (touch t1 row c) as [t2| |]; [rewrite !res_bind_ret|done..].
    change (fht_unlock_data t2 (RowLock row)) with (unlock_row t2 row).
    assert (∀ t3, unlock_row t2 row = Ok t3 → data_size t3 = data_size t2) as Ed
      by (intros t3; unfold unlock_row; destruct (wr8 _ _ _); [rewrite res_bind_ret; by intros [= <-]|done..]).
    destruct (unlock_row t2 row) as [t3| |]; [|done..]. rewrite !res_bind_ret. by rewrite (Ed t3).
  - by destruct (unlock_row t1 row).
Qed.

(** An item that was found with its row locked can be removed; the row is free again. *)
Lemma fht_remove_locked_spec t0 t C key t1 p l : good t0 t C → blen key = key_size t0 →
  fht_get_data_locked t key = Ok (t1, Some (p, l)) →
  leaves t0 (fht_remove_locked t1 key l) (cache_remove (place t0) (cache_get (place t0) C key).1 key).1 (λ _ z, z = 0).
Proof.
  intros Hg Hk. destruct (enter t0 t C key Hg Hk) as (Er & u & El & Hok1 & HC1 & Hk1 & Hat & Hal & Hls & Hend).
  unfold fht_get_data_locked. rewrite Er, res_bind_ret, El, res_bind_ret.
  destruct (step_find u Hok1 C HC1 key Hk1 (place t0) Hat) as (x & -> & Hx). rewrite res_bind_ret.
  destruct x as [c|]; [|by destruct (Hend u C (same_frame_refl u) HC1) as (? & -> & _)].
  destruct Hx as (i & Efind & _ & Ekey & _ & (t2 & -> & Hro & HC2 & _) & _). rewrite res_bind_ret. intros [= <- <- <-].
  assert (same_frame u t2) as Hfr by apply Hro. pose proof (same_frame_ok _ _ Hfr Hok1) as Hok2.
  pose proof (fr_sizes _ _ Hfr) as [Eks _]. destruct (same_frame_place _ _ key Hfr) as [Ep Ekr].
  destruct (key_row_place t2 Hok2 key) as [Er2 _]; [by rewrite Eks|]. unfold fht_remove_locked. rewrite Er2, res_bind_ret.
  rewrite Ep, <-Hat. rewrite decide_True by done. unfold cache_get. rewrite Efind. cbn [fst].
  destruct (step_find t2 Hok2 _ HC2 key ltac:(by rewrite Eks) (place t0) ltac:(by rewrite Ep)) as (x & -> & Hx). rewrite res_bind_ret.
  assert (c_row (place t0) (c_set (place t0) C key (renew i (c_row (place t0) C key))) key = renew i (c_row (place t0) C key)) as Erow.
  { unfold c_row at 1, c_set, set_row. cbn. rewrite list_lookup_insert_eq; [done|]. rewrite Hat.
    rewrite (rep_rows _ _ HC1). by apply key_row_place. }
  assert (find_item key (renew i (c_row (place t0) C key)) = Some i) as Efind2.
  { unfold renew, find_item. cbn [find_split]. by rewrite decide_True. }
  unfold cache_remove. rewrite Erow, Efind2. destruct x as [d|]; [|by rewrite Erow, Efind2 in Hx].
  destruct Hx as (j & _ & _ & _ & _ & _ & (t3 & -> & Hro3 & HC3)). rewrite res_bind_ret. rewrite Erow in HC3.
  apply (leave t0 u); [done|etrans; [exact Hfr|apply Hro3]|exact HC3|done].
Qed.

(** A call for a row that an iterator stands on waits for ever. *)
Lemma locked_row_waits t (r : nat) v n : lock_table t !! r = Some v → v ≠ 0 →
  spin_lock n (lock_table t) (Z.of_nat r) = OutOfFuel ∧ lock_row t (Z.of_nat r) = OutOfFuel.
Proof. intros E Hv. unfold lock_row. by rewrite !(spin_lock_held _ _ _ _ E Hv). Qed.

(** ** Sizes that do not fit *)

(** [key_size * table_rows * 4] is computed with 32 bits: when less than one key is left of
    it, the first insertion writes behind the field. *)
Lemma fht_init_wraps rows ks ds ss t key data kl dl : fht_init rows ks ds ss = Some t →
  is_u32 rows → 0 < ks < 2147483648 → u32 (ks * rows * 4) < ks → blen key = ks →
  fht_insert t key data kl dl = Fault OobWrite.
Proof.
  intros Hi Hr Hks Hwrap Hk. assert (∀ key, hash_function t key (i32 ks) = hash key (i32 ks)) as Hhash by (intros; by eapply fht_init_hash).
  unfold fht_init in Hi. destruct (decide _) as [|N1] in Hi; [done|]. destruct (decide _) as [|N2] in Hi; [done|].
  destruct (decide _) as [|N3] in Hi; [done|]. destruct (decide _) as [|N4] in Hi; [done|].
  unfold is_u32 in *. apply Decidable.not_or in N1 as [N0 N1]. apply Decidable.dec_not_not in N1; [|apply Z.eq_decidable].
  destruct (power_of_two rows) as (k & Hk' & Erows); [lia|done|]. unfold FHT_TABLE_COLS in Hi.
  assert (u32 rows = rows) as Eu5 by (by apply Z.mod_small).
  assert (∃ r, key_row t key = Ok (Z.of_nat r) ∧ (r < Z.to_nat rows)%nat) as (r & Er & Hrr).
  { destruct (hash_total key ks) as (h & Eh & _); [lia|done|]. exists (Z.to_nat (Z.land (rows - 1) h)). unfold key_row.
    assert (key_size t = ks ∧ table_rows t = rows) as [-> ->] by (by injection Hi as <-).
    rewrite Hhash, i32_small, Eh, res_bind_ret by lia. unfold u32. rewrite Z.mod_small by lia.
    rewrite Z.land_comm. replace (rows - 1) with (Z.ones k) by (rewrite Z.ones_equiv; lia). rewrite Z.land_ones by lia.
    pose proof (Z.mod_pos_bound h (2 ^ k)). rewrite Z2Nat.id by lia. split; [done|lia]. }
  unfold fht_insert. rewrite Er, res_bind_ret. injection Hi as <-. unfold lock_row. cbn [lock_table lock_stash].
  assert (∀ n, (r < n)%nat → replicate n 0 !! r = Some 0) as Hrep by (intros; by apply lookup_replicate_2).
  rewrite (spin_lock_free _ _ 0 (Hrep (Z.to_nat (u32 rows)) ltac:(rewrite Eu5; lia))), !res_bind_ret.
  set (u := set_locks _ _ _). assert (rd8 (free_flag_field u) (Z.of_nat r) = Ok 0) as Ef
    by (apply rd8_at; cbn; apply Hrep; by rewrite Eu5).
  assert (find_col u (Z.of_nat r) key = Ok None) as ->.
  { unfold find_col. rewrite (for_each_find (λ _, False)); [reflexivity|]. intros c _. unfold col_matches.
    rewrite Ef, res_bind_ret, Z.land_0_l. cbn. done. }
  rewrite res_bind_ret, Ef, res_bind_ret, decide_True by done. unfold insert_free. rewrite Ef, res_bind_ret. cbn [rd8].
  change (rd8 lt_free_flag 0) with (@Ok Z 0). rewrite res_bind_ret. unfold put_item. cbn [key_size u set_locks key_field].
  rewrite (rdn_whole key), res_bind_ret by done. unfold wrn. rewrite decide_False; [reflexivity|]. intros [_ Hroom].
  unfold blen in Hroom at 2. rewrite length_replicate in Hroom.
  assert (0 ≤ u32 (ks * rows * 4)) by (apply Z.mod_pos_bound; lia).
  assert (0 ≤ col_off (Z.of_nat r) 0 ks) by (apply Z.mod_pos_bound; lia). lia.
Qed.

(** ** Properties *)

Section properties.
Context (rows ks ds ss : Z) (t : fht_table).

(** Parameters of [fht_init] that fit their types, and whose products do. *)
Definition init_fits (rows ks ds ss : Z) : Prop :=
  (is_u32 rows ∧ is_u32 ks ∧ is_u32 ds ∧ is_u32 ss) ∧
  (ks * rows * 4 < 4294967296 ∧ ds * rows * 4 < 4294967296 ∧ ss * ks < 4294967296 ∧ ss * ds < 4294967296).

Lemma init_calls ops : fht_init rows ks ds ss = Some t → init_fits rows ks ds ss → Forall (op_ok ks ds) ops →
  ∃ t', fht_calls t ops = Ok (t', (cache_calls (place t) (empty_cache rows ss) ops).2) ∧
    good t t' (cache_calls (place t) (empty_cache rows ss) ops).1.
Proof.
  intros Hi ((? & ? & ? & ?) & (? & ? & ? & ?)) Hops.
  destruct (fht_init_good rows ks ds ss t) as (Hg & Ek & Ed & _); [done..|]. rewrite <-Ek, <-Ed in Hops.
  by apply fht_calls_refine.
Qed.

(** C8: a new table refines the promise under every sequence of calls: the values
    returned, the items that are handed out as lost and the data found are those of rows
    that keep the four items used last and of the stash as a ring; no call faults or waits
    for a lock, and all locks are free again after each. *)
Theorem fht_refines_cache ops : fht_init rows ks ds ss = Some t → init_fits rows ks ds ss → Forall (op_ok ks ds) ops →
  ∃ t', fht_calls t ops = Ok (t', (cache_calls (place t) (empty_cache rows ss) ops).2) ∧
    cache_rep t' (cache_calls (place t) (empty_cache rows ss) ops).1 ∧ unlocked t'.
Proof.
  intros Hi Hfit Hops. destruct (init_calls ops Hi Hfit Hops) as (t' & E & (_ & _ & HC & Hu)). by exists t'.
Qed.

(** C9: after any calls on a new table an iterator gives every item that the table holds
    exactly once, comes to its end, and leaves the table and its locks as they were. *)
Theorem fht_iter_visits_all ops : fht_init rows ks ds ss = Some t → init_fits rows ks ds ss → Forall (op_ok ks ds) ops →
  ∃ t' os l, fht_calls t ops = Ok (t', os) ∧
    l ≡ₚ (let C := (cache_calls (place t) (empty_cache rows ss) ops).1 in mjoin (c_rows C) ++ omap id (c_stash C)) ∧
    ∀ fuel, (length l < fuel)%nat → iter_all fuel t' fht_init_iter = Ok (t', l).
Proof.
  intros Hi Hfit Hops. destruct (init_calls ops Hi Hfit Hops) as (t' & E & (_ & Hok & HC & Hu)).
  assert (good t' t' (cache_calls (place t) (empty_cache rows ss) ops).1) as Hg by done.
  eexists t', _, (rows_from t' 0 ++ stash_from t' 0). split; [exact E|]. split.
  - cbv zeta. by rewrite (rows_from_items t' _ Hg), (stash_from_items t' _ Hg).
  - intros [|fuel] Hf; [lia|]. apply (iter_all_items t' _ Hg). lia.
Qed.
End properties.

(** *** An example *)

(** Two rows for keys and data of one octet, a stash of two places; seven keys. *)
Definition example_ops : list fht_op :=
  ((λ k, OpInsertStash [k] [k + 100] (Some [0]) (Some [0])) <$> [1; 2; 3; 4; 5; 6; 7]) ++
  [OpGet [1]; OpGetStash [3]; OpRemoveStash [1]; OpRemove [2]; OpInsertStashWr [8] [108]].

Definition example_table : fht_table := default (FhtTable 0 0 0 0 0 [] [] [] [] [] [] [] [] [] hash) (fht_init 1 1 1 2).

Lemma example_init : fht_init 1 1 1 2 = Some example_table.
Proof. reflexivity. Qed.

Lemma example_fits : init_fits 1 1 1 2.
Proof. unfold init_fits, is_u32. lia. Qed.

Lemma example_ops_ok : Forall (op_ok 1 1) example_ops.
Proof. unfold example_ops. cbn. repeat constructor. Qed.

Example example_outcomes : snd <$> fht_calls example_table example_ops = Ok
  [Inserted 0 (Some [0]) (Some [0]); Inserted 0 (Some [0]) (Some [0]); Inserted 0 (Some [0]) (Some [0]);
   Inserted 0 (Some [0]) (Some [0]); Inserted 2 (Some [0]) (Some [0]); Inserted 2 (Some [0]) (Some [0]);
   Inserted 3 (Some [1]) (Some [101]); Found None; Found (Some [103]); Returned 1; Returned 1; Returned (-2)].
Proof. vm_compute. reflexivity. Qed.

Lemma fht_refines_cache_witness : ∃ t', fht_calls example_table example_ops =
    Ok (t', (cache_calls (place example_table) (empty_cache 1 2) example_ops).2) ∧
  cache_rep t' (cache_calls (place example_table) (empty_cache 1 2) example_ops).1 ∧ unlocked t'.
Proof. exact (fht_refines_cache 1 1 1 2 example_table example_ops example_init example_fits example_ops_ok). Defined.

Lemma fht_iter_visits_all_witness : ∃ t' os l, fht_calls example_table example_ops = Ok (t', os) ∧
  l ≡ₚ (let C := (cache_calls (place example_table) (empty_cache 1 2) example_ops).1 in mjoin (c_rows C) ++ omap id (c_stash C)) ∧
  ∀ fuel, (length l < fuel)%nat → iter_all fuel t' fht_init_iter = Ok (t', l).
Proof. exact (fht_iter_visits_all 1 1 1 2 example_table example_ops example_init example_fits example_ops_ok). Defined.
