(* ===== verification/Unirec.v ===== *)
(** * The UniRec plugin: records of the collector as UniRec records

    [storage/unirec/unirec.c]: the fields of the UniRec records are looked up by IPFIX
    element in a hash table ([parse_format] fills it, [match_field] asks it), a data
    record is copied field by field into the buffer of each output interface
    ([process_record], [process_dynamic]), and a buffer with all required fields is sent
    ([process_data_sets]).

    The fields are heap objects that several interfaces share; the value of a field of
    variable size is an address in the packet.  Sending ([trap_ctx_send] of libtrap) is
    an entry in [sent].  The host is little-endian. *)

From S2P Require Import Prelude CLib TemplateRecord DataRecord Message FastHash FastHashCache.

(** ** Data *)

Definition UNIREC_FIELD_OTHER : Z := 0.
Definition UNIREC_FIELD_IP : Z := 1.
Definition UNIREC_FIELD_PACKET : Z := 2.
Definition UNIREC_FIELD_TS : Z := 3.
Definition UNIREC_FIELD_DBF : Z := 4.
Definition UNIREC_FIELD_LBF : Z := 5.

Definition ODID_JOINFLOWS_METHOD : Z := 0.
Definition ODID_MANAGER_METHOD : Z := 1.

Definition MAX_DYNAMIC_FIELD_SIZE : Z := 512.
Definition FIELDS_HT_KEYSIZE : Z := 8.
Definition FIELDS_HT_STASH_SIZE : Z := 4.
Definition UNIREC_DATA_TYPES_COUNT : Z := 15.

Record ipfixElement := { el_id : Z; el_en : Z }.

(** The arrays of a field have an entry for each interface; [ipfix] has
    [ipfixCount] elements. *)
Record unirecField := UnirecField {
  name : bytes;
  type : Z;
  unirec_type : Z;
  size : Z;
  required_ar : list Z;
  included_ar : list Z;
  offset_ar : list Z;
  value : option Z;
  valueSize : Z;
  valueFilled : Z;
  ipfix : list ipfixElement
}.

Record ifc_config := IfcConfig {
  number : Z;
  buffer : bytes;
  bufferDynSize : Z;
  bufferOffset : Z;
  requiredCount : Z;
  requiredFilled : Z;
  bufferStaticSize : Z;
  dynamic : Z;
  dynAr : list loc
}.

Record unirec_config := UnirecConfig {
  field_heap : gmap loc unirecField;
  conf_fields : list loc;
  ifc : list ifc_config;
  odid : Z;
  LBF_field : option loc;
  ODID_get_method : Z;
  ht_fields : fht_table;
  sent : list (Z * bytes)
}.

(** Assignments. *)
Definition set_value (f : unirecField) (v : option Z) (sz filled : Z) : unirecField :=
  UnirecField (name f) (type f) (unirec_type f) (size f) (required_ar f) (included_ar f) (offset_ar f) v sz filled (ipfix f).
Definition set_buffer (c : ifc_config) (b : bytes) : ifc_config :=
  IfcConfig (number c) b (bufferDynSize c) (bufferOffset c) (requiredCount c) (requiredFilled c) (bufferStaticSize c) (dynamic c) (dynAr c).
Definition set_filled (c : ifc_config) (n : Z) : ifc_config :=
  IfcConfig (number c) (buffer c) (bufferDynSize c) (bufferOffset c) (requiredCount c) n (bufferStaticSize c) (dynamic c) (dynAr c).
Definition set_dyn (c : ifc_config) (off sz : Z) : ifc_config :=
  IfcConfig (number c) (buffer c) sz off (requiredCount c) (requiredFilled c) (bufferStaticSize c) (dynamic c) (dynAr c).

Definition set_heap (conf : unirec_config) (h : gmap loc unirecField) : unirec_config :=
  UnirecConfig h (conf_fields conf) (ifc conf) (odid conf) (LBF_field conf) (ODID_get_method conf) (ht_fields conf) (sent conf).
Definition set_ifcs (conf : unirec_config) (l : list ifc_config) : unirec_config :=
  UnirecConfig (field_heap conf) (conf_fields conf) l (odid conf) (LBF_field conf) (ODID_get_method conf) (ht_fields conf) (sent conf).
Definition set_ht (conf : unirec_config) (t : fht_table) : unirec_config :=
  UnirecConfig (field_heap conf) (conf_fields conf) (ifc conf) (odid conf) (LBF_field conf) (ODID_get_method conf) t (sent conf).
Definition set_odid (conf : unirec_config) (n : Z) : unirec_config :=
  UnirecConfig (field_heap conf) (conf_fields conf) (ifc conf) n (LBF_field conf) (ODID_get_method conf) (ht_fields conf) (sent conf).
Definition add_sent (conf : unirec_config) (x : Z * bytes) : unirec_config :=
  UnirecConfig (field_heap conf) (conf_fields conf) (ifc conf) (odid conf) (LBF_field conf) (ODID_get_method conf) (ht_fields conf) (sent conf ++ [x]).

(** ** Memory *)

(** A store of a number on the little-endian host, and [be64toh] of a load. *)
Definition wr_le (m : bytes) (p : Z) (n : nat) (v : Z) : res bytes := wrn m p (enc_le n v).
Definition rd64 (m : bytes) (p : Z) : res Z := a ← rd32 m p; b ← rd32 m (p + 4); Ok (a * 4294967296 + b).

(** [strnlen] *)
Definition strnlen (mem : bytes) (p n : Z) : res Z :=
  r ← for_each (λ i _, c ← rd8 mem (p + i); Ok (if decide (c = 0) then inr i else inl tt)) (range 0 (Z.to_nat n)) tt;
  Ok (match r with inr i => i | inl _ => n end).

Definition get {A} (l : list A) (i : Z) : res A := if decide (0 ≤ i) then or_fault OobRead (l !! Z.to_nat i) else Fault OobRead.

(** [1LLU << (n - 1)]: the host takes the count modulo 64 (for other counts than those
    from 0 to 63 the language leaves the value open). *)
Definition link_bit (n : Z) : Z := Z.shiftl 1 ((n - 1) mod 64).

(** The octets [dst] gets; for 16 octets the second half goes to [dst + 16]. *)
Definition data_copy (b : bytes) (dst : Z) (mem : bytes) (src len : Z) : res bytes :=
  if decide (len = 1) then v ← rd8 mem src; wr8 b dst v
  else if decide (len = 2) then v ← rd16 mem src; wr_le b dst 2 v
  else if decide (len = 4) then v ← rd32 mem src; wr_le b dst 4 v
  else if decide (len = 8) then v ← rd64 mem src; wr_le b dst 8 v
  else if decide (len = 16) then
    v ← rd64 mem src; b ← wr_le b dst 8 v;
    v ← rd64 mem (src + 16); wr_le b (dst + 16) 8 v
  else x ← rdn mem src len; wrn b dst x.

(** ** Look-up of fields *)

Definition element_key (en id : Z) : bytes := enc_le 8 (Z.lor (Z.shiftl en 32) id).

(** Pointers to fields are the data of the table. *)
Definition ptr_bytes (l : loc) : bytes := enc_le 8 (Z.pos l).
Definition bytes_ptr (x : bytes) : option loc := match dec_le x with Z.pos l => Some l | _ => None end.

(** The field, the identifier and the enterprise number of the element in row [index]. *)
Definition match_field (rows : list Z) (index : Z) (ht : fht_table) : res (fht_table * option loc * Z * Z) :=
  w ← rd_row rows index;
  let id := ie_id w in
  '(en, id) ← (if decide (Z.shiftr id 15 ≠ 0) then e ← rd_row rows (index + 1); Ok (enterprise_number e, Z.land id 0x7FFF)
               else Ok (0, id));
  '(ht, tmp) ← fht_get_data ht (element_key en id);
  match tmp with
  | None => Ok (ht, None, id, en)
  | Some p => x ← deref_item ht p; Ok (ht, bytes_ptr x, id, en)
  end.

(** [parse_format], "Create fash hash table from fields list": the elements of a field,
    until one pushes another out; [inr] leaves both loops. *)
Definition insert_elements (l : loc) (els : list ipfixElement) (ht : fht_table) : res (fht_table + fht_table) :=
  for_each (λ e ht,
      '(ht, (ret, _)) ← fht_insert ht (element_key (el_en e) (el_id e)) (ptr_bytes l) None None;
      Ok (if decide (ret = FHT_INSERT_LOST) then inr ht else inl ht)) els ht.

Definition insert_fields (heap : gmap loc unirecField) (fields : list loc) (ht : fht_table) : res (fht_table + fht_table) :=
  for_each (λ l ht, f ← deref heap l; insert_elements l (ipfix f) ht) fields ht.

(** The rounds 5 to 10 with tables of 32 to 1024 rows; [None]: no table is large enough. *)
Definition create_table (heap : gmap loc unirecField) (fields : list loc) : res (option fht_table) :=
  r ← for_each (λ round (_ : unit),
        ht ← or_fault NullDeref (fht_init (Z.shiftl 1 round) FIELDS_HT_KEYSIZE 8 FIELDS_HT_STASH_SIZE);
        r ← insert_fields heap fields ht;
        Ok (match r with inl ht => inr ht | inr _ => inl tt end)) (range 5 6) tt;
  Ok (match r with inr ht => Some ht | inl _ => None end).

(** ** Records *)

(** A value into the buffer of an interface: [off] is the address of the field, behind
    which [size_length] octets tell the length of the value.  A negative size is a huge
    number for [memset]. *)
Definition store_static (mem : bytes) (method : Z) (f : unirecField) (dst ielen id en off size_length length : Z) (b : bytes) : res bytes :=
  let src := off + size_length in
  if decide (type f = UNIREC_FIELD_IP) then
    if decide ((en = 0 ∧ (id = 8 ∨ id = 12)) ∨ (en = 39499 ∧ id = 40)) then
      b ← wr_le b dst 8 0; x ← rdn mem src 4; b ← wrn b (dst + 8) x; wr_le b (dst + 12) 4 0xffffffff
    else x ← rdn mem src length; wrn b dst x
  else if decide (type f = UNIREC_FIELD_PACKET) then
    v ← (if decide (ielen = 4) then rd32 mem src else if decide (ielen = 8) then rd32 mem (src + 4) else Ok 0xFFFFFFFF);
    wr_le b dst 4 v
  else if decide (type f = UNIREC_FIELD_TS) then
    msec ← rd64 mem src;
    let sec := msec / 1000 in
    let frac := Z.shiftr (u64 ((msec mod 1000) * 0x4189374BC6A7EF)) 32 in
    wr_le b dst 8 (Z.lor (u64 (Z.shiftl sec 32)) frac)
  else if decide (type f = UNIREC_FIELD_DBF) then v ← rd8 mem (off + (length - 1)); wr8 b dst (Z.land v 1)
  else if decide (type f = UNIREC_FIELD_LBF) then
    if decide (method = ODID_JOINFLOWS_METHOD) then v ← rd8 mem (src + 3); wr_le b dst 8 (link_bit v) else Ok b
  else if decide (size f >= length) then data_copy b dst mem src length
  else if decide (size f < 0) then Fault OobWrite
  else memset b dst 0xFF (size f).

(** The loops over the interfaces that a field is included in. *)
Definition for_ifcs (f : unirecField) (g : Z → ifc_config → res ifc_config) (l : list ifc_config) : res (list ifc_config) :=
  fold_res (λ l i,
      inc ← get (included_ar f) i;
      if decide (inc ≠ 0) then
        c ← get l i; c ← g i c; Ok (<[Z.to_nat i := c]> l)
      else Ok l) (range 0 (length l)) l.

(** [requiredFilled] has 8 bits. *)
Definition count_required (f : unirecField) (i : Z) (c : ifc_config) : res ifc_config :=
  r ← get (required_ar f) i; Ok (set_filled c (u8 (requiredFilled c + r))).

(** "Copy the element value on match". *)
Definition store_value (mem : bytes) (l : loc) (ielen id en off size_length length : Z) (conf : unirec_config) : res unirec_config :=
  f ← deref (field_heap conf) l;
  if decide (size f ≠ -1) then
    ifcs ← for_ifcs f (λ i c,
             dst ← get (offset_ar f) i;
             b ← store_static mem (ODID_get_method conf) f dst ielen id en off size_length length (buffer c);
             count_required f i (set_buffer c b)) (ifc conf);
    Ok (set_ifcs conf ifcs)
  else
    sz ← (if decide (unirec_type f = 0) then strnlen mem (off + size_length) length else Ok length);
    let conf := set_heap conf (<[l := set_value f (Some (off + size_length)) (u16 sz) 1]> (field_heap conf)) in
    ifcs ← for_ifcs f (count_required f) (ifc conf);
    Ok (set_ifcs conf ifcs).

(** Length of a value and of the length in front of it. *)
Definition value_length (mem : bytes) (off ielen : Z) : res (Z * Z) :=
  if decide (ielen = VAR_IE_LENGTH) then
    n ← rd8 mem off;
    if decide (n = 255) then n ← rd16 mem (off + 1); Ok (n, 3) else Ok (n, 1)
  else Ok (ielen, 0).

(** A turn of the loop over the fields, on [(count, index, offset, conf)]; these
    counters have 16 bits. *)
Definition process_record_step (mem : bytes) (rec : Z) (t : ipfix_template) (s : Z * Z * Z * unirec_config) :
    res ((Z * Z * Z * unirec_config) + (unirec_config * Z)) :=
  let '(count, index, offset, conf) := s in
  if decide (count < field_count t) then
    '(ht, matched, id, en) ← match_field (fields t) index (ht_fields conf);
    let conf := set_ht conf ht in
    w ← rd_row (fields t) index;
    '(length, size_length) ← value_length mem (rec + offset) (ie_length w);
    conf ← (match matched with
            | Some l => store_value mem l (ie_length w) id en (rec + offset) size_length length conf
            | None => Ok conf
            end);
    let index := if decide (Z.shiftr (ie_id w) 15 ≠ 0) then u16 (index + 1) else index in
    Ok (inl (u16 (count + 1), u16 (index + 1), u16 (offset + (length + size_length)), conf))
  else Ok (inr (conf, offset)).

(** The link bit of the observation domain. *)
Definition store_link_bit (conf : unirec_config) : res unirec_config :=
  if decide (ODID_get_method conf = ODID_MANAGER_METHOD) then
    ifcs ← fold_res (λ l i,
             p ← or_fault NullDeref (LBF_field conf); f ← deref (field_heap conf) p;
             inc ← get (included_ar f) i;
             if decide (inc ≠ 0) then
               c ← get l i; dst ← get (offset_ar f) i;
               b ← wr_le (buffer c) dst 8 (link_bit (odid conf)); Ok (<[Z.to_nat i := set_buffer c b]> l)
             else Ok l) (range 0 (length (ifc conf))) (ifc conf);
    Ok (set_ifcs conf ifcs)
  else Ok conf.

(** The result is the length of the record, 0 without a template. *)
Definition process_record (mem : bytes) (rec : Z) (t : option ipfix_template) (conf : unirec_config) : res (unirec_config * Z) :=
  match t with
  | None => Ok (conf, 0)
  | Some t =>
      conf ← store_link_bit conf;
      loop (process_record_step mem rec t) (S (Z.to_nat (field_count t))) (0, 0, 0, conf)
  end.

(** A field of variable size: where its value starts among the values of variable size
    and its size into the fixed part, the value behind what is there. *)
Definition process_dynamic_step (mem : bytes) (s : gmap loc unirecField * ifc_config) (l : loc) :
    res (gmap loc unirecField * ifc_config) :=
  let '(heap, c) := s in
  f ← deref heap l;
  let sz := if decide (valueSize f > MAX_DYNAMIC_FIELD_SIZE) then MAX_DYNAMIC_FIELD_SIZE else valueSize f in
  dst ← get (offset_ar f) (number c);
  b ← wr_le (buffer c) dst 2 (u16 (bufferDynSize c));
  b ← wr_le b (dst + 2) 2 (u16 sz);
  if decide (valueFilled f ≠ 0) then
    p ← or_fault NullDeref (value f);
    x ← rdn mem p sz; b ← wrn b (bufferOffset c) x;
    Ok (<[l := set_value f (value f) 0 0]> heap, set_dyn (set_buffer c b) (bufferOffset c + sz) (bufferDynSize c + sz))
  else Ok (heap, set_buffer c b).

Definition process_dynamic (mem : bytes) (heap : gmap loc unirecField) (c : ifc_config) : res (gmap loc unirecField * ifc_config) :=
  fold_res (process_dynamic_step mem) (dynAr c) (heap, set_dyn c (bufferStaticSize c) (bufferDynSize c)).

(** The fields that are not sent forget their values. *)
Definition forget_values (heap : gmap loc unirecField) (ls : list loc) : res (gmap loc unirecField) :=
  fold_res (λ heap l, f ← deref heap l; Ok (<[l := set_value f (value f) 0 0]> heap)) ls heap.

(** A record for interface [i]. *)
Definition send_record (mem : bytes) (conf : unirec_config) (i : Z) : res unirec_config :=
  c ← get (ifc conf) i;
  '(conf, c) ← (if decide (requiredCount c = requiredFilled c) then
                  '(heap, c) ← (if decide (dynamic c ≠ 0) then process_dynamic mem (field_heap conf) c else Ok (field_heap conf, c));
                  x ← rdn (buffer c) 0 (bufferStaticSize c + bufferDynSize c);
                  Ok (add_sent (set_heap conf heap) (number c, x), c)
                else heap ← forget_values (field_heap conf) (dynAr c); Ok (set_heap conf heap, c));
  b ← memset (buffer c) 0 0 (bufferStaticSize c);
  Ok (set_ifcs conf (<[Z.to_nat i := set_dyn (set_filled (set_buffer c b) 0) (bufferOffset c) 0]> (ifc conf))).

(** A turn of the loop over the records of a set, on [(offset, conf)]; [inr] with [-1]
    is the return of [process_data_sets], with 0 the end of the set. *)
Definition data_records_step (mem : bytes) (set set_len min_len : Z) (t : ipfix_template) (s : Z * unirec_config) :
    res ((Z * unirec_config) + (unirec_config * Z)) :=
  let '(offset, conf) := s in
  if decide (set_len - offset - min_len >= 0) then
    '(conf, ret) ← process_record mem (set + offset) (Some t) conf;
    if decide (ret = 0) then Ok (inr (conf, -1))
    else
      conf ← fold_res (send_record mem) (range 0 (length (ifc conf))) conf;
      Ok (inl (u32 (offset + ret), conf))
  else Ok (inr (conf, 0)).

(** One entry of [data_couple]; [inr] is the return with [-1]. *)
Definition process_couple (mem : bytes) (theap : gmap loc ipfix_template) (cp : Z * option loc) (conf : unirec_config) :
    res (unirec_config + unirec_config) :=
  match cp.2 with
  | None => Ok (inl conf)
  | Some l =>
      t ← deref theap l;
      set_len ← rd16 mem (cp.1 + 2);
      '(conf, ret) ← loop (data_records_step mem cp.1 set_len (set_min_length16 t) t) data_set_fuel (4, conf);
      Ok (if decide (ret = 0) then inl conf else inr conf)
  end.

Definition process_data_sets (theap : gmap loc ipfix_template) (msg : ipfix_message) (conf : unirec_config) : res (unirec_config * Z) :=
  mem ← or_fault NullDeref (pkt_header msg);
  n ← rd32 mem 12;
  let conf := set_odid conf (u16 n) in
  r ← for_each (process_couple mem theap) (data_couple msg) conf;
  Ok (match r with inl conf => (conf, 0) | inr conf => (conf, -1) end).

(** [if (!process_data_sets(...)) return -1;] *)
Definition store_packet (theap : gmap loc ipfix_template) (conf : option unirec_config) (msg : option ipfix_message) :
    res (option unirec_config * Z) :=
  match conf, msg with
  | Some conf, Some msg =>
      '(conf, r) ← process_data_sets theap msg conf;
      Ok (Some conf, if decide (r = 0) then -1 else 0)
  | _, _ => Ok (conf, -1)
  end.

Definition store_now (conf : option unirec_config) : Z := match conf with None => -1 | Some _ => 0 end.

(** ** Theory: numbers in memory *)

Lemma lor_shift32 a b : 0 ≤ a → 0 ≤ b < 4294967296 → Z.lor (Z.shiftl a 32) b = a * 4294967296 + b.
Proof.
  intros Ha Hb. rewrite Z.shiftl_mul_pow2 by lia. change (2 ^ 32) with 4294967296.
  symmetry. rewrite <-Z.lxor_lor, Z.add_nocarry_lxor; [done|..]; apply Z.bits_inj'; intros i Hi; rewrite Z.land_spec, Z.bits_0;
    change 4294967296 with (2 ^ 32); (destruct (decide (i < 32)); [by rewrite Z.mul_pow2_bits_low|]);
    (rewrite (Z.bits_above_log2 b), andb_false_r; [done|lia|]);
    (destruct (decide (b = 0)) as [->|]; [cbn; lia|]); (apply (Z.lt_le_trans _ 32); [apply Z.log2_lt_pow2; lia|lia]).
Qed.

(** Keys of elements differ. *)
Lemma element_key_inj en id en' id' : is_u32 en → is_u16 id → is_u32 en' → is_u16 id' →
  element_key en id = element_key en' id' → en = en' ∧ id = id'.
Proof.
  unfold is_u32, is_u16, element_key. intros Hen Hid Hen' Hid' E. rewrite !lor_shift32 in E by lia.
  apply (enc_le_inj 8) in E; [lia|..]; change (256 ^ Z.of_nat 8) with 18446744073709551616; lia.
Qed.

Lemma bytes_ptr_bytes l : Z.pos l < 2 ^ 64 → bytes_ptr (ptr_bytes l) = Some l.
Proof. intros Hl. unfold bytes_ptr, ptr_bytes. rewrite dec_enc_le; [done|]. change (256 ^ Z.of_nat 8) with (2 ^ 64). lia. Qed.

(** ** The table of fields *)

(** The data that a table holds for the keys, whatever was used last. *)
Definition holds (t0 t : fht_table) (m : bytes → option bytes) : Prop :=
  ∃ C, good t0 t C ∧ ∀ key, blen key = key_size t0 → snd <$> find_item key (c_row (place t0) C key) = m key.

Section holds.
Context (t0 : fht_table).
Let at_row := place t0.
Implicit Types (t : fht_table) (C : cache) (key data : bytes) (row : list item).

Lemma c_row_set C key row key' : (at_row key < length (c_rows C))%nat →
  c_row at_row (c_set at_row C key row) key' = if decide (at_row key' = at_row key) then row else c_row at_row C key'.
Proof.
  intros Hlt. unfold c_row, c_set, set_row. cbn. case_decide as E; [rewrite E|]; [by rewrite list_lookup_insert_eq|by rewrite list_lookup_insert_ne].
Qed.

Lemma find_item_elem key row i : find_item key row = Some i → i ∈ row ∧ i.1 = key.
Proof.
  unfold find_item. destruct (find_split (λ i : item, i.1 = key) row) as [ [l x]|] eqn:E; [|done]. intros [= ->].
  apply find_split_Some in E as (r & -> & _ & Hi). split; [set_solver|done].
Qed.

Lemma find_item_renew key row i key' : find_item key row = Some i → NoDup row.*1 →
  find_item key' (renew i row) = find_item key' row.
Proof.
  intros Hf Hnd. destruct (find_item_elem _ _ _ Hf) as [Hi Hk]. unfold renew.
  assert (∀ j, j ∈ i :: filter (λ j : item, j.1 ≠ i.1) row ↔ j ∈ row) as Hel.
  { intros j. rewrite elem_of_cons, list_elem_of_filter. split; [naive_solver|]. intros Hj.
    destruct (decide (j.1 = i.1)) as [E|]; [left; by apply (NoDup_key_eq row)|by right]. }
  assert (NoDup (i :: filter (λ j : item, j.1 ≠ i.1) row).*1) as Hnd'.
  { rewrite fmap_cons. apply NoDup_cons. split; [|by apply NoDup_keys_filter].
    intros (j & E & [Hj _]%list_elem_of_filter)%list_elem_of_fmap. congruence. }
  destruct (find_item key' row) as [j|] eqn:E.
  - apply find_item_elem in E as [Hj Hjk]. apply find_item_Some; [done|by apply Hel|done].
  - apply find_item_None in E. apply find_item_None. rewrite list_elem_of_fmap. intros (j & -> & Hj%Hel).
    apply E. by apply list_elem_of_fmap_2.
Qed.

Lemma good_row t C key : good t0 t C → blen key = key_size t0 →
  (at_row key < length (c_rows C))%nat ∧ NoDup (c_row at_row C key).*1.
Proof.
  intros Hg Hk. pose proof (at_row_bound t0 t C key Hg Hk) as Hr. destruct Hg as (_ & _ & HC & _).
  rewrite (rep_rows _ _ HC). split; [done|]. unfold c_row, at_row. destruct (c_rows C !! place t0 key) as [row|] eqn:E; cbn [default]; [|constructor].
  destruct (rep_row _ _ HC _ _ E) as (o & f & _ & -> & Hnd). done.
Qed.

Lemma holds_get t m key : holds t0 t m → blen key = key_size t0 →
  ∃ t' p, fht_get_data t key = Ok (t', p) ∧ holds t0 t' m ∧
    match p with Some p => (Some <$> deref_item t' p) = Ok (m key) | None => m key = None end.
Proof.
  intros (C & Hg & Hm) Hk. destruct (fht_get_data_spec t0 t C key Hg Hk) as (t' & p & E & Hg' & Hp).
  exists t', p. split; [done|]. destruct (good_row t C key Hg Hk) as [Hr Hnd]. unfold cache_get in Hg', Hp. fold at_row in Hg', Hp.
  pose proof (Hm key Hk) as Hmk. fold at_row in Hmk.
  destruct (find_item key (c_row at_row C key)) as [i|] eqn:Ef; cbn [fst snd fmap option_fmap option_map] in *.
  - split; [|by rewrite <-Hmk]. eexists. split; [exact Hg'|]. intros key' Hk'. rewrite <-Hm by done. fold at_row.
    rewrite c_row_set by done. case_decide as Er; [|done]. f_equal.
    replace (c_row at_row C key) with (c_row at_row C key') by (unfold c_row; by rewrite Er).
    apply (find_item_renew key); [|]; unfold c_row in *; by rewrite Er.
  - split; [by exists C|]. rewrite <-Hmk. by destruct p.
Qed.

Lemma holds_insert t m key data : holds t0 t m → blen key = key_size t0 → blen data = data_size t0 →
  ∃ t' ret, fht_insert t key data None None = Ok (t', (ret, (None, None))) ∧
    (ret = FHT_INSERT_LOST ∨
     ret ≠ FHT_INSERT_LOST ∧ holds t0 t' (λ k, if decide (k = key) then Some (default data (m key)) else m k)).
Proof.
  intros (C & Hg & Hm) Hk Hd.
  destruct (fht_insert_spec t0 t C key data None None Hg Hk Hd I I) as (t' & [ret lost] & E & Hg' & Hrep).
  destruct (good_row t C key Hg Hk) as [Hr Hnd]. unfold reports in Hrep. cbn [stored] in Hrep. injection Hrep as Eret ->.
  exists t', ret. split; [done|]. unfold cache_insert in Hg', Eret. fold at_row in Hg', Eret.
  pose proof (Hm key Hk) as Hmk. fold at_row in Hmk.
  destruct (find_item key (c_row at_row C key)) as [i|] eqn:Ef; cbn [fst snd] in *.
  - right. rewrite Eret. split; [done|]. eexists. split; [exact Hg'|]. intros key' Hk'. fold at_row. rewrite c_row_set by done.
    rewrite <-Hmk. cbn [default fmap option_fmap option_map].
    case_decide as Er.
    + rewrite (find_item_renew key) by done. case_decide as Ek; [by rewrite Ek, Ef|].
      rewrite <-Hm by done. fold at_row. unfold c_row. by rewrite Er.
    + rewrite (decide_False (P := key' = key)) by congruence. by rewrite <-Hm.
  - destruct (decide (length (c_row at_row C key) < 4)%nat) as [Hlen|]; cbn [fst snd] in *; [|by left]. right. rewrite Eret. split; [done|].
    eexists. split; [exact Hg'|]. intros key' Hk'. fold at_row. unfold c_put. cbn [fst]. rewrite (decide_True (P := (length _ < 4)%nat)) by done.
    rewrite c_row_set by done. rewrite <-Hmk. cbn [default fmap option_fmap option_map].
    case_decide as Er.
    + unfold find_item at 1. cbn [find_split fst]. destruct (decide (key = key')) as [<-|Hne].
      * by rewrite decide_True.
      * rewrite (decide_False (P := key' = key)) by congruence. rewrite <-Hm by done. fold at_row. unfold find_item, c_row. rewrite Er.
        by destruct (find_split _ (default [] (c_rows C !! at_row key))) as [ [l x]|].
    + rewrite (decide_False (P := key' = key)) by congruence. by rewrite <-Hm.
Qed.
End holds.

(** *** Filling the table *)

(** The keys and pointers of a list of fields, in the order of the insertions. *)
Definition element_entries (l : loc) (els : list ipfixElement) : list item :=
  (λ e, (element_key (el_en e) (el_id e), ptr_bytes l)) <$> els.
Definition field_entries (heap : gmap loc unirecField) (fields : list loc) : list item :=
  mjoin ((λ l, match heap !! l with Some f => element_entries l (ipfix f) | None => [] end) <$> fields).

Definition entry (es : list item) (key : bytes) : option bytes := snd <$> find_item key es.

Lemma entry_snoc es key d k : entry (es ++ [(key, d)]) k =
  if decide (k = key) then Some (default d (entry es key)) else entry es k.
Proof.
  unfold entry. assert (find_item k (es ++ [(key, d)]) =
    match find_item k es with Some i => Some i | None => if decide (key = k) then Some (key, d) else None end) as E.
  { unfold find_item. induction es as [|i es IH]; cbn [app find_split fst].
    - by destruct (decide (key = k)).
    - destruct (decide (i.1 = k)); [done|]. destruct (find_split _ (es ++ _)) as [ [l x]|], (find_split _ es) as [ [l' x']|]; cbn in *; unfold id; congruence. }
  rewrite E. destruct (decide (k = key)) as [->|Hne].
  - destruct (find_item key es) as [i|]; [done|]. by rewrite decide_True.
  - rewrite (decide_False (P := key = k)) by congruence. by destruct (find_item k es).
Qed.

Lemma holds_ext t0 t m m' : (∀ k, m k = m' k) → holds t0 t m → holds t0 t m'.
Proof. intros E (C & Hg & Hm). exists C. split; [done|]. intros k Hk. by rewrite Hm. Qed.

Lemma blen_element_key en id : blen (element_key en id) = 8.
Proof. unfold blen, element_key. by rewrite length_enc_le. Qed.
Lemma blen_ptr_bytes l : blen (ptr_bytes l) = 8.
Proof. unfold blen, ptr_bytes. by rewrite length_enc_le. Qed.

Section filling.
Context (t0 : fht_table) (Hks : key_size t0 = 8) (Hds : data_size t0 = 8).

Lemma insert_elements_spec l els es t : holds t0 t (entry es) →
  ∃ r, insert_elements l els t = Ok r ∧
    match r with inl t' => holds t0 t' (entry (es ++ element_entries l els)) | inr _ => True end.
Proof.
  revert es t. induction els as [|e els IH]; intros es t Ht; [exists (inl t); cbn; by rewrite app_nil_r|].
  unfold insert_elements. cbn [for_each].
  destruct (holds_insert t0 t (entry es) (element_key (el_en e) (el_id e)) (ptr_bytes l) Ht) as (t' & ret & -> & Hret);
    [by rewrite Hks, blen_element_key|by rewrite Hds, blen_ptr_bytes|].
  rewrite res_bind_ret. destruct Hret as [->|[Hne Hret] ].
  - rewrite decide_True, res_bind_ret by done. by eexists.
  - rewrite decide_False, res_bind_ret by done.
    destruct (IH (es ++ [(element_key (el_en e) (el_id e), ptr_bytes l)]) t') as (r & E & Hr).
    + eapply holds_ext; [|exact Hret]. intros k. symmetry. apply entry_snoc.
    + exists r. split; [exact E|]. destruct r; [|done]. by rewrite <-app_assoc in Hr.
Qed.

Lemma insert_fields_spec heap fields es t : Forall (λ l, is_Some (heap !! l)) fields → holds t0 t (entry es) →
  ∃ r, insert_fields heap fields t = Ok r ∧
    match r with inl t' => holds t0 t' (entry (es ++ field_entries heap fields)) | inr _ => True end.
Proof.
  intros Hall. revert es t. induction Hall as [|l fields [f Ef] _ IH]; intros es t Ht.
  - exists (inl t). unfold field_entries. cbn. by rewrite app_nil_r.
  - unfold insert_fields. cbn [for_each]. unfold deref. rewrite Ef. cbn [or_fault]. rewrite res_bind_ret.
    destruct (insert_elements_spec l (ipfix f) es t Ht) as ([t'|t'] & -> & Hr); rewrite res_bind_ret; [|by eexists].
    destruct (IH _ _ Hr) as (r & E & Hr'). exists r. split; [exact E|]. destruct r; [|done].
    unfold field_entries in *. cbn [fmap list_fmap]. rewrite mjoin_cons, Ef. by rewrite <-app_assoc in Hr'.
Qed.
End filling.

Lemma new_table_holds round : 5 ≤ round ≤ 10 → ∃ t, fht_init (Z.shiftl 1 round) FIELDS_HT_KEYSIZE 8 FIELDS_HT_STASH_SIZE = Some t ∧
  key_size t = 8 ∧ data_size t = 8 ∧ holds t t (entry []).
Proof.
  intros Hr.
  assert (∃ t, fht_init (Z.shiftl 1 round) FIELDS_HT_KEYSIZE 8 FIELDS_HT_STASH_SIZE = Some t) as [t Et].
  { unfold fht_init, FIELDS_HT_KEYSIZE, FIELDS_HT_STASH_SIZE.
    assert (¬ (Z.shiftl 1 round = 0 ∨ Z.land (Z.shiftl 1 round) (u32 (Z.shiftl 1 round - 1)) ≠ 0)) as H1.
    { assert (round ∈ range 5 6) as Hin by (apply elem_of_range; lia).
      assert (Forall (λ r, ¬ (Z.shiftl 1 r = 0 ∨ Z.land (Z.shiftl 1 r) (u32 (Z.shiftl 1 r - 1)) ≠ 0)) (range 5 6)) as H
        by (apply (bool_decide_unpack _); vm_compute; exact I). exact (Forall_elem H Hin). }
    rewrite decide_False by done. rewrite !decide_False by (apply (bool_decide_unpack _); vm_compute; exact I). by eexists. }
  exists t. split; [done|]. rewrite Z.shiftl_1_l in Et.
  assert (32 ≤ 2 ^ round ≤ 1024) as H2 by (split; [apply (Z.pow_le_mono_r 2 5 round)|apply (Z.pow_le_mono_r 2 round 10)]; lia).
  destruct (fht_init_good _ _ _ _ _ Et) as (Hg & Hk & Hd & _); unfold is_u32, FIELDS_HT_KEYSIZE, FIELDS_HT_STASH_SIZE; try lia.
  split; [done|]. split; [done|]. eexists. split; [exact Hg|]. intros key Hkey. unfold c_row, empty_cache. cbn [c_rows].
  destruct (replicate _ [] !! place t key) as [row|] eqn:E; [|done]. by apply lookup_replicate in E as [-> _].
Qed.

(** A table that is made holds for every element the first field with it. *)
Lemma create_table_holds heap fields : Forall (λ l, is_Some (heap !! l)) fields →
  ∃ r, create_table heap fields = Ok r ∧
    match r with
    | Some t => ∃ t0, key_size t0 = 8 ∧ holds t0 t (entry (field_entries heap fields))
    | None => True
    end.
Proof.
  intros Hall. unfold create_table.
  destruct (for_each_total (λ round (_ : unit),
        ht ← or_fault NullDeref (fht_init (Z.shiftl 1 round) FIELDS_HT_KEYSIZE 8 FIELDS_HT_STASH_SIZE);
        r ← insert_fields heap fields ht;
        Ok (match r with inl ht => inr ht | inr _ => inl tt end)) (λ _ _, True)
    (λ o : unit + fht_table, match o with inr t => ∃ t0, key_size t0 = 8 ∧ holds t0 t (entry (field_entries heap fields)) | inl _ => True end)
    (range 5 6)) with (s := tt) as (o & -> & Ho).
  - intros l round r [] E _. assert (5 ≤ round ≤ 10) as Hr.
    { assert (round ∈ range 5 6) as Hin by (rewrite E; set_solver). apply elem_of_range in Hin. lia. }
    destruct (new_table_holds round Hr) as (t & -> & Hk & Hd & Ht). cbn [or_fault]. rewrite res_bind_ret.
    destruct (insert_fields_spec t Hk Hd heap fields [] t Hall Ht) as ([t'|t'] & -> & Hr'); rewrite res_bind_ret; eexists; (split; [done|]); [|done].
    by exists t.
  - done.
  - done.
  - rewrite res_bind_ret. eexists. split; [done|]. destruct o; [done|]. exact Ho.
Qed.

(** ** Which field an element belongs to *)

Definition has_element (heap : gmap loc unirecField) (en id : Z) (l : loc) : Prop :=
  match heap !! l with Some f => Exists (λ e, el_en e = en ∧ el_id e = id) (ipfix f) | None => False end.
#[export] Instance has_element_dec heap en id l : Decision (has_element heap en id l).
Proof. unfold has_element. destruct (heap !! l); apply _. Defined.

(** The first field of the list with the element. *)
Definition field_of (heap : gmap loc unirecField) (fields : list loc) (en id : Z) : option loc :=
  match find_split (has_element heap en id) fields with Some (_, l) => Some l | None => None end.

(** Elements in the widths of their members, addresses in 64 bits. *)
Definition fields_fit (heap : gmap loc unirecField) (fields : list loc) : Prop :=
  Forall (λ l, Z.pos l < 2 ^ 64 ∧ ∃ f, heap !! l = Some f ∧ Forall (λ e, is_u16 (el_id e) ∧ is_u32 (el_en e)) (ipfix f)) fields.

Lemma entry_elements l els es en id : Forall (λ e, is_u16 (el_id e) ∧ is_u32 (el_en e)) els → is_u16 id → is_u32 en →
  entry (element_entries l els ++ es) (element_key en id) =
  if decide (Exists (λ e, el_en e = en ∧ el_id e = id) els) then Some (ptr_bytes l) else entry es (element_key en id).
Proof.
  intros Hall Hid Hen. induction Hall as [|e els [He1 He2] _ IH].
  - rewrite decide_False by (intros Hex; inversion Hex). done.
  - unfold entry, find_item, element_entries in IH |- *. rewrite fmap_cons. cbn [app find_split fst].
    destruct (decide (element_key (el_en e) (el_id e) = element_key en id)) as [E|Hne].
    + apply element_key_inj in E; [|done..]. rewrite decide_True by (left; by destruct E). done.
    + destruct (decide (Exists _ els)) as [Hex|Hnex] in IH.
      * rewrite decide_True by (by right). destruct (find_split _ (_ ++ es)) as [ [p x]|]; [exact IH|done].
      * rewrite decide_False by (rewrite Exists_cons; naive_solver).
        destruct (find_split _ (_ ++ es)) as [ [p x]|]; exact IH.
Qed.

Lemma entry_field heap fields en id : fields_fit heap fields → is_u16 id → is_u32 en →
  entry (field_entries heap fields) (element_key en id) = ptr_bytes <$> field_of heap fields en id.
Proof.
  intros Hall Hid Hen. unfold field_of. induction Hall as [|l fields [_ (f & Ef & Hf)] _ IH]; [done|].
  unfold field_entries in *. cbn [fmap list_fmap find_split]. rewrite mjoin_cons, Ef, entry_elements by done.
  assert (has_element heap en id l ↔ Exists (λ e, el_en e = en ∧ el_id e = id) (ipfix f)) as Hiff by (unfold has_element; by rewrite Ef).
  destruct (decide (Exists _ _)), (decide (has_element heap en id l)); try tauto. rewrite IH.
  by destruct (find_split _ fields) as [ [p x]|].
Qed.

Lemma field_of_elem heap fields en id l : field_of heap fields en id = Some l → l ∈ fields.
Proof.
  unfold field_of. destruct (find_split _ fields) as [ [p x]|] eqn:E; [|done]. intros [= ->].
  apply find_split_Some in E as (r & -> & _). set_solver.
Qed.

(** ** The walk over a record *)

(** Steps on a configuration that do not ask the table. *)
Definition ignores_table (F : unirec_config → res unirec_config) : Prop :=
  ∀ conf t, F (set_ht conf t) = (λ c, set_ht c t) <$> F conf.

Lemma fold_ignores {A} (F : unirec_config → A → res unirec_config) l : (∀ a, ignores_table (λ c, F c a)) →
  ignores_table (fold_res F l).
Proof.
  intros HF conf t. revert conf. induction l as [|a l IH]; intros conf; [done|]. rewrite !fold_res_cons.
  rewrite (HF a conf t). destruct (F conf a) as [c| |]; [|done..]. cbn. apply IH.
Qed.

Lemma store_value_ignores mem l ielen id en off sl len : ignores_table (store_value mem l ielen id en off sl len).
Proof.
  intros conf t. unfold store_value. cbn [field_heap ifc set_ht ODID_get_method].
  destruct (deref (field_heap conf) l) as [f| |]; [rewrite !res_bind_ret|done..]. case_decide.
  - by destruct (for_ifcs _ _ _).
  - destruct (if decide (unirec_type f = 0) then _ else _) as [sz| |]; [rewrite !res_bind_ret|done..].
    cbn [ifc set_heap]. by destruct (for_ifcs _ _ _).
Qed.

Lemma store_link_bit_ignores : ignores_table store_link_bit.
Proof.
  intros conf t. unfold store_link_bit. cbn [ODID_get_method set_ht LBF_field field_heap ifc odid].
  case_decide; [|done]. by destruct (fold_res _ _ _).
Qed.

(** The element of a field specifier. *)
Definition fs_en (f : field_spec) : Z := default 0 (fs_enterprise f).

(** What a field of a record does, and the fields of a record one after another. *)
Definition store_datum (find : Z → Z → option loc) (mem : bytes) (p : Z) (x : datum) (conf : unirec_config) : res unirec_config :=
  match find (fs_en x.1) (fs_id x.1) with
  | Some l => store_value mem l (fs_length x.1) (fs_id x.1) (fs_en x.1) p (blen (length_prefix x)) (blen (dv_bytes x.2)) conf
  | None => Ok conf
  end.

Fixpoint store_data (find : Z → Z → option loc) (mem : bytes) (p : Z) (d : list datum) (conf : unirec_config) : res unirec_config :=
  match d with
  | [] => Ok conf
  | x :: d => conf ← store_datum find mem p x conf; store_data find mem (p + blen (enc_datum x)) d conf
  end.

Lemma store_datum_ignores find mem p x : ignores_table (store_datum find mem p x).
Proof. intros conf t. unfold store_datum. destruct (find _ _); [apply store_value_ignores|done]. Qed.

Lemma store_data_ignores find mem p d : ignores_table (store_data find mem p d).
Proof.
  revert p. induction d as [|x d IH]; intros p conf t; [done|]. cbn [store_data]. rewrite store_datum_ignores.
  destruct (store_datum _ _ _ _ _); [|done..]. cbn. apply IH.
Qed.

(** The table of a configuration finds the fields. *)
Definition finds (t0 : fht_table) (find : Z → Z → option loc) (ht : fht_table) : Prop :=
  ∃ m, holds t0 ht m ∧ ∀ en id, is_u32 en → is_u16 id →
    m (element_key en id) = ptr_bytes <$> find en id ∧ ∀ l, find en id = Some l → Z.pos l < 2 ^ 64.

Section record_walk.
Context (t0 : fht_table) (Hks : key_size t0 = 8) (find : Z → Z → option loc).
Context (t : ipfix_template) (d : list datum) (pre post : bytes).
Context (Ht : template_of t d.*1) (Hd : Forall datum_wf d) (Hlen : blen (enc_data d) < 65536).
Let mem := pre ++ enc_data d ++ post.

Lemma match_field_at l x r ht : d = l ++ x :: r → finds t0 find ht →
  ∃ ht', match_field (fields t) (nrows l.*1) ht = Ok (ht', find (fs_en x.1) (fs_id x.1), fs_id x.1, fs_en x.1) ∧ finds t0 find ht'.
Proof.
  intros E (m & Hm & Hfind). destruct (template_row_decoded t d Ht Hd l x r E) as (Hr & Hdec & [Hx _]).
  unfold match_field. rewrite Hr, res_bind_ret, ie_id_mk by by apply wire_id_u16.
  assert ((if decide (Z.shiftr (wire_id x.1) 15 ≠ 0)
           then e ← rd_row (fields t) (nrows l.*1 + 1); Ok (enterprise_number e, Z.land (wire_id x.1) 0x7FFF)
           else Ok (0, wire_id x.1)) = Ok (fs_en x.1, fs_id x.1)) as ->.
  { unfold fs_en. revert Hdec. case_decide; [|intros Hdec; injection Hdec as Ei _ Ee; congruence].
    destruct (rd_row (fields t) (nrows l.*1 + 1)) as [e| |]; [|done..]. rewrite !res_bind_ret. intros Hdec. injection Hdec as Ei _ Ee. congruence. }
  rewrite res_bind_ret.
  assert (is_u32 (fs_en x.1)) as Hen by (unfold fs_en; pose proof (fwf_enterprise _ Hx); by destruct (fs_enterprise x.1)).
  assert (is_u16 (fs_id x.1)) as Hid by (pose proof (fwf_id _ Hx); unfold is_u16; lia).
  destruct (Hfind _ _ Hen Hid) as [Em Hptr].
  destruct (holds_get t0 ht m (element_key (fs_en x.1) (fs_id x.1)) Hm) as (ht' & p & -> & Hm' & Hp); [by rewrite blen_element_key|].
  rewrite res_bind_ret. exists ht'. assert (finds t0 find ht') as Hf' by (by exists m). rewrite Em in Hp.
  destruct p as [p|].
  - apply res_fmap_Ok in Hp as (y & -> & Ey). rewrite res_bind_ret.
    destruct (find (fs_en x.1) (fs_id x.1)) as [lf|] eqn:Ef; [|done]. injection Ey as <-. by rewrite bytes_ptr_bytes by (by apply Hptr).
  - by destruct (find (fs_en x.1) (fs_id x.1)).
Qed.

Lemma value_length_at l x r : d = l ++ x :: r →
  value_length mem (blen pre + blen (enc_data l)) (fs_length x.1) = Ok (blen (dv_bytes x.2), blen (length_prefix x)).
Proof.
  intros E. destruct (template_row_decoded t d Ht Hd l x r E) as (_ & _ & Hx).
  pose proof (field_extent_at pre l x r post Hx) as Hext. rewrite <-E in Hext. fold mem in Hext.
  unfold field_extent in Hext. unfold value_length. pose proof (blen_nonneg (length_prefix x)).
  case_decide; [|injection Hext as ? ->; f_equal; f_equal; lia].
  destruct (rd8 mem _) as [n| |]; [|done..]. rewrite res_bind_ret in Hext |- *. case_decide.
  - rewrite Z.add_assoc in Hext. destruct (rd16 mem _) as [n'| |]; [|done..]. rewrite res_bind_ret in Hext |- *.
    injection Hext as ? ->. f_equal. f_equal. lia.
  - injection Hext as ? ->. f_equal. f_equal. lia.
Qed.

Lemma process_record_loop r l conf ht fuel : d = l ++ r → finds t0 find ht → (length r < fuel)%nat →
  ∃ ht', finds t0 find ht' ∧
  loop (process_record_step mem (blen pre) t) fuel (Z.of_nat (length l), nrows l.*1, blen (enc_data l), set_ht conf ht) =
  (c ← store_data find mem (blen pre + blen (enc_data l)) r conf; Ok (set_ht c ht', blen (enc_data d))).
Proof.
  revert l conf ht fuel. induction r as [|x r IH]; intros l conf ht [|fuel] E Hht Hf; try (cbn in Hf; lia).
  - rewrite app_nil_r in E. subst l. exists ht. split; [done|]. cbn [store_data]. rewrite res_bind_ret.
    apply loop_exit. unfold process_record_step. rewrite (to_count _ _ Ht), length_fmap. by rewrite decide_False by lia.
  - cbn [loop store_data]. unfold process_record_step at 1. rewrite (to_count _ _ Ht), length_fmap.
    rewrite decide_True by (rewrite E, length_app; cbn; lia).
    destruct (match_field_at l x r ht E Hht) as (ht' & Em & Hht'). cbn [ht_fields set_ht]. rewrite Em, res_bind_ret.
    destruct (template_row_decoded t d Ht Hd l x r E) as (Hr & _ & [Hx _]).
    rewrite Hr, res_bind_ret, ie_id_mk, ie_length_mk by by apply wire_id_u16.
    rewrite (value_length_at l x r E), res_bind_ret.
    change (set_ht (set_ht conf ht) ht') with (set_ht conf ht').
    assert ((match find (fs_en x.1) (fs_id x.1) with
             | Some lf => store_value mem lf (fs_length x.1) (fs_id x.1) (fs_en x.1) (blen pre + blen (enc_data l))
                            (blen (length_prefix x)) (blen (dv_bytes x.2)) (set_ht conf ht')
             | None => Ok (set_ht conf ht') end) =
            (λ c, set_ht c ht') <$> store_datum find mem (blen pre + blen (enc_data l)) x conf) as ->
      by (rewrite <-store_datum_ignores; done).
    destruct (row_index_step t d Ht Hd l x r E) as (Hc & Hi).
    destruct (record_prefix t d Ht l x r E) as (Hb & _ & _). rewrite blen_enc_data_snoc in Hb.
    pose proof (blen_nonneg (enc_data l)). pose proof (blen_nonneg (dv_bytes x.2)). pose proof (blen_nonneg (length_prefix x)).
    destruct (store_datum find mem _ x conf) as [c| |]; [|by exists ht..].
    cbn [fmap res_fmap]. rewrite !res_bind_ret.
    assert (blen (enc_datum x) = blen (length_prefix x) + blen (dv_bytes x.2)) as Ed by (unfold enc_datum; by rewrite blen_app).
    destruct (IH (l ++ [x]) c ht' fuel) as (ht2 & Hht2 & E2); [by rewrite <-app_assoc|done|cbn in Hf; lia|].
    exists ht2. split; [done|].
    rewrite Hi, Hc. rewrite u16_small by lia. rewrite blen_enc_data_snoc in E2. rewrite Ed.
    replace (blen (enc_data l) + (blen (dv_bytes x.2) + blen (length_prefix x))) with
      (blen (enc_data l) + blen (length_prefix x) + blen (dv_bytes x.2)) by lia.
    rewrite E2. do 2 f_equal. lia.
Qed.

(** The record as a whole. *)
Lemma process_record_walks conf ht : finds t0 find ht →
  ∃ ht', finds t0 find ht' ∧
  process_record mem (blen pre) (Some t) (set_ht conf ht) =
  (c ← store_link_bit conf; c ← store_data find mem (blen pre) d c; Ok (set_ht c ht', blen (enc_data d))).
Proof.
  intros Hht. unfold process_record. rewrite store_link_bit_ignores.
  destruct (store_link_bit conf) as [c| |]; [|by exists ht..]. cbn [fmap res_fmap]. rewrite !res_bind_ret.
  destruct (process_record_loop d [] c ht (S (Z.to_nat (field_count t))) eq_refl Hht) as (ht' & Hht' & E).
  { rewrite (to_count _ _ Ht), Nat2Z.id, length_fmap. lia. }
  exists ht'. split; [done|]. change (blen (enc_data [])) with 0 in E. rewrite Z.add_0_r in E. exact E.
Qed.
End record_walk.
