(* ===== verification/UnirecRecords.v ===== *)
(** * What the UniRec plugin sends

    Theory of [Unirec]: a message is its records, one after another, with every field
    looked up as in the list of fields ([unirec_sets]); after each record the interfaces
    are as before it; and the octets that a value gets in the record that is sent. *)

From S2P Require Import Prelude CLib TemplateRecord DataRecord Message Preprocessor FastHash FastHashCache Unirec.

(** ** Specification: records one after another *)

(** [find] says which field an element belongs to. *)
Section spec.
Context (find : Z → Z → option loc).

Definition unirec_record (mem : bytes) (p : Z) (d : list datum) (conf : unirec_config) : res unirec_config :=
  conf ← store_link_bit conf; conf ← store_data find mem p d conf;
  fold_res (send_record mem) (range 0 (length (ifc conf))) conf.

Fixpoint unirec_records (mem : bytes) (p : Z) (ds : list (list datum)) (conf : unirec_config) : res unirec_config :=
  match ds with
  | [] => Ok conf
  | d :: ds => conf ← unirec_record mem p d conf; unirec_records mem (p + blen (enc_data d)) ds conf
  end.

(** Sets without a template are left out. *)
Fixpoint unirec_sets (mem : bytes) (p : Z) (cs : list (coupled * bool)) (conf : unirec_config) : res unirec_config :=
  match cs with
  | [] => Ok conf
  | (c, known) :: cs =>
      conf ← (if known : bool then unirec_records mem (p + 4) (cp_records c) conf else Ok conf);
      unirec_sets mem (p + blen (enc_set (cp_wire c))) cs conf
  end.
End spec.

(** The sets with a template consist of records of that template. *)
Definition couple_known (theap : gmap loc ipfix_template) (x : coupled * bool) : Prop :=
  x.2 = true → theap !! cp_template x.1 = Some (cp_def x.1) ∧
               data_set_of (cp_def x.1) (cp_fields x.1) (cp_records x.1) (cp_padding x.1).

Definition couple_pointer (x : coupled * bool) : option loc := if x.2 then Some (cp_template x.1) else None.

(** ** Theory: sets and messages *)

Lemma send_record_ignores mem i : ignores_table (λ conf, send_record mem conf i).
Proof.
  intros conf t. unfold send_record. cbn [ifc set_ht field_heap].
  destruct (get (ifc conf) i) as [c| |]; [rewrite !res_bind_ret|done..].
  case_decide.
  - destruct (if decide (dynamic c ≠ 0) then _ else _) as [ [h c']| |]; [rewrite !res_bind_ret|done..].
    destruct (rdn _ _ _) as [x| |]; [rewrite !res_bind_ret|done..]. by destruct (memset _ _ _ _).
  - destruct (forget_values _ _) as [h| |]; [rewrite !res_bind_ret|done..]. by destruct (memset _ _ _ _).
Qed.

Section data_sets.
Context (t0 : fht_table) (Hks : key_size t0 = 8) (find : Z → Z → option loc).

Section one_set.
Context (t : ipfix_template) (fs : list field_spec) (sid : Z) (pre post : bytes).
Context (ds : list (list datum)) (padding : bytes) (Hs : data_set_of t fs ds padding).
Let mem := pre ++ enc_data_set sid ds padding ++ post.

Lemma process_record_in_set l d r conf ht : ds = l ++ d :: r → finds t0 find ht →
  let p := blen pre + (4 + blen (enc_records l)) in
  ∃ ht', finds t0 find ht' ∧
    process_record mem p (Some t) (set_ht conf ht) =
    (c ← store_link_bit conf; c ← store_data find mem p d c; Ok (set_ht c ht', blen (enc_data d))).
Proof.
  intros E Hht p. destruct Hs as [Ht Hrec _ _ Hlen]. rewrite E in Hrec.
  apply Forall_app in Hrec as [_ [ [Hd Hfs] Hr]%Forall_cons].
  assert (blen (enc_records ds) = blen (enc_records l) + blen (enc_data d) + blen (enc_records r)) as Hb.
  { rewrite E. change (d :: r) with ([d] ++ r). rewrite app_assoc, enc_records_app, blen_app. by rewrite enc_records_snoc. }
  pose proof (blen_nonneg padding). pose proof (blen_nonneg (enc_records r)). pose proof (blen_nonneg (enc_records l)).
  assert (blen (enc_data d) < 65536) as Hdl by (unfold set_length in Hlen; lia).
  assert (mem = ((pre ++ enc16 sid ++ enc16 (set_length ds padding)) ++ enc_records l) ++
                enc_data d ++ (enc_records r ++ padding ++ post) ∧
          p = blen ((pre ++ enc16 sid ++ enc16 (set_length ds padding)) ++ enc_records l)) as [-> ->].
  { split.
    - subst mem. unfold enc_data_set. rewrite E at 2. rewrite (enc_records_app l).
      change (enc_records (d :: r)) with (enc_data d ++ enc_records r). by rewrite <-!app_assoc.
    - subst p. rewrite !blen_app, !blen_enc16. lia. }
  rewrite <-Hfs in Ht. by apply (process_record_walks t0 Hks find t d).
Qed.

Lemma data_records_loop : ∀ r l fuel conf ht, ds = l ++ r → (length r < fuel)%nat → finds t0 find ht →
  ∃ ht', finds t0 find ht' ∧
  loop (data_records_step mem (blen pre) (set_length ds padding) (spec_min_length fs) t) fuel
       (4 + blen (enc_records l), set_ht conf ht)
  = (c ← unirec_records find mem (blen pre + (4 + blen (enc_records l))) r conf; Ok (set_ht c ht', 0)).
Proof.
  pose proof (blen_nonneg padding) as Hpos. pose proof (so_length _ _ _ _ Hs) as Hlen.
  induction r as [|d r IH]; intros l [|fuel] conf ht E Hf Hht; cbn [length] in Hf; try lia;
    cbn [loop unirec_records]; unfold data_records_step at 1.
  - rewrite app_nil_r in E. subst l. rewrite decide_False by exact (set_end t fs ds padding Hs). by exists ht.
  - pose proof Hs as Hs'. rewrite E in Hs'.
    pose proof (record_at t fs sid pre post l d r padding Hs') as Hat. cbv zeta in Hat.
    rewrite <-E in Hat, Hs'. fold mem in Hat. destruct Hat as (Hge & Hpos' & Hle & _).
    pose proof (blen_nonneg (enc_records l)).
    destruct (process_record_in_set l d r conf ht E Hht) as (ht' & Hht' & Ep). cbv zeta in Ep.
    rewrite decide_True, Ep by done. unfold unirec_record.
    destruct (store_link_bit conf) as [c1| |]; [rewrite !res_bind_ret|by exists ht'..].
    destruct (store_data _ _ _ _ c1) as [c2| |]; [rewrite !res_bind_ret|by exists ht'..].
    rewrite decide_False by lia. cbn [ifc set_ht].
    rewrite (fold_ignores (send_record mem) _ (send_record_ignores mem)).
    destruct (fold_res (send_record mem) _ c2) as [c3| |]; [|by exists ht'..].
    cbn [fmap res_fmap]. rewrite !res_bind_ret, u32_small by lia.
    replace (4 + blen (enc_records l) + blen (enc_data d)) with (4 + blen (enc_records (l ++ [d])))
      by (rewrite enc_records_snoc; lia).
    replace (blen pre + (4 + blen (enc_records l)) + blen (enc_data d)) with (blen pre + (4 + blen (enc_records (l ++ [d]))))
      by (rewrite enc_records_snoc; lia).
    apply IH; [by rewrite <-app_assoc|lia|done].
Qed.

Lemma process_couple_known theap l conf ht : theap !! l = Some t → finds t0 find ht →
  ∃ ht', finds t0 find ht' ∧
  process_couple mem theap (blen pre, Some l) (set_ht conf ht) =
  (c ← unirec_records find mem (blen pre + 4) ds conf; Ok (inl (set_ht c ht'))).
Proof.
  intros Hl Hht. unfold process_couple. cbn [fst snd]. unfold deref. rewrite Hl. cbn [or_fault]. rewrite res_bind_ret.
  pose proof (rd_set_length t fs sid pre post ds padding Hs) as Hlen. fold mem in Hlen. rewrite Hlen, res_bind_ret.
  destruct (set_min_length_spec t fs ds padding Hs) as [_ ->].
  destruct (data_records_loop ds [] data_set_fuel conf ht eq_refl (records_fuel t fs ds padding Hs) Hht) as (ht' & Hht' & E).
  exists ht'. split; [done|]. change (blen (enc_records [])) with 0 in E. rewrite !Z.add_0_r in E. rewrite E.
  by destruct (unirec_records _ _ _ _ _).
Qed.
End one_set.

Lemma unirec_couples_spec theap cs post : Forall (couple_known theap) cs → ∀ pre conf ht, finds t0 find ht →
  let mem := pre ++ enc_sets (cp_wire <$> cs.*1) ++ post in
  ∃ ht', finds t0 find ht' ∧
  for_each (process_couple mem theap) (zip (couple_offsets (blen pre) cs.*1) (couple_pointer <$> cs)) (set_ht conf ht) =
  (c ← unirec_sets find mem (blen pre) cs conf; Ok (inl (set_ht c ht'))).
Proof.
  induction 1 as [|[c known] cs Hc _ IH]; intros pre conf ht Hht mem; [by exists ht|].
  subst mem. rewrite !fmap_cons, enc_sets_cons. cbn [fst couple_offsets zip zip_with for_each unirec_sets].
  specialize (IH (pre ++ enc_set (cp_wire c))). rewrite <-!app_assoc, blen_app in IH. cbv zeta in IH.
  destruct known; [change (couple_pointer (c, true)) with (Some (cp_template c))|change (couple_pointer (c, false)) with (@None loc)].
  - destruct (Hc eq_refl) as [Hl Hset]. cbn [fst] in *.
    pose proof (process_couple_known (cp_def c) (cp_fields c) (cp_sid c) pre (enc_sets (cp_wire <$> cs.*1) ++ post)
      (cp_records c) (cp_padding c) Hset theap (cp_template c) conf ht Hl Hht) as (ht1 & Hht1 & E).
    rewrite <-cp_wire_enc in E. rewrite <-app_assoc, E.
    destruct (unirec_records _ _ _ _ _) as [c1| |]; [|by exists ht1..]. rewrite !res_bind_ret. by apply IH.
  - cbn [process_couple snd]. rewrite <-app_assoc, !res_bind_ret. by apply IH.
Qed.
End data_sets.

(** The number of the observation domain of a message. *)
Lemma rd_message_domain t q o ss tail : is_u32 o → rd32 (enc_message t q o ss ++ tail) 12 = Ok o.
Proof.
  intros Ho. set (n := IPFIX_HEADER_LENGTH + blen (enc_sets ss)).
  assert (enc_message t q o ss ++ tail =
    (enc16 IPFIX_VERSION ++ enc16 n ++ enc32 t ++ enc32 q) ++ enc32 o ++ (enc_sets ss ++ tail)) as ->
    by (unfold enc_message, enc_header; rewrite <-!app_assoc; done).
  by apply (rd32_here (enc16 IPFIX_VERSION ++ enc16 n ++ enc32 t ++ enc32 q)).
Qed.

Lemma process_data_sets_spec t0 find theap msg t q o cs tail conf ht : key_size t0 = 8 → is_u32 o →
  pkt_header msg = Some (enc_message t q o (cp_wire <$> cs.*1) ++ tail) →
  data_couple msg = zip (couple_offsets IPFIX_HEADER_LENGTH cs.*1) (couple_pointer <$> cs) →
  Forall (couple_known theap) cs → finds t0 find ht →
  ∃ ht', finds t0 find ht' ∧
    process_data_sets theap msg (set_ht conf ht) =
    (c ← unirec_sets find (enc_message t q o (cp_wire <$> cs.*1) ++ tail) IPFIX_HEADER_LENGTH cs (set_odid conf (u16 o));
     Ok (set_ht c ht', 0)).
Proof.
  intros Hks Ho Hpkt Hdc Hcs Hht. unfold process_data_sets. rewrite Hpkt. cbn [or_fault]. rewrite res_bind_ret.
  rewrite rd_message_domain, res_bind_ret, Hdc by done.
  destruct (unirec_couples_spec t0 Hks find theap cs tail Hcs
    (enc_header (IPFIX_HEADER_LENGTH + blen (enc_sets (cp_wire <$> cs.*1))) t q o) (set_odid conf (u16 o)) ht Hht) as (ht' & Hht' & E).
  rewrite blen_enc_header in E. change 16 with IPFIX_HEADER_LENGTH in E. unfold enc_message. rewrite <-app_assoc. exists ht'. split; [done|].
  change (set_odid (set_ht conf ht) (u16 o)) with (set_ht (set_odid conf (u16 o)) ht). rewrite E.
  by destruct (unirec_sets _ _ _ _ _).
Qed.

(** The table that [parse_format] makes finds the fields of the list. *)
Lemma create_table_finds heap fields r : fields_fit heap fields → create_table heap fields = Ok (Some r) →
  ∃ t0, key_size t0 = 8 ∧ finds t0 (field_of heap fields) r.
Proof.
  intros Hfit E. destruct (create_table_holds heap fields) as (r' & E' & Hr').
  { apply (Forall_impl _ _ _ Hfit). intros l (_ & f & -> & _). by eexists. }
  rewrite E in E'. injection E' as <-. destruct Hr' as (t0 & Hks & Hh). exists t0. split; [done|].
  exists (entry (field_entries heap fields)). split; [done|]. intros en id Hen Hid. split; [by apply entry_field|].
  intros l Hl%field_of_elem. by destruct (Forall_elem Hfit Hl).
Qed.

(** ** Specification: the octets of a value *)

(** A number of a width of the host in the order of the host; what has another length
    stays as it is. *)
Definition host_form (v : bytes) : bytes :=
  if decide (blen v = 1 ∨ blen v = 2 ∨ blen v = 4 ∨ blen v = 8) then rev v else v.

(** Milliseconds as seconds and their fraction of 32 bits. *)
Definition unirec_time (msec : Z) : Z :=
  Z.lor (u64 (Z.shiftl (msec / 1000) 32)) (Z.shiftr (u64 ((msec mod 1000) * 0x4189374BC6A7EF)) 32).

Definition is_ipv4_element (s : field_spec) : Prop :=
  (fs_en s = 0 ∧ (fs_id s = 8 ∨ fs_id s = 12)) ∨ (fs_en s = 39499 ∧ fs_id s = 40).
#[export] Instance is_ipv4_element_dec s : Decision (is_ipv4_element s).
Proof. unfold is_ipv4_element. apply _. Defined.

(** What the field gets in the buffers; the rest of it stays as it is. *)
Definition value_octets (method : Z) (f : unirecField) (x : datum) : bytes :=
  let v := dv_bytes x.2 in
  if decide (type f = UNIREC_FIELD_IP) then
    if decide (is_ipv4_element x.1) then replicate 8 0 ++ v ++ replicate 4 255 else v
  else if decide (type f = UNIREC_FIELD_PACKET) then
    if decide (fs_length x.1 = 4) then rev v else if decide (fs_length x.1 = 8) then rev (drop 4 v) else replicate 4 255
  else if decide (type f = UNIREC_FIELD_TS) then enc_le 8 (unirec_time (dec_be v))
  else if decide (type f = UNIREC_FIELD_DBF) then [Z.land (default 0 (last v)) 1]
  else if decide (type f = UNIREC_FIELD_LBF) then
    if decide (method = ODID_JOINFLOWS_METHOD) then enc_le 8 (link_bit (default 0 (v !! 3%nat))) else []
  else if decide (size f >= blen v) then host_form v else replicate (Z.to_nat (size f)) 255.

(** The value has the length that the field of its type needs. *)
Definition value_fits (f : unirecField) (x : datum) : Prop :=
  let v := dv_bytes x.2 in
  if decide (type f = UNIREC_FIELD_IP) then
    if decide (is_ipv4_element x.1) then blen v = 4 ∧ size f = 16 else blen v ≤ size f
  else if decide (type f = UNIREC_FIELD_PACKET) then size f = 4
  else if decide (type f = UNIREC_FIELD_TS) then blen v = 8 ∧ size f = 8
  else if decide (type f = UNIREC_FIELD_DBF) then fs_length x.1 ≠ VAR_IE_LENGTH ∧ 1 ≤ blen v ∧ size f = 1
  else if decide (type f = UNIREC_FIELD_LBF) then 4 ≤ blen v ∧ size f = 8
  else 0 ≤ size f ∧ (size f < 16 ∨ blen v ≠ 16).

(** Octets over others. *)
Definition patch (b : bytes) (x : Z * bytes) : bytes :=
  take (Z.to_nat x.1) b ++ x.2 ++ drop (Z.to_nat (x.1 + blen x.2)) b.

(** ** Theory: values *)

Lemma wrn_patch b p x : 0 ≤ p → p + blen x ≤ blen b → wrn b p x = Ok (patch b (p, x)).
Proof. intros Hp Hb. unfold wrn. by rewrite decide_True. Qed.

Lemma blen_patch b x : 0 ≤ x.1 → x.1 + blen x.2 ≤ blen b → blen (patch b x) = blen b.
Proof.
  intros Hp Hb. unfold patch. rewrite !blen_app. unfold blen in *. rewrite length_take, length_drop. lia.
Qed.

(** Two stores one behind the other are one. *)
Lemma patch_patch b p x y : 0 ≤ p → p + blen x + blen y ≤ blen b →
  patch (patch b (p, x)) (p + blen x, y) = patch b (p, x ++ y).
Proof.
  intros Hp Hb. unfold patch. cbn [fst snd]. pose proof (blen_nonneg y). rewrite blen_app, <-app_assoc.
  assert (length (take (Z.to_nat p) b ++ x) = Z.to_nat (p + blen x)) as Hl.
  { rewrite length_app, length_take. unfold blen in *. lia. }
  rewrite (app_assoc _ x), (take_app_length' _ _ _ (eq_sym Hl)), <-app_assoc. do 3 f_equal.
  rewrite Z.add_assoc, (Z2Nat.inj_add (p + blen x)) by (pose proof (blen_nonneg x); lia).
  by rewrite <-drop_drop, (drop_app_length' _ _ _ (eq_sym Hl)), drop_drop.
Qed.

Section reads.
Context (pre v post : bytes) (Hv : wf_bytes v).
Let mem := pre ++ v ++ post.

Lemma rd8_value i b : v !! i = Some b → rd8 mem (blen pre + Z.of_nat i) = Ok b.
Proof.
  intros Hb. unfold mem. rewrite rd8_app_r by lia. rewrite rd8_app_l by (apply lookup_lt_Some in Hb; unfold blen; lia).
  unfold rd8. rewrite decide_True, Nat2Z.id, Hb by lia. done.
Qed.

Lemma rd16_value : blen v = 2 → rd16 mem (blen pre) = Ok (dec_be v).
Proof.
  clear Hv. intros Hl. destruct v as [|a [|b [|] ] ] eqn:E; try (unfold blen in Hl; cbn in Hl; lia).
  unfold mem. rewrite <-(Z.add_0_r (blen pre)), rd16_app_r by lia. cbn [app]. rewrite rd16_cons2. unfold dec_be. cbn. f_equal. lia.
Qed.

Lemma rd32_value : blen v = 4 → rd32 mem (blen pre) = Ok (dec_be v).
Proof.
  clear Hv. intros Hl. destruct v as [|a [|b [|c [|d [|] ] ] ] ] eqn:E; try (unfold blen in Hl; cbn in Hl; lia).
  unfold mem, rd32. rewrite <-(Z.add_0_r (blen pre)), rd16_app_r by lia. cbn [app]. rewrite rd16_cons2, res_bind_ret.
  change (a :: b :: c :: d :: post) with ([a; b] ++ c :: d :: post). rewrite Z.add_0_r, rd16_app_r by lia.
  rewrite <-(Z.add_0_r 2). change (2 + 0) with (blen [a; b] + 0). rewrite rd16_app_r, rd16_cons2 by lia.
  unfold dec_be. cbn. f_equal. lia.
Qed.
End reads.

Lemma rd64_value pre v post : blen v = 8 → rd64 (pre ++ v ++ post) (blen pre) = Ok (dec_be v).
Proof.
  intros Hl. destruct (blen_split v 4 ltac:(lia)) as (x & y & -> & Hx & Hy). unfold rd64.
  rewrite <-app_assoc, rd32_value, res_bind_ret by done.
  replace (blen pre + 4) with (blen (pre ++ x)) by (rewrite blen_app; lia).
  rewrite app_assoc, rd32_value by lia. cbn. f_equal. unfold dec_be.
  rewrite rev_app_distr, dec_le_app. replace (blen (rev y)) with 4 by (unfold blen in *; rewrite length_rev; lia).
  change (256 ^ 4) with 4294967296. lia.
Qed.

(** *** A value into a buffer *)

Section static.
Context (pre post : bytes) (b : bytes) (dst : Z) (Hdst : 0 ≤ dst).

Lemma wr_le_value n v x : enc_le n v = x → dst + blen x ≤ blen b → wr_le b dst n v = Ok (patch b (dst, x)).
Proof using Hdst. intros <- Hb. by apply wrn_patch. Qed.

Lemma data_copy_spec v : wf_bytes v → blen v ≠ 16 → dst + blen v ≤ blen b →
  data_copy b dst (pre ++ v ++ post) (blen pre) (blen v) = Ok (patch b (dst, host_form v)).
Proof using Hdst.
  intros Hv H16 Hb. unfold data_copy, host_form.
  assert (∀ n, blen v = Z.of_nat n → wr_le b dst n (dec_be v) = Ok (patch b (dst, rev v))) as Hwr.
  { intros n Hn. apply wr_le_value; [by apply enc_dec_be|]. unfold blen in *. by rewrite length_rev. }
  case_decide as H1; [|case_decide as H2; [|case_decide as H4; [|case_decide as H8] ] ].
  - rewrite decide_True by lia. destruct v as [|x [|] ]; try (unfold blen in H1; cbn in H1; lia).
    cbn [app]. rewrite rd8_here, res_bind_ret. unfold wr8. rewrite decide_True by lia. f_equal. unfold patch. cbn [fst snd rev app].
    rewrite H1, Z2Nat.inj_add by lia. change (Z.to_nat 1) with 1%nat. apply Forall_cons in Hv as [Hx _].
    unfold u8. rewrite Z.mod_small by exact Hx. rewrite Nat.add_1_r. apply insert_take_drop. unfold blen in *. lia.
  - rewrite decide_True, rd16_value, res_bind_ret by (lia || done). by apply Hwr.
  - rewrite decide_True, rd32_value, res_bind_ret by (lia || done). by apply Hwr.
  - rewrite decide_True, rd64_value, res_bind_ret by (lia || done). by apply Hwr.
  - rewrite !decide_False, rdn_here, res_bind_ret by lia. by apply wrn_patch.
Qed.

(** With 16 octets the field gets the first eight, in reverse; the eight octets behind
    the value go behind the field. *)
Lemma data_copy_16 v w z : wf_bytes (v ++ w ++ z) → blen v = 8 → blen w = 8 → blen z = 8 → dst + 24 ≤ blen b →
  data_copy b dst (pre ++ (v ++ w) ++ z ++ post) (blen pre) 16 = Ok (patch (patch b (dst, rev v)) (dst + 16, rev z)).
Proof using Hdst.
  intros [Hv [Hw Hz]%Forall_app]%Forall_app Lv Lw Lz Hb. unfold data_copy. rewrite !decide_False by lia. rewrite decide_True by done.
  rewrite <-(app_assoc v), rd64_value, res_bind_ret by done.
  assert (∀ x : bytes, blen x = 8 → blen (rev x) = 8) as Hr by (intros x Hx; unfold blen in *; by rewrite length_rev).
  rewrite (wr_le_value 8 (dec_be v) (rev v)), res_bind_ret by (by apply enc_dec_be || (rewrite Hr by done; lia)).
  replace (pre ++ v ++ w ++ z ++ post) with ((pre ++ v ++ w) ++ z ++ post) by (by rewrite <-!app_assoc).
  replace (blen pre + 16) with (blen (pre ++ v ++ w)) by (rewrite !blen_app; lia).
  rewrite rd64_value, res_bind_ret by done. unfold wr_le. rewrite (enc_dec_be z 8) by done.
  apply wrn_patch; [lia|]. rewrite blen_patch; cbn [fst snd]; rewrite ?Hr by done; lia.
Qed.
End static.

Lemma blen_host_form v : blen (host_form v) = blen v.
Proof. unfold host_form. case_decide; [apply blen_rev|done]. Qed.

Lemma length_prefix_fixed x : fs_length x.1 ≠ VAR_IE_LENGTH → length_prefix x = [].
Proof. intros H. unfold length_prefix. by rewrite decide_False. Qed.

Lemma blen_fixed_value x : datum_wf x → fs_length x.1 ≠ VAR_IE_LENGTH → blen (dv_bytes x.2) = fs_length x.1.
Proof. intros [_ Hx] H. by rewrite decide_False in Hx. Qed.

Lemma value_octets_fit method f x : datum_wf x → value_fits f x → blen (value_octets method f x) ≤ size f.
Proof.
  intros Hx Hf. pose proof (blen_fixed_value x Hx) as Hlen. clear Hx. unfold VAR_IE_LENGTH in *. unfold VAR_IE_LENGTH in *; unfold value_fits, value_octets in *. pose proof (blen_nonneg (dv_bytes x.2)).
  case_decide; [case_decide|case_decide; [|case_decide; [|case_decide; [|case_decide] ] ] ].
  - rewrite !blen_app, !blen_replicate. lia.
  - done.
  - rewrite Hf. case_decide as H4; [|case_decide as H8].
    + rewrite blen_rev. lia.
    + rewrite blen_rev. unfold blen in *. rewrite length_drop. lia.
    + by rewrite blen_replicate.
  - rewrite blen_enc_le. lia.
  - change (blen [_]) with 1. lia.
  - case_decide; [rewrite blen_enc_le; lia|]. change (blen []) with 0. lia.
  - case_decide; [rewrite blen_host_form; lia|]. rewrite blen_replicate. lia.
Qed.

Lemma patch_nil b p : patch b (p, []) = b.
Proof. unfold patch. cbn [fst snd]. change (blen []) with 0. rewrite Z.add_0_r. apply take_drop. Qed.

(** The value [x] of a record goes into the buffer. *)
Lemma store_static_spec pre x post method f b dst : datum_wf x → wf_bytes (dv_bytes x.2) → value_fits f x →
  0 ≤ dst → dst + size f ≤ blen b →
  store_static (pre ++ enc_datum x ++ post) method f dst (fs_length x.1) (fs_id x.1) (fs_en x.1)
    (blen pre) (blen (length_prefix x)) (blen (dv_bytes x.2)) b = Ok (patch b (dst, value_octets method f x)).
Proof.
  intros Hx Hv Hf Hdst Hb. pose proof (value_octets_fit method f x Hx Hf) as Hfit.
  pose proof (blen_fixed_value x Hx) as Hfixed. pose proof (length_prefix_fixed x) as Hpre.
  unfold enc_datum. rewrite <-app_assoc, (app_assoc pre). unfold store_static.
  replace (blen pre + blen (length_prefix x)) with (blen (pre ++ length_prefix x)) by (by rewrite blen_app).
  set (q := pre ++ length_prefix x). set (v := dv_bytes x.2) in *.
  unfold value_octets, value_fits in *. fold (is_ipv4_element x.1). fold v in Hfit, Hf |- *. unfold VAR_IE_LENGTH in *.
  destruct (decide (type f = UNIREC_FIELD_IP)); [destruct (decide (is_ipv4_element x.1))|
    destruct (decide (type f = UNIREC_FIELD_PACKET)); [|destruct (decide (type f = UNIREC_FIELD_TS)); [|
    destruct (decide (type f = UNIREC_FIELD_DBF)); [|destruct (decide (type f = UNIREC_FIELD_LBF))] ] ] ].
  - destruct Hf as [Hl Hs]. rewrite (wr_le_value b dst Hdst 8 0 (replicate 8 0)), res_bind_ret by (done || rewrite blen_replicate; lia).
    rewrite <-Hl at 1. rewrite rdn_here, res_bind_ret.
    rewrite wrn_patch, res_bind_ret by (rewrite ?blen_patch; cbn [fst snd]; rewrite ?blen_replicate; lia).
    replace (dst + 8) with (dst + blen (replicate 8 0)) by done.
    rewrite (patch_patch b dst (replicate 8 0) v) by (rewrite ?blen_replicate; lia).
    rewrite (wr_le_value _ (dst + 12) ltac:(lia) 4 _ (replicate 4 255)) by (done || rewrite ?blen_patch; cbn [fst snd]; rewrite ?blen_app, ?blen_replicate; lia).
    replace (dst + 12) with (dst + blen (replicate 8 0 ++ v)) by (rewrite blen_app, blen_replicate; lia).
    rewrite patch_patch by (rewrite ?blen_app, ?blen_replicate; lia). by rewrite <-app_assoc.
  - rewrite rdn_here, res_bind_ret. apply wrn_patch; lia.
  - destruct (decide (fs_length x.1 = 4)) as [H4|]; [|destruct (decide (fs_length x.1 = 8)) as [H8|] ].
    + rewrite rd32_value, res_bind_ret by lia. apply wr_le_value; [done|apply enc_dec_be; [done|lia]|rewrite blen_rev; lia].
    + rewrite H8 in Hfixed. specialize (Hfixed ltac:(lia)).
      destruct (blen_split v 4 ltac:(lia)) as (y & z & Ey & Hy & Hz). rewrite Ey.
      replace (blen q + 4) with (blen (q ++ y)) by (rewrite blen_app; lia). rewrite <-app_assoc, (app_assoc q).
      rewrite rd32_value, res_bind_ret by lia. rewrite Ey in Hv. apply Forall_app in Hv as [_ Hv].
      rewrite drop_app_length' by (unfold blen in Hy; lia). apply wr_le_value; [done|apply enc_dec_be; [done|lia]|rewrite blen_rev; lia].
    + rewrite res_bind_ret. by apply wr_le_value; [| |rewrite blen_replicate; lia].
  - destruct Hf as [Hl Hs]. rewrite rd64_value, res_bind_ret by done. apply wr_le_value; [done..|]. rewrite blen_enc_le. lia.
  - destruct Hf as (Hnv & Hl & Hs). subst q. rewrite (Hpre Hnv), app_nil_r.
    destruct (last v) as [c|] eqn:Ec; [|apply last_None in Ec; rewrite Ec in Hl; change (blen []) with 0 in Hl; lia].
    rewrite last_lookup in Ec.
    replace (blen v - 1) with (Z.of_nat (pred (length v))) by (unfold blen in *; lia).
    rewrite (rd8_value pre v post _ c Ec), res_bind_ret. cbn [default].
    unfold wr8. rewrite decide_True by lia. f_equal. unfold patch. cbn [fst snd app].
    change (blen [_]) with 1. rewrite Z2Nat.inj_add, Nat.add_1_r by lia.
    assert (is_byte (Z.land c 1)) as Hc.
    { change 1 with (Z.ones 1). rewrite Z.land_ones by lia. unfold is_byte. pose proof (Z.mod_pos_bound c (2 ^ 1)). lia. }
    unfold u8. rewrite Z.mod_small by exact Hc. apply insert_take_drop. unfold blen in *. lia.
  - destruct Hf as [Hl Hs]. case_decide; [|by rewrite patch_nil].
    destruct (v !! 3%nat) as [c|] eqn:Ec; [|apply lookup_ge_None in Ec; unfold blen in *; lia].
    change 3 with (Z.of_nat 3). rewrite (rd8_value q v post _ c Ec), res_bind_ret. cbn [default].
    apply wr_le_value; [done..|]. rewrite blen_enc_le. lia.
  - destruct Hf as [Hs H16]. destruct (decide (size f >= blen v)).
    + rewrite blen_host_form in Hfit. apply data_copy_spec; [done..|lia|lia].
    + rewrite decide_False by lia. unfold memset. change (u8 0xFF) with 255. rewrite blen_replicate in Hfit. apply wrn_patch; [done|]. rewrite blen_replicate. lia.
Qed.

(** ** Specification: interfaces *)

Definition at_ifc (a : list Z) (i : nat) : Z := default 0 (a !! i).

(** A string ends at its first zero. *)
Definition dyn_octets (f : unirecField) (v : bytes) : bytes := if decide (unirec_type f = 0) then c_string v else v.

(** A value of [x] for field [f]; the buffer of an interface is its fixed part. *)
Definition ifc_store (method : Z) (f : unirecField) (x : datum) (i : nat) (c : ifc_config) : ifc_config :=
  if decide (at_ifc (included_ar f) i ≠ 0) then
    set_filled (if decide (size f ≠ -1) then set_buffer c (patch (buffer c) (at_ifc (offset_ar f) i, value_octets method f x)) else c)
               (u8 (requiredFilled c + at_ifc (required_ar f) i))
  else c.

Definition found_field (find : Z → Z → option loc) (heap : gmap loc unirecField) (x : datum) : option (loc * unirecField) :=
  l ← find (fs_en x.1) (fs_id x.1); f ← heap !! l; Some (l, f).

(** The interfaces and the values of the fields of variable size after the fields of a
    record. *)
Definition ifcs_data (find : Z → Z → option loc) (heap : gmap loc unirecField) (method : Z) (d : list datum) (cs : list ifc_config) : list ifc_config :=
  foldl (λ cs x, match found_field find heap x with Some (_, f) => imap (ifc_store method f x) cs | None => cs end) cs d.

Definition values_data (find : Z → Z → option loc) (heap : gmap loc unirecField) (d : list datum) (vals : gmap loc bytes) : gmap loc bytes :=
  foldl (λ vals x, match found_field find heap x with
                   | Some (l, f) => if decide (size f = -1) then <[l := dyn_octets f (dv_bytes x.2)]> vals else vals
                   | None => vals end) vals d.

(** ** Correspondence *)

(** An interface between two fields or records: behind the fixed part is room for the
    values of variable size. *)
Definition like (c c' : ifc_config) : Prop :=
  ∃ off rest, c' = IfcConfig (number c) (buffer c ++ rest) 0 off (requiredCount c) (requiredFilled c) (bufferStaticSize c) (dynamic c) (dynAr c) ∧
    blen (buffer c) = bufferStaticSize c ∧ MAX_DYNAMIC_FIELD_SIZE * Z.of_nat (length (dynAr c)) ≤ blen rest.

(** The arrays of a field have the interfaces, and its places are in the fixed parts. *)
Record field_ready (sizes : list Z) (f : unirecField) : Prop := {
  fr_required : length (required_ar f) = length sizes;
  fr_included : length (included_ar f) = length sizes;
  fr_offset : length (offset_ar f) = length sizes;
  fr_place : ∀ i n, sizes !! i = Some n → at_ifc (included_ar f) i ≠ 0 →
    0 ≤ at_ifc (offset_ar f) i ∧ at_ifc (offset_ar f) i + (if decide (size f = -1) then 4 else size f) ≤ n
}.

(** The same field with another value. *)
Definition same_field (f0 f : unirecField) : Prop := f = set_value f0 (value f) (valueSize f) (valueFilled f).

Definition holds_value (mem : bytes) (f : unirecField) (o : option bytes) : Prop :=
  match o with
  | Some v => valueFilled f = 1 ∧ valueSize f = blen v ∧ ∃ p, value f = Some p ∧ ∀ n, 0 ≤ n ≤ blen v → rdn mem p n = Ok (take (Z.to_nat n) v)
  | None => valueFilled f = 0 ∧ valueSize f = 0
  end.

Definition heap_holds (heap0 : gmap loc unirecField) (mem : bytes) (heap : gmap loc unirecField) (vals : gmap loc bytes) : Prop :=
  ∀ l f0, heap0 !! l = Some f0 → ∃ f, heap !! l = Some f ∧ same_field f0 f ∧ holds_value mem f (vals !! l).

Definition datum_fits (find : Z → Z → option loc) (heap : gmap loc unirecField) (sizes : list Z) (x : datum) : Prop :=
  wf_bytes (dv_bytes x.2) ∧
  ∀ l, find (fs_en x.1) (fs_id x.1) = Some l → ∃ f, heap !! l = Some f ∧ field_ready sizes f ∧ (size f ≠ -1 → value_fits f x).

(** ** Theory: the fields of a record *)

Lemma get_lookup {A} (l : list A) i x : l !! i = Some x → get l (Z.of_nat i) = Ok x.
Proof. intros E. unfold get. rewrite decide_True, Nat2Z.id, E by lia. done. Qed.

Lemma get_at_ifc (a : list Z) i : (i < length a)%nat → get a (Z.of_nat i) = Ok (at_ifc a i).
Proof. intros [x Hx]%lookup_lt_is_Some. rewrite (get_lookup a i x Hx). unfold at_ifc. by rewrite Hx. Qed.

(** A loop over the interfaces changes each on its own. *)
Lemma over_interfaces {A} (step : list A → Z → res (list A)) (g : nat → A → A) (l : list A) :
  (∀ l' i x, l' !! i = Some x → l !! i = Some x → length l' = length l → step l' (Z.of_nat i) = Ok (<[i := g i x]> l')) →
  fold_res step (range 0 (length l)) l = Ok (imap g l).
Proof.
  intros Hstep.
  assert (∀ b a, l = a ++ b → fold_res step (range (Z.of_nat (length a)) (length b)) (imap g a ++ b) = Ok (imap g l)) as H.
  { induction b as [|x b IH]; intros a E; [rewrite app_nil_r in E; subst a; cbn; by rewrite app_nil_r|].
    cbn [length range]. rewrite fold_res_cons.
    assert (imap g a ++ x :: b = imap g a ++ [x] ++ b) as Ex by done.
    rewrite (Hstep _ (length a) x); [rewrite res_bind_ret| | |].
    - specialize (IH (a ++ [x])). rewrite <-app_assoc in IH. specialize (IH E).
      rewrite length_app, imap_app in IH. cbn [length imap] in IH. rewrite Nat.add_0_r in IH.
      replace (Z.of_nat (length a) + 1) with (Z.of_nat (length a + 1)) by lia.
      rewrite <-IH. f_equal. rewrite insert_app_r_alt by (rewrite length_imap; lia).
      rewrite length_imap, Nat.sub_diag. cbn. by rewrite <-app_assoc.
    - rewrite lookup_app_r, length_imap, Nat.sub_diag by (rewrite length_imap; lia). done.
    - rewrite E, lookup_app_r, Nat.sub_diag by lia. done.
    - rewrite E, !length_app, length_imap. done. }
  exact (H l [] eq_refl).
Qed.

Lemma for_ifcs_imap f (g : Z → ifc_config → res ifc_config) (g' : nat → ifc_config → ifc_config) l :
  length (included_ar f) = length l →
  (∀ i c, l !! i = Some c → at_ifc (included_ar f) i ≠ 0 → g (Z.of_nat i) c = Ok (g' i c)) →
  for_ifcs f g l = Ok (imap (λ i c, if decide (at_ifc (included_ar f) i ≠ 0) then g' i c else c) l).
Proof.
  intros Hl Hg. unfold for_ifcs. apply over_interfaces. intros l' i c Hc Hc0 Hl'.
  rewrite get_at_ifc, res_bind_ret by (rewrite Hl; by eapply lookup_lt_Some). case_decide as Hi.
  - rewrite (get_lookup l' i c Hc), res_bind_ret, (Hg i c Hc0 Hi), res_bind_ret, Nat2Z.id. done.
  - by rewrite list_insert_id.
Qed.

Lemma Forall2_imap_both {A B A' B'} (P : A → B → Prop) (Q : A' → B' → Prop) f g l k : Forall2 P l k →
  (∀ i x y, l !! i = Some x → k !! i = Some y → P x y → Q (f i x) (g i y)) → Forall2 Q (imap f l) (imap g k).
Proof.
  intros [Hl HP]%Forall2_same_length_lookup HQ. apply Forall2_same_length_lookup. rewrite !length_imap. split; [done|].
  intros i x y. rewrite !list_lookup_imap, !fmap_Some. intros (x' & Hx & ->) (y' & Hy & ->). eauto.
Qed.

Lemma patch_app a b p x : 0 ≤ p → p + blen x ≤ blen a → patch (a ++ b) (p, x) = patch a (p, x) ++ b.
Proof.
  intros Hp Hx. unfold patch. cbn [fst snd]. pose proof (blen_nonneg x). unfold blen in *.
  rewrite take_app_le, drop_app_le by lia. by rewrite <-!app_assoc.
Qed.

Lemma like_patch c c' p x n : like c c' → 0 ≤ p → p + blen x ≤ bufferStaticSize c →
  p + blen x ≤ blen (buffer c') ∧ like (set_filled (set_buffer c (patch (buffer c) (p, x))) n) (set_filled (set_buffer c' (patch (buffer c') (p, x))) n).
Proof.
  intros (off & rest & -> & Hb & Hr) Hp Hx. cbn [buffer]. pose proof (blen_nonneg rest). split; [rewrite blen_app; lia|].
  exists off, rest. cbn. rewrite patch_app by lia. split; [done|]. split; [|done]. rewrite blen_patch by (cbn; lia). done.
Qed.

Lemma like_filled c c' n : like c c' → like (set_filled c n) (set_filled c' n).
Proof. intros (off & rest & -> & Hb & Hr). by exists off, rest. Qed.

Lemma like_same c c' : like c c' → bufferStaticSize c' = bufferStaticSize c ∧ requiredFilled c' = requiredFilled c ∧
  requiredCount c' = requiredCount c ∧ number c' = number c ∧ dynamic c' = dynamic c ∧ dynAr c' = dynAr c ∧ bufferDynSize c' = 0.
Proof. by intros (off & rest & -> & Hb & Hr). Qed.

Lemma ifc_store_static method f x i c : bufferStaticSize (ifc_store method f x i c) = bufferStaticSize c.
Proof. unfold ifc_store. by repeat case_decide. Qed.

Lemma imap_store_sizes method f x cs : bufferStaticSize <$> imap (ifc_store method f x) cs = bufferStaticSize <$> cs.
Proof.
  apply list_eq. intros i. rewrite !list_lookup_fmap, list_lookup_imap. destruct (cs !! i); [|done].
  cbn. by rewrite ifc_store_static.
Qed.

Lemma same_field_set f0 f v n b : same_field f0 f → same_field f0 (set_value f v n b).
Proof. unfold same_field. intros ->. done. Qed.

Lemma ready_length sizes f cs (ifcs : list ifc_config) : field_ready sizes f → sizes = bufferStaticSize <$> cs → Forall2 like cs ifcs →
  length (included_ar f) = length ifcs ∧ length (required_ar f) = length ifcs ∧ length (offset_ar f) = length ifcs.
Proof.
  intros [H1 H2 H3 _] -> Hl%Forall2_length. rewrite length_fmap in *. by rewrite H1, H2, H3.
Qed.

Section store.
Context (find : Z → Z → option loc) (heap0 : gmap loc unirecField).

Lemma store_static_ifcs pre x post sizes f cs ifcs method : let mem := pre ++ enc_datum x ++ post in
  datum_wf x → wf_bytes (dv_bytes x.2) → field_ready sizes f → size f ≠ -1 → value_fits f x →
  sizes = bufferStaticSize <$> cs → Forall2 like cs ifcs →
  ∃ ifcs', for_ifcs f (λ i c,
             dst ← get (offset_ar f) i;
             b ← store_static mem method f dst (fs_length x.1) (fs_id x.1) (fs_en x.1)
                   (blen pre) (blen (length_prefix x)) (blen (dv_bytes x.2)) (buffer c);
             count_required f i (set_buffer c b)) ifcs = Ok ifcs' ∧
    Forall2 like (imap (ifc_store method f x) cs) ifcs'.
Proof.
  intros mem Hx Hv Hr Hs Hf Es Hl. destruct (ready_length sizes f cs ifcs Hr Es Hl) as (L1 & L2 & L3).
  pose proof (value_octets_fit method f x Hx Hf) as Hfit.
  set (g i c := set_filled (set_buffer c (patch (buffer c) (at_ifc (offset_ar f) i, value_octets method f x)))
                           (u8 (requiredFilled c + at_ifc (required_ar f) i))).
  assert (∀ i c c', cs !! i = Some c → ifcs !! i = Some c' → at_ifc (included_ar f) i ≠ 0 →
    0 ≤ at_ifc (offset_ar f) i ∧ at_ifc (offset_ar f) i + size f ≤ bufferStaticSize c ∧ like c c') as Hplace.
  { intros i c c' Hc Hc' Hi. pose proof (Forall2_lookup_lr _ _ _ _ _ _ Hl Hc Hc').
    destruct (fr_place _ _ Hr i (bufferStaticSize c)) as [Hp1 Hp2]; [by rewrite Es, list_lookup_fmap, Hc|done|].
    rewrite decide_False in Hp2 by done. done. }
  eexists. split.
  - apply (for_ifcs_imap f _ g ifcs L1). intros i c' Hc' Hi.
    destruct (Forall2_lookup_r _ _ _ _ _ Hl Hc') as (c & Hc & _). destruct (Hplace i c c' Hc Hc' Hi) as (Hp1 & Hp2 & Hlike).
    destruct (like_patch c c' _ (value_octets method f x) 0 Hlike Hp1 ltac:(lia)) as [_ (off & rest & E & Hb & _)].
    pose proof (lookup_lt_Some _ _ _ Hc') as Hlt.
    rewrite get_at_ifc, res_bind_ret by lia. unfold mem. rewrite store_static_spec, res_bind_ret; [|done..|].
    2: { destruct Hlike as (o & r & -> & Hb' & _). cbn [buffer]. rewrite blen_app. pose proof (blen_nonneg r). lia. }
    unfold count_required. rewrite get_at_ifc, res_bind_ret by lia. done.
  - eapply Forall2_imap_both; [exact Hl|]. intros i c c' Hc Hc' Hlike. unfold ifc_store. case_decide as Hi; [|done].
    rewrite decide_True by done. destruct (Hplace i c c' Hc Hc' Hi) as (Hp1 & Hp2 & _).
    destruct (like_same c c' Hlike) as (_ & Hrf & _). unfold g. rewrite Hrf. apply like_patch; [done..|lia].
Qed.

Lemma count_ifcs sizes f cs ifcs method x : field_ready sizes f → size f = -1 →
  sizes = bufferStaticSize <$> cs → Forall2 like cs ifcs →
  ∃ ifcs', for_ifcs f (count_required f) ifcs = Ok ifcs' ∧ Forall2 like (imap (ifc_store method f x) cs) ifcs'.
Proof.
  intros Hr Hs Es Hl. destruct (ready_length sizes f cs ifcs Hr Es Hl) as (L1 & L2 & L3).
  eexists. split.
  - apply (for_ifcs_imap f _ (λ i c, set_filled c (u8 (requiredFilled c + at_ifc (required_ar f) i))) ifcs L1).
    intros i c' Hc' Hi. pose proof (lookup_lt_Some _ _ _ Hc') as Hlt. unfold count_required. rewrite get_at_ifc, res_bind_ret by lia. done.
  - eapply Forall2_imap_both; [exact Hl|]. intros i c c' Hc Hc' Hlike. unfold ifc_store. case_decide as Hi; [|done].
    rewrite decide_False by (by intros H). destruct (like_same c c' Hlike) as (_ & -> & _). by apply like_filled.
Qed.
End store.

Lemma strnlen_spec pre v post : strnlen (pre ++ v ++ post) (blen pre) (blen v) = Ok (blen (c_string v)).
Proof.
  unfold strnlen.
  assert (∀ r l, v = l ++ r → c_string v = l ++ c_string r →
    for_each (λ i (_ : unit), c ← rd8 (pre ++ v ++ post) (blen pre + i); Ok (if decide (c = 0) then inr i else inl ()))
      (range (blen l) (length r)) () = Ok (if decide (blen (c_string v) = blen v) then inl () else inr (blen (c_string v)))) as H.
  { induction r as [|b r IH]; intros l E Es.
    - cbn [length range for_each]. rewrite Es, E. cbn [c_string]. by rewrite decide_True.
    - cbn [length range for_each].
      assert (rd8 (pre ++ v ++ post) (blen pre + blen l) = Ok b) as -> by (apply rd8_value; by rewrite E, lookup_app_r, Nat.sub_diag).
      rewrite !res_bind_ret.
      cbn [c_string] in Es. case_decide as Hb.
      + rewrite app_nil_r in Es. rewrite Es, E. rewrite decide_False; [done|]. rewrite blen_app, blen_cons. pose proof (blen_nonneg r). lia.
      + replace (blen l + 1) with (blen (l ++ [b])) by (rewrite blen_app; done). apply IH; by rewrite <-app_assoc. }
  specialize (H v [] eq_refl eq_refl). change (blen []) with 0 in H. replace (Z.to_nat (blen v)) with (length v) by (unfold blen; lia).
  rewrite H, res_bind_ret. case_decide as Hd; [by rewrite Hd|done].
Qed.

Lemma dyn_octets_le f v : blen (dyn_octets f v) ≤ blen v.
Proof. unfold dyn_octets. case_decide; [apply c_string_le|done]. Qed.

Lemma dyn_octets_prefix f v : dyn_octets f v = take (length (dyn_octets f v)) v.
Proof. unfold dyn_octets. case_decide; [apply c_string_prefix|by rewrite firstn_all]. Qed.

Lemma blen_value_small x : datum_wf x → blen (dv_bytes x.2) < 65536.
Proof.
  intros [Hf Hx]. pose proof (fwf_length _ Hf). unfold VAR_IE_LENGTH, is_u16 in *. case_decide; [destruct (dv_long x.2)|]; lia.
Qed.

(** The configuration apart from the fields and the interfaces. *)
Definition same_conf (conf conf' : unirec_config) : Prop :=
  conf_fields conf' = conf_fields conf ∧ odid conf' = odid conf ∧ LBF_field conf' = LBF_field conf ∧
  ODID_get_method conf' = ODID_get_method conf ∧ ht_fields conf' = ht_fields conf.

#[export] Instance same_conf_preorder : PreOrder same_conf.
Proof.
  split; [by intros conf|]. intros c1 c2 c3 (E1 & E2 & E3 & E4 & E5) (F1 & F2 & F3 & F4 & F5). unfold same_conf. split_and!; congruence.
Qed.

(** The configuration, seen as its interfaces and the values of its fields. *)
Record unirec_rep (heap0 : gmap loc unirecField) (mem : bytes) (cs : list ifc_config) (vals : gmap loc bytes) (conf : unirec_config) : Prop := {
  ur_ifcs : Forall2 like cs (ifc conf);
  ur_heap : heap_holds heap0 mem (field_heap conf) vals
}.

Section store_data.
Context (find : Z → Z → option loc) (heap0 : gmap loc unirecField).

Lemma heap_holds_insert mem heap vals l f0 p v f : heap_holds heap0 mem heap vals → heap0 !! l = Some f0 →
  same_field f0 f → (∀ n, 0 ≤ n ≤ blen v → rdn mem p n = Ok (take (Z.to_nat n) v)) →
  heap_holds heap0 mem (<[l := set_value f (Some p) (blen v) 1]> heap) (<[l := v]> vals).
Proof.
  intros Hh Hl Hf Hv k f1 Hk. destruct (decide (k = l)) as [->|Hne].
  - rewrite !lookup_insert_eq. eexists. split; [done|]. rewrite Hl in Hk. injection Hk as <-. split; [by apply same_field_set|].
    cbn. split_and!; [done..|]. by exists p.
  - rewrite !lookup_insert_ne by done. by apply Hh.
Qed.

Lemma store_datum_spec pre x post conf cs vals : let mem := pre ++ enc_datum x ++ post in
  datum_wf x → datum_fits find heap0 (bufferStaticSize <$> cs) x → unirec_rep heap0 mem cs vals conf →
  ∃ conf', store_datum find mem (blen pre) x conf = Ok conf' ∧ same_conf conf conf' ∧ sent conf' = sent conf ∧
    unirec_rep heap0 mem (ifcs_data find heap0 (ODID_get_method conf) [x] cs) (values_data find heap0 [x] vals) conf'.
Proof.
  intros mem Hx [Hv Hfit] [Hl Hh]. unfold store_datum, ifcs_data, values_data. cbn [foldl]. unfold found_field.
  destruct (find _ _) as [l|] eqn:Ef; [|by exists conf]. destruct (Hfit l eq_refl) as (f0 & Hf0 & Hr & Hval). cbn. rewrite Hf0. cbn.
  destruct (Hh l f0 Hf0) as (f & Hf & Hsf & _). unfold store_value, deref. rewrite Hf. cbn [or_fault]. rewrite res_bind_ret.
  assert (size f = size f0 ∧ unirec_type f = unirec_type f0) as [-> ->] by (by rewrite Hsf).
  assert (field_ready (bufferStaticSize <$> cs) f) as Hrf by (rewrite Hsf; destruct Hr; by constructor).
  assert (∀ m, imap (ifc_store m f0 x) cs = imap (ifc_store m f x) cs) as Hcs by (intros m; by rewrite Hsf).
  rewrite Hcs. case_decide as Hs.
  - destruct (store_static_ifcs pre x post _ f cs (ifc conf) (ODID_get_method conf) Hx Hv Hrf) as (ifcs' & E & Hl');
      [by rewrite Hsf|rewrite Hsf; by apply Hval|done..|]. fold mem in E. rewrite E, res_bind_ret.
    eexists. split; [done|]. rewrite decide_False by done. by split; [|split].
  - assert (size f0 = -1) as Hs' by lia. rewrite (decide_True (P := size f0 = -1)) by done.
    assert ((if decide (unirec_type f0 = 0) then strnlen mem (blen pre + blen (length_prefix x)) (blen (dv_bytes x.2)) else Ok (blen (dv_bytes x.2)))
      = Ok (blen (dyn_octets f0 (dv_bytes x.2)))) as ->.
    { unfold dyn_octets. case_decide; [|done]. unfold mem, enc_datum. rewrite <-blen_app, <-app_assoc, (app_assoc pre). apply strnlen_spec. }
    rewrite res_bind_ret. cbn [ifc set_heap].
    destruct (count_ifcs _ f cs (ifc conf) (ODID_get_method conf) x Hrf) as (ifcs' & E & Hl'); [by rewrite Hsf|done..|].
    rewrite E, res_bind_ret. eexists. split; [done|]. do 2 (split; [done|]). split; [done|]. cbn [field_heap set_ifcs set_heap].
    pose proof (dyn_octets_le f0 (dv_bytes x.2)) as Hle. pose proof (blen_value_small x Hx). pose proof (blen_nonneg (dyn_octets f0 (dv_bytes x.2))).
    rewrite u16_small by lia. apply (heap_holds_insert mem _ _ l f0); [done..|]. intros n Hn.
    unfold mem, enc_datum, rdn. rewrite decide_True by (rewrite !blen_app; pose proof (blen_nonneg pre); pose proof (blen_nonneg post); pose proof (blen_nonneg (length_prefix x)); lia).
    f_equal. rewrite <-app_assoc, (app_assoc pre). rewrite <-blen_app. unfold blen at 1. rewrite Nat2Z.id, drop_app_length.
    rewrite take_app_le by (unfold blen in *; lia). rewrite (dyn_octets_prefix f0), take_take. f_equal. unfold blen in *. lia.
Qed.

Lemma ifcs_data_sizes m d cs : bufferStaticSize <$> ifcs_data find heap0 m d cs = bufferStaticSize <$> cs.
Proof.
  unfold ifcs_data. revert cs. induction d as [|x d IH]; intros cs; [done|]. cbn [foldl]. rewrite IH.
  destruct (found_field _ _ _) as [ [l f]|]; [apply imap_store_sizes|done].
Qed.

Lemma store_data_spec d post : Forall datum_wf d → ∀ pre conf cs vals, Forall (datum_fits find heap0 (bufferStaticSize <$> cs)) d →
  let mem := pre ++ enc_data d ++ post in unirec_rep heap0 mem cs vals conf →
  ∃ conf', store_data find mem (blen pre) d conf = Ok conf' ∧ same_conf conf conf' ∧ sent conf' = sent conf ∧
    unirec_rep heap0 mem (ifcs_data find heap0 (ODID_get_method conf) d cs) (values_data find heap0 d vals) conf'.
Proof.
  induction 1 as [|x d Hx _ IH]; intros pre conf cs vals Hfit mem Hrep; [by exists conf|]. subst mem.
  apply Forall_cons in Hfit as [Hfx Hfit]. rewrite enc_data_cons, <-app_assoc in Hrep |- *. cbn [store_data].
  destruct (store_datum_spec pre x (enc_data d ++ post) conf cs vals Hx Hfx Hrep) as (c1 & -> & Hc1 & Hs1 & Hr1). rewrite res_bind_ret.
  specialize (IH (pre ++ enc_datum x)). cbv zeta in IH. rewrite <-!app_assoc, blen_app in IH.
  destruct (IH c1 (ifcs_data find heap0 (ODID_get_method conf) [x] cs) (values_data find heap0 [x] vals) ltac:(by rewrite ifcs_data_sizes) Hr1) as (c2 & E2 & Hc2 & Hs2 & Hr2). exists c2. split; [done|].
  split; [by transitivity c1|]. split; [congruence|]. destruct Hc1 as (_ & _ & _ & Em & _). by rewrite Em in Hr2.
Qed.
End store_data.

(** ** Specification: what is sent *)

Section sending_spec.
Context (heap0 : gmap loc unirecField).

Definition offset_in (num : Z) (l : loc) : Z :=
  match heap0 !! l with Some f => at_ifc (offset_ar f) (Z.to_nat num) | None => 0 end.

(** The value of a field of variable size, if it has one. *)
Definition dyn_value (vals : gmap loc bytes) (l : loc) : bytes := take (Z.to_nat MAX_DYNAMIC_FIELD_SIZE) (default [] (vals !! l)).

(** Where the values are and how long, with [n] octets in front of them; the values; a
    value is taken once. *)
Fixpoint dyn_headers (num n : Z) (vals : gmap loc bytes) (ls : list loc) : list (Z * bytes) :=
  match ls with
  | [] => []
  | l :: ls => let v := dyn_value vals l in
      (offset_in num l, enc_le 2 n ++ enc_le 2 (blen v)) :: dyn_headers num (n + blen v) (delete l vals) ls
  end.
Fixpoint dyn_part (vals : gmap loc bytes) (ls : list loc) : bytes :=
  match ls with [] => [] | l :: ls => dyn_value vals l ++ dyn_part (delete l vals) ls end.
Definition forget (vals : gmap loc bytes) (ls : list loc) : gmap loc bytes := foldl (λ vals l, delete l vals) vals ls.

Definition unirec_octets (vals : gmap loc bytes) (c : ifc_config) : bytes :=
  if decide (dynamic c ≠ 0) then foldl patch (buffer c) (dyn_headers (number c) 0 vals (dynAr c)) ++ dyn_part vals (dynAr c) else buffer c.

(** A record goes to the interfaces that have all required fields. *)
Definition sent_by (vals : gmap loc bytes) (c : ifc_config) : list (Z * bytes) :=
  if decide (requiredCount c = requiredFilled c) then [(number c, unirec_octets vals c)] else [].
Definition left_by (vals : gmap loc bytes) (c : ifc_config) : gmap loc bytes :=
  if decide (requiredCount c = requiredFilled c ∧ dynamic c = 0) then vals else forget vals (dynAr c).

Fixpoint sent_by_all (vals : gmap loc bytes) (cs : list ifc_config) : list (Z * bytes) :=
  match cs with [] => [] | c :: cs => sent_by vals c ++ sent_by_all (left_by vals c) cs end.
Definition left_by_all (vals : gmap loc bytes) (cs : list ifc_config) : gmap loc bytes := foldl left_by vals cs.

Definition blank (c : ifc_config) : ifc_config :=
  IfcConfig (number c) (replicate (Z.to_nat (bufferStaticSize c)) 0) 0 (bufferOffset c) (requiredCount c) 0 (bufferStaticSize c) (dynamic c) (dynAr c).

(** The fields of variable size of an interface have places in its fixed part. *)
Definition dyn_ready (num static : Z) (l : loc) : Prop :=
  ∃ f, heap0 !! l = Some f ∧ 0 ≤ num < Z.of_nat (length (offset_ar f)) ∧
       0 ≤ offset_in num l ∧ offset_in num l + 4 ≤ static.
Definition ifc_ready (c : ifc_config) : Prop := 0 ≤ bufferStaticSize c ∧ Forall (dyn_ready (number c) (bufferStaticSize c)) (dynAr c).
End sending_spec.

(** ** Theory: sending *)

Lemma take_length_take {A} n (x : list A) : take (length (take n x)) x = take n x.
Proof.
  rewrite length_take. destruct (decide (n ≤ length x)%nat); [by rewrite Nat.min_l by lia|].
  by rewrite Nat.min_r, !take_ge by lia.
Qed.

Lemma enc_le_u16 n : enc_le 2 (u16 n) = enc_le 2 n.
Proof.
  unfold u16. cbn [enc_le]. unfold u8.
  replace n with (n mod 65536 + (256 * (n / 65536)) * 256) at 3 4 by (pose proof (Z.div_mod n 65536); lia).
  rewrite Z_div_plus_full, Z_mod_plus_full by done. by rewrite (Z.mul_comm 256), Z_mod_plus_full.
Qed.

Section sending.
Context (heap0 : gmap loc unirecField) (mem : bytes).

Lemma heap_holds_delete heap vals l f0 f : heap_holds heap0 mem heap vals → heap0 !! l = Some f0 → same_field f0 f →
  heap_holds heap0 mem (<[l := set_value f (value f) 0 0]> heap) (delete l vals).
Proof.
  intros Hh Hl Hf k f1 Hk. destruct (decide (k = l)) as [->|Hne].
  - rewrite lookup_insert_eq, lookup_delete_eq. eexists. split; [done|]. rewrite Hl in Hk. injection Hk as <-. by split; [apply same_field_set|].
  - rewrite lookup_insert_ne, lookup_delete_ne by done. by apply Hh.
Qed.

Lemma blen_dyn_value vals l : 0 ≤ blen (dyn_value vals l) ≤ MAX_DYNAMIC_FIELD_SIZE.
Proof. unfold dyn_value, blen, MAX_DYNAMIC_FIELD_SIZE. rewrite length_take. lia. Qed.

Lemma process_dynamic_step_spec heap vals l num fx w rest rc rf static dy ar :
  heap_holds heap0 mem heap vals → dyn_ready heap0 num static l → blen fx = static → MAX_DYNAMIC_FIELD_SIZE ≤ blen rest →
  ∃ heap' rest', let v := dyn_value vals l in
    process_dynamic_step mem (heap, IfcConfig num (fx ++ w ++ rest) (blen w) (static + blen w) rc rf static dy ar) l =
    Ok (heap', IfcConfig num (patch fx (offset_in heap0 num l, enc_le 2 (blen w) ++ enc_le 2 (blen v)) ++ (w ++ v) ++ rest')
                 (blen (w ++ v)) (static + blen (w ++ v)) rc rf static dy ar) ∧
    blen rest' + blen v = blen rest ∧ heap_holds heap0 mem heap' (delete l vals).
Proof.
  intros Hh (f0 & Hf0 & Hnum & Ho1 & Ho2) Hfx Hrest. destruct (Hh l f0 Hf0) as (f & Hf & Hsf & Hval).
  set (v := dyn_value vals l). pose proof (blen_dyn_value vals l) as Hv. fold v in Hv. cbv zeta. unfold process_dynamic_step, deref. rewrite Hf.
  cbn [or_fault]. rewrite res_bind_ret. cbn [number buffer bufferDynSize bufferOffset].
  assert (get (offset_ar f) num = Ok (offset_in heap0 num l)) as ->.
  { unfold offset_in. rewrite Hf0, Hsf. cbn [offset_ar set_value]. rewrite <-(Z2Nat.id num) at 1 by lia. apply get_at_ifc. lia. }
  rewrite res_bind_ret. set (p := offset_in heap0 num l) in *.
  assert ((if decide (valueSize f > MAX_DYNAMIC_FIELD_SIZE) then MAX_DYNAMIC_FIELD_SIZE else valueSize f) = blen v) as ->.
  { unfold v, dyn_value. destruct (vals !! l) as [x|]; cbn [holds_value default] in Hval |- *.
    - destruct Hval as (_ & -> & _). unfold MAX_DYNAMIC_FIELD_SIZE, blen. rewrite length_take. case_decide; unfold id; lia.
    - destruct Hval as (_ & ->). by rewrite firstn_nil. }
  pose proof (blen_nonneg w) as Hw. pose proof (blen_nonneg rest) as Hr0.
  unfold wr_le. rewrite !enc_le_u16. set (h1 := enc_le 2 (blen w)). set (h2 := enc_le 2 (blen v)).
  assert (blen h1 = 2 ∧ blen h2 = 2) as [L1 L2] by (unfold h1, h2; by rewrite !blen_enc_le).
  rewrite wrn_patch, res_bind_ret by (rewrite ?blen_app; lia).
  replace (p + 2) with (p + blen h1) by lia. rewrite wrn_patch, res_bind_ret by (rewrite ?blen_patch; cbn [fst snd]; rewrite ?blen_app; lia).
  rewrite patch_patch, patch_app by (rewrite ?blen_app; lia).
  set (fx' := patch fx (p, h1 ++ h2)). assert (blen fx' = static) as Hfx' by (unfold fx'; rewrite blen_patch; cbn [fst snd]; rewrite ?blen_app; lia).
  destruct (vals !! l) as [x|] eqn:Ex; cbn [holds_value] in Hval.
  - destruct Hval as (E1 & E2 & q & E3 & E4). rewrite E1, E3. rewrite decide_True by done. cbn [or_fault]. rewrite res_bind_ret.
    assert (v = take (Z.to_nat (blen v)) x) as Ev.
    { unfold blen. rewrite Nat2Z.id. unfold v, dyn_value. rewrite Ex. cbn [default]. unfold id. by rewrite take_length_take. }
    rewrite E4, <-Ev, res_bind_ret.
    2: { split; [apply blen_nonneg|]. rewrite Ev at 1. unfold blen. rewrite length_take. lia. }
    destruct (blen_split rest (blen v) ltac:(lia)) as (r1 & r2 & -> & Hr1 & Hr2).
    replace (static + blen w) with (blen (fx' ++ w)) by (rewrite blen_app; lia).
    replace (fx' ++ w ++ r1 ++ r2) with ((fx' ++ w) ++ r1 ++ r2) by (by rewrite <-app_assoc).
    rewrite wrn_here, res_bind_ret by done. rewrite <-E3. do 2 eexists. split; [|split; [|by eapply heap_holds_delete] ].
    + do 2 f_equal. unfold set_dyn, set_buffer. cbn [number buffer bufferDynSize bufferOffset requiredCount requiredFilled bufferStaticSize dynamic dynAr].
      rewrite <-!app_assoc, !blen_app. f_equal; lia.
    + lia.
  - destruct Hval as (E1 & E2). rewrite E1. rewrite decide_False by (intros H; by apply H).
    assert (v = []) as -> by (unfold v, dyn_value; by rewrite Ex). rewrite app_nil_r. do 2 eexists. split; [done|].
    rewrite delete_id by done. split; [|done]. change (blen []) with 0. lia.
Qed.
End sending.

Section sending_all.
Context (heap0 : gmap loc unirecField) (mem : bytes).

Lemma process_dynamic_fold num static rc rf dy ar ls : ∀ heap vals fx w rest,
  heap_holds heap0 mem heap vals → Forall (dyn_ready heap0 num static) ls → blen fx = static →
  MAX_DYNAMIC_FIELD_SIZE * Z.of_nat (length ls) ≤ blen rest →
  ∃ heap' rest',
    fold_res (process_dynamic_step mem) ls (heap, IfcConfig num (fx ++ w ++ rest) (blen w) (static + blen w) rc rf static dy ar) =
    Ok (heap', IfcConfig num (foldl patch fx (dyn_headers heap0 num (blen w) vals ls) ++ (w ++ dyn_part vals ls) ++ rest')
                 (blen (w ++ dyn_part vals ls)) (static + blen (w ++ dyn_part vals ls)) rc rf static dy ar) ∧
    blen rest' + blen (dyn_part vals ls) = blen rest ∧ heap_holds heap0 mem heap' (forget vals ls) ∧
    blen (foldl patch fx (dyn_headers heap0 num (blen w) vals ls)) = static.
Proof.
  induction ls as [|l ls IH]; intros heap vals fx w rest Hh Hls Hfx Hr; cbn [dyn_headers dyn_part forget foldl].
  - exists heap, rest. rewrite fold_res_nil, app_nil_r. split_and!; [done| |done..]. change (blen []) with 0. lia.
  - apply Forall_cons in Hls as [Hl Hls]. cbn [length] in Hr. unfold MAX_DYNAMIC_FIELD_SIZE in Hr.
    destruct (process_dynamic_step_spec heap0 mem heap vals l num fx w rest rc rf static dy ar Hh Hl Hfx) as (heap1 & rest1 & E & Hr1 & Hh1);
      [unfold MAX_DYNAMIC_FIELD_SIZE; lia|]. rewrite fold_res_cons, E, res_bind_ret.
    pose proof (blen_dyn_value vals l) as Hv. unfold MAX_DYNAMIC_FIELD_SIZE in Hv.
    set (v := dyn_value vals l) in *. set (fx1 := patch fx (offset_in heap0 num l, enc_le 2 (blen w) ++ enc_le 2 (blen v))) in *.
    assert (blen fx1 = static) as Hfx1.
    { destruct Hl as (_ & _ & _ & H1 & H2). unfold fx1. rewrite blen_patch; cbn [fst snd]; rewrite ?blen_app, ?blen_enc_le; lia. }
    destruct (IH heap1 (delete l vals) fx1 (w ++ v) rest1 Hh1 Hls Hfx1) as (heap2 & rest2 & E2 & Hr2 & Hh2 & Hb2).
    { unfold MAX_DYNAMIC_FIELD_SIZE. lia. }
    rewrite (app_assoc w v), <-(blen_app w v). exists heap2, rest2.
    split; [exact E2|]. split; [|split; [exact Hh2|exact Hb2] ].
    rewrite blen_app. lia.
Qed.

Lemma forget_values_spec num static ls : ∀ heap vals, heap_holds heap0 mem heap vals → Forall (dyn_ready heap0 num static) ls →
  ∃ heap', forget_values heap ls = Ok heap' ∧ heap_holds heap0 mem heap' (forget vals ls).
Proof.
  induction ls as [|l ls IH]; intros heap vals Hh Hls; [by exists heap|].
  apply Forall_cons in Hls as [ (f0 & Hf0 & _) Hls]. destruct (Hh l f0 Hf0) as (f & Hf & Hsf & _).
  unfold forget_values. rewrite fold_res_cons.
  assert (deref heap l = Ok f) as -> by (unfold deref; by rewrite Hf). rewrite !res_bind_ret.
  by apply IH; [eapply heap_holds_delete|].
Qed.

Lemma memset_fixed (fx rest : bytes) n : blen fx = n → memset (fx ++ rest) 0 0 n = Ok (replicate (Z.to_nat n) 0 ++ rest).
Proof.
  intros <-. unfold memset. change (u8 0) with 0. apply (wrn_here [] fx rest). rewrite blen_replicate. pose proof (blen_nonneg fx). lia.
Qed.

Lemma like_blank c off rest : 0 ≤ bufferStaticSize c → MAX_DYNAMIC_FIELD_SIZE * Z.of_nat (length (dynAr c)) ≤ blen rest →
  like (blank c) (IfcConfig (number c) (replicate (Z.to_nat (bufferStaticSize c)) 0 ++ rest) 0 off (requiredCount c) 0 (bufferStaticSize c) (dynamic c) (dynAr c)).
Proof.
  intros Hf Hr. exists off, rest. cbn. split; [done|]. split; [|done]. rewrite blen_replicate. lia.
Qed.

Lemma send_record_spec conf cs vals i c : unirec_rep heap0 mem cs vals conf → cs !! i = Some c → ifc_ready heap0 c →
  ∃ conf', send_record mem conf (Z.of_nat i) = Ok conf' ∧ same_conf conf conf' ∧
    sent conf' = sent conf ++ sent_by heap0 vals c ∧ unirec_rep heap0 mem (<[i := blank c]> cs) (left_by vals c) conf'.
Proof.
  intros [Hl Hh] Hc [Hst Hdyn]. destruct (Forall2_lookup_l _ _ _ _ _ Hl Hc) as (c' & Hc' & Hlike).
  destruct Hlike as (off & rest & -> & Hb & Hr). unfold send_record. rewrite (get_lookup _ _ _ Hc'), res_bind_ret.
  cbn [requiredCount requiredFilled dynamic buffer bufferStaticSize bufferDynSize number dynAr].
  unfold sent_by, left_by. rewrite Nat2Z.id.
  assert (∀ off' rest', blen rest ≤ blen rest' →
    Forall2 like (<[i := blank c]> cs) (<[i := IfcConfig (number c) (replicate (Z.to_nat (bufferStaticSize c)) 0 ++ rest') 0 off'
      (requiredCount c) 0 (bufferStaticSize c) (dynamic c) (dynAr c)]> (ifc conf))) as Hins.
  { intros off' rest' Hr'. apply Forall2_insert; [done|]. apply like_blank; [done|lia]. }
  destruct (decide (requiredCount c = requiredFilled c)) as [Hreq|Hreq].
  - destruct (decide (dynamic c ≠ 0)) as [Hd|Hd].
    + unfold process_dynamic, set_dyn. cbn [number buffer bufferDynSize bufferOffset requiredCount requiredFilled bufferStaticSize dynamic dynAr].
      destruct (process_dynamic_fold (number c) (bufferStaticSize c) (requiredCount c) (requiredFilled c) (dynamic c) (dynAr c) (dynAr c)
        (field_heap conf) vals (buffer c) [] rest Hh Hdyn Hb Hr) as (heap1 & rest1 & E & Hr1 & Hh1 & Hb1).
      cbn [app] in E. change (blen []) with 0 in E, Hb1. rewrite Z.add_0_r in E. rewrite E, res_bind_ret. clear E.
      cbn [number buffer bufferDynSize bufferOffset requiredCount requiredFilled bufferStaticSize dynamic dynAr].
      set (fx := foldl patch (buffer c) _) in *. set (w := dyn_part vals (dynAr c)) in *.
      pose proof (rdn_here [] (fx ++ w) rest1) as Erd. cbn [app] in Erd. change (blen []) with 0 in Erd.
      rewrite blen_app, Hb1, <-app_assoc in Erd. rewrite Erd, !res_bind_ret. 
      cbn [buffer bufferStaticSize]. rewrite (memset_fixed fx _ _ Hb1), res_bind_ret. eexists. split; [done|].
      rewrite decide_False by (intros [_ H]; done). split; [done|]. split.
      * cbn. unfold unirec_octets. rewrite decide_True by done. done.
      * split; [|done]. cbn. unfold set_filled, set_buffer. cbn.
        apply (Hins _ (w ++ rest1)). rewrite blen_app. lia.
    + rewrite res_bind_ret. cbn [number buffer bufferDynSize bufferOffset requiredCount requiredFilled bufferStaticSize dynamic dynAr].
      pose proof (rdn_here [] (buffer c) rest) as Erd. cbn [app] in Erd. change (blen []) with 0 in Erd.
      rewrite Z.add_0_r. rewrite Hb in Erd. rewrite Erd, !res_bind_ret. cbn [buffer]. rewrite (memset_fixed _ _ _ Hb), res_bind_ret. eexists. split; [done|].
      rewrite decide_True by (split; [done|lia]). split; [done|]. split.
      * cbn. unfold unirec_octets. by rewrite decide_False.
      * split; [|done]. cbn. unfold set_dyn, set_filled, set_buffer. cbn. by apply Hins.
  - destruct (forget_values_spec (number c) (bufferStaticSize c) (dynAr c) _ _ Hh Hdyn) as (heap1 & -> & Hh1). rewrite !res_bind_ret.
    cbn [number buffer bufferDynSize bufferOffset requiredCount requiredFilled bufferStaticSize dynamic dynAr].
    rewrite (memset_fixed _ _ _ Hb), res_bind_ret. eexists. split; [done|]. rewrite decide_False by (intros [H _]; done).
    split; [done|]. split; [cbn; by rewrite app_nil_r|]. split; [|done]. cbn. unfold set_dyn, set_filled, set_buffer. cbn. by apply Hins.
Qed.

Lemma send_records_spec : ∀ b a conf vals, unirec_rep heap0 mem ((blank <$> a) ++ b) vals conf → Forall (ifc_ready heap0) b →
  ∃ conf', fold_res (send_record mem) (range (Z.of_nat (length a)) (length b)) conf = Ok conf' ∧ same_conf conf conf' ∧
    sent conf' = sent conf ++ sent_by_all heap0 vals b ∧
    unirec_rep heap0 mem (blank <$> (a ++ b)) (left_by_all vals b) conf'.
Proof.
  induction b as [|c b IH]; intros a conf vals Hrep Hb.
  - exists conf. cbn. rewrite !app_nil_r in *. done.
  - apply Forall_cons in Hb as [Hc Hb]. cbn [length range]. rewrite fold_res_cons.
    destruct (send_record_spec conf _ vals (length a) c Hrep) as (c1 & -> & Hc1 & Hs1 & Hr1); [|done|].
    { rewrite lookup_app_r, length_fmap, Nat.sub_diag by (rewrite length_fmap; lia). done. }
    rewrite insert_app_r_alt, length_fmap, Nat.sub_diag in Hr1 by (rewrite length_fmap; lia). cbn in Hr1. rewrite res_bind_ret.
    destruct (IH (a ++ [c]) c1 (left_by vals c)) as (c2 & E2 & Hc2 & Hs2 & Hr2); [by rewrite fmap_app, <-app_assoc|done|].
    exists c2. replace (Z.of_nat (length (a ++ [c]))) with (Z.of_nat (length a) + 1) in E2 by (rewrite length_app; cbn; lia).
    split; [done|]. split; [by transitivity c1|]. split; [rewrite Hs2, Hs1, <-app_assoc; done|].
    rewrite <-app_assoc in Hr2. exact Hr2.
Qed.
End sending_all.

(** ** Specification: the records of a message *)

Section record_spec.
Context (find : Z → Z → option loc) (heap0 : gmap loc unirecField).

(** The link bit of the observation domain. *)
Definition ifc_link (f : unirecField) (n : Z) (i : nat) (c : ifc_config) : ifc_config :=
  if decide (at_ifc (included_ar f) i ≠ 0) then set_buffer c (patch (buffer c) (at_ifc (offset_ar f) i, enc_le 8 (link_bit n))) else c.

Definition ifcs_link (conf : unirec_config) (cs : list ifc_config) : list ifc_config :=
  if decide (ODID_get_method conf = ODID_MANAGER_METHOD) then
    match LBF_field conf ≫= λ l, heap0 !! l with Some f => imap (ifc_link f (odid conf)) cs | None => cs end
  else cs.

(** What is sent for a record. *)
Definition unirec_sends (conf : unirec_config) (cs : list ifc_config) (d : list datum) : list (Z * bytes) :=
  sent_by_all heap0 (values_data find heap0 d ∅) (ifcs_data find heap0 (ODID_get_method conf) d (ifcs_link conf cs)).

(** The values of the fields of a record fit, and an interface that sends the values of
    variable size has each of those fields. *)
Record record_fits (cs : list ifc_config) (d : list datum) : Prop := {
  rf_data : Forall (datum_fits find heap0 (bufferStaticSize <$> cs)) d;
  rf_released : Forall (λ x, ∀ l f, found_field find heap0 x = Some (l, f) → size f = -1 →
                             Exists (λ c, dynamic c ≠ 0 ∧ l ∈ dynAr c) cs) d
}.

(** The interfaces [cs] as configured. *)
Record ifcs_ready (conf : unirec_config) (cs : list ifc_config) : Prop := {
  ir_blank : blank <$> cs = cs;
  ir_ready : Forall (ifc_ready heap0) cs;
  ir_link : ODID_get_method conf = ODID_MANAGER_METHOD →
    ∃ l f, LBF_field conf = Some l ∧ heap0 !! l = Some f ∧ field_ready (bufferStaticSize <$> cs) f ∧ size f = 8
}.
End record_spec.

(** ** Theory: records and messages *)

Section messages.
Context (find : Z → Z → option loc) (heap0 : gmap loc unirecField).

Lemma blank_imap (g : nat → ifc_config → ifc_config) cs : (∀ i c, blank (g i c) = blank c) → blank <$> imap g cs = blank <$> cs.
Proof.
  intros Hg. apply list_eq. intros i. rewrite !list_lookup_fmap, list_lookup_imap. destruct (cs !! i); [|done]. cbn. by rewrite Hg.
Qed.

Lemma blank_ifcs_data m d cs : blank <$> ifcs_data find heap0 m d cs = blank <$> cs.
Proof.
  unfold ifcs_data. revert cs. induction d as [|x d IH]; intros cs; [done|]. cbn [foldl]. rewrite IH.
  destruct (found_field _ _ _) as [ [l f]|]; [|done]. apply blank_imap. intros i c. unfold ifc_store. by repeat case_decide.
Qed.

Lemma blank_ifcs_link conf cs : blank <$> ifcs_link heap0 conf cs = blank <$> cs.
Proof.
  unfold ifcs_link. case_decide; [|done]. destruct (LBF_field conf ≫= _); [|done]. apply blank_imap. intros i c. unfold ifc_link. by case_decide.
Qed.

(** What does not depend on the values in an interface. *)
Lemma blank_Forall (P : ifc_config → Prop) cs cs' : (∀ c, P (blank c) ↔ P c) → blank <$> cs' = blank <$> cs → Forall P cs → Forall P cs'.
Proof.
  intros HP E H. assert (Forall P (blank <$> cs)) as Hb by (apply Forall_fmap; refine (Forall_impl _ _ _ H _); intros c; apply HP).
  rewrite <-E, Forall_fmap in Hb. refine (Forall_impl _ _ _ Hb _). intros c. apply HP.
Qed.

Lemma forget_lookup vals ls l v : forget vals ls !! l = Some v → vals !! l = Some v ∧ l ∉ ls.
Proof.
  unfold forget. revert vals. induction ls as [|k ls IH]; intros vals; cbn [foldl]; [set_solver|].
  intros [ [H1 H2]%lookup_delete_Some H3]%IH. split; [done|]. set_solver.
Qed.

Lemma left_by_all_lookup cs vals l v : left_by_all vals cs !! l = Some v →
  vals !! l = Some v ∧ Forall (λ c, dynamic c ≠ 0 → l ∉ dynAr c) cs.
Proof.
  unfold left_by_all. revert vals. induction cs as [|c cs IH]; intros vals; cbn [foldl]; [done|].
  intros [H1 H2]%IH. unfold left_by in H1. case_decide as Hd.
  - split; [done|]. constructor; [|done]. tauto.
  - apply forget_lookup in H1 as [H1 H3]. split; [done|]. by constructor.
Qed.

Lemma values_data_lookup d vals l v : values_data find heap0 d vals !! l = Some v →
  vals !! l = Some v ∨ Exists (λ x, ∃ f, found_field find heap0 x = Some (l, f) ∧ size f = -1) d.
Proof.
  unfold values_data. revert vals. induction d as [|x d IH]; intros vals; cbn [foldl]; [by left|].
  intros [H|H]%IH; [|right; by right]. destruct (found_field find heap0 x) as [ [k f]|] eqn:E; [|by left].
  case_decide; [|by left]. apply lookup_insert_Some in H as [ [-> _]|[_ H] ]; [|by left]. right. left. by exists f.
Qed.

(** After a record no field has a value. *)
Lemma values_released cs cs' d : record_fits find heap0 cs d → blank <$> cs' = blank <$> cs →
  left_by_all (values_data find heap0 d ∅) cs' = ∅.
Proof.
  intros [_ Hrel] E. apply map_eq. intros l. rewrite lookup_empty.
  destruct (left_by_all _ _ !! l) as [v|] eqn:El; [exfalso|done].
  apply left_by_all_lookup in El as [Hv Hno]. apply values_data_lookup in Hv as [Hv|Hx]; [by rewrite lookup_empty in Hv|].
  apply Exists_exists in Hx as (x & Hin & f & Hf & Hs). pose proof (Forall_elem Hrel Hin l f Hf Hs) as Hc.
  assert (Forall (λ c, dynamic c ≠ 0 → l ∉ dynAr c) cs) as Hno'.
  { apply (blank_Forall _ cs' cs); [|by rewrite E|exact Hno]. done. }
  apply Exists_exists in Hc as (c & Hc & Hd & Hl). by apply (Forall_elem Hno' Hc).
Qed.

Lemma store_link_bit_spec mem conf cs vals : unirec_rep heap0 mem cs vals conf → ifcs_ready heap0 conf cs →
  ∃ conf', store_link_bit conf = Ok conf' ∧ same_conf conf conf' ∧ sent conf' = sent conf ∧
    unirec_rep heap0 mem (ifcs_link heap0 conf cs) vals conf'.
Proof.
  intros [Hl Hh] [_ _ Hlink]. unfold store_link_bit, ifcs_link. case_decide as Hm; [|by exists conf].
  destruct (Hlink Hm) as (l & f0 & El & Ef0 & Hr & Hs). destruct (Hh l f0 Ef0) as (f & Ef & Hsf & _).
  rewrite El. cbn [mbind option_bind]. rewrite Ef0.
  destruct (ready_length _ f0 cs (ifc conf) Hr eq_refl Hl) as (L1 & _ & L3).
  set (g i c := if decide (at_ifc (included_ar f0) i ≠ 0)
                then set_buffer c (patch (buffer c) (at_ifc (offset_ar f0) i, enc_le 8 (link_bit (odid conf)))) else c).
  assert (∀ i c c', cs !! i = Some c → like c c' → at_ifc (included_ar f0) i ≠ 0 →
    0 ≤ at_ifc (offset_ar f0) i ∧ at_ifc (offset_ar f0) i + blen (enc_le 8 (link_bit (odid conf))) ≤ bufferStaticSize c) as Hplace.
  { intros i c c' Hc _ Hi. destruct (fr_place _ _ Hr i (bufferStaticSize c)) as [Hp1 Hp2]; [by rewrite list_lookup_fmap, Hc|done|].
    rewrite decide_False in Hp2 by lia. rewrite blen_enc_le. lia. }
  erewrite (over_interfaces _ g); [rewrite res_bind_ret|].
  - eexists. split; [done|]. do 2 (split; [done|]). split; [|done]. cbn [ifc set_ifcs].
    eapply Forall2_imap_both; [exact Hl|]. intros i c c' Hc Hc' Hlike. unfold ifc_link, g. case_decide as Hi; [|done].
    destruct (Hplace i c c' Hc Hlike Hi) as [Hp1 Hp2].
    destruct (like_patch c c' _ (enc_le 8 (link_bit (odid conf))) (requiredFilled c) Hlike Hp1 Hp2) as [_ Hlk].
    destruct (like_same c c' Hlike) as (_ & Hrf & _). rewrite <-Hrf in Hlk at 2. by destruct c, c'.
  - intros l' i c' Hc' Hc0 Hl'. cbn [or_fault]. rewrite res_bind_ret. unfold deref. rewrite Ef. cbn [or_fault]. rewrite res_bind_ret, Hsf.
    cbn [included_ar offset_ar set_value]. pose proof (lookup_lt_Some _ _ _ Hc0) as Hlt.
    rewrite (get_at_ifc (included_ar f0)), res_bind_ret by lia. unfold g. case_decide as Hi; [|by rewrite list_insert_id].
    rewrite (get_lookup l' i c' Hc'), res_bind_ret, (get_at_ifc (offset_ar f0)), res_bind_ret by lia.
    destruct (Forall2_lookup_r _ _ _ _ _ Hl Hc0) as (c & Hc & Hlike). destruct (Hplace i c c' Hc Hlike Hi) as [Hp1 Hp2].
    destruct (like_patch c c' _ _ 0 Hlike Hp1 Hp2) as [Hp3 _].
    rewrite (wr_le_value _ _ Hp1 8 _ _ eq_refl Hp3), res_bind_ret. by rewrite Nat2Z.id.
Qed.

Lemma unirec_record_spec pre d post conf cs : let mem := pre ++ enc_data d ++ post in
  Forall datum_wf d → record_fits find heap0 cs d → ifcs_ready heap0 conf cs → unirec_rep heap0 mem cs ∅ conf →
  ∃ conf', unirec_record find mem (blen pre) d conf = Ok conf' ∧ same_conf conf conf' ∧
    sent conf' = sent conf ++ unirec_sends find heap0 conf cs d ∧ unirec_rep heap0 mem cs ∅ conf'.
Proof.
  intros mem Hd Hfit Hready Hrep. unfold unirec_record.
  destruct (store_link_bit_spec mem conf cs ∅ Hrep Hready) as (c1 & -> & Hc1 & Hs1 & Hr1). rewrite res_bind_ret.
  assert (ODID_get_method c1 = ODID_get_method conf) as Em by apply Hc1.
  assert (bufferStaticSize <$> ifcs_link heap0 conf cs = bufferStaticSize <$> cs) as Esz.
  { pose proof (blank_ifcs_link conf cs) as E. apply (f_equal (fmap bufferStaticSize)) in E. by rewrite <-!list_fmap_compose in E. }
  destruct (store_data_spec find heap0 d post Hd pre c1 (ifcs_link heap0 conf cs) ∅) as (c2 & E2 & Hc2 & Hs2 & Hr2);
    [rewrite Esz; apply Hfit|done|]. fold mem in E2, Hr2. rewrite E2, res_bind_ret, Em in *.
  set (cs' := ifcs_data _ _ _ _ _) in Hr2.
  assert (blank <$> cs' = blank <$> cs) as Ebl by (unfold cs'; by rewrite blank_ifcs_data, blank_ifcs_link).
  destruct (send_records_spec heap0 mem cs' [] c2 (values_data find heap0 d ∅) Hr2) as (c3 & E3 & Hc3 & Hs3 & Hr3).
  { apply (blank_Forall _ cs cs'); [done|done|apply Hready]. }
  pose proof (Forall2_length _ _ _ (ur_ifcs _ _ _ _ _ Hr2)) as Hlen. rewrite <-Hlen. exists c3. split; [exact E3|].
  split; [by do 2 (etransitivity; [eassumption|])|]. split.
  - rewrite Hs3, Hs2, Hs1. done.
  - cbn [app] in Hr3. by rewrite Ebl, (ir_blank _ _ _ Hready), (values_released cs cs' d Hfit Ebl) in Hr3.
Qed.
End messages.

(** The records of the sets that have a template. *)
Definition known_records (cs : list (coupled * bool)) : list (list datum) :=
  mjoin ((λ x, if x.2 : bool then cp_records x.1 else []) <$> cs).

Section message.
Context (find : Z → Z → option loc) (heap0 : gmap loc unirecField) (ics : list ifc_config).

Lemma same_conf_sends conf conf' d : same_conf conf conf' → unirec_sends find heap0 conf' ics d = unirec_sends find heap0 conf ics d.
Proof. intros (_ & Eo & El & Em & _). unfold unirec_sends, ifcs_link. by rewrite Eo, El, Em. Qed.

Lemma same_conf_ready conf conf' : same_conf conf conf' → ifcs_ready heap0 conf ics → ifcs_ready heap0 conf' ics.
Proof. intros (_ & Eo & El & Em & _) [H1 H2 H3]. split; [done..|]. by rewrite Em, El. Qed.

Lemma unirec_records_spec ds post : Forall (Forall datum_wf) ds → Forall (record_fits find heap0 ics) ds →
  ∀ pre conf, ifcs_ready heap0 conf ics →
  let mem := pre ++ enc_records ds ++ post in unirec_rep heap0 mem ics ∅ conf →
  ∃ conf', unirec_records find mem (blen pre) ds conf = Ok conf' ∧ same_conf conf conf' ∧
    sent conf' = sent conf ++ mjoin (unirec_sends find heap0 conf ics <$> ds) ∧ unirec_rep heap0 mem ics ∅ conf'.
Proof.
  induction 1 as [|d ds Hd _ IH]; intros Hfit pre conf Hready mem Hrep; [exists conf; cbn; by rewrite app_nil_r|].
  apply Forall_cons in Hfit as [Hfd Hfit]. subst mem. change (enc_records (d :: ds)) with (enc_data d ++ enc_records ds) in Hrep |- *.
  rewrite <-app_assoc in Hrep |- *. cbn [unirec_records].
  destruct (unirec_record_spec find heap0 pre d (enc_records ds ++ post) conf ics Hd Hfd Hready Hrep) as (c1 & -> & Hc1 & Hs1 & Hr1).
  rewrite res_bind_ret. specialize (IH Hfit (pre ++ enc_data d)). cbv zeta in IH. rewrite <-!app_assoc, blen_app in IH.
  destruct (IH c1 (same_conf_ready _ _ Hc1 Hready) Hr1) as (c2 & E2 & Hc2 & Hs2 & Hr2). exists c2. split; [done|].
  split; [by transitivity c1|]. split; [|done]. rewrite fmap_cons, mjoin_cons, Hs2, Hs1, <-app_assoc. do 3 f_equal.
  apply list_fmap_ext. intros _ d' _. by apply same_conf_sends.
Qed.

Lemma unirec_sets_spec theap cs post : Forall (couple_known theap) cs → Forall (record_fits find heap0 ics) (known_records cs) →
  ∀ pre conf, ifcs_ready heap0 conf ics →
  let mem := pre ++ enc_sets (cp_wire <$> cs.*1) ++ post in unirec_rep heap0 mem ics ∅ conf →
  ∃ conf', unirec_sets find mem (blen pre) cs conf = Ok conf' ∧ same_conf conf conf' ∧
    sent conf' = sent conf ++ mjoin (unirec_sends find heap0 conf ics <$> known_records cs) ∧ unirec_rep heap0 mem ics ∅ conf'.
Proof.
  induction 1 as [|[c known] cs Hc _ IH]; intros Hfit pre conf Hready mem Hrep; [exists conf; cbn; by rewrite app_nil_r|].
  unfold known_records in *. rewrite fmap_cons, mjoin_cons in Hfit |- *. apply Forall_app in Hfit as [Hfc Hfit].
  subst mem. rewrite !fmap_cons, enc_sets_cons in Hrep |- *. cbn [fst snd unirec_sets] in *. rewrite <-app_assoc in Hrep |- *.
  specialize (IH Hfit (pre ++ enc_set (cp_wire c))). cbv zeta in IH. rewrite <-!app_assoc, blen_app in IH.
  destruct known.
  - destruct (Hc eq_refl) as [_ [_ Hrecs _ _ _] ]. cbn [fst] in *.
    assert (Forall (Forall datum_wf) (cp_records c)) as Hwf by (refine (Forall_impl _ _ _ Hrecs _); by intros d [H _]).
    set (h := enc16 (cp_sid c) ++ enc16 (set_length (cp_records c) (cp_padding c))).
    pose proof (unirec_records_spec (cp_records c) (cp_padding c ++ enc_sets (cp_wire <$> cs.*1) ++ post) Hwf Hfc (pre ++ h) conf Hready) as Hspec.
    cbv zeta in Hspec.
    assert ((pre ++ h) ++ enc_records (cp_records c) ++ cp_padding c ++ enc_sets (cp_wire <$> cs.*1) ++ post =
            pre ++ enc_set (cp_wire c) ++ enc_sets (cp_wire <$> cs.*1) ++ post) as Em
      by (rewrite cp_wire_enc; unfold h, enc_data_set; by rewrite <-!app_assoc).
    rewrite Em in Hspec. destruct (Hspec Hrep) as (c1 & E1 & Hc1 & Hs1 & Hr1).
    replace (blen pre + 4) with (blen (pre ++ h)) by (unfold h; rewrite !blen_app, !blen_enc16; lia).
    rewrite E1, res_bind_ret. destruct (IH c1 (same_conf_ready _ _ Hc1 Hready) Hr1) as (c2 & E2 & Hc2 & Hs2 & Hr2).
    exists c2. split; [done|]. split; [by transitivity c1|]. split; [|done].
    rewrite fmap_app, join_app, Hs2, Hs1, <-app_assoc. do 3 f_equal.
    apply list_fmap_ext. intros _ d' _. by apply same_conf_sends.
  - rewrite res_bind_ret. exact (IH conf Hready Hrep).
Qed.

(** Without values of variable size the packet does not matter. *)
Lemma unirec_rep_mem mem mem' conf : unirec_rep heap0 mem ics ∅ conf → unirec_rep heap0 mem' ics ∅ conf.
Proof.
  intros [Hl Hh]. split; [done|]. intros l f0 Hf0. destruct (Hh l f0 Hf0) as (f & Hf & Hsf & Hv). exists f. split_and!; [done..|].
  by rewrite lookup_empty in Hv |- *.
Qed.
End message.

(** The plugin between two messages: its table finds the fields of [fields], no field
    has a value, and the interfaces are as configured. *)
Record unirec_ready (heap0 : gmap loc unirecField) (fields : list loc) (ics : list ifc_config) (conf : unirec_config) : Prop := {
  uy_table : ∃ t0, key_size t0 = 8 ∧ finds t0 (field_of heap0 fields) (ht_fields conf);
  uy_ifcs : ∀ n, ifcs_ready heap0 (set_odid conf n) ics;
  uy_rep : unirec_rep heap0 [] ics ∅ conf
}.

(** ** Properties *)

(** C7: what the UniRec plugin sends for a message.  Of every data record whose template
    is known, in order, each interface that gets all its required fields sends the record
    with the octets of the values in the host's order at the places of their fields and
    zeros in the others. A field of variable size has there the offset at which its value
    starts behind the fixed part, and its size; the values follow the fixed part. Only the
    first interface with such a field gets the value: it takes it when it sends it, and
    also when it sends no record for want of a required field; the record of a later
    interface has the field with size 0 ([left_by]).  Sets without a template are left
    out.  The look-ups in the hash table are those in the list of fields, the result is 0,
    and the plugin is ready for the next message. *)
Theorem process_data_sets_sends heap0 fields ics theap msg t q o cs tail conf : is_u32 o →
  unirec_ready heap0 fields ics conf →
  pkt_header msg = Some (enc_message t q o (cp_wire <$> cs.*1) ++ tail) →
  data_couple msg = zip (couple_offsets IPFIX_HEADER_LENGTH cs.*1) (couple_pointer <$> cs) →
  Forall (couple_known theap) cs →
  Forall (record_fits (field_of heap0 fields) heap0 ics) (known_records cs) →
  ∃ conf', process_data_sets theap msg conf = Ok (conf', 0) ∧
    sent conf' = sent conf ++ mjoin (unirec_sends (field_of heap0 fields) heap0 (set_odid conf (u16 o)) ics <$> known_records cs) ∧
    unirec_ready heap0 fields ics conf'.
Proof.
  intros Ho [ (t0 & Hks & Hht) Hready Hrep] Hpkt Hdc Hcs Hfit.
  destruct (process_data_sets_spec t0 _ theap msg t q o cs tail conf (ht_fields conf) Hks Ho Hpkt Hdc Hcs Hht) as (ht' & Hht' & E).
  replace (set_ht conf (ht_fields conf)) with conf in E by (by destruct conf). rewrite E. clear E.
  set (h := enc_header (IPFIX_HEADER_LENGTH + blen (enc_sets (cp_wire <$> cs.*1))) t q o).
  destruct (unirec_sets_spec _ heap0 ics theap cs tail Hcs Hfit h (set_odid conf (u16 o)) (Hready _)) as (c' & E & Hc & Hs & Hr).
  { apply (unirec_rep_mem heap0 ics []). destruct Hrep. by split. }
  unfold enc_message. fold h. rewrite <-app_assoc.
  assert (blen h = IPFIX_HEADER_LENGTH) as Eh by apply blen_enc_header. rewrite Eh in E. rewrite E, res_bind_ret.
  eexists. split; [done|]. split; [exact Hs|]. split; [by exists t0| |].
  - intros n. destruct (Hready n) as [H1 H2 H3], Hc as (_ & _ & El & Em & _). split; [done..|].
    cbn [ODID_get_method LBF_field set_odid set_ht] in *. by rewrite Em, El.
  - apply (unirec_rep_mem heap0 ics _ []) in Hr. destruct Hr. by split.
Qed.

(** ** An example *)

(** An address and a port that are required and a string that is not; the second
    interface wants more than the records have. *)
Definition unirec_field (t ut sz : Z) (req inc off : list Z) (els : list ipfixElement) : unirecField :=
  UnirecField [] t ut sz req inc off None 0 0 els.
Definition unirec_heap : gmap loc unirecField :=
  {[ 1%positive := unirec_field UNIREC_FIELD_IP 11 16 [1; 0] [1; 0] [0; 0] [ {| el_id := 8; el_en := 0 |}; {| el_id := 27; el_en := 0 |} ];
     2%positive := unirec_field UNIREC_FIELD_OTHER 0 (-1) [0; 0] [1; 0] [18; 0] [ {| el_id := 33; el_en := 8057 |} ];
     3%positive := unirec_field UNIREC_FIELD_OTHER 5 2 [1; 1] [1; 1] [16; 0] [ {| el_id := 7; el_en := 0 |} ] ]}.
Definition unirec_fields : list loc := [1; 2; 3]%positive.
Definition unirec_ifcs : list ifc_config :=
  [ IfcConfig 0 (replicate 22 0) 0 0 2 0 22 1 [2%positive]; IfcConfig 1 (replicate 2 0) 0 0 2 0 2 0 [] ].
Definition unirec_table : fht_table :=
  match create_table unirec_heap unirec_fields with
  | Ok (Some t) => t
  | _ => FhtTable 0 0 0 0 0 [] [] [] [] [] [] [] [] [] (λ _ _, Ok 0)
  end.
Definition unirec_conf : unirec_config :=
  UnirecConfig unirec_heap unirec_fields
    ((λ c, set_buffer c (buffer c ++ replicate 600 0)) <$> unirec_ifcs) 0 None ODID_JOINFLOWS_METHOD unirec_table [].

Definition unirec_coupled (known : bool) : coupled * bool :=
  ({| cp_sid := 258; cp_template := 7%positive; cp_def := template_example; cp_fields := fields_example;
      cp_records := records_example; cp_padding := [0; 0] |}, known).
Definition unirec_couples : list (coupled * bool) := [unirec_coupled false; unirec_coupled true].
Definition unirec_message : ipfix_message :=
  set_sets (new_message (Some (enc_message 1000 1 2 (cp_wire <$> unirec_couples.*1))) None SOURCE_STATUS_OPENED)
    [] [] (zip (couple_offsets IPFIX_HEADER_LENGTH unirec_couples.*1) (couple_pointer <$> unirec_couples)).

Lemma unirec_fields_fit : fields_fit unirec_heap unirec_fields.
Proof.
  repeat constructor; try done; eexists; (split; [reflexivity|]); repeat constructor; cbn; unfold is_u16, is_u32; lia.
Qed.

Lemma unirec_table_made : create_table unirec_heap unirec_fields = Ok (Some unirec_table).
Proof.
  assert (match create_table unirec_heap unirec_fields with Ok (Some _) => true | _ => false end = true) as H by by vm_compute.
  unfold unirec_table. by destruct (create_table _ _) as [ [t|]| |].
Qed.

Lemma unirec_conf_ready : unirec_ready unirec_heap unirec_fields unirec_ifcs unirec_conf.
Proof.
  split.
  - exact (create_table_finds _ _ _ unirec_fields_fit unirec_table_made).
  - intros n. split; [done| |done]. repeat constructor; cbn; [lia| |lia].
    eexists. split; [reflexivity|]. vm_compute. split; split; congruence.
  - split.
    + repeat constructor; eexists 0, (replicate 600 0); done.
    + intros l f Hf. exists f. split; [done|]. rewrite lookup_empty.
      unfold unirec_heap in Hf. rewrite !lookup_insert_Some, lookup_singleton_Some in Hf.
      by destruct Hf as [ [_ <-]|[_ [ [_ <-]|[_ [_ <-] ] ] ] ].
Qed.

Lemma unirec_field_ready l f : unirec_heap !! l = Some f → field_ready (bufferStaticSize <$> unirec_ifcs) f.
Proof.
  unfold unirec_heap. rewrite !lookup_insert_Some, lookup_singleton_Some.
  intros [ [_ <-]|[_ [ [_ <-]|[_ [_ <-] ] ] ] ]; (split; [done..|]);
    (intros [|[|i] ] n E; vm_compute in E; try discriminate E; injection E as <-; vm_compute; intros H; first [by destruct H|split; discriminate]).
Qed.

Lemma unirec_record_fits addr name port : wf_bytes addr → wf_bytes name → wf_bytes port → blen addr = 4 → blen port = 2 →
  record_fits (field_of unirec_heap unirec_fields) unirec_heap unirec_ifcs (record_example addr name port).
Proof.
  intros Ha Hn Hp La Lp. split.
  - repeat apply Forall_cons_2; [..|done]; (split; [first [exact Ha|exact Hn|exact Hp]|]); intros l E; vm_compute in E; injection E as <-;
      match goal with |- ∃ f, unirec_heap !! ?k = Some f ∧ _ =>
        eexists; split; [reflexivity|]; split; [apply (unirec_field_ready k); reflexivity|] end; intros Hs; [|done|].
    + unfold value_fits. cbn. by rewrite La.
    + split; [done|by left].
  - repeat apply Forall_cons_2; [..|done]; intros l f E; vm_compute in E; injection E as <- <-; cbn; try lia.
    intros _. apply Exists_cons_hd. cbn. split; [lia|]. set_solver.
Qed.

Lemma process_data_sets_sends_witness : ∃ conf',
  process_data_sets {[ 7%positive := template_example ]} unirec_message unirec_conf = Ok (conf', 0) ∧
  sent conf' =
    [(0, [0; 0; 0; 0; 0; 0; 0; 0; 10; 0; 0; 1; 255; 255; 255; 255; 80; 0; 0; 0; 2; 0; 97; 98]);
     (0, [0; 0; 0; 0; 0; 0; 0; 0; 10; 0; 0; 2; 255; 255; 255; 255; 81; 0; 0; 0; 0; 0])].
Proof.
  destruct (process_data_sets_sends unirec_heap unirec_fields unirec_ifcs {[ 7%positive := template_example ]} unirec_message
    1000 1 2 unirec_couples [] unirec_conf) as (conf' & E & Hs & _); [done|exact unirec_conf_ready|by rewrite app_nil_r|done| | |].
  - repeat apply Forall_cons_2; [done| |done]. intros _. split; [done|exact records_example_of].
  - repeat apply Forall_cons_2; [..|done]; apply unirec_record_fits; try done; repeat constructor; lia.
  - exists conf'. split; [exact E|]. rewrite Hs. by vm_compute.
Defined.

(** ** Times, and what goes wrong *)

(** Milliseconds become units of a 2{^32}nd of a second: at most two of these too few. *)
Lemma unirec_time_close msec : 0 ≤ msec < 1000 * 4294967296 →
  unirec_time msec * 1000 ≤ msec * 4294967296 < (unirec_time msec + 2) * 1000.
Proof.
  intros Hm. unfold unirec_time. pose proof (Z.mod_pos_bound msec 1000). pose proof (Z.div_mod msec 1000).
  assert (0 ≤ msec / 1000 < 4294967296) as Hs by (split; [apply Z.div_pos|apply Z.div_lt_upper_bound]; lia).
  set (s := msec / 1000) in *. set (m := msec mod 1000) in *.
  assert (u64 (Z.shiftl s 32) = Z.shiftl s 32) as ->.
  { apply Z.mod_small. rewrite Z.shiftl_mul_pow2 by lia. change (2 ^ 32) with 4294967296. lia. }
  assert (u64 (m * 0x4189374BC6A7EF) = m * 0x4189374BC6A7EF) as -> by (apply Z.mod_small; lia).
  rewrite Z.shiftr_div_pow2 by lia. change (2 ^ 32) with 4294967296.
  pose proof (Z.div_mod (m * 0x4189374BC6A7EF) 4294967296). pose proof (Z.mod_pos_bound (m * 0x4189374BC6A7EF) 4294967296).
  assert (0 ≤ m * 0x4189374BC6A7EF / 4294967296 < 4294967296) as Hf by (split; [apply Z.div_pos|apply Z.div_lt_upper_bound]; lia).
  rewrite lor_shift32 by lia. lia.
Qed.

(** Later times stay later. *)
Lemma unirec_time_mono a b : 0 ≤ a → a < b → b < 1000 * 4294967296 → unirec_time a < unirec_time b.
Proof. intros Ha Hab Hb. pose proof (unirec_time_close a ltac:(lia)). pose proof (unirec_time_close b ltac:(lia)). lia. Qed.

(** An IP address other than the elements of IPv4 is copied with the length of the
    template, whatever room the field has. *)
Lemma ip_overflow mem method f dst ielen id en off sl length b x : type f = UNIREC_FIELD_IP →
  ¬ ((en = 0 ∧ (id = 8 ∨ id = 12)) ∨ (en = 39499 ∧ id = 40)) →
  rdn mem (off + sl) length = Ok x → dst + blen x > blen b →
  store_static mem method f dst ielen id en off sl length b = Fault OobWrite.
Proof.
  intros Hf Hid Hx Hb. unfold store_static. rewrite decide_True, decide_False, Hx, res_bind_ret by done.
  unfold wrn. by rewrite decide_False by lia.
Qed.

(** The length in front of a value is not skipped for the direction bits: the last octet
    but one is taken, or the length itself. *)
Example direction_of_variable_length :
  store_static [1; 7] 0 (unirec_field UNIREC_FIELD_DBF 5 1 [] [] [] []) 0 65535 0 0 0 1 1 [0] = Ok [1] ∧
  store_static [7] 0 (unirec_field UNIREC_FIELD_DBF 5 1 [] [] [] []) 0 1 0 0 0 0 1 [0] = Ok [1] ∧
  store_static [1; 6] 0 (unirec_field UNIREC_FIELD_DBF 5 1 [] [] [] []) 0 65535 0 0 0 1 1 [0] = Ok [1] ∧
  store_static [6] 0 (unirec_field UNIREC_FIELD_DBF 5 1 [] [] [] []) 0 1 0 0 0 0 1 [0] = Ok [0].
Proof. by vm_compute. Qed.

(** A value of variable size is sent by the first interface only: for the next one it is
    empty, also when the first did not send its record. *)
Lemma dyn_value_taken vals c l : l ∈ dynAr c → dynamic c ≠ 0 → dyn_value (left_by vals c) l = [].
Proof.
  intros Hl Hd. unfold dyn_value, left_by. rewrite decide_False by tauto.
  destruct (forget vals (dynAr c) !! l) as [v|] eqn:E; [by apply forget_lookup in E as [_ []]|by rewrite firstn_nil].
Qed.

(** An element that occurs twice counts twice, and the record is not complete then. *)
Example element_twice_not_sent :
  let d := record_example [10; 0; 0; 1] [] [0; 80] in
  length (unirec_sends (field_of unirec_heap unirec_fields) unirec_heap unirec_conf unirec_ifcs d) = 1%nat ∧
  unirec_sends (field_of unirec_heap unirec_fields) unirec_heap unirec_conf unirec_ifcs (d ++ drop 2 d) = [(1, [80; 0])].
Proof. by vm_compute. Qed.

(** The link bit without the field in a format. *)
Lemma no_link_field_faults conf : ODID_get_method conf = ODID_MANAGER_METHOD → LBF_field conf = None → ifc conf ≠ [] →
  store_link_bit conf = Fault NullDeref.
Proof.
  intros Hm Hl Hi. unfold store_link_bit. rewrite decide_True, Hl by done. destruct (ifc conf) as [|c l]; [done|].
  cbn [length range]. by rewrite fold_res_cons.
Qed.

(** The result of [store_packet] says the opposite of what happened. *)
Lemma store_packet_result theap conf msg conf' r : store_packet theap (Some conf) (Some msg) = Ok (conf', r) →
  ∃ c ret, process_data_sets theap msg conf = Ok (c, ret) ∧ conf' = Some c ∧ (ret = 0 → r = -1) ∧ (ret ≠ 0 → r = 0).
Proof.
  unfold store_packet. destruct (process_data_sets theap msg conf) as [ [c ret]| |]; [|done..]. rewrite res_bind_ret.
  intros [= <- <-]. exists c, ret. split_and!; [done..| |]; intros; by case_decide.
Qed.
